(* ===== verification/_CoqProject ===== *)
-Q . S2P
Prelude.v
BaseLib.v
BootConfig.v
BootConfigSpec.v
MemoryMapConfig.v
MemoryMapSpec.v
CsvSpec.v
MemoryMap.v
MergeSpec.v
StaticMaps.v
ShippedConfig.v
MemoryInit.v
MemoryInitSpec.v
Smmu.v
SmmuSpec.v
Unicode.v
Storage.v
Bytes.v
StorageSpec.v
Gpt.v
GptSpec.v
Partitions.v
Slots.v
SlotsSpec.v
SlotsSafe.v
SlotsBoot.v
SlotsFind.v
Flash.v
SparseSpec.v
DeviceInfo.v
Recovery.v
Board.v
BoardDemo.v
Fastboot.v
FastbootCmds.v
FastbootSetup.v
FastbootDemo.v
FastbootSpec.v
FastbootSafe.v
FastbootLock.v
FastbootReady.v
FastbootXfer.v
ShellCode.v
KernelPatch.v
KernelPatchSpec.v
Font.v
SerialPort.v
SerialPortSpec.v
VarCheck.v
VirtualRtc.v
DeviceTree.v
DeviceTreeSpec.v
DeviceTreeExact.v
DeviceTreeList.v
DeviceTreeListSpec.v
BootImage.v
BootImageSpec.v
CmdLine.v
CmdLineSpec.v
BootLoad.v
BootLoadSpec.v
FdtRw.v
FdtRwSpec.v
PartialGoods.v
DtUpdate.v
DtUpdateSpec.v
BootLinux.v
BootLinuxSpec.v
BlockHandles.v
BlockHandlesSpec.v
AvbOps.v
AvbOpsSpec.v
SecureWorld.v
SecureWorldSpec.v
VerifiedBoot.v
VerifiedBootSpec.v
LinuxLoader.v
LinuxLoaderSpec.v
