(* ===== verification/Prelude.v ===== *)
(** * Verification of the Andromeda UEFI platform code.

    The repository builds the UEFI firmware of the Surface Duo phones on top of EDK II.
    This development models the C code of its own that decides things: what memory
    the firmware tells the operating system about (from a text configuration), and
    the Android boot loader part (QcomModulePkg): partition table, A/B slots, Fastboot,
    verified boot, device trees and the start of the kernel.  Each definition carries the name of the C function, variable,
    type or macro it translates; a definition that translates a loop or a block of a
    function is named after what the block does.

    ** The conventions

    - An integer of w bits is a [Z] in [0, 2^w); where the code can wrap, [u8], [u16],
      [u32] or [u64] is written out.  A string is the list of its code units without
      the terminator, a buffer is a list of bytes, a pointer is an offset into its
      buffer or an address.
    - An access outside of a buffer, a loop without an end and a division by zero are a
      [fault], the [None] of the option type and of the state monads; "never faults" is
      part of the theorems, it is not assumed.
    - State is explicit: [boot_state] (Storage.v) holds the static variables of Board.c
      and PartitionTableUpdate.c and the log of device events, [loader] (DeviceInfo.v)
      adds DeviceInfo.c and Recovery.c, [fastboot] (Fastboot.v) adds FastbootCmds.c and
      FastbootMain.c, [vb_state] (SecureWorld.v) adds what was sent to the secure world,
      [app] (LinuxLoader.v) the board and the flags of the application.  The boot path has
      [dt_state] (memory with a device tree, DeviceTree.v), [fdt_state] (FdtRw.v),
      [update_state] (DtUpdate.v), [cmdline_state] (CmdLine.v) and [linux_state]
      (BootLinux.v), which holds them all.  [liftL], [storage], [loading], [texts],
      [updating], [trees], [loaderV], [vbA] and the like run an inner monad in an outer
      one.
    - Code that is not in the repository (BaseLib, the protocols of the firmware, the
      clock, the USB controller) is a class of operations: [BaseLib], [UnicodeLib],
      [AsciiLib], [Firmware], [BoardProtocols], [SetupServices] and the classes of
      Fastboot.v.  What a proof needs of it is a class of laws, in the words of its
      documentation, with an instance that meets them.

    ** The configuration and the memory map

    - BaseLib.v, Unicode.v: the string functions of EDK II.
    - BootConfig.v: AndromedaBootConfigLib.c, the INI reader, and
      QcomUefiPlatConfigParametersHelperLib.c on top of it.  BootConfigSpec.v: an
      abstract reader on lines, the refinement of it for every operation, and the round
      trip of numbers.
    - MemoryMapConfig.v: QcomUefiPlatMemoryMapLib.c, the records of the memory map.
      CsvSpec.v: splitting and unquoting in place refines a reader of fields, and a
      record gives exactly the region it describes.  MemoryMapSpec.v: the overlay of the
      PStore region as a function of addresses, numbers, capacity.
    - MemoryMap.v: AndromedaMemoryMapLib.c, the merge with the DDR banks, the load with
      its cache, QcomUefiPlatMemoryMapHelperLib.c, the bank tables.  MergeSpec.v: the
      merged map holds every configured region and covers them and the banks, in any
      order; who owns an address when no two regions share one and they are in order; the
      map that is returned is well-formed, the load runs once and its answer is final.
    - StaticMaps.v: the built-in tables of SM8150 and SM8350, entry by entry, and
      whether they partition the banks.  ShippedConfig.v: the configuration files of the
      repository, parsed by the model and compared with the tables.
    - MemoryInit.v: MemoryInitPei and ArmPlatformLibMem, which turn the map into HOBs and
      page tables.  MemoryInitSpec.v: the HOBs describe the map.  Smmu.v:
      QcomMmuDetachHelperLib, which takes the SMMU away from the earlier boot stage;
      SmmuSpec.v: what is detached and what is kept.

    MemoryMapConfig calls BootConfig through [serves], MergeSpec uses CsvSpec's
    refinement of the loader and never looks into the text.

    ** The storage and the slots

    - Storage.v: the root device, page sizes and block writes of Board.c and
      LinuxLoaderLib.c over the class [Firmware].  StorageSpec.v: what is on the device
      after a write.
    - Bytes.v: loads and stores; Gpt.v: the GPT half of PartitionTableUpdate.c.
      GptSpec.v: which headers are accepted, that patching gives a valid table, and
      what is written.
    - Partitions.v: the list half of PartitionTableUpdate.c, with the reads and writes
      of named partitions.  Slots.v: the A/B slots.  SlotsSpec.v (the active slot),
      SlotsSafe.v (no fault, no table is written, well-formed lists stay so), SlotsBoot.v
      (making a slot active), SlotsFind.v (the slot that is booted, and what it costs in
      retries).

    ** Fastboot

    - Flash.v: image handlers of FastbootCmds.c.  SparseSpec.v: a sparse image ends up as
      an independent decoder reads it.
    - DeviceInfo.v, Recovery.v, Board.v: DeviceInfo.c, Recovery.c, the rest of Board.c and
      the battery part of UpdateCmdLine.c.
    - Fastboot.v: the state of a session, the transport and the download.
      FastbootCmds.v: the commands and the events.  FastbootSetup.v: the start.
      FastbootDemo.v: a concrete device.
    - FastbootSpec.v: the invariant [session_inv] and its frame lemmas (hint database
      [frame]); FastbootSafe.v: every step keeps it, so that no transfer leaves the
      buffers; FastbootLock.v: the storage of a locked device is not
      touched in a user build, and what a host can store there all the same; FastbootReady.v: the start
      establishes the invariant; FastbootXfer.v: a download that the host completes ends.

    ** Device trees

    - DeviceTree.v: the choice of a device tree, LocateDeviceTree.c and Rtic.c, over the
      memory of the image; libfdt is a class.  DeviceTreeSpec.v: the match values as sets of
      bits, the best of a list.  DeviceTreeExact.v: no tree matches so exactly that its
      overlay is skipped.  DeviceTreeList.v, DeviceTreeListSpec.v: the older choice, with
      its queue of entries.
    - FdtRw.v: FdtRw.c over the class [LibfdtRw], with its list of nodes (FdtRwSpec.v: what
      the list answers is current).  PartialGoods.v: parts of a chip that do not work.
      DtUpdate.v: UpdateDeviceTree.c.  DtUpdateSpec.v: memory and fstab in the tree.

    ** Booting

    - BlockHandles.v: the search for block devices of LinuxLoaderLib.c;
      BlockHandlesSpec.v: which handles it answers with, and that it meets the laws of
      [Firmware] that Storage.v asks for.
    - BootImage.v: headers of boot images, CheckImageHeader and loading.  BootImageSpec.v.
    - CmdLine.v: UpdateCmdLine.c and LECmdLine.c; CmdLineSpec.v: its two passes agree.
    - BootLoad.v: kernels and their packages, addresses, overlays.  BootLoadSpec.v: no
      write leaves the memory of the image, the layout.
    - BootLinux.v: the composition, up to the jump into the kernel.  BootLinuxSpec.v: when
      it starts one, and what was computed and prepared in that run.  BoardDemo.v: a board to try things on.
    - AvbOps.v: avb_ops.c, the operations libavb asks for; AvbOpsSpec.v: reads of any
      alignment, answered by the device or not, trusted keys.  SecureWorld.v: calls of TrustZone and KeymasterClient.c;
      SecureWorldSpec.v: what a success has sent.
    - VerifiedBoot.v: VerifiedBoot.c.  Its functions run in the monad [G] over a
      [BootInfo], which also has the two ways to leave a function (return, label out).
      VerifiedBootSpec.v: what holds when images may be booted.
    - LinuxLoader.v: the entry of the application, which composes the others up to
      BootLinux or Fastboot; LinuxLoaderSpec.v: it always takes Fastboot, and
      asks the secure world at most for the data of the hypervisor, whose flags are kept
      in [app] and in [linux_state].

    ** Services of the firmware

    - ShellCode.v, KernelPatch.v: KernelErrataPatcherLib, which patches the loader of
      Windows when it leaves the boot services.  KernelPatchSpec.v: at most one call is
      redirected, the rest of the memory and the write protection stay as they were.
    - Font.v, SerialPort.v: the serial port libraries (a ring in memory, a console on the
      frame buffer).  SerialPortSpec.v: the ring as a sequence, what a glyph looks like on
      the screen, that no write leaves the memory of either while the cursor is on the
      screen, and what happens when it is not.
    - VarCheck.v: which values MemoryTypeInfoSecVarCheckLib lets into a variable.
      VirtualRtc.v: the clock of VirtualRealTimeClockLib.

    ** Fuel and bounds

    Loops of the code over a buffer or a list are structural on the rest of it or have
    the length as fuel; theorems such as [GetAndromedaBootConfigValue_refines] show that
    the fuel is enough, because running out of it is a fault.  The search for a download
    buffer has [ALLOCATE_ROUNDS] = 100 rounds and each leaves three quarters of at most
    2^64 bytes; [download_buffer_found] shows that it ends within them.
    The loop of CmdSetActive has the array it walks as fuel and faults where it leaves
    it.  A character of the console is painted at most [PAINT_ROUNDS] = 2 times, since
    the cursor is on the first line after the screen was cleared.  A session of Fastboot
    needs no fuel: it is a sequence of steps.
    In the boot path a loop has what it walks as fuel: [soc_loop] and [appended_loop] the
    size of the kernel, [subnode_loop] and [fstab_loop] the length of the tree, [path_loop]
    that of the path, [skip_name] the 256 bytes a name may have.  The waits for the SMMU
    have the code's own time-out.  The depth of aliases in a tree is an argument.  The loop
    of ShutdownUefiBootServices has no bound in the code; its rounds are an argument.

    ** Not modelled

    - libavb behind its entry [avb_slot_verify], a library of Android that the repository
      copies: verified boot sees it through the class [Libavb].  libfdt, libufdt and zlib
      are classes for the same reason.
    - The code of the kernel after the jump, and the switch to 32 bits.
    - The menus and the keys; which screen of verified boot is shown is modelled.
    - Freeing memory; an allocation only succeeds or fails.
    - The threads of EFI_KERNEL_PROTOCOL: [IsUseMThreadParallel] is FALSE, the USB events
      that a timer handles inside of a write come after it.
    - Timing: a timer event may come at any time after it was started.
    - Printing to a console, and assertions of a debug build.
    - The drivers, the user interface, and the other libraries that are copied into the
      repository (OpenSSL, Mbed TLS); the manifest lists these parts one by one. *)
From stdpp Require Import base numbers list option strings.
From Stdlib Require Import ZArith Lia Ascii.
Local Open Scope Z_scope.

(** ** Machine integers: a w-bit unsigned value is a [Z] in [0, 2^w), and every
    operation of the code that can wrap is followed by the truncation. *)
Definition u8 (z : Z) : Z := z mod 2 ^ 8.
Definition u16 (z : Z) : Z := z mod 2 ^ 16.
Definition u32 (z : Z) : Z := z mod 2 ^ 32.
Definition u64 (z : Z) : Z := z mod 2 ^ 64.
(** A signed 32-bit integer. *)
Definition s32 (z : Z) : Z := let u := u32 z in if u <? 2 ^ 31 then u else u - 2 ^ 32.

Definition MAX_UINT32 : Z := 2 ^ 32 - 1.
Definition MAX_UINT64 : Z := 2 ^ 64 - 1.
Definition EFI_PAGE_SIZE : Z := 4096.

Definition in_u8 (z : Z) : Prop := 0 <= z < 2 ^ 8.
Definition in_u32 (z : Z) : Prop := 0 <= z < 2 ^ 32.
Definition in_u64 (z : Z) : Prop := 0 <= z < 2 ^ 64.

(** [CHECK_ADD64] of UpdateDeviceTree.h: does [a + b] overflow 64 bits? *)
Definition CHECK_ADD64 (a b : Z) : bool := u64 (MAX_UINT64 - b) <? a.

(** ** Status codes of the UEFI specification the sources use. *)
Inductive EFI_STATUS : Type :=
| EFI_SUCCESS
| EFI_LOAD_ERROR
| EFI_INVALID_PARAMETER
| EFI_UNSUPPORTED
| EFI_BAD_BUFFER_SIZE
| EFI_BUFFER_TOO_SMALL
| EFI_NOT_READY
| EFI_DEVICE_ERROR
| EFI_OUT_OF_RESOURCES
| EFI_VOLUME_CORRUPTED
| EFI_VOLUME_FULL
| EFI_NO_MEDIA
| EFI_NOT_FOUND
| EFI_ABORTED
| EFI_PROTOCOL_ERROR
| EFI_NO_MAPPING
| EFI_NOT_STARTED
| EFI_COMPROMISED_DATA
| EFI_SECURITY_VIOLATION
| EFI_WARNING (code : positive).

#[export] Instance EFI_STATUS_eq_dec : EqDecision EFI_STATUS.
Proof. solve_decision. Defined.

(** [EFI_ERROR (Status)]: the high bit of the code is set. *)
Definition EFI_ERROR (s : EFI_STATUS) : bool :=
  match s with EFI_SUCCESS | EFI_WARNING _ => false | _ => true end.

Definition is_success (s : EFI_STATUS) : bool := bool_decide (s = EFI_SUCCESS).

(** ** Memory faults.  An operation that reads or writes memory returns an
    [option]; [fault] is an access outside the object, or running out of the
    fuel of a loop.  The theorems show where it cannot happen. *)
Abbreviation fault := None (only parsing).

(** ** State and faults: the monad of the code that keeps static variables.
    A computation reads and writes a state [S] and may fault. *)
Definition M (S A : Type) : Type := S -> option (A * S).
#[export] Instance M_ret (S : Type) : MRet (M S) := fun A a s => Some (a, s).
#[export] Instance M_bind (S : Type) : MBind (M S) := fun A B f m s =>
  match m s with Some (a, s') => f a s' | None => None end.
Definition gets {S A} (f : S -> A) : M S A := fun s => Some (f s, s).
Definition modify {S} (f : S -> S) : M S unit := fun s => Some (tt, f s).
Definition crash {S A} : M S A := fun _ => None.
(** An access to memory inside a stateful computation. *)
Definition access {S A} (o : option A) : M S A := fun s =>
  match o with Some a => Some (a, s) | None => None end.

(** ** Lists as arrays of bytes *)
Definition seg {A} (l : list A) (s e : nat) : list A := take (e - s) (drop s l).

(** The number of leading elements that satisfy [P]. *)
Fixpoint count_while {A} (P : A -> bool) (l : list A) : nat :=
  match l with
  | [] => 0
  | x :: l' => if P x then S (count_while P l') else 0
  end.

Definition ltrim {A} (P : A -> bool) (l : list A) : list A :=
  drop (count_while P l) l.
Definition rtrim {A} (P : A -> bool) (l : list A) : list A :=
  reverse (ltrim P (reverse l)).
Definition trim {A} (P : A -> bool) (l : list A) : list A := rtrim P (ltrim P l).

(** The loops [while (i < e && P (buf[i])) i++] and
    [while (e > s && P (buf[e - 1])) e--], with the loop bound [n = e - s]. *)
Fixpoint scan_fwd {A} (P : A -> bool) (buf : list A) (n i : nat) : option nat :=
  match n with
  | O => Some i
  | S n' => c ← buf !! i; if P c then scan_fwd P buf n' (S i) else Some i
  end.

Fixpoint scan_bwd {A} (P : A -> bool) (buf : list A) (n e : nat) : option nat :=
  match n with
  | O => Some e
  | S n' => c ← buf !! (e - 1)%nat; if P c then scan_bwd P buf n' (e - 1) else Some e
  end.

(** A C string in memory: its characters and the terminator. *)
Definition cstr_at (s : list Z) (i : nat) : option Z := (s ++ [0]) !! i.

(** Character constants and string literals as bytes. *)
Definition ch (c : Ascii.ascii) : Z := Z.of_N (Ascii.N_of_ascii c).
Arguments ch c%_char.
Fixpoint bytes (s : string) : list Z :=
  match s with
  | EmptyString => []
  | String c s' => ch c :: bytes s'
  end.
Arguments bytes s%_string.
Definition dquote : Z := 34.
Definition newline : Z := 10.
Definition tab : Z := 9.
Definition carriage_return : Z := 13.

(** ** Automation *)
#[global] Arguments Nat.eqb : simpl never.
#[global] Arguments Nat.ltb : simpl never.
#[global] Arguments Nat.leb : simpl never.
#[global] Arguments Nat.sub : simpl nomatch.
#[global] Arguments Z.eqb : simpl never.
#[global] Arguments Z.ltb : simpl never.
#[global] Arguments Z.leb : simpl never.
#[global] Arguments Z.mul : simpl never.
#[global] Arguments Z.add : simpl never.
#[global] Arguments Z.pow : simpl never.
#[global] Arguments Z.of_nat : simpl never.
#[global] Arguments u8 : simpl never.
#[global] Arguments u32 : simpl never.
#[global] Arguments u64 : simpl never.

Create HintDb s2p discriminated.
Create Rewrite HintDb s2p.
#[export] Hint Constants Opaque : s2p.
#[export] Hint Variables Opaque : s2p.

(** Splits the tests of the code: the booleans of [Z] and [nat] in hypotheses
    and goal become propositions. *)
Ltac bool_to_prop :=
  repeat match goal with
  | H : (_ && _)%bool = true |- _ => apply andb_true_iff in H as [? ?]
  | H : (_ || _)%bool = false |- _ => apply orb_false_iff in H as [? ?]
  | H : negb _ = true |- _ => apply negb_true_iff in H
  | H : negb _ = false |- _ => apply negb_false_iff in H
  | H : (_ <? _) = true |- _ => apply Z.ltb_lt in H
  | H : (_ <? _) = false |- _ => apply Z.ltb_ge in H
  | H : (_ <=? _) = true |- _ => apply Z.leb_le in H
  | H : (_ <=? _) = false |- _ => apply Z.leb_gt in H
  | H : (_ =? _) = true |- _ => apply Z.eqb_eq in H
  | H : (_ =? _) = false |- _ => apply Z.eqb_neq in H
  | H : (_ <? _)%nat = true |- _ => apply Nat.ltb_lt in H
  | H : (_ <? _)%nat = false |- _ => apply Nat.ltb_ge in H
  | H : (_ <=? _)%nat = true |- _ => apply Nat.leb_le in H
  | H : (_ <=? _)%nat = false |- _ => apply Nat.leb_gt in H
  | H : (_ =? _)%nat = true |- _ => apply Nat.eqb_eq in H
  | H : (_ =? _)%nat = false |- _ => apply Nat.eqb_neq in H
  end.

(** Case analysis on the innermost condition of the goal, remembering it. *)
Ltac case_if :=
  match goal with
  | |- context [if ?b then _ else _] =>
      lazymatch b with context [if _ then _ else _] => fail | _ => idtac end;
      let E := fresh "E" in destruct b eqn:E
  end.
Ltac case_if_in H :=
  match type of H with
  | context [if ?b then _ else _] =>
      lazymatch b with context [if _ then _ else _] => fail | _ => idtac end;
      let E := fresh "E" in destruct b eqn:E
  end.

(** Weakens the predicate of a [Forall] hypothesis. *)
Ltac weaken H := eapply Forall_impl; [exact H|cbn beta; intros ? ?].

(** Runs the steps of the state monad, and nothing else. *)
Lemma bind_run {S A B} (m : M S A) (f : A -> M S B) s :
  (m ≫= f) s = match m s with Some (a, s') => f a s' | None => None end.
Proof. done. Qed.
Ltac run_cbn := cbn [mret M_ret gets modify access crash fst snd].
Ltac run := repeat first [rewrite bind_run | progress run_cbn].
Ltac run_in H :=
  repeat first [rewrite bind_run in H | progress cbn [mret M_ret gets modify access crash fst snd] in H].

(** Runs the binds of the option monad, and nothing else. *)
Ltac bind_step := cbn [mbind option_bind fst snd].

(** ** Machine integers *)
Lemma u64_small z : in_u64 z -> u64 z = z.
Proof. intros H. apply Z.mod_small, H. Qed.
Lemma u32_small z : in_u32 z -> u32 z = z.
Proof. intros H. apply Z.mod_small, H. Qed.
Lemma u8_small z : in_u8 z -> u8 z = z.
Proof. intros H. apply Z.mod_small, H. Qed.
Lemma u64_range z : in_u64 (u64 z).
Proof. apply Z.mod_pos_bound. lia. Qed.
Lemma u32_range z : in_u32 (u32 z).
Proof. apply Z.mod_pos_bound. lia. Qed.
Lemma u8_range z : in_u8 (u8 z).
Proof. apply Z.mod_pos_bound. lia. Qed.
#[export] Hint Resolve u64_small u32_small u8_small u64_range u32_range u8_range : s2p.

(** The overflow test is exact. *)
Lemma CHECK_ADD64_spec a b :
  in_u64 a -> in_u64 b -> CHECK_ADD64 a b = (2 ^ 64 <=? a + b).
Proof.
  unfold in_u64, CHECK_ADD64, MAX_UINT64. intros Ha Hb.
  rewrite u64_small by (unfold in_u64; lia).
  apply eq_bool_prop_intro. rewrite !Is_true_true, Z.ltb_lt, Z.leb_le. lia.
Qed.

(** ** Segments of a buffer *)
Section segments.
Context {A : Type}.
Implicit Types (l : list A) (P : A -> bool).

Lemma seg_length l s e : (s <= e <= length l)%nat -> length (seg l s e) = (e - s)%nat.
Proof. intros. unfold seg. rewrite length_take, length_drop. lia. Qed.

Lemma seg_nil l s : seg l s s = [].
Proof. unfold seg. by rewrite Nat.sub_diag. Qed.

Lemma seg_full l : seg l 0 (length l) = l.
Proof. unfold seg. rewrite Nat.sub_0_r. apply take_ge. simpl. lia. Qed.

Lemma seg_lookup l s e i :
  (i < e - s)%nat -> seg l s e !! i = l !! (s + i)%nat.
Proof. intros. unfold seg. by rewrite lookup_take_lt, lookup_drop. Qed.

Lemma seg_seg l s e a b :
  (b <= e - s)%nat -> seg (seg l s e) a b = seg l (s + a) (s + b).
Proof.
  intros. unfold seg. rewrite !skipn_firstn_comm, take_take, drop_drop.
  f_equal; lia.
Qed.

Lemma seg_cons l s e x :
  (s < e)%nat -> l !! s = Some x -> seg l s e = x :: seg l (S s) e.
Proof.
  intros H Hx. unfold seg. rewrite (drop_S l x s Hx).
  replace (e - s)%nat with (S (e - S s)) by lia. done.
Qed.

Lemma seg_snoc l s e x :
  (s <= e)%nat -> l !! e = Some x -> seg l s (S e) = seg l s e ++ [x].
Proof.
  intros H Hx. unfold seg. replace (S e - s)%nat with (S (e - s)) by lia.
  erewrite take_S_r; [done|]. rewrite lookup_drop. rewrite <- Hx. f_equal. lia.
Qed.

Lemma seg_app l s m e :
  (s <= m <= e)%nat -> (e <= length l)%nat -> seg l s e = seg l s m ++ seg l m e.
Proof.
  intros H He. unfold seg.
  replace (e - s)%nat with ((m - s) + (e - m))%nat by lia.
  rewrite <- (take_take_drop (drop s l)), drop_drop. by replace (s + (m - s))%nat with m by lia.
Qed.

Lemma seg_drop l s e a :
  (s + a <= e)%nat -> drop a (seg l s e) = seg l (s + a) e.
Proof.
  intros. unfold seg. rewrite skipn_firstn_comm, drop_drop. f_equal; lia.
Qed.

Lemma seg_take l s e a :
  (s + a <= e)%nat -> take a (seg l s e) = seg l s (s + a).
Proof. intros. unfold seg. rewrite take_take. f_equal. lia. Qed.

Lemma seg_all_drop l s : seg l s (length l) = drop s l.
Proof. unfold seg. apply take_ge. rewrite length_drop. lia. Qed.

(** ** Counting a prefix *)
Lemma count_while_length P l : (count_while P l <= length l)%nat.
Proof. induction l as [|x l IH]; simpl; [lia|]. destruct (P x); lia. Qed.

Lemma count_while_all P l : Forall (fun x => P x = true) (take (count_while P l) l).
Proof.
  induction l as [|x l IH]; simpl; [constructor|].
  destruct (P x) eqn:E; simpl; constructor; auto.
Qed.

Lemma count_while_stop P l x : l !! count_while P l = Some x -> P x = false.
Proof.
  induction l as [|y l IH]; simpl; [done|].
  destruct (P y) eqn:E; simpl; [auto|]. intros [= ->]. done.
Qed.

Lemma count_while_app_all P l1 l2 :
  Forall (fun x => P x = true) l1 ->
  count_while P (l1 ++ l2) = (length l1 + count_while P l2)%nat.
Proof. induction 1 as [|x l1 Hx _ IH]; simpl; [done|]. rewrite Hx, IH. lia. Qed.

Lemma count_while_app_stop P l1 l2 :
  (count_while P l1 < length l1)%nat -> count_while P (l1 ++ l2) = count_while P l1.
Proof.
  induction l1 as [|x l1 IH]; simpl; [lia|]. intros H.
  destruct (P x); [|done]. f_equal. apply IH. lia.
Qed.

Lemma count_while_none P l :
  Forall (fun x => P x = false) l -> count_while P l = 0%nat.
Proof. destruct 1; simpl; [done|]. by rewrite H. Qed.

Lemma ltrim_length P l : (length (ltrim P l) <= length l)%nat.
Proof. unfold ltrim. rewrite length_drop. lia. Qed.

(** ** Scanning loops *)
Lemma scan_fwd_seg P l n s :
  (s + n <= length l)%nat ->
  scan_fwd P l n s = Some (s + count_while P (seg l s (s + n)))%nat.
Proof.
  revert s. induction n as [|n IH]; intros s H; simpl.
  - rewrite Nat.add_0_r, seg_nil. simpl. f_equal. lia.
  - destruct (lookup_lt_is_Some_2 l s) as [x Hx]; [lia|]. rewrite Hx. simpl.
    rewrite (seg_cons l s (s + S n) x) by (auto; lia). simpl.
    destruct (P x); [|f_equal; lia].
    rewrite IH by lia. replace (s + S n)%nat with (S s + n)%nat by lia. f_equal. lia.
Qed.

Lemma scan_fwd_range P l s e :
  (s <= e <= length l)%nat ->
  scan_fwd P l (e - s) s = Some (s + count_while P (seg l s e))%nat.
Proof. intros H. rewrite scan_fwd_seg by lia. by replace (s + (e - s))%nat with e by lia. Qed.

Lemma count_while_seg_le P l s e :
  (s <= e <= length l)%nat -> (count_while P (seg l s e) <= e - s)%nat.
Proof.
  intros H. etransitivity; [apply count_while_length|]. by rewrite seg_length by lia.
Qed.

Lemma scan_bwd_seg P l n e :
  (n <= e <= length l)%nat ->
  scan_bwd P l n e = Some (e - count_while P (reverse (seg l (e - n) e)))%nat.
Proof.
  revert e. induction n as [|n IH]; intros e H; simpl.
  - rewrite Nat.sub_0_r, seg_nil. simpl. f_equal. lia.
  - destruct e as [|e]; [lia|]. simpl. rewrite Nat.sub_0_r.
    destruct (lookup_lt_is_Some_2 l e) as [x Hx]; [lia|]. rewrite Hx. simpl.
    rewrite (seg_snoc l (e - n) e x) by (auto; lia).
    rewrite reverse_app. simpl. destruct (P x); [|f_equal; lia].
    rewrite IH by lia. done.
Qed.
End segments.
