(* ===== verification/BaseLib.v ===== *)
(** * The string functions of EDK II's BaseLib that the sources call.

    BaseLib is not part of this repository, so its functions are the operations
    of a class and what the callers rely on are the laws of a second class, in
    the words of the library's documentation.  A C string argument is passed as
    its characters, without the terminator; [c_string] reads it from memory.
    [reference_BaseLib] shows the laws can be met. *)
From stdpp Require Import base numbers list option.
From Stdlib Require Import ZArith Lia.
From S2P Require Import Prelude.
Local Open Scope Z_scope.

(** The C string at index [i] of a buffer; [fault] when it is not terminated
    inside the buffer. *)
Definition c_string (buf : list Z) (i : nat) : option (list Z) :=
  let k := count_while (fun c => negb (c =? 0)) (drop i buf) in
  if (i + k <? length buf)%nat then Some (take k (drop i buf)) else fault.

(** A C string: no terminator among its characters. *)
Definition cstring (s : list Z) : Prop := Forall (fun c => c <> 0) s.

(** Letter case, as the documentation of the case-insensitive functions has it. *)
Definition to_upper (c : Z) : Z := if (97 <=? c) && (c <=? 122) then c - 32 else c.

(** [s] occurs in [t] at [k]. *)
Definition occurs_at (s t : list Z) (k : nat) : Prop :=
  (k + length s <= length t)%nat /\ take (length s) (drop k t) = s.

Class BaseLib := {
  AsciiStrLen : list Z -> nat;
  AsciiStriCmp : list Z -> list Z -> Z;
  AsciiStrStr : list Z -> list Z -> option nat
}.

Class BaseLibLaws (BL : BaseLib) := {
  (** "Returns the length of a Null-terminated ASCII string." *)
  AsciiStrLen_law s : AsciiStrLen s = length s;
  (** "If FirstString is identical to SecondString [without case], 0 is returned." *)
  AsciiStriCmp_law s t : AsciiStriCmp s t = 0 <-> to_upper <$> s = to_upper <$> t;
  (** "The first occurrence of SearchString in String, or NULL." *)
  AsciiStrStr_law s t :
    match AsciiStrStr s t with
    | Some k => occurs_at t s k /\ forall j, (j < k)%nat -> ~ occurs_at t s j
    | None => forall j, ~ occurs_at t s j
    end
}.

#[export] Instance occurs_at_dec s t k : Decision (occurs_at s t k).
Proof. unfold occurs_at. apply _. Defined.

(** The first index below [n + i] at which [P] holds. *)
Fixpoint first_from (P : nat -> bool) (n i : nat) : option nat :=
  match n with
  | O => None
  | S n' => if P i then Some i else first_from P n' (S i)
  end.

Definition reference_BaseLib : BaseLib := {|
  AsciiStrLen := length;
  AsciiStriCmp s t := if decide (to_upper <$> s = to_upper <$> t) then 0 else 1;
  AsciiStrStr s t := first_from (fun k => bool_decide (occurs_at t s k)) (S (length s)) 0
|}.

Lemma first_from_spec P n i :
  match first_from P n i with
  | Some k => (i <= k < i + n)%nat /\ P k = true /\ forall j, (i <= j < k)%nat -> P j = false
  | None => forall j, (i <= j < i + n)%nat -> P j = false
  end.
Proof.
  revert i. induction n as [|n IH]; intros i; simpl; [intros; lia|].
  destruct (P i) eqn:E; [split; [lia|split; [done|intros; lia]]|].
  specialize (IH (S i)). destruct (first_from P n (S i)) as [k|].
  - destruct IH as (? & ? & Hj). split; [lia|split; [done|]].
    intros j ?. destruct (Nat.eq_dec j i) as [->|]; [done|]. apply Hj. lia.
  - intros j ?. destruct (Nat.eq_dec j i) as [->|]; [done|]. apply IH. lia.
Qed.

Lemma reference_BaseLib_laws : BaseLibLaws reference_BaseLib.
Proof.
  split; cbn [AsciiStrLen AsciiStriCmp AsciiStrStr reference_BaseLib].
  - done.
  - intros s t. by destruct (decide _); split.
  - intros s t.
    pose proof (first_from_spec (fun k => bool_decide (occurs_at t s k)) (S (length s)) 0) as H.
    destruct (first_from _ _ _) as [k|].
    + destruct H as (_ & Hk & Hj). split; [by apply bool_decide_eq_true in Hk|].
      intros j Hlt. apply (bool_decide_eq_false (occurs_at t s j)), Hj. lia.
    + intros j Ho. assert (Ho' := Ho). destruct Ho' as [Hle _].
      specialize (H j ltac:(lia)). by apply bool_decide_eq_false in H.
Qed.

(** ** Strings in memory *)
Lemma c_string_at pre s post :
  cstring s -> c_string (pre ++ s ++ 0 :: post) (length pre) = Some s.
Proof.
  intros Hs. unfold c_string. rewrite drop_app_length.
  rewrite count_while_app_all.
  2: { revert Hs. apply Forall_impl. intros c Hc. by apply negb_true_iff, Z.eqb_neq. }
  cbn [count_while]. rewrite Z.eqb_refl. cbn [negb]. rewrite Nat.add_0_r.
  rewrite !length_app. cbn [length].
  destruct (Nat.ltb_spec (length pre + length s) (length pre + (length s + S (length post)))); [|lia].
  by rewrite take_app_length.
Qed.

Lemma StriCmp_refl `{BL : BaseLib} `{!BaseLibLaws BL} s : AsciiStriCmp s s = 0.
Proof. by apply AsciiStriCmp_law. Qed.

(** Searching for a one-character string is looking the character up. *)
Lemma StrStr_char `{BL : BaseLib} `{!BaseLibLaws BL} s c :
  bool_decide (AsciiStrStr s [c] = None) = negb (bool_decide (c ∈ s)).
Proof.
  pose proof (AsciiStrStr_law s [c]) as H.
  assert (forall k, occurs_at [c] s k <-> s !! k = Some c) as Ho.
  { intros k. unfold occurs_at. cbn [length]. split.
    - intros [Hk E]. destruct (lookup_lt_is_Some_2 s k) as [x Hx]; [lia|].
      rewrite (drop_S _ _ _ Hx) in E. by injection E as ->.
    - intros Hx. assert (Hl := lookup_lt_Some _ _ _ Hx).
      rewrite (drop_S _ _ _ Hx). split; [lia|done]. }
  destruct (AsciiStrStr s [c]) as [k|].
  - rewrite bool_decide_false by done. rewrite bool_decide_true; [done|].
    destruct H as [H _]. apply Ho in H. by eapply list_elem_of_lookup_2.
  - rewrite bool_decide_true by done. rewrite bool_decide_false; [done|].
    intros Hin. apply list_elem_of_lookup_1 in Hin as [k Hk]. by apply Ho, H in Hk.
Qed.
