(* ===== verification/BootConfig.v ===== *)
(** * AndromedaBootConfigLib: the INI reader of the runtime boot configuration.

    [Platforms/AndromedaPkg/Library/AndromedaBootConfigLib/AndromedaBootConfigLib.c].
    The index-based loops of the C code; every read of the configuration text, of a C
    string or of a caller's buffer is checked and an access outside it is a [fault].  The
    abstract reader on lists of lines, which this one refines, is in BootConfigSpec.v. *)
From stdpp Require Import base numbers list option strings.
From Stdlib Require Import ZArith Lia Ascii.
From S2P Require Import Prelude.
Local Open Scope Z_scope.

(** The library's two globals and the HOB list it falls back to (the data of the
    first HOB with [gAndromedaBootConfigHobGuid], [None] when there is none). *)
Record boot_config := mk_boot_config {
  gAndromedaBootConfigBuffer : option (list Z);
  gAndromedaBootConfigBufferSize : nat;
  ConfigHobData : option (list Z)
}.

Definition ANDROMEDA_BOOT_CONFIG_MAX_SIZE : Z := 0xFFFF.
Definition too_large (n : nat) : bool := ANDROMEDA_BOOT_CONFIG_MAX_SIZE <? Z.of_nat n.

Definition IsConfigSpace (Character : Z) : bool :=
  (Character =? ch " ") || (Character =? tab) || (Character =? carriage_return).

Definition ToLowerAscii (Character : Z) : Z :=
  if (ch "A" <=? Character) && (Character <=? ch "Z")
  then u8 (Character - ch "A" + ch "a") else Character.

(** [RangeEqualsString (&Data[Off], DataSize, String)]; [n] is
    [DataSize - Index]. *)
Fixpoint range_equals_loop (Data : list Z) (Off : nat) (String : list Z)
    (n Index : nat) : option bool :=
  match n with
  | O => c ← cstr_at String Index; Some (c =? 0)
  | S n' =>
      c ← cstr_at String Index;
      if c =? 0 then Some false else
      d ← Data !! (Off + Index)%nat;
      if negb (ToLowerAscii d =? ToLowerAscii c) then Some false
      else range_equals_loop Data Off String n' (S Index)
  end.
Definition RangeEqualsString (Data : list Z) (Off DataSize : nat)
    (String : list Z) : option bool :=
  range_equals_loop Data Off String DataSize 0.

Definition not_nul (c : Z) : bool := negb (c =? 0).

Definition SetAndromedaBootConfigBuffer (g : boot_config)
    (Config : option (list Z)) (ConfigSize : nat) : option (EFI_STATUS * boot_config) :=
  let g0 := mk_boot_config None 0 (ConfigHobData g) in
  match Config with
  | None => Some (EFI_INVALID_PARAMETER, g0)
  | Some cfg =>
      if (ConfigSize =? 0)%nat then Some (EFI_INVALID_PARAMETER, g0) else
      if too_large ConfigSize then Some (EFI_COMPROMISED_DATA, g0) else
      Index ← scan_fwd not_nul cfg ConfigSize 0;
      if (Index <? ConfigSize)%nat then Some (EFI_COMPROMISED_DATA, g0) else
      Some (EFI_SUCCESS, mk_boot_config (Some cfg) ConfigSize (ConfigHobData g))
  end.

Definition TrimRange (Data : list Z) (Start End : nat) : option (nat * nat) :=
  Start' ← scan_fwd IsConfigSpace Data (End - Start) Start;
  End' ← scan_bwd IsConfigSpace Data (End - Start') End;
  Some (Start', End').

(** The loop of [TrimInlineComment], [n] being [*End - Index]; the result is the
    final [*End]. *)
Fixpoint inline_comment_loop (Data : list Z) (Start End n Index : nat)
    (InQuotes Escaped : bool) : option nat :=
  match n with
  | O => Some End
  | S n' =>
      c ← Data !! Index;
      if InQuotes && (c =? ch "\") && negb Escaped then
        inline_comment_loop Data Start End n' (S Index) InQuotes true
      else if c =? dquote then
        inline_comment_loop Data Start End n' (S Index)
          (if Escaped then InQuotes else negb InQuotes) false
      else if negb InQuotes && ((c =? ch "#") || (c =? ch ";")) then
        AtBoundary ← (if (Index =? Start)%nat then Some true
                      else p ← Data !! (Index - 1)%nat; Some (IsConfigSpace p));
        if (AtBoundary : bool) then
          r ← TrimRange Data Start Index; Some r.2
        else inline_comment_loop Data Start End n' (S Index) InQuotes false
      else inline_comment_loop Data Start End n' (S Index) InQuotes false
  end.
Definition TrimInlineComment (Data : list Z) (Start End : nat) : option nat :=
  inline_comment_loop Data Start End (End - Start) Start false false.

Definition GetBootConfig (g : boot_config) : EFI_STATUS * option (list Z * nat) :=
  match gAndromedaBootConfigBuffer g with
  | Some cfg =>
      if (gAndromedaBootConfigBufferSize g =? 0)%nat
         || too_large (gAndromedaBootConfigBufferSize g)
      then (EFI_COMPROMISED_DATA, None)
      else (EFI_SUCCESS, Some (cfg, gAndromedaBootConfigBufferSize g))
  | None =>
      match ConfigHobData g with
      | None => (EFI_NOT_FOUND, None)
      | Some data =>
          if (length data =? 0)%nat || too_large (length data)
          then (EFI_COMPROMISED_DATA, None)
          else (EFI_SUCCESS, Some (data, length data))
      end
  end.

(** The section-header branch, the same in both readers: the line is malformed
    ([EFI_COMPROMISED_DATA]) or says whether the requested section starts. *)
Definition section_header (Config : list Z) (ContentStart ContentEnd : nat)
    (Section : list Z) : option (EFI_STATUS * bool) :=
  let SectionStart := S ContentStart in
  SectionEnd ← scan_fwd (fun c => negb (c =? ch "]")) Config
                 (ContentEnd - SectionStart) SectionStart;
  if (SectionEnd =? ContentEnd)%nat then Some (EFI_COMPROMISED_DATA, false) else
  let SectionClose := SectionEnd in
  '(SectionStart, SectionEnd) ← TrimRange Config SectionStart SectionEnd;
  CommentStart ← scan_fwd IsConfigSpace Config
                   (ContentEnd - S SectionClose) (S SectionClose);
  Bad ← (if (CommentStart <? ContentEnd)%nat then
           c ← Config !! CommentStart;
           Some (negb (c =? ch "#") && negb (c =? ch ";"))
         else Some false);
  if (Bad : bool) then Some (EFI_COMPROMISED_DATA, false) else
  InRequestedSection ← RangeEqualsString Config SectionStart
                         (SectionEnd - SectionStart) Section;
  Some (EFI_SUCCESS, InRequestedSection).

(** The variables of [GetAndromedaBootConfigValue] that live across lines. *)
Record value_scan := mk_value_scan {
  InRequestedSection : bool;
  Found : bool;
  MatchedValueStart : nat;
  MatchedValueEnd : nat
}.

(** The key/value branch of [GetAndromedaBootConfigValue]. *)
Definition key_value_line (Config : list Z) (Key : list Z)
    (ContentStart ContentEnd : nat) (st : value_scan) : option (EFI_STATUS * value_scan) :=
  let KeyStart := ContentStart in
  KeyEnd ← scan_fwd (fun c => negb (c =? ch "=")) Config (ContentEnd - KeyStart) KeyStart;
  if (KeyEnd =? ContentEnd)%nat then Some (EFI_SUCCESS, st) else
  let ValueStart := S KeyEnd in
  let ValueEnd := ContentEnd in
  '(KeyStart, KeyEnd) ← TrimRange Config KeyStart KeyEnd;
  if (KeyStart =? KeyEnd)%nat then Some (EFI_COMPROMISED_DATA, st) else
  '(ValueStart, ValueEnd) ← TrimRange Config ValueStart ValueEnd;
  ValueEnd ← TrimInlineComment Config ValueStart ValueEnd;
  '(ValueStart, ValueEnd) ← TrimRange Config ValueStart ValueEnd;
  Match ← (if InRequestedSection st
           then RangeEqualsString Config KeyStart (KeyEnd - KeyStart) Key
           else Some false);
  if (Match : bool) then
    if Found st then Some (EFI_COMPROMISED_DATA, st)
    else Some (EFI_SUCCESS, mk_value_scan (InRequestedSection st) true ValueStart ValueEnd)
  else Some (EFI_SUCCESS, st).

(** One iteration of the line loop, after [LineEnd] is known. *)
Definition value_line (Config : list Z) (Section Key : list Z)
    (LineStart LineEnd : nat) (st : value_scan) : option (EFI_STATUS * value_scan) :=
  '(ContentStart, ContentEnd) ← TrimRange Config LineStart LineEnd;
  if (ContentStart <? ContentEnd)%nat then
    c ← Config !! ContentStart;
    if negb (c =? ch "#") && negb (c =? ch ";") then
      if c =? ch "[" then
        '(Status, InReq) ← section_header Config ContentStart ContentEnd Section;
        if EFI_ERROR Status then Some (Status, st) else
        Some (EFI_SUCCESS,
              mk_value_scan InReq (Found st) (MatchedValueStart st) (MatchedValueEnd st))
      else key_value_line Config Key ContentStart ContentEnd st
    else Some (EFI_SUCCESS, st)
  else Some (EFI_SUCCESS, st).

Definition next_line (ConfigSize LineEnd : nat) : nat :=
  if (LineEnd <? ConfigSize)%nat then S LineEnd else ConfigSize.
Definition find_line_end (Config : list Z) (ConfigSize LineStart : nat) : option nat :=
  scan_fwd (fun c => negb (c =? newline)) Config (ConfigSize - LineStart) LineStart.

Fixpoint value_lines (fuel : nat) (Config : list Z) (ConfigSize : nat)
    (Section Key : list Z) (LineStart : nat) (st : value_scan)
  : option (EFI_STATUS * value_scan) :=
  if (LineStart <? ConfigSize)%nat then
    match fuel with
    | O => fault
    | S fuel' =>
        LineEnd ← find_line_end Config ConfigSize LineStart;
        '(Status, st') ← value_line Config Section Key LineStart LineEnd st;
        if EFI_ERROR Status then Some (Status, st')
        else value_lines fuel' Config ConfigSize Section Key (next_line ConfigSize LineEnd) st'
    end
  else Some (EFI_SUCCESS, st).

(** [CopyMem (Buf, &Config[Start], n); Buf[n] = '\0'] into a caller's buffer. *)
Definition copy_out (Buf : option (list Z)) (Config : list Z) (Start n : nat)
  : option (option (list Z)) :=
  b ← Buf;
  if (length b <? S n)%nat || (length Config <? Start + n)%nat then fault
  else Some (Some (seg Config Start (Start + n) ++ [0] ++ drop (S n) b)).

(** Results: the status, the caller's buffer and its size variable. *)
Definition read_result : Type := EFI_STATUS * option (list Z) * option nat.

(** The parameters are pointers, [None] being NULL; the caller's buffer is its
    memory and [*ValueSize] its declared capacity. *)
Definition GetAndromedaBootConfigValue (g : boot_config)
    (Section Key Value : option (list Z)) (ValueSize : option nat) : option read_result :=
  match Section, Key, ValueSize with
  | Some Section, Some Key, Some Capacity =>
      k0 ← cstr_at Key 0;
      if k0 =? 0 then Some (EFI_INVALID_PARAMETER, Value, ValueSize) else
      if (0 <? Capacity)%nat && bool_decide (Value = None)
      then Some (EFI_INVALID_PARAMETER, Value, ValueSize) else
      match GetBootConfig g with
      | (Status, None) => Some (Status, Value, Some 0%nat)
      | (_, Some (Config, ConfigSize)) =>
          Nul ← scan_fwd not_nul Config ConfigSize 0;
          if (Nul <? ConfigSize)%nat then Some (EFI_COMPROMISED_DATA, Value, Some 0%nat) else
          s0 ← cstr_at Section 0;
          '(Status, st) ← value_lines (S ConfigSize) Config ConfigSize Section Key 0
                            (mk_value_scan (s0 =? 0) false 0 0);
          if EFI_ERROR Status then Some (Status, Value, Some 0%nat) else
          if negb (Found st) then Some (EFI_NOT_FOUND, Value, Some 0%nat) else
          let RequiredSize := (MatchedValueEnd st - MatchedValueStart st + 1)%nat in
          if (Capacity <? RequiredSize)%nat
          then Some (EFI_BUFFER_TOO_SMALL, Value, Some RequiredSize) else
          Value' ← copy_out Value Config (MatchedValueStart st) (RequiredSize - 1);
          Some (EFI_SUCCESS, Value', Some RequiredSize)
      end
  | _, _, _ => Some (EFI_INVALID_PARAMETER, Value, ValueSize)
  end.

(** ** Numbers *)
(** The digit of one character in a radix, as the two parsers test it; [None] is
    the final [else] (not a digit). *)
Definition digit_of (Radix c : Z) : option Z :=
  if (ch "0" <=? c) && (c <=? ch "9") then Some (u8 (c - ch "0"))
  else if (Radix =? 16) && (ch "a" <=? c) && (c <=? ch "f") then Some (u8 (c - ch "a" + 10))
  else if (Radix =? 16) && (ch "A" <=? c) && (c <=? ch "F") then Some (u8 (c - ch "A" + 10))
  else None.

(** The digit loop over the NUL-terminated buffer [Str]: [fault] when it leaves
    the buffer, [Some None] when the text is refused. *)
Fixpoint parse_digits (fuel : nat) (Str : list Z) (Radix : Z) (Index : nat)
    (ParsedValue : Z) : option (option Z) :=
  match fuel with
  | O => fault
  | S fuel' =>
      c ← Str !! Index;
      if c =? 0 then Some (Some ParsedValue) else
      match digit_of Radix c with
      | None => Some None
      | Some Digit =>
          if (Radix <=? Digit) || ((MAX_UINT64 - Digit) / Radix <? ParsedValue)
          then Some None
          else parse_digits fuel' Str Radix (S Index) (u64 (u64 (ParsedValue * Radix) + Digit))
      end
  end.

(** The body shared by [GetAndromedaBootConfigUint64] and
    [MemoryMapConfigParseUint64]: the radix prefix, the empty text, the loop. *)
Definition parse_uint64_text (Str : list Z) : option (option Z) :=
  c0 ← Str !! 0%nat;
  Hex ← (if c0 =? ch "0" then
           c1 ← Str !! 1%nat; Some ((c1 =? ch "x") || (c1 =? ch "X"))
         else Some false);
  let Start := if (Hex : bool) then 2%nat else 0%nat in
  let Radix := if (Hex : bool) then 16 else 10 in
  s ← Str !! Start;
  if s =? 0 then Some None else parse_digits (length Str) Str Radix Start 0.

(** [Stack] is the initial content of the local [CHAR8 StringValue[32]]. *)
Definition GetAndromedaBootConfigUint64 (g : boot_config) (Stack : list Z)
    (Section Key : option (list Z)) (Value : option Z) : option (EFI_STATUS * option Z) :=
  match Value with
  | None => Some (EFI_INVALID_PARAMETER, None)
  | Some _ =>
      '(Status, StringValue, _) ←
        GetAndromedaBootConfigValue g Section Key (Some Stack) (Some 32%nat);
      if EFI_ERROR Status then Some (Status, Value) else
      StringValue ← StringValue;
      r ← parse_uint64_text StringValue;
      match r with
      | None => Some (EFI_COMPROMISED_DATA, Value)
      | Some ParsedValue => Some (EFI_SUCCESS, Some ParsedValue)
      end
  end.

Definition GetAndromedaBootConfigUint32 (g : boot_config) (Stack : list Z)
    (Section Key : option (list Z)) (Value : option Z) : option (EFI_STATUS * option Z) :=
  match Value with
  | None => Some (EFI_INVALID_PARAMETER, None)
  | Some _ =>
      '(Status, ParsedValue) ← GetAndromedaBootConfigUint64 g Stack Section Key (Some 0);
      if EFI_ERROR Status then Some (Status, Value) else
      ParsedValue ← ParsedValue;
      if MAX_UINT32 <? ParsedValue then Some (EFI_COMPROMISED_DATA, Value)
      else Some (EFI_SUCCESS, Some (u32 ParsedValue))
  end.

(** ** Records of a section *)
(** What one line does to [GetAndromedaBootConfigSectionEntry]: stop with an
    error, stop on the wanted entry, or go on with the two loop variables. *)
Inductive entry_step : Type :=
| EntryError (s : EFI_STATUS)
| EntryHit (ContentStart ContentEnd : nat)
| EntryNext (InReq : bool) (CurrentIndex : nat).

Definition entry_line (Config : list Z) (Section : list Z) (EntryIndex : nat)
    (LineStart LineEnd : nat) (InReq : bool) (CurrentIndex : nat) : option entry_step :=
  '(ContentStart, ContentEnd) ← TrimRange Config LineStart LineEnd;
  if (ContentStart <? ContentEnd)%nat then
    c ← Config !! ContentStart;
    if negb (c =? ch "#") && negb (c =? ch ";") then
      if c =? ch "[" then
        '(Status, InReq') ← section_header Config ContentStart ContentEnd Section;
        if EFI_ERROR Status then Some (EntryError Status) else
        Some (EntryNext InReq' CurrentIndex)
      else if InReq then
        ContentEnd ← TrimInlineComment Config ContentStart ContentEnd;
        '(ContentStart, ContentEnd) ← TrimRange Config ContentStart ContentEnd;
        if (ContentStart <? ContentEnd)%nat then
          if (CurrentIndex =? EntryIndex)%nat then Some (EntryHit ContentStart ContentEnd)
          else Some (EntryNext InReq (S CurrentIndex))
        else Some (EntryNext InReq CurrentIndex)
      else Some (EntryNext InReq CurrentIndex)
    else Some (EntryNext InReq CurrentIndex)
  else Some (EntryNext InReq CurrentIndex).

Fixpoint entry_lines (fuel : nat) (Config : list Z) (ConfigSize : nat)
    (Section : list Z) (EntryIndex LineStart : nat) (InReq : bool) (CurrentIndex : nat)
  : option entry_step :=
  if (LineStart <? ConfigSize)%nat then
    match fuel with
    | O => fault
    | S fuel' =>
        LineEnd ← find_line_end Config ConfigSize LineStart;
        r ← entry_line Config Section EntryIndex LineStart LineEnd InReq CurrentIndex;
        match r with
        | EntryNext InReq' CurrentIndex' =>
            entry_lines fuel' Config ConfigSize Section EntryIndex
              (next_line ConfigSize LineEnd) InReq' CurrentIndex'
        | _ => Some r
        end
    end
  else Some (EntryError EFI_NOT_FOUND).

Definition GetAndromedaBootConfigSectionEntry (g : boot_config)
    (Section : option (list Z)) (EntryIndex : nat) (Entry : option (list Z))
    (EntrySize : option nat) : option read_result :=
  match Section, EntrySize with
  | Some Section, Some Capacity =>
      if (0 <? Capacity)%nat && bool_decide (Entry = None)
      then Some (EFI_INVALID_PARAMETER, Entry, EntrySize) else
      match GetBootConfig g with
      | (Status, None) => Some (Status, Entry, Some 0%nat)
      | (_, Some (Config, ConfigSize)) =>
          Nul ← scan_fwd not_nul Config ConfigSize 0;
          if (Nul <? ConfigSize)%nat then Some (EFI_COMPROMISED_DATA, Entry, Some 0%nat) else
          s0 ← cstr_at Section 0;
          r ← entry_lines (S ConfigSize) Config ConfigSize Section EntryIndex 0 (s0 =? 0) 0;
          match r with
          | EntryHit ContentStart ContentEnd =>
              let RequiredSize := (ContentEnd - ContentStart + 1)%nat in
              if (Capacity <? RequiredSize)%nat
              then Some (EFI_BUFFER_TOO_SMALL, Entry, Some RequiredSize) else
              Entry' ← copy_out Entry Config ContentStart (RequiredSize - 1);
              Some (EFI_SUCCESS, Entry', Some RequiredSize)
          | EntryError Status => Some (Status, Entry, Some 0%nat)
          | EntryNext _ _ => fault
          end
      end
  | _, _ => Some (EFI_INVALID_PARAMETER, Entry, EntrySize)
  end.

(** ** The configuration-map lookups built on the reader
    ([QcomUefiPlatConfigParametersHelperLib.c]) *)
Definition CONFIG_PARAMETERS_SECTION : list Z := bytes "ConfigParameters".

(** The loop [for (Index = 1; Index < ValueSize - 2; Index++)
    Value[Index - 1] = Value[Index]], [n] iterations to go. *)
Fixpoint shift_left_loop (Value : list Z) (n Index : nat) : option (list Z) :=
  match n with
  | O => Some Value
  | S n' => c ← Value !! Index;
            shift_left_loop (<[(Index - 1)%nat := c]> Value) n' (S Index)
  end.

Definition QcomLocateConfigurationMapStringByName (g : boot_config)
    (Key Value : option (list Z)) (ValBuffSize : option nat) : option read_result :=
  match Key, ValBuffSize with
  | Some _, Some n =>
      if (0 <? n)%nat && bool_decide (Value = None)
      then Some (EFI_INVALID_PARAMETER, Value, ValBuffSize) else
      '(Status, Value', ValueSize) ←
        GetAndromedaBootConfigValue g (Some CONFIG_PARAMETERS_SECTION) Key Value (Some n);
      if EFI_ERROR Status then Some (Status, Value', ValueSize) else
      ValueSize ← ValueSize;
      v ← Value';
      c0 ← (if (1 <? ValueSize)%nat then v !! 0%nat else Some 0);
      if (1 <? ValueSize)%nat && (c0 =? dquote) then
        cl ← (if (ValueSize <? 3)%nat then Some 0 else v !! (ValueSize - 2)%nat);
        if (ValueSize <? 3)%nat || negb (cl =? dquote)
        then Some (EFI_COMPROMISED_DATA, Value', Some ValueSize) else
        v' ← shift_left_loop v (ValueSize - 3) 1;
        if (length v' <? ValueSize - 2)%nat then fault else
        Some (EFI_SUCCESS, Some (<[(ValueSize - 3)%nat := 0]> v'), Some (ValueSize - 2)%nat)
      else Some (EFI_SUCCESS, Value', Some ValueSize)
  | _, _ => Some (EFI_INVALID_PARAMETER, Value, ValBuffSize)
  end.

Definition QcomLocateConfigurationMapUINT32ByName (g : boot_config) (Stack : list Z)
    (Key : option (list Z)) (Value : option Z) : option (EFI_STATUS * option Z) :=
  match Key, Value with
  | Some _, Some _ =>
      GetAndromedaBootConfigUint32 g Stack (Some CONFIG_PARAMETERS_SECTION) Key Value
  | _, _ => Some (EFI_INVALID_PARAMETER, Value)
  end.

Definition QcomLocateConfigurationMapUINT64ByName (g : boot_config) (Stack : list Z)
    (Key : option (list Z)) (Value : option Z) : option (EFI_STATUS * option Z) :=
  match Key, Value with
  | Some _, Some _ =>
      GetAndromedaBootConfigUint64 g Stack (Some CONFIG_PARAMETERS_SECTION) Key Value
  | _, _ => Some (EFI_INVALID_PARAMETER, Value)
  end.
