(* ===== verification/BootConfigSpec.v ===== *)
(** * The abstract boot-configuration reader and the refinement of it.

    The text is a list of lines, a line is classified once ([parse_line]), and a
    lookup folds over the lines.  The theorems show that the index loops of
    [AndromedaBootConfigLib.c] (file BootConfig) return exactly what this reader
    returns, read only inside the text and stop. *)
From stdpp Require Import base numbers list option strings.
From Stdlib Require Import ZArith Lia Ascii.
From S2P Require Import Prelude BaseLib BootConfig.
Local Open Scope Z_scope.

(** ** The abstract reader *)
Abbreviation spaces_trimmed := (trim IsConfigSpace).

(** Names are compared without the case of ASCII letters. *)
Definition name_eq (a b : list Z) : bool :=
  bool_decide (ToLowerAscii <$> a = ToLowerAscii <$> b).

Definition is_comment_mark (c : Z) : bool := (c =? ch "#") || (c =? ch ";").

(** Where an inline comment starts: a mark outside quotes, at the start of the
    text or after a blank ([boundary]). *)
Fixpoint comment_pos (boundary : bool) (l : list Z) (quoted escaped : bool) : option nat :=
  match l with
  | [] => None
  | c :: l' =>
      if quoted && (c =? ch "\") && negb escaped then
        S <$> comment_pos (IsConfigSpace c) l' quoted true
      else if c =? dquote then
        S <$> comment_pos (IsConfigSpace c) l' (if escaped then quoted else negb quoted) false
      else if negb quoted && is_comment_mark c && boundary then Some 0%nat
      else S <$> comment_pos (IsConfigSpace c) l' quoted false
  end.
Definition before_comment (l : list Z) : list Z :=
  match comment_pos true l false false with Some k => take k l | None => l end.

Inductive config_line : Type :=
| LBlank
| LMalformed
| LSection (name : list Z)
| LText (content : list Z).

(** The name in a section header, given what follows the ["["]. *)
Definition header_name (r : list Z) : option (list Z) :=
  let k := count_while (fun c => negb (c =? ch "]")) r in
  if (k =? length r)%nat then None else
  match ltrim IsConfigSpace (drop (S k) r) with
  | c :: _ => if is_comment_mark c then Some (spaces_trimmed (take k r)) else None
  | [] => Some (spaces_trimmed (take k r))
  end.

Definition parse_line (l : list Z) : config_line :=
  match spaces_trimmed l with
  | [] => LBlank
  | c :: r =>
      if is_comment_mark c then LBlank
      else if c =? ch "[" then
        match header_name r with Some n => LSection n | None => LMalformed end
      else LText (c :: r)
  end.

Inductive key_value : Type :=
| NoAssignment
| EmptyKey
| Assign (key value : list Z).

Definition parse_key_value (t : list Z) : key_value :=
  let k := count_while (fun c => negb (c =? ch "=")) t in
  if (k =? length t)%nat then NoAssignment else
  match spaces_trimmed (take k t) with
  | [] => EmptyKey
  | key => Assign key (spaces_trimmed (before_comment (spaces_trimmed (drop (S k) t))))
  end.

Fixpoint split_lines (l : list Z) : list (list Z) :=
  match l with
  | [] => []
  | c :: l' =>
      if c =? newline then [] :: split_lines l'
      else match split_lines l' with
           | [] => [[c]]
           | x :: xs => (c :: x) :: xs
           end
  end.

(** The state of a lookup: are we in the requested section, and the value. *)
Definition lookup_state : Type := bool * option (list Z).

Definition lookup_line (sec key : list Z) (a : lookup_state) (l : list Z) : option lookup_state :=
  match parse_line l with
  | LBlank => Some a
  | LMalformed => None
  | LSection n => Some (name_eq n sec, a.2)
  | LText t =>
      match parse_key_value t with
      | NoAssignment => Some a
      | EmptyKey => None
      | Assign k v =>
          if a.1 && name_eq k key then
            match a.2 with Some _ => None | None => Some (a.1, Some v) end
          else Some a
      end
  end.

Fixpoint lookup_lines (sec key : list Z) (a : lookup_state) (ls : list (list Z))
  : option lookup_state :=
  match ls with
  | [] => Some a
  | l :: ls' => a' ← lookup_line sec key a l; lookup_lines sec key a' ls'
  end.

Definition has_nul (text : list Z) : bool := bool_decide (0 ∈ text).
Definition is_empty (l : list Z) : bool := bool_decide (l = []).

(** The answer to "what is the value of [key] in [sec]", as a status and a
    value. *)
Definition lookup_text (sec key text : list Z) : EFI_STATUS * list Z :=
  if has_nul text then (EFI_COMPROMISED_DATA, []) else
  match lookup_lines sec key (is_empty sec, None) (split_lines text) with
  | None => (EFI_COMPROMISED_DATA, [])
  | Some (_, None) => (EFI_NOT_FOUND, [])
  | Some (_, Some v) => (EFI_SUCCESS, v)
  end.

(** The records of a section: the [n]-th one of the lines, given whether the
    first line is in the section. *)
Fixpoint entry_of_lines (sec : list Z) (n : nat) (inreq : bool) (ls : list (list Z))
  : EFI_STATUS * list Z :=
  match ls with
  | [] => (EFI_NOT_FOUND, [])
  | l :: ls' =>
      match parse_line l with
      | LBlank => entry_of_lines sec n inreq ls'
      | LMalformed => (EFI_COMPROMISED_DATA, [])
      | LSection nm => entry_of_lines sec n (name_eq nm sec) ls'
      | LText t =>
          if inreq then
            match spaces_trimmed (before_comment t) with
            | [] => entry_of_lines sec n inreq ls'
            | e => match n with
                   | O => (EFI_SUCCESS, e)
                   | S n' => entry_of_lines sec n' inreq ls'
                   end
            end
          else entry_of_lines sec n inreq ls'
      end
  end.
Definition entry_text (sec : list Z) (n : nat) (text : list Z) : EFI_STATUS * list Z :=
  if has_nul text then (EFI_COMPROMISED_DATA, []) else
  entry_of_lines sec n (is_empty sec) (split_lines text).

(** How an answer reaches the caller's buffer, NULL or of [cap] bytes at least. *)
Definition deliver (buf : option (list Z)) (cap : nat) (r : EFI_STATUS * list Z) : read_result :=
  if EFI_ERROR r.1 then (r.1, buf, Some 0%nat) else
  let n := S (length r.2) in
  if (cap <? n)%nat then (EFI_BUFFER_TOO_SMALL, buf, Some n)
  else (EFI_SUCCESS, (fun b => r.2 ++ [0] ++ drop n b) <$> buf, Some n).
Definition buffer_size (buf : option (list Z)) : nat :=
  match buf with Some b => length b | None => 0 end.

(** The configuration the library reads: the text of [n] bytes at [cfg]. *)
Definition serves (g : boot_config) (text : list Z) : Prop :=
  exists cfg n, GetBootConfig g = (EFI_SUCCESS, Some (cfg, n)) /\
                (n <= length cfg)%nat /\ text = take n cfg.

(** ** Trimming *)
Lemma rtrim_take (P : Z -> bool) l :
  rtrim P l = take (length l - count_while P (reverse l)) l.
Proof. unfold rtrim, ltrim. rewrite reverse_drop, length_reverse, reverse_involutive. done. Qed.

Lemma TrimRange_spec D s e :
  (s <= e <= length D)%nat ->
  exists s' e', TrimRange D s e = Some (s', e') /\ (s <= s' <= e')%nat /\ (e' <= e)%nat /\
    seg D s' e' = spaces_trimmed (seg D s e) /\
    Forall (fun c => IsConfigSpace c = true) (seg D s s').
Proof.
  intros H. unfold TrimRange.
  rewrite scan_fwd_seg by lia. simpl. replace (s + (e - s))%nat with e by lia.
  pose proof (count_while_length IsConfigSpace (seg D s e)) as Hc.
  rewrite seg_length in Hc by lia.
  set (k := count_while IsConfigSpace (seg D s e)) in *.
  rewrite scan_bwd_seg by lia. simpl.
  replace (e - (e - (s + k)))%nat with (s + k)%nat by lia.
  pose proof (count_while_length IsConfigSpace (reverse (seg D (s + k) e))) as Hj.
  rewrite length_reverse, seg_length in Hj by lia.
  set (j := count_while _ (reverse _)) in *.
  exists (s + k)%nat, (e - j)%nat. split_and!; [done|lia|lia|lia| |].
  - unfold trim. rewrite rtrim_take.
    assert (ltrim IsConfigSpace (seg D s e) = seg D (s + k) e) as ->.
    { unfold ltrim. fold k. rewrite seg_drop by lia. done. }
    fold j. rewrite seg_length by lia. rewrite seg_take by lia. f_equal. lia.
  - rewrite <- (seg_take D s e k) by lia. apply count_while_all.
Qed.

Lemma ltrim_spaces_app sp l :
  Forall (fun c => IsConfigSpace c = true) sp ->
  ltrim IsConfigSpace (sp ++ l) = ltrim IsConfigSpace l.
Proof.
  intros H. unfold ltrim. rewrite count_while_app_all by done.
  rewrite drop_app_ge by lia. f_equal. lia.
Qed.

Lemma ltrim_idem (P : Z -> bool) l : ltrim P (ltrim P l) = ltrim P l.
Proof.
  unfold ltrim at 1. destruct (ltrim P l) as [|x r] eqn:E; [by rewrite drop_nil|].
  assert (P x = false) as Hx.
  { apply (count_while_stop P l). unfold ltrim in E.
    rewrite <- (Nat.add_0_r (count_while P l)), <- lookup_drop, E. done. }
  simpl. by rewrite Hx.
Qed.

Lemma ltrim_id (P : Z -> bool) x l : P x = false -> ltrim P (x :: l) = x :: l.
Proof. intros H. unfold ltrim. simpl. by rewrite H. Qed.

Lemma rtrim_idem (P : Z -> bool) l : rtrim P (rtrim P l) = rtrim P l.
Proof. unfold rtrim. by rewrite reverse_involutive, ltrim_idem. Qed.

(** Trimming the right end keeps a first character that is not a blank. *)
Lemma rtrim_cons (P : Z -> bool) x l : P x = false -> rtrim P (x :: l) = x :: rtrim P l.
Proof.
  intros Hx. rewrite !rtrim_take. rewrite reverse_cons.
  pose proof (count_while_length P (reverse l)) as Hl. rewrite length_reverse in Hl.
  assert (count_while P (reverse l ++ [x]) = count_while P (reverse l)) as ->.
  { destruct (decide (count_while P (reverse l) = length (reverse l))) as [E|E].
    - rewrite count_while_app_all.
      + simpl. rewrite Hx. lia.
      + pose proof (count_while_all P (reverse l)) as Ha.
        rewrite take_ge in Ha by lia. done.
    - apply count_while_app_stop. rewrite length_reverse in *. lia. }
  simpl length. replace (S (length l) - count_while P (reverse l))%nat
    with (S (length l - count_while P (reverse l))) by lia. done.
Qed.

Lemma ltrim_head (P : Z -> bool) l :
  ltrim P l = [] \/ exists x r, ltrim P l = x :: r /\ P x = false.
Proof.
  destruct (ltrim P l) as [|x r] eqn:E; [by left|right].
  exists x, r. split; [done|]. apply (count_while_stop P l). unfold ltrim in E.
  rewrite <- (Nat.add_0_r (count_while P l)), <- lookup_drop, E. done.
Qed.

Lemma trim_idem (P : Z -> bool) l : trim P (trim P l) = trim P l.
Proof.
  unfold trim. destruct (ltrim_head P l) as [->|(x & r & -> & Hx)]; [done|].
  rewrite rtrim_cons by done. rewrite ltrim_id by done.
  rewrite rtrim_cons by done. by rewrite rtrim_idem.
Qed.

Lemma trim_spaces_app sp l :
  Forall (fun c => IsConfigSpace c = true) sp ->
  spaces_trimmed (sp ++ l) = spaces_trimmed l.
Proof. intros H. unfold trim. by rewrite ltrim_spaces_app. Qed.
#[export] Hint Rewrite trim_idem : s2p.

(** ** Names *)
Lemma cstr_at_lt s i c : s !! i = Some c -> cstr_at s i = Some c.
Proof. intros H. unfold cstr_at. rewrite lookup_app_l; [done|]. by eapply lookup_lt_Some. Qed.
Lemma cstr_at_end s : cstr_at s (length s) = Some 0.
Proof. unfold cstr_at. rewrite lookup_app_r by lia. by rewrite Nat.sub_diag. Qed.

Lemma name_eq_nil_cons c l : name_eq [] (c :: l) = false.
Proof. unfold name_eq. by apply bool_decide_false. Qed.
Lemma name_eq_cons_nil c l : name_eq (c :: l) [] = false.
Proof. unfold name_eq. by apply bool_decide_false. Qed.
Lemma name_eq_cons c d l k :
  name_eq (c :: l) (d :: k) = (ToLowerAscii c =? ToLowerAscii d) && name_eq l k.
Proof.
  unfold name_eq. rewrite !fmap_cons. destruct (ToLowerAscii c =? ToLowerAscii d) eqn:E; simpl.
  - apply Z.eqb_eq in E. rewrite E. apply bool_decide_ext. split; [by intros [= ->]|by intros ->].
  - apply Z.eqb_neq in E. apply bool_decide_false. by intros [= ? ?].
Qed.

Lemma range_equals_loop_spec D off str n i :
  cstring str -> (i <= length str)%nat -> (off + i + n <= length D)%nat ->
  range_equals_loop D off str n i =
    Some (name_eq (seg D (off + i) (off + i + n)) (drop i str)).
Proof.
  intros Hs. revert i. induction n as [|n IH]; intros i Hi HD; simpl.
  - destruct (str !! i) as [c|] eqn:E.
    + rewrite (cstr_at_lt _ _ _ E). simpl.
      assert (c <> 0) as Hc by (eapply Forall_lookup_1 in Hs; eauto; done).
      rewrite Nat.add_0_r, seg_nil, (drop_S _ _ _ E), name_eq_nil_cons.
      by apply Z.eqb_neq in Hc as ->.
    + apply lookup_ge_None in E. replace i with (length str) by lia.
      rewrite cstr_at_end. simpl. rewrite Nat.add_0_r, seg_nil, drop_all. done.
  - destruct (str !! i) as [c|] eqn:E.
    + rewrite (cstr_at_lt _ _ _ E). simpl.
      assert (c <> 0) as Hc by (eapply Forall_lookup_1 in Hs; eauto; done).
      apply Z.eqb_neq in Hc as ->.
      pose proof (lookup_lt_Some _ _ _ E).
      destruct (lookup_lt_is_Some_2 D (off + i)) as [d Hd]; [lia|]. rewrite Hd. simpl.
      rewrite (seg_cons D (off + i) _ d) by (auto; lia). rewrite (drop_S _ _ _ E).
      rewrite name_eq_cons. destruct (ToLowerAscii d =? ToLowerAscii c) eqn:Edc; simpl; [|done].
      rewrite IH by lia. replace (off + S i)%nat with (S (off + i)) by lia.
      by replace (S (off + i) + n)%nat with (off + i + S n)%nat by lia.
    + apply lookup_ge_None in E. replace i with (length str) by lia.
      rewrite cstr_at_end. simpl.
      destruct (lookup_lt_is_Some_2 D (off + length str)) as [d Hd]; [lia|].
      rewrite (seg_cons D (off + length str) _ d) by (auto; lia).
      by rewrite drop_all, name_eq_cons_nil.
Qed.

(** [RangeEqualsString] is the case-insensitive equality of names. *)
Lemma RangeEqualsString_spec D s e str :
  cstring str -> (s <= e <= length D)%nat ->
  RangeEqualsString D s (e - s) str = Some (name_eq (seg D s e) str).
Proof.
  intros Hs H. unfold RangeEqualsString. rewrite range_equals_loop_spec by (auto; lia).
  rewrite drop_0, Nat.add_0_r. by replace (s + (e - s))%nat with e by lia.
Qed.

(** ** Inline comments *)
Lemma inline_comment_loop_spec D s e n i q esc :
  (s <= i)%nat -> (i + n)%nat = e -> (e <= length D)%nat ->
  exists b, (if (i =? s)%nat then b = true
             else exists p, D !! (i - 1)%nat = Some p /\ b = IsConfigSpace p) /\
  inline_comment_loop D s e n i q esc =
    match comment_pos b (seg D i e) q esc with
    | None => Some e
    | Some k => r ← TrimRange D s (i + k); Some r.2
    end.
Proof.
  revert i q esc. induction n as [|n IH]; intros i q esc Hsi Hin He.
  { exists (if (i =? s)%nat then true else IsConfigSpace (default 0 (D !! (i - 1)%nat))).
    rewrite Nat.add_0_r in Hin. subst i. rewrite seg_nil. simpl. split; [|done].
    destruct (e =? s)%nat eqn:E; [done|]. apply Nat.eqb_neq in E.
    destruct (lookup_lt_is_Some_2 D (e - 1)) as [p Hp]; [lia|]. exists p. by rewrite Hp. }
  destruct (lookup_lt_is_Some_2 D i) as [c Hc]; [lia|].
  assert (forall q' esc',
    inline_comment_loop D s e n (S i) q' esc' =
      match S <$> comment_pos (IsConfigSpace c) (seg D (S i) e) q' esc' with
      | None => Some e
      | Some k => r ← TrimRange D s (i + k); Some r.2
      end) as Hstep.
  { intros q' esc'. destruct (IH (S i) q' esc') as (b & Hb & ->); [lia..|].
    destruct (S i =? s)%nat eqn:E; [apply Nat.eqb_eq in E; lia|].
    destruct Hb as (p & Hp & ->). simpl in Hp. rewrite Nat.sub_0_r, Hc in Hp.
    injection Hp as <-.
    destruct (comment_pos _ _ _ _) as [k|]; simpl; [|done].
    by replace (S (i + k)) with (i + S k)%nat by lia. }
  rewrite (seg_cons D i e c) by (auto; lia). simpl. rewrite Hc. simpl.
  destruct (i =? s)%nat eqn:Eis.
  - exists true. split; [done|].
    destruct (q && (c =? ch "\") && negb esc) eqn:E1; [apply Hstep|].
    destruct (c =? dquote) eqn:E2; [apply Hstep|].
    unfold is_comment_mark. rewrite andb_true_r.
    destruct (negb q && ((c =? ch "#") || (c =? ch ";"))) eqn:E3; [|apply Hstep].
    simpl. by rewrite Nat.add_0_r.
  - apply Nat.eqb_neq in Eis.
    destruct (lookup_lt_is_Some_2 D (i - 1)) as [p Hp]; [lia|].
    exists (IsConfigSpace p). split; [by exists p|].
    destruct (q && (c =? ch "\") && negb esc) eqn:E1; [apply Hstep|].
    destruct (c =? dquote) eqn:E2; [apply Hstep|].
    unfold is_comment_mark.
    destruct (negb q && ((c =? ch "#") || (c =? ch ";"))) eqn:E3; [|apply Hstep].
    simpl. rewrite Hp. simpl. destruct (IsConfigSpace p); [|apply Hstep].
    simpl. by rewrite Nat.add_0_r.
Qed.

Lemma comment_pos_lt b l q esc k : comment_pos b l q esc = Some k -> (k < length l)%nat.
Proof.
  revert b q esc k. induction l as [|c l IH]; intros b q esc k; simpl; [done|].
  repeat case_if; intros H; try (injection H as <-; lia);
    apply fmap_Some in H as (k' & H & ->); apply IH in H; lia.
Qed.

(** The comment is cut off, up to blanks that the next trim removes. *)
Lemma TrimInlineComment_spec D s e :
  (s <= e <= length D)%nat ->
  exists e', TrimInlineComment D s e = Some e' /\ (s <= e' <= e)%nat /\
    spaces_trimmed (seg D s e') = spaces_trimmed (before_comment (seg D s e)).
Proof.
  intros H. unfold TrimInlineComment, before_comment.
  destruct (inline_comment_loop_spec D s e (e - s) s false false) as (b & Hb & ->); [lia..|].
  rewrite Nat.eqb_refl in Hb. subst b.
  destruct (comment_pos true (seg D s e) false false) as [k|] eqn:E;
    [|by exists e; split_and!; try lia].
  apply comment_pos_lt in E. rewrite seg_length in E by lia.
  destruct (TrimRange_spec D s (s + k)) as (s' & e' & -> & H1 & H2 & H3 & H4); [lia|].
  simpl. exists e'. split_and!; [done|lia|lia|].
  rewrite (seg_app D s s' e') by lia. rewrite trim_spaces_app by done.
  rewrite H3, trim_idem. by rewrite seg_take by lia.
Qed.

(** ** Sections and assignments *)
Lemma section_header_spec D cs ce sec :
  cstring sec -> (S cs <= ce <= length D)%nat ->
  section_header D cs ce sec =
    Some (match header_name (seg D (S cs) ce) with
          | None => (EFI_COMPROMISED_DATA, false)
          | Some n => (EFI_SUCCESS, name_eq n sec)
          end).
Proof.
  intros Hs H. unfold section_header, header_name. cbv zeta.
  rewrite scan_fwd_range by lia. bind_step.
  set (P := fun c : Z => negb (c =? ch "]")).
  pose proof (count_while_seg_le P D (S cs) ce ltac:(lia)) as Hk.
  rewrite seg_length by lia. set (k := count_while P (seg D (S cs) ce)) in *.
  destruct (Nat.eqb_spec k (ce - S cs)) as [Ek|Ek].
  { destruct (Nat.eqb_spec (S cs + k) ce); [done|lia]. }
  destruct (Nat.eqb_spec (S cs + k) ce); [lia|].
  destruct (TrimRange_spec D (S cs) (S cs + k)) as (s' & e' & -> & H1 & H2 & H3 & _); [lia|].
  bind_step. rewrite scan_fwd_range by lia. bind_step.
  rewrite seg_drop by lia. replace (S cs + S k)%nat with (S (S cs + k)) by lia.
  set (m := S (S cs + k)) in *.
  pose proof (count_while_seg_le IsConfigSpace D m ce ltac:(lia)) as Hj.
  unfold ltrim. set (j := count_while IsConfigSpace (seg D m ce)) in *.
  rewrite seg_drop by lia. rewrite seg_take by lia. rewrite <- H3.
  destruct (Nat.ltb_spec (m + j) ce) as [Ej|Ej].
  - destruct (lookup_lt_is_Some_2 D (m + j)) as [c Hc]; [lia|].
    rewrite Hc. bind_step. rewrite (seg_cons D _ ce c) by (auto; lia).
    unfold is_comment_mark. rewrite <- negb_orb.
    destruct ((c =? ch "#") || (c =? ch ";")); cbn [negb]; [|done].
    by rewrite RangeEqualsString_spec by (auto; lia).
  - replace (m + j)%nat with ce by lia. rewrite seg_nil. bind_step.
    by rewrite RangeEqualsString_spec by (auto; lia).
Qed.

(** The abstract state of a scan over the text [D], and its sanity. *)
Definition scan_abs (D : list Z) (st : value_scan) : lookup_state :=
  (InRequestedSection st,
   if Found st then Some (seg D (MatchedValueStart st) (MatchedValueEnd st)) else None).
Definition scan_wf (D : list Z) (st : value_scan) : Prop :=
  (MatchedValueStart st <= MatchedValueEnd st <= length D)%nat.

(** What a line of the code may answer, given the abstract step. *)
Definition scan_answer (D : list Z) (a : option lookup_state)
    (r : option (EFI_STATUS * value_scan)) : Prop :=
  exists st', r = Some (match a with None => EFI_COMPROMISED_DATA | Some _ => EFI_SUCCESS end, st') /\
    (forall a', a = Some a' -> scan_abs D st' = a' /\ scan_wf D st').

Lemma scan_answer_ok D a st :
  scan_abs D st = a -> scan_wf D st -> scan_answer D (Some a) (Some (EFI_SUCCESS, st)).
Proof. intros Ha Hw. exists st. split; [done|]. intros a' [= <-]. done. Qed.
Lemma scan_answer_bad D st : scan_answer D None (Some (EFI_COMPROMISED_DATA, st)).
Proof. by exists st. Qed.
#[export] Hint Resolve scan_answer_ok scan_answer_bad : s2p.

Lemma key_value_line_spec D key cs ce st :
  cstring key -> (cs <= ce <= length D)%nat -> scan_wf D st ->
  scan_answer D
    (match parse_key_value (seg D cs ce) with
     | NoAssignment => Some (scan_abs D st)
     | EmptyKey => None
     | Assign k v =>
         if (scan_abs D st).1 && name_eq k key then
           match (scan_abs D st).2 with
           | Some _ => None | None => Some ((scan_abs D st).1, Some v) end
         else Some (scan_abs D st)
     end)
    (key_value_line D key cs ce st).
Proof.
  intros Hk H Hw. unfold key_value_line, parse_key_value. cbv zeta.
  rewrite scan_fwd_range by lia. bind_step.
  set (P := fun c : Z => negb (c =? ch "=")).
  pose proof (count_while_seg_le P D cs ce ltac:(lia)) as Hn.
  rewrite seg_length by lia. set (k := count_while P (seg D cs ce)) in *.
  destruct (Nat.eqb_spec k (ce - cs)) as [Ek|Ek].
  { destruct (Nat.eqb_spec (cs + k) ce); [auto with s2p|lia]. }
  destruct (Nat.eqb_spec (cs + k) ce); [lia|].
  rewrite seg_take, seg_drop by lia.
  replace (cs + S k)%nat with (S (cs + k)) by lia.
  destruct (TrimRange_spec D cs (cs + k)) as (s1 & e1 & -> & A1 & A2 & A3 & _); [lia|].
  bind_step. rewrite <- A3.
  destruct (Nat.eqb_spec s1 e1) as [->|E1].
  { rewrite seg_nil. auto with s2p. }
  destruct (lookup_lt_is_Some_2 D s1) as [c0 Hc0]; [lia|].
  rewrite (seg_cons D s1 e1 c0) by (auto; lia). rewrite <- (seg_cons D s1 e1 c0) by (auto; lia).
  destruct (TrimRange_spec D (S (cs + k)) ce) as (s2 & e2 & -> & B1 & B2 & B3 & _); [lia|].
  bind_step. destruct (TrimInlineComment_spec D s2 e2) as (e3 & -> & C1 & C2); [lia|].
  bind_step. destruct (TrimRange_spec D s2 e3) as (s4 & e4 & -> & D1 & D2 & D3 & _); [lia|].
  change (scan_abs D st).1 with (InRequestedSection st).
  destruct (InRequestedSection st) eqn:Ei; bind_step; cbn [andb]; [|auto with s2p].
  rewrite RangeEqualsString_spec by (auto; lia). bind_step.
  destruct (name_eq (seg D s1 e1) key) eqn:En; [|auto with s2p].
  destruct (Found st) eqn:Ef.
  { unfold scan_abs. rewrite Ef. bind_step. auto with s2p. }
  unfold scan_abs at 1. rewrite Ef. bind_step.
  apply scan_answer_ok; [|unfold scan_wf; cbn [MatchedValueStart MatchedValueEnd]; lia].
  unfold scan_abs. cbn [InRequestedSection Found MatchedValueStart MatchedValueEnd].
  by rewrite D3, C2, B3.
Qed.

Lemma value_line_spec D sec key ls le st :
  cstring sec -> cstring key -> (ls <= le <= length D)%nat -> scan_wf D st ->
  scan_answer D (lookup_line sec key (scan_abs D st) (seg D ls le))
                (value_line D sec key ls le st).
Proof.
  intros Hs Hk H Hw. unfold value_line, lookup_line, parse_line.
  destruct (TrimRange_spec D ls le) as (cs & ce & -> & H1 & H2 & <- & _); [lia|]. simpl.
  destruct (cs <? ce)%nat eqn:E; bool_to_prop.
  2: { replace ce with cs by lia. rewrite seg_nil. auto with s2p. }
  destruct (lookup_lt_is_Some_2 D cs) as [c Hc]; [lia|]. rewrite Hc. simpl.
  rewrite (seg_cons D cs ce c) by (auto; lia). unfold is_comment_mark at 1.
  rewrite <- negb_orb. destruct ((c =? ch "#") || (c =? ch ";")); simpl; [auto with s2p|].
  destruct (c =? ch "[") eqn:Eb; simpl.
  - rewrite section_header_spec by (auto; lia).
    destruct (header_name (seg D (S cs) ce)) as [n|]; cbn; [|auto with s2p].
    by apply scan_answer_ok.
  - rewrite <- (seg_cons D cs ce c) by (auto; lia). apply key_value_line_spec; auto. lia.
Qed.

(** ** Lines *)
Abbreviation not_newline := (fun c => negb (c =? newline)).

Lemma split_lines_unfold l :
  l <> [] ->
  split_lines l = take (count_while not_newline l) l
                  :: split_lines (drop (S (count_while not_newline l)) l).
Proof.
  induction l as [|c l IH]; [done|intros _]. cbn [split_lines count_while].
  destruct (c =? newline) eqn:E; cbn [negb]; [done|].
  destruct l as [|d l]; [done|]. rewrite IH by done. done.
Qed.

Lemma split_lines_seg D ls cs :
  (ls < cs <= length D)%nat ->
  exists le, find_line_end D cs ls = Some le /\ (ls <= le <= cs)%nat /\
    (ls < next_line cs le <= cs)%nat /\
    split_lines (seg D ls cs) = seg D ls le :: split_lines (seg D (next_line cs le) cs).
Proof.
  intros H. unfold find_line_end, next_line.
  rewrite scan_fwd_range by lia. eexists. split; [done|].
  pose proof (count_while_seg_le not_newline D ls cs ltac:(lia)) as Hk.
  rewrite split_lines_unfold.
  2: { intros E. apply (f_equal length) in E. rewrite seg_length in E by lia. cbn in E. lia. }
  set (k := count_while _ _) in *. rewrite seg_take by lia.
  destruct (Nat.ltb_spec (ls + k) cs); split_and!; try lia.
  - rewrite seg_drop by lia. by replace (ls + S k)%nat with (S (ls + k)) by lia.
  - rewrite drop_ge by (rewrite seg_length by lia; lia). by rewrite seg_nil.
Qed.

Lemma value_lines_spec fuel D CS sec key ls st :
  cstring sec -> cstring key -> (ls <= CS <= length D)%nat -> (CS - ls < fuel)%nat ->
  scan_wf D st ->
  scan_answer D (lookup_lines sec key (scan_abs D st) (split_lines (seg D ls CS)))
                (value_lines fuel D CS sec key ls st).
Proof.
  intros Hs Hk. revert ls st. induction fuel as [|fuel IH]; intros ls st H Hf Hw; [lia|].
  cbn [value_lines]. destruct (Nat.ltb_spec ls CS) as [Hlt|Hge].
  2: { replace CS with ls by lia. rewrite seg_nil. cbn. auto with s2p. }
  destruct (split_lines_seg D ls CS) as (le & -> & H1 & H2 & ->); [lia|]. bind_step.
  cbn [lookup_lines].
  destruct (value_line_spec D sec key ls le st) as (st' & -> & Ha); [auto..|lia|done|].
  bind_step. destruct (lookup_line _ _ _ _) as [a'|]; bind_step; [|apply scan_answer_bad].
  destruct (Ha a' eq_refl) as [<- Hw']. cbn [EFI_ERROR]. apply IH; auto; lia.
Qed.

(** ** The buffers of the callers *)
Lemma has_nul_scan text n :
  (n <= length text)%nat ->
  exists k, scan_fwd not_nul text n 0 = Some k /\ (k <= n)%nat /\
    (k <? n)%nat = has_nul (take n text).
Proof.
  intros H. pose proof (scan_fwd_range not_nul text 0 n ltac:(lia)) as E.
  rewrite Nat.sub_0_r in E. rewrite E. eexists. split; [done|].
  unfold seg. rewrite Nat.sub_0_r, drop_0. set (l := take n text).
  assert (length l = n) as Hl by (unfold l; rewrite length_take; lia).
  pose proof (count_while_length not_nul l). split; [lia|].
  unfold has_nul. case_bool_decide as Hin.
  - apply Nat.ltb_lt. destruct (decide (count_while not_nul l = n)) as [En|En]; [|lia].
    pose proof (count_while_all not_nul l) as Ha. rewrite take_ge in Ha by lia.
    rewrite Forall_forall in Ha. specialize (Ha 0 Hin). done.
  - apply Nat.ltb_ge. destruct (decide (count_while not_nul l < n)%nat) as [En|En]; [|lia].
    destruct (lookup_lt_is_Some_2 l (count_while not_nul l)) as [c Hc]; [lia|].
    pose proof (count_while_stop _ _ _ Hc) as Hz. unfold not_nul in Hz.
    apply negb_false_iff, Z.eqb_eq in Hz. subst c.
    exfalso. apply Hin. by eapply list_elem_of_lookup_2.
Qed.

Lemma copy_out_spec buf D s e :
  (e - s < length buf)%nat -> (s <= e <= length D)%nat ->
  copy_out (Some buf) D s (e - s) =
    Some (Some (seg D s e ++ [0] ++ drop (S (length (seg D s e))) buf)).
Proof.
  intros H1 H2. unfold copy_out. bind_step. rewrite seg_length by lia.
  destruct (Nat.ltb_spec (length buf) (S (e - s))); [lia|].
  destruct (Nat.ltb_spec (length D) (s + (e - s))); [lia|]. cbn [orb].
  by replace (s + (e - s))%nat with e by lia.
Qed.

Lemma cstr_at_0 s : cstring s -> exists c, cstr_at s 0 = Some c /\ (c =? 0) = is_empty s.
Proof.
  intros Hs. unfold is_empty. destruct s as [|c s]; [by exists 0|].
  exists c. split; [done|]. inversion Hs; subst.
  rewrite bool_decide_false by done. by apply Z.eqb_neq.
Qed.

Lemma null_buffer_test buf cap :
  (cap <= buffer_size buf)%nat -> (0 <? cap)%nat && bool_decide (buf = None) = false.
Proof.
  destruct buf; cbn; intros H; [by rewrite andb_false_r|].
  destruct (Nat.ltb_spec 0 cap); [lia|done].
Qed.

(** ** The reader refines the abstract one *)
Section reader.
Context (g : boot_config) (text : list Z) (Hg : serves g text).
Context (sec key : list Z) (Hsec : cstring sec) (Hkey : cstring key) (Hne : key <> []).

Lemma value_read_spec buf cap :
  (cap <= buffer_size buf)%nat ->
  GetAndromedaBootConfigValue g (Some sec) (Some key) buf (Some cap) =
    Some (deliver buf cap (lookup_text sec key text)).
Proof.
  intros Hcap. destruct Hg as (cfg & n & Hget & Hn & Htext).
  unfold GetAndromedaBootConfigValue.
  destruct (cstr_at_0 key Hkey) as (c & -> & Hc). bind_step. rewrite Hc.
  unfold is_empty. rewrite bool_decide_false by done. rewrite null_buffer_test by done.
  rewrite Hget.
  destruct (has_nul_scan cfg n Hn) as (k & -> & _ & Hk). bind_step. rewrite Hk, <- Htext.
  unfold lookup_text. destruct (has_nul text); [done|].
  destruct (cstr_at_0 sec Hsec) as (s0 & -> & Hs0). bind_step. rewrite Hs0.
  destruct (value_lines_spec (S n) cfg n sec key 0 (mk_value_scan (is_empty sec) false 0 0))
    as (st & -> & Ha); [auto..|lia|lia|unfold scan_wf; cbn; lia|].
  change (scan_abs cfg (mk_value_scan (is_empty sec) false 0 0)) with (is_empty sec, @None (list Z)) in *.
  assert (seg cfg 0 n = text) as Es.
  { rewrite Htext. unfold seg. by rewrite Nat.sub_0_r, drop_0. }
  rewrite Es in *. bind_step.
  destruct (lookup_lines _ _ _ _) as [a|]; [|done]. cbn [EFI_ERROR].
  destruct (Ha a eq_refl) as [<- Hw]. unfold scan_abs.
  destruct (Found st); cbn [negb]; [|done]. unfold deliver. cbn [EFI_ERROR fst snd].
  unfold scan_wf in Hw.
  rewrite seg_length by lia.
  replace (MatchedValueEnd st - MatchedValueStart st + 1)%nat
    with (S (MatchedValueEnd st - MatchedValueStart st)) by lia.
  destruct (Nat.ltb_spec cap (S (MatchedValueEnd st - MatchedValueStart st))); [done|].
  replace (S (MatchedValueEnd st - MatchedValueStart st) - 1)%nat
    with (MatchedValueEnd st - MatchedValueStart st)%nat by lia.
  destruct buf as [buf|]; cbn in Hcap; [|lia].
  rewrite copy_out_spec by lia. bind_step. cbn [fmap option_fmap option_map].
  by rewrite seg_length by lia.
Qed.
End reader.

(** ** Records of a section *)
(** What one line does to the abstract scan. *)
Definition entry_line_abs (sec : list Z) (n : nat) (inreq : bool) (l : list Z)
    (rest : bool -> nat -> EFI_STATUS * list Z) : EFI_STATUS * list Z :=
  match parse_line l with
  | LBlank => rest inreq n
  | LMalformed => (EFI_COMPROMISED_DATA, [])
  | LSection nm => rest (name_eq nm sec) n
  | LText t =>
      if inreq then
        match spaces_trimmed (before_comment t) with
        | [] => rest inreq n
        | e => match n with O => (EFI_SUCCESS, e) | S n' => rest inreq n' end
        end
      else rest inreq n
  end.

Lemma entry_of_lines_cons sec n inreq l ls :
  entry_of_lines sec n inreq (l :: ls) =
    entry_line_abs sec n inreq l (fun b m => entry_of_lines sec m b ls).
Proof.
  cbn [entry_of_lines]. unfold entry_line_abs.
  by repeat case_match.
Qed.

(** The answer of a step of the code, its continuation being [rest]. *)
Definition entry_answer (D : list Z) (idx : nat) (rest : bool -> nat -> EFI_STATUS * list Z)
    (r : entry_step) : EFI_STATUS * list Z :=
  match r with
  | EntryError s => (s, [])
  | EntryHit s e => (EFI_SUCCESS, seg D s e)
  | EntryNext b c => rest b (idx - c)%nat
  end.
Definition entry_step_wf (D : list Z) (idx : nat) (r : entry_step) : Prop :=
  match r with
  | EntryError s => EFI_ERROR s = true
  | EntryHit s e => (s <= e <= length D)%nat
  | EntryNext b c => (c <= idx)%nat
  end.

Lemma entry_line_spec D sec idx ls le b c rest :
  cstring sec -> (ls <= le <= length D)%nat -> (c <= idx)%nat ->
  exists r, entry_line D sec idx ls le b c = Some r /\ entry_step_wf D idx r /\
    entry_answer D idx rest r = entry_line_abs sec (idx - c) b (seg D ls le) rest.
Proof.
  intros Hs H Hc. unfold entry_line, entry_line_abs, parse_line.
  destruct (TrimRange_spec D ls le) as (cs & ce & -> & H1 & H2 & <- & _); [lia|]. bind_step.
  destruct (Nat.ltb_spec cs ce) as [E|E].
  2: { replace ce with cs by lia. rewrite seg_nil. by exists (EntryNext b c). }
  destruct (lookup_lt_is_Some_2 D cs) as [x Hx]; [lia|]. rewrite Hx. bind_step.
  rewrite (seg_cons D cs ce x) by (auto; lia). unfold is_comment_mark at 1.
  rewrite <- negb_orb. destruct ((x =? ch "#") || (x =? ch ";")); cbn [negb].
  { by exists (EntryNext b c). }
  destruct (x =? ch "[") eqn:Eb.
  - rewrite section_header_spec by (auto; lia).
    destruct (header_name (seg D (S cs) ce)) as [nm|]; bind_step; cbn [EFI_ERROR];
      [by exists (EntryNext (name_eq nm sec) c) | by exists (EntryError EFI_COMPROMISED_DATA)].
  - rewrite <- (seg_cons D cs ce x) by (auto; lia).
    destruct b; [|by exists (EntryNext false c)].
    destruct (TrimInlineComment_spec D cs ce) as (e1 & -> & A1 & A2); [lia|]. bind_step.
    destruct (TrimRange_spec D cs e1) as (s2 & e2 & -> & B1 & B2 & B3 & _); [lia|]. bind_step.
    rewrite <- A2, <- B3. clear A2 B3. destruct (Nat.ltb_spec s2 e2) as [E2|E2].
    2: { replace e2 with s2 by lia. rewrite seg_nil. by exists (EntryNext true c). }
    destruct (lookup_lt_is_Some_2 D s2) as [y Hy]; [lia|].
    rewrite (seg_cons D s2 e2 y) by (auto; lia).
    destruct (Nat.eqb_spec c idx) as [->|Hci].
    + exists (EntryHit s2 e2). rewrite Nat.sub_diag. cbn.
      split_and!; [done|lia|lia|]. by rewrite <- (seg_cons D s2 e2 y) by (auto; lia).
    + exists (EntryNext true (S c)). split_and!; [done|cbn; lia|].
      by replace (idx - c)%nat with (S (idx - S c)) by lia.
Qed.

Lemma entry_lines_spec fuel D CS sec idx ls b c :
  cstring sec -> (ls <= CS <= length D)%nat -> (CS - ls < fuel)%nat -> (c <= idx)%nat ->
  exists r, entry_lines fuel D CS sec idx ls b c = Some r /\ entry_step_wf D idx r /\
    (forall b c, r <> EntryNext b c) /\
    entry_answer D idx (fun _ _ => (EFI_NOT_FOUND, [])) r =
      entry_of_lines sec (idx - c) b (split_lines (seg D ls CS)).
Proof.
  intros Hs. revert ls b c. induction fuel as [|fuel IH]; intros ls b c H Hf Hc; [lia|].
  cbn [entry_lines]. destruct (Nat.ltb_spec ls CS) as [Hlt|Hge].
  2: { replace CS with ls by lia. rewrite seg_nil. by exists (EntryError EFI_NOT_FOUND). }
  destruct (split_lines_seg D ls CS) as (le & -> & H1 & H2 & ->); [lia|]. bind_step.
  rewrite entry_of_lines_cons.
  destruct (entry_line_spec D sec idx ls le b c (fun b m => entry_of_lines sec m b
    (split_lines (seg D (next_line CS le) CS)))) as (r & -> & Hw & <-); [auto|lia|lia|].
  bind_step. destruct r as [s|s e|b' c']; [by exists (EntryError s)|by exists (EntryHit s e)|].
  cbn in Hw. destruct (IH (next_line CS le) b' c') as (r & -> & Hw' & Hn & Ha); [lia..|].
  by exists r.
Qed.

Lemma section_entry_read_spec g text sec idx buf cap :
  serves g text -> cstring sec -> (cap <= buffer_size buf)%nat ->
  GetAndromedaBootConfigSectionEntry g (Some sec) idx buf (Some cap) =
    Some (deliver buf cap (entry_text sec idx text)).
Proof.
  intros (cfg & n & Hget & Hn & Htext) Hsec Hcap.
  unfold GetAndromedaBootConfigSectionEntry.
  rewrite null_buffer_test by done. rewrite Hget.
  destruct (has_nul_scan cfg n Hn) as (k & -> & _ & Hk). bind_step. rewrite Hk, <- Htext.
  unfold entry_text. destruct (has_nul text); [done|].
  destruct (cstr_at_0 sec Hsec) as (s0 & -> & Hs0). bind_step. rewrite Hs0.
  destruct (entry_lines_spec (S n) cfg n sec idx 0 (is_empty sec) 0)
    as (r & -> & Hw & Hr & Ha); [auto|lia..|]. bind_step.
  assert (seg cfg 0 n = text) as Es.
  { rewrite Htext. unfold seg. by rewrite Nat.sub_0_r, drop_0. }
  rewrite Es, Nat.sub_0_r in Ha. rewrite <- Ha.
  destruct r as [s|s e|b c]; cbn in Hw; [|clear Hr|by destruct (Hr b c)].
  - cbn. unfold deliver. cbn. by rewrite Hw.
  - unfold deliver. cbn [entry_answer EFI_ERROR fst snd]. rewrite seg_length by lia.
    replace (e - s + 1)%nat with (S (e - s)) by lia.
    destruct (Nat.ltb_spec cap (S (e - s))); [done|].
    replace (S (e - s) - 1)%nat with (e - s)%nat by lia.
    destruct buf as [buf|]; cbn in Hcap; [|lia].
    rewrite copy_out_spec by lia. bind_step. cbn [fmap option_fmap option_map].
    by rewrite seg_length by lia.
Qed.

(** ** Numbers *)
Definition digits_value (radix acc : Z) (ds : list Z) : Z :=
  fold_left (fun a d => a * radix + d) ds acc.

(** The number a text denotes: a radix prefix, then digits, below 2^64. *)
Definition number_body (s : list Z) : Z * list Z :=
  match s with
  | z :: x :: r => if (z =? ch "0") && ((x =? ch "x") || (x =? ch "X")) then (16, r) else (10, s)
  | _ => (10, s)
  end.
Definition number_in (radix acc : Z) (s : list Z) : option Z :=
  ds ← mapM (digit_of radix) s;
  if digits_value radix acc ds <? 2 ^ 64 then Some (digits_value radix acc ds) else None.
Definition number_of (s : list Z) : option Z :=
  match (number_body s).2 with
  | [] => None
  | _ => number_in (number_body s).1 0 (number_body s).2
  end.

Definition is_radix (radix : Z) : Prop := radix = 10 \/ radix = 16.

Lemma digit_of_range radix c d : is_radix radix -> digit_of radix c = Some d -> 0 <= d < radix.
Proof.
  intros Hr. unfold digit_of, u8. intros H.
  change (ch "0") with 48 in *. change (ch "9") with 57 in *. change (ch "a") with 97 in *.
  change (ch "f") with 102 in *. change (ch "A") with 65 in *. change (ch "F") with 70 in *.
  repeat case_if_in H; simplify_eq; bool_to_prop; subst; rewrite Z.mod_small; destruct Hr; lia.
Qed.

Lemma digits_value_mono radix acc ds :
  is_radix radix -> 0 <= acc -> Forall (fun d => 0 <= d) ds -> acc <= digits_value radix acc ds.
Proof.
  intros Hr. revert acc. unfold digits_value.
  induction ds as [|d ds IH]; intros acc Ha Hd; cbn [fold_left]; [lia|].
  inversion Hd; subst. etransitivity; [|apply IH; [destruct Hr; nia|done]]. destruct Hr; nia.
Qed.

Lemma number_in_overflow radix acc s :
  is_radix radix -> 2 ^ 64 <= acc -> number_in radix acc s = None.
Proof.
  intros Hr Ha. unfold number_in. destruct (mapM _ s) as [ds|] eqn:E; [|done]. bind_step.
  assert (acc <= digits_value radix acc ds).
  { apply digits_value_mono; [done|lia|]. apply mapM_Some in E.
    apply Forall_forall. intros d Hd. apply list_elem_of_lookup in Hd as [i Hi].
    destruct (Forall2_lookup_r _ _ _ _ _ E Hi) as (c & _ & Hc).
    apply digit_of_range in Hc; [lia|done]. }
  destruct (Z.ltb_spec (digits_value radix acc ds) (2 ^ 64)); [lia|done].
Qed.

Lemma number_in_cons radix acc c s d :
  digit_of radix c = Some d ->
  number_in radix acc (c :: s) = number_in radix (acc * radix + d) s.
Proof.
  intros Hd. unfold number_in. cbn [mapM]. rewrite Hd. bind_step.
  by destruct (mapM (digit_of radix) s) as [ds|].
Qed.

(** The overflow test of the loop is exact. *)
Lemma overflow_test radix acc d :
  is_radix radix -> in_u64 acc -> 0 <= d < radix ->
  (radix <=? d) || ((MAX_UINT64 - d) / radix <? acc) = (2 ^ 64 <=? acc * radix + d).
Proof.
  unfold in_u64, MAX_UINT64. intros Hr Ha Hd.
  destruct (Z.leb_spec radix d); [lia|]. cbn [orb].
  assert (0 < radix) by (destruct Hr; lia).
  pose proof (Z.mul_div_le (2 ^ 64 - 1 - d) radix ltac:(lia)) as Hq.
  pose proof (Z.div_le_lower_bound (2 ^ 64 - 1 - d) radix acc ltac:(lia)) as Hl.
  destruct (Z.ltb_spec ((2 ^ 64 - 1 - d) / radix) acc), (Z.leb_spec (2 ^ 64) (acc * radix + d));
    try done; [|nia].
  assert (acc <= (2 ^ 64 - 1 - d) / radix) by (apply Hl; lia). lia.
Qed.

Lemma parse_digits_spec fuel pre s rest radix acc :
  is_radix radix -> cstring s -> in_u64 acc -> (length s < fuel)%nat ->
  parse_digits fuel (pre ++ s ++ 0 :: rest) radix (length pre) acc = Some (number_in radix acc s).
Proof.
  intros Hr. revert fuel pre acc. induction s as [|c s IH]; intros fuel pre acc Hs Ha Hf;
    (destruct fuel as [|fuel]; [cbn in Hf; lia|]); cbn [parse_digits app].
  - rewrite lookup_app_r by lia. rewrite Nat.sub_diag. cbn [lookup list_lookup]. bind_step. rewrite Z.eqb_refl.
    unfold number_in. cbn. destruct (Z.ltb_spec acc (2 ^ 64)); [done|]. unfold in_u64 in Ha. lia.
  - inversion Hs; subst.
    rewrite lookup_app_r by lia. rewrite Nat.sub_diag. cbn [lookup list_lookup]. bind_step.
    destruct (Z.eqb_spec c 0); [done|]. cbn [app].
    destruct (digit_of radix c) as [d|] eqn:Ed.
    2: { unfold number_in. cbn [mapM]. by rewrite Ed. }
    pose proof (digit_of_range _ _ _ Hr Ed) as Hd.
    rewrite overflow_test by done. rewrite (number_in_cons _ _ _ _ d) by done.
    destruct (Z.leb_spec (2 ^ 64) (acc * radix + d)) as [Ho|Ho].
    + by rewrite number_in_overflow.
    + unfold in_u64 in Ha.
      assert (0 <= acc * radix) by (destruct Hr; nia).
      rewrite (u64_small (acc * radix)) by (unfold in_u64; lia).
      rewrite u64_small by (unfold in_u64; lia).
      replace (pre ++ c :: s ++ 0 :: rest) with ((pre ++ [c]) ++ s ++ 0 :: rest)
        by (by rewrite <- app_assoc).
      replace (S (length pre)) with (length (pre ++ [c])) by (rewrite length_app; cbn; lia).
      apply IH; [done|unfold in_u64; lia|cbn in Hf; lia].
Qed.

(** The code's parser reads a terminated text as the number it denotes. *)
Lemma parse_uint64_text_spec s rest :
  cstring s -> parse_uint64_text (s ++ 0 :: rest) = Some (number_of s).
Proof.
  intros Hs. unfold parse_uint64_text, number_of.
  pose proof (fun pre t radix rest (H : cstring t) Hr =>
    parse_digits_spec (length (pre ++ t ++ 0 :: rest)) pre t rest radix 0 Hr H
      ltac:(unfold in_u64; lia) ltac:(rewrite !length_app; cbn; lia)) as P.
  assert (H10 : is_radix 10) by (by left). assert (H16 : is_radix 16) by (by right).
  destruct s as [|z s].
  { cbn. done. }
  assert (Hz : z <> 0) by (by inversion Hs). cbn [app lookup list_lookup]. bind_step.
  destruct s as [|x s].
  { cbn [app lookup list_lookup number_body fst snd]. bind_step.
    change ((0 =? ch "x") || (0 =? ch "X")) with false.
    destruct (z =? ch "0"); bind_step; cbn [lookup list_lookup]; bind_step;
      (destruct (Z.eqb_spec z 0); [done|]); exact (P [] [z] 10 rest Hs H10). }
  cbn [app lookup list_lookup number_body]. bind_step.
  destruct (z =? ch "0"); cbn [andb]; bind_step;
    [destruct ((x =? ch "x") || (x =? ch "X")); bind_step|];
    cbn [lookup list_lookup]; bind_step;
    try (destruct (Z.eqb_spec z 0); [done|]; exact (P [] (z :: x :: s) 10 rest Hs H10)).
  destruct s as [|y s]; [done|]. cbn [app lookup list_lookup]. bind_step.
  inversion Hs as [|? ? _ Hs1]; subst. inversion Hs1 as [|? ? _ Hs2]; subst.
  destruct (Z.eqb_spec y 0); [by inversion Hs2|].
  exact (P [z; x] (y :: s) 16 rest Hs2 H16).
Qed.

(** Printing a number in a radix, least significant digit last. *)
Definition digit_char (d : Z) : Z := if d <? 10 then ch "0" + d else ch "a" + (d - 10).
Fixpoint to_digits (fuel : nat) (radix v : Z) (acc : list Z) : list Z :=
  match fuel with
  | O => acc
  | S fuel' => if v <? radix then v :: acc
               else to_digits fuel' radix (v / radix) (v mod radix :: acc)
  end.
Definition dec_text (v : Z) : list Z := digit_char <$> to_digits 64 10 v [].
Definition hex_text (v : Z) : list Z := [ch "0"; ch "x"] ++ (digit_char <$> to_digits 64 16 v []).

Lemma digit_of_char radix d : is_radix radix -> 0 <= d < radix -> digit_of radix (digit_char d) = Some d.
Proof.
  intros Hr Hd. assert (d = 0 \/ d = 1 \/ d = 2 \/ d = 3 \/ d = 4 \/ d = 5 \/ d = 6 \/ d = 7 \/
    d = 8 \/ d = 9 \/ (radix = 16 /\ (d = 10 \/ d = 11 \/ d = 12 \/ d = 13 \/ d = 14 \/ d = 15)))
    as Hc by (destruct Hr; lia).
  destruct Hr as [->| ->]; destruct_or?; destruct_and?; destruct_or?; subst; try done; lia.
Qed.

Lemma mapM_digit_chars radix ds :
  is_radix radix -> Forall (fun d => 0 <= d < radix) ds ->
  mapM (digit_of radix) (digit_char <$> ds) = Some ds.
Proof.
  intros Hr. induction 1 as [|d ds Hd _ IH]; [done|]. cbn [fmap list_fmap mapM].
  rewrite digit_of_char by done. bind_step. rewrite IH. done.
Qed.

Lemma to_digits_range fuel radix v acc :
  is_radix radix -> 0 <= v -> Forall (fun d => 0 <= d < radix) acc ->
  Forall (fun d => 0 <= d < radix) (to_digits fuel radix v acc).
Proof.
  intros Hr. revert v acc. induction fuel as [|fuel IH]; intros v acc Hv Ha; [done|].
  cbn [to_digits]. assert (0 < radix) by (destruct Hr; lia).
  destruct (Z.ltb_spec v radix); [constructor; [lia|done]|].
  apply IH; [by apply Z.div_pos|]. constructor; [by apply Z.mod_pos_bound|done].
Qed.

Lemma to_digits_value fuel radix v acc :
  is_radix radix -> 0 <= v < 2 ^ Z.of_nat fuel -> (0 < fuel)%nat ->
  digits_value radix 0 (to_digits fuel radix v acc) = digits_value radix v acc /\
  to_digits fuel radix v acc <> [].
Proof.
  intros Hr. revert v acc. induction fuel as [|fuel IH]; intros v acc Hv Hf; [lia|].
  cbn [to_digits]. assert (2 <= radix) by (destruct Hr; lia).
  destruct (Z.ltb_spec v radix); [done|].
  assert (2 ^ Z.of_nat (S fuel) = 2 * 2 ^ Z.of_nat fuel) as E.
  { rewrite Nat2Z.inj_succ, Z.pow_succ_r; lia. }
  assert (v / radix < 2 ^ Z.of_nat fuel) as Hlt.
  { apply Z.div_lt_upper_bound; [lia|]. nia. }
  destruct fuel as [|fuel]; [change (Z.of_nat 0) with 0 in Hlt;
    pose proof (Z.div_le_lower_bound v radix 1); lia|].
  destruct (IH (v / radix) (v mod radix :: acc)) as [-> Hn]; [|lia|].
  { split; [apply Z.div_pos; lia|done]. }
  split; [|done]. unfold digits_value. cbn [fold_left]. f_equal.
  rewrite Z.mul_comm. symmetry. apply Z.div_mod. lia.
Qed.

Lemma number_in_digits radix v :
  is_radix radix -> in_u64 v ->
  number_in radix 0 (digit_char <$> to_digits 64 radix v []) = Some v.
Proof.
  intros Hr Hv. unfold in_u64 in Hv. unfold number_in.
  rewrite mapM_digit_chars by (auto; apply to_digits_range; auto; lia). bind_step.
  destruct (to_digits_value 64 radix v []) as [-> _]; [done|lia|lia|].
  unfold digits_value. cbn [fold_left]. destruct (Z.ltb_spec v (2 ^ 64)); [done|lia].
Qed.

(** ** The text of an answer has no terminator *)
Section characters.
Context (P : Z -> Prop).

Lemma Forall_trim l : Forall P l -> Forall P (spaces_trimmed l).
Proof.
  intros H. unfold trim. rewrite rtrim_take. apply Forall_take. by apply Forall_drop.
Qed.
Lemma Forall_before_comment l : Forall P l -> Forall P (before_comment l).
Proof. intros H. unfold before_comment. case_match; [by apply Forall_take|done]. Qed.
Lemma Forall_split_lines l : Forall P l -> Forall (Forall P) (split_lines l).
Proof.
  induction 1 as [|c l Hc _ IH]; cbn [split_lines]; [done|].
  destruct (c =? newline); [by constructor|].
  destruct IH; repeat constructor; auto.
Qed.
Lemma parse_line_text l t : Forall P l -> parse_line l = LText t -> Forall P t.
Proof.
  intros H. apply Forall_trim in H. unfold parse_line.
  destruct (spaces_trimmed l); [done|]. repeat case_match; intros; simplify_eq; done.
Qed.
Lemma parse_key_value_value t k v : Forall P t -> parse_key_value t = Assign k v -> Forall P v.
Proof.
  intros H. unfold parse_key_value. repeat case_match; intros; simplify_eq.
  apply Forall_trim, Forall_before_comment, Forall_trim, Forall_drop, H.
Qed.

Lemma lookup_lines_value sec key a ls b v :
  Forall (Forall P) ls -> (forall w, a.2 = Some w -> Forall P w) ->
  lookup_lines sec key a ls = Some (b, Some v) -> Forall P v.
Proof.
  intros Hls. revert a. induction Hls as [|l ls Hl _ IH]; intros a Ha; cbn [lookup_lines].
  { intros [= ->]. by apply Ha. }
  destruct (lookup_line sec key a l) as [a'|] eqn:E; [|done]. bind_step.
  apply IH. intros w Hw. unfold lookup_line in E.
  destruct (parse_line l) eqn:El; simplify_eq/=; eauto.
  destruct (parse_key_value content) eqn:Ek; simplify_eq/=; eauto.
  case_match; simplify_eq/=; eauto. destruct a.2; simplify_eq/=.
  eapply parse_key_value_value; [|done]. by eapply parse_line_text.
Qed.
End characters.

Lemma lookup_text_cstring sec key text : cstring (lookup_text sec key text).2.
Proof.
  unfold lookup_text. destruct (has_nul text) eqn:E; [constructor|].
  destruct (lookup_lines _ _ _ _) as [[b [v|]]|] eqn:El; [|constructor..].
  eapply lookup_lines_value in El; [done| |done].
  apply Forall_split_lines. unfold has_nul in E. apply bool_decide_eq_false in E.
  apply Forall_forall. intros x Hx ->. done.
Qed.
#[export] Hint Resolve lookup_text_cstring : s2p.

Lemma lookup_text_status sec key text :
  EFI_ERROR (lookup_text sec key text).1 = false -> (lookup_text sec key text).1 = EFI_SUCCESS.
Proof. unfold lookup_text. by repeat case_match. Qed.

(** ** Typed reads *)
(** The number read by [GetAndromedaBootConfigUint64], as status and value. *)
Definition uint64_answer (old : Z) (r : EFI_STATUS * list Z) : EFI_STATUS * Z :=
  if EFI_ERROR r.1 then (r.1, old) else
  if (32 <? S (length r.2))%nat then (EFI_BUFFER_TOO_SMALL, old) else
  match number_of r.2 with
  | None => (EFI_COMPROMISED_DATA, old)
  | Some v => (EFI_SUCCESS, v)
  end.
Definition uint32_answer (old : Z) (r : EFI_STATUS * list Z) : EFI_STATUS * Z :=
  let a := uint64_answer 0 r in
  if EFI_ERROR a.1 then (a.1, old) else
  if MAX_UINT32 <? a.2 then (EFI_COMPROMISED_DATA, old) else (EFI_SUCCESS, a.2).

Lemma number_of_range s v : number_of s = Some v -> in_u64 v.
Proof.
  unfold number_of, number_in. intros H.
  assert (is_radix (number_body s).1) as Hr.
  { unfold number_body. repeat case_match; by (left + right). }
  destruct (number_body s) as [radix body]. cbn [fst snd] in *.
  destruct body as [|c body]; [done|]. destruct (mapM _ _) as [ds|] eqn:E; [|done].
  revert H. bind_step. destruct (Z.ltb_spec (digits_value radix 0 ds) (2 ^ 64)); [|done].
  intros [= <-]. split; [|done]. apply digits_value_mono; [done|lia|].
  apply mapM_Some in E. apply Forall_forall. intros d Hd.
  apply list_elem_of_lookup in Hd as [i Hi].
  destruct (Forall2_lookup_r _ _ _ _ _ E Hi) as (x & _ & Hx).
  apply digit_of_range in Hx; [lia|done].
Qed.

Lemma uint64_answer_range old r : in_u64 old -> in_u64 (uint64_answer old r).2.
Proof.
  intros H. unfold uint64_answer. destruct (EFI_ERROR r.1); [done|].
  destruct (_ <? _)%nat; [done|]. destruct (number_of r.2) eqn:E; [|done]. by eapply number_of_range.
Qed.

Section typed_reads.
Context (g : boot_config) (text : list Z) (Hg : serves g text).
Context (sec key : list Z) (Hsec : cstring sec) (Hkey : cstring key) (Hne : key <> []).
Context (Stack : list Z) (HStack : length Stack = 32%nat).

Lemma uint64_read_spec old :
  GetAndromedaBootConfigUint64 g Stack (Some sec) (Some key) (Some old) =
    Some (let a := uint64_answer old (lookup_text sec key text) in (a.1, Some a.2)).
Proof.
  unfold GetAndromedaBootConfigUint64. rewrite (value_read_spec g text) by (auto; cbn; lia).
  bind_step. unfold deliver, uint64_answer.
  pose proof (lookup_text_cstring sec key text) as Hc.
  destruct (lookup_text sec key text) as [st v]. cbn [fst snd] in *.
  destruct (EFI_ERROR st) eqn:E; [by rewrite E|].
  destruct (32 <? S (length v))%nat eqn:El; [done|].
  cbn [EFI_ERROR app fmap option_fmap option_map]. bind_step.
  rewrite parse_uint64_text_spec by done. bind_step. by destruct (number_of v).
Qed.

Lemma uint32_read_spec old :
  GetAndromedaBootConfigUint32 g Stack (Some sec) (Some key) (Some old) =
    Some (let a := uint32_answer old (lookup_text sec key text) in (a.1, Some a.2)).
Proof.
  unfold GetAndromedaBootConfigUint32. rewrite uint64_read_spec. bind_step.
  unfold uint32_answer. destruct (EFI_ERROR _) eqn:E; [done|]. bind_step.
  destruct (Z.ltb_spec MAX_UINT32 (uint64_answer 0 (lookup_text sec key text)).2) as [|Hle]; [done|].
  rewrite u32_small; [done|].
  destruct (uint64_answer_range 0 (lookup_text sec key text)) as [Hr _]; [by split|].
  unfold MAX_UINT32 in Hle. unfold in_u32. lia.
Qed.
End typed_reads.

(** ** Quoted strings *)
(** What [QcomLocateConfigurationMapStringByName] makes of a value. *)
Definition unquote (r : EFI_STATUS * list Z) : EFI_STATUS * list Z :=
  if EFI_ERROR r.1 then r else
  match r.2 with
  | q :: v =>
      if negb (q =? dquote) then r else
      if bool_decide (last v = Some dquote) then (r.1, take (length v - 1) v)
      else (EFI_COMPROMISED_DATA, [])
  | [] => r
  end.

Lemma shift_left_loop_spec a b x y c :
  shift_left_loop (a ++ x ++ [y] ++ b ++ c) (length b) (S (length a + length x)) =
    Some (a ++ x ++ b ++ [default y (last b)] ++ c).
Proof.
  revert x y. induction b as [|d b IH]; intros x y; cbn [length shift_left_loop].
  { done. }
  rewrite lookup_app_r by lia. rewrite lookup_app_r by lia.
  replace (S (length a + length x) - length a - length x)%nat with 1%nat by lia.
  cbn [app lookup list_lookup]. bind_step.
  replace (S (length a + length x) - 1)%nat with (length a + length x)%nat by lia.
  rewrite insert_app_r. replace (length x) with (length x + 0)%nat by lia.
  rewrite insert_app_r. cbn [insert list_insert].
  specialize (IH (x ++ [d]) d). rewrite length_app in IH. cbn [length] in IH.
  replace (S (S (length a + (length x + 0)))) with (S (length a + (length x + 1))) by lia.
  rewrite <- !app_assoc in IH. cbn [app] in IH. rewrite IH.
  rewrite last_cons. by destruct (last b).
Qed.

Lemma string_by_name_spec g text key buf cap r :
  serves g text -> cstring key -> key <> [] -> (cap <= length buf)%nat ->
  lookup_text CONFIG_PARAMETERS_SECTION key text = r ->
  exists buf' size,
    QcomLocateConfigurationMapStringByName g (Some key) (Some buf) (Some cap) =
      Some ((if EFI_ERROR (deliver (Some buf) cap r).1.1 then (deliver (Some buf) cap r).1.1 else (unquote r).1),
            Some buf', size) /\
    (EFI_ERROR (deliver (Some buf) cap r).1.1 = false -> EFI_ERROR (unquote r).1 = false ->
     length buf' = length buf /\ size = Some (S (length (unquote r).2)) /\
     exists rest, buf' = (unquote r).2 ++ [0] ++ rest).
Proof.
  intros Hg Hk Hne Hcap <-. unfold QcomLocateConfigurationMapStringByName.
  rewrite bool_decide_false, andb_false_r by done.
  rewrite (value_read_spec g text); [|auto..].
  2: { vm_compute. by repeat constructor. }
  bind_step. pose proof (lookup_text_cstring CONFIG_PARAMETERS_SECTION key text) as Hc.
  pose proof (lookup_text_status CONFIG_PARAMETERS_SECTION key text) as Hst.
  destruct (lookup_text CONFIG_PARAMETERS_SECTION key text) as [st v] eqn:Hl.
  cbn [fst snd] in Hc, Hst.
  unfold deliver, unquote. cbn [fst snd].
  destruct (EFI_ERROR st) eqn:Est.
  { rewrite Est. cbn [fst snd]. rewrite Est. by exists buf, (Some 0%nat). }
  rewrite Hst in Est |- * by done. clear st Hl Hst Est.
  destruct (Nat.ltb_spec cap (S (length v))) as [Hcl|Hcl]; cbn [EFI_ERROR fst snd].
  { by exists buf, (Some (S (length v))). }
  cbn [fmap option_fmap option_map]. bind_step. destruct v as [|q v]; cbn [length].
  { change (1 <? 1)%nat with false. bind_step. cbn [andb].
    eexists _, _. split; [done|]. intros _ _. split_and!; [|done|by eexists].
    cbn [app length]. rewrite length_drop. cbn [length] in Hcl. lia. }
  destruct (Nat.ltb_spec 1 (S (S (length v)))); [|lia]. cbn [app lookup list_lookup andb]. bind_step.
  destruct (Z.eqb_spec q dquote) as [->|Hq]; cbn [negb].
  2: { eexists _, _. split; [done|]. intros _ _. split_and!; [|done|by eexists].
       cbn [length]. rewrite length_app. cbn [length]. rewrite length_drop. cbn in *. lia. }
  destruct v as [|y m _] using rev_ind.
  { cbn. eexists _, _. split; [done|]. done. }
  rewrite last_snoc, length_app. cbn [length].
  destruct (Nat.ltb_spec (S (S (length m + 1))) 3) as [Hlt|_]; [lia|].
  replace (S (S (length m + 1)) - 2)%nat with (S (length m)) by lia.
  change ((dquote :: (m ++ [y]) ++ ?r) !! S (length m)) with (((m ++ [y]) ++ r) !! length m).
  rewrite lookup_app_l by (rewrite length_app; cbn; lia).
  rewrite lookup_app_r by lia. rewrite Nat.sub_diag. cbn [lookup list_lookup orb]. bind_step.
  destruct (Z.eqb_spec y dquote) as [->|Hy]; cbn [negb].
  2: { rewrite bool_decide_false by congruence. eexists _, _. split; [done|]. done. }
  rewrite bool_decide_true by done. cbn [EFI_ERROR].
  replace (S (S (length m + 1)) - 3)%nat with (length m) by lia.
  set (rest := drop _ buf).
  assert (length rest = length buf - (length m + 3))%nat as Hrest.
  { unfold rest. rewrite length_drop. lia. }
  rewrite <- (app_assoc m).
  pose proof (shift_left_loop_spec [] m [] dquote ([dquote] ++ 0 :: rest)) as E.
  cbn [app length Nat.add] in E |- *. rewrite E. bind_step.
  destruct (Nat.ltb_spec (length (m ++ default dquote (last m) :: dquote :: 0 :: rest)) (S (length m)))
    as [Hl2|_]; [rewrite length_app in Hl2; cbn in Hl2; lia|].
  eexists _, _. split; [done|]. intros _ _.
  replace (length m + 1 - 1)%nat with (length m) by lia. rewrite take_app_length.
  split_and!; [|done|].
  - rewrite length_insert, length_app. cbn [length] in *. rewrite length_app in Hcl. cbn in Hcl. lia.
  - exists (dquote :: 0 :: rest). replace (length m) with (length m + 0)%nat by lia.
    by rewrite insert_app_r.
Qed.

(** ** Properties of the boot-configuration reader *)
Lemma serves_buffer cfg n hob :
  (0 < n <= length cfg)%nat -> Z.of_nat n <= ANDROMEDA_BOOT_CONFIG_MAX_SIZE ->
  serves (mk_boot_config (Some cfg) n hob) (take n cfg).
Proof.
  intros H1 H2. exists cfg, n. split_and!; [|lia|done]. unfold GetBootConfig. cbn.
  destruct (Nat.eqb_spec n 0); [lia|]. unfold too_large.
  destruct (Z.ltb_spec ANDROMEDA_BOOT_CONFIG_MAX_SIZE (Z.of_nat n)); [lia|done].
Qed.

(** C7: with a configuration text in place, a C string for the
    section and a non-empty one for the key, and a caller's buffer of the
    declared capacity (or NULL with capacity zero), [GetAndromedaBootConfigValue] terminates, reads only inside its
    objects and answers exactly what the abstract reader [lookup_text] answers:
    the trimmed, comment-free value of the only matching assignment, the
    required size when the buffer is too small, [EFI_NOT_FOUND], or
    [EFI_COMPROMISED_DATA] for a malformed or ambiguous text. *)
Theorem GetAndromedaBootConfigValue_refines g text sec key buf cap :
  serves g text -> cstring sec -> cstring key -> key <> [] -> (cap <= buffer_size buf)%nat ->
  GetAndromedaBootConfigValue g (Some sec) (Some key) buf (Some cap) =
    Some (deliver buf cap (lookup_text sec key text)).
Proof. intros. by apply value_read_spec. Qed.

Definition sample_text : list Z :=
  bytes "# boot" ++ [newline] ++ bytes "[ Boot ] ; header" ++ [carriage_return; newline] ++
  bytes " Mode = Fast#1 # comment" ++ [newline] ++ bytes "[configparameters]" ++ [newline] ++
  bytes "Size=0x1F" ++ [newline] ++ bytes "Name = " ++ [dquote] ++ bytes "a b" ++ [dquote] ++
  [newline] ++ bytes "one, two ; three".
Definition sample_config : boot_config :=
  mk_boot_config (Some sample_text) (length sample_text) None.

Lemma sample_serves : serves sample_config sample_text.
Proof.
  rewrite <- (firstn_all sample_text) at 1. apply serves_buffer; vm_compute; split_and?; try done; lia.
Defined.

Lemma GetAndromedaBootConfigValue_refines_witness :
  GetAndromedaBootConfigValue sample_config (Some (bytes "boot")) (Some (bytes "MODE"))
    (Some (repeat 7 8)) (Some 8%nat) =
    Some (EFI_SUCCESS, Some (bytes "Fast#1" ++ [0; 7]), Some 7%nat).
Proof.
  rewrite (GetAndromedaBootConfigValue_refines sample_config sample_text);
    [by vm_compute|apply sample_serves|..|done|cbn; lia]; vm_compute; by repeat constructor.
Defined.

(** [GetAndromedaBootConfigSectionEntry] terminates,
    reads only inside its objects and answers the [EntryIndex]-th record of the
    section as the abstract reader [entry_text] defines it (comments cut, blank
    lines skipped, sections compared without case), with the size protocol of
    the caller's buffer. *)
Theorem GetAndromedaBootConfigSectionEntry_refines g text sec idx buf cap :
  serves g text -> cstring sec -> (cap <= buffer_size buf)%nat ->
  GetAndromedaBootConfigSectionEntry g (Some sec) idx buf (Some cap) =
    Some (deliver buf cap (entry_text sec idx text)).
Proof. intros. by apply section_entry_read_spec. Qed.

Lemma GetAndromedaBootConfigSectionEntry_refines_witness :
  GetAndromedaBootConfigSectionEntry sample_config (Some (bytes "ConfigParameters")) 2
    (Some (repeat 7 12)) (Some 12%nat) =
    Some (EFI_SUCCESS, Some (bytes "one, two" ++ [0; 7; 7; 7]), Some 9%nat).
Proof.
  rewrite (GetAndromedaBootConfigSectionEntry_refines sample_config sample_text);
    [by vm_compute|apply sample_serves| |cbn; lia]. vm_compute. by repeat constructor.
Defined.

(** The two-call protocol of the callers. A query with a NULL
    buffer changes nothing and reports the size; a second call with a fresh
    buffer of that size always succeeds and leaves exactly the value and its
    terminator in it. *)
Theorem SizeQuery_then_read g text sec key v buf :
  serves g text -> cstring sec -> cstring key -> key <> [] ->
  lookup_text sec key text = (EFI_SUCCESS, v) -> length buf = S (length v) ->
  GetAndromedaBootConfigValue g (Some sec) (Some key) None (Some 0%nat) =
    Some (EFI_BUFFER_TOO_SMALL, None, Some (length buf)) /\
  GetAndromedaBootConfigValue g (Some sec) (Some key) (Some buf) (Some (length buf)) =
    Some (EFI_SUCCESS, Some (v ++ [0]), Some (length buf)).
Proof.
  intros Hg Hs Hk Hne Hl Hb. rewrite !(value_read_spec g text) by (auto; cbn; lia).
  rewrite Hl, Hb. unfold deliver. cbn [EFI_ERROR fst snd].
  destruct (Nat.ltb_spec (S (length v)) (S (length v))); [lia|]. cbn [fmap option_fmap option_map].
  by rewrite drop_ge, app_nil_r by lia.
Qed.

Lemma SizeQuery_then_read_witness :
  GetAndromedaBootConfigValue sample_config (Some (bytes "boot")) (Some (bytes "Mode"))
    None (Some 0%nat) = Some (EFI_BUFFER_TOO_SMALL, None, Some 7%nat) /\
  GetAndromedaBootConfigValue sample_config (Some (bytes "boot")) (Some (bytes "Mode"))
    (Some (repeat 9 7)) (Some 7%nat) = Some (EFI_SUCCESS, Some (bytes "Fast#1" ++ [0]), Some 7%nat).
Proof.
  apply (SizeQuery_then_read sample_config sample_text (bytes "boot") (bytes "Mode")
           (bytes "Fast#1") (repeat 9 7));
    [apply sample_serves|..]; vm_compute; try done; by repeat constructor.
Defined.

(** The typed reads. With the 32-byte local buffer (its initial
    content is irrelevant), [GetAndromedaBootConfigUint64] and
    [GetAndromedaBootConfigUint32] return the number the value denotes
    ([number_of]: decimal, or hexadecimal after 0x, below 2^64 and below 2^32),
    leave the result variable alone on every error, and report a value that is
    not such a number as compromised. *)
Theorem GetAndromedaBootConfigUint_refines g text sec key Stack old :
  serves g text -> cstring sec -> cstring key -> key <> [] -> length Stack = 32%nat ->
  GetAndromedaBootConfigUint64 g Stack (Some sec) (Some key) (Some old) =
    Some (let a := uint64_answer old (lookup_text sec key text) in (a.1, Some a.2)) /\
  GetAndromedaBootConfigUint32 g Stack (Some sec) (Some key) (Some old) =
    Some (let a := uint32_answer old (lookup_text sec key text) in (a.1, Some a.2)).
Proof. intros. split; [by apply uint64_read_spec|by apply uint32_read_spec]. Qed.

Lemma GetAndromedaBootConfigUint_refines_witness :
  GetAndromedaBootConfigUint64 sample_config (repeat 3 32) (Some CONFIG_PARAMETERS_SECTION)
    (Some (bytes "size")) (Some 5) = Some (EFI_SUCCESS, Some 31) /\
  GetAndromedaBootConfigUint32 sample_config (repeat 3 32) (Some CONFIG_PARAMETERS_SECTION)
    (Some (bytes "size")) (Some 5) = Some (EFI_SUCCESS, Some 31).
Proof.
  apply (GetAndromedaBootConfigUint_refines sample_config sample_text CONFIG_PARAMETERS_SECTION
           (bytes "size") (repeat 3 32) 5);
    [apply sample_serves|..]; vm_compute; try done; by repeat constructor.
Defined.

(** C37: the parser shared by the boot configuration and the memory
    map reads back every 64-bit number printed in decimal or in hexadecimal. *)
Theorem parse_uint64_roundtrip v rest :
  in_u64 v ->
  parse_uint64_text (dec_text v ++ 0 :: rest) = Some (Some v) /\
  parse_uint64_text (hex_text v ++ 0 :: rest) = Some (Some v).
Proof.
  intros Hv. assert (Hv' := Hv). unfold in_u64 in Hv'.
  assert (forall radix, is_radix radix -> cstring (digit_char <$> to_digits 64 radix v [])) as Hc.
  { intros radix Hr. apply Forall_fmap. eapply Forall_impl;
      [apply (to_digits_range 64 radix v []); auto; lia|].
    intros d Hd. cbn. unfold digit_char. change (ch "0") with 48. change (ch "a") with 97.
    cbn in Hd. destruct (Z.ltb_spec d 10); lia. }
  assert (is_radix 10 /\ is_radix 16) as [H10 H16] by (split; [by left|by right]).
  split; rewrite parse_uint64_text_spec; f_equal; try by apply Hc.
  - pose proof (number_in_digits 10 v H10 Hv) as E.
    pose proof (to_digits_range 64 10 v [] H10 ltac:(lia) ltac:(constructor)) as Hr.
    destruct (to_digits_value 64 10 v []) as [_ Hn]; [done|lia|lia|].
    unfold dec_text in *. destruct (to_digits 64 10 v []) as [|d [|e ds]]; [done|done|].
    unfold number_of. cbn [fmap list_fmap] in *. cbn [number_body].
    assert ((digit_char e =? ch "x") || (digit_char e =? ch "X") = false) as ->.
    { inversion Hr as [|? ? _ Hr1]; subst. inversion Hr1; subst.
      unfold digit_char. change (ch "0") with 48. change (ch "x") with 120.
      change (ch "X") with 88. destruct (Z.ltb_spec e 10); [|lia].
      apply orb_false_iff; split; apply Z.eqb_neq; lia. }
    by rewrite andb_false_r.
  - pose proof (number_in_digits 16 v H16 Hv) as E.
    destruct (to_digits_value 64 16 v []) as [_ Hn]; [done|lia|lia|].
    unfold hex_text, number_of. cbn [app number_body].
    destruct (to_digits 64 16 v []) as [|d ds]; [done|]. exact E.
  - constructor; [done|]. constructor; [done|]. by apply Hc.
Qed.

Lemma parse_uint64_roundtrip_witness :
  parse_uint64_text (bytes "18446744073709551615" ++ [0]) = Some (Some MAX_UINT64) /\
  parse_uint64_text (bytes "0xffffffffffffffff" ++ [0]) = Some (Some MAX_UINT64).
Proof. apply (parse_uint64_roundtrip MAX_UINT64 []). unfold in_u64, MAX_UINT64. lia. Defined.

(** The string lookup of the configuration map returns the
    status of the read, or the value with one surrounding pair of quotes
    removed ([unquote]); a value that starts with a quote and does not end with
    another is compromised; the caller's buffer keeps its length and holds the
    result and a terminator, and the reported size counts both. *)
Theorem QcomLocateConfigurationMapStringByName_refines g text key buf cap r :
  serves g text -> cstring key -> key <> [] -> (cap <= length buf)%nat ->
  lookup_text CONFIG_PARAMETERS_SECTION key text = r ->
  exists buf' size,
    QcomLocateConfigurationMapStringByName g (Some key) (Some buf) (Some cap) =
      Some ((if EFI_ERROR (deliver (Some buf) cap r).1.1
             then (deliver (Some buf) cap r).1.1 else (unquote r).1),
            Some buf', size) /\
    (EFI_ERROR (deliver (Some buf) cap r).1.1 = false -> EFI_ERROR (unquote r).1 = false ->
     length buf' = length buf /\ size = Some (S (length (unquote r).2)) /\
     exists rest, buf' = (unquote r).2 ++ [0] ++ rest).
Proof. intros. by eapply string_by_name_spec. Qed.

Lemma QcomLocateConfigurationMapStringByName_refines_witness :
  exists buf' size,
    QcomLocateConfigurationMapStringByName sample_config (Some (bytes "name"))
      (Some (repeat 7 8)) (Some 8%nat) = Some (EFI_SUCCESS, Some buf', size) /\
    exists rest, buf' = bytes "a b" ++ [0] ++ rest.
Proof.
  destruct (QcomLocateConfigurationMapStringByName_refines sample_config sample_text
    (bytes "name") (repeat 7 8) 8 (EFI_SUCCESS, [dquote; 97; 32; 98; dquote]))
    as (buf' & size & Hr & Hb);
    [apply sample_serves|vm_compute; by repeat constructor|done|cbn; lia|by vm_compute|].
  exists buf', size. split; [exact Hr|]. by destruct Hb as (_ & _ & Hrest).
Defined.

(** [SetAndromedaBootConfigBuffer] accepts a buffer exactly when it is
    present, of 1 to 0xFFFF bytes and free of NUL, and then every later read is
    of that text; every refusal forgets a buffer installed before, so that reads
    go to the HOB. *)
Theorem SetAndromedaBootConfigBuffer_spec g cfg n :
  (n <= length cfg)%nat ->
  exists s g', SetAndromedaBootConfigBuffer g (Some cfg) n = Some (s, g') /\
    (s = EFI_SUCCESS <->
       (0 < n)%nat /\ Z.of_nat n <= ANDROMEDA_BOOT_CONFIG_MAX_SIZE /\ has_nul (take n cfg) = false) /\
    (s = EFI_SUCCESS -> serves g' (take n cfg)) /\
    (s <> EFI_SUCCESS -> EFI_ERROR s = true /\ g' = mk_boot_config None 0 (ConfigHobData g)).
Proof.
  intros Hn. unfold SetAndromedaBootConfigBuffer, too_large.
  destruct (Nat.eqb_spec n 0); [do 2 eexists; split; [done|]; split; [|done];
    split; [done|lia]|].
  destruct (Z.ltb_spec ANDROMEDA_BOOT_CONFIG_MAX_SIZE (Z.of_nat n)); [do 2 eexists; split; [done|];
    split; [|done]; split; [done|lia]|].
  destruct (has_nul_scan cfg n Hn) as (k & -> & _ & Hk). bind_step. rewrite Hk.
  destruct (has_nul (take n cfg)); do 2 eexists; (split; [done|]); split_and!; try done.
  - split; [done|]. by intros (_ & _ & ?).
  - split; [|done]. intros _. split_and!; [lia|done|done].
  - intros _. apply serves_buffer; lia.
Qed.

Lemma SetAndromedaBootConfigBuffer_spec_witness :
  exists s g', SetAndromedaBootConfigBuffer (mk_boot_config None 0 None) (Some sample_text)
    (length sample_text) = Some (s, g') /\ serves g' sample_text.
Proof.
  destruct (SetAndromedaBootConfigBuffer_spec (mk_boot_config None 0 None) sample_text
    (length sample_text)) as (s & g' & H & Hs & Hg & _); [done|].
  exists s, g'. split; [done|]. rewrite <- (firstn_all sample_text).
  apply Hg, Hs. split_and!; [apply Nat.ltb_lt; by vm_compute|vm_compute; discriminate|by vm_compute].
Defined.
