(* ===== verification/MemoryMapConfig.v ===== *)
(** * QcomUefiPlatMemoryMapLib: memory-map records of the boot configuration.

    [Silicon/QC/Common/QcomPlatformPkg/Library/QcomUefiPlatMemoryMapLib/QcomUefiPlatMemoryMapLib.c]
    and the types of [AndromedaMemoryMapLib.h].  A record is split and unquoted
    in place: the buffer is explicit and a field is an offset into it. *)
From stdpp Require Import base numbers list option strings.
From Stdlib Require Import ZArith Lia Ascii.
From S2P Require Import Prelude BaseLib BootConfig.
Local Open Scope Z_scope.

(** ** Types of [AndromedaMemoryMapLib.h].  The enumerations that come from the PI
    and UEFI specifications are inductive types with the constants the library
    names; an attribute word is the list of the flags it ORs. *)
Inductive DeviceMemoryAddHob : Type :=
| NoHob | AddMem | AddDev | HobOnlyNoCacheSetting | AllocOnly.

Inductive EFI_RESOURCE_TYPE : Type :=
| EFI_RESOURCE_SYSTEM_MEMORY | EFI_RESOURCE_MEMORY_MAPPED_IO | EFI_RESOURCE_IO
| EFI_RESOURCE_FIRMWARE_DEVICE | EFI_RESOURCE_MEMORY_MAPPED_IO_PORT
| EFI_RESOURCE_MEMORY_RESERVED | EFI_RESOURCE_IO_RESERVED.

Inductive EFI_RESOURCE_ATTRIBUTE : Type :=
| EFI_RESOURCE_ATTRIBUTE_PRESENT | EFI_RESOURCE_ATTRIBUTE_INITIALIZED
| EFI_RESOURCE_ATTRIBUTE_TESTED | EFI_RESOURCE_ATTRIBUTE_READ_PROTECTED
| EFI_RESOURCE_ATTRIBUTE_WRITE_PROTECTED | EFI_RESOURCE_ATTRIBUTE_EXECUTION_PROTECTED
| EFI_RESOURCE_ATTRIBUTE_UNCACHEABLE | EFI_RESOURCE_ATTRIBUTE_WRITE_COMBINEABLE
| EFI_RESOURCE_ATTRIBUTE_WRITE_THROUGH_CACHEABLE | EFI_RESOURCE_ATTRIBUTE_WRITE_BACK_CACHEABLE
| EFI_RESOURCE_ATTRIBUTE_READ_PROTECTABLE | EFI_RESOURCE_ATTRIBUTE_WRITE_PROTECTABLE
| EFI_RESOURCE_ATTRIBUTE_EXECUTION_PROTECTABLE.

Definition SYS_MEM_CAP : list EFI_RESOURCE_ATTRIBUTE :=
  [EFI_RESOURCE_ATTRIBUTE_PRESENT; EFI_RESOURCE_ATTRIBUTE_INITIALIZED;
   EFI_RESOURCE_ATTRIBUTE_TESTED; EFI_RESOURCE_ATTRIBUTE_UNCACHEABLE;
   EFI_RESOURCE_ATTRIBUTE_WRITE_COMBINEABLE; EFI_RESOURCE_ATTRIBUTE_WRITE_THROUGH_CACHEABLE;
   EFI_RESOURCE_ATTRIBUTE_WRITE_BACK_CACHEABLE; EFI_RESOURCE_ATTRIBUTE_EXECUTION_PROTECTABLE;
   EFI_RESOURCE_ATTRIBUTE_READ_PROTECTABLE; EFI_RESOURCE_ATTRIBUTE_WRITE_PROTECTABLE].
Definition SYS_MEM_CAP_XN : list EFI_RESOURCE_ATTRIBUTE :=
  SYS_MEM_CAP ++ [EFI_RESOURCE_ATTRIBUTE_EXECUTION_PROTECTED].

Inductive EFI_MEMORY_TYPE : Type :=
| EfiReservedMemoryType | EfiLoaderCode | EfiLoaderData | EfiBootServicesCode
| EfiBootServicesData | EfiRuntimeServicesCode | EfiRuntimeServicesData
| EfiConventionalMemory | EfiUnusableMemory | EfiACPIReclaimMemory | EfiACPIMemoryNVS
| EfiMemoryMappedIO | EfiMemoryMappedIOPortSpace | EfiPalCode | EfiMaxMemoryType.

Inductive ARM_MEMORY_REGION_ATTRIBUTES : Type :=
| ARM_MEMORY_REGION_ATTRIBUTE_UNCACHED_UNBUFFERED | ARM_MEMORY_REGION_ATTRIBUTE_WRITE_BACK
| ARM_MEMORY_REGION_ATTRIBUTE_WRITE_THROUGH | ARM_MEMORY_REGION_ATTRIBUTE_DEVICE.

Definition MEMORY_REGION_NAME_MAX_LENGTH : nat := 32.

(** [Name] is the C string in the array, whose other bytes are zero. *)
Record ARM_MEMORY_REGION_DESCRIPTOR_EX := mk_region {
  Name : list Z;
  Address : Z;
  Length : Z;
  HobOption : DeviceMemoryAddHob;
  ResourceType : EFI_RESOURCE_TYPE;
  ResourceAttribute : list EFI_RESOURCE_ATTRIBUTE;
  MemoryType : EFI_MEMORY_TYPE;
  ArmAttributes : ARM_MEMORY_REGION_ATTRIBUTES
}.

(** [SetMem (Descriptor, sizeof ARM_MEMORY_REGION_DESCRIPTOR_EX, 0)]: the zero of each enumeration. *)
Definition zero_region : ARM_MEMORY_REGION_DESCRIPTOR_EX :=
  mk_region [] 0 0 NoHob EFI_RESOURCE_SYSTEM_MEMORY [] EfiReservedMemoryType
    ARM_MEMORY_REGION_ATTRIBUTE_UNCACHED_UNBUFFERED.

Definition set_Address a d := mk_region (Name d) a (Length d) (HobOption d) (ResourceType d)
  (ResourceAttribute d) (MemoryType d) (ArmAttributes d).
Definition set_Length n d := mk_region (Name d) (Address d) n (HobOption d) (ResourceType d)
  (ResourceAttribute d) (MemoryType d) (ArmAttributes d).
Definition set_Name n d := mk_region n (Address d) (Length d) (HobOption d) (ResourceType d)
  (ResourceAttribute d) (MemoryType d) (ArmAttributes d).
Definition set_HobOption h d := mk_region (Name d) (Address d) (Length d) h (ResourceType d)
  (ResourceAttribute d) (MemoryType d) (ArmAttributes d).
Definition set_ResourceType r d := mk_region (Name d) (Address d) (Length d) (HobOption d) r
  (ResourceAttribute d) (MemoryType d) (ArmAttributes d).
Definition set_ResourceAttribute r d := mk_region (Name d) (Address d) (Length d) (HobOption d)
  (ResourceType d) r (MemoryType d) (ArmAttributes d).
Definition set_MemoryType m d := mk_region (Name d) (Address d) (Length d) (HobOption d)
  (ResourceType d) (ResourceAttribute d) m (ArmAttributes d).
Definition set_ArmAttributes a d := mk_region (Name d) (Address d) (Length d) (HobOption d)
  (ResourceType d) (ResourceAttribute d) (MemoryType d) a.

(** The test [Address > ~0 - Length]: the region would wrap. *)
Definition region_wraps (d : ARM_MEMORY_REGION_DESCRIPTOR_EX) : bool :=
  u64 (u64 (Z.lnot 0) - Length d) <? Address d.

(** [PLATFORM_DDR_BANK_REGION]. *)
Record PLATFORM_DDR_BANK_REGION := mk_bank { Base : Z; BankLength : Z }.

(** ** Fields of a record *)
Definition is_blank (c : Z) : bool := (c =? ch " ") || (c =? tab).

(** A loop [while (P (p[0])) p++] over memory: it leaves the buffer or stops. *)
Definition scan_mem (P : Z -> bool) (buf : list Z) (i : nat) : option nat :=
  scan_fwd P buf (S (length buf - i)) i.

(** [while ((End > Field) && blank (End[-1])) *--End = 0], [n] being [End - Field]. *)
Fixpoint trim_end_loop (Record : list Z) (n End : nat) : option (list Z) :=
  match n with
  | O => Some Record
  | S n' =>
      c ← Record !! (End - 1)%nat;
      if is_blank c then trim_end_loop (<[(End - 1)%nat := 0]> Record) n' (End - 1)
      else Some Record
  end.

Definition MemoryMapConfigTrimField `{BaseLib} (Record : list Z) (Field : nat)
  : option (list Z * nat) :=
  Field ← scan_mem is_blank Record Field;
  s ← c_string Record Field;
  Record' ← trim_end_loop Record (AsciiStrLen s) (Field + AsciiStrLen s);
  Some (Record', Field).

(** The splitting loop: the record, the fields so far and the quote flag. *)
Fixpoint split_loop (fuel : nat) (Record : list Z) (Index : nat) (InQuotes : bool)
    (Fields : list nat) (ExpectedFieldCount : nat)
  : option (EFI_STATUS * list Z * list nat * bool) :=
  match fuel with
  | O => fault
  | S fuel' =>
      c ← Record !! Index;
      if c =? 0 then Some (EFI_SUCCESS, Record, Fields, InQuotes) else
      if c =? dquote then
        Doubled ← (if InQuotes then d ← Record !! S Index; Some (d =? dquote) else Some false);
        if (Doubled : bool)
        then split_loop fuel' Record (S (S Index)) InQuotes Fields ExpectedFieldCount
        else split_loop fuel' Record (S Index) (negb InQuotes) Fields ExpectedFieldCount
      else if (c =? ch ",") && negb InQuotes then
        let Record' := <[Index := 0]> Record in
        if (ExpectedFieldCount <=? length Fields)%nat
        then Some (EFI_COMPROMISED_DATA, Record', Fields, InQuotes)
        else split_loop fuel' Record' (S Index) InQuotes (Fields ++ [S Index]) ExpectedFieldCount
      else split_loop fuel' Record (S Index) InQuotes Fields ExpectedFieldCount
  end.

(** The unquoting loop: source and destination in the same buffer. *)
Fixpoint unquote_loop (fuel : nat) (Record : list Z) (Source Destination : nat)
  : option (list Z * nat) :=
  match fuel with
  | O => fault
  | S fuel' =>
      c ← Record !! Source;
      if c =? 0 then Some (Record, Destination) else
      Doubled ← (if c =? dquote then d ← Record !! S Source; Some (d =? dquote) else Some false);
      let Source := if (Doubled : bool) then S Source else Source in
      c ← Record !! Source;
      unquote_loop fuel' (<[Destination := c]> Record) (S Source) (S Destination)
  end.

(** The body of the second loop of [MemoryMapConfigSplitCsv]. *)
Definition split_field `{BaseLib} (Record : list Z) (Field : nat)
  : option (EFI_STATUS * list Z * nat) :=
  '(Record, Field) ← MemoryMapConfigTrimField Record Field;
  c ← Record !! Field;
  s ← c_string Record Field;
  if c =? dquote then
    let Length := AsciiStrLen s in
    Unclosed ← (if (Length <? 2)%nat then Some true
                else l ← Record !! (Field + Length - 1)%nat; Some (negb (l =? dquote)));
    if (Unclosed : bool) then Some (EFI_COMPROMISED_DATA, Record, Field) else
    '(Record, Destination) ← unquote_loop (S (length Record)) Record (S Field) Field;
    if (Destination =? Field)%nat then Some (EFI_COMPROMISED_DATA, Record, Field) else
    Some (EFI_SUCCESS, <[(Destination - 1)%nat := 0]> Record, Field)
  else if negb (bool_decide (AsciiStrStr s [dquote] = None))
  then Some (EFI_COMPROMISED_DATA, Record, Field)
  else Some (EFI_SUCCESS, Record, Field).

Fixpoint split_fields `{BaseLib} (Record : list Z) (Todo Done : list nat)
  : option (EFI_STATUS * list Z * list nat) :=
  match Todo with
  | [] => Some (EFI_SUCCESS, Record, Done)
  | f :: Todo' =>
      '(Status, Record, f') ← split_field Record f;
      if EFI_ERROR Status then Some (Status, Record, Done ++ f' :: Todo')
      else split_fields Record Todo' (Done ++ [f'])
  end.

Definition MemoryMapConfigSplitCsv `{BaseLib} (Record : list Z) (ExpectedFieldCount : nat)
  : option (EFI_STATUS * list Z * list nat) :=
  '(Status, Record, Fields, InQuotes) ←
    split_loop (S (length Record)) Record 0 false [0%nat] ExpectedFieldCount;
  if EFI_ERROR Status then Some (Status, Record, Fields) else
  if (InQuotes : bool) || negb (length Fields =? ExpectedFieldCount)%nat
  then Some (EFI_COMPROMISED_DATA, Record, Fields)
  else split_fields Record Fields [].

(** ** Numbers *)
Fixpoint map_digits_loop (fuel : nat) (Text : list Z) (Radix : Z) (Index : nat)
    (ParsedValue : Z) : option (option Z) :=
  match fuel with
  | O => fault
  | S fuel' =>
      c ← Text !! Index;
      if c =? 0 then Some (Some ParsedValue) else
      let Digit :=
        if (ch "0" <=? c) && (c <=? ch "9") then Some (u64 (c - ch "0"))
        else if (Radix =? 16) && (ch "a" <=? c) && (c <=? ch "f") then Some (u64 (c - ch "a" + 10))
        else if (Radix =? 16) && (ch "A" <=? c) && (c <=? ch "F") then Some (u64 (c - ch "A" + 10))
        else None in
      match Digit with
      | None => Some None
      | Some Digit =>
          if (Radix <=? Digit) || (u64 (u64 (Z.lnot 0) - Digit) / Radix <? ParsedValue)
          then Some None
          else map_digits_loop fuel' Text Radix (S Index) (u64 (u64 (ParsedValue * Radix) + Digit))
      end
  end.

(** [Text] is the memory from the pointer on. *)
Definition MemoryMapConfigParseUint64 (Text : option (list Z)) (Value : option Z)
  : option (EFI_STATUS * option Z) :=
  match Text, Value with
  | Some Text, Some _ =>
      c0 ← Text !! 0%nat;
      if c0 =? 0 then Some (EFI_COMPROMISED_DATA, Value) else
      Hex ← (if c0 =? ch "0" then
               c1 ← Text !! 1%nat; Some ((c1 =? ch "x") || (c1 =? ch "X"))
             else Some false);
      let Index := if (Hex : bool) then 2%nat else 0%nat in
      let Radix := if (Hex : bool) then 16 else 10 in
      Empty ← (if (Hex : bool) then c2 ← Text !! 2%nat; Some (c2 =? 0) else Some false);
      if (Empty : bool) then Some (EFI_COMPROMISED_DATA, Value) else
      r ← map_digits_loop (length Text) Text Radix Index 0;
      match r with
      | None => Some (EFI_COMPROMISED_DATA, Value)
      | Some ParsedValue => Some (EFI_SUCCESS, Some ParsedValue)
      end
  | _, _ => Some (EFI_COMPROMISED_DATA, Value)
  end.

(** ** Records *)
Definition MEMORY_MAP_CONFIG_ENTRY_SIZE : nat := 512.

Definition HobOptions : list (list Z * DeviceMemoryAddHob) :=
  [(bytes "NoHob", NoHob); (bytes "AddMem", AddMem); (bytes "AddDev", AddDev);
   (bytes "HobOnlyNoCacheSetting", HobOnlyNoCacheSetting); (bytes "AllocOnly", AllocOnly)].
Definition ResourceTypes : list (list Z * EFI_RESOURCE_TYPE) :=
  [(bytes "FIRMWARE_DEV", EFI_RESOURCE_FIRMWARE_DEVICE); (bytes "IO", EFI_RESOURCE_IO);
   (bytes "IO_RES", EFI_RESOURCE_IO_RESERVED); (bytes "MEM_RES", EFI_RESOURCE_MEMORY_RESERVED);
   (bytes "MMAP_IO", EFI_RESOURCE_MEMORY_MAPPED_IO);
   (bytes "MMAP_IO_PORT", EFI_RESOURCE_MEMORY_MAPPED_IO_PORT);
   (bytes "SYS_MEM", EFI_RESOURCE_SYSTEM_MEMORY)].
Definition ResourceAttributes : list (list Z * list EFI_RESOURCE_ATTRIBUTE) :=
  [(bytes "EXECUTION_PROTECTED", [EFI_RESOURCE_ATTRIBUTE_EXECUTION_PROTECTED]);
   (bytes "INITIALIZED", [EFI_RESOURCE_ATTRIBUTE_INITIALIZED]);
   (bytes "PRESENT", [EFI_RESOURCE_ATTRIBUTE_PRESENT]);
   (bytes "PROTECTED", [EFI_RESOURCE_ATTRIBUTE_READ_PROTECTED]);
   (bytes "SYS_MEM_CAP", SYS_MEM_CAP); (bytes "SYS_MEM_CAP_XN", SYS_MEM_CAP_XN);
   (bytes "TESTED", [EFI_RESOURCE_ATTRIBUTE_TESTED]);
   (bytes "UNCACHEABLE", [EFI_RESOURCE_ATTRIBUTE_UNCACHEABLE]);
   (bytes "WRITE_COMBINEABLE", [EFI_RESOURCE_ATTRIBUTE_WRITE_COMBINEABLE]);
   (bytes "WRITE_PROTECTED", [EFI_RESOURCE_ATTRIBUTE_WRITE_PROTECTED])].
Definition MemoryTypes : list (list Z * EFI_MEMORY_TYPE) :=
  [(bytes "ACPI_NVS", EfiACPIMemoryNVS); (bytes "ACPIReclaim", EfiACPIReclaimMemory);
   (bytes "BsCode", EfiBootServicesCode); (bytes "BsData", EfiBootServicesData);
   (bytes "Conv", EfiConventionalMemory); (bytes "LdCode", EfiLoaderCode);
   (bytes "LdData", EfiLoaderData); (bytes "MaxMem", EfiMaxMemoryType);
   (bytes "MmIO", EfiMemoryMappedIO); (bytes "MmIOPort", EfiMemoryMappedIOPortSpace);
   (bytes "PalCode", EfiPalCode); (bytes "Reserv", EfiReservedMemoryType);
   (bytes "RtCode", EfiRuntimeServicesCode); (bytes "RtData", EfiRuntimeServicesData);
   (bytes "Unusable", EfiUnusableMemory)].
Definition ArmAttributesTable : list (list Z * ARM_MEMORY_REGION_ATTRIBUTES) :=
  [(bytes "DEVICE", ARM_MEMORY_REGION_ATTRIBUTE_DEVICE);
   (bytes "NS_DEVICE", ARM_MEMORY_REGION_ATTRIBUTE_DEVICE);
   (bytes "NS_UNCACHED_UNBUFFERED", ARM_MEMORY_REGION_ATTRIBUTE_UNCACHED_UNBUFFERED);
   (bytes "NS_WRITE_BACK", ARM_MEMORY_REGION_ATTRIBUTE_WRITE_BACK);
   (bytes "NS_WRITE_THROUGH", ARM_MEMORY_REGION_ATTRIBUTE_WRITE_THROUGH);
   (bytes "UNCACHED_UNBUFFERED", ARM_MEMORY_REGION_ATTRIBUTE_UNCACHED_UNBUFFERED);
   (bytes "UNCACHED_UNBUFFERED_XN", ARM_MEMORY_REGION_ATTRIBUTE_UNCACHED_UNBUFFERED);
   (bytes "WRITE_BACK", ARM_MEMORY_REGION_ATTRIBUTE_WRITE_BACK);
   (bytes "WRITE_BACK_XN", ARM_MEMORY_REGION_ATTRIBUTE_WRITE_BACK);
   (bytes "WRITE_THROUGH", ARM_MEMORY_REGION_ATTRIBUTE_WRITE_THROUGH);
   (bytes "WRITE_THROUGH_XN", ARM_MEMORY_REGION_ATTRIBUTE_WRITE_THROUGH)].

(** The table loops: the parsed value of the first name equal to the field
    without case. *)
Fixpoint table_lookup `{BaseLib} {A} (Field : list Z) (Table : list (list Z * A)) : option A :=
  match Table with
  | [] => None
  | (n, v) :: Table' => if AsciiStriCmp Field n =? 0 then Some v else table_lookup Field Table'
  end.

(** One keyword column: the C string at offset [f] of the record is looked up and
    stored in the descriptor, or the record is refused. *)
Definition keyword_column `{BaseLib} {A} (Table : list (list Z * A))
    (set : A -> ARM_MEMORY_REGION_DESCRIPTOR_EX -> ARM_MEMORY_REGION_DESCRIPTOR_EX)
    (Record : list Z) (f : nat) (Descriptor : ARM_MEMORY_REGION_DESCRIPTOR_EX)
  : option (EFI_STATUS * ARM_MEMORY_REGION_DESCRIPTOR_EX) :=
  s ← c_string Record f;
  match table_lookup s Table with
  | None => Some (EFI_COMPROMISED_DATA, Descriptor)
  | Some v => Some (EFI_SUCCESS, set v Descriptor)
  end.

(** The name and the two numbers, after the record is split. *)
Definition numeric_columns `{BaseLib} (Record : list Z) (f0 f1 f2 : nat)
  : option (EFI_STATUS * ARM_MEMORY_REGION_DESCRIPTOR_EX) :=
  let Descriptor := zero_region in
  n ← c_string Record f2;
  let NameLength := AsciiStrLen n in
  if (NameLength =? 0)%nat || (MEMORY_REGION_NAME_MAX_LENGTH <=? NameLength)%nat
  then Some (EFI_COMPROMISED_DATA, Descriptor) else
  '(Status, NumericValue) ← MemoryMapConfigParseUint64 (Some (drop f0 Record)) (Some 0);
  if EFI_ERROR Status then Some (Status, Descriptor) else
  NumericValue ← NumericValue;
  let Descriptor := set_Address NumericValue Descriptor in
  '(Status, Length') ← MemoryMapConfigParseUint64 (Some (drop f1 Record)) (Some (Length Descriptor));
  Length' ← Length';
  let Descriptor := set_Length Length' Descriptor in
  if EFI_ERROR Status || (Length Descriptor =? 0) || region_wraps Descriptor
  then Some (EFI_COMPROMISED_DATA, Descriptor)
  else Some (EFI_SUCCESS, set_Name (take NameLength n) Descriptor).

Definition MemoryMapConfigParseDescriptor `{BaseLib} (Record : option (list Z))
    (Descriptor : option ARM_MEMORY_REGION_DESCRIPTOR_EX)
  : option (EFI_STATUS * option (list Z) * option ARM_MEMORY_REGION_DESCRIPTOR_EX) :=
  match Record, Descriptor with
  | Some Record, Some _ =>
      '(Status, Record, Fields) ← MemoryMapConfigSplitCsv Record 8;
      if EFI_ERROR Status then Some (Status, Some Record, Descriptor) else
      match Fields with
      | [f0; f1; f2; f3; f4; f5; f6; f7] =>
          '(Record, f2) ← MemoryMapConfigTrimField Record f2;
          '(Status, D) ← numeric_columns Record f0 f1 f2;
          if EFI_ERROR Status then Some (Status, Some Record, Some D) else
          '(Status, D) ← keyword_column HobOptions set_HobOption Record f3 D;
          if EFI_ERROR Status then Some (Status, Some Record, Some D) else
          '(Status, D) ← keyword_column ResourceTypes set_ResourceType Record f4 D;
          if EFI_ERROR Status then Some (Status, Some Record, Some D) else
          '(Status, D) ← keyword_column ResourceAttributes set_ResourceAttribute Record f5 D;
          if EFI_ERROR Status then Some (Status, Some Record, Some D) else
          '(Status, D) ← keyword_column MemoryTypes set_MemoryType Record f6 D;
          if EFI_ERROR Status then Some (Status, Some Record, Some D) else
          '(Status, D) ← keyword_column ArmAttributesTable set_ArmAttributes Record f7 D;
          Some (Status, Some Record, Some D)
      | _ => fault
      end
  | _, _ => Some (EFI_INVALID_PARAMETER, Record, Descriptor)
  end.

(** [RecordStack] is the initial content of the local [CHAR8 Record[512]]. *)
Definition MemoryMapConfigReadDescriptor `{BaseLib} (g : boot_config) (RecordStack : list Z)
    (Section : list Z) (EntryIndex : nat) (Descriptor : ARM_MEMORY_REGION_DESCRIPTOR_EX)
  : option (EFI_STATUS * ARM_MEMORY_REGION_DESCRIPTOR_EX) :=
  '(Status, Record, _) ← GetAndromedaBootConfigSectionEntry g (Some Section) EntryIndex
                           (Some RecordStack) (Some MEMORY_MAP_CONFIG_ENTRY_SIZE);
  if EFI_ERROR Status then Some (Status, Descriptor) else
  '(Status, _, D) ← MemoryMapConfigParseDescriptor Record (Some Descriptor);
  D ← D;
  Some (Status, D).

(** The loop of [MemoryMapConfigLoadDescriptorSection]; the array is the caller's
    and a store outside it is a [fault]. *)
Fixpoint load_section_loop `{BaseLib} (fuel : nat) (g : boot_config) (RecordStack : list Z)
    (Section : list Z) (EntryIndex : nat) (Descriptors : list ARM_MEMORY_REGION_DESCRIPTOR_EX)
    (DescriptorCapacity InitialCount DescriptorCount : nat)
  : option (EFI_STATUS * list ARM_MEMORY_REGION_DESCRIPTOR_EX * nat) :=
  match fuel with
  | O => fault
  | S fuel' =>
      '(Status, Descriptor) ←
        MemoryMapConfigReadDescriptor g RecordStack Section EntryIndex zero_region;
      if bool_decide (Status = EFI_NOT_FOUND) then
        Some ((if (DescriptorCount =? InitialCount)%nat then EFI_NOT_FOUND else EFI_SUCCESS),
              Descriptors, DescriptorCount) else
      if EFI_ERROR Status then Some (Status, Descriptors, DescriptorCount) else
      if (DescriptorCapacity <=? DescriptorCount)%nat
      then Some (EFI_OUT_OF_RESOURCES, Descriptors, DescriptorCount) else
      if (length Descriptors <=? DescriptorCount)%nat then fault else
      load_section_loop fuel' g RecordStack Section (S EntryIndex)
        (<[DescriptorCount := Descriptor]> Descriptors) DescriptorCapacity InitialCount
        (S DescriptorCount)
  end.

Definition MemoryMapConfigLoadDescriptorSection `{BaseLib} (fuel : nat) (g : boot_config)
    (RecordStack : list Z) (Section : option (list Z))
    (Descriptors : option (list ARM_MEMORY_REGION_DESCRIPTOR_EX)) (DescriptorCapacity : nat)
    (DescriptorCount : option nat)
  : option (EFI_STATUS * option (list ARM_MEMORY_REGION_DESCRIPTOR_EX) * option nat) :=
  match Section, Descriptors, DescriptorCount with
  | Some Section, Some Descriptors, Some Count =>
      '(Status, Descriptors, Count) ← load_section_loop fuel g RecordStack Section 0 Descriptors
                                        DescriptorCapacity Count Count;
      Some (Status, Some Descriptors, Some Count)
  | _, _, _ => Some (EFI_INVALID_PARAMETER, Descriptors, DescriptorCount)
  end.

(** ** The PStore region *)
Definition ANDROMEDA_BOOT_CONFIG_UEFI_SECTION : list Z := bytes "AndromedaUefi".
Definition PSTORE_NAME : list Z := bytes "PStore".

Definition MemoryMapConfigLoadPStoreDescriptor (g : boot_config) (Stack : list Z)
    (Descriptor : option ARM_MEMORY_REGION_DESCRIPTOR_EX)
  : option (EFI_STATUS * option ARM_MEMORY_REGION_DESCRIPTOR_EX) :=
  match Descriptor with
  | None => Some (EFI_INVALID_PARAMETER, None)
  | Some _ =>
      let D := zero_region in
      '(Status, Addr) ← GetAndromedaBootConfigUint64 g Stack
        (Some ANDROMEDA_BOOT_CONFIG_UEFI_SECTION) (Some (bytes "PStoreAddress")) (Some 0);
      if EFI_ERROR Status then Some (Status, Some D) else
      Addr ← Addr;
      let D := set_Address (u64 Addr) D in
      if negb (Address D =? Addr) then Some (EFI_COMPROMISED_DATA, Some D) else
      '(Status, Len) ← GetAndromedaBootConfigUint64 g Stack
        (Some ANDROMEDA_BOOT_CONFIG_UEFI_SECTION) (Some (bytes "PStoreSize")) (Some (Length D));
      Len ← Len;
      let D := set_Length Len D in
      if EFI_ERROR Status then Some (Status, Some D) else
      if (Length D =? 0) || region_wraps D then Some (EFI_COMPROMISED_DATA, Some D) else
      Some (EFI_SUCCESS,
            Some (mk_region PSTORE_NAME (Address D) (Length D) AddMem EFI_RESOURCE_MEMORY_RESERVED
                    SYS_MEM_CAP EfiReservedMemoryType ARM_MEMORY_REGION_ATTRIBUTE_WRITE_THROUGH))
  end.

(** The regions written to the workspace so far; a push checks the capacity. *)
Definition push (Capacity : nat) (d : ARM_MEMORY_REGION_DESCRIPTOR_EX)
    (out : list ARM_MEMORY_REGION_DESCRIPTOR_EX) : EFI_STATUS * list ARM_MEMORY_REGION_DESCRIPTOR_EX :=
  if (Capacity <=? length out)%nat then (EFI_OUT_OF_RESOURCES, out) else (EFI_SUCCESS, out ++ [d]).

(** Push when a condition holds, unless a push failed before. *)
Definition push_if (b : bool) (Capacity : nat) (d : ARM_MEMORY_REGION_DESCRIPTOR_EX)
    (r : EFI_STATUS * list ARM_MEMORY_REGION_DESCRIPTOR_EX)
  : EFI_STATUS * list ARM_MEMORY_REGION_DESCRIPTOR_EX :=
  if EFI_ERROR r.1 then r else if b then push Capacity d r.2 else r.

(** The body of the overlay loop for one descriptor. *)
Definition overlay_step (Overlay : ARM_MEMORY_REGION_DESCRIPTOR_EX) (OverlayEnd : Z)
    (Capacity : nat) (Descriptor : ARM_MEMORY_REGION_DESCRIPTOR_EX) (OverlayInserted : bool)
    (out : list ARM_MEMORY_REGION_DESCRIPTOR_EX)
  : EFI_STATUS * list ARM_MEMORY_REGION_DESCRIPTOR_EX * bool :=
  let DescriptorEnd := u64 (Address Descriptor + Length Descriptor) in
  let InsertNow := negb OverlayInserted && (Address Overlay <=? Address Descriptor) in
  let r := push_if InsertNow Capacity Overlay (EFI_SUCCESS, out) in
  let OverlayInserted := OverlayInserted || InsertNow in
  if (Address Descriptor <? OverlayEnd) && (Address Overlay <? DescriptorEnd) then
    let r := push_if (Address Descriptor <? Address Overlay) Capacity
               (set_Length (u64 (Address Overlay - Address Descriptor)) Descriptor) r in
    let r := push_if (negb OverlayInserted) Capacity Overlay r in
    let r := push_if (OverlayEnd <? DescriptorEnd) Capacity
               (set_Length (u64 (DescriptorEnd - OverlayEnd)) (set_Address OverlayEnd Descriptor)) r in
    (r, true)
  else (push_if true Capacity Descriptor r, OverlayInserted).

Fixpoint overlay_loop (Overlay : ARM_MEMORY_REGION_DESCRIPTOR_EX) (OverlayEnd : Z)
    (Capacity : nat) (Descriptors : list ARM_MEMORY_REGION_DESCRIPTOR_EX) (OverlayInserted : bool)
    (out : list ARM_MEMORY_REGION_DESCRIPTOR_EX)
  : EFI_STATUS * list ARM_MEMORY_REGION_DESCRIPTOR_EX :=
  match Descriptors with
  | [] => push_if (negb OverlayInserted) Capacity Overlay (EFI_SUCCESS, out)
  | Descriptor :: Descriptors' =>
      let '(Status, out, OverlayInserted) :=
        overlay_step Overlay OverlayEnd Capacity Descriptor OverlayInserted out in
      if EFI_ERROR Status then (Status, out)
      else overlay_loop Overlay OverlayEnd Capacity Descriptors' OverlayInserted out
  end.

(** The two arrays after the call.  [Aliased] is the test
    [Descriptors == Workspace]; a store outside an array is a [fault]. *)
Definition MemoryMapConfigOverlayDescriptor (Aliased : bool)
    (Descriptors : option (list ARM_MEMORY_REGION_DESCRIPTOR_EX)) (DescriptorCount : option nat)
    (DescriptorCapacity : nat) (Overlay : option ARM_MEMORY_REGION_DESCRIPTOR_EX)
    (Workspace : option (list ARM_MEMORY_REGION_DESCRIPTOR_EX))
  : option (EFI_STATUS * option (list ARM_MEMORY_REGION_DESCRIPTOR_EX) * option nat
            * option (list ARM_MEMORY_REGION_DESCRIPTOR_EX)) :=
  match Descriptors, DescriptorCount, Overlay, Workspace with
  | Some ds, Some Count, Some ov, Some ws =>
      if Aliased || (DescriptorCapacity <? Count)%nat
      then Some (EFI_INVALID_PARAMETER, Descriptors, DescriptorCount, Workspace) else
      if region_wraps ov
      then Some (EFI_COMPROMISED_DATA, Descriptors, DescriptorCount, Workspace) else
      if (length ds <? Count)%nat then fault else
      let '(Status, out) := overlay_loop ov (u64 (Address ov + Length ov)) DescriptorCapacity
                              (take Count ds) false [] in
      if (length ws <? length out)%nat then fault else
      let ws' := out ++ drop (length out) ws in
      if EFI_ERROR Status then Some (Status, Descriptors, DescriptorCount, Some ws') else
      if (length ds <? length out)%nat then fault else
      Some (EFI_SUCCESS, Some (out ++ drop (length out) ds), Some (length out), Some ws')
  | _, _, _, _ => Some (EFI_INVALID_PARAMETER, Descriptors, DescriptorCount, Workspace)
  end.

(** The first loop: the index of the last region named PStore, and how many. *)
Fixpoint find_pstore `{BaseLib} (Descriptors : list ARM_MEMORY_REGION_DESCRIPTOR_EX)
    (DescriptorIndex : nat) (PStore : option nat) (PStoreCount : nat) : option nat * nat :=
  match Descriptors with
  | [] => (PStore, PStoreCount)
  | d :: ds =>
      if AsciiStriCmp (Name d) PSTORE_NAME =? 0
      then find_pstore ds (S DescriptorIndex) (Some DescriptorIndex) (S PStoreCount)
      else find_pstore ds (S DescriptorIndex) PStore PStoreCount
  end.

Definition in_bank (PStoreAddress PStoreEnd : Z) (r : PLATFORM_DDR_BANK_REGION) : bool :=
  (Base r <=? PStoreAddress) && (PStoreEnd <=? u64 (Base r + BankLength r)).

(** The last loop: does a region other than number [i] overlap? *)
Fixpoint other_overlap (PStore : ARM_MEMORY_REGION_DESCRIPTOR_EX) (PStoreEnd : Z) (i : nat)
    (Descriptors : list ARM_MEMORY_REGION_DESCRIPTOR_EX) (DescriptorIndex : nat) : bool :=
  match Descriptors with
  | [] => false
  | d :: ds =>
      if negb (DescriptorIndex =? i)%nat && (Address d <? PStoreEnd)
         && (Address PStore <? u64 (Address d + Length d))
      then true else other_overlap PStore PStoreEnd i ds (S DescriptorIndex)
  end.

Definition MemoryMapConfigValidatePStorePlacement `{BaseLib}
    (Descriptors : option (list ARM_MEMORY_REGION_DESCRIPTOR_EX)) (DescriptorCount : nat)
    (DdrBankRegions : option (list PLATFORM_DDR_BANK_REGION)) (DdrBankRegionCount : nat)
  : option EFI_STATUS :=
  match Descriptors, DdrBankRegions with
  | Some ds, Some banks =>
      if (length ds <? DescriptorCount)%nat || (length banks <? DdrBankRegionCount)%nat then fault else
      let ds := take DescriptorCount ds in
      match find_pstore ds 0 None 0 with
      | (Some i, 1%nat) =>
          PStore ← ds !! i;
          let PStoreEnd := u64 (Address PStore + Length PStore) in
          if negb (existsb (in_bank (Address PStore) PStoreEnd) (take DdrBankRegionCount banks))
          then Some EFI_COMPROMISED_DATA else
          if other_overlap PStore PStoreEnd i ds 0 then Some EFI_COMPROMISED_DATA
          else Some EFI_SUCCESS
      | _ => Some EFI_COMPROMISED_DATA
      end
  | _, _ => Some EFI_INVALID_PARAMETER
  end.
