(* ===== verification/MemoryMapSpec.v ===== *)
(** * What the memory-map routines compute.

    Regions as sets of addresses: the overlay of the PStore region replaces the
    owner of its addresses and of no other, keeps the map ordered and disjoint,
    and fails exactly when the result does not fit. *)
From stdpp Require Import base numbers list option strings sorting.
From Stdlib Require Import ZArith Lia Ascii.
From S2P Require Import Prelude BaseLib BootConfig BootConfigSpec MemoryMapConfig.
Local Open Scope Z_scope.

Abbreviation region := ARM_MEMORY_REGION_DESCRIPTOR_EX.

(** ** Regions as sets of addresses *)
Definition End_ (d : region) : Z := Address d + Length d.
Definition covers (d : region) (a : Z) : bool := (Address d <=? a) && (a <? End_ d).
(** What a region says of its addresses. *)
Definition kind (d : region) : region := set_Length 0 (set_Address 0 d).
(** The first region of a map that covers an address. *)
Fixpoint owner (ds : list region) (a : Z) : option region :=
  match ds with
  | [] => None
  | d :: ds' => if covers d a then Some (kind d) else owner ds' a
  end.

(** A region that is not empty and does not reach the last address. *)
Definition region_ok (d : region) : Prop := 0 <= Address d /\ 0 < Length d /\ End_ d < 2 ^ 64.
Definition before (d e : region) : Prop := End_ d <= Address e.
Definition ordered : list region -> Prop := StronglySorted before.

Lemma owner_app l1 l2 a :
  owner (l1 ++ l2) a = match owner l1 a with Some k => Some k | None => owner l2 a end.
Proof. induction l1 as [|d l1 IH]; simpl; [done|]. by destruct (covers d a). Qed.

Lemma region_wraps_spec d :
  0 <= Length d < 2 ^ 64 -> region_wraps d = (2 ^ 64 <=? End_ d).
Proof.
  intros H. unfold region_wraps, End_. change (u64 (Z.lnot 0)) with (2 ^ 64 - 1).
  rewrite u64_small by (unfold in_u64; lia).
  destruct (Z.ltb_spec (2 ^ 64 - 1 - Length d) (Address d)), (Z.leb_spec (2 ^ 64) (Address d + Length d));
    lia || done.
Qed.

(** ** The overlay without its capacity *)
Definition overlay_pieces (ov d : region) (ins : bool) : list region * bool :=
  let now := negb ins && (Address ov <=? Address d) in
  let pre := if now then [ov] else [] in
  let ins := ins || now in
  if (Address d <? End_ ov) && (Address ov <? End_ d) then
    (pre ++ (if Address d <? Address ov then [set_Length (Address ov - Address d) d] else [])
         ++ (if negb ins then [ov] else [])
         ++ (if End_ ov <? End_ d then [set_Length (End_ d - End_ ov) (set_Address (End_ ov) d)] else []),
     true)
  else (pre ++ [d], ins).

Fixpoint overlay_list (ov : region) (ds : list region) (ins : bool) : list region :=
  match ds with
  | [] => if ins then [] else [ov]
  | d :: ds' => (overlay_pieces ov d ins).1 ++ overlay_list ov ds' (overlay_pieces ov d ins).2
  end.

(** Pushing a list, up to the capacity. *)
Definition push_all (cap : nat) (out l : list region) : EFI_STATUS * list region :=
  if (length (out ++ l) <=? cap)%nat then (EFI_SUCCESS, out ++ l)
  else (EFI_OUT_OF_RESOURCES, take cap (out ++ l)).

Lemma push_all_nil cap out : (length out <= cap)%nat -> push_all cap out [] = (EFI_SUCCESS, out).
Proof.
  intros H. unfold push_all. rewrite app_nil_r.
  by destruct (Nat.leb_spec (length out) cap); [|lia].
Qed.

Lemma push_all_if cap out l b d :
  (length out <= cap)%nat ->
  push_if b cap d (push_all cap out l) = push_all cap out (l ++ if b then [d] else []).
Proof.
  intros H. unfold push_if, push_all.
  destruct (Nat.leb_spec (length (out ++ l)) cap); cbn [EFI_ERROR fst snd].
  - destruct b; [|rewrite app_nil_r; by destruct (Nat.leb_spec (length (out ++ l)) cap); [|lia]].
    unfold push. rewrite app_assoc. rewrite (length_app (out ++ l)). cbn [length].
    destruct (Nat.leb_spec cap (length (out ++ l))), (Nat.leb_spec (length (out ++ l) + 1) cap);
      try lia; [|done].
    rewrite take_app_le by lia. by rewrite take_ge by lia.
  - rewrite app_assoc, (length_app (out ++ l)).
    destruct (Nat.leb_spec (length (out ++ l) + length (if b then [d] else [])) cap); [lia|].
    by rewrite (take_app_le (out ++ l)) by lia.
Qed.

Lemma push_all_app cap out l1 l2 :
  (length out <= cap)%nat ->
  push_all cap out (l1 ++ l2) =
    if EFI_ERROR (push_all cap out l1).1 then push_all cap out l1
    else push_all cap (push_all cap out l1).2 l2.
Proof.
  intros H. unfold push_all. rewrite app_assoc.
  destruct (Nat.leb_spec (length (out ++ l1)) cap); cbn [EFI_ERROR fst snd]; [done|].
  rewrite (length_app (out ++ l1)).
  destruct (Nat.leb_spec (length (out ++ l1) + length l2) cap); [lia|].
  by rewrite take_app_le by lia.
Qed.

Lemma overlay_step_spec ov cap d ins out :
  region_ok d -> region_ok ov -> (length out <= cap)%nat ->
  overlay_step ov (End_ ov) cap d ins out =
    (push_all cap out (overlay_pieces ov d ins).1, (overlay_pieces ov d ins).2).
Proof.
  intros (Hd1 & Hd2 & Hd3) (Ho1 & Ho2 & Ho3) Hcap. unfold overlay_step, overlay_pieces.
  assert (u64 (Address d + Length d) = End_ d) as ->.
  { apply u64_small. unfold in_u64, End_ in *. lia. }
  rewrite <- (push_all_nil cap out) by done.
  destruct ((Address d <? End_ ov) && (Address ov <? End_ d)) eqn:E; bool_to_prop.
  2: { rewrite !push_all_if by done. done. }
  rewrite !push_all_if by done. rewrite <- !app_assoc. cbn [app fst snd].
  do 3 f_equal. f_equal; [|f_equal]; [|f_equal].
  - destruct (Z.ltb_spec (Address d) (Address ov)); [|done].
    rewrite u64_small by (unfold in_u64, End_ in *; lia). done.
  - destruct (Z.ltb_spec (End_ ov) (End_ d)); [|done].
    rewrite u64_small by (unfold in_u64, End_ in *; lia). done.
Qed.

Lemma overlay_loop_spec ov cap ds ins out :
  Forall region_ok ds -> region_ok ov -> (length out <= cap)%nat ->
  overlay_loop ov (End_ ov) cap ds ins out = push_all cap out (overlay_list ov ds ins).
Proof.
  intros Hds Ho. revert ins out. induction Hds as [|d ds Hd _ IH]; intros ins out Hcap;
    cbn [overlay_loop overlay_list].
  - rewrite <- (push_all_nil cap out) by done. rewrite push_all_if by done. by destruct ins.
  - rewrite overlay_step_spec by done. rewrite push_all_app by done.
    destruct (push_all cap out (overlay_pieces ov d ins).1) as [st out'] eqn:E.
    cbn [fst snd]. destruct (EFI_ERROR st) eqn:Es; [done|]. apply IH.
    unfold push_all in E. destruct (Nat.leb_spec (length (out ++ (overlay_pieces ov d ins).1)) cap);
      simplify_eq. done.
Qed.

(** ** Ownership *)
Lemma owner_none ds a : Forall (fun d => covers d a = false) ds -> owner ds a = None.
Proof. induction 1 as [|d ds Hd _ IH]; simpl; [done|]. by rewrite Hd. Qed.

(** One step: the pieces own what the region owned outside the overlay, and the
    overlay's addresses go to the overlay if it is among them. *)
Lemma overlay_pieces_owner ov d ins a :
  region_ok d -> region_ok ov ->
  owner (overlay_pieces ov d ins).1 a =
    if covers ov a then if ins then None else if (overlay_pieces ov d ins).2 then Some (kind ov) else None
    else if covers d a then Some (kind d) else None.
Proof.
  intros (Hd1 & Hd2 & Hd3) (Ho1 & Ho2 & Ho3). unfold overlay_pieces.
  destruct (Z.leb_spec (Address ov) (Address d)) as [Hle|Hlt];
  destruct (Z.ltb_spec (Address d) (End_ ov)) as [H1|H1];
  destruct (Z.ltb_spec (Address ov) (End_ d)) as [H2|H2];
  destruct (Z.ltb_spec (Address d) (Address ov)) as [H3|H3];
  destruct (Z.ltb_spec (End_ ov) (End_ d)) as [H4|H4];
  destruct ins; cbn [negb andb orb app owner fst snd]; unfold covers, End_ in *;
  cbn [Address Length set_Address set_Length] in *;
  repeat match goal with
  | |- context [?x <=? ?y] => destruct (Z.leb_spec x y); try lia
  | |- context [?x <? ?y] => destruct (Z.ltb_spec x y); try lia
  end; cbn [andb]; try done; try lia.
Qed.

Lemma overlay_list_owner ov ds ins a :
  Forall region_ok ds -> region_ok ov ->
  owner (overlay_list ov ds ins) a =
    if covers ov a then if ins then None else Some (kind ov) else owner ds a.
Proof.
  intros Hds Ho. revert ins. induction Hds as [|d ds Hd _ IH]; intros ins; cbn [overlay_list owner].
  - destruct ins; cbn [owner]; by destruct (covers ov a).
  - rewrite owner_app, overlay_pieces_owner, IH by done.
    assert (ins = true -> (overlay_pieces ov d ins).2 = true) as Hi.
    { intros ->. unfold overlay_pieces. by destruct (_ && _). }
    destruct (covers ov a); [|by destruct (covers d a)].
    destruct ins; [by rewrite Hi|]. by destruct (overlay_pieces ov d false).2.
Qed.

(** ** Order *)
Lemma ordered_app l1 l2 :
  ordered l1 -> ordered l2 -> Forall (fun d => Forall (before d) l2) l1 -> ordered (l1 ++ l2).
Proof.
  intros H1 H2 H. induction H1 as [|d l1 _ IH Hd]; [done|].
  inversion H; subst. cbn [app]. constructor; [by apply IH|]. by apply Forall_app.
Qed.

Lemma overlay_list_ok ov ds ins :
  Forall region_ok ds -> region_ok ov -> Forall region_ok (overlay_list ov ds ins).
Proof.
  intros Hds Ho. revert ins. induction Hds as [|d ds Hd _ IH]; intros ins; cbn [overlay_list].
  - destruct ins; [done|]. by apply Forall_singleton.
  - apply Forall_app. split; [|apply IH]. unfold overlay_pieces.
    repeat case_match; bool_to_prop; cbn [fst app];
      repeat (apply Forall_cons_2 || apply Forall_nil_2); try done;
      unfold region_ok, End_ in *; cbn [Address Length set_Address set_Length] in *; lia.
Qed.

Definition starts_at (lo : Z) (d : region) : Prop := lo <= Address d.

Lemma before_starts d lo l :
  End_ d <= lo -> Forall (starts_at lo) l -> Forall (before d) l.
Proof. intros H Hl. weaken Hl. unfold before, starts_at in *. lia. Qed.

Lemma ordered_cons d l : ordered l -> Forall (starts_at (End_ d)) l -> ordered (d :: l).
Proof. intros H Hl. constructor; [done|]. by apply (before_starts d (End_ d)). Qed.

(** After the insertion the rest of the map starts where the overlay ends. *)
Lemma overlay_list_ordered_after ov ds lo :
  Forall region_ok ds -> region_ok ov -> ordered ds ->
  Forall (starts_at (Address ov)) ds -> Forall (starts_at lo) ds ->
  ordered (overlay_list ov ds true) /\
  Forall (starts_at (End_ ov)) (overlay_list ov ds true) /\
  Forall (starts_at lo) (overlay_list ov ds true).
Proof.
  intros Hds Ho Hs. revert lo. induction Hs as [|d ds Hs IH Hb]; intros lo Ha Hlo.
  { cbn. by repeat constructor. }
  inversion Hds as [|? ? Hd Hds']; inversion Ha as [|? ? Ha1 Ha2]; inversion Hlo as [|? ? Hl1 Hl2]; subst.
  unfold starts_at in Ha1, Hl1.
  destruct (IH Hds' (End_ d) Ha2 Hb) as (IHs & IHe & IHl).
  destruct Hd as (Hd1 & Hd2 & Hd3), Ho as (Ho1 & Ho2 & Ho3).
  assert (Forall (starts_at lo) (overlay_list ov ds true)) as IHlo.
  { weaken IHl. unfold starts_at, End_ in *. lia. }
  cbn [overlay_list]. unfold overlay_pieces. cbn [negb andb orb].
  destruct (Z.ltb_spec (Address d) (End_ ov)), (Z.ltb_spec (Address ov) (End_ d));
    destruct (Z.ltb_spec (Address d) (Address ov)); destruct (Z.ltb_spec (End_ ov) (End_ d));
    cbn [andb app fst snd]; try done; try (unfold End_ in *; lia);
    (split; [constructor; [done|]|split; constructor; try done]);
    try weaken IHl; unfold before, starts_at, End_ in *;
    cbn [Address Length set_Address set_Length] in *; lia.
Qed.

Lemma overlay_list_ordered ov ds lo :
  Forall region_ok ds -> region_ok ov -> ordered ds ->
  lo <= Address ov -> Forall (starts_at lo) ds ->
  ordered (overlay_list ov ds false) /\ Forall (starts_at lo) (overlay_list ov ds false).
Proof.
  intros Hds Ho Hs Hlo0. revert lo Hlo0. induction Hs as [|d ds Hs IH Hb]; intros lo Hlo0 Hlo.
  { cbn. by repeat constructor. }
  inversion Hds as [|? ? Hd Hds']; inversion Hlo as [|? ? Hl1 Hl2]; subst.
  unfold starts_at in Hl1.
  destruct Hd as (Hd1 & Hd2 & Hd3). assert (Ho' := Ho). destruct Ho' as (Ho1 & Ho2 & Ho3).
  destruct (decide (Address ov < End_ d)) as [Hin|Hout].
  - (* the overlay is inserted at [d]: the rest starts at both ends *)
    destruct (overlay_list_ordered_after ov ds (End_ d)) as (As & Ae & Al); auto.
    { weaken Hb. unfold before, starts_at in *. lia. }
    assert (Forall (starts_at lo) (overlay_list ov ds true)) as Alo.
    { weaken Al. unfold starts_at, End_ in *. lia. }
    cbn [overlay_list]. unfold overlay_pieces.
    destruct (Z.leb_spec (Address ov) (Address d)); destruct (Z.ltb_spec (Address d) (End_ ov));
      destruct (Z.ltb_spec (Address ov) (End_ d)); destruct (Z.ltb_spec (Address d) (Address ov));
      destruct (Z.ltb_spec (End_ ov) (End_ d));
      cbn [negb andb orb app fst snd]; try (unfold End_ in *; lia);
      split; repeat (apply Forall_cons_2 || apply ordered_cons); try done;
      try solve [weaken Ae; unfold starts_at, End_ in *; cbn in *; lia
                |weaken Al; unfold starts_at, End_ in *; cbn in *; lia];
      unfold starts_at, End_ in *; cbn in *; lia.
  - destruct (IH Hds' (End_ d)) as [As Al]; [lia|done|].
    cbn [overlay_list]. unfold overlay_pieces.
    destruct (Z.leb_spec (Address ov) (Address d)); [unfold End_ in *; lia|].
    destruct (Z.ltb_spec (Address ov) (End_ d)); [unfold End_ in *; lia|].
    rewrite andb_false_r. cbn [negb andb orb app fst snd]. split.
    + by apply ordered_cons.
    + constructor; [done|]. weaken Al. unfold starts_at, End_ in *. lia.
Qed.

Lemma region_ok_start ds : Forall region_ok ds -> Forall (starts_at 0) ds.
Proof. intros H. weaken H. unfold region_ok, starts_at in *. tauto. Qed.

(** An ordered map grows by two regions at most. *)
Lemma overlay_list_after_length ov ds :
  Forall (starts_at (Address ov)) ds -> (length (overlay_list ov ds true) <= length ds)%nat.
Proof.
  induction 1 as [|d ds Hd _ IH]; [done|]. unfold starts_at in Hd.
  cbn [overlay_list length]. unfold overlay_pieces. cbn [negb andb orb app].
  destruct (Z.ltb_spec (Address d) (Address ov)); [lia|].
  repeat case_match; cbn [fst snd app length]; lia.
Qed.

Lemma overlay_list_length ov ds :
  Forall region_ok ds -> region_ok ov -> ordered ds ->
  (length (overlay_list ov ds false) <= length ds + 2)%nat.
Proof.
  intros Hds Ho Hs. induction Hs as [|d ds Hs IH Hb]; [cbn; lia|].
  inversion Hds as [|? ? Hd Hds']; subst.
  destruct Hd as (Hd1 & Hd2 & Hd3), Ho as (Ho1 & Ho2 & Ho3).
  cbn [overlay_list length]. unfold overlay_pieces.
  destruct (decide (Address ov < End_ d)) as [Hin|Hout].
  - assert (Forall (starts_at (Address ov)) ds) as Ha.
    { weaken Hb. unfold before, starts_at in *. lia. }
    apply overlay_list_after_length in Ha.
    destruct (Z.leb_spec (Address ov) (Address d)); destruct (Z.ltb_spec (Address d) (End_ ov));
      destruct (Z.ltb_spec (Address ov) (End_ d)); destruct (Z.ltb_spec (Address d) (Address ov));
      destruct (Z.ltb_spec (End_ ov) (End_ d)); cbn [negb andb orb app fst snd length];
      try (unfold End_ in *; lia).
  - destruct (Z.leb_spec (Address ov) (Address d)); [unfold End_ in *; lia|].
    destruct (Z.ltb_spec (Address ov) (End_ d)); [unfold End_ in *; lia|].
    rewrite andb_false_r. cbn [negb andb orb app fst snd length].
    specialize (IH Hds'). lia.
Qed.

(** The whole operation on its arrays. *)
Lemma overlay_descriptor_spec ds n cap ov ws :
  Forall region_ok (take n ds) -> region_ok ov ->
  (n <= cap)%nat -> (cap <= length ds)%nat -> (cap <= length ws)%nat ->
  exists ws', length ws' = length ws /\
  MemoryMapConfigOverlayDescriptor false (Some ds) (Some n) cap (Some ov) (Some ws) =
    Some (if (length (overlay_list ov (take n ds) false) <=? cap)%nat
          then (EFI_SUCCESS,
                Some (overlay_list ov (take n ds) false
                      ++ drop (length (overlay_list ov (take n ds) false)) ds),
                Some (length (overlay_list ov (take n ds) false)), Some ws')
          else (EFI_OUT_OF_RESOURCES, Some ds, Some n, Some ws')).
Proof.
  intros Hds Ho Hn Hc Hw. unfold MemoryMapConfigOverlayDescriptor. cbn [orb].
  destruct (Nat.ltb_spec cap n); [lia|].
  assert (Ho' := Ho). destruct Ho' as (Ho1 & Ho2 & Ho3).
  rewrite region_wraps_spec by (unfold End_ in *; lia).
  destruct (Z.leb_spec (2 ^ 64) (End_ ov)); [lia|].
  destruct (Nat.ltb_spec (length ds) n); [lia|].
  assert (u64 (Address ov + Length ov) = End_ ov) as ->.
  { apply u64_small. unfold in_u64, End_ in *. lia. }
  rewrite overlay_loop_spec by (auto; cbn; lia).
  unfold push_all. cbn [app]. set (out := overlay_list ov (take n ds) false).
  destruct (Nat.leb_spec (length out) cap).
  - exists (out ++ drop (length out) ws). split; [rewrite length_app, length_drop; lia|].
    destruct (Nat.ltb_spec (length ws) (length out)); [lia|]. cbn [EFI_ERROR].
    by destruct (Nat.ltb_spec (length ds) (length out)); [lia|].
  - assert (length (take cap out) = cap) as E by (rewrite length_take; lia).
    exists (take cap out ++ drop (length (take cap out)) ws).
    split; [rewrite length_app, length_drop; lia|].
    by destruct (Nat.ltb_spec (length ws) (length (take cap out))); [lia|].
Qed.

(** C10: laying the PStore region over an ordered, disjoint map succeeds when two
    more regions fit, and then the map is again ordered, disjoint and of
    non-empty regions, the overlay owns exactly its addresses, and every other
    address keeps the owner it had. *)
Theorem MemoryMapConfigOverlayDescriptor_owner ds n cap ov ws :
  Forall region_ok (take n ds) -> ordered (take n ds) -> region_ok ov ->
  (n + 2 <= cap)%nat -> (cap <= length ds)%nat -> (cap <= length ws)%nat ->
  exists ds' n' ws',
    MemoryMapConfigOverlayDescriptor false (Some ds) (Some n) cap (Some ov) (Some ws) =
      Some (EFI_SUCCESS, Some ds', Some n', Some ws') /\
    (n' <= n + 2)%nat /\ length ds' = length ds /\
    Forall region_ok (take n' ds') /\ ordered (take n' ds') /\
    forall a, owner (take n' ds') a =
      if covers ov a then Some (kind ov) else owner (take n ds) a.
Proof.
  intros Hds Hs Ho Hn Hc Hw.
  destruct (overlay_descriptor_spec ds n cap ov ws) as (ws' & Hl & E); [auto; lia..|].
  pose proof (overlay_list_length ov (take n ds) Hds Ho Hs) as Hlen.
  rewrite length_take_le in Hlen by lia. rewrite E. clear E.
  destruct (Nat.leb_spec (length (overlay_list ov (take n ds) false)) cap); [|lia].
  eexists _, _, _. split; [done|]. rewrite take_app_length.
  destruct (overlay_list_ordered ov (take n ds) 0) as [Ho1 _]; [done..|apply Ho| |].
  { by apply region_ok_start. }
  split_and!; [lia| |by apply overlay_list_ok|done|].
  - rewrite length_app, length_drop. lia.
  - intros a. by rewrite overlay_list_owner.
Qed.

(** For any map of non-empty regions, ordered or not, the overlay succeeds
    exactly when the fragments fit the capacity; then ownership changes on the
    overlay's addresses only, and otherwise the map and its count are as before
    the call. *)
Theorem MemoryMapConfigOverlayDescriptor_capacity ds n cap ov ws :
  Forall region_ok (take n ds) -> region_ok ov ->
  (n <= cap)%nat -> (cap <= length ds)%nat -> (cap <= length ws)%nat ->
  exists st ds' n' ws',
    MemoryMapConfigOverlayDescriptor false (Some ds) (Some n) cap (Some ov) (Some ws) =
      Some (st, Some ds', Some n', Some ws') /\
    (st = EFI_SUCCESS <-> (length (overlay_list ov (take n ds) false) <= cap)%nat) /\
    (st = EFI_SUCCESS -> forall a,
       owner (take n' ds') a = if covers ov a then Some (kind ov) else owner (take n ds) a) /\
    (st <> EFI_SUCCESS -> st = EFI_OUT_OF_RESOURCES /\ ds' = ds /\ n' = n).
Proof.
  intros Hds Ho Hn Hc Hw.
  destruct (overlay_descriptor_spec ds n cap ov ws) as (ws' & Hl & ->); [auto; lia..|].
  destruct (Nat.leb_spec (length (overlay_list ov (take n ds) false)) cap);
    eexists _, _, _, _; (split; [done|]).
  - split_and!; [done| |done]. intros _ a. by rewrite take_app_length, overlay_list_owner.
  - split_and!; [|done|done]. split; [done|lia].
Qed.

Definition ram (name : list Z) (a n : Z) : region :=
  mk_region name a n AddMem EFI_RESOURCE_SYSTEM_MEMORY SYS_MEM_CAP EfiConventionalMemory
    ARM_MEMORY_REGION_ATTRIBUTE_WRITE_BACK.
Definition sample_map : list region := [ram (bytes "A") 0x1000 0x1000; ram (bytes "B") 0x4000 0x4000].
Definition sample_pstore : region := ram PSTORE_NAME 0x5000 0x1000.

Lemma MemoryMapConfigOverlayDescriptor_owner_witness :
  exists ds' n' ws',
    MemoryMapConfigOverlayDescriptor false (Some (sample_map ++ repeat zero_region 3)) (Some 2%nat) 5
      (Some sample_pstore) (Some (repeat zero_region 5)) =
      Some (EFI_SUCCESS, Some ds', Some n', Some ws') /\
    owner (take n' ds') 0x5800 = Some (kind sample_pstore) /\
    owner (take n' ds') 0x6000 = Some (kind (ram (bytes "B") 0 0)).
Proof.
  destruct (MemoryMapConfigOverlayDescriptor_owner (sample_map ++ repeat zero_region 3) 2 5
    sample_pstore (repeat zero_region 5)) as (ds' & n' & ws' & E & _ & _ & _ & _ & Ho).
  - repeat (apply Forall_cons_2 || apply Forall_nil_2); repeat split; vm_compute; done.
  - repeat (apply ordered_cons || constructor); vm_compute; done.
  - repeat split; vm_compute; done.
  - lia.
  - vm_compute. lia.
  - vm_compute. lia.
  - exists ds', n', ws'. split; [exact E|]. rewrite !Ho. by vm_compute.
Defined.

Lemma MemoryMapConfigOverlayDescriptor_capacity_witness :
  exists st ds' n' ws',
    MemoryMapConfigOverlayDescriptor false (Some sample_map) (Some 2%nat) 2
      (Some sample_pstore) (Some (repeat zero_region 2)) =
      Some (st, Some ds', Some n', Some ws') /\ st = EFI_OUT_OF_RESOURCES /\ ds' = sample_map.
Proof.
  destruct (MemoryMapConfigOverlayDescriptor_capacity sample_map 2 2
    sample_pstore (repeat zero_region 2)) as (st & ds' & n' & ws' & E & H1 & _ & H2).
  - repeat (apply Forall_cons_2 || apply Forall_nil_2); repeat split; vm_compute; done.
  - repeat split; vm_compute; done.
  - lia.
  - vm_compute. lia.
  - vm_compute. lia.
  - exists st, ds', n', ws'. split; [exact E|].
    destruct H2 as (-> & -> & _); [|done]. intros ->. destruct H1 as [H1 _].
    specialize (H1 eq_refl). vm_compute in H1. lia.
Defined.

(** ** Numbers: the two parsers of the code base are the same function *)
Lemma map_digit_eq Radix c :
  (if (ch "0" <=? c) && (c <=? ch "9") then Some (u64 (c - ch "0"))
   else if (Radix =? 16) && (ch "a" <=? c) && (c <=? ch "f") then Some (u64 (c - ch "a" + 10))
   else if (Radix =? 16) && (ch "A" <=? c) && (c <=? ch "F") then Some (u64 (c - ch "A" + 10))
   else None) = digit_of Radix c.
Proof.
  unfold digit_of.
  assert (forall d, 0 <= d < 16 -> u64 d = u8 d) as Hd.
  { intros d ?. unfold u64, u8. by rewrite !Z.mod_small by lia. }
  change (ch "0") with 48. change (ch "9") with 57. change (ch "a") with 97.
  change (ch "f") with 102. change (ch "A") with 65. change (ch "F") with 70.
  repeat case_if; bool_to_prop; try done; f_equal; apply Hd; lia.
Qed.

Lemma map_digits_loop_eq fuel Text Radix Index v :
  map_digits_loop fuel Text Radix Index v = parse_digits fuel Text Radix Index v.
Proof.
  revert Index v. induction fuel as [|fuel IH]; intros Index v; [done|].
  cbn [map_digits_loop parse_digits]. destruct (Text !! Index) as [c|]; [|done]. bind_step.
  destruct (c =? 0); [done|]. rewrite map_digit_eq.
  destruct (digit_of Radix c) as [d|] eqn:Ed; [|done].
  change (u64 (Z.lnot 0)) with MAX_UINT64.
  assert (0 <= d < 2 ^ 8) as Hd.
  { unfold digit_of in Ed. repeat case_if_in Ed; simplify_eq; apply u8_range. }
  rewrite (u64_small (MAX_UINT64 - d)) by (unfold in_u64, MAX_UINT64; lia).
  destruct (_ || _); [done|]. apply IH.
Qed.

(** The answer of a parse into a result variable that held [Value]. *)
Definition parse_answer (Value : Z) (r : option Z) : EFI_STATUS * option Z :=
  match r with
  | None => (EFI_COMPROMISED_DATA, Some Value)
  | Some v => (EFI_SUCCESS, Some v)
  end.

Lemma ParseUint64_eq Text Value :
  MemoryMapConfigParseUint64 (Some Text) (Some Value) =
    (r ← parse_uint64_text Text; Some (parse_answer Value r)).
Proof.
  unfold MemoryMapConfigParseUint64, parse_uint64_text.
  destruct (Text !! 0%nat) as [c0|] eqn:E0; bind_step; [|done].
  destruct (Z.eqb_spec c0 0) as [->|Hc0].
  { change (0 =? ch "0") with false. bind_step. rewrite E0. bind_step. done. }
  destruct (c0 =? ch "0"); bind_step.
  - destruct (Text !! 1%nat) as [c1|]; bind_step; [|done].
    destruct ((c1 =? ch "x") || (c1 =? ch "X")); bind_step.
    + destruct (Text !! 2%nat) as [c2|]; bind_step; [|done].
      destruct (c2 =? 0); bind_step; [done|]. rewrite map_digits_loop_eq.
      by destruct (parse_digits _ _ _ _ _) as [[v|]|].
    + rewrite E0. bind_step. destruct (Z.eqb_spec c0 0); [done|]. rewrite map_digits_loop_eq.
      by destruct (parse_digits _ _ _ _ _) as [[v|]|].
  - rewrite E0. bind_step. destruct (Z.eqb_spec c0 0); [done|]. rewrite map_digits_loop_eq.
    by destruct (parse_digits _ _ _ _ _) as [[v|]|].
Qed.

(** On every memory, [MemoryMapConfigParseUint64] computes what the number
    parser of the boot configuration computes (and faults exactly when that one
    does), and writes its result only on success. *)
Theorem MemoryMapConfigParseUint64_equiv Text Value :
  MemoryMapConfigParseUint64 (Some Text) (Some Value) =
    (r ← parse_uint64_text Text; Some (parse_answer Value r)).
Proof. apply ParseUint64_eq. Qed.
