(* ===== verification/CsvSpec.v ===== *)
(** * Records: splitting, unquoting and the descriptor they describe.

    The in-place routines of [QcomUefiPlatMemoryMapLib.c] against a reader of
    fields on lists.  A processed record is a sequence of [cell]s, one per field:
    the bytes before the field, the field, its terminator and the bytes left
    over. *)
From stdpp Require Import base numbers list option strings.
From Stdlib Require Import ZArith Lia Ascii.
From S2P Require Import Prelude BaseLib BootConfig BootConfigSpec MemoryMapConfig MemoryMapSpec.
Local Open Scope Z_scope.

(** ** The abstract reader of records *)
Definition push_char (c : Z) (r : list (list Z) * bool) : list (list Z) * bool :=
  match r.1 with
  | f :: fs => ((c :: f) :: fs, r.2)
  | [] => ([[c]], r.2)
  end.

(** The fields between the commas outside quotes, and whether a quote is open at
    the end; every quote character toggles. *)
Fixpoint raw_fields (q : bool) (l : list Z) : list (list Z) * bool :=
  match l with
  | [] => ([[]], q)
  | c :: l' =>
      if (c =? ch ",") && negb q then let r := raw_fields q l' in ([] :: r.1, r.2)
      else push_char c (raw_fields (if c =? dquote then negb q else q) l')
  end.

Fixpoint undouble (l : list Z) : list Z :=
  match l with
  | [] => []
  | c :: l' =>
      if c =? dquote then
        match l' with
        | d :: l'' => if d =? dquote then dquote :: undouble l'' else c :: undouble l'
        | [] => [c]
        end
      else c :: undouble l'
  end.

Definition csv_field (f : list Z) : option (list Z) :=
  match trim is_blank f with
  | [] => Some []
  | c :: r =>
      if c =? dquote then
        if bool_decide (last r = Some dquote)
        then Some (take (length (undouble r) - 1) (undouble r)) else None
      else if bool_decide (dquote ∈ c :: r) then None else Some (c :: r)
  end.

Definition csv_record (n : nat) (text : list Z) : option (list (list Z)) :=
  let r := raw_fields false text in
  if r.2 || negb (length r.1 =? n)%nat then None else mapM csv_field r.1.

(** ** Cells *)
Record cell := mk_cell { gap : list Z; value : list Z; slack : list Z }.
Definition cell_bytes (c : cell) : list Z := gap c ++ value c ++ 0 :: slack c.
Definition render (cs : list cell) : list Z := concat (cell_bytes <$> cs).
Fixpoint cell_offs (base : nat) (cs : list cell) : list nat :=
  match cs with
  | [] => []
  | c :: cs' => (base + length (gap c))%nat :: cell_offs (base + length (cell_bytes c)) cs'
  end.

Definition raw_cell (f : list Z) : cell := mk_cell [] f [].

Lemma render_cons c cs : render (c :: cs) = cell_bytes c ++ render cs.
Proof. done. Qed.
Lemma render_app cs ds : render (cs ++ ds) = render cs ++ render ds.
Proof. unfold render. by rewrite fmap_app, concat_app. Qed.
Lemma length_cell_offs b cs : length (cell_offs b cs) = length cs.
Proof. revert b. induction cs as [|c cs IH]; intros b; simpl; [done|]. by rewrite IH. Qed.
Lemma cell_offs_app b cs ds :
  cell_offs b (cs ++ ds) = cell_offs b cs ++ cell_offs (b + length (render cs)) ds.
Proof.
  revert b. induction cs as [|c cs IH]; intros b; cbn [app cell_offs].
  { cbn. by rewrite Nat.add_0_r. }
  rewrite IH, render_cons, length_app. do 3 f_equal. lia.
Qed.

(** ** Trimming in place *)
Lemma scan_mem_spec P pre s c post :
  P c = false ->
  scan_mem P (pre ++ s ++ c :: post) (length pre) =
    Some (length pre + count_while P (s ++ [c]))%nat.
Proof.
  intros Hc. unfold scan_mem.
  assert (forall n i, (i + length s < n)%nat ->
    scan_fwd P (pre ++ s ++ c :: post) (n - i) (length pre) =
      Some (length pre + count_while P (s ++ [c]))%nat) as H.
  { revert pre. induction s as [|d s IH]; intros pre n i Hn.
    - replace (n - i)%nat with (S (n - i - 1)) by lia. cbn [scan_fwd app].
      rewrite lookup_app_r, Nat.sub_diag by lia. cbn [lookup list_lookup]. bind_step.
      cbn [count_while]. rewrite Hc. f_equal. lia.
    - cbn [length] in Hn. replace (n - i)%nat with (S (n - S i)) by lia. cbn [scan_fwd app].
      rewrite lookup_app_r, Nat.sub_diag by lia. cbn [lookup list_lookup]. bind_step.
      cbn [count_while]. destruct (P d); [|f_equal; lia].
      replace (pre ++ d :: s ++ c :: post) with ((pre ++ [d]) ++ s ++ c :: post)
        by (by rewrite <- app_assoc).
      replace (S (length pre)) with (length (pre ++ [d])) by (rewrite length_app; cbn; lia).
      rewrite IH by lia. rewrite length_app. cbn [length]. f_equal. lia. }
  specialize (H (S (length (pre ++ s ++ c :: post)) - length pre)%nat 0%nat).
  rewrite Nat.sub_0_r in H. replace (S (length (pre ++ s ++ c :: post) - length pre))
    with (S (length (pre ++ s ++ c :: post)) - length pre)%nat by (rewrite length_app; lia).
  apply H. rewrite !length_app. cbn [length]. lia.
Qed.

Lemma trim_end_loop_spec pre s post n :
  (n <= length s)%nat ->
  exists j, (j <= n)%nat /\ j = Nat.min n (count_while is_blank (reverse s)) /\
    trim_end_loop (pre ++ s ++ post) n (length pre + length s) =
      Some (pre ++ take (length s - j) s ++ repeat 0 j ++ post).
Proof.
  revert s post. induction n as [|n IH]; intros s post Hn.
  { exists 0%nat. split_and!; [lia|lia|]. cbn. by rewrite Nat.sub_0_r, firstn_all. }
  destruct s as [|c s _] using rev_ind; [cbn in Hn; lia|]. rewrite length_app in *. cbn [length] in *.
  cbn [trim_end_loop]. replace (length pre + (length s + 1) - 1)%nat with (length pre + length s)%nat by lia.
  rewrite <- (app_assoc s). cbn [app].
  rewrite lookup_app_r by lia. rewrite lookup_app_r by lia.
  replace (length pre + length s - length pre - length s)%nat with 0%nat by lia.
  cbn [lookup list_lookup]. bind_step.
  rewrite reverse_app. cbn [reverse rev_append app count_while].
  destruct (is_blank c).
  - rewrite insert_app_r. rewrite (insert_app_r_alt s), Nat.sub_diag by lia. cbn [insert list_insert].
    destruct (IH s (0 :: post)) as (j & H1 & H2 & ->); [lia|].
    exists (S j). split_and!; [lia|lia|].
    replace (length s + 1 - S j)%nat with (length s - j)%nat by lia.
    rewrite take_app_le by lia. cbn [repeat]. by rewrite repeat_cons, <- app_assoc.
  - exists 0%nat. split_and!; [lia|lia|]. cbn [repeat app].
    by rewrite take_ge, <- app_assoc by (rewrite length_app; cbn; lia).
Qed.

(** ** Unquoting in place *)
Lemma lookup_mid (pre : list Z) c post : (pre ++ c :: post) !! length pre = Some c.
Proof. by rewrite lookup_app_r, Nat.sub_diag by lia. Qed.
Lemma lookup_mid_S (pre : list Z) c d post : (pre ++ c :: d :: post) !! S (length pre) = Some d.
Proof.
  replace (S (length pre)) with (length (pre ++ [c])) by (rewrite length_app; cbn; lia).
  replace (pre ++ c :: d :: post) with ((pre ++ [c]) ++ d :: post) by (by rewrite <- app_assoc).
  apply lookup_mid.
Qed.
Lemma insert_mid (pre : list Z) c d post : <[length pre := d]> (pre ++ c :: post) = pre ++ d :: post.
Proof. by rewrite insert_app_r_alt, Nat.sub_diag by lia. Qed.

(** What the loop leaves: the undoubled source at the destination. *)
Definition unquoted (pre mid src post : list Z) (r : option (list Z * nat)) : Prop :=
  exists mid', (length mid' + length (undouble src) = length mid + length src)%nat /\
    r = Some (pre ++ undouble src ++ mid' ++ 0 :: post,
              (length pre + length (undouble src))%nat).

Lemma unquote_loop_spec fuel pre x m src post :
  cstring src -> (length src < fuel)%nat ->
  unquoted pre (x :: m) src post
    (unquote_loop fuel ((pre ++ x :: m) ++ src ++ 0 :: post) (length (pre ++ x :: m)) (length pre)).
Proof.
  revert pre x m src. induction fuel as [|fuel IH]; intros pre x m src Hs Hf; [lia|].
  assert (forall y eaten src', cstring src' -> (length src' < fuel)%nat ->
    undouble src = y :: undouble src' -> length src = (length eaten + length src')%nat ->
    eaten <> [] ->
    unquoted pre (x :: m) src post
      (unquote_loop fuel (<[length pre := y]> ((pre ++ x :: m) ++ eaten ++ src' ++ 0 :: post))
        (length (pre ++ x :: m) + length eaten) (S (length pre)))) as Hstep.
  { intros y eaten src' Hs' Hf' Hu Hl He.
    destruct (m ++ eaten) as [|x' m'] eqn:Em; [by destruct m, eaten|].
    destruct (IH (pre ++ [y]) x' m' src' Hs' Hf') as (mid' & H1 & H2).
    exists mid'. rewrite Hu. cbn [length].
    assert (length (x' :: m') = (length m + length eaten)%nat) as Hm.
    { rewrite <- Em. apply length_app. }
    cbn [length] in H1, Hm. split; [lia|].
    rewrite <- (app_assoc pre). cbn [app]. rewrite insert_mid.
    assert (pre ++ y :: m ++ eaten ++ src' ++ 0 :: post
            = ((pre ++ [y]) ++ x' :: m') ++ src' ++ 0 :: post) as ->.
    { rewrite <- Em, <- !app_assoc. done. }
    replace (length (pre ++ x :: m) + length eaten)%nat with (length ((pre ++ [y]) ++ x' :: m'))
      by (rewrite !length_app; cbn [length]; lia).
    replace (S (length pre)) with (length (pre ++ [y])) by (rewrite length_app; cbn; lia).
    rewrite H2. f_equal. f_equal; [by rewrite <- !app_assoc|].
    rewrite length_app. cbn. lia. }
  cbn [unquote_loop]. destruct src as [|c s]; cbn [app].
  { rewrite lookup_mid. bind_step. rewrite Z.eqb_refl. exists (x :: m).
    split; [cbn; lia|]. cbn [undouble app length]. rewrite <- (app_assoc pre). f_equal. f_equal. lia. }
  inversion Hs as [|? ? Hc Hs']; subst. rewrite lookup_mid. bind_step.
  destruct (Z.eqb_spec c 0); [done|]. cbn [length] in Hf.
  assert (undouble (c :: s) = c :: undouble s ->
    unquoted pre (x :: m) (c :: s) post
      (unquote_loop fuel (<[length pre := c]> ((pre ++ x :: m) ++ c :: s ++ 0 :: post))
        (S (length (pre ++ x :: m))) (S (length pre)))) as Hplain.
  { intros Hu. specialize (Hstep c [c] s Hs' ltac:(lia) Hu eq_refl ltac:(done)).
    cbn [app length] in Hstep. by rewrite Nat.add_1_r in Hstep. }
  destruct (Z.eqb_spec c dquote) as [->|Hq]; bind_step.
  2: { rewrite lookup_mid. bind_step. apply Hplain. cbn [undouble].
       by destruct (Z.eqb_spec c dquote). }
  destruct s as [|d s]; cbn [app].
  { rewrite lookup_mid_S. bind_step. change (0 =? dquote) with false. cbn [negb].
    rewrite lookup_mid. bind_step. by apply Hplain. }
  rewrite lookup_mid_S. bind_step. destruct (Z.eqb_spec d dquote) as [->|Hd].
  - rewrite lookup_mid_S. bind_step. inversion Hs'; subst. cbn [length] in Hf.
    specialize (Hstep dquote [dquote; dquote] s ltac:(done) ltac:(lia) eq_refl eq_refl ltac:(done)).
    cbn [app length] in Hstep. by rewrite Nat.add_comm in Hstep.
  - rewrite lookup_mid. bind_step. apply Hplain. cbn [undouble]. change (dquote =? dquote) with true.
    cbn iota. by destruct (Z.eqb_spec d dquote).
Qed.

Lemma undouble_length l : (length (undouble l) <= length l)%nat /\ (l <> [] -> undouble l <> []).
Proof.
  remember (length l) as n eqn:E. revert l E.
  induction n as [n IH] using lt_wf_ind. intros [|c l] ->; [done|]. cbn [undouble length].
  destruct (c =? dquote); [destruct l as [|d l]; [done|destruct (d =? dquote)]|]; cbn [length].
  - split; [|done]. destruct (IH (length l)) with (l := l) as [? _]; cbn; [lia|done|lia].
  - split; [|done]. destruct (IH (length (d :: l))) with (l := d :: l) as [? _]; cbn in *; [lia|done|lia].
  - split; [|done]. destruct (IH (length l)) with (l := l) as [? _]; cbn; [lia|done|lia].
Qed.

Section in_place.
Context `{BL : BaseLib} `{!BaseLibLaws BL}.

Lemma TrimField_spec pre s post :
  cstring s ->
  exists c, value c = trim is_blank s /\ length (cell_bytes c) = S (length s) /\
    MemoryMapConfigTrimField (pre ++ s ++ 0 :: post) (length pre) =
      Some (pre ++ cell_bytes c ++ post, (length pre + length (gap c))%nat).
Proof.
  intros Hs. unfold MemoryMapConfigTrimField. rewrite scan_mem_spec by done. bind_step.
  pose proof (count_while_length is_blank s) as Hk.
  set (k := count_while is_blank s) in *.
  assert (count_while is_blank (s ++ [0]) = k) as ->.
  { destruct (decide (k = length s)) as [E|E].
    - rewrite count_while_app_all; [change (count_while is_blank [0]) with 0%nat; lia|].
      pose proof (count_while_all is_blank s) as Ha. fold k in Ha. by rewrite E, firstn_all in Ha.
    - apply count_while_app_stop. fold k. lia. }
  set (t := drop k s).
  assert (pre ++ s ++ 0 :: post = (pre ++ take k s) ++ t ++ 0 :: post) as ->.
  { unfold t. rewrite <- (take_drop k s) at 1. by rewrite <- !app_assoc. }
  replace (length pre + k)%nat with (length (pre ++ take k s))
    by (rewrite length_app, length_take; lia).
  rewrite c_string_at by (by apply Forall_drop). bind_step. rewrite AsciiStrLen_law.
  destruct (trim_end_loop_spec (pre ++ take k s) t (0 :: post) (length t)) as (j & H1 & H2 & ->); [done|].
  bind_step. exists (mk_cell (take k s) (take (length t - j) t) (repeat 0 j)).
  unfold cell_bytes. cbn [gap value slack].
  assert (length t = (length s - k)%nat) as Ht by (unfold t; by rewrite length_drop).
  split_and!.
  - unfold trim. rewrite rtrim_take. unfold ltrim. fold k. fold t. f_equal.
    rewrite H2. pose proof (count_while_length is_blank (reverse t)) as Hc.
    rewrite length_reverse in Hc. lia.
  - rewrite !length_app, !length_take. cbn [length]. rewrite repeat_length. lia.
  - rewrite length_app. f_equal. f_equal. rewrite <- !app_assoc. do 3 f_equal.
    change (repeat 0 j ++ [0] ++ post = [0] ++ repeat 0 j ++ post).
    by rewrite app_assoc, <- repeat_cons.
Qed.
End in_place.

(** ** Fields in place *)
Section fields_in_place.
Context `{BL : BaseLib} `{!BaseLibLaws BL}.

(** A field of the record became a cell, and nothing else changed. *)
Definition field_cell (pre f post v : list Z) (r : option (EFI_STATUS * list Z * nat)) : Prop :=
  exists c, value c = v /\ length (cell_bytes c) = S (length f) /\
    r = Some (EFI_SUCCESS, pre ++ cell_bytes c ++ post, (length pre + length (gap c))%nat).
Definition field_bad (r : option (EFI_STATUS * list Z * nat)) : Prop :=
  exists rec k, r = Some (EFI_COMPROMISED_DATA, rec, k).

Lemma cell_bytes_split c post : cell_bytes c ++ post = gap c ++ value c ++ 0 :: slack c ++ post.
Proof. unfold cell_bytes. by rewrite <- !app_assoc. Qed.

Lemma split_quoted P r post :
  cstring r ->
  exists mid, (length mid + length (undouble r) = S (length r))%nat /\
    unquote_loop (S (length (P ++ (dquote :: r) ++ 0 :: post))) (P ++ (dquote :: r) ++ 0 :: post)
      (S (length P)) (length P) =
    Some (P ++ undouble r ++ mid ++ 0 :: post, (length P + length (undouble r))%nat).
Proof.
  intros Hr.
  destruct (unquote_loop_spec (S (length (P ++ (dquote :: r) ++ 0 :: post))) P dquote [] r post)
    as (mid & Hm & E); [done|rewrite !length_app; cbn; lia|].
  exists mid. split; [cbn in Hm; lia|]. rewrite <- E. f_equal.
  - by rewrite <- app_assoc.
  - rewrite length_app. cbn. lia.
Qed.

Lemma split_field_spec pre f post :
  cstring f ->
  match csv_field f with
  | Some v => field_cell pre f post v (split_field (pre ++ f ++ 0 :: post) (length pre))
  | None => field_bad (split_field (pre ++ f ++ 0 :: post) (length pre))
  end.
Proof.
  intros Hf. unfold split_field, csv_field.
  destruct (TrimField_spec pre f post Hf) as (c & Hv & Hl & ->). bind_step.
  assert (cstring (value c)) as Hc.
  { rewrite Hv. unfold trim. rewrite rtrim_take. unfold ltrim. by apply Forall_take, Forall_drop. }
  rewrite cell_bytes_split.
  assert (pre ++ gap c ++ value c ++ 0 :: slack c ++ post
          = (pre ++ gap c) ++ value c ++ 0 :: slack c ++ post) as -> by (by rewrite <- app_assoc).
  rewrite <- length_app. rewrite <- Hv. set (P := pre ++ gap c).
  rewrite c_string_at by done. destruct (value c) as [|q r] eqn:Ev; cbn [app].
  { rewrite lookup_mid. bind_step. change (0 =? dquote) with false. cbn iota.
    pose proof (StrStr_char [] dquote) as ->. rewrite (bool_decide_false (dquote ∈ [])) by (by apply not_elem_of_nil).
    cbn [negb]. exists c. split_and!; [done|done|]. unfold P. rewrite cell_bytes_split, Ev.
    rewrite <- app_assoc, length_app. done. }
  rewrite lookup_mid. bind_step. destruct (Z.eqb_spec q dquote) as [->|Hq].
  - rewrite AsciiStrLen_law. cbn [length].
    destruct r as [|y r _] using rev_ind.
    { cbn. by eexists _, _. }
    rewrite last_snoc, !(length_app r). cbn [length].
    destruct (Nat.ltb_spec (S (length r + 1)) 2); [lia|].
    replace (length P + S (length r + 1) - 1)%nat with (length (P ++ dquote :: r))
      by (rewrite length_app; cbn; lia).
    assert (P ++ dquote :: (r ++ [y]) ++ 0 :: slack c ++ post
            = (P ++ dquote :: r) ++ y :: 0 :: slack c ++ post) as E by (by rewrite <- !app_assoc).
    rewrite E, lookup_mid, <- E. bind_step. clear E.
    destruct (Z.eqb_spec y dquote) as [->|Hy]; cbn [negb].
    2: { rewrite bool_decide_false by congruence. by eexists _, _. }
    rewrite bool_decide_true by done. inversion Hc; subst.
    destruct (split_quoted P (r ++ [dquote]) (slack c ++ post)) as (mid & Hm & E); [done|].
    change (dquote :: (r ++ [dquote]) ++ 0 :: slack c ++ post)
      with ((dquote :: r ++ [dquote]) ++ 0 :: slack c ++ post).
    rewrite E. bind_step. clear E.
    destruct (undouble_length (r ++ [dquote])) as [Hul Hun]. specialize (Hun ltac:(by destruct r)).
    destruct (undouble (r ++ [dquote])) as [|z u _] using rev_ind; [done|].
    rewrite length_app in *. cbn [length] in *.
    destruct (Nat.eqb_spec (length P + (length u + 1)) (length P)); [lia|].
    replace (length u + 1 - 1)%nat with (length u) by lia. rewrite take_app_length.
    exists (mk_cell (gap c) u (mid ++ 0 :: slack c)). unfold cell_bytes in Hl |- *. rewrite Ev in Hl.
    cbn [gap value slack] in Hl |- *. split_and!; [done| |].
    + rewrite !length_app in Hm. cbn [length] in Hm. revert Hl. rewrite !length_app. cbn [length]. rewrite !length_app. cbn [length]. lia.
    + unfold P. rewrite length_app. f_equal. f_equal. f_equal.
      replace (length pre + length (gap c) + (length u + 1) - 1)%nat
        with (length ((pre ++ gap c) ++ u)) by (rewrite !length_app; lia).
      rewrite <- (app_assoc u). cbn [app]. rewrite (app_assoc (pre ++ gap c) u), insert_mid.
      rewrite <- !app_assoc. cbn [app]. by rewrite <- !app_assoc.
  - pose proof (StrStr_char (q :: r) dquote) as ->.
    destruct (bool_decide (dquote ∈ q :: r)) eqn:E; cbn [negb]; [by eexists _, _|].
    exists c. split_and!; [done|done|]. unfold P. rewrite cell_bytes_split, Ev.
    rewrite <- app_assoc, length_app. done.
Qed.

Lemma split_fields_spec fs pre post acc :
  Forall cstring fs ->
  match mapM csv_field fs with
  | Some vs =>
      exists cs, value <$> cs = vs /\
        split_fields (pre ++ render (raw_cell <$> fs) ++ post)
          (cell_offs (length pre) (raw_cell <$> fs)) acc =
        Some (EFI_SUCCESS, pre ++ render cs ++ post, acc ++ cell_offs (length pre) cs)
  | None =>
      exists rec fl, split_fields (pre ++ render (raw_cell <$> fs) ++ post)
          (cell_offs (length pre) (raw_cell <$> fs)) acc = Some (EFI_COMPROMISED_DATA, rec, fl)
  end.
Proof.
  intros Hfs. revert pre acc. induction Hfs as [|f fs Hf _ IH]; intros pre acc.
  { exists []. split; [done|]. cbn. by rewrite app_nil_r. }
  cbn [mapM fmap list_fmap cell_offs split_fields].
  rewrite render_cons. change (cell_bytes (raw_cell f)) with (f ++ [0]).
  change (length (gap (raw_cell f))) with 0%nat.
  rewrite Nat.add_0_r, <- !(app_assoc f). cbn [app].
  pose proof (split_field_spec pre f (render (raw_cell <$> fs) ++ post) Hf) as H.
  destruct (csv_field f) as [v|].
  2: { destruct H as (rec & k & ->). bind_step. cbn [EFI_ERROR]. by eexists _, _. }
  destruct H as (c & Hv & Hl & ->). bind_step. cbn [EFI_ERROR].
  specialize (IH (pre ++ cell_bytes c) (acc ++ [(length pre + length (gap c))%nat])).
  assert (length (f ++ [0]) = length (cell_bytes c)) as ->.
  { rewrite Hl, length_app. cbn. lia. }
  rewrite length_app, <- app_assoc in IH.
  destruct (mapM csv_field fs) as [vs|]; bind_step.
  - destruct IH as (cs & Hvs & ->). exists (c :: cs). split; [cbn; by rewrite Hv, Hvs|].
    rewrite render_cons. cbn [cell_offs]. by rewrite <- !app_assoc.
  - exact IH.
Qed.

(** ** The splitting loop *)
(** Where the loop ends, at the fields [r] of the text still to read. *)
Definition loop_result (pre : list Z) (Fields : list nat) (n : nat) (rest : list Z)
    (r : list (list Z) * bool) (res : option (EFI_STATUS * list Z * list nat * bool)) : Prop :=
  if (length Fields + length r.1 <=? S n)%nat then
    res = Some (EFI_SUCCESS, pre ++ render (raw_cell <$> r.1) ++ rest,
                Fields ++ tail (cell_offs (length pre) (raw_cell <$> r.1)), r.2)
  else exists rec fl q, res = Some (EFI_COMPROMISED_DATA, rec, fl, q).

Lemma raw_fields_cons q l : exists f fs, (raw_fields q l).1 = f :: fs.
Proof.
  revert q. induction l as [|c l IH]; intros q; cbn [raw_fields]; [by eexists _, _|].
  destruct (_ && _); [by eexists _, _|]. unfold push_char.
  destruct (IH (if c =? dquote then negb q else q)) as (f & fs & ->). by eexists _, _.
Qed.

Lemma loop_result_push pre Fields n rest q l c res :
  loop_result (pre ++ [c]) Fields n rest (raw_fields q l) res ->
  loop_result pre Fields n rest (push_char c (raw_fields q l)) res.
Proof.
  unfold loop_result, push_char. destruct (raw_fields_cons q l) as (f & fs & ->). cbn [fst snd length].
  destruct (Nat.leb_spec (length Fields + S (length fs)) (S n)); [|done]. intros ->.
  f_equal. f_equal. f_equal; [f_equal|].
  - cbn [fmap list_fmap]. rewrite !render_cons. unfold cell_bytes. cbn [raw_cell gap value slack app].
    by rewrite <- !app_assoc.
  - cbn [fmap list_fmap cell_offs tail]. do 2 f_equal. unfold cell_bytes.
    cbn [raw_cell gap value slack app]. rewrite !length_app. cbn [length].
    rewrite !length_app. cbn [length]. lia.
Qed.

Lemma split_loop_spec fuel pre l rest q Fields n :
  cstring l -> (length l < fuel)%nat -> (length Fields <= n)%nat ->
  loop_result pre Fields n rest (raw_fields q l)
    (split_loop fuel (pre ++ l ++ 0 :: rest) (length pre) q Fields n).
Proof.
  revert pre l q Fields. induction fuel as [|fuel IH]; intros pre l q Fields Hl Hf Hn; [lia|].
  cbn [split_loop]. destruct l as [|c l]; cbn [app].
  { rewrite lookup_mid. bind_step. rewrite Z.eqb_refl. unfold loop_result. cbn [raw_fields fst snd length].
    destruct (Nat.leb_spec (length Fields + 1) (S n)); [|lia]. cbn. by rewrite app_nil_r. }
  inversion Hl as [|? ? Hc Hl']; subst. cbn [length] in Hf.
  rewrite lookup_mid. bind_step. destruct (Z.eqb_spec c 0); [done|].
  assert (forall c' l' q' F', cstring l' -> (length l' < fuel)%nat -> (length F' <= n)%nat ->
    loop_result (pre ++ [c']) F' n rest (raw_fields q' l')
      (split_loop fuel (pre ++ c' :: l' ++ 0 :: rest) (S (length pre)) q' F' n)) as Hnext.
  { intros c' l' q' F' H1 H2 H3. specialize (IH (pre ++ [c']) l' q' F' H1 H2 H3).
    rewrite <- app_assoc, length_app, Nat.add_1_r in IH. exact IH. }
  cbn [raw_fields]. destruct (Z.eqb_spec c dquote) as [->|Hq]; bind_step.
  - change (dquote =? ch ",") with false. cbn [andb]. apply loop_result_push.
    destruct q; cbn [negb]; bind_step; [|apply Hnext; [done|lia|done]].
    destruct l as [|d l]; cbn [app].
    { rewrite lookup_mid_S. bind_step. change (0 =? dquote) with false. apply Hnext; [done|cbn; lia|done]. }
    rewrite lookup_mid_S. bind_step. destruct (Z.eqb_spec d dquote) as [->|Hd];
      [|apply Hnext; [done|lia|done]].
    inversion Hl'; subst. cbn [length] in Hf. cbn [raw_fields].
    change (dquote =? ch ",") with false. change (dquote =? dquote) with true. cbn [andb negb].
    apply loop_result_push.
    replace (pre ++ dquote :: dquote :: l ++ 0 :: rest)
      with (((pre ++ [dquote]) ++ [dquote]) ++ l ++ 0 :: rest) by (by rewrite <- !app_assoc).
    replace (S (S (length pre))) with (length ((pre ++ [dquote]) ++ [dquote]))
      by (rewrite !length_app; cbn; lia).
    apply IH; [done|lia|done].
  - destruct ((c =? ch ",") && negb q) eqn:Ec; [|apply loop_result_push, Hnext; [done|lia|done]].
    rewrite insert_mid. unfold loop_result. cbn [fst snd length].
    destruct (raw_fields_cons q l) as (f & fs & Er).
    destruct (Nat.leb_spec n (length Fields)) as [Hfull|Hroom].
    { rewrite Er. cbn [length].
      destruct (Nat.leb_spec (length Fields + S (S (length fs))) (S n)); [lia|by eexists _, _, _]. }
    specialize (Hnext 0 l q (Fields ++ [S (length pre)]) Hl' ltac:(lia)
      ltac:(rewrite length_app; cbn; lia)). revert Hnext.
    unfold loop_result. rewrite Er. rewrite length_app. cbn [length].
    replace (length Fields + 1 + S (length fs))%nat with (length Fields + S (S (length fs)))%nat by lia.
    destruct (Nat.leb_spec (length Fields + S (S (length fs))) (S n)); [|done].
    intros ->. f_equal. f_equal. f_equal; [f_equal|].
    + cbn [fmap list_fmap]. rewrite !render_cons. unfold cell_bytes. cbn [raw_cell gap value slack app].
      by rewrite <- !app_assoc.
    + cbn [fmap list_fmap cell_offs tail]. rewrite <- app_assoc. cbn [app]. unfold cell_bytes.
      cbn [raw_cell gap value slack app length]. rewrite !length_app. cbn [length].
      rewrite !Nat.add_0_r, Nat.add_1_r. done.
Qed.
End fields_in_place.

(** ** Whole records *)
Lemma raw_fields_cstring q l : cstring l -> Forall cstring (raw_fields q l).1.
Proof.
  intros Hl. revert q. induction Hl as [|c l Hc _ IH]; intros q; cbn [raw_fields].
  { by repeat constructor. }
  destruct (_ && _); cbn [fst]; [by constructor; [constructor|]|].
  specialize (IH (if c =? dquote then negb q else q)).
  destruct (raw_fields_cons (if c =? dquote then negb q else q) l) as (f & fs & E).
  unfold push_char. rewrite E in *. inversion IH; subst. by repeat constructor.
Qed.

Lemma undouble_cstring l : cstring l -> cstring (undouble l).
Proof.
  remember (length l) as n eqn:E. revert l E.
  induction n as [n IH] using lt_wf_ind. intros [|c l] -> Hl; [constructor|].
  inversion Hl as [|? ? Hc Hl']; subst. cbn [undouble].
  destruct (c =? dquote); [|constructor; [done|]; apply (IH (length l)); [cbn; lia|done..]].
  destruct l as [|d l]; [by repeat constructor|].
  destruct (d =? dquote); constructor; try done.
  - inversion Hl'; subst. by apply (IH (length l)); [cbn; lia|..].
  - by apply (IH (length (d :: l))); [cbn; lia|..].
Qed.

Lemma trim_cstring P l : cstring l -> cstring (trim P l).
Proof. intros H. unfold trim. rewrite rtrim_take. unfold ltrim. by apply Forall_take, Forall_drop. Qed.

Lemma csv_field_cstring f v : cstring f -> csv_field f = Some v -> cstring v.
Proof.
  intros Hf. unfold csv_field. apply (trim_cstring is_blank) in Hf.
  destruct (trim is_blank f) as [|c r]; [by intros [= <-]|]. inversion Hf; subst.
  repeat case_match; intros; simplify_eq; try done. by apply Forall_take, undouble_cstring.
Qed.

Lemma csv_record_cstring n text vs : cstring text -> csv_record n text = Some vs -> Forall cstring vs.
Proof.
  intros Ht. unfold csv_record. destruct (_ || _); [done|]. intros H.
  apply (raw_fields_cstring false) in Ht. apply mapM_Some in H.
  induction H as [|f v fs vs Hfv _ IH]; [constructor|]. inversion Ht; subst.
  constructor; [by eapply csv_field_cstring|by apply IH].
Qed.

Section records_in_place.
Context `{BL : BaseLib} `{!BaseLibLaws BL}.

Lemma SplitCsv_spec n text rest :
  cstring text -> (1 <= n)%nat ->
  match csv_record n text with
  | Some vs =>
      exists cs, value <$> cs = vs /\
        MemoryMapConfigSplitCsv (text ++ 0 :: rest) n =
          Some (EFI_SUCCESS, render cs ++ rest, cell_offs 0 cs)
  | None => exists rec fl,
      MemoryMapConfigSplitCsv (text ++ 0 :: rest) n = Some (EFI_COMPROMISED_DATA, rec, fl)
  end.
Proof.
  intros Ht Hn. unfold MemoryMapConfigSplitCsv, csv_record.
  pose proof (split_loop_spec (S (length (text ++ 0 :: rest))) [] text rest false [0%nat] n Ht
    ltac:(rewrite length_app; lia) Hn) as H.
  cbn [app length] in H. unfold loop_result in H.
  destruct (raw_fields_cons false text) as (f & fs & Ef).
  pose proof (raw_fields_cstring false text Ht) as Hfs. rewrite Ef in *. cbn [length] in *.
  destruct (Nat.leb_spec (1 + S (length fs)) (S n)) as [Hle|Hgt].
  2: { destruct H as (rec & fl & q & ->). bind_step. cbn [EFI_ERROR].
       destruct (Nat.eqb_spec (S (length fs)) n); [lia|]. rewrite orb_true_r. by eexists _, _. }
  rewrite H. clear H. bind_step. cbn [EFI_ERROR app].
  assert (0%nat :: tail (cell_offs 0 (raw_cell <$> f :: fs)) = cell_offs 0 (raw_cell <$> f :: fs))
    as -> by done.
  rewrite length_cell_offs, length_fmap. cbn [length].
  destruct ((raw_fields false text).2 || negb (S (length fs) =? n)%nat); [by eexists _, _|].
  pose proof (split_fields_spec (f :: fs) [] rest [] Hfs) as H. cbn [app length] in H.
  exact H.
Qed.

Lemma cell_at base cs rest i c off :
  cs !! i = Some c -> cell_offs base cs !! i = Some off ->
  exists P Q, render cs ++ rest = P ++ value c ++ 0 :: Q /\ (base + length P)%nat = off.
Proof.
  revert base i. induction cs as [|d cs IH]; intros base i Hc Ho; [done|].
  destruct i as [|i]; cbn [cell_offs lookup list_lookup] in *; simplify_eq.
  - rewrite render_cons, <- app_assoc, cell_bytes_split. by eexists _, _.
  - destruct (IH (base + length (cell_bytes d))%nat i) as (P & Q & E & Hl); [done..|].
    exists (cell_bytes d ++ P), Q. rewrite render_cons, <- !app_assoc, E. split; [done|].
    rewrite length_app. lia.
Qed.

Lemma cell_c_string cs rest i c off :
  cs !! i = Some c -> cell_offs 0 cs !! i = Some off -> cstring (value c) ->
  c_string (render cs ++ rest) off = Some (value c).
Proof.
  intros H1 H2 Hc. destruct (cell_at 0 cs rest i c off H1 H2) as (P & Q & -> & <-).
  by apply c_string_at.
Qed.

Lemma cell_number cs rest i c off v :
  cs !! i = Some c -> cell_offs 0 cs !! i = Some off -> cstring (value c) ->
  MemoryMapConfigParseUint64 (Some (drop off (render cs ++ rest))) (Some v) =
    Some (match number_of (value c) with
          | None => (EFI_COMPROMISED_DATA, Some v) | Some x => (EFI_SUCCESS, Some x) end).
Proof.
  intros H1 H2 Hc. destruct (cell_at 0 cs rest i c off H1 H2) as (P & Q & -> & <-).
  cbn [Nat.add]. rewrite drop_app_length, ParseUint64_eq.
  by rewrite parse_uint64_text_spec by done.
Qed.

Lemma trim_cell A c B rest :
  cstring (value c) ->
  exists c', value c' = trim is_blank (value c) /\ length (cell_bytes c') = length (cell_bytes c) /\
    MemoryMapConfigTrimField (render (A ++ c :: B) ++ rest) (length (render A) + length (gap c)) =
      Some (render (A ++ c' :: B) ++ rest, (length (render A) + length (gap c'))%nat).
Proof.
  intros Hc. rewrite !render_app, render_cons.
  destruct (TrimField_spec (render A ++ gap c) (value c) (slack c ++ render B ++ rest) Hc)
    as (d & Hv & Hl & E).
  exists (mk_cell (gap c ++ gap d) (value d) (slack d ++ slack c)). cbn [value gap].
  assert (length (cell_bytes d) = (length (gap d) + length (value d) + 1 + length (slack d))%nat) as Hd.
  { unfold cell_bytes. rewrite !length_app. cbn. lia. }
  split_and!; [done| |].
  - unfold cell_bytes at 2. unfold cell_bytes at 1. cbn [gap value slack].
    repeat (rewrite length_app; cbn [length]). lia.
  - rewrite <- !app_assoc, cell_bytes_split.
    rewrite length_app in E. rewrite <- app_assoc in E. rewrite E. f_equal. f_equal.
    + rewrite render_app, render_cons. rewrite <- !app_assoc. rewrite !cell_bytes_split.
      cbn [gap value slack]. by rewrite <- !app_assoc.
    + rewrite length_app. lia.
Qed.
End records_in_place.

(** ** The descriptor a record describes *)
Fixpoint keyword {A} (Table : list (list Z * A)) (f : list Z) : option A :=
  match Table with
  | [] => None
  | (n, v) :: Table' =>
      if bool_decide (to_upper <$> f = to_upper <$> n) then Some v else keyword Table' f
  end.

Definition region_name (f : list Z) : option (list Z) :=
  let n := trim is_blank f in
  if (length n =? 0)%nat || (MEMORY_REGION_NAME_MAX_LENGTH <=? length n)%nat then None else Some n.

Definition region_extent (fa fl : list Z) : option (Z * Z) :=
  a ← number_of fa; l ← number_of fl;
  if (l =? 0) || (2 ^ 64 <=? a + l) then None else Some (a, l).

Definition descriptor_of (text : list Z) : option region :=
  vs ← csv_record 8 text;
  match vs with
  | [fa; fl; fn; fh; frt; fra; fmt; farm] =>
      n ← region_name fn;
      '(a, l) ← region_extent fa fl;
      h ← keyword HobOptions fh;
      rt ← keyword ResourceTypes frt;
      ra ← keyword ResourceAttributes fra;
      mt ← keyword MemoryTypes fmt;
      arm ← keyword ArmAttributesTable farm;
      Some (mk_region n a l h rt ra mt arm)
  | _ => None
  end.

Section descriptors.
Context `{BL : BaseLib} `{!BaseLibLaws BL}.

Lemma table_lookup_spec {A} f (T : list (list Z * A)) : table_lookup f T = keyword T f.
Proof.
  induction T as [|[n v] T IH]; [done|]. cbn [table_lookup keyword]. rewrite IH.
  destruct (Z.eqb_spec (AsciiStriCmp f n) 0) as [E|E];
    case_bool_decide as H; try done; exfalso; rewrite <- AsciiStriCmp_law in H; done.
Qed.

Lemma keyword_column_spec {A} (T : list (list Z * A)) set rec f s D :
  c_string rec f = Some s ->
  keyword_column T set rec f D =
    Some (match keyword T s with
          | None => (EFI_COMPROMISED_DATA, D) | Some v => (EFI_SUCCESS, set v D) end).
Proof.
  intros E. unfold keyword_column. rewrite E. bind_step. rewrite table_lookup_spec.
  by destruct (keyword T s).
Qed.

Lemma numeric_columns_spec rec f0 f1 f2 fa fl n :
  c_string rec f2 = Some n ->
  (forall v, MemoryMapConfigParseUint64 (Some (drop f0 rec)) (Some v) =
     Some (match number_of fa with
           | None => (EFI_COMPROMISED_DATA, Some v) | Some x => (EFI_SUCCESS, Some x) end)) ->
  (forall v, MemoryMapConfigParseUint64 (Some (drop f1 rec)) (Some v) =
     Some (match number_of fl with
           | None => (EFI_COMPROMISED_DATA, Some v) | Some x => (EFI_SUCCESS, Some x) end)) ->
  exists D, numeric_columns rec f0 f1 f2 =
    Some (if (length n =? 0)%nat || (MEMORY_REGION_NAME_MAX_LENGTH <=? length n)%nat
          then (EFI_COMPROMISED_DATA, D) else
          match region_extent fa fl with
          | None => (EFI_COMPROMISED_DATA, D)
          | Some (a, l) => (EFI_SUCCESS, set_Name n (set_Length l (set_Address a zero_region)))
          end).
Proof.
  intros En E0 E1. unfold numeric_columns, region_extent. rewrite En. bind_step.
  rewrite AsciiStrLen_law.
  destruct (_ || _); [by eexists|]. rewrite E0. bind_step.
  destruct (number_of fa) as [a|] eqn:Ea; bind_step; cbn [EFI_ERROR]; [|by eexists].
  rewrite E1. bind_step. destruct (number_of fl) as [l|] eqn:El; bind_step; cbn [EFI_ERROR orb];
    [|by eexists].
  apply number_of_range in Ea, El. unfold in_u64 in *.
  rewrite region_wraps_spec by (cbn; lia). cbn [Length set_Length].
  change (End_ (set_Length l (set_Address a zero_region))) with (a + l).
  destruct (_ || _); [by eexists|]. rewrite firstn_all. by exists zero_region.
Qed.

Lemma ParseDescriptor_spec text rest D0 :
  cstring text ->
  match descriptor_of text with
  | Some D => exists rec, MemoryMapConfigParseDescriptor (Some (text ++ 0 :: rest)) (Some D0) =
                Some (EFI_SUCCESS, Some rec, Some D)
  | None => exists rec D, MemoryMapConfigParseDescriptor (Some (text ++ 0 :: rest)) (Some D0) =
                Some (EFI_COMPROMISED_DATA, Some rec, Some D)
  end.
Proof.
  intros Ht. unfold descriptor_of, MemoryMapConfigParseDescriptor.
  pose proof (SplitCsv_spec 8 text rest Ht ltac:(lia)) as H.
  destruct (csv_record 8 text) as [vs|] eqn:Er; bind_step.
  2: { destruct H as (rec & fl & ->). bind_step. by eexists _, _. }
  destruct H as (cs & Hvs & ->). bind_step. cbn [EFI_ERROR].
  pose proof (csv_record_cstring 8 text vs Ht Er) as Hc.
  assert (length vs = 8%nat) as Hlen.
  { unfold csv_record in Er. destruct (_ || _) eqn:E; [done|]. bool_to_prop.
    apply length_mapM in Er. lia. }
  rewrite <- Hvs in Hlen, Hc. rewrite length_fmap in Hlen.
  do 8 (destruct cs as [|? cs]; [done|]). destruct cs; [|done]. clear Hlen.
  cbn [fmap list_fmap] in Hvs, Hc. subst vs.
  rewrite !Forall_cons in Hc. destruct Hc as (C0 & C1 & C2 & C3 & C4 & C5 & C6 & C7 & _).
  destruct (trim_cell [c; c0] c1 [c2; c3; c4; c5; c6] rest C2) as (t & Hv & Hl & E).
  cbn [cell_offs app] in *.
  replace (0 + length (cell_bytes c) + length (cell_bytes c0) + length (gap c1))%nat
    with (length (render [c; c0]) + length (gap c1))%nat
    by (unfold render; cbn; rewrite !length_app; cbn; lia).
  rewrite E. bind_step. clear E.
  set (cs := [c; c0; t; c2; c3; c4; c5; c6]).
  rewrite <- Hl. set (rec := render cs ++ rest).
  assert (cstring (value t)) as Ct by (rewrite Hv; by apply trim_cstring).
  pose proof (fun i c off => cell_c_string cs rest i c off) as Hs.
  pose proof (fun i c off v => cell_number cs rest i c off v) as Hn.
  destruct (numeric_columns_spec rec (0 + length (gap c)) (0 + length (cell_bytes c) + length (gap c0))
    (length (render [c; c0]) + length (gap t)) (value c) (value c0) (value t)) as (D1 & ->).
  { apply (Hs 2%nat); [done| |done]. cbn. f_equal. unfold render. cbn.
    rewrite app_nil_r, length_app. lia. }
  { intros v. by apply (Hn 0%nat). }
  { intros v. by apply (Hn 1%nat). }
  bind_step. unfold region_name. rewrite <- Hv.
  destruct (_ || _); bind_step; cbn [EFI_ERROR]; [by eexists _, _|].
  destruct (region_extent (value c) (value c0)) as [[a l]|]; bind_step; cbn [EFI_ERROR]; [|by eexists _, _].
  rewrite (keyword_column_spec HobOptions _ _ _ (value c2)) by (by apply (Hs 3%nat)).
  destruct (keyword HobOptions _); bind_step; cbn [EFI_ERROR]; [|by eexists _, _].
  rewrite (keyword_column_spec ResourceTypes _ _ _ (value c3)) by (by apply (Hs 4%nat)).
  destruct (keyword ResourceTypes _); bind_step; cbn [EFI_ERROR]; [|by eexists _, _].
  rewrite (keyword_column_spec ResourceAttributes _ _ _ (value c4)) by (by apply (Hs 5%nat)).
  destruct (keyword ResourceAttributes _); bind_step; cbn [EFI_ERROR]; [|by eexists _, _].
  rewrite (keyword_column_spec MemoryTypes _ _ _ (value c5)) by (by apply (Hs 6%nat)).
  destruct (keyword MemoryTypes _); bind_step; cbn [EFI_ERROR]; [|by eexists _, _].
  rewrite (keyword_column_spec ArmAttributesTable _ _ _ (value c6)) by (by apply (Hs 7%nat)).
  destruct (keyword ArmAttributesTable _); bind_step; [|by eexists _, _].
  by eexists.
Qed.
End descriptors.

(** ** Loading a section *)
(** The records of a section, and how the scan ends. *)
Fixpoint records_of_lines (sec : list Z) (inreq : bool) (ls : list (list Z))
  : list (list Z) * EFI_STATUS :=
  match ls with
  | [] => ([], EFI_NOT_FOUND)
  | l :: ls' =>
      match parse_line l with
      | LBlank => records_of_lines sec inreq ls'
      | LMalformed => ([], EFI_COMPROMISED_DATA)
      | LSection nm => records_of_lines sec (name_eq nm sec) ls'
      | LText t =>
          if inreq then
            match spaces_trimmed (before_comment t) with
            | [] => records_of_lines sec inreq ls'
            | e => let r := records_of_lines sec inreq ls' in (e :: r.1, r.2)
            end
          else records_of_lines sec inreq ls'
      end
  end.
Definition section_records (sec text : list Z) : list (list Z) * EFI_STATUS :=
  if has_nul text then ([], EFI_COMPROMISED_DATA)
  else records_of_lines sec (is_empty sec) (split_lines text).

(** What loading the records [es] adds to the regions [out]. *)
Fixpoint load_list (cap init : nat) (es : list (list Z)) (ending : EFI_STATUS) (out : list region)
  : EFI_STATUS * list region :=
  match es with
  | [] =>
      (if bool_decide (ending = EFI_NOT_FOUND)
       then if (length out =? init)%nat then EFI_NOT_FOUND else EFI_SUCCESS else ending, out)
  | e :: es' =>
      if (MEMORY_MAP_CONFIG_ENTRY_SIZE <? S (length e))%nat then (EFI_BUFFER_TOO_SMALL, out) else
      match descriptor_of e with
      | None => (EFI_COMPROMISED_DATA, out)
      | Some d => if (cap <=? length out)%nat then (EFI_OUT_OF_RESOURCES, out)
                  else load_list cap init es' ending (out ++ [d])
      end
  end.

Lemma records_of_lines_nth sec inreq ls n :
  entry_of_lines sec n inreq ls =
    match (records_of_lines sec inreq ls).1 !! n with
    | Some e => (EFI_SUCCESS, e)
    | None => ((records_of_lines sec inreq ls).2, [])
    end.
Proof.
  revert n inreq. induction ls as [|l ls IH]; intros n inreq; [done|].
  cbn [entry_of_lines records_of_lines]. destruct (parse_line l); try done.
  destruct inreq; [|done]. destruct (spaces_trimmed (before_comment content)); [done|].
  cbn [fst snd]. destruct n as [|n]; [done|]. apply IH.
Qed.

Lemma records_of_lines_ok sec inreq ls :
  Forall cstring ls ->
  Forall cstring (records_of_lines sec inreq ls).1 /\
  (length (records_of_lines sec inreq ls).1 <= length ls)%nat /\
  EFI_ERROR (records_of_lines sec inreq ls).2 = true.
Proof.
  intros Hls. revert inreq. induction Hls as [|l ls Hl _ IH]; intros inreq; cbn [records_of_lines].
  { by repeat constructor. }
  destruct (parse_line l) eqn:El; cbn [length].
  - destruct (IH inreq) as (? & ? & ?). split_and!; [done|lia|done].
  - split_and!; [constructor|cbn; lia|done].
  - destruct (IH (name_eq name sec)) as (? & ? & ?). split_and!; [done|lia|done].
  - destruct (IH inreq) as (? & ? & ?). destruct inreq; [|split_and!; [done|lia|done]].
    destruct (spaces_trimmed (before_comment content)) eqn:Ee; [split_and!; [done|lia|done]|].
    cbn [fst snd length]. split_and!; [|lia|done]. constructor; [|done]. rewrite <- Ee.
    apply Forall_trim, Forall_before_comment. by eapply parse_line_text.
Qed.

Lemma length_split_lines l : (length (split_lines l) <= length l)%nat.
Proof.
  induction l as [|c l IH]; [done|]. cbn [split_lines length].
  destruct (c =? newline); cbn [length]; [lia|]. destruct (split_lines l); cbn [length] in *; lia.
Qed.

Lemma section_records_ok sec text :
  Forall cstring (section_records sec text).1 /\
  (length (section_records sec text).1 <= length text)%nat /\
  EFI_ERROR (section_records sec text).2 = true.
Proof.
  unfold section_records. destruct (has_nul text) eqn:E; [split_and!; [constructor|cbn; lia|done]|].
  destruct (records_of_lines_ok sec (is_empty sec) (split_lines text)) as (? & ? & ?).
  { apply Forall_split_lines. unfold has_nul in E. apply bool_decide_eq_false in E.
    apply Forall_forall. intros x Hx ->. done. }
  pose proof (length_split_lines text). split_and!; [done|lia|done].
Qed.

Lemma section_records_nth sec text n :
  entry_text sec n text =
    match (section_records sec text).1 !! n with
    | Some e => (EFI_SUCCESS, e)
    | None => ((section_records sec text).2, [])
    end.
Proof.
  unfold entry_text, section_records. destruct (has_nul text); [done|]. apply records_of_lines_nth.
Qed.

Section loading.
Context `{BL : BaseLib} `{!BaseLibLaws BL}.
Context (g : boot_config) (text : list Z) (Hg : serves g text).
Context (RecordStack : list Z) (Hstack : length RecordStack = MEMORY_MAP_CONFIG_ENTRY_SIZE).
Context (sec : list Z) (Hsec : cstring sec).

Lemma ReadDescriptor_spec n D0 :
  exists D, MemoryMapConfigReadDescriptor g RecordStack sec n D0 =
    Some (match (section_records sec text).1 !! n with
          | None => ((section_records sec text).2, D)
          | Some e =>
              if (MEMORY_MAP_CONFIG_ENTRY_SIZE <? S (length e))%nat then (EFI_BUFFER_TOO_SMALL, D) else
              match descriptor_of e with
              | None => (EFI_COMPROMISED_DATA, D)
              | Some d => (EFI_SUCCESS, d)
              end
          end).
Proof.
  unfold MemoryMapConfigReadDescriptor.
  rewrite (section_entry_read_spec g text) by (auto; cbn [buffer_size]; lia).
  rewrite section_records_nth. bind_step.
  destruct (section_records_ok sec text) as (Hc & _ & He).
  destruct ((section_records sec text).1 !! n) as [e|] eqn:E.
  2: { unfold deliver. cbn [fst snd]. rewrite He. cbn iota. rewrite He. by eexists. }
  unfold deliver. cbn [fst snd EFI_ERROR].
  destruct (_ <? _)%nat; cbn [EFI_ERROR]; [by eexists|].
  cbn [fmap option_fmap option_map]. 
  pose proof (ParseDescriptor_spec e (drop (S (length e)) RecordStack) D0) as H.
  rewrite Forall_lookup in Hc. specialize (H (Hc n e E)).
  destruct (descriptor_of e) as [d|].
  - destruct H as (rec & Hp). cbn [app]. rewrite Hp. bind_step. by exists D0.
  - destruct H as (rec & d & Hp). cbn [app]. rewrite Hp. bind_step. by exists d.
Qed.

Lemma load_section_loop_spec fuel n ds out cap init :
  (length (drop n (section_records sec text).1) < fuel)%nat ->
  (cap <= length ds)%nat -> (length out <= length ds)%nat ->
  load_section_loop fuel g RecordStack sec n (out ++ drop (length out) ds) cap init (length out) =
    let r := load_list cap init (drop n (section_records sec text).1) (section_records sec text).2 out in
    Some (r.1, r.2 ++ drop (length r.2) ds, length r.2).
Proof.
  destruct (section_records_ok sec text) as (_ & _ & He).
  set (es := (section_records sec text).1).
  revert n out. induction fuel as [|fuel IH]; intros n out Hf Hcap Hout; [lia|].
  cbn [load_section_loop]. destruct (ReadDescriptor_spec n zero_region) as (D & ->). bind_step. fold es.
  destruct (es !! n) as [e|] eqn:E.
  2: { rewrite (drop_ge es) by (by apply lookup_ge_None). cbn [load_list fst snd]. case_bool_decide; [done|].
       by rewrite He. }
  rewrite (drop_S _ _ _ E) in Hf |- *. cbn [load_list length] in *.
  destruct (_ <? _)%nat; [done|]. destruct (descriptor_of e) as [d|]; [|done].
  cbn [EFI_ERROR]. rewrite bool_decide_false by done.
  destruct (Nat.leb_spec cap (length out)); [done|].
  rewrite length_app, length_drop.
  destruct (Nat.leb_spec (length out + (length ds - length out)) (length out)); [lia|].
  assert (<[length out := d]> (out ++ drop (length out) ds)
          = (out ++ [d]) ++ drop (length (out ++ [d])) ds) as ->.
  { destruct (lookup_lt_is_Some_2 ds (length out)) as [x Hx]; [lia|].
    rewrite (drop_S _ _ _ Hx). rewrite insert_app_r_alt, Nat.sub_diag by lia.
    rewrite length_app, Nat.add_1_r, <- app_assoc. done. }
  replace (S (length out)) with (length (out ++ [d])) by (rewrite length_app; cbn; lia).
  apply IH; [lia|done|]. rewrite length_app. cbn. lia.
Qed.

Lemma load_section_spec fuel ds cap n :
  (length text < fuel)%nat -> (cap <= length ds)%nat -> (n <= length ds)%nat ->
  MemoryMapConfigLoadDescriptorSection fuel g RecordStack (Some sec) (Some ds) cap (Some n) =
    let r := load_list cap n (section_records sec text).1 (section_records sec text).2 (take n ds) in
    Some (r.1, Some (r.2 ++ drop (length r.2) ds), Some (length r.2)).
Proof.
  intros Hf Hc Hn. unfold MemoryMapConfigLoadDescriptorSection.
  pose proof (load_section_loop_spec fuel 0 ds (take n ds) cap n) as H.
  rewrite drop_0, length_take_le, take_drop in H by lia.
  destruct (section_records_ok sec text) as (_ & Hl & _).
  rewrite H by lia. done.
Qed.
End loading.

(** ** Properties of the record reader *)
Lemma descriptor_of_ok text d : descriptor_of text = Some d -> region_ok d.
Proof.
  unfold descriptor_of. destruct (csv_record 8 text) as [vs|]; [|done]. bind_step.
  do 8 (destruct vs as [|? vs]; [done|]). destruct vs; [|done].
  destruct (region_name l1) as [n|]; [|done]. bind_step.
  destruct (region_extent l l0) as [[a m]|] eqn:E; [|done]. bind_step.
  destruct (keyword HobOptions l2) as [h|]; [|done]. bind_step.
  destruct (keyword ResourceTypes l3) as [rt|]; [|done]. bind_step.
  destruct (keyword ResourceAttributes l4) as [ra|]; [|done]. bind_step.
  destruct (keyword MemoryTypes l5) as [mt|]; [|done]. bind_step.
  destruct (keyword ArmAttributesTable l6) as [arm|]; [|done]. bind_step. intros [= <-].
  unfold region_extent in E. destruct (number_of l) as [a'|] eqn:Ea; [|done].
  destruct (number_of l0) as [m'|] eqn:Em; [|done]. revert E. bind_step.
  destruct (_ || _) eqn:Eg; [done|]. intros [= <- <-].
  apply number_of_range in Ea, Em. bool_to_prop. unfold in_u64, region_ok, End_ in *. cbn. lia.
Qed.

Lemma load_list_ok cap init es ending out :
  Forall region_ok out -> Forall region_ok (load_list cap init es ending out).2.
Proof.
  revert out. induction es as [|e es IH]; intros out Ho; [done|]. cbn [load_list].
  destruct (_ <? _)%nat; [done|]. destruct (descriptor_of e) as [d|] eqn:E; [|done].
  destruct (cap <=? length out)%nat; [done|]. apply IH, Forall_app. split; [done|].
  apply Forall_singleton. by eapply descriptor_of_ok.
Qed.

Definition ArmAttributes_text : list Z := bytes "WRITE_BACK_XN".
Definition sample_record : list Z :=
  bytes "0x80000000, 4096, " ++ [dquote] ++ bytes "Low, RAM" ++ [dquote] ++
  bytes ", addmem, SYS_MEM, SYS_MEM_CAP, Conv, " ++ ArmAttributes_text.
Definition sample_region : region :=
  mk_region (bytes "Low, RAM") 0x80000000 4096 AddMem EFI_RESOURCE_SYSTEM_MEMORY SYS_MEM_CAP
    EfiConventionalMemory ARM_MEMORY_REGION_ATTRIBUTE_WRITE_BACK.

(** C12: on a NUL-terminated record anywhere in its buffer,
    [MemoryMapConfigParseDescriptor] terminates, stays inside the buffer while it
    splits, trims and unquotes in place, and succeeds exactly on the records the
    abstract reader [descriptor_of] gives a descriptor (eight fields, balanced
    quotes, numbers that denote a non-empty region below the address limit, a
    name of 1 to 31 characters, five known keywords without case), with that
    descriptor; any other record is compromised. *)
Theorem MemoryMapConfigParseDescriptor_refines (BL : BaseLib) (L : BaseLibLaws BL) text rest D0 :
  cstring text ->
  match descriptor_of text with
  | Some D => exists rec, MemoryMapConfigParseDescriptor (Some (text ++ 0 :: rest)) (Some D0) =
                Some (EFI_SUCCESS, Some rec, Some D)
  | None => exists rec D, MemoryMapConfigParseDescriptor (Some (text ++ 0 :: rest)) (Some D0) =
                Some (EFI_COMPROMISED_DATA, Some rec, Some D)
  end.
Proof. apply ParseDescriptor_spec. Qed.

Lemma MemoryMapConfigParseDescriptor_refines_witness :
  exists rec, @MemoryMapConfigParseDescriptor reference_BaseLib
    (Some (sample_record ++ [0])) (Some zero_region) = Some (EFI_SUCCESS, Some rec, Some sample_region).
Proof.
  assert (descriptor_of sample_record = Some sample_region) as E by (by vm_compute).
  pose proof (MemoryMapConfigParseDescriptor_refines reference_BaseLib reference_BaseLib_laws
    sample_record [] zero_region) as H.
  rewrite E in H. apply H. vm_compute. by repeat constructor.
Defined.

(** Loading a section terminates (a fuel above the length of the text is
    enough) and appends to the array exactly the descriptors of the section's
    records in order, up to the first record that is too long, malformed or
    beyond the capacity, with the status the abstract loader gives: not found for
    an empty section, success at its end, or the error of that record. *)
Theorem MemoryMapConfigLoadDescriptorSection_refines (BL : BaseLib) (L : BaseLibLaws BL)
    g text RecordStack sec fuel ds cap n :
  serves g text -> length RecordStack = MEMORY_MAP_CONFIG_ENTRY_SIZE -> cstring sec ->
  (length text < fuel)%nat -> (cap <= length ds)%nat -> (n <= length ds)%nat ->
  MemoryMapConfigLoadDescriptorSection fuel g RecordStack (Some sec) (Some ds) cap (Some n) =
    let r := load_list cap n (section_records sec text).1 (section_records sec text).2 (take n ds) in
    Some (r.1, Some (r.2 ++ drop (length r.2) ds), Some (length r.2)).
Proof. intros. by apply load_section_spec. Qed.

Definition sample_map_text : list Z :=
  bytes "[MemoryMap]" ++ [newline] ++ sample_record ++ [newline] ++ sample_record ++ [newline] ++
  bytes "bad record".
Definition sample_map_config : boot_config :=
  mk_boot_config (Some sample_map_text) (length sample_map_text) None.
Lemma sample_map_serves : serves sample_map_config sample_map_text.
Proof.
  rewrite <- (firstn_all sample_map_text) at 1.
  apply serves_buffer; [split; [apply Nat.ltb_lt|apply Nat.leb_le]; by vm_compute|vm_compute; discriminate].
Defined.

Lemma MemoryMapConfigLoadDescriptorSection_refines_witness :
  @MemoryMapConfigLoadDescriptorSection reference_BaseLib 300 sample_map_config (repeat 7 512)
    (Some (bytes "memorymap")) (Some (repeat zero_region 4)) 3 (Some 0%nat) =
  Some (EFI_COMPROMISED_DATA, Some [sample_region; sample_region; zero_region; zero_region], Some 2%nat).
Proof.
  rewrite (MemoryMapConfigLoadDescriptorSection_refines reference_BaseLib reference_BaseLib_laws
    sample_map_config sample_map_text).
  - by vm_compute.
  - apply sample_map_serves.
  - by vm_compute.
  - vm_compute. by repeat constructor.
  - apply Nat.ltb_lt. by vm_compute.
  - vm_compute. lia.
  - lia.
Defined.

(** A result without fault whose counted regions are well-formed. *)
Definition valid_result (r : option (EFI_STATUS * option (list region) * option nat)) : Prop :=
  exists st ds n, r = Some (st, Some ds, Some n) /\ Forall region_ok (take n ds).

(** Every region a load leaves in the array is non-empty and ends below the
    address limit, whatever the status, if those before the call were. *)
Theorem MemoryMapConfigLoadDescriptorSection_valid (BL : BaseLib) (L : BaseLibLaws BL)
    g text RecordStack sec fuel ds cap n :
  serves g text -> length RecordStack = MEMORY_MAP_CONFIG_ENTRY_SIZE -> cstring sec ->
  (length text < fuel)%nat -> (cap <= length ds)%nat -> (n <= length ds)%nat ->
  Forall region_ok (take n ds) ->
  valid_result
    (MemoryMapConfigLoadDescriptorSection fuel g RecordStack (Some sec) (Some ds) cap (Some n)).
Proof.
  intros Hg Hst Hsec Hf Hc Hn Hok. rewrite (load_section_spec g text) by done.
  eexists _, _, _. split; [done|]. rewrite take_app_length. by apply load_list_ok.
Qed.

Lemma MemoryMapConfigLoadDescriptorSection_valid_witness :
  valid_result (@MemoryMapConfigLoadDescriptorSection reference_BaseLib 300 sample_map_config
    (repeat 7 512) (Some (bytes "memorymap")) (Some [sample_region; zero_region]) 2 (Some 1%nat)).
Proof.
  apply (MemoryMapConfigLoadDescriptorSection_valid reference_BaseLib reference_BaseLib_laws
    sample_map_config sample_map_text).
  - apply sample_map_serves.
  - by vm_compute.
  - vm_compute. by repeat constructor.
  - apply Nat.ltb_lt. by vm_compute.
  - vm_compute. lia.
  - vm_compute. lia.
  - apply Forall_singleton. repeat split; vm_compute; done.
Defined.
