(* ===== verification/MemoryMap.v ===== *)
(** * AndromedaMemoryMapLib: the platform memory map.

    [Platforms/AndromedaPkg/Library/AndromedaMemoryMapLib/AndromedaMemoryMapLib.c],
    its client [QcomUefiPlatMemoryMapHelperLib.c] and the bank tables of the two
    [PlatformDdrBankMapLib.c].  The library's static variables are the fields of
    [memory_map_state]. *)
From stdpp Require Import base numbers list option strings.
From Stdlib Require Import ZArith Lia Ascii.
From S2P Require Import Prelude BaseLib BootConfig MemoryMapConfig.
Local Open Scope Z_scope.

Definition MAX_ARM_MEMORY_REGION_DESCRIPTOR_COUNT : nat := 128.

Record memory_map_state := mk_memory_map {
  gDeviceMemoryDescriptorEx : list ARM_MEMORY_REGION_DESCRIPTOR_EX;
  gPStoreWorkspace : list ARM_MEMORY_REGION_DESCRIPTOR_EX;
  gMemoryMapLoaded : bool;
  gMemoryMapLoadStatus : EFI_STATUS;
  gMergedMemoryDescriptorEx : list ARM_MEMORY_REGION_DESCRIPTOR_EX
}.

Definition memory_map_init : memory_map_state :=
  mk_memory_map (repeat zero_region MAX_ARM_MEMORY_REGION_DESCRIPTOR_COUNT)
    (repeat zero_region MAX_ARM_MEMORY_REGION_DESCRIPTOR_COUNT) false EFI_NOT_READY
    (repeat zero_region MAX_ARM_MEMORY_REGION_DESCRIPTOR_COUNT).

Definition gRamPartitionTemplate : ARM_MEMORY_REGION_DESCRIPTOR_EX :=
  mk_region (bytes "RAM Partition") 0 0 AddMem EFI_RESOURCE_SYSTEM_MEMORY SYS_MEM_CAP
    EfiConventionalMemory ARM_MEMORY_REGION_ATTRIBUTE_WRITE_BACK.
Definition gMemoryMapTerminator : ARM_MEMORY_REGION_DESCRIPTOR_EX :=
  set_Name (bytes "Terminator") zero_region.

Definition set_device (ds : list ARM_MEMORY_REGION_DESCRIPTOR_EX) (s : memory_map_state) :=
  mk_memory_map ds (gPStoreWorkspace s) (gMemoryMapLoaded s) (gMemoryMapLoadStatus s)
    (gMergedMemoryDescriptorEx s).
Definition set_workspace (ws : list ARM_MEMORY_REGION_DESCRIPTOR_EX) (s : memory_map_state) :=
  mk_memory_map (gDeviceMemoryDescriptorEx s) ws (gMemoryMapLoaded s) (gMemoryMapLoadStatus s)
    (gMergedMemoryDescriptorEx s).
Definition set_merged (ds : list ARM_MEMORY_REGION_DESCRIPTOR_EX) (s : memory_map_state) :=
  mk_memory_map (gDeviceMemoryDescriptorEx s) (gPStoreWorkspace s) (gMemoryMapLoaded s)
    (gMemoryMapLoadStatus s) ds.

(** ** The banks of the platforms *)
Definition gDdrBankRegionsEV : list PLATFORM_DDR_BANK_REGION :=
  [mk_bank 0x80000000 0x39300000; mk_bank 0xB9900000 0x01E00000; mk_bank 0xC0000000 0x1C0000000].
Definition gDdrBankRegionsDV : list PLATFORM_DDR_BANK_REGION :=
  [mk_bank 0x80000000 0x39700000; mk_bank 0xB9D00000 0x01E00000; mk_bank 0xC0000000 0x1C0000000].
Definition gDdrBankRegions_Sm8150 : list PLATFORM_DDR_BANK_REGION :=
  [mk_bank 0x80000000 0x3CC00000; mk_bank 0xC0000000 0x80000000; mk_bank 0x140000000 0xC0000000].

(** [OutPointers]: both out-parameters are not NULL.  [BoardID] is the field of
    the HOB at [XBL_HLOS_HOB_ADDRESS]. *)
Definition GetPlatformDdrBankRegions_Sm8350 (BoardID : Z) (OutPointers : bool)
  : EFI_STATUS * list PLATFORM_DDR_BANK_REGION :=
  if negb OutPointers then (EFI_INVALID_PARAMETER, []) else
  (EFI_SUCCESS, if BoardID <? 0xA then gDdrBankRegionsEV else gDdrBankRegionsDV).
Definition GetPlatformDdrBankRegions_Sm8150 (OutPointers : bool)
  : EFI_STATUS * list PLATFORM_DDR_BANK_REGION :=
  if negb OutPointers then (EFI_INVALID_PARAMETER, []) else (EFI_SUCCESS, gDdrBankRegions_Sm8150).

(** ** Merging the configured regions with the banks *)
Definition DescriptorOverlapsRegion (Descriptor : ARM_MEMORY_REGION_DESCRIPTOR_EX)
    (Region : PLATFORM_DDR_BANK_REGION) : bool :=
  (Address Descriptor <? u64 (Base Region + BankLength Region)) &&
  (Base Region <? u64 (Address Descriptor + Length Descriptor)).

(** The merged array so far: its first [Count] regions. *)
Definition AppendDescriptor (out : list ARM_MEMORY_REGION_DESCRIPTOR_EX)
    (Descriptor : ARM_MEMORY_REGION_DESCRIPTOR_EX) : EFI_STATUS * list ARM_MEMORY_REGION_DESCRIPTOR_EX :=
  if (MAX_ARM_MEMORY_REGION_DESCRIPTOR_COUNT - 1 <=? length out)%nat
  then (EFI_OUT_OF_RESOURCES, out) else (EFI_SUCCESS, out ++ [Descriptor]).

Definition AppendRamPartition (out : list ARM_MEMORY_REGION_DESCRIPTOR_EX) (Base_ Length_ : Z)
  : EFI_STATUS * list ARM_MEMORY_REGION_DESCRIPTOR_EX :=
  if (MAX_ARM_MEMORY_REGION_DESCRIPTOR_COUNT - 1 <=? length out)%nat
  then (EFI_OUT_OF_RESOURCES, out)
  else (EFI_SUCCESS, out ++ [set_Length Length_ (set_Address Base_ gRamPartitionTemplate)]).

(** The inner loop over the configured regions for one bank. *)
Fixpoint merge_region (ds : list ARM_MEMORY_REGION_DESCRIPTOR_EX) (Region : PLATFORM_DDR_BANK_REGION)
    (Cursor : Z) (out : list ARM_MEMORY_REGION_DESCRIPTOR_EX)
  : option (EFI_STATUS * list ARM_MEMORY_REGION_DESCRIPTOR_EX * Z) :=
  match ds with
  | [] => fault
  | Descriptor :: ds' =>
      if Length Descriptor =? 0 then Some (EFI_SUCCESS, out, Cursor) else
      let DescriptorEnd := u64 (Address Descriptor + Length Descriptor) in
      if negb (DescriptorOverlapsRegion Descriptor Region) then merge_region ds' Region Cursor out else
      let '(Status, out) :=
        if Cursor <? Address Descriptor
        then AppendRamPartition out Cursor (u64 (Address Descriptor - Cursor))
        else (EFI_SUCCESS, out) in
      if EFI_ERROR Status then Some (Status, out, Cursor) else
      let '(Status, out) := AppendDescriptor out Descriptor in
      if EFI_ERROR Status then Some (Status, out, Cursor) else
      merge_region ds' Region (if Cursor <? DescriptorEnd then DescriptorEnd else Cursor) out
  end.

(** The outer loop over the banks. *)
Fixpoint merge_regions (ds : list ARM_MEMORY_REGION_DESCRIPTOR_EX)
    (Regions : list PLATFORM_DDR_BANK_REGION) (out : list ARM_MEMORY_REGION_DESCRIPTOR_EX)
  : option (EFI_STATUS * list ARM_MEMORY_REGION_DESCRIPTOR_EX) :=
  match Regions with
  | [] => Some (EFI_SUCCESS, out)
  | Region :: Regions' =>
      '(Status, out, Cursor) ← merge_region ds Region (Base Region) out;
      if EFI_ERROR Status then Some (Status, out) else
      let RegionEnd := u64 (Base Region + BankLength Region) in
      let '(Status, out) :=
        if Cursor <? RegionEnd then AppendRamPartition out Cursor (u64 (RegionEnd - Cursor))
        else (EFI_SUCCESS, out) in
      if EFI_ERROR Status then Some (Status, out) else merge_regions ds Regions' out
  end.

(** The last loop: the regions outside every bank. *)
Fixpoint merge_outside (ds : list ARM_MEMORY_REGION_DESCRIPTOR_EX)
    (Regions : list PLATFORM_DDR_BANK_REGION) (out : list ARM_MEMORY_REGION_DESCRIPTOR_EX)
  : option (EFI_STATUS * list ARM_MEMORY_REGION_DESCRIPTOR_EX) :=
  match ds with
  | [] => fault
  | Descriptor :: ds' =>
      if Length Descriptor =? 0 then Some (EFI_SUCCESS, out) else
      if existsb (DescriptorOverlapsRegion Descriptor) Regions then merge_outside ds' Regions out else
      let '(Status, out) := AppendDescriptor out Descriptor in
      if EFI_ERROR Status then Some (Status, out) else merge_outside ds' Regions out
  end.

(** The merged array in memory, its first regions being [out]. *)
Definition store_merged (out : list ARM_MEMORY_REGION_DESCRIPTOR_EX) (s : memory_map_state) :=
  set_merged (out ++ drop (length out) (gMergedMemoryDescriptorEx s)) s.

Definition MergeDdrBankRegions (Regions : list PLATFORM_DDR_BANK_REGION) (s : memory_map_state)
  : option (EFI_STATUS * memory_map_state * option (list ARM_MEMORY_REGION_DESCRIPTOR_EX)) :=
  let ds := gDeviceMemoryDescriptorEx s in
  '(Status, out) ← merge_regions ds Regions [];
  if EFI_ERROR Status then Some (Status, store_merged out s, None) else
  '(Status, out) ← merge_outside ds Regions out;
  if EFI_ERROR Status then Some (Status, store_merged out s, None) else
  if (length (gMergedMemoryDescriptorEx s) <=? length out)%nat then fault else
  let s' := store_merged (out ++ [gMemoryMapTerminator]) s in
  Some (EFI_SUCCESS, s', Some (gMergedMemoryDescriptorEx s')).

(** ** Loading *)
Section load.
Context `{BaseLib}.
(** The build option, the configuration, the initial content of the locals of the
    readers, the platform's banks and the fuel of the section loops. *)
Context (USE_MEMORY_FOR_SERIAL_OUTPUT : bool).
Context (g : boot_config) (RecordStack Stack : list Z).
Context (GetPlatformDdrBankRegions : bool -> EFI_STATUS * list PLATFORM_DDR_BANK_REGION).
Context (fuel : nat).

(** One call of [MemoryMapConfigLoadDescriptorSection] on the device array. *)
Definition load_device_section (Section_ : list Z) (ConfiguredCount : nat) (s : memory_map_state)
  : option (EFI_STATUS * nat * memory_map_state) :=
  '(Status, ds, Count) ←
    MemoryMapConfigLoadDescriptorSection fuel g RecordStack (Some Section_)
      (Some (gDeviceMemoryDescriptorEx s)) (MAX_ARM_MEMORY_REGION_DESCRIPTOR_COUNT - 1)
      (Some ConfiguredCount);
  ds ← ds; Count ← Count;
  Some (Status, Count, set_device ds s).

(** The two PStore blocks under the build option. *)
Definition load_pstore (ConfiguredCount : nat) (s : memory_map_state)
  : option (EFI_STATUS * nat * memory_map_state) :=
  '(Status, PStore) ← MemoryMapConfigLoadPStoreDescriptor g Stack (Some zero_region);
  if EFI_ERROR Status then Some (Status, ConfiguredCount, s) else
  '(Status, ds, Count, ws) ←
    MemoryMapConfigOverlayDescriptor false (Some (gDeviceMemoryDescriptorEx s)) (Some ConfiguredCount)
      (MAX_ARM_MEMORY_REGION_DESCRIPTOR_COUNT - 1) PStore (Some (gPStoreWorkspace s));
  ds ← ds; Count ← Count; ws ← ws;
  Some (Status, Count, set_workspace ws (set_device ds s)).

Definition validate_pstore (ConfiguredCount : nat) (s : memory_map_state) : option EFI_STATUS :=
  let '(Status, banks) := GetPlatformDdrBankRegions true in
  if EFI_ERROR Status then Some Status else
  MemoryMapConfigValidatePStorePlacement (Some (gDeviceMemoryDescriptorEx s)) ConfiguredCount
    (Some banks) (length banks).

Definition LoadPlatformMemoryMap (s : memory_map_state) : option (EFI_STATUS * memory_map_state) :=
  '(Status, ConfiguredCount, s) ← load_device_section (bytes "MemoryMap") 0 s;
  if EFI_ERROR Status then Some (Status, s) else
  '(Status, ConfiguredCount, s) ←
    (if USE_MEMORY_FOR_SERIAL_OUTPUT then load_pstore ConfiguredCount s
     else Some (EFI_SUCCESS, ConfiguredCount, s));
  if EFI_ERROR Status then Some (Status, s) else
  '(Status, ConfiguredCount, s) ← load_device_section (bytes "RegisterMap") ConfiguredCount s;
  if EFI_ERROR Status then Some (Status, s) else
  if (ConfiguredCount =? 0)%nat then Some (EFI_NOT_FOUND, s) else
  if (length (gDeviceMemoryDescriptorEx s) <=? ConfiguredCount)%nat then fault else
  let s := set_device (<[ConfiguredCount := gMemoryMapTerminator]> (gDeviceMemoryDescriptorEx s)) s in
  if USE_MEMORY_FOR_SERIAL_OUTPUT then
    Status ← validate_pstore ConfiguredCount s; Some (Status, s)
  else Some (EFI_SUCCESS, s).

Definition EnsurePlatformMemoryMapLoaded (s : memory_map_state) : option (EFI_STATUS * memory_map_state) :=
  if gMemoryMapLoaded s then Some (gMemoryMapLoadStatus s, s) else
  '(Status, s) ← LoadPlatformMemoryMap s;
  Some (Status, mk_memory_map (gDeviceMemoryDescriptorEx s) (gPStoreWorkspace s)
                  (gMemoryMapLoaded s || negb (bool_decide (Status = EFI_NOT_FOUND))) Status
                  (gMergedMemoryDescriptorEx s)).

(** The returned pointer is the memory from it on; the failing path asserts in a
    debug build, which is not modelled. *)
Definition GetPlatformMemoryMap (s : memory_map_state)
  : option (list ARM_MEMORY_REGION_DESCRIPTOR_EX * memory_map_state) :=
  '(Status, s) ← EnsurePlatformMemoryMapLoaded s;
  if EFI_ERROR Status then Some ([gMemoryMapTerminator], s) else
  let '(Status, banks) := GetPlatformDdrBankRegions true in
  if EFI_ERROR Status then Some ([gMemoryMapTerminator], s) else
  '(Status, s, MemoryMap) ← MergeDdrBankRegions banks s;
  if EFI_ERROR Status then Some ([gMemoryMapTerminator], s) else
  MemoryMap ← MemoryMap;
  Some (MemoryMap, s).

(** ** The lookups of [QcomUefiPlatMemoryMapHelperLib.c] *)
Fixpoint locate (P : ARM_MEMORY_REGION_DESCRIPTOR_EX -> bool)
    (ds : list ARM_MEMORY_REGION_DESCRIPTOR_EX) : option (EFI_STATUS * option ARM_MEMORY_REGION_DESCRIPTOR_EX) :=
  match ds with
  | [] => fault
  | d :: ds' => if Length d =? 0 then Some (EFI_NOT_FOUND, None)
                else if P d then Some (EFI_SUCCESS, Some d) else locate P ds'
  end.

Definition QcomLocateMemoryMapAreaByName (MemoryMapAreaName : list Z) (s : memory_map_state) :=
  '(ds, s) ← GetPlatformMemoryMap s;
  r ← locate (fun d => AsciiStriCmp MemoryMapAreaName (Name d) =? 0) ds;
  Some (r, s).
Definition QcomLocateMemoryMapAreaByAddress (MemoryMapAreaAddress : Z) (s : memory_map_state) :=
  '(ds, s) ← GetPlatformMemoryMap s;
  r ← locate (fun d => Address d =? MemoryMapAreaAddress) ds;
  Some (r, s).
End load.
