(* ===== verification/MergeSpec.v ===== *)
(** * The merged platform map: every address of a bank has an owner.

    Refinement of the merge loops of [AndromedaMemoryMapLib.c] by lists of pieces,
    the ownership theorem, and the placement of the PStore region. *)
From stdpp Require Import base numbers list option strings sorting.
From Stdlib Require Import ZArith Lia Ascii.
From S2P Require Import Prelude BaseLib BootConfig BootConfigSpec MemoryMapConfig MemoryMapSpec CsvSpec MemoryMap.
Local Open Scope Z_scope.

Abbreviation bank := PLATFORM_DDR_BANK_REGION.
Definition bank_end (r : bank) : Z := Base r + BankLength r.
Definition bank_ok (r : bank) : Prop := 0 <= Base r /\ 0 < BankLength r /\ bank_end r < 2 ^ 64.
Definition bank_covers (a : Z) (r : bank) : bool := (Base r <=? a) && (a <? bank_end r).
Definition overlaps (r : bank) (d : region) : bool := (Address d <? bank_end r) && (Base r <? End_ d).

Lemma DescriptorOverlapsRegion_spec d r :
  region_ok d -> bank_ok r -> DescriptorOverlapsRegion d r = overlaps r d.
Proof.
  intros (H1 & H2 & H3) (B1 & B2 & B3). unfold DescriptorOverlapsRegion, overlaps, bank_end, End_ in *.
  by rewrite !u64_small by (unfold in_u64; lia).
Qed.

(** ** The pieces of one bank *)
Definition ram_at (a n : Z) : region := set_Length n (set_Address a gRamPartitionTemplate).

Fixpoint bank_pieces (r : bank) (ds : list region) (cursor : Z) : list region :=
  match ds with
  | [] => if cursor <? bank_end r then [ram_at cursor (bank_end r - cursor)] else []
  | d :: ds' =>
      if overlaps r d then
        (if cursor <? Address d then [ram_at cursor (Address d - cursor)] else []) ++
        d :: bank_pieces r ds' (Z.max cursor (End_ d))
      else bank_pieces r ds' cursor
  end.

Definition outside (banks : list bank) (ds : list region) : list region :=
  base.filter (fun d => existsb (fun r => overlaps r d) banks = false) ds.
Definition merge_list (banks : list bank) (ds : list region) : list region :=
  concat ((fun r => bank_pieces r ds (Base r)) <$> banks) ++ outside banks ds.

Abbreviation LIMIT := 127%nat.

(** An append is a push at the limit. *)
Lemma append_push out l d :
  (length out <= LIMIT)%nat ->
  (if EFI_ERROR (push_all LIMIT out l).1 then push_all LIMIT out l
   else AppendDescriptor (push_all LIMIT out l).2 d) = push_all LIMIT out (l ++ [d]).
Proof. intros H. rewrite <- (push_all_if LIMIT out l true d) by done. done. Qed.

Lemma push_all_le out l : (length out <= LIMIT)%nat -> (length (push_all LIMIT out l).2 <= LIMIT)%nat.
Proof.
  intros H. unfold push_all. destruct (Nat.leb_spec (length (out ++ l)) LIMIT); cbn [snd]; [done|].
  rewrite length_take. lia.
Qed.

Lemma append_descriptor_push out d :
  (length out <= LIMIT)%nat -> AppendDescriptor out d = push_all LIMIT out [d].
Proof.
  intros H. pose proof (append_push out [] d H) as E. by rewrite push_all_nil in E.
Qed.
Lemma append_ram_push out a n :
  (length out <= LIMIT)%nat -> AppendRamPartition out a n = push_all LIMIT out [ram_at a n].
Proof. intros H. by rewrite <- append_descriptor_push. Qed.

(** A push that may be skipped, then the rest. *)
Lemma push_all_cons_if (b : bool) out d l :
  (length out <= LIMIT)%nat ->
  push_all LIMIT out ((if b then [d] else []) ++ l) =
    let r := if b then push_all LIMIT out [d] else (EFI_SUCCESS, out) in
    if EFI_ERROR r.1 then r else push_all LIMIT r.2 l.
Proof. intros H. rewrite push_all_app by done. destruct b; [done|]. by rewrite push_all_nil. Qed.

Lemma push_all_error_rest out l1 l2 :
  (length out <= LIMIT)%nat -> EFI_ERROR (push_all LIMIT out l1).1 = true ->
  push_all LIMIT out (l1 ++ l2) = push_all LIMIT out l1.
Proof. intros H E. rewrite push_all_app by done. by rewrite E. Qed.

Section merge.
Context (rest : list region) (term : region) (Hterm : Length term = 0).

Fixpoint pieces_cursor (r : bank) (ds : list region) (cursor : Z) : Z :=
  match ds with
  | [] => cursor
  | d :: ds' => pieces_cursor r ds' (if overlaps r d then Z.max cursor (End_ d) else cursor)
  end.
Fixpoint pieces_before (r : bank) (ds : list region) (cursor : Z) : list region :=
  match ds with
  | [] => []
  | d :: ds' =>
      if overlaps r d then
        (if cursor <? Address d then [ram_at cursor (Address d - cursor)] else []) ++
        d :: pieces_before r ds' (Z.max cursor (End_ d))
      else pieces_before r ds' cursor
  end.

Lemma bank_pieces_eq r ds cursor :
  bank_pieces r ds cursor = pieces_before r ds cursor ++
    (let c := pieces_cursor r ds cursor in
     if c <? bank_end r then [ram_at c (bank_end r - c)] else []).
Proof.
  revert cursor. induction ds as [|d ds IH]; intros cursor; [done|].
  cbn [bank_pieces pieces_before pieces_cursor]. destruct (overlaps r d); [|apply IH].
  rewrite IH. by rewrite <- app_assoc.
Qed.

Lemma pieces_cursor_ge r ds cursor :
  Forall region_ok ds -> 0 <= cursor < 2 ^ 64 -> 0 <= pieces_cursor r ds cursor < 2 ^ 64.
Proof.
  intros Hds. revert cursor. induction Hds as [|d ds (Hd1 & Hd2 & Hd3) _ IH]; intros cursor Hc; [done|].
  cbn [pieces_cursor]. apply IH. unfold End_ in *. destruct (overlaps r d); lia.
Qed.

Lemma merge_region_spec r ds cursor out :
  Forall region_ok ds -> bank_ok r -> 0 <= cursor < 2 ^ 64 -> (length out <= LIMIT)%nat ->
  exists c, merge_region (ds ++ term :: rest) r cursor out =
    Some (push_all LIMIT out (pieces_before r ds cursor), c) /\
    (EFI_ERROR (push_all LIMIT out (pieces_before r ds cursor)).1 = false ->
     c = pieces_cursor r ds cursor).
Proof.
  intros Hds Hr. revert cursor out. induction Hds as [|d ds Hd _ IH]; intros cursor out Hc Ho.
  { cbn [app merge_region pieces_before pieces_cursor]. rewrite Hterm. cbn.
    rewrite push_all_nil by done. by exists cursor. }
  cbn [app merge_region pieces_before pieces_cursor].
  assert (Hd' := Hd). destruct Hd' as (Hd1 & Hd2 & Hd3). unfold End_ in Hd3.
  destruct (Z.eqb_spec (Length d) 0); [lia|].
  rewrite DescriptorOverlapsRegion_spec by done.
  destruct (overlaps r d); cbn [negb]; [|by apply IH].
  rewrite (u64_small (Address d + Length d)) by (unfold in_u64; lia). fold (End_ d).
  assert ((if cursor <? Address d then AppendRamPartition out cursor (u64 (Address d - cursor))
           else (EFI_SUCCESS, out))
          = push_all LIMIT out (if cursor <? Address d then [ram_at cursor (Address d - cursor)] else []))
    as ->.
  { destruct (Z.ltb_spec cursor (Address d)); [|by rewrite push_all_nil].
    rewrite u64_small by (unfold in_u64; lia). by apply append_ram_push. }
  set (pre := if cursor <? Address d then _ else _).
  change (pre ++ d :: pieces_before r ds (Z.max cursor (End_ d)))
    with (pre ++ [d] ++ pieces_before r ds (Z.max cursor (End_ d))).
  rewrite app_assoc. rewrite (push_all_app LIMIT out (pre ++ [d])) by done.
  rewrite <- (append_push out pre d) by done.
  pose proof (push_all_le out pre Ho) as Hp.
  destruct (push_all LIMIT out pre) as [st out1] eqn:E1. cbn [fst snd] in *.
  destruct (EFI_ERROR st) eqn:Es; [cbn [fst snd]; rewrite ?Es; exists cursor; split; [done|cbn; congruence]|].
  rewrite append_descriptor_push by done.
  pose proof (push_all_le out1 [d] Hp) as Hp2.
  destruct (push_all LIMIT out1 [d]) as [st2 out2] eqn:E2. cbn [fst snd] in *.
  destruct (EFI_ERROR st2) eqn:Es2; [cbn [fst snd]; rewrite ?Es2; exists cursor; split; [done|cbn; congruence]|].
  assert ((if cursor <? End_ d then End_ d else cursor) = Z.max cursor (End_ d)) as ->.
  { destruct (Z.ltb_spec cursor (End_ d)); lia. }
  apply IH; [unfold End_ in *; lia|done].
Qed.

Lemma merge_regions_spec banks ds out :
  Forall region_ok ds -> Forall bank_ok banks -> (length out <= LIMIT)%nat ->
  merge_regions (ds ++ term :: rest) banks out =
    Some (push_all LIMIT out (concat ((fun r => bank_pieces r ds (Base r)) <$> banks))).
Proof.
  intros Hds Hb. revert out. induction Hb as [|r banks Hr _ IH]; intros out Ho.
  { cbn. by rewrite push_all_nil. }
  cbn [merge_regions fmap list_fmap concat].
  destruct Hr as (Hr1 & Hr2 & Hr3). unfold bank_end in Hr3.
  destruct (merge_region_spec r ds (Base r) out) as (c & -> & Hc); [done|done|lia|done|]. bind_step.
  rewrite bank_pieces_eq. cbv zeta.
  pose proof (push_all_le out (pieces_before r ds (Base r)) Ho) as Hp.
  destruct (EFI_ERROR (push_all LIMIT out (pieces_before r ds (Base r))).1) eqn:E.
  { rewrite <- app_assoc, push_all_error_rest by done.
    destruct (push_all LIMIT out (pieces_before r ds (Base r))) as [st o]. cbn [fst] in E. by rewrite E. }
  rewrite (Hc eq_refl). clear Hc.
  pose proof (pieces_cursor_ge r ds (Base r) Hds ltac:(lia)) as Hcur.
  rewrite <- app_assoc, (push_all_app LIMIT out) by done. rewrite E.
  destruct (push_all LIMIT out (pieces_before r ds (Base r))) as [st o]. cbn [fst snd] in *. rewrite E.
  rewrite (u64_small (Base r + BankLength r)) by (unfold in_u64; lia). fold (bank_end r).
  set (cur := pieces_cursor r ds (Base r)) in *.
  rewrite push_all_cons_if by done. cbv zeta.
  assert ((if cur <? bank_end r then AppendRamPartition o cur (u64 (bank_end r - cur)) else (EFI_SUCCESS, o))
    = if cur <? bank_end r then push_all LIMIT o [ram_at cur (bank_end r - cur)] else (EFI_SUCCESS, o)) as ->.
  { destruct (Z.ltb_spec cur (bank_end r)); [|done].
    rewrite u64_small by (unfold in_u64, bank_end in *; lia). by apply append_ram_push. }
  assert (length (if (cur <? bank_end r)%Z then push_all LIMIT o [ram_at cur (bank_end r - cur)%Z]
                  else (EFI_SUCCESS, o)).2 <= LIMIT)%nat as Hq.
  { destruct (cur <? bank_end r)%Z; [by apply push_all_le|done]. }
  destruct (if cur <? bank_end r then _ else _) as [st2 o2]. cbn [fst snd] in *.
  destruct (EFI_ERROR st2); [done|]. by apply IH.
Qed.

Lemma merge_outside_spec banks ds out :
  Forall region_ok ds -> Forall bank_ok banks -> (length out <= LIMIT)%nat ->
  merge_outside (ds ++ term :: rest) banks out = Some (push_all LIMIT out (outside banks ds)).
Proof.
  intros Hds Hb. revert out. induction Hds as [|d ds Hd _ IH]; intros out Ho.
  { cbn [app merge_outside]. rewrite Hterm. cbn. by rewrite push_all_nil. }
  cbn [app merge_outside]. unfold outside. rewrite filter_cons. fold (outside banks ds).
  assert (existsb (DescriptorOverlapsRegion d) banks = existsb (fun r => overlaps r d) banks) as ->.
  { clear IH. induction Hb as [|r banks Hr _ IHb]; [done|]. cbn [existsb].
    by rewrite IHb, DescriptorOverlapsRegion_spec. }
  destruct Hd as (Hd1 & Hd2 & Hd3). destruct (Z.eqb_spec (Length d) 0); [lia|].
  destruct (existsb _ banks); [rewrite decide_False by done; by apply IH|rewrite decide_True by done].
  rewrite append_descriptor_push by done.
  pose proof (push_all_le out [d] Ho) as Hp.
  change (d :: outside banks ds) with ([d] ++ outside banks ds). rewrite push_all_app by done.
  destruct (push_all LIMIT out [d]) as [st o]. cbn [fst snd] in *.
  destruct (EFI_ERROR st); [done|]. by apply IH.
Qed.
End merge.

(** ** Ownership of the merged map *)
Definition over (r : bank) (ds : list region) : list region :=
  base.filter (fun d => overlaps r d = true) ds.
(** No address has two owners. *)
Definition disjoint_map (ds : list region) : Prop :=
  forall d e a, d ∈ ds -> e ∈ ds -> covers d a = true -> covers e a = true -> d = e.
Definition ram_kind : region := kind gRamPartitionTemplate.

Lemma covers_spec d a : covers d a = true <-> Address d <= a < End_ d.
Proof. unfold covers. rewrite andb_true_iff, Z.leb_le, Z.ltb_lt. done. Qed.

Lemma owner_starts lo l a : Forall (starts_at lo) l -> a < lo -> owner l a = None.
Proof.
  intros H Ha. apply owner_none. weaken H. unfold starts_at in *.
  apply not_true_iff_false. rewrite covers_spec. lia.
Qed.

Lemma owner_None l a : owner l a = None <-> forall d, d ∈ l -> covers d a = false.
Proof.
  induction l as [|d l IH]; cbn [owner]; [split; [intros _ d Hd; by apply not_elem_of_nil in Hd|done]|].
  destruct (covers d a) eqn:E.
  - split; [done|]. intros H. rewrite H in E; [done|by left].
  - rewrite IH. split; intros H e He; [apply elem_of_cons in He as [->|He]; auto|by apply H; right].
Qed.

Lemma owner_unique l d a :
  (forall e, e ∈ l -> covers e a = true -> e = d) -> covers d a = true -> d ∈ l ->
  owner l a = Some (kind d).
Proof.
  intros Hu Hc. induction l as [|e l IH]; intros Hin; [by apply not_elem_of_nil in Hin|].
  cbn [owner]. destruct (covers e a) eqn:E.
  - by rewrite (Hu e (list_elem_of_here _ _) E).
  - apply elem_of_cons in Hin as [->|Hin]; [congruence|].
    apply IH; [|done]. intros e' He'. apply Hu. by right.
Qed.

Lemma bank_pieces_owner r ds cursor a :
  Forall region_ok ds -> ordered (over r ds) ->
  owner (bank_pieces r ds cursor) a =
    match owner (over r ds) a with
    | Some k => Some k
    | None => if (cursor <=? a) && (a <? bank_end r) then Some ram_kind else None
    end.
Proof.
  intros Hds. revert cursor. induction Hds as [|d ds Hd _ IH]; intros cursor Hs.
  { cbn [bank_pieces]. change (owner (over r []) a) with (@None region).
    destruct (Z.ltb_spec cursor (bank_end r)); cbn [owner].
    - unfold covers. change (Address (ram_at cursor (bank_end r - cursor))) with cursor.
      change (End_ (ram_at cursor (bank_end r - cursor))) with (cursor + (bank_end r - cursor)).
      by replace (cursor + (bank_end r - cursor)) with (bank_end r) by lia.
    - destruct (Z.leb_spec cursor a); [|done]. destruct (Z.ltb_spec a (bank_end r)); [lia|done]. }
  unfold over in *. rewrite filter_cons in *. cbn [bank_pieces].
  destruct (overlaps r d) eqn:Eo; cycle 1.
  { rewrite decide_False in * by done. by apply IH. }
  rewrite decide_True in * by done. inversion Hs as [|? ? Hs' Hb]; subst.
  assert (Forall (starts_at (Address d)) (base.filter (fun d => overlaps r d = true) ds)) as Hst.
  { weaken Hb. unfold before, starts_at, region_ok, End_ in *. lia. }
  rewrite owner_app. cbn [owner]. rewrite IH by done.
  destruct (Z.ltb_spec cursor (Address d)) as [Hlt|Hge]; cbn [owner].
  - destruct (covers (ram_at cursor (Address d - cursor)) a) eqn:Ec.
    + apply covers_spec in Ec. unfold End_ in Ec. cbn [ram_at Address Length set_Address set_Length] in Ec.
      assert (covers d a = false) as -> by (apply not_true_iff_false; rewrite covers_spec; lia).
      rewrite (owner_starts (Address d)) by (auto; lia).
      destruct (Z.leb_spec cursor a); [|lia]. cbn [andb].
      unfold overlaps in Eo. bool_to_prop. destruct (Z.ltb_spec a (bank_end r)); [done|lia].
    + destruct (covers d a) eqn:Ed; [done|]. destruct (owner _ a); [done|].
      apply not_true_iff_false in Ec, Ed. rewrite covers_spec in Ec, Ed. unfold End_ in *.
      cbn [ram_at Address Length set_Address set_Length] in Ec.
      destruct (Z.leb_spec cursor a), (Z.leb_spec (Z.max cursor (Address d + Length d)) a); try done; lia.
  - destruct (covers d a) eqn:Ed; [done|]. destruct (owner _ a); [done|].
    apply not_true_iff_false in Ed. rewrite covers_spec in Ed. unfold End_ in *.
    destruct (Z.leb_spec cursor a), (Z.leb_spec (Z.max cursor (Address d + Length d)) a); try done; lia.
Qed.

Lemma owner_concat {A} (f : A -> list region) (P : A -> bool) l a k :
  (forall r, r ∈ l -> owner (f r) a = if P r then Some k else None) ->
  owner (concat (f <$> l)) a = if existsb P l then Some k else None.
Proof.
  induction l as [|r l IH]; intros H; [done|]. cbn [fmap list_fmap concat existsb].
  rewrite owner_app, (H r) by apply list_elem_of_here.
  destruct (P r); [done|]. apply IH. intros x Hx. apply H. by right.
Qed.

Lemma existsb_false {A} (P : A -> bool) l r : existsb P l = false -> r ∈ l -> P r = false.
Proof.
  intros H Hr. destruct (P r) eqn:E; [|done]. rewrite <- H. symmetry. apply existsb_exists.
  exists r. split; [by apply list_elem_of_In|done].
Qed.

Lemma merge_list_owner banks ds a :
  Forall region_ok ds -> disjoint_map ds -> Forall (fun r => ordered (over r ds)) banks ->
  owner (merge_list banks ds) a =
    match owner ds a with
    | Some k => Some k
    | None => if existsb (bank_covers a) banks then Some ram_kind else None
    end.
Proof.
  intros Hds Hd Hb. rewrite Forall_forall in Hb. unfold merge_list. rewrite owner_app.
  destruct (owner ds a) as [k|] eqn:Eo.
  - (* the owner [d] is in the pieces of the banks it overlaps, or outside *)
    assert (exists d, d ∈ ds /\ covers d a = true) as (d & Hin & Hc).
    { clear -Eo. induction ds as [|d ds IH]; [done|]. cbn [owner] in Eo.
      destruct (covers d a) eqn:E; [exists d; split; [by left|done]|].
      destruct (IH Eo) as (e & ? & ?). exists e. split; [by right|done]. }
    assert (forall e, e ∈ ds -> covers e a = true -> e = d) as Hu by eauto.
    rewrite (owner_unique ds d a) in Eo by done. injection Eo as <-.
    rewrite (owner_concat _ (fun r => overlaps r d) _ _ (kind d)).
    + destruct (existsb (fun r => overlaps r d) banks) eqn:Ex; [done|].
      apply owner_unique; [|done|unfold outside; by apply list_elem_of_filter].
      intros e He. apply list_elem_of_filter in He as [_ He]. by apply Hu.
    + intros r Hr. rewrite bank_pieces_owner by auto. destruct (overlaps r d) eqn:Er.
      * rewrite (owner_unique _ d a); [done| |done|by apply list_elem_of_filter].
        intros e He. apply list_elem_of_filter in He as [_ He]. by apply Hu.
      * assert (owner (over r ds) a = None) as ->.
        { apply owner_None. intros e He. apply list_elem_of_filter in He as [Her He].
          destruct (covers e a) eqn:E; [|done]. rewrite (Hu e He E) in Her. congruence. }
        apply covers_spec in Hc. unfold overlaps in Er.
        destruct (Z.leb_spec (Base r) a), (Z.ltb_spec a (bank_end r)); try done.
        destruct (Z.ltb_spec (Address d) (bank_end r)), (Z.ltb_spec (Base r) (End_ d)); try done; lia.
  - assert (forall P `{forall x, Decision (P x)}, owner (base.filter P ds) a = None) as Hf.
    { intros P HP. apply owner_None. intros e He. apply list_elem_of_filter in He as [_ He].
      by apply (proj1 (owner_None ds a)). }
    rewrite (owner_concat _ (bank_covers a) _ _ ram_kind).
    + destruct (existsb (bank_covers a) banks); [done|]. apply Hf.
    + intros r Hr. rewrite bank_pieces_owner by auto. unfold over. by rewrite Hf.
Qed.

(** ** Maps in any order *)
Lemma owner_cons_none d l a : owner (d :: l) a = None <-> covers d a = false /\ owner l a = None.
Proof. cbn [owner]. destruct (covers d a); naive_solver. Qed.
Lemma owner_app_none l1 l2 a : owner (l1 ++ l2) a = None <-> owner l1 a = None /\ owner l2 a = None.
Proof. rewrite owner_app. destruct (owner l1 a); naive_solver. Qed.
Lemma covers_false d a : covers d a = false <-> a < Address d \/ End_ d <= a.
Proof. rewrite <- not_true_iff_false, covers_spec. lia. Qed.
Lemma ram_covers_false lo hi a : covers (ram_at lo (hi - lo)) a = false <-> a < lo \/ hi <= a.
Proof. rewrite covers_false. unfold End_. cbn [ram_at Address Length set_Address set_Length]. lia. Qed.

(** The pieces of a bank cover its regions and everything from the cursor on. *)
Lemma bank_pieces_none r ds cursor a :
  Forall region_ok ds ->
  owner (bank_pieces r ds cursor) a = None <->
    owner (over r ds) a = None /\ (a < cursor \/ bank_end r <= a).
Proof.
  intros Hds. revert cursor. induction Hds as [|d ds Hd _ IH]; intros cursor; unfold over in *.
  { cbn [bank_pieces]. destruct (Z.ltb_spec cursor (bank_end r)).
    - rewrite owner_cons_none, ram_covers_false. split; [by intros [? _]|by intros [_ ?]].
    - cbn [owner]. split; [intros _; split; [done|lia]|done]. }
  rewrite filter_cons. cbn [bank_pieces]. destruct (overlaps r d) eqn:Eo; cycle 1.
  { rewrite decide_False by done. apply IH. }
  rewrite decide_True by done. unfold overlaps in Eo. apply andb_true_iff in Eo as [Eo _].
  apply Z.ltb_lt in Eo. destruct Hd as (_ & Hd & _).
  rewrite owner_app_none, !owner_cons_none, IH, covers_false.
  enough (owner (if cursor <? Address d then [ram_at cursor (Address d - cursor)] else []) a = None <->
    (Address d <= cursor \/ a < cursor \/ Address d <= a)) as -> by (unfold End_; intuition lia).
  destruct (Z.ltb_spec cursor (Address d)).
  - rewrite owner_cons_none, ram_covers_false. cbn [owner]. intuition lia.
  - split; [lia|done].
Qed.

(** Nothing is lost and nothing is added, in whatever order the regions are. *)
Lemma merge_list_none banks ds a :
  Forall region_ok ds ->
  owner (merge_list banks ds) a = None <->
    owner ds a = None /\ existsb (bank_covers a) banks = false.
Proof.
  intros Hds. unfold merge_list. rewrite owner_app_none.
  assert (forall l, owner (concat ((fun r => bank_pieces r ds (Base r)) <$> l)) a = None <->
    forall r, r ∈ l -> owner (over r ds) a = None /\ bank_covers a r = false) as ->.
  { intros l. induction l as [|r l IH]; cbn [fmap list_fmap concat].
    { split; [intros _ r Hr; by apply not_elem_of_nil in Hr|done]. }
    rewrite owner_app_none, IH, (bank_pieces_none r ds (Base r)) by done. unfold bank_covers.
    assert ((Base r <=? a) && (a <? bank_end r) = false <-> a < Base r \/ bank_end r <= a) as Hc
      by (rewrite andb_false_iff, Z.leb_gt, Z.ltb_ge; done).
    split.
    - intros [H1 H2] x Hx. apply elem_of_cons in Hx as [->|Hx]; [by rewrite Hc|by apply H2].
    - intros H. split; [rewrite <- Hc; apply H; by left|intros x Hx; apply H; by right]. }
  rewrite !owner_None. split.
  - intros [H1 H2]. split; cycle 1.
    { apply not_true_iff_false. intros Hx. apply existsb_exists in Hx as (r & Hr & Hx).
      apply list_elem_of_In, H1 in Hr as [_ Hr]. congruence. }
    intros d Hd. destruct (existsb (fun r => overlaps r d) banks) eqn:E.
    + apply existsb_exists in E as (r & Hr & E). apply list_elem_of_In, H1 in Hr as [Hr _].
      apply (proj1 (owner_None _ a) Hr). by apply list_elem_of_filter.
    + apply H2. by apply list_elem_of_filter.
  - intros [H1 H2]. split.
    + intros r Hr. split; [|by apply (existsb_false _ banks)].
      apply owner_None. intros d Hd. apply list_elem_of_filter in Hd as [_ Hd]. by apply H1.
    + intros d Hd. apply list_elem_of_filter in Hd as [_ Hd]. by apply H1.
Qed.

(** The pieces are the configured regions, whole, and RAM. *)
Lemma bank_pieces_whole r ds cursor d :
  d ∈ over r ds -> d ∈ bank_pieces r ds cursor.
Proof.
  revert cursor. induction ds as [|e ds IH]; intros cursor; unfold over in *.
  { intros Hd. by apply not_elem_of_nil in Hd. }
  rewrite filter_cons. cbn [bank_pieces]. destruct (overlaps r e).
  - rewrite decide_True by done. intros Hd. apply elem_of_app. right.
    apply elem_of_cons in Hd as [->|Hd]; [by left|right; by apply IH].
  - rewrite decide_False by done. apply IH.
Qed.
Lemma bank_pieces_from r ds cursor d :
  d ∈ bank_pieces r ds cursor -> d ∈ ds \/ kind d = ram_kind.
Proof.
  revert cursor. induction ds as [|e ds IH]; intros cursor; cbn [bank_pieces].
  - case_match; intros Hd; [apply list_elem_of_singleton in Hd as ->; by right|by apply not_elem_of_nil in Hd].
  - destruct (overlaps r e); [|intros Hd; destruct (IH _ Hd); [left; by right|by right]].
    intros Hd. apply elem_of_app in Hd as [Hd|Hd].
    + case_match; [apply list_elem_of_singleton in Hd as ->; by right|by apply not_elem_of_nil in Hd].
    + apply elem_of_cons in Hd as [->|Hd]; [left; by left|].
      destruct (IH _ Hd); [left; by right|by right].
Qed.
Lemma merge_list_whole banks ds d : d ∈ ds -> d ∈ merge_list banks ds.
Proof.
  intros Hd. apply elem_of_app. destruct (existsb (fun r => overlaps r d) banks) eqn:E.
  - left. apply existsb_exists in E as (r & Hr & E). apply list_elem_of_In, in_concat.
    exists (bank_pieces r ds (Base r)). split; [apply in_map_iff; by exists r|].
    apply list_elem_of_In, bank_pieces_whole. by apply list_elem_of_filter.
  - right. by apply list_elem_of_filter.
Qed.
Lemma merge_list_from banks ds d : d ∈ merge_list banks ds -> d ∈ ds \/ kind d = ram_kind.
Proof.
  intros Hd. apply elem_of_app in Hd as [Hd|Hd].
  - apply list_elem_of_In, in_concat in Hd as (l & Hl & Hd). apply in_map_iff in Hl as (r & <- & _).
    apply list_elem_of_In in Hd. by eapply bank_pieces_from.
  - left. by apply list_elem_of_filter in Hd as [_ Hd].
Qed.

(** The whole operation. *)
Lemma merge_banks_spec banks s ds term rest :
  gDeviceMemoryDescriptorEx s = ds ++ term :: rest -> Length term = 0 ->
  Forall region_ok ds -> Forall bank_ok banks -> (LIMIT < length (gMergedMemoryDescriptorEx s))%nat ->
  let out := merge_list banks ds in
  MergeDdrBankRegions banks s =
    Some (if (length out <=? LIMIT)%nat then
            (EFI_SUCCESS, store_merged (out ++ [gMemoryMapTerminator]) s,
             Some (out ++ gMemoryMapTerminator :: drop (S (length out)) (gMergedMemoryDescriptorEx s)))
          else (EFI_OUT_OF_RESOURCES, store_merged (take LIMIT out) s, None)).
Proof.
  intros Hs Ht Hds Hb Hl out. unfold MergeDdrBankRegions. rewrite Hs.
  rewrite merge_regions_spec by (auto; cbn; lia). bind_step.
  set (p := concat _) in *.
  assert (out = p ++ outside banks ds) as Eout by done.
  pose proof (push_all_app LIMIT [] p (outside banks ds) ltac:(cbn; lia)) as Eapp.
  rewrite <- Eout in Eapp. unfold push_all at 1 in Eapp. cbn [app] in Eapp.
  pose proof (push_all_le [] p ltac:(cbn; lia)) as Hp.
  destruct (push_all LIMIT [] p) as [st o]. cbn [fst snd] in *.
  destruct (EFI_ERROR st) eqn:Es.
  { destruct (length out <=? LIMIT)%nat; simplify_eq; done. }
  rewrite merge_outside_spec by done. rewrite <- Eapp. bind_step.
  destruct (Nat.leb_spec (length out) LIMIT); cbn [EFI_ERROR]; [|done].
  destruct (Nat.leb_spec (length (gMergedMemoryDescriptorEx s)) (length out)); [lia|].
  unfold store_merged at 2. cbn [set_merged gMergedMemoryDescriptorEx].
  rewrite <- app_assoc, length_app. cbn [app length]. by rewrite Nat.add_1_r.
Qed.

(** ** The placement of the PStore region *)
Definition is_pstore (d : region) : Prop := to_upper <$> Name d = to_upper <$> PSTORE_NAME.

(** What the placement check promises about the map [ds] and the banks. *)
Definition pstore_placed (ds : list region) (banks : list bank) : Prop :=
  exists i p, ds !! i = Some p /\ is_pstore p /\
    (forall j d, ds !! j = Some d -> is_pstore d -> j = i) /\
    (exists r, r ∈ banks /\ Base r <= Address p /\ End_ p <= bank_end r) /\
    (forall j d a, ds !! j = Some d -> j <> i -> covers d a = true -> covers p a = false).

Section placement.
Context `{BL : BaseLib} `{!BaseLibLaws BL}.

Lemma pstore_test d : (AsciiStriCmp (Name d) PSTORE_NAME =? 0) = bool_decide (is_pstore d).
Proof.
  unfold is_pstore. destruct (Z.eqb_spec (AsciiStriCmp (Name d) PSTORE_NAME) 0) as [E|E];
    rewrite AsciiStriCmp_law in E; [by rewrite bool_decide_true|by rewrite bool_decide_false].
Qed.

Lemma find_pstore_count ds i p c :
  (c <= (find_pstore ds i p c).2)%nat /\
  ((find_pstore ds i p c).2 = c <-> forall j d, ds !! j = Some d -> ~ is_pstore d) /\
  ((find_pstore ds i p c).2 = c -> (find_pstore ds i p c).1 = p).
Proof.
  revert i p c. induction ds as [|d ds IH]; intros i p c; cbn [find_pstore].
  { split_and!; [done| |done]. split; [|done]. by intros _ j d. }
  rewrite pstore_test. destruct (IH (S i) (Some i) (S c)) as (A1 & _ & _).
  destruct (IH (S i) p c) as (B1 & B2 & B3).
  case_bool_decide as Hd.
  - split_and!; [lia| |lia]. split; [lia|]. intros Hn. by destruct (Hn 0%nat d eq_refl).
  - split_and!; [done| |done]. rewrite B2. split.
    + intros Hn [|j] e; cbn; [by intros [= <-]|apply Hn].
    + intros Hn j e He. by apply (Hn (S j) e).
Qed.

Lemma find_pstore_hit ds k q c0 i p :
  ds !! i = Some p -> is_pstore p ->
  (forall j d, ds !! j = Some d -> is_pstore d -> j = i) ->
  exists k', find_pstore ds k q c0 = (Some k', S c0).
Proof.
  revert k q i. induction ds as [|d ds IH]; intros k q i H1 H2 H3; [done|]. cbn [find_pstore].
  rewrite pstore_test. case_bool_decide as Hd.
  - destruct (find_pstore_count ds (S k) (Some k) (S c0)) as (_ & Hc & Hp).
    assert ((find_pstore ds (S k) (Some k) (S c0)).2 = S c0) as E.
    { apply Hc. intros j e He Hpe.
      pose proof (H3 0%nat d eq_refl Hd). pose proof (H3 (S j) e He Hpe). lia. }
    exists k. specialize (Hp E). destruct (find_pstore _ _ _ _). cbn in *. congruence.
  - destruct i as [|i]; [cbn in H1; congruence|]. apply (IH (S k) q i); [done..|].
    intros j e He Hpe. pose proof (H3 (S j) e He Hpe). lia.
Qed.

Lemma find_pstore_one ds i p :
  (exists k, find_pstore ds i p 0 = (Some k, 1%nat)) <->
  exists j d, ds !! j = Some d /\ is_pstore d /\
    (forall j' d', ds !! j' = Some d' -> is_pstore d' -> j' = j) /\
    find_pstore ds i p 0 = (Some (i + j)%nat, 1%nat).
Proof.
  split; [|by intros (j & d & _ & _ & _ & E); eexists].
  revert i p. induction ds as [|d ds IH]; intros i p (k & E); cbn [find_pstore] in E; [done|].
  cbn [find_pstore]. rewrite pstore_test in *. case_bool_decide as Hd.
  - destruct (find_pstore_count ds (S i) (Some i) 1) as (_ & Hc & Hp). rewrite E in *.
    cbn [fst snd] in *. specialize (Hp eq_refl). injection Hp as ->.
    exists 0%nat, d. rewrite Nat.add_0_r. split_and!; [done|done| |done].
    intros [|j'] d' Hd' Hp'; [done|]. by destruct (proj1 Hc eq_refl j' d' Hd').
  - destruct (IH (S i) p) as (j & e & H1 & H2 & H3 & H4); [by exists k|].
    exists (S j), e. rewrite H4. split_and!; [done|done| |do 2 f_equal; lia].
    intros [|j'] d' Hd' Hp'; [by injection Hd' as <-|]. f_equal. by eapply H3.
Qed.

Lemma other_overlap_spec p e i ds k :
  other_overlap p e i ds k = false <->
  forall j d, ds !! j = Some d -> (k + j)%nat <> i ->
    ~ (Address d < e /\ Address p < u64 (Address d + Length d)).
Proof.
  revert k. induction ds as [|d ds IH]; intros k; cbn [other_overlap]; [split; [by intros _ j d|done]|].
  destruct (negb (k =? i)%nat && (Address d <? e) && (Address p <? u64 (Address d + Length d))) eqn:E.
  - bool_to_prop. split; [done|]. intros Hn. exfalso. apply (Hn 0%nat d); [done|lia|lia].
  - rewrite IH. split.
    + intros H [|j] d' Hd' Hk; [|apply (H j); [done|lia]].
      injection Hd' as <-. intros [H1 H2].
      destruct (Nat.eqb_spec k i); [lia|].
      destruct (Z.ltb_spec (Address d) e), (Z.ltb_spec (Address p) (u64 (Address d + Length d)));
        try lia; done.
    + intros H j d' Hd' Hk. apply (H (S j)); [done|lia].
Qed.

Lemma validate_spec ds n banks k :
  Forall region_ok (take n ds) -> Forall bank_ok (take k banks) ->
  (n <= length ds)%nat -> (k <= length banks)%nat ->
  exists st, MemoryMapConfigValidatePStorePlacement (Some ds) n (Some banks) k = Some st /\
    (st = EFI_SUCCESS \/ st = EFI_COMPROMISED_DATA) /\
    (st = EFI_SUCCESS <-> pstore_placed (take n ds) (take k banks)).
Proof.
  intros Hds Hb Hn Hk. unfold MemoryMapConfigValidatePStorePlacement.
  destruct (Nat.ltb_spec (length ds) n); [lia|]. destruct (Nat.ltb_spec (length banks) k); [lia|].
  cbn [orb]. set (l := take n ds) in *. set (rs := take k banks) in *.
  pose proof (find_pstore_one l 0 None) as Hone.
  destruct (find_pstore l 0 None 0) as [o c] eqn:Ef.
  assert (pstore_placed l rs -> exists q, (o, c) = (Some q, 1%nat)) as Hplaced.
  { intros (i & p & H1 & H2 & H3 & _).
    destruct (find_pstore_hit l 0%nat None 0%nat i p H1 H2 H3) as (q & E). rewrite Ef in E. by exists q. }
  destruct (match o, c with Some _, 1%nat => true | _, _ => false end) eqn:Em; cycle 1.
  { exists EFI_COMPROMISED_DATA. split; [by destruct o as [i|], c as [|[|c]]|].
    split; [by right|]. split; [done|]. intros Hp. by destruct (Hplaced Hp) as (q & [= -> ->]). }
  destruct o as [i|], c as [|[|c]]; try done. clear Em Hplaced.
  destruct (proj1 Hone) as (j & p & H1 & H2 & H3 & H4); [by exists i|].
  injection H4 as ->. cbn [Nat.add]. rewrite H1. bind_step.
  assert (region_ok p) as (P1 & P2 & P3) by (by eapply Forall_lookup_1 in Hds).
  rewrite (u64_small (Address p + Length p)) by (unfold in_u64, End_ in *; lia). fold (End_ p).
  destruct (existsb (in_bank (Address p) (End_ p)) rs) eqn:Eb; cbn [negb].
  - assert (exists r, r ∈ rs /\ Base r <= Address p /\ End_ p <= bank_end r) as Hbank.
    { apply existsb_exists in Eb as (r & Hr & E). apply list_elem_of_In in Hr. exists r.
      split; [done|]. rewrite Forall_forall in Hb. destruct (Hb r Hr) as (B1 & B2 & B3).
      unfold in_bank in E. unfold bank_end in *. rewrite u64_small in E by (unfold in_u64; lia).
      bool_to_prop. lia. }
    destruct (other_overlap p (End_ p) j l 0) eqn:Eo; eexists; (split; [done|]).
    + split; [by right|]. split; [done|]. intros (i & p' & G1 & G2 & G3 & _ & G5).
      assert (i = j) as -> by (by eapply H3). rewrite H1 in G1. injection G1 as <-.
      exfalso. apply not_false_iff_true in Eo. apply Eo, other_overlap_spec.
      intros q d Hd Hq [C1 C2]. assert (region_ok d) as (D1 & D2 & D3) by (by eapply Forall_lookup_1 in Hds).
      rewrite u64_small in C2 by (unfold in_u64, End_ in *; lia).
      cbn [Nat.add] in Hq. specialize (G5 q d (Z.max (Address d) (Address p)) Hd Hq).
      apply not_true_iff_false in G5; [apply G5|]; apply covers_spec; unfold End_ in *; lia.
    + split; [by left|]. split; [intros _|done]. exists j, p. split_and!; try done.
      intros q d a Hd Hq Hc. rewrite other_overlap_spec in Eo. specialize (Eo q d Hd Hq).
      assert (region_ok d) as (D1 & D2 & D3) by (by eapply Forall_lookup_1 in Hds).
      rewrite u64_small in Eo by (unfold in_u64, End_ in *; lia).
      apply covers_spec in Hc. apply not_true_iff_false. rewrite covers_spec. unfold End_ in *. lia.
  - eexists. split; [done|]. split; [by right|]. split; [done|].
    intros (i & p' & G1 & G2 & _ & (r & G4 & G6 & G7) & _).
    assert (i = j) as -> by (by eapply H3). rewrite H1 in G1. injection G1 as <-.
    apply (existsb_false _ _ r) in Eb; [|done]. unfold in_bank in Eb.
    rewrite Forall_forall in Hb. destruct (Hb r G4) as (B1 & B2 & B3). unfold bank_end in *.
    rewrite u64_small in Eb by (unfold in_u64; lia).
    destruct (Z.leb_spec (Base r) (Address p)), (Z.leb_spec (End_ p) (Base r + BankLength r));
      try done; lia.
Qed.
End placement.

(** ** Loading the map *)
Lemma load_list_length cap init es ending out :
  (length out <= cap)%nat -> (length (load_list cap init es ending out).2 <= cap)%nat.
Proof.
  revert out. induction es as [|e es IH]; intros out Ho; [done|]. cbn [load_list].
  destruct (_ <? _)%nat; [done|]. destruct (descriptor_of e); [|done].
  destruct (Nat.leb_spec cap (length out)); [done|]. apply IH. rewrite length_app. cbn. lia.
Qed.

(** The configured part of the device array: its first [n] regions. *)
Definition configured (n : nat) (s : memory_map_state) : Prop :=
  (n <= LIMIT)%nat /\ Forall region_ok (take n (gDeviceMemoryDescriptorEx s)).
Definition arrays_ok (s : memory_map_state) : Prop :=
  length (gDeviceMemoryDescriptorEx s) = MAX_ARM_MEMORY_REGION_DESCRIPTOR_COUNT /\
  length (gPStoreWorkspace s) = MAX_ARM_MEMORY_REGION_DESCRIPTOR_COUNT /\
  length (gMergedMemoryDescriptorEx s) = MAX_ARM_MEMORY_REGION_DESCRIPTOR_COUNT.

(** A successfully loaded map: its regions and the terminator. *)
Definition loaded_map (ds : list region) (s : memory_map_state) : Prop :=
  exists rest, gDeviceMemoryDescriptorEx s = ds ++ gMemoryMapTerminator :: rest /\
    Forall region_ok ds /\ ds <> [].
Definition map_wf (s : memory_map_state) : Prop :=
  arrays_ok s /\
  (gMemoryMapLoaded s = true -> EFI_ERROR (gMemoryMapLoadStatus s) = false -> exists ds, loaded_map ds s).

(** The flags and the merged array are not the loader's. *)
Definition same_flags (s s' : memory_map_state) : Prop :=
  gMemoryMapLoaded s' = gMemoryMapLoaded s /\ gMemoryMapLoadStatus s' = gMemoryMapLoadStatus s /\
  gMergedMemoryDescriptorEx s' = gMergedMemoryDescriptorEx s.

Section load_spec.
Context `{BL : BaseLib} `{!BaseLibLaws BL}.
Context (serial : bool) (g : boot_config) (text : list Z) (Hg : serves g text).
Context (RecordStack Stack : list Z) (HR : length RecordStack = MEMORY_MAP_CONFIG_ENTRY_SIZE)
  (HS : length Stack = 32%nat).
Context (get_banks : bool -> EFI_STATUS * list bank) (Hbanks : Forall bank_ok (get_banks true).2).
Context (fuel : nat) (Hfuel : (length text < fuel)%nat).

Lemma load_device_section_spec sec n s :
  cstring sec -> arrays_ok s -> configured n s ->
  exists st n' s', load_device_section g RecordStack fuel sec n s = Some (st, n', s') /\
    arrays_ok s' /\ configured n' s' /\ same_flags s s'.
Proof.
  intros Hsec (A1 & A2 & A3) (C1 & C2). unfold load_device_section.
  change (MAX_ARM_MEMORY_REGION_DESCRIPTOR_COUNT - 1)%nat with LIMIT.
  unfold MAX_ARM_MEMORY_REGION_DESCRIPTOR_COUNT in *.
  rewrite (load_section_spec g text) by (auto; lia). cbv zeta. bind_step.
  set (r := load_list _ _ _ _ _).
  assert (length r.2 <= LIMIT)%nat as Hl by (apply load_list_length; rewrite length_take; lia).
  assert (Forall region_ok r.2) as Hr by (by apply load_list_ok).
  eexists _, _, _. split; [done|]. split_and!; try done.
  - split_and!; [|done..]. cbn [set_device gDeviceMemoryDescriptorEx].
    rewrite length_app, length_drop. unfold MAX_ARM_MEMORY_REGION_DESCRIPTOR_COUNT. lia.
  - unfold configured. cbn [set_device gDeviceMemoryDescriptorEx]. by rewrite take_app_length.
Qed.

Lemma load_pstore_descriptor_spec D0 :
  exists st D, MemoryMapConfigLoadPStoreDescriptor g Stack (Some D0) = Some (st, Some D) /\
    (EFI_ERROR st = false -> region_ok D /\ Name D = PSTORE_NAME).
Proof.
  unfold MemoryMapConfigLoadPStoreDescriptor.
  assert (cstring ANDROMEDA_BOOT_CONFIG_UEFI_SECTION) as H1 by (vm_compute; by repeat constructor).
  assert (cstring (bytes "PStoreAddress")) as H2 by (vm_compute; by repeat constructor).
  assert (cstring (bytes "PStoreSize")) as H3 by (vm_compute; by repeat constructor).
  rewrite (uint64_read_spec g text) by done. bind_step.
  pose proof (uint64_answer_range 0 (lookup_text ANDROMEDA_BOOT_CONFIG_UEFI_SECTION (bytes "PStoreAddress") text)
    ltac:(unfold in_u64; lia)) as Ra.
  destruct (uint64_answer 0 _) as [st a]. cbn [fst snd] in *.
  destruct (EFI_ERROR st) eqn:E; [eexists _, _; split; [done|]; cbn; congruence|].
  bind_step. cbn [set_Address Address]. rewrite u64_small by done. rewrite Z.eqb_refl. cbn [negb].
  rewrite (uint64_read_spec g text) by done. bind_step. cbn [Length set_Address zero_region].
  pose proof (uint64_answer_range 0 (lookup_text ANDROMEDA_BOOT_CONFIG_UEFI_SECTION (bytes "PStoreSize") text)
    ltac:(unfold in_u64; lia)) as Rl.
  destruct (uint64_answer 0 _) as [st2 l]. cbn [fst snd] in *.
  destruct (EFI_ERROR st2) eqn:E2; [eexists _, _; split; [done|]; cbn; congruence|].
  unfold in_u64 in *. rewrite region_wraps_spec by (cbn; lia). cbn [Length set_Length].
  destruct (_ || _) eqn:Eg; [eexists _, _; split; [done|done]|].
  eexists _, _. split; [done|]. intros _. bool_to_prop.
  unfold region_ok, End_ in *. cbn in *. split; [lia|done].
Qed.

Lemma load_pstore_spec n s :
  arrays_ok s -> configured n s ->
  exists st n' s', load_pstore g Stack n s = Some (st, n', s') /\
    arrays_ok s' /\ configured n' s' /\ same_flags s s'.
Proof.
  intros (A1 & A2 & A3) (C1 & C2). unfold load_pstore.
  destruct (load_pstore_descriptor_spec zero_region) as (st & D & -> & Hok). bind_step.
  destruct (EFI_ERROR st) eqn:E; [by eexists _, _, _|]. destruct (Hok eq_refl) as [HD _].
  change (MAX_ARM_MEMORY_REGION_DESCRIPTOR_COUNT - 1)%nat with LIMIT.
  unfold MAX_ARM_MEMORY_REGION_DESCRIPTOR_COUNT in *.
  destruct (overlay_descriptor_spec (gDeviceMemoryDescriptorEx s) n LIMIT D (gPStoreWorkspace s))
    as (ws' & Hws & ->); [done|done|done|lia|lia|].
  destruct (Nat.leb_spec (length (overlay_list D (take n (gDeviceMemoryDescriptorEx s)) false)) LIMIT);
    bind_step; eexists _, _, _; (split; [done|]); unfold arrays_ok, configured, same_flags;
    cbn [set_workspace set_device gDeviceMemoryDescriptorEx gPStoreWorkspace gMergedMemoryDescriptorEx
         gMemoryMapLoaded gMemoryMapLoadStatus];
    unfold MAX_ARM_MEMORY_REGION_DESCRIPTOR_COUNT; split_and!; try done; try lia.
  - rewrite length_app, length_drop. lia.
  - rewrite take_app_length. by apply overlay_list_ok.
Qed.

Lemma load_map_spec s :
  arrays_ok s ->
  exists st s', LoadPlatformMemoryMap serial g RecordStack Stack get_banks fuel s = Some (st, s') /\
    arrays_ok s' /\ same_flags s s' /\
    (EFI_ERROR st = false -> exists ds, loaded_map ds s' /\
       (serial = true -> pstore_placed ds (get_banks true).2)).
Proof.
  intros Ha. unfold LoadPlatformMemoryMap.
  destruct (load_device_section_spec (bytes "MemoryMap") 0 s) as (st1 & n1 & s1 & -> & A1 & C1 & F1);
    [vm_compute; by repeat constructor|done|split; [lia|constructor]|]. bind_step.
  destruct (EFI_ERROR st1) eqn:E1; [exists st1, s1; split_and!; try done; congruence|].
  assert (exists st2 n2 s2,
    (if serial then load_pstore g Stack n1 s1 else Some (EFI_SUCCESS, n1, s1)) = Some (st2, n2, s2) /\
    arrays_ok s2 /\ configured n2 s2 /\ same_flags s1 s2) as (st2 & n2 & s2 & -> & A2 & C2 & F2).
  { destruct serial; [by apply load_pstore_spec|]. by exists EFI_SUCCESS, n1, s1. }
  assert (same_flags s s2) as F12 by (unfold same_flags in *; intuition congruence).
  bind_step. destruct (EFI_ERROR st2) eqn:E2; [exists st2, s2; split_and!; try done; congruence|].
  destruct (load_device_section_spec (bytes "RegisterMap") n2 s2) as (st3 & n3 & s3 & -> & A3 & C3 & F3);
    [vm_compute; by repeat constructor|done|done|]. bind_step.
  assert (same_flags s s3) as F13 by (unfold same_flags in *; intuition congruence).
  destruct (EFI_ERROR st3) eqn:E3; [exists st3, s3; split_and!; try done; congruence|].
  destruct (Nat.eqb_spec n3 0) as [->|Hn3]; [by exists EFI_NOT_FOUND, s3|].
  destruct C3 as [C3 C3'], A3 as (L1 & L2 & L3). rewrite L1.
  destruct (Nat.leb_spec MAX_ARM_MEMORY_REGION_DESCRIPTOR_COUNT n3);
    [unfold MAX_ARM_MEMORY_REGION_DESCRIPTOR_COUNT in *; lia|].
  set (ds := take n3 (gDeviceMemoryDescriptorEx s3)) in *.
  assert (length ds = n3) as Hlen by (unfold ds; rewrite length_take; lia).
  assert (<[n3 := gMemoryMapTerminator]> (gDeviceMemoryDescriptorEx s3)
          = ds ++ gMemoryMapTerminator :: drop (S n3) (gDeviceMemoryDescriptorEx s3)) as ->.
  { rewrite insert_take_drop by lia. done. }
  set (s4 := set_device _ s3).
  assert (arrays_ok s4) as A4.
  { split_and!; [|done..]. cbn [s4 set_device gDeviceMemoryDescriptorEx].
    rewrite length_app. cbn [length]. rewrite length_drop. lia. }
  assert (loaded_map ds s4) as Hm.
  { eexists. split_and!; [done|done|]. intros E. rewrite E in Hlen. cbn in Hlen. lia. }
  destruct serial; [|exists EFI_SUCCESS, s4; split_and!; try done; intros _; by exists ds].
  unfold validate_pstore. destruct (get_banks true) as [st banks]. cbn [snd] in Hbanks.
  destruct (EFI_ERROR st) eqn:Eb; [bind_step; exists st, s4; split_and!; try done; congruence|].
  destruct (validate_spec (gDeviceMemoryDescriptorEx s4) n3 banks (length banks))
    as (st5 & -> & Hor & Hv); cbn [s4 set_device gDeviceMemoryDescriptorEx];
    try (rewrite <- Hlen, take_app_length); try done.
  { by rewrite firstn_all. }
  { rewrite length_app. lia. }
  bind_step. exists st5, s4. split_and!; try done. intros Hst. exists ds. split; [done|]. intros _.
  assert (st5 = EFI_SUCCESS) as Hsu by (destruct Hor as [->| ->]; done).
  apply Hv in Hsu. cbn [s4 set_device gDeviceMemoryDescriptorEx] in Hsu.
  by rewrite <- Hlen, take_app_length, firstn_all in Hsu.
Qed.

Lemma ensure_loaded_spec s :
  map_wf s ->
  exists st s',
    EnsurePlatformMemoryMapLoaded serial g RecordStack Stack get_banks fuel s = Some (st, s') /\
    map_wf s' /\ (EFI_ERROR st = false -> exists ds, loaded_map ds s').
Proof.
  intros [Ha Hl]. unfold EnsurePlatformMemoryMapLoaded.
  destruct (gMemoryMapLoaded s) eqn:E.
  { exists (gMemoryMapLoadStatus s), s. split; [done|]. split; [split; [done|by rewrite E]|by apply Hl]. }
  destruct (load_map_spec s Ha) as (st & s1 & -> & Ha1 & _ & Hs). bind_step.
  eexists st, _. split; [done|].
  assert (EFI_ERROR st = false -> exists ds, loaded_map ds s1) as Hm.
  { intros Hst. destruct (Hs Hst) as (ds & Hds & _). by exists ds. }
  split; [split; [exact Ha1|intros _; exact Hm]|exact Hm].
Qed.

(** Memory with a zero-length region: the iterations of the clients stop. *)
Definition terminated (m : list region) : Prop :=
  exists ds term rest, m = ds ++ term :: rest /\ Length term = 0.

Lemma get_map_spec s :
  map_wf s ->
  exists m s', GetPlatformMemoryMap serial g RecordStack Stack get_banks fuel s = Some (m, s') /\
    map_wf s' /\ terminated m.
Proof.
  intros Hs. unfold GetPlatformMemoryMap.
  assert (terminated [gMemoryMapTerminator]) as Ht by (by exists [], gMemoryMapTerminator, []).
  destruct (ensure_loaded_spec s Hs) as (st & s1 & -> & Hw & Hm). bind_step.
  destruct (EFI_ERROR st) eqn:E; [by eexists _, _|]. destruct (Hm eq_refl) as (ds & rest & Hd & Hok & _).
  destruct (get_banks true) as [st2 banks]. cbn [snd] in Hbanks.
  destruct (EFI_ERROR st2); [by eexists _, _|].
  assert (Hw' := Hw). destruct Hw' as [(L1 & L2 & L3) Hl]. unfold MAX_ARM_MEMORY_REGION_DESCRIPTOR_COUNT in *.
  rewrite (merge_banks_spec banks s1 ds gMemoryMapTerminator rest) by (auto; lia).
  assert (forall out, (length out <= 128)%nat -> map_wf (store_merged out s1)) as Hstore.
  { intros out Ho. split; [|exact Hl]. split_and!; [done|done|].
    cbn. rewrite length_app, length_drop. unfold MAX_ARM_MEMORY_REGION_DESCRIPTOR_COUNT. lia. }
  destruct (Nat.leb_spec (length (merge_list banks ds)) LIMIT); bind_step; cbn [EFI_ERROR].
  - eexists _, _. split; [done|]. split; [apply Hstore; rewrite length_app; cbn; lia|].
    by eexists _, gMemoryMapTerminator, _.
  - eexists _, _. split; [done|]. split; [apply Hstore; rewrite length_take; lia|done].
Qed.

Lemma locate_total P m : terminated m -> is_Some (locate P m).
Proof.
  intros (ds & term & rest & -> & Ht). induction ds as [|d ds IH]; cbn [app locate].
  - rewrite Ht. by eexists.
  - destruct (Length d =? 0); [by eexists|]. destruct (P d); [by eexists|exact IH].
Qed.
End load_spec.

(** ** Properties of the platform map *)
(** C5: merging succeeds exactly when the pieces fit 127 entries, and then the
    result is terminated, holds every configured region as a whole, adds only RAM
    partitions and covers exactly the configured regions and the DDR banks, in
    whatever order the regions are configured. When moreover no address has two
    configured regions and the ones over each bank come in the order of their
    addresses, an address of a configured region belongs to that region and any
    other address of a bank to a RAM partition. The code never checks these two
    conditions; without the order a RAM partition lies over a configured region
    ([unordered_map_shadowed]). *)
Theorem MergeDdrBankRegions_owner banks s ds term rest :
  gDeviceMemoryDescriptorEx s = ds ++ term :: rest -> Length term = 0 ->
  Forall region_ok ds -> Forall bank_ok banks ->
  (127 < length (gMergedMemoryDescriptorEx s))%nat ->
  exists st s' m, MergeDdrBankRegions banks s = Some (st, s', m) /\
    (st = EFI_SUCCESS <-> (length (merge_list banks ds) <= 127)%nat) /\
    (st = EFI_SUCCESS -> exists out rest', m = Some (out ++ gMemoryMapTerminator :: rest') /\
       (forall d, d ∈ ds -> d ∈ out) /\ (forall d, d ∈ out -> d ∈ ds \/ kind d = ram_kind) /\
       (forall a, owner out a = None <-> owner ds a = None /\ existsb (bank_covers a) banks = false) /\
       (disjoint_map ds -> Forall (fun r => ordered (over r ds)) banks ->
        forall a, owner out a =
          match owner ds a with
          | Some k => Some k
          | None => if existsb (bank_covers a) banks then Some ram_kind else None
          end)).
Proof.
  intros Hs Ht Hds Hb Hl. rewrite (merge_banks_spec banks s ds term rest) by done. cbv zeta.
  destruct (Nat.leb_spec (length (merge_list banks ds)) 127); eexists _, _, _; (split; [done|]).
  - split; [done|]. intros _. eexists _, _. split; [done|].
    split; [intros d; apply merge_list_whole|]. split; [intros d; apply merge_list_from|].
    split; [intros a; by apply merge_list_none|]. intros Hd Ho a. by apply merge_list_owner.
  - split; [|done]. split; [done|lia].
Qed.

Definition sample_state : memory_map_state :=
  mk_memory_map (sample_map ++ repeat gMemoryMapTerminator 126) [] true EFI_SUCCESS
    (repeat zero_region 128).

Lemma MergeDdrBankRegions_owner_witness :
  exists s' out rest',
    MergeDdrBankRegions [mk_bank 0x1800 0x3000] sample_state =
      Some (EFI_SUCCESS, s', Some (out ++ gMemoryMapTerminator :: rest')) /\
    (owner out 0x9000 = None <-> owner sample_map 0x9000 = None /\ bank_covers 0x9000 (mk_bank 0x1800 0x3000) || false = false) /\
    owner out 0x2000 = Some ram_kind /\ owner out 0x1000 = Some (kind (ram (bytes "A") 0 0)).
Proof.
  destruct (MergeDdrBankRegions_owner [mk_bank 0x1800 0x3000] sample_state sample_map
    gMemoryMapTerminator (repeat gMemoryMapTerminator 125)) as (st & s' & m & E & H1 & H2).
  - by vm_compute.
  - done.
  - repeat (apply Forall_cons_2 || apply Forall_nil_2); repeat split; vm_compute; done.
  - apply Forall_singleton. repeat split; vm_compute; done.
  - vm_compute. lia.
  - assert (st = EFI_SUCCESS) as -> by (apply H1; vm_compute; lia).
    destruct (H2 eq_refl) as (out & rest' & -> & _ & _ & Hn & Ho).
    exists s', out, rest'. split; [exact E|]. split; [apply Hn|]. rewrite !Ho; [by split; vm_compute| | | |].
    1, 3: intros d e a Hd He Hcd Hce; apply covers_spec in Hcd, Hce; unfold End_, sample_map in *;
      repeat (apply elem_of_cons in Hd as [->|Hd]); try (by apply not_elem_of_nil in Hd);
      repeat (apply elem_of_cons in He as [->|He]); try (by apply not_elem_of_nil in He);
      cbn in Hcd, Hce; try done; lia.
    all: apply Forall_singleton; change (over _ sample_map) with sample_map;
      repeat (apply ordered_cons || constructor); vm_compute; done.
Defined.

(** The regions of the sample in the other order: the RAM partition in front of B lies
    over A and, coming first, is what a lookup finds. *)
Example unordered_map_shadowed :
  owner (rev sample_map) 0x1900 = Some (kind (ram (bytes "A") 0 0)) /\
  owner (merge_list [mk_bank 0x1800 0x3000] (rev sample_map)) 0x1900 = Some ram_kind.
Proof. split; vm_compute; reflexivity. Qed.

(** The placement check accepts a map exactly when it holds one region named
    PStore (without case), that region lies inside one DDR bank and no other
    region shares an address with it; everything else is compromised data. *)
Theorem MemoryMapConfigValidatePStorePlacement_iff (BL : BaseLib) (L : BaseLibLaws BL) ds n banks k :
  Forall region_ok (take n ds) -> Forall bank_ok (take k banks) ->
  (n <= length ds)%nat -> (k <= length banks)%nat ->
  exists st, MemoryMapConfigValidatePStorePlacement (Some ds) n (Some banks) k = Some st /\
    (st = EFI_SUCCESS \/ st = EFI_COMPROMISED_DATA) /\
    (st = EFI_SUCCESS <-> pstore_placed (take n ds) (take k banks)).
Proof. apply validate_spec. Qed.

Lemma MemoryMapConfigValidatePStorePlacement_iff_witness :
  exists st, @MemoryMapConfigValidatePStorePlacement reference_BaseLib
    (Some (sample_map ++ [sample_pstore])) 3 (Some [mk_bank 0x1000 0x8000]) 1 = Some st /\
    (st = EFI_SUCCESS <-> pstore_placed (sample_map ++ [sample_pstore]) [mk_bank 0x1000 0x8000]).
Proof.
  destruct (MemoryMapConfigValidatePStorePlacement_iff reference_BaseLib reference_BaseLib_laws
    (sample_map ++ [sample_pstore]) 3 [mk_bank 0x1000 0x8000] 1) as (st & H1 & _ & H2).
  - repeat (apply Forall_cons_2 || apply Forall_nil_2); repeat split; vm_compute; done.
  - apply Forall_singleton. repeat split; vm_compute; done.
  - vm_compute. lia.
  - vm_compute. lia.
  - by exists st.
Defined.

(** Loading the platform map never faults, keeps the static arrays whole and,
    when it reports success, leaves a non-empty map of well-formed regions
    followed by the terminator; in a build with the PStore log, that map has
    passed the placement check against the banks of the platform. *)
Theorem LoadPlatformMemoryMap_loaded (BL : BaseLib) (L : BaseLibLaws BL) serial g text
    RecordStack Stack get_banks fuel s :
  serves g text -> length RecordStack = MEMORY_MAP_CONFIG_ENTRY_SIZE -> length Stack = 32%nat ->
  Forall bank_ok (get_banks true).2 -> (length text < fuel)%nat -> arrays_ok s ->
  exists st s', LoadPlatformMemoryMap serial g RecordStack Stack get_banks fuel s = Some (st, s') /\
    arrays_ok s' /\
    (EFI_ERROR st = false -> exists ds, loaded_map ds s' /\
       (serial = true -> pstore_placed ds (get_banks true).2)).
Proof.
  intros. destruct (load_map_spec serial g text H RecordStack Stack H0 H1 get_banks H2 fuel H3 s H4)
    as (st & s' & E & Ha & _ & Hs). by exists st, s'.
Qed.

Definition good_platform_text : list Z :=
  bytes "[MemoryMap]" ++ [newline] ++ sample_record ++ [newline] ++
  bytes "[RegisterMap]" ++ [newline] ++
  bytes "0x00800000, 0x00300000, QUP, AddDev, MMAP_IO, UNCACHEABLE, MmIO, NS_DEVICE".
Definition good_platform : boot_config :=
  mk_boot_config (Some good_platform_text) (length good_platform_text) None.
Lemma good_platform_serves : serves good_platform good_platform_text.
Proof.
  rewrite <- (firstn_all good_platform_text) at 1.
  apply serves_buffer; [split; [apply Nat.ltb_lt|apply Nat.leb_le]; by vm_compute|vm_compute; discriminate].
Defined.
Lemma init_arrays_ok : arrays_ok memory_map_init.
Proof. by repeat split. Defined.
Lemma Sm8150_banks_ok : Forall bank_ok (GetPlatformDdrBankRegions_Sm8150 true).2.
Proof. repeat (apply Forall_cons_2 || apply Forall_nil_2); repeat split; vm_compute; done. Defined.

Lemma LoadPlatformMemoryMap_loaded_witness :
  exists st s', @LoadPlatformMemoryMap reference_BaseLib false good_platform (repeat 7 512) (repeat 7 32)
      GetPlatformDdrBankRegions_Sm8150 300 memory_map_init = Some (st, s') /\ arrays_ok s'.
Proof.
  destruct (LoadPlatformMemoryMap_loaded reference_BaseLib reference_BaseLib_laws false good_platform
    good_platform_text (repeat 7 512) (repeat 7 32) GetPlatformDdrBankRegions_Sm8150 300 memory_map_init)
    as (st & s' & E & Ha & _);
    [apply good_platform_serves|by vm_compute|by vm_compute|apply Sm8150_banks_ok
    |apply Nat.ltb_lt; by vm_compute|apply init_arrays_ok|].
  exists st, s'. exact (conj E Ha).
Defined.

(** C38: from any well-formed state, obtaining the map never faults, keeps the state
    well-formed and returns memory that contains a terminator, so that both
    lookups of the helper library end: they answer from the map without leaving
    it. *)
Theorem GetPlatformMemoryMap_safe (BL : BaseLib) (L : BaseLibLaws BL) serial g text
    RecordStack Stack get_banks fuel s :
  serves g text -> length RecordStack = MEMORY_MAP_CONFIG_ENTRY_SIZE -> length Stack = 32%nat ->
  Forall bank_ok (get_banks true).2 -> (length text < fuel)%nat -> map_wf s ->
  exists m s', GetPlatformMemoryMap serial g RecordStack Stack get_banks fuel s = Some (m, s') /\
    map_wf s' /\ terminated m /\
    (forall name, is_Some
       (QcomLocateMemoryMapAreaByName serial g RecordStack Stack get_banks fuel name s)) /\
    (forall a, is_Some
       (QcomLocateMemoryMapAreaByAddress serial g RecordStack Stack get_banks fuel a s)).
Proof.
  intros Hg HR HS Hb Hf Hs.
  destruct (get_map_spec serial g text Hg RecordStack Stack HR HS get_banks Hb fuel Hf s Hs)
    as (m & s' & E & Hw & Ht).
  exists m, s'. split_and!; try done; intros x;
    unfold QcomLocateMemoryMapAreaByName, QcomLocateMemoryMapAreaByAddress; rewrite E; bind_step.
  - destruct (locate_total (fun d => AsciiStriCmp x (Name d) =? 0) m Ht) as [r ->]. by eexists.
  - destruct (locate_total (fun d => Address d =? x) m Ht) as [r ->]. by eexists.
Qed.

Lemma GetPlatformMemoryMap_safe_witness :
  exists m s', @GetPlatformMemoryMap reference_BaseLib false good_platform (repeat 7 512) (repeat 7 32)
      GetPlatformDdrBankRegions_Sm8150 300 memory_map_init = Some (m, s') /\ map_wf s' /\ terminated m.
Proof.
  destruct (GetPlatformMemoryMap_safe reference_BaseLib reference_BaseLib_laws false good_platform
    good_platform_text (repeat 7 512) (repeat 7 32) GetPlatformDdrBankRegions_Sm8150 300 memory_map_init)
    as (m & s' & E & Hw & Ht & _);
    [apply good_platform_serves|by vm_compute|by vm_compute|apply Sm8150_banks_ok
    |apply Nat.ltb_lt; by vm_compute|split; [apply init_arrays_ok|done]|].
  exists m, s'. exact (conj E (conj Hw Ht)).
Defined.

(** Loading is over: every later call answers [st] and changes nothing. *)
Definition settled (BL : BaseLib) (serial : bool) (st : EFI_STATUS) (s : memory_map_state) : Prop :=
  forall g RecordStack Stack get_banks fuel,
    EnsurePlatformMemoryMapLoaded serial g RecordStack Stack get_banks fuel s = Some (st, s).

(** The first definitive answer is final. Once loading ended with anything
    but [EFI_NOT_FOUND], every later call returns the same status and changes
    nothing, whatever the configuration is by then; after [EFI_NOT_FOUND] the
    library loads again. *)
Theorem EnsurePlatformMemoryMapLoaded_final (BL : BaseLib) serial g R St get_banks fuel s st s' :
  EnsurePlatformMemoryMapLoaded serial g R St get_banks fuel s = Some (st, s') ->
  gMemoryMapLoadStatus s' = st /\
  (st <> EFI_NOT_FOUND -> settled BL serial st s') /\
  (gMemoryMapLoaded s' = false -> st = EFI_NOT_FOUND).
Proof.
  unfold settled, EnsurePlatformMemoryMapLoaded at 1. destruct (gMemoryMapLoaded s) eqn:E.
  { intros [= <- <-]. split_and!; [done| |congruence]. intros _ *.
    unfold EnsurePlatformMemoryMapLoaded. by rewrite E. }
  destruct (LoadPlatformMemoryMap _ _ _ _ _ _ _) as [[st1 s1]|]; [|done]. bind_step.
  intros [= <- <-]. unfold EnsurePlatformMemoryMapLoaded. cbn.
  split_and!; [done| |].
  - intros Hst *. rewrite bool_decide_false by done. by rewrite orb_true_r.
  - case_bool_decide; [done|]. by rewrite orb_true_r.
Qed.

Definition failed_load : option (EFI_STATUS * memory_map_state) :=
  @EnsurePlatformMemoryMapLoaded reference_BaseLib false sample_map_config (repeat 7 512)
    (repeat 7 32) GetPlatformDdrBankRegions_Sm8150 300 memory_map_init.
Definition failed_state : memory_map_state :=
  match failed_load with Some (_, s) => s | None => memory_map_init end.

Lemma EnsurePlatformMemoryMapLoaded_final_witness :
  @EnsurePlatformMemoryMapLoaded reference_BaseLib false good_platform (repeat 7 512)
    (repeat 7 32) GetPlatformDdrBankRegions_Sm8150 300 failed_state =
    Some (EFI_COMPROMISED_DATA, failed_state).
Proof.
  assert (failed_load = Some (EFI_COMPROMISED_DATA, failed_state)) as E by (vm_compute; reflexivity).
  exact (proj1 (proj2 (EnsurePlatformMemoryMapLoaded_final reference_BaseLib false _ _ _ _ _ _ _ _ E))
    ltac:(done) good_platform (repeat 7 512) (repeat 7 32) GetPlatformDdrBankRegions_Sm8150 300%nat).
Defined.
