(* ===== verification/StaticMaps.v ===== *)
(** * The built-in memory maps of the SM8150 and SM8350 platforms.

    [Silicon/QC/Sm8150/QcomPkg/Library/AndromedaMemoryMapLib/AndromedaMemoryMapLib.c]
    and its SM8350 sibling: the tables entry by entry, in the macros of
    [AndromedaMemoryMapLib.h], and how they cover the DDR banks of the platform. *)
From stdpp Require Import base numbers list option strings.
From Stdlib Require Import ZArith Lia Ascii.
From S2P Require Import Prelude BaseLib BootConfig BootConfigSpec MemoryMapConfig MemoryMapSpec CsvSpec MemoryMap MergeSpec.
Local Open Scope Z_scope.
Local Open Scope list_scope.

(** The macros of the header that the tables use. *)
Abbreviation SYS_MEM := EFI_RESOURCE_SYSTEM_MEMORY (only parsing).
Abbreviation MEM_RES := EFI_RESOURCE_MEMORY_RESERVED (only parsing).
Abbreviation MMAP_IO := EFI_RESOURCE_MEMORY_MAPPED_IO (only parsing).
Abbreviation INITIALIZED := [EFI_RESOURCE_ATTRIBUTE_INITIALIZED] (only parsing).
Abbreviation UNCACHEABLE := [EFI_RESOURCE_ATTRIBUTE_UNCACHEABLE] (only parsing).
Abbreviation WRITE_COMBINEABLE := [EFI_RESOURCE_ATTRIBUTE_WRITE_COMBINEABLE] (only parsing).
Abbreviation BsData := EfiBootServicesData (only parsing).
Abbreviation Conv := EfiConventionalMemory (only parsing).
Abbreviation MmIO := EfiMemoryMappedIO (only parsing).
Abbreviation Reserv := EfiReservedMemoryType (only parsing).
Abbreviation RtData := EfiRuntimeServicesData (only parsing).
Abbreviation NS_DEVICE := ARM_MEMORY_REGION_ATTRIBUTE_DEVICE (only parsing).
Abbreviation UNCACHED_UNBUFFERED := ARM_MEMORY_REGION_ATTRIBUTE_UNCACHED_UNBUFFERED (only parsing).
Abbreviation UNCACHED_UNBUFFERED_XN := ARM_MEMORY_REGION_ATTRIBUTE_UNCACHED_UNBUFFERED (only parsing).
Abbreviation WRITE_BACK := ARM_MEMORY_REGION_ATTRIBUTE_WRITE_BACK (only parsing).
Abbreviation WRITE_BACK_XN := ARM_MEMORY_REGION_ATTRIBUTE_WRITE_BACK (only parsing).
Abbreviation WRITE_THROUGH_XN := ARM_MEMORY_REGION_ATTRIBUTE_WRITE_THROUGH (only parsing).
Abbreviation reg n := (mk_region (bytes n)) (only parsing).

(** ** The tables *)
Definition Sm8150_gDeviceMemoryDescriptorEx (USE_MEMORY_FOR_SERIAL_OUTPUT : bool) : list ARM_MEMORY_REGION_DESCRIPTOR_EX :=
  [reg "RAM Partition" 0x80000000 0x00600000 AddMem SYS_MEM SYS_MEM_CAP Conv WRITE_BACK_XN;
   reg "Display Reserved" 0x80600000 0x02400000 AddMem MEM_RES SYS_MEM_CAP Reserv WRITE_THROUGH_XN;
   reg "DBI Dump" 0x82A00000 0x00D22000 NoHob MMAP_IO INITIALIZED Conv UNCACHED_UNBUFFERED_XN;
   reg "HLOS 1" 0x83722000 0x01FDE000 AddMem SYS_MEM SYS_MEM_CAP BsData WRITE_BACK_XN;
   reg "HYP" 0x85700000 0x00600000 AddMem SYS_MEM SYS_MEM_CAP Reserv WRITE_BACK_XN;
   reg "MPSS_EFS" 0x85D00000 0x00200000 AddMem SYS_MEM SYS_MEM_CAP Reserv UNCACHED_UNBUFFERED_XN;
   reg "RAM Partition" 0x85F00000 0x00020000 AddMem SYS_MEM SYS_MEM_CAP Conv WRITE_BACK_XN;
   reg "AOP CMD DB" 0x85F20000 0x00020000 AddMem MEM_RES WRITE_COMBINEABLE Reserv UNCACHED_UNBUFFERED_XN;
   reg "GPU PRR" 0x85F40000 0x00010000 AddMem MEM_RES WRITE_COMBINEABLE Reserv UNCACHED_UNBUFFERED_XN;
   reg "HLOS 2" 0x85F50000 0x000B0000 AddMem SYS_MEM SYS_MEM_CAP BsData WRITE_BACK_XN;
   reg "SMEM" 0x86000000 0x00200000 AddMem MEM_RES WRITE_COMBINEABLE Reserv UNCACHED_UNBUFFERED;
   reg "QTEE" 0x86200000 0x01800000 NoHob SYS_MEM SYS_MEM_CAP Reserv NS_DEVICE;
   reg "TZApps" 0x87A00000 0x02100000 NoHob SYS_MEM SYS_MEM_CAP Reserv NS_DEVICE;
   reg "RAM Partition" 0x89B00000 0x01C00000 AddMem SYS_MEM SYS_MEM_CAP Conv WRITE_BACK_XN;
   reg "PIL_REGION" 0x8B700000 0x0F400000 AddMem SYS_MEM SYS_MEM_CAP Reserv UNCACHED_UNBUFFERED_XN;
   reg "DXE Heap" 0x9AB00000 0x03500000 AddMem SYS_MEM SYS_MEM_CAP Conv WRITE_BACK_XN;
   reg "Sched Heap" 0x9E000000 0x00400000 AddMem SYS_MEM SYS_MEM_CAP BsData WRITE_BACK_XN;
   reg "TGCM" 0x9E400000 0x01400000 AddMem MEM_RES WRITE_COMBINEABLE Reserv UNCACHED_UNBUFFERED_XN;
   reg "FV Region" 0x9F800000 0x00400000 AddMem SYS_MEM SYS_MEM_CAP BsData WRITE_BACK_XN;
   reg "UEFI FD" 0x9FC00000 0x00300000 AddMem SYS_MEM SYS_MEM_CAP BsData WRITE_BACK;
   reg "SEC Heap" 0x9FF00000 0x0008C000 AddMem SYS_MEM SYS_MEM_CAP BsData WRITE_BACK_XN;
   reg "CPU Vectors" 0x9FF8C000 0x00001000 AddMem SYS_MEM SYS_MEM_CAP BsData WRITE_BACK;
   reg "MMU PageTables" 0x9FF8D000 0x00003000 AddMem SYS_MEM SYS_MEM_CAP BsData WRITE_BACK_XN;
   reg "RAM Partition" 0x9FF90000 0x00020000 AddMem SYS_MEM SYS_MEM_CAP Conv WRITE_BACK_XN;
   reg "UEFI Stack" 0x9FFB0000 0x00020000 AddMem SYS_MEM SYS_MEM_CAP BsData WRITE_BACK_XN;
   reg "RAM Partition" 0x9FFD0000 0x00027000 AddMem SYS_MEM SYS_MEM_CAP Conv WRITE_BACK_XN;
   reg "Log Buffer" 0x9FFF7000 0x00008000 AddMem SYS_MEM SYS_MEM_CAP RtData WRITE_BACK_XN;
   reg "Info Blk" 0x9FFFF000 0x00001000 AddMem SYS_MEM SYS_MEM_CAP RtData WRITE_BACK_XN;
   reg "Kernel" 0xA0000000 0x05700000 AddMem SYS_MEM SYS_MEM_CAP BsData WRITE_BACK_XN;
   reg "RAM Partition" 0xA5700000 0x17500000 AddMem SYS_MEM SYS_MEM_CAP Conv WRITE_BACK_XN;
   reg "RAM Partition" 0xC0000000 0x80000000 AddMem SYS_MEM SYS_MEM_CAP Conv WRITE_BACK_XN] ++
  (if USE_MEMORY_FOR_SERIAL_OUTPUT
   then [reg "RAM Partition" 0x140000000 0x3FE00000 AddMem SYS_MEM SYS_MEM_CAP Conv WRITE_BACK_XN; 
   reg "PStore" 0x17FE00000 0x00200000 AddMem MEM_RES SYS_MEM_CAP Reserv WRITE_THROUGH_XN; 
   reg "RAM Partition" 0x180000000 0x80000000 AddMem SYS_MEM SYS_MEM_CAP Conv WRITE_BACK_XN]
   else [reg "RAM Partition" 0x140000000 0xC0000000 AddMem SYS_MEM SYS_MEM_CAP Conv WRITE_BACK_XN]) ++
  [reg "AOP_SS_MSG_RAM" 0x0C300000 0x00100000 NoHob MMAP_IO INITIALIZED Conv NS_DEVICE;
   reg "IMEM Base" 0x14680000 0x00040000 NoHob MMAP_IO INITIALIZED Conv NS_DEVICE;
   reg "GCC CLK CTL" 0x00100000 0x00200000 AddDev MMAP_IO UNCACHEABLE MmIO NS_DEVICE;
   reg "MMCX_CPR3" 0x00630000 0x00004000 AddDev MMAP_IO UNCACHEABLE MmIO NS_DEVICE;
   reg "SECURITY CONTROL" 0x00780000 0x00007000 AddDev MMAP_IO UNCACHEABLE MmIO NS_DEVICE;
   reg "PRNG_CFG_PRNG" 0x00790000 0x00010000 AddDev MMAP_IO UNCACHEABLE MmIO NS_DEVICE;
   reg "QUPV3_0_GSI" 0x00800000 0x000D0000 AddDev MMAP_IO UNCACHEABLE MmIO NS_DEVICE;
   reg "QUPV3_1_GSI" 0x00A00000 0x000D0000 AddDev MMAP_IO UNCACHEABLE MmIO NS_DEVICE;
   reg "QUPV3_2_GSI" 0x00C00000 0x000D0000 AddDev MMAP_IO UNCACHEABLE MmIO NS_DEVICE;
   reg "UFS UFS REGS" 0x01D80000 0x00020000 AddDev MMAP_IO UNCACHEABLE MmIO NS_DEVICE;
   reg "CRYPTO0 CRYPTO" 0x01DC0000 0x00040000 AddDev MMAP_IO UNCACHEABLE MmIO NS_DEVICE;
   reg "TCSR_TCSR_REGS" 0x01FC0000 0x00030000 AddDev MMAP_IO UNCACHEABLE MmIO NS_DEVICE;
   reg "GPU_GMU_CX_BLK" 0x02C7D000 0x00002000 AddDev MMAP_IO UNCACHEABLE MmIO NS_DEVICE;
   reg "GPU_CC" 0x02C90000 0x0000A000 AddDev MMAP_IO UNCACHEABLE MmIO NS_DEVICE;
   reg "GPU_CPR" 0x02C9A000 0x00004000 AddDev MMAP_IO UNCACHEABLE MmIO NS_DEVICE;
   reg "TLMM_WEST" 0x03100000 0x00300000 AddDev MMAP_IO UNCACHEABLE MmIO NS_DEVICE;
   reg "TLMM_EAST" 0x03500000 0x00300000 AddDev MMAP_IO UNCACHEABLE MmIO NS_DEVICE;
   reg "TLMM_NORTH" 0x03900000 0x00300000 AddDev MMAP_IO UNCACHEABLE MmIO NS_DEVICE;
   reg "TLMM_SOUTH" 0x03D00000 0x00300000 AddDev MMAP_IO UNCACHEABLE MmIO NS_DEVICE;
   reg "QUPV3_SSC_GSI" 0x05A00000 0x000D0000 AddDev MMAP_IO UNCACHEABLE MmIO NS_DEVICE;
   reg "PERIPH_SS" 0x08800000 0x00200000 AddDev MMAP_IO UNCACHEABLE MmIO NS_DEVICE;
   reg "MCCC_MCCC_MSTR" 0x090B0000 0x00001000 AddDev MMAP_IO UNCACHEABLE MmIO NS_DEVICE;
   reg "NPU_CC" 0x09910000 0x00010000 AddDev MMAP_IO UNCACHEABLE MmIO NS_DEVICE;
   reg "USB30_PRIM" 0x0A600000 0x0011B000 AddDev MMAP_IO UNCACHEABLE MmIO NS_DEVICE;
   reg "USB_RUMI" 0x0A720000 0x00010000 AddDev MMAP_IO UNCACHEABLE MmIO NS_DEVICE;
   reg "USB30_SEC" 0x0A800000 0x0011B000 AddDev MMAP_IO UNCACHEABLE MmIO NS_DEVICE;
   reg "VIDEO_CC" 0x0AB00000 0x00020000 AddDev MMAP_IO UNCACHEABLE MmIO NS_DEVICE;
   reg "TITAN_SS_TITAN" 0x0AC00000 0x00100000 AddDev MMAP_IO UNCACHEABLE MmIO NS_DEVICE;
   reg "TITAN_CAM_CC" 0x0AD00000 0x00020000 AddDev MMAP_IO UNCACHEABLE MmIO NS_DEVICE;
   reg "MDSS" 0x0AE00000 0x00134000 AddDev MMAP_IO UNCACHEABLE MmIO NS_DEVICE;
   reg "DISP_CC" 0x0AF00000 0x00020000 AddDev MMAP_IO UNCACHEABLE MmIO NS_DEVICE;
   reg "PDC_DISPLAY" 0x0B290000 0x00020000 AddDev MMAP_IO UNCACHEABLE MmIO NS_DEVICE;
   reg "PDC_DISP_SEQ" 0x0B490000 0x00020000 AddDev MMAP_IO UNCACHEABLE MmIO NS_DEVICE;
   reg "RPMH_BCM_BCM_TOP" 0x0BA00000 0x00200000 AddDev MMAP_IO UNCACHEABLE MmIO NS_DEVICE;
   reg "RPMH_CPRF_CPRF" 0x0C200000 0x00010000 AddDev MMAP_IO UNCACHEABLE MmIO NS_DEVICE;
   reg "SLP_CNTR" 0x0C221000 0x00001000 AddDev MMAP_IO UNCACHEABLE MmIO NS_DEVICE;
   reg "TSENS0" 0x0C222000 0x00001000 AddDev MMAP_IO UNCACHEABLE MmIO NS_DEVICE;
   reg "TSENS1" 0x0C223000 0x00001000 AddDev MMAP_IO UNCACHEABLE MmIO NS_DEVICE;
   reg "TSENS0_TM" 0x0C263000 0x00001000 AddDev MMAP_IO UNCACHEABLE MmIO NS_DEVICE;
   reg "PSHOLD" 0x0C264000 0x00001000 AddDev MMAP_IO UNCACHEABLE MmIO NS_DEVICE;
   reg "TSENS1_TM" 0x0C265000 0x00001000 AddDev MMAP_IO UNCACHEABLE MmIO NS_DEVICE;
   reg "PMIC ARB SPMI" 0x0C400000 0x02800000 AddDev MMAP_IO UNCACHEABLE MmIO NS_DEVICE;
   reg "SMMU" 0x15000000 0x000D0000 AddDev MMAP_IO UNCACHEABLE MmIO NS_DEVICE;
   reg "APSS_GIC500_GICD" 0x17A00000 0x00010000 AddDev MMAP_IO UNCACHEABLE MmIO NS_DEVICE;
   reg "APSS_GIC500_GICR" 0x17A60000 0x00100000 AddDev MMAP_IO UNCACHEABLE MmIO NS_DEVICE;
   reg "QTIMER" 0x17C00000 0x00110000 AddDev MMAP_IO UNCACHEABLE MmIO NS_DEVICE;
   reg "APSS_WDT_TMR1" 0x17C10000 0x00001000 AddDev MMAP_IO UNCACHEABLE MmIO NS_DEVICE;
   reg "APSS_RSC_RSCCR" 0x18200000 0x00030000 AddDev MMAP_IO UNCACHEABLE MmIO NS_DEVICE;
   reg "SILVER_CLK_CTL" 0x18280000 0x00001000 AddDev MMAP_IO UNCACHEABLE MmIO NS_DEVICE;
   reg "GOLD_CLK_CTL" 0x18282000 0x00001000 AddDev MMAP_IO UNCACHEABLE MmIO NS_DEVICE;
   reg "L3_CLK_CTL" 0x18284000 0x00001000 AddDev MMAP_IO UNCACHEABLE MmIO NS_DEVICE;
   reg "GOLDPLUS_CLK_CTL" 0x18286000 0x00001000 AddDev MMAP_IO UNCACHEABLE MmIO NS_DEVICE;
   reg "SILVER_ACD" 0x18290000 0x00001000 AddDev MMAP_IO UNCACHEABLE MmIO NS_DEVICE;
   reg "GOLD_ACD" 0x18292000 0x00001000 AddDev MMAP_IO UNCACHEABLE MmIO NS_DEVICE;
   reg "L3_ACD" 0x18294000 0x00001000 AddDev MMAP_IO UNCACHEABLE MmIO NS_DEVICE;
   reg "GOLDPLUS_ACD" 0x18296000 0x00001000 AddDev MMAP_IO UNCACHEABLE MmIO NS_DEVICE;
   reg "APSS_ACTPM_WRAP" 0x18300000 0x000B0000 AddDev MMAP_IO UNCACHEABLE MmIO NS_DEVICE;
   gMemoryMapTerminator].

Definition gDeviceMemoryDescriptorEVEx (USE_MEMORY_FOR_SERIAL_OUTPUT : bool) : list ARM_MEMORY_REGION_DESCRIPTOR_EX :=
  [reg "HYP" 0x80000000 0x00600000 AddMem SYS_MEM SYS_MEM_CAP Reserv WRITE_BACK_XN;
   reg "HLOS1" 0x80600000 0x00100000 AddMem SYS_MEM SYS_MEM_CAP Conv WRITE_BACK_XN;
   reg "RAM Partition" 0x80600000 0x00160000 AddMem SYS_MEM SYS_MEM_CAP Conv WRITE_BACK_XN;
   reg "AOP CMD DB" 0x80860000 0x00020000 AddMem MEM_RES UNCACHEABLE Reserv UNCACHED_UNBUFFERED_XN;
   reg "GPU PRR" 0x80880000 0x00010000 AddMem MEM_RES WRITE_COMBINEABLE Reserv UNCACHED_UNBUFFERED_XN;
   reg "TPMControl" 0x80890000 0x00010000 AddMem MEM_RES WRITE_COMBINEABLE RtData UNCACHED_UNBUFFERED_XN;
   reg "USB HLOS Shared" 0x808A0000 0x00010000 AddMem SYS_MEM SYS_MEM_CAP Reserv UNCACHED_UNBUFFERED_XN;
   reg "XBL LOGS" 0x808B0000 0x00010000 AddMem SYS_MEM UNCACHEABLE Reserv UNCACHED_UNBUFFERED_XN;
   reg "HLOS2" 0x808C0000 0x00030000 AddMem SYS_MEM SYS_MEM_CAP Conv WRITE_BACK_XN;
   reg "RAM Partition" 0x808F0000 0x00010000 AddMem SYS_MEM SYS_MEM_CAP Conv WRITE_BACK_XN;
   reg "SMEM" 0x80900000 0x00200000 AddMem MEM_RES UNCACHEABLE Reserv UNCACHED_UNBUFFERED_XN;
   reg "CPUCP" 0x80B00000 0x00100000 AddMem SYS_MEM SYS_MEM_CAP Reserv UNCACHED_UNBUFFERED_XN;
   reg "HLOS3" 0x80C00000 0x01880000 AddMem SYS_MEM SYS_MEM_CAP Conv WRITE_BACK_XN;
   reg "MPSS_EFS" 0x82480000 0x00280000 AddMem SYS_MEM SYS_MEM_CAP Reserv UNCACHED_UNBUFFERED_XN;
   reg "LPASS_NPU" 0x82700000 0x02300000 AddMem MEM_RES UNCACHEABLE Reserv UNCACHED_UNBUFFERED_XN;
   reg "ADSP RPC" 0x84A00000 0x00800000 AddMem MEM_RES UNCACHEABLE Reserv UNCACHED_UNBUFFERED_XN;
   reg "PIL Reserved" 0x85200000 0x16C00000 AddMem MEM_RES UNCACHEABLE Reserv UNCACHED_UNBUFFERED_XN;
   reg "DXE Heap" 0x9BE00000 0x03600000 AddMem SYS_MEM SYS_MEM_CAP Conv WRITE_BACK_XN;
   reg "Sched Heap" 0x9F400000 0x00400000 AddMem SYS_MEM SYS_MEM_CAP BsData WRITE_BACK_XN;
   reg "FV Region" 0x9F800000 0x00400000 AddMem SYS_MEM SYS_MEM_CAP BsData WRITE_BACK_XN;
   reg "XBL SEC FD" 0x9FC00000 0x00041000 AddMem SYS_MEM SYS_MEM_CAP BsData WRITE_BACK;
   reg "UEFI FD" 0x9FC41000 0x002BF000 AddMem SYS_MEM SYS_MEM_CAP BsData WRITE_BACK;
   reg "SEC Heap" 0x9FF00000 0x0008C000 AddMem SYS_MEM SYS_MEM_CAP BsData WRITE_BACK_XN;
   reg "CPU Vectors" 0x9FF8C000 0x00001000 AddMem SYS_MEM SYS_MEM_CAP BsData WRITE_BACK;
   reg "MMU PageTables" 0x9FF8D000 0x00003000 AddMem SYS_MEM SYS_MEM_CAP BsData WRITE_BACK_XN;
   reg "UEFI Stack" 0x9FF90000 0x00040000 AddMem SYS_MEM SYS_MEM_CAP BsData WRITE_BACK_XN;
   reg "RAM Partition" 0x9FFD0000 0x00027000 AddMem SYS_MEM SYS_MEM_CAP Conv WRITE_BACK_XN;
   reg "Log Buffer" 0x9FFF7000 0x00008000 AddMem SYS_MEM SYS_MEM_CAP RtData WRITE_BACK_XN;
   reg "Info Blk" 0x9FFFF000 0x00001000 AddMem SYS_MEM SYS_MEM_CAP RtData WRITE_BACK_XN] ++
  (if USE_MEMORY_FOR_SERIAL_OUTPUT
   then [reg "HLOS4" 0xA0000000 0x09000000 AddMem SYS_MEM SYS_MEM_CAP Conv WRITE_BACK_XN; 
   reg "PStore" 0xA9000000 0x00200000 AddMem MEM_RES SYS_MEM_CAP Reserv WRITE_THROUGH_XN; 
   reg "HLOS4" 0xA9200000 0x05900000 AddMem SYS_MEM SYS_MEM_CAP Conv WRITE_BACK_XN]
   else [reg "HLOS4" 0xA0000000 0x0EB00000 AddMem SYS_MEM SYS_MEM_CAP Conv WRITE_BACK_XN]) ++
  [reg "RAM Partition" 0xAEB00000 0x0A800000 AddMem SYS_MEM SYS_MEM_CAP Conv WRITE_BACK_XN;
   reg "RAM Partition" 0xB9900000 0x01E00000 AddMem SYS_MEM SYS_MEM_CAP Conv WRITE_BACK_XN;
   reg "RAM Partition" 0xC0000000 0x05100000 AddMem SYS_MEM SYS_MEM_CAP Conv WRITE_BACK_XN;
   reg "DBI Dump" 0xC5100000 0x01100000 NoHob MMAP_IO INITIALIZED Conv UNCACHED_UNBUFFERED_XN;
   reg "RAM Partition" 0xC6200000 0x12600000 AddMem SYS_MEM SYS_MEM_CAP Conv WRITE_BACK_XN;
   reg "QTEE" 0xD8800000 0x01800000 HobOnlyNoCacheSetting MEM_RES UNCACHEABLE Reserv UNCACHED_UNBUFFERED_XN;
   reg "TZApps" 0xDA000000 0x03900000 HobOnlyNoCacheSetting MEM_RES UNCACHEABLE Reserv UNCACHED_UNBUFFERED_XN;
   reg "RAM Partition" 0xDD900000 0x03700000 AddMem SYS_MEM SYS_MEM_CAP Conv WRITE_BACK_XN;
   reg "Display Reserved" 0xE1000000 0x02400000 AddMem MEM_RES SYS_MEM_CAP Reserv WRITE_THROUGH_XN;
   reg "Apps Hob" 0xE3400000 0x00001000 AddMem MEM_RES UNCACHEABLE Reserv UNCACHED_UNBUFFERED_XN;
   reg "Pon Hob" 0xE3401000 0x00001000 AddMem MEM_RES UNCACHEABLE Reserv UNCACHED_UNBUFFERED_XN;
   reg "Kernel" 0xE3402000 0x10000000 AddMem SYS_MEM SYS_MEM_CAP BsData WRITE_BACK_XN;
   reg "RAM Partition" 0xF3402000 0x4CBFE000 AddMem SYS_MEM SYS_MEM_CAP Conv WRITE_BACK_XN;
   reg "RAM Partition" 0x140000000 0x140000000 AddMem SYS_MEM SYS_MEM_CAP Conv WRITE_BACK_XN;
   reg "IMEM Base" 0x14680000 0x00040000 NoHob MMAP_IO INITIALIZED Conv NS_DEVICE;
   reg "IMEM Cookie Base" 0x146BF000 0x00001000 AddDev MMAP_IO INITIALIZED Conv NS_DEVICE;
   reg "IPC_ROUTER_TOP" 0x00400000 0x00100000 AddDev MMAP_IO UNCACHEABLE MmIO NS_DEVICE;
   reg "SECURITY CONTROL" 0x00780000 0x00007000 AddDev MMAP_IO UNCACHEABLE MmIO NS_DEVICE;
   reg "QUP" 0x00800000 0x00300000 AddDev MMAP_IO UNCACHEABLE MmIO NS_DEVICE;
   reg "PRNG_CFG_PRNG" 0x010D0000 0x00010000 AddDev MMAP_IO UNCACHEABLE MmIO NS_DEVICE;
   reg "PCIE_4_AHB" 0x01C00000 0x00008000 AddDev MMAP_IO UNCACHEABLE MmIO NS_DEVICE;
   reg "PCIE_3B_AHB" 0x01C08000 0x00008000 AddDev MMAP_IO UNCACHEABLE MmIO NS_DEVICE;
   reg "PCIE_3A_AHB" 0x01C10000 0x00008000 AddDev MMAP_IO UNCACHEABLE MmIO NS_DEVICE;
   reg "PCIE_2B_AHB" 0x01C18000 0x00008000 AddDev MMAP_IO UNCACHEABLE MmIO NS_DEVICE;
   reg "PCIE_2A_AHB" 0x01C20000 0x00008000 AddDev MMAP_IO UNCACHEABLE MmIO NS_DEVICE;
   reg "PCIE_1_AHB" 0x01C28000 0x00008000 AddDev MMAP_IO UNCACHEABLE MmIO NS_DEVICE;
   reg "PCIE_0_AHB" 0x01C30000 0x00008000 AddDev MMAP_IO UNCACHEABLE MmIO NS_DEVICE;
   reg "CRYPTO0 CRYPTO" 0x01DC0000 0x00040000 AddDev MMAP_IO UNCACHEABLE MmIO NS_DEVICE;
   reg "TCSR_TCSR_REGS" 0x01F00000 0x00100000 AddDev MMAP_IO UNCACHEABLE MmIO NS_DEVICE;
   reg "PERIPH_SS" 0x08800000 0x00200000 AddDev MMAP_IO UNCACHEABLE MmIO NS_DEVICE;
   reg "USB" 0x0A400000 0x00C00000 AddDev MMAP_IO UNCACHEABLE MmIO NS_DEVICE;
   reg "AOSS" 0x0B000000 0x04000000 AddDev MMAP_IO UNCACHEABLE MmIO NS_DEVICE;
   reg "TLMM_WEST" 0x0F100000 0x00300000 AddDev MMAP_IO UNCACHEABLE MmIO NS_DEVICE;
   reg "TLMM_SOUTH" 0x0F500000 0x00300000 AddDev MMAP_IO UNCACHEABLE MmIO NS_DEVICE;
   reg "TLMM_NORTH" 0x0F900000 0x00300000 AddDev MMAP_IO UNCACHEABLE MmIO NS_DEVICE;
   reg "SMMU" 0x15000000 0x000D0000 AddDev MMAP_IO UNCACHEABLE MmIO NS_DEVICE;
   reg "USB4" 0x15600000 0x00200000 AddDev MMAP_IO UNCACHEABLE MmIO NS_DEVICE;
   reg "APSS_HM" 0x17800000 0x00D99000 AddDev MMAP_IO UNCACHEABLE MmIO NS_DEVICE;
   reg "PCIE_4_AXI" 0x30000000 0x02000000 AddDev MMAP_IO UNCACHEABLE MmIO NS_DEVICE;
   reg "PCIE_3B_AXI" 0x32000000 0x02000000 AddDev MMAP_IO UNCACHEABLE MmIO NS_DEVICE;
   reg "PCIE_3A_AXI" 0x34000000 0x02000000 AddDev MMAP_IO UNCACHEABLE MmIO NS_DEVICE;
   reg "PCIE_2B_AXI" 0x38000000 0x02000000 AddDev MMAP_IO UNCACHEABLE MmIO NS_DEVICE;
   reg "PCIE_2A_AXI" 0x3C000000 0x02000000 AddDev MMAP_IO UNCACHEABLE MmIO NS_DEVICE;
   reg "PCIE_1_AXI" 0x40000000 0x02000000 AddDev MMAP_IO UNCACHEABLE MmIO NS_DEVICE;
   reg "PCIE_0_AXI" 0x60000000 0x02000000 AddDev MMAP_IO UNCACHEABLE MmIO NS_DEVICE;
   gMemoryMapTerminator].

Definition gDeviceMemoryDescriptorDVEx (USE_MEMORY_FOR_SERIAL_OUTPUT : bool) : list ARM_MEMORY_REGION_DESCRIPTOR_EX :=
  [reg "HYP" 0x80000000 0x00600000 AddMem SYS_MEM SYS_MEM_CAP Reserv WRITE_BACK_XN;
   reg "HLOS1" 0x80600000 0x00100000 AddMem SYS_MEM SYS_MEM_CAP Conv WRITE_BACK_XN;
   reg "RAM Partition" 0x80600000 0x00160000 AddMem SYS_MEM SYS_MEM_CAP Conv WRITE_BACK_XN;
   reg "AOP CMD DB" 0x80860000 0x00020000 AddMem MEM_RES UNCACHEABLE Reserv UNCACHED_UNBUFFERED_XN;
   reg "GPU PRR" 0x80880000 0x00010000 AddMem MEM_RES WRITE_COMBINEABLE Reserv UNCACHED_UNBUFFERED_XN;
   reg "TPMControl" 0x80890000 0x00010000 AddMem MEM_RES WRITE_COMBINEABLE RtData UNCACHED_UNBUFFERED_XN;
   reg "USB HLOS Shared" 0x808A0000 0x00010000 AddMem SYS_MEM SYS_MEM_CAP Reserv UNCACHED_UNBUFFERED_XN;
   reg "XBL LOGS" 0x808B0000 0x00010000 AddMem SYS_MEM UNCACHEABLE Reserv UNCACHED_UNBUFFERED_XN;
   reg "HLOS2" 0x808C0000 0x00030000 AddMem SYS_MEM SYS_MEM_CAP Conv WRITE_BACK_XN;
   reg "RAM Partition" 0x808F0000 0x00010000 AddMem SYS_MEM SYS_MEM_CAP Conv WRITE_BACK_XN;
   reg "SMEM" 0x80900000 0x00200000 AddMem MEM_RES UNCACHEABLE Reserv UNCACHED_UNBUFFERED_XN;
   reg "CPUCP" 0x80B00000 0x00100000 AddMem SYS_MEM SYS_MEM_CAP Reserv UNCACHED_UNBUFFERED_XN;
   reg "HLOS3" 0x80C00000 0x01880000 AddMem SYS_MEM SYS_MEM_CAP Conv WRITE_BACK_XN;
   reg "MPSS_EFS" 0x82480000 0x00280000 AddMem SYS_MEM SYS_MEM_CAP Reserv UNCACHED_UNBUFFERED_XN;
   reg "LPASS_NPU" 0x82700000 0x02300000 AddMem MEM_RES UNCACHEABLE Reserv UNCACHED_UNBUFFERED_XN;
   reg "ADSP RPC" 0x84A00000 0x00800000 AddMem MEM_RES UNCACHEABLE Reserv UNCACHED_UNBUFFERED_XN;
   reg "PIL Reserved" 0x85200000 0x16C00000 AddMem MEM_RES UNCACHEABLE Reserv UNCACHED_UNBUFFERED_XN;
   reg "DXE Heap" 0x9BE00000 0x03600000 AddMem SYS_MEM SYS_MEM_CAP Conv WRITE_BACK_XN;
   reg "Sched Heap" 0x9F400000 0x00400000 AddMem SYS_MEM SYS_MEM_CAP BsData WRITE_BACK_XN;
   reg "FV Region" 0x9F800000 0x00400000 AddMem SYS_MEM SYS_MEM_CAP BsData WRITE_BACK_XN;
   reg "UEFI FD" 0x9FC00000 0x00300000 AddMem SYS_MEM SYS_MEM_CAP BsData WRITE_BACK;
   reg "SEC Heap" 0x9FF00000 0x0008C000 AddMem SYS_MEM SYS_MEM_CAP BsData WRITE_BACK_XN;
   reg "CPU Vectors" 0x9FF8C000 0x00001000 AddMem SYS_MEM SYS_MEM_CAP BsData WRITE_BACK;
   reg "MMU PageTables" 0x9FF8D000 0x00003000 AddMem SYS_MEM SYS_MEM_CAP BsData WRITE_BACK_XN;
   reg "UEFI Stack" 0x9FF90000 0x00040000 AddMem SYS_MEM SYS_MEM_CAP BsData WRITE_BACK_XN;
   reg "RAM Partition" 0x9FFD0000 0x00027000 AddMem SYS_MEM SYS_MEM_CAP Conv WRITE_BACK_XN;
   reg "Log Buffer" 0x9FFF7000 0x00008000 AddMem SYS_MEM SYS_MEM_CAP RtData WRITE_BACK_XN;
   reg "Info Blk" 0x9FFFF000 0x00001000 AddMem SYS_MEM SYS_MEM_CAP RtData WRITE_BACK_XN] ++
  (if USE_MEMORY_FOR_SERIAL_OUTPUT
   then [reg "HLOS4" 0xA0000000 0x09000000 AddMem SYS_MEM SYS_MEM_CAP Conv WRITE_BACK_XN; 
   reg "PStore" 0xA9000000 0x00200000 AddMem MEM_RES SYS_MEM_CAP Reserv WRITE_THROUGH_XN; 
   reg "HLOS4" 0xA9200000 0x05900000 AddMem SYS_MEM SYS_MEM_CAP Conv WRITE_BACK_XN]
   else [reg "HLOS4" 0xA0000000 0x0EB00000 AddMem SYS_MEM SYS_MEM_CAP Conv WRITE_BACK_XN]) ++
  [reg "RAM Partition" 0xAEB00000 0x0AC00000 AddMem SYS_MEM SYS_MEM_CAP Conv WRITE_BACK_XN;
   reg "RAM Partition" 0xB9D00000 0x01E00000 AddMem SYS_MEM SYS_MEM_CAP Conv WRITE_BACK_XN;
   reg "RAM Partition" 0xC0000000 0x05100000 AddMem SYS_MEM SYS_MEM_CAP Conv WRITE_BACK_XN;
   reg "DBI Dump" 0xC5100000 0x01100000 NoHob MMAP_IO INITIALIZED Conv UNCACHED_UNBUFFERED_XN;
   reg "RAM Partition" 0xC6200000 0x12600000 AddMem SYS_MEM SYS_MEM_CAP Conv WRITE_BACK_XN;
   reg "QTEE" 0xD8800000 0x01800000 HobOnlyNoCacheSetting MEM_RES UNCACHEABLE Reserv UNCACHED_UNBUFFERED_XN;
   reg "TZApps" 0xDA000000 0x03900000 HobOnlyNoCacheSetting MEM_RES UNCACHEABLE Reserv UNCACHED_UNBUFFERED_XN;
   reg "RAM Partition" 0xDD900000 0x03700000 AddMem SYS_MEM SYS_MEM_CAP Conv WRITE_BACK_XN;
   reg "Display Reserved" 0xE1000000 0x02400000 AddMem MEM_RES SYS_MEM_CAP Reserv WRITE_THROUGH_XN;
   reg "Apps Hob" 0xE3400000 0x00001000 AddMem MEM_RES UNCACHEABLE Reserv UNCACHED_UNBUFFERED_XN;
   reg "Pon Hob" 0xE3401000 0x00001000 AddMem MEM_RES UNCACHEABLE Reserv UNCACHED_UNBUFFERED_XN;
   reg "RAM Partition" 0xE3402000 0x5CBFE000 AddMem SYS_MEM SYS_MEM_CAP Conv WRITE_BACK_XN;
   reg "RAM Partition" 0x140000000 0x140000000 AddMem SYS_MEM SYS_MEM_CAP Conv WRITE_BACK_XN;
   reg "IMEM Base" 0x14680000 0x00040000 NoHob MMAP_IO INITIALIZED Conv NS_DEVICE;
   reg "IMEM Cookie Base" 0x146BF000 0x00001000 AddDev MMAP_IO INITIALIZED Conv NS_DEVICE;
   reg "IPC_ROUTER_TOP" 0x00400000 0x00100000 AddDev MMAP_IO UNCACHEABLE MmIO NS_DEVICE;
   reg "SECURITY CONTROL" 0x00780000 0x00007000 AddDev MMAP_IO UNCACHEABLE MmIO NS_DEVICE;
   reg "QUP" 0x00800000 0x00300000 AddDev MMAP_IO UNCACHEABLE MmIO NS_DEVICE;
   reg "PRNG_CFG_PRNG" 0x010D0000 0x00010000 AddDev MMAP_IO UNCACHEABLE MmIO NS_DEVICE;
   reg "PCIE_4_AHB" 0x01C00000 0x00008000 AddDev MMAP_IO UNCACHEABLE MmIO NS_DEVICE;
   reg "PCIE_3B_AHB" 0x01C08000 0x00008000 AddDev MMAP_IO UNCACHEABLE MmIO NS_DEVICE;
   reg "PCIE_3A_AHB" 0x01C10000 0x00008000 AddDev MMAP_IO UNCACHEABLE MmIO NS_DEVICE;
   reg "PCIE_2B_AHB" 0x01C18000 0x00008000 AddDev MMAP_IO UNCACHEABLE MmIO NS_DEVICE;
   reg "PCIE_2A_AHB" 0x01C20000 0x00008000 AddDev MMAP_IO UNCACHEABLE MmIO NS_DEVICE;
   reg "PCIE_1_AHB" 0x01C28000 0x00008000 AddDev MMAP_IO UNCACHEABLE MmIO NS_DEVICE;
   reg "PCIE_0_AHB" 0x01C30000 0x00008000 AddDev MMAP_IO UNCACHEABLE MmIO NS_DEVICE;
   reg "CRYPTO0 CRYPTO" 0x01DC0000 0x00040000 AddDev MMAP_IO UNCACHEABLE MmIO NS_DEVICE;
   reg "TCSR_TCSR_REGS" 0x01F00000 0x00100000 AddDev MMAP_IO UNCACHEABLE MmIO NS_DEVICE;
   reg "PERIPH_SS" 0x08800000 0x00200000 AddDev MMAP_IO UNCACHEABLE MmIO NS_DEVICE;
   reg "USB" 0x0A400000 0x00C00000 AddDev MMAP_IO UNCACHEABLE MmIO NS_DEVICE;
   reg "AOSS" 0x0B000000 0x04000000 AddDev MMAP_IO UNCACHEABLE MmIO NS_DEVICE;
   reg "TLMM_WEST" 0x0F100000 0x00300000 AddDev MMAP_IO UNCACHEABLE MmIO NS_DEVICE;
   reg "TLMM_SOUTH" 0x0F500000 0x00300000 AddDev MMAP_IO UNCACHEABLE MmIO NS_DEVICE;
   reg "TLMM_NORTH" 0x0F900000 0x00300000 AddDev MMAP_IO UNCACHEABLE MmIO NS_DEVICE;
   reg "SMMU" 0x15000000 0x000D0000 AddDev MMAP_IO UNCACHEABLE MmIO NS_DEVICE;
   reg "USB4" 0x15600000 0x00200000 AddDev MMAP_IO UNCACHEABLE MmIO NS_DEVICE;
   reg "APSS_HM" 0x17800000 0x00D99000 AddDev MMAP_IO UNCACHEABLE MmIO NS_DEVICE;
   reg "PCIE_4_AXI" 0x30000000 0x02000000 AddDev MMAP_IO UNCACHEABLE MmIO NS_DEVICE;
   reg "PCIE_3B_AXI" 0x32000000 0x02000000 AddDev MMAP_IO UNCACHEABLE MmIO NS_DEVICE;
   reg "PCIE_3A_AXI" 0x34000000 0x02000000 AddDev MMAP_IO UNCACHEABLE MmIO NS_DEVICE;
   reg "PCIE_2B_AXI" 0x38000000 0x02000000 AddDev MMAP_IO UNCACHEABLE MmIO NS_DEVICE;
   reg "PCIE_2A_AXI" 0x3C000000 0x02000000 AddDev MMAP_IO UNCACHEABLE MmIO NS_DEVICE;
   reg "PCIE_1_AXI" 0x40000000 0x02000000 AddDev MMAP_IO UNCACHEABLE MmIO NS_DEVICE;
   reg "PCIE_0_AXI" 0x60000000 0x02000000 AddDev MMAP_IO UNCACHEABLE MmIO NS_DEVICE;
   gMemoryMapTerminator].

(** [GetPlatformMemoryMap] of the two libraries; [BoardID] is the field of the HOB
    at 0xE3400000. *)
Definition Sm8150_GetPlatformMemoryMap (serial : bool) : list ARM_MEMORY_REGION_DESCRIPTOR_EX :=
  Sm8150_gDeviceMemoryDescriptorEx serial.
Definition Sm8350_GetPlatformMemoryMap (serial : bool) (BoardID : Z)
  : list ARM_MEMORY_REGION_DESCRIPTOR_EX :=
  if BoardID <? 0xA then gDeviceMemoryDescriptorEVEx serial else gDeviceMemoryDescriptorDVEx serial.

(** ** Covering of the banks *)
(** How many regions of a map cover an address. *)
Definition owners (ds : list region) (a : Z) : nat := length (base.filter (fun d => covers d a = true) ds).

(** The regions follow each other without gap from [c] to [e]. *)
Fixpoint tiles (c e : Z) (l : list region) : bool :=
  match l with
  | [] => c =? e
  | d :: l' => (Address d =? c) && (0 <? Length d) && tiles (End_ d) e l'
  end.
(** [n] regions overlap the range, each covering all of it. *)
Definition covered_by (n : nat) (ds : list region) (r : bank) : bool :=
  (length (over r ds) =? n)%nat &&
  forallb (fun d => (Address d <=? Base r) && (bank_end r <=? End_ d)) (over r ds).
Definition tiled (ds : list region) (r : bank) : bool := tiles (Base r) (bank_end r) (over r ds).

Lemma covers_overlaps r d a : bank_covers a r = true -> covers d a = true -> overlaps r d = true.
Proof.
  intros Ha Hc. unfold bank_covers in Ha. apply covers_spec in Hc. bool_to_prop.
  unfold overlaps. apply andb_true_iff. rewrite !Z.ltb_lt. lia.
Qed.

Lemma owners_over r ds a : bank_covers a r = true -> owners ds a = owners (over r ds) a.
Proof.
  intros Ha. unfold owners, over. f_equal. induction ds as [|d ds IH]; [done|].
  rewrite !filter_cons. destruct (decide (covers d a = true)) as [Hc|Hc].
  - assert (overlaps r d = true) as Ho by (by eapply covers_overlaps).
    rewrite (decide_True _ _ Ho), filter_cons, decide_True by done. by rewrite IH.
  - rewrite IH. case_decide; [|done]. by rewrite filter_cons, decide_False.
Qed.

Lemma tiles_le c e l : tiles c e l = true -> c <= e.
Proof.
  revert c. induction l as [|d l IH]; intros c H; cbn [tiles] in H; bool_to_prop; [lia|].
  match goal with H : tiles _ _ _ = true |- _ => apply IH in H end. unfold End_ in *. lia.
Qed.

Lemma tiles_owners c e l a :
  tiles c e l = true ->
  owners l a = if (c <=? a) && (a <? e) then 1%nat else 0%nat.
Proof.
  unfold owners. revert c. induction l as [|d l IH]; intros c H; cbn [tiles] in H.
  - bool_to_prop. subst e. cbn [base.filter list_filter length].
    destruct (Z.leb_spec c a), (Z.ltb_spec a c); done || lia.
  - apply andb_true_iff in H as [H Ht]. bool_to_prop. subst c. rewrite filter_cons.
    assert (Hle := tiles_le _ _ _ Ht). specialize (IH _ Ht). unfold End_ in *.
    case_decide as Hc; cbn [length]; rewrite IH; rewrite covers_spec in Hc; unfold End_ in *;
      destruct (Z.leb_spec (Address d) a), (Z.leb_spec (Address d + Length d) a), (Z.ltb_spec a e);
      try done; lia.
Qed.

Lemma tiled_owners ds r a : tiled ds r = true -> bank_covers a r = true -> owners ds a = 1%nat.
Proof.
  intros Ht Ha. rewrite (owners_over r) by done. rewrite (tiles_owners _ _ _ _ Ht).
  unfold bank_covers in Ha. by rewrite Ha.
Qed.

Lemma covered_owners n ds r a : covered_by n ds r = true -> bank_covers a r = true -> owners ds a = n.
Proof.
  intros Ht Ha. rewrite (owners_over r) by done. unfold covered_by in Ht.
  apply andb_true_iff in Ht as [Hn Ht]. bool_to_prop. subst n.
  unfold owners. f_equal. induction (over r ds) as [|d l IH]; [done|].
  cbn [forallb] in Ht. apply andb_true_iff in Ht as [Hd Ht]. unfold bank_covers in Ha. bool_to_prop.
  rewrite filter_cons, decide_True by (apply covers_spec; lia). by rewrite IH.
Qed.

(** In both builds the SM8150 table partitions the DDR banks of
    [GetPlatformDdrBankRegions]: every address of a bank is covered by exactly one
    region of the map. *)
Theorem Sm8150_map_partitions_banks serial r a :
  r ∈ (GetPlatformDdrBankRegions_Sm8150 true).2 -> bank_covers a r = true ->
  owners (Sm8150_GetPlatformMemoryMap serial) a = 1%nat.
Proof.
  intros Hr. apply tiled_owners.
  assert (forallb (tiled (Sm8150_GetPlatformMemoryMap serial))
            (GetPlatformDdrBankRegions_Sm8150 true).2 = true) as H by (destruct serial; by vm_compute).
  rewrite forallb_forall in H. apply H. by apply list_elem_of_In.
Qed.

Lemma Sm8150_map_partitions_banks_witness :
  owners (Sm8150_GetPlatformMemoryMap true) 0x17FE01000 = 1%nat.
Proof.
  apply (Sm8150_map_partitions_banks true (mk_bank 0x140000000 0xC0000000)); [|by vm_compute].
  by right; right; left.
Defined.

(** The ranges of the SM8350 banks below and above the misplaced entries. *)
Definition Sm8350_good_ranges (BoardID : Z) : list bank :=
  let banks := (GetPlatformDdrBankRegions_Sm8350 BoardID true).2 in
  mk_bank 0x80000000 0x600000 ::
  match banks with b0 :: _ => [mk_bank 0x80860000 (bank_end b0 - 0x80860000)] | [] => [] end ++ tail banks.

(** In both builds and for every board the SM8350 table lists the region HLOS1
    and a RAM partition at the same start, so that 1 MiB of DDR has two regions
    and the 1 MiB before the next region, which the partition was to reach, has
    none; everywhere else in the banks there is exactly one. *)
Theorem Sm8350_map_misplaced_partition serial BoardID a :
  (0x80600000 <= a < 0x80700000 -> owners (Sm8350_GetPlatformMemoryMap serial BoardID) a = 2%nat) /\
  (0x80760000 <= a < 0x80860000 -> owners (Sm8350_GetPlatformMemoryMap serial BoardID) a = 0%nat) /\
  (0x80700000 <= a < 0x80760000 -> owners (Sm8350_GetPlatformMemoryMap serial BoardID) a = 1%nat) /\
  (forall r, r ∈ Sm8350_good_ranges BoardID -> bank_covers a r = true ->
     owners (Sm8350_GetPlatformMemoryMap serial BoardID) a = 1%nat).
Proof.
  assert (covered_by 2 (Sm8350_GetPlatformMemoryMap serial BoardID) (mk_bank 0x80600000 0x100000) = true /\
          covered_by 0 (Sm8350_GetPlatformMemoryMap serial BoardID) (mk_bank 0x80760000 0x100000) = true /\
          covered_by 1 (Sm8350_GetPlatformMemoryMap serial BoardID) (mk_bank 0x80700000 0x60000) = true /\
          forallb (tiled (Sm8350_GetPlatformMemoryMap serial BoardID)) (Sm8350_good_ranges BoardID) = true)
    as (H2 & H0 & H3 & H1).
  { unfold Sm8350_GetPlatformMemoryMap, Sm8350_good_ranges, GetPlatformDdrBankRegions_Sm8350.
    destruct (BoardID <? 0xA), serial; by vm_compute. }
  split_and!.
  - intros Ha. apply (covered_owners _ _ _ _ H2). unfold bank_covers, bank_end. cbn.
    apply andb_true_iff. rewrite Z.leb_le, Z.ltb_lt. lia.
  - intros Ha. apply (covered_owners _ _ _ _ H0). unfold bank_covers, bank_end. cbn.
    apply andb_true_iff. rewrite Z.leb_le, Z.ltb_lt. lia.
  - intros Ha. apply (covered_owners _ _ _ _ H3). unfold bank_covers, bank_end. cbn.
    apply andb_true_iff. rewrite Z.leb_le, Z.ltb_lt. lia.
  - intros r Hr. apply tiled_owners. rewrite forallb_forall in H1. apply H1. by apply list_elem_of_In.
Qed.

Lemma Sm8350_map_misplaced_partition_witness :
  owners (Sm8350_GetPlatformMemoryMap true 0xA) 0x80600000 = 2%nat /\
  owners (Sm8350_GetPlatformMemoryMap true 0xA) 0x80800000 = 0%nat.
Proof.
  split.
  - apply (Sm8350_map_misplaced_partition true 0xA 0x80600000). lia.
  - apply (Sm8350_map_misplaced_partition true 0xA 0x80800000). lia.
Defined.
