(* ===== verification/ShippedConfig.v ===== *)
(** * The boot configurations that are shipped with the platforms.

    [BootConfig/UefiPlatEpsilon.cfg] (SM8150) and [BootConfig/UefiPlatZeta.cfg]
    (SM8350) line by line, with their siblings [...NoSb.cfg], which differ in the
    value of [SecureBootEnabled] only ([sb]); what the memory map library of
    AndromedaPkg makes of them in a build without the PStore log, compared with the
    tables that the QcomPkg libraries of the two platforms have built in. *)
From stdpp Require Import base numbers list option strings.
From Stdlib Require Import ZArith Lia.
From S2P Require Import Prelude BaseLib BootConfig BootConfigSpec MemoryMapConfig MemoryMapSpec CsvSpec MemoryMap MergeSpec StaticMaps.
Local Open Scope Z_scope.
Local Open Scope list_scope.

(** A line of a configuration file: its quotation marks are written as apostrophes,
    which no line contains. *)
Definition cfg_line (s : string) : list Z := ((fun c => if c =? 39 then 34 else c) <$> bytes s) ++ [newline].

Definition UefiPlatEpsilon (sb : bool) : list Z := concat (cfg_line <$> [
   "# Surface Duo (SM8150) UEFI platform configuration.";
   "[Config]";
   "Version = 3";
   "MaxMemoryRegions = 128";
   "";
   "[MemoryMap]";
   "# Note: Prefer regions to align on 2MB boundaries for performace while updating mmu mappings";
   "#                                                    EFI_RESOURCE_ EFI_RESOURCE_ATTRIBUTE_ EFI_MEMORY_TYPE ARM_REGION_ATTRIBUTE_";
   "#MemBase,   MemSize,   MemLabel(32 Char.), BuildHob, ResourceType, ResourceAttribute, MemoryType, CacheAttributes";
   "#--------------------- DDR  -----";
   "0x80600000, 0x02400000, 'Display Reserved',  AddMem, MEM_RES, SYS_MEM_CAP, Reserv, WRITE_THROUGH_XN";
   "0x82A00000, 0x00D22000, 'DBI Dump',          NoHob,  MMAP_IO, INITIALIZED, Conv,   UNCACHED_UNBUFFERED_XN";
   "0x83722000, 0x01FDE000, 'HLOS 1',            AddMem, SYS_MEM, SYS_MEM_CAP, BsData, WRITE_BACK_XN";
   "0x85700000, 0x00600000, 'HYP',               AddMem, SYS_MEM, SYS_MEM_CAP, Reserv, WRITE_BACK_XN";
   "0x85D00000, 0x00200000, 'MPSS_EFS',          AddMem, SYS_MEM, SYS_MEM_CAP, Reserv, UNCACHED_UNBUFFERED_XN";
   "0x85F20000, 0x00020000, 'AOP CMD DB',        AddMem, MEM_RES, WRITE_COMBINEABLE, Reserv, UNCACHED_UNBUFFERED_XN";
   "0x85F40000, 0x00010000, 'GPU PRR',           AddMem, MEM_RES, WRITE_COMBINEABLE, Reserv, UNCACHED_UNBUFFERED_XN";
   "0x85F50000, 0x000B0000, 'HLOS 2',            AddMem, SYS_MEM, SYS_MEM_CAP, BsData, WRITE_BACK_XN";
   "0x86000000, 0x00200000, 'SMEM',              AddMem, MEM_RES, WRITE_COMBINEABLE, Reserv, UNCACHED_UNBUFFERED";
   "0x86200000, 0x01800000, 'QTEE',              NoHob,  SYS_MEM, SYS_MEM_CAP, Reserv, NS_DEVICE";
   "0x87A00000, 0x02100000, 'TZApps',            NoHob,  SYS_MEM, SYS_MEM_CAP, Reserv, NS_DEVICE";
   "0x8B700000, 0x0F400000, 'PIL_REGION',        AddMem, SYS_MEM, SYS_MEM_CAP, Reserv, UNCACHED_UNBUFFERED_XN";
   "0x9AB00000, 0x03500000, 'DXE Heap',          AddMem, SYS_MEM, SYS_MEM_CAP, Conv,   WRITE_BACK_XN";
   "0x9E000000, 0x00400000, 'Sched Heap',        AddMem, SYS_MEM, SYS_MEM_CAP, BsData, WRITE_BACK_XN";
   "0x9E400000, 0x01400000, 'TGCM',              AddMem, MEM_RES, WRITE_COMBINEABLE, Reserv, UNCACHED_UNBUFFERED_XN";
   "0x9F800000, 0x00400000, 'FV Region',         AddMem, SYS_MEM, SYS_MEM_CAP, BsData, WRITE_BACK_XN";
   "0x9FC00000, 0x00300000, 'UEFI FD',           AddMem, SYS_MEM, SYS_MEM_CAP, BsData, WRITE_BACK";
   "0x9FF00000, 0x0008C000, 'SEC Heap',          AddMem, SYS_MEM, SYS_MEM_CAP, BsData, WRITE_BACK_XN";
   "0x9FF8C000, 0x00001000, 'CPU Vectors',       AddMem, SYS_MEM, SYS_MEM_CAP, BsData, WRITE_BACK";
   "0x9FF8D000, 0x00003000, 'MMU PageTables',    AddMem, SYS_MEM, SYS_MEM_CAP, BsData, WRITE_BACK_XN";
   "0x9FFB0000, 0x00020000, 'UEFI Stack',        AddMem, SYS_MEM, SYS_MEM_CAP, BsData, WRITE_BACK_XN";
   "0x9FFF7000, 0x00008000, 'Log Buffer',        AddMem, SYS_MEM, SYS_MEM_CAP, RtData, WRITE_BACK_XN";
   "0x9FFFF000, 0x00001000, 'Info Blk',          AddMem, SYS_MEM, SYS_MEM_CAP, RtData, WRITE_BACK_XN";
   "0xA0000000, 0x05700000, 'Kernel',            AddMem, SYS_MEM, SYS_MEM_CAP, BsData, WRITE_BACK_XN";
   "[RegisterMap]";
   "#--------------------- Other -----";
   "0x0C300000, 0x00100000, 'AOP_SS_MSG_RAM',     NoHob,  MMAP_IO, INITIALIZED, Conv,   NS_DEVICE";
   "0x14680000, 0x00040000, 'IMEM Base',          NoHob,  MMAP_IO, INITIALIZED, Conv,   NS_DEVICE";
   "#--------------------- Register --";
   "#Keep sorted by base address";
   "0x00100000, 0x00200000, 'GCC CLK CTL',       AddDev, MMAP_IO, UNCACHEABLE, MmIO, NS_DEVICE";
   "0x00630000, 0x00004000, 'MMCX_CPR3',          AddDev, MMAP_IO, UNCACHEABLE, MmIO,   NS_DEVICE";
   "0x00780000, 0x00007000, 'SECURITY CONTROL',   AddDev, MMAP_IO, UNCACHEABLE, MmIO,   NS_DEVICE";
   "0x00790000, 0x00010000, 'PRNG_CFG_PRNG',      AddDev, MMAP_IO, UNCACHEABLE, MmIO,   NS_DEVICE";
   "0x00800000, 0x000D0000, 'QUPV3_0_GSI',        AddDev, MMAP_IO, UNCACHEABLE, MmIO,   NS_DEVICE";
   "0x00A00000, 0x000D0000, 'QUPV3_1_GSI',        AddDev, MMAP_IO, UNCACHEABLE, MmIO,   NS_DEVICE";
   "0x00C00000, 0x000D0000, 'QUPV3_2_GSI',        AddDev, MMAP_IO, UNCACHEABLE, MmIO,   NS_DEVICE";
   "0x01D80000, 0x00020000, 'UFS UFS REGS',       AddDev, MMAP_IO, UNCACHEABLE, MmIO,   NS_DEVICE";
   "0x01DC0000, 0x00040000, 'CRYPTO0 CRYPTO',     AddDev, MMAP_IO, UNCACHEABLE, MmIO,   NS_DEVICE";
   "0x01FC0000, 0x00030000, 'TCSR_TCSR_REGS',     AddDev, MMAP_IO, UNCACHEABLE, MmIO,   NS_DEVICE";
   "0x02C7D000, 0x00002000, 'GPU_GMU_CX_BLK',     AddDev, MMAP_IO, UNCACHEABLE, MmIO,   NS_DEVICE";
   "0x02C90000, 0x0000A000, 'GPU_CC',             AddDev, MMAP_IO, UNCACHEABLE, MmIO,   NS_DEVICE";
   "0x02C9A000, 0x00004000, 'GPU_CPR',            AddDev, MMAP_IO, UNCACHEABLE, MmIO,   NS_DEVICE";
   "0x03100000, 0x00300000, 'TLMM_WEST',          AddDev, MMAP_IO, UNCACHEABLE, MmIO,   NS_DEVICE";
   "0x03500000, 0x00300000, 'TLMM_EAST',          AddDev, MMAP_IO, UNCACHEABLE, MmIO,   NS_DEVICE";
   "0x03900000, 0x00300000, 'TLMM_NORTH',         AddDev, MMAP_IO, UNCACHEABLE, MmIO,   NS_DEVICE";
   "0x03D00000, 0x00300000, 'TLMM_SOUTH',         AddDev, MMAP_IO, UNCACHEABLE, MmIO,   NS_DEVICE";
   "0x05A00000, 0x000D0000, 'QUPV3_SSC_GSI',      AddDev, MMAP_IO, UNCACHEABLE, MmIO,   NS_DEVICE";
   "0x08800000, 0x00200000, 'PERIPH_SS',          AddDev, MMAP_IO, UNCACHEABLE, MmIO,   NS_DEVICE";
   "0x090B0000, 0x00001000, 'MCCC_MCCC_MSTR',     AddDev, MMAP_IO, UNCACHEABLE, MmIO,   NS_DEVICE";
   "0x09910000, 0x00010000, 'NPU_CC',             AddDev, MMAP_IO, UNCACHEABLE, MmIO,   NS_DEVICE";
   "0x0A600000, 0x0011B000, 'USB30_PRIM',         AddDev, MMAP_IO, UNCACHEABLE, MmIO,   NS_DEVICE";
   "0x0A720000, 0x00010000, 'USB_RUMI',           AddDev, MMAP_IO, UNCACHEABLE, MmIO,   NS_DEVICE";
   "0x0A800000, 0x0011B000, 'USB30_SEC',          AddDev, MMAP_IO, UNCACHEABLE, MmIO,   NS_DEVICE";
   "0x0AB00000, 0x00020000, 'VIDEO_CC',           AddDev, MMAP_IO, UNCACHEABLE, MmIO,   NS_DEVICE";
   "0x0AC00000, 0x00100000, 'TITAN_SS_TITAN',     AddDev, MMAP_IO, UNCACHEABLE, MmIO,   NS_DEVICE";
   "0x0AD00000, 0x00020000, 'TITAN_CAM_CC',       AddDev, MMAP_IO, UNCACHEABLE, MmIO,   NS_DEVICE";
   "0x0AE00000, 0x00134000, 'MDSS',               AddDev, MMAP_IO, UNCACHEABLE, MmIO,   NS_DEVICE";
   "0x0AF00000, 0x00020000, 'DISP_CC',            AddDev, MMAP_IO, UNCACHEABLE, MmIO,   NS_DEVICE";
   "0x0B290000, 0x00020000, 'PDC_DISPLAY',        AddDev, MMAP_IO, UNCACHEABLE, MmIO,   NS_DEVICE";
   "0x0B490000, 0x00020000, 'PDC_DISP_SEQ',       AddDev, MMAP_IO, UNCACHEABLE, MmIO,   NS_DEVICE";
   "0x0BA00000, 0x00200000, 'RPMH_BCM_BCM_TOP',   AddDev, MMAP_IO, UNCACHEABLE, MmIO,   NS_DEVICE";
   "0x0C200000, 0x00010000, 'RPMH_CPRF_CPRF',     AddDev, MMAP_IO, UNCACHEABLE, MmIO,   NS_DEVICE";
   "0x0C221000, 0x00001000, 'SLP_CNTR',           AddDev, MMAP_IO, UNCACHEABLE, MmIO,   NS_DEVICE";
   "0x0C222000, 0x00001000, 'TSENS0',             AddDev, MMAP_IO, UNCACHEABLE, MmIO,   NS_DEVICE";
   "0x0C223000, 0x00001000, 'TSENS1',             AddDev, MMAP_IO, UNCACHEABLE, MmIO,   NS_DEVICE";
   "0x0C263000, 0x00001000, 'TSENS0_TM',          AddDev, MMAP_IO, UNCACHEABLE, MmIO,   NS_DEVICE";
   "0x0C264000, 0x00001000, 'PSHOLD',             AddDev, MMAP_IO, UNCACHEABLE, MmIO,   NS_DEVICE";
   "0x0C265000, 0x00001000, 'TSENS1_TM',          AddDev, MMAP_IO, UNCACHEABLE, MmIO,   NS_DEVICE";
   "0x0C400000, 0x02800000, 'PMIC ARB SPMI',      AddDev, MMAP_IO, UNCACHEABLE, MmIO,   NS_DEVICE";
   "0x15000000, 0x000D0000, 'SMMU',               AddDev, MMAP_IO, UNCACHEABLE, MmIO,   NS_DEVICE";
   "0x17A00000, 0x00010000, 'APSS_GIC500_GICD',   AddDev, MMAP_IO, UNCACHEABLE, MmIO,   NS_DEVICE";
   "0x17A60000, 0x00100000, 'APSS_GIC500_GICR',   AddDev, MMAP_IO, UNCACHEABLE, MmIO,   NS_DEVICE";
   "0x17C00000, 0x00110000, 'QTIMER',             AddDev, MMAP_IO, UNCACHEABLE, MmIO,   NS_DEVICE";
   "0x17C10000, 0x00001000, 'APSS_WDT_TMR1',      AddDev, MMAP_IO, UNCACHEABLE, MmIO,   NS_DEVICE";
   "0x18200000, 0x00030000, 'APSS_RSC_RSCCR',     AddDev, MMAP_IO, UNCACHEABLE, MmIO,   NS_DEVICE";
   "0x18280000, 0x00001000, 'SILVER_CLK_CTL',     AddDev, MMAP_IO, UNCACHEABLE, MmIO,   NS_DEVICE";
   "0x18282000, 0x00001000, 'GOLD_CLK_CTL',       AddDev, MMAP_IO, UNCACHEABLE, MmIO,   NS_DEVICE";
   "0x18284000, 0x00001000, 'L3_CLK_CTL',         AddDev, MMAP_IO, UNCACHEABLE, MmIO,   NS_DEVICE";
   "0x18286000, 0x00001000, 'GOLDPLUS_CLK_CTL',   AddDev, MMAP_IO, UNCACHEABLE, MmIO,   NS_DEVICE";
   "0x18290000, 0x00001000, 'SILVER_ACD',         AddDev, MMAP_IO, UNCACHEABLE, MmIO,   NS_DEVICE";
   "0x18292000, 0x00001000, 'GOLD_ACD',           AddDev, MMAP_IO, UNCACHEABLE, MmIO,   NS_DEVICE";
   "0x18294000, 0x00001000, 'L3_ACD',             AddDev, MMAP_IO, UNCACHEABLE, MmIO,   NS_DEVICE";
   "0x18296000, 0x00001000, 'GOLDPLUS_ACD',       AddDev, MMAP_IO, UNCACHEABLE, MmIO,   NS_DEVICE";
   "0x18300000, 0x000B0000, 'APSS_ACTPM_WRAP',    AddDev, MMAP_IO, UNCACHEABLE, MmIO,   NS_DEVICE";
   "[ConfigParameters]";
   "# Update count if more than default 30 entries #";
   "ConfigParameterCount = 64";
   "";
   "## UEFI CORE ##";
   "PlatConfigFileName = 'uefiplatLA.cfg'";
   "OsTypeString = 'LA'";
   "NumCpusFuseAddr = 0x5C04C";
   "";
   "# Force booting to shell whilst in pre-silicon phase";
   "EnableShell = 0x1";
   "";
   "## Shared IMEM (Cookies, Offsets)";
   "SharedIMEMBaseAddr    = 0x146BF000";
   "";
   "DloadCookieAddr = 0x01FD3000";
   "DloadCookieValue = 0x10";
   "";
   "## MPPark ##";
   "## NumCpus - max number of cores";
   "## NumActiveCores - number of cores used";
   "NumCpus = 8";
   "NumActiveCores = 8";
   "";
   "## ULogFile ##";
   "SpecialLogPartition = 'LOGFS:\'";
   "MaxLogFileSize = 0x400000";
   "";
   "# UEFI memory use #";
   "UefiMemUseThreshold = 0x77";
   "";
   "## USB ##";
   "USBHS1_Config = 0x0";
   "UsbFnIoRevNum = 0x00010001";
   "";
   "## Buttons / KeyPad ##";
   "PwrBtnShutdownFlag = 0x0";
   "";
   "## SDCC ##";
   "Sdc1GpioConfigOn = 0x1E92";
   "Sdc2GpioConfigOn = 0x1E92";
   "Sdc1GpioConfigOff = 0xA00";
   "Sdc2GpioConfigOff = 0xA00";
   "";
   "## SDHC Mode 0:Legacy Mode, Non-zero: SDHC Mode ##";
   "EnableSDHCSwitch = 0x1";
   "";
   "## UFS ##";
   "EnableUfsIOC = 1";
   "UfsSmmuConfigForOtherBootDev = 1";
   "";
   "## PCIE ##";
   "#PCIeRPNumber BIT 7:0  -> number of RPs to be enabled";
   "#PCIeRPNumber BIT 15:8 -> BIT mask to identify which RPs are enabled";
   "#Eg. value: 0x0502     -> Total two numbers of RPs, RP0 and RP2 are enabled";
   "#Total RPs supported 8 numbers and bits allocated are 16 bits";
   "";
   "#PCIeRPNumber=0x0101";
   "";
   "## Security flag ##";
   "SecurityFlag = 0xC4";
   "";
   "# SecBootEnableFlag = 0x1               i.e. 0b00000001";
   "# TreeTpmEnableFlag = 0x2               i.e. 0b00000010";
   "# CommonMbnLoadFlag = 0x4                 i.e. 0b00000100";
   "# DxHdcp2LoadFlag = 0x8                 i.e. 0b00001000";
   "# VariableServicesFlag = 0x10           i.e. 0b00010000";
   "# WinsecappFlag = 0x20                  i.e. 0b00100000";
   "# LoadSecAppFlag = 0x40                 i.e. 0b01000000";
   "# LoadKeymasterFlag = 0x80              i.e. 0b10000000";
   "# EnableQseeLogsFlag = 0x100            i.e. 0b 00000001 00000000";
   "";
   "## TZ ApPs Notification parameters";
   "TzAppsRegnAddr = 0x87900000";
   "TzAppsRegnSize = 0x02200000";
   "";
   "## Default app to boot in platform BDS init";
   "DefaultChargerApp = 'QcomChargerApp'";
   "DefaultBDSBootApp = 'LinuxLoader'";
   "";
   "## LogFs partition ##";
   "## NOTE: Ensure logs 8MB bin is flashed from /Tools/binaries ##";
   "EnableLogFsSyncInRetail = 0x0";
   "";
   "## ShmBridge Memory Size";
   "ShmBridgememSize = 0xA00000";
   "";
   "#";
   "#  Multithreading options";
   "#";
   "# MS_CHANGE: disable multithreading";
   "EnableMultiThreading = 0";
   "MaxCoreCnt = 8";
   "# Keep the following number of cores active, including the boot core";
   "EarlyInitCoreCnt = 1";
   "";
   "# Initialize Display panel in its own thread to run in parallel to booting";
   "# MS_CHANGE";
   "EnableDisplayThread = 0";
   "";
   "## Get TZ App Logs ##";
   "EnableUefiSecAppDebugLogDump = 0x0";
   "";
   "## Allow Non Persistent Varialbes in Retail ##";
   "## NOTE: Recommend disabling feature for Retail devices";
   "AllowNonPersistentVarsInRetail = 0x1";
   "";
   "## Dynamic UART Log Buffer Size";
   "#Refer to boot_images/QcomPkg/Docs/UefiLogBufferSizeConfigReadme.txt for usage.";
   "#UARTLogBufferSize = 0x19000";
   "";
   "[AndromedaUefi]";
   "# Reserved for Andromeda UEFI-specific configuration.";
   "SecureBootEnabled = " +:+ (if sb then "1" else "0");
   "PStoreAddress = 0x17FE00000";
   "PStoreSize = 0x00200000";
   "";
   "## NOTE: Do not remove last newline, required by parser ##"]%string).

Definition UefiPlatZeta (sb : bool) : list Z := concat (cfg_line <$> [
   "# Surface Duo 2 (SM8350) UEFI platform configuration.";
   "[Config]";
   "Version = 3";
   "MaxMemoryRegions = 74";
   "UnusableDDRMemoryAtBeginning = 1";
   "UnusableDDRMemoryStartAddr = 0x80000000";
   "UnusableDDRMemorySizeAtBeginning = 0x600000";
   "";
   "[MemoryMap]";
   "#                                                    EFI_RESOURCE_ EFI_RESOURCE_ATTRIBUTE_ EFI_MEMORY_TYPE ARM_REGION_ATTRIBUTE_";
   "#MemBase,   MemSize,   MemLabel(32 Char.), BuildHob, ResourceType, ResourceAttribute, MemoryType, CacheAttributes";
   "#--------------------- DDR  -----";
   "0x80000000, 0x00600000, 'HYP',               AddMem, SYS_MEM, SYS_MEM_CAP, Reserv, WRITE_BACK_XN";
   "0x80600000, 0x00100000, 'HLOS1',             AddMem, SYS_MEM, SYS_MEM_CAP, Conv,   WRITE_BACK_XN";
   "0x80860000, 0x00020000, 'AOP CMD DB',        AddMem, MEM_RES, UNCACHEABLE, Reserv, UNCACHED_UNBUFFERED_XN";
   "0x80880000, 0x00010000, 'GPU PRR',           AddMem, MEM_RES, WRITE_COMBINEABLE, Reserv, UNCACHED_UNBUFFERED_XN";
   "0x80890000, 0x00010000, 'TPMControl',        AddMem, MEM_RES, WRITE_COMBINEABLE, RtData, UNCACHED_UNBUFFERED_XN";
   "0x808A0000, 0x00010000, 'USB HLOS Shared',   AddMem, SYS_MEM, SYS_MEM_CAP, Reserv, UNCACHED_UNBUFFERED_XN";
   "0x808B0000, 0x00010000, 'XBL LOGS',          AddMem, SYS_MEM, UNCACHEABLE, Reserv, UNCACHED_UNBUFFERED_XN";
   "0x808C0000, 0x00030000, 'HLOS2',             AddMem, SYS_MEM, SYS_MEM_CAP, Conv,   WRITE_BACK_XN";
   "0x80900000, 0x00200000, 'SMEM',              AddMem, MEM_RES, UNCACHEABLE, Reserv, UNCACHED_UNBUFFERED_XN";
   "0x80B00000, 0x00100000, 'CPUCP',             AddMem, SYS_MEM, SYS_MEM_CAP, Reserv, UNCACHED_UNBUFFERED_XN";
   "0x80C00000, 0x01880000, 'HLOS3',             AddMem, SYS_MEM, SYS_MEM_CAP, Conv,   WRITE_BACK_XN";
   "0x82480000, 0x00280000, 'MPSS_EFS',          AddMem, SYS_MEM, SYS_MEM_CAP, Reserv, UNCACHED_UNBUFFERED_XN";
   "0x82700000, 0x02300000, 'LPASS_NPU',         AddMem, MEM_RES, UNCACHEABLE, Reserv, UNCACHED_UNBUFFERED_XN";
   "0x84A00000, 0x00800000, 'ADSP RPC',          AddMem, MEM_RES, UNCACHEABLE, Reserv, UNCACHED_UNBUFFERED_XN";
   "0x85200000, 0x16C00000, 'PIL Reserved',      AddMem, MEM_RES, UNCACHEABLE, Reserv, UNCACHED_UNBUFFERED_XN";
   "0x9BE00000, 0x03600000, 'DXE Heap',          AddMem, SYS_MEM, SYS_MEM_CAP, Conv,   WRITE_BACK_XN";
   "0x9F400000, 0x00400000, 'Sched Heap',        AddMem, SYS_MEM, SYS_MEM_CAP, BsData, WRITE_BACK_XN";
   "0x9F800000, 0x00400000, 'FV Region',         AddMem, SYS_MEM, SYS_MEM_CAP, BsData, WRITE_BACK_XN";
   "0x9FC00000, 0x00300000, 'UEFI FD',           AddMem, SYS_MEM, SYS_MEM_CAP, BsData, WRITE_BACK";
   "0x9FF00000, 0x0008C000, 'SEC Heap',          AddMem, SYS_MEM, SYS_MEM_CAP, BsData, WRITE_BACK_XN";
   "0x9FF8C000, 0x00001000, 'CPU Vectors',       AddMem, SYS_MEM, SYS_MEM_CAP, BsData, WRITE_BACK";
   "0x9FF8D000, 0x00003000, 'MMU PageTables',    AddMem, SYS_MEM, SYS_MEM_CAP, BsData, WRITE_BACK_XN";
   "0x9FF90000, 0x00040000, 'UEFI Stack',        AddMem, SYS_MEM, SYS_MEM_CAP, BsData, WRITE_BACK_XN";
   "0x9FFF7000, 0x00008000, 'Log Buffer',        AddMem, SYS_MEM, SYS_MEM_CAP, RtData, WRITE_BACK_XN";
   "0x9FFFF000, 0x00001000, 'Info Blk',          AddMem, SYS_MEM, SYS_MEM_CAP, RtData, WRITE_BACK_XN";
   "0xA0000000, 0x0EB00000, 'HLOS4',             AddMem, SYS_MEM, SYS_MEM_CAP, Conv,   WRITE_BACK_XN";
   "0xC5100000, 0x01100000, 'DBI Dump',          NoHob,  MMAP_IO, INITIALIZED, Conv,   UNCACHED_UNBUFFERED_XN";
   "0xD8800000, 0x01800000, 'QTEE',              HobOnlyNoCacheSetting, MEM_RES, UNCACHEABLE, Reserv, UNCACHED_UNBUFFERED_XN";
   "0xDA000000, 0x03900000, 'TZApps',            HobOnlyNoCacheSetting, MEM_RES, UNCACHEABLE, Reserv, UNCACHED_UNBUFFERED_XN";
   "0xE1000000, 0x02400000, 'Display Reserved',  AddMem, MEM_RES, SYS_MEM_CAP, Reserv, WRITE_THROUGH_XN";
   "0xE3400000, 0x00001000, 'Apps Hob',          AddMem, MEM_RES, UNCACHEABLE, Reserv, UNCACHED_UNBUFFERED_XN";
   "0xE3401000, 0x00001000, 'Pon Hob',           AddMem, MEM_RES, UNCACHEABLE, Reserv, UNCACHED_UNBUFFERED_XN";
   "";
   "[RegisterMap]";
   "#--------------------- Other -----";
   "0x14680000, 0x00040000, 'IMEM Base',          NoHob,  MMAP_IO, INITIALIZED, Conv,   NS_DEVICE";
   "0x146BF000, 0x00001000, 'IMEM Cookie Base',   AddDev, MMAP_IO, INITIALIZED, Conv,   NS_DEVICE";
   "#--------------------- Register --";
   "0x00400000, 0x00100000, 'IPC_ROUTER_TOP',     AddDev, MMAP_IO, UNCACHEABLE, MmIO,   NS_DEVICE";
   "0x00780000, 0x00007000, 'SECURITY CONTROL',   AddDev, MMAP_IO, UNCACHEABLE, MmIO,   NS_DEVICE";
   "0x00800000, 0x00300000, 'QUP',                AddDev, MMAP_IO, UNCACHEABLE, MmIO,   NS_DEVICE";
   "0x010D0000, 0x00010000, 'PRNG_CFG_PRNG',      AddDev, MMAP_IO, UNCACHEABLE, MmIO,   NS_DEVICE";
   "0x01C00000, 0x00008000, 'PCIE_4_AHB',         AddDev, MMAP_IO, UNCACHEABLE, MmIO,   NS_DEVICE";
   "0x01C08000, 0x00008000, 'PCIE_3B_AHB',        AddDev, MMAP_IO, UNCACHEABLE, MmIO,   NS_DEVICE";
   "0x01C10000, 0x00008000, 'PCIE_3A_AHB',        AddDev, MMAP_IO, UNCACHEABLE, MmIO,   NS_DEVICE";
   "0x01C18000, 0x00008000, 'PCIE_2B_AHB',        AddDev, MMAP_IO, UNCACHEABLE, MmIO,   NS_DEVICE";
   "0x01C20000, 0x00008000, 'PCIE_2A_AHB',        AddDev, MMAP_IO, UNCACHEABLE, MmIO,   NS_DEVICE";
   "0x01C28000, 0x00008000, 'PCIE_1_AHB',         AddDev, MMAP_IO, UNCACHEABLE, MmIO,   NS_DEVICE";
   "0x01C30000, 0x00008000, 'PCIE_0_AHB',         AddDev, MMAP_IO, UNCACHEABLE, MmIO,   NS_DEVICE";
   "0x01DC0000, 0x00040000, 'CRYPTO0 CRYPTO',     AddDev, MMAP_IO, UNCACHEABLE, MmIO,   NS_DEVICE";
   "0x01F00000, 0x00100000, 'TCSR_TCSR_REGS',     AddDev, MMAP_IO, UNCACHEABLE, MmIO,   NS_DEVICE";
   "0x08800000, 0x00200000, 'PERIPH_SS',          AddDev, MMAP_IO, UNCACHEABLE, MmIO,   NS_DEVICE";
   "0x0A400000, 0x00C00000, 'USB',                AddDev, MMAP_IO, UNCACHEABLE, MmIO,   NS_DEVICE";
   "0x0B000000, 0x04000000, 'AOSS',               AddDev, MMAP_IO, UNCACHEABLE, MmIO,   NS_DEVICE";
   "0x0F100000, 0x00300000, 'TLMM_WEST',          AddDev, MMAP_IO, UNCACHEABLE, MmIO,   NS_DEVICE";
   "0x0F500000, 0x00300000, 'TLMM_SOUTH',         AddDev, MMAP_IO, UNCACHEABLE, MmIO,   NS_DEVICE";
   "0x0F900000, 0x00300000, 'TLMM_NORTH',         AddDev, MMAP_IO, UNCACHEABLE, MmIO,   NS_DEVICE";
   "0x15000000, 0x000D0000, 'SMMU',               AddDev, MMAP_IO, UNCACHEABLE, MmIO,   NS_DEVICE";
   "0x15600000, 0x00200000, 'USB4',               AddDev, MMAP_IO, UNCACHEABLE, MmIO,   NS_DEVICE";
   "0x17800000, 0x00D99000, 'APSS_HM',            AddDev, MMAP_IO, UNCACHEABLE, MmIO,   NS_DEVICE";
   "0x30000000, 0x02000000, 'PCIE_4_AXI',         AddDev, MMAP_IO, UNCACHEABLE, MmIO,   NS_DEVICE";
   "0x32000000, 0x02000000, 'PCIE_3B_AXI',        AddDev, MMAP_IO, UNCACHEABLE, MmIO,   NS_DEVICE";
   "0x34000000, 0x02000000, 'PCIE_3A_AXI',        AddDev, MMAP_IO, UNCACHEABLE, MmIO,   NS_DEVICE";
   "0x38000000, 0x02000000, 'PCIE_2B_AXI',        AddDev, MMAP_IO, UNCACHEABLE, MmIO,   NS_DEVICE";
   "0x3C000000, 0x02000000, 'PCIE_2A_AXI',        AddDev, MMAP_IO, UNCACHEABLE, MmIO,   NS_DEVICE";
   "0x40000000, 0x02000000, 'PCIE_1_AXI',         AddDev, MMAP_IO, UNCACHEABLE, MmIO,   NS_DEVICE";
   "0x60000000, 0x02000000, 'PCIE_0_AXI',         AddDev, MMAP_IO, UNCACHEABLE, MmIO,   NS_DEVICE";
   "[ConfigParameters]";
   "# Update count if more than default 30 entries";
   "ConfigParameterCount = 64";
   "";
   "## UEFI CORE";
   "PlatConfigFileName = 'uefiplatLA.cfg'";
   "OsTypeString = 'LA'";
   "EnableShell = 0x1";
   "";
   "# Tune based on heap needs for Initial tables, FV decompression and MMU tables through Dxe/BDS";
   "# MS_CHANGE";
   "# Increase Page Pool Count: 0x700 -> 0x900";
   "InitialPagePoolCount = 0x900";
   "";
   "# Shared IMEM (Cookies, Offsets)";
   "SharedIMEMBaseAddr    = 0x146BF000";
   "DloadCookieAddr = 0x01FD3000";
   "# for full dump 0x10, for minidump 0x20";
   "DloadCookieValue = 0x10";
   "";
   "# NumCpus - max number of cores";
   "NumCpus = 8";
   "# NumActiveCores - number of cores used";
   "NumActiveCores = 8";
   "";
   "## ULogFile";
   "SpecialLogPartition = 'LOGFS:\'";
   "MaxLogFileSize = 0x400000";
   "";
   "# UEFI memory use";
   "UefiMemUseThreshold = 0xE1";
   "";
   "## USB ##";
   "USBHS1_Config = 0x0";
   "UsbFnIoRevNum = 0x00010001";
   "";
   "## Buttons / KeyPad ##";
   "PwrBtnShutdownFlag = 0x0";
   "";
   "## SDCC ##";
   "Sdc1GpioConfigOn = 0x1E92";
   "Sdc2GpioConfigOn = 0x1E92";
   "Sdc1GpioConfigOff = 0xA00";
   "Sdc2GpioConfigOff = 0xA00";
   "";
   "## SDHC Mode 0:Legacy Mode, Non-zero: SDHC Mode ##";
   "EnableSDHCSwitch = 0x1";
   "";
   "## UFS";
   "EnableUfsIOC = 1";
   "UfsSmmuConfigForOtherBootDev = 1";
   "";
   "## Security flag ##";
   "## MSCHANGE enabling TZ APP logging";
   "SecurityFlag = 0x1C4";
   "# SecBootEnableFlag = 0x1               i.e. 0b00000001";
   "# TreeTpmEnableFlag = 0x2               i.e. 0b00000010";
   "# CommonMbnLoadFlag = 0x4                 i.e. 0b00000100";
   "# DxHdcp2LoadFlag = 0x8                 i.e. 0b00001000";
   "# VariableServicesFlag = 0x10           i.e. 0b00010000";
   "# WinsecappFlag = 0x20                  i.e. 0b00100000";
   "# LoadSecAppFlag = 0x40                 i.e. 0b01000000";
   "# LoadKeymasterFlag = 0x80              i.e. 0b10000000";
   "# EnableQseeLogsFlag = 0x100            i.e. 0b 00000001 00000000";
   "";
   "## Default app to boot in platform BDS init";
   "DefaultChargerApp = 'QcomChargerApp'";
   "DefaultBDSBootApp = 'LinuxLoader'";
   "";
   "## smc invoke config ##";
   "SmcInvokeConfig = 0x20040100";
   "#default maxLocalObj = 256, maxRemoreObj = 256, maxAsyncOp = 256";
   "#MaxLocalObjMask   = 0xFFE00000  11 bits   max is 2047";
   "#MaxRemoteObjMask  = 0x001FFC00  11 bits   max is 2047";
   "#MaxAsyncOpMask    = 0x000003FF  10 bits   max is 1023";
   "";
   "## Enable HotKey detection in RETAIL devices";
   "DetectRetailUserAttentionHotkey = 0x00";
   "## 0x17 is SCAN_ESC";
   "DetectRetailUserAttentionHotkeyCode = 0x17";
   "## Enable OEM Setup App launch in Retail ##";
   "EnableOEMSetupAppInRetail = 0x0";
   "";
   "## LogFs partition";
   "## NOTE: Ensure logfs bin is flashed from /Tools/binaries ##";
   "## MS_CHANGE";
   "EnableLogFsSyncInRetail = 0x1";
   "";
   "## ShmBridge Memory Size";
   "ShmBridgememSize = 0xA00000";
   "";
   "##  Multithreading options";
   "EnableMultiThreading = 1";
   "MaxCoreCnt = 8";
   "# Keep the following number of cores active, including the boot core";
   "EarlyInitCoreCnt = 2";
   "";
   "## Get TZ App Logs ##";
   "EnableUefiSecAppDebugLogDump = 0x0";
   "";
   "## Allow Non Persistent Varialbes in Retail ##";
   "## NOTE: Recommend disabling feature for Retail devices";
   "AllowNonPersistentVarsInRetail = 0x1";
   "";
   "# Initialize Display panel in its own thread to run in parallel to booting";
   "EnableDisplayThread = 0x1";
   "";
   "# Using imagefv to load display logo";
   "EnableDisplayImageFv = 0x0";
   "";
   "## Dynamic UART Log Buffer Size";
   "## Refer to QcomPkg/Docs/UefiLogBufferSizeConfigReadme.txt for usage";
   "#UARTLogBufferSize = 0x19000";
   "";
   "## Minidump Compression TA loading configuration (0x0 or 0x1)";
   "MinidumpTALoadingCfg = 0x0";
   "";
   "#DDRInfoDxe EnvDxe event callback flag";
   "DDRInfoNotifyFlag = 0x0";
   "";
   "#  FV Decompression on multicore option";
   "EnableMultiCoreFvDecompression = 1";
   "";
   "## Enable/Disable Variable Policy Engine ##";
   "EnableVariablePolicyEngine = 0";
   "";
   "## Allow individual ACPI tables loading ##";
   "EnableACPIFallback = 0x0";
   "";
   "# EUD Enable Address";
   "EUDEnableAddr = 0x88E2000";
   "";
   "# MSCHANGE";
   "APPS_HOB_ADDRESS = 0xE3400000";
   "APPS_HOB_SIZE = 0x00001000";
   "";
   "# MS_CHANGE - Memory space to keep Power On information for HLOS";
   "MS_PON_HOB_ADDR = 0xE3401000";
   "MS_PON_HOB_SIZE = 0x00001000";
   "";
   "[AndromedaUefi]";
   "# Reserved for Andromeda UEFI-specific configuration.";
   "SecureBootEnabled = " +:+ (if sb then "1" else "0");
   "PStoreAddress = 0xA9000000";
   "PStoreSize = 0x00200000";
   "";
   "## NOTE: Do not remove last newline, required by parser ##"]%string).

(** The configuration as the loader passes it on. *)
Definition shipped (cfg : list Z) : boot_config := mk_boot_config (Some cfg) (length cfg) None.

(** ** Loading a configuration whose records are known *)
Section load_exact.
Context `{BL : BaseLib} `{!BaseLibLaws BL}.
Context (g : boot_config) (text : list Z) (Hg : serves g text).
Context (RecordStack Stack : list Z) (HR : length RecordStack = MEMORY_MAP_CONFIG_ENTRY_SIZE).
Context (get_banks : bool -> EFI_STATUS * list bank) (Hbanks : Forall bank_ok (get_banks true).2)
  (Hstatus : EFI_ERROR (get_banks true).1 = false).
Context (fuel : nat) (Hfuel : (length text < fuel)%nat).

(** The regions that a section adds to [ds]. *)
Definition with_section (sec : list Z) (ds : list region) : EFI_STATUS * list region :=
  load_list LIMIT (length ds) (section_records sec text).1 (section_records sec text).2 ds.

Lemma load_device_section_exact sec ds rest s :
  cstring sec -> gDeviceMemoryDescriptorEx s = ds ++ rest ->
  length (ds ++ rest) = MAX_ARM_MEMORY_REGION_DESCRIPTOR_COUNT ->
  let r := with_section sec ds in
  load_device_section g RecordStack fuel sec (length ds) s =
    Some (r.1, length r.2, set_device (r.2 ++ drop (length r.2) (ds ++ rest)) s).
Proof.
  intros Hsec E Hl. unfold load_device_section. rewrite E.
  rewrite (load_section_spec g text); auto; [|rewrite Hl; unfold MAX_ARM_MEMORY_REGION_DESCRIPTOR_COUNT; lia
    |rewrite length_app; lia].
  cbv zeta. rewrite take_app_length. done.
Qed.

Lemma map_of_records ds1 ds2 :
  with_section (bytes "MemoryMap") [] = (EFI_SUCCESS, ds1) ->
  with_section (bytes "RegisterMap") ds1 = (EFI_SUCCESS, ds2) ->
  (0 < length ds2)%nat -> Forall region_ok ds2 ->
  let out := merge_list (get_banks true).2 ds2 in
  (length out <= LIMIT)%nat ->
  exists rest s', GetPlatformMemoryMap false g RecordStack Stack get_banks fuel memory_map_init =
    Some (out ++ gMemoryMapTerminator :: rest, s').
Proof.
  intros H1 H2 Hpos Hok out Hout.
  assert (length ds1 <= LIMIT)%nat as Hl1.
  { change ds1 with ((EFI_SUCCESS, ds1).2). rewrite <- H1. apply load_list_length. cbn. lia. }
  assert (length ds2 <= LIMIT)%nat as Hl2.
  { change ds2 with ((EFI_SUCCESS, ds2).2). rewrite <- H2. by apply load_list_length. }
  unfold GetPlatformMemoryMap, EnsurePlatformMemoryMapLoaded, LoadPlatformMemoryMap.
  cbn [gMemoryMapLoaded memory_map_init].
  rewrite (load_device_section_exact (bytes "MemoryMap") [] (gDeviceMemoryDescriptorEx memory_map_init));
    [|vm_compute; by repeat constructor|done|done].
  rewrite H1. bind_step. set (rest1 := drop _ _).
  assert (length (ds1 ++ rest1) = MAX_ARM_MEMORY_REGION_DESCRIPTOR_COUNT) as Hr1.
  { unfold rest1. rewrite length_app, length_drop. change (length ([] ++ _)) with 128%nat.
    unfold MAX_ARM_MEMORY_REGION_DESCRIPTOR_COUNT in *. lia. }
  rewrite (load_device_section_exact (bytes "RegisterMap") ds1 rest1);
    [|vm_compute; by repeat constructor|done|done].
  rewrite H2. bind_step. destruct (Nat.eqb_spec (length ds2) 0); [lia|].
  set (rest2 := drop _ _). cbn [set_device gDeviceMemoryDescriptorEx].
  assert (length (ds2 ++ rest2) = MAX_ARM_MEMORY_REGION_DESCRIPTOR_COUNT) as Hr2.
  { unfold rest2. rewrite length_app, length_drop, Hr1. unfold MAX_ARM_MEMORY_REGION_DESCRIPTOR_COUNT in *. lia. }
  rewrite Hr2. destruct (Nat.leb_spec MAX_ARM_MEMORY_REGION_DESCRIPTOR_COUNT (length ds2)).
  { unfold MAX_ARM_MEMORY_REGION_DESCRIPTOR_COUNT in *. lia. }
  assert (exists r, <[length ds2 := gMemoryMapTerminator]> (ds2 ++ rest2) = ds2 ++ gMemoryMapTerminator :: r)
    as [r Er].
  { eexists. rewrite insert_take_drop, take_app_length by lia. done. }
  rewrite Er. bind_step. cbn [EFI_ERROR]. destruct (get_banks true) as [st banks]. cbn [fst snd] in *.
  rewrite Hstatus. do 2 bind_step. cbn [EFI_ERROR].
  rewrite (merge_banks_spec banks _ ds2 gMemoryMapTerminator r); try done; [|cbn; lia].
  fold out. cbv zeta. destruct (Nat.leb_spec (length out) LIMIT); [|lia]. bind_step. cbn [EFI_ERROR].
  by eexists _, _.
Qed.
End load_exact.

(** ** The shipped configurations *)
(** [serves] for a text whose length is given by computation. *)
Lemma shipped_serves cfg :
  (negb (length cfg =? 0)%nat && (Z.of_nat (length cfg) <=? ANDROMEDA_BOOT_CONFIG_MAX_SIZE)) = true ->
  serves (shipped cfg) cfg.
Proof.
  rewrite andb_true_iff, negb_true_iff, Nat.eqb_neq, Z.leb_le. intros [Hn Hm].
  pose proof (serves_buffer cfg (length cfg) None) as H. rewrite firstn_all in H. apply H; lia.
Qed.

(** The device regions and the bank list of a configuration, by computation. *)
Definition cfg_regions (cfg : list Z) : list region :=
  (with_section cfg (bytes "RegisterMap") (with_section cfg (bytes "MemoryMap") []).2).2.
Definition cfg_good (cfg : list Z) (banks : list bank) : bool :=
  negb (length cfg =? 0)%nat && (Z.of_nat (length cfg) <=? ANDROMEDA_BOOT_CONFIG_MAX_SIZE) &&
  bool_decide ((with_section cfg (bytes "MemoryMap") []).1 = EFI_SUCCESS) &&
  bool_decide ((with_section cfg (bytes "RegisterMap") (with_section cfg (bytes "MemoryMap") []).2).1 = EFI_SUCCESS) &&
  negb (length (cfg_regions cfg) =? 0)%nat &&
  (length (merge_list banks (cfg_regions cfg)) <=? LIMIT)%nat.

Section shipped.
Context (BL : BaseLib) (L : BaseLibLaws BL) (RecordStack Stack : list Z) (fuel : nat).
Context (HR : length RecordStack = MEMORY_MAP_CONFIG_ENTRY_SIZE).

Lemma shipped_map cfg get_banks :
  cfg_good cfg (get_banks true).2 = true -> EFI_ERROR (get_banks true).1 = false ->
  Forall bank_ok (get_banks true).2 -> (length cfg < fuel)%nat ->
  exists rest s', GetPlatformMemoryMap false (shipped cfg) RecordStack Stack get_banks fuel memory_map_init =
    Some (merge_list (get_banks true).2 (cfg_regions cfg) ++ gMemoryMapTerminator :: rest, s').
Proof.
  intros H Hst Hb Hf. unfold cfg_good in H. repeat rewrite andb_true_iff in H.
  destruct H as [[[[[H0 H1] H2] H3] H4] H5]. apply bool_decide_eq_true in H2, H3.
  apply Nat.leb_le in H5. apply negb_true_iff, Nat.eqb_neq in H4.
  eapply (map_of_records _ cfg); try done.
  - apply shipped_serves. by rewrite H0, H1.
  - rewrite (surjective_pairing (with_section cfg (bytes "MemoryMap") [])), H2. done.
  - rewrite (surjective_pairing (with_section cfg (bytes "RegisterMap") _)), H3. done.
  - lia.
  - apply load_list_ok, load_list_ok; constructor.
Qed.
End shipped.

Definition not_ram (d : region) : bool := negb (bool_decide (Name d = bytes "RAM Partition")).

Lemma Sm8350_banks_ok BoardID : Forall bank_ok (GetPlatformDdrBankRegions_Sm8350 BoardID true).2.
Proof.
  unfold GetPlatformDdrBankRegions_Sm8350. destruct (BoardID <? 0xA);
    repeat (apply Forall_cons_2 || apply Forall_nil_2); repeat split; vm_compute; done.
Qed.

(** The two comparisons, by computation. *)
Lemma epsilon_regions sb :
  merge_list (GetPlatformDdrBankRegions_Sm8150 true).2 (cfg_regions (UefiPlatEpsilon sb)) ++
    [gMemoryMapTerminator] = Sm8150_GetPlatformMemoryMap false.
Proof. destruct sb; vm_compute; reflexivity. Qed.

Lemma zeta_regions sb BoardID :
  let banks := (GetPlatformDdrBankRegions_Sm8350 BoardID true).2 in
  let out := merge_list banks (cfg_regions (UefiPlatZeta sb)) in
  forallb (tiled out) banks = true /\
  (0xA <= BoardID ->
     base.filter (fun d => not_ram d = true) (out ++ [gMemoryMapTerminator]) =
     base.filter (fun d => not_ram d = true) (Sm8350_GetPlatformMemoryMap false BoardID)).
Proof.
  unfold GetPlatformDdrBankRegions_Sm8350, Sm8350_GetPlatformMemoryMap.
  destruct (Z.ltb_spec BoardID 0xA); (split; [by destruct sb; vm_compute|]).
  - intros; lia.
  - intros _. destruct sb; vm_compute; reflexivity.
Qed.

(** ** Properties *)
(** C35: the map that the library of AndromedaPkg reads out of the shipped
    SM8150 configuration, completed with the RAM partitions of the banks, is the
    table of the SM8150 library, region for region and in the same order. *)
Theorem epsilon_map_is_builtin (BL : BaseLib) (L : BaseLibLaws BL) sb RecordStack Stack fuel :
  length RecordStack = MEMORY_MAP_CONFIG_ENTRY_SIZE -> (length (UefiPlatEpsilon sb) < fuel)%nat ->
  exists rest s', GetPlatformMemoryMap false (shipped (UefiPlatEpsilon sb)) RecordStack Stack
      GetPlatformDdrBankRegions_Sm8150 fuel memory_map_init =
    Some (Sm8150_GetPlatformMemoryMap false ++ rest, s').
Proof.
  intros HR Hf.
  destruct (shipped_map BL L RecordStack Stack fuel HR (UefiPlatEpsilon sb) GetPlatformDdrBankRegions_Sm8150)
    as (rest & s' & E); [by destruct sb; vm_compute|done|apply Sm8150_banks_ok|done|].
  exists rest, s'. rewrite E, cons_middle, app_assoc. by rewrite epsilon_regions.
Qed.

Lemma epsilon_map_is_builtin_witness :
  exists rest s', @GetPlatformMemoryMap reference_BaseLib false (shipped (UefiPlatEpsilon true))
      (repeat 7 512) (repeat 7 32) GetPlatformDdrBankRegions_Sm8150 (Z.to_nat 20000) memory_map_init =
    Some (Sm8150_GetPlatformMemoryMap false ++ rest, s').
Proof.
  apply (epsilon_map_is_builtin reference_BaseLib reference_BaseLib_laws true (repeat 7 512) (repeat 7 32));
    [by vm_compute|apply Nat.ltb_lt; by vm_compute].
Defined.

(** The map read out of the shipped SM8350 configuration
    partitions the DDR banks of every board, so that the 1 MiB with two regions and
    the 1 MiB with none of the built-in tables are right there; on boards of the
    second table it differs from the table in RAM partitions only. *)
Theorem zeta_map_partitions_banks (BL : BaseLib) (L : BaseLibLaws BL) sb BoardID RecordStack Stack fuel :
  length RecordStack = MEMORY_MAP_CONFIG_ENTRY_SIZE -> (length (UefiPlatZeta sb) < fuel)%nat ->
  exists out rest s', GetPlatformMemoryMap false (shipped (UefiPlatZeta sb)) RecordStack Stack
      (GetPlatformDdrBankRegions_Sm8350 BoardID) fuel memory_map_init =
    Some (out ++ gMemoryMapTerminator :: rest, s') /\
    (forall r a, r ∈ (GetPlatformDdrBankRegions_Sm8350 BoardID true).2 -> bank_covers a r = true ->
       owners out a = 1%nat) /\
    (0xA <= BoardID ->
       base.filter (fun d => not_ram d = true) (out ++ [gMemoryMapTerminator]) =
       base.filter (fun d => not_ram d = true) (Sm8350_GetPlatformMemoryMap false BoardID)).
Proof.
  intros HR Hf.
  destruct (shipped_map BL L RecordStack Stack fuel HR (UefiPlatZeta sb) (GetPlatformDdrBankRegions_Sm8350 BoardID))
    as (rest & s' & E); [|by unfold GetPlatformDdrBankRegions_Sm8350; case_match|apply Sm8350_banks_ok|done|].
  { unfold GetPlatformDdrBankRegions_Sm8350. by destruct (BoardID <? 0xA), sb; vm_compute. }
  eexists _, rest, s'. split; [exact E|]. split.
  - intros r a Hr. apply tiled_owners. destruct (zeta_regions sb BoardID) as [H _].
    rewrite forallb_forall in H. apply H. by apply list_elem_of_In.
  - by destruct (zeta_regions sb BoardID).
Qed.

Lemma zeta_map_partitions_banks_witness :
  exists out rest s', @GetPlatformMemoryMap reference_BaseLib false (shipped (UefiPlatZeta false))
      (repeat 7 512) (repeat 7 32) (GetPlatformDdrBankRegions_Sm8350 0xB) (Z.to_nat 20000) memory_map_init =
    Some (out ++ gMemoryMapTerminator :: rest, s') /\ owners out 0x80600000 = 1%nat.
Proof.
  destruct (zeta_map_partitions_banks reference_BaseLib reference_BaseLib_laws false 0xB (repeat 7 512)
    (repeat 7 32) (Z.to_nat 20000)) as (out & rest & s' & E & H & _);
    [by vm_compute|apply Nat.ltb_lt; by vm_compute|].
  exists out, rest, s'. split; [exact E|].
  apply (H (mk_bank 0x80000000 0x39700000)); [|by vm_compute]. by left.
Defined.
