(* ===== verification/MemoryInit.v ===== *)
(** * MemoryInitPei and ArmPlatformLibMem: from the memory map to the MMU and the HOBs.

    [Platforms/AndromedaPkg/MemoryInitPei/MemoryInitPeiLib.c] hands the platform map to
    the MMU and describes it in the HOB list;
    [Platforms/AndromedaPkg/Library/ArmPlatformLib/ArmPlatformLibMem.c] builds the table
    for the MMU once more, in static variables. *)
From stdpp Require Import base numbers list option strings sorting.
From Stdlib Require Import ZArith Lia Ascii.
From S2P Require Import Prelude BaseLib BootConfig BootConfigSpec MemoryMapConfig MemoryMapSpec CsvSpec MemoryMap MergeSpec.
Local Open Scope Z_scope.

(** An entry of the table for [ArmConfigureMmu]. *)
Record ARM_MEMORY_REGION_DESCRIPTOR := mk_arm_region {
  PhysicalBase : Z; VirtualBase : Z; ArmLength : Z; Attributes : ARM_MEMORY_REGION_ATTRIBUTES
}.
Definition arm_terminator : ARM_MEMORY_REGION_DESCRIPTOR :=
  mk_arm_region 0 0 0 ARM_MEMORY_REGION_ATTRIBUTE_UNCACHED_UNBUFFERED.
(** What HobLib appends to the HOB list. *)
Inductive hob :=
| resource_hob (type : EFI_RESOURCE_TYPE) (attribute : list EFI_RESOURCE_ATTRIBUTE) (base len : Z)
| allocation_hob (base len : Z) (type : EFI_MEMORY_TYPE)
| memory_type_information_hob.

#[export] Instance EFI_RESOURCE_TYPE_eq_dec : EqDecision EFI_RESOURCE_TYPE.
Proof. solve_decision. Defined.
#[export] Instance EFI_MEMORY_TYPE_eq_dec : EqDecision EFI_MEMORY_TYPE.
Proof. solve_decision. Defined.
#[export] Instance DeviceMemoryAddHob_eq_dec : EqDecision DeviceMemoryAddHob.
Proof. solve_decision. Defined.

Definition arm_entry (d : region) : ARM_MEMORY_REGION_DESCRIPTOR :=
  mk_arm_region (Address d) (Address d) (Length d) (ArmAttributes d).
Definition AddHob (Desc : region) : list hob :=
  (if bool_decide (HobOption Desc = AllocOnly) then []
   else [resource_hob (ResourceType Desc) (ResourceAttribute Desc) (Address Desc) (Length Desc)]) ++
  (if bool_decide (ResourceType Desc = EFI_RESOURCE_SYSTEM_MEMORY)
      || bool_decide (MemoryType Desc = EfiRuntimeServicesData)
   then [allocation_hob (Address Desc) (Length Desc) (MemoryType Desc)] else []).

(** The loop over the map: the table is an array of 128 entries on the stack. *)
Fixpoint peim_loop (ds : list region) (MemoryTable : list ARM_MEMORY_REGION_DESCRIPTOR) (hobs : list hob)
  : option (list ARM_MEMORY_REGION_DESCRIPTOR * list hob) :=
  match ds with
  | [] => fault
  | d :: ds' =>
    if Length d =? 0 then Some (MemoryTable, hobs) else
    let hobs := hobs ++ match HobOption d with NoHob => [] | _ => AddHob d end in
    match HobOption d with
    | HobOnlyNoCacheSetting => peim_loop ds' MemoryTable hobs
    | _ =>
      if (MAX_ARM_MEMORY_REGION_DESCRIPTOR_COUNT <=? length MemoryTable)%nat then fault
      else peim_loop ds' (MemoryTable ++ [arm_entry d]) hobs
    end
  end.

(** The static variables of ArmPlatformLibMem.c. *)
Record virtual_map := mk_virtual_map {
  MemoryTable : list ARM_MEMORY_REGION_DESCRIPTOR; Index : nat
}.
Definition virtual_map_init : virtual_map :=
  mk_virtual_map (repeat arm_terminator MAX_ARM_MEMORY_REGION_DESCRIPTOR_COUNT) 0.
Definition store_entry (e : ARM_MEMORY_REGION_DESCRIPTOR) (v : virtual_map) : option virtual_map :=
  if (length (MemoryTable v) <=? Index v)%nat then fault
  else Some (mk_virtual_map (<[Index v := e]> (MemoryTable v)) (Index v)).
Fixpoint table_loop (ds : list region) (v : virtual_map) : option virtual_map :=
  match ds with
  | [] => fault
  | d :: ds' =>
    if Length d =? 0 then Some v else
    if bool_decide (HobOption d = HobOnlyNoCacheSetting) then table_loop ds' v else
    v ← store_entry (arm_entry d) v;
    table_loop ds' (mk_virtual_map (MemoryTable v) (S (Index v)))
  end.

Section init.
Context `{BaseLib}.
(** The context of [GetPlatformMemoryMap], see MemoryMap.v. *)
Context (USE_MEMORY_FOR_SERIAL_OUTPUT : bool).
Context (g : boot_config) (RecordStack Stack : list Z).
Context (GetPlatformDdrBankRegions : bool -> EFI_STATUS * list PLATFORM_DDR_BANK_REGION).
Context (fuel : nat).
Abbreviation platform_map :=
  (GetPlatformMemoryMap USE_MEMORY_FOR_SERIAL_OUTPUT g RecordStack Stack GetPlatformDdrBankRegions fuel).

(** The result: the status, the table for [ArmConfigureMmu] and the new HOBs.  Whether
    [ArmConfigureMmu] succeeds does not matter to the code. *)
Definition MemoryPeim (PcdPrePiProduceMemoryTypeInformationHob : bool) (s : memory_map_state)
  : option (EFI_STATUS * list ARM_MEMORY_REGION_DESCRIPTOR * list hob * memory_map_state) :=
  '(MemoryDescriptorEx, s) ← platform_map s;
  '(MemoryTable, hobs) ← peim_loop MemoryDescriptorEx [] [];
  if (MAX_ARM_MEMORY_REGION_DESCRIPTOR_COUNT <=? length MemoryTable)%nat then fault else
  Some (EFI_SUCCESS, MemoryTable ++ [arm_terminator],
        hobs ++ (if PcdPrePiProduceMemoryTypeInformationHob then [memory_type_information_hob] else []), s).

(** The table that the caller gets: the array from its beginning. *)
Definition ArmPlatformGetVirtualMemoryMap (v : virtual_map) (s : memory_map_state)
  : option (list ARM_MEMORY_REGION_DESCRIPTOR * virtual_map * memory_map_state) :=
  '(MemoryDescriptorEx, s) ← platform_map s;
  if negb (Index v =? 0)%nat then Some (MemoryTable v, v, s) else
  v ← table_loop MemoryDescriptorEx v;
  v ← store_entry arm_terminator v;
  Some (MemoryTable v, v, s).
End init.
