(* ===== verification/MemoryInitSpec.v ===== *)
(** * What the MMU and the HOB list say of an address.

    Both builders of the MMU table give the same table, which fits its array; an address
    is mapped to itself, with the attributes of the region that owns it in the platform
    map, and the HOB list describes the address by the same region. *)
From stdpp Require Import base numbers list option strings sorting.
From Stdlib Require Import ZArith Lia Ascii.
From S2P Require Import Prelude BaseLib BootConfig BootConfigSpec MemoryMapConfig MemoryMapSpec CsvSpec MemoryMap MergeSpec MemoryInit.
Local Open Scope Z_scope.

(** ** The pieces of the merged map *)
(** The kind of an address: its configured region, or free memory of a bank. *)
Definition platform_owner (banks : list bank) (ds : list region) (a : Z) : option region :=
  match owner ds a with
  | Some k => Some k
  | None => if existsb (bank_covers a) banks then Some ram_kind else None
  end.

Lemma owner_elem ds a k : owner ds a = Some k -> exists d, d ∈ ds /\ covers d a = true /\ kind d = k.
Proof.
  induction ds as [|d ds IH]; [done|]. cbn [owner]. destruct (covers d a) eqn:E.
  - intros [= <-]. exists d. split; [by left|done].
  - intros H. destruct (IH H) as (e & ? & ? & ?). exists e. split; [by right|done].
Qed.

Lemma bank_pieces_elem r ds cursor d a :
  Forall region_ok ds -> ordered (over r ds) -> d ∈ bank_pieces r ds cursor -> covers d a = true ->
  d ∈ ds \/ (kind d = ram_kind /\ cursor <= a < bank_end r /\ owner (over r ds) a = None).
Proof.
  intros Hds. revert cursor. induction Hds as [|e ds He Hds IH]; intros cursor Hs Hin Hc.
  { cbn [bank_pieces] in Hin. destruct (Z.ltb_spec cursor (bank_end r)); [|by apply not_elem_of_nil in Hin].
    apply list_elem_of_singleton in Hin as ->. right. apply covers_spec in Hc. unfold End_ in Hc.
    cbn [ram_at Address Length set_Address set_Length] in Hc. split; [done|]. split; [lia|done]. }
  unfold over in *. rewrite filter_cons in *. cbn [bank_pieces] in Hin.
  destruct (overlaps r e) eqn:Eo; cycle 1.
  { rewrite decide_False in * by done. destruct (IH cursor Hs Hin Hc) as [?|?]; [left; by right|by right]. }
  rewrite decide_True in * by done. inversion Hs as [|? ? Hs' Hb]; subst.
  assert (Forall (starts_at (End_ e)) (base.filter (fun d => overlaps r d = true) ds)) as Hst.
  { weaken Hb. by unfold before, starts_at. }
  assert (0 < Length e) as Hpos by apply He.
  apply elem_of_app in Hin as [Hin|Hin].
  - destruct (Z.ltb_spec cursor (Address e)); [|by apply not_elem_of_nil in Hin].
    apply list_elem_of_singleton in Hin as ->. right. apply covers_spec in Hc. unfold End_ in Hc.
    cbn [ram_at Address Length set_Address set_Length] in Hc. split; [done|].
    unfold overlaps in Eo. apply andb_true_iff in Eo as [Eo1 Eo2].
    apply Z.ltb_lt in Eo1, Eo2. split; [lia|]. cbn [owner].
    assert (covers e a = false) as -> by (apply not_true_iff_false; rewrite covers_spec; lia).
    apply (owner_starts (End_ e)); [done|unfold End_; lia].
  - apply elem_of_cons in Hin as [->|Hin]; [left; by left|].
    destruct (IH (Z.max cursor (End_ e)) Hs' Hin Hc) as [?|(? & ? & Ho)]; [left; by right|].
    right. split; [done|]. split; [lia|]. cbn [owner].
    assert (covers e a = false) as -> by (apply not_true_iff_false; rewrite covers_spec; lia). done.
Qed.

Section pieces.
Context (banks : list bank) (ds : list region).
Hypothesis (Hds : Forall region_ok ds) (Hdis : disjoint_map ds)
  (Hord : Forall (fun r => ordered (over r ds)) banks) (Hb : Forall bank_ok banks).

Lemma merge_list_kind d a :
  d ∈ merge_list banks ds -> covers d a = true -> platform_owner banks ds a = Some (kind d).
Proof.
  intros Hin Hc.
  assert (d ∈ ds -> platform_owner banks ds a = Some (kind d)) as Hconf.
  { intros Hd. unfold platform_owner. rewrite (owner_unique ds d a); [done| |done|done].
    intros e He Hce. by apply (Hdis e d a). }
  unfold merge_list in Hin. apply elem_of_app in Hin as [Hin|Hin]; cycle 1.
  { apply list_elem_of_filter in Hin as [_ Hin]. by apply Hconf. }
  apply list_elem_of_In, in_concat in Hin as (l & Hl & Hin). apply list_elem_of_In in Hl, Hin.
  apply list_elem_of_fmap in Hl as (r & -> & Hr). rewrite Forall_forall in Hord, Hb.
  destruct (bank_pieces_elem r ds (Base r) d a) as [Hd|(Hk & Hr' & Ho)]; auto.
  rewrite Hk. unfold platform_owner.
  assert (owner ds a = None) as ->.
  { apply owner_None. intros e He. destruct (covers e a) eqn:Ee; [|done].
    apply (proj1 (owner_None (over r ds) a)) with (d := e) in Ho; [congruence|].
    apply list_elem_of_filter. split; [|done]. apply covers_spec in Ee. unfold overlaps.
    rewrite andb_true_iff, !Z.ltb_lt. lia. }
  assert (existsb (bank_covers a) banks = true) as ->; [|done].
  apply existsb_exists. exists r. split; [by apply list_elem_of_In|]. unfold bank_covers.
  rewrite andb_true_iff, Z.leb_le, Z.ltb_lt. lia.
Qed.

Lemma merge_list_owned a k :
  platform_owner banks ds a = Some k -> exists d, d ∈ merge_list banks ds /\ covers d a = true /\ kind d = k.
Proof. intros H. apply owner_elem. by rewrite merge_list_owner. Qed.

Lemma bank_pieces_length r cursor d : d ∈ bank_pieces r ds cursor -> 0 < Length d.
Proof.
  clear Hdis Hord. revert cursor. induction Hds as [|e l He Hl IH]; intros cursor Hin; cbn [bank_pieces] in Hin.
  - destruct (Z.ltb_spec cursor (bank_end r)); [|by apply not_elem_of_nil in Hin].
    apply list_elem_of_singleton in Hin as ->. cbn. lia.
  - destruct (overlaps r e); [|by eapply IH]. apply elem_of_app in Hin as [Hin|Hin].
    + destruct (Z.ltb_spec cursor (Address e)); [|by apply not_elem_of_nil in Hin].
      apply list_elem_of_singleton in Hin as ->. cbn. lia.
    + apply elem_of_cons in Hin as [->|Hin]; [apply He|by eapply IH].
Qed.

Lemma merge_list_length : Forall (fun d => Length d <> 0) (merge_list banks ds).
Proof.
  apply Forall_forall. intros d Hin. apply elem_of_app in Hin as [Hin|Hin].
  - apply list_elem_of_In, in_concat in Hin as (l & Hl & Hin). apply list_elem_of_In in Hl, Hin.
    apply list_elem_of_fmap in Hl as (r & -> & _). apply bank_pieces_length in Hin. lia.
  - apply list_elem_of_filter in Hin as [_ Hin]. rewrite Forall_forall in Hds.
    destruct (Hds d Hin) as (? & ? & ?). lia.
Qed.
End pieces.

(** ** What a table and a HOB list say of an address *)
Definition arm_covers (e : ARM_MEMORY_REGION_DESCRIPTOR) (a : Z) : bool :=
  (PhysicalBase e <=? a) && (a <? PhysicalBase e + ArmLength e).
(** The virtual addresses and attributes an address gets from the table of the MMU. *)
Definition mappings (Table : list ARM_MEMORY_REGION_DESCRIPTOR) (a : Z) : list (Z * ARM_MEMORY_REGION_ATTRIBUTES) :=
  omap (fun e => if arm_covers e a then Some (VirtualBase e + (a - PhysicalBase e), Attributes e) else None) Table.
Definition within (base len a : Z) : bool := (base <=? a) && (a <? base + len).
Definition resources (hobs : list hob) (a : Z) : list (EFI_RESOURCE_TYPE * list EFI_RESOURCE_ATTRIBUTE) :=
  omap (fun h => match h with
                 | resource_hob t attr b n => if within b n a then Some (t, attr) else None
                 | _ => None end) hobs.
Definition allocations (hobs : list hob) (a : Z) : list EFI_MEMORY_TYPE :=
  omap (fun h => match h with
                 | allocation_hob b n t => if within b n a then Some t else None
                 | _ => None end) hobs.
(** A list that says nothing but [o]. *)
Definition only {A} (l : list A) (o : option A) : Prop :=
  match o with Some x => l <> [] /\ Forall (eq x) l | None => l = [] end.

(** What should be said, from the owner of the address. *)
Definition mapping_of (a : Z) (k : region) : option (Z * ARM_MEMORY_REGION_ATTRIBUTES) :=
  if bool_decide (HobOption k = HobOnlyNoCacheSetting) then None else Some (a, ArmAttributes k).
Definition resource_of (k : region) : option (EFI_RESOURCE_TYPE * list EFI_RESOURCE_ATTRIBUTE) :=
  match HobOption k with NoHob | AllocOnly => None | _ => Some (ResourceType k, ResourceAttribute k) end.
Definition allocation_of (k : region) : option EFI_MEMORY_TYPE :=
  match HobOption k with
  | NoHob => None
  | _ => if bool_decide (ResourceType k = EFI_RESOURCE_SYSTEM_MEMORY)
            || bool_decide (MemoryType k = EfiRuntimeServicesData)
         then Some (MemoryType k) else None
  end.
(** The walk of a list that says [f] of the regions that cover [a]. *)
Definition sayings {A} (f : region -> option A) (l : list region) (a : Z) : list A :=
  omap (fun d => if covers d a then f d else None) l.

Lemma sayings_only {A} (f : region -> option A) banks ds a :
  (forall d, f d = f (kind d)) ->
  Forall region_ok ds -> disjoint_map ds -> Forall (fun r => ordered (over r ds)) banks ->
  Forall bank_ok banks ->
  only (sayings f (merge_list banks ds) a) (platform_owner banks ds a ≫= f).
Proof.
  intros Hf Hds Hdis Hord Hb.
  assert (forall x, x ∈ sayings f (merge_list banks ds) a ->
    exists k, platform_owner banks ds a = Some k /\ f k = Some x) as Hin.
  { intros x Hx. apply list_elem_of_omap in Hx as (d & Hd & Hx).
    destruct (covers d a) eqn:Hc; [|done]. exists (kind d). split; [by apply merge_list_kind|].
    by rewrite <- Hf. }
  destruct (platform_owner banks ds a) as [k|] eqn:Eo; cbn [mbind option_bind].
  - destruct (f k) as [x|] eqn:Ef; cbn [only].
    + split.
      * destruct (merge_list_owned banks ds Hds Hdis Hord a k Eo) as (d & Hd & Hc & Hk).
        intros Hn. assert (x ∈ sayings f (merge_list banks ds) a) as Hx; [|rewrite Hn in Hx; by apply not_elem_of_nil in Hx].
        apply list_elem_of_omap.
        exists d. split; [done|]. rewrite Hc, Hf, Hk. done.
      * apply Forall_forall. intros y Hy. destruct (Hin y Hy) as (k' & [= <-] & Hk'). congruence.
    + destruct (sayings f _ a) as [|y l] eqn:El; [done|].
      destruct (Hin y) as (k' & [= <-] & Hk'); [by left|congruence].
  - cbn [only]. destruct (sayings f _ a) as [|y l] eqn:El; [done|].
    destruct (Hin y) as (k' & ? & Hk'); [by left|done].
Qed.

(** ** The loops *)
Definition mapped (d : region) : bool := match HobOption d with HobOnlyNoCacheSetting => false | _ => true end.
Definition table_of (ds : list region) : list ARM_MEMORY_REGION_DESCRIPTOR :=
  arm_entry <$> base.filter (fun d => mapped d = true) ds.
Definition hobs_of (ds : list region) : list hob :=
  d ← ds; match HobOption d with NoHob => [] | _ => AddHob d end.

Lemma table_of_cons d ds : table_of (d :: ds) = (if mapped d then [arm_entry d] else []) ++ table_of ds.
Proof. unfold table_of. rewrite filter_cons. destruct (mapped d); by case_decide. Qed.
Lemma table_of_length ds : (length (table_of ds) <= length ds)%nat.
Proof. unfold table_of. rewrite length_fmap. apply length_filter. Qed.

Lemma peim_loop_spec ds term rest : forall Table hobs,
  Forall (fun d => Length d <> 0) ds -> Length term = 0 ->
  (length Table + length (table_of ds) <= MAX_ARM_MEMORY_REGION_DESCRIPTOR_COUNT)%nat ->
  peim_loop (ds ++ term :: rest) Table hobs = Some (Table ++ table_of ds, hobs ++ hobs_of ds).
Proof.
  induction ds as [|d ds IH]; intros Table hobs Hl Ht Hn; cbn [app peim_loop].
  { rewrite Ht. cbn. by rewrite !app_nil_r. }
  inversion Hl as [|? ? Hd Hl']; subst. apply Z.eqb_neq in Hd. rewrite Hd.
  rewrite table_of_cons in Hn |- *. rewrite length_app in Hn. unfold mapped in *.
  assert (hobs_of (d :: ds) = match HobOption d with NoHob => [] | _ => AddHob d end ++ hobs_of ds) as -> by done.
  destruct (HobOption d); cbn [length app] in *;
    try (destruct (Nat.leb_spec MAX_ARM_MEMORY_REGION_DESCRIPTOR_COUNT (length Table)); [cbn in Hn; lia|]);
    rewrite IH; try done; rewrite <- ?app_assoc; try done; rewrite ?length_app; cbn in Hn |- *; try lia.
Qed.

Lemma table_loop_spec ds term rest : forall v,
  Forall (fun d => Length d <> 0) ds -> Length term = 0 ->
  (Index v + length (table_of ds) <= length (MemoryTable v))%nat ->
  table_loop (ds ++ term :: rest) v =
    Some (mk_virtual_map (take (Index v) (MemoryTable v) ++ table_of ds ++
                            drop (Index v + length (table_of ds)) (MemoryTable v))
                         (Index v + length (table_of ds))).
Proof.
  induction ds as [|d ds IH]; intros v Hl Ht Hn; cbn [app table_loop].
  { rewrite Ht. cbn [table_of]. cbn. rewrite Nat.add_0_r, take_drop. by destruct v. }
  inversion Hl as [|? ? Hd Hl']; subst. apply Z.eqb_neq in Hd. rewrite Hd.
  rewrite table_of_cons in Hn |- *. unfold mapped in *. case_bool_decide as Eh.
  { rewrite Eh in *. by apply IH. }
  assert (match HobOption d with HobOnlyNoCacheSetting => false | _ => true end = true) as Em
    by (by destruct (HobOption d)).
  rewrite Em in *. cbn [app length] in *.
  unfold store_entry. destruct (Nat.leb_spec (length (MemoryTable v)) (Index v)); [lia|]. bind_step.
  rewrite IH by (cbn [Index MemoryTable]; rewrite ?length_insert; try done; lia). cbn [Index MemoryTable].
  f_equal. f_equal; [|lia].
  rewrite (insert_take_drop (MemoryTable v) (Index v)) by lia.
  rewrite take_app_ge, drop_app_ge by (rewrite length_take; lia). rewrite length_take_le by lia.
  replace (S (Index v) - Index v)%nat with 1%nat by lia. cbn [take app].
  rewrite take_0, <- app_assoc. cbn [app]. do 3 f_equal.
  replace (S (Index v) + length (table_of ds) - Index v)%nat with (S (length (table_of ds))) by lia.
  cbn [drop]. rewrite drop_drop. f_equal. lia.
Qed.

(** ** From the walks to the answers *)
Lemma mappings_table ds a : mappings (table_of ds) a = sayings (mapping_of a) ds a.
Proof.
  induction ds as [|d ds IH]; [done|]. rewrite table_of_cons. unfold mappings, sayings in *.
  rewrite omap_app, IH. cbn [omap list_omap]. unfold mapped, mapping_of, arm_covers, covers, End_.
  replace (Address d + (a - Address d)) with a by lia.
  destruct (HobOption d); rewrite ?bool_decide_false, ?bool_decide_true by done;
    cbn [omap list_omap arm_entry PhysicalBase ArmLength VirtualBase Attributes]; destruct (_ && _); try done;
    by replace (Address d + (a - Address d)) with a by lia.
Qed.
Lemma resources_hobs ds a : resources (hobs_of ds) a = sayings resource_of ds a.
Proof.
  induction ds as [|d ds IH]; [done|]. unfold resources, sayings in *.
  change (hobs_of (d :: ds)) with (match HobOption d with NoHob => [] | _ => AddHob d end ++ hobs_of ds).
  rewrite omap_app, IH. cbn [omap list_omap]. unfold resource_of, AddHob, within, covers, End_.
  destruct (HobOption d); rewrite ?bool_decide_false, ?bool_decide_true by done; rewrite ?omap_app;
    cbn [app omap list_omap]; repeat (case_match; cbn [omap list_omap app]); done.
Qed.
Lemma allocations_hobs ds a : allocations (hobs_of ds) a = sayings allocation_of ds a.
Proof.
  induction ds as [|d ds IH]; [done|]. unfold allocations, sayings in *.
  change (hobs_of (d :: ds)) with (match HobOption d with NoHob => [] | _ => AddHob d end ++ hobs_of ds).
  rewrite omap_app, IH. cbn [omap list_omap]. unfold allocation_of, AddHob, within, covers, End_.
  destruct (HobOption d); rewrite ?bool_decide_false, ?bool_decide_true by done; rewrite ?omap_app;
    cbn [app omap list_omap]; repeat (case_match; cbn [omap list_omap app]); done.
Qed.

Section init.
Context `{BL : BaseLib}.
Context (serial : bool) (g : boot_config) (RecordStack Stack : list Z).
Context (get_banks : bool -> EFI_STATUS * list bank) (fuel : nat).

(** The map was loaded: [ds] are its regions, [banks] those of the platform. *)
Definition loaded_platform (banks : list bank) (ds : list region) (s : memory_map_state) : Prop :=
  gMemoryMapLoaded s = true /\ EFI_ERROR (gMemoryMapLoadStatus s) = false /\
  (exists term rest, gDeviceMemoryDescriptorEx s = ds ++ term :: rest /\ Length term = 0) /\
  (LIMIT < length (gMergedMemoryDescriptorEx s))%nat /\ get_banks true = (EFI_SUCCESS, banks).

Lemma platform_map_spec banks ds s :
  loaded_platform banks ds s -> Forall region_ok ds -> Forall bank_ok banks ->
  (length (merge_list banks ds) <= LIMIT)%nat ->
  exists rest s', GetPlatformMemoryMap serial g RecordStack Stack get_banks fuel s =
    Some (merge_list banks ds ++ gMemoryMapTerminator :: rest, s') /\ loaded_platform banks ds s'.
Proof.
  intros (H1 & H2 & (term & rest & H3 & H4) & H5 & H6) Hds Hb Hl.
  unfold GetPlatformMemoryMap, EnsurePlatformMemoryMapLoaded. rewrite H1. bind_step. rewrite H2, H6. cbn [EFI_ERROR].
  rewrite (merge_banks_spec banks s ds term rest) by done. cbv zeta.
  destruct (Nat.leb_spec (length (merge_list banks ds)) LIMIT); [|lia]. bind_step. cbn [EFI_ERROR]. bind_step.
  eexists _, _. split; [done|]. split_and!; [done|done|by exists term, rest| |done].
  cbn. rewrite !length_app, length_drop. cbn. lia.
Qed.

(** C33 When the platform map was loaded, and its regions are
    disjoint, in order and few enough, then MemoryPeim ends without leaving its table of
    128 entries, and the table and the HOBs tell one story: an address is mapped to
    itself with the attributes of the region that owns it in the map (free memory of a
    DDR bank counts as owned), the resource and the allocation HOBs give the type,
    attributes and use of that region, as far as its HobOption wants them, and nothing
    is said of an address that is not owned.  ArmPlatformGetVirtualMemoryMap, which
    builds the table a second time in static variables, gives the same entries. *)
Theorem MemoryPeim_describes banks ds feature s :
  loaded_platform banks ds s -> Forall region_ok ds -> disjoint_map ds -> Forall bank_ok banks ->
  Forall (fun r => ordered (over r ds)) banks -> (length (merge_list banks ds) <= LIMIT)%nat ->
  exists Table hobs s' v s'' rest,
    MemoryPeim serial g RecordStack Stack get_banks fuel feature s =
      Some (EFI_SUCCESS, Table ++ [arm_terminator], hobs, s') /\
    (length Table <= LIMIT)%nat /\
    (forall a, only (mappings Table a) (platform_owner banks ds a ≫= mapping_of a) /\
               only (resources hobs a) (platform_owner banks ds a ≫= resource_of) /\
               only (allocations hobs a) (platform_owner banks ds a ≫= allocation_of)) /\
    ArmPlatformGetVirtualMemoryMap serial g RecordStack Stack get_banks fuel virtual_map_init s' =
      Some (Table ++ arm_terminator :: rest, v, s'').
Proof.
  intros Hs Hds Hdis Hb Hord Hl. pose proof (merge_list_length banks ds Hds) as Hpos.
  destruct (platform_map_spec banks ds s Hs Hds Hb Hl) as (r1 & s1 & E1 & Hs1).
  destruct (platform_map_spec banks ds s1 Hs1 Hds Hb Hl) as (r2 & s2 & E2 & Hs2).
  set (l := merge_list banks ds) in *. pose proof (table_of_length l) as Ht.
  unfold MemoryPeim, ArmPlatformGetVirtualMemoryMap. rewrite E1. bind_step.
  rewrite peim_loop_spec by (try done; unfold MAX_ARM_MEMORY_REGION_DESCRIPTOR_COUNT; cbn; lia). bind_step.
  cbn [app]. destruct (Nat.leb_spec MAX_ARM_MEMORY_REGION_DESCRIPTOR_COUNT (length (table_of l)));
    [unfold MAX_ARM_MEMORY_REGION_DESCRIPTOR_COUNT in *; lia|].
  destruct (lookup_lt_is_Some_2 (repeat arm_terminator MAX_ARM_MEMORY_REGION_DESCRIPTOR_COUNT)
    (length (table_of l))) as [x Hx]; [by rewrite repeat_length|].
  eexists (table_of l), _, s1, _, s2, _. split; [done|]. split; [lia|]. split.
  - intros a. unfold resources, allocations. rewrite !omap_app. fold (resources (hobs_of l) a).
    fold (allocations (hobs_of l) a). rewrite mappings_table, resources_hobs, allocations_hobs.
    destruct feature; cbn [omap list_omap]; rewrite !app_nil_r; split_and!; by apply sayings_only.
  - rewrite E2. bind_step. change (negb (Index virtual_map_init =? 0)%nat) with false.
    rewrite table_loop_spec; [|done|done|cbn [virtual_map_init Index MemoryTable]; rewrite repeat_length; lia].
    cbn [virtual_map_init Index MemoryTable]. rewrite take_0, Nat.add_0_l. cbn [app]. bind_step.
    unfold store_entry. cbn [Index MemoryTable].
    rewrite length_app, length_drop, repeat_length.
    destruct (Nat.leb_spec (length (table_of l) + (MAX_ARM_MEMORY_REGION_DESCRIPTOR_COUNT - length (table_of l)))
                (length (table_of l))); [exfalso; unfold MAX_ARM_MEMORY_REGION_DESCRIPTOR_COUNT in *; lia|].
    bind_step. cbn [MemoryTable].
    rewrite insert_app_r_alt by done. rewrite Nat.sub_diag.
    by rewrite (drop_S _ _ _ Hx).
Qed.
End init.

(** ** A small platform *)
Definition sample_banks : list bank := [mk_bank 0x1800 0x3000].
Definition sample_get_banks (_ : bool) : EFI_STATUS * list bank := (EFI_SUCCESS, sample_banks).
Lemma sample_disjoint : disjoint_map sample_map.
Proof.
  intros d e a Hd He Hcd Hce. apply covers_spec in Hcd, Hce. unfold End_, sample_map in *.
  repeat (apply elem_of_cons in Hd as [->|Hd]); try (by apply not_elem_of_nil in Hd);
    repeat (apply elem_of_cons in He as [->|He]); try (by apply not_elem_of_nil in He);
    cbn in Hcd, Hce; try done; lia.
Qed.

Lemma MemoryPeim_describes_witness :
  exists Table hobs s', @MemoryPeim reference_BaseLib false sample_map_config [] [] sample_get_banks 0 true sample_state =
      Some (EFI_SUCCESS, Table ++ [arm_terminator], hobs, s') /\
    only (mappings Table 0x2800) (Some (0x2800, ARM_MEMORY_REGION_ATTRIBUTE_WRITE_BACK)) /\
    only (allocations hobs 0x2800) (Some EfiConventionalMemory).
Proof.
  destruct (@MemoryPeim_describes reference_BaseLib false sample_map_config [] [] sample_get_banks 0
    sample_banks sample_map true sample_state) as (Table & hobs & s' & v & s'' & rest & E & _ & Ha & _).
  - split_and!; [done|done| |vm_compute; lia|done].
    exists gMemoryMapTerminator, (repeat gMemoryMapTerminator 125). by vm_compute.
  - repeat (apply Forall_cons_2 || apply Forall_nil_2); repeat split; vm_compute; done.
  - apply sample_disjoint.
  - apply Forall_singleton. repeat split; vm_compute; done.
  - apply Forall_singleton. change (over _ sample_map) with sample_map.
    repeat (apply ordered_cons || constructor); vm_compute; done.
  - vm_compute. lia.
  - exists Table, hobs, s'. split; [exact E|]. destruct (Ha 0x2800) as (H1 & _ & H3).
    split; [exact H1|exact H3].
Defined.
