(* ===== verification/Smmu.v ===== *)
(** * QcomMmuDetachHelperLib: taking the SMMU away from the earlier boot stage.

    [Silicon/QC/Common/QcomCommonPkg/Library/QcomMmuDetachHelperLib/QcomMmuDetachHelperLib.c].
    The streams of the devices are detached from their translation contexts, except for
    those on a list, and the context banks that nobody keeps are freed. *)
From stdpp Require Import base numbers list option strings.
From Stdlib Require Import ZArith Lia Ascii.
From S2P Require Import Prelude BaseLib BootConfig MemoryMapConfig MemoryMap.
Local Open Scope Z_scope.

(** Memory-mapped registers of 32 bits (IoLib) and the delay of TimerLib.  Reading may
    change the device, time may. *)
Class Mmio := {
  device : Type;
  MmioRead32 : Z -> device -> Z * device;
  MmioWrite32 : Z -> Z -> device -> device;
  MicroSecondDelay : Z -> device -> device
}.
(** Registers in [plain] keep what is written to them; reading and waiting change none
    of them. *)
Class MmioLaws (IO : Mmio) (plain : Z -> Prop) := {
  reg : device -> Z -> Z;
  read_plain a d : plain a -> fst (MmioRead32 a d) = reg d a;
  read_frame a d b : plain b -> reg (snd (MmioRead32 a d)) b = reg d b;
  write_frame a v d b : plain b -> reg (MmioWrite32 a v d) b = if b =? a then v else reg d b;
  delay_frame n d b : plain b -> reg (MicroSecondDelay n d) b = reg d b
}.

Definition ARM_SMMU_GR0 : Z := 0.
Definition ARM_SMMU_GR1 : Z := 1.
Definition ARM_SMMU_GR0_ID0 : Z := 0x20.
Definition ARM_SMMU_GR0_ID1 : Z := 0x24.
Definition ARM_SMMU_GR0_SMR (n : Z) : Z := 0x800 + Z.shiftl n 2.
Definition ARM_SMMU_GR0_S2CR (n : Z) : Z := 0xC00 + Z.shiftl n 2.
Definition ARM_SMMU_CB_SCTLR : Z := 0x0.
Definition ARM_SMMU_CB_TTBR0 : Z := 0x20.
Definition ARM_SMMU_CB_TTBR1 : Z := 0x28.
Definition ARM_SMMU_CB_TCR : Z := 0x30.
Definition ARM_SMMU_CB_FSR : Z := 0x58.
Definition ARM_SMMU_GR0_TLBIALLNSNH : Z := 0x70.
Definition ARM_SMMU_GR0_sTLBGSTATUS : Z := 0x74.
Definition sTLBGSTATUS_GSACTIVE : Z := 1.
Definition SMR_VALID : Z := 2 ^ 31.
Definition SMR_MASK_SHIFT : Z := 16.
Definition SMR_ID_SHIFT : Z := 0.
Definition SMR_ID_MASK : Z := 0xFFFF.
Definition S2CR_CBNDX_SHIFT : Z := 0.
Definition S2CR_CBNDX_MASK : Z := 0xFF.
Definition S2CR_TYPE_SHIFT : Z := 16.
Definition S2CR_TYPE_MASK : Z := 0x3.
Definition S2CR_TYPE_FAULT : Z := 2.
Definition SCTLR_M : Z := 1.
Definition ARM_SMMU_ID1_PAGESIZE : Z := 2 ^ 31.
Definition ARM_SMMU_ID1_NUMCB_MASK : Z := 0xFF.
(** [GEN_MSK (30, 28)] and the position of its lowest bit. *)
Definition ARM_SMMU_ID1_NUMPAGENDXB : Z := Z.shiftl (2 ^ 3 - 1) 28.
Definition ARM_SMMU_GR1_CBAR (n : Z) : Z := Z.shiftl n 2.
Definition CBAR_VMID_SHIFT : Z := 0.
Definition CBAR_VMID_MASK : Z := 0xff.
Definition CBAR_TYPE_SHIFT : Z := 16.
Definition CBAR_TYPE_MASK : Z := 0x3.
Definition CBAR_TYPE_S2_TRANS : Z := 0.
Definition CBAR_TYPE_S1_TRANS_S2_BYPASS : Z := 1.
Definition CBAR_TYPE_S1_TRANS_S2_FAULT : Z := 2.

Record ARM_SMMU_V2_DEVICE := mk_smmu {
  smmu_base_address : Z; pgshift : Z; num_context_banks : Z; numpage : Z
}.
Definition ARM_SMMU_CB (s : ARM_SMMU_V2_DEVICE) (n : Z) : Z := u32 (numpage s + n).
(** PcdSMMUSIDsToKeep of the two platforms, as bytes. *)
Definition Sm8350_SMMUSIDsToKeep : list Z := [0x20; 0x08; 0x21; 0x08; 0x21; 0x0C].
Definition Sm8150_SMMUSIDsToKeep : list Z := [0x0].

Section smmu.
Context {IO : Mmio}.

Definition io_read (a : Z) : M device Z := fun d => Some (MmioRead32 a d).
Definition io_write (a v : Z) : M device unit := modify (MmioWrite32 a v).

Section registers.
Context (s : ARM_SMMU_V2_DEVICE).
Definition page_at (page offset : Z) : Z :=
  u64 (smmu_base_address s + Z.shiftl page (pgshift s) + offset).
Definition arm_smmu_gr0_read (offset : Z) : M device Z := io_read (page_at ARM_SMMU_GR0 offset).
Definition arm_smmu_gr0_write (offset value : Z) : M device unit :=
  io_write (page_at ARM_SMMU_GR0 offset) value.
Definition arm_smmu_gr1_read (offset : Z) : M device Z := io_read (page_at ARM_SMMU_GR1 offset).
Definition arm_smmu_gr1_write (offset value : Z) : M device unit :=
  io_write (page_at ARM_SMMU_GR1 offset) value.
Definition cb_at (bank offset : Z) : Z :=
  u64 (smmu_base_address s + u32 (Z.shiftl (ARM_SMMU_CB s bank) (pgshift s)) + offset).
Definition arm_smmu_cb_read (bank offset : Z) : M device Z := io_read (cb_at bank offset).
Definition arm_smmu_cb_write (bank offset value : Z) : M device unit := io_write (cb_at bank offset) value.
Definition arm_smmu_cb_writeq (bank offset value : Z) : M device unit :=
  _ ← arm_smmu_cb_write bank offset (u32 value);
  arm_smmu_cb_write bank (offset + 4) (u32 (Z.shiftr value 32)).

(** [do ... while (--timeout)], [timeout] being positive. *)
Fixpoint tlb_wait (timeout : nat) : M device unit :=
  match timeout with
  | O => mret tt
  | S timeout' =>
    status ← arm_smmu_gr0_read ARM_SMMU_GR0_sTLBGSTATUS;
    if Z.land status sTLBGSTATUS_GSACTIVE =? 0 then mret tt else
    _ ← modify (MicroSecondDelay 1);
    tlb_wait timeout'
  end.
Definition smmu_tlb_invalidate_all : M device unit :=
  _ ← arm_smmu_gr0_write ARM_SMMU_GR0_TLBIALLNSNH 0;
  tlb_wait (Z.to_nat 1000000).

Fixpoint sctlr_wait (cbndx : Z) (timeout : nat) : M device unit :=
  match timeout with
  | O => mret tt
  | S timeout' =>
    sctlr ← arm_smmu_cb_read cbndx ARM_SMMU_CB_SCTLR;
    if Z.land sctlr SCTLR_M =? 0 then mret tt else
    _ ← modify (MicroSecondDelay 10);
    sctlr_wait cbndx timeout'
  end.
Definition disable_context_bank (cbndx : Z) : M device unit :=
  sctlr ← arm_smmu_cb_read cbndx ARM_SMMU_CB_SCTLR;
  _ ← arm_smmu_cb_write cbndx ARM_SMMU_CB_SCTLR (Z.ldiff sctlr SCTLR_M);
  _ ← sctlr_wait cbndx 1000;
  _ ← arm_smmu_cb_writeq cbndx ARM_SMMU_CB_TTBR0 0;
  _ ← arm_smmu_cb_writeq cbndx ARM_SMMU_CB_TTBR1 0;
  _ ← arm_smmu_cb_write cbndx ARM_SMMU_CB_TCR 0;
  fsr ← arm_smmu_cb_read cbndx ARM_SMMU_CB_FSR;
  if fsr =? 0 then mret tt else arm_smmu_cb_write cbndx ARM_SMMU_CB_FSR fsr.

Definition cbar_type (cbar : Z) : Z := Z.land (Z.shiftr cbar CBAR_TYPE_SHIFT) CBAR_TYPE_MASK.
Definition cbar_vmid (cbar : Z) : Z := Z.land (Z.shiftr cbar CBAR_VMID_SHIFT) CBAR_VMID_MASK.
Definition cbar_in_use (cbar : Z) : bool :=
  negb (cbar_type cbar =? CBAR_TYPE_S2_TRANS) && negb (cbar_type cbar =? CBAR_TYPE_S1_TRANS_S2_FAULT) &&
  (negb (cbar_type cbar =? CBAR_TYPE_S1_TRANS_S2_BYPASS) || negb (cbar_vmid cbar =? 0xFF)).
Definition cbar_free : Z :=
  Z.lor (Z.shiftl (Z.land CBAR_TYPE_S1_TRANS_S2_BYPASS CBAR_TYPE_MASK) CBAR_TYPE_SHIFT)
        (Z.shiftl (Z.land 0xFF CBAR_VMID_MASK) CBAR_VMID_SHIFT).
Definition free_context_bank (cbndx : Z) : M device unit :=
  _ ← disable_context_bank cbndx;
  cbar ← arm_smmu_gr1_read (ARM_SMMU_GR1_CBAR cbndx);
  if cbar_in_use cbar then arm_smmu_gr1_write (ARM_SMMU_GR1_CBAR cbndx) cbar_free else mret tt.

(** The list of the streams to keep: an array of 16-bit numbers, unless its size is odd. *)
Fixpoint sids (l : list Z) : list Z :=
  match l with lo :: hi :: l' => lo + 256 * hi :: sids l' | _ => [] end.
Definition SIDs (SMMUSIDsToKeep : list Z) : list Z :=
  if (length SMMUSIDsToKeep mod 2 =? 0)%nat then sids SMMUSIDsToKeep else [].
Definition ShouldSkipSID (Keep : list Z) (smr : Z) : bool :=
  let smr_id := Z.land (Z.shiftr smr SMR_ID_SHIFT) SMR_ID_MASK in
  let smr_mask := Z.land (Z.shiftr smr SMR_MASK_SHIFT) SMR_ID_MASK in
  existsb (fun SIDToKeep => Z.ldiff SIDToKeep smr_mask =? Z.ldiff smr_id smr_mask) (SIDs Keep).
(** [ContextBanks], of at most 16 entries. *)
Definition track (cbndx : Z) (ContextBanks : list Z) : list Z :=
  if existsb (Z.eqb cbndx) ContextBanks then ContextBanks
  else if (length ContextBanks <? 16)%nat then ContextBanks ++ [cbndx] else ContextBanks.

Definition s2cr_cbndx (s2cr : Z) : Z := Z.land (Z.shiftr s2cr S2CR_CBNDX_SHIFT) S2CR_CBNDX_MASK.
Definition s2cr_fault (cbndx : Z) : Z :=
  Z.lor (Z.shiftl (Z.land S2CR_TYPE_FAULT S2CR_TYPE_MASK) S2CR_TYPE_SHIFT)
        (Z.shiftl (Z.land cbndx S2CR_CBNDX_MASK) S2CR_CBNDX_SHIFT).
Definition stream_step (Keep : list Z) (i : Z) (ContextBanks : list Z) : M device (list Z) :=
  smr ← arm_smmu_gr0_read (ARM_SMMU_GR0_SMR i);
  if Z.land smr SMR_VALID =? 0 then mret ContextBanks else
  s2cr ← arm_smmu_gr0_read (ARM_SMMU_GR0_S2CR i);
  let cbndx := s2cr_cbndx s2cr in
  if ShouldSkipSID Keep smr then mret (track cbndx ContextBanks) else
  _ ← arm_smmu_gr0_write (ARM_SMMU_GR0_S2CR i) (s2cr_fault cbndx);
  _ ← arm_smmu_gr0_write (ARM_SMMU_GR0_SMR i) (Z.ldiff smr SMR_VALID);
  mret ContextBanks.
Fixpoint stream_loop (Keep : list Z) (n : nat) (i : Z) (ContextBanks : list Z) : M device (list Z) :=
  match n with
  | O => mret ContextBanks
  | S n' => ContextBanks ← stream_step Keep i ContextBanks; stream_loop Keep n' (i + 1) ContextBanks
  end.
Fixpoint bank_loop (ContextBanks : list Z) (n : nat) (cbndx : Z) : M device unit :=
  match n with
  | O => mret tt
  | S n' =>
    _ ← (if existsb (Z.eqb cbndx) ContextBanks then mret tt else free_context_bank cbndx);
    bank_loop ContextBanks n' (cbndx + 1)
  end.
Definition smmu_v2_detach_all (Keep : list Z) : M device unit :=
  id0 ← arm_smmu_gr0_read ARM_SMMU_GR0_ID0;
  let numsmrg := Z.land (Z.shiftr id0 0) 0xFF in
  ContextBanks ← stream_loop Keep (Z.to_nat numsmrg) 0 [];
  _ ← smmu_tlb_invalidate_all;
  bank_loop ContextBanks (Z.to_nat (num_context_banks s)) 0.
End registers.

(** The geometry from ID1. *)
Definition smmu_of (base id1 : Z) : ARM_SMMU_V2_DEVICE :=
  mk_smmu base (if Z.land id1 ARM_SMMU_ID1_PAGESIZE =? 0 then 12 else 16)
    (Z.land id1 ARM_SMMU_ID1_NUMCB_MASK)
    (u32 (Z.shiftl 1 (Z.shiftr (Z.land id1 ARM_SMMU_ID1_NUMPAGENDXB) 28 + 1))).

(** [SMMUMemoryRegion]: the answer of the lookup of "SMMU", or what the variable holds
    when there is no such region, because the status is not looked at. *)
Definition MmuDetach (SMMUMemoryRegion : ARM_MEMORY_REGION_DESCRIPTOR_EX) (Keep : list Z) : M device unit :=
  let base := Address SMMUMemoryRegion in
  id1 ← arm_smmu_gr0_read (mk_smmu base 0 0 0) ARM_SMMU_GR0_ID1;
  smmu_v2_detach_all (smmu_of base id1) Keep.
End smmu.
