(* ===== verification/SmmuSpec.v ===== *)
(** * What is left of the SMMU after the detachment.

    A stream is either on the list, and then neither it nor its context bank is touched, or
    its accesses fault; a context bank that no kept stream uses translates nothing any
    more. *)
From stdpp Require Import base numbers list option strings.
From Stdlib Require Import ZArith Lia Ascii.
From S2P Require Import Prelude BaseLib BootConfig MemoryMapConfig MemoryMap Smmu.
Local Open Scope Z_scope.

Section spec.
Context {IO : Mmio} {plain : Z -> Prop} {L : MmioLaws IO plain}.

(** ** Accesses *)
Definition same (d d' : device) : Prop := forall b, plain b -> reg d' b = reg d b.
Lemma same_refl d : same d d.
Proof. done. Qed.
Lemma same_trans d1 d2 d3 : same d1 d2 -> same d2 d3 -> same d1 d3.
Proof. intros H1 H2 b Hb. by rewrite H2, H1. Qed.
Lemma read_run a d : exists v d', io_read a d = Some (v, d') /\ (plain a -> v = reg d a) /\ same d d'.
Proof.
  unfold io_read. pose proof (read_plain a d) as Hr.
  pose proof (fun b => read_frame a d b) as Hf.
  destruct (MmioRead32 a d) as [v d'] eqn:E. exists v, d'. split; [done|]. split; [apply Hr|exact Hf].
Qed.
Lemma write_run a v d : exists d', io_write a v d = Some (tt, d') /\
  forall b, plain b -> reg d' b = if b =? a then v else reg d b.
Proof. exists (MmioWrite32 a v d). split; [done|]. intros b Hb. by apply write_frame. Qed.

(** ** The registers of one SMMU *)
Context (s : ARM_SMMU_V2_DEVICE).
Definition SMR (i : Z) : Z := page_at s ARM_SMMU_GR0 (ARM_SMMU_GR0_SMR i).
Definition S2CR (i : Z) : Z := page_at s ARM_SMMU_GR0 (ARM_SMMU_GR0_S2CR i).
Definition CBAR (c : Z) : Z := page_at s ARM_SMMU_GR1 (ARM_SMMU_GR1_CBAR c).
Definition SCTLR (c : Z) : Z := cb_at s c ARM_SMMU_CB_SCTLR.
(** TTBR0, TTBR1 and TCR of a bank, word by word. *)
Definition table_registers (c : Z) : list Z :=
  [cb_at s c ARM_SMMU_CB_TTBR0; cb_at s c (ARM_SMMU_CB_TTBR0 + 4); cb_at s c ARM_SMMU_CB_TTBR1;
   cb_at s c (ARM_SMMU_CB_TTBR1 + 4); cb_at s c ARM_SMMU_CB_TCR].
Definition bank_registers (c : Z) : list Z := SCTLR c :: CBAR c :: table_registers c.
Record geometry : Prop := mk_geometry {
  base_fits : 0 <= smmu_base_address s < 2 ^ 63;
  shift_fits : pgshift s = 12 \/ pgshift s = 16;
  pages_fit : 2 <= numpage s <= 256;
  plain_streams i : 0 <= i < 256 -> plain (SMR i) /\ plain (S2CR i);
  plain_banks c : 0 <= c < 256 -> Forall plain (bank_registers c)
}.
Context (G : geometry).

Lemma page_at_flat p o : 0 <= p < 512 -> 0 <= o < 4096 ->
  page_at s p o = smmu_base_address s + p * 2 ^ pgshift s + o.
Proof.
  intros Hp Ho. unfold page_at. destruct G as [Hb Hs _ _ _].
  rewrite Z.shiftl_mul_pow2 by (destruct Hs as [-> | ->]; lia).
  apply u64_small. unfold in_u64. destruct Hs as [-> | ->]; lia.
Qed.
Lemma cb_at_page c o : 0 <= c < 256 -> 0 <= o < 4096 -> cb_at s c o = page_at s (numpage s + c) o.
Proof.
  intros Hc Ho. unfold cb_at, page_at, ARM_SMMU_CB. destruct G as [Hb Hs Hn _ _].
  rewrite (u32_small (numpage s + c)) by (unfold in_u32; lia). f_equal. f_equal. f_equal.
  apply u32_small. unfold in_u32. rewrite Z.shiftl_mul_pow2 by (destruct Hs as [-> | ->]; lia).
  destruct Hs as [-> | ->]; lia.
Qed.
Lemma page_at_inj p o p' o' : 0 <= p < 512 -> 0 <= o < 4096 -> 0 <= p' < 512 -> 0 <= o' < 4096 ->
  page_at s p o = page_at s p' o' -> p = p' /\ o = o'.
Proof.
  intros. rewrite !page_at_flat in * by done. destruct G as [Hb Hs _ _ _].
  destruct Hs as [E|E]; rewrite E in *; lia.
Qed.

Definition FSR (c : Z) : Z := cb_at s c ARM_SMMU_CB_FSR.
Lemma bank_plain c : 0 <= c < 256 -> plain (SCTLR c) /\ plain (CBAR c) /\ Forall plain (table_registers c).
Proof. intros Hc. pose proof (plain_banks G c Hc) as H. inversion H as [|? ? ? H2]; inversion H2; by subst. Qed.

(** Two registers of the map below are different. *)
Ltac apart :=
  unfold SMR, S2CR, CBAR, SCTLR, FSR, ARM_SMMU_GR0_SMR, ARM_SMMU_GR0_S2CR, ARM_SMMU_GR1_CBAR,
    ARM_SMMU_GR0, ARM_SMMU_GR1, ARM_SMMU_CB_SCTLR, ARM_SMMU_CB_TTBR0, ARM_SMMU_CB_TTBR1,
    ARM_SMMU_CB_TCR, ARM_SMMU_CB_FSR in *;
  rewrite ?Z.shiftl_mul_pow2 in * by lia; rewrite ?cb_at_page in * by lia; pose proof (pages_fit G);
  let E := fresh in intros E; apply page_at_inj in E; lia.

(** The values after a sequence of writes. *)
Ltac writes :=
  repeat match goal with
  | H : forall b, plain b -> reg ?d b = if b =? _ then _ else _ |- context [reg ?d ?b] =>
      rewrite (H b) by done
  | H : same ?d0 ?d |- context [reg ?d ?b] => rewrite (H b) by done
  | |- context [?a =? ?a] => rewrite Z.eqb_refl
  | |- context [?a =? ?b] => rewrite (proj2 (Z.eqb_neq a b)) by (done || apart)
  end.

Lemma sctlr_wait_run c n : forall d, exists d', sctlr_wait s c n d = Some (tt, d') /\ same d d'.
Proof.
  induction n as [|n IH]; intros d; cbn [sctlr_wait]; [by eexists|]. unfold arm_smmu_cb_read. run.
  destruct (read_run (cb_at s c ARM_SMMU_CB_SCTLR) d) as (v & d1 & -> & _ & H1).
  destruct (Z.land v SCTLR_M =? 0); [by eexists|]. run.
  destruct (IH (MicroSecondDelay 10 d1)) as (d2 & -> & H2). exists d2. split; [done|].
  intros b Hb. by rewrite H2, delay_frame, H1.
Qed.
Lemma tlb_wait_run n : forall d, exists d', tlb_wait s n d = Some (tt, d') /\ same d d'.
Proof.
  induction n as [|n IH]; intros d; cbn [tlb_wait]; [by eexists|]. unfold arm_smmu_gr0_read. run.
  destruct (read_run (page_at s ARM_SMMU_GR0 ARM_SMMU_GR0_sTLBGSTATUS) d) as (v & d1 & -> & _ & H1).
  destruct (Z.land v sTLBGSTATUS_GSACTIVE =? 0); [by eexists|]. run.
  destruct (IH (MicroSecondDelay 1 d1)) as (d2 & -> & H2). exists d2. split; [done|].
  intros b Hb. by rewrite H2, delay_frame, H1.
Qed.

Lemma disable_run c d : 0 <= c < 256 -> exists d', disable_context_bank s c d = Some (tt, d') /\
  reg d' (SCTLR c) = Z.ldiff (reg d (SCTLR c)) SCTLR_M /\
  Forall (fun b => reg d' b = 0) (table_registers c) /\
  (forall b, plain b -> b ∉ SCTLR c :: FSR c :: table_registers c -> reg d' b = reg d b).
Proof.
  intros Hc. destruct (bank_plain c Hc) as (P1 & P2 & P3). unfold table_registers in *.
  inversion P3 as [|? ? T1 P4]; subst. inversion P4 as [|? ? T2 P5]; subst. inversion P5 as [|? ? T3 P6]; subst.
  inversion P6 as [|? ? T4 P7]; subst. inversion P7 as [|? ? T5 _]; subst. clear P3 P4 P5 P6 P7.
  unfold disable_context_bank, arm_smmu_cb_writeq, arm_smmu_cb_read, arm_smmu_cb_write. run.
  destruct (read_run (cb_at s c ARM_SMMU_CB_SCTLR) d) as (v & d1 & -> & Hv & H1). rewrite Hv by done. clear Hv. run.
  destruct (write_run (cb_at s c ARM_SMMU_CB_SCTLR) (Z.ldiff (reg d (cb_at s c ARM_SMMU_CB_SCTLR)) SCTLR_M) d1) as (d2 & -> & H2). run.
  destruct (sctlr_wait_run c 1000 d2) as (d3 & -> & H3). run. change (u32 0) with 0. change (u32 (Z.shiftr 0 32)) with 0.
  destruct (write_run (cb_at s c ARM_SMMU_CB_TTBR0) 0 d3) as (d4 & -> & H4). run.
  destruct (write_run (cb_at s c (ARM_SMMU_CB_TTBR0 + 4)) 0 d4) as (d5 & -> & H5). run.
  destruct (write_run (cb_at s c ARM_SMMU_CB_TTBR1) 0 d5) as (d6 & -> & H6). run.
  destruct (write_run (cb_at s c (ARM_SMMU_CB_TTBR1 + 4)) 0 d6) as (d7 & -> & H7). run.
  destruct (write_run (cb_at s c ARM_SMMU_CB_TCR) 0 d7) as (d8 & -> & H8). run. unfold arm_smmu_cb_read.
  destruct (read_run (cb_at s c ARM_SMMU_CB_FSR) d8) as (fsr & d9 & -> & _ & H9).
  set (d10 := if fsr =? 0 then d9 else MmioWrite32 (cb_at s c ARM_SMMU_CB_FSR) fsr d9).
  exists d10.
  assert (forall b, plain b -> b <> FSR c -> reg d10 b = reg d9 b) as H10.
  { intros b Hb Hn. unfold d10. destruct (fsr =? 0); [done|]. rewrite write_frame by done.
    by rewrite (proj2 (Z.eqb_neq _ _)). }
  split; [unfold d10; by destruct (fsr =? 0)|]. split_and!.
  - rewrite H10 by (done || apart). unfold SCTLR in *. writes.
    done.
  - repeat apply Forall_cons_2; try apply Forall_nil_2; rewrite H10 by (done || apart); by writes.
  - intros b Hb Hn. repeat (apply not_elem_of_cons in Hn as [? Hn]). unfold SCTLR in *. rewrite H10 by done. by writes.
Qed.

(** ** The context banks *)
Definition owned (c : Z) : list Z := FSR c :: bank_registers c.
Lemma owned_apart c c' b : 0 <= c < 256 -> 0 <= c' < 256 -> c <> c' -> b ∈ owned c -> b ∉ owned c'.
Proof.
  intros Hc Hc' Hne Hb Hb'. unfold owned, bank_registers, table_registers in *.
  repeat (apply elem_of_cons in Hb as [->|Hb]); try (by apply not_elem_of_nil in Hb);
    repeat (apply elem_of_cons in Hb' as [Hb'|Hb']); try (by apply not_elem_of_nil in Hb');
    revert Hb'; apart.
Qed.

(** What [free_context_bank] makes of the registers of a bank. *)
Record bank_freed (d d' : device) (c : Z) : Prop := mk_freed {
  freed_off : reg d' (SCTLR c) = Z.ldiff (reg d (SCTLR c)) SCTLR_M;
  freed_tables : Forall (fun b => reg d' b = 0) (table_registers c);
  freed_cbar : reg d' (CBAR c) = if cbar_in_use (reg d (CBAR c)) then cbar_free else reg d (CBAR c)
}.
Lemma free_run c d : 0 <= c < 256 -> exists d', free_context_bank s c d = Some (tt, d') /\
  bank_freed d d' c /\ (forall b, plain b -> b ∉ owned c -> reg d' b = reg d b).
Proof.
  intros Hc. destruct (bank_plain c Hc) as (P1 & P2 & P3).
  unfold free_context_bank, arm_smmu_gr1_read, arm_smmu_gr1_write. run.
  destruct (disable_run c d Hc) as (d1 & -> & E1 & E2 & F1). run.
  destruct (read_run (CBAR c) d1) as (v & d2 & R & Hv & F2). unfold CBAR in R at 1. rewrite R. run. clear R.
  assert (CBAR c ∉ SCTLR c :: FSR c :: table_registers c) as Hn.
  { unfold table_registers. repeat (apply not_elem_of_cons; split); try apply not_elem_of_nil; apart. }
  rewrite Hv, (F1 _ P2 Hn) by done.
  assert (forall d' w, (forall b, plain b -> reg d' b = if b =? CBAR c then w else reg d2 b) ->
    w = (if cbar_in_use (reg d (CBAR c)) then cbar_free else reg d (CBAR c)) ->
    bank_freed d d' c /\ (forall b, plain b -> b ∉ owned c -> reg d' b = reg d b)) as Hend.
  { intros d' w Hd' ->. split; [split|].
    - rewrite Hd', (proj2 (Z.eqb_neq _ _)), F2, E1 by (done || apart). done.
    - rewrite Forall_forall in *. intros b Hb.
      assert (b <> CBAR c) by (intros ->; apply Hn; by do 2 right).
      rewrite Hd', (proj2 (Z.eqb_neq _ _)), F2 by auto. by apply E2.
    - by rewrite Hd', Z.eqb_refl.
    - intros b Hb Hnb. unfold owned, bank_registers in Hnb. repeat (apply not_elem_of_cons in Hnb as [? Hnb]).
      rewrite Hd', (proj2 (Z.eqb_neq _ _)), F2 by done. apply F1; [done|].
      by repeat (apply not_elem_of_cons; split). }
  destruct (cbar_in_use (reg d (CBAR c))) eqn:Eu.
  - destruct (write_run (CBAR c) cbar_free d2) as (d3 & R & F3). unfold CBAR in R at 1. rewrite R.
    exists d3. split; [done|]. by apply (Hend d3 cbar_free).
  - exists d2. split; [done|]. apply (Hend d2 (reg d (CBAR c))); [|done]. intros b Hb.
    destruct (Z.eqb_spec b (CBAR c)) as [->|]; [|done]. rewrite F2 by done. by apply F1.
Qed.

Lemma existsb_elem c l : existsb (Z.eqb c) l = bool_decide (c ∈ l).
Proof.
  induction l as [|x l IH]; [done|]. cbn [existsb]. rewrite IH. destruct (Z.eqb_spec c x) as [->|Hn]; cbn [orb].
  - symmetry. apply bool_decide_true. by left.
  - apply bool_decide_ext. rewrite elem_of_cons. split; [by right|by intros [?|?]].
Qed.

Lemma bank_loop_run CBs n : forall c0 d, 0 <= c0 -> c0 + Z.of_nat n <= 256 ->
  exists d', bank_loop s CBs n c0 d = Some (tt, d') /\
    (forall c, c0 <= c < c0 + Z.of_nat n -> c ∉ CBs -> bank_freed d d' c) /\
    (forall b, plain b -> (forall c, c0 <= c < c0 + Z.of_nat n -> c ∉ CBs -> b ∉ owned c) ->
       reg d' b = reg d b).
Proof.
  induction n as [|n IH]; intros c0 d H0 Hn; cbn [bank_loop].
  { exists d. split; [done|]. split; [lia|done]. }
  run. rewrite existsb_elem.
  assert (exists d1, (if bool_decide (c0 ∈ CBs) then mret tt else free_context_bank s c0) d = Some (tt, d1) /\
    (c0 ∉ CBs -> bank_freed d d1 c0) /\
    (forall b, plain b -> (c0 ∉ CBs -> b ∉ owned c0) -> reg d1 b = reg d b)) as (d1 & -> & B1 & F1).
  { case_bool_decide; [by exists d|]. destruct (free_run c0 d) as (d1 & -> & B1 & F1); [lia|].
    exists d1. split_and!; auto. }
  destruct (IH (c0 + 1) d1) as (d2 & -> & B2 & F2); [lia|lia|]. exists d2. split; [done|]. split.
  - intros c Hc Hcn. destruct (decide (c = c0)) as [->|Hne].
    + destruct (B1 Hcn) as [A1 A2 A3]. destruct (bank_plain c0) as (P1 & P2 & P3); [lia|].
      assert (forall b, plain b -> b ∈ owned c0 -> reg d2 b = reg d1 b) as Hk.
      { intros b Hb Hin. apply F2; [done|]. intros c' Hc' _. eapply owned_apart; [| | |exact Hin]; lia. }
      split.
      * rewrite Hk, A1; [done|done|]. unfold owned, bank_registers. by right; left.
      * rewrite Forall_forall in *. intros b Hb. rewrite Hk; [by apply A2|by apply P3|].
        unfold owned, bank_registers. by do 3 right.
      * rewrite Hk, A3; [done|done|]. unfold owned, bank_registers. by do 2 right; left.
    + destruct (B2 c) as [A1 A2 A3]; [lia|done|]. destruct (bank_plain c) as (P1 & P2 & P3); [lia|].
      assert (forall b, plain b -> b ∈ owned c -> reg d1 b = reg d b) as Hk.
      { intros b Hb Hin. apply F1; [done|]. intros _. eapply owned_apart; [| | |exact Hin]; lia. }
      rewrite !Hk in A1 by (try done; unfold owned, bank_registers; by right; left).
      rewrite !Hk in A3 by (try done; unfold owned, bank_registers; by do 2 right; left). done.
  - intros b Hb Hout. rewrite F2, F1; [done|done| |done|].
    + intros Hc0. apply Hout; [lia|done].
    + intros c Hc. apply Hout. lia.
Qed.

(** ** The streams *)
Section streams.
Context (Keep : list Z).
Definition valid_stream (d : device) (i : Z) : bool := negb (Z.land (reg d (SMR i)) SMR_VALID =? 0).
Definition kept_stream (d : device) (i : Z) : bool := valid_stream d i && ShouldSkipSID Keep (reg d (SMR i)).
Definition detached_stream (d : device) (i : Z) : bool :=
  valid_stream d i && negb (ShouldSkipSID Keep (reg d (SMR i))).
Definition bank_of (d : device) (i : Z) : Z := s2cr_cbndx (reg d (S2CR i)).

(** A stream after the loop: blocked, if it is valid and not on the list. *)
Record stream_done (d d' : device) (i : Z) : Prop := mk_stream_done {
  done_smr : reg d' (SMR i) = if detached_stream d i then Z.ldiff (reg d (SMR i)) SMR_VALID else reg d (SMR i);
  done_s2cr : reg d' (S2CR i) = if detached_stream d i then s2cr_fault (bank_of d i) else reg d (S2CR i)
}.

Lemma stream_step_run i CBs d : 0 <= i < 256 ->
  exists d', stream_step s Keep i CBs d =
      Some (if kept_stream d i then track (bank_of d i) CBs else CBs, d') /\
    stream_done d d' i /\ (forall b, plain b -> b <> SMR i -> b <> S2CR i -> reg d' b = reg d b).
Proof.
  intros Hi. destruct (plain_streams G i Hi) as [P1 P2].
  unfold stream_step, arm_smmu_gr0_read, arm_smmu_gr0_write. run.
  destruct (read_run (SMR i) d) as (v & d1 & R & Hv & F1). unfold SMR in R at 1. rewrite R, Hv by done. clear R Hv. run.
  destruct (Z.land (reg d (SMR i)) SMR_VALID =? 0) eqn:Ev.
  { exists d1. unfold kept_stream, valid_stream. rewrite Ev. cbn [negb andb]. split; [done|].
    split; [split; unfold detached_stream, valid_stream; rewrite Ev; by apply F1|]. intros. by apply F1. }
  run. destruct (read_run (S2CR i) d1) as (w & d2 & R & Hw & F2). unfold S2CR in R at 1.
  rewrite R, Hw, F1 by done. clear R Hw. run. fold (bank_of d i).
  destruct (ShouldSkipSID Keep (reg d (SMR i))) eqn:Es.
  { exists d2. unfold kept_stream, valid_stream. rewrite Ev, Es. cbn [negb andb]. split; [done|].
    split; [split; unfold detached_stream, valid_stream; rewrite Ev, Es; cbn [negb andb]; by rewrite F2, F1|].
    intros. by rewrite F2, F1. }
  run. destruct (write_run (S2CR i) (s2cr_fault (bank_of d i)) d2) as (d3 & R & F3). unfold S2CR in R at 1.
  rewrite R. clear R. run.
  destruct (write_run (SMR i) (Z.ldiff (reg d (SMR i)) SMR_VALID) d3) as (d4 & R & F4). unfold SMR in R at 1.
  rewrite R. clear R. run. exists d4. unfold kept_stream, valid_stream. rewrite Ev, Es. cbn [negb andb].
  split; [done|]. split; [split; unfold detached_stream, valid_stream; rewrite Ev, Es; cbn [negb andb]|].
  - by writes.
  - rewrite F4, (proj2 (Z.eqb_neq _ _)), F3, Z.eqb_refl by (done || apart). done.
  - intros b Hb H1 H2. by writes.
Qed.

(** The banks of the kept streams, as far as the array has room. *)
Fixpoint kept_banks (d : device) (n : nat) (i : Z) (CBs : list Z) : list Z :=
  match n with
  | O => CBs
  | S n' => kept_banks d n' (i + 1) (if kept_stream d i then track (bank_of d i) CBs else CBs)
  end.
Lemma kept_banks_ext d d' n : forall i CBs,
  (forall j, i <= j < i + Z.of_nat n -> reg d' (SMR j) = reg d (SMR j) /\ reg d' (S2CR j) = reg d (S2CR j)) ->
  kept_banks d' n i CBs = kept_banks d n i CBs.
Proof.
  induction n as [|n IH]; intros i CBs H; cbn [kept_banks]; [done|].
  destruct (H i) as [E1 E2]; [lia|]. unfold kept_stream, valid_stream, bank_of. rewrite E1, E2.
  apply IH. intros j Hj. apply H. lia.
Qed.

Lemma stream_loop_run n : forall i CBs d, 0 <= i -> i + Z.of_nat n <= 256 ->
  exists d', stream_loop s Keep n i CBs d = Some (kept_banks d n i CBs, d') /\
    (forall j, i <= j < i + Z.of_nat n -> stream_done d d' j) /\
    (forall b, plain b -> (forall j, i <= j < i + Z.of_nat n -> b <> SMR j /\ b <> S2CR j) -> reg d' b = reg d b).
Proof.
  induction n as [|n IH]; intros i CBs d H0 Hn; cbn [stream_loop kept_banks].
  { exists d. split; [done|]. split; [lia|done]. }
  run. destruct (stream_step_run i CBs d) as (d1 & -> & D1 & F1); [lia|].
  destruct (IH (i + 1) (if kept_stream d i then track (bank_of d i) CBs else CBs) d1) as (d2 & E & D2 & F2); [lia|lia|].
  assert (forall j, i < j < i + Z.of_nat (S n) -> reg d1 (SMR j) = reg d (SMR j) /\ reg d1 (S2CR j) = reg d (S2CR j)) as K.
  { intros j Hj. destruct (plain_streams G j) as [Q1 Q2]; [lia|]. rewrite !F1 by (done || apart). done. }
  rewrite E, (kept_banks_ext d d1) by (intros j Hj; apply K; lia).
  exists d2. split; [done|]. split.
  - intros j Hj. destruct (decide (j = i)) as [->|Hne].
    + destruct D1 as [A1 A2]. destruct (plain_streams G i) as [Q1 Q2]; [lia|].
      split; (rewrite F2; [done|done|]; intros j' Hj'; split; apart).
    + destruct (D2 j) as [A1 A2]; [lia|]. destruct (K j) as [K1 K2]; [lia|].
      unfold detached_stream, valid_stream, bank_of in *. rewrite K1, ?K2 in *. by split.
  - intros b Hb Hout. destruct (Hout i) as [O1 O2]; [lia|]. rewrite F2, F1; [done|done|done|done|done|].
    intros j Hj. apply Hout. lia.
Qed.

Lemma track_elem c CBs : (length CBs < 16)%nat -> c ∈ track c CBs.
Proof.
  intros H. unfold track. rewrite existsb_elem. case_bool_decide; [done|].
  destruct (Nat.ltb_spec (length CBs) 16); [|lia]. apply elem_of_app. right. by left.
Qed.
Lemma track_mono c CBs : exists l, track c CBs = CBs ++ l.
Proof.
  unfold track. destruct (existsb _ _); [exists []; by rewrite app_nil_r|].
  destruct (_ <? _)%nat; [by exists [c]|exists []; by rewrite app_nil_r].
Qed.
Lemma kept_banks_mono d n : forall i CBs, exists l, kept_banks d n i CBs = CBs ++ l.
Proof.
  induction n as [|n IH]; intros i CBs; cbn [kept_banks]; [exists []; by rewrite app_nil_r|].
  destruct (IH (i + 1) (if kept_stream d i then track (bank_of d i) CBs else CBs)) as [l ->].
  destruct (kept_stream d i); [|by exists l]. destruct (track_mono (bank_of d i) CBs) as [l' ->].
  exists (l' ++ l). by rewrite app_assoc.
Qed.
Lemma kept_banks_elem d n : forall i CBs j, (length (kept_banks d n i CBs) < 16)%nat ->
  i <= j < i + Z.of_nat n -> kept_stream d j = true -> bank_of d j ∈ kept_banks d n i CBs.
Proof.
  induction n as [|n IH]; intros i CBs j Hl Hj Hk; [lia|]. cbn [kept_banks] in *.
  destruct (decide (j = i)) as [->|Hne]; [|apply IH; [done|lia|done]].
  rewrite Hk in *. destruct (kept_banks_mono d n (i + 1) (track (bank_of d i) CBs)) as [l E].
  rewrite E in *. apply elem_of_app. left. apply track_elem.
  destruct (track_mono (bank_of d i) CBs) as [l' E']. rewrite E', !length_app in Hl. lia.
Qed.
End streams.

Definition TLBI : Z := page_at s ARM_SMMU_GR0 ARM_SMMU_GR0_TLBIALLNSNH.
Lemma owned_streams_apart c i b : 0 <= c < 256 -> 0 <= i < 256 -> b ∈ owned c -> b <> SMR i /\ b <> S2CR i.
Proof.
  intros Hc Hi Hb. unfold owned, bank_registers, table_registers in *.
  repeat (apply elem_of_cons in Hb as [->|Hb]); try (by apply not_elem_of_nil in Hb); split; apart.
Qed.
Lemma owned_TLBI c b : 0 <= c < 256 -> b ∈ owned c -> b <> TLBI.
Proof.
  intros Hc Hb. unfold owned, bank_registers, table_registers, TLBI, ARM_SMMU_GR0_TLBIALLNSNH in *.
  repeat (apply elem_of_cons in Hb as [->|Hb]); try (by apply not_elem_of_nil in Hb); apart.
Qed.
Lemma streams_TLBI i : 0 <= i < 256 -> SMR i <> TLBI /\ S2CR i <> TLBI.
Proof. intros Hi. unfold TLBI, ARM_SMMU_GR0_TLBIALLNSNH. split; apart. Qed.

(** The end of the detachment, from the streams on. *)
Lemma detach_tail Keep n d : 0 <= n < 256 -> 0 <= num_context_banks s < 256 ->
  let kept := kept_banks Keep d (Z.to_nat n) 0 [] in
  exists d', (ContextBanks ← stream_loop s Keep (Z.to_nat n) 0 [];
              _ ← smmu_tlb_invalidate_all s;
              bank_loop s ContextBanks (Z.to_nat (num_context_banks s)) 0) d = Some (tt, d') /\
    (forall i, 0 <= i < n -> stream_done Keep d d' i) /\
    (forall c, 0 <= c < num_context_banks s ->
       if bool_decide (c ∈ kept) then Forall (fun b => reg d' b = reg d b) (bank_registers c)
       else bank_freed d d' c).
Proof.
  intros Hn Hc kept. run.
  destruct (stream_loop_run Keep (Z.to_nat n) 0 [] d) as (d3 & -> & D3 & F3); [lia|lia|]. run.
  unfold smmu_tlb_invalidate_all, arm_smmu_gr0_write. run.
  destruct (write_run TLBI 0 d3) as (d4 & R & F4). unfold TLBI in R at 1. rewrite R. clear R. run.
  destruct (tlb_wait_run (Z.to_nat 1000000) d4) as (d5 & -> & F5). run. fold kept.
  destruct (bank_loop_run kept (Z.to_nat (num_context_banks s)) 0 d5) as (d6 & -> & B6 & F6); [lia|lia|].
  exists d6. split; [done|].
  assert (forall b c, 0 <= c < 256 -> plain b -> b ∈ owned c -> reg d5 b = reg d b) as Ho.
  { intros b c Hc' Hb Hin. rewrite F5, F4, (proj2 (Z.eqb_neq _ _)) by (done || by eapply owned_TLBI).
    apply F3; [done|]. intros j Hj. eapply owned_streams_apart; [| |exact Hin]; lia. }
  assert (forall c, 0 <= c < 256 -> Forall (fun b => b ∈ owned c) (bank_registers c)) as Hsub.
  { intros c _. apply Forall_forall. intros b Hb. by right. }
  split.
  - intros i Hi. destruct (plain_streams G i) as [P1 P2]; [lia|]. destruct (streams_TLBI i) as [T1 T2]; [lia|].
    destruct (D3 i) as [A1 A2]; [lia|].
    split; (rewrite F6, F5, F4, (proj2 (Z.eqb_neq _ _)); [done|done|done|done|done|]);
      intros c Hcc _ Hin; apply (owned_streams_apart c i) in Hin as [? ?]; (done || lia).
  - intros c Hcc. specialize (Hsub c ltac:(lia)). pose proof (plain_banks G c ltac:(lia)) as Hpl.
    rewrite Forall_forall in Hsub, Hpl. case_bool_decide as Hk.
    + apply Forall_forall. intros b Hb. rewrite F6; [eapply Ho; [|by apply Hpl|by apply Hsub]; lia|by apply Hpl|].
      intros c' Hc' Hnk. eapply owned_apart; [| | |by apply Hsub]; try lia. by intros <-.
    + destruct (B6 c) as [A1 A2 A3]; [lia|done|]. destruct (bank_plain c) as (P1 & P2 & P3); [lia|].
      split; [|done|].
      * rewrite A1. f_equal. apply (Ho _ c); [lia|done|]. unfold owned, bank_registers. by right; left.
      * rewrite A3. rewrite (Ho (CBAR c) c); [done|lia|done|]. unfold owned, bank_registers. by do 2 right; left.
Qed.
End spec.

(** ** The whole *)
Lemma cleared_bit x m : Z.land (Z.ldiff x m) m = 0.
Proof. apply Z.bits_inj'. intros n _. rewrite Z.land_spec, Z.ldiff_spec, Z.bits_0. by destruct (Z.testbit x n), (Z.testbit m n). Qed.
Definition s2cr_type (v : Z) : Z := Z.land (Z.shiftr v S2CR_TYPE_SHIFT) S2CR_TYPE_MASK.
Lemma s2cr_fault_type c : 0 <= c -> s2cr_type (s2cr_fault c) = S2CR_TYPE_FAULT.
Proof.
  intros Hc. unfold s2cr_type, s2cr_fault, S2CR_TYPE_SHIFT, S2CR_CBNDX_SHIFT, S2CR_CBNDX_MASK.
  rewrite Z.shiftr_lor, Z.shiftl_0_r, Z.shiftr_shiftl_l, Z.sub_diag, Z.shiftl_0_r by lia.
  rewrite (Z.shiftr_eq_0 (Z.land c 0xFF)); [done| |].
  - apply Z.land_nonneg. by left.
  - change 0xFF with (Z.ones 8). rewrite Z.land_ones by lia.
    pose proof (Z.mod_pos_bound c (2 ^ 8) ltac:(lia)). destruct (decide (c mod 2 ^ 8 = 0)) as [->|]; [cbn; lia|].
    apply Z.log2_lt_pow2; lia.
Qed.

Section detach.
Context {IO : Mmio} {plain : Z -> Prop} {L : MmioLaws IO plain}.
Definition ID_at (base offset : Z) : Z := page_at (mk_smmu base 0 0 0) ARM_SMMU_GR0 offset.
Lemma ID_at_page s o : page_at s ARM_SMMU_GR0 o = ID_at (smmu_base_address s) o.
Proof. unfold ID_at, page_at. by rewrite !Z.shiftl_0_l. Qed.

Lemma smmu_of_geometry base id1 : 0 <= base < 2 ^ 63 ->
  (forall i, 0 <= i < 256 -> plain (SMR (smmu_of base id1) i) /\ plain (S2CR (smmu_of base id1) i)) ->
  (forall c, 0 <= c < 256 -> Forall plain (bank_registers (smmu_of base id1) c)) ->
  geometry (plain := plain) (smmu_of base id1).
Proof.
  intros Hb H1 H2. split; [exact Hb| | |exact H1|exact H2]; unfold smmu_of; cbn [pgshift numpage].
  - case_if; auto.
  - assert (0 <= Z.shiftr (Z.land id1 ARM_SMMU_ID1_NUMPAGENDXB) 28 <= 7) as Hx.
    { unfold ARM_SMMU_ID1_NUMPAGENDXB. rewrite Z.shiftr_land. change (Z.shiftr (Z.shiftl (2 ^ 3 - 1) 28) 28) with (Z.ones 3).
      rewrite Z.land_ones by lia. pose proof (Z.mod_pos_bound (Z.shiftr id1 28) (2 ^ 3)). lia. }
    rewrite Z.shiftl_mul_pow2 by lia. set (x := Z.shiftr _ _) in *.
    pose proof (Z.pow_le_mono_r 2 1 (x + 1)). pose proof (Z.pow_le_mono_r 2 (x + 1) 8).
    rewrite u32_small by (unfold in_u32; lia). lia.
Qed.

(** What a context bank that translates nothing looks like. *)
Definition bank_off (s : ARM_SMMU_V2_DEVICE) (d : device) (c : Z) : Prop :=
  Z.land (reg d (SCTLR s c)) SCTLR_M = 0 /\ Forall (fun b => reg d b = 0) (table_registers s c) /\
  cbar_in_use (reg d (CBAR s c)) = false.

(** C34 MmuDetach ends, for any hardware whose registers keep what is
    written to them.  A valid stream that is not on the list is invalid afterwards and
    its accesses fault; every other stream keeps its two registers.  A context bank in
    use by a kept stream keeps all its registers; every other bank has its MMU off, no
    page tables and a free type.  All kept streams have their bank spared if fewer than
    16 banks are in use by them: the code has room for 16. *)
Theorem MmuDetach_detaches SMMUMemoryRegion Keep d :
  let base := Address SMMUMemoryRegion in
  let s := smmu_of base (reg d (ID_at base ARM_SMMU_GR0_ID1)) in
  0 <= base < 2 ^ 63 ->
  plain (ID_at base ARM_SMMU_GR0_ID0) -> plain (ID_at base ARM_SMMU_GR0_ID1) ->
  (forall i, 0 <= i < 256 -> plain (SMR s i) /\ plain (S2CR s i)) ->
  (forall c, 0 <= c < 256 -> Forall plain (bank_registers s c)) ->
  exists d', MmuDetach SMMUMemoryRegion Keep d = Some (tt, d') /\
    let n := Z.land (reg d (ID_at base ARM_SMMU_GR0_ID0)) 0xFF in
    let kept := kept_banks s Keep d (Z.to_nat n) 0 [] in
    (forall i, 0 <= i < n ->
       if detached_stream s Keep d i
       then Z.land (reg d' (SMR s i)) SMR_VALID = 0 /\ s2cr_type (reg d' (S2CR s i)) = S2CR_TYPE_FAULT
       else reg d' (SMR s i) = reg d (SMR s i) /\ reg d' (S2CR s i) = reg d (S2CR s i)) /\
    (forall c, 0 <= c < num_context_banks s ->
       if bool_decide (c ∈ kept) then Forall (fun b => reg d' b = reg d b) (bank_registers s c)
       else bank_off s d' c) /\
    ((length kept < 16)%nat ->
       forall i, 0 <= i < n -> kept_stream s Keep d i = true -> bank_of s d i ∈ kept).
Proof.
  intros base s Hb P0 P1 Ps Pb. assert (geometry (plain := plain) s) as G by (by apply smmu_of_geometry).
  assert (forall x, 0 <= Z.land x 0xFF < 256) as Hmask.
  { intros x. change 0xFF with (Z.ones 8). rewrite Z.land_ones by lia. apply Z.mod_pos_bound. lia. }
  unfold MmuDetach, smmu_v2_detach_all, arm_smmu_gr0_read. run. fold base. fold (ID_at base ARM_SMMU_GR0_ID1).
  destruct (read_run (ID_at base ARM_SMMU_GR0_ID1) d) as (v & d1 & -> & Hv & F1). rewrite Hv by done. run. fold s.
  rewrite ID_at_page. change (smmu_base_address s) with base.
  destruct (read_run (ID_at base ARM_SMMU_GR0_ID0) d1) as (w & d2 & -> & Hw & F2). rewrite Hw, F1 by done.
  run. rewrite Z.shiftr_0_r. set (n := Z.land _ 0xFF). assert (0 <= n < 256) as Hn by apply Hmask.
  destruct (detach_tail s G Keep n d2 Hn (Hmask _)) as (d' & E & D & B). rewrite bind_run in E. rewrite E. clear E.
  assert (same d d2) as F by (by eapply same_trans). exists d'. split; [done|]. cbv zeta.
  assert (forall i, 0 <= i < 256 -> reg d2 (SMR s i) = reg d (SMR s i) /\ reg d2 (S2CR s i) = reg d (S2CR s i)) as K.
  { intros i Hi. destruct (Ps i Hi). by rewrite !F. }
  rewrite (kept_banks_ext s Keep d d2) in B by (intros j Hj; apply K; lia). split_and!.
  - intros i Hi. destruct (D i Hi) as [A1 A2]. destruct (K i) as [K1 K2]; [lia|].
    unfold detached_stream, valid_stream, bank_of in *. rewrite K1, ?K2 in *. case_if; [|done].
    rewrite A1, A2. split; [apply cleared_bit|]. apply s2cr_fault_type. unfold s2cr_cbndx, S2CR_CBNDX_SHIFT, S2CR_CBNDX_MASK.
    apply Hmask.
  - intros c Hc. specialize (B c Hc). assert (0 <= c < 256) as Hc' by (specialize (Hmask (reg d (ID_at base ARM_SMMU_GR0_ID1))); cbn in Hc; unfold ARM_SMMU_ID1_NUMCB_MASK in Hc; lia).
    pose proof (Pb c Hc') as Hpl. case_bool_decide.
    + rewrite Forall_forall in *. intros b Hin. rewrite B, F by auto. done.
    + destruct B as [A1 A2 A3]. split_and!; [rewrite A1; apply cleared_bit|done|]. rewrite A3. by case_if.
  - intros Hl i Hi. apply kept_banks_elem; [done|lia].
Qed.
End detach.

(** ** A small SMMU: registers that are memory, three streams and two banks *)
Definition memory_Mmio : Mmio := {|
  device := Z -> Z;
  MmioRead32 a d := (d a, d);
  MmioWrite32 a v d := fun b => if b =? a then v else d b;
  MicroSecondDelay _ d := d
|}.
#[export] Instance memory_MmioLaws : MmioLaws memory_Mmio (fun _ => True).
Proof. by exists (fun (d : @device memory_Mmio) a => d a). Defined.

Definition demo_smmu_base : Z := 0x15000000.
(** Stream 0 is the display, 0x820, on bank 1; stream 1 another device, on bank 0; stream 2
    is not valid. *)
Definition demo_smmu : @device memory_Mmio := fun a =>
  let o := a - demo_smmu_base in
  if o =? 0x20 then 3 else if o =? 0x24 then 2
  else if o =? 0x800 then 0x80000820 else if o =? 0x804 then 0x80000123 else if o =? 0x808 then 0x456
  else if o =? 0xC00 then 1 else 0.
Definition demo_SMMU_region : ARM_MEMORY_REGION_DESCRIPTOR_EX :=
  mk_region (bytes "SMMU") demo_smmu_base 0xD0000 AddDev EFI_RESOURCE_MEMORY_MAPPED_IO
    [EFI_RESOURCE_ATTRIBUTE_UNCACHEABLE] EfiMemoryMappedIO ARM_MEMORY_REGION_ATTRIBUTE_DEVICE.

Lemma MmuDetach_detaches_witness :
  exists d', @MmuDetach memory_Mmio demo_SMMU_region Sm8350_SMMUSIDsToKeep demo_smmu = Some (tt, d') /\
    d' (demo_smmu_base + 0x800) = 0x80000820 /\ Z.land (d' (demo_smmu_base + 0x804)) SMR_VALID = 0 /\
    d' (demo_smmu_base + 0xC00) = 1.
Proof.
  destruct (@MmuDetach_detaches memory_Mmio _ memory_MmioLaws demo_SMMU_region Sm8350_SMMUSIDsToKeep demo_smmu)
    as (d' & E & Hs & _); [done|done|done|done|by intros; apply Forall_forall|].
  exists d'. split; [exact E|].
  destruct (Hs 0 ltac:(done)) as [A1 A2]. destruct (Hs 1 ltac:(done)) as [B1 _].
  split; [exact A1|]. split; [exact B1|exact A2].
Defined.
