(* ===== verification/Unicode.v ===== *)
(** * More of EDK II's BaseLib: bounded comparison of ASCII strings, and the
    string functions on CHAR16.

    As in BaseLib.v a string is passed as its code units without the terminator.
    A safe copy ([StrnCpyS], [StrnCatS]) is given the characters of the
    destination and returns its status and the new characters. *)
From stdpp Require Import base numbers list option.
From Stdlib Require Import ZArith Lia.
From S2P Require Import Prelude BaseLib.
Local Open Scope Z_scope.

Class UnicodeLib := {
  AsciiStrnCmp : list Z -> list Z -> nat -> Z;
  StrLen : list Z -> nat;
  StrCmp : list Z -> list Z -> Z;
  StrnCmp : list Z -> list Z -> nat -> Z;
  StrStr : list Z -> list Z -> option nat;
  StrnCpyS : list Z -> nat -> list Z -> nat -> EFI_STATUS * list Z;
  StrnCatS : list Z -> nat -> list Z -> nat -> EFI_STATUS * list Z
}.

Class UnicodeLibLaws (UL : UnicodeLib) := {
  (** "Compares up to Length characters; 0 if they are identical." *)
  AsciiStrnCmp_law s t n : AsciiStrnCmp s t n = 0 <-> take n s = take n t;
  StrLen_law s : StrLen s = length s;
  StrCmp_law s t : StrCmp s t = 0 <-> s = t;
  StrnCmp_law s t n : StrnCmp s t n = 0 <-> take n s = take n t;
  StrStr_law s t :
    match StrStr s t with
    | Some k => occurs_at t s k /\ forall j, (j < k)%nat -> ~ occurs_at t s j
    | None => forall j, ~ occurs_at t s j
    end;
  (** "Copies not more than Length characters and appends the terminator;
      DestMax must be greater than the smaller of the two lengths.  On an error
      the destination is unmodified." *)
  StrnCpyS_fits d m s n :
    (length (take n s) < m)%nat -> StrnCpyS d m s n = (EFI_SUCCESS, take n s);
  StrnCpyS_error d m s n :
    (m <= length (take n s))%nat ->
    EFI_ERROR (fst (StrnCpyS d m s n)) = true /\ snd (StrnCpyS d m s n) = d;
  StrnCatS_fits d m s n :
    (length d + length (take n s) < m)%nat -> StrnCatS d m s n = (EFI_SUCCESS, d ++ take n s);
  StrnCatS_error d m s n :
    (m <= length d + length (take n s))%nat ->
    EFI_ERROR (fst (StrnCatS d m s n)) = true /\ snd (StrnCatS d m s n) = d
}.

(** The characters of an array up to its terminator, or all of it. *)
Definition chars_of (arr : list Z) : list Z :=
  take (count_while (fun c => negb (c =? 0)) arr) arr.

Definition reference_UnicodeLib : UnicodeLib := {|
  AsciiStrnCmp s t n := if decide (take n s = take n t) then 0 else 1;
  StrLen := length;
  StrCmp s t := if decide (s = t) then 0 else 1;
  StrnCmp s t n := if decide (take n s = take n t) then 0 else 1;
  StrStr s t := first_from (fun k => bool_decide (occurs_at t s k)) (S (length s)) 0;
  StrnCpyS d m s n :=
    if (length (take n s) <? m)%nat then (EFI_SUCCESS, take n s) else (EFI_BUFFER_TOO_SMALL, d);
  StrnCatS d m s n :=
    if (length d + length (take n s) <? m)%nat then (EFI_SUCCESS, d ++ take n s)
    else (EFI_BUFFER_TOO_SMALL, d)
|}.

Lemma reference_UnicodeLib_laws : UnicodeLibLaws reference_UnicodeLib.
Proof.
  split; cbn [AsciiStrnCmp StrLen StrCmp StrnCmp StrStr StrnCpyS StrnCatS reference_UnicodeLib].
  - intros s t n. by destruct (decide _); split.
  - done.
  - intros s t. by destruct (decide _); split.
  - intros s t n. by destruct (decide _); split.
  - exact (AsciiStrStr_law (BaseLibLaws := reference_BaseLib_laws)).
  - intros d m s n H. by apply Nat.ltb_lt in H as ->.
  - intros d m s n H. by apply Nat.ltb_ge in H as ->.
  - intros d m s n H. by apply Nat.ltb_lt in H as ->.
  - intros d m s n H. by apply Nat.ltb_ge in H as ->.
Qed.

(** ** What the callers use *)
Section laws.
Context {UL : UnicodeLib} {ULL : UnicodeLibLaws UL}.
Implicit Types s t : list Z.

(** A comparison over the length of the first string is a prefix test. *)
Lemma StrnCmp_prefix s t : StrnCmp s t (length s) = 0 <-> s `prefix_of` t.
Proof.
  rewrite StrnCmp_law, take_ge by done. split.
  - intros E. exists (drop (length s) t). rewrite E at 1. by rewrite take_drop.
  - intros [k ->]. by rewrite take_app_length.
Qed.

Lemma StrnCmp_eqb s t n : (StrnCmp s t n =? 0) = bool_decide (take n s = take n t).
Proof.
  apply eq_bool_prop_intro. rewrite !Is_true_true, Z.eqb_eq, bool_decide_eq_true.
  apply StrnCmp_law.
Qed.

Lemma AsciiStrnCmp_eqb s t n : (AsciiStrnCmp s t n =? 0) = bool_decide (take n s = take n t).
Proof.
  apply eq_bool_prop_intro. rewrite !Is_true_true, Z.eqb_eq, bool_decide_eq_true.
  apply AsciiStrnCmp_law.
Qed.

Lemma StrStr_None s t : StrStr s t = None <-> forall k, ~ occurs_at t s k.
Proof.
  pose proof (StrStr_law s t) as H. destruct (StrStr s t) as [k|].
  - split; [done|]. intros Hn. by destruct (Hn k), H.
  - done.
Qed.
End laws.

Lemma chars_of_cstring arr : cstring (chars_of arr).
Proof.
  pose proof (count_while_all (fun c => negb (c =? 0)) arr) as H. revert H.
  apply Forall_impl. intros c Hc. by apply negb_true_iff, Z.eqb_neq in Hc.
Qed.

Lemma chars_of_terminated s rest : cstring s -> chars_of (s ++ 0 :: rest) = s.
Proof.
  intros Hs. unfold chars_of. rewrite count_while_app_all.
  - cbn [count_while]. rewrite Z.eqb_refl. cbn [negb]. by rewrite Nat.add_0_r, take_app_length.
  - revert Hs. apply Forall_impl. intros c Hc. by apply negb_true_iff, Z.eqb_neq.
Qed.
