(* ===== verification/Storage.v ===== *)
(** * Storage: root device, block I/O and writes to a partition.

    [Platforms/QcomModulePkg/Library/BootLib/Board.c] (root device type, page
    size, boot LUN), the writes of [LinuxLoaderLib.c], and [GetPartitionSize] and
    [GetStorageHandle] of [PartitionTableUpdate.c].

    The protocols the firmware installs are the operations of [Firmware]: this
    repository only calls them.  An operation that changes a device is an event
    of the log kept in the state; the firmware answers it, and every later read,
    from the log so far.  [boot_state] holds the log and the static variables of
    Board.c and PartitionTableUpdate.c. *)
From stdpp Require Import base numbers list option strings.
From Stdlib Require Import ZArith Lia Ascii.
From S2P Require Import Prelude BaseLib Unicode.
Local Open Scope Z_scope.

(** ** Data *)
Inductive MemCardType := EMMC | UFS | NAND | UNKNOWN.
#[export] Instance MemCardType_eq_dec : EqDecision MemCardType.
Proof. solve_decision. Defined.

(** A GUID is its 16 bytes in memory. *)
Definition EFI_GUID : Type := list Z.

(** The device GUIDs of Qualcomm's firmware, declared in a package that is not
    part of this repository, by name. *)
Inductive RootDevice :=
| gEfiEmmcUserPartitionGuid
| gEfiNandUserPartitionGuid
| gEfiUfsLUGuid (n : nat).
#[export] Instance RootDevice_eq_dec : EqDecision RootDevice.
Proof. solve_decision. Defined.

Record PartiSelectFilter := mk_filter {
  RootDeviceType : option RootDevice;
  PartitionType : option EFI_GUID
}.

Definition BLK_IO_SEL_MEDIA_TYPE_NON_REMOVABLE : Z := 0x2.
Definition BLK_IO_SEL_PARTITIONED_GPT : Z := 0x4.
Definition BLK_IO_SEL_MATCH_PARTITION_TYPE_GUID : Z := 0x10.
Definition BLK_IO_SEL_SELECT_ROOT_DEVICE_ONLY : Z := 0x80.
Definition BLK_IO_SEL_MATCH_ROOT_DEVICE : Z := 0x100.

(** An [EFI_BLOCK_IO_PROTOCOL] and its media; [This] identifies the device. *)
Record EFI_BLOCK_IO_PROTOCOL := mk_blkio {
  This : Z; MediaId : Z; BlockSize : Z; LastBlock : Z
}.

(** [BlkIo] is [None] for a NULL interface. *)
Record HandleInfo := mk_handle { Handle : Z; BlkIo : option EFI_BLOCK_IO_PROTOCOL }.

Definition MAX_HANDLEINF_LST_SIZE : nat := 128.
Definition HANDLE_MAX_INFO_LIST : nat := 128.
Definition MAX_HANDLE_INFO_LIST : nat := 128.
Definition MAX_NUM_PARTITIONS : nat := 128.
Definition MAX_LUNS : nat := 8.
Definition BOOT_IMG_MAX_PAGE_SIZE : Z := 4096.
Definition EFI_MEM_CARD_INFO_PROTOCOL_REVISION : Z := 0x10003.
Definition MAX_WRITE_SIZE : Z := 1024 * 1024.

(** The entry of a GPT as the partition driver returns it, and the driver's
    entry with its LUN.  [PartitionName] has 36 code units. *)
Record EFI_PARTITION_ENTRY := mk_part {
  PartitionTypeGUID : EFI_GUID;
  UniquePartitionGUID : EFI_GUID;
  StartingLBA : Z;
  EndingLBA : Z;
  Attributes : Z;
  PartitionName : list Z
}.
Record PartitionEntry := mk_entry { PartEntry : EFI_PARTITION_ENTRY; lun : Z }.

Inductive device_event :=
| WriteBlocks (dev : Z) (Lba : Z) (Data : list Z)
| EraseBlocks (dev : Z) (Lba : Z) (Size : Z)
| SetBootLU (Lun : Z)
| ResetSystem.

(** ** The firmware *)
Class Firmware := {
  (** Status and the handles written: their number is the returned count. *)
  GetBlkIOHandles : Z -> PartiSelectFilter -> nat -> EFI_STATUS * list HandleInfo;
  (** LocateProtocol (gEfiMemCardInfoProtocolGuid), GetCardInfo: status of each
      and the field [card_type]. *)
  LocateMemCardInfo : EFI_STATUS;
  GetCardInfo : EFI_STATUS * list Z;
  (** HandleProtocol (gEfiMemCardInfoProtocolGuid): status and revision. *)
  MemCardInfoOn : Z -> EFI_STATUS * Z;
  GetBootLU : list device_event -> EFI_STATUS * Z;
  (** HandleProtocol (gEfiEraseBlockProtocolGuid): status and
      [EraseLengthGranularity]. *)
  EraseBlockProtocol : Z -> EFI_STATUS * Z;
  (** HandleProtocol (gEfiPartitionRecordGuid). *)
  PartitionRecord : Z -> EFI_STATUS * EFI_PARTITION_ENTRY;
  (** The answer to an event, after the events of the log. *)
  EventStatus : list device_event -> device_event -> EFI_STATUS;
  (** Reading [Size] bytes at a block address. *)
  ReadBlocks : list device_event -> Z -> Z -> Z -> EFI_STATUS * list Z;
  CalculateCrc32 : list Z -> EFI_STATUS * Z;
  (** Whether AllocateZeroPool finds [Size] bytes, at the [n]-th request of a loop. *)
  PoolAvailable : nat -> Z -> bool;
  (** The misc partition type, and LocateProtocol (gEfiNandPartiGuidProtocolGuid)
      with GenGuid ("misc"). *)
  gEfiMiscPartitionGuid : EFI_GUID;
  LocateNandPartiGuid : EFI_STATUS;
  GenMiscGuid : EFI_STATUS * EFI_GUID
}.

Class FirmwareLaws (FW : Firmware) := {
  (** "On output, the number of handles returned": never more than the array holds.
      BlockHandlesSpec.v proves it of the function. *)
  GetBlkIOHandles_law a f n : (0 < n)%nat -> (length (snd (GetBlkIOHandles a f n)) <= n)%nat;
  (** A read that succeeds fills the buffer. *)
  ReadBlocks_law l d b n :
    fst (ReadBlocks l d b n) = EFI_SUCCESS -> 0 <= n ->
    Z.of_nat (length (snd (ReadBlocks l d b n))) = n;
  (** The checksum of a non-empty buffer is a 32-bit number. *)
  CalculateCrc32_law data :
    data <> [] -> fst (CalculateCrc32 data) = EFI_SUCCESS /\ in_u32 (snd (CalculateCrc32 data))
}.

(** ** Static variables *)
Record boot_state := mk_boot {
  RootType : MemCardType;
  log : list device_event;
  FlashingGpt : bool;
  ParseSecondaryGpt : bool;
  Ptable : list (list HandleInfo);
  PtnEntries : list PartitionEntry;
  MaxLuns : nat;
  PartitionCount : nat;
  FirstBoot : bool;
  PtnEntriesBak : list PartitionEntry;
  HeadNode : list (list Z)
}.
Abbreviation B := (M boot_state).

Definition set_RootType (x : MemCardType) (s : boot_state) : boot_state :=
  mk_boot x (log s) (FlashingGpt s) (ParseSecondaryGpt s) (Ptable s) (PtnEntries s)
    (MaxLuns s) (PartitionCount s) (FirstBoot s) (PtnEntriesBak s) (HeadNode s).
Definition set_log (x : list device_event) (s : boot_state) : boot_state :=
  mk_boot (RootType s) x (FlashingGpt s) (ParseSecondaryGpt s) (Ptable s) (PtnEntries s)
    (MaxLuns s) (PartitionCount s) (FirstBoot s) (PtnEntriesBak s) (HeadNode s).
Definition set_FlashingGpt (x : bool) (s : boot_state) : boot_state :=
  mk_boot (RootType s) (log s) x (ParseSecondaryGpt s) (Ptable s) (PtnEntries s)
    (MaxLuns s) (PartitionCount s) (FirstBoot s) (PtnEntriesBak s) (HeadNode s).
Definition set_ParseSecondaryGpt (x : bool) (s : boot_state) : boot_state :=
  mk_boot (RootType s) (log s) (FlashingGpt s) x (Ptable s) (PtnEntries s)
    (MaxLuns s) (PartitionCount s) (FirstBoot s) (PtnEntriesBak s) (HeadNode s).
Definition set_Ptable (x : list (list HandleInfo)) (s : boot_state) : boot_state :=
  mk_boot (RootType s) (log s) (FlashingGpt s) (ParseSecondaryGpt s) x (PtnEntries s)
    (MaxLuns s) (PartitionCount s) (FirstBoot s) (PtnEntriesBak s) (HeadNode s).
Definition set_PtnEntries (x : list PartitionEntry) (s : boot_state) : boot_state :=
  mk_boot (RootType s) (log s) (FlashingGpt s) (ParseSecondaryGpt s) (Ptable s) x
    (MaxLuns s) (PartitionCount s) (FirstBoot s) (PtnEntriesBak s) (HeadNode s).
Definition set_MaxLuns (x : nat) (s : boot_state) : boot_state :=
  mk_boot (RootType s) (log s) (FlashingGpt s) (ParseSecondaryGpt s) (Ptable s) (PtnEntries s)
    x (PartitionCount s) (FirstBoot s) (PtnEntriesBak s) (HeadNode s).
Definition set_PartitionCount (x : nat) (s : boot_state) : boot_state :=
  mk_boot (RootType s) (log s) (FlashingGpt s) (ParseSecondaryGpt s) (Ptable s) (PtnEntries s)
    (MaxLuns s) x (FirstBoot s) (PtnEntriesBak s) (HeadNode s).
Definition set_FirstBoot (x : bool) (s : boot_state) : boot_state :=
  mk_boot (RootType s) (log s) (FlashingGpt s) (ParseSecondaryGpt s) (Ptable s) (PtnEntries s)
    (MaxLuns s) (PartitionCount s) x (PtnEntriesBak s) (HeadNode s).
Definition set_PtnEntriesBak (x : list PartitionEntry) (s : boot_state) : boot_state :=
  mk_boot (RootType s) (log s) (FlashingGpt s) (ParseSecondaryGpt s) (Ptable s) (PtnEntries s)
    (MaxLuns s) (PartitionCount s) (FirstBoot s) x (HeadNode s).
Definition set_HeadNode (x : list (list Z)) (s : boot_state) : boot_state :=
  mk_boot (RootType s) (log s) (FlashingGpt s) (ParseSecondaryGpt s) (Ptable s) (PtnEntries s)
    (MaxLuns s) (PartitionCount s) (FirstBoot s) (PtnEntriesBak s) x.

(** ** GetPartitionSize *)
Definition GetPartitionSize (BlockIo : option EFI_BLOCK_IO_PROTOCOL) : Z :=
  match BlockIo with
  | None => 0
  | Some b =>
    if CHECK_ADD64 (LastBlock b) 1 then 0 else
    if MAX_UINT64 / u64 (LastBlock b + 1) <? BlockSize b then 0 else
    u64 (u64 (LastBlock b + 1) * BlockSize b)
  end.

(** [ROUND_TO_PAGE] over [ADD_OF], for a 64-bit [x] and a 32-bit [y]. *)
Definition ROUND_TO_PAGE (x y : Z) : Z :=
  Z.land (if x <? MAX_UINT32 - y then u64 (x + y) else 0) (u32 (Z.lnot y)).

(** [Size] bytes of a buffer from an offset. *)
Definition load (buf : list Z) (off n : nat) : option (list Z) :=
  if (off + n <=? length buf)%nat then Some (take n (drop off buf)) else fault.

(** ** Operations *)
Section storage.
Context {FW : Firmware} {BL : BaseLib} {UL : UnicodeLib}.

(** A device operation: logged, and answered by the firmware. *)
Definition do_event (e : device_event) : B EFI_STATUS := fun s =>
  Some (EventStatus (log s) e, set_log (log s ++ [e]) s).

Definition GetDeviceHandleInfo (MaxHandles : nat) (Type_ : MemCardType)
  : EFI_STATUS * list HandleInfo :=
  match Type_ with
  | UNKNOWN => (EFI_INVALID_PARAMETER, [])
  | _ =>
    let RootDeviceType_ :=
      match Type_ with
      | UFS => gEfiUfsLUGuid 0
      | EMMC => gEfiEmmcUserPartitionGuid
      | _ => gEfiNandUserPartitionGuid
      end in
    GetBlkIOHandles BLK_IO_SEL_MATCH_ROOT_DEVICE (mk_filter (Some RootDeviceType_) None) MaxHandles
  end.

(** The loop over the types in the order of the enumeration, below [UNKNOWN]. *)
Definition GetCompatibleRootDeviceType : MemCardType :=
  let try t := is_success (fst (GetDeviceHandleInfo HANDLE_MAX_INFO_LIST t)) in
  if try EMMC then EMMC else if try UFS then UFS else if try NAND then NAND else UNKNOWN.

Definition is_prefix_of (name card : list Z) : bool :=
  AsciiStrnCmp card name (AsciiStrLen name) =? 0.

Definition CheckRootDeviceType : B MemCardType :=
  Type_ ← gets RootType;
  if negb (bool_decide (Type_ = UNKNOWN)) then mret Type_ else
  if EFI_ERROR LocateMemCardInfo then mret Type_ else
  let (Status, card_type) := GetCardInfo in
  if EFI_ERROR Status then mret Type_ else
  let Type' :=
    if is_prefix_of (bytes "UFS") card_type then UFS
    else if is_prefix_of (bytes "EMMC") card_type then EMMC
    else if is_prefix_of (bytes "NAND") card_type then NAND
    else GetCompatibleRootDeviceType in
  _ ← modify (set_RootType Type');
  mret Type'.

Definition DeviceType (t : MemCardType) : list Z :=
  match t with
  | EMMC => bytes "EMMC" | UFS => bytes "UFS" | NAND => bytes "NAND" | UNKNOWN => bytes "Unknown"
  end.
Definition BOOT_DEV_NAME_SIZE_MAX : nat := 10.

(** AsciiSPrint with ["%a"]: the string, cut to the size of the buffer. *)
Definition GetRootDeviceType (Len : nat) : B (list Z) :=
  Type_ ← CheckRootDeviceType;
  mret (take (Len - 1) (DeviceType Type_)).

Definition GetPageSize : B Z :=
  Type_ ← CheckRootDeviceType;
  match GetDeviceHandleInfo HANDLE_MAX_INFO_LIST Type_ with
  | (EFI_SUCCESS, HandleInfoList) =>
      h ← access (HandleInfoList !! 0%nat);
      blk ← access (BlkIo h);
      mret (BlockSize blk)
  | _ => mret BOOT_IMG_MAX_PAGE_SIZE
  end.

(** The out-parameter is the old value when the call does not set it. *)
Definition UfsGetSetBootLun (UfsBootlun : Z) (IsGet : bool) : B (EFI_STATUS * Z) :=
  let (Status, HandleInfoList) :=
    GetBlkIOHandles BLK_IO_SEL_MATCH_ROOT_DEVICE
      (mk_filter (Some (gEfiUfsLUGuid 0)) None) MAX_HANDLE_INFO_LIST in
  if EFI_ERROR Status then mret (EFI_NOT_FOUND, UfsBootlun) else
  h ← access (HandleInfoList !! 0%nat);
  let (Status, Revision) := MemCardInfoOn (Handle h) in
  if negb (is_success Status) then mret (Status, UfsBootlun) else
  if Revision <? EFI_MEM_CARD_INFO_PROTOCOL_REVISION then mret (EFI_NOT_FOUND, UfsBootlun) else
  if IsGet then
    l ← gets log;
    let (Got, Lun) := GetBootLU l in
    mret (Status, if is_success Got then Lun else UfsBootlun)
  else
    _ ← do_event (SetBootLU UfsBootlun);
    mret (Status, UfsBootlun).

(** The UFS LUN table has eight entries: any other index is outside of it. *)
Definition NO_LUN : Z := -1.
Definition GetStorageHandle (Lun : Z) (MaxHandles : nat) : option (EFI_STATUS * list HandleInfo) :=
  if Lun =? NO_LUN then
    Some (GetBlkIOHandles BLK_IO_SEL_SELECT_ROOT_DEVICE_ONLY
            (mk_filter (Some gEfiEmmcUserPartitionGuid) None) MaxHandles)
  else if (0 <=? Lun) && (Lun <? 8) then
    Some (GetBlkIOHandles BLK_IO_SEL_SELECT_ROOT_DEVICE_ONLY
            (mk_filter (Some (gEfiUfsLUGuid (Z.to_nat Lun))) None) MaxHandles)
  else fault.

Definition ErasePartition (BlockIo : option EFI_BLOCK_IO_PROTOCOL) (Handle_ : Z) : B EFI_STATUS :=
  let PartitionSize := GetPartitionSize BlockIo in
  if PartitionSize =? 0 then mret EFI_BAD_BUFFER_SIZE else
  let (Status, _) := EraseBlockProtocol Handle_ in
  if negb (is_success Status) then mret Status else
  blk ← access BlockIo;
  Status ← do_event (EraseBlocks (This blk) 0 PartitionSize);
  if negb (is_success Status) then mret Status else mret EFI_SUCCESS.

(** ** WriteBlockToPartition *)

(** The loop over the part that fills whole blocks: [while (LeftSize > 0)]. *)
Fixpoint write_units (fuel : nat) (blk : EFI_BLOCK_IO_PROTOCOL) (Image : list Z)
    (DivMsgBufSize WriteUnitSize Offset LeftSize : Z) : B (EFI_STATUS * Z) :=
  match fuel with
  | O => crash
  | S fuel' =>
    if LeftSize <=? 0 then mret (EFI_SUCCESS, Offset) else
    let WriteSize := u32 (if WriteUnitSize <? LeftSize then WriteUnitSize else LeftSize) in
    data ← access (load Image (Z.to_nat (DivMsgBufSize - LeftSize)) (Z.to_nat WriteSize));
    Status ← do_event (WriteBlocks (This blk) Offset data);
    if negb (is_success Status) then mret (Status, Offset) else
    write_units fuel' blk Image DivMsgBufSize WriteUnitSize
      (u64 (Offset + WriteSize / BlockSize blk)) (LeftSize - WriteSize)
  end.

(** The rest: read a block, replace its first bytes, write it back.  The copy
    stays inside the block buffer. *)
Definition write_rest (blk : EFI_BLOCK_IO_PROTOCOL) (Image : list Z)
    (WriteBlockSize DivMsgBufSize Offset Size : Z) : B EFI_STATUS :=
  if negb (PoolAvailable 0 WriteBlockSize) then mret EFI_OUT_OF_RESOURCES else
  l ← gets log;
  let (Status, ImageBuffer) := ReadBlocks l (This blk) Offset WriteBlockSize in
  if negb (is_success Status) then mret Status else
  let n := Z.to_nat (Size - DivMsgBufSize) in
  rest ← access (load Image (Z.to_nat DivMsgBufSize) n);
  if (length ImageBuffer <? n)%nat then crash else
  do_event (WriteBlocks (This blk) Offset (rest ++ drop n ImageBuffer)).

(** [IsFlashSplitNeeded]: the flag of the fastboot thread. *)
Definition WriteBlockToPartition (IsFlashSplitNeeded : bool)
    (BlockIo : option EFI_BLOCK_IO_PROTOCOL) (Handle_ : option Z) (Offset Size : Z)
    (Image : option (list Z)) : B EFI_STATUS :=
  match BlockIo, Image with
  | Some blk, Some Image =>
    Type_ ← CheckRootDeviceType;
    let granularity : EFI_STATUS * Z :=
      if bool_decide (Type_ = NAND) then
        match Handle_ with
        | None => (EFI_INVALID_PARAMETER, 0)
        | Some h => EraseBlockProtocol h
        end
      else (EFI_SUCCESS, BlockSize blk) in
    if negb (is_success (fst granularity)) then mret (fst granularity) else
    let WriteBlockSize := snd granularity in
    if WriteBlockSize =? 0 then crash else
    let DivMsgBufSize := u32 (Size / WriteBlockSize * WriteBlockSize) in
    let WriteUnitSize := ROUND_TO_PAGE MAX_WRITE_SIZE (WriteBlockSize - 1) in
    written ←
      (if DivMsgBufSize =? 0 then mret (EFI_SUCCESS, Offset) else
       let WriteUnitSize := if negb IsFlashSplitNeeded then DivMsgBufSize else WriteUnitSize in
       write_units (S (Z.to_nat DivMsgBufSize)) blk Image DivMsgBufSize WriteUnitSize
         Offset DivMsgBufSize);
    let '(Status, Offset) := written in
    if negb (is_success Status) then mret Status else
    if 0 <? Size - DivMsgBufSize then
      write_rest blk Image WriteBlockSize DivMsgBufSize Offset Size
    else mret Status
  | _, _ => mret EFI_INVALID_PARAMETER
  end.
End storage.
