(* ===== verification/Bytes.v ===== *)
(** * Bytes in memory: loads, stores and the little-endian macros.

    [rd] and [wr] access a buffer at an offset and fault outside of it; the
    [GET_]/[PUT_] macros of PartitionTableUpdate.h are written on top of them.
    [slice], [upd] and [le] are what they do inside the buffer, as total
    functions with an algebra of their own. *)
From stdpp Require Import base numbers list option.
From Stdlib Require Import ZArith Lia.
From S2P Require Import Prelude BaseLib Unicode Storage.
Local Open Scope Z_scope.

(** ** Accesses *)
Definition rd (buf : list Z) (off : Z) (n : nat) : option (list Z) :=
  if off <? 0 then fault else load buf (Z.to_nat off) n.

Definition wr (buf : list Z) (off : Z) (bs : list Z) : option (list Z) :=
  if (off <? 0) || (Z.of_nat (length buf) <? off + Z.of_nat (length bs)) then fault
  else Some (take (Z.to_nat off) buf ++ bs ++ drop (Z.to_nat off + length bs) buf).

Definition GET_LWORD_FROM_BYTE (buf : list Z) (off : Z) : option Z :=
  match rd buf off 4 with
  | Some [b0; b1; b2; b3] =>
      Some (Z.lor (Z.lor (Z.lor b0 (Z.shiftl b1 8)) (Z.shiftl b2 16)) (Z.shiftl b3 24))
  | _ => fault
  end.

Definition GET_LLWORD_FROM_BYTE (buf : list Z) (off : Z) : option Z :=
  match rd buf off 8 with
  | Some [b0; b1; b2; b3; b4; b5; b6; b7] =>
      Some (Z.lor (Z.lor (Z.lor (Z.lor (Z.lor (Z.lor (Z.lor
        b0 (Z.shiftl b1 8)) (Z.shiftl b2 16)) (Z.shiftl b3 24)) (Z.shiftl b4 32))
        (Z.shiftl b5 40)) (Z.shiftl b6 48)) (Z.shiftl b7 56))
  | _ => fault
  end.

Definition byte_of (y k : Z) : Z := Z.land (Z.shiftr y k) 0xff.

Definition PUT_LONG (buf : list Z) (off y : Z) : option (list Z) :=
  wr buf off [byte_of y 0; byte_of y 8; byte_of y 16; byte_of y 24].
Definition PUT_LONG_LONG (buf : list Z) (off y : Z) : option (list Z) :=
  wr buf off [byte_of y 0; byte_of y 8; byte_of y 16; byte_of y 24;
              byte_of y 32; byte_of y 40; byte_of y 48; byte_of y 56].

(** ** Loading from memory *)
Lemma load_Some buf off n :
  (off + n <= length buf)%nat -> load buf off n = Some (take n (drop off buf)).
Proof. intros H. unfold load. by apply Nat.leb_le in H as ->. Qed.

Lemma load_length buf off n l : load buf off n = Some l -> length l = n.
Proof.
  unfold load. destruct (Nat.leb_spec (off + n) (length buf)); [|done].
  intros [= <-]. rewrite length_take, length_drop. lia.
Qed.

(** ** Little-endian numbers *)
Fixpoint le_value (bs : list Z) : Z :=
  match bs with [] => 0 | b :: bs' => b + 2 ^ 8 * le_value bs' end.
Fixpoint le_bytes (n : nat) (y : Z) : list Z :=
  match n with O => [] | S n' => y mod 2 ^ 8 :: le_bytes n' (y / 2 ^ 8) end.

Definition slice (n : nat) (buf : list Z) (off : Z) : list Z := take n (drop (Z.to_nat off) buf).
Definition upd (buf : list Z) (off : Z) (bs : list Z) : list Z :=
  take (Z.to_nat off) buf ++ bs ++ drop (Z.to_nat off + length bs) buf.
Definition le (n : nat) (buf : list Z) (off : Z) : Z := le_value (slice n buf off).

(** A little-endian field of a structure in memory. *)
Definition field (n : nat) (buf : list Z) (off : Z) : option Z := le_value <$> rd buf off n.

Lemma le_bytes_length n y : length (le_bytes n y) = n.
Proof. revert y. induction n as [|n IH]; intros y; simpl; [done|]. by rewrite IH. Qed.

Lemma le_bytes_u8 n y : Forall in_u8 (le_bytes n y).
Proof.
  revert y. induction n as [|n IH]; intros y; simpl; constructor; [|done].
  apply Z.mod_pos_bound. lia.
Qed.

Lemma le_value_le_bytes n y : le_value (le_bytes n y) = y mod 2 ^ (8 * Z.of_nat n).
Proof.
  revert y. induction n as [|n IH]; intros y; cbn [le_bytes le_value].
  - by rewrite Z.mod_1_r.
  - rewrite IH. replace (8 * Z.of_nat (S n)) with (8 + 8 * Z.of_nat n) by lia.
    rewrite Z.pow_add_r by lia. rewrite Z.rem_mul_r by lia. done.
Qed.

Lemma le_value_range bs :
  Forall in_u8 bs -> 0 <= le_value bs < 2 ^ (8 * Z.of_nat (length bs)).
Proof.
  induction 1 as [|b bs Hb _ IH]; cbn [le_value length].
  - change (2 ^ (8 * Z.of_nat 0)) with 1. lia.
  - replace (8 * Z.of_nat (S (length bs))) with (8 + 8 * Z.of_nat (length bs)) by lia.
    rewrite Z.pow_add_r by lia. unfold in_u8 in Hb. lia.
Qed.

Lemma le_bytes_le_value bs : Forall in_u8 bs -> le_bytes (length bs) (le_value bs) = bs.
Proof.
  induction 1 as [|b bs Hb _ IH]; cbn [le_value length le_bytes]; [done|].
  unfold in_u8 in Hb. rewrite (Z.mul_comm (2 ^ 8)), Z.mod_add, Z.div_add by lia.
  rewrite Z.mod_small, Z.div_small by lia. by rewrite Z.add_0_l, IH.
Qed.

Lemma lor_shiftl a b k :
  0 <= k -> 0 <= a < 2 ^ k -> 0 <= b -> Z.lor a (Z.shiftl b k) = a + 2 ^ k * b.
Proof.
  intros Hk Ha Hb. rewrite Z.shiftl_mul_pow2, (Z.mul_comm b) by done.
  rewrite <- (Z.add_lor_land a (2 ^ k * b)).
  assert (Z.land a (2 ^ k * b) = 0) as ->; [|lia].
  apply Z.bits_inj'. intros n Hn. rewrite Z.land_spec, Z.bits_0, (Z.mul_comm (2 ^ k)).
  destruct (Z.ltb_spec n k).
  - rewrite Z.mul_pow2_bits_low by lia. apply andb_false_r.
  - replace a with (a mod 2 ^ k) by (apply Z.mod_small; lia).
    by rewrite Z.mod_pow2_bits_high by lia.
Qed.

(** Little-endian words are put together from the low byte up. *)
Lemma le_value_snoc bs b k :
  k = 8 * Z.of_nat (length bs) -> Forall in_u8 bs -> in_u8 b ->
  Z.lor (le_value bs) (Z.shiftl b k) = le_value (bs ++ [b]).
Proof.
  intros -> Hbs Hb. rewrite lor_shiftl; [|lia|by apply le_value_range|apply Hb].
  clear Hb. induction bs as [|x bs IH]; cbn [le_value length app].
  - change (2 ^ (8 * Z.of_nat 0)) with 1. lia.
  - rewrite <- IH by (by inversion Hbs).
    replace (8 * Z.of_nat (S (length bs))) with (8 + 8 * Z.of_nat (length bs)) by lia.
    rewrite Z.pow_add_r by lia. lia.
Qed.

Lemma byte_of_le_bytes n y :
  (fun i : nat => byte_of y (8 * Z.of_nat i)) <$> seq 0 n = le_bytes n y.
Proof.
  assert (forall k, (fun i : nat => byte_of y (8 * Z.of_nat i)) <$> seq k n =
                    le_bytes n (y / 2 ^ (8 * Z.of_nat k))) as H; [|by rewrite H, Z.div_1_r].
  induction n as [|n IH]; intros k; cbn [seq fmap list_fmap le_bytes]; [done|]. f_equal.
  - unfold byte_of. rewrite Z.shiftr_div_pow2 by lia.
    change 0xff with (Z.ones 8). by rewrite Z.land_ones by lia.
  - rewrite IH, Z.div_div by lia. rewrite <- Z.pow_add_r by lia.
    by replace (8 * Z.of_nat (S k)) with (8 * Z.of_nat k + 8) by lia.
Qed.

(** ** Slices and updates *)
Lemma rd_slice buf off n :
  0 <= off -> off + Z.of_nat n <= Z.of_nat (length buf) -> rd buf off n = Some (slice n buf off).
Proof.
  intros. unfold rd, slice. destruct (Z.ltb_spec off 0); [lia|]. apply load_Some. lia.
Qed.

Lemma field_le n buf off :
  0 <= off -> off + Z.of_nat n <= Z.of_nat (length buf) -> field n buf off = Some (le n buf off).
Proof. intros. unfold field, le. by rewrite rd_slice. Qed.

Lemma wr_upd buf off bs :
  0 <= off -> off + Z.of_nat (length bs) <= Z.of_nat (length buf) ->
  wr buf off bs = Some (upd buf off bs).
Proof.
  intros. unfold wr.
  destruct (Z.ltb_spec off 0), (Z.ltb_spec (Z.of_nat (length buf)) (off + Z.of_nat (length bs)));
    (lia || done).
Qed.

Lemma rd_None buf off n : Z.of_nat (length buf) < off + Z.of_nat n -> rd buf off n = fault.
Proof.
  intros. unfold rd, load. destruct (Z.ltb_spec off 0); [done|].
  by destruct (Nat.leb_spec (Z.to_nat off + n) (length buf)); [lia|].
Qed.

Lemma wr_None buf off bs :
  Z.of_nat (length buf) < off + Z.of_nat (length bs) -> wr buf off bs = fault.
Proof. intros H. unfold wr. apply Z.ltb_lt in H as ->. by rewrite orb_true_r. Qed.

Lemma slice_length n buf off :
  0 <= off -> off + Z.of_nat n <= Z.of_nat (length buf) -> length (slice n buf off) = n.
Proof. intros. unfold slice. rewrite length_take, length_drop. lia. Qed.

Lemma slice_u8 n buf off : Forall in_u8 buf -> Forall in_u8 (slice n buf off).
Proof. intros. by apply Forall_take, Forall_drop. Qed.

Lemma slice_slice n buf off m off' :
  0 <= off -> 0 <= off' -> off' + Z.of_nat m <= Z.of_nat n ->
  slice m (slice n buf off) off' = slice m buf (off + off').
Proof.
  intros. unfold slice. rewrite skipn_firstn_comm, take_take, drop_drop. f_equal; [lia|].
  f_equal. lia.
Qed.

Lemma upd_length buf off bs :
  0 <= off -> off + Z.of_nat (length bs) <= Z.of_nat (length buf) ->
  length (upd buf off bs) = length buf.
Proof. intros. unfold upd. rewrite !length_app, length_take, length_drop. lia. Qed.

Lemma upd_u8 buf off bs : Forall in_u8 buf -> Forall in_u8 bs -> Forall in_u8 (upd buf off bs).
Proof.
  intros. unfold upd. rewrite !Forall_app. split; [by apply Forall_take|].
  split; [done|by apply Forall_drop].
Qed.

(** A byte of an updated buffer. *)
Lemma upd_lookup buf off bs i :
  0 <= off -> off + Z.of_nat (length bs) <= Z.of_nat (length buf) ->
  upd buf off bs !! i =
    if decide (Z.to_nat off <= i < Z.to_nat off + length bs)%nat
    then bs !! (i - Z.to_nat off)%nat else buf !! i.
Proof.
  intros. unfold upd. case_decide as Hi.
  - rewrite lookup_app_r by (rewrite length_take; lia).
    rewrite lookup_app_l by (rewrite length_take; lia). f_equal. rewrite length_take. lia.
  - destruct (decide (i < Z.to_nat off)%nat).
    + rewrite lookup_app_l by (rewrite length_take; lia). by rewrite lookup_take_lt by lia.
    + rewrite !lookup_app_r by (rewrite ?length_take; lia).
      rewrite lookup_drop. f_equal. rewrite length_take. lia.
Qed.

Lemma slice_lookup n buf off i :
  slice n buf off !! i = if decide (i < n)%nat then buf !! (Z.to_nat off + i)%nat else None.
Proof.
  unfold slice. case_decide.
  - by rewrite lookup_take_lt, lookup_drop by lia.
  - rewrite lookup_take_ge by lia. done.
Qed.

Lemma slice_upd_other n buf off bs off' :
  0 <= off -> off + Z.of_nat (length bs) <= Z.of_nat (length buf) -> 0 <= off' ->
  off' + Z.of_nat n <= off \/ off + Z.of_nat (length bs) <= off' ->
  slice n (upd buf off bs) off' = slice n buf off'.
Proof.
  intros. apply list_eq. intros i. rewrite !slice_lookup. case_decide; [|done].
  rewrite upd_lookup by done. case_decide; [lia|done].
Qed.

Lemma slice_upd_same buf off bs :
  0 <= off -> off + Z.of_nat (length bs) <= Z.of_nat (length buf) ->
  slice (length bs) (upd buf off bs) off = bs.
Proof.
  intros. apply list_eq. intros i. rewrite slice_lookup. case_decide.
  - rewrite upd_lookup by done. case_decide; [|lia]. f_equal. lia.
  - symmetry. apply lookup_ge_None_2. lia.
Qed.

Lemma upd_slice n buf off :
  0 <= off -> off + Z.of_nat n <= Z.of_nat (length buf) -> upd buf off (slice n buf off) = buf.
Proof.
  intros. apply list_eq. intros i. rewrite upd_lookup by (rewrite ?slice_length; lia).
  rewrite slice_length by lia. case_decide; [|done].
  rewrite slice_lookup. case_decide; [|lia]. f_equal. lia.
Qed.

Lemma upd_upd buf off bs bs' :
  length bs = length bs' -> 0 <= off -> off + Z.of_nat (length bs) <= Z.of_nat (length buf) ->
  upd (upd buf off bs) off bs' = upd buf off bs'.
Proof.
  intros Hl H H'. apply list_eq. intros i.
  rewrite !upd_lookup by (rewrite ?upd_length; lia). rewrite <- Hl. by case_decide.
Qed.

(** A slice around an update, and two updates apart from each other. *)
Lemma slice_upd_inside n buf off bs off' :
  0 <= off' -> off' <= off -> off + Z.of_nat (length bs) <= off' + Z.of_nat n ->
  off' + Z.of_nat n <= Z.of_nat (length buf) ->
  slice n (upd buf off bs) off' = upd (slice n buf off') (off - off') bs.
Proof.
  intros. apply list_eq. intros i.
  rewrite upd_lookup, !slice_lookup by (rewrite ?slice_length; lia).
  case_decide; repeat case_decide; try lia; rewrite ?upd_lookup by lia;
    repeat case_decide; try lia; try done; f_equal; lia.
Qed.

(** ** The macros *)
Lemma GET_LWORD_le buf off :
  Forall in_u8 buf -> 0 <= off -> off + 4 <= Z.of_nat (length buf) ->
  GET_LWORD_FROM_BYTE buf off = Some (le 4 buf off).
Proof.
  intros Hu H H'. unfold GET_LWORD_FROM_BYTE, le. rewrite rd_slice by lia.
  pose proof (slice_length 4 buf off H H') as Hl. pose proof (slice_u8 4 buf off Hu) as Hs.
  destruct (slice 4 buf off) as [|b0 [|b1 [|b2 [|b3 [|]]]]]; try done.
  rewrite !Forall_cons_iff in Hs. destruct Hs as (H0 & H1 & H2 & H3 & _). f_equal.
  replace b0 with (le_value [b0]) at 1 by (simpl; lia).
  by repeat (rewrite le_value_snoc by repeat (done || constructor); cbn [app]).
Qed.

Lemma GET_LLWORD_le buf off :
  Forall in_u8 buf -> 0 <= off -> off + 8 <= Z.of_nat (length buf) ->
  GET_LLWORD_FROM_BYTE buf off = Some (le 8 buf off).
Proof.
  intros Hu H H'. unfold GET_LLWORD_FROM_BYTE, le. rewrite rd_slice by lia.
  pose proof (slice_length 8 buf off H H') as Hl. pose proof (slice_u8 8 buf off Hu) as Hs.
  destruct (slice 8 buf off) as [|b0 [|b1 [|b2 [|b3 [|b4 [|b5 [|b6 [|b7 [|]]]]]]]]]; try done.
  rewrite !Forall_cons_iff in Hs. destruct Hs as (H0 & H1 & H2 & H3 & H4 & H5 & H6 & H7 & _). f_equal.
  replace b0 with (le_value [b0]) at 1 by (simpl; lia).
  by repeat (rewrite le_value_snoc by repeat (done || constructor); cbn [app]).
Qed.

Lemma PUT_LONG_upd buf off y :
  0 <= off -> off + 4 <= Z.of_nat (length buf) -> PUT_LONG buf off y = Some (upd buf off (le_bytes 4 y)).
Proof. intros. unfold PUT_LONG. rewrite <- byte_of_le_bytes. apply wr_upd; cbn; lia. Qed.

Lemma PUT_LONG_LONG_upd buf off y :
  0 <= off -> off + 8 <= Z.of_nat (length buf) ->
  PUT_LONG_LONG buf off y = Some (upd buf off (le_bytes 8 y)).
Proof. intros. unfold PUT_LONG_LONG. rewrite <- byte_of_le_bytes. apply wr_upd; cbn; lia. Qed.

Lemma le_upd_same n buf off y :
  0 <= off -> off + Z.of_nat n <= Z.of_nat (length buf) ->
  le n (upd buf off (le_bytes n y)) off = y mod 2 ^ (8 * Z.of_nat n).
Proof.
  intros. unfold le. pose proof (slice_upd_same buf off (le_bytes n y)) as E.
  rewrite le_bytes_length in E. rewrite E by lia. apply le_value_le_bytes.
Qed.

Lemma le_upd_other n buf off bs off' :
  0 <= off -> off + Z.of_nat (length bs) <= Z.of_nat (length buf) -> 0 <= off' ->
  off' + Z.of_nat n <= off \/ off + Z.of_nat (length bs) <= off' ->
  le n (upd buf off bs) off' = le n buf off'.
Proof. intros. unfold le. by rewrite slice_upd_other. Qed.

(** Writing a field back changes nothing. *)
Lemma upd_le n buf off :
  Forall in_u8 buf -> 0 <= off -> off + Z.of_nat n <= Z.of_nat (length buf) ->
  upd buf off (le_bytes n (le n buf off)) = buf.
Proof.
  intros Hu H H'. unfold le. pose proof (le_bytes_le_value (slice n buf off) (slice_u8 n buf off Hu)) as E.
  rewrite slice_length in E by lia. rewrite E. by apply upd_slice.
Qed.

Lemma le_range n buf off :
  Forall in_u8 buf -> 0 <= off -> off + Z.of_nat n <= Z.of_nat (length buf) ->
  0 <= le n buf off < 2 ^ (8 * Z.of_nat n).
Proof.
  intros Hu H H'. unfold le. pose proof (le_value_range (slice n buf off) (slice_u8 n buf off Hu)) as E.
  by rewrite slice_length in E by lia.
Qed.

(** ** Frames: a buffer that differs from another in some ranges only *)
Definition apart (off n : Z) (r : Z * Z) : Prop := off + n <= fst r \/ fst r + snd r <= off.

Definition same_outside (rs : list (Z * Z)) (a b : list Z) : Prop :=
  length b = length a /\
  forall i, Forall (apart (Z.of_nat i) 1) rs -> b !! i = a !! i.

Lemma same_outside_refl rs a : same_outside rs a a.
Proof. done. Qed.

Lemma same_outside_trans rs1 rs2 a b c :
  same_outside rs1 a b -> same_outside rs2 b c -> same_outside (rs1 ++ rs2) a c.
Proof.
  intros [Hl H] [Hl' H']. split; [congruence|]. intros i Hi.
  apply Forall_app in Hi as [H1 H2]. rewrite H' by done. by apply H.
Qed.

Lemma same_outside_upd buf off bs n :
  0 <= off -> off + Z.of_nat (length bs) <= Z.of_nat (length buf) -> n = Z.of_nat (length bs) ->
  same_outside [(off, n)] buf (upd buf off bs).
Proof.
  intros H H' ->. split; [by apply upd_length|]. intros i Hi.
  rewrite upd_lookup by done. inversion Hi as [|? ? Ha _]. unfold apart in Ha. cbn in Ha.
  case_decide; [lia|done].
Qed.

Lemma slice_same_outside rs a b n off :
  same_outside rs a b -> 0 <= off -> Forall (apart off (Z.of_nat n)) rs ->
  slice n b off = slice n a off.
Proof.
  intros [_ H] Ho Hr. apply list_eq. intros i. rewrite !slice_lookup. case_decide; [|done].
  apply H. revert Hr. apply Forall_impl. unfold apart. intros []. cbn. lia.
Qed.

Lemma le_same_outside rs a b n off :
  same_outside rs a b -> 0 <= off -> Forall (apart off (Z.of_nat n)) rs ->
  le n b off = le n a off.
Proof. intros. unfold le. by erewrite slice_same_outside. Qed.

(** A buffer of bytes of a known length. *)
Definition mem_ok (len : nat) (buf : list Z) : Prop := Forall in_u8 buf /\ length buf = len.

Lemma PUT_LONG_spec len buf off y :
  mem_ok len buf -> 0 <= off -> off + 4 <= Z.of_nat len ->
  exists buf', PUT_LONG buf off y = Some buf' /\ mem_ok len buf' /\
    same_outside [(off, 4)] buf buf' /\ le 4 buf' off = u32 y.
Proof.
  intros [Hu Hl] H H'. subst len. eexists. split; [by apply PUT_LONG_upd|].
  split; [split; [apply upd_u8; [done|apply le_bytes_u8]|by apply upd_length]|].
  split; [by apply same_outside_upd|]. by apply le_upd_same.
Qed.

Lemma PUT_LONG_LONG_spec len buf off y :
  mem_ok len buf -> 0 <= off -> off + 8 <= Z.of_nat len ->
  exists buf', PUT_LONG_LONG buf off y = Some buf' /\ mem_ok len buf' /\
    same_outside [(off, 8)] buf buf' /\ le 8 buf' off = u64 y.
Proof.
  intros [Hu Hl] H H'. subst len. eexists. split; [by apply PUT_LONG_LONG_upd|].
  split; [split; [apply upd_u8; [done|apply le_bytes_u8]|by apply upd_length]|].
  split; [by apply same_outside_upd|]. by apply le_upd_same.
Qed.

Lemma GET_LWORD_spec len buf off :
  mem_ok len buf -> 0 <= off -> off + 4 <= Z.of_nat len ->
  GET_LWORD_FROM_BYTE buf off = Some (le 4 buf off).
Proof. intros [? <-] ? ?. by apply GET_LWORD_le. Qed.
Lemma GET_LLWORD_spec len buf off :
  mem_ok len buf -> 0 <= off -> off + 8 <= Z.of_nat len ->
  GET_LLWORD_FROM_BYTE buf off = Some (le 8 buf off).
Proof. intros [? <-] ? ?. by apply GET_LLWORD_le. Qed.
Lemma rd_spec len buf off n :
  mem_ok len buf -> 0 <= off -> off + Z.of_nat n <= Z.of_nat len ->
  rd buf off n = Some (slice n buf off).
Proof. intros [? <-] ? ?. by apply rd_slice. Qed.

(** Two fields that lie in the ranges of a frame, next to a read. *)
Ltac solve_apart :=
  repeat match goal with |- Forall _ (_ ++ _) => apply Forall_app; split end;
  repeat (apply Forall_cons; [unfold apart; cbn [fst snd]; lia|]); try apply Forall_nil.
