(* ===== verification/StorageSpec.v ===== *)
(** * Writing to a partition: what ends up on the device.

    A block device is described by the content of its bytes after each log
    ([BlockDevice]); [WriteBlockToPartition] is shown to put exactly the image
    there and to leave every other byte alone. *)
From stdpp Require Import base numbers list option strings.
From Stdlib Require Import ZArith Lia Ascii.
From S2P Require Import Prelude BaseLib Unicode Storage Bytes.
Local Open Scope Z_scope.

(** [f] with [data] written from the byte [a0] on. *)
Definition overlay (a0 : Z) (data : list Z) (f : Z -> Z) (a : Z) : Z :=
  if a0 <=? a then default (f a) (data !! Z.to_nat (a - a0)) else f a.

(** What Block I/O promises of the device [dev] with blocks of [bs] bytes: a
    successful write replaces the bytes it covers, a successful read returns the
    bytes that are there. *)
Class BlockDevice {FW : Firmware} (dev bs : Z) (content : list device_event -> Z -> Z) := {
  content_write l lba data a :
    EventStatus l (WriteBlocks dev lba data) = EFI_SUCCESS ->
    content (l ++ [WriteBlocks dev lba data]) a = overlay (lba * bs) data (content l) a;
  content_read l lba n :
    fst (ReadBlocks l dev lba n) = EFI_SUCCESS -> 0 <= n ->
    snd (ReadBlocks l dev lba n) =
      (fun i => content l (lba * bs + Z.of_nat i)) <$> seq 0 (Z.to_nat n)
}.

(** ** A firmware that keeps the promises: devices in RAM, all zero at first. *)
Definition ram_content (dev bs : Z) (l : list device_event) : Z -> Z :=
  fold_left (fun f e =>
    match e with
    | WriteBlocks d lba data => if d =? dev then overlay (lba * bs) data f else f
    | _ => f
    end) l (fun _ => 0).

Definition ram_boot_lun (l : list device_event) : Z :=
  fold_left (fun lun e => match e with SetBootLU n => n | _ => lun end) l 1.

(** A toy checksum: the laws ask for a 32-bit number only. *)
Definition ram_checksum (data : list Z) : Z :=
  fold_left (fun c b => u32 (c * 31 + b + 1)) data 0.

Definition zero_guid : EFI_GUID := repeat 0 16.
Definition no_partition : EFI_PARTITION_ENTRY :=
  mk_part zero_guid zero_guid 0 0 0 (repeat 0 36).

Definition ram_Firmware (bs : Z) (card : list Z) (handles : PartiSelectFilter -> list HandleInfo)
    (records : Z -> option EFI_PARTITION_ENTRY) : Firmware := {|
  GetBlkIOHandles _ f n :=
    (match handles f with [] => EFI_NOT_FOUND | _ => EFI_SUCCESS end, take n (handles f));
  LocateMemCardInfo := EFI_SUCCESS;
  GetCardInfo := (EFI_SUCCESS, card);
  MemCardInfoOn _ := (EFI_SUCCESS, EFI_MEM_CARD_INFO_PROTOCOL_REVISION);
  GetBootLU l := (EFI_SUCCESS, ram_boot_lun l);
  EraseBlockProtocol _ := (EFI_SUCCESS, bs);
  PartitionRecord h :=
    match records h with Some p => (EFI_SUCCESS, p) | None => (EFI_NOT_FOUND, no_partition) end;
  EventStatus _ _ := EFI_SUCCESS;
  ReadBlocks l d lba n :=
    (EFI_SUCCESS, (fun i => ram_content d bs l (lba * bs + Z.of_nat i)) <$> seq 0 (Z.to_nat n));
  CalculateCrc32 data :=
    (match data with [] => EFI_INVALID_PARAMETER | _ => EFI_SUCCESS end, ram_checksum data);
  PoolAvailable _ _ := true;
  gEfiMiscPartitionGuid := zero_guid;
  LocateNandPartiGuid := EFI_SUCCESS;
  GenMiscGuid := (EFI_SUCCESS, zero_guid)
|}.

Lemma ram_checksum_range data : in_u32 (ram_checksum data).
Proof.
  unfold ram_checksum. rewrite <- fold_left_rev_right.
  destruct (rev data); cbn [fold_right]; [unfold in_u32; lia|apply u32_range].
Qed.

Lemma ram_Firmware_laws bs card handles records :
  FirmwareLaws (ram_Firmware bs card handles records).
Proof.
  split; cbn [GetBlkIOHandles ReadBlocks CalculateCrc32 ram_Firmware fst snd].
  - intros _ f n _. rewrite length_take. lia.
  - intros l d b n _ Hn. rewrite length_fmap, length_seq. lia.
  - intros [|x data]; [done|]. split; [done|]. apply ram_checksum_range.
Qed.

#[export] Instance ram_BlockDevice dev bs card handles records :
  @BlockDevice (ram_Firmware bs card handles records) dev bs (ram_content dev bs).
Proof.
  split; cbn [EventStatus ReadBlocks ram_Firmware fst snd].
  - intros l lba data a _. unfold ram_content. rewrite fold_left_app. cbn [fold_left].
    by rewrite Z.eqb_refl.
  - done.
Qed.

(** ** The size of a partition *)
Lemma GetPartitionSize_spec b :
  in_u64 (LastBlock b) -> in_u32 (BlockSize b) ->
  GetPartitionSize (Some b) =
    if (LastBlock b + 1) * BlockSize b <? 2 ^ 64 then (LastBlock b + 1) * BlockSize b
    else 0.
Proof.
  unfold in_u64, in_u32, GetPartitionSize. intros Hl Hb.
  rewrite CHECK_ADD64_spec by (unfold in_u64; lia).
  destruct (Z.leb_spec (2 ^ 64) (LastBlock b + 1)) as [Ho|Ho].
  - destruct (Z.ltb_spec ((LastBlock b + 1) * BlockSize b) (2 ^ 64)); [|done].
    assert (BlockSize b = 0) as -> by nia. lia.
  - rewrite u64_small by (unfold in_u64; lia). unfold MAX_UINT64.
    destruct (Z.ltb_spec ((2 ^ 64 - 1) / (LastBlock b + 1)) (BlockSize b)) as [Hd|Hd].
    + destruct (Z.ltb_spec ((LastBlock b + 1) * BlockSize b) (2 ^ 64)) as [Hm|]; [|done].
      exfalso. apply (Z.lt_irrefl (BlockSize b)). eapply Z.le_lt_trans; [|exact Hd].
      apply Z.div_le_lower_bound; lia.
    + assert ((LastBlock b + 1) * BlockSize b < 2 ^ 64).
      { pose proof (Z.mul_div_le (2 ^ 64 - 1) (LastBlock b + 1)). nia. }
      destruct (Z.ltb_spec ((LastBlock b + 1) * BlockSize b) (2 ^ 64)); [|lia].
      apply u64_small. unfold in_u64. lia.
Qed.

(** ** Overlays *)
Lemma overlay_nil a0 f a : overlay a0 [] f a = f a.
Proof. unfold overlay. by destruct (a0 <=? a). Qed.

Lemma overlay_ext a0 data f g :
  (forall a, f a = g a) -> forall a, overlay a0 data f a = overlay a0 data g a.
Proof. intros H a. unfold overlay. by rewrite !H. Qed.

Lemma overlay_app a0 d1 d2 f a :
  overlay (a0 + Z.of_nat (length d1)) d2 (overlay a0 d1 f) a = overlay a0 (d1 ++ d2) f a.
Proof.
  unfold overlay.
  destruct (Z.leb_spec (a0 + Z.of_nat (length d1)) a), (Z.leb_spec a0 a); try lia; try done.
  - rewrite (lookup_app_r d1) by lia.
    replace (Z.to_nat (a - a0) - length d1)%nat
      with (Z.to_nat (a - (a0 + Z.of_nat (length d1)))) by lia.
    by rewrite (lookup_ge_None_2 d1) by lia.
  - by rewrite (lookup_app_l d1) by lia.
Qed.

(** A write that repeats what is there after its first [n] bytes is a write of
    these bytes. *)
Lemma overlay_read_back a0 d (n : nat) f a :
  (length d <= n)%nat ->
  overlay a0 (d ++ drop (length d) ((fun i => f (a0 + Z.of_nat i)) <$> seq 0 n)) f a =
  overlay a0 d f a.
Proof.
  intros Hn. unfold overlay. destruct (Z.leb_spec a0 a); [|done].
  destruct (decide (Z.to_nat (a - a0) < length d)%nat) as [Hlt|Hge].
  - by rewrite lookup_app_l by done.
  - rewrite lookup_app_r by lia. rewrite (lookup_ge_None_2 d) by lia.
    rewrite lookup_drop, list_lookup_fmap.
    replace (length d + (Z.to_nat (a - a0) - length d))%nat with (Z.to_nat (a - a0)) by lia.
    destruct (decide (Z.to_nat (a - a0) < n)%nat) as [Hn'|Hn'].
    + rewrite lookup_seq_lt by done. cbn. f_equal. lia.
    + by rewrite lookup_seq_ge by lia.
Qed.

(** ** Rounding up to a page *)
Lemma ROUND_TO_PAGE_spec x k :
  0 <= k <= 32 -> 0 <= x -> x + 2 ^ k < 2 ^ 32 ->
  ROUND_TO_PAGE x (2 ^ k - 1) = (x + (2 ^ k - 1)) / 2 ^ k * 2 ^ k.
Proof.
  intros Hk Hx Hs. unfold ROUND_TO_PAGE, MAX_UINT32.
  assert (Hp : 0 < 2 ^ k) by (apply Z.pow_pos_nonneg; lia).
  destruct (Z.ltb_spec x (2 ^ 32 - 1 - (2 ^ k - 1))); [|lia].
  rewrite u64_small by (unfold in_u64; lia). set (y := x + (2 ^ k - 1)).
  unfold u32. rewrite <- Z.land_ones by lia.
  rewrite (Z.land_comm (Z.lnot _)), Z.land_assoc, Z.land_ones by lia.
  rewrite (Z.mod_small y) by (unfold y; lia).
  replace (2 ^ k - 1) with (Z.ones k) by (rewrite Z.ones_equiv; lia).
  change (Z.land y (Z.lnot (Z.ones k))) with (Z.ldiff y (Z.ones k)) || rewrite <- Z.ldiff_land.
  rewrite Z.ldiff_ones_r, Z.shiftl_mul_pow2, Z.shiftr_div_pow2 by lia. done.
Qed.

(** ** The loop over whole blocks *)
Section write.
Context {FW : Firmware} {dev bs : Z} {content : list device_event -> Z -> Z}.
Context {BD : BlockDevice dev bs content}.

(** [s'] differs from [s] by its log only. *)
Definition only_log (s s' : boot_state) : Prop := s' = set_log (log s') s.

Lemma only_log_refl s : only_log s s.
Proof. by destruct s. Qed.
Lemma only_log_event s e s' : only_log (set_log (log s ++ [e]) s) s' -> only_log s s'.
Proof. unfold only_log. intros ->. by destruct s. Qed.

Lemma write_units_spec fuel blk Image Div Unit_ Offset Left s :
  This blk = dev -> BlockSize blk = bs -> 0 < bs ->
  0 <= Left <= Div -> Div < 2 ^ 32 -> (Z.to_nat Div <= length Image)%nat ->
  0 < Unit_ -> (bs | Unit_) -> (bs | Left) ->
  0 <= Offset -> Offset * bs + Left < 2 ^ 64 ->
  (Z.to_nat Left < fuel)%nat ->
  exists st off' s',
    write_units fuel blk Image Div Unit_ Offset Left s = Some ((st, off'), s') /\
    only_log s s' /\
    (st = EFI_SUCCESS ->
       off' * bs = Offset * bs + Left /\ 0 <= off' /\
       forall a, content (log s') a =
         overlay (Offset * bs) (seg Image (Z.to_nat (Div - Left)) (Z.to_nat Div))
           (content (log s)) a).
Proof.
  intros Hdev Hbs Hpos. revert Offset Left s.
  induction fuel as [|fuel IH]; intros Offset Left s HL HD HI HU HdU HdL HO HOL Hf; [lia|].
  cbn [write_units]. destruct (Z.leb_spec Left 0) as [Hz|Hz].
  - exists EFI_SUCCESS, Offset, s. split; [done|]. split; [apply only_log_refl|].
    intros _. assert (Left = 0) as -> by lia.
    rewrite Z.sub_0_r, seg_nil. split; [lia|]. split; [done|].
    intros a. by rewrite overlay_nil.
  - set (W := if Unit_ <? Left then Unit_ else Left).
    assert (HW : 0 < W <= Left /\ (bs | W)).
    { unfold W. destruct (Z.ltb_spec Unit_ Left); split; try done; lia. }
    destruct HW as [HW HdW].
    rewrite (u32_small W) by (unfold in_u32; lia).
    rewrite load_Some by lia. run. unfold do_event. run.
    set (data := take _ _). set (e := WriteBlocks _ _ _).
    assert (Hdata : data = seg Image (Z.to_nat (Div - Left)) (Z.to_nat (Div - (Left - W)))).
    { unfold data, seg. f_equal. lia. }
    assert (Hlen : Z.of_nat (length data) = W).
    { rewrite Hdata, seg_length by lia. lia. }
    unfold is_success. case_bool_decide as Est; cbn [negb].
    2: { eexists _, _, _. split; [done|]. split; [|done]. by apply only_log_event with e, only_log_refl. }
    destruct HdW as [q Hq].
    assert (HOq : u64 (Offset + W / BlockSize blk) = Offset + q).
    { rewrite Hbs, Hq, Z.div_mul by lia. apply u64_small. unfold in_u64. nia. }
    rewrite HOq.
    destruct (IH (Offset + q) (Left - W) (set_log (log s ++ [e]) s))
      as (st & off' & s' & Hrun & Hlog & Hsucc); try done; try lia; try nia.
    { apply Z.divide_sub_r; [done|by exists q]. }
    exists st, off', s'. split; [exact Hrun|]. split; [by eapply only_log_event|].
    intros Hst. destruct (Hsucc Hst) as (Ho & Hge & Hc). split; [nia|]. split; [done|].
    intros a. rewrite Hc. cbn [log set_log].
    etransitivity; [apply overlay_ext; intros a'; subst e;
      rewrite Hdev in *; exact (content_write _ _ _ a' Est)|].
    replace ((Offset + q) * bs) with (Offset * bs + Z.of_nat (length data)) by nia.
    rewrite overlay_app. f_equal.
    rewrite Hdata, <- seg_app; [done|lia|lia].
Qed.

(** Every write of the loop lies in the range it is given. *)
Definition write_inside (lo hi : Z) (e : device_event) : Prop :=
  match e with
  | WriteBlocks d lba data =>
      d = dev /\ lo <= lba * bs /\ lba * bs + Z.of_nat (length data) <= hi
  | _ => False
  end.

Lemma write_inside_weaken lo hi lo' hi' e :
  lo' <= lo -> hi <= hi' -> write_inside lo hi e -> write_inside lo' hi' e.
Proof. intros H1 H2. destruct e; cbn; lia. Qed.

Lemma write_units_inside fuel blk Image Div Unit_ Offset Left s r s' :
  This blk = dev -> BlockSize blk = bs -> 0 < bs ->
  0 <= Left <= Div -> Div < 2 ^ 32 -> 0 < Unit_ -> (bs | Unit_) -> (bs | Left) ->
  0 <= Offset -> Offset * bs + Left < 2 ^ 64 ->
  write_units fuel blk Image Div Unit_ Offset Left s = Some (r, s') ->
  exists evs, log s' = log s ++ evs /\
    Forall (write_inside (Offset * bs) (Offset * bs + Left)) evs.
Proof.
  intros Hdev Hbs Hpos. revert Offset Left s.
  induction fuel as [|fuel IH]; intros Offset Left s HL HD HU HdU HdL HO HOL Hr; [done|].
  cbn [write_units] in Hr. destruct (Z.leb_spec Left 0) as [Hz|Hz].
  { injection Hr as _ <-. exists []. by rewrite app_nil_r. }
  set (W := if Unit_ <? Left then Unit_ else Left) in Hr.
  assert (HW : 0 < W <= Left /\ (bs | W)).
  { unfold W. destruct (Z.ltb_spec Unit_ Left); split; try done; lia. }
  destruct HW as [HW HdW]. rewrite (u32_small W) in Hr by (unfold in_u32; lia).
  destruct (load Image _ _) as [data|] eqn:El; [|done]. apply load_length in El.
  unfold do_event in Hr. run_in Hr. set (e := WriteBlocks _ _ _) in Hr.
  assert (He : write_inside (Offset * bs) (Offset * bs + Left) e) by (cbn; lia).
  destruct (negb (is_success _)).
  { injection Hr as _ <-. exists [e]. split; [done|]. by constructor. }
  destruct HdW as [q Hq].
  assert (HOq : u64 (Offset + W / BlockSize blk) = Offset + q).
  { rewrite Hbs, Hq, Z.div_mul by lia. apply u64_small. unfold in_u64. nia. }
  rewrite HOq in Hr. apply IH in Hr as (evs & Hl & Hf); try done; try lia; try nia.
  2: { apply Z.divide_sub_r; [done|by exists q]. }
  exists (e :: evs). split; [rewrite Hl; cbn [log set_log]; by rewrite <- app_assoc|].
  constructor; [done|]. weaken Hf. eapply write_inside_weaken; [| |eassumption]; nia.
Qed.

(** A status that is an error or a success, but no warning. *)
Definition definite (st : EFI_STATUS) : Prop := EFI_ERROR st = negb (is_success st).

Lemma write_units_definite fuel blk Image Div Unit_ Offset Left s r s' :
  (forall l e, definite (EventStatus l e)) ->
  write_units fuel blk Image Div Unit_ Offset Left s = Some (r, s') -> definite (fst r).
Proof.
  intros Hd. revert Offset Left s. induction fuel as [|fuel IH]; intros Offset Left s Hr; [done|].
  cbn [write_units] in Hr. destruct (Left <=? 0); [by injection Hr as <- _|].
  destruct (load Image _ _) as [data|]; [|done]. unfold do_event in Hr. run_in Hr.
  destruct (negb (is_success _)); [injection Hr as <- _; apply Hd|by apply IH in Hr].
Qed.

Lemma write_rest_spec blk Image Div Offset Size s :
  This blk = dev -> 0 < bs -> 0 <= Div <= Size -> Size - Div < bs ->
  (Z.to_nat Size <= length Image)%nat ->
  exists st s',
    write_rest blk Image bs Div Offset Size s = Some (st, s') /\ only_log s s' /\
    (st = EFI_SUCCESS -> forall a, content (log s') a =
       overlay (Offset * bs) (seg Image (Z.to_nat Div) (Z.to_nat Size)) (content (log s)) a).
Proof.
  intros Hdev Hpos HD HS HI. unfold write_rest.
  destruct (PoolAvailable 0 bs); cbn [negb].
  2: { eexists _, s. split; [done|]. split; [apply only_log_refl|done]. }
  run. destruct (ReadBlocks (log s) (This blk) Offset bs) as [Status ImageBuffer] eqn:ER.
  unfold is_success. case_bool_decide as Est; cbn [negb].
  2: { eexists Status, s. split; [done|]. split; [apply only_log_refl|done]. }
  subst Status. rewrite Hdev in ER.
  assert (ER' := content_read (log s) Offset bs). rewrite ER in ER'.
  specialize (ER' eq_refl ltac:(lia)). cbn [snd] in ER'. subst ImageBuffer.
  rewrite load_Some by lia. run. rewrite length_fmap, length_seq.
  destruct (Nat.ltb_spec (Z.to_nat bs) (Z.to_nat (Size - Div))); [lia|].
  eexists _, _. split; [done|]. split.
  { eapply only_log_event, only_log_refl. }
  intros Hst a. cbn [log set_log]. rewrite Hdev in *. rewrite content_write by done.
  assert (Hseg : take (Z.to_nat (Size - Div)) (drop (Z.to_nat Div) Image) =
                 seg Image (Z.to_nat Div) (Z.to_nat Size)) by (unfold seg; f_equal; lia).
  rewrite Hseg.
  assert (Hlen : length (seg Image (Z.to_nat Div) (Z.to_nat Size)) = Z.to_nat (Size - Div)).
  { rewrite seg_length by lia. lia. }
  rewrite <- Hlen at 1. apply overlay_read_back. lia.
Qed.

Context {BL : BaseLib} {UL : UnicodeLib}.

Lemma WriteBlockToPartition_spec split blk h Offset Size Image s k :
  RootType s = EMMC \/ RootType s = UFS ->
  This blk = dev -> BlockSize blk = bs -> bs = 2 ^ k -> 0 <= k <= 31 ->
  0 <= Offset -> 0 <= Size < 2 ^ 32 -> Offset * bs + Size < 2 ^ 64 ->
  (Z.to_nat Size <= length Image)%nat ->
  exists st s',
    WriteBlockToPartition split (Some blk) h Offset Size (Some Image) s = Some (st, s') /\
    only_log s s' /\
    (st = EFI_SUCCESS -> forall a, content (log s') a =
       overlay (Offset * bs) (take (Z.to_nat Size) Image) (content (log s)) a).
Proof.
  intros Hroot Hdev Hbs Hk Hk31 HO HS HOS HI.
  assert (Hpos : 0 < bs) by (rewrite Hk; apply Z.pow_pos_nonneg; lia).
  assert (Hbs31 : bs <= 2 ^ 31) by (rewrite Hk; apply Z.pow_le_mono_r; lia).
  assert (Htype : CheckRootDeviceType s = Some (RootType s, s)).
  { unfold CheckRootDeviceType. run. by destruct Hroot as [-> | ->]. }
  unfold WriteBlockToPartition. run. rewrite Htype.
  rewrite (bool_decide_false (RootType s = NAND)) by (destruct Hroot as [-> | ->]; done).
  run. unfold is_success at 1. rewrite bool_decide_true by done. cbn [negb].
  rewrite Hbs. destruct (Z.eqb_spec bs 0); [lia|].
  set (q := Size / bs). assert (Hq : 0 <= q * bs <= Size /\ Size - q * bs < bs).
  { pose proof (Z.div_mod Size bs ltac:(lia)). pose proof (Z.mod_pos_bound Size bs Hpos).
    pose proof (Z.div_pos Size bs ltac:(lia) Hpos). unfold q. nia. }
  rewrite (u32_small (q * bs)) by (unfold in_u32; lia).
  set (unit_ := if negb split then _ else _).
  run.
  assert (Hloop : exists st off' s', (if q * bs =? 0 then mret (EFI_SUCCESS, Offset)
      else write_units (S (Z.to_nat (q * bs))) blk Image (q * bs) unit_ Offset (q * bs)) s
        = Some ((st, off'), s') /\ only_log s s' /\
      (st = EFI_SUCCESS -> off' * bs = Offset * bs + q * bs /\ 0 <= off' /\
         forall a, content (log s') a =
           overlay (Offset * bs) (take (Z.to_nat (q * bs)) Image) (content (log s)) a)).
  { destruct (Z.eqb_spec (q * bs) 0) as [Hz|Hnz].
    - exists EFI_SUCCESS, Offset, s. split; [done|]. split; [apply only_log_refl|].
      intros _. rewrite Hz. split; [lia|]. split; [done|]. intros a. by rewrite overlay_nil.
    - destruct (write_units_spec (S (Z.to_nat (q * bs))) blk Image (q * bs) unit_ Offset (q * bs) s)
        as (st & off' & s' & Hr & Hl & Hc); try done; try lia.
      + unfold unit_. destruct split; cbn [negb]; [|lia].
        rewrite Hk, ROUND_TO_PAGE_spec by (unfold MAX_WRITE_SIZE; lia).
        apply Z.mul_pos_pos; [|lia]. apply Z.div_str_pos. unfold MAX_WRITE_SIZE. lia.
      + unfold unit_. destruct split; cbn [negb]; [|by exists q].
        rewrite Hk, ROUND_TO_PAGE_spec by (unfold MAX_WRITE_SIZE; lia). by eexists.
      + by exists q.
      + exists st, off', s'. split; [done|]. split; [done|]. intros Hst.
        destruct (Hc Hst) as (Ho & Hge & Hcc). split; [done|]. split; [done|].
        intros a. rewrite Hcc, Z.sub_diag. unfold seg. by rewrite Nat.sub_0_r. }
  destruct Hloop as (st & off' & s1 & -> & Hlog & Hc).
  unfold is_success. case_bool_decide as Est; cbn [negb].
  2: { exists st, s1. done. }
  destruct (Hc Est) as (Ho & Hge & Hcc). destruct (Z.ltb_spec 0 (Size - q * bs)) as [Hr|Hr].
  - destruct (write_rest_spec blk Image (q * bs) off' Size s1)
      as (st' & s' & Hrun & Hl & Hrest); try done; try lia.
    exists st', s'. split; [done|]. split.
    { unfold only_log in *. rewrite Hl, Hlog. by destruct s. }
    intros Hst a. rewrite (Hrest Hst). etransitivity; [apply overlay_ext, Hcc|].
    replace (off' * bs) with
      (Offset * bs + Z.of_nat (length (take (Z.to_nat (q * bs)) Image)))
      by (rewrite length_take; lia).
    rewrite overlay_app. f_equal. unfold seg.
    replace (Z.to_nat Size) with (Z.to_nat (q * bs) + (Z.to_nat Size - Z.to_nat (q * bs)))%nat at 2
      by lia. by rewrite take_take_drop.
  - exists st, s1. split; [done|]. split; [done|]. intros _.
    by replace Size with (q * bs) by lia.
Qed.
(** C16 Writing an image to a partition of a device that is not NAND: for blocks of
    any power of two up to 2^31 bytes, the writes do not fault and end, they
    change nothing but the device, and if they report success the bytes of the
    image are on the device from the block [Offset] on and every other byte is as
    before. *)
Theorem WriteBlockToPartition_content split blk h Offset Size Image s k :
  RootType s = EMMC \/ RootType s = UFS ->
  This blk = dev -> BlockSize blk = bs -> bs = 2 ^ k -> 0 <= k <= 31 ->
  0 <= Offset -> 0 <= Size < 2 ^ 32 -> Offset * bs + Size < 2 ^ 64 ->
  (Z.to_nat Size <= length Image)%nat ->
  exists st s',
    WriteBlockToPartition split (Some blk) h Offset Size (Some Image) s = Some (st, s') /\
    only_log s s' /\
    (st = EFI_SUCCESS -> forall a, content (log s') a =
       overlay (Offset * bs) (take (Z.to_nat Size) Image) (content (log s)) a).
Proof. apply WriteBlockToPartition_spec. Qed.
End write.

(** The first state of the program: static variables are zero. *)
Definition boot_init : boot_state :=
  mk_boot UNKNOWN [] false false (repeat [] MAX_LUNS)
    (repeat (mk_entry no_partition 0) MAX_NUM_PARTITIONS) 0 0 false
    (repeat (mk_entry no_partition 0) MAX_NUM_PARTITIONS) [].

Definition demo_disk : EFI_BLOCK_IO_PROTOCOL := mk_blkio 1 0 512 4095.
Definition demo_Firmware : Firmware :=
  ram_Firmware 512 (bytes "UFS") (fun _ => [mk_handle 1 (Some demo_disk)]) (fun _ => None).
Lemma demo_Firmware_laws : FirmwareLaws demo_Firmware.
Proof. apply ram_Firmware_laws. Qed.

Lemma WriteBlockToPartition_content_witness :
  exists st s',
    @WriteBlockToPartition demo_Firmware reference_BaseLib reference_UnicodeLib true
      (Some demo_disk) None 3 700 (Some (repeat 7 700)) (set_RootType UFS boot_init)
      = Some (st, s') /\
    only_log (set_RootType UFS boot_init) s' /\
    (st = EFI_SUCCESS -> forall a, ram_content 1 512 (log s') a =
       overlay (3 * 512) (take (Z.to_nat 700) (repeat 7 700))
         (ram_content 1 512 (log (set_RootType UFS boot_init))) a).
Proof.
  exact (WriteBlockToPartition_content (FW := demo_Firmware) (BL := reference_BaseLib)
    (UL := reference_UnicodeLib) (dev := 1) (bs := 512) (content := ram_content 1 512)
    true demo_disk None 3 700 (repeat 7 700) (set_RootType UFS boot_init) 9
    (or_intror eq_refl) eq_refl eq_refl eq_refl ltac:(lia) ltac:(lia) ltac:(lia) ltac:(lia)
    ltac:(rewrite repeat_length; lia)).
Defined.
