(* ===== verification/Gpt.v ===== *)
(** * The partition table: checking, patching and writing a GPT image.

    The GPT half of [Platforms/QcomModulePkg/Library/BootLib/PartitionTableUpdate.c]
    with the byte macros of its header file.  An image is a list of bytes that the
    functions change in place; a header or an entry is an offset into it, and an
    access outside of the image is a fault. *)
From stdpp Require Import base numbers list option strings.
From Stdlib Require Import ZArith Lia Ascii.
From S2P Require Import Prelude BaseLib Unicode Storage Bytes.
Local Open Scope Z_scope.

(** ** Constants of PartitionTableUpdate.h *)
Definition SUCCESS : Z := 0.
Definition FAILURE : Z := 1.
Definition PARTITION_TYPE_MBR : Z := 0.
Definition PARTITION_TYPE_GPT : Z := 1.
Definition PARTITION_TYPE_GPT_BACKUP : Z := 2.
Definition GPT_PROTECTIVE : Z := 0xEE.
Definition MBR_PARTITION_RECORD : Z := 446.
Definition OS_TYPE : Z := 4.
Definition MBR_SIGNATURE : Z := 510.
Definition MBR_SIGNATURE_BYTE_0 : Z := 0x55.
Definition MBR_SIGNATURE_BYTE_1 : Z := 0xAA.
Definition MIBIB_MAGIC1 : Z := 0xFE569FAC.
Definition MIBIB_MAGIC2 : Z := 0xCD7F127A.
Definition GPT_SIGNATURE_1 : Z := 0x54524150.
Definition GPT_SIGNATURE_2 : Z := 0x20494645.
Definition GPT_HEADER_SIZE : Z := 92.
Definition GPT_LBA : Z := 1.
Definition GPT_PART_ENTRY_SIZE : Z := 128.
Definition HEADER_SIZE_OFFSET : Z := 12.
Definition HEADER_CRC_OFFSET : Z := 16.
Definition PRIMARY_HEADER_OFFSET : Z := 24.
Definition BACKUP_HEADER_OFFSET : Z := 32.
Definition FIRST_USABLE_LBA_OFFSET : Z := 40.
Definition LAST_USABLE_LBA_OFFSET : Z := 48.
Definition PARTITION_ENTRIES_OFFSET : Z := 72.
Definition PARTITION_COUNT_OFFSET : Z := 80.
Definition PENTRY_SIZE_OFFSET : Z := 84.
Definition PARTITION_CRC_OFFSET : Z := 88.
Definition PARTITION_ENTRY_LAST_LBA : Z := 40.
Definition PARTITION_ENTRY_SIZE : Z := 128.
Definition MIN_PARTITION_ARRAY_SIZE : Z := 0x4000.
Definition ATTRIBUTE_FLAG_OFFSET : Z := 48.
Definition GPT_HDR_BLOCKS : Z := 1.
Definition MAX_PARTITION_ENTRIES_SZ : Z := 128 * 128.

(** ** Kind of image *)
Definition PartitionVerifyMbrSignature (Sz : Z) (Gpt : list Z) : option Z :=
  if Sz <=? MBR_SIGNATURE + 1 then Some FAILURE else
  b0 ← rd Gpt MBR_SIGNATURE 1;
  if negb (bool_decide (b0 = [MBR_SIGNATURE_BYTE_0])) then Some FAILURE else
  b1 ← rd Gpt (MBR_SIGNATURE + 1) 1;
  Some (if bool_decide (b1 = [MBR_SIGNATURE_BYTE_1]) then SUCCESS else FAILURE).

Definition PartitionVerifyMibibImage (Image : list Z) : option Z :=
  w0 ← GET_LWORD_FROM_BYTE Image 0;
  if negb (w0 =? MIBIB_MAGIC1) then Some FAILURE else
  w1 ← GET_LWORD_FROM_BYTE Image 4;
  Some (if negb (w1 =? MIBIB_MAGIC2) then FAILURE else SUCCESS).

(** [Ptype] is an out-parameter: [None] while it is not set. *)
Definition MbrGetPartitionType (Sz : Z) (Gpt : list Z) : option (Z * option Z) :=
  let PtypeOffset := MBR_PARTITION_RECORD + OS_TYPE in
  if Sz <=? PtypeOffset then Some (FAILURE, None) else
  b ← rd Gpt PtypeOffset 1;
  Some (SUCCESS, head b).

Definition PartitionGetType (Sz : Z) (Gpt : list Z) : option (Z * option Z) :=
  Ret ← PartitionVerifyMbrSignature Sz Gpt;
  if Ret =? 0 then
    '(Ret, Ptype) ← MbrGetPartitionType Sz Gpt;
    if Ret =? 0 then
      Some (Ret, Some (if bool_decide (Ptype = Some GPT_PROTECTIVE) then PARTITION_TYPE_GPT
                       else PARTITION_TYPE_MBR))
    else Some (Ret, Ptype)
  else Some (SUCCESS, Some PARTITION_TYPE_GPT_BACKUP).

(** ** Headers *)
Record GptHeaderData := mk_header {
  FirstUsableLba : Z; PartEntrySz : Z; HeaderSz : Z; MaxPtCnt : Z; LastUsableLba : Z
}.
Definition set_HeaderSz (x : Z) (h : GptHeaderData) : GptHeaderData :=
  mk_header (FirstUsableLba h) (PartEntrySz h) x (MaxPtCnt h) (LastUsableLba h).

(** The numeric value of a status, truncated to the UINT32 [Ret]. *)
Definition status_u32 (s : EFI_STATUS) : Z :=
  match s with
  | EFI_SUCCESS => 0 | EFI_LOAD_ERROR => 1 | EFI_INVALID_PARAMETER => 2 | EFI_UNSUPPORTED => 3
  | EFI_BAD_BUFFER_SIZE => 4 | EFI_BUFFER_TOO_SMALL => 5 | EFI_NOT_READY => 6
  | EFI_DEVICE_ERROR => 7 | EFI_OUT_OF_RESOURCES => 9 | EFI_VOLUME_CORRUPTED => 10
  | EFI_VOLUME_FULL => 11 | EFI_NO_MEDIA => 12 | EFI_NOT_FOUND => 14
  | EFI_NO_MAPPING => 17 | EFI_NOT_STARTED => 19
  | EFI_ABORTED => 21 | EFI_PROTOCOL_ERROR => 24
  | EFI_SECURITY_VIOLATION => 26 | EFI_COMPROMISED_DATA => 33
  | EFI_WARNING code => u32 (Z.pos code)
  end.

Section gpt.
Context {FW : Firmware}.

(** [CalculateCrc32] over [n] bytes of the image. *)
Definition crc_of (buf : list Z) (off n : Z) : option (EFI_STATUS * Z) :=
  data ← rd buf off (Z.to_nat n); Some (CalculateCrc32 data).

(** The range checks on a header whose CRC is right, lines 851-893. *)
Definition header_in_range (Secondary : bool) (GptHeader : GptHeaderData) (CurrentLba : Z)
    (DeviceDensity BlkSz : Z) : bool :=
  (Secondary || (CurrentLba =? GPT_LBA)) &&
  (FirstUsableLba GptHeader <=? DeviceDensity / BlkSz) &&
  (LastUsableLba GptHeader <=? DeviceDensity / BlkSz) &&
  (PartEntrySz GptHeader =? GPT_PART_ENTRY_SIZE) &&
  (MaxPtCnt GptHeader <=? MIN_PARTITION_ARRAY_SIZE / PartEntrySz GptHeader).

(** The result, the header and the image; the header's CRC field stays zeroed
    when the CRC does not match. *)
Definition ParseGptHeader (Secondary : bool) (GptHeader : GptHeaderData) (Gpt : list Z)
    (GptBuffer DeviceDensity BlkSz : Z) : option (Z * GptHeaderData * list Z) :=
  w0 ← GET_LWORD_FROM_BYTE Gpt GptBuffer;
  if negb (w0 =? GPT_SIGNATURE_2) then Some (FAILURE, GptHeader, Gpt) else
  w1 ← GET_LWORD_FROM_BYTE Gpt (GptBuffer + 4);
  if negb (w1 =? GPT_SIGNATURE_1) then Some (FAILURE, GptHeader, Gpt) else
  size ← GET_LWORD_FROM_BYTE Gpt (GptBuffer + HEADER_SIZE_OFFSET);
  let GptHeader := set_HeaderSz size GptHeader in
  if HeaderSz GptHeader <? GPT_HEADER_SIZE then Some (FAILURE, GptHeader, Gpt) else
  if BlkSz <? HeaderSz GptHeader then Some (FAILURE, GptHeader, Gpt) else
  CrcOrig ← GET_LWORD_FROM_BYTE Gpt (GptBuffer + HEADER_CRC_OFFSET);
  Gpt ← PUT_LONG Gpt (GptBuffer + HEADER_CRC_OFFSET) 0;
  '(Status, CrcVal) ← crc_of Gpt GptBuffer (HeaderSz GptHeader);
  if negb (is_success Status) then Some (FAILURE, GptHeader, Gpt) else
  if negb (CrcVal =? CrcOrig) then Some (FAILURE, GptHeader, Gpt) else
  Gpt ← PUT_LONG Gpt (GptBuffer + HEADER_CRC_OFFSET) CrcVal;
  lba ← GET_LLWORD_FROM_BYTE Gpt (GptBuffer + PRIMARY_HEADER_OFFSET);
  let CurrentLba := u32 lba in
  first ← GET_LLWORD_FROM_BYTE Gpt (GptBuffer + FIRST_USABLE_LBA_OFFSET);
  count ← GET_LWORD_FROM_BYTE Gpt (GptBuffer + PARTITION_COUNT_OFFSET);
  entry ← GET_LWORD_FROM_BYTE Gpt (GptBuffer + PENTRY_SIZE_OFFSET);
  last ← GET_LLWORD_FROM_BYTE Gpt (GptBuffer + LAST_USABLE_LBA_OFFSET);
  let GptHeader := mk_header first entry (HeaderSz GptHeader) count last in
  Some (if header_in_range Secondary GptHeader CurrentLba DeviceDensity BlkSz
        then SUCCESS else FAILURE, GptHeader, Gpt).

(** ** Patching for the size of the device *)

(** The loop over the used entries: the two first words of the type GUID. *)
Fixpoint used_entries (fuel : nat) (Gpt : list Z) (Entries Max TotalPart : Z) : option Z :=
  match fuel with
  | O => fault
  | S fuel' =>
    if Max <=? TotalPart then Some TotalPart else
    w0 ← GET_LLWORD_FROM_BYTE Gpt (Entries + TotalPart * PARTITION_ENTRY_SIZE);
    if negb (w0 =? 0) then used_entries fuel' Gpt Entries Max (TotalPart + 1) else
    w1 ← GET_LLWORD_FROM_BYTE Gpt (Entries + TotalPart * PARTITION_ENTRY_SIZE + 8);
    if negb (w1 =? 0) then used_entries fuel' Gpt Entries Max (TotalPart + 1)
    else Some TotalPart
  end.

(** The header fields, lines 926-942: the primary header names the backup, the
    backup names the primary, both the last usable block. *)
Definition patch_headers (Gpt : list Z) (Primary Secondary NumSectors PtnEntryBlks : Z)
  : option (list Z) :=
  Gpt ← PUT_LONG_LONG Gpt (Primary + BACKUP_HEADER_OFFSET) (u64 (NumSectors - 1));
  Gpt ← PUT_LONG_LONG Gpt (Primary + LAST_USABLE_LBA_OFFSET)
          (u64 (NumSectors - u32 (PtnEntryBlks + 1)));
  Gpt ← PUT_LONG_LONG Gpt (Secondary + PRIMARY_HEADER_OFFSET) 1;
  Gpt ← PUT_LONG_LONG Gpt (Secondary + LAST_USABLE_LBA_OFFSET)
          (u64 (NumSectors - u32 (PtnEntryBlks + 1)));
  PUT_LONG_LONG Gpt (Secondary + PARTITION_ENTRIES_OFFSET) (u64 (NumSectors - PtnEntryBlks)).

(** The last partition of both copies grows to the last usable block, lines
    944-961.  The offset is a UINT32. *)
Definition patch_last_partition (Gpt : list Z) (Entries PartEntryArrSz Max NumSectors PtnEntryBlks : Z)
  : option (list Z) :=
  TotalPart ← used_entries (S (Z.to_nat Max)) Gpt Entries Max 0;
  let LastPartOffset :=
    u32 (u32 (TotalPart - 1) * PARTITION_ENTRY_SIZE + PARTITION_ENTRY_LAST_LBA) in
  Gpt ← PUT_LONG_LONG Gpt (Entries + LastPartOffset) (u64 (NumSectors - u32 (PtnEntryBlks + 1)));
  PUT_LONG_LONG Gpt (Entries + LastPartOffset + PartEntryArrSz)
    (u64 (NumSectors - u32 (PtnEntryBlks + 1))).

(** The checksum of a table into a header, and of a header into itself. *)
Definition patch_table_crc (Gpt : list Z) (Header Table Size : Z) : option (Z * list Z) :=
  '(Status, CrcVal) ← crc_of Gpt Table Size;
  if EFI_ERROR Status then Some (FAILURE, Gpt) else
  Gpt ← PUT_LONG Gpt (Header + PARTITION_CRC_OFFSET) CrcVal;
  Some (SUCCESS, Gpt).
Definition patch_header_crc (Gpt : list Z) (Header : Z) : option (Z * list Z) :=
  Gpt ← PUT_LONG Gpt (Header + HEADER_CRC_OFFSET) 0;
  '(Status, CrcVal) ← crc_of Gpt Header GPT_HEADER_SIZE;
  if EFI_ERROR Status then Some (FAILURE, Gpt) else
  Gpt ← PUT_LONG Gpt (Header + HEADER_CRC_OFFSET) CrcVal;
  Some (SUCCESS, Gpt).

Definition PatchGpt (Gpt : list Z) (DeviceDensity PartEntryArrSz : Z) (GptHeader : GptHeaderData)
    (BlkSz : Z) : option (Z * list Z) :=
  if BlkSz =? 0 then fault else
  let PtnEntryBlks := MAX_PARTITION_ENTRIES_SZ / BlkSz + GPT_HDR_BLOCKS in
  let NumSectors := DeviceDensity / BlkSz in
  let PrimaryGptHeader := BlkSz in
  let Offset := u32 (2 * PartEntryArrSz) in
  let SecondaryGptHeader := u32 (Offset + BlkSz) + PrimaryGptHeader in
  Gpt ← patch_headers Gpt PrimaryGptHeader SecondaryGptHeader NumSectors PtnEntryBlks;
  let PartitionEntryArrStart := PrimaryGptHeader + BlkSz in
  Gpt ← patch_last_partition Gpt PartitionEntryArrStart PartEntryArrSz (MaxPtCnt GptHeader)
          NumSectors PtnEntryBlks;
  let Size := u32 (MaxPtCnt GptHeader * PartEntrySz GptHeader) in
  '(Ret, Gpt) ← patch_table_crc Gpt PrimaryGptHeader PartitionEntryArrStart Size;
  if negb (Ret =? SUCCESS) then Some (FAILURE, Gpt) else
  '(Ret, Gpt) ← patch_table_crc Gpt SecondaryGptHeader (PartitionEntryArrStart + PartEntryArrSz) Size;
  if negb (Ret =? SUCCESS) then Some (FAILURE, Gpt) else
  '(Ret, Gpt) ← patch_header_crc Gpt PrimaryGptHeader;
  if negb (Ret =? SUCCESS) then Some (FAILURE, Gpt) else
  patch_header_crc Gpt SecondaryGptHeader.

(** ** Writing *)

(** [WriteBlocks] of [n] bytes of the image. *)
Definition write_image (dev Lba : Z) (Gpt : list Z) (off n : Z) : B EFI_STATUS :=
  data ← access (rd Gpt off (Z.to_nat n));
  do_event (WriteBlocks dev Lba data).

(** The five writes of WriteGpt, lines 1078-1133, in their order: protective MBR,
    primary header, backup header, primary entries, backup entries. *)
Definition write_tables (dev BlkSz PartEntryArrSz SecondaryGptHdr : Z) (Gpt : list Z) : B Z :=
  let PrimaryGptHdr := BlkSz in
  Status ← write_image dev 0 Gpt 0 BlkSz;
  if EFI_ERROR Status then mret FAILURE else
  Status ← write_image dev 1 Gpt PrimaryGptHdr BlkSz;
  if EFI_ERROR Status then mret FAILURE else
  BackUpGptLba ← access (GET_LLWORD_FROM_BYTE Gpt (PrimaryGptHdr + BACKUP_HEADER_OFFSET));
  Status ← write_image dev BackUpGptLba Gpt SecondaryGptHdr BlkSz;
  if EFI_ERROR Status then mret FAILURE else
  PartitionEntryLba ← access (GET_LLWORD_FROM_BYTE Gpt (PrimaryGptHdr + PARTITION_ENTRIES_OFFSET));
  Status ← write_image dev PartitionEntryLba Gpt (PrimaryGptHdr + BlkSz) PartEntryArrSz;
  if EFI_ERROR Status then mret FAILURE else
  PartitionEntryLba ←
    access (GET_LLWORD_FROM_BYTE Gpt (SecondaryGptHdr + PARTITION_ENTRIES_OFFSET));
  Status ← write_image dev PartitionEntryLba Gpt (PrimaryGptHdr + BlkSz + PartEntryArrSz)
             PartEntryArrSz;
  if EFI_ERROR Status then mret FAILURE else mret SUCCESS.

(** From the checks on the image to the patched image, lines 1036-1072: the
    result, the image, the size of the entry array and the secondary header. *)
Definition prepare_gpt (Sz : Z) (Gpt : list Z) (DeviceDensity BlkSz : Z)
  : B (Z * list Z * Z * Z) :=
  let GptHeader := mk_header 0 0 0 0 0 in
  if Sz <=? u32 (BlkSz * 2) then mret (FAILURE, Gpt, 0, 0) else
  let PrimaryGptHdr := BlkSz in
  Secondary ← gets ParseSecondaryGpt;
  parsed ← access (ParseGptHeader Secondary GptHeader Gpt PrimaryGptHdr DeviceDensity BlkSz);
  let '(Ret, GptHeader, Gpt) := parsed in
  if negb (Ret =? 0) then mret (Ret, Gpt, 0, 0) else
  let PartEntryArrSz := u32 (PartEntrySz GptHeader * MaxPtCnt GptHeader) in
  let PartEntryArrSz :=
    if PartEntryArrSz <? MIN_PARTITION_ARRAY_SIZE then MIN_PARTITION_ARRAY_SIZE
    else PartEntryArrSz in
  let Offset := u32 (2 * PartEntryArrSz) in
  if Sz <? u32 (Offset + u32 (BlkSz * 3)) then mret (FAILURE, Gpt, 0, 0) else
  let SecondaryGptHdr := u32 (Offset + BlkSz) + PrimaryGptHdr in
  _ ← modify (set_ParseSecondaryGpt true);
  parsed ← access (ParseGptHeader true GptHeader Gpt SecondaryGptHdr DeviceDensity BlkSz);
  let '(Ret, GptHeader, Gpt) := parsed in
  if negb (Ret =? 0) then mret (Ret, Gpt, 0, 0) else
  patched ← access (PatchGpt Gpt DeviceDensity PartEntryArrSz GptHeader BlkSz);
  let (Ret, Gpt) := patched : Z * list Z in
  mret (Ret, Gpt, PartEntryArrSz, SecondaryGptHdr).

Definition WriteGpt (Lun Sz : Z) (Gpt : list Z) : B (Z * list Z) :=
  handles ← access (GetStorageHandle Lun MAX_HANDLEINF_LST_SIZE);
  let (Status, BlockIoHandle) := handles : EFI_STATUS * list HandleInfo in
  let Ret := status_u32 Status in
  if negb (Ret =? 0) || negb (length BlockIoHandle =? 1)%nat then mret (Ret, Gpt) else
  h ← access (BlockIoHandle !! 0%nat);
  let DeviceDensity := GetPartitionSize (BlkIo h) in
  if DeviceDensity =? 0 then mret (FAILURE, Gpt) else
  blk ← access (BlkIo h);
  let BlkSz := BlockSize blk in
  prepared ← prepare_gpt Sz Gpt DeviceDensity BlkSz;
  let '(Ret, Gpt, PartEntryArrSz, SecondaryGptHdr) := prepared in
  if negb (Ret =? 0) then mret (Ret, Gpt) else
  Status ← ErasePartition (BlkIo h) (Handle h);
  if negb (is_success Status) then mret (FAILURE, Gpt) else
  Ret ← write_tables (This blk) BlkSz PartEntryArrSz SecondaryGptHdr Gpt;
  if negb (Ret =? 0) then mret (Ret, Gpt) else
  _ ← modify (set_FlashingGpt false);
  Gpt ← access (wr Gpt 0 (repeat 0 (Z.to_nat Sz)));
  mret (SUCCESS, Gpt).

Definition UpdatePartitionTable (GptImage : list Z) (Sz Lun : Z) : B (EFI_STATUS * list Z) :=
  typed ← access (PartitionGetType Sz GptImage);
  let (Ret, Ptype) := typed : Z * option Z in
  if negb (Ret =? 0) then mret (EFI_NOT_FOUND, GptImage) else
  if bool_decide (Ptype = Some PARTITION_TYPE_GPT) then
    _ ← modify (set_FlashingGpt true);
    written ← WriteGpt Lun Sz GptImage;
    let (Ret, GptImage) := written : Z * list Z in
    mret (if negb (Ret =? 0) then EFI_VOLUME_CORRUPTED else EFI_SUCCESS, GptImage)
  else mret (EFI_UNSUPPORTED, GptImage).
End gpt.
