(* ===== verification/GptSpec.v ===== *)
(** * The partition table: what is accepted and what is written.

    [valid_header] is the check of a GPT header in the terms of the UEFI
    specification; ParseGptHeader is shown to decide it.  PatchGpt is shown to
    produce an image whose two headers are valid again, and WriteGpt to put this
    image on the device. *)
From stdpp Require Import base numbers list option strings.
From Stdlib Require Import ZArith Lia Ascii.
From S2P Require Import Prelude BaseLib Unicode Storage Bytes StorageSpec Gpt.
Local Open Scope Z_scope.

(** The fields of the header at [hdr]. *)
Definition header_at (Gpt : list Z) (hdr : Z) : GptHeaderData :=
  mk_header (le 8 Gpt (hdr + FIRST_USABLE_LBA_OFFSET)) (le 4 Gpt (hdr + PENTRY_SIZE_OFFSET))
    (le 4 Gpt (hdr + HEADER_SIZE_OFFSET)) (le 4 Gpt (hdr + PARTITION_COUNT_OFFSET))
    (le 8 Gpt (hdr + LAST_USABLE_LBA_OFFSET)).

Section gpt_spec.
Context {FW : Firmware} {FWL : FirmwareLaws FW}.

(** The checksum of the first [n] bytes of a header with its own field zeroed. *)
Definition header_crc (Gpt : list Z) (hdr : Z) (n : nat) : Z :=
  snd (CalculateCrc32 (upd (slice n Gpt hdr) HEADER_CRC_OFFSET (le_bytes 4 0))).

Record valid_header (Secondary : bool) (Gpt : list Z) (hdr DeviceDensity BlkSz : Z) : Prop := {
  valid_signature : slice 8 Gpt hdr = bytes "EFI PART";
  valid_size : GPT_HEADER_SIZE <= HeaderSz (header_at Gpt hdr) <= BlkSz;
  valid_crc :
    le 4 Gpt (hdr + HEADER_CRC_OFFSET) =
      header_crc Gpt hdr (Z.to_nat (HeaderSz (header_at Gpt hdr)));
  valid_range :
    header_in_range Secondary (header_at Gpt hdr) (u32 (le 8 Gpt (hdr + PRIMARY_HEADER_OFFSET)))
      DeviceDensity BlkSz = true
}.

(** Bounds on offsets, with the offsets of the header fields computed. *)
Ltac offsets :=
  try done; unfold HEADER_CRC_OFFSET, HEADER_SIZE_OFFSET, PRIMARY_HEADER_OFFSET, FIRST_USABLE_LBA_OFFSET,
    PARTITION_COUNT_OFFSET, PENTRY_SIZE_OFFSET, LAST_USABLE_LBA_OFFSET, BACKUP_HEADER_OFFSET,
    PARTITION_ENTRIES_OFFSET, PARTITION_CRC_OFFSET, GPT_HEADER_SIZE in *;
  rewrite ?le_bytes_length; lia.

Lemma slice_app n m buf off :
  0 <= off -> slice (n + m) buf off = slice n buf off ++ slice m buf (off + Z.of_nat n).
Proof.
  intros. unfold slice. rewrite <- (take_take_drop (drop (Z.to_nat off) buf)), drop_drop.
  do 3 f_equal. lia.
Qed.

Lemma slice_le_bytes len n buf off v :
  mem_ok len buf -> 0 <= off -> off + Z.of_nat n <= Z.of_nat len ->
  0 <= v < 2 ^ (8 * Z.of_nat n) ->
  le n buf off = v <-> slice n buf off = le_bytes n v.
Proof.
  intros [Hu <-] H H' Hv. unfold le. split.
  - intros <-. pose proof (le_bytes_le_value _ (slice_u8 n buf off Hu)) as E.
    by rewrite slice_length in E by lia.
  - intros ->. rewrite le_value_le_bytes. by apply Z.mod_small.
Qed.

(** The two signature words are the text of the specification. *)
Lemma signature_words len Gpt hdr :
  mem_ok len Gpt -> 0 <= hdr -> hdr + 8 <= Z.of_nat len ->
  slice 8 Gpt hdr = bytes "EFI PART" <->
  le 4 Gpt hdr = GPT_SIGNATURE_2 /\ le 4 Gpt (hdr + 4) = GPT_SIGNATURE_1.
Proof.
  intros Hm H H'. rewrite (slice_app 4 4) by done. change (Z.of_nat 4) with 4.
  rewrite !(slice_le_bytes len) by (first [done | unfold GPT_SIGNATURE_1, GPT_SIGNATURE_2; lia]).
  change (bytes "EFI PART") with (le_bytes 4 GPT_SIGNATURE_2 ++ le_bytes 4 GPT_SIGNATURE_1).
  split.
  - intros E. apply app_inj_1 in E; [done|]. destruct Hm as [_ <-].
    rewrite slice_length, le_bytes_length by lia. done.
  - by intros [-> ->].
Qed.

Lemma crc_of_spec len buf off n :
  mem_ok len buf -> 0 <= off -> 0 < n -> off + n <= Z.of_nat len ->
  crc_of buf off n = Some (EFI_SUCCESS, snd (CalculateCrc32 (slice (Z.to_nat n) buf off))) /\
  in_u32 (snd (CalculateCrc32 (slice (Z.to_nat n) buf off))).
Proof.
  intros Hm H Hn H'. unfold crc_of. rewrite (rd_spec len) by (done || lia). bind_step.
  assert (Hne : slice (Z.to_nat n) buf off <> []).
  { intros E. apply (f_equal length) in E. destruct Hm as [_ <-].
    rewrite slice_length in E by lia. cbn in E. lia. }
  destruct (CalculateCrc32_law _ Hne) as [Hs Hr]. split; [|done].
  destruct (CalculateCrc32 _) as [st c]. cbn in *. by subst st.
Qed.

(** The check of a header of an image: the header is accepted exactly when it is
    a valid GPT header, and then its fields are returned and the image is
    untouched; a refused image may have lost the stored checksum. *)
Lemma ParseGptHeader_spec Secondary len Gpt hdr DeviceDensity BlkSz H0 :
  mem_ok len Gpt -> GPT_HEADER_SIZE <= BlkSz -> 0 <= hdr -> hdr + BlkSz <= Z.of_nat len ->
  exists Ret H1 Gpt',
    ParseGptHeader Secondary H0 Gpt hdr DeviceDensity BlkSz = Some (Ret, H1, Gpt') /\
    ((Ret = SUCCESS /\ valid_header Secondary Gpt hdr DeviceDensity BlkSz /\
      H1 = header_at Gpt hdr /\ Gpt' = Gpt) \/
     (Ret = FAILURE /\ ~ valid_header Secondary Gpt hdr DeviceDensity BlkSz /\
      mem_ok len Gpt' /\ same_outside [(hdr + HEADER_CRC_OFFSET, 4)] Gpt Gpt')).
Proof.
  unfold GPT_HEADER_SIZE. intros Hm HB Hh Hl.
  assert (Hrefuse : ~ valid_header Secondary Gpt hdr DeviceDensity BlkSz ->
    forall H1, exists Ret H1' Gpt', Some (FAILURE, H1, Gpt) = Some (Ret, H1', Gpt') /\
    ((Ret = SUCCESS /\ valid_header Secondary Gpt hdr DeviceDensity BlkSz /\
      H1' = header_at Gpt hdr /\ Gpt' = Gpt) \/
     (Ret = FAILURE /\ ~ valid_header Secondary Gpt hdr DeviceDensity BlkSz /\
      mem_ok len Gpt' /\ same_outside [(hdr + HEADER_CRC_OFFSET, 4)] Gpt Gpt'))).
  { intros HP H1. exists FAILURE, H1, Gpt. split; [done|]. right. split; [done|].
    split; [done|]. split; [done|]. apply same_outside_refl. }
  pose proof (signature_words len Gpt hdr Hm Hh ltac:(lia)) as Hsig.
  unfold ParseGptHeader.
  rewrite (GET_LWORD_spec len Gpt hdr) by offsets. bind_step.
  destruct (Z.eqb_spec (le 4 Gpt hdr) GPT_SIGNATURE_2) as [E0|N0]; cbn [negb].
  2: { apply Hrefuse. intros []. tauto. }
  rewrite (GET_LWORD_spec len Gpt (hdr + 4)) by offsets. bind_step.
  destruct (Z.eqb_spec (le 4 Gpt (hdr + 4)) GPT_SIGNATURE_1) as [E1|N1]; cbn [negb].
  2: { apply Hrefuse. intros []. tauto. }
  rewrite (GET_LWORD_spec len Gpt (hdr + HEADER_SIZE_OFFSET)) by offsets. bind_step.
  cbn [HeaderSz set_HeaderSz].
  change (le 4 Gpt (hdr + HEADER_SIZE_OFFSET)) with (HeaderSz (header_at Gpt hdr)).
  destruct (Z.ltb_spec (HeaderSz (header_at Gpt hdr)) GPT_HEADER_SIZE) as [Hs|Hs].
  { apply Hrefuse. intros []. lia. }
  destruct (Z.ltb_spec BlkSz (HeaderSz (header_at Gpt hdr))) as [Hs'|Hs'].
  { apply Hrefuse. intros []. lia. }
  unfold GPT_HEADER_SIZE in Hs. set (n := HeaderSz (header_at Gpt hdr)) in *.
  rewrite (GET_LWORD_spec len Gpt (hdr + HEADER_CRC_OFFSET)) by offsets. bind_step.
  assert (Hlen := proj2 Hm).
  rewrite PUT_LONG_upd by offsets. bind_step. set (Gpt0 := upd Gpt _ _).
  assert (Hm0 : mem_ok len Gpt0).
  { split; [apply upd_u8; [apply Hm|apply le_bytes_u8]|].
    unfold Gpt0. rewrite upd_length; [done|offsets|offsets]. }
  destruct (crc_of_spec len Gpt0 hdr n) as [-> Hr]; [done|lia..|]. bind_step.
  unfold is_success at 1. rewrite bool_decide_true by done. cbn [negb].
  assert (Hcrc : snd (CalculateCrc32 (slice (Z.to_nat n) Gpt0 hdr)) =
                 header_crc Gpt hdr (Z.to_nat n)).
  { unfold header_crc, Gpt0. rewrite slice_upd_inside; [|offsets..].
    by replace (hdr + HEADER_CRC_OFFSET - hdr) with HEADER_CRC_OFFSET by lia. }
  rewrite Hcrc in Hr |- *.
  destruct (Z.eqb_spec (header_crc Gpt hdr (Z.to_nat n)) (le 4 Gpt (hdr + HEADER_CRC_OFFSET)))
    as [Ec|Nc]; cbn [negb].
  2: { eexists FAILURE, _, Gpt0. split; [done|]. right. split; [done|].
       split; [intros [_ _ Hc _]; apply Nc; symmetry; exact Hc|]. split; [done|].
       apply same_outside_upd; offsets. }
  rewrite Ec. rewrite PUT_LONG_upd by (rewrite ?(proj2 Hm0); offsets).
  bind_step. unfold Gpt0. rewrite upd_upd, upd_le by (try apply Hm; offsets).
  rewrite (GET_LLWORD_spec len Gpt (hdr + PRIMARY_HEADER_OFFSET)) by offsets. bind_step.
  rewrite (GET_LLWORD_spec len Gpt (hdr + FIRST_USABLE_LBA_OFFSET)) by offsets. bind_step.
  rewrite (GET_LWORD_spec len Gpt (hdr + PARTITION_COUNT_OFFSET)) by offsets. bind_step.
  rewrite (GET_LWORD_spec len Gpt (hdr + PENTRY_SIZE_OFFSET)) by offsets. bind_step.
  rewrite (GET_LLWORD_spec len Gpt (hdr + LAST_USABLE_LBA_OFFSET)) by offsets. bind_step.
  change (mk_header _ _ _ _ _) with (header_at Gpt hdr).
  destruct (header_in_range _ _ _ _ _) eqn:Er.
  - exists SUCCESS, (header_at Gpt hdr), Gpt. split; [done|]. left. split; [done|].
    split; [|done]. constructor; [tauto|unfold GPT_HEADER_SIZE; lia|symmetry; exact Ec|exact Er].
  - apply Hrefuse. intros [_ _ _ Hc]. rewrite Hc in Er. done.
Qed.

(** ** Patching *)

(** The entry [j] of the table at [E] is in use. *)
Definition entry_used (Gpt : list Z) (E j : Z) : Prop :=
  le 8 Gpt (E + j * PARTITION_ENTRY_SIZE) <> 0 \/ le 8 Gpt (E + j * PARTITION_ENTRY_SIZE + 8) <> 0.

Lemma used_entries_spec len Gpt E Max fuel T :
  mem_ok len Gpt -> 0 <= E -> E + Max * 128 <= Z.of_nat len -> 0 <= T <= Max ->
  (Z.to_nat (Max - T) < fuel)%nat ->
  exists n, used_entries fuel Gpt E Max T = Some n /\ T <= n <= Max /\
    (forall j, T <= j < n -> entry_used Gpt E j) /\ (n < Max -> ~ entry_used Gpt E n).
Proof.
  intros Hm HE Hlen. revert T. induction fuel as [|fuel IH]; intros T HT Hf; [lia|].
  cbn [used_entries]. unfold PARTITION_ENTRY_SIZE. destruct (Z.leb_spec Max T).
  { exists T. split; [done|]. split; [lia|]. split; [lia|lia]. }
  assert (Hstep : entry_used Gpt E T -> exists n,
    used_entries fuel Gpt E Max (T + 1) = Some n /\ T <= n <= Max /\
    (forall j, T <= j < n -> entry_used Gpt E j) /\ (n < Max -> ~ entry_used Gpt E n)).
  { intros Hu. destruct (IH (T + 1)) as (n & Hr & Hn & Hj & He); [lia|lia|].
    exists n. split; [done|]. split; [lia|]. split; [|done]. intros j Hj'.
    destruct (decide (j = T)) as [->|]; [done|]. apply Hj. lia. }
  rewrite (GET_LLWORD_spec len Gpt (E + T * 128)) by (done || lia). bind_step.
  destruct (Z.eqb_spec (le 8 Gpt (E + T * 128)) 0) as [E0|N0]; cbn [negb].
  2: { apply Hstep. by left. }
  rewrite (GET_LLWORD_spec len Gpt (E + T * 128 + 8)) by (done || lia). bind_step.
  destruct (Z.eqb_spec (le 8 Gpt (E + T * 128 + 8)) 0) as [E1|N1]; cbn [negb].
  2: { apply Hstep. by right. }
  exists T. split; [done|]. split; [lia|]. split; [lia|]. intros _ [|]; done.
Qed.

(** One store of a field, remembered by its frame. *)
Ltac put_step off :=
  match goal with
  | Hm : mem_ok ?len ?G |- context [PUT_LONG_LONG ?G off ?y] =>
      let G' := fresh "G" in let E := fresh "E" in let Hm' := fresh "Hm" in
      let F := fresh "F" in let V := fresh "V" in
      destruct (PUT_LONG_LONG_spec len G off y Hm) as (G' & E & Hm' & F & V); [offsets..|];
      rewrite E; clear E; bind_step
  | Hm : mem_ok ?len ?G |- context [PUT_LONG ?G off ?y] =>
      let G' := fresh "G" in let E := fresh "E" in let Hm' := fresh "Hm" in
      let F := fresh "F" in let V := fresh "V" in
      destruct (PUT_LONG_spec len G off y Hm) as (G' & E & Hm' & F & V); [offsets..|];
      rewrite E; clear E; bind_step
  end.

(** Carries the value of a field through the frames of later stores. *)
Ltac carry :=
  repeat match goal with
  | F : same_outside ?rs ?a ?b |- context [le ?n ?b ?off] =>
      rewrite (le_same_outside rs a b n off F) by (solve_apart || offsets)
  end.

Lemma patch_headers_spec len Gpt P S NumSectors Blks :
  mem_ok len Gpt -> 0 <= P -> P + 92 <= S -> S + 92 <= Z.of_nat len ->
  let last := u64 (NumSectors - u32 (Blks + 1)) in
  exists Gpt', patch_headers Gpt P S NumSectors Blks = Some Gpt' /\ mem_ok len Gpt' /\
    same_outside [(P + 32, 8); (P + 48, 8); (S + 24, 8); (S + 48, 8); (S + 72, 8)] Gpt Gpt' /\
    le 8 Gpt' (P + 32) = u64 (NumSectors - 1) /\ le 8 Gpt' (P + 48) = last /\
    le 8 Gpt' (S + 24) = 1 /\ le 8 Gpt' (S + 48) = last /\
    le 8 Gpt' (S + 72) = u64 (NumSectors - Blks).
Proof.
  intros Hm HP HPS HS last. unfold patch_headers.
  put_step (P + BACKUP_HEADER_OFFSET). put_step (P + LAST_USABLE_LBA_OFFSET).
  put_step (S + PRIMARY_HEADER_OFFSET). put_step (S + LAST_USABLE_LBA_OFFSET).
  put_step (S + PARTITION_ENTRIES_OFFSET).
  unfold BACKUP_HEADER_OFFSET, LAST_USABLE_LBA_OFFSET, PRIMARY_HEADER_OFFSET,
    PARTITION_ENTRIES_OFFSET in *.
  eexists. split; [done|]. split; [done|]. split.
  { exact (same_outside_trans _ _ _ _ _ (same_outside_trans _ _ _ _ _
      (same_outside_trans _ _ _ _ _ (same_outside_trans _ _ _ _ _ F F0) F1) F2) F3). }
  assert (Hu : forall z, u64 (u64 z) = u64 z).
  { intros z. apply u64_small, u64_range. }
  rewrite Hu in V, V0, V2, V3. unfold last.
  split; [by carry|]. split; [by carry|]. split; [by carry|]. split; [by carry|]. done.
Qed.

Lemma patch_last_partition_spec len Gpt E A Max NumSectors Blks :
  mem_ok len Gpt -> 0 <= E -> 0 < Max <= 128 -> Max * 128 <= A -> E + 2 * A <= Z.of_nat len ->
  entry_used Gpt E 0 ->
  let last := u64 (NumSectors - u32 (Blks + 1)) in
  exists n Gpt', patch_last_partition Gpt E A Max NumSectors Blks = Some Gpt' /\
    1 <= n <= Max /\ (forall j, 0 <= j < n -> entry_used Gpt E j) /\
    (n < Max -> ~ entry_used Gpt E n) /\ mem_ok len Gpt' /\
    same_outside [(E + ((n - 1) * 128 + 40), 8); (E + ((n - 1) * 128 + 40) + A, 8)] Gpt Gpt' /\
    le 8 Gpt' (E + ((n - 1) * 128 + 40)) = last /\
    le 8 Gpt' (E + ((n - 1) * 128 + 40) + A) = last.
Proof.
  intros Hm HE HM HA HL Hused last. unfold patch_last_partition.
  destruct (used_entries_spec len Gpt E Max (S (Z.to_nat Max)) 0)
    as (n & -> & Hn & Hj & He); [done|lia..|]. bind_step.
  assert (1 <= n). { destruct (decide (n = 0)) as [->|]; [|lia]. by destruct He; [lia|]. }
  unfold PARTITION_ENTRY_SIZE, PARTITION_ENTRY_LAST_LBA.
  rewrite (u32_small (n - 1)) by (unfold in_u32; lia).
  rewrite (u32_small (_ + 40)) by (unfold in_u32; lia).
  put_step (E + ((n - 1) * 128 + 40)). put_step (E + ((n - 1) * 128 + 40) + A).
  unfold last. rewrite (u64_small (u64 _)) in V, V0 by apply u64_range.
  exists n, G0. split; [done|]. split; [lia|]. split; [done|]. split; [done|]. split; [done|].
  split; [exact (same_outside_trans _ _ _ _ _ F F0)|]. split; [by carry|done].
Qed.

(** With no entry in use the offset of the last entry wraps around. *)
Lemma patch_last_partition_empty len Gpt E A Max NumSectors Blks :
  mem_ok len Gpt -> 0 <= E -> 0 <= Max <= 128 -> E + Max * 128 <= Z.of_nat len ->
  Z.of_nat len < 2 ^ 32 - 88 -> Max = 0 \/ ~ entry_used Gpt E 0 ->
  patch_last_partition Gpt E A Max NumSectors Blks = fault.
Proof.
  intros Hm HE HM HL Hlen Hun. unfold patch_last_partition.
  destruct (used_entries_spec len Gpt E Max (S (Z.to_nat Max)) 0)
    as (n & -> & Hn & Hj & He); [done|lia..|]. bind_step.
  assert (n = 0) as ->.
  { destruct (decide (n = 0)) as [|]; [done|]. exfalso.
    destruct Hun as [|Hun]; [lia|]. apply Hun, Hj. lia. }
  change (u32 (u32 (0 - 1) * PARTITION_ENTRY_SIZE + PARTITION_ENTRY_LAST_LBA)) with (2 ^ 32 - 88).
  assert (forall y, PUT_LONG_LONG Gpt (E + (2 ^ 32 - 88)) y = fault) as ->; [|done].
  intros y. apply wr_None. destruct Hm as [_ ->]. cbn [length]. lia.
Qed.

Lemma patch_table_crc_spec len Gpt hdr T n :
  mem_ok len Gpt -> 0 <= hdr -> hdr + 92 <= Z.of_nat len -> 0 <= T -> 0 < n ->
  T + n <= Z.of_nat len ->
  exists Gpt', patch_table_crc Gpt hdr T n = Some (SUCCESS, Gpt') /\ mem_ok len Gpt' /\
    same_outside [(hdr + 88, 4)] Gpt Gpt' /\
    le 4 Gpt' (hdr + 88) = snd (CalculateCrc32 (slice (Z.to_nat n) Gpt T)).
Proof.
  intros Hm Hh Hl HT Hn HTl. unfold patch_table_crc.
  destruct (crc_of_spec len Gpt T n Hm HT Hn HTl) as [-> Hr]. bind_step. cbn [EFI_ERROR].
  put_step (hdr + PARTITION_CRC_OFFSET). rewrite (u32_small _ Hr) in V. by exists G.
Qed.

Lemma patch_header_crc_spec len Gpt hdr :
  mem_ok len Gpt -> 0 <= hdr -> hdr + 92 <= Z.of_nat len ->
  exists Gpt', patch_header_crc Gpt hdr = Some (SUCCESS, Gpt') /\ mem_ok len Gpt' /\
    same_outside [(hdr + 16, 4)] Gpt Gpt' /\ le 4 Gpt' (hdr + 16) = header_crc Gpt hdr 92.
Proof.
  intros Hm Hh Hl. unfold patch_header_crc. assert (Hlen := proj2 Hm).
  rewrite PUT_LONG_upd by offsets. bind_step. set (G0 := upd Gpt _ _).
  assert (Hm0 : mem_ok len G0).
  { split; [apply upd_u8; [apply Hm|apply le_bytes_u8]|].
    unfold G0. rewrite upd_length; [done|offsets|offsets]. }
  destruct (crc_of_spec len G0 hdr GPT_HEADER_SIZE) as [-> Hr]; [done|offsets..|]. bind_step.
  cbn [EFI_ERROR]. rewrite PUT_LONG_upd by (rewrite ?(proj2 Hm0); offsets). bind_step.
  assert (Hupd : forall y, upd G0 (hdr + HEADER_CRC_OFFSET) (le_bytes 4 y) =
                           upd Gpt (hdr + HEADER_CRC_OFFSET) (le_bytes 4 y)).
  { intros y. unfold G0. apply upd_upd; offsets. }
  rewrite Hupd. eexists. split; [done|].
  split; [split; [apply upd_u8; [apply Hm|apply le_bytes_u8]|rewrite upd_length; [done|offsets|offsets]]|].
  split; [apply same_outside_upd; offsets|].
  change (hdr + HEADER_CRC_OFFSET) with (hdr + 16).
  rewrite le_upd_same by offsets. change (_ mod 2 ^ (8 * Z.of_nat 4)) with (u32 (snd (CalculateCrc32
    (slice (Z.to_nat GPT_HEADER_SIZE) G0 hdr)))). rewrite u32_small by done.
  unfold header_crc, G0. change (Z.to_nat GPT_HEADER_SIZE) with 92%nat.
  rewrite slice_upd_inside; [|offsets..].
  by replace (hdr + HEADER_CRC_OFFSET - hdr) with HEADER_CRC_OFFSET by lia.
Qed.

(** Changing the checksum field of a header, or bytes elsewhere, does not change
    the header's checksum. *)
Lemma header_crc_same_outside rs a b hdr n :
  same_outside rs a b -> 0 <= hdr -> (20 <= n)%nat -> hdr + Z.of_nat n <= Z.of_nat (length a) ->
  Forall (fun r => apart hdr (Z.of_nat n) r \/ (hdr + 16 <= fst r /\ fst r + snd r <= hdr + 20)) rs ->
  header_crc b hdr n = header_crc a hdr n.
Proof.
  intros [Hl H] Hh Hn Hlen Hrs. unfold header_crc. do 2 f_equal. apply list_eq. intros i.
  rewrite !upd_lookup by (rewrite ?slice_length; offsets).
  rewrite le_bytes_length. change (Z.to_nat HEADER_CRC_OFFSET) with 16%nat.
  case_decide; [done|]. rewrite !slice_lookup. case_decide; [|done]. apply H.
  weaken Hrs. unfold apart in *. lia.
Qed.

(** The places of an image with blocks of [BlkSz] bytes: the primary header is in
    block 1, the entries after it, a copy of them, then the backup header. *)
Definition entries_at (BlkSz : Z) : Z := 2 * BlkSz.
Definition backup_at (BlkSz : Z) : Z := 2 * BlkSz + 2 * MIN_PARTITION_ARRAY_SIZE.
Definition table_blocks (BlkSz : Z) : Z := MAX_PARTITION_ENTRIES_SZ / BlkSz + GPT_HDR_BLOCKS.
(** The last block in front of the backup entries and the backup header. *)
Definition last_usable (NumSectors BlkSz : Z) : Z := u64 (NumSectors - u32 (table_blocks BlkSz + 1)).
Definition last_lba_at (n : Z) : Z := (n - 1) * 128 + 40.

(** [Gpt'] is [Gpt] patched for a device of [NumSectors] blocks; its table has
    [n] entries in use. *)
Record patched (Gpt Gpt' : list Z) (BlkSz NumSectors Max n : Z) : Prop := {
  patched_primary :
    le 8 Gpt' (BlkSz + 32) = u64 (NumSectors - 1) /\
    le 8 Gpt' (BlkSz + 48) = last_usable NumSectors BlkSz;
  patched_backup :
    le 8 Gpt' (backup_at BlkSz + 24) = 1 /\
    le 8 Gpt' (backup_at BlkSz + 48) = last_usable NumSectors BlkSz /\
    le 8 Gpt' (backup_at BlkSz + 72) = u64 (NumSectors - table_blocks BlkSz);
  patched_used :
    1 <= n <= Max /\ (forall j, 0 <= j < n -> entry_used Gpt (entries_at BlkSz) j) /\
    (n < Max -> ~ entry_used Gpt (entries_at BlkSz) n);
  patched_last :
    le 8 Gpt' (entries_at BlkSz + last_lba_at n) = last_usable NumSectors BlkSz /\
    le 8 Gpt' (entries_at BlkSz + last_lba_at n + MIN_PARTITION_ARRAY_SIZE) =
      last_usable NumSectors BlkSz;
  patched_tables :
    le 4 Gpt' (BlkSz + 88) =
      snd (CalculateCrc32 (slice (Z.to_nat (Max * 128)) Gpt' (entries_at BlkSz))) /\
    le 4 Gpt' (backup_at BlkSz + 88) =
      snd (CalculateCrc32 (slice (Z.to_nat (Max * 128)) Gpt'
             (entries_at BlkSz + MIN_PARTITION_ARRAY_SIZE)));
  patched_crcs :
    le 4 Gpt' (BlkSz + 16) = header_crc Gpt' BlkSz 92 /\
    le 4 Gpt' (backup_at BlkSz + 16) = header_crc Gpt' (backup_at BlkSz) 92;
  patched_frame :
    same_outside
      [(BlkSz + 32, 8); (BlkSz + 48, 8); (backup_at BlkSz + 24, 8); (backup_at BlkSz + 48, 8);
       (backup_at BlkSz + 72, 8); (entries_at BlkSz + last_lba_at n, 8);
       (entries_at BlkSz + last_lba_at n + MIN_PARTITION_ARRAY_SIZE, 8); (BlkSz + 88, 4);
       (backup_at BlkSz + 88, 4); (BlkSz + 16, 4); (backup_at BlkSz + 16, 4)] Gpt Gpt'
}.

Ltac places :=
  unfold entries_at, backup_at, last_lba_at, MIN_PARTITION_ARRAY_SIZE in *; offsets.

Ltac frame := repeat (apply List.Forall_cons; [unfold apart; cbn [fst snd]; places|]); apply List.Forall_nil.

Ltac carry_places :=
  repeat match goal with
  | F : same_outside ?rs ?a ?b |- context [le ?n ?b ?off] =>
      rewrite (le_same_outside rs a b n off F) by (frame || places)
  | F : same_outside ?rs ?a ?b |- context [slice ?n ?b ?off] =>
      rewrite (slice_same_outside rs a b n off F) by (frame || places)
  end.

Ltac frame_crc :=
  repeat (apply List.Forall_cons;
    [first [left; unfold apart; cbn [fst snd]; places | right; cbn [fst snd]; places]|]);
  apply List.Forall_nil.
Ltac carry_crc :=
  repeat match goal with
  | F : same_outside ?rs ?a ?b, Hm : mem_ok _ ?a |- context [header_crc ?b ?hdr ?n] =>
      rewrite (header_crc_same_outside rs a b hdr n F)
        by (first [frame_crc | rewrite ?(proj2 Hm); places])
  end.

Lemma PatchGpt_spec len Gpt DeviceDensity H BlkSz :
  mem_ok len Gpt -> GPT_HEADER_SIZE <= BlkSz <= 2 ^ 30 -> backup_at BlkSz + BlkSz <= Z.of_nat len ->
  0 < MaxPtCnt H <= 128 -> PartEntrySz H = 128 -> entry_used Gpt (entries_at BlkSz) 0 ->
  exists n Gpt', PatchGpt Gpt DeviceDensity MIN_PARTITION_ARRAY_SIZE H BlkSz = Some (SUCCESS, Gpt') /\
    mem_ok len Gpt' /\ patched Gpt Gpt' BlkSz (DeviceDensity / BlkSz) (MaxPtCnt H) n.
Proof.
  intros Hm HB Hlen HM HE Hused. unfold PatchGpt. set (Max := MaxPtCnt H) in *.
  destruct (Z.eqb_spec BlkSz 0) as [|Hnz]; [offsets|].
  assert (Hsec : u32 (u32 (2 * MIN_PARTITION_ARRAY_SIZE) + BlkSz) + BlkSz = backup_at BlkSz).
  { change (u32 (2 * MIN_PARTITION_ARRAY_SIZE)) with 32768.
    rewrite u32_small by (unfold in_u32; offsets). places. }
  rewrite Hsec. change (BlkSz + BlkSz) with (BlkSz + BlkSz).
  replace (BlkSz + BlkSz) with (entries_at BlkSz) by places.
  destruct (patch_headers_spec len Gpt BlkSz (backup_at BlkSz) (DeviceDensity / BlkSz)
    (table_blocks BlkSz)) as (G1 & E1 & Hm1 & F1 & V1 & V2 & V3 & V4 & V5); [done|places..|].
  unfold table_blocks at 1 in E1. rewrite E1. bind_step.
  assert (Huse : forall j, 0 <= j < 128 ->
    entry_used G1 (entries_at BlkSz) j <-> entry_used Gpt (entries_at BlkSz) j).
  { intros j Hj. unfold entry_used, PARTITION_ENTRY_SIZE.
    by rewrite !(le_same_outside _ Gpt G1 8 _ F1) by (frame || places). }
  destruct (patch_last_partition_spec len G1 (entries_at BlkSz) MIN_PARTITION_ARRAY_SIZE Max
    (DeviceDensity / BlkSz) (table_blocks BlkSz))
    as (n & G2 & E2 & Hn & Hj & He & Hm2 & F2 & W1 & W2); [done|places..|by (apply Huse; [lia|done])|].
  unfold table_blocks at 1 in E2. rewrite E2. bind_step.
  rewrite HE. rewrite (u32_small (Max * 128)) by (unfold in_u32; lia).
  destruct (patch_table_crc_spec len G2 BlkSz (entries_at BlkSz) (Max * 128))
    as (G3 & E3 & Hm3 & F3 & X1); [done|places..|]. rewrite E3. bind_step.
  destruct (patch_table_crc_spec len G3 (backup_at BlkSz)
    (entries_at BlkSz + MIN_PARTITION_ARRAY_SIZE) (Max * 128))
    as (G4 & E4 & Hm4 & F4 & X2); [done|places..|]. rewrite E4. bind_step.
  destruct (patch_header_crc_spec len G4 BlkSz) as (G5 & E5 & Hm5 & F5 & Y1); [done|places..|].
  change (SUCCESS =? SUCCESS) with true. cbn [negb]. rewrite E5. bind_step.
  change (SUCCESS =? SUCCESS) with true. cbn [negb].
  destruct (patch_header_crc_spec len G5 (backup_at BlkSz)) as (G6 & E6 & Hm6 & F6 & Y2);
    [done|places..|].
  exists n, G6. split; [exact E6|]. split; [done|]. clear E1 E2 E3 E4 E5 E6.
  fold (last_lba_at n) in F2, W1, W2. fold (last_usable (DeviceDensity / BlkSz) BlkSz) in V2, V4, W1, W2.
  split.
  - split; carry_places; done.
  - split; [|split]; carry_places; done.
  - split; [lia|]. split.
    + intros j Hj'. apply Huse; [lia|]. by apply Hj.
    + intros Hlt Hu. apply (He Hlt), Huse; [lia|done].
  - split; carry_places; done.
  - split; carry_places; [exact X1|]. rewrite X2. by carry_places.
  - split; carry_places; rewrite ?Y1, ?Y2; by carry_crc.
  - exact (same_outside_trans _ _ _ _ _ (same_outside_trans _ _ _ _ _
      (same_outside_trans _ _ _ _ _ (same_outside_trans _ _ _ _ _
      (same_outside_trans _ _ _ _ _ F1 F2) F3) F4) F5) F6).
Qed.

(** What the range checks leave. *)
Lemma header_in_range_spec Secondary H CurrentLba DeviceDensity BlkSz :
  header_in_range Secondary H CurrentLba DeviceDensity BlkSz = true <->
  (Secondary = true \/ CurrentLba = 1) /\ FirstUsableLba H <= DeviceDensity / BlkSz /\
  LastUsableLba H <= DeviceDensity / BlkSz /\ PartEntrySz H = 128 /\ MaxPtCnt H <= 128.
Proof.
  unfold header_in_range, GPT_PART_ENTRY_SIZE, MIN_PARTITION_ARRAY_SIZE, GPT_LBA.
  rewrite !andb_true_iff, orb_true_iff, !Z.leb_le, !Z.eqb_eq. split.
  - intros ((((H1 & H2) & H3) & H4) & H5). rewrite H4 in H5. done.
  - intros (H1 & H2 & H3 & H4 & H5). rewrite H4. done.
Qed.

(** A standard header stays valid when its patched fields are right. *)
Lemma valid_header_patched Secondary len Gpt Gpt' rs hdr DeviceDensity BlkSz :
  valid_header Secondary Gpt hdr DeviceDensity BlkSz ->
  HeaderSz (header_at Gpt hdr) = GPT_HEADER_SIZE ->
  mem_ok len Gpt -> 0 <= hdr -> hdr + 92 <= Z.of_nat len ->
  same_outside rs Gpt Gpt' ->
  Forall (fun r => apart hdr 16 r /\ apart (hdr + 40) 8 r /\ apart (hdr + 80) 8 r) rs ->
  le 4 Gpt' (hdr + 16) = header_crc Gpt' hdr 92 ->
  (Secondary = true \/ u32 (le 8 Gpt' (hdr + 24)) = 1) ->
  le 8 Gpt' (hdr + 48) <= DeviceDensity / BlkSz ->
  valid_header Secondary Gpt' hdr DeviceDensity BlkSz.
Proof.
  intros [Hsig Hsz Hcrc Hr] H92 Hm Hh Hl F Hrs Hc Hlba Hlast.
  apply header_in_range_spec in Hr as (_ & Hf & _ & He & Hp).
  assert (Hkeep : forall n off, 0 <= off ->
    Forall (apart off (Z.of_nat n)) rs -> le n Gpt' off = le n Gpt off).
  { intros n off. by apply le_same_outside. }
  assert (Hsize : HeaderSz (header_at Gpt' hdr) = HeaderSz (header_at Gpt hdr)).
  { apply Hkeep; [offsets|]. weaken Hrs. unfold apart, HEADER_SIZE_OFFSET in *. lia. }
  constructor.
  - rewrite <- Hsig. eapply slice_same_outside; [exact F|done|]. weaken Hrs. unfold apart in *. lia.
  - by rewrite Hsize.
  - rewrite Hsize, H92. exact Hc.
  - apply header_in_range_spec. split; [done|]. unfold header_at in *.
    cbn [FirstUsableLba LastUsableLba PartEntrySz MaxPtCnt] in *.
    rewrite (Hkeep 8%nat (hdr + FIRST_USABLE_LBA_OFFSET)), (Hkeep 4%nat (hdr + PENTRY_SIZE_OFFSET)),
      (Hkeep 4%nat (hdr + PARTITION_COUNT_OFFSET)) by
      (first [weaken Hrs; unfold apart, PENTRY_SIZE_OFFSET, PARTITION_COUNT_OFFSET,
                FIRST_USABLE_LBA_OFFSET in *; lia | offsets]).
    done.
Qed.

(** Patching an image whose two headers are valid and standard, with a first
    partition, for a device that has room for both tables. *)
Lemma PatchGpt_headers len Gpt DeviceDensity BlkSz :
  mem_ok len Gpt -> GPT_HEADER_SIZE <= BlkSz <= 2 ^ 30 -> backup_at BlkSz + BlkSz <= Z.of_nat len ->
  0 <= DeviceDensity < 2 ^ 64 -> table_blocks BlkSz < DeviceDensity / BlkSz ->
  valid_header false Gpt BlkSz DeviceDensity BlkSz ->
  valid_header true Gpt (backup_at BlkSz) DeviceDensity BlkSz ->
  HeaderSz (header_at Gpt BlkSz) = GPT_HEADER_SIZE ->
  HeaderSz (header_at Gpt (backup_at BlkSz)) = GPT_HEADER_SIZE ->
  0 < MaxPtCnt (header_at Gpt (backup_at BlkSz)) -> entry_used Gpt (entries_at BlkSz) 0 ->
  exists n Gpt',
    PatchGpt Gpt DeviceDensity MIN_PARTITION_ARRAY_SIZE (header_at Gpt (backup_at BlkSz)) BlkSz =
      Some (SUCCESS, Gpt') /\
    mem_ok len Gpt' /\
    patched Gpt Gpt' BlkSz (DeviceDensity / BlkSz) (MaxPtCnt (header_at Gpt (backup_at BlkSz))) n /\
    valid_header false Gpt' BlkSz DeviceDensity BlkSz /\
    valid_header true Gpt' (backup_at BlkSz) DeviceDensity BlkSz.
Proof.
  intros Hm HB Hlen HD Hroom Hv1 Hv2 Hs1 Hs2 Hcnt Hused.
  pose proof (proj1 (header_in_range_spec _ _ _ _ _) (valid_range _ _ _ _ _ Hv1))
    as (Hlba & _ & _ & _ & _).
  pose proof (proj1 (header_in_range_spec _ _ _ _ _) (valid_range _ _ _ _ _ Hv2))
    as (_ & _ & _ & HPE & HMX).
  destruct (PatchGpt_spec len Gpt DeviceDensity (header_at Gpt (backup_at BlkSz)) BlkSz)
    as (n & Gpt' & Hrun & Hm' & Hp); try done; try lia.
  exists n, Gpt'. split; [done|]. split; [done|]. split; [done|].
  assert (Hpp := Hp). destruct Hp as [[_ HL1] (HP24 & HL2 & _) [Hn _] _ _ [Hc1 Hc2] F].
  assert (Hlast : last_usable (DeviceDensity / BlkSz) BlkSz <= DeviceDensity / BlkSz).
  { assert (0 <= table_blocks BlkSz <= 2 ^ 20).
    { unfold table_blocks, MAX_PARTITION_ENTRIES_SZ, GPT_HDR_BLOCKS, GPT_HEADER_SIZE in *.
      pose proof (Z.div_pos (128 * 128) BlkSz). pose proof (Z.div_le_upper_bound (128 * 128) BlkSz (128 * 128)).
      nia. }
    assert (DeviceDensity / BlkSz < 2 ^ 64).
    { unfold GPT_HEADER_SIZE in *. apply Z.div_lt_upper_bound; nia. }
    unfold last_usable. rewrite (u32_small (_ + 1)) by (unfold in_u32; lia).
    rewrite u64_small by (unfold in_u64; lia). lia. }
  split.
  - eapply valid_header_patched; [exact Hv1|done|exact Hm|places|places|exact F| |done| |].
    + repeat (apply List.Forall_cons; [unfold apart; cbn [fst snd]; places|]). apply List.Forall_nil.
    + right. destruct Hlba as [|Hlba]; [done|]. rewrite <- Hlba.
      f_equal. eapply le_same_outside; [exact F|places|frame].
    + by rewrite HL1.
  - eapply valid_header_patched; [exact Hv2|done|exact Hm|places|places|exact F| |done| |].
    + repeat (apply List.Forall_cons; [unfold apart; cbn [fst snd]; places|]). apply List.Forall_nil.
    + by left.
    + by rewrite HL2.
Qed.

(** An image without a partition makes PatchGpt write outside of it. *)
Lemma PatchGpt_empty_faults len Gpt DeviceDensity H BlkSz :
  mem_ok len Gpt -> GPT_HEADER_SIZE <= BlkSz <= 2 ^ 30 -> backup_at BlkSz + BlkSz <= Z.of_nat len ->
  Z.of_nat len < 2 ^ 32 - 88 -> 0 <= MaxPtCnt H <= 128 ->
  MaxPtCnt H = 0 \/ ~ entry_used Gpt (entries_at BlkSz) 0 ->
  PatchGpt Gpt DeviceDensity MIN_PARTITION_ARRAY_SIZE H BlkSz = fault.
Proof.
  intros Hm HB Hlen Hl32 HM Hun. unfold PatchGpt.
  destruct (Z.eqb_spec BlkSz 0) as [|Hnz]; [done|].
  assert (Hsec : u32 (u32 (2 * MIN_PARTITION_ARRAY_SIZE) + BlkSz) + BlkSz = backup_at BlkSz).
  { change (u32 (2 * MIN_PARTITION_ARRAY_SIZE)) with 32768.
    rewrite u32_small by (unfold in_u32; offsets). places. }
  rewrite Hsec. replace (BlkSz + BlkSz) with (entries_at BlkSz) by places.
  destruct (patch_headers_spec len Gpt BlkSz (backup_at BlkSz) (DeviceDensity / BlkSz)
    (table_blocks BlkSz)) as (G1 & E1 & Hm1 & F1 & _); [done|places..|].
  unfold table_blocks at 1 in E1. rewrite E1. bind_step.
  rewrite (patch_last_partition_empty len G1); [done|done|places|done|places|done|].
  destruct Hun as [|Hun]; [by left|]. right. intros Hu. apply Hun. revert Hu.
  unfold entry_used, PARTITION_ENTRY_SIZE.
  by rewrite !(le_same_outside _ Gpt G1 8 _ F1) by (frame || places).
Qed.

(** ** Writing *)

(** The blocks of the image [P] and where they go, for a device whose backup
    header is in block [Backup] and whose backup entries start at [Entries]. *)
Definition table_writes (dev BlkSz : Z) (P : list Z) : list device_event :=
  [WriteBlocks dev 0 (slice (Z.to_nat BlkSz) P 0);
   WriteBlocks dev 1 (slice (Z.to_nat BlkSz) P BlkSz);
   WriteBlocks dev (le 8 P (BlkSz + BACKUP_HEADER_OFFSET)) (slice (Z.to_nat BlkSz) P (backup_at BlkSz));
   WriteBlocks dev (le 8 P (BlkSz + PARTITION_ENTRIES_OFFSET))
     (slice (Z.to_nat MIN_PARTITION_ARRAY_SIZE) P (entries_at BlkSz));
   WriteBlocks dev (le 8 P (backup_at BlkSz + PARTITION_ENTRIES_OFFSET))
     (slice (Z.to_nat MIN_PARTITION_ARRAY_SIZE) P (entries_at BlkSz + MIN_PARTITION_ARRAY_SIZE))].

(** The log of [s'] is the one of [s] and the first [k] events of [evs]. *)
Definition logged (s s' : boot_state) (k : nat) (evs : list device_event) : Prop :=
  s' = set_log (log s ++ take k evs) s.

Lemma write_image_spec len dev lba P off n s :
  mem_ok len P -> 0 <= off -> 0 <= n -> off + n <= Z.of_nat len ->
  write_image dev lba P off n s =
    Some (EventStatus (log s) (WriteBlocks dev lba (slice (Z.to_nat n) P off)),
          set_log (log s ++ [WriteBlocks dev lba (slice (Z.to_nat n) P off)]) s).
Proof.
  intros. unfold write_image. run. rewrite (rd_spec len) by (done || lia). run. done.
Qed.

(** One write of the sequence: stop here on an error. *)
Ltac write_step len k :=
  run; rewrite (write_image_spec len) by (done || places);
  match goal with |- context [EFI_ERROR ?st] => destruct (EFI_ERROR st) end;
  [ exists FAILURE, k; eexists; split; [reflexivity|];
    split; [unfold logged; cbn [log set_log]; rewrite <- ?app_assoc; reflexivity|];
    split; [done|unfold SUCCESS, FAILURE; lia]
  | ].

Lemma write_tables_spec len dev BlkSz P s :
  mem_ok len P -> GPT_HEADER_SIZE <= BlkSz -> backup_at BlkSz + BlkSz <= Z.of_nat len ->
  exists Ret k s', write_tables dev BlkSz MIN_PARTITION_ARRAY_SIZE (backup_at BlkSz) P s = Some (Ret, s') /\
    logged s s' k (table_writes dev BlkSz P) /\ (Ret = SUCCESS \/ Ret = FAILURE) /\
    (Ret = SUCCESS -> k = 5%nat).
Proof.
  intros Hm HB Hlen. unfold write_tables.
  assert (Hsf : FAILURE = SUCCESS \/ FAILURE = FAILURE) by (by right).
  replace (BlkSz + BlkSz) with (entries_at BlkSz) by places.
  write_step len 1%nat. write_step len 2%nat.
  rewrite (GET_LLWORD_spec len P (BlkSz + BACKUP_HEADER_OFFSET)) by (done || places).
  write_step len 3%nat.
  rewrite (GET_LLWORD_spec len P (BlkSz + PARTITION_ENTRIES_OFFSET)) by (done || places).
  write_step len 4%nat.
  rewrite (GET_LLWORD_spec len P (backup_at BlkSz + PARTITION_ENTRIES_OFFSET)) by (done || places).
  write_step len 5%nat. run.
  exists SUCCESS, 5%nat. eexists. split; [reflexivity|].
  split; [unfold logged; cbn [log set_log]; rewrite <- ?app_assoc; reflexivity|].
  split; [by left|done].
Qed.

(** Erasing: nothing happens, or the erasure is logged. *)
Lemma ErasePartition_spec blk h s :
  exists st k s', ErasePartition (Some blk) h s = Some (st, s') /\
    logged s s' k [EraseBlocks (This blk) 0 (GetPartitionSize (Some blk))] /\
    (st = EFI_SUCCESS -> k = 1%nat).
Proof.
  unfold ErasePartition.
  assert (Hrefl : logged s s 0 [EraseBlocks (This blk) 0 (GetPartitionSize (Some blk))]).
  { unfold logged. cbn [take]. rewrite app_nil_r. by destruct s. }
  destruct (GetPartitionSize (Some blk) =? 0).
  { eexists _, 0%nat, s. split; [done|]. split; [done|done]. }
  destruct (EraseBlockProtocol h) as [st g]. unfold is_success. case_bool_decide; cbn [negb].
  2: { eexists st, 0%nat, s. split; [done|]. split; [done|]. intros ->. done. }
  run. unfold do_event. case_bool_decide as Hst; cbn [negb].
  - eexists _, 1%nat, _. split; [reflexivity|]. by split.
  - eexists _, 1%nat, _. split; [reflexivity|]. by split.
Qed.

(** ** Checking the image *)

(** The image can be flashed: it is long enough and both headers are valid. *)
Definition acceptable (Secondary : bool) (Gpt : list Z) (Sz DeviceDensity BlkSz : Z) : Prop :=
  2 * BlkSz < Sz /\ valid_header Secondary Gpt BlkSz DeviceDensity BlkSz /\
  backup_at BlkSz + BlkSz <= Sz /\ valid_header true Gpt (backup_at BlkSz) DeviceDensity BlkSz.

Lemma table_size_is_minimum H CurrentLba Secondary DeviceDensity BlkSz :
  0 <= MaxPtCnt H -> header_in_range Secondary H CurrentLba DeviceDensity BlkSz = true ->
  (let PartEntryArrSz := u32 (PartEntrySz H * MaxPtCnt H) in
   if PartEntryArrSz <? MIN_PARTITION_ARRAY_SIZE then MIN_PARTITION_ARRAY_SIZE else PartEntryArrSz) =
  MIN_PARTITION_ARRAY_SIZE.
Proof.
  intros Hp Hr. apply header_in_range_spec in Hr as (_ & _ & _ & He & Hm). cbn zeta.
  rewrite He, u32_small by (unfold in_u32; lia). unfold MIN_PARTITION_ARRAY_SIZE.
  destruct (Z.ltb_spec (128 * MaxPtCnt H) 0x4000); lia.
Qed.

Lemma prepare_gpt_spec len Gpt Sz DeviceDensity BlkSz s :
  mem_ok len Gpt -> 0 <= Sz <= Z.of_nat len -> GPT_HEADER_SIZE <= BlkSz <= 2 ^ 29 ->
  let acc := acceptable (ParseSecondaryGpt s) Gpt Sz DeviceDensity BlkSz in
  let H2 := header_at Gpt (backup_at BlkSz) in
  (acc -> 0 < MaxPtCnt H2 /\ entry_used Gpt (entries_at BlkSz) 0) ->
  exists Ret Gpt' A S' s',
    prepare_gpt Sz Gpt DeviceDensity BlkSz s = Some ((Ret, Gpt', A, S'), s') /\
    s' = set_ParseSecondaryGpt (ParseSecondaryGpt s') s /\ mem_ok len Gpt' /\
    ((Ret = FAILURE /\ ~ acc) \/
     (Ret = SUCCESS /\ acc /\ A = MIN_PARTITION_ARRAY_SIZE /\ S' = backup_at BlkSz /\
      exists n, patched Gpt Gpt' BlkSz (DeviceDensity / BlkSz) (MaxPtCnt H2) n)).
Proof.
  intros Hm HS HB acc H2 Huse. unfold prepare_gpt.
  assert (Hself : s = set_ParseSecondaryGpt (ParseSecondaryGpt s) s) by (by destruct s).
  rewrite (u32_small (BlkSz * 2)) by (unfold in_u32; offsets).
  destruct (Z.leb_spec Sz (BlkSz * 2)).
  { exists FAILURE, Gpt, 0, 0, s. split; [done|]. split; [done|]. split; [done|]. left.
    split; [done|]. intros []. lia. }
  run. destruct (ParseGptHeader_spec (ParseSecondaryGpt s) len Gpt BlkSz DeviceDensity BlkSz
    (mk_header 0 0 0 0 0)) as (Ret & H1 & Gpt1 & -> & [(-> & Hv1 & -> & ->)|(-> & Hnv & Hm1 & _)]);
    [done|places..| |]; run.
  2: { change (negb (FAILURE =? 0)) with true. exists FAILURE, Gpt1, 0, 0, s. split; [done|].
       split; [done|]. split; [done|]. left. split; [done|]. intros (_ & Hv & _). done. }
  change (negb (SUCCESS =? 0)) with false. cbn iota.
  pose proof (le_range 4 Gpt (BlkSz + PARTITION_COUNT_OFFSET) (proj1 Hm)) as Hcnt1.
  pose proof (table_size_is_minimum (header_at Gpt BlkSz) _ _ _ _ (proj1 (Hcnt1 ltac:(places)
    ltac:(rewrite (proj2 Hm); places))) (valid_range _ _ _ _ _ Hv1)) as Hsize.
  cbn zeta in Hsize |- *. rewrite !Hsize.
  change (u32 (2 * MIN_PARTITION_ARRAY_SIZE)) with 32768.
  rewrite (u32_small (BlkSz * 3)), (u32_small (32768 + _)), (u32_small (32768 + _))
    by (unfold in_u32; offsets).
  destruct (Z.ltb_spec Sz (32768 + BlkSz * 3)).
  { exists FAILURE, Gpt, 0, 0, s. split; [done|]. split; [done|]. split; [done|]. left.
    split; [done|]. intros (_ & _ & Hb & _). places. }
  replace (32768 + BlkSz + BlkSz) with (backup_at BlkSz) by places. run.
  destruct (ParseGptHeader_spec true len Gpt (backup_at BlkSz) DeviceDensity BlkSz
    (header_at Gpt BlkSz)) as (Ret & H2' & Gpt2 & -> & [(-> & Hv2 & -> & ->)|(-> & Hnv & Hm2 & _)]);
    [done|places..| |]; run.
  2: { change (negb (FAILURE =? 0)) with true. eexists FAILURE, Gpt2, 0, 0, _. split; [done|].
       split; [done|]. split; [done|]. left. split; [done|]. intros (_ & _ & _ & Hv). done. }
  change (negb (SUCCESS =? 0)) with false. cbn iota.
  assert (Hacc : acc) by (split; [lia|split; [done|split; [places|done]]]).
  destruct (Huse Hacc) as [Hpos Hused].
  pose proof (proj1 (header_in_range_spec _ _ _ _ _) (valid_range _ _ _ _ _ Hv2))
    as (_ & _ & _ & HPE & HMX).
  destruct (PatchGpt_spec len Gpt DeviceDensity (header_at Gpt (backup_at BlkSz)) BlkSz)
    as (n & Gpt' & -> & Hm' & Hp); [done|places|places|done|done|done|]. run.
  eexists SUCCESS, Gpt', _, _, _. split; [reflexivity|]. split; [done|]. split; [done|]. right.
  split; [done|]. split; [done|]. split; [done|]. split; [done|]. by exists n.
Qed.

(** Everything WriteGpt does to the device, in its order. *)
Definition gpt_events (blk : EFI_BLOCK_IO_PROTOCOL) (P : list Z) : list device_event :=
  EraseBlocks (This blk) 0 (GetPartitionSize (Some blk)) ::
  table_writes (This blk) (BlockSize blk) P.

Lemma WriteGpt_spec len Gpt Lun Sz s h blk :
  mem_ok len Gpt -> 0 <= Sz <= Z.of_nat len ->
  GetStorageHandle Lun MAX_HANDLEINF_LST_SIZE = Some (EFI_SUCCESS, [h]) -> BlkIo h = Some blk ->
  GPT_HEADER_SIZE <= BlockSize blk <= 2 ^ 29 -> GetPartitionSize (Some blk) <> 0 ->
  let acc := acceptable (ParseSecondaryGpt s) Gpt Sz (GetPartitionSize (Some blk)) (BlockSize blk) in
  let H2 := header_at Gpt (backup_at (BlockSize blk)) in
  (acc -> 0 < MaxPtCnt H2 /\ entry_used Gpt (entries_at (BlockSize blk)) 0) ->
  exists Ret Gpt' s',
    WriteGpt Lun Sz Gpt s = Some ((Ret, Gpt'), s') /\ mem_ok len Gpt' /\
    ((~ acc /\ Ret = FAILURE /\ log s' = log s) \/
     (acc /\ (Ret = SUCCESS \/ Ret = FAILURE) /\
      exists n P k,
        patched Gpt P (BlockSize blk) (GetPartitionSize (Some blk) / BlockSize blk) (MaxPtCnt H2) n /\
        log s' = log s ++ take k (gpt_events blk P) /\ (Ret = SUCCESS -> k = 6%nat))).
Proof.
  intros Hm HS Hhandle Hblk HB HD acc H2 Huse. unfold WriteGpt. rewrite Hhandle. run.
  cbn [status_u32 length lookup list_lookup]. change (negb (0 =? 0) || negb (1 =? 1)%nat) with false.
  cbn iota. run. rewrite Hblk. destruct (Z.eqb_spec (GetPartitionSize (Some blk)) 0) as [|_]; [done|]. run.
  destruct (prepare_gpt_spec len Gpt Sz (GetPartitionSize (Some blk)) (BlockSize blk) s Hm HS HB Huse)
    as (Ret & P & A & S' & s1 & -> & Hs1 & HmP & [(-> & Hna)|(-> & Ha & -> & -> & n & Hp)]); run.
  { change (negb (FAILURE =? 0)) with true. exists FAILURE, P, s1. split; [done|]. split; [done|].
    left. split; [done|]. split; [done|]. by rewrite Hs1. }
  change (negb (SUCCESS =? 0)) with false. cbn iota. assert (Hl1 : log s1 = log s) by (by rewrite Hs1).
  run. destruct (ErasePartition_spec blk (Handle h) s1) as (st & k & s2 & -> & Hlog2 & Hk). run.
  unfold is_success. case_bool_decide as Est; cbn [negb].
  2: { exists FAILURE, P, s2. split; [done|]. split; [done|]. right. split; [done|].
       split; [by right|]. exists n, P, (min k 1). split; [done|]. split; [|done].
       rewrite Hlog2. cbn [log set_log]. rewrite Hl1. unfold gpt_events.
       destruct k as [|[|k]]; done. }
  rewrite (Hk Est) in Hlog2. cbn [take] in Hlog2. assert (Hbl : backup_at (BlockSize blk) + BlockSize blk <= Z.of_nat len).
  { destruct Ha as (_ & _ & Ha & _). lia. }
  run. destruct (write_tables_spec len (This blk) (BlockSize blk) P s2 HmP (proj1 HB) Hbl)
    as (Ret & j & s3 & -> & Hlog3 & Hret & Hj). run.
  assert (Hlog : log s3 = log s ++ take (S j) (gpt_events blk P)).
  { rewrite Hlog3. cbn [log set_log]. rewrite Hlog2. cbn [log set_log]. rewrite Hl1.
    unfold gpt_events. cbn [take]. by rewrite <- app_assoc. }
  destruct Hret as [-> | ->].
  - change (negb (SUCCESS =? 0)) with false. cbn iota. run.
    rewrite wr_upd by (rewrite ?repeat_length, ?(proj2 HmP); lia). run.
    eexists SUCCESS, _, _. split; [reflexivity|]. split.
    { split; [apply upd_u8; [apply HmP|]|].
      - apply List.Forall_forall. intros x Hx. apply repeat_spec in Hx as ->.
        unfold in_u8. lia.
      - rewrite upd_length by (rewrite ?repeat_length, ?(proj2 HmP); lia). apply HmP. }
    right. split; [done|]. split; [by left|]. exists n, P, (S j). split; [done|].
    split; [exact Hlog|]. intros _. by rewrite (Hj eq_refl).
  - change (negb (FAILURE =? 0)) with true. cbn iota. exists FAILURE, P, s3. split; [done|].
    split; [done|]. right. split; [done|]. split; [by right|]. by exists n, P, (S j).
Qed.

(** ** Kind of image *)

(** What the first block says: a protective MBR announces a GPT, another MBR does
    not, and without the boot signature the image is taken for a backup. *)
Definition image_kind (Gpt : list Z) : Z :=
  if bool_decide (slice 2 Gpt 510 = [0x55; 0xAA]) then
    if bool_decide (slice 1 Gpt 450 = [GPT_PROTECTIVE]) then PARTITION_TYPE_GPT
    else PARTITION_TYPE_MBR
  else PARTITION_TYPE_GPT_BACKUP.

Lemma PartitionGetType_spec Sz Gpt :
  0 <= Sz <= Z.of_nat (length Gpt) ->
  PartitionGetType Sz Gpt =
    Some (SUCCESS, Some (if Sz <=? 511 then PARTITION_TYPE_GPT_BACKUP else image_kind Gpt)).
Proof.
  intros HS. unfold PartitionGetType, PartitionVerifyMbrSignature, MBR_SIGNATURE.
  change (510 + 1) with 511. destruct (Z.leb_spec Sz 511); [done|].
  rewrite (rd_slice Gpt 510) by lia. bind_step. unfold image_kind.
  rewrite (slice_app 1 1) by lia. change (510 + Z.of_nat 1) with 511.
  assert (Hl : length (slice 1 Gpt 510) = 1%nat) by (apply slice_length; lia).
  assert (Hl' : length (slice 1 Gpt 511) = 1%nat) by (apply slice_length; lia).
  rewrite (rd_slice Gpt 511) by lia.
  destruct (slice 1 Gpt 510) as [|x [|]]; try done.
  destruct (slice 1 Gpt 511) as [|y [|]]; try done. cbn [app]. bind_step.
  unfold MBR_SIGNATURE_BYTE_0, MBR_SIGNATURE_BYTE_1, MbrGetPartitionType.
  change (MBR_PARTITION_RECORD + OS_TYPE) with 450.
  destruct (decide (x = 0x55)) as [->|Hx].
  2: { rewrite (bool_decide_false ([x] = _)) by congruence. cbn [negb].
       rewrite (bool_decide_false ([x; y] = _)) by congruence. done. }
  rewrite (bool_decide_true ([0x55] = _)) by done. cbn [negb].
  destruct (decide (y = 0xAA)) as [->|Hy].
  2: { rewrite (bool_decide_false ([y] = _)), (bool_decide_false ([0x55; y] = _)) by congruence. done. }
  rewrite !(bool_decide_true (_ = _)) by done. change (SUCCESS =? 0) with true. cbn iota.
  destruct (Z.leb_spec Sz 450); [lia|]. rewrite (rd_slice Gpt 450) by lia. bind_step.
  change (SUCCESS =? 0) with true. cbn iota. do 3 f_equal.
  assert (Hl2 : length (slice 1 Gpt 450) = 1%nat) by (apply slice_length; lia).
  destruct (slice 1 Gpt 450) as [|z [|]]; try done. cbn [head hd_error].
  destruct (decide (z = GPT_PROTECTIVE)) as [->|Hz].
  - by rewrite !bool_decide_true by done.
  - by rewrite !bool_decide_false by congruence.
Qed.

Lemma UpdatePartitionTable_spec Gpt Sz Lun s :
  0 <= Sz <= Z.of_nat (length Gpt) ->
  UpdatePartitionTable Gpt Sz Lun s =
    if bool_decide (511 < Sz /\ image_kind Gpt = PARTITION_TYPE_GPT) then
      match WriteGpt Lun Sz Gpt (set_FlashingGpt true s) with
      | Some ((Ret, Gpt'), s') =>
          Some ((if Ret =? SUCCESS then EFI_SUCCESS else EFI_VOLUME_CORRUPTED, Gpt'), s')
      | None => fault
      end
    else Some ((EFI_UNSUPPORTED, Gpt), s).
Proof.
  intros HS. unfold UpdatePartitionTable. run. rewrite PartitionGetType_spec by done. run.
  change (negb (SUCCESS =? 0)) with false. cbn iota.
  destruct (Z.leb_spec Sz 511).
  { rewrite (bool_decide_false (511 < Sz /\ _)) by lia. done. }
  destruct (decide (image_kind Gpt = PARTITION_TYPE_GPT)) as [->|Hk].
  - rewrite !bool_decide_true by done. run.
    destruct (WriteGpt Lun Sz Gpt (set_FlashingGpt true s)) as [[[Ret Gpt'] s']|]; [|done]. run.
    by destruct (Ret =? SUCCESS) eqn:E; unfold SUCCESS in E; rewrite E.
  - rewrite !bool_decide_false; [done|tauto|congruence].
Qed.

(** Checking a header of an image: within the image
    there is no fault, the header is accepted exactly when it is a valid GPT header
    (the text "EFI PART", a size between 92 bytes and a block, the right checksum,
    its block, its range of usable blocks and its table within bounds), its fields
    are returned and the image is untouched; a refused image may have lost the
    stored checksum, and nothing else. *)
Theorem ParseGptHeader_decides Secondary len Gpt hdr DeviceDensity BlkSz H0 :
  mem_ok len Gpt -> GPT_HEADER_SIZE <= BlkSz -> 0 <= hdr -> hdr + BlkSz <= Z.of_nat len ->
  exists Ret H1 Gpt',
    ParseGptHeader Secondary H0 Gpt hdr DeviceDensity BlkSz = Some (Ret, H1, Gpt') /\
    ((Ret = SUCCESS /\ valid_header Secondary Gpt hdr DeviceDensity BlkSz /\
      H1 = header_at Gpt hdr /\ Gpt' = Gpt) \/
     (Ret = FAILURE /\ ~ valid_header Secondary Gpt hdr DeviceDensity BlkSz /\
      mem_ok len Gpt' /\ same_outside [(hdr + HEADER_CRC_OFFSET, 4)] Gpt Gpt')).
Proof. apply ParseGptHeader_spec. Qed.

(** C11 Patching an image for the size of the device: when both
    headers are valid and of the standard size, the table has a first partition
    and the device has room for both tables, patching succeeds inside the image,
    both headers are valid again afterwards, each names the other one, the last
    partition ends at the last usable block in both copies of the table, all four
    checksums are right, and every byte outside the patched fields is as before. *)
Theorem PatchGpt_valid len Gpt DeviceDensity BlkSz :
  mem_ok len Gpt -> GPT_HEADER_SIZE <= BlkSz <= 2 ^ 30 -> backup_at BlkSz + BlkSz <= Z.of_nat len ->
  0 <= DeviceDensity < 2 ^ 64 -> table_blocks BlkSz < DeviceDensity / BlkSz ->
  valid_header false Gpt BlkSz DeviceDensity BlkSz ->
  valid_header true Gpt (backup_at BlkSz) DeviceDensity BlkSz ->
  HeaderSz (header_at Gpt BlkSz) = GPT_HEADER_SIZE ->
  HeaderSz (header_at Gpt (backup_at BlkSz)) = GPT_HEADER_SIZE ->
  0 < MaxPtCnt (header_at Gpt (backup_at BlkSz)) -> entry_used Gpt (entries_at BlkSz) 0 ->
  exists n Gpt',
    PatchGpt Gpt DeviceDensity MIN_PARTITION_ARRAY_SIZE (header_at Gpt (backup_at BlkSz)) BlkSz =
      Some (SUCCESS, Gpt') /\
    mem_ok len Gpt' /\
    patched Gpt Gpt' BlkSz (DeviceDensity / BlkSz) (MaxPtCnt (header_at Gpt (backup_at BlkSz))) n /\
    valid_header false Gpt' BlkSz DeviceDensity BlkSz /\
    valid_header true Gpt' (backup_at BlkSz) DeviceDensity BlkSz.
Proof. apply PatchGpt_headers. Qed.

(** Patching an image whose table is empty is a memory
    error: the offset of the last partition wraps to almost 4 GiB, and the store is
    outside of the image. *)
Theorem PatchGpt_empty_table len Gpt DeviceDensity H BlkSz :
  mem_ok len Gpt -> GPT_HEADER_SIZE <= BlkSz <= 2 ^ 30 -> backup_at BlkSz + BlkSz <= Z.of_nat len ->
  Z.of_nat len < 2 ^ 32 - 88 -> 0 <= MaxPtCnt H <= 128 ->
  MaxPtCnt H = 0 \/ ~ entry_used Gpt (entries_at BlkSz) 0 ->
  PatchGpt Gpt DeviceDensity MIN_PARTITION_ARRAY_SIZE H BlkSz = fault.
Proof. apply PatchGpt_empty_faults. Qed.

(** C6 Flashing a GPT image to a device: it never faults when an
    acceptable image has a partition.  An image that is not acceptable (too short,
    or one of its headers invalid) is refused before anything is erased or written.
    Otherwise what happens to the device is a prefix of one fixed sequence, the
    erasure and then the five writes of the patched image, and it is all of it when
    success is reported. *)
Theorem WriteGpt_effect len Gpt Lun Sz s h blk :
  mem_ok len Gpt -> 0 <= Sz <= Z.of_nat len ->
  GetStorageHandle Lun MAX_HANDLEINF_LST_SIZE = Some (EFI_SUCCESS, [h]) -> BlkIo h = Some blk ->
  GPT_HEADER_SIZE <= BlockSize blk <= 2 ^ 29 -> GetPartitionSize (Some blk) <> 0 ->
  let acc := acceptable (ParseSecondaryGpt s) Gpt Sz (GetPartitionSize (Some blk)) (BlockSize blk) in
  let H2 := header_at Gpt (backup_at (BlockSize blk)) in
  (acc -> 0 < MaxPtCnt H2 /\ entry_used Gpt (entries_at (BlockSize blk)) 0) ->
  exists Ret Gpt' s',
    WriteGpt Lun Sz Gpt s = Some ((Ret, Gpt'), s') /\ mem_ok len Gpt' /\
    ((~ acc /\ Ret = FAILURE /\ log s' = log s) \/
     (acc /\ (Ret = SUCCESS \/ Ret = FAILURE) /\
      exists n P k,
        patched Gpt P (BlockSize blk) (GetPartitionSize (Some blk) / BlockSize blk) (MaxPtCnt H2) n /\
        log s' = log s ++ take k (gpt_events blk P) /\ (Ret = SUCCESS -> k = 6%nat))).
Proof. apply WriteGpt_spec. Qed.

(** The flash entry point: only an image longer than
    its boot sector whose MBR is protective reaches WriteGpt, and its failure is
    reported as a corrupted volume; every other image is unsupported and leaves the
    device and the state as they were. *)
Theorem UpdatePartitionTable_kind Gpt Sz Lun s :
  0 <= Sz <= Z.of_nat (length Gpt) ->
  UpdatePartitionTable Gpt Sz Lun s =
    if bool_decide (511 < Sz /\ image_kind Gpt = PARTITION_TYPE_GPT) then
      match WriteGpt Lun Sz Gpt (set_FlashingGpt true s) with
      | Some ((Ret, Gpt'), s') =>
          Some ((if Ret =? SUCCESS then EFI_SUCCESS else EFI_VOLUME_CORRUPTED, Gpt'), s')
      | None => fault
      end
    else Some ((EFI_UNSUPPORTED, Gpt), s).
Proof. apply UpdatePartitionTable_spec. Qed.
End gpt_spec.

(** ** An image of 34304 bytes for a disk of 4096 blocks *)
Definition demo_header (hdr Lba EntriesLba Count : Z) (Gpt : list Z) : list Z :=
  let fields := [(0, bytes "EFI PART"); (8, le_bytes 4 0x10000); (12, le_bytes 4 92);
    (24, le_bytes 8 Lba); (40, le_bytes 8 34); (48, le_bytes 8 100); (72, le_bytes 8 EntriesLba);
    (80, le_bytes 4 Count); (84, le_bytes 4 128)] in
  let G := fold_left (fun G f => upd G (hdr + fst f) (snd f)) fields Gpt in
  upd G (hdr + 16) (le_bytes 4 (header_crc (FW := demo_Firmware) G hdr 92)).
Definition demo_entry (off : Z) (Gpt : list Z) : list Z :=
  upd Gpt off (le_bytes 8 0x0102030405060708).
Definition demo_blank : list Z :=
  upd (upd (repeat 0 (Z.to_nat 34304)) 510 [0x55; 0xAA]) 450 [0xEE].
Definition demo_image (Count : Z) : list Z :=
  demo_header 33792 4095 4063 Count (demo_header 512 1 2 Count
    (demo_entry (1024 + 16384) (demo_entry 1024 demo_blank))).
Definition demo_density : Z := 4096 * 512.

Definition all_u8 (l : list Z) : bool := forallb (fun b => (0 <=? b) && (b <? 256)) l.
Lemma all_u8_spec l : all_u8 l = true -> Forall in_u8 l.
Proof.
  unfold all_u8. rewrite forallb_forall. intros H. apply List.Forall_forall. intros x Hx.
  specialize (H x Hx). bool_to_prop. unfold in_u8. lia.
Qed.

Lemma demo_image_ok : mem_ok (Z.to_nat 34304) (demo_image 4).
Proof.
  split; [apply all_u8_spec; vm_compute; reflexivity|].
  apply Nat.eqb_eq. vm_compute. reflexivity.
Qed.

Ltac decide_valid :=
  constructor; [vm_compute; reflexivity|vm_compute; split; discriminate|vm_compute; reflexivity
               |vm_compute; reflexivity].
Lemma demo_primary_valid :
  valid_header (FW := demo_Firmware) false (demo_image 4) 512 demo_density 512.
Proof. decide_valid. Qed.
Lemma demo_backup_valid :
  valid_header (FW := demo_Firmware) true (demo_image 4) 33792 demo_density 512.
Proof. decide_valid. Qed.

Lemma ParseGptHeader_decides_witness :
  exists Ret H1 Gpt',
    @ParseGptHeader demo_Firmware false (mk_header 0 0 0 0 0) (demo_image 4) 512 demo_density 512 =
      Some (Ret, H1, Gpt') /\
    ((Ret = SUCCESS /\ valid_header (FW := demo_Firmware) false (demo_image 4) 512 demo_density 512 /\
      H1 = header_at (demo_image 4) 512 /\ Gpt' = demo_image 4) \/
     (Ret = FAILURE /\ ~ valid_header (FW := demo_Firmware) false (demo_image 4) 512 demo_density 512 /\
      mem_ok (Z.to_nat 34304) Gpt' /\
      same_outside [(512 + HEADER_CRC_OFFSET, 4)] (demo_image 4) Gpt')).
Proof.
  exact (ParseGptHeader_decides (FWL := demo_Firmware_laws) false (Z.to_nat 34304)
    (demo_image 4) 512 demo_density 512 (mk_header 0 0 0 0 0) demo_image_ok
    ltac:(unfold GPT_HEADER_SIZE; lia) ltac:(lia) ltac:(lia)).
Defined.

Lemma PatchGpt_valid_witness :
  exists n Gpt',
    @PatchGpt demo_Firmware (demo_image 4) demo_density MIN_PARTITION_ARRAY_SIZE
      (header_at (demo_image 4) (backup_at 512)) 512 = Some (SUCCESS, Gpt') /\
    mem_ok (Z.to_nat 34304) Gpt' /\
    patched (FW := demo_Firmware) (demo_image 4) Gpt' 512 (demo_density / 512)
      (MaxPtCnt (header_at (demo_image 4) (backup_at 512))) n /\
    valid_header (FW := demo_Firmware) false Gpt' 512 demo_density 512 /\
    valid_header (FW := demo_Firmware) true Gpt' (backup_at 512) demo_density 512.
Proof.
  exact (PatchGpt_valid (FWL := demo_Firmware_laws) (Z.to_nat 34304) (demo_image 4)
    demo_density 512 demo_image_ok ltac:(unfold GPT_HEADER_SIZE; lia)
    ltac:(unfold backup_at, MIN_PARTITION_ARRAY_SIZE; lia)
    ltac:(unfold demo_density; lia) ltac:(vm_compute; reflexivity) demo_primary_valid
    demo_backup_valid ltac:(vm_compute; reflexivity) ltac:(vm_compute; reflexivity)
    ltac:(vm_compute; reflexivity) ltac:(left; vm_compute; discriminate)).
Defined.

Lemma PatchGpt_empty_table_witness :
  @PatchGpt demo_Firmware (demo_image 4) demo_density MIN_PARTITION_ARRAY_SIZE
    (mk_header 34 128 92 0 100) 512 = fault.
Proof.
  exact (PatchGpt_empty_table (FW := demo_Firmware) (Z.to_nat 34304) (demo_image 4) demo_density
    (mk_header 34 128 92 0 100) 512 demo_image_ok ltac:(unfold GPT_HEADER_SIZE; lia)
    ltac:(unfold backup_at, MIN_PARTITION_ARRAY_SIZE; lia) ltac:(lia)
    ltac:(cbn [MaxPtCnt]; lia) (or_introl eq_refl)).
Defined.

Lemma demo_image_used :
  0 < MaxPtCnt (header_at (demo_image 4) (backup_at (BlockSize demo_disk))) /\
  entry_used (demo_image 4) (entries_at (BlockSize demo_disk)) 0.
Proof. split; [vm_compute; reflexivity|left; vm_compute; discriminate]. Qed.

Lemma WriteGpt_effect_witness :
  let acc := acceptable (FW := demo_Firmware) (ParseSecondaryGpt boot_init) (demo_image 4) 34304
    (GetPartitionSize (Some demo_disk)) (BlockSize demo_disk) in
  let H2 := header_at (demo_image 4) (backup_at (BlockSize demo_disk)) in
  exists Ret Gpt' s',
    @WriteGpt demo_Firmware 0 34304 (demo_image 4) boot_init = Some ((Ret, Gpt'), s') /\
    mem_ok (Z.to_nat 34304) Gpt' /\
    ((~ acc /\ Ret = FAILURE /\ log s' = log boot_init) \/
     (acc /\ (Ret = SUCCESS \/ Ret = FAILURE) /\
      exists n P k,
        patched (FW := demo_Firmware) (demo_image 4) P (BlockSize demo_disk)
          (GetPartitionSize (Some demo_disk) / BlockSize demo_disk) (MaxPtCnt H2) n /\
        log s' = log boot_init ++ take k (gpt_events demo_disk P) /\ (Ret = SUCCESS -> k = 6%nat))).
Proof.
  apply (WriteGpt_effect (FWL := demo_Firmware_laws) (Z.to_nat 34304) (demo_image 4) 0 34304
    boot_init (mk_handle 1 (Some demo_disk)) demo_disk demo_image_ok).
  - lia.
  - reflexivity.
  - reflexivity.
  - unfold GPT_HEADER_SIZE. cbn [BlockSize demo_disk]. lia.
  - vm_compute. discriminate.
  - intros _. exact demo_image_used.
Defined.

Definition demo_mbr : list Z := upd (upd (repeat 0 600) 510 [0x55; 0xAA]) 450 [0xEE].

Lemma UpdatePartitionTable_kind_witness :
  @UpdatePartitionTable demo_Firmware demo_mbr 600 0 boot_init =
    if bool_decide (511 < 600 /\ image_kind demo_mbr = PARTITION_TYPE_GPT) then
      match @WriteGpt demo_Firmware 0 600 demo_mbr (set_FlashingGpt true boot_init) with
      | Some ((Ret, Gpt'), s') =>
          Some ((if Ret =? SUCCESS then EFI_SUCCESS else EFI_VOLUME_CORRUPTED, Gpt'), s')
      | None => fault
      end
    else Some ((EFI_UNSUPPORTED, demo_mbr), boot_init).
Proof.
  apply (UpdatePartitionTable_kind (FW := demo_Firmware) demo_mbr 600 0 boot_init).
  change (length demo_mbr) with 600%nat. lia.
Defined.

(** Flashing the image works, and takes six device operations. *)
Example demo_flash :
  match @WriteGpt demo_Firmware 0 34304 (demo_image 4) boot_init with
  | Some ((Ret, _), s') => (Ret =? SUCCESS) && (length (log s') =? 6)%nat
  | None => false
  end = true.
Proof. vm_compute. reflexivity. Qed.
