(* ===== verification/Partitions.v ===== *)
(** * The partition list of the boot loader.

    The part of [Platforms/QcomModulePkg/Library/BootLib/PartitionTableUpdate.c]
    that keeps the list of partitions: enumeration, lookup by name, slot suffixes,
    and writing changed attributes and GUIDs back to the tables of a device, with
    [ReadFromPartition] of [Recovery.c], [WriteToPartition] and
    [GetNandMiscPartiGuid] of [LinuxLoaderLib.c]. *)
From stdpp Require Import base numbers list option strings.
From Stdlib Require Import ZArith Lia Ascii.
From S2P Require Import Prelude BaseLib Unicode Storage Bytes Gpt.
Local Open Scope Z_scope.

(** ** Constants of PartitionTableUpdate.h *)
Definition INVALID_PTN : Z := -1.
Definition MIN_SLOTS : Z := 1.
Definition PART_NAME_LEN : nat := 36.
Definition PART_ATT_PRIORITY_BIT : Z := 48.
Definition PART_ATT_ACTIVE_BIT : Z := 50.
Definition PART_ATT_MAX_RETRY_CNT_BIT : Z := 51.
Definition PART_ATT_SUCCESS_BIT : Z := 54.
Definition PART_ATT_UNBOOTABLE_BIT : Z := 55.
Definition PART_ATT_PRIORITY_VAL : Z := Z.shiftl 0x3 PART_ATT_PRIORITY_BIT.
Definition PART_ATT_ACTIVE_VAL : Z := Z.shiftl 0x1 PART_ATT_ACTIVE_BIT.
Definition PART_ATT_MAX_RETRY_COUNT_VAL : Z := Z.shiftl 0x7 PART_ATT_MAX_RETRY_CNT_BIT.
Definition PART_ATT_SUCCESSFUL_VAL : Z := Z.shiftl 0x1 PART_ATT_SUCCESS_BIT.
Definition PART_ATT_UNBOOTABLE_VAL : Z := Z.shiftl 0x1 PART_ATT_UNBOOTABLE_BIT.
Definition MAX_PRIORITY : Z := 3.
Definition PARTITION_ATTRIBUTES : Z := 1.
Definition PARTITION_GUID : Z := 2.
Definition PARTITION_ATTRIBUTES_MASK : Z := 0x1.
Definition PARTITION_GUID_MASK : Z := 0x2.
Definition PTN_ENTRIES_TO_MISC : Z := 1.
Definition PTN_ENTRIES_FROM_MISC : Z := 2.
Definition NANDAB_MAX_SLOTNAME_LEN : nat := 7.
Definition PRIMARY_HDR_LBA : Z := 1.

(** ** Fields of an entry *)

(** The characters of the partition's name: the code units of the array up to
    its terminator, or all of them. *)
Definition name_of (e : PartitionEntry) : list Z := chars_of (PartitionName (PartEntry e)).

(** The name as a string in memory: a fault when the array has no terminator and
    the reader would run past it. *)
Definition name_string (e : PartitionEntry) : option (list Z) :=
  c_string (PartitionName (PartEntry e)) 0.

Definition attributes (e : PartitionEntry) : Z := Attributes (PartEntry e).
Definition set_attributes (a : Z) (e : PartitionEntry) : PartitionEntry :=
  let p := PartEntry e in
  mk_entry (mk_part (PartitionTypeGUID p) (UniquePartitionGUID p) (StartingLBA p) (EndingLBA p) a
    (PartitionName p)) (lun e).
Definition type_guid (e : PartitionEntry) : EFI_GUID := PartitionTypeGUID (PartEntry e).
Definition set_type_guid (g : EFI_GUID) (e : PartitionEntry) : PartitionEntry :=
  let p := PartEntry e in
  mk_entry (mk_part g (UniquePartitionGUID p) (StartingLBA p) (EndingLBA p) (Attributes p)
    (PartitionName p)) (lun e).
Definition set_lun (n : Z) (e : PartitionEntry) : PartitionEntry := mk_entry (PartEntry e) n.

(** The entry after SetMem: every field is zero. *)
Definition zero_entry : PartitionEntry :=
  mk_entry (mk_part (repeat 0 16) (repeat 0 16) 0 0 0 (repeat 0 PART_NAME_LEN)) 0.

(** [Data1] of a GUID: its first four bytes. *)
Definition guid_Data1 (g : EFI_GUID) : option Z := GET_LWORD_FROM_BYTE g 0.

(** ** Access to the static arrays: a fault outside of them *)
Definition ptn_entry (i : nat) : B PartitionEntry :=
  es ← gets PtnEntries; access (es !! i).
Definition update_entry (i : nat) (f : PartitionEntry -> PartitionEntry) : B unit :=
  e ← ptn_entry i;
  es ← gets PtnEntries;
  modify (set_PtnEntries (<[i := f e]> es)).

(** ** Settings other modules of the boot loader hold *)

(** The macros of the build. *)
Class BuildConfig := {
  USER_BUILD_VARIANT : bool;
  AB_RETRYCOUNT_DISABLE : bool;
  DYNAMIC_PARTITION_SUPPORT : bool
}.
(** Flags and readings at boot: the fastboot thread's split flag, the test image
    flag, and what [IsABRetryCountUpdateRequired] asks for. *)
Class BootMode := {
  IsFlashSplitNeeded : bool;
  BootDevImage : bool;
  BatteryStatus : bool;
  IsChargingScreenEnable : bool;
  BootIntoFastboot : bool;
  BootIntoRecovery : bool
}.
Definition TargetBuildVariantUser {BC : BuildConfig} : bool :=
  if USER_BUILD_VARIANT then true else false.
Definition IsABRetryCountDisabled {BC : BuildConfig} : bool :=
  if AB_RETRYCOUNT_DISABLE then true else false.
Definition IsBootDevImage {BM : BootMode} : bool := BootDevImage.
Definition IsABRetryCountUpdateRequired {BM : BootMode} : bool :=
  if (BatteryStatus && IsChargingScreenEnable) || BootIntoFastboot || BootIntoRecovery
  then false else true.

Section partitions.
Context {FW : Firmware} {BL : BaseLib} {UL : UnicodeLib} {BM : BootMode}.

(** ** Lookups *)
Definition GetMaxLuns : B nat := gets MaxLuns.
Definition GetPartitionCount : B nat := gets PartitionCount.
Definition GetPartitionLunFromIndex (Index : nat) : B Z :=
  e ← ptn_entry Index; mret (lun e).

(** The loop over the entries of a LUN, counting them. *)
Fixpoint lun_index_loop (es : list PartitionEntry) (Pname : list Z) (Lun : Z)
    (count n : nat) (RelativeIndex : Z) : option Z :=
  match count with
  | O => Some INVALID_PTN
  | S count' =>
    e ← es !! n;
    if Lun =? lun e then
      if StrnCmp Pname (name_of e) PART_NAME_LEN =? 0 then Some RelativeIndex
      else lun_index_loop es Pname Lun count' (S n) (u32 (RelativeIndex + 1))
    else lun_index_loop es Pname Lun count' (S n) RelativeIndex
  end.
Definition GetPartitionIdxInLun (Pname : list Z) (Lun : Z) : B Z :=
  count ← gets PartitionCount;
  es ← gets PtnEntries;
  access (lun_index_loop es Pname Lun count 0 0).

Fixpoint name_index_loop (es : list PartitionEntry) (Pname : list Z) (count i : nat)
  : option (option nat) :=
  match count with
  | O => Some None
  | S count' =>
    e ← es !! i;
    if StrnCmp (name_of e) Pname PART_NAME_LEN =? 0 then Some (Some i)
    else name_index_loop es Pname count' (S i)
  end.

(** [None] stands for [INVALID_PTN]. *)
Definition GetPartitionIndex (Pname : list Z) : B (option nat) :=
  count ← gets PartitionCount;
  es ← gets PtnEntries;
  access (name_index_loop es Pname count 0).

(** The loop counts names that continue with "_a" or "_b" and stops at two. *)
Fixpoint multi_slot_loop (es : list PartitionEntry) (Pname : list Z) (count i : nat)
    (SlotCount : Z) : option bool :=
  match count with
  | O => Some false
  | S count' =>
    e ← es !! i;
    let Len := StrLen Pname in
    if StrnCmp (name_of e) Pname Len =? 0 then
      c ← PartitionName (PartEntry e) !! Len;
      if c =? ch "_" then
        d ← PartitionName (PartEntry e) !! S Len;
        if (d =? ch "a") || (d =? ch "b") then
          if MIN_SLOTS <? u32 (SlotCount + 1) then Some true
          else multi_slot_loop es Pname count' (S i) (u32 (SlotCount + 1))
        else multi_slot_loop es Pname count' (S i) SlotCount
      else multi_slot_loop es Pname count' (S i) SlotCount
    else multi_slot_loop es Pname count' (S i) SlotCount
  end.
Definition PartitionHasMultiSlot (Pname : list Z) : B bool :=
  count ← gets PartitionCount;
  es ← gets PtnEntries;
  access (multi_slot_loop es Pname count 0 0).

(** [&PtnEntries[Index]], or NULL. *)
Definition GetPartitionEntry (Partition : list Z) : B (option nat) :=
  GetPartitionIndex Partition.

(** A [Slot]: the characters of its [Suffix] up to the terminator. *)
Record Slot := mk_slot { Suffix : list Z }.
Definition empty_slot : Slot := mk_slot [].
Definition slot_a : Slot := mk_slot (bytes "_a").
Definition slot_b : Slot := mk_slot (bytes "_b").

(** The index of the boot partition of a slot, [None] for NULL. *)
Definition GetBootPartitionEntry (BootSlot : Slot) : B (option nat) :=
  let n := StrLen (Suffix BootSlot) in
  if StrnCmp (bytes "_a") (Suffix BootSlot) n =? 0 then GetPartitionIndex (bytes "boot_a")
  else if StrnCmp (bytes "_b") (Suffix BootSlot) n =? 0 then GetPartitionIndex (bytes "boot_b")
  else mret None.

(** ** Enumeration *)
Fixpoint enumerate_luns (count i : nat) (Status : EFI_STATUS) : B EFI_STATUS :=
  match count with
  | O => mret Status
  | S count' =>
    let (Status, handles) :=
      GetBlkIOHandles BLK_IO_SEL_MATCH_ROOT_DEVICE (mk_filter (Some (gEfiUfsLUGuid i)) None)
        MAX_NUM_PARTITIONS in
    table ← gets Ptable;
    _ ← modify (set_Ptable (<[i := handles]> table));
    enumerate_luns count' (S i) Status
  end.

(** One root device as LUN 0. *)
Definition enumerate_root (dev : RootDevice) : B (EFI_STATUS * nat) :=
  let (Status, handles) :=
    GetBlkIOHandles BLK_IO_SEL_MATCH_ROOT_DEVICE (mk_filter (Some dev) None) MAX_NUM_PARTITIONS in
  table ← gets Ptable;
  _ ← modify (set_Ptable (<[0%nat := handles]> table));
  mret (Status, length handles).

Definition EnumeratePartitions : B EFI_STATUS :=
  _ ← modify (set_Ptable (repeat [] MAX_LUNS));
  nand ← enumerate_root gEfiNandUserPartitionGuid;
  if is_success (fst nand) && (0 <? snd nand)%nat then
    _ ← modify (set_MaxLuns 1); mret (fst nand)
  else
    emmc ← enumerate_root gEfiEmmcUserPartitionGuid;
    if is_success (fst emmc) && (0 <? snd emmc)%nat then
      _ ← modify (set_MaxLuns 1); mret (fst emmc)
    else if EFI_ERROR (fst emmc) || (snd emmc =? 0)%nat then
      Status ← enumerate_luns MAX_LUNS 0 (fst emmc);
      _ ← modify (set_MaxLuns MAX_LUNS);
      mret Status
    else mret EFI_NOT_FOUND.

(** ** The misc partition of NAND devices *)
Definition misc_filter (Ptype : EFI_GUID) : Z * PartiSelectFilter :=
  (Z.lor (Z.lor BLK_IO_SEL_PARTITIONED_GPT BLK_IO_SEL_MEDIA_TYPE_NON_REMOVABLE)
     BLK_IO_SEL_MATCH_PARTITION_TYPE_GUID, mk_filter None (Some Ptype)).

Definition GetNandMiscPartiGuid (Ptype : EFI_GUID) : EFI_STATUS * EFI_GUID :=
  if negb (is_success LocateNandPartiGuid) then (LocateNandPartiGuid, Ptype) else
  let (Status, guid) := GenMiscGuid in
  if negb (is_success Status) then (Status, Ptype) else (Status, guid).

(** The single handle the partition type selects. *)
Definition one_handle (Ptype : EFI_GUID) : EFI_STATUS * option HandleInfo :=
  let (Status, handles) := GetBlkIOHandles (fst (misc_filter Ptype)) (snd (misc_filter Ptype)) 1 in
  if is_success Status then
    match handles with
    | [] => (EFI_NO_MEDIA, None)
    | [h] => (EFI_SUCCESS, Some h)
    | _ => (EFI_LOAD_ERROR, None)
    end
  else (Status, None).

Definition ReadFromPartitionOffset (Ptype : EFI_GUID) (Size Offset : Z)
  : B (EFI_STATUS * option (list Z)) :=
  match one_handle Ptype with
  | (EFI_SUCCESS, Some h) =>
    blk ← access (BlkIo h);
    let MsgSize := ROUND_TO_PAGE Size (u32 (BlockSize blk - 1)) in
    let PartitionSize := GetPartitionSize (BlkIo h) in
    if (PartitionSize <? MsgSize) || (PartitionSize =? 0) then mret (EFI_OUT_OF_RESOURCES, None) else
    if negb (PoolAvailable 0 MsgSize) then mret (EFI_OUT_OF_RESOURCES, None) else
    if negb (Offset mod BlockSize blk =? 0)
    then mret (EFI_INVALID_PARAMETER, Some (repeat 0 (Z.to_nat MsgSize))) else
    l ← gets log;
    let (Status, Msg) := ReadBlocks l (This blk) (Offset / BlockSize blk) MsgSize in
    mret (Status, if is_success Status then Some Msg else None)
  | (Status, _) => mret (Status, None)
  end.
Definition ReadFromPartition (Ptype : EFI_GUID) (Size : Z) : B (EFI_STATUS * option (list Z)) :=
  ReadFromPartitionOffset Ptype Size 0.

Definition WriteToPartition (Ptype : EFI_GUID) (Msg : option (list Z)) (MsgSize : Z)
  : B EFI_STATUS :=
  match Msg with
  | None => mret EFI_INVALID_PARAMETER
  | Some _ =>
    match one_handle Ptype with
    | (EFI_SUCCESS, Some h) =>
        WriteBlockToPartition IsFlashSplitNeeded (BlkIo h) (Some (Handle h)) 0 MsgSize Msg
    | (Status, _) => mret Status
    end
  end.

(** The structure NandABAttr in memory: per slot one attribute byte, a padding
    byte and seven code units. *)
Definition NANDAB_SLOT_SIZE : Z := 16.
Definition SIZEOF_NandABAttr : Z := 32.
Fixpoint units_of (bs : list Z) : list Z :=
  match bs with lo :: hi :: bs' => le_value [lo; hi] :: units_of bs' | _ => [] end.
Definition bytes_of_units (us : list Z) : list Z := concat (le_bytes 2 <$> us).

(** The sizes in bytes the code uses as lengths. *)
Definition SIZEOF_SlotName : nat := 14.
Definition SIZEOF_EntryName : nat := 72.

(** One slot of the loop of NandABUpdatePartition; the result is the status and
    the buffer.  The status of the copy is dropped; a name that fits the size in
    bytes but not the array overflows it. *)
Definition nand_ab_slot (UpdateType : Z) (SlotIndex : Z) (S_ : Slot) (NandAttr : list Z)
  : B (EFI_STATUS * list Z) :=
  found ← GetBootPartitionEntry S_;
  match found with
  | None => mret (EFI_NOT_FOUND, NandAttr)
  | Some i =>
    e ← ptn_entry i;
    let off := SlotIndex * NANDAB_SLOT_SIZE in
    if UpdateType =? PTN_ENTRIES_TO_MISC then
      NandAttr ← access (wr NandAttr off
        [u8 (Z.land (Z.shiftr (attributes e) PART_ATT_PRIORITY_BIT) 0xff)]);
      name ← access (name_string e);
      raw ← access (rd NandAttr (off + 2) SIZEOF_SlotName);
      let (Copied, chars) := StrnCpyS (chars_of (units_of raw)) SIZEOF_SlotName name
        SIZEOF_EntryName in
      if negb (is_success Copied) then mret (EFI_SUCCESS, NandAttr) else
      if (NANDAB_MAX_SLOTNAME_LEN <? S (length chars))%nat then crash else
      NandAttr ← access (wr NandAttr (off + 2) (bytes_of_units (chars ++ [0])));
      mret (EFI_SUCCESS, NandAttr)
    else
      raw ← access (rd NandAttr (off + 2) SIZEOF_SlotName);
      if StrnCmp (name_of e) (chars_of (units_of raw)) SIZEOF_SlotName =? 0 then
        a ← access (rd NandAttr off 1);
        _ ← update_entry i (set_attributes
              (u64 (Z.shiftl (Z.land (default 0 (head a)) 0xff) PART_ATT_PRIORITY_BIT)));
        mret (EFI_SUCCESS, NandAttr)
      else mret (EFI_SUCCESS, NandAttr)
  end.

Definition NandABUpdatePartition (UpdateType : Z) : B EFI_STATUS :=
  PageSize ← GetPageSize;
  let (Status, Ptype) := GetNandMiscPartiGuid gEfiMiscPartitionGuid in
  if negb (is_success Status) then mret Status else
  read ← ReadFromPartition Ptype PageSize;
  let (Status, NandAttr) := read : EFI_STATUS * option (list Z) in
  if negb (is_success Status) then mret Status else
  match NandAttr with
  | None => mret EFI_INVALID_PARAMETER
  | Some NandAttr =>
    r ← nand_ab_slot UpdateType 0 slot_a NandAttr;
    if negb (is_success (fst r)) then mret (fst r) else
    r ← nand_ab_slot UpdateType 1 slot_b (snd r);
    if negb (is_success (fst r)) then mret (fst r) else
    if UpdateType =? PTN_ENTRIES_TO_MISC then
      _ ← WriteToPartition Ptype (Some (snd r)) SIZEOF_NandABAttr;
      mret Status
    else mret Status
  end.

(** ** The list of partitions *)

(** The handles of one LUN: an entry each, as long as the array has room. *)
Fixpoint fill_lun (handles : list HandleInfo) (i : Z) (Index : nat) : B nat :=
  match handles with
  | [] => mret Index
  | h :: handles' =>
    if (Index <? MAX_NUM_PARTITIONS)%nat then
      let (Status, record) := PartitionRecord (Handle h) in
      count ← gets PartitionCount;
      _ ← modify (set_PartitionCount (S count));
      _ ← (if EFI_ERROR Status then update_entry Index (set_lun i)
           else update_entry Index (fun _ => mk_entry record i));
      fill_lun handles' i (S Index)
    else mret Index
  end.

Fixpoint fill_luns (count i : nat) (Index : nat) : B unit :=
  match count with
  | O => mret tt
  | S count' =>
    table ← gets Ptable;
    handles ← access (table !! i);
    Index ← fill_lun handles (Z.of_nat i) Index;
    fill_luns count' (S i) Index
  end.

Definition UpdatePartitionEntries : B unit :=
  _ ← modify (set_PartitionCount 0);
  _ ← modify (set_PtnEntries (repeat zero_entry MAX_NUM_PARTITIONS));
  luns ← gets MaxLuns;
  _ ← fill_luns luns 0 0;
  Type_ ← CheckRootDeviceType;
  _ ← (if bool_decide (Type_ = NAND)
       then (_ ← NandABUpdatePartition PTN_ENTRIES_FROM_MISC; mret tt : B unit) else mret tt);
  es ← gets PtnEntries;
  modify (set_PtnEntriesBak es).

(** ** Writing changed entries back *)

(** The comparison with the backup copy is commented out in the code. *)
Definition IsUpdatePartitionAttributes : bool := false.

(** The loop over the entries, lines 325-386, on the table in [buf].  [ptr] is
    [PtnEntriesPtr], [Skip] is [SkipUpdation]. *)
Fixpoint update_entries_loop (UpdateType : Z) (Ufs : bool) (Lun : Z) (es : list PartitionEntry)
    (count i : nat) (bak : list PartitionEntry) (buf : list Z) (ptr : Z) (Skip : bool)
  : option (list PartitionEntry * list Z * bool) :=
  match count with
  | O => Some (bak, buf, Skip)
  | S count' =>
    e ← es !! i;
    d1 ← guid_Data1 (type_guid e);
    if d1 =? 0 then update_entries_loop UpdateType Ufs Lun es count' (S i) bak buf ptr Skip else
    if Ufs && (Lun <? lun e) then Some (bak, buf, Skip) else
    if Ufs && negb (lun e =? Lun)
    then update_entries_loop UpdateType Ufs Lun es count' (S i) bak buf ptr Skip else
    Attr ← GET_LLWORD_FROM_BYTE buf (ptr + ATTRIBUTE_FLAG_OFFSET);
    guid ← rd buf ptr 16;
    '(bak, buf, Skip) ←
      (if negb (Z.land UpdateType PARTITION_GUID_MASK =? 0) && negb (bool_decide (guid = type_guid e))
       then buf ← wr buf ptr (type_guid e);
            Some (alter (set_type_guid (type_guid e)) i bak, buf, false)
       else Some (bak, buf, Skip));
    if negb (Z.land UpdateType PARTITION_ATTRIBUTES_MASK =? 0) then
      guid ← rd buf ptr 16;
      d ← guid_Data1 guid;
      if (d =? 0) || bool_decide (guid = type_guid e) then
        if negb (Attr =? attributes e) then
          buf ← PUT_LONG_LONG buf (ptr + ATTRIBUTE_FLAG_OFFSET) (attributes e);
          update_entries_loop UpdateType Ufs Lun es count' (S i)
            (alter (set_attributes (attributes e)) i bak) buf (ptr + PARTITION_ENTRY_SIZE) false
        else update_entries_loop UpdateType Ufs Lun es count' (S i) bak buf
               (ptr + PARTITION_ENTRY_SIZE) Skip
      else update_entries_loop UpdateType Ufs Lun es count' (S i) bak buf ptr Skip
    else update_entries_loop UpdateType Ufs Lun es count' (S i) bak buf
           (ptr + PARTITION_ENTRY_SIZE) Skip
  end.

(** The checksums of a changed table, lines 391-424: [None] inside is [goto Exit]. *)
Definition update_crcs (buf : list Z) (hdr ents : Z) : option (option (list Z)) :=
  MaxPtnCount ← GET_LWORD_FROM_BYTE buf (hdr + PARTITION_COUNT_OFFSET);
  PtnEntrySz ← GET_LWORD_FROM_BYTE buf (hdr + PENTRY_SIZE_OFFSET);
  if MAX_PARTITION_ENTRIES_SZ <? u64 (MaxPtnCount * PtnEntrySz) then Some None else
  '(Status, CrcVal) ← crc_of buf ents (u32 (MaxPtnCount * PtnEntrySz));
  if negb (is_success Status) then Some None else
  buf ← PUT_LONG buf (hdr + PARTITION_CRC_OFFSET) CrcVal;
  buf ← PUT_LONG buf (hdr + HEADER_CRC_OFFSET) 0;
  '(Status, CrcVal) ← crc_of buf hdr GPT_HEADER_SIZE;
  if negb (is_success Status) then Some None else
  buf ← PUT_LONG buf (hdr + HEADER_CRC_OFFSET) CrcVal;
  Some (Some buf).

(** One copy of the table: [true] to go on with the next one, [false] for Exit. *)
Definition update_copy (UpdateType : Z) (Ufs : bool) (Lun : Z) (blk : EFI_BLOCK_IO_PROTOCOL)
    (Backup : bool) (Offset Bytes_ : Z) : B bool :=
  l ← gets log;
  let (Status, buf) := ReadBlocks l (This blk) Offset Bytes_ in
  if EFI_ERROR Status then mret false else
  let BlkSz := BlockSize blk in
  let hdr := if Backup then MAX_PARTITION_ENTRIES_SZ / BlkSz * BlkSz else 0 in
  let ents := if Backup then 0 else BlkSz in
  es ← gets PtnEntries;
  bak ← gets PtnEntriesBak;
  count ← gets PartitionCount;
  r ← access (update_entries_loop UpdateType Ufs Lun es count 0 bak buf ents true);
  let '(bak, buf, Skip) := r : list PartitionEntry * list Z * bool in
  _ ← modify (set_PtnEntriesBak bak);
  if Skip then mret true else
  crcs ← access (update_crcs buf hdr ents);
  match crcs : option (list Z) with
  | None => mret false
  | Some buf =>
    Status ← do_event (WriteBlocks (This blk) Offset buf);
    mret (negb (EFI_ERROR Status))
  end.

(** Both copies of the table of one LUN; [false] ends the whole update. *)
Definition update_device (UpdateType : Z) (Ufs : bool) (Lun : Z) (h : HandleInfo) : B bool :=
  let DeviceDensity := GetPartitionSize (BlkIo h) in
  if DeviceDensity =? 0 then mret false else
  blk ← access (BlkIo h);
  let BlkSz := BlockSize blk in
  let Bytes_ := u32 (u32 (GPT_HDR_BLOCKS + MAX_PARTITION_ENTRIES_SZ / BlkSz) * BlkSz) in
  let CardSizeSec := DeviceDensity / BlkSz in
  if negb (PoolAvailable 0 Bytes_) then mret false else
  ok ← update_copy UpdateType Ufs Lun blk false PRIMARY_HDR_LBA Bytes_;
  if negb ok then mret false else
  update_copy UpdateType Ufs Lun blk true (u32 (CardSizeSec - Bytes_ / BlkSz)) Bytes_.

(** The loop over the LUNs.  [MaxHandles] keeps the count of the previous call. *)
Fixpoint update_luns (UpdateType : Z) (BootDeviceType : list Z) (count : nat) (Lun : Z)
    (MaxHandles : nat) : B unit :=
  match count with
  | O => mret tt
  | S count' =>
    let Ufs := is_prefix_of (bytes "UFS") BootDeviceType in
    if is_prefix_of (bytes "EMMC") BootDeviceType || Ufs then
      handles ← access (GetStorageHandle
        (if is_prefix_of (bytes "EMMC") BootDeviceType then NO_LUN else Lun) MaxHandles);
      let (Status, BlockIoHandle) := handles : EFI_STATUS * list HandleInfo in
      if negb (is_success Status) then mret tt else
      match BlockIoHandle with
      | [h] =>
        ok ← update_device UpdateType Ufs Lun h;
        if negb ok then mret tt
        else update_luns UpdateType BootDeviceType count' (Lun + 1) (length BlockIoHandle)
      | _ => update_luns UpdateType BootDeviceType count' (Lun + 1) (length BlockIoHandle)
      end
    else if is_prefix_of (bytes "NAND") BootDeviceType then
      if negb (Z.land UpdateType PARTITION_ATTRIBUTES_MASK =? 0) then
        (_ ← NandABUpdatePartition PTN_ENTRIES_TO_MISC;
         es ← gets PtnEntries;
         modify (set_PtnEntriesBak es) : B unit)
      else mret tt
    else mret tt
  end.

Definition UpdatePartitionAttributes (UpdateType : Z) : B unit :=
  if negb IsUpdatePartitionAttributes then mret tt else
  BootDeviceType ← GetRootDeviceType BOOT_DEV_NAME_SIZE_MAX;
  luns ← gets MaxLuns;
  update_luns UpdateType BootDeviceType luns 0 MAX_HANDLEINF_LST_SIZE.
End partitions.
