(* ===== verification/Slots.v ===== *)
(** * A/B slots.

    The slot functions of
    [Platforms/QcomModulePkg/Library/BootLib/PartitionTableUpdate.c]: which slot
    is active, making another one active, giving up on a slot that does not boot,
    and choosing the slot to boot.  A pointer into [PtnEntries] is an index, NULL
    is [None]. *)
From stdpp Require Import base numbers list option strings.
From Stdlib Require Import ZArith Lia Ascii.
From S2P Require Import Prelude BaseLib Unicode Storage Bytes Gpt Partitions.
Local Open Scope Z_scope.

Definition BOOT_PART_SIZE : nat := 32.
Definition MAX_SLOT_SUFFIX_SZ : nat := 3.
Definition SIZEOF_PartName : nat := 64.
Definition SIZEOF_BootPartsLinkedList : Z := 72.

(** [a & ~mask] and [(a & mask) >> bit] on UINT64. *)
Definition clear_bits (a mask : Z) : Z := Z.land a (u64 (Z.lnot mask)).
Definition bit_field (a mask bit : Z) : Z := Z.shiftr (Z.land a mask) bit.

Section slots.
Context {FW : Firmware} {BL : BaseLib} {UL : UnicodeLib} {BM : BootMode} {BC : BuildConfig}.

Definition has_bits (a mask : Z) : bool := negb (Z.land a mask =? 0).
Definition priority_of (a : Z) : Z := bit_field a PART_ATT_PRIORITY_VAL PART_ATT_PRIORITY_BIT.

Definition change_attributes (i : nat) (f : Z -> Z) : B unit :=
  update_entry i (fun e => set_attributes (f (attributes e)) e).

(** ** Marking the active slot *)
Definition mark_entry (ActiveSlot name : list Z) (e : PartitionEntry) : PartitionEntry :=
  set_attributes
    (match StrStr name ActiveSlot with
     | Some _ => Z.lor (attributes e) PART_ATT_ACTIVE_VAL
     | None => clear_bits (attributes e) PART_ATT_ACTIVE_VAL
     end) e.

Fixpoint mark_loop (ActiveSlot : list Z) (count i : nat) : B unit :=
  match count with
  | O => mret tt
  | S count' =>
    e ← ptn_entry i;
    name ← access (name_string e);
    _ ← update_entry i (mark_entry ActiveSlot name);
    mark_loop ActiveSlot count' (S i)
  end.

Definition MarkPtnActive (ActiveSlot : list Z) : B unit :=
  count ← gets PartitionCount;
  _ ← mark_loop ActiveSlot count 0;
  UpdatePartitionAttributes PARTITION_ATTRIBUTES.

(** ** Swapping the GUIDs of the slots' partitions *)
Definition SwapPtnGuid (p1 p2 : option nat) : B unit :=
  match p1, p2 with
  | Some i, Some j =>
    e1 ← ptn_entry i;
    let Temp := type_guid e1 in
    e2 ← ptn_entry j;
    _ ← update_entry i (set_type_guid (type_guid e2));
    update_entry j (set_type_guid Temp)
  | _, _ => mret tt
  end.

Definition is_found (o : option nat) : bool := negb (bool_decide (o = None)).

(** The inner loop of GetMultiSlotPartsList: does a later partition have the same
    name up to its last character?  Then the base name is put on the list.  The
    bound given to [StrnCpyS] is the array's size in bytes, twice its length. *)
Fixpoint multi_slot_pair (i count j : nat) : B EFI_STATUS :=
  match count with
  | O => mret EFI_SUCCESS
  | S count' =>
    ej ← ptn_entry j;
    first ← access (head (PartitionName (PartEntry ej)));
    if first =? 0 then multi_slot_pair i count' (S j) else
    ei ← ptn_entry i;
    SearchString ← access (name_string ei);
    let Len := StrLen SearchString in
    name ← access (name_string ej);
    let PtnLen := StrLen name in
    if (PtnLen =? Len)%nat && (StrnCmp name SearchString (Len - 1) =? 0) &&
       (is_found (StrStr SearchString (bytes "_a")) || is_found (StrStr SearchString (bytes "_b")))
    then
      nodes ← gets HeadNode;
      if PoolAvailable (length nodes) SIZEOF_BootPartsLinkedList then
        let PartName := snd (StrnCpyS [] SIZEOF_PartName SearchString (Len - 2)) in
        if (BOOT_PART_SIZE <? S (length PartName))%nat then crash else
        _ ← modify (set_HeadNode (PartName :: nodes));
        mret EFI_SUCCESS
      else mret EFI_OUT_OF_RESOURCES
    else multi_slot_pair i count' (S j)
  end.

Fixpoint multi_slot_parts (total count i : nat) : B EFI_STATUS :=
  match count with
  | O => mret EFI_SUCCESS
  | S count' =>
    e ← ptn_entry i;
    first ← access (head (PartitionName (PartEntry e)));
    if first =? 0 then multi_slot_parts total count' (S i) else
    Status ← multi_slot_pair i (total - S i) (S i);
    if negb (is_success Status) then mret Status else multi_slot_parts total count' (S i)
  end.

Definition GetMultiSlotPartsList : B EFI_STATUS :=
  count ← gets PartitionCount;
  multi_slot_parts count count 0.

(** The entries of the two slots of one partition: the last match of each. *)
Fixpoint slot_pair_loop (es : list PartitionEntry) (CurSlot NewSlot : list Z) (count i : nat)
    (PtnCurrent PtnNew : option nat) : option (option nat * option nat) :=
  match count with
  | O => Some (PtnCurrent, PtnNew)
  | S count' =>
    e ← es !! i;
    if StrnCmp (name_of e) CurSlot (StrLen CurSlot) =? 0 then
      slot_pair_loop es CurSlot NewSlot count' (S i) (Some i) PtnNew
    else if StrnCmp (name_of e) NewSlot (StrLen NewSlot) =? 0 then
      slot_pair_loop es CurSlot NewSlot count' (S i) PtnCurrent (Some i)
    else slot_pair_loop es CurSlot NewSlot count' (S i) PtnCurrent PtnNew
  end.

(** A base name with a suffix, in an array of [BOOT_PART_SIZE] units. *)
Definition slot_name (PartName Suffix_ : list Z) : list Z :=
  let base := snd (StrnCpyS [] BOOT_PART_SIZE PartName (StrLen PartName)) in
  snd (StrnCatS base BOOT_PART_SIZE Suffix_ (StrLen Suffix_)).

Fixpoint switch_nodes (nodes : list (list Z)) (SetActive SetInactive : list Z) : B unit :=
  match nodes with
  | [] => mret tt
  | PartName :: nodes' =>
    let CurSlot := slot_name PartName SetInactive in
    let NewSlot := slot_name PartName SetActive in
    count ← gets PartitionCount;
    es ← gets PtnEntries;
    pair_ ← access (slot_pair_loop es CurSlot NewSlot count 0 None None);
    _ ← SwapPtnGuid (fst pair_) (snd pair_);
    switch_nodes nodes' SetActive SetInactive
  end.

Definition starts_with (s prefix : list Z) : bool := StrnCmp s prefix (StrLen prefix) =? 0.

Definition is_ufs : B bool :=
  BootDeviceType ← GetRootDeviceType BOOT_DEV_NAME_SIZE_MAX;
  mret (AsciiStrnCmp BootDeviceType (bytes "UFS") (AsciiStrLen (bytes "UFS")) =? 0).

(** On UFS the boot LUN follows the slot. *)
Definition switch_boot_lun (SetActive : list Z) : B unit :=
  got ← UfsGetSetBootLun 0 true;
  let UfsBootLun := snd got in
  let UfsBootLun :=
    if (UfsBootLun =? 0x1) && starts_with SetActive (bytes "_b") then 0x2
    else if (UfsBootLun =? 0x2) && starts_with SetActive (bytes "_a") then 0x1
    else UfsBootLun in
  _ ← UfsGetSetBootLun UfsBootLun false;
  mret tt.

Definition SwitchPtnSlots (SetActive : list Z) : B unit :=
  let SetInactive :=
    if starts_with SetActive (bytes "_a")
    then snd (StrnCpyS [] MAX_SLOT_SUFFIX_SZ (bytes "_b") (StrLen (bytes "_b")))
    else snd (StrnCpyS [] MAX_SLOT_SUFFIX_SZ (bytes "_a") (StrLen (bytes "_a"))) in
  nodes ← gets HeadNode;
  Status ← match nodes with [] => GetMultiSlotPartsList | _ => mret EFI_SUCCESS end;
  if negb (is_success Status) then mret tt else
  nodes ← gets HeadNode;
  _ ← switch_nodes nodes SetActive SetInactive;
  Ufs ← is_ufs;
  _ ← (if Ufs : bool then switch_boot_lun SetActive else mret tt);
  UpdatePartitionAttributes PARTITION_GUID.

(** ** The active slot *)
Definition IsSuffixEmpty (CheckSlot : option Slot) : bool :=
  match CheckSlot with
  | None => true
  | Some s => (StrLen (Suffix s) =? 0)%nat
  end.

(** The search through the slots: the slot found so far, and its priority.  The
    copy of the suffix is guarded. *)
Fixpoint active_slot_loop (Slots : list Slot) (ActiveSlot : Slot) (Priority : Z)
  : B (EFI_STATUS * Slot) :=
  match Slots with
  | [] => mret (EFI_SUCCESS, ActiveSlot)
  | slot :: Slots' =>
    found ← GetBootPartitionEntry slot;
    match found with
    | None => mret (EFI_NOT_FOUND, ActiveSlot)
    | Some i =>
      e ← ptn_entry i;
      let BootPriority := priority_of (attributes e) in
      if has_bits (attributes e) PART_ATT_ACTIVE_VAL && (Priority <? BootPriority) then
        let (Status, chars) :=
          StrnCpyS (Suffix ActiveSlot) MAX_SLOT_SUFFIX_SZ (Suffix slot) (StrLen (Suffix slot)) in
        if negb (is_success Status) then mret (Status, mk_slot chars) else
        active_slot_loop Slots' (mk_slot chars) BootPriority
      else active_slot_loop Slots' ActiveSlot Priority
    end
  end.

(** All A/B attributes of slot _a are zero: nothing was ever booted. *)
Definition never_booted (a : Z) : bool :=
  negb (has_bits a PART_ATT_ACTIVE_VAL) && negb (has_bits a PART_ATT_SUCCESSFUL_VAL) &&
  negb (has_bits a PART_ATT_UNBOOTABLE_VAL) && (priority_of a =? 0).

Definition first_boot_attributes (a : Z) : Z :=
  Z.lor (Z.land a (Z.land (u64 (Z.lnot PART_ATT_SUCCESSFUL_VAL)) (u64 (Z.lnot PART_ATT_UNBOOTABLE_VAL))))
    (Z.lor (Z.lor PART_ATT_PRIORITY_VAL PART_ATT_ACTIVE_VAL) PART_ATT_MAX_RETRY_COUNT_VAL).

(** [ActiveSlot] is the slot of the caller, never NULL. *)
Definition GetActiveSlot (ActiveSlot : Slot) : B (EFI_STATUS * Slot) :=
  r ← active_slot_loop [slot_a; slot_b] ActiveSlot 0;
  let (Status, ActiveSlot) := r : EFI_STATUS * Slot in
  if negb (is_success Status) then mret (Status, ActiveSlot) else
  if IsSuffixEmpty (Some ActiveSlot) then
    found ← GetBootPartitionEntry slot_a;
    match found with
    | None => mret (EFI_NOT_FOUND, ActiveSlot)
    | Some i =>
      e ← ptn_entry i;
      if never_booted (attributes e) then
        _ ← change_attributes i first_boot_attributes;
        let (Status, chars) :=
          StrnCpyS (Suffix ActiveSlot) MAX_SLOT_SUFFIX_SZ (Suffix slot_a) (StrLen (Suffix slot_a)) in
        if negb (is_success Status) then mret (Status, mk_slot chars) else
        _ ← UpdatePartitionAttributes PARTITION_ATTRIBUTES;
        _ ← modify (set_FirstBoot true);
        mret (EFI_SUCCESS, mk_slot chars)
      else mret (EFI_NOT_FOUND, ActiveSlot)
    end
  else mret (EFI_SUCCESS, ActiveSlot).

Definition GetCurrentSlotSuffix : B Slot :=
  IsMultiSlot ← PartitionHasMultiSlot (bytes "boot");
  if negb IsMultiSlot then mret empty_slot else
  r ← GetActiveSlot empty_slot;
  mret (snd r).

Definition FindPtnActiveSlot : B unit :=
  _ ← GetActiveSlot empty_slot; mret tt.

Definition IsCurrentSlotBootable : B bool :=
  r ← GetActiveSlot empty_slot;
  let (Status, CurrentSlot) := r : EFI_STATUS * Slot in
  if negb (is_success Status) then mret false else
  found ← GetBootPartitionEntry CurrentSlot;
  match found with
  | None => mret false
  | Some i =>
    e ← ptn_entry i;
    mret (negb (has_bits (attributes e) PART_ATT_UNBOOTABLE_VAL) &&
          has_bits (attributes e) PART_ATT_SUCCESSFUL_VAL)
  end.

(** ** Making a slot active *)
Definition new_slot_attributes (ResetSuccessBit : bool) (a : Z) : Z :=
  let a := Z.lor a (Z.lor (Z.lor PART_ATT_PRIORITY_VAL PART_ATT_ACTIVE_VAL)
                      PART_ATT_MAX_RETRY_COUNT_VAL) in
  let a := clear_bits a PART_ATT_UNBOOTABLE_VAL in
  if ResetSuccessBit && has_bits a PART_ATT_SUCCESSFUL_VAL
  then clear_bits a PART_ATT_SUCCESSFUL_VAL else a.

Definition alternate_attributes (a : Z) : Z :=
  Z.lor (Z.land a (Z.land (u64 (Z.lnot PART_ATT_PRIORITY_VAL)) (u64 (Z.lnot PART_ATT_ACTIVE_VAL))))
    (u64 (Z.shiftl (MAX_PRIORITY - 1) PART_ATT_PRIORITY_BIT)).

(** The boot LUN of a slot that was active already, lines 1420-1441. *)
Definition match_boot_lun (CurrentSlot : Slot) : B unit :=
  Ufs ← is_ufs;
  if negb Ufs then mret tt else
  got ← UfsGetSetBootLun 0 true;
  let UfsBootLun := snd got in
  if (UfsBootLun =? 0x1) && starts_with (Suffix CurrentSlot) (bytes "_b") then
    _ ← UfsGetSetBootLun 0x2 false; mret tt
  else if (UfsBootLun =? 0x2) && starts_with (Suffix CurrentSlot) (bytes "_a") then
    _ ← UfsGetSetBootLun 0x1 false; mret tt
  else mret tt.

Definition SetActiveSlot (NewSlot : option Slot) (ResetSuccessBit : bool) : B EFI_STATUS :=
  match NewSlot with
  | None => mret EFI_INVALID_PARAMETER
  | Some NewSlot =>
    r ← GetActiveSlot empty_slot;
    let (Status, CurrentSlot) := r : EFI_STATUS * Slot in
    if negb (is_success Status) then mret Status else
    let AlternateSlot :=
      if StrnCmp (Suffix NewSlot) (Suffix slot_a) (StrLen (Suffix slot_a)) =? 0
      then slot_b else slot_a in
    found ← GetBootPartitionEntry NewSlot;
    match found with
    | None => mret EFI_NOT_FOUND
    | Some i =>
      _ ← change_attributes i (new_slot_attributes ResetSuccessBit);
      found ← GetBootPartitionEntry AlternateSlot;
      match found with
      | None => mret EFI_NOT_FOUND
      | Some j =>
        _ ← change_attributes j alternate_attributes;
        _ ← UpdatePartitionAttributes PARTITION_ATTRIBUTES;
        _ ← (if StrnCmp (Suffix CurrentSlot) (Suffix NewSlot) (StrLen (Suffix CurrentSlot)) =? 0
             then match_boot_lun CurrentSlot
             else (_ ← SwitchPtnSlots (Suffix NewSlot); MarkPtnActive (Suffix NewSlot) : B unit));
        mret EFI_SUCCESS
      end
    end
  end.

(** ** A slot that does not boot *)
Definition HandleActiveSlotUnbootable : B EFI_STATUS :=
  r ← GetActiveSlot empty_slot;
  let (Status, ActiveSlot) := r : EFI_STATUS * Slot in
  if negb (is_success Status) then mret Status else
  found ← GetBootPartitionEntry ActiveSlot;
  match found with
  | None => mret EFI_NOT_FOUND
  | Some i =>
    first ← gets FirstBoot;
    _ ← (if first && negb TargetBuildVariantUser then modify (set_FirstBoot false)
         else (_ ← change_attributes i (fun a =>
                 Z.lor a (Z.land PART_ATT_UNBOOTABLE_VAL (u64 (Z.lnot PART_ATT_SUCCESSFUL_VAL))));
               UpdatePartitionAttributes PARTITION_ATTRIBUTES : B unit));
    let AlternateSlot :=
      if StrnCmp (Suffix ActiveSlot) (Suffix slot_a) (StrLen (Suffix slot_a)) =? 0
      then slot_b else slot_a in
    found ← GetBootPartitionEntry AlternateSlot;
    match found with
    | None => mret EFI_NOT_FOUND
    | Some j =>
      e ← ptn_entry j;
      let Unbootable := bit_field (attributes e) PART_ATT_UNBOOTABLE_VAL PART_ATT_UNBOOTABLE_BIT in
      let BootSuccess := bit_field (attributes e) PART_ATT_SUCCESSFUL_VAL PART_ATT_SUCCESS_BIT in
      if (Unbootable =? 0) && (BootSuccess =? 1) then
        Status ← SetActiveSlot (Some AlternateSlot) false;
        if negb (is_success Status) then mret Status else
        _ ← do_event ResetSystem;
        mret EFI_LOAD_ERROR
      else mret EFI_LOAD_ERROR
    end
  end.

Definition ClearUnbootable : B EFI_STATUS :=
  r ← GetActiveSlot empty_slot;
  let (Status, ActiveSlot) := r : EFI_STATUS * Slot in
  if negb (is_success Status) then mret Status else
  found ← GetBootPartitionEntry ActiveSlot;
  match found with
  | None => mret EFI_NOT_FOUND
  | Some i =>
    _ ← change_attributes i (fun a => clear_bits a PART_ATT_UNBOOTABLE_VAL);
    _ ← UpdatePartitionAttributes PARTITION_ATTRIBUTES;
    mret EFI_SUCCESS
  end.

(** The boot LUN must be the one of the slot; on eMMC there is nothing to check. *)
Definition validate_boot_device (BootableSlot : Slot) : B EFI_STATUS :=
  BootDeviceType ← GetRootDeviceType BOOT_DEV_NAME_SIZE_MAX;
  if AsciiStrnCmp BootDeviceType (bytes "UFS") (AsciiStrLen (bytes "UFS")) =? 0 then
    got ← UfsGetSetBootLun 0 true;
    let (Status, UfsBootLun) := got : EFI_STATUS * Z in
    if negb (is_success Status) then mret Status else
    if (UfsBootLun =? 0x1) && (StrCmp (Suffix BootableSlot) (bytes "_a") =? 0) then mret EFI_SUCCESS
    else if (UfsBootLun =? 0x2) && (StrCmp (Suffix BootableSlot) (bytes "_b") =? 0)
    then mret EFI_SUCCESS
    else mret EFI_DEVICE_ERROR
  else if AsciiStrnCmp BootDeviceType (bytes "EMMC") (AsciiStrLen (bytes "EMMC")) =? 0
  then mret EFI_SUCCESS
  else mret EFI_DEVICE_ERROR.

(** The last character of the suffix replaces the one of "abl_x"; an empty suffix
    is read in front of its array. *)
Definition ValidateSlotGuids (BootableSlot : Slot) : B EFI_STATUS :=
  found ← GetBootPartitionEntry BootableSlot;
  match found with
  | None => mret EFI_NOT_FOUND
  | Some i =>
    let n := StrLen (Suffix BootableSlot) in
    c ← access (if (n =? 0)%nat then fault else Suffix BootableSlot !! (n - 1)%nat);
    found ← GetPartitionEntry (bytes "abl_" ++ [c]);
    match found with
    | None => mret EFI_NOT_FOUND
    | Some j =>
      boot ← ptn_entry i;
      abl ← ptn_entry j;
      if bool_decide (type_guid boot = type_guid abl) then mret EFI_DEVICE_ERROR
      else validate_boot_device BootableSlot
    end
  end.

(** ** The slot to boot *)
Definition count_down (a : Z) : Z :=
  let RetryCount := bit_field a PART_ATT_MAX_RETRY_COUNT_VAL PART_ATT_MAX_RETRY_CNT_BIT in
  Z.lor (clear_bits a PART_ATT_MAX_RETRY_COUNT_VAL)
    (u64 (Z.shiftl (u64 (RetryCount - 1)) PART_ATT_MAX_RETRY_CNT_BIT)).

(** From the active slot to the status before the label [out], lines 1618-1661. *)
Definition check_bootable (BootableSlot : Slot) (i : nat) : B EFI_STATUS :=
  e ← ptn_entry i;
  let a := attributes e in
  let Unbootable := bit_field a PART_ATT_UNBOOTABLE_VAL PART_ATT_UNBOOTABLE_BIT in
  let BootSuccess := bit_field a PART_ATT_SUCCESSFUL_VAL PART_ATT_SUCCESS_BIT in
  let RetryCount := bit_field a PART_ATT_MAX_RETRY_COUNT_VAL PART_ATT_MAX_RETRY_CNT_BIT in
  if (Unbootable =? 0) && (BootSuccess =? 1) then mret EFI_SUCCESS
  else if (Unbootable =? 0) && (BootSuccess =? 0) && (0 <? RetryCount) then
    if (negb IsABRetryCountDisabled && negb IsBootDevImage) && IsABRetryCountUpdateRequired then
      _ ← change_attributes i count_down;
      _ ← UpdatePartitionAttributes PARTITION_ATTRIBUTES;
      mret EFI_SUCCESS
    else mret EFI_SUCCESS
  else HandleActiveSlotUnbootable.

Definition finish_bootable (BootableSlot : Slot) (Status : EFI_STATUS) : B (EFI_STATUS * Slot) :=
  mret (Status, if negb (is_success Status) then empty_slot else BootableSlot).

Definition find_bootable_slot (BootableSlot : Slot) : B (EFI_STATUS * Slot) :=
  r ← GetActiveSlot BootableSlot;
  let (Status, BootableSlot) := r : EFI_STATUS * Slot in
  if negb (is_success Status) then mret (Status, BootableSlot) else
  found ← GetBootPartitionEntry BootableSlot;
  match found with
  | None => mret (EFI_NOT_FOUND, BootableSlot)
  | Some i =>
    Status ← check_bootable BootableSlot i;
    if negb (is_success Status) then finish_bootable BootableSlot Status else
    Type_ ← CheckRootDeviceType;
    Status ← (if negb (bool_decide (Type_ = NAND)) then ValidateSlotGuids BootableSlot
              else mret EFI_SUCCESS);
    if negb (is_success Status) then finish_bootable BootableSlot Status else
    _ ← MarkPtnActive (Suffix BootableSlot);
    finish_bootable BootableSlot EFI_SUCCESS
  end.

(** [None] for a NULL slot. *)
Definition FindBootableSlot (BootableSlot : option Slot) : B (EFI_STATUS * option Slot) :=
  match BootableSlot with
  | None => mret (EFI_INVALID_PARAMETER, None)
  | Some slot =>
    r ← find_bootable_slot slot;
    mret (fst r, Some (snd r))
  end.
End slots.
