(* ===== verification/SlotsSpec.v ===== *)
(** * A/B slots: which slot is booted.

    The partition list is well-formed for slots when it holds the boot partitions
    of both ([ab_ok]).  The slot functions are then described by the attributes of
    these two entries. *)
From stdpp Require Import base numbers list option strings.
From Stdlib Require Import ZArith Lia Ascii.
From S2P Require Import Prelude BaseLib Unicode Storage Bytes StorageSpec Gpt Partitions Slots.
Local Open Scope Z_scope.

(** [i] is the first of [n] entries with the name. *)
Definition named_at (es : list PartitionEntry) (n : nat) (name : list Z) (i : nat) : Prop :=
  (i < n)%nat /\ (exists e, es !! i = Some e /\ name_of e = name) /\
  forall j e, (j < i)%nat -> es !! j = Some e -> name_of e <> name.

(** Both boot partitions are on the list. *)
Record ab_ok (s : boot_state) (ia ib : nat) : Prop := {
  ab_bound : (PartitionCount s <= length (PtnEntries s))%nat;
  ab_a : named_at (PtnEntries s) (PartitionCount s) (bytes "boot_a") ia;
  ab_b : named_at (PtnEntries s) (PartitionCount s) (bytes "boot_b") ib
}.

(** The entry's name matches over the whole array. *)
Definition name_matches (Pname : list Z) (e : PartitionEntry) : Prop :=
  take PART_NAME_LEN (name_of e) = take PART_NAME_LEN Pname.

Lemma name_matches_short Pname e :
  (length Pname < PART_NAME_LEN)%nat -> name_matches Pname e <-> name_of e = Pname.
Proof.
  unfold name_matches, PART_NAME_LEN. intros Hl. rewrite (take_ge Pname) by lia. split; [|intros ->; apply take_ge; lia].
  intros E. assert (Hlen := f_equal length E). rewrite length_take in Hlen.
  rewrite take_ge in E by lia. done.
Qed.

(** ** Bits of the attributes *)
Lemma bit_field_lor a c m k : bit_field (Z.lor a c) m k = Z.lor (bit_field a m k) (bit_field c m k).
Proof. unfold bit_field. by rewrite Z.land_lor_distr_l, Z.shiftr_lor. Qed.
Lemma bit_field_land a c m k : bit_field (Z.land a c) m k = bit_field a (Z.land c m) k.
Proof. unfold bit_field. by rewrite Z.land_assoc. Qed.
Lemma has_bits_lor a c m : has_bits (Z.lor a c) m = has_bits a m || has_bits c m.
Proof.
  unfold has_bits. rewrite Z.land_lor_distr_l. rewrite <- negb_andb. f_equal.
  apply eq_bool_prop_intro. rewrite !Is_true_true, andb_true_iff, !Z.eqb_eq. apply Z.lor_eq_0_iff.
Qed.
Lemma has_bits_land a c m : has_bits (Z.land a c) m = has_bits a (Z.land c m).
Proof. unfold has_bits. by rewrite Z.land_assoc. Qed.
Lemma bit_field_0 a k : bit_field a 0 k = 0.
Proof. unfold bit_field. by rewrite Z.land_0_r, Z.shiftr_0_l. Qed.
Lemma has_bits_0 a : has_bits a 0 = false.
Proof. unfold has_bits. by rewrite Z.land_0_r. Qed.

(** A field of [w] bits is a number below [2^w]. *)
Lemma bit_field_range a w k :
  0 <= w -> 0 <= k -> 0 <= bit_field a (Z.shiftl (Z.ones w) k) k < 2 ^ w.
Proof.
  intros Hw Hk. unfold bit_field.
  rewrite Z.shiftr_land, Z.shiftr_shiftl_l, Z.sub_diag, Z.shiftl_0_r by lia.
  rewrite Z.land_ones by lia. apply Z.mod_pos_bound. by apply Z.pow_pos_nonneg.
Qed.

(** One bit, as a field and as a test. *)
Lemma bit_field_has_bits a k :
  0 <= k -> bit_field a (Z.shiftl 1 k) k = if has_bits a (Z.shiftl 1 k) then 1 else 0.
Proof.
  intros Hk. pose proof (bit_field_range a 1 k ltac:(lia) Hk) as Hr.
  change (Z.ones 1) with 1 in Hr. unfold has_bits.
  destruct (Z.eqb_spec (Z.land a (Z.shiftl 1 k)) 0) as [E|N]; cbn [negb].
  - unfold bit_field. by rewrite E, Z.shiftr_0_l.
  - assert (bit_field a (Z.shiftl 1 k) k <> 0); [|lia]. intros E. apply N.
    unfold bit_field in E. apply Z.bits_inj'. intros n Hn. rewrite Z.bits_0, Z.land_spec.
    destruct (decide (n = k)) as [->|Hne].
    + assert (Hb : Z.testbit (Z.shiftr (Z.land a (Z.shiftl 1 k)) k) 0 = false) by (by rewrite E, Z.bits_0).
      rewrite Z.shiftr_spec, Z.land_spec in Hb by lia. exact Hb.
    + rewrite (Z.shiftl_1_l k), Z.pow2_bits_false by lia. apply andb_false_r.
Qed.

Section slots_spec.
Context {FW : Firmware} {BL : BaseLib} {BLL : BaseLibLaws BL} {UL : UnicodeLib}.
Context {ULL : UnicodeLibLaws UL} {BM : BootMode} {BC : BuildConfig}.

(** ** Lookup by name *)
Lemma name_index_loop_spec es Pname count i :
  (i + count <= length es)%nat ->
  exists r, name_index_loop es Pname count i = Some r /\
    match r with
    | Some k => (i <= k < i + count)%nat /\
        (exists e, es !! k = Some e /\ name_matches Pname e) /\
        forall j e, (i <= j < k)%nat -> es !! j = Some e -> ~ name_matches Pname e
    | None => forall j e, (i <= j < i + count)%nat -> es !! j = Some e -> ~ name_matches Pname e
    end.
Proof.
  revert i. induction count as [|count IH]; intros i Hl; cbn [name_index_loop].
  { exists None. split; [done|]. lia. }
  destruct (lookup_lt_is_Some_2 es i) as [e He]; [lia|]. rewrite He. bind_step.
  rewrite StrnCmp_eqb. case_bool_decide as Hm.
  - exists (Some i). split; [done|]. split; [lia|]. split; [by exists e|]. lia.
  - destruct (IH (S i)) as (r & Hr & Hs); [lia|]. exists r. split; [done|].
    assert (Hhead : forall j e', j = i -> es !! j = Some e' -> ~ name_matches Pname e').
    { intros j e' -> He'. rewrite He in He'. by injection He' as <-. }
    destruct r as [k|].
    + destruct Hs as (Hk & He' & Hj). split; [lia|]. split; [done|]. intros j e' Hj' Hl'.
      destruct (decide (j = i)); [by apply (Hhead j)|]. apply (Hj j); [lia|done].
    + intros j e' Hj' Hl'. destruct (decide (j = i)); [by apply (Hhead j)|]. apply (Hs j); [lia|done].
Qed.

(** The answer is the first entry with the name. *)
Lemma GetPartitionIndex_at s Pname i :
  (PartitionCount s <= length (PtnEntries s))%nat -> (length Pname < PART_NAME_LEN)%nat ->
  named_at (PtnEntries s) (PartitionCount s) Pname i ->
  GetPartitionIndex Pname s = Some (Some i, s).
Proof.
  intros Hb Hl (Hi & (e & He & Hn) & Hj). unfold GetPartitionIndex. run.
  destruct (name_index_loop_spec (PtnEntries s) Pname (PartitionCount s) 0) as (r & -> & Hr); [lia|].
  run. repeat f_equal. destruct r as [k|].
  - destruct Hr as (Hk & (e' & He' & Hm) & Hfirst). f_equal.
    apply name_matches_short in Hm; [|done].
    destruct (lt_eq_lt_dec k i) as [[Hlt|]|Hgt]; [|done|].
    + by destruct (Hj k e').
    + exfalso. apply (Hfirst i e); [lia|done|]. by apply name_matches_short.
  - exfalso. apply (Hr i e); [lia|done|]. by apply name_matches_short.
Qed.

Lemma GetPartitionIndex_total s Pname :
  (PartitionCount s <= length (PtnEntries s))%nat ->
  exists r, GetPartitionIndex Pname s = Some (r, s) /\
    forall i, r = Some i -> (i < PartitionCount s)%nat.
Proof.
  intros Hb. unfold GetPartitionIndex. run.
  destruct (name_index_loop_spec (PtnEntries s) Pname (PartitionCount s) 0) as (r & -> & Hr); [lia|].
  run. exists r. split; [done|]. intros i ->. lia.
Qed.

Lemma GetBootPartitionEntry_a s ia ib :
  ab_ok s ia ib -> GetBootPartitionEntry slot_a s = Some (Some ia, s).
Proof.
  intros [Hb Ha _]. unfold GetBootPartitionEntry. cbn [Suffix slot_a].
  rewrite StrnCmp_eqb, bool_decide_true by done. apply GetPartitionIndex_at; [done|cbn; unfold PART_NAME_LEN; lia|done].
Qed.

Lemma GetBootPartitionEntry_b s ia ib :
  ab_ok s ia ib -> GetBootPartitionEntry slot_b s = Some (Some ib, s).
Proof.
  intros [Hb _ Hb']. unfold GetBootPartitionEntry. cbn [Suffix slot_b].
  rewrite !StrnCmp_eqb. rewrite StrLen_law. rewrite bool_decide_false by done.
  rewrite bool_decide_true by done.
  apply GetPartitionIndex_at; [done|cbn; unfold PART_NAME_LEN; lia|done].
Qed.

Lemma ab_lookup s ia ib :
  ab_ok s ia ib ->
  (exists ea, PtnEntries s !! ia = Some ea /\ name_of ea = bytes "boot_a") /\
  (exists eb, PtnEntries s !! ib = Some eb /\ name_of eb = bytes "boot_b") /\ ia <> ib.
Proof.
  intros [_ (_ & (ea & Ha & Hna) & _) (_ & (eb & Hb & Hnb) & _)].
  split; [by exists ea|]. split; [by exists eb|]. intros ->.
  rewrite Ha in Hb. injection Hb as ->. by rewrite Hna in Hnb.
Qed.

Lemma ptn_entry_at s i e : PtnEntries s !! i = Some e -> ptn_entry i s = Some (e, s).
Proof. intros H. unfold ptn_entry. run. by rewrite H. Qed.

Lemma update_entry_at s i f e :
  PtnEntries s !! i = Some e ->
  update_entry i f s = Some (tt, set_PtnEntries (<[i := f e]> (PtnEntries s)) s).
Proof. intros H. unfold update_entry. run. by rewrite (ptn_entry_at s i e H). Qed.

Lemma UpdatePartitionAttributes_nothing UpdateType s :
  UpdatePartitionAttributes UpdateType s = Some (tt, s).
Proof. done. Qed.

(** Copying a slot suffix always fits. *)
Lemma copy_suffix d slot :
  (length (Suffix slot) < 3)%nat ->
  StrnCpyS d MAX_SLOT_SUFFIX_SZ (Suffix slot) (StrLen (Suffix slot)) = (EFI_SUCCESS, Suffix slot).
Proof.
  intros H. rewrite StrLen_law.
  rewrite StrnCpyS_fits; rewrite take_ge by done; [done|unfold MAX_SLOT_SUFFIX_SZ; lia].
Qed.

(** ** The active slot *)

(** The attributes of the entry [i]. *)
Definition attr_at (s : boot_state) (i : nat) (a : Z) : Prop :=
  attributes <$> PtnEntries s !! i = Some a.

(** A slot can be chosen when it is active with a priority above zero; the higher
    priority wins, and slot _a among equals. *)
Definition eligible (a : Z) : bool := has_bits a PART_ATT_ACTIVE_VAL && (0 <? priority_of a).
Definition best_slot (a b : Z) : option Slot :=
  if eligible b && negb (eligible a && (priority_of b <=? priority_of a)) then Some slot_b
  else if eligible a then Some slot_a else None.

Lemma priority_range a : 0 <= priority_of a.
Proof.
  unfold priority_of, bit_field. rewrite Z.shiftr_div_pow2 by (unfold PART_ATT_PRIORITY_BIT; lia).
  apply Z.div_pos; [|unfold PART_ATT_PRIORITY_BIT; lia]. apply Z.land_nonneg. right.
  unfold PART_ATT_PRIORITY_VAL. by apply Z.shiftl_nonneg.
Qed.

Lemma active_slot_step slot rest cur p s i a :
  GetBootPartitionEntry slot s = Some (Some i, s) -> attr_at s i a ->
  (length (Suffix slot) < 3)%nat ->
  active_slot_loop (slot :: rest) cur p s =
    if has_bits a PART_ATT_ACTIVE_VAL && (p <? priority_of a)
    then active_slot_loop rest slot (priority_of a) s
    else active_slot_loop rest cur p s.
Proof.
  intros Hb Ha Hl. cbn [active_slot_loop]. run. rewrite Hb. run. unfold attr_at in Ha.
  destruct (PtnEntries s !! i) as [e|] eqn:Ee; [|done]. injection Ha as Ha.
  rewrite (ptn_entry_at s i e Ee), Ha, copy_suffix by done.
  unfold is_success. rewrite bool_decide_true by done. cbn [negb].
  destruct slot as [chars]. by destruct (_ && _).
Qed.

Lemma active_slot_loop_spec s ia ib a b slot :
  ab_ok s ia ib -> attr_at s ia a -> attr_at s ib b ->
  active_slot_loop [slot_a; slot_b] slot 0 s =
    Some ((EFI_SUCCESS, default slot (best_slot a b)), s).
Proof.
  intros Hab Ha Hb.
  rewrite (active_slot_step slot_a _ _ _ _ _ _ (GetBootPartitionEntry_a _ _ _ Hab) Ha) by (cbn; lia).
  rewrite !(active_slot_step slot_b _ _ _ _ _ _ (GetBootPartitionEntry_b _ _ _ Hab) Hb) by (cbn; lia).
  cbn [active_slot_loop]. unfold mret, M_ret, best_slot, eligible.
  pose proof (priority_range a). pose proof (priority_range b).
  destruct (has_bits a PART_ATT_ACTIVE_VAL), (has_bits b PART_ATT_ACTIVE_VAL); cbn [andb negb];
  destruct (Z.ltb_spec 0 (priority_of a)), (Z.ltb_spec 0 (priority_of b)),
    (Z.ltb_spec (priority_of a) (priority_of b)), (Z.leb_spec (priority_of b) (priority_of a));
    cbn [andb negb default]; (lia || done).
Qed.

(** The slot the search finds, the state it leaves, and whether it was found. *)
Definition first_boot_state (s : boot_state) (ia : nat) : boot_state :=
  set_FirstBoot true (set_PtnEntries
    (alter (fun e => set_attributes (first_boot_attributes (attributes e)) e) ia (PtnEntries s)) s).

Lemma list_alter_insert {A} (f : A -> A) (l : list A) i x :
  l !! i = Some x -> alter f i l = <[i := f x]> l.
Proof.
  intros H. apply list_eq. intros j. destruct (decide (i = j)) as [<-|Hne].
  - rewrite list_lookup_alter_eq, list_lookup_insert_eq, H; [done|]. by eapply lookup_lt_Some.
  - by rewrite list_lookup_alter_ne, list_lookup_insert_ne by done.
Qed.

Lemma change_attributes_at s i f e :
  PtnEntries s !! i = Some e ->
  change_attributes i f s =
    Some (tt, set_PtnEntries
      (alter (fun e => set_attributes (f (attributes e)) e) i (PtnEntries s)) s).
Proof.
  intros H. unfold change_attributes. rewrite (update_entry_at s i _ e H).
  by rewrite (list_alter_insert _ _ _ e H).
Qed.

(** The answer of GetActiveSlot for a slot variable that holds [slot]. *)
Definition active_result (s : boot_state) (ia : nat) (a b : Z) (slot : Slot)
  : (EFI_STATUS * Slot) * boot_state :=
  match best_slot a b with
  | Some w => ((EFI_SUCCESS, w), s)
  | None =>
    if (length (Suffix slot) =? 0)%nat then
      if never_booted a then ((EFI_SUCCESS, slot_a), first_boot_state s ia)
      else ((EFI_NOT_FOUND, slot), s)
    else ((EFI_SUCCESS, slot), s)
  end.

Lemma GetActiveSlot_spec s ia ib a b slot :
  ab_ok s ia ib -> attr_at s ia a -> attr_at s ib b ->
  GetActiveSlot slot s = Some (active_result s ia a b slot).
Proof.
  intros Hab Ha Hb. unfold GetActiveSlot, active_result. run.
  rewrite (active_slot_loop_spec s ia ib a b slot Hab Ha Hb). run.
  unfold is_success at 1. rewrite bool_decide_true by done. cbn [negb IsSuffixEmpty].
  rewrite StrLen_law. destruct (best_slot a b) as [w|] eqn:Ew; cbn [default].
  { assert (w = slot_a \/ w = slot_b) as [-> | ->]; [|done|done].
    unfold best_slot in Ew. destruct (eligible b && _); [right; congruence|].
    destruct (eligible a); [left; congruence|done]. }
  destruct (length (Suffix slot) =? 0)%nat; [|done].
  run. rewrite (GetBootPartitionEntry_a s ia ib Hab). run. unfold attr_at in Ha.
  destruct (PtnEntries s !! ia) as [e|] eqn:Ee; [|done]. injection Ha as Ha.
  rewrite (ptn_entry_at s ia e Ee), Ha. destruct (never_booted a); [|done].
  run. rewrite (change_attributes_at s ia _ e Ee). run.
  rewrite copy_suffix by (cbn; lia). unfold is_success. rewrite bool_decide_true by done. done.
Qed.

(** The active slot.  Among the boot partitions marked active with a priority
    above zero the one with the highest priority is the answer, slot _a among
    equals.  When there is none, an empty slot variable gets slot _a on a device
    that was never booted, which starts it with full priority and retries, and
    EFI_NOT_FOUND on any other; a slot variable that is not empty is returned as it
    is. *)
Theorem GetActiveSlot_best s ia ib a b slot :
  ab_ok s ia ib -> attr_at s ia a -> attr_at s ib b ->
  GetActiveSlot slot s = Some (active_result s ia a b slot).
Proof. apply GetActiveSlot_spec. Qed.
End slots_spec.

(** ** A partition list to try things on *)
Definition demo_partition (name : list Z) (guid : Z) (a : Z) : PartitionEntry :=
  mk_entry (mk_part (repeat guid 16) (repeat 1 16) 6 100 a (take PART_NAME_LEN (name ++ repeat 0 36))) 0.
Definition demo_slots (a b : Z) : boot_state :=
  set_PartitionCount 4 (set_PtnEntries
    [demo_partition (bytes "boot_a") 1 a; demo_partition (bytes "boot_b") 2 b;
     demo_partition (bytes "abl_a") 3 0; demo_partition (bytes "abl_b") 4 0]
    (set_RootType UFS boot_init)).
Lemma demo_slots_ab_ok a b : ab_ok (demo_slots a b) 0 1.
Proof.
  split; [cbn; lia| |].
  - split; [cbn; lia|]. split; [|lia]. by eexists.
  - split; [cbn; lia|]. split; [by eexists|]. intros j e Hj. assert (j = 0)%nat as -> by lia.
    by intros [= <-].
Qed.
Definition demo_BootMode : BootMode := {|
  IsFlashSplitNeeded := false; BootDevImage := false; BatteryStatus := false;
  IsChargingScreenEnable := false; BootIntoFastboot := false; BootIntoRecovery := false |}.
Definition demo_BuildConfig : BuildConfig := {|
  USER_BUILD_VARIANT := true; AB_RETRYCOUNT_DISABLE := false; DYNAMIC_PARTITION_SUPPORT := true |}.

Lemma demo_attr_a a b : attr_at (demo_slots a b) 0 a.
Proof. done. Qed.
Lemma demo_attr_b a b : attr_at (demo_slots a b) 1 b.
Proof. done. Qed.

Lemma GetActiveSlot_best_witness :
  GetActiveSlot (FW := demo_Firmware) (BL := reference_BaseLib) (UL := reference_UnicodeLib)
      (BM := demo_BootMode) empty_slot (demo_slots 0 PART_ATT_ACTIVE_VAL) =
    Some (active_result (demo_slots 0 PART_ATT_ACTIVE_VAL) 0 0 PART_ATT_ACTIVE_VAL empty_slot).
Proof.
  exact (GetActiveSlot_best (UL := reference_UnicodeLib) (ULL := reference_UnicodeLib_laws)
    (demo_slots 0 PART_ATT_ACTIVE_VAL) 0 1 0 PART_ATT_ACTIVE_VAL empty_slot
    (demo_slots_ab_ok _ _) (demo_attr_a _ _) (demo_attr_b _ _)).
Defined.
