(* ===== verification/SlotsSafe.v ===== *)
(** * A/B slots: no slot function faults, and none writes a partition table.

    [ok m s Q]: from [s] the computation [m] returns, keeps what every slot
    function keeps ([keeps]), respects the relation [R] of the section, and ends as
    [Q] says.  Its rules follow the structure of the code. *)
From stdpp Require Import base numbers list option strings.
From Stdlib Require Import ZArith Lia Ascii.
From S2P Require Import Prelude BaseLib Unicode Storage Bytes StorageSpec Gpt Partitions Slots SlotsSpec.
Local Open Scope Z_scope.

(** The device operations of the slot functions: no write, no erasure. *)
Definition quiet (e : device_event) : Prop :=
  match e with SetBootLU _ | ResetSystem => True | WriteBlocks _ _ _ | EraseBlocks _ _ _ => False end.

Definition name_arrays (s : boot_state) : list (list Z) :=
  (fun e => PartitionName (PartEntry e)) <$> PtnEntries s.

Record keeps (s s' : boot_state) : Prop := {
  keeps_count : PartitionCount s' = PartitionCount s;
  keeps_names : name_arrays s' = name_arrays s;
  keeps_bak : PtnEntriesBak s' = PtnEntriesBak s;
  keeps_log : exists evs, log s' = log s ++ evs /\ Forall quiet evs
}.

#[export] Instance keeps_preorder : PreOrder keeps.
Proof.
  split.
  - intros s. split; try done. exists []. by rewrite app_nil_r.
  - intros s1 s2 s3 [C1 N1 B1 (e1 & L1 & Q1)] [C2 N2 B2 (e2 & L2 & Q2)].
    split; try congruence. exists (e1 ++ e2). rewrite L2, L1, app_assoc. split; [done|].
    by apply Forall_app.
Qed.

(** Partition names the functions can work with: terminated, and short enough that
    the name without its suffix fits the list of slotted partitions. *)
Definition good_name (arr : list Z) : Prop :=
  exists name, c_string arr 0 = Some name /\ (length name <= 33)%nat.

Record slots_inv (s : boot_state) : Prop := {
  inv_bound : (PartitionCount s <= length (PtnEntries s))%nat;
  inv_names : forall i arr, (i < PartitionCount s)%nat -> name_arrays s !! i = Some arr -> good_name arr
}.

Lemma keeps_length s s' : keeps s s' -> length (PtnEntries s') = length (PtnEntries s).
Proof.
  intros [_ N _ _]. apply (f_equal length) in N. unfold name_arrays in N.
  by rewrite !length_fmap in N.
Qed.

Lemma keeps_inv s s' : keeps s s' -> slots_inv s -> slots_inv s'.
Proof.
  intros K [Hb Hn]. split.
  - rewrite (keeps_length _ _ K), (keeps_count _ _ K). done.
  - intros i arr. rewrite (keeps_names _ _ K), (keeps_count _ _ K). apply Hn.
Qed.

Lemma c_string_0_chars arr name : c_string arr 0 = Some name -> chars_of arr = name.
Proof.
  unfold c_string, chars_of. rewrite drop_0. destruct (_ <? _)%nat; [|done]. by intros [= <-].
Qed.

Lemma inv_entry s i :
  slots_inv s -> (i < PartitionCount s)%nat ->
  exists e, PtnEntries s !! i = Some e /\ name_string e = Some (name_of e) /\
    (length (name_of e) <= 33)%nat /\ PartitionName (PartEntry e) <> [].
Proof.
  intros [Hb Hn] Hi. destruct (lookup_lt_is_Some_2 (PtnEntries s) i) as [e He]; [lia|].
  destruct (Hn i (PartitionName (PartEntry e)) Hi) as (name & Hs & Hl).
  { unfold name_arrays. by rewrite list_lookup_fmap, He. }
  exists e. split; [done|]. unfold name_string, name_of. rewrite (c_string_0_chars _ _ Hs).
  split; [done|]. split; [done|]. intros E. by rewrite E in Hs.
Qed.

(** What holds between the states of the slot functions apart from [keeps]: the
    static variables the functions write are free. *)
Class SlotRel (R : boot_state -> boot_state -> Prop) := {
  SlotRel_pre :: PreOrder R;
  SlotRel_log s x : R s (set_log x s);
  SlotRel_root s x : R s (set_RootType x s);
  SlotRel_head s x : R s (set_HeadNode x s);
  SlotRel_first s x : R s (set_FirstBoot x s);
  SlotRel_guid s i g : R s (set_PtnEntries (alter (set_type_guid g) i (PtnEntries s)) s)
}.

Class SlotRelAttributes (R : boot_state -> boot_state -> Prop) :=
  SlotRel_attributes s i f :
    R s (set_PtnEntries (alter (fun e => set_attributes (f e) e) i (PtnEntries s)) s).

Definition any_change (s s' : boot_state) : Prop := True.
#[export] Instance any_change_rel : SlotRel any_change.
Proof. split; try done. Qed.
#[export] Instance any_change_attributes : SlotRelAttributes any_change.
Proof. done. Qed.

(** The attributes of all entries stay as they are. *)
Definition same_attributes (s s' : boot_state) : Prop :=
  attributes <$> PtnEntries s' = attributes <$> PtnEntries s.

(** A change of one entry that a projection does not see. *)
Lemma fmap_alter_same {A C} (p : A -> C) f (l : list A) i :
  (forall e, p (f e) = p e) -> p <$> alter f i l = p <$> l.
Proof.
  intros Hf. apply list_eq. intros j. rewrite !list_lookup_fmap.
  destruct (decide (i = j)) as [<-|Hne]; [|by rewrite list_lookup_alter_ne].
  rewrite list_lookup_alter_eq. destruct (l !! i); cbn; [by rewrite Hf|done].
Qed.

#[export] Instance same_attributes_rel : SlotRel same_attributes.
Proof.
  split; try done.
  - split; [done|]. intros s1 s2 s3 H1 H2. unfold same_attributes in *. congruence.
  - intros s i g. by apply (fmap_alter_same attributes).
Qed.

(** The static variables that are not part of [keeps]. *)
Lemma keeps_set_RootType s x : keeps s (set_RootType x s).
Proof. split; try done. exists []. by rewrite app_nil_r. Qed.
Lemma keeps_set_HeadNode s x : keeps s (set_HeadNode x s).
Proof. split; try done. exists []. by rewrite app_nil_r. Qed.
Lemma keeps_set_FirstBoot s x : keeps s (set_FirstBoot x s).
Proof. split; try done. exists []. by rewrite app_nil_r. Qed.

(** A change of an entry that leaves its name alone. *)
Lemma keeps_alter s i f :
  (forall e, PartitionName (PartEntry (f e)) = PartitionName (PartEntry e)) ->
  keeps s (set_PtnEntries (alter f i (PtnEntries s)) s).
Proof.
  intros Hf. split; try done; [|exists []; by rewrite app_nil_r].
  unfold name_arrays. cbn [PtnEntries set_PtnEntries].
  by apply (fmap_alter_same (fun e => PartitionName (PartEntry e))).
Qed.

(** ** The rules *)
Section ok.
Context {R : boot_state -> boot_state -> Prop} {SR : SlotRel R}.

Definition ok {A} (m : B A) (s : boot_state) (Q : A -> boot_state -> Prop) : Prop :=
  exists a s', m s = Some (a, s') /\ keeps s s' /\ R s s' /\ Q a s'.

Lemma ok_pure {A} (m : B A) s (a : A) (Q : A -> boot_state -> Prop) :
  m s = Some (a, s) -> Q a s -> ok m s Q.
Proof. intros Hm H. exists a, s. split; [done|]. split; [reflexivity|]. split; [reflexivity|done]. Qed.

Lemma ok_ret {A} (a : A) s (Q : A -> boot_state -> Prop) : Q a s -> ok (mret a) s Q.
Proof. intros H. by apply (ok_pure _ _ a). Qed.

Lemma ok_bind {A C} (m : B A) (f : A -> B C) s (Q1 : A -> boot_state -> Prop) Q :
  ok m s Q1 ->
  (forall a s1, keeps s s1 -> R s s1 -> Q1 a s1 -> ok (f a) s1 Q) ->
  ok (m ≫= f) s Q.
Proof.
  intros (a & s1 & Hm & K1 & R1 & H1) Hf.
  destruct (Hf a s1 K1 R1 H1) as (c & s2 & Hfa & K2 & R2 & HQ).
  exists c, s2. rewrite bind_run, Hm. split; [done|].
  split; [by transitivity s1|]. split; [by transitivity s1|done].
Qed.

Lemma ok_weaken {A} (m : B A) s (Q1 Q : A -> boot_state -> Prop) :
  ok m s Q1 -> (forall a s', Q1 a s' -> Q a s') -> ok m s Q.
Proof. intros (a & s1 & Hm & K & HR & HQ) Hw. exists a, s1. by auto. Qed.

(** Reading the state: the continuation runs on the same state. *)
Lemma ok_bind_pure {A C} (m : B A) (f : A -> B C) s a Q :
  m s = Some (a, s) -> ok (f a) s Q -> ok (m ≫= f) s Q.
Proof. intros Hm (c & s' & Hf & H). exists c, s'. by rewrite bind_run, Hm. Qed.

Lemma ok_gets {A C} (p : boot_state -> A) (f : A -> B C) s Q :
  ok (f (p s)) s Q -> ok (gets p ≫= f) s Q.
Proof. by apply ok_bind_pure. Qed.

Lemma ok_access {A C} (o : option A) a (f : A -> B C) s Q :
  o = Some a -> ok (f a) s Q -> ok (access o ≫= f) s Q.
Proof. intros ->. by apply ok_bind_pure. Qed.

Lemma ok_entry {C} i e (f : PartitionEntry -> B C) s Q :
  PtnEntries s !! i = Some e -> ok (f e) s Q -> ok (ptn_entry i ≫= f) s Q.
Proof. intros He. apply ok_bind_pure. by apply ptn_entry_at. Qed.

Lemma ok_modify (f : boot_state -> boot_state) s (Q : unit -> boot_state -> Prop) :
  keeps s (f s) -> R s (f s) -> Q tt (f s) -> ok (modify f) s Q.
Proof. intros K H HQ. by exists tt, (f s). Qed.

Definition anything {A} (a : A) (s : boot_state) : Prop := True.

Lemma ok_event {FW : Firmware} e s : quiet e -> ok (do_event e) s anything.
Proof.
  intros He. exists (EventStatus (log s) e), (set_log (log s ++ [e]) s). split; [done|].
  split; [|by split; [apply SlotRel_log|]]. split; try done.
  exists [e]. split; [done|]. by apply List.Forall_cons.
Qed.

Lemma ok_update i e f s :
  PtnEntries s !! i = Some e ->
  (forall e, PartitionName (PartEntry (f e)) = PartitionName (PartEntry e)) ->
  R s (set_PtnEntries (alter f i (PtnEntries s)) s) ->
  ok (update_entry i f) s
    (fun _ s' => s' = set_PtnEntries (alter f i (PtnEntries s)) s).
Proof.
  intros He Hf HR. exists tt, (set_PtnEntries (alter f i (PtnEntries s)) s).
  rewrite (update_entry_at _ _ _ _ He), <- (list_alter_insert f _ _ _ He).
  split; [done|]. split; [by apply keeps_alter|done].
Qed.
End ok.

Section safe.
Context {FW : Firmware} {BL : BaseLib} {BLL : BaseLibLaws BL} {UL : UnicodeLib}.
Context {ULL : UnicodeLibLaws UL} {BM : BootMode} {BC : BuildConfig}.

(** A successful search for the first UFS LUN finds one. *)
Definition ufs_found : Prop :=
  let (Status, handles) := GetBlkIOHandles BLK_IO_SEL_MATCH_ROOT_DEVICE
    (mk_filter (Some (gEfiUfsLUGuid 0)) None) MAX_HANDLE_INFO_LIST in
  EFI_ERROR Status = false -> handles <> [].

Section pieces.
Context {R : boot_state -> boot_state -> Prop} {SR : SlotRel R}.
Implicit Types s : boot_state.

Lemma CheckRootDeviceType_ok s : ok (R := R) CheckRootDeviceType s anything.
Proof.
  unfold CheckRootDeviceType. apply ok_gets. case_if; [by apply ok_ret|].
  case_if; [by apply ok_ret|]. destruct GetCardInfo as [Status card].
  case_if; [by apply ok_ret|]. cbv zeta.
  eapply (ok_bind _ _ _ anything).
  - apply ok_modify; [apply keeps_set_RootType|apply SlotRel_root|done].
  - intros _ s1 _ _ _. by apply ok_ret.
Qed.

Lemma is_ufs_ok s : ok (R := R) is_ufs s anything.
Proof.
  unfold is_ufs, GetRootDeviceType. eapply (ok_bind _ _ _ anything); [|intros; by apply ok_ret].
  eapply (ok_bind _ _ _ anything); [apply CheckRootDeviceType_ok|intros; by apply ok_ret].
Qed.

Lemma UfsGetSetBootLun_ok Lun IsGet s :
  ufs_found -> ok (R := R) (UfsGetSetBootLun Lun IsGet) s anything.
Proof.
  unfold ufs_found, UfsGetSetBootLun. destruct GetBlkIOHandles as [Status handles]. intros Hf.
  case_if; [by apply ok_ret|]. destruct handles as [|h handles]; [by destruct Hf|].
  eapply ok_access; [done|]. destruct MemCardInfoOn as [St Rev].
  case_if; [by apply ok_ret|]. case_if; [by apply ok_ret|].
  destruct IsGet.
  - apply ok_gets. destruct GetBootLU. by apply ok_ret.
  - eapply (ok_bind _ _ _ anything); [by apply ok_event|intros; by apply ok_ret].
Qed.

Lemma switch_boot_lun_ok SetActive s :
  ufs_found -> ok (R := R) (switch_boot_lun SetActive) s anything.
Proof.
  intros Hf. unfold switch_boot_lun.
  eapply (ok_bind _ _ _ anything); [by apply UfsGetSetBootLun_ok|]. intros got s1 _ _ _. cbv zeta.
  eapply (ok_bind _ _ _ anything); [by apply UfsGetSetBootLun_ok|]. intros. by apply ok_ret.
Qed.

Lemma match_boot_lun_ok slot s : ufs_found -> ok (R := R) (match_boot_lun slot) s anything.
Proof.
  intros Hf. unfold match_boot_lun.
  eapply (ok_bind _ _ _ anything); [apply is_ufs_ok|]. intros Ufs s1 _ _ _.
  case_if; [by apply ok_ret|].
  eapply (ok_bind _ _ _ anything); [by apply UfsGetSetBootLun_ok|]. intros got s2 _ _ _. cbv zeta.
  repeat case_if; try (by apply ok_ret);
    (eapply (ok_bind _ _ _ anything); [by apply UfsGetSetBootLun_ok|]); intros; by apply ok_ret.
Qed.

(** ** The list of slotted partitions *)
Lemma multi_slot_pair_ok i count j s :
  slots_inv s -> (i < PartitionCount s)%nat -> (j + count <= PartitionCount s)%nat ->
  ok (R := R) (multi_slot_pair i count j) s anything.
Proof.
  intros Hinv Hi. revert j. induction count as [|count IH]; intros j Hj; cbn [multi_slot_pair].
  { by apply ok_ret. }
  destruct (inv_entry s j Hinv) as (ej & Hej & Hsj & _ & Hnj); [lia|].
  destruct (inv_entry s i Hinv Hi) as (ei & Hei & Hsi & Hli & _).
  eapply ok_entry; [done|]. destruct (PartitionName (PartEntry ej)) as [|c arr] eqn:Ea; [done|].
  eapply ok_access; [done|]. case_if; [apply IH; lia|].
  eapply ok_entry; [done|]. eapply ok_access; [done|]. eapply ok_access; [done|].
  cbv zeta. case_if; [|apply IH; lia]. apply ok_gets. case_if; [|by apply ok_ret].
  rewrite StrnCpyS_fits by (rewrite length_take, StrLen_law; unfold SIZEOF_PartName; lia).
  cbn [snd]. destruct (Nat.ltb_spec BOOT_PART_SIZE (S (length (take (StrLen (name_of ei) - 2) (name_of ei)))))
    as [Hlt|_].
  { exfalso. rewrite length_take, StrLen_law in Hlt. unfold BOOT_PART_SIZE in Hlt. lia. }
  eapply (ok_bind _ _ _ anything).
  - apply ok_modify; [apply keeps_set_HeadNode|apply SlotRel_head|done].
  - intros. by apply ok_ret.
Qed.

Lemma multi_slot_parts_ok total count i s :
  slots_inv s -> total = PartitionCount s -> (i + count = total)%nat ->
  ok (R := R) (multi_slot_parts total count i) s anything.
Proof.
  revert i s. induction count as [|count IH]; intros i s Hinv Ht Hi; cbn [multi_slot_parts].
  { by apply ok_ret. }
  destruct (inv_entry s i Hinv) as (e & He & Hs & _ & Hn); [lia|].
  eapply ok_entry; [done|]. destruct (PartitionName (PartEntry e)) as [|c arr] eqn:Ea; [done|].
  eapply ok_access; [done|]. case_if; [apply IH; [done..|lia]|].
  eapply ok_bind; [apply multi_slot_pair_ok; [done|lia..]|]. intros Status s1 K _ _.
  case_if; [by apply ok_ret|]. apply IH; [by apply (keeps_inv s)| |lia].
  by rewrite (keeps_count _ _ K).
Qed.

Lemma GetMultiSlotPartsList_ok s : slots_inv s -> ok (R := R) GetMultiSlotPartsList s anything.
Proof. intros H. unfold GetMultiSlotPartsList. apply ok_gets. by apply multi_slot_parts_ok. Qed.

Lemma slot_pair_loop_total es Cur New count i pc pn :
  (i + count <= length es)%nat ->
  (forall k, pc = Some k -> (k < length es)%nat) -> (forall k, pn = Some k -> (k < length es)%nat) ->
  exists pc' pn', slot_pair_loop es Cur New count i pc pn = Some (pc', pn') /\
    (forall k, pc' = Some k -> (k < length es)%nat) /\ (forall k, pn' = Some k -> (k < length es)%nat).
Proof.
  revert i pc pn. induction count as [|count IH]; intros i pc pn Hi Hc Hn; cbn [slot_pair_loop].
  { by exists pc, pn. }
  destruct (lookup_lt_is_Some_2 es i) as [e ->]; [lia|]. bind_step.
  repeat case_if; apply IH; try done; try lia; intros k [= <-]; lia.
Qed.

Lemma SwapPtnGuid_ok p1 p2 s :
  (forall k, p1 = Some k -> (k < length (PtnEntries s))%nat) ->
  (forall k, p2 = Some k -> (k < length (PtnEntries s))%nat) ->
  ok (R := R) (SwapPtnGuid p1 p2) s anything.
Proof.
  intros H1 H2. unfold SwapPtnGuid. destruct p1 as [i|]; [|by apply ok_ret].
  destruct p2 as [j|]; [|by apply ok_ret].
  destruct (lookup_lt_is_Some_2 (PtnEntries s) i) as [ei Hi]; [by apply H1|].
  destruct (lookup_lt_is_Some_2 (PtnEntries s) j) as [ej Hj]; [by apply H2|].
  eapply ok_entry; [done|]. cbv zeta. eapply ok_entry; [done|].
  eapply ok_bind; [eapply ok_update; [done..|apply SlotRel_guid]|].
  intros _ s1 K _ _.
  destruct (lookup_lt_is_Some_2 (PtnEntries s1) j) as [e Hj'].
  { rewrite (keeps_length _ _ K). by apply H2. }
  eapply ok_weaken; [eapply ok_update; [done..|apply SlotRel_guid]|done].
Qed.

Lemma switch_nodes_ok nodes SetActive SetInactive s :
  slots_inv s -> ok (R := R) (switch_nodes nodes SetActive SetInactive) s anything.
Proof.
  revert s. induction nodes as [|PartName nodes IH]; intros s Hinv; cbn [switch_nodes].
  { by apply ok_ret. }
  cbv zeta. apply ok_gets. apply ok_gets.
  destruct (slot_pair_loop_total (PtnEntries s) (slot_name PartName SetInactive)
    (slot_name PartName SetActive) (PartitionCount s) 0 None None) as (pc & pn & Hp & Hc & Hn); try done.
  { apply Hinv. }
  eapply ok_access; [done|]. cbn [fst snd].
  eapply ok_bind; [by apply SwapPtnGuid_ok|]. intros _ s1 K _ _. apply IH. by apply (keeps_inv s).
Qed.

Lemma SwitchPtnSlots_ok SetActive s :
  ufs_found -> slots_inv s -> ok (R := R) (SwitchPtnSlots SetActive) s anything.
Proof.
  intros Hu Hinv. unfold SwitchPtnSlots. cbv zeta. apply ok_gets.
  eapply (ok_bind _ _ _ anything).
  { destruct (HeadNode s); [by apply GetMultiSlotPartsList_ok|by apply ok_ret]. }
  intros Status s1 K1 _ _. case_if; [by apply ok_ret|]. apply ok_gets.
  eapply ok_bind; [apply switch_nodes_ok; by apply (keeps_inv s)|]. intros _ s2 _ _ _.
  eapply ok_bind; [apply is_ufs_ok|]. intros Ufs s3 _ _ _.
  eapply (ok_bind _ _ _ anything).
  { destruct Ufs; [by apply switch_boot_lun_ok|by apply ok_ret]. }
  intros. by apply ok_ret.
Qed.

(** ** The other functions, on a relation that lets attributes change *)
Context {SA : SlotRelAttributes R}.

Lemma change_attributes_ok i f s :
  slots_inv s -> (i < PartitionCount s)%nat -> ok (R := R) (change_attributes i f) s anything.
Proof.
  intros Hinv Hi. destruct (inv_entry s i Hinv Hi) as (e & He & _).
  unfold change_attributes.
  eapply ok_weaken; [eapply ok_update; [done..|apply SlotRel_attributes]|done].
Qed.

Lemma mark_loop_ok ActiveSlot count i s :
  slots_inv s -> (i + count <= PartitionCount s)%nat ->
  ok (R := R) (mark_loop ActiveSlot count i) s anything.
Proof.
  revert i s. induction count as [|count IH]; intros i s Hinv Hi; cbn [mark_loop].
  { by apply ok_ret. }
  destruct (inv_entry s i Hinv) as (e & He & Hs & _ & _); [lia|].
  eapply ok_entry; [done|]. eapply ok_access; [done|].
  eapply ok_bind; [eapply ok_update; [done..|apply SlotRel_attributes]|].
  intros _ s1 K _ _. apply IH; [by apply (keeps_inv s)|]. rewrite (keeps_count _ _ K). lia.
Qed.

Lemma MarkPtnActive_ok ActiveSlot s :
  slots_inv s -> ok (R := R) (MarkPtnActive ActiveSlot) s anything.
Proof.
  intros Hinv. unfold MarkPtnActive. apply ok_gets.
  eapply ok_bind; [by apply mark_loop_ok|]. intros. by apply ok_ret.
Qed.

(** A lookup by slot: the same state, and an index below the count. *)
Lemma ok_boot_entry {C} slot (f : option nat -> B C) s Q :
  slots_inv s ->
  (forall r, (forall i, r = Some i -> (i < PartitionCount s)%nat) -> ok (R := R) (f r) s Q) ->
  ok (R := R) (GetBootPartitionEntry slot ≫= f) s Q.
Proof.
  intros [Hb _] Hf. unfold GetBootPartitionEntry.
  destruct (GetPartitionIndex_total s (bytes "boot_a") Hb) as (ra & Hra & Ha).
  destruct (GetPartitionIndex_total s (bytes "boot_b") Hb) as (rb & Hrb & Hbb).
  case_if; [eapply ok_bind_pure; [exact Hra|by apply Hf]|].
  case_if; [eapply ok_bind_pure; [exact Hrb|by apply Hf]|].
  eapply ok_bind_pure; [done|by apply Hf].
Qed.

Ltac found_entry i :=
  apply ok_boot_entry; [assumption|]; intros [i|] ?; [|by apply ok_ret].

Lemma active_slot_loop_ok Slots slot p s :
  slots_inv s -> ok (R := R) (active_slot_loop Slots slot p) s (fun _ s' => s' = s).
Proof.
  intros Hinv. revert slot p. induction Slots as [|sl Slots IH]; intros slot p; cbn [active_slot_loop].
  { by apply ok_ret. }
  found_entry i. destruct (inv_entry s i Hinv) as (e & He & _); [by auto|].
  eapply ok_entry; [done|]. cbv zeta. case_if; [|apply IH].
  destruct StrnCpyS as [St chars]. case_if; [by apply ok_ret|apply IH].
Qed.

(** A slot that is found has a suffix. *)
Lemma GetActiveSlot_ok slot s :
  slots_inv s ->
  ok (R := R) (GetActiveSlot slot) s (fun r _ => fst r = EFI_SUCCESS -> Suffix (snd r) <> []).
Proof.
  intros Hinv. unfold GetActiveSlot.
  eapply ok_bind; [by apply active_slot_loop_ok|]. intros [St sl] s1 _ _ ->.
  case_if. { apply ok_ret. cbn [fst snd]. intros ->. discriminate. }
  cbn [IsSuffixEmpty]. rewrite StrLen_law. case_if.
  - apply ok_boot_entry; [done|]. intros [i|] Hi; [|by apply ok_ret].
    destruct (inv_entry s i Hinv) as (e & He & _); [by auto|].
    eapply ok_entry; [done|]. case_if; [|by apply ok_ret].
    eapply ok_bind; [by apply change_attributes_ok; auto|]. intros _ s2 _ _ _.
    rewrite copy_suffix by (cbn; lia). change (is_success EFI_SUCCESS) with true. cbn [negb].
    eapply ok_bind_pure; [done|].
    eapply (ok_bind _ _ _ anything).
    + apply ok_modify; [apply keeps_set_FirstBoot|apply SlotRel_first|done].
    + intros. by apply ok_ret.
  - apply ok_ret. cbn [fst snd]. intros _ E'. rewrite E' in E0. done.
Qed.

Lemma validate_boot_device_ok slot s :
  ufs_found -> ok (R := R) (validate_boot_device slot) s anything.
Proof.
  intros Hu. unfold validate_boot_device, GetRootDeviceType.
  eapply (ok_bind _ _ _ anything).
  { eapply (ok_bind _ _ _ anything); [apply CheckRootDeviceType_ok|intros; by apply ok_ret]. }
  intros name s1 _ _ _. case_if.
  - eapply ok_bind; [by apply UfsGetSetBootLun_ok|]. intros [St Lun] s2 _ _ _.
    repeat case_if; by apply ok_ret.
  - case_if; by apply ok_ret.
Qed.

Lemma ValidateSlotGuids_ok slot s :
  ufs_found -> slots_inv s -> Suffix slot <> [] -> ok (R := R) (ValidateSlotGuids slot) s anything.
Proof.
  intros Hu Hinv Hs. unfold ValidateSlotGuids. found_entry i. cbv zeta. rewrite StrLen_law.
  destruct (Nat.eqb_spec (length (Suffix slot)) 0) as [El|Nl].
  { by apply length_zero_iff_nil in El. }
  destruct (lookup_lt_is_Some_2 (Suffix slot) (length (Suffix slot) - 1)) as [c Hc]; [lia|].
  eapply ok_access; [done|]. unfold GetPartitionEntry.
  destruct (GetPartitionIndex_total s (bytes "abl_" ++ [c])) as (r & Hr & Hrb); [apply Hinv|].
  eapply ok_bind_pure; [exact Hr|]. destruct r as [j|]; [|by apply ok_ret].
  destruct (inv_entry s i Hinv) as (ei & Hei & _); [by auto|].
  destruct (inv_entry s j Hinv) as (ej & Hej & _); [by auto|].
  eapply ok_entry; [done|]. eapply ok_entry; [done|].
  case_if; [by apply ok_ret|]. by apply validate_boot_device_ok.
Qed.

Lemma SetActiveSlot_ok NewSlot Reset s :
  ufs_found -> slots_inv s -> ok (R := R) (SetActiveSlot NewSlot Reset) s anything.
Proof.
  intros Hu Hinv. unfold SetActiveSlot. destruct NewSlot as [NewSlot|]; [|by apply ok_ret].
  eapply ok_bind; [by apply GetActiveSlot_ok|]. intros [St Cur] s1 K1 _ _.
  case_if; [by apply ok_ret|]. cbv zeta. apply (keeps_inv _ _ K1) in Hinv.
  found_entry i. eapply ok_bind; [by apply change_attributes_ok; auto|]. intros _ s2 K2 _ _.
  apply (keeps_inv _ _ K2) in Hinv.
  found_entry j. eapply ok_bind; [by apply change_attributes_ok; auto|]. intros _ s3 K3 _ _.
  apply (keeps_inv _ _ K3) in Hinv. eapply ok_bind_pure; [done|].
  eapply (ok_bind _ _ _ anything); [|intros; by apply ok_ret].
  case_if; [by apply match_boot_lun_ok|].
  eapply ok_bind; [by apply SwitchPtnSlots_ok|]. intros _ s4 K4 _ _.
  apply MarkPtnActive_ok. by apply (keeps_inv s3).
Qed.

Lemma HandleActiveSlotUnbootable_ok s :
  ufs_found -> slots_inv s -> ok (R := R) HandleActiveSlotUnbootable s anything.
Proof.
  intros Hu Hinv. unfold HandleActiveSlotUnbootable.
  eapply ok_bind; [by apply GetActiveSlot_ok|]. intros [St Cur] s1 K1 _ _.
  case_if; [by apply ok_ret|]. apply (keeps_inv _ _ K1) in Hinv. found_entry i. apply ok_gets.
  eapply (ok_bind _ _ _ anything).
  { case_if.
    - apply ok_modify; [apply keeps_set_FirstBoot|apply SlotRel_first|done].
    - eapply ok_bind; [by apply change_attributes_ok; auto|]. intros. by apply ok_ret. }
  intros _ s2 K2 _ _. apply (keeps_inv _ _ K2) in Hinv. cbv zeta. found_entry j.
  destruct (inv_entry s2 j Hinv) as (ej & Hej & _); [by auto|].
  eapply ok_entry; [done|]. case_if; [|by apply ok_ret].
  eapply ok_bind; [by apply SetActiveSlot_ok|]. intros St' s3 _ _ _. case_if; [by apply ok_ret|].
  eapply ok_bind; [by apply ok_event|]. intros. by apply ok_ret.
Qed.

Lemma ClearUnbootable_ok s : slots_inv s -> ok (R := R) ClearUnbootable s anything.
Proof.
  intros Hinv. unfold ClearUnbootable.
  eapply ok_bind; [by apply GetActiveSlot_ok|]. intros [St Cur] s1 K1 _ _.
  case_if; [by apply ok_ret|]. apply (keeps_inv _ _ K1) in Hinv. found_entry i.
  eapply ok_bind; [by apply change_attributes_ok; auto|]. intros. by apply ok_ret.
Qed.

Lemma IsCurrentSlotBootable_ok s : slots_inv s -> ok (R := R) IsCurrentSlotBootable s anything.
Proof.
  intros Hinv. unfold IsCurrentSlotBootable.
  eapply ok_bind; [by apply GetActiveSlot_ok|]. intros [St Cur] s1 K1 _ _.
  case_if; [by apply ok_ret|]. apply (keeps_inv _ _ K1) in Hinv. found_entry i.
  destruct (inv_entry s1 i Hinv) as (ei & Hei & _); [by auto|].
  eapply ok_entry; [done|]. by apply ok_ret.
Qed.

Lemma check_bootable_ok slot i s :
  ufs_found -> slots_inv s -> (i < PartitionCount s)%nat ->
  ok (R := R) (check_bootable slot i) s anything.
Proof.
  intros Hu Hinv Hi. unfold check_bootable.
  destruct (inv_entry s i Hinv Hi) as (e & He & _). eapply ok_entry; [done|]. cbv zeta.
  case_if; [by apply ok_ret|]. case_if; [|by apply HandleActiveSlotUnbootable_ok].
  case_if; [|by apply ok_ret].
  eapply ok_bind; [by apply change_attributes_ok|]. intros. by apply ok_ret.
Qed.

Lemma FindBootableSlot_ok slot s :
  ufs_found -> slots_inv s -> ok (R := R) (FindBootableSlot slot) s anything.
Proof.
  intros Hu Hinv. unfold FindBootableSlot. destruct slot as [slot|]; [|by apply ok_ret].
  eapply (ok_bind _ _ _ anything); [|intros; by apply ok_ret]. unfold find_bootable_slot.
  eapply ok_bind; [by apply GetActiveSlot_ok|]. intros [St sl] s1 K1 _ Hs. cbn [fst snd] in Hs.
  case_if; [by apply ok_ret|]. apply (keeps_inv _ _ K1) in Hinv.
  found_entry i. eapply ok_bind; [by apply check_bootable_ok; auto|].
  intros St2 s2 K2 _ _. apply (keeps_inv _ _ K2) in Hinv. case_if; [by apply ok_ret|].
  eapply ok_bind; [apply CheckRootDeviceType_ok|]. intros ty s3 K3 _ _.
  apply (keeps_inv _ _ K3) in Hinv. eapply (ok_bind _ _ _ anything).
  { case_if; [|by apply ok_ret]. apply ValidateSlotGuids_ok; [done..|]. apply Hs.
    unfold is_success in E. by apply negb_false_iff, bool_decide_eq_true in E. }
  intros St4 s4 K4 _ _. apply (keeps_inv _ _ K4) in Hinv. case_if; [by apply ok_ret|].
  eapply ok_bind; [by apply MarkPtnActive_ok|]. intros. by apply ok_ret.
Qed.
End pieces.

(** ** Partitions with slots *)

(** The entry is a slot of the partition: its name goes on with "_a" or "_b". *)
Definition slot_of (Pname : list Z) (e : PartitionEntry) : Prop :=
  (Pname ++ bytes "_a") `prefix_of` name_of e \/ (Pname ++ bytes "_b") `prefix_of` name_of e.
#[export] Instance slot_of_dec Pname e : Decision (slot_of Pname e).
Proof. unfold slot_of. apply _. Defined.

Lemma c_string_terminated arr name :
  c_string arr 0 = Some name -> exists rest, arr = name ++ 0 :: rest /\ cstring name.
Proof.
  intros H. pose proof (c_string_0_chars _ _ H) as Hc. unfold c_string in H. rewrite drop_0, Nat.add_0_l in H. revert H.
  destruct (Nat.ltb_spec (count_while (fun c => negb (c =? 0)) arr) (length arr)) as [Hl|]; [intros _|done].
  destruct (lookup_lt_is_Some_2 arr _ Hl) as [c Hcs].
  pose proof (count_while_stop _ _ _ Hcs) as Hz. apply negb_false_iff, Z.eqb_eq in Hz. subst c.
  exists (drop (S (count_while (fun c => negb (c =? 0)) arr)) arr). split.
  - rewrite <- Hc. unfold chars_of. by rewrite <- (drop_S _ _ _ Hcs), take_drop.
  - rewrite <- Hc. apply chars_of_cstring.
Qed.

(** The two reads after a matching prefix, and what they decide. *)
Lemma multi_slot_step es Pname count i k e name rest :
  es !! i = Some e -> PartitionName (PartEntry e) = name ++ 0 :: rest -> cstring name ->
  multi_slot_loop es Pname (S count) i k =
    if bool_decide (slot_of Pname e) then
      if MIN_SLOTS <? u32 (k + 1) then Some true
      else multi_slot_loop es Pname count (S i) (u32 (k + 1))
    else multi_slot_loop es Pname count (S i) k.
Proof.
  intros He Ha Hs. cbn [multi_slot_loop]. rewrite He. bind_step. rewrite StrnCmp_eqb, StrLen_law.
  assert (Hn : name_of e = name) by (unfold name_of; rewrite Ha; by apply chars_of_terminated).
  assert (Hiff : slot_of Pname e <->
    (Pname ++ bytes "_a") `prefix_of` name \/ (Pname ++ bytes "_b") `prefix_of` name).
  { unfold slot_of. by rewrite Hn. }
  rewrite (take_ge Pname), Hn by done. case_bool_decide as Hp.
  2: { rewrite bool_decide_false; [done|]. rewrite Hiff. intros [[x ->] | [x ->]]; apply Hp;
       by rewrite <- !app_assoc, take_app_length. }
  assert (name = Pname ++ drop (length Pname) name) as Hsplit.
  { rewrite <- Hp at 1. by rewrite take_drop. }
  set (t := drop (length Pname) name) in *. clearbody t. rewrite Hsplit in Ha, Hiff.
  rewrite Ha, <- app_assoc.
  assert (Hpre : slot_of Pname e <-> bytes "_a" `prefix_of` t \/ bytes "_b" `prefix_of` t).
  { rewrite Hiff. split; (intros [H|H]; [left|right]);
      by (apply prefix_app_inv in H || apply prefix_app). }
  rewrite (lookup_app_r Pname _ (length Pname)) by lia. rewrite Nat.sub_diag.
  destruct t as [|c t]; cbn [app lookup list_lookup]; bind_step.
  { rewrite bool_decide_false; [done|]. rewrite Hpre.
    by intros [H%prefix_nil_inv|H%prefix_nil_inv]. }
  destruct (Z.eqb_spec c (ch "_")) as [->|Hc].
  2: { rewrite bool_decide_false; [done|]. rewrite Hpre. by intros [[x [= -> _]]|[x [= -> _]]]. }
  rewrite (lookup_app_r Pname _ (S (length Pname))) by lia. replace (S (length Pname) - length Pname)%nat with 1%nat by lia.
  destruct t as [|d t]; cbn [app lookup list_lookup]; bind_step.
  { rewrite bool_decide_false; [done|]. rewrite Hpre. by intros [[x [=]]|[x [=]]]. }
  replace (bool_decide _) with ((d =? ch "a") || (d =? ch "b")); [done|].
  apply eq_bool_prop_intro. rewrite !Is_true_true, bool_decide_eq_true, orb_true_iff, !Z.eqb_eq, Hpre.
  split; (intros [H|H]; [left|right]).
  - rewrite H. by exists t.
  - rewrite H. by exists t.
  - destruct H as [x H]. by injection H as ->.
  - destruct H as [x H]. by injection H as ->.
Qed.

Lemma multi_slot_loop_spec s Pname count i k :
  slots_inv s -> (i + count <= PartitionCount s)%nat -> 0 <= k <= 1 ->
  multi_slot_loop (PtnEntries s) Pname count i k =
    Some (bool_decide (2 <= k + Z.of_nat (length (filter (slot_of Pname)
            (take count (drop i (PtnEntries s))))))).
Proof.
  intros [Hb Hn]. revert i k. induction count as [|count IH]; intros i k Hi Hk.
  { rewrite take_0. cbn. f_equal. symmetry. apply bool_decide_false. lia. }
  destruct (lookup_lt_is_Some_2 (PtnEntries s) i) as [e He]; [lia|].
  destruct (Hn i (PartitionName (PartEntry e))) as (name & Hs & _); [lia| |].
  { unfold name_arrays. by rewrite list_lookup_fmap, He. }
  destruct (c_string_terminated _ _ Hs) as (rest & Ha & Hc).
  rewrite (multi_slot_step _ _ _ _ _ e name rest) by done.
  rewrite (drop_S _ _ _ He). cbn [take]. rewrite filter_cons.
  case_bool_decide as Hp; [rewrite decide_True by done|rewrite decide_False by done; apply IH; lia].
  rewrite u32_small by (unfold in_u32; lia). cbn [length]. unfold MIN_SLOTS.
  destruct (Z.ltb_spec 1 (k + 1)).
  - f_equal. symmetry. apply bool_decide_true. lia.
  - rewrite IH by lia. f_equal. apply bool_decide_ext. lia.
Qed.

Lemma PartitionHasMultiSlot_spec s Pname :
  slots_inv s ->
  PartitionHasMultiSlot Pname s =
    Some (bool_decide (2 <= length (filter (slot_of Pname)
            (take (PartitionCount s) (PtnEntries s))))%nat, s).
Proof.
  intros Hinv. unfold PartitionHasMultiSlot. run.
  rewrite (multi_slot_loop_spec s Pname (PartitionCount s) 0 0) by (done || lia).
  run. rewrite drop_0. repeat f_equal. apply bool_decide_ext. lia.
Qed.

(** A partition has slots exactly when at least two entries of the list
    are its slots: their names go on with "_a" or "_b".  The loop reads no name
    past its end, and changes nothing. *)
Theorem PartitionHasMultiSlot_iff s Pname :
  slots_inv s ->
  PartitionHasMultiSlot Pname s =
    Some (bool_decide (2 <= length (filter (slot_of Pname)
            (take (PartitionCount s) (PtnEntries s))))%nat, s).
Proof. apply PartitionHasMultiSlot_spec. Qed.

Lemma GetCurrentSlotSuffix_ok s :
  slots_inv s -> ok (R := any_change) GetCurrentSlotSuffix s anything.
Proof.
  intros Hinv. unfold GetCurrentSlotSuffix.
  eapply ok_bind_pure; [by apply PartitionHasMultiSlot_spec|]. case_if; [by apply ok_ret|].
  eapply ok_bind; [by apply GetActiveSlot_ok|]. intros. by apply ok_ret.
Qed.

(** ** Any sequence of calls *)
Inductive slot_call :=
| CallGetCurrentSlotSuffix
| CallFindPtnActiveSlot
| CallIsCurrentSlotBootable
| CallSwitchPtnSlots (Suffix_ : list Z)
| CallMarkPtnActive (Suffix_ : list Z)
| CallSetActiveSlot (NewSlot : option Slot) (ResetSuccessBit : bool)
| CallHandleActiveSlotUnbootable
| CallClearUnbootable
| CallFindBootableSlot (BootableSlot : option Slot).

Definition ignore {A} (m : B A) : B unit := _ ← m; mret tt.
Definition run_call (c : slot_call) : B unit :=
  match c with
  | CallGetCurrentSlotSuffix => ignore GetCurrentSlotSuffix
  | CallFindPtnActiveSlot => FindPtnActiveSlot
  | CallIsCurrentSlotBootable => ignore IsCurrentSlotBootable
  | CallSwitchPtnSlots Suffix_ => SwitchPtnSlots Suffix_
  | CallMarkPtnActive Suffix_ => MarkPtnActive Suffix_
  | CallSetActiveSlot NewSlot Reset => ignore (SetActiveSlot NewSlot Reset)
  | CallHandleActiveSlotUnbootable => ignore HandleActiveSlotUnbootable
  | CallClearUnbootable => ignore ClearUnbootable
  | CallFindBootableSlot slot => ignore (FindBootableSlot slot)
  end.
Fixpoint run_calls (cs : list slot_call) : B unit :=
  match cs with [] => mret tt | c :: cs' => _ ← run_call c; run_calls cs' end.

Lemma ok_ignore {A} (m : B A) s (Q : A -> boot_state -> Prop) :
  ok (R := any_change) m s Q -> ok (R := any_change) (ignore m) s anything.
Proof. intros H. eapply ok_bind; [exact H|]. intros. by apply ok_ret. Qed.

Lemma run_call_ok c s : ufs_found -> slots_inv s -> ok (R := any_change) (run_call c) s anything.
Proof.
  intros Hu Hinv. destruct c; cbn [run_call].
  - eapply ok_ignore. by apply GetCurrentSlotSuffix_ok.
  - eapply ok_bind; [by apply GetActiveSlot_ok|]. intros. by apply ok_ret.
  - eapply ok_ignore. by apply IsCurrentSlotBootable_ok.
  - by apply SwitchPtnSlots_ok.
  - by apply MarkPtnActive_ok.
  - eapply ok_ignore. by apply SetActiveSlot_ok.
  - eapply ok_ignore. by apply HandleActiveSlotUnbootable_ok.
  - eapply ok_ignore. by apply ClearUnbootable_ok.
  - eapply ok_ignore. by apply FindBootableSlot_ok.
Qed.

(** C8 From a well-formed partition list, any sequence of calls of the slot
    functions ends without a fault, keeps the list well-formed with its names and
    its backup copy, and asks the devices for nothing but a change of the boot LUN
    or a reset: the new attributes and GUIDs are never written to a partition
    table. *)
Theorem run_calls_quiet cs s :
  ufs_found -> slots_inv s ->
  exists s', run_calls cs s = Some (tt, s') /\ slots_inv s' /\
    name_arrays s' = name_arrays s /\ PtnEntriesBak s' = PtnEntriesBak s /\
    exists evs, log s' = log s ++ evs /\ Forall quiet evs.
Proof.
  intros Hu Hinv. enough (ok (R := any_change) (run_calls cs) s anything) as (u & s' & Hr & K & _).
  { exists s'. destruct u. destruct K as [? ? ? ?] eqn:EK. split; [done|].
    split; [by apply (keeps_inv s)|done]. }
  revert s Hinv. induction cs as [|c cs IH]; intros s Hinv; cbn [run_calls]; [by apply ok_ret|].
  eapply ok_bind; [by apply run_call_ok|]. intros _ s1 K _ _. apply IH. by apply (keeps_inv s).
Qed.
End safe.

Lemma demo_slots_inv a b : slots_inv (demo_slots a b).
Proof.
  split; [cbn; lia|]. intros i arr Hi. cbn in Hi.
  destruct i as [|[|[|[|i]]]]; [..|lia]; intros [= <-]; eexists; (split; [reflexivity|by apply Nat.leb_le]).
Qed.

Lemma PartitionHasMultiSlot_iff_witness :
  PartitionHasMultiSlot (UL := reference_UnicodeLib) (bytes "boot") (demo_slots 0 0) =
    Some (bool_decide (2 <= length (filter (slot_of (bytes "boot"))
            (take (PartitionCount (demo_slots 0 0)) (PtnEntries (demo_slots 0 0)))))%nat, demo_slots 0 0).
Proof.
  exact (PartitionHasMultiSlot_iff (UL := reference_UnicodeLib) (ULL := reference_UnicodeLib_laws)
    (demo_slots 0 0) (bytes "boot") (demo_slots_inv 0 0)).
Defined.

Lemma demo_ufs_found : ufs_found (FW := demo_Firmware).
Proof. intros _ [=]. Qed.

Lemma run_calls_quiet_witness :
  exists s', run_calls (FW := demo_Firmware) (BL := reference_BaseLib) (UL := reference_UnicodeLib)
      (BM := demo_BootMode) (BC := demo_BuildConfig)
      [CallSetActiveSlot (Some slot_b) true; CallFindBootableSlot (Some empty_slot)]
      (demo_slots (first_boot_attributes 0) 0) = Some (tt, s') /\ slots_inv s' /\
    name_arrays s' = name_arrays (demo_slots (first_boot_attributes 0) 0) /\
    PtnEntriesBak s' = PtnEntriesBak (demo_slots (first_boot_attributes 0) 0) /\
    exists evs, log s' = log (demo_slots (first_boot_attributes 0) 0) ++ evs /\ Forall quiet evs.
Proof.
  exact (run_calls_quiet (FW := demo_Firmware) (BL := reference_BaseLib)
    (UL := reference_UnicodeLib) (ULL := reference_UnicodeLib_laws)
    (BM := demo_BootMode) (BC := demo_BuildConfig) _ _ demo_ufs_found (demo_slots_inv _ _)).
Defined.
