(* ===== verification/SlotsBoot.v ===== *)
(** * A/B slots: making a slot active, and choosing the slot to boot.

    The functions that change the slots, described by the attributes of the two
    boot partitions before and after. *)
From stdpp Require Import base numbers list option strings.
From Stdlib Require Import ZArith Lia Ascii.
From S2P Require Import Prelude BaseLib Unicode Storage Bytes StorageSpec Gpt Partitions Slots SlotsSpec SlotsSafe.
Local Open Scope Z_scope.

(** ** The bits the functions set *)

(** Constant masks are computed. *)
Ltac mask := by vm_compute.

Lemma lor_ones x n : 0 <= n -> 0 <= x < 2 ^ n -> Z.lor x (Z.ones n) = Z.ones n.
Proof.
  intros Hn Hx. destruct (decide (x = 0)) as [->|Hne]; [apply Z.lor_0_l|].
  apply Z.lor_ones_low; [lia|]. apply Z.log2_lt_pow2; lia.
Qed.

Definition retries_of (a : Z) : Z :=
  bit_field a PART_ATT_MAX_RETRY_COUNT_VAL PART_ATT_MAX_RETRY_CNT_BIT.
Definition successful (a : Z) : bool := has_bits a PART_ATT_SUCCESSFUL_VAL.
Definition unbootable (a : Z) : bool := has_bits a PART_ATT_UNBOOTABLE_VAL.
Definition active (a : Z) : bool := has_bits a PART_ATT_ACTIVE_VAL.

Lemma retries_range a : 0 <= retries_of a <= 7.
Proof.
  pose proof (bit_field_range a 3 PART_ATT_MAX_RETRY_CNT_BIT ltac:(lia) ltac:(by vm_compute)).
  unfold retries_of. change PART_ATT_MAX_RETRY_COUNT_VAL
    with (Z.shiftl (Z.ones 3) PART_ATT_MAX_RETRY_CNT_BIT). lia.
Qed.

Lemma has_bits_clear a m k : has_bits (clear_bits a m) k = has_bits a (Z.land (u64 (Z.lnot m)) k).
Proof. apply has_bits_land. Qed.
Lemma bit_field_clear a m k n :
  bit_field (clear_bits a m) k n = bit_field a (Z.land (u64 (Z.lnot m)) k) n.
Proof. apply bit_field_land. Qed.

(** A field that is all ones, whatever it was. *)
Lemma bit_field_ones a w k :
  0 <= w -> 0 <= k -> Z.lor (bit_field a (Z.shiftl (Z.ones w) k) k) (Z.ones w) = Z.ones w.
Proof. intros Hw Hk. apply lor_ones; [done|]. by apply bit_field_range. Qed.

(** The slot made active: highest priority, all its retries, bootable. *)
Lemma new_slot_attributes_spec reset a :
  let a' := new_slot_attributes reset a in
  active a' = true /\ priority_of a' = MAX_PRIORITY /\ retries_of a' = 7 /\
  unbootable a' = false /\ successful a' = negb reset && successful a.
Proof.
  cbv zeta. unfold new_slot_attributes. cbv zeta. set (x := Z.lor a _).
  set (K := Z.lor (Z.lor _ _) _) in x.
  assert (HK : forall m, has_bits x m = has_bits a m || has_bits K m) by (intros; apply has_bits_lor).
  assert (HF : forall m k, bit_field x m k = Z.lor (bit_field a m k) (bit_field K m k))
    by (intros; apply bit_field_lor).
  assert (Hact : has_bits x PART_ATT_ACTIVE_VAL = true).
  { rewrite HK. change (has_bits K PART_ATT_ACTIVE_VAL) with true. apply orb_true_r. }
  assert (Hpri : bit_field x PART_ATT_PRIORITY_VAL PART_ATT_PRIORITY_BIT = 3).
  { rewrite HF. apply (bit_field_ones a 2 48); lia. }
  assert (Hret : bit_field x PART_ATT_MAX_RETRY_COUNT_VAL PART_ATT_MAX_RETRY_CNT_BIT = 7).
  { rewrite HF. apply (bit_field_ones a 3 51); lia. }
  assert (Hsuc : has_bits x PART_ATT_SUCCESSFUL_VAL = successful a).
  { rewrite HK. change (has_bits K PART_ATT_SUCCESSFUL_VAL) with false. apply orb_false_r. }
  assert (Hs : has_bits (clear_bits x PART_ATT_UNBOOTABLE_VAL) PART_ATT_SUCCESSFUL_VAL = successful a)
    by (rewrite has_bits_clear; exact Hsuc).
  set (y := clear_bits x PART_ATT_UNBOOTABLE_VAL) in *.
  assert (Hy : active y = true /\ priority_of y = 3 /\ retries_of y = 7 /\ unbootable y = false).
  { unfold active, priority_of, retries_of, unbootable, y. rewrite !has_bits_clear, !bit_field_clear.
    split; [exact Hact|]. split; [exact Hpri|]. split; [exact Hret|]. apply has_bits_0. }
  destruct Hy as (Ha & Hp & Hr & Hu). rewrite Hs.
  destruct reset; [destruct (successful a) eqn:Es|]; cbn [andb negb]; [|done..].
  unfold active, priority_of, retries_of, unbootable, successful.
  rewrite !has_bits_clear, !bit_field_clear.
  split; [exact Ha|]. split; [exact Hp|]. split; [exact Hr|]. split; [exact Hu|]. apply has_bits_0.
Qed.

(** The other slot: next priority, not active, the rest as it was. *)
Lemma alternate_attributes_spec a :
  let a' := alternate_attributes a in
  active a' = false /\ priority_of a' = MAX_PRIORITY - 1 /\ retries_of a' = retries_of a /\
  unbootable a' = unbootable a /\ successful a' = successful a.
Proof.
  cbv zeta. unfold alternate_attributes, active, priority_of, retries_of, unbootable, successful.
  rewrite !has_bits_lor, !bit_field_lor, !has_bits_land, !bit_field_land.
  split; [apply orb_false_iff; split; [apply has_bits_0|done]|].
  split; [change (Z.land _ PART_ATT_PRIORITY_VAL) with 0; by rewrite bit_field_0|].
  split; [apply Z.lor_0_r|]. by split; apply orb_false_r.
Qed.

(** Marking leaves both as they are. *)
Lemma new_slot_attributes_marked reset a :
  Z.lor (new_slot_attributes reset a) PART_ATT_ACTIVE_VAL = new_slot_attributes reset a.
Proof.
  assert (H : forall x y, Z.lor x PART_ATT_ACTIVE_VAL = x -> Z.lor y PART_ATT_ACTIVE_VAL = y ->
    Z.lor (Z.land x y) PART_ATT_ACTIVE_VAL = Z.land x y).
  { intros x y Hx Hy. rewrite Z.lor_land_distr_l. by rewrite Hx, Hy. }
  unfold new_slot_attributes, clear_bits. cbv zeta. case_if; repeat (apply H; [|mask]);
    by rewrite <- Z.lor_assoc.
Qed.
Lemma alternate_attributes_marked a :
  clear_bits (alternate_attributes a) PART_ATT_ACTIVE_VAL = alternate_attributes a.
Proof.
  unfold alternate_attributes, clear_bits. rewrite Z.land_lor_distr_l, <- Z.land_assoc. by f_equal.
Qed.

(** ** What a change of the attributes leaves alone *)
Lemma keeps_name s s' i e :
  keeps s s' -> PtnEntries s !! i = Some e ->
  exists e', PtnEntries s' !! i = Some e' /\ name_of e' = name_of e.
Proof.
  intros K He. assert (H : name_arrays s' !! i = name_arrays s !! i) by (by rewrite (keeps_names _ _ K)).
  unfold name_arrays in H. rewrite !list_lookup_fmap, He in H.
  destruct (PtnEntries s' !! i) as [e'|]; [|done]. exists e'. split; [done|].
  unfold name_of. by injection H as ->.
Qed.

Lemma keeps_sym_names s s' : keeps s s' -> name_arrays s = name_arrays s'.
Proof. intros K. by rewrite (keeps_names _ _ K). Qed.

Lemma keeps_named_at s s' name i :
  keeps s s' -> named_at (PtnEntries s) (PartitionCount s) name i ->
  named_at (PtnEntries s') (PartitionCount s') name i.
Proof.
  intros K (Hi & (e & He & Hn) & Hj). rewrite (keeps_count _ _ K). split; [done|]. split.
  - destruct (keeps_name _ _ _ _ K He) as (e' & He' & Hn'). exists e'. by rewrite Hn'.
  - intros j e' Hji He'. assert (Hl := lookup_lt_Some _ _ _ He'). rewrite (keeps_length _ _ K) in Hl.
    destruct (lookup_lt_is_Some_2 (PtnEntries s) j Hl) as [e0 He0].
    destruct (keeps_name _ _ _ _ K He0) as (e1 & He1 & Hn1). rewrite He' in He1.
    injection He1 as <-. rewrite Hn1. by apply (Hj j).
Qed.

Lemma keeps_ab_ok s s' ia ib : keeps s s' -> ab_ok s ia ib -> ab_ok s' ia ib.
Proof.
  intros K [Hb Ha Hb']. split; [|by apply (keeps_named_at s)..].
  by rewrite (keeps_count _ _ K), (keeps_length _ _ K).
Qed.

Lemma same_attributes_at s s' i a : same_attributes s s' -> attr_at s i a -> attr_at s' i a.
Proof. unfold same_attributes, attr_at. intros H. by rewrite <- !list_lookup_fmap, H. Qed.

#[export] Instance Slot_eq_dec : EqDecision Slot.
Proof. solve_decision. Defined.

(** The slot that is active for the attributes [a] and [b] of the boot partitions,
    and the attributes of slot _a once it was looked up: a device that was never
    booted starts with slot _a. *)
Definition active_of (a b : Z) : option Slot :=
  match best_slot a b with
  | Some w => Some w
  | None => if never_booted a then Some slot_a else None
  end.
Definition looked_up (a b : Z) : Z :=
  match best_slot a b with Some _ => a | None => first_boot_attributes a end.

(** The one of two things that belongs to the slot, and the other one. *)
Definition of_slot {A} (w : Slot) (x y : A) : A := if decide (w = slot_a) then x else y.

Section boot.
Context {FW : Firmware} {BL : BaseLib} {BLL : BaseLibLaws BL} {UL : UnicodeLib}.
Context {ULL : UnicodeLibLaws UL} {BM : BootMode} {BC : BuildConfig}.

(** A change of one entry's attributes. *)
Lemma change_attributes_run i f s a :
  attr_at s i a ->
  exists s', change_attributes i f s = Some (tt, s') /\ keeps s s' /\ attr_at s' i (f a) /\
    (forall k c, k <> i -> attr_at s k c -> attr_at s' k c) /\
    RootType s' = RootType s /\ FirstBoot s' = FirstBoot s /\ log s' = log s.
Proof.
  unfold attr_at. intros Ha. destruct (PtnEntries s !! i) as [e|] eqn:He; [|done].
  injection Ha as Ha. eexists. split; [by apply (change_attributes_at _ _ _ e)|].
  split; [by apply keeps_alter|]. cbn [PtnEntries set_PtnEntries].
  split; [by rewrite list_lookup_alter_eq, He, <- Ha|].
  split; [|done]. intros k c Hk Hc. by rewrite list_lookup_alter_ne.
Qed.

(** What marking does to the attributes of an entry. *)
Definition mark_attributes (ActiveSlot name : list Z) (a : Z) : Z :=
  match StrStr name ActiveSlot with
  | Some _ => Z.lor a PART_ATT_ACTIVE_VAL
  | None => clear_bits a PART_ATT_ACTIVE_VAL
  end.

Lemma mark_loop_run ActiveSlot count i s :
  slots_inv s -> (i + count <= PartitionCount s)%nat ->
  exists s', mark_loop ActiveSlot count i s = Some (tt, s') /\ keeps s s' /\
    RootType s' = RootType s /\ FirstBoot s' = FirstBoot s /\ log s' = log s /\
    forall k e, PtnEntries s !! k = Some e ->
      attr_at s' k (if decide (i <= k < i + count)%nat
                    then mark_attributes ActiveSlot (name_of e) (attributes e) else attributes e).
Proof.
  revert i s. induction count as [|count IH]; intros i s Hinv Hi; cbn [mark_loop].
  { exists s. split; [done|]. split; [reflexivity|]. split; [done|]. split; [done|]. split; [done|].
    intros k e He. rewrite decide_False by lia. unfold attr_at. by rewrite He. }
  destruct (inv_entry s i Hinv) as (e & He & Hs & _ & _); [lia|].
  set (s1 := set_PtnEntries (alter (mark_entry ActiveSlot (name_of e)) i (PtnEntries s)) s).
  assert (K1 : keeps s s1) by (by apply keeps_alter).
  destruct (IH (S i) s1) as (s' & Hr & K & HR & HF & HL & Hat).
  { by apply (keeps_inv s). } { rewrite (keeps_count _ _ K1). lia. }
  exists s'. split.
  { run. rewrite (ptn_entry_at _ _ _ He), Hs. run.
    rewrite (update_entry_at _ _ _ _ He), <- (list_alter_insert _ _ _ _ He). exact Hr. }
  split; [by transitivity s1|]. split; [done|]. split; [done|]. split; [done|]. intros k e' He'.
  destruct (decide (k = i)) as [->|Hne].
  - rewrite He in He'. injection He' as <-. rewrite decide_True by lia.
    specialize (Hat i (mark_entry ActiveSlot (name_of e) e)). rewrite decide_False in Hat by lia.
    apply Hat. unfold s1. cbn [PtnEntries set_PtnEntries]. by rewrite list_lookup_alter_eq, He.
  - specialize (Hat k e'). unfold s1 in Hat. cbn [PtnEntries set_PtnEntries] in Hat.
    rewrite list_lookup_alter_ne in Hat by done. specialize (Hat He').
    destruct (decide (S i <= k < S i + count)%nat), (decide (i <= k < i + S count)%nat);
      try done; lia.
Qed.

(** The slots [w] and [o], in either order, with their entries. *)
Definition slots_at (s : boot_state) (w o : Slot) (iw io : nat) : Prop :=
  (w = slot_a /\ o = slot_b /\ ab_ok s iw io) \/ (w = slot_b /\ o = slot_a /\ ab_ok s io iw).

Lemma slots_at_sym s w o iw io : slots_at s w o iw io -> slots_at s o w io iw.
Proof. intros [(-> & -> & H)|(-> & -> & H)]; [right|left]; done. Qed.

Lemma keeps_slots_at s s' w o iw io : keeps s s' -> slots_at s w o iw io -> slots_at s' w o iw io.
Proof. intros K [(-> & -> & H)|(-> & -> & H)]; [left|right]; by eauto using keeps_ab_ok. Qed.

Lemma slots_at_entry s w o iw io :
  slots_at s w o iw io -> GetBootPartitionEntry w s = Some (Some iw, s).
Proof.
  intros [(-> & -> & H)|(-> & -> & H)];
    [by eapply GetBootPartitionEntry_a|by eapply GetBootPartitionEntry_b].
Qed.

Lemma slots_at_bound s w o iw io :
  slots_at s w o iw io -> (iw < PartitionCount s)%nat /\ iw <> io.
Proof.
  intros [(-> & -> & H)|(-> & -> & H)]; destruct (ab_lookup _ _ _ H) as (_ & _ & Hne);
    destruct H as [_ Ha Hb]; (split; [by apply Ha || apply Hb|congruence]).
Qed.

Lemma slots_at_name s w o iw io :
  slots_at s w o iw io -> exists e, PtnEntries s !! iw = Some e /\ name_of e = bytes "boot" ++ Suffix w.
Proof.
  intros [(-> & -> & H)|(-> & -> & H)]; destruct (ab_lookup _ _ _ H) as (Ha & Hb & _); done.
Qed.

(** The alternate slot as the code computes it. *)
Lemma alternate_slot s w o iw io :
  slots_at s w o iw io ->
  (if StrnCmp (Suffix w) (Suffix slot_a) (StrLen (Suffix slot_a)) =? 0 then slot_b else slot_a) = o.
Proof. intros [(-> & -> & _)|(-> & -> & _)]; by rewrite StrnCmp_eqb, StrLen_law. Qed.

Lemma slots_at_mark s w o iw io :
  slots_at s w o iw io -> forall a,
  mark_attributes (Suffix w) (bytes "boot" ++ Suffix w) a = Z.lor a PART_ATT_ACTIVE_VAL /\
  mark_attributes (Suffix w) (bytes "boot" ++ Suffix o) a = clear_bits a PART_ATT_ACTIVE_VAL.
Proof.
  intros H a. unfold mark_attributes. split.
  - destruct (StrStr (bytes "boot" ++ Suffix w) (Suffix w)) eqn:E; [done|]. exfalso.
    rewrite StrStr_None in E. apply (E 4%nat).
    by destruct H as [(-> & _)|(-> & _)]; apply (bool_decide_unpack _); vm_compute.
  - destruct (StrStr (bytes "boot" ++ Suffix o) (Suffix w)) as [k|] eqn:E; [|done]. exfalso.
    pose proof (StrStr_law (bytes "boot" ++ Suffix o) (Suffix w)) as Hk. rewrite E in Hk.
    destruct Hk as [Hk _]. unfold occurs_at in Hk.
    destruct H as [(-> & -> & _)|(-> & -> & _)];
      destruct Hk as [Hl Hk]; cbn in Hl; (do 5 (destruct k as [|k]; [done|])); lia.
Qed.

Lemma MarkPtnActive_run s w o iw io x y :
  slots_inv s -> slots_at s w o iw io -> attr_at s iw x -> attr_at s io y ->
  exists s', MarkPtnActive (Suffix w) s = Some (tt, s') /\ keeps s s' /\
    RootType s' = RootType s /\ FirstBoot s' = FirstBoot s /\ log s' = log s /\
    attr_at s' iw (Z.lor x PART_ATT_ACTIVE_VAL) /\
    attr_at s' io (clear_bits y PART_ATT_ACTIVE_VAL).
Proof.
  intros Hinv Hat Hx Hy.
  destruct (mark_loop_run (Suffix w) (PartitionCount s) 0 s Hinv) as (s' & Hr & K & HR & HF & HL & Ha).
  { lia. }
  exists s'. split; [unfold MarkPtnActive; run; by rewrite Hr|].
  split; [done|]. split; [done|]. split; [done|]. split; [done|].
  destruct (slots_at_mark _ _ _ _ _ Hat x) as [Hmx _].
  destruct (slots_at_mark _ _ _ _ _ Hat y) as [_ Hmy]. rewrite <- Hmx, <- Hmy.
  destruct (slots_at_name _ _ _ _ _ Hat) as (ew & Hew & <-).
  destruct (slots_at_name _ _ _ _ _ (slots_at_sym _ _ _ _ _ Hat)) as (eo & Heo & <-).
  destruct (slots_at_bound _ _ _ _ _ Hat) as [Hbw _].
  destruct (slots_at_bound _ _ _ _ _ (slots_at_sym _ _ _ _ _ Hat)) as [Hbo _].
  unfold attr_at in Hx, Hy. rewrite Hew in Hx. rewrite Heo in Hy. injection Hx as <-. injection Hy as <-.
  split.
  - specialize (Ha iw ew Hew). by rewrite decide_True in Ha by lia.
  - specialize (Ha io eo Heo). by rewrite decide_True in Ha by lia.
Qed.

(** The only eligible slot is the active one. *)
Lemma slots_at_active s w o iw io x y slot :
  slots_at s w o iw io -> attr_at s iw x -> attr_at s io y ->
  eligible x = true -> eligible y = false ->
  GetActiveSlot slot s = Some ((EFI_SUCCESS, w), s).
Proof.
  intros [(-> & -> & H)|(-> & -> & H)] Hx Hy Ex Ey.
  - rewrite (GetActiveSlot_spec s iw io x y) by done. unfold active_result, best_slot. by rewrite Ex, Ey.
  - rewrite (GetActiveSlot_spec s io iw y x) by done. unfold active_result, best_slot. by rewrite Ex, Ey.
Qed.

Lemma eligible_new reset a : eligible (new_slot_attributes reset a) = true.
Proof.
  destruct (new_slot_attributes_spec reset a) as (Ha & Hp & _). unfold eligible.
  unfold active in Ha. by rewrite Ha, Hp.
Qed.
Lemma eligible_alternate a : eligible (alternate_attributes a) = false.
Proof.
  destruct (alternate_attributes_spec a) as (Ha & _). unfold eligible. unfold active in Ha. by rewrite Ha.
Qed.

(** The end of SetActiveSlot, after both entries changed. *)
Lemma set_active_finish s w o iw io x y Cur reset :
  ufs_found -> slots_inv s -> slots_at s w o iw io ->
  attr_at s iw (new_slot_attributes reset x) -> attr_at s io (alternate_attributes y) ->
  exists s', (if StrnCmp (Suffix Cur) (Suffix w) (StrLen (Suffix Cur)) =? 0
      then match_boot_lun Cur
      else (_ ← SwitchPtnSlots (Suffix w); MarkPtnActive (Suffix w) : B unit)) s = Some (tt, s') /\
    keeps s s' /\ attr_at s' iw (new_slot_attributes reset x) /\
    attr_at s' io (alternate_attributes y).
Proof.
  intros Hu Hinv Hat Hx Hy. case_if.
  - destruct (match_boot_lun_ok (R := same_attributes) Cur s Hu) as ([] & s' & Hr & K & HS & _).
    exists s'. split; [done|]. split; [done|]. by split; eapply same_attributes_at.
  - destruct (SwitchPtnSlots_ok (R := same_attributes) (Suffix w) s Hu Hinv) as ([] & s1 & Hr & K & HS & _).
    destruct (MarkPtnActive_run s1 w o iw io (new_slot_attributes reset x) (alternate_attributes y))
      as (s' & Hm & K' & _ & _ & _ & Hx' & Hy').
    { by apply (keeps_inv s). } { by apply (keeps_slots_at s). }
    { by eapply same_attributes_at. } { by eapply same_attributes_at. }
    rewrite new_slot_attributes_marked in Hx'. rewrite alternate_attributes_marked in Hy'.
    exists s'. split; [run; by rewrite Hr|]. split; [by transitivity s1|done].
Qed.

Lemma SetActiveSlot_pair s s0 w o iw io x y cur reset :
  ufs_found -> slots_inv s -> GetActiveSlot empty_slot s = Some ((EFI_SUCCESS, cur), s0) ->
  slots_at s w o iw io -> attr_at s0 iw x -> attr_at s0 io y ->
  exists s', SetActiveSlot (Some w) reset s = Some (EFI_SUCCESS, s') /\ keeps s s' /\
    attr_at s' iw (new_slot_attributes reset x) /\ attr_at s' io (alternate_attributes y).
Proof.
  intros Hu Hinv Hg Hat Hx Hy.
  destruct (GetActiveSlot_ok (R := any_change) empty_slot s Hinv) as (r & s0' & Hg' & K0 & _).
  rewrite Hg in Hg'. injection Hg' as <- <-.
  assert (Hat0 := keeps_slots_at _ _ _ _ _ _ K0 Hat).
  destruct (slots_at_bound _ _ _ _ _ Hat0) as [_ Hne].
  destruct (change_attributes_run iw (new_slot_attributes reset) s0 x Hx)
    as (s1 & H1 & K1 & Hx1 & Ho1 & _).
  assert (Hat1 := keeps_slots_at _ _ _ _ _ _ K1 Hat0).
  destruct (change_attributes_run io alternate_attributes s1 y)
    as (s2 & H2 & K2 & Hy2 & Ho2 & _); [by apply Ho1|].
  assert (K02 : keeps s s2) by (etransitivity; [exact K0|by transitivity s1]).
  destruct (set_active_finish s2 w o iw io x y cur reset) as (s' & Hf & K & Hx' & Hy'); try done.
  { by apply (keeps_inv s). } { by apply (keeps_slots_at s). } { by apply Ho2. }
  exists s'. split; [|split; [by transitivity s2|done]].
  unfold SetActiveSlot. run. rewrite Hg. run. change (is_success EFI_SUCCESS) with true. cbn [negb].
  rewrite (alternate_slot _ _ _ _ _ Hat). run. rewrite (slots_at_entry _ _ _ _ _ Hat0). run.
  rewrite H1. run. rewrite (slots_at_entry _ _ _ _ _ (slots_at_sym _ _ _ _ _ Hat1)). run.
  rewrite H2. run. rewrite UpdatePartitionAttributes_nothing.
  run. by rewrite Hf.
Qed.

(** Looking up the active slot from an empty one. *)
Lemma GetActiveSlot_empty s ia ib a b :
  ab_ok s ia ib -> attr_at s ia a -> attr_at s ib b ->
  match active_of a b with
  | Some w => exists s0, GetActiveSlot empty_slot s = Some ((EFI_SUCCESS, w), s0) /\ keeps s s0 /\
      attr_at s0 ia (looked_up a b) /\ attr_at s0 ib b /\ RootType s0 = RootType s /\ log s0 = log s
  | None => GetActiveSlot empty_slot s = Some ((EFI_NOT_FOUND, empty_slot), s)
  end.
Proof.
  intros Hab Ha Hb. pose proof (GetActiveSlot_spec s ia ib a b empty_slot Hab Ha Hb) as Hg.
  unfold active_of, looked_up, active_result in *. destruct (best_slot a b) as [w|] eqn:Ew.
  { exists s. by repeat (split; [done || reflexivity|]). }
  cbn [length Suffix empty_slot Nat.eqb] in Hg. destruct (never_booted a); [|done].
  destruct (ab_lookup _ _ _ Hab) as (_ & _ & Hne).
  eexists. split; [exact Hg|]. unfold attr_at in *. cbn [PtnEntries set_FirstBoot set_PtnEntries].
  split.
  { transitivity (set_PtnEntries (alter (fun e => set_attributes (first_boot_attributes (attributes e)) e)
      ia (PtnEntries s)) s); [by apply keeps_alter|apply keeps_set_FirstBoot]. }
  unfold first_boot_state. cbn [PtnEntries set_FirstBoot set_PtnEntries RootType log].
  split; [|split; [by rewrite list_lookup_alter_ne|done]].
  rewrite list_lookup_alter_eq. destruct (PtnEntries s !! ia); [|done]. by injection Ha as <-.
Qed.

Lemma slots_at_ab s ia ib w :
  ab_ok s ia ib -> w = slot_a \/ w = slot_b ->
  slots_at s w (of_slot w slot_b slot_a) (of_slot w ia ib) (of_slot w ib ia).
Proof. intros H [-> | ->]; [left|right]; done. Qed.

(** C9 Making a slot active: when the list has an active slot, or none was ever
    booted, [SetActiveSlot] succeeds and the slot it was given is the active one
    from then on.  It has the highest priority, all its retries and is bootable; it
    stays successful unless the bit is to be reset.  The other slot is not active,
    comes next in priority and is otherwise as before.  Without an active slot
    nothing changes. *)
Theorem SetActiveSlot_active s ia ib a b w reset :
  ufs_found -> slots_inv s -> ab_ok s ia ib -> attr_at s ia a -> attr_at s ib b ->
  w = slot_a \/ w = slot_b ->
  match active_of a b with
  | None => SetActiveSlot (Some w) reset s = Some (EFI_NOT_FOUND, s)
  | Some _ => exists s' x' y',
      let x := of_slot w (looked_up a b) b in
      let y := of_slot w b (looked_up a b) in
      SetActiveSlot (Some w) reset s = Some (EFI_SUCCESS, s') /\
      GetActiveSlot empty_slot s' = Some ((EFI_SUCCESS, w), s') /\
      attr_at s' (of_slot w ia ib) x' /\ attr_at s' (of_slot w ib ia) y' /\
      (active x' = true /\ priority_of x' = MAX_PRIORITY /\ retries_of x' = 7 /\
       unbootable x' = false /\ successful x' = negb reset && successful x) /\
      (active y' = false /\ priority_of y' = MAX_PRIORITY - 1 /\ retries_of y' = retries_of y /\
       unbootable y' = unbootable y /\ successful y' = successful y)
  end.
Proof.
  intros Hu Hinv Hab Ha Hb Hw. pose proof (GetActiveSlot_empty s ia ib a b Hab Ha Hb) as Hg.
  destruct (active_of a b) as [cur|].
  - destruct Hg as (s0 & Hg & _ & Ha0 & Hb0 & _).
    pose proof (slots_at_ab s ia ib w Hab Hw) as Hat.
    destruct (SetActiveSlot_pair s s0 w _ _ _ (of_slot w (looked_up a b) b)
      (of_slot w b (looked_up a b)) cur reset Hu Hinv Hg Hat) as (s' & Hs & K & Hx & Hy).
    { unfold of_slot. by case_decide. } { unfold of_slot. by case_decide. }
    exists s', (new_slot_attributes reset (of_slot w (looked_up a b) b)),
      (alternate_attributes (of_slot w b (looked_up a b))).
    split; [exact Hs|]. split; [|split; [exact Hx|split; [exact Hy|]]].
    + by apply (slots_at_active s' w _ _ _ _ _ empty_slot (keeps_slots_at _ _ _ _ _ _ K Hat) Hx Hy
        (eligible_new _ _) (eligible_alternate _)).
    + split; [apply new_slot_attributes_spec|apply alternate_attributes_spec].
  - unfold SetActiveSlot. run. by rewrite Hg.
Qed.
End boot.

Lemma SetActiveSlot_active_witness :
  match active_of (first_boot_attributes 0) 0 with
  | None => SetActiveSlot (FW := demo_Firmware) (BL := reference_BaseLib) (UL := reference_UnicodeLib)
      (BM := demo_BootMode) (Some slot_b) true (demo_slots (first_boot_attributes 0) 0)
      = Some (EFI_NOT_FOUND, demo_slots (first_boot_attributes 0) 0)
  | Some _ => exists s' x' y',
      let x := of_slot slot_b (looked_up (first_boot_attributes 0) 0) 0 in
      let y := of_slot slot_b 0 (looked_up (first_boot_attributes 0) 0) in
      SetActiveSlot (FW := demo_Firmware) (BL := reference_BaseLib) (UL := reference_UnicodeLib)
        (BM := demo_BootMode) (Some slot_b) true (demo_slots (first_boot_attributes 0) 0)
        = Some (EFI_SUCCESS, s') /\
      GetActiveSlot (FW := demo_Firmware) (BL := reference_BaseLib) (UL := reference_UnicodeLib)
        (BM := demo_BootMode) empty_slot s' = Some ((EFI_SUCCESS, slot_b), s') /\
      attr_at s' (of_slot slot_b 0%nat 1%nat) x' /\ attr_at s' (of_slot slot_b 1%nat 0%nat) y' /\
      (active x' = true /\ priority_of x' = MAX_PRIORITY /\ retries_of x' = 7 /\
       unbootable x' = false /\ successful x' = negb true && successful x) /\
      (active y' = false /\ priority_of y' = MAX_PRIORITY - 1 /\ retries_of y' = retries_of y /\
       unbootable y' = unbootable y /\ successful y' = successful y)
  end.
Proof.
  exact (SetActiveSlot_active (FW := demo_Firmware) (BL := reference_BaseLib)
    (UL := reference_UnicodeLib) (ULL := reference_UnicodeLib_laws) (BM := demo_BootMode)
    (demo_slots (first_boot_attributes 0) 0) 0 1 (first_boot_attributes 0) 0 slot_b true
    demo_ufs_found (demo_slots_inv _ _) (demo_slots_ab_ok _ _) (demo_attr_a _ _) (demo_attr_b _ _)
    (or_intror eq_refl)).
Defined.
