(* ===== verification/SlotsFind.v ===== *)
(** * A/B slots: the slot FindBootableSlot chooses.

    An active slot that is not unbootable is booted when it was successful before
    or has retries left, and a try costs one of them. *)
From stdpp Require Import base numbers list option strings.
From Stdlib Require Import ZArith Lia Ascii.
From S2P Require Import Prelude BaseLib Unicode Storage Bytes StorageSpec Gpt Partitions Slots SlotsSpec SlotsSafe SlotsBoot.
Local Open Scope Z_scope.

Definition bootable (a : Z) : bool := negb (unbootable a) && (successful a || (0 <? retries_of a)).

(** The fields of the attributes but for the retries are the same. *)
Definition same_but_retries (a a' : Z) : Prop :=
  active a' = active a /\ priority_of a' = priority_of a /\ unbootable a' = unbootable a /\
  successful a' = successful a.

Lemma count_down_spec a :
  0 < retries_of a -> same_but_retries a (count_down a) /\ retries_of (count_down a) = retries_of a - 1.
Proof.
  intros H. pose proof (retries_range a) as Hr. unfold count_down. cbv zeta. fold (retries_of a).
  assert (Hc : forall k m, Z.land (u64 (Z.lnot PART_ATT_MAX_RETRY_COUNT_VAL)) m = m ->
    Z.land k m = 0 -> has_bits (Z.lor (clear_bits a PART_ATT_MAX_RETRY_COUNT_VAL) k) m = has_bits a m /\
    forall n, bit_field (Z.lor (clear_bits a PART_ATT_MAX_RETRY_COUNT_VAL) k) m n = bit_field a m n).
  { intros k m Hm Hk. split.
    - rewrite has_bits_lor, has_bits_clear, Hm. unfold has_bits at 2. rewrite Hk. apply orb_false_r.
    - intros n. rewrite bit_field_lor, bit_field_clear, Hm. unfold bit_field at 2.
      by rewrite Hk, Z.shiftr_0_l, Z.lor_0_r. }
  unfold same_but_retries, active, priority_of, unbootable, successful.
  set (k := u64 (Z.shiftl _ _)).
  assert (Hk : forall m, Z.land (u64 (Z.lnot PART_ATT_MAX_RETRY_COUNT_VAL)) m = m ->
    forallb (fun r => Z.land (u64 (Z.shiftl (u64 r) PART_ATT_MAX_RETRY_CNT_BIT)) m =? 0) [0;1;2;3;4;5;6] = true ->
    Z.land k m = 0).
  { intros m _ Hall. rewrite forallb_forall in Hall. apply Z.eqb_eq, Hall. cbn. lia. }
  split; [split; [|split; [|split]]|]; try (apply Hc; [mask|apply Hk; mask]).
  unfold retries_of at 1. rewrite bit_field_lor, bit_field_clear.
  change (Z.land (u64 _) PART_ATT_MAX_RETRY_COUNT_VAL) with 0. rewrite bit_field_0, Z.lor_0_l.
  assert (Hf : forallb (fun r => bit_field (u64 (Z.shiftl (u64 r) PART_ATT_MAX_RETRY_CNT_BIT))
    PART_ATT_MAX_RETRY_COUNT_VAL PART_ATT_MAX_RETRY_CNT_BIT =? r) [0;1;2;3;4;5;6] = true) by mask.
  rewrite forallb_forall in Hf. apply Z.eqb_eq, Hf. cbn. lia.
Qed.

(** ** Marking again *)
Lemma marked_spec a :
  active (Z.lor a PART_ATT_ACTIVE_VAL) = true /\ priority_of (Z.lor a PART_ATT_ACTIVE_VAL) = priority_of a /\
  retries_of (Z.lor a PART_ATT_ACTIVE_VAL) = retries_of a /\
  unbootable (Z.lor a PART_ATT_ACTIVE_VAL) = unbootable a /\
  successful (Z.lor a PART_ATT_ACTIVE_VAL) = successful a.
Proof.
  unfold active, priority_of, retries_of, unbootable, successful.
  rewrite !has_bits_lor, !bit_field_lor. split; [apply orb_true_r|].
  split; [apply Z.lor_0_r|]. split; [apply Z.lor_0_r|]. by split; apply orb_false_r.
Qed.
Lemma cleared_spec a :
  active (clear_bits a PART_ATT_ACTIVE_VAL) = false /\
  priority_of (clear_bits a PART_ATT_ACTIVE_VAL) = priority_of a /\
  retries_of (clear_bits a PART_ATT_ACTIVE_VAL) = retries_of a /\
  unbootable (clear_bits a PART_ATT_ACTIVE_VAL) = unbootable a /\
  successful (clear_bits a PART_ATT_ACTIVE_VAL) = successful a.
Proof.
  unfold active, priority_of, retries_of, unbootable, successful.
  rewrite !has_bits_clear, !bit_field_clear. by split; [apply has_bits_0|].
Qed.

Lemma active_of_slot a b w : active_of a b = Some w -> w = slot_a \/ w = slot_b.
Proof.
  unfold active_of, best_slot. destruct (eligible b && _); [intros [= <-]; by right|].
  destruct (eligible a); [intros [= <-]; by left|].
  destruct (never_booted a); [intros [= <-]; by left|done].
Qed.

Section find.
Context {FW : Firmware} {BL : BaseLib} {BLL : BaseLibLaws BL} {UL : UnicodeLib}.
Context {ULL : UnicodeLibLaws UL} {BM : BootMode} {BC : BuildConfig}.

(** Whether a try is counted, and what it leaves of the attributes. *)
Definition tries_count : bool :=
  (negb IsABRetryCountDisabled && negb IsBootDevImage) && IsABRetryCountUpdateRequired.
Definition spent (a : Z) : Z :=
  if successful a then a else if tries_count then count_down a else a.

Lemma spent_spec a :
  bootable a = true ->
  same_but_retries a (spent a) /\
  retries_of (spent a) = (if negb (successful a) && tries_count then retries_of a - 1 else retries_of a).
Proof.
  unfold bootable, spent. intros H. bool_to_prop. destruct (successful a); [by repeat split|].
  destruct tries_count; [|by repeat split]. cbn [negb andb]. apply count_down_spec. by apply Z.ltb_lt.
Qed.

(** ** A slot that does not boot is never a success *)
Definition fails (m : B EFI_STATUS) : Prop :=
  forall s r s', m s = Some (r, s') -> is_success r = false.

Lemma fails_ret r : is_success r = false -> fails (mret r).
Proof. intros H s r' s'. by intros [= <- <-]. Qed.
Lemma fails_bind {A} (m : B A) f : (forall a, fails (f a)) -> fails (m ≫= f).
Proof.
  intros H s r s'. rewrite bind_run. destruct (m s) as [[a s1]|]; [|done]. apply H.
Qed.

Lemma HandleActiveSlotUnbootable_fails : fails HandleActiveSlotUnbootable.
Proof.
  unfold HandleActiveSlotUnbootable. apply fails_bind. intros [St w].
  case_if; [apply fails_ret; by apply negb_true_iff|].
  apply fails_bind. intros [i|]; [|by apply fails_ret].
  apply fails_bind. intros first. apply fails_bind. intros _. cbv zeta.
  apply fails_bind. intros [j|]; [|by apply fails_ret].
  apply fails_bind. intros e. case_if; [|by apply fails_ret].
  apply fails_bind. intros St'. case_if; [apply fails_ret; by apply negb_true_iff|].
  apply fails_bind. intros _. by apply fails_ret.
Qed.

(** ** The status of the active slot *)
Lemma bit_tests a :
  (bit_field a PART_ATT_UNBOOTABLE_VAL PART_ATT_UNBOOTABLE_BIT =? 0) = negb (unbootable a) /\
  (bit_field a PART_ATT_SUCCESSFUL_VAL PART_ATT_SUCCESS_BIT =? 1) = successful a /\
  (bit_field a PART_ATT_SUCCESSFUL_VAL PART_ATT_SUCCESS_BIT =? 0) = negb (successful a).
Proof.
  pose proof (bit_field_has_bits a PART_ATT_UNBOOTABLE_BIT ltac:(by vm_compute)) as Hu.
  pose proof (bit_field_has_bits a PART_ATT_SUCCESS_BIT ltac:(by vm_compute)) as Hs.
  fold PART_ATT_UNBOOTABLE_VAL in Hu. fold PART_ATT_SUCCESSFUL_VAL in Hs. rewrite Hu, Hs.
  unfold unbootable, successful. by repeat destruct (has_bits _ _).
Qed.

Lemma check_bootable_run w i s x :
  attr_at s i x -> bootable x = true ->
  exists s', check_bootable w i s = Some (EFI_SUCCESS, s') /\ keeps s s' /\ attr_at s' i (spent x) /\
    (forall k c, k <> i -> attr_at s k c -> attr_at s' k c) /\ RootType s' = RootType s.
Proof.
  intros Hx Hb. destruct (bit_tests x) as (Hu & Hs1 & Hs0).
  unfold bootable in Hb. apply andb_true_iff in Hb as [Hb1 Hb2].
  assert (He := Hx). unfold attr_at in He. destruct (PtnEntries s !! i) as [e|] eqn:Ee; [|done].
  injection He as He. unfold check_bootable. rewrite bind_run, (ptn_entry_at _ _ _ Ee), He. cbv zeta.
  fold (retries_of x). rewrite Hu, Hs1, Hs0, Hb1. cbn [andb]. unfold spent.
  destruct (successful x); cbn [negb andb].
  { exists s. by repeat (split; [done || reflexivity|]). }
  cbn [orb] in Hb2. rewrite Hb2. fold tries_count. destruct tries_count.
  - destruct (change_attributes_run i count_down s x Hx) as (s' & Hr & K & Hx' & Ho & HR & _).
    exists s'. split; [by rewrite bind_run, Hr|done].
  - exists s. by repeat (split; [done || reflexivity|]).
Qed.

Lemma check_bootable_not w i s x st s' :
  attr_at s i x -> bootable x = false -> check_bootable w i s = Some (st, s') ->
  is_success st = false.
Proof.
  intros Hx Hb. destruct (bit_tests x) as (Hu & Hs1 & Hs0).
  unfold attr_at in Hx. destruct (PtnEntries s !! i) as [e|] eqn:Ee; [|done].
  injection Hx as He. unfold check_bootable. rewrite bind_run, (ptn_entry_at _ _ _ Ee), He. cbv zeta.
  fold (retries_of x). rewrite Hu, Hs1, Hs0. unfold bootable in Hb.
  destruct (unbootable x), (successful x); cbn [negb andb orb] in *; try done;
    try apply HandleActiveSlotUnbootable_fails.
  rewrite Hb. apply HandleActiveSlotUnbootable_fails.
Qed.

(** The check of the slot's partitions that FindBootableSlot makes: none on NAND. *)
Definition slot_check (w : Slot) : B EFI_STATUS :=
  Type_ ← CheckRootDeviceType;
  if negb (bool_decide (Type_ = NAND)) then ValidateSlotGuids w else mret EFI_SUCCESS.

Lemma slot_check_ok (w : Slot) s :
  ufs_found -> slots_inv s -> Suffix w <> [] ->
  ok (R := same_attributes) (slot_check w) s anything.
Proof.
  intros Hu Hinv Hw. unfold slot_check.
  eapply ok_bind; [apply CheckRootDeviceType_ok|]. intros ty s1 K _ _.
  case_if; [|by apply ok_ret]. apply ValidateSlotGuids_ok; [done|by apply (keeps_inv s)|done].
Qed.

(** The attributes of the slot that is booted, and of the other one. *)
Definition booted (x x' : Z) : Prop :=
  active x' = true /\ priority_of x' = priority_of x /\ unbootable x' = unbootable x /\
  successful x' = successful x /\
  retries_of x' = (if negb (successful x) && tries_count then retries_of x - 1 else retries_of x).
Definition passed_over (y y' : Z) : Prop :=
  active y' = false /\ priority_of y' = priority_of y /\ unbootable y' = unbootable y /\
  successful y' = successful y /\ retries_of y' = retries_of y.

(** From the active slot on. *)
Lemma find_bootable_pair s s0 w o iw io x y :
  ufs_found -> slots_inv s -> GetActiveSlot empty_slot s = Some ((EFI_SUCCESS, w), s0) ->
  slots_at s w o iw io -> attr_at s0 iw x -> attr_at s0 io y ->
  exists st s', FindBootableSlot (Some empty_slot) s =
      Some ((st, Some (if is_success st then w else empty_slot)), s') /\ keeps s s' /\
    if bootable x then
      exists s1 s2, keeps s s1 /\ RootType s1 = RootType s0 /\
        slot_check w s1 = Some (st, s2) /\
        (st = EFI_SUCCESS -> exists x' y', attr_at s' iw x' /\ attr_at s' io y' /\
           booted x x' /\ passed_over y y')
    else st <> EFI_SUCCESS.
Proof.
  intros Hu Hinv Hg Hat Hx Hy.
  destruct (FindBootableSlot_ok (R := any_change) (Some empty_slot) s Hu Hinv)
    as (r & s' & Hf & K & _ & _).
  destruct (GetActiveSlot_ok (R := any_change) empty_slot s Hinv) as (r0 & s0' & Hg' & K0 & _ & _).
  rewrite Hg in Hg'. injection Hg' as <- <-.
  assert (Hat0 := keeps_slots_at _ _ _ _ _ _ K0 Hat). assert (Hinv0 := keeps_inv _ _ K0 Hinv).
  destruct (slots_at_bound _ _ _ _ _ Hat0) as [_ Hne].
  assert (Hws : Suffix w <> []) by (by destruct Hat as [(-> & _)|(-> & _)]).
  assert (Hfind : FindBootableSlot (Some empty_slot) s = Some (r, s')) by exact Hf.
  unfold FindBootableSlot, find_bootable_slot in Hf. run_in Hf. rewrite Hg in Hf.
  change (is_success EFI_SUCCESS) with true in Hf. cbn [negb] in Hf. run_in Hf.
  rewrite (slots_at_entry _ _ _ _ _ Hat0) in Hf. run_in Hf.
  destruct (bootable x) eqn:Eb.
  - destruct (check_bootable_run w iw s0 x Hx Eb) as (s1 & Hc & K1 & Hx1 & Ho1 & HR1).
    rewrite Hc in Hf. change (is_success EFI_SUCCESS) with true in Hf. cbn [negb] in Hf. run_in Hf.
    assert (Hat1 := keeps_slots_at _ _ _ _ _ _ K1 Hat0). assert (Hinv1 := keeps_inv _ _ K1 Hinv0).
    destruct (slot_check_ok w s1 Hu Hinv1 Hws) as (st & s2 & Hv & K2 & HS2 & _).
    assert (Hv' := Hv). unfold slot_check in Hv'. rewrite bind_run in Hv'.
    destruct (CheckRootDeviceType s1) as [[ty s1']|]; [|done].
    run_in Hf. rewrite Hv' in Hf.
    destruct (is_success st) eqn:Est; cbn [negb] in Hf.
    + destruct (MarkPtnActive_run s2 w o iw io (spent x) y) as (s3 & Hm & K3 & _ & _ & _ & Hx3 & Hy3).
      { by apply (keeps_inv s1). } { by apply (keeps_slots_at s1). }
      { by apply (same_attributes_at s1). } { apply (same_attributes_at s1); [done|by apply Ho1]. }
      run_in Hf. rewrite Hm in Hf. unfold finish_bootable in Hf. run_in Hf.
      change (is_success EFI_SUCCESS) with true in Hf. cbn [negb] in Hf. injection Hf as <- <-.
      apply bool_decide_eq_true in Est as ->. exists EFI_SUCCESS, s3.
      split; [exact Hfind|]. split; [done|]. exists s1, s2. split; [by transitivity s0|].
      split; [done|]. split; [done|]. intros _. eexists _, _. split; [exact Hx3|]. split; [exact Hy3|].
      destruct (spent_spec x Eb) as ((Ha & Hp & Hub & Hsu) & Hre).
      destruct (marked_spec (spent x)) as (? & Hp' & Hr' & Hu' & Hs').
      destruct (cleared_spec y) as (? & ? & ? & ? & ?).
      split; [|by repeat split]. split; [done|]. by rewrite Hp', Hr', Hu', Hs'.
    + unfold finish_bootable in Hf. rewrite Est in Hf. run_in Hf. cbn [negb] in Hf.
      injection Hf as <- <-. exists st, s2. rewrite Est. split; [exact Hfind|]. split; [done|].
      exists s1, s2. split; [by transitivity s0|]. split; [done|]. split; [done|].
      intros ->. done.
  - destruct (check_bootable w iw s0) as [[st s1]|] eqn:Hc; [|done].
    pose proof (check_bootable_not w iw s0 x st s1 Hx Eb Hc) as Est.
    rewrite Est in Hf. cbn [negb] in Hf. unfold finish_bootable in Hf. rewrite Est in Hf.
    run_in Hf. cbn [negb] in Hf. injection Hf as <- <-.
    exists st, s1. rewrite Est. split; [exact Hfind|]. split; [done|]. by intros ->.
Qed.

(** C3: Choosing the slot to boot.  Without an active slot the call fails and
    changes nothing.  An active slot that can be booted - not unbootable, and
    successful or with retries left - is the answer exactly when the check of its
    partitions accepts it; its try then costs one retry if it was never successful
    and tries count, nothing else of it changes, and the other slot is not active.
    An active slot that cannot be booted is never the answer.  A failure always
    returns an empty slot. *)
Theorem FindBootableSlot_choice s ia ib a b :
  ufs_found -> slots_inv s -> ab_ok s ia ib -> attr_at s ia a -> attr_at s ib b ->
  match active_of a b with
  | None => FindBootableSlot (Some empty_slot) s = Some ((EFI_NOT_FOUND, Some empty_slot), s)
  | Some w => exists st s',
      let x := of_slot w (looked_up a b) b in
      let y := of_slot w b (looked_up a b) in
      FindBootableSlot (Some empty_slot) s =
        Some ((st, Some (if is_success st then w else empty_slot)), s') /\ keeps s s' /\
      if bootable x then
        exists s1 s2, keeps s s1 /\ RootType s1 = RootType s /\
          slot_check w s1 = Some (st, s2) /\
          (st = EFI_SUCCESS -> exists x' y',
             attr_at s' (of_slot w ia ib) x' /\ attr_at s' (of_slot w ib ia) y' /\
             booted x x' /\ passed_over y y')
      else st <> EFI_SUCCESS
  end.
Proof.
  intros Hu Hinv Hab Ha Hb. pose proof (GetActiveSlot_empty s ia ib a b Hab Ha Hb) as Hg.
  destruct (active_of a b) as [w|] eqn:Ew.
  - destruct Hg as (s0 & Hg & _ & Ha0 & Hb0 & HR & _). cbv zeta. rewrite <- HR.
    apply (find_bootable_pair s s0 w (of_slot w slot_b slot_a)); try done.
    + apply slots_at_ab; [done|]. by eapply active_of_slot.
    + unfold of_slot. by case_decide.
    + unfold of_slot. by case_decide.
  - unfold FindBootableSlot, find_bootable_slot. run. by rewrite Hg.
Qed.

(** ** The check of the slot's partitions *)
Definition slot_lun (w : Slot) : Z := if decide (w = slot_a) then 1 else 2.

Lemma GetRootDeviceType_known s :
  RootType s <> UNKNOWN ->
  GetRootDeviceType BOOT_DEV_NAME_SIZE_MAX s = Some (DeviceType (RootType s), s).
Proof.
  intros H. unfold GetRootDeviceType, CheckRootDeviceType. run. rewrite bool_decide_false by done.
  run. by destruct (RootType s).
Qed.

(** The check of a slot that has its two partitions: it fails when the boot
    and the abl partition have the same type GUID; otherwise eMMC passes, and UFS
    passes exactly when the boot LUN is the one of the slot. *)
Theorem ValidateSlotGuids_decides s w o iw io j ew ej Lun :
  slots_at s w o iw io ->
  named_at (PtnEntries s) (PartitionCount s) (bytes "abl" ++ Suffix w) j ->
  PtnEntries s !! iw = Some ew -> PtnEntries s !! j = Some ej ->
  RootType s = EMMC \/ (RootType s = UFS /\ UfsGetSetBootLun 0 true s = Some ((EFI_SUCCESS, Lun), s)) ->
  ValidateSlotGuids w s = Some
    (if bool_decide (type_guid ew = type_guid ej) then EFI_DEVICE_ERROR
     else if bool_decide (RootType s = EMMC) then EFI_SUCCESS
     else if Lun =? slot_lun w then EFI_SUCCESS else EFI_DEVICE_ERROR, s).
Proof.
  intros Hat Hj Hew Hej Hroot. unfold ValidateSlotGuids. run.
  rewrite (slots_at_entry _ _ _ _ _ Hat). run. cbv zeta. rewrite StrLen_law.
  assert (Hb : (PartitionCount s <= length (PtnEntries s))%nat).
  { by destruct Hat as [(_ & _ & [H _ _])|(_ & _ & [H _ _])]. }
  assert (Hwc : exists c, (if (length (Suffix w) =? 0)%nat then fault
      else Suffix w !! (length (Suffix w) - 1)%nat) = Some c /\
      bytes "abl_" ++ [c] = bytes "abl" ++ Suffix w /\ (length (bytes "abl" ++ Suffix w) < 36)%nat).
  { destruct Hat as [(-> & _)|(-> & _)]; eexists; (split; [reflexivity|]); (split; [done|cbn; lia]). }
  destruct Hwc as (c & -> & Hname & Hlen). run. unfold GetPartitionEntry. rewrite Hname.
  rewrite (GetPartitionIndex_at s _ j Hb Hlen Hj). run.
  rewrite (ptn_entry_at _ _ _ Hew). run. rewrite (ptn_entry_at _ _ _ Hej). run.
  case_bool_decide as Hg; [done|]. unfold validate_boot_device. run.
  rewrite GetRootDeviceType_known by (destruct Hroot as [-> | [-> _]]; done). run.
  rewrite !AsciiStrnCmp_eqb, !AsciiStrLen_law.
  destruct Hroot as [HR | [HR Hl]]; rewrite HR; cbn [DeviceType].
  - by rewrite (bool_decide_false (take _ _ = _)), !bool_decide_true by done.
  - rewrite bool_decide_true by done. run. rewrite Hl. run.
    change (is_success EFI_SUCCESS) with true. cbn [negb].
    rewrite (bool_decide_false (UFS = EMMC)) by done.
    assert (Hcmp : forall t, (StrCmp (Suffix w) t =? 0) = bool_decide (Suffix w = t)).
    { intros t. apply eq_bool_prop_intro. rewrite !Is_true_true, Z.eqb_eq, bool_decide_eq_true.
      apply StrCmp_law. }
    rewrite !Hcmp. destruct Hat as [(-> & _)|(-> & _)]; cbn [Suffix slot_a slot_b];
      unfold slot_lun; [rewrite decide_True by done|rewrite decide_False by done];
      destruct (Z.eqb_spec Lun 1), (Z.eqb_spec Lun 2); try done; lia.
Qed.

End find.

(** ** On the example list *)
Definition demo_find : B (EFI_STATUS * option Slot) :=
  FindBootableSlot (FW := demo_Firmware) (BL := reference_BaseLib) (UL := reference_UnicodeLib)
    (BM := demo_BootMode) (BC := demo_BuildConfig) (Some empty_slot).

Lemma FindBootableSlot_choice_witness :
  match active_of (first_boot_attributes 0) 0 with
  | None => demo_find (demo_slots (first_boot_attributes 0) 0) =
      Some ((EFI_NOT_FOUND, Some empty_slot), demo_slots (first_boot_attributes 0) 0)
  | Some w => exists st s',
      let x := of_slot w (looked_up (first_boot_attributes 0) 0) 0 in
      let y := of_slot w 0 (looked_up (first_boot_attributes 0) 0) in
      demo_find (demo_slots (first_boot_attributes 0) 0) =
        Some ((st, Some (if is_success st then w else empty_slot)), s') /\
      keeps (demo_slots (first_boot_attributes 0) 0) s' /\
      if bootable x then
        exists s1 s2, keeps (demo_slots (first_boot_attributes 0) 0) s1 /\ RootType s1 = UFS /\
          slot_check (FW := demo_Firmware) (BL := reference_BaseLib) (UL := reference_UnicodeLib)
            w s1 = Some (st, s2) /\
          (st = EFI_SUCCESS -> exists x' y',
             attr_at s' (of_slot w 0%nat 1%nat) x' /\ attr_at s' (of_slot w 1%nat 0%nat) y' /\
             booted (BM := demo_BootMode) (BC := demo_BuildConfig) x x' /\ passed_over y y')
      else st <> EFI_SUCCESS
  end.
Proof.
  exact (FindBootableSlot_choice (FW := demo_Firmware) (BL := reference_BaseLib)
    (UL := reference_UnicodeLib) (ULL := reference_UnicodeLib_laws) (BM := demo_BootMode)
    (BC := demo_BuildConfig) (demo_slots (first_boot_attributes 0) 0) 0 1 (first_boot_attributes 0) 0
    demo_ufs_found (demo_slots_inv _ _) (demo_slots_ab_ok _ _) (demo_attr_a _ _) (demo_attr_b _ _)).
Defined.

Lemma ValidateSlotGuids_decides_witness :
  ValidateSlotGuids (FW := demo_Firmware) (BL := reference_BaseLib) (UL := reference_UnicodeLib)
    slot_a (demo_slots 0 0) = Some (EFI_SUCCESS, demo_slots 0 0).
Proof.
  refine (ValidateSlotGuids_decides (FW := demo_Firmware) (BL := reference_BaseLib)
    (BLL := reference_BaseLib_laws) (UL := reference_UnicodeLib) (ULL := reference_UnicodeLib_laws)
    (demo_slots 0 0) slot_a slot_b 0 1 2 _ _ 1
    (or_introl (conj eq_refl (conj eq_refl (demo_slots_ab_ok 0 0)))) _ eq_refl eq_refl
    (or_intror (conj eq_refl eq_refl))).
  split; [cbn; lia|]. split; [by eexists|]. intros j e Hj.
  destruct j as [|[|j]]; [..|lia]; by intros [= <-].
Defined.
