(* ===== verification/Flash.v ===== *)
(** * Flashing an image to a partition.

    The image handlers of [Platforms/QcomModulePkg/Library/FastbootLib/
    FastbootCmds.c]: finding the partition, the suffix of the current slot, sparse
    images (SparseFormat.h), raw images and erasing.

    An image lies in memory [Img] at the address [Base]; a pointer into it is an
    address, so that the overflow checks of the code have their meaning, and a read
    outside of [Img] is a fault. *)
From stdpp Require Import base numbers list option strings.
From Stdlib Require Import ZArith Lia Ascii.
From S2P Require Import Prelude BaseLib Unicode Storage Bytes Gpt Partitions Slots.
Local Open Scope Z_scope.

Definition MAX_GPT_NAME_SIZE : nat := 72.

(** ** Headers of a sparse image *)
Record sparse_header_t := mk_sparse_header {
  magic : Z;
  file_hdr_sz : Z;
  chunk_hdr_sz : Z;
  blk_sz : Z;
  total_blks : Z;
  total_chunks : Z
}.
Definition SIZEOF_sparse_header_t : Z := 28.
Record chunk_header_t := mk_chunk_header { chunk_type : Z; chunk_sz : Z; total_sz : Z }.
Definition SIZEOF_chunk_header_t : Z := 12.
Definition SPARSE_HEADER_MAGIC : Z := 0xed26ff3a.
Definition CHUNK_TYPE_RAW : Z := 0xCAC1.
Definition CHUNK_TYPE_FILL : Z := 0xCAC2.
Definition CHUNK_TYPE_DONT_CARE : Z := 0xCAC3.
Definition CHUNK_TYPE_CRC : Z := 0xCAC4.

Definition read_sparse_header (Img : list Z) (off : Z) : option sparse_header_t :=
  magic ← field 4 Img off;
  file_hdr_sz ← field 2 Img (off + 8);
  chunk_hdr_sz ← field 2 Img (off + 10);
  blk_sz ← field 4 Img (off + 12);
  total_blks ← field 4 Img (off + 16);
  total_chunks ← field 4 Img (off + 20);
  Some (mk_sparse_header magic file_hdr_sz chunk_hdr_sz blk_sz total_blks total_chunks).
Definition read_chunk_header (Img : list Z) (off : Z) : option chunk_header_t :=
  chunk_type ← field 2 Img off;
  chunk_sz ← field 4 Img (off + 4);
  total_sz ← field 4 Img (off + 8);
  Some (mk_chunk_header chunk_type chunk_sz total_sz).

Record SparseImgParam := mk_sparse_param {
  TotalBlocks : Z;
  ChunkDataSz : Z;
  ImageEnd : Z;
  WrittenBlockCount : Z;
  BlockCountFactor : Z;
  PartitionSize : Z;
  SpBlockIo : option EFI_BLOCK_IO_PROTOCOL;
  SpHandle : Z
}.
Definition set_TotalBlocks (x : Z) (d : SparseImgParam) : SparseImgParam :=
  mk_sparse_param x (ChunkDataSz d) (ImageEnd d) (WrittenBlockCount d) (BlockCountFactor d)
    (PartitionSize d) (SpBlockIo d) (SpHandle d).
Definition set_ChunkDataSz (x : Z) (d : SparseImgParam) : SparseImgParam :=
  mk_sparse_param (TotalBlocks d) x (ImageEnd d) (WrittenBlockCount d) (BlockCountFactor d)
    (PartitionSize d) (SpBlockIo d) (SpHandle d).
Definition set_WrittenBlockCount (x : Z) (d : SparseImgParam) : SparseImgParam :=
  mk_sparse_param (TotalBlocks d) (ChunkDataSz d) (ImageEnd d) x (BlockCountFactor d)
    (PartitionSize d) (SpBlockIo d) (SpHandle d).

(** The static variables [LunSet] and [Lun]: the LUN of the flash command, if it
    named one. *)
Record lun_choice := mk_lun { LunSet : bool; Lun : Z }.

Section flash.
Context {FW : Firmware} {BL : BaseLib} {UL : UnicodeLib} {BM : BootMode}.

(** ** Finding the partition *)

(** [StrCmp] with a name in a record: a name without a terminator is read past its
    end when the string begins with it. *)
Definition name_differs (PartitionName_ arr : list Z) : option Z :=
  match c_string arr 0 with
  | Some name => Some (StrCmp PartitionName_ name)
  | None => if StrnCmp PartitionName_ arr (length arr) =? 0 then fault else Some 1
  end.

Fixpoint find_handle (PartitionName_ : list Z) (handles : list HandleInfo)
  : option (option (EFI_STATUS * HandleInfo)) :=
  match handles with
  | [] => Some None
  | h :: handles' =>
    let (Status, PartEntry_) := PartitionRecord (Handle h) in
    if EFI_ERROR Status then find_handle PartitionName_ handles' else
    differs ← name_differs PartitionName_ (PartitionName PartEntry_);
    if differs =? 0 then Some (Some (Status, h)) else find_handle PartitionName_ handles'
  end.

Fixpoint find_in_luns (PartitionName_ : list Z) (table : list (list HandleInfo)) (count i : nat)
  : option (option (EFI_STATUS * HandleInfo)) :=
  match count with
  | O => Some None
  | S count' =>
    handles ← table !! i;
    found ← find_handle PartitionName_ handles;
    match found with
    | Some r => Some (Some r)
    | None => find_in_luns PartitionName_ table count' (S i)
    end
  end.

(** The LUNs from [LunStart] to before [LunEnd], both UINT32, counted in a UINT16;
    no more rounds than there are entries of [Ptable] and one behind them.
    [BlockIo] and [Handle] of the caller are written when the partition is found;
    the answer holds both. *)
Definition PartitionGetInfo (L : lun_choice) (PartitionName_ : list Z)
  : B (EFI_STATUS * option HandleInfo) :=
  luns ← gets MaxLuns;
  table ← gets Ptable;
  let LunStart := if LunSet L then u32 (Lun L) else 0 in
  let LunEnd := if LunSet L then u32 (Lun L + 1) else Z.of_nat luns in
  let i := u16 LunStart in
  let count := Z.min (LunEnd - i) (Z.of_nat (S (length table))) in
  found ← access (find_in_luns PartitionName_ table (Z.to_nat count) (Z.to_nat i));
  mret match found with Some (Status, h) => (Status, Some h) | None => (EFI_NOT_FOUND, None) end.

Definition WriteToDisk (BlockIo : option EFI_BLOCK_IO_PROTOCOL) (Handle_ : Z) (Image : list Z)
    (Size offset : Z) : B EFI_STATUS :=
  WriteBlockToPartition IsFlashSplitNeeded BlockIo (Some Handle_) offset Size (Some Image).

(** The name with the suffix of the current slot when there is no partition of the
    name, in a buffer of [PnameMaxSize] units; whether a slot is meant, and its
    suffix. *)
Definition GetPartitionHasSlot (PartitionName_ : list Z) (PnameMaxSize : nat)
    (SlotSuffix : list Z) (SlotSuffixMaxSize : nat) : B (bool * list Z * list Z) :=
  Index ← GetPartitionIndex PartitionName_;
  match Index with
  | None =>
    CurrentSlot ← GetCurrentSlotSuffix;
    let n := StrLen (Suffix CurrentSlot) in
    let SlotSuffix := snd (StrnCpyS SlotSuffix SlotSuffixMaxSize (Suffix CurrentSlot) n) in
    let PartitionName_ := snd (StrnCatS PartitionName_ PnameMaxSize (Suffix CurrentSlot) n) in
    mret (true, PartitionName_, SlotSuffix)
  | Some _ =>
    if is_found (StrStr PartitionName_ (bytes "_a")) || is_found (StrStr PartitionName_ (bytes "_b"))
    then
      let tail := drop (StrLen PartitionName_ - 2) PartitionName_ in
      mret (true, PartitionName_, snd (StrnCpyS SlotSuffix SlotSuffixMaxSize tail 2))
    else mret (false, PartitionName_, SlotSuffix)
  end.

(** ** Sparse images *)
Section image.
Variables (Img : list Z) (Base : Z).

(** The memory from a pointer on. *)
Definition from_pointer (Image : Z) : list Z := drop (Z.to_nat (Image - Base)) Img.

(** A handler returns its status, the new [Image] pointer and the parameters. *)
Definition chunk_result : Type := EFI_STATUS * (Z * SparseImgParam).

Definition HandleChunkTypeRaw (sh : sparse_header_t) (chunk : chunk_header_t) (Image : Z)
    (d : SparseImgParam) : B chunk_result :=
  if Image =? 0 then mret (EFI_INVALID_PARAMETER, (Image, d)) else
  if negb (total_sz chunk =? u64 (chunk_hdr_sz sh + ChunkDataSz d))
  then mret (EFI_INVALID_PARAMETER, (Image, d)) else
  if CHECK_ADD64 Image (ChunkDataSz d) then mret (EFI_INVALID_PARAMETER, (Image, d)) else
  if ImageEnd d <? u64 (Image + ChunkDataSz d) then mret (EFI_INVALID_PARAMETER, (Image, d)) else
  let d := set_WrittenBlockCount (u64 (TotalBlocks d * BlockCountFactor d)) d in
  Status ← WriteToDisk (SpBlockIo d) (SpHandle d) (from_pointer Image) (ChunkDataSz d)
             (WrittenBlockCount d);
  if EFI_ERROR Status then mret (Status, (Image, d)) else
  if MAX_UINT32 - chunk_sz chunk <? TotalBlocks d
  then mret (EFI_INVALID_PARAMETER, (Image, d)) else
  mret (EFI_SUCCESS, (u64 (Image + ChunkDataSz d),
    set_TotalBlocks (u32 (TotalBlocks d + chunk_sz chunk)) d)).

(** The blocks of a fill chunk, one write each. *)
Fixpoint fill_loop (sh : sparse_header_t) (FillBuf : list Z) (count : nat) (d : SparseImgParam)
  : B (EFI_STATUS * SparseImgParam) :=
  match count with
  | O => mret (EFI_SUCCESS, d)
  | S count' =>
    if PartitionSize d <? u64 (u64 (TotalBlocks d * blk_sz sh) + blk_sz sh)
    then mret (EFI_VOLUME_FULL, d) else
    let d := set_WrittenBlockCount (u64 (TotalBlocks d * BlockCountFactor d)) d in
    Status ← WriteToDisk (SpBlockIo d) (SpHandle d) FillBuf (blk_sz sh) (WrittenBlockCount d);
    if EFI_ERROR Status then mret (Status, d) else
    fill_loop sh FillBuf count' (set_TotalBlocks (u32 (TotalBlocks d + 1)) d)
  end.

(** The buffer of one block: zeros, with the value in every whole word. *)
Definition fill_buffer (size : Z) (FillVal : list Z) : list Z :=
  concat (repeat FillVal (Z.to_nat (size / 4))) ++ repeat 0 (Z.to_nat (size mod 4)).

Definition HandleChunkTypeFill (sh : sparse_header_t) (chunk : chunk_header_t) (Image : Z)
    (d : SparseImgParam) : B chunk_result :=
  if Image =? 0 then mret (EFI_INVALID_PARAMETER, (Image, d)) else
  if negb (total_sz chunk =? u32 (chunk_hdr_sz sh + 4))
  then mret (EFI_INVALID_PARAMETER, (Image, d)) else
  if negb (PoolAvailable 0 (blk_sz sh)) then mret (EFI_OUT_OF_RESOURCES, (Image, d)) else
  if CHECK_ADD64 Image 4 then mret (EFI_INVALID_PARAMETER, (Image, d)) else
  if ImageEnd d <? u64 (Image + 4) then mret (EFI_INVALID_PARAMETER, (Image, d)) else
  FillVal ← access (rd Img (Image - Base) 4);
  let Image := u64 (Image + 4) in
  r ← fill_loop sh (fill_buffer (blk_sz sh) FillVal) (Z.to_nat (chunk_sz chunk)) d;
  mret (fst r, (Image, snd r)).

Definition ValidateChunkDataAndFlash (sh : sparse_header_t) (chunk : chunk_header_t) (Image : Z)
    (d : SparseImgParam) : B chunk_result :=
  if Image =? 0 then mret (EFI_INVALID_PARAMETER, (Image, d)) else
  if chunk_type chunk =? CHUNK_TYPE_RAW then
    r ← HandleChunkTypeRaw sh chunk Image d;
    if EFI_ERROR (fst r) then mret r else mret (EFI_SUCCESS, snd r)
  else if chunk_type chunk =? CHUNK_TYPE_FILL then
    r ← HandleChunkTypeFill sh chunk Image d;
    if EFI_ERROR (fst r) then mret r else mret (EFI_SUCCESS, snd r)
  else if chunk_type chunk =? CHUNK_TYPE_DONT_CARE then
    if MAX_UINT32 - chunk_sz chunk <? TotalBlocks d
    then mret (EFI_INVALID_PARAMETER, (Image, d)) else
    mret (EFI_SUCCESS, (Image, set_TotalBlocks (u32 (TotalBlocks d + chunk_sz chunk)) d))
  else if chunk_type chunk =? CHUNK_TYPE_CRC then
    if negb (total_sz chunk =? chunk_hdr_sz sh)
    then mret (EFI_INVALID_PARAMETER, (Image, d)) else
    if MAX_UINT32 - chunk_sz chunk <? TotalBlocks d
    then mret (EFI_INVALID_PARAMETER, (Image, d)) else
    let d := set_TotalBlocks (u32 (TotalBlocks d + chunk_sz chunk)) d in
    if CHECK_ADD64 Image (ChunkDataSz d) then mret (EFI_INVALID_PARAMETER, (Image, d)) else
    let Image := u64 (Image + u32 (ChunkDataSz d)) in
    if ImageEnd d <? Image then mret (EFI_INVALID_PARAMETER, (Image, d)) else
    mret (EFI_SUCCESS, (Image, d))
  else mret (EFI_INVALID_PARAMETER, (Image, d)).

(** One round of the loop over the chunks, and the loop. *)
Definition sparse_chunk (sh : sparse_header_t) (Image : Z) (d : SparseImgParam) : B chunk_result :=
  if PartitionSize d <=? u64 (TotalBlocks d * blk_sz sh)
  then mret (EFI_VOLUME_FULL, (Image, d)) else
  let header := Image in
  if CHECK_ADD64 Image SIZEOF_chunk_header_t then mret (EFI_INVALID_PARAMETER, (Image, d)) else
  let Image := u64 (Image + SIZEOF_chunk_header_t) in
  if ImageEnd d <? Image then mret (EFI_BAD_BUFFER_SIZE, (Image, d)) else
  chunk ← access (read_chunk_header Img (header - Base));
  if negb (chunk_hdr_sz sh =? SIZEOF_chunk_header_t)
  then mret (EFI_INVALID_PARAMETER, (Image, d)) else
  let d := set_ChunkDataSz (u64 (blk_sz sh * chunk_sz chunk)) d in
  if PartitionSize d <? u64 (u64 (TotalBlocks d * blk_sz sh) + ChunkDataSz d)
  then mret (EFI_VOLUME_FULL, (Image, d)) else
  ValidateChunkDataAndFlash sh chunk Image d.

Fixpoint sparse_chunks (sh : sparse_header_t) (count : nat) (Status : EFI_STATUS) (Image : Z)
    (d : SparseImgParam) : B (EFI_STATUS * bool * SparseImgParam) :=
  match count with
  | O => mret (Status, true, d)
  | S count' =>
    r ← sparse_chunk sh Image d;
    let '(Status, (Image, d)) := r : chunk_result in
    if EFI_ERROR Status then mret (Status, false, d) else sparse_chunks sh count' Status Image d
  end.

Definition HandleSparseImgFlash (L : lun_choice) (PartitionName_ : list Z) (sz : Z) : B EFI_STATUS :=
  let Image := Base in
  if CHECK_ADD64 Image sz then mret EFI_INVALID_PARAMETER else
  found ← PartitionGetInfo L PartitionName_;
  if negb (is_success (fst found)) then mret (fst found) else
  match snd found with
  | None => mret EFI_VOLUME_CORRUPTED
  | Some h =>
    if bool_decide (BlkIo h = None) then mret EFI_VOLUME_CORRUPTED else
    if Handle h =? 0 then mret EFI_VOLUME_CORRUPTED else
    let Size := GetPartitionSize (BlkIo h) in
    if Size =? 0 then mret EFI_BAD_BUFFER_SIZE else
    if sz <? SIZEOF_sparse_header_t then mret EFI_INVALID_PARAMETER else
    sh ← access (read_sparse_header Img 0);
    if Size <? u64 (total_blks sh * blk_sz sh) then mret EFI_VOLUME_FULL else
    let Image := u64 (Image + SIZEOF_sparse_header_t) in
    if negb (file_hdr_sz sh =? SIZEOF_sparse_header_t) then mret EFI_BAD_BUFFER_SIZE else
    if blk_sz sh =? 0 then mret EFI_INVALID_PARAMETER else
    blk ← access (BlkIo h);
    if BlockSize blk =? 0 then crash else
    if negb (blk_sz sh mod BlockSize blk =? 0) then mret EFI_INVALID_PARAMETER else
    r ← sparse_chunks sh (Z.to_nat (total_chunks sh)) EFI_SUCCESS Image
          (mk_sparse_param 0 0 (u64 (Base + sz)) 0 (blk_sz sh / BlockSize blk) Size
             (BlkIo h) (Handle h));
    let '(Status, done_, d) := r : EFI_STATUS * bool * SparseImgParam in
    if negb done_ then mret Status else
    mret (if negb (TotalBlocks d =? total_blks sh) then EFI_VOLUME_CORRUPTED else Status)
  end.
End image.
End flash.
