(* ===== verification/SparseSpec.v ===== *)
(** * Flashing a sparse image is writing what the image stands for.

    [decode] is an independent reader of the format: an image is a sequence of
    pieces, data to be written or a hole.  The handler never reads outside of the
    image it was given, writes inside of the partition only, and when it reports
    success the partition holds the pieces, with the holes as they were. *)
From stdpp Require Import base numbers list option strings.
From Stdlib Require Import ZArith Lia Ascii.
From S2P Require Import Prelude BaseLib Unicode Storage Bytes StorageSpec Gpt Partitions Slots SlotsSpec Flash.
Local Open Scope Z_scope.

(** ** The format *)
Inductive piece :=
| Data (data : list Z)
| Hole (size : Z).

Definition piece_size (p : piece) : Z :=
  match p with Data data => Z.of_nat (length data) | Hole n => n end.

(** A chunk by the fields of its header and the bytes behind it: the piece, its
    blocks, and what follows.  The bytes a CRC chunk passes over are counted in 32
    bits. *)
Definition decode_body (blk type_ blocks total : Z) (rest : list Z) : option (piece * Z * list Z) :=
  let size := blk * blocks in
  if type_ =? CHUNK_TYPE_RAW then
    if (total =? 12 + size) && (size <=? Z.of_nat (length rest))
    then Some (Data (take (Z.to_nat size) rest), blocks, drop (Z.to_nat size) rest) else None
  else if type_ =? CHUNK_TYPE_FILL then
    if (total =? 16) && (4 <=? length rest)%nat
    then Some (Data (concat (repeat (fill_buffer blk (take 4 rest)) (Z.to_nat blocks))), blocks,
               drop 4 rest) else None
  else if type_ =? CHUNK_TYPE_DONT_CARE then Some (Hole size, blocks, rest)
  else if type_ =? CHUNK_TYPE_CRC then
    if (total =? 12) && (u32 size <=? Z.of_nat (length rest))
    then Some (Hole size, blocks, drop (Z.to_nat (u32 size)) rest) else None
  else None.

(** One chunk in front of the bytes. *)
Definition decode_chunk (blk : Z) (img : list Z) : option (piece * Z * list Z) :=
  if (length img <? 12)%nat then None
  else decode_body blk (le 2 img 0) (le 4 img 4) (le 4 img 8) (drop 12 img).

Fixpoint decode (blk : Z) (count : nat) (img : list Z) : option (list piece * Z) :=
  match count with
  | O => Some ([], 0)
  | S count' =>
    '(p, blocks, rest) ← decode_chunk blk img;
    '(ps, total) ← decode blk count' rest;
    Some (p :: ps, blocks + total)
  end.

(** The header in front of the chunks. *)
Definition decode_image (img : list Z) : option (list piece) :=
  if (length img <? 28)%nat then None else
  if negb (le 2 img 8 =? 28) then None else
  '(ps, total) ← decode (le 4 img 12) (Z.to_nat (le 4 img 20)) (drop 28 img);
  if total =? le 4 img 16 then Some ps else None.

(** The bytes of a device after the pieces were laid out from an address on. *)
Fixpoint lay (ps : list piece) (at_ : Z) (f : Z -> Z) : Z -> Z :=
  match ps with
  | [] => f
  | Data data :: ps' => lay ps' (at_ + Z.of_nat (length data)) (overlay at_ data f)
  | Hole n :: ps' => lay ps' (at_ + n) f
  end.

Lemma lay_ext ps at_ f g : (forall a, f a = g a) -> forall a, lay ps at_ f a = lay ps at_ g a.
Proof.
  revert at_ f g. induction ps as [|[data|n] ps IH]; intros at_ f g H a; cbn [lay]; [done| |].
  - apply IH. by apply overlay_ext.
  - by apply IH.
Qed.

Lemma lay_cons p ps at_ f a :
  lay ps (at_ + piece_size p) (lay [p] at_ f) a = lay (p :: ps) at_ f a.
Proof. by destruct p. Qed.

Lemma fill_buffer_length size v :
  0 <= size -> length v = 4%nat -> Z.of_nat (length (fill_buffer size v)) = size.
Proof.
  intros Hs Hv. unfold fill_buffer. rewrite length_app, repeat_length.
  assert (Hc : forall n, length (concat (repeat v n)) = (4 * n)%nat).
  { induction n as [|n IH]; cbn [repeat concat]; [done|]. rewrite length_app, IH, Hv. lia. }
  rewrite Hc. pose proof (Z.div_mod size 4). pose proof (Z.mod_pos_bound size 4).
  pose proof (Z.div_pos size 4). lia.
Qed.

Lemma concat_repeat_length {A} (l : list A) n : length (concat (repeat l n)) = (n * length l)%nat.
Proof.
  induction n as [|n IH]; cbn [repeat concat]; [done|]. rewrite length_app, IH. lia.
Qed.

(** ** Writes of whole blocks *)
Section sparse.
Context {FW : Firmware} {dev bs : Z} {content : list device_event -> Z -> Z}.
Context {BD : BlockDevice dev bs content} {BL : BaseLib} {UL : UnicodeLib} {BM : BootMode}.

(** What a step of the handler does: only the log grows, by writes inside [lo, hi). *)
Definition flashes (lo hi : Z) (s s' : boot_state) : Prop :=
  only_log s s' /\ exists evs, log s' = log s ++ evs /\
    Forall (write_inside (dev := dev) (bs := bs) lo hi) evs.

Lemma flashes_refl lo hi s : flashes lo hi s s.
Proof. split; [apply only_log_refl|]. exists []. by rewrite app_nil_r. Qed.

Lemma flashes_trans lo hi s1 s2 s3 : flashes lo hi s1 s2 -> flashes lo hi s2 s3 -> flashes lo hi s1 s3.
Proof.
  intros [O1 (e1 & L1 & F1)] [O2 (e2 & L2 & F2)]. split.
  - unfold only_log in *. rewrite O2, O1. by destruct s1.
  - exists (e1 ++ e2). rewrite L2, L1, app_assoc. split; [done|]. by apply Forall_app.
Qed.

Lemma flashes_weaken lo hi lo' hi' s s' :
  lo' <= lo -> hi <= hi' -> flashes lo hi s s' -> flashes lo' hi' s s'.
Proof.
  intros H1 H2 [O (evs & L & F)]. split; [done|]. exists evs. split; [done|].
  weaken F. by eapply write_inside_weaken.
Qed.

Lemma flashes_root lo hi s s' : flashes lo hi s s' -> RootType s' = RootType s.
Proof. intros [O _]. unfold only_log in O. by rewrite O. Qed.

Lemma WriteToDisk_aligned blk h Image Size offset s k :
  RootType s = EMMC \/ RootType s = UFS ->
  This blk = dev -> BlockSize blk = bs -> bs = 2 ^ k -> 0 <= k <= 31 ->
  0 <= offset -> 0 <= Size < 2 ^ 32 -> offset * bs + Size < 2 ^ 64 -> (bs | Size) ->
  (Z.to_nat Size <= length Image)%nat ->
  (forall l e, definite (EventStatus l e)) ->
  exists st s', WriteToDisk (Some blk) h Image Size offset s = Some (st, s') /\ definite st /\
    flashes (offset * bs) (offset * bs + Size) s s' /\
    (st = EFI_SUCCESS -> forall a, content (log s') a =
       overlay (offset * bs) (take (Z.to_nat Size) Image) (content (log s)) a).
Proof.
  intros Hroot Hdev Hbs Hk Hk31 HO HS HOS [q Hq] HI Hdef. unfold WriteToDisk.
  destruct (WriteBlockToPartition_spec (BD := BD) IsFlashSplitNeeded blk (Some h) offset Size Image s k)
    as (st & s' & Hr & Hl & Hc); try done.
  exists st, s'. split; [exact Hr|]. enough (definite st /\ exists evs, log s' = log s ++ evs /\
    Forall (write_inside (dev := dev) (bs := bs) (offset * bs) (offset * bs + Size)) evs)
    as [Hd He] by done.
  assert (Hpos : 0 < bs) by (rewrite Hk; apply Z.pow_pos_nonneg; lia).
  assert (Htype : CheckRootDeviceType s = Some (RootType s, s)).
  { unfold CheckRootDeviceType. run. by destruct Hroot as [-> | ->]. }
  unfold WriteBlockToPartition in Hr. rewrite bind_run, Htype in Hr.
  rewrite (bool_decide_false (RootType s = NAND)) in Hr by (destruct Hroot as [-> | ->]; done).
  cbn [fst snd] in Hr. change (is_success EFI_SUCCESS) with true in Hr. cbn [negb] in Hr.
  rewrite Hbs in Hr. destruct (Z.eqb_spec bs 0); [lia|].
  rewrite Hq, Z.div_mul in Hr by lia. rewrite <- Hq in Hr.
  rewrite (u32_small Size) in Hr by (unfold in_u32; lia).
  rewrite Z.sub_diag in Hr. rewrite bind_run in Hr.
  destruct (Z.eqb_spec Size 0) as [Hz|Hnz].
  - run_in Hr. change (is_success EFI_SUCCESS) with true in Hr. cbn in Hr.
    injection Hr as <- <-. split; [done|]. exists []. by rewrite app_nil_r.
  - set (unit_ := if negb IsFlashSplitNeeded then Size else _) in Hr.
    destruct (write_units _ blk Image Size unit_ offset Size s) as [[[st1 off1] s1]|] eqn:Hw; [|done].
    assert (st1 = st /\ s1 = s') as [-> ->].
    { destruct (negb (is_success st1)); [by injection Hr as <- <-|]. cbn in Hr.
      by injection Hr as <- <-. }
    split; [by apply (write_units_definite _ _ _ _ _ _ _ _ _ _ Hdef Hw)|].
    eapply write_units_inside in Hw; try done; try lia.
    + unfold unit_. destruct IsFlashSplitNeeded; cbn [negb]; [|lia].
      rewrite Hk, ROUND_TO_PAGE_spec; try (unfold MAX_WRITE_SIZE; lia).
      * apply Z.mul_pos_pos; [|lia]. apply Z.div_str_pos. unfold MAX_WRITE_SIZE. lia.
      * unfold MAX_WRITE_SIZE. assert (2 ^ k <= 2 ^ 31) by (apply Z.pow_le_mono_r; lia). lia.
    + unfold unit_. destruct IsFlashSplitNeeded; cbn [negb]; [|by exists q].
      rewrite Hk, ROUND_TO_PAGE_spec; [by eexists|lia|unfold MAX_WRITE_SIZE; lia|].
      unfold MAX_WRITE_SIZE. assert (2 ^ k <= 2 ^ 31) by (apply Z.pow_le_mono_r; lia). lia.
    + by exists q.
Qed.

(** ** The chunks of one image on one partition *)
Section image.
Variables (Img : list Z) (Base sz : Z) (sh : sparse_header_t).
Variables (blk : EFI_BLOCK_IO_PROTOCOL) (h Size k : Z).
Hypothesis Himg : Forall in_u8 Img.
Hypothesis Hlen : 0 <= sz <= Z.of_nat (length Img).
Hypothesis Hsz : sz < 2 ^ 32.
Hypothesis HBase : 0 < Base.
Hypothesis HEnd : Base + sz < 2 ^ 64.
Hypothesis Hdev : This blk = dev.
Hypothesis Hbs : BlockSize blk = bs.
Hypothesis Hk : bs = 2 ^ k.
Hypothesis Hk31 : 0 <= k <= 31.
Hypothesis Hblk : 0 < blk_sz sh < 2 ^ 32.
Hypothesis Hdiv : (bs | blk_sz sh).
Hypothesis HSize : 0 < Size <= 2 ^ 63.
Hypothesis HBlocks : Size < 2 ^ 32 * blk_sz sh.
Hypothesis Hdef : forall l e, definite (EventStatus l e).

Definition image_bytes : list Z := take (Z.to_nat sz) Img.

Record params_ok (d : SparseImgParam) : Prop := {
  ok_end : ImageEnd d = Base + sz;
  ok_size : PartitionSize d = Size;
  ok_blk : SpBlockIo d = Some blk;
  ok_handle : SpHandle d = h;
  ok_factor : BlockCountFactor d = blk_sz sh / bs;
  ok_blocks : in_u32 (TotalBlocks d)
}.

Lemma params_blocks d n : params_ok d -> in_u32 n -> params_ok (set_TotalBlocks n d).
Proof. intros [? ? ? ? ? ?] ?. by split. Qed.
Lemma params_written d n : params_ok d -> params_ok (set_WrittenBlockCount n d).
Proof. intros [? ? ? ? ? ?]. by split. Qed.
Lemma params_chunk d n : params_ok d -> params_ok (set_ChunkDataSz n d).
Proof. intros [? ? ? ? ? ?]. by split. Qed.

Lemma bs_pos : 0 < bs.
Proof. rewrite Hk. apply Z.pow_pos_nonneg; lia. Qed.

(** A block number as the byte it starts at. *)
Lemma block_address d :
  params_ok d -> TotalBlocks d * blk_sz sh < Size ->
  u64 (TotalBlocks d * BlockCountFactor d) * bs = TotalBlocks d * blk_sz sh /\
  0 <= u64 (TotalBlocks d * BlockCountFactor d).
Proof.
  intros [_ _ _ _ -> Ht] HT. unfold in_u32 in Ht. pose proof bs_pos as Hp.
  destruct Hdiv as [q Hq]. rewrite Hq, Z.div_mul by lia.
  assert (0 < q) by nia. rewrite u64_small; [nia|]. unfold in_u64.
  assert (TotalBlocks d * q <= TotalBlocks d * blk_sz sh) by (rewrite Hq; nia). nia.
Qed.

(** The result of one chunk at [off]: on success the pointer has moved over the
    chunk's bytes and the piece [p] of [blocks] blocks is on the device. *)
Definition chunk_done (off : Z) (d : SparseImgParam) (s : boot_state) (r : chunk_result)
    (s' : boot_state) (p : piece) (blocks : Z) (rest : list Z) : Prop :=
  exists off', fst (snd r) = Base + off' /\ off <= off' <= sz /\
    params_ok (snd (snd r)) /\ TotalBlocks (snd (snd r)) = TotalBlocks d + blocks /\
    rest = drop (Z.to_nat off') image_bytes /\ piece_size p = blk_sz sh * blocks /\
    forall a, content (log s') a = lay [p] (TotalBlocks d * blk_sz sh) (content (log s)) a.

Lemma write_at d data n tail s :
  RootType s = EMMC \/ RootType s = UFS -> params_ok d ->
  TotalBlocks d * blk_sz sh < Size ->
  Z.of_nat (length data) = n -> n < 2 ^ 32 -> (bs | n) ->
  TotalBlocks d * blk_sz sh + n <= Size ->
  exists st s',
    WriteToDisk (SpBlockIo d) (SpHandle d) (data ++ tail) n
      (u64 (TotalBlocks d * BlockCountFactor d)) s = Some (st, s') /\ definite st /\
    flashes 0 Size s s' /\
    (st = EFI_SUCCESS -> forall a, content (log s') a =
       overlay (TotalBlocks d * blk_sz sh) data (content (log s)) a).
Proof.
  intros Hroot Hp HT <- Hl Hd Hfit. destruct (block_address d Hp HT) as [Ha Ha0].
  destruct (WriteToDisk_aligned blk (SpHandle d) (data ++ tail) (Z.of_nat (length data))
    (u64 (TotalBlocks d * BlockCountFactor d)) s k) as (st & s' & Hr & Hdf & Hf & Hc); try done; try lia.
  { rewrite length_app. lia. }
  rewrite (ok_blk d Hp). exists st, s'. split; [exact Hr|]. split; [done|]. split.
  - rewrite Ha in Hf. eapply flashes_weaken; [| |exact Hf]; [|lia].
    pose proof (ok_blocks d Hp) as Hb. unfold in_u32 in Hb. nia.
  - intros Hst a. rewrite (Hc Hst a), Ha, Nat2Z.id. by rewrite take_app_length.
Qed.

Definition chunk_ok (m : B chunk_result) (off : Z) (d : SparseImgParam) (s : boot_state)
    (Q : piece -> Z -> list Z -> Prop) : Prop :=
  exists r s', m s = Some (r, s') /\ flashes 0 Size s s' /\
    (EFI_ERROR (fst r) = false -> fst r = EFI_SUCCESS /\
       exists p blocks rest, Q p blocks rest /\ chunk_done off d s r s' p blocks rest).

Lemma chunk_refused off d s r Q :
  EFI_ERROR (fst r) = true -> chunk_ok (mret r) off d s Q.
Proof.
  intros H. exists r, s. split; [done|]. split; [apply flashes_refl|]. by rewrite H.
Qed.

Lemma chunk_weaken m off d s (Q Q' : piece -> Z -> list Z -> Prop) :
  chunk_ok m off d s Q -> (forall p b r, Q p b r -> Q' p b r) -> chunk_ok m off d s Q'.
Proof.
  intros (r & s' & Hr & Hf & Hs) HQ. exists r, s'. split; [done|]. split; [done|].
  intros He. destruct (Hs He) as (? & p & b & rest & ? & ?). split; [done|].
  exists p, b, rest. auto.
Qed.

Lemma image_drop off : 0 <= off <= sz -> Z.of_nat (length (drop (Z.to_nat off) image_bytes)) = sz - off.
Proof. intros H. unfold image_bytes. rewrite length_drop, length_take. lia. Qed.

(** A pointer moved inside the image. *)
Lemma move_pointer off n :
  0 <= off <= sz -> 0 <= n < 2 ^ 64 -> CHECK_ADD64 (Base + off) n = false ->
  u64 (Base + off + n) = Base + (off + n).
Proof.
  intros Ho Hn HC. rewrite CHECK_ADD64_spec in HC by (unfold in_u64; lia).
  apply Z.leb_gt in HC. rewrite u64_small by (unfold in_u64; lia). lia.
Qed.

Lemma CHECK_false off n :
  0 <= off <= sz -> 0 <= n < 2 ^ 64 -> CHECK_ADD64 (Base + off) n = false -> Base + off + n < 2 ^ 64.
Proof.
  intros Ho Hn HC. rewrite CHECK_ADD64_spec in HC by (unfold in_u64; lia). by apply Z.leb_gt in HC.
Qed.

(** The image in front of a pointer, split at a length. *)
Lemma pointer_split off n :
  0 <= off -> 0 <= n -> off + n <= sz ->
  from_pointer Img Base (Base + off) =
    take (Z.to_nat n) (drop (Z.to_nat off) image_bytes) ++ drop (Z.to_nat n) (drop (Z.to_nat off) Img).
Proof.
  intros Ho Hn Hs. unfold from_pointer, image_bytes.
  replace (Base + off - Base) with off by lia.
  rewrite <- (take_drop (Z.to_nat n) (drop (Z.to_nat off) Img)) at 1. f_equal.
  rewrite skipn_firstn_comm, take_take. f_equal. lia.
Qed.

Lemma add_blocks d n :
  params_ok d -> 0 <= n -> (MAX_UINT32 - n <? TotalBlocks d) = false ->
  u32 (TotalBlocks d + n) = TotalBlocks d + n /\ in_u32 (TotalBlocks d + n).
Proof.
  intros Hp Hn Hm. apply Z.ltb_ge in Hm. unfold MAX_UINT32 in Hm. pose proof (ok_blocks d Hp) as Hb.
  assert (in_u32 (TotalBlocks d + n)) by (unfold in_u32 in *; lia).
  split; [by apply u32_small|done].
Qed.

(** [EFI_ERROR] decided on an error code. *)
Ltac refused := apply chunk_refused; reflexivity.

Lemma raw_ok chunk off d s :
  RootType s = EMMC \/ RootType s = UFS -> params_ok d -> 0 <= off <= sz ->
  chunk_hdr_sz sh = 12 -> in_u32 (chunk_sz chunk) -> ChunkDataSz d = blk_sz sh * chunk_sz chunk ->
  TotalBlocks d * blk_sz sh < Size ->
  (Size <? u64 (u64 (TotalBlocks d * blk_sz sh) + ChunkDataSz d)) = false ->
  chunk_ok (HandleChunkTypeRaw Img Base sh chunk (Base + off) d) off d s (fun p blocks rest =>
    total_sz chunk = 12 + blk_sz sh * chunk_sz chunk /\
    blk_sz sh * chunk_sz chunk <= sz - off /\ blocks = chunk_sz chunk /\
    p = Data (take (Z.to_nat (blk_sz sh * chunk_sz chunk)) (drop (Z.to_nat off) image_bytes)) /\
    rest = drop (Z.to_nat (blk_sz sh * chunk_sz chunk)) (drop (Z.to_nat off) image_bytes)).
Proof.
  intros Hroot Hp Ho Hhdr Hcs HCD HT Hfit. unfold HandleChunkTypeRaw.
  destruct (Z.eqb_spec (Base + off) 0) as [|_]; [lia|]. case_if; [refused|].
  case_if; [refused|]. case_if; [refused|]. unfold in_u32 in Hcs.
  set (n := blk_sz sh * chunk_sz chunk) in *. assert (Hn : 0 <= n < 2 ^ 64) by (unfold n; nia).
  rewrite HCD in *. bool_to_prop.
  pose proof (CHECK_false off n Ho Hn ltac:(done)) as HC.
  rewrite (move_pointer off n Ho Hn) in * by done. rewrite (ok_end d Hp) in *.
  assert (Hin : off + n <= sz) by lia.
  pose proof (ok_blocks d Hp) as Hb. unfold in_u32 in Hb.
  rewrite (u64_small (TotalBlocks d * blk_sz sh)) in Hfit by (unfold in_u64; nia).
  rewrite u64_small in Hfit by (unfold in_u64; nia).
  rewrite (pointer_split off n) by lia.
  set (data := take (Z.to_nat n) (drop (Z.to_nat off) image_bytes)).
  assert (Hd : Z.of_nat (length data) = n).
  { unfold data. rewrite length_take. pose proof (image_drop off Ho). lia. }
  cbn [SpBlockIo SpHandle ChunkDataSz WrittenBlockCount set_WrittenBlockCount].
  rewrite HCD.
  destruct (write_at d data n (drop (Z.to_nat n) (drop (Z.to_nat off) Img)) s Hroot Hp HT Hd)
    as (st & s' & Hr & Hdf & Hf & Hc).
  { lia. } { unfold n. by apply Z.divide_mul_l. } { lia. }
  unfold chunk_ok. rewrite bind_run, Hr. unfold definite in Hdf. rewrite Hdf.
  destruct (is_success st) eqn:Est; cbn [negb].
  2: { eexists _, s'. split; [done|]. split; [done|]. cbn [fst]. by rewrite Hdf. }
  apply bool_decide_eq_true in Est. cbn [TotalBlocks set_WrittenBlockCount].
  destruct (MAX_UINT32 - chunk_sz chunk <? TotalBlocks d) eqn:Em.
  { by eexists _, s'. }
  destruct (add_blocks d (chunk_sz chunk) Hp ltac:(lia) Em) as [-> Hu].
  eexists _, s'. split; [done|]. split; [done|]. intros _. split; [done|].
  exists (Data data), (chunk_sz chunk), (drop (Z.to_nat n) (drop (Z.to_nat off) image_bytes)).
  split; [rewrite E, Hhdr, u64_small by (unfold in_u64; lia); by repeat split; try lia|].
  exists (off + n). cbn [fst snd]. split; [by apply move_pointer|].
  split; [lia|]. split; [destruct Hp; by split|]. split; [done|].
  split; [rewrite drop_drop; f_equal; lia|]. split; [exact Hd|]. cbn [lay]. by apply Hc.
Qed.

Lemma fill_loop_ok FillBuf count d s :
  RootType s = EMMC \/ RootType s = UFS -> params_ok d ->
  Z.of_nat (length FillBuf) = blk_sz sh ->
  exists st d' s', fill_loop sh FillBuf count d s = Some ((st, d'), s') /\ flashes 0 Size s s' /\
    (EFI_ERROR st = false -> st = EFI_SUCCESS /\ params_ok d' /\
       TotalBlocks d' = TotalBlocks d + Z.of_nat count /\
       forall a, content (log s') a =
         overlay (TotalBlocks d * blk_sz sh) (concat (repeat FillBuf count)) (content (log s)) a).
Proof.
  intros Hroot Hp HF. revert d s Hroot Hp. induction count as [|count IH]; intros d s Hroot Hp.
  { exists EFI_SUCCESS, d, s. split; [done|]. split; [apply flashes_refl|]. intros _.
    split; [done|]. split; [done|]. split; [lia|]. intros a. by rewrite overlay_nil. }
  cbn [fill_loop]. rewrite (ok_size d Hp).
  pose proof (ok_blocks d Hp) as Hb. unfold in_u32 in Hb.
  rewrite (u64_small (TotalBlocks d * blk_sz sh)) by (unfold in_u64; nia).
  rewrite u64_small by (unfold in_u64; nia).
  destruct (Z.ltb_spec Size (TotalBlocks d * blk_sz sh + blk_sz sh)) as [Hfull|Hfit].
  { exists EFI_VOLUME_FULL, d, s. split; [done|]. split; [apply flashes_refl|done]. }
  cbn [SpBlockIo SpHandle WrittenBlockCount set_WrittenBlockCount].
  destruct (write_at d FillBuf (blk_sz sh) [] s Hroot Hp ltac:(lia) HF ltac:(lia) Hdiv Hfit)
    as (st & s1 & Hr & Hdf & Hf & Hc).
  rewrite app_nil_r in Hr. rewrite bind_run, Hr. unfold definite in Hdf. rewrite Hdf.
  destruct (is_success st) eqn:Est; cbn [negb].
  2: { eexists st, _, s1. split; [done|]. split; [done|]. by rewrite Hdf. }
  apply bool_decide_eq_true in Est.
  set (d1 := set_TotalBlocks _ _). assert (H1 : u32 (TotalBlocks d + 1) = TotalBlocks d + 1).
  { apply u32_small. unfold in_u32. nia. }
  assert (Hp1 : params_ok d1).
  { apply params_blocks; [destruct Hp; by split|].
    change (in_u32 (u32 (TotalBlocks d + 1))). rewrite H1. unfold in_u32. nia. }
  assert (HT1 : TotalBlocks d1 = TotalBlocks d + 1) by exact H1.
  destruct (IH d1 s1) as (st' & d' & s' & Hrun & Hf' & Hs); [by rewrite (flashes_root _ _ _ _ Hf)|done|].
  exists st', d', s'. split; [exact Hrun|]. split; [by eapply flashes_trans|].
  intros He. destruct (Hs He) as (Hst & Hp' & HT' & Hc'). split; [done|]. split; [done|].
  split; [lia|]. intros a. rewrite (Hc' a), HT1.
  etransitivity; [apply overlay_ext; by apply Hc|]. cbn [repeat concat].
  replace ((TotalBlocks d + 1) * blk_sz sh)
    with (TotalBlocks d * blk_sz sh + Z.of_nat (length FillBuf)) by lia.
  apply overlay_app.
Qed.

Lemma fill_ok chunk off d s :
  RootType s = EMMC \/ RootType s = UFS -> params_ok d -> 0 <= off <= sz ->
  chunk_hdr_sz sh = 12 -> in_u32 (chunk_sz chunk) ->
  chunk_ok (HandleChunkTypeFill Img Base sh chunk (Base + off) d) off d s (fun p blocks rest =>
    total_sz chunk = 16 /\ 4 <= sz - off /\ blocks = chunk_sz chunk /\
    p = Data (concat (repeat (fill_buffer (blk_sz sh) (take 4 (drop (Z.to_nat off) image_bytes)))
                       (Z.to_nat blocks))) /\
    rest = drop 4 (drop (Z.to_nat off) image_bytes)).
Proof.
  intros Hroot Hp Ho Hhdr Hcs. unfold HandleChunkTypeFill.
  destruct (Z.eqb_spec (Base + off) 0) as [|_]; [lia|]. case_if; [refused|].
  case_if; [refused|]. case_if; [refused|]. case_if; [refused|]. bool_to_prop.
  rewrite (move_pointer off 4) in * by (done || lia). rewrite (ok_end d Hp) in *.
  assert (Hin : off + 4 <= sz) by lia. unfold in_u32 in Hcs.
  set (v := take 4 (drop (Z.to_nat off) image_bytes)).
  assert (Hv : rd Img (Base + off - Base) 4 = Some v).
  { replace (Base + off - Base) with off by lia. rewrite rd_slice by lia. unfold slice, v, image_bytes.
    f_equal. rewrite skipn_firstn_comm, take_take. f_equal. lia. }
  assert (Hvl : length v = 4%nat).
  { unfold v. rewrite length_take. pose proof (image_drop off Ho). lia. }
  unfold chunk_ok. rewrite Hv. run.
  destruct (fill_loop_ok (fill_buffer (blk_sz sh) v) (Z.to_nat (chunk_sz chunk)) d s Hroot Hp)
    as (st & d' & s' & Hr & Hf & Hs); [apply fill_buffer_length; [lia|done]|].
  rewrite Hr. run. eexists _, s'. split; [done|]. split; [done|]. cbn [fst snd]. intros He.
  destruct (Hs He) as (Hst & Hp' & HT' & Hc). split; [done|].
  eexists _, (chunk_sz chunk), _.
  split. { rewrite E, Hhdr. split; [done|]. split; [lia|]. split; [done|]. by split. }
  exists (off + 4). cbn [fst snd]. split; [done|]. split; [lia|]. split; [done|].
  split; [lia|]. split; [rewrite drop_drop; f_equal; lia|].
  split.
  - cbn [piece_size]. rewrite concat_repeat_length.
    pose proof (fill_buffer_length (blk_sz sh) v ltac:(lia) Hvl). nia.
  - cbn [lay]. exact Hc.
Qed.

(** A chunk that writes nothing. *)
Lemma hole_ok (Image : Z) off off' blocks d s r Q :
  params_ok d -> off <= off' <= sz -> 0 <= blocks -> (MAX_UINT32 - blocks <? TotalBlocks d) = false ->
  r = (EFI_SUCCESS, (Base + off', set_TotalBlocks (u32 (TotalBlocks d + blocks)) d)) ->
  Q (Hole (blk_sz sh * blocks)) blocks (drop (Z.to_nat off') image_bytes) ->
  chunk_ok (mret r) off d s Q.
Proof.
  intros Hp Ho Hb Hm -> HQ. destruct (add_blocks d blocks Hp Hb Hm) as [Hu Hin]. rewrite Hu.
  eexists _, s. split; [done|]. split; [apply flashes_refl|]. intros _. split; [done|].
  eexists _, _, _. split; [exact HQ|]. exists off'. cbn [fst snd]. split; [done|]. split; [done|].
  split; [by apply params_blocks|]. done.
Qed.

Lemma validate_ok chunk off d s :
  RootType s = EMMC \/ RootType s = UFS -> params_ok d -> 0 <= off <= sz ->
  chunk_hdr_sz sh = 12 -> in_u32 (chunk_sz chunk) -> ChunkDataSz d = blk_sz sh * chunk_sz chunk ->
  TotalBlocks d * blk_sz sh < Size ->
  (Size <? u64 (u64 (TotalBlocks d * blk_sz sh) + ChunkDataSz d)) = false ->
  chunk_ok (ValidateChunkDataAndFlash Img Base sh chunk (Base + off) d) off d s
    (fun p blocks rest =>
       decode_body (blk_sz sh) (chunk_type chunk) (chunk_sz chunk) (total_sz chunk)
         (drop (Z.to_nat off) image_bytes) = Some (p, blocks, rest)).
Proof.
  intros Hroot Hp Ho Hhdr Hcs HCD HT Hfit. unfold ValidateChunkDataAndFlash, decode_body. cbv zeta.
  pose proof (image_drop off Ho) as Hrest.
  destruct (Z.eqb_spec (Base + off) 0) as [|_]; [lia|].
  assert (Hpass : forall m Q, chunk_ok m off d s Q ->
    chunk_ok (r ← m; if EFI_ERROR (fst r) then mret r else mret (EFI_SUCCESS, snd r)) off d s Q).
  { intros m Q (r & s' & Hr & Hf & Hs). unfold chunk_ok. rewrite bind_run, Hr.
    destruct (EFI_ERROR (fst r)) eqn:Er.
    - exists r, s'. split; [done|]. split; [done|]. by rewrite Er.
    - eexists _, s'. split; [done|]. split; [done|]. intros _. split; [done|].
      destruct (Hs eq_refl) as [_ Hx]. exact Hx. }
  unfold in_u32 in Hcs.
  destruct (chunk_type chunk =? CHUNK_TYPE_RAW).
  { apply Hpass. eapply chunk_weaken; [by apply raw_ok|].
    intros p b r (-> & Hl & -> & -> & ->). by rewrite Z.eqb_refl, (proj2 (Z.leb_le _ _)) by lia. }
  destruct (chunk_type chunk =? CHUNK_TYPE_FILL).
  { apply Hpass. eapply chunk_weaken; [by apply fill_ok|].
    intros p b r (-> & Hl & -> & -> & ->). by rewrite Z.eqb_refl, (proj2 (Nat.leb_le _ _)) by lia. }
  destruct (chunk_type chunk =? CHUNK_TYPE_DONT_CARE).
  { case_if; [refused|]. by eapply (hole_ok (Base + off) off off (chunk_sz chunk)); [done|lia|lia|..]. }
  destruct (chunk_type chunk =? CHUNK_TYPE_CRC); [|refused].
  case_if; [refused|]. case_if; [refused|]. case_if; [refused|].
  cbn [ChunkDataSz set_TotalBlocks ImageEnd] in *. rewrite HCD in *. bool_to_prop.
  set (n := blk_sz sh * chunk_sz chunk) in *. assert (Hn : 0 <= n < 2 ^ 64) by (unfold n; nia).
  pose proof (CHECK_false off n Ho Hn ltac:(done)) as HC.
  assert (Hu : 0 <= u32 n <= n) by (unfold u32; split; [apply Z.mod_pos_bound; lia|apply Z.mod_le; lia]).
  rewrite (u64_small (Base + off + u32 n)) by (unfold in_u64; lia).
  rewrite (ok_end d Hp). destruct (Z.ltb_spec (Base + sz) (Base + off + u32 n)) as [|Hin]; [refused|].
  eapply (hole_ok (Base + off) off (off + u32 n) (chunk_sz chunk)); [done|lia|lia|by apply Z.ltb_ge| |].
  - do 2 f_equal. lia.
  - fold n. match goal with H : total_sz chunk = _ |- _ => rewrite H, Hhdr end.
    rewrite Z.eqb_refl, (proj2 (Z.leb_le _ _)) by lia. cbn [andb]. rewrite drop_drop.
    by replace (Z.to_nat (off + u32 n)) with (Z.to_nat off + Z.to_nat (u32 n))%nat by lia.
Qed.

(** ** One round of the loop *)
Lemma slice_image off j n :
  0 <= off -> 0 <= j -> off + j + Z.of_nat n <= sz ->
  slice n (drop (Z.to_nat off) image_bytes) j = slice n Img (off + j).
Proof.
  intros Ho Hj Hs. unfold slice, image_bytes. rewrite drop_drop, skipn_firstn_comm, take_take.
  replace (Z.to_nat off + Z.to_nat j)%nat with (Z.to_nat (off + j)) by lia. f_equal. lia.
Qed.

Lemma field_image off j n :
  0 <= off -> 0 <= j -> off + j + Z.of_nat n <= sz ->
  field n Img (off + j) = Some (le n (drop (Z.to_nat off) image_bytes) j).
Proof.
  intros Ho Hj Hs. unfold field, le. rewrite slice_image by done. by rewrite rd_slice by lia.
Qed.

Lemma image_bytes_u8 off : Forall in_u8 (drop (Z.to_nat off) image_bytes).
Proof. unfold image_bytes. apply Forall_drop. by apply Forall_take. Qed.

Lemma read_chunk_header_image off :
  0 <= off -> off + 12 <= sz ->
  read_chunk_header Img off = Some (mk_chunk_header (le 2 (drop (Z.to_nat off) image_bytes) 0)
    (le 4 (drop (Z.to_nat off) image_bytes) 4) (le 4 (drop (Z.to_nat off) image_bytes) 8)).
Proof.
  intros Ho Hs. unfold read_chunk_header.
  pose proof (field_image off 0 2 Ho) as H0. rewrite Z.add_0_r in H0.
  rewrite H0, !field_image by lia. done.
Qed.

Lemma sparse_chunk_ok off d s :
  RootType s = EMMC \/ RootType s = UFS -> params_ok d -> 0 <= off <= sz ->
  chunk_ok (sparse_chunk Img Base sh (Base + off) d) off d s
    (fun p blocks rest =>
       decode_chunk (blk_sz sh) (drop (Z.to_nat off) image_bytes) = Some (p, blocks, rest)).
Proof.
  intros Hroot Hp Ho. unfold sparse_chunk. cbv zeta.
  cbn [PartitionSize TotalBlocks ChunkDataSz set_ChunkDataSz]. rewrite (ok_size d Hp).
  pose proof (ok_blocks d Hp) as Hb. unfold in_u32 in Hb.
  rewrite (u64_small (TotalBlocks d * blk_sz sh)) by (unfold in_u64; nia).
  case_if; [refused|]. case_if; [refused|]. unfold SIZEOF_chunk_header_t in *. bool_to_prop.
  rewrite (move_pointer off 12) in * by (done || lia). rewrite (ok_end d Hp).
  destruct (Z.ltb_spec (Base + sz) (Base + (off + 12))) as [|Hin]; [refused|].
  replace (Base + off - Base) with off by lia.
  set (img := drop (Z.to_nat off) image_bytes).
  assert (Hi : Z.of_nat (length img) = sz - off) by (by apply image_drop).
  assert (Hu8 : Forall in_u8 img) by apply image_bytes_u8.
  pose proof (le_range 4 img 4 Hu8) as H4. pose proof (le_range 4 img 8 Hu8) as H8.
  rewrite read_chunk_header_image by lia. fold img.
  set (chunk := mk_chunk_header _ _ _).
  enough (chunk_ok (if negb (chunk_hdr_sz sh =? 12)
      then mret (EFI_INVALID_PARAMETER, (Base + (off + 12), d))
      else if Size <? u64 (TotalBlocks d * blk_sz sh + u64 (blk_sz sh * chunk_sz chunk))
      then mret (EFI_VOLUME_FULL, (Base + (off + 12), set_ChunkDataSz (u64 (blk_sz sh * chunk_sz chunk)) d))
      else ValidateChunkDataAndFlash Img Base sh chunk (Base + (off + 12))
             (set_ChunkDataSz (u64 (blk_sz sh * chunk_sz chunk)) d)) off d s
    (fun p blocks rest => decode_chunk (blk_sz sh) img = Some (p, blocks, rest)))
    as (r & s' & Hr & H) by (exists r, s'; split; [exact Hr|exact H]).
  destruct (Z.eqb_spec (chunk_hdr_sz sh) 12) as [Hhdr|]; cbn [negb]; [|refused].
  assert (Hcs : in_u32 (chunk_sz chunk)) by (unfold in_u32; cbn [chunk_sz chunk]; lia).
  assert (HCD : u64 (blk_sz sh * chunk_sz chunk) = blk_sz sh * chunk_sz chunk).
  { apply u64_small. unfold in_u64, in_u32 in *. nia. }
  case_if; [refused|].
  destruct (validate_ok chunk (off + 12) (set_ChunkDataSz (u64 (blk_sz sh * chunk_sz chunk)) d) s)
    as (r & s' & Hr & Hf & Hs); [done|by apply params_chunk|lia|done..|exact E| |].
  { by rewrite (u64_small (TotalBlocks _ * _)) by (cbn [TotalBlocks set_ChunkDataSz]; unfold in_u64; nia). }
  exists r, s'. split; [exact Hr|]. split; [done|]. intros He.
  destruct (Hs He) as (Hst & p & blocks & rest & Hdec & (off' & H1 & H2 & H3)). split; [done|].
  exists p, blocks, rest. split.
  - unfold decode_chunk. rewrite (proj2 (Nat.ltb_ge _ _)) by lia.
    rewrite <- Hdec. unfold img. rewrite drop_drop.
    by replace (Z.to_nat off + 12)%nat with (Z.to_nat (off + 12)) by lia.
  - exists off'. split; [done|]. split; [lia|]. exact H3.
Qed.

(** ** The loop *)
Lemma sparse_chunks_ok count st off d s :
  RootType s = EMMC \/ RootType s = UFS -> params_ok d -> 0 <= off <= sz ->
  exists st' done_ d' s',
    sparse_chunks Img Base sh count st (Base + off) d s = Some (st', done_, d', s') /\
    flashes 0 Size s s' /\
    if done_ : bool then
      st' = match count with O => st | S _ => EFI_SUCCESS end /\
      exists ps total,
        decode (blk_sz sh) count (drop (Z.to_nat off) image_bytes) = Some (ps, total) /\
        TotalBlocks d' = TotalBlocks d + total /\
        forall a, content (log s') a = lay ps (TotalBlocks d * blk_sz sh) (content (log s)) a
    else EFI_ERROR st' = true.
Proof.
  revert st off d s. induction count as [|count IH]; intros st off d s Hroot Hp Ho.
  { exists st, true, d, s. split; [done|]. split; [apply flashes_refl|]. split; [done|].
    exists [], 0. split; [done|]. split; [lia|done]. }
  cbn [sparse_chunks].
  destruct (sparse_chunk_ok off d s Hroot Hp Ho) as ((st1 & Image1 & d1) & s1 & Hr & Hf & Hs).
  rewrite bind_run, Hr. cbn [fst] in Hs. destruct (EFI_ERROR st1) eqn:E1.
  { exists st1, false, d1, s1. by split. }
  destruct (Hs eq_refl) as (-> & p & blocks & rest & Hdec & (off' & H1 & H2 & H3 & H4 & H5 & H6 & H7)).
  cbn [fst snd] in *. subst Image1 rest.
  destruct (IH EFI_SUCCESS off' d1 s1) as (st' & done_ & d' & s' & Hrun & Hf' & Hdone);
    [by rewrite (flashes_root _ _ _ _ Hf)|done|lia|].
  exists st', done_, d', s'. split; [exact Hrun|]. split; [by eapply flashes_trans|].
  destruct done_; [|done]. destruct Hdone as (-> & ps & total & Hps & HT & Hc).
  split; [by destruct count|]. exists (p :: ps), (blocks + total). split.
  { cbn [decode]. rewrite Hdec. cbn. by rewrite Hps. }
  split; [lia|]. intros a. rewrite (Hc a), (lay_ext _ _ _ _ H7), H4.
  rewrite Z.mul_add_distr_r, (Z.mul_comm blocks), <- H6. by apply lay_cons.
Qed.
End image.

(** ** The whole image *)
Lemma read_sparse_header_image Img sz :
  28 <= sz <= Z.of_nat (length Img) ->
  read_sparse_header Img 0 = let img := take (Z.to_nat sz) Img in
    Some (mk_sparse_header (le 4 img 0) (le 2 img 8) (le 2 img 10) (le 4 img 12) (le 4 img 16)
            (le 4 img 20)).
Proof.
  intros Hs. cbv zeta. unfold read_sparse_header.
  assert (HF : forall j n, 0 <= j -> j + Z.of_nat n <= sz ->
    field n Img j = Some (le n (take (Z.to_nat sz) Img) j)).
  { intros j n Hj Hn. pose proof (field_image Img sz 0 ltac:(lia) ltac:(lia) 0 j n) as H.
    rewrite Z.add_0_l in H. by apply H. }
  rewrite !HF by lia. done.
Qed.

(** What a run that flashes [img] does; every failure is one too. *)
Definition image_flashed (img : list Z) (Size : Z) (m : B EFI_STATUS) (s : boot_state) : Prop :=
  exists st s', m s = Some (st, s') /\ flashes 0 Size s s' /\
    (st = EFI_SUCCESS -> exists ps, decode_image img = Some ps /\
       forall a, content (log s') a = lay ps 0 (content (log s)) a).

Lemma image_refused img Size st s : st <> EFI_SUCCESS -> image_flashed img Size (mret st) s.
Proof. intros H. exists st, s. split; [done|]. split; [apply flashes_refl|done]. Qed.

Lemma HandleSparseImgFlash_spec Img Base L name sz blk hd k s :
  Forall in_u8 Img -> 0 <= sz <= Z.of_nat (length Img) -> sz < 2 ^ 32 ->
  0 < Base -> Base + sz < 2 ^ 64 ->
  PartitionGetInfo L name s = Some ((EFI_SUCCESS, Some hd), s) -> BlkIo hd = Some blk ->
  This blk = dev -> BlockSize blk = bs -> bs = 2 ^ k -> 0 <= k <= 31 -> in_u64 (LastBlock blk) ->
  GetPartitionSize (Some blk) <= 2 ^ 63 -> GetPartitionSize (Some blk) < 2 ^ 32 * bs ->
  (forall l e, definite (EventStatus l e)) -> RootType s = EMMC \/ RootType s = UFS ->
  image_flashed (take (Z.to_nat sz) Img) (GetPartitionSize (Some blk))
    (HandleSparseImgFlash Img Base L name sz) s.
Proof.
  intros Himg Hlen Hsz HBase HEnd Hfound Hio Hdev Hbs Hk Hk31 HLB HS63 HS32 Hdef Hroot.
  assert (Hp : 0 < bs) by (rewrite Hk; apply Z.pow_pos_nonneg; lia).
  assert (HS0 : 0 <= GetPartitionSize (Some blk)).
  { rewrite GetPartitionSize_spec; [case_match; unfold in_u64 in *; nia|done|].
    rewrite Hbs, Hk. split; [lia|]. apply Z.pow_lt_mono_r; lia. }
  set (Size := GetPartitionSize (Some blk)) in *.
  unfold HandleSparseImgFlash. cbv zeta. case_if; [by apply image_refused|].
  unfold image_flashed. rewrite bind_run, Hfound. cbn [fst snd].
  change (is_success EFI_SUCCESS) with true.
  cbn [negb]. rewrite Hio. fold Size. 
  case_if; [by apply image_refused|]. case_if; [by apply image_refused|].
  case_if; [by apply image_refused|]. case_if; [by apply image_refused|].
  unfold SIZEOF_sparse_header_t in *. bool_to_prop.
  rewrite (read_sparse_header_image Img sz) by lia. cbv zeta. set (img := take (Z.to_nat sz) Img).
  set (sh := mk_sparse_header _ _ _ _ _ _). run.
  case_if; [by apply image_refused|]. case_if; [by apply image_refused|].
  case_if; [by apply image_refused|].
  run. rewrite Hbs.
  case_if; [lia|]. case_if; [by apply image_refused|]. bool_to_prop.
  assert (Hi : length img = Z.to_nat sz) by (unfold img; rewrite length_take; lia).
  assert (Hb : 0 <= le 4 img 12 < 2 ^ 32).
  { apply (le_range 4 img 12); [by apply Forall_take|lia|lia]. }
  assert (Hd : (bs | le 4 img 12)) by (apply Z.mod_divide; [lia|done]).
  assert (Hbb : bs <= le 4 img 12) by (apply Z.divide_pos_le; [cbn [blk_sz sh] in *; lia|done]).
  rewrite !(u64_small (Base + _)) by (unfold in_u64; lia).
  destruct (sparse_chunks_ok Img Base sz sh blk (Handle hd) Size k)
    with (count := Z.to_nat (total_chunks sh)) (st := EFI_SUCCESS) (off := 28) (s := s)
         (d := mk_sparse_param 0 0 (Base + sz) 0 (blk_sz sh / bs) Size (Some blk) (Handle hd))
    as (st & done_ & d' & s' & Hr & Hf & Hs); try done; try (cbn [blk_sz sh]; lia).
  destruct done_; [destruct Hs as (-> & ps & total & Hdec & HT & Hc)|].
  - exists (if TotalBlocks d' =? total_blks sh then EFI_SUCCESS else EFI_VOLUME_CORRUPTED), s'.
    rewrite bind_run, Hr. split; [by destruct (Z.to_nat (total_chunks sh)); run; destruct (TotalBlocks d' =? total_blks sh)|].
    split; [done|]. cbn [TotalBlocks] in HT, Hc. rewrite Z.add_0_l in HT.
    destruct (Z.eqb_spec (TotalBlocks d') (total_blks sh)) as [Ht|]; [|done]. intros _.
    exists ps. split; [|done]. unfold decode_image. rewrite (proj2 (Nat.ltb_ge _ _)) by lia.
    cbn [file_hdr_sz blk_sz total_chunks total_blks sh] in *. rewrite E5.
    change (drop 28 img) with (drop (Z.to_nat 28) (image_bytes Img sz)). rewrite Hdec. cbn [mbind option_bind].
    rewrite <- HT, Ht. by rewrite !Z.eqb_refl.
  - exists st, s'. rewrite bind_run, Hr. split; [done|]. split; [done|]. by intros ->.
Qed.

(** C13 The handler refines the reader of the format: on a
    partition it finds, with any image bytes at all, it returns without reading
    outside of the image, it changes nothing but the device and writes only between
    the first and the last byte of the partition, and if it reports success the image
    decodes to pieces and the partition holds them, holes as they were. *)
Theorem HandleSparseImgFlash_decode Img Base L name sz blk hd k s :
  Forall in_u8 Img -> 0 <= sz <= Z.of_nat (length Img) -> sz < 2 ^ 32 ->
  0 < Base -> Base + sz < 2 ^ 64 ->
  PartitionGetInfo L name s = Some ((EFI_SUCCESS, Some hd), s) -> BlkIo hd = Some blk ->
  This blk = dev -> BlockSize blk = bs -> bs = 2 ^ k -> 0 <= k <= 31 -> in_u64 (LastBlock blk) ->
  GetPartitionSize (Some blk) <= 2 ^ 63 -> GetPartitionSize (Some blk) < 2 ^ 32 * bs ->
  (forall l e, definite (EventStatus l e)) -> RootType s = EMMC \/ RootType s = UFS ->
  exists st s', HandleSparseImgFlash Img Base L name sz s = Some (st, s') /\
    flashes 0 (GetPartitionSize (Some blk)) s s' /\
    (st = EFI_SUCCESS -> exists ps, decode_image (take (Z.to_nat sz) Img) = Some ps /\
       forall a, content (log s') a = lay ps 0 (content (log s)) a).
Proof. apply HandleSparseImgFlash_spec. Qed.
End sparse.

(** A card with blocks of four bytes, one partition, and an image of a raw chunk, a
    hole and a fill chunk. *)
Definition sparse_disk : EFI_BLOCK_IO_PROTOCOL := mk_blkio 1 0 4 15.
Definition sparse_handle : HandleInfo := mk_handle 5 (Some sparse_disk).
Definition system_name : list Z := bytes "system".
Definition system_part : EFI_PARTITION_ENTRY :=
  mk_part zero_guid zero_guid 0 15 0 (system_name ++ repeat 0 30).
Definition sparse_Firmware : Firmware :=
  ram_Firmware 4 (bytes "UFS") (fun _ => [sparse_handle])
    (fun h => if h =? 5 then Some system_part else None).
Definition sparse_state : boot_state :=
  set_MaxLuns 1 (set_Ptable [[sparse_handle]] (set_RootType UFS boot_init)).
Definition sparse_demo : list Z :=
  [0x3a; 0xff; 0x26; 0xed; 1; 0; 0; 0; 28; 0; 12; 0; 4; 0; 0; 0; 5; 0; 0; 0; 3; 0; 0; 0; 0; 0; 0; 0;
   0xC1; 0xCA; 0; 0; 2; 0; 0; 0; 20; 0; 0; 0; 1; 2; 3; 4; 5; 6; 7; 8;
   0xC3; 0xCA; 0; 0; 1; 0; 0; 0; 12; 0; 0; 0;
   0xC2; 0xCA; 0; 0; 2; 0; 0; 0; 16; 0; 0; 0; 9; 10; 11; 12].

Lemma decode_sparse_demo :
  decode_image sparse_demo = Some [Data [1; 2; 3; 4; 5; 6; 7; 8]; Hole 4; Data [9; 10; 11; 12; 9; 10; 11; 12]].
Proof. vm_compute. reflexivity. Qed.

Lemma sparse_demo_success :
  option_map fst (@HandleSparseImgFlash sparse_Firmware reference_BaseLib reference_UnicodeLib demo_BootMode
    sparse_demo 4096 (mk_lun false 0) system_name 76 sparse_state) = Some EFI_SUCCESS.
Proof. vm_compute. reflexivity. Qed.

Lemma HandleSparseImgFlash_decode_witness :
  exists st s', @HandleSparseImgFlash sparse_Firmware reference_BaseLib reference_UnicodeLib demo_BootMode
      sparse_demo 4096 (mk_lun false 0) system_name 76 sparse_state = Some (st, s') /\
    flashes (dev := 1) (bs := 4) 0 (GetPartitionSize (Some sparse_disk)) sparse_state s' /\
    (st = EFI_SUCCESS -> exists ps, decode_image (take (Z.to_nat 76) sparse_demo) = Some ps /\
       forall a, ram_content 1 4 (log s') a = lay ps 0 (ram_content 1 4 (log sparse_state)) a).
Proof.
  refine (HandleSparseImgFlash_decode (FW := sparse_Firmware) (BL := reference_BaseLib)
    (UL := reference_UnicodeLib) (BM := demo_BootMode) (dev := 1) (bs := 4) (content := ram_content 1 4)
    sparse_demo 4096 (mk_lun false 0) system_name 76 sparse_disk sparse_handle 2 sparse_state
    _ _ _ _ _ _ eq_refl eq_refl eq_refl eq_refl _ _ _ _ _ (or_intror eq_refl)).
  - unfold sparse_demo. repeat constructor; lia.
  - cbn. lia.
  - lia.
  - lia.
  - lia.
  - vm_compute. reflexivity.
  - lia.
  - unfold in_u64. cbn. lia.
  - vm_compute. done.
  - vm_compute. done.
  - intros l e. reflexivity.
Defined.
