(* ===== verification/DeviceInfo.v ===== *)
(** * Device information and the misc partition.

    [Platforms/QcomModulePkg/Library/BootLib/DeviceInfo.c]: the record with the lock
    state, with [ResetDeviceState] of LinuxLoaderLib.c, which writes a recovery message
    to the misc partition.  The rest of the messages is in Recovery.v.

    The writes of the record to storage are commented out in the sources, so it
    lives in memory only.  [loader] is the state of these files: the state of the
    storage files and their static variables. *)
From stdpp Require Import base numbers list option strings.
From Stdlib Require Import ZArith Lia Ascii.
From S2P Require Import Prelude BaseLib Unicode Storage Bytes Partitions.
Local Open Scope Z_scope.

(** ** Library functions and the build *)

(** ASCII string functions of BaseLib, on characters as in Unicode.v, and number
    parsing. *)
Class AsciiLib := {
  AsciiStrnCpyS : list Z -> nat -> list Z -> nat -> EFI_STATUS * list Z;
  AsciiStrnCatS : list Z -> nat -> list Z -> nat -> EFI_STATUS * list Z;
  AsciiStrHexToUint64 : list Z -> Z;
  StrDecimalToUintn : list Z -> Z;
  AsciiStrCmp : list Z -> list Z -> Z;
  (** Source, destination, its size. *)
  AsciiStrToUnicodeStrS : list Z -> list Z -> nat -> EFI_STATUS * list Z
}.

Class AsciiLibLaws (AL : AsciiLib) := {
  AsciiStrnCpyS_fits d m s n :
    (length (take n s) < m)%nat -> AsciiStrnCpyS d m s n = (EFI_SUCCESS, take n s);
  AsciiStrnCpyS_error d m s n :
    (m <= length (take n s))%nat ->
    EFI_ERROR (fst (AsciiStrnCpyS d m s n)) = true /\ snd (AsciiStrnCpyS d m s n) = d;
  AsciiStrnCatS_fits d m s n :
    (length d + length (take n s) < m)%nat -> AsciiStrnCatS d m s n = (EFI_SUCCESS, d ++ take n s);
  AsciiStrnCatS_error d m s n :
    (m <= length d + length (take n s))%nat ->
    EFI_ERROR (fst (AsciiStrnCatS d m s n)) = true /\ snd (AsciiStrnCatS d m s n) = d;
  AsciiStrHexToUint64_range s : in_u64 (AsciiStrHexToUint64 s);
  AsciiStrCmp_law s t : AsciiStrCmp s t = 0 <-> s = t;
  AsciiStrToUnicodeStrS_error s d m :
    (m <= length s)%nat ->
    EFI_ERROR (fst (AsciiStrToUnicodeStrS s d m)) = true /\ snd (AsciiStrToUnicodeStrS s d m) = d
}.

(** A hexadecimal number: digits up to the first other character. *)
Definition hex_digit (c : Z) : option Z :=
  if (48 <=? c) && (c <=? 57) then Some (c - 48)
  else if (65 <=? c) && (c <=? 70) then Some (c - 55)
  else if (97 <=? c) && (c <=? 102) then Some (c - 87)
  else None.
Fixpoint digits_value (base : Z) (digit : Z -> option Z) (s : list Z) (v : Z) : Z :=
  match s with
  | [] => v
  | c :: s' =>
    match digit c with
    | Some d => digits_value base digit s' (Z.min MAX_UINT64 (base * v + d))
    | None => v
    end
  end.

(** The library of EDK II as a program, to evaluate examples. *)
Definition reference_AsciiLib : AsciiLib := {|
  AsciiStrnCpyS d m s n :=
    if (length (take n s) <? m)%nat then (EFI_SUCCESS, take n s) else (EFI_BUFFER_TOO_SMALL, d);
  AsciiStrnCatS d m s n :=
    if (length d + length (take n s) <? m)%nat then (EFI_SUCCESS, d ++ take n s)
    else (EFI_BUFFER_TOO_SMALL, d);
  AsciiStrHexToUint64 s := digits_value 16 hex_digit s 0;
  StrDecimalToUintn s :=
    digits_value 10 (fun c => if (48 <=? c) && (c <=? 57) then Some (c - 48) else None) s 0;
  AsciiStrCmp s t := if decide (s = t) then 0 else 1;
  AsciiStrToUnicodeStrS s d m :=
    if (length s <? m)%nat then (EFI_SUCCESS, s) else (EFI_BUFFER_TOO_SMALL, d)
|}.

Lemma digits_value_range base digit s v :
  0 <= base -> (forall c d, digit c = Some d -> 0 <= d) -> in_u64 v -> in_u64 (digits_value base digit s v).
Proof.
  intros Hb Hd. revert v. induction s as [|c s IH]; intros v Hv; cbn [digits_value]; [done|].
  destruct (digit c) as [d|] eqn:E; [|done]. apply IH. pose proof (Hd _ _ E).
  unfold in_u64, MAX_UINT64 in *. nia.
Qed.
Lemma reference_AsciiLib_laws : AsciiLibLaws reference_AsciiLib.
Proof.
  split; cbn [AsciiStrnCpyS AsciiStrnCatS AsciiStrHexToUint64 AsciiStrCmp AsciiStrToUnicodeStrS
    reference_AsciiLib].
  - intros d m s n H. by apply Nat.ltb_lt in H as ->.
  - intros d m s n H. by apply Nat.ltb_ge in H as ->.
  - intros d m s n H. by apply Nat.ltb_lt in H as ->.
  - intros d m s n H. by apply Nat.ltb_ge in H as ->.
  - intros s. apply digits_value_range; [lia| |unfold in_u64; lia].
    intros c d. unfold hex_digit. repeat case_if; intros [= <-]; bool_to_prop; lia.
  - intros s t. by destruct (decide _); split.
  - intros s d m H. by apply Nat.ltb_ge in H as ->.
Qed.

(** The versions of verified boot the build can have, and its other macros. *)
Inductive avb_version := NO_AVB | AVB_1 | AVB_2 | AVB_LE.
#[export] Instance avb_version_eq_dec : EqDecision avb_version.
Proof. solve_decision. Defined.

Class LoaderBuild := {
  VERIFIED_BOOT_VERSION : avb_version;
  VIRTUAL_AB_OTA : bool;
  PcdABLProduct : list Z
}.
(** The protocol of Qualcomm's verified boot driver: LocateProtocol and
    [VBDeviceResetState]. *)
Class VerifiedBootProtocol := {
  LocateVerifiedBoot : EFI_STATUS;
  VBDeviceResetState : EFI_STATUS
}.
Definition GetAVBVersion {LB : LoaderBuild} : avb_version := VERIFIED_BOOT_VERSION.
Definition VerifiedBootEnbled {LB : LoaderBuild} : bool := negb (bool_decide (GetAVBVersion = NO_AVB)).

(** ** State *)
Record DeviceInfo := mk_dev_info {
  dev_magic : list Z;
  is_unlocked : bool;
  is_unlock_critical : bool;
  is_charger_screen_enabled : bool;
  bootloader_version : list Z;
  radio_version : list Z;
  verity_mode : bool;
  user_public_key_length : Z;
  user_public_key : list Z;
  rollback_index : list Z;
  Display_Cmdline : list Z
}.
Definition DEVICE_MAGIC : list Z := bytes "ANDROID-BOOT!".
Definition DEVICE_MAGIC_SIZE : nat := 13.
Definition MAX_VERSION_LEN : nat := 64.
Definition MAX_VB_PARTITIONS : nat := 32.
Definition MAX_USER_KEY_SIZE : nat := 2048.
Definition MAX_DISPLAY_CMDLINE_LEN : nat := 128.

Definition zero_dev_info : DeviceInfo :=
  mk_dev_info (repeat 0 DEVICE_MAGIC_SIZE) false false false (repeat 0 MAX_VERSION_LEN)
    (repeat 0 MAX_VERSION_LEN) false 0 (repeat 0 MAX_USER_KEY_SIZE)
    (repeat 0 MAX_VB_PARTITIONS) (repeat 0 MAX_DISPLAY_CMDLINE_LEN).

(** [VirtualAbMsg] is the page read from the misc partition, once it was read. *)
Record loader := mk_loader {
  Boot : boot_state;
  DevInfo : DeviceInfo;
  FirstReadDevInfo : bool;
  VirtualAbMsg : option (list Z)
}.
Abbreviation LD := (M loader).

Definition set_dev_magic (x : list Z) (d : DeviceInfo) : DeviceInfo :=
  mk_dev_info x (is_unlocked d) (is_unlock_critical d) (is_charger_screen_enabled d)
    (bootloader_version d) (radio_version d) (verity_mode d) (user_public_key_length d)
    (user_public_key d) (rollback_index d) (Display_Cmdline d).
Definition set_is_unlocked (x : bool) (d : DeviceInfo) : DeviceInfo :=
  mk_dev_info (dev_magic d) x (is_unlock_critical d) (is_charger_screen_enabled d)
    (bootloader_version d) (radio_version d) (verity_mode d) (user_public_key_length d)
    (user_public_key d) (rollback_index d) (Display_Cmdline d).
Definition set_is_unlock_critical (x : bool) (d : DeviceInfo) : DeviceInfo :=
  mk_dev_info (dev_magic d) (is_unlocked d) x (is_charger_screen_enabled d)
    (bootloader_version d) (radio_version d) (verity_mode d) (user_public_key_length d)
    (user_public_key d) (rollback_index d) (Display_Cmdline d).
Definition set_is_charger_screen_enabled (x : bool) (d : DeviceInfo) : DeviceInfo :=
  mk_dev_info (dev_magic d) (is_unlocked d) (is_unlock_critical d) x (bootloader_version d)
    (radio_version d) (verity_mode d) (user_public_key_length d) (user_public_key d)
    (rollback_index d) (Display_Cmdline d).
Definition set_bootloader_version (x : list Z) (d : DeviceInfo) : DeviceInfo :=
  mk_dev_info (dev_magic d) (is_unlocked d) (is_unlock_critical d) (is_charger_screen_enabled d)
    x (radio_version d) (verity_mode d) (user_public_key_length d) (user_public_key d)
    (rollback_index d) (Display_Cmdline d).
Definition set_radio_version (x : list Z) (d : DeviceInfo) : DeviceInfo :=
  mk_dev_info (dev_magic d) (is_unlocked d) (is_unlock_critical d) (is_charger_screen_enabled d)
    (bootloader_version d) x (verity_mode d) (user_public_key_length d) (user_public_key d)
    (rollback_index d) (Display_Cmdline d).
Definition set_verity_mode (x : bool) (d : DeviceInfo) : DeviceInfo :=
  mk_dev_info (dev_magic d) (is_unlocked d) (is_unlock_critical d) (is_charger_screen_enabled d)
    (bootloader_version d) (radio_version d) x (user_public_key_length d) (user_public_key d)
    (rollback_index d) (Display_Cmdline d).
Definition set_user_public_key_length (x : Z) (d : DeviceInfo) : DeviceInfo :=
  mk_dev_info (dev_magic d) (is_unlocked d) (is_unlock_critical d) (is_charger_screen_enabled d)
    (bootloader_version d) (radio_version d) (verity_mode d) x (user_public_key d)
    (rollback_index d) (Display_Cmdline d).
Definition set_user_public_key (x : list Z) (d : DeviceInfo) : DeviceInfo :=
  mk_dev_info (dev_magic d) (is_unlocked d) (is_unlock_critical d) (is_charger_screen_enabled d)
    (bootloader_version d) (radio_version d) (verity_mode d) (user_public_key_length d) x
    (rollback_index d) (Display_Cmdline d).
Definition set_rollback_index (x : list Z) (d : DeviceInfo) : DeviceInfo :=
  mk_dev_info (dev_magic d) (is_unlocked d) (is_unlock_critical d) (is_charger_screen_enabled d)
    (bootloader_version d) (radio_version d) (verity_mode d) (user_public_key_length d)
    (user_public_key d) x (Display_Cmdline d).
Definition set_Display_Cmdline (x : list Z) (d : DeviceInfo) : DeviceInfo :=
  mk_dev_info (dev_magic d) (is_unlocked d) (is_unlock_critical d) (is_charger_screen_enabled d)
    (bootloader_version d) (radio_version d) (verity_mode d) (user_public_key_length d)
    (user_public_key d) (rollback_index d) x.

Definition set_Boot (x : boot_state) (s : loader) : loader :=
  mk_loader x (DevInfo s) (FirstReadDevInfo s) (VirtualAbMsg s).
Definition set_DevInfo (x : DeviceInfo) (s : loader) : loader :=
  mk_loader (Boot s) x (FirstReadDevInfo s) (VirtualAbMsg s).
Definition set_FirstReadDevInfo (x : bool) (s : loader) : loader :=
  mk_loader (Boot s) (DevInfo s) x (VirtualAbMsg s).
Definition set_VirtualAbMsg (x : option (list Z)) (s : loader) : loader :=
  mk_loader (Boot s) (DevInfo s) (FirstReadDevInfo s) x.

(** The operations of the storage files, and changes of the record. *)
Definition lift {A} (m : B A) : LD A := fun s =>
  match m (Boot s) with Some (a, b) => Some (a, set_Boot b s) | None => None end.
Definition dev {A} (f : DeviceInfo -> A) : LD A := gets (fun s => f (DevInfo s)).
Definition change_dev (f : DeviceInfo -> DeviceInfo) : LD unit :=
  modify (fun s => set_DevInfo (f (DevInfo s)) s).

(** A string stored in an array of characters: it, its terminator, the old rest. *)
Definition put_string (arr s : list Z) : list Z := s ++ 0 :: drop (S (length s)) arr.

Section device_info.
Context {FW : Firmware} {BL : BaseLib} {UL : UnicodeLib} {AL : AsciiLib} {BM : BootMode}.
Context {BC : BuildConfig} {LB : LoaderBuild} {VB : VerifiedBootProtocol}.

(** ** The lock state and the other fields *)
Definition IsUnlocked : LD bool := dev is_unlocked.
Definition IsUnlockCritical : LD bool := dev is_unlock_critical.
Definition IsEnforcing : LD bool := dev verity_mode.
Definition ChargingScreenEnabled : LD bool := dev is_charger_screen_enabled.

(** [AsciiSPrint] with ["%a"] into a buffer of [Len] bytes. *)
Definition GetBootloaderVersion (Len : nat) : LD (list Z) :=
  arr ← dev bootloader_version; s ← access (c_string arr 0); mret (take (Len - 1) s).
Definition GetRadioVersion (Len : nat) : LD (list Z) :=
  arr ← dev radio_version; s ← access (c_string arr 0); mret (take (Len - 1) s).

Definition EnableChargingScreen (IsEnabled : bool) : LD EFI_STATUS :=
  old ← ChargingScreenEnabled;
  _ ← (if negb (bool_decide (old = IsEnabled))
       then change_dev (set_is_charger_screen_enabled IsEnabled) else mret tt);
  mret EFI_SUCCESS.
Definition EnableEnforcingMode (IsEnabled : bool) : LD EFI_STATUS :=
  old ← IsEnforcing;
  _ ← (if negb (bool_decide (old = IsEnabled)) then change_dev (set_verity_mode IsEnabled)
       else mret tt);
  mret EFI_SUCCESS.

(** The command line is given by its bytes. *)
Definition StoreDisplayCmdLine (CmdLine : list Z) : LD EFI_STATUS :=
  if (MAX_DISPLAY_CMDLINE_LEN <? length CmdLine)%nat then mret EFI_OUT_OF_RESOURCES else
  _ ← change_dev (set_Display_Cmdline
        (CmdLine ++ repeat 0 (MAX_DISPLAY_CMDLINE_LEN - length CmdLine)));
  mret EFI_SUCCESS.
Definition ReadDisplayCmdLine : LD (list Z) := dev Display_Cmdline.

Definition SetUnlockValue (State : bool) : LD EFI_STATUS :=
  old ← IsUnlocked;
  _ ← (if negb (bool_decide (old = State)) then change_dev (set_is_unlocked State) else mret tt);
  mret EFI_SUCCESS.
Definition SetUnlockCriticalValue (State : bool) : LD EFI_STATUS :=
  old ← IsUnlockCritical;
  _ ← (if negb (bool_decide (old = State)) then change_dev (set_is_unlock_critical State)
       else mret tt);
  mret EFI_SUCCESS.

Definition ResetDeviceState : EFI_STATUS :=
  if negb VerifiedBootEnbled || bool_decide (GetAVBVersion = AVB_LE) then EFI_SUCCESS else
  if negb (is_success LocateVerifiedBoot) then LocateVerifiedBoot else VBDeviceResetState.

(** The message of the misc partition: [command], [status] and [recovery]. *)
Definition SIZEOF_command : nat := 32.
Definition OFFSET_recovery : nat := 64.
Definition SIZEOF_recovery : nat := 1024.
Definition SIZEOF_RecoveryMessage : nat := 1088.
Definition RECOVERY_WIPE_DATA : list Z :=
  bytes "recovery" ++ newline :: bytes "--wipe_data" ++ newline ::
  bytes "--reason=MasterClearConfirm" ++ newline :: bytes "--locale=en_US" ++ [newline].

(** The type GUID of the misc partition; an error on a NAND device without it. *)
Definition misc_guid : LD (EFI_STATUS * EFI_GUID * MemCardType) :=
  CardType ← lift CheckRootDeviceType;
  if bool_decide (CardType = NAND) then
    let (Status, Ptype) := GetNandMiscPartiGuid gEfiMiscPartitionGuid in
    mret (Status, Ptype, CardType)
  else mret (EFI_SUCCESS, gEfiMiscPartitionGuid, CardType).

Definition write_wipe_message : LD EFI_STATUS :=
  let Msg := repeat 0 SIZEOF_RecoveryMessage in
  let (Status, s) := AsciiStrnCpyS [] SIZEOF_recovery RECOVERY_WIPE_DATA (length RECOVERY_WIPE_DATA) in
  if negb (is_success Status) then mret Status else
  misc ← misc_guid;
  let '(Status, Ptype, CardType) := misc : EFI_STATUS * EFI_GUID * MemCardType in
  if negb (is_success Status) then mret Status else
  lift (WriteToPartition Ptype
          (Some (take OFFSET_recovery Msg ++ put_string (drop OFFSET_recovery Msg) s))
          (Z.of_nat SIZEOF_RecoveryMessage)).

Inductive unlock_type := UNLOCK | UNLOCK_CRITICAL | UNLOCK_OTHER.

Definition set_unlock (Type_ : unlock_type) (State : bool) : LD EFI_STATUS :=
  match Type_ with
  | UNLOCK => SetUnlockValue State
  | UNLOCK_CRITICAL => SetUnlockCriticalValue State
  | UNLOCK_OTHER => mret EFI_UNSUPPORTED
  end.

(** When the device cannot be reset the old value is put back. *)
Definition SetDeviceUnlockValue (Type_ : unlock_type) (State : bool) : LD EFI_STATUS :=
  Status ← set_unlock Type_ State;
  if negb (is_success Status) then mret Status else
  if negb (is_success ResetDeviceState) then
    _ ← set_unlock Type_ (negb State);
    mret ResetDeviceState
  else write_wipe_message.

(** The product name, a dash and the version of the image; [ImgVersion] are the
    characters of a field of the meta image.  A copy that does not fit is left out. *)
Definition version_string (arr ImgVersion : list Z) : list Z :=
  let v := snd (AsciiStrnCpyS (chars_of arr) MAX_VERSION_LEN PcdABLProduct (AsciiStrLen PcdABLProduct)) in
  let v := snd (AsciiStrnCatS v MAX_VERSION_LEN (bytes "-") (AsciiStrLen (bytes "-"))) in
  snd (AsciiStrnCatS v MAX_VERSION_LEN ImgVersion (AsciiStrLen ImgVersion)).
Definition UpdateDevInfo (Pname ImgVersion : list Z) : LD EFI_STATUS :=
  _ ← (if StrCmp Pname (bytes "bootloader") =? 0
       then change_dev (fun d => set_bootloader_version
              (put_string (bootloader_version d) (version_string (bootloader_version d) ImgVersion)) d)
       else change_dev (fun d => set_radio_version
              (put_string (radio_version d) (version_string (radio_version d) ImgVersion)) d));
  mret EFI_SUCCESS.

(** [IsSecureBootEnabled] is FALSE: its body is commented out. *)
Definition IsSecureBootEnabled : bool := false.

Definition first_dev_info (d : DeviceInfo) : DeviceInfo :=
  mk_dev_info DEVICE_MAGIC true true false
    (bytes "1.0.0.0" ++ drop 7 (bootloader_version d)) (bytes "1.0.0.0" ++ drop 7 (radio_version d))
    false 0 (user_public_key d) (rollback_index d) (Display_Cmdline d).
Definition repaired_dev_info : DeviceInfo :=
  set_verity_mode true (set_is_unlocked (negb IsSecureBootEnabled)
    (set_is_unlock_critical (negb IsSecureBootEnabled) (set_dev_magic DEVICE_MAGIC zero_dev_info))).
Definition DeviceInfoInit : LD EFI_STATUS :=
  first ← gets FirstReadDevInfo;
  _ ← (if first : bool then
         _ ← change_dev first_dev_info;
         modify (set_FirstReadDevInfo false)
       else mret tt);
  m ← dev dev_magic;
  _ ← (if negb (bool_decide (take DEVICE_MAGIC_SIZE m = DEVICE_MAGIC))
       then change_dev (fun _ => repaired_dev_info) else mret tt);
  mret EFI_SUCCESS.

Definition ReadRollbackIndex (Loc : nat) : LD (EFI_STATUS * option Z) :=
  first ← gets FirstReadDevInfo;
  if first : bool then mret (EFI_NOT_STARTED, None) else
  if (MAX_VB_PARTITIONS <=? Loc)%nat then mret (EFI_INVALID_PARAMETER, None) else
  arr ← dev rollback_index;
  x ← access (arr !! Loc);
  mret (EFI_SUCCESS, Some x).
Definition WriteRollbackIndex (Loc : nat) (RollbackIndex : Z) : LD EFI_STATUS :=
  first ← gets FirstReadDevInfo;
  if first : bool then mret EFI_NOT_STARTED else
  if (MAX_VB_PARTITIONS <=? Loc)%nat then mret EFI_INVALID_PARAMETER else
  _ ← change_dev (fun d => set_rollback_index (<[Loc := RollbackIndex]> (rollback_index d)) d);
  mret EFI_SUCCESS.

(** [UserKey] are the [UserKeySize] bytes at the pointer. *)
Definition StoreUserKey (UserKey : list Z) : LD EFI_STATUS :=
  first ← gets FirstReadDevInfo;
  if first : bool then mret EFI_NOT_STARTED else
  if (MAX_USER_KEY_SIZE <? length UserKey)%nat then mret EFI_OUT_OF_RESOURCES else
  _ ← change_dev (fun d => set_user_public_key_length (Z.of_nat (length UserKey))
        (set_user_public_key (UserKey ++ drop (length UserKey) (user_public_key d)) d));
  mret EFI_SUCCESS.
Definition EraseUserKey : LD EFI_STATUS :=
  first ← gets FirstReadDevInfo;
  if first : bool then mret EFI_NOT_STARTED else
  _ ← change_dev (fun d => set_user_public_key_length 0
        (set_user_public_key (repeat 0 MAX_USER_KEY_SIZE) d));
  mret EFI_SUCCESS.
Definition GetUserKey : LD (EFI_STATUS * option (list Z * Z)) :=
  first ← gets FirstReadDevInfo;
  if first : bool then mret (EFI_NOT_STARTED, None) else
  key ← dev user_public_key;
  n ← dev user_public_key_length;
  mret (EFI_SUCCESS, Some (key, n)).
End device_info.
