(* ===== verification/Recovery.v ===== *)
(** * Messages of the misc partition.

    [Platforms/QcomModulePkg/Library/BootLib/Recovery.c]: the recovery message and
    the virtual A/B message, over the state of DeviceInfo.v. *)
From stdpp Require Import base numbers list option strings.
From Stdlib Require Import ZArith Lia Ascii.
From S2P Require Import Prelude BaseLib Unicode Storage Bytes Partitions DeviceInfo.
Local Open Scope Z_scope.

Inductive VirtualAbMergeStatus :=
| NONE_MERGE_STATUS | UNKNOWN_MERGE_STATUS | SNAPSHOTTED | MERGING | CANCELLED
| OTHER_MERGE_STATUS (code : Z).
#[export] Instance VirtualAbMergeStatus_eq_dec : EqDecision VirtualAbMergeStatus.
Proof. solve_decision. Defined.

(** The enumeration and the byte of the message. *)
Definition merge_status_of (b : Z) : VirtualAbMergeStatus :=
  if b =? 0 then NONE_MERGE_STATUS else if b =? 1 then UNKNOWN_MERGE_STATUS else
  if b =? 2 then SNAPSHOTTED else if b =? 3 then MERGING else if b =? 4 then CANCELLED else
  OTHER_MERGE_STATUS b.
Definition merge_status_byte (m : VirtualAbMergeStatus) : Z :=
  match m with
  | NONE_MERGE_STATUS => 0 | UNKNOWN_MERGE_STATUS => 1 | SNAPSHOTTED => 2 | MERGING => 3
  | CANCELLED => 4 | OTHER_MERGE_STATUS code => u8 code
  end.

Definition MISC_VIRTUAL_AB_MESSAGE_VERSION : Z := 2.
Definition MISC_VIRTUAL_AB_MAGIC_HEADER : Z := 0x56740AB0.
Definition MISC_VIRTUALAB_OFFSET : Z := 32 * 1024.
(** The packed structure MiscVirtualABMessage. *)
Definition OFFSET_Version : Z := 0.
Definition OFFSET_Magic : Z := 1.
Definition OFFSET_MergeStatus : Z := 5.

Definition RECOVERY_BOOT_RECOVERY : list Z := bytes "boot-recovery".
Definition RECOVERY_BOOT_FASTBOOT : list Z := bytes "boot-fastboot".

Section recovery.
Context {FW : Firmware} {BL : BaseLib} {UL : UnicodeLib} {AL : AsciiLib} {BM : BootMode}.
Context {BC : BuildConfig} {LB : LoaderBuild} {VB : VerifiedBootProtocol}.

Definition IsDynamicPartitionSupport : bool := if DYNAMIC_PARTITION_SUPPORT then true else false.
Definition IsVirtualAbOtaSupported : bool := if VIRTUAL_AB_OTA then true else false.

(** ** The virtual A/B message *)
(** The parameter [MergeStatus] is not used: the message is in [VirtualAbMsg]. *)
Definition WriteVirtualABMessage : LD EFI_STATUS :=
  CardType ← lift CheckRootDeviceType;
  if bool_decide (CardType = NAND) then mret EFI_UNSUPPORTED else
  PageSize ← lift GetPageSize;
  match one_handle gEfiMiscPartitionGuid with
  | (EFI_SUCCESS, Some h) =>
    blk ← access (BlkIo h);
    if BlockSize blk =? 0 then crash else
    let Offset := u32 (MISC_VIRTUALAB_OFFSET / BlockSize blk) in
    msg ← gets VirtualAbMsg;
    lift (WriteBlockToPartition IsFlashSplitNeeded (BlkIo h) (Some (Handle h)) Offset PageSize msg)
  | (Status, _) => mret Status
  end.

Definition merge_status_in (msg : list Z) : LD VirtualAbMergeStatus :=
  b ← access (rd msg OFFSET_MergeStatus 1);
  mret (merge_status_of (le_value b)).
Definition store_merge_status (m : VirtualAbMergeStatus) : LD unit :=
  msg ← gets VirtualAbMsg;
  p ← access msg;
  p' ← access (wr p OFFSET_MergeStatus [merge_status_byte m]);
  modify (set_VirtualAbMsg (Some p')).

Definition SetSnapshotMergeStatus (MergeStatus : VirtualAbMergeStatus) : LD EFI_STATUS :=
  msg ← gets VirtualAbMsg;
  match msg : option (list Z) with
  | None => mret EFI_NOT_FOUND
  | Some p =>
    OldMergeStatus ← merge_status_in p;
    _ ← store_merge_status MergeStatus;
    Status ← WriteVirtualABMessage;
    _ ← (if negb (is_success Status) then store_merge_status OldMergeStatus else mret tt);
    mret Status
  end.

(** Reading the message the first time; [false] when the caller returns at once. *)
Definition read_virtual_ab : LD bool :=
  CardType ← lift CheckRootDeviceType;
  if bool_decide (CardType = NAND) then mret false else
  PageSize ← lift GetPageSize;
  r ← lift (ReadFromPartitionOffset gEfiMiscPartitionGuid PageSize MISC_VIRTUALAB_OFFSET);
  let (Status, Msg) := r : EFI_STATUS * option (list Z) in
  _ ← modify (set_VirtualAbMsg Msg);
  if negb (is_success Status) then mret false else
  p ← access Msg;
  m ← access (rd p OFFSET_Magic 4);
  v ← access (rd p OFFSET_Version 1);
  _ ← (if negb (le_value m =? MISC_VIRTUAL_AB_MAGIC_HEADER) ||
          negb (le_value v =? MISC_VIRTUAL_AB_MESSAGE_VERSION)
       then modify (set_VirtualAbMsg None) else mret tt);
  mret true.

Definition GetSnapshotMergeStatus : LD VirtualAbMergeStatus :=
  msg ← gets VirtualAbMsg;
  go_on ← (if bool_decide (msg = None) then read_virtual_ab else mret true);
  if negb go_on then mret NONE_MERGE_STATUS else
  msg ← gets VirtualAbMsg;
  match msg : option (list Z) with
  | Some p => merge_status_in p
  | None => mret NONE_MERGE_STATUS
  end.

(** ** The recovery message *)
(** The first two pages of the partition and the offset of the message in them. *)
Definition read_recovery : LD (EFI_STATUS * EFI_GUID * option (list Z) * Z) :=
  misc ← misc_guid;
  let '(Status, Ptype, CardType) := misc : EFI_STATUS * EFI_GUID * MemCardType in
  if negb (is_success Status) then mret (Status, Ptype, None, 0) else
  PageSize ← lift GetPageSize;
  r ← lift (ReadFromPartition Ptype (u32 (PageSize * 2)));
  let (Status, PartitionData) := r : EFI_STATUS * option (list Z) in
  let off := if bool_decide (CardType = NAND) then PageSize else 0 in
  if negb (is_success Status) then mret (Status, Ptype, None, off) else
  if bool_decide (PartitionData = None) then mret (EFI_INVALID_PARAMETER, Ptype, None, off) else
  mret (EFI_SUCCESS, Ptype, PartitionData, off).

Definition WriteRecoveryMessage (Command : list Z) : LD EFI_STATUS :=
  r ← read_recovery;
  let '(Status, Ptype, Data, off) := r : EFI_STATUS * EFI_GUID * option (list Z) * Z in
  match Data with
  | None => mret Status
  | Some buf =>
    command ← access (rd buf off SIZEOF_command);
    let (Status, s) :=
      AsciiStrnCpyS (chars_of command) SIZEOF_command Command (AsciiStrLen Command) in
    if negb (is_success Status) then mret Status else
    buf' ← access (wr buf off (put_string command s));
    lift (WriteToPartition Ptype (Some (drop (Z.to_nat off) buf')) (Z.of_nat SIZEOF_RecoveryMessage))
  end.

(** [BootIntoRecovery] of the caller is set or left alone. *)
Definition RecoveryInit (BootIntoRecovery : bool) : LD (EFI_STATUS * bool) :=
  r ← read_recovery;
  let '(Status, Ptype, Data, off) := r : EFI_STATUS * EFI_GUID * option (list Z) * Z in
  match Data with
  | None => mret (Status, BootIntoRecovery)
  | Some buf =>
    command ← access (rd buf off SIZEOF_command);
    let Command := chars_of (take (SIZEOF_command - 1) command ++ [0]) in
    let begins c := AsciiStrnCmp Command c (AsciiStrLen c) =? 0 in
    mret (EFI_SUCCESS, BootIntoRecovery || begins RECOVERY_BOOT_RECOVERY ||
      (IsDynamicPartitionSupport && begins RECOVERY_BOOT_FASTBOOT))
  end.

(** [FfbmString] of the caller, a buffer of [Sz] bytes given by its characters. *)
Definition GetFfbmCommand (FfbmString : list Z) (Sz : nat) : LD (EFI_STATUS * list Z) :=
  misc ← misc_guid;
  let '(Status, Ptype, CardType) := misc : EFI_STATUS * EFI_GUID * MemCardType in
  if negb (is_success Status) then mret (Status, FfbmString) else
  r ← lift (ReadFromPartition Ptype (Z.of_nat Sz));
  let (Status, Data) := r : EFI_STATUS * option (list Z) in
  if negb (is_success Status) then mret (Status, FfbmString) else
  if (Sz =? 0)%nat then crash else
  buf ← access Data;
  if (length buf <? Sz)%nat then crash else
  let FfbmData := chars_of (take (Sz - 1) buf ++ [0]) in
  let begins c := AsciiStrnCmp FfbmData c (AsciiStrLen c) =? 0 in
  if begins (bytes "qmmi") || begins (bytes "ffbm-02")
  then mret (EFI_SUCCESS, snd (AsciiStrnCpyS FfbmString Sz (bytes "qmmi") (AsciiStrLen (bytes "qmmi"))))
  else if begins (bytes "ffbm-")
  then mret (EFI_SUCCESS, snd (AsciiStrnCpyS FfbmString Sz FfbmData Sz))
  else mret (EFI_NOT_FOUND, FfbmString).
End recovery.
