(* ===== verification/Board.v ===== *)
(** * The board: memory banks, identification, battery and display services.

    The rest of [Platforms/QcomModulePkg/Library/BootLib/Board.c] and the battery of
    [UpdateCmdLine.c].  The protocols of Qualcomm's firmware that are only called here
    are the operations of [BoardProtocols]; an answer that can change with time is
    given the number of requests made so far.  [board_state] holds the static
    variables of Board.c. *)
From stdpp Require Import base numbers list option strings.
From Stdlib Require Import ZArith Lia Ascii.
From S2P Require Import Prelude BaseLib Unicode Storage Bytes.
Local Open Scope Z_scope.

(** ** Data *)
Record RamPartitionEntry := mk_ram { Base : Z; AvailableLength : Z }.

Definition DDR_SHIFT : Z := 8.
Definition MB : Z := 1024 * 1024.
Definition DDR_256MB : Z := 256 * MB.
Definition DDR_512MB : Z := 512 * MB.
Definition DDR_1024MB : Z := 1024 * MB.
Definition DDR_2048MB : Z := 2048 * MB.
Inductive DdrType := DDRTYPE_256MB | DDRTYPE_512MB | DDRTYPE_1024MB | DDRTYPE_2048MB.
Definition ddr_value (t : DdrType) : Z :=
  match t with
  | DDRTYPE_256MB => 1 | DDRTYPE_512MB => 2 | DDRTYPE_1024MB => 3 | DDRTYPE_2048MB => 4
  end.

Record PLATFORM_INFO := mk_platform { platform : Z; version : Z; subtype : Z; fusion : bool }.
Record BoardInfo := mk_board_info {
  PlatformInfo : PLATFORM_INFO;
  RawChipId : Z;
  ChipBaseBand : list Z;
  ChipVersion : Z;
  FoundryId : Z;
  HlosSubType : Z;
  SoftSkuId : Z
}.

Record PM_DEVICE_INFO := mk_pmic {
  PmicModel : Z; PmicAllLayerRevision : Z; PmicMetalRevision : Z; PmicVariantRevision : Z
}.
Record FLASH_INFO := mk_flash_info {
  bCanFlash : bool; BattCurrVoltage : Z; BattRequiredVoltage : Z
}.
Inductive SOFT_SKU_STATUS := SKU_UNINITIALIZED | SKU_SUCCESS | SKU_FAIL.

Definition EFI_PLATFORMINFO_NUM_TYPES : Z := 0x23.
Definition CHIP_BASE_BAND_LEN : nat := 4.
Definition EFICHIPINFO_MAX_ID_LENGTH : nat := 16.
Definition EFI_RAMPARTITION_PROTOCOL_REVISION : Z := 0x10001.
Definition PMIC_VERSION_REVISION : Z := 0x10003.
Definition CHARGER_EX_REVISION : Z := 0x10003.
Definition BATT_MIN_VOLT : Z := 3200.

(** Status and result of each call; [LocateProtocol] has the name Locate. *)
Class BoardProtocols := {
  PcdSystemMemoryBase : Z;
  PcdSystemMemorySize : Z;
  LocateRamPartition : EFI_STATUS;
  RamPartitionRevision : Z;
  (** The call without a buffer, and the call with one. *)
  RamPartitionCount : EFI_STATUS * Z;
  GetRamPartitionList : EFI_STATUS * list RamPartitionEntry;
  GetMinPasrSize : EFI_STATUS * Z;
  LocateChipInfo : EFI_STATUS;
  GetChipId : EFI_STATUS * Z;
  GetChipVersion : EFI_STATUS * Z;
  GetFoundryId : EFI_STATUS * Z;
  GetModemSupport : EFI_STATUS * Z;
  (** The characters written into the array of the given size. *)
  GetChipIdString : nat -> EFI_STATUS * list Z;
  LocatePlatformInfo : EFI_STATUS;
  ReadPlatformInfo : EFI_STATUS * PLATFORM_INFO;
  LocatePmicVersion : EFI_STATUS;
  PmicVersionRevision : Z;
  ReadPmicInfo : Z -> EFI_STATUS * PM_DEVICE_INFO;
  ReadPmicInfoExt : Z -> EFI_STATUS * PM_DEVICE_INFO;
  LocateSoftSku : EFI_STATUS;
  SoftSKUQueryStatus : EFI_STATUS * SOFT_SKU_STATUS;
  SoftSKUQuerySKUId : EFI_STATUS * Z;
  (** GetCardInfo of the card behind a handle: product_serial_num and
      serial_num_len. *)
  CardSerialNumber : Z -> EFI_STATUS * (list Z * nat);
  LocateCharger : EFI_STATUS;
  ChargerRevision : Z;
  IsPowerOk : nat -> EFI_STATUS * FLASH_INFO;
  GetBatteryPresence : nat -> EFI_STATUS * bool;
  GetBatteryVoltage : nat -> EFI_STATUS * Z;
  GetChargerPresence : nat -> EFI_STATUS * bool;
  LocateDisplayUtil : EFI_STATUS;
  DisplayUtilsGetProperty : EFI_STATUS;
  (** PrintLib's ["%x"]. *)
  print_hex : Z -> list Z
}.

(** ** State *)
Record board_state := mk_board {
  RamPartitionEntries : option (list RamPartitionEntry);
  NumPartitionEntries : nat;
  platform_board_info : BoardInfo
}.
Abbreviation BD := (M board_state).
Definition set_RamPartitionEntries (x : option (list RamPartitionEntry)) (n : nat)
    (s : board_state) : board_state :=
  mk_board x n (platform_board_info s).
Definition set_board_info (f : BoardInfo -> BoardInfo) (s : board_state) : board_state :=
  mk_board (RamPartitionEntries s) (NumPartitionEntries s) (f (platform_board_info s)).

Definition set_RawChipId (x : Z) (b : BoardInfo) : BoardInfo :=
  mk_board_info (PlatformInfo b) x (ChipBaseBand b) (ChipVersion b) (FoundryId b) (HlosSubType b)
    (SoftSkuId b).
Definition set_ChipVersion (x : Z) (b : BoardInfo) : BoardInfo :=
  mk_board_info (PlatformInfo b) (RawChipId b) (ChipBaseBand b) x (FoundryId b) (HlosSubType b)
    (SoftSkuId b).
Definition set_FoundryId (x : Z) (b : BoardInfo) : BoardInfo :=
  mk_board_info (PlatformInfo b) (RawChipId b) (ChipBaseBand b) (ChipVersion b) x (HlosSubType b)
    (SoftSkuId b).
Definition set_PlatformInfo (x : PLATFORM_INFO) (b : BoardInfo) : BoardInfo :=
  mk_board_info x (RawChipId b) (ChipBaseBand b) (ChipVersion b) (FoundryId b) (HlosSubType b)
    (SoftSkuId b).
Definition set_HlosSubType (x : Z) (b : BoardInfo) : BoardInfo :=
  mk_board_info (PlatformInfo b) (RawChipId b) (ChipBaseBand b) (ChipVersion b) (FoundryId b) x
    (SoftSkuId b).
Definition set_SoftSkuId (x : Z) (b : BoardInfo) : BoardInfo :=
  mk_board_info (PlatformInfo b) (RawChipId b) (ChipBaseBand b) (ChipVersion b) (FoundryId b)
    (HlosSubType b) x.
Definition set_ChipBaseBand (x : list Z) (b : BoardInfo) : BoardInfo :=
  mk_board_info (PlatformInfo b) (RawChipId b) x (ChipVersion b) (FoundryId b) (HlosSubType b)
    (SoftSkuId b).

Section board.
Context {FW : Firmware} {BL : BaseLib} {UL : UnicodeLib} {BP : BoardProtocols}.

Definition change_board (f : BoardInfo -> BoardInfo) : BD unit := modify (set_board_info f).

(** ** Memory banks *)
(** The array that is allocated has the number of elements of the first answer; the
    second one tells how many are valid. *)
Definition GetRamPartitions : EFI_STATUS * list RamPartitionEntry :=
  if EFI_ERROR LocateRamPartition then (EFI_NOT_FOUND, []) else
  let (Status, n) := RamPartitionCount in
  if negb (bool_decide (Status = EFI_BUFFER_TOO_SMALL)) then (EFI_PROTOCOL_ERROR, []) else
  if negb (PoolAvailable 0 (u64 (n * 16))) then (EFI_OUT_OF_RESOURCES, []) else
  let (Status, l) := GetRamPartitionList in
  if EFI_ERROR Status || (length l <? 1)%nat then (EFI_NOT_FOUND, []) else (Status, l).

(** Without the protocol the memory of the platform is one bank; its allocation is
    not checked before it is written. *)
Definition ReadRamPartitions : BD (EFI_STATUS * list RamPartitionEntry) :=
  known ← gets RamPartitionEntries;
  match known with
  | Some l => mret (EFI_SUCCESS, l)
  | None =>
    let (Status, l) := GetRamPartitions in
    if EFI_ERROR Status then
      if negb (PoolAvailable 1 16) then crash else
      let l := [mk_ram PcdSystemMemoryBase PcdSystemMemorySize] in
      _ ← modify (set_RamPartitionEntries (Some l) 1);
      mret (EFI_SUCCESS, l)
    else
      _ ← modify (set_RamPartitionEntries (Some l) (length l));
      mret (Status, l)
  end.

Definition GetGranuleSize : EFI_STATUS * option Z :=
  if EFI_ERROR LocateRamPartition then (LocateRamPartition, None) else
  if RamPartitionRevision <? EFI_RAMPARTITION_PROTOCOL_REVISION then (EFI_UNSUPPORTED, None) else
  let (Status, n) := GetMinPasrSize in
  (Status, if EFI_ERROR Status then None else Some n).

Fixpoint smallest_base (l : list RamPartitionEntry) (SmallestBase : Z) : Z :=
  match l with
  | [] => SmallestBase
  | e :: l' => smallest_base l' (if Base e <? SmallestBase then Base e else SmallestBase)
  end.
Definition BaseMem : BD (EFI_STATUS * option Z) :=
  r ← ReadRamPartitions;
  let (Status, RamPartitions) := r : EFI_STATUS * list RamPartitionEntry in
  if EFI_ERROR Status then mret (Status, None) else
  first ← access (RamPartitions !! 0%nat);
  mret (Status, Some (smallest_base RamPartitions (Base first))).

Definition ddr_size (l : list RamPartitionEntry) : Z :=
  fold_left (fun DdrSize e => u64 (DdrSize + AvailableLength e)) l 0.
Definition ddr_type (DdrSize : Z) : Z :=
  if DdrSize <=? DDR_256MB then ddr_value DDRTYPE_256MB
  else if DdrSize <=? DDR_512MB then ddr_value DDRTYPE_512MB
  else if DdrSize <=? DDR_1024MB then ddr_value DDRTYPE_1024MB
  else if DdrSize <=? DDR_2048MB then ddr_value DDRTYPE_2048MB
  else 0.
Definition BoardDdrType : BD (EFI_STATUS * option Z) :=
  r ← ReadRamPartitions;
  let (Status, RamPartitions) := r : EFI_STATUS * list RamPartitionEntry in
  if EFI_ERROR Status then mret (Status, None) else
  mret (Status, Some (ddr_type (ddr_size RamPartitions))).

(** ** Identification *)
(** A field is written when its call succeeds; [ModemType] is returned. *)
Definition GetChipInfo : BD (EFI_STATUS * option Z) :=
  if EFI_ERROR LocateChipInfo then mret (LocateChipInfo, None) else
  let (Status, x) := GetChipId in
  if EFI_ERROR Status then mret (Status, None) else
  _ ← change_board (set_RawChipId x);
  let (Status, x) := GetChipVersion in
  if EFI_ERROR Status then mret (Status, None) else
  _ ← change_board (set_ChipVersion x);
  let (Status, x) := GetFoundryId in
  if EFI_ERROR Status then mret (Status, None) else
  _ ← change_board (set_FoundryId x);
  let (Status, ModemType) := GetModemSupport in
  if EFI_ERROR Status then mret (Status, None) else mret (Status, Some ModemType).

Definition GetPlatformInfo : BD EFI_STATUS :=
  if negb (is_success LocatePlatformInfo) then mret LocatePlatformInfo else
  let (Status, info) := ReadPlatformInfo in
  if negb (is_success Status) then mret Status else
  _ ← change_board (set_PlatformInfo info);
  if EFI_PLATFORMINFO_NUM_TYPES <=? platform info then mret EFI_PROTOCOL_ERROR else mret Status.

Definition GetPmicInfo (PmicDeviceIndex : Z) : EFI_STATUS * (PM_DEVICE_INFO * Z) :=
  let (Status, info) := ReadPmicInfo PmicDeviceIndex in
  (if EFI_ERROR LocatePmicVersion then LocatePmicVersion else Status, (info, PmicVersionRevision)).
Definition GetPmicInfoExt (PmicDeviceIndex : Z) : EFI_STATUS * PM_DEVICE_INFO :=
  let (Status, info) := ReadPmicInfoExt PmicDeviceIndex in
  (if EFI_ERROR LocatePmicVersion then LocatePmicVersion else Status, info).

(** A failure is an ASSERT (0). *)
Definition BoardPmicModel (PmicDeviceIndex : Z) : option Z :=
  let (Status, r) := GetPmicInfo PmicDeviceIndex in
  if is_success Status then Some (PmicModel (fst r)) else fault.
Definition BoardPmicTarget (PmicDeviceIndex : Z) : option Z :=
  let (Status, r) := GetPmicInfo PmicDeviceIndex in
  let (info, Revision) := r : PM_DEVICE_INFO * Z in
  if negb (is_success Status) then fault else
  if Revision =? PMIC_VERSION_REVISION then
    let (Status, ext) := GetPmicInfoExt PmicDeviceIndex in
    if negb (is_success Status) then Some 0 else
    Some (Z.lor (Z.lor (Z.lor (u32 (Z.shiftl (PmicVariantRevision ext) 24))
            (u32 (Z.shiftl (PmicAllLayerRevision ext) 16)))
            (u32 (Z.shiftl (PmicMetalRevision ext) 8))) (PmicModel ext))
  else
    Some (Z.lor (Z.lor (u32 (Z.shiftl (PmicAllLayerRevision info) 16))
            (u32 (Z.shiftl (PmicMetalRevision info) 8))) (PmicModel info)).

Definition BoardSoftSku : Z :=
  if EFI_ERROR LocateSoftSku then 0 else
  let (Status, loaded) := SoftSKUQueryStatus in
  if EFI_ERROR Status then 1 else
  match loaded with
  | SKU_SUCCESS => let (Status, id) := SoftSKUQuerySKUId in if EFI_ERROR Status then 1 else id
  | _ => 0
  end.

Definition BoardPlatformFusion : BD bool := gets (fun s => fusion (PlatformInfo (platform_board_info s))).

Definition BoardInit : BD EFI_STATUS :=
  r ← GetChipInfo;
  let (Status, modem) := r : EFI_STATUS * option Z in
  if EFI_ERROR Status then mret Status else
  Status ← GetPlatformInfo;
  if EFI_ERROR Status then mret Status else
  r ← BoardDdrType;
  let (Status, DdrType_) := r : EFI_STATUS * option Z in
  if EFI_ERROR Status then mret Status else
  t ← access DdrType_;
  _ ← change_board (set_HlosSubType (u32 (Z.shiftl t DDR_SHIFT)));
  _ ← change_board (set_SoftSkuId BoardSoftSku);
  fused ← BoardPlatformFusion;
  ModemType ← access modem;
  _ ← change_board (set_ChipBaseBand (take (CHIP_BASE_BAND_LEN - 1)
        (if fused : bool then bytes "mdm" else if ModemType =? 0 then bytes "apq" else bytes "msm")));
  mret Status.

Definition BoardPlatformRawChipId : BD Z := gets (fun s => RawChipId (platform_board_info s)).
Definition BoardPlatformChipVersion : BD Z := gets (fun s => ChipVersion (platform_board_info s)).
Definition BoardPlatformFoundryId : BD Z := gets (fun s => FoundryId (platform_board_info s)).
Definition BoardPlatformChipBaseBand : BD (list Z) := gets (fun s => ChipBaseBand (platform_board_info s)).
Definition BoardPlatformType : BD Z := gets (fun s => platform (PlatformInfo (platform_board_info s))).
Definition BoardPlatformVersion : BD Z := gets (fun s => version (PlatformInfo (platform_board_info s))).
Definition BoardPlatformSubType : BD Z := gets (fun s => subtype (PlatformInfo (platform_board_info s))).
Definition BoardPlatformHlosSubType : BD Z := gets (fun s => HlosSubType (platform_board_info s)).
Definition BoardSoftSkuId : BD Z := gets (fun s => SoftSkuId (platform_board_info s)).

Definition target_id (p : PLATFORM_INFO) : Z :=
  Z.lor (Z.lor (Z.lor (u32 (Z.shiftl (Z.land (subtype p) 0xff) 24))
    (Z.shiftl (Z.land (Z.shiftr (version p) 16) 0xff) 16))
    (Z.shiftl (Z.land (version p) 0xff) 8)) (Z.land (platform p) 0xff).
Definition BoardTargetId : BD Z := gets (fun s => target_id (PlatformInfo (platform_board_info s))).

Definition to_lower (c : Z) : Z := if (65 <=? c) && (c <=? 90) then c + 32 else c.
Definition ToLower (Str : list Z) : list Z := to_lower <$> Str.

(** The serial number is unchanged when the card does not tell it. *)
Definition BoardSerialNum (StrSerialNum : list Z) (Len : nat) : B (EFI_STATUS * list Z) :=
  Type_ ← CheckRootDeviceType;
  if bool_decide (Type_ = UNKNOWN) then mret (EFI_NOT_FOUND, StrSerialNum) else
  let (Status, HandleInfoList) := GetDeviceHandleInfo HANDLE_MAX_INFO_LIST Type_ in
  if EFI_ERROR Status then mret (Status, StrSerialNum) else
  h ← access (HandleInfoList !! 0%nat);
  let (Status, _) := MemCardInfoOn (Handle h) in
  if negb (is_success Status) then mret (Status, StrSerialNum) else
  let (Got, card) := CardSerialNumber (Handle h) in
  let (product_serial_num, serial_num_len) := card : list Z * nat in
  if negb (is_success Got) then mret (Status, StrSerialNum) else
  if bool_decide (Type_ = UFS) then
    data ← access (rd product_serial_num 0 serial_num_len);
    let (Status, SerialNo) := CalculateCrc32 data in
    if negb (is_success Status) then mret (Status, StrSerialNum)
    else mret (Status, ToLower (take (Len - 1) (print_hex SerialNo)))
  else
    data ← access (rd product_serial_num 0 4);
    mret (Status, ToLower (take (Len - 1) (print_hex (le_value data)))).

(** The name is cut to three characters. *)
Definition BoardHwPlatformName (StrHwPlatform : list Z) (Len : nat) : list Z :=
  if EFI_ERROR LocateChipInfo then StrHwPlatform else
  let (Status, name) :=
    GetChipIdString (if (Len <? EFICHIPINFO_MAX_ID_LENGTH)%nat then Len else EFICHIPINFO_MAX_ID_LENGTH) in
  if EFI_ERROR Status then StrHwPlatform
  else take (if (Len <? 4)%nat then Len - 1 else 3) name.

(** ** Battery *)
(** Presence and voltage, which are FALSE and 0 unless the protocol sets them. *)
Definition TargetCheckBatteryStatus (t : nat) : EFI_STATUS * (bool * Z) :=
  if bool_decide (LocateCharger = EFI_NOT_FOUND) then (EFI_SUCCESS, (false, 0)) else
  if EFI_ERROR LocateCharger then (EFI_PROTOCOL_ERROR, (false, 0)) else
  let (Status, BatteryPresent) := GetBatteryPresence t in
  if EFI_ERROR Status then (Status, (false, 0)) else
  let (Status, Voltage) := GetBatteryVoltage t in
  if EFI_ERROR Status then (Status, (BatteryPresent, 0)) else
  let (Status, _) := GetChargerPresence t in
  (Status, (BatteryPresent, Voltage)).

(** May the device be flashed, and the voltage. *)
Definition TargetBatterySocOk (t : nat) : bool * Z :=
  if bool_decide (LocateCharger = EFI_NOT_FOUND) then (true, 0) else
  if EFI_ERROR LocateCharger then (false, 0) else
  if CHARGER_EX_REVISION <=? ChargerRevision then
    let (Status, FlashInfo) := IsPowerOk t in
    if EFI_ERROR Status then (bool_decide (Status = EFI_UNSUPPORTED), 0) else
    let v := BattCurrVoltage FlashInfo in
    (negb (negb (bCanFlash FlashInfo) || (v <? BattRequiredVoltage FlashInfo)), v)
  else
    let '(Status, (BatteryPresent, v)) := TargetCheckBatteryStatus t in
    ((is_success Status && (negb BatteryPresent || (BatteryPresent && (BATT_MIN_VOLT <? v)))) ||
     bool_decide (Status = EFI_UNSUPPORTED), v).

(** [is_display_supported] of FastbootCmds.c. *)
Definition is_display_supported : bool :=
  if is_success LocateDisplayUtil then negb (bool_decide (DisplayUtilsGetProperty = EFI_NOT_FOUND))
  else true.
End board.
