(* ===== verification/BoardDemo.v ===== *)
(** * A board to try things on. *)
From stdpp Require Import base numbers list option strings.
From Stdlib Require Import ZArith Lia Ascii.
From S2P Require Import Prelude BaseLib Unicode Storage Board.
Local Open Scope Z_scope.

Definition digit (d : Z) : Z := if d <? 10 then 48 + d else 87 + d.
Fixpoint print_digits (fuel : nat) (base n : Z) : list Z :=
  match fuel with
  | O => []
  | S fuel' => (if n <? base then [] else print_digits fuel' base (n / base)) ++ [digit (n mod base)]
  end.
Definition demo_print (base n : Z) : list Z :=
  if n <? 0 then ch "-" :: print_digits 64 base (- n) else print_digits 64 base n.

Definition demo_Board : BoardProtocols := {|
  PcdSystemMemoryBase := 0x80000000; PcdSystemMemorySize := 0x180000000;
  LocateRamPartition := EFI_SUCCESS; RamPartitionRevision := EFI_RAMPARTITION_PROTOCOL_REVISION;
  RamPartitionCount := (EFI_BUFFER_TOO_SMALL, 2);
  GetRamPartitionList := (EFI_SUCCESS, [mk_ram 0x100000000 0x80000000; mk_ram 0x80000000 0x80000000]);
  GetMinPasrSize := (EFI_SUCCESS, 0x20000000);
  LocateChipInfo := EFI_SUCCESS; GetChipId := (EFI_SUCCESS, 339); GetChipVersion := (EFI_SUCCESS, 0x20001);
  GetFoundryId := (EFI_SUCCESS, 3); GetModemSupport := (EFI_SUCCESS, 1);
  GetChipIdString n := (EFI_SUCCESS, take (n - 1) (bytes "SM8150"));
  LocatePlatformInfo := EFI_SUCCESS;
  ReadPlatformInfo := (EFI_SUCCESS, mk_platform 0x08 0x10002 0x3 false);
  LocatePmicVersion := EFI_SUCCESS; PmicVersionRevision := PMIC_VERSION_REVISION;
  ReadPmicInfo _ := (EFI_SUCCESS, mk_pmic 0x1e 2 0 0);
  ReadPmicInfoExt _ := (EFI_SUCCESS, mk_pmic 0x1e 2 0 0);
  LocateSoftSku := EFI_NOT_FOUND; SoftSKUQueryStatus := (EFI_NOT_FOUND, SKU_UNINITIALIZED);
  SoftSKUQuerySKUId := (EFI_NOT_FOUND, 0);
  CardSerialNumber _ := (EFI_SUCCESS, (bytes "SERIAL", 6%nat));
  LocateCharger := EFI_NOT_FOUND; ChargerRevision := 0;
  IsPowerOk _ := (EFI_NOT_FOUND, mk_flash_info false 0 0);
  GetBatteryPresence _ := (EFI_NOT_FOUND, false); GetBatteryVoltage _ := (EFI_NOT_FOUND, 0);
  GetChargerPresence _ := (EFI_NOT_FOUND, false);
  LocateDisplayUtil := EFI_NOT_FOUND; DisplayUtilsGetProperty := EFI_NOT_FOUND;
  print_hex := demo_print 16
|}.
