(* ===== verification/Fastboot.v ===== *)
(** * The Fastboot session: state, USB transport and download.

    [Platforms/QcomModulePkg/Library/FastbootLib]: the static variables of
    FastbootCmds.c, the answers to the host, the transfer of an image into the
    download buffer ([CmdDownload], [AcceptData], [GetXfrSize]) and the handling of
    USB events of FastbootMain.c.  The commands are in FastbootCmds.v.

    The modelled configuration has no EFI_KERNEL_PROTOCOL, so that
    [IsUseMThreadParallel] is FALSE and a flash runs on the timer or in place;
    USB events that the timer would handle inside of a write are handled after it.
    A request to the USB controller is an [output]; [pending] is the receive request
    it has not answered yet, an address and a size. *)
From stdpp Require Import base numbers list option strings.
From Stdlib Require Import ZArith Lia Ascii.
From S2P Require Import Prelude BaseLib Unicode Storage Bytes Gpt Partitions Slots Flash DeviceInfo Recovery Board.
Local Open Scope Z_scope.

Definition ENDPOINT_IN : Z := 0x01.
Definition ENDPOINT_OUT : Z := 0x81.
Definition MAX_RSP_SIZE : nat := 64.
Definition MAX_FASTBOOT_COMMAND_SIZE : Z := 64.
Definition USB_BUFFER_SIZE : Z := 1024 * 1024 * 16.
Definition MIN_BUFFER_SIZE : Z := 67108864.
Definition MAX_BUFFER_SIZE : Z := 1610612736.
Definition SLOT_SUFFIX_ARRAY_SIZE : nat := 10.
Definition ATTR_RESP_SIZE : nat := 4.
Definition SLOT_ATTR_SIZE : nat := 32.

(** ** The state *)
Inductive ANDROID_FASTBOOT_STATE := ExpectCmdState | ExpectDataState.
#[export] Instance ANDROID_FASTBOOT_STATE_eq_dec : EqDecision ANDROID_FASTBOOT_STATE.
Proof. solve_decision. Defined.

(** The handlers of the command table. *)
Inductive command :=
| CmdFlash | CmdErase | CmdSetActive
| CmdFlashingGetUnlockAbility | CmdFlashingUnlock | CmdFlashingLock
| CmdFlashingUnLockCritical | CmdFlashingLockCritical
| CmdBoot | CmdContinue | CmdGetVar
| CmdOemEnableChargerScreen | CmdOemDisableChargerScreen | CmdOemOffModeCharger
| CmdOemSelectDisplayPanel | CmdOemDisplayCommandLine | CmdOemDevinfo
| CmdReboot | CmdRebootRecovery | CmdRebootFastboot | CmdUpdateSnapshot | CmdRebootBootloader
| CmdDownload.
#[export] Instance command_eq_dec : EqDecision command.
Proof. solve_decision. Defined.

Inductive reboot_mode := NORMAL_MODE | RECOVERY_MODE | FASTBOOT_MODE.

(** A request to the controller, a restart of the system, the unlock menu, and a
    write by the driver of UBI volumes, and storing the variable of the display
    panel. *)
Inductive output :=
| Receive (addr size : Z)
| Transmit (data : list Z)
| RebootDevice (mode : reboot_mode)
| UnlockMenu (type : unlock_type) (state : bool)
| UbiWrite (volume data : list Z)
| SetDisplayPanel (value : list Z) (size : nat).

(** Timer events: a delayed OKAY, and a command that waits for the flash. *)
Inductive timer_event := FlashCompleteTimer | AcceptCmdTimer (Size : Z).

(** Variables of getvar point to text, to a field of [BootSlotInfo], to a static
    string or to a version in the device information. *)
Inductive var_value :=
| V_text (s : list Z)
| V_battery_voltage | V_battery_soc_ok | V_charger_screen | V_merge_state
| V_bootloader_version | V_radio_version
| V_successful (j : nat) | V_unbootable (j : nat) | V_retry (j : nat)
| V_current_slot.

(** The values are strings, given by their characters. *)
Record GetVarSlotInfo := mk_slot_info {
  SlotSuffix : list Z;
  SlotSuccessfulVal : list Z;
  SlotUnbootableVal : list Z;
  SlotRetryCountVal : list Z
}.
Definition zero_slot_info : GetVarSlotInfo := mk_slot_info [] [] [] [].

(** Static strings that a getvar brings up to date. *)
Record getvar_strings := mk_strings {
  StrBatteryVoltage : list Z;
  StrBatterySocOk : list Z;
  ChargeScreenEnable : list Z;
  OffModeCharge : list Z
}.

Record transfer := mk_transfer {
  mState : ANDROID_FASTBOOT_STATE;
  mNumDataBytes : Z;
  mFlashNumDataBytes : Z;
  mBytesReceivedSoFar : Z;
  mUsbDataBuffer : Z;
  mFlashDataBuffer : Z
}.

(** [DlMem] is the memory at [FastBootBuffer], [RxMem] the buffer gRxBuffer, whose
    address is [RX_BUFFER]. *)
Record fastboot := mk_fastboot {
  Ld : loader;
  Xfer : transfer;
  FastBootBuffer : Z;
  DlMem : list Z;
  RxMem : list Z;
  MaxDownLoadSize : Z;
  FlashResult : EFI_STATUS;
  IsFlashComplete : bool;
  UsbTimerStarted : bool;
  UsbTimerEvent : bool;
  LunInfo : lun_choice;
  IsAllowUnlock : bool;
  IsFirstEraseFlash : bool;
  BootSlotInfo : option (list GetVarSlotInfo);
  SlotCount : nat;
  SlotSuffixArray : list Z;
  CurrentSlotFB : list Z;
  SnapshotMergeState : list Z;
  InitialPopulate : bool;
  GetVarStrings : getvar_strings;
  Varlist : list (list Z * var_value);
  cmdlist : list (list Z * command);
  timers : list timer_event;
  timer_calls : nat;
  outputs : list output;
  pending : option (Z * Z)
}.
Abbreviation F := (M fastboot).

Definition set_mState (x : ANDROID_FASTBOOT_STATE) (t : transfer) : transfer :=
  mk_transfer x (mNumDataBytes t) (mFlashNumDataBytes t) (mBytesReceivedSoFar t)
    (mUsbDataBuffer t) (mFlashDataBuffer t).
Definition set_mNumDataBytes (x : Z) (t : transfer) : transfer :=
  mk_transfer (mState t) x (mFlashNumDataBytes t) (mBytesReceivedSoFar t) (mUsbDataBuffer t)
    (mFlashDataBuffer t).
Definition set_mFlashNumDataBytes (x : Z) (t : transfer) : transfer :=
  mk_transfer (mState t) (mNumDataBytes t) x (mBytesReceivedSoFar t) (mUsbDataBuffer t)
    (mFlashDataBuffer t).
Definition set_mBytesReceivedSoFar (x : Z) (t : transfer) : transfer :=
  mk_transfer (mState t) (mNumDataBytes t) (mFlashNumDataBytes t) x (mUsbDataBuffer t)
    (mFlashDataBuffer t).
Definition set_mUsbDataBuffer (x : Z) (t : transfer) : transfer :=
  mk_transfer (mState t) (mNumDataBytes t) (mFlashNumDataBytes t) (mBytesReceivedSoFar t) x
    (mFlashDataBuffer t).
Definition set_mFlashDataBuffer (x : Z) (t : transfer) : transfer :=
  mk_transfer (mState t) (mNumDataBytes t) (mFlashNumDataBytes t) (mBytesReceivedSoFar t)
    (mUsbDataBuffer t) x.

Definition set_Ld (x : loader) (s : fastboot) : fastboot :=
  mk_fastboot x (Xfer s) (FastBootBuffer s) (DlMem s) (RxMem s) (MaxDownLoadSize s)
    (FlashResult s) (IsFlashComplete s) (UsbTimerStarted s) (UsbTimerEvent s) (LunInfo s)
    (IsAllowUnlock s) (IsFirstEraseFlash s) (BootSlotInfo s) (SlotCount s) (SlotSuffixArray s)
    (CurrentSlotFB s) (SnapshotMergeState s) (InitialPopulate s) (GetVarStrings s) (Varlist s)
    (cmdlist s) (timers s) (timer_calls s) (outputs s) (pending s).
Definition set_Xfer (x : transfer) (s : fastboot) : fastboot :=
  mk_fastboot (Ld s) x (FastBootBuffer s) (DlMem s) (RxMem s) (MaxDownLoadSize s)
    (FlashResult s) (IsFlashComplete s) (UsbTimerStarted s) (UsbTimerEvent s) (LunInfo s)
    (IsAllowUnlock s) (IsFirstEraseFlash s) (BootSlotInfo s) (SlotCount s) (SlotSuffixArray s)
    (CurrentSlotFB s) (SnapshotMergeState s) (InitialPopulate s) (GetVarStrings s) (Varlist s)
    (cmdlist s) (timers s) (timer_calls s) (outputs s) (pending s).
Definition set_FastBootBuffer (x : Z) (s : fastboot) : fastboot :=
  mk_fastboot (Ld s) (Xfer s) x (DlMem s) (RxMem s) (MaxDownLoadSize s) (FlashResult s)
    (IsFlashComplete s) (UsbTimerStarted s) (UsbTimerEvent s) (LunInfo s) (IsAllowUnlock s)
    (IsFirstEraseFlash s) (BootSlotInfo s) (SlotCount s) (SlotSuffixArray s) (CurrentSlotFB s)
    (SnapshotMergeState s) (InitialPopulate s) (GetVarStrings s) (Varlist s) (cmdlist s)
    (timers s) (timer_calls s) (outputs s) (pending s).
Definition set_DlMem (x : list Z) (s : fastboot) : fastboot :=
  mk_fastboot (Ld s) (Xfer s) (FastBootBuffer s) x (RxMem s) (MaxDownLoadSize s) (FlashResult s)
    (IsFlashComplete s) (UsbTimerStarted s) (UsbTimerEvent s) (LunInfo s) (IsAllowUnlock s)
    (IsFirstEraseFlash s) (BootSlotInfo s) (SlotCount s) (SlotSuffixArray s) (CurrentSlotFB s)
    (SnapshotMergeState s) (InitialPopulate s) (GetVarStrings s) (Varlist s) (cmdlist s)
    (timers s) (timer_calls s) (outputs s) (pending s).
Definition set_RxMem (x : list Z) (s : fastboot) : fastboot :=
  mk_fastboot (Ld s) (Xfer s) (FastBootBuffer s) (DlMem s) x (MaxDownLoadSize s) (FlashResult s)
    (IsFlashComplete s) (UsbTimerStarted s) (UsbTimerEvent s) (LunInfo s) (IsAllowUnlock s)
    (IsFirstEraseFlash s) (BootSlotInfo s) (SlotCount s) (SlotSuffixArray s) (CurrentSlotFB s)
    (SnapshotMergeState s) (InitialPopulate s) (GetVarStrings s) (Varlist s) (cmdlist s)
    (timers s) (timer_calls s) (outputs s) (pending s).
Definition set_MaxDownLoadSize (x : Z) (s : fastboot) : fastboot :=
  mk_fastboot (Ld s) (Xfer s) (FastBootBuffer s) (DlMem s) (RxMem s) x (FlashResult s)
    (IsFlashComplete s) (UsbTimerStarted s) (UsbTimerEvent s) (LunInfo s) (IsAllowUnlock s)
    (IsFirstEraseFlash s) (BootSlotInfo s) (SlotCount s) (SlotSuffixArray s) (CurrentSlotFB s)
    (SnapshotMergeState s) (InitialPopulate s) (GetVarStrings s) (Varlist s) (cmdlist s)
    (timers s) (timer_calls s) (outputs s) (pending s).
Definition set_FlashResult (x : EFI_STATUS) (s : fastboot) : fastboot :=
  mk_fastboot (Ld s) (Xfer s) (FastBootBuffer s) (DlMem s) (RxMem s) (MaxDownLoadSize s) x
    (IsFlashComplete s) (UsbTimerStarted s) (UsbTimerEvent s) (LunInfo s) (IsAllowUnlock s)
    (IsFirstEraseFlash s) (BootSlotInfo s) (SlotCount s) (SlotSuffixArray s) (CurrentSlotFB s)
    (SnapshotMergeState s) (InitialPopulate s) (GetVarStrings s) (Varlist s) (cmdlist s)
    (timers s) (timer_calls s) (outputs s) (pending s).
Definition set_IsFlashComplete (x : bool) (s : fastboot) : fastboot :=
  mk_fastboot (Ld s) (Xfer s) (FastBootBuffer s) (DlMem s) (RxMem s) (MaxDownLoadSize s)
    (FlashResult s) x (UsbTimerStarted s) (UsbTimerEvent s) (LunInfo s) (IsAllowUnlock s)
    (IsFirstEraseFlash s) (BootSlotInfo s) (SlotCount s) (SlotSuffixArray s) (CurrentSlotFB s)
    (SnapshotMergeState s) (InitialPopulate s) (GetVarStrings s) (Varlist s) (cmdlist s)
    (timers s) (timer_calls s) (outputs s) (pending s).
Definition set_UsbTimerStarted (x : bool) (s : fastboot) : fastboot :=
  mk_fastboot (Ld s) (Xfer s) (FastBootBuffer s) (DlMem s) (RxMem s) (MaxDownLoadSize s)
    (FlashResult s) (IsFlashComplete s) x (UsbTimerEvent s) (LunInfo s) (IsAllowUnlock s)
    (IsFirstEraseFlash s) (BootSlotInfo s) (SlotCount s) (SlotSuffixArray s) (CurrentSlotFB s)
    (SnapshotMergeState s) (InitialPopulate s) (GetVarStrings s) (Varlist s) (cmdlist s)
    (timers s) (timer_calls s) (outputs s) (pending s).
Definition set_UsbTimerEvent (x : bool) (s : fastboot) : fastboot :=
  mk_fastboot (Ld s) (Xfer s) (FastBootBuffer s) (DlMem s) (RxMem s) (MaxDownLoadSize s)
    (FlashResult s) (IsFlashComplete s) (UsbTimerStarted s) x (LunInfo s) (IsAllowUnlock s)
    (IsFirstEraseFlash s) (BootSlotInfo s) (SlotCount s) (SlotSuffixArray s) (CurrentSlotFB s)
    (SnapshotMergeState s) (InitialPopulate s) (GetVarStrings s) (Varlist s) (cmdlist s)
    (timers s) (timer_calls s) (outputs s) (pending s).
Definition set_LunInfo (x : lun_choice) (s : fastboot) : fastboot :=
  mk_fastboot (Ld s) (Xfer s) (FastBootBuffer s) (DlMem s) (RxMem s) (MaxDownLoadSize s)
    (FlashResult s) (IsFlashComplete s) (UsbTimerStarted s) (UsbTimerEvent s) x
    (IsAllowUnlock s) (IsFirstEraseFlash s) (BootSlotInfo s) (SlotCount s) (SlotSuffixArray s)
    (CurrentSlotFB s) (SnapshotMergeState s) (InitialPopulate s) (GetVarStrings s) (Varlist s)
    (cmdlist s) (timers s) (timer_calls s) (outputs s) (pending s).
Definition set_IsAllowUnlock (x : bool) (s : fastboot) : fastboot :=
  mk_fastboot (Ld s) (Xfer s) (FastBootBuffer s) (DlMem s) (RxMem s) (MaxDownLoadSize s)
    (FlashResult s) (IsFlashComplete s) (UsbTimerStarted s) (UsbTimerEvent s) (LunInfo s) x
    (IsFirstEraseFlash s) (BootSlotInfo s) (SlotCount s) (SlotSuffixArray s) (CurrentSlotFB s)
    (SnapshotMergeState s) (InitialPopulate s) (GetVarStrings s) (Varlist s) (cmdlist s)
    (timers s) (timer_calls s) (outputs s) (pending s).
Definition set_IsFirstEraseFlash (x : bool) (s : fastboot) : fastboot :=
  mk_fastboot (Ld s) (Xfer s) (FastBootBuffer s) (DlMem s) (RxMem s) (MaxDownLoadSize s)
    (FlashResult s) (IsFlashComplete s) (UsbTimerStarted s) (UsbTimerEvent s) (LunInfo s)
    (IsAllowUnlock s) x (BootSlotInfo s) (SlotCount s) (SlotSuffixArray s) (CurrentSlotFB s)
    (SnapshotMergeState s) (InitialPopulate s) (GetVarStrings s) (Varlist s) (cmdlist s)
    (timers s) (timer_calls s) (outputs s) (pending s).
Definition set_BootSlotInfo (x : option (list GetVarSlotInfo)) (s : fastboot) : fastboot :=
  mk_fastboot (Ld s) (Xfer s) (FastBootBuffer s) (DlMem s) (RxMem s) (MaxDownLoadSize s)
    (FlashResult s) (IsFlashComplete s) (UsbTimerStarted s) (UsbTimerEvent s) (LunInfo s)
    (IsAllowUnlock s) (IsFirstEraseFlash s) x (SlotCount s) (SlotSuffixArray s)
    (CurrentSlotFB s) (SnapshotMergeState s) (InitialPopulate s) (GetVarStrings s) (Varlist s)
    (cmdlist s) (timers s) (timer_calls s) (outputs s) (pending s).
Definition set_SlotCount (x : nat) (s : fastboot) : fastboot :=
  mk_fastboot (Ld s) (Xfer s) (FastBootBuffer s) (DlMem s) (RxMem s) (MaxDownLoadSize s)
    (FlashResult s) (IsFlashComplete s) (UsbTimerStarted s) (UsbTimerEvent s) (LunInfo s)
    (IsAllowUnlock s) (IsFirstEraseFlash s) (BootSlotInfo s) x (SlotSuffixArray s)
    (CurrentSlotFB s) (SnapshotMergeState s) (InitialPopulate s) (GetVarStrings s) (Varlist s)
    (cmdlist s) (timers s) (timer_calls s) (outputs s) (pending s).
Definition set_SlotSuffixArray (x : list Z) (s : fastboot) : fastboot :=
  mk_fastboot (Ld s) (Xfer s) (FastBootBuffer s) (DlMem s) (RxMem s) (MaxDownLoadSize s)
    (FlashResult s) (IsFlashComplete s) (UsbTimerStarted s) (UsbTimerEvent s) (LunInfo s)
    (IsAllowUnlock s) (IsFirstEraseFlash s) (BootSlotInfo s) (SlotCount s) x (CurrentSlotFB s)
    (SnapshotMergeState s) (InitialPopulate s) (GetVarStrings s) (Varlist s) (cmdlist s)
    (timers s) (timer_calls s) (outputs s) (pending s).
Definition set_CurrentSlotFB (x : list Z) (s : fastboot) : fastboot :=
  mk_fastboot (Ld s) (Xfer s) (FastBootBuffer s) (DlMem s) (RxMem s) (MaxDownLoadSize s)
    (FlashResult s) (IsFlashComplete s) (UsbTimerStarted s) (UsbTimerEvent s) (LunInfo s)
    (IsAllowUnlock s) (IsFirstEraseFlash s) (BootSlotInfo s) (SlotCount s) (SlotSuffixArray s) x
    (SnapshotMergeState s) (InitialPopulate s) (GetVarStrings s) (Varlist s) (cmdlist s)
    (timers s) (timer_calls s) (outputs s) (pending s).
Definition set_SnapshotMergeState (x : list Z) (s : fastboot) : fastboot :=
  mk_fastboot (Ld s) (Xfer s) (FastBootBuffer s) (DlMem s) (RxMem s) (MaxDownLoadSize s)
    (FlashResult s) (IsFlashComplete s) (UsbTimerStarted s) (UsbTimerEvent s) (LunInfo s)
    (IsAllowUnlock s) (IsFirstEraseFlash s) (BootSlotInfo s) (SlotCount s) (SlotSuffixArray s)
    (CurrentSlotFB s) x (InitialPopulate s) (GetVarStrings s) (Varlist s) (cmdlist s) (timers s)
    (timer_calls s) (outputs s) (pending s).
Definition set_InitialPopulate (x : bool) (s : fastboot) : fastboot :=
  mk_fastboot (Ld s) (Xfer s) (FastBootBuffer s) (DlMem s) (RxMem s) (MaxDownLoadSize s)
    (FlashResult s) (IsFlashComplete s) (UsbTimerStarted s) (UsbTimerEvent s) (LunInfo s)
    (IsAllowUnlock s) (IsFirstEraseFlash s) (BootSlotInfo s) (SlotCount s) (SlotSuffixArray s)
    (CurrentSlotFB s) (SnapshotMergeState s) x (GetVarStrings s) (Varlist s) (cmdlist s)
    (timers s) (timer_calls s) (outputs s) (pending s).
Definition set_GetVarStrings (x : getvar_strings) (s : fastboot) : fastboot :=
  mk_fastboot (Ld s) (Xfer s) (FastBootBuffer s) (DlMem s) (RxMem s) (MaxDownLoadSize s)
    (FlashResult s) (IsFlashComplete s) (UsbTimerStarted s) (UsbTimerEvent s) (LunInfo s)
    (IsAllowUnlock s) (IsFirstEraseFlash s) (BootSlotInfo s) (SlotCount s) (SlotSuffixArray s)
    (CurrentSlotFB s) (SnapshotMergeState s) (InitialPopulate s) x (Varlist s) (cmdlist s)
    (timers s) (timer_calls s) (outputs s) (pending s).
Definition set_Varlist (x : list (list Z * var_value)) (s : fastboot) : fastboot :=
  mk_fastboot (Ld s) (Xfer s) (FastBootBuffer s) (DlMem s) (RxMem s) (MaxDownLoadSize s)
    (FlashResult s) (IsFlashComplete s) (UsbTimerStarted s) (UsbTimerEvent s) (LunInfo s)
    (IsAllowUnlock s) (IsFirstEraseFlash s) (BootSlotInfo s) (SlotCount s) (SlotSuffixArray s)
    (CurrentSlotFB s) (SnapshotMergeState s) (InitialPopulate s) (GetVarStrings s) x (cmdlist s)
    (timers s) (timer_calls s) (outputs s) (pending s).
Definition set_cmdlist (x : list (list Z * command)) (s : fastboot) : fastboot :=
  mk_fastboot (Ld s) (Xfer s) (FastBootBuffer s) (DlMem s) (RxMem s) (MaxDownLoadSize s)
    (FlashResult s) (IsFlashComplete s) (UsbTimerStarted s) (UsbTimerEvent s) (LunInfo s)
    (IsAllowUnlock s) (IsFirstEraseFlash s) (BootSlotInfo s) (SlotCount s) (SlotSuffixArray s)
    (CurrentSlotFB s) (SnapshotMergeState s) (InitialPopulate s) (GetVarStrings s) (Varlist s) x
    (timers s) (timer_calls s) (outputs s) (pending s).
Definition set_timers (x : list timer_event) (s : fastboot) : fastboot :=
  mk_fastboot (Ld s) (Xfer s) (FastBootBuffer s) (DlMem s) (RxMem s) (MaxDownLoadSize s)
    (FlashResult s) (IsFlashComplete s) (UsbTimerStarted s) (UsbTimerEvent s) (LunInfo s)
    (IsAllowUnlock s) (IsFirstEraseFlash s) (BootSlotInfo s) (SlotCount s) (SlotSuffixArray s)
    (CurrentSlotFB s) (SnapshotMergeState s) (InitialPopulate s) (GetVarStrings s) (Varlist s)
    (cmdlist s) x (timer_calls s) (outputs s) (pending s).
Definition set_timer_calls (x : nat) (s : fastboot) : fastboot :=
  mk_fastboot (Ld s) (Xfer s) (FastBootBuffer s) (DlMem s) (RxMem s) (MaxDownLoadSize s)
    (FlashResult s) (IsFlashComplete s) (UsbTimerStarted s) (UsbTimerEvent s) (LunInfo s)
    (IsAllowUnlock s) (IsFirstEraseFlash s) (BootSlotInfo s) (SlotCount s) (SlotSuffixArray s)
    (CurrentSlotFB s) (SnapshotMergeState s) (InitialPopulate s) (GetVarStrings s) (Varlist s)
    (cmdlist s) (timers s) x (outputs s) (pending s).
Definition set_outputs (x : list output) (s : fastboot) : fastboot :=
  mk_fastboot (Ld s) (Xfer s) (FastBootBuffer s) (DlMem s) (RxMem s) (MaxDownLoadSize s)
    (FlashResult s) (IsFlashComplete s) (UsbTimerStarted s) (UsbTimerEvent s) (LunInfo s)
    (IsAllowUnlock s) (IsFirstEraseFlash s) (BootSlotInfo s) (SlotCount s) (SlotSuffixArray s)
    (CurrentSlotFB s) (SnapshotMergeState s) (InitialPopulate s) (GetVarStrings s) (Varlist s)
    (cmdlist s) (timers s) (timer_calls s) x (pending s).
Definition set_pending (x : option (Z * Z)) (s : fastboot) : fastboot :=
  mk_fastboot (Ld s) (Xfer s) (FastBootBuffer s) (DlMem s) (RxMem s) (MaxDownLoadSize s)
    (FlashResult s) (IsFlashComplete s) (UsbTimerStarted s) (UsbTimerEvent s) (LunInfo s)
    (IsAllowUnlock s) (IsFirstEraseFlash s) (BootSlotInfo s) (SlotCount s) (SlotSuffixArray s)
    (CurrentSlotFB s) (SnapshotMergeState s) (InitialPopulate s) (GetVarStrings s) (Varlist s)
    (cmdlist s) (timers s) (timer_calls s) (outputs s) x.

(** ** The environment *)

(** UsbDeviceProtocol->Send answers a request; CreateEvent and SetTimer of the n-th
    timer; the display; PrintLib's ["%r"] and ["%d"]. *)
Class FastbootEnv := {
  Send : list output -> output -> EFI_STATUS;
  CreateTimer : nat -> EFI_STATUS * EFI_STATUS;
  IsEnableDisplayMenuFlagSupported : bool;
  DisplayUnlockMenu : unlock_type -> bool -> EFI_STATUS;
  print_status : EFI_STATUS -> list Z;
  print_dec : Z -> list Z;
  (** LocateProtocol (gEfiUbiFlasherProtocolGuid) and the calls of the protocol. *)
  LocateUbiFlasher : EFI_STATUS;
  UbiFlasherOpen : list Z -> EFI_STATUS;
  UbiFlasherWrite : list Z -> list Z -> EFI_STATUS;
  UbiFlasherClose : list Z -> EFI_STATUS;
  (** The variable DisplayPanelOverride: the status of storing it, and status,
      characters and size of reading it, by DisplayUtils or the runtime services. *)
  SetPanelVariable : list output -> EFI_STATUS;
  GetPanelVariable : list output -> EFI_STATUS * (list Z * nat);
  (** The characters an array on the stack has before it is written. *)
  StackName : list Z;
  (** The event that makes the block devices appear again. *)
  BlockIoRefresh : EFI_STATUS;
  RX_BUFFER : Z;
  DISABLE_PARALLEL_DOWNLOAD_FLASH : bool;
  EnableBatteryVoltageCheck : bool
}.

Section transport.
Context {FW : Firmware} {BL : BaseLib} {UL : UnicodeLib} {AL : AsciiLib} {BM : BootMode}.
Context {BC : BuildConfig} {LB : LoaderBuild} {VB : VerifiedBootProtocol} {BP : BoardProtocols}
  {FE : FastbootEnv}.

Definition IsDisableParallelDownloadFlash : bool :=
  if DISABLE_PARALLEL_DOWNLOAD_FLASH then true else false.
(** No kernel protocol: [IsMultiThreadSupported] stays FALSE. *)
Definition IsUseMThreadParallel : bool := false.

(** The operations of the lower layers: a write is split while the timer runs. *)
Definition liftL {A} (m : LD A) : F A := fun s =>
  match m (Ld s) with Some (a, l) => Some (a, set_Ld l s) | None => None end.
Definition split_mode (split : bool) : BootMode := {|
  IsFlashSplitNeeded := split; BootDevImage := @BootDevImage BM; BatteryStatus := @BatteryStatus BM;
  IsChargingScreenEnable := @IsChargingScreenEnable BM;
  BootIntoFastboot := @BootIntoFastboot BM; BootIntoRecovery := @BootIntoRecovery BM |}.
Definition storage {A} (m : BootMode -> B A) : F A :=
  split ← gets UsbTimerStarted; liftL (lift (m (split_mode split))).
Definition loading {A} (m : BootMode -> LD A) : F A :=
  split ← gets UsbTimerStarted; liftL (m (split_mode split)).

Definition xfer {A} (f : transfer -> A) : F A := gets (fun s => f (Xfer s)).
Definition change_xfer (f : transfer -> transfer) : F unit :=
  modify (fun s => set_Xfer (f (Xfer s)) s).

(** ** Memory *)
(** Storing at an address: in the download buffer or in the receive buffer. *)
Definition store_at (addr : Z) (data : list Z) : F unit :=
  base ← gets FastBootBuffer;
  dl ← gets DlMem;
  if (base <=? addr) && (addr + Z.of_nat (length data) <=? base + Z.of_nat (length dl)) then
    dl' ← access (wr dl (addr - base) data); modify (set_DlMem dl')
  else
    rx ← gets RxMem;
    rx' ← access (wr rx (addr - RX_BUFFER) data); modify (set_RxMem rx').
(** The download buffer from an address on. *)
Definition download_at (addr : Z) : F (list Z) :=
  base ← gets FastBootBuffer;
  dl ← gets DlMem;
  if addr <? base then crash else mret (drop (Z.to_nat (addr - base)) dl).

(** ** Answers to the host *)
Definition send (o : output) : F EFI_STATUS :=
  out ← gets outputs;
  let Status := Send out o in
  _ ← modify (set_outputs (out ++ [o]));
  match o with
  | Receive addr size =>
    _ ← (if is_success Status then modify (set_pending (Some (addr, size))) else mret tt);
    mret Status
  | _ => mret Status
  end.

(** Code and reason, cut to the size of a response. *)
Definition response (code Reason : list Z) : list Z := take (MAX_RSP_SIZE - 1) (code ++ Reason).
Definition FastbootAck (code Reason : list Z) : F unit :=
  _ ← send (Transmit (response code Reason)); mret tt.
Definition FastbootFail (Reason : list Z) : F unit := FastbootAck (bytes "FAIL") Reason.
Definition FastbootInfo (Info : list Z) : F unit := FastbootAck (bytes "INFO") Info.
Definition FastbootOkay (info : list Z) : F unit := FastbootAck (bytes "OKAY") info.

(** ** Timers *)
Definition next_timer : F (EFI_STATUS * EFI_STATUS) :=
  n ← gets timer_calls;
  _ ← modify (set_timer_calls (S n));
  mret (CreateTimer n).
Definition start_timer (e : timer_event) : F unit :=
  ts ← gets timers; modify (set_timers (ts ++ [e])).

Definition StopUsbTimer : F unit :=
  _ ← modify (set_UsbTimerEvent false); modify (set_UsbTimerStarted false).

Definition HandleUsbEventsInTimer : F EFI_STATUS :=
  running ← gets UsbTimerEvent;
  if running : bool then mret EFI_SUCCESS else
  made ← next_timer;
  if EFI_ERROR (fst made) then mret (fst made) else
  _ ← modify (set_UsbTimerEvent true);
  mret (snd made).

Definition FastbootOkayDelay : F EFI_STATUS :=
  made ← next_timer;
  if EFI_ERROR (fst made) then
    _ ← FastbootFail (bytes "Failed to creat event for waiting flash completely");
    mret (fst made)
  else if EFI_ERROR (snd made) then
    _ ← FastbootFail (bytes "Failed to set timer for waiting flash completely");
    mret (snd made)
  else
    _ ← start_timer FlashCompleteTimer;
    mret (snd made).

(** The timer fires: OKAY once the flash is complete, else the timer once more. *)
Definition FlashCompleteHandler : F unit :=
  complete ← gets IsFlashComplete;
  if negb complete then
    made ← next_timer;
    if EFI_ERROR (snd made)
    then FastbootFail (bytes "Failed to set timer for waiting flash completely")
    else start_timer FlashCompleteTimer
  else FastbootOkay [].

(** ** The transfer of an image *)
Definition GetXfrSize : F Z :=
  t ← gets Xfer;
  let BytesLeft := u64 (mNumDataBytes t - mBytesReceivedSoFar t) in
  mret (if bool_decide (mState t = ExpectDataState) && (BytesLeft <? USB_BUFFER_SIZE)
        then BytesLeft else USB_BUFFER_SIZE).

Definition ExchangeFlashAndUsbDataBuf : F unit :=
  change_xfer (fun t => set_mFlashNumDataBytes (mNumDataBytes t)
    (set_mFlashDataBuffer (mUsbDataBuffer t) (set_mUsbDataBuffer (mFlashDataBuffer t) t))).

(** The buffer of the response has 13 bytes. *)
Definition cmd_download (arg : list Z) : F unit :=
  let n := AsciiStrHexToUint64 arg in
  _ ← change_xfer (set_mNumDataBytes n);
  if n =? 0 then FastbootFail (bytes "Failed to get the number of bytes to download") else
  max ← gets MaxDownLoadSize;
  if max <? n then FastbootFail (bytes "Requested download size is more than max allowed" ++ [newline])
  else
  let Response := bytes "DATA" ++ snd (AsciiStrnCpyS [] 9 arg (AsciiStrLen arg)) in
  _ ← change_xfer (fun t => set_mBytesReceivedSoFar 0 (set_mState ExpectDataState t));
  _ ← send (Transmit (Response ++ repeat 0 (13 - length Response)));
  mret tt.

(** SetMem of the bytes behind the image, up to the end of its last page. *)
Definition clear_rest (Data : Z) : F unit :=
  PageSize ← storage (fun bm => GetPageSize);
  n ← xfer mNumDataBytes;
  let RoundSize := u32 (ROUND_TO_PAGE n (u32 (PageSize - 1))) in
  max ← gets MaxDownLoadSize;
  if RoundSize <? max
  then let Length := u64 (RoundSize - n) in
       if 2 ^ 32 <? Length then crash else store_at (u64 (Data + n)) (repeat 0 (Z.to_nat Length))
  else mret tt.

Definition AcceptData (Size Data : Z) : F unit :=
  t ← gets Xfer;
  let RemainingBytes := u64 (mNumDataBytes t - mBytesReceivedSoFar t) in
  let Size := if RemainingBytes <? Size then RemainingBytes else Size in
  let received := u64 (mBytesReceivedSoFar t + Size) in
  _ ← change_xfer (set_mBytesReceivedSoFar received);
  if received =? mNumDataBytes t then
    _ ← clear_rest Data;
    _ ← change_xfer (set_mState ExpectCmdState);
    _ ← StopUsbTimer;
    _ ← FastbootOkayDelay;
    mret tt
  else
    n ← GetXfrSize;
    _ ← send (Receive (u64 (Data + received)) n);
    mret tt.
End transport.
