(* ===== verification/FastbootCmds.v ===== *)
(** * The commands of Fastboot.

    [FastbootCmds.c]: flashing raw, meta and UBI images, erasing, the variables of
    the A/B slots, the lock state, the table of commands and [AcceptCmd], which
    reads a command, and the USB events of FastbootMain.c.  A handler gets its
    argument as characters.  [RebootDevice] does not return, so that the failure a
    handler would send after it is left out. *)
From stdpp Require Import base numbers list option strings.
From Stdlib Require Import ZArith Lia Ascii.
From S2P Require Import Prelude BaseLib Unicode Storage Bytes Gpt Partitions Slots Flash DeviceInfo Recovery Board Fastboot.
Local Open Scope Z_scope.

Definition CriticalPartitions : list (list Z) :=
  bytes <$> ["abl"; "rpm"; "tz"; "sdi"; "xbl"; "hyp"; "pmic"; "bootloader"; "devinfo";
    "partition"; "devcfg"; "ddr"; "frp"; "cdt"; "cmnlib"; "cmnlib64"; "keymaster"; "mdtp";
    "aop"; "multiimgoem"; "secdata"; "imagefv"; "qupfw"; "uefisecapp"]%string.
Definition VirtualAbCriticalPartitions : list (list Z) :=
  bytes <$> ["misc"; "metadata"; "userdata"]%string.

(** The text of a merge status in the responses. *)
Definition VabNone : list Z := bytes "none".

Definition META_HEADER_MAGIC : Z := 0xce1ad63c.
Definition META_PARTITION_NAME_SZ : nat := 72.
Definition MAX_IMAGES_IN_METAIMG : Z := 32.
Definition SIZEOF_meta_header_t : Z := 76.
Definition OFFSET_img_version : nat := 8.
Definition OFFSET_img_hdr_sz : Z := 74.
Definition SIZEOF_img_header_entry_t : Z := 80.
Definition OFFSET_start_offset : Z := 72.
Definition OFFSET_size : Z := 76.
Definition UBI_HEADER_MAGIC : list Z := bytes "UBI#".
Definition MAX_RETRY_COUNT : Z := 7.
Definition PARTITION_ALL : Z := 3.
Definition MAX_DISPLAY_PANEL_OVERRIDE : nat := 256.
Definition SIZEOF_boot_img_hdr : Z := 1632.
Definition SIZEOF_FASTBOOT_VAR : Z := 24.
Definition SIZEOF_FASTBOOT_CMD : Z := 32.
Definition SIZEOF_CmdInfo : Z := 16.
Definition SIZEOF_GetVarSlotInfo : Z := 111.

Definition set_LunSet (b : bool) (L : lun_choice) : lun_choice := mk_lun b (Lun L).
Definition set_Lun (n : Z) (L : lun_choice) : lun_choice := mk_lun (LunSet L) n.

Section commands.
Context {FW : Firmware} {BL : BaseLib} {UL : UnicodeLib} {AL : AsciiLib} {BM : BootMode}.
Context {BC : BuildConfig} {LB : LoaderBuild} {VB : VerifiedBootProtocol} {BP : BoardProtocols}.
Context {FE : FastbootEnv}.

Definition begins (s prefix : list Z) : bool := AsciiStrnCmp s prefix (AsciiStrLen prefix) =? 0.
Definition change_lun (f : lun_choice -> lun_choice) : F unit :=
  modify (fun s => set_LunInfo (f (LunInfo s)) s).

(** ** Variables of the slots *)
Definition FastbootPublishVar (Name : list Z) (Value : var_value) : F unit :=
  if negb (PoolAvailable 0 SIZEOF_FASTBOOT_VAR) then mret tt else
  vs ← gets Varlist; modify (set_Varlist ((Name, Value) :: vs)).

Definition slot_info (j : nat) : F GetVarSlotInfo :=
  arr ← gets BootSlotInfo;
  infos ← access arr;
  access (infos !! j).
Definition store_slot_info (j : nat) (info : GetVarSlotInfo) : F unit :=
  arr ← gets BootSlotInfo;
  infos ← access arr;
  modify (set_BootSlotInfo (Some (<[j := info]> infos))).

(** The values after a slot was made active or flashed; [fits] are the strings the
    bounded copies leave. *)
Definition copy_value (old : list Z) (new : list Z) : list Z :=
  snd (AsciiStrnCpyS old ATTR_RESP_SIZE new (AsciiStrLen new)).
Definition print_value (s : list Z) : list Z := take (ATTR_RESP_SIZE - 1) s.
Definition reset_info (i : GetVarSlotInfo) : GetVarSlotInfo :=
  mk_slot_info (SlotSuffix i) (copy_value (SlotSuccessfulVal i) (bytes "no"))
    (copy_value (SlotUnbootableVal i) (bytes "no")) (print_value (print_dec MAX_RETRY_COUNT)).

Definition yes_no (b : bool) : list Z := if b then bytes "yes" else bytes "no".
(** The name of a variable, an array of [SLOT_ATTR_SIZE]. *)
Definition slot_variable (name Suffix_ : list Z) : list Z :=
  snd (AsciiStrnCatS (snd (AsciiStrnCpyS [] SLOT_ATTR_SIZE name (AsciiStrLen name)))
         SLOT_ATTR_SIZE Suffix_ (AsciiStrLen Suffix_)).

Fixpoint publish_slots (es : list PartitionEntry) (count i j : nat) : F unit :=
  match count with
  | O => mret tt
  | S count' =>
    slots ← gets SlotCount;
    if negb (j <? slots)%nat then mret tt else
    e ← access (es !! i);
    let name := name_of e in
    if negb (begins name (bytes "boot")) then publish_slots es count' (S i) j else
    if (length name <? 5)%nat then crash else
    let Suffix_ := drop (AsciiStrLen (bytes "boot_")) name in
    info ← slot_info j;
    _ ← store_slot_info j (mk_slot_info
          (snd (AsciiStrnCpyS (SlotSuffix info) MAX_SLOT_SUFFIX_SZ Suffix_ (AsciiStrLen Suffix_)))
          (copy_value (SlotSuccessfulVal info) (yes_no (has_bits (attributes e) PART_ATT_SUCCESSFUL_VAL)))
          (copy_value (SlotUnbootableVal info) (yes_no (has_bits (attributes e) PART_ATT_UNBOOTABLE_VAL)))
          (print_value (print_dec (bit_field (attributes e) PART_ATT_MAX_RETRY_COUNT_VAL
                                     PART_ATT_MAX_RETRY_CNT_BIT))));
    _ ← FastbootPublishVar (slot_variable (bytes "slot-successful:") Suffix_) (V_successful j);
    _ ← FastbootPublishVar (slot_variable (bytes "slot-unbootable:") Suffix_) (V_unbootable j);
    _ ← FastbootPublishVar (slot_variable (bytes "slot-retry-count:") Suffix_) (V_retry j);
    publish_slots es count' (S i) (S j)
  end.

(** [CurrentSlotFB] is the suffix without its first character. *)
Definition update_current_slot : F unit :=
  slot ← storage (fun bm => GetCurrentSlotSuffix (BM := bm));
  modify (set_CurrentSlotFB (drop 1 (Suffix slot))).

Definition FastbootPublishSlotVars : F unit :=
  count ← storage (fun bm => GetPartitionCount);
  es ← liftL (lift (gets PtnEntries));
  _ ← publish_slots es count 0 0;
  _ ← FastbootPublishVar (bytes "has-slot:boot") (V_text (bytes "yes"));
  _ ← update_current_slot;
  _ ← FastbootPublishVar (bytes "current-slot") V_current_slot;
  system ← storage (fun bm => PartitionHasMultiSlot (bytes "system"));
  _ ← FastbootPublishVar (bytes "has-slot:system") (V_text (yes_no system));
  modem ← storage (fun bm => PartitionHasMultiSlot (bytes "modem"));
  FastbootPublishVar (bytes "has-slot:modem") (V_text (yes_no modem)).

Fixpoint count_slots (es : list PartitionEntry) (count i : nat) : F unit :=
  match count with
  | O => mret tt
  | S count' =>
    e ← access (es !! i);
    let name := name_of e in
    _ ← (if begins name (bytes "boot") then
           n ← gets SlotCount;
           _ ← modify (set_SlotCount (S n));
           let Suffix_ := drop (AsciiStrLen (bytes "boot")) name in
           arr ← gets SlotSuffixArray;
           if negb (is_found (AsciiStrStr arr Suffix_)) then
             let arr := snd (AsciiStrnCatS arr SLOT_SUFFIX_ARRAY_SIZE Suffix_ (AsciiStrLen Suffix_)) in
             modify (set_SlotSuffixArray
               (snd (AsciiStrnCatS arr SLOT_SUFFIX_ARRAY_SIZE (bytes ",") (AsciiStrLen (bytes ",")))))
           else mret tt
         else mret tt);
    count_slots es count' (S i)
  end.

Fixpoint reset_infos (count i : nat) : F unit :=
  match count with
  | O => mret tt
  | S count' =>
    info ← slot_info i;
    _ ← store_slot_info i (reset_info info);
    reset_infos count' (S i)
  end.

Definition PopulateMultislotMetadata : F unit :=
  count ← storage (fun bm => GetPartitionCount);
  es ← liftL (lift (gets PtnEntries));
  populated ← gets InitialPopulate;
  if negb populated then
    _ ← count_slots es count 0;
    n ← gets SlotCount;
    _ ← FastbootPublishVar (bytes "slot-count") (V_text (print_value (print_dec (Z.of_nat n))));
    if negb (PoolAvailable 0 (Z.of_nat n * SIZEOF_GetVarSlotInfo)) then modify (set_BootSlotInfo None) else
    _ ← modify (set_BootSlotInfo (Some (repeat zero_slot_info n)));
    _ ← FastbootPublishSlotVars;
    modify (set_InitialPopulate true)
  else
    n ← gets SlotCount;
    reset_infos n 0.

Definition NamePropertyMatches (Name : list Z) : bool :=
  begins Name (bytes "has-slot") || begins Name (bytes "current-slot") ||
  begins Name (bytes "slot-retry-count") || begins Name (bytes "slot-unbootable") ||
  begins Name (bytes "slot-successful") || begins Name (bytes "slot-suffixes") ||
  begins Name (bytes "partition-type:system") || begins Name (bytes "partition-size:system").
Definition ClearFastbootVarsofAB : F unit :=
  vs ← gets Varlist;
  modify (set_Varlist (filter (fun v => NamePropertyMatches (fst v) = false) vs)).

(** ** A flashed or erased boot slot *)
Fixpoint update_attr_loop (SlotSuffixAscii : list Z) (count j : nat) : F unit :=
  match count with
  | O => mret tt
  | S count' =>
    info ← slot_info j;
    _ ← (if is_found (AsciiStrStr SlotSuffixAscii (SlotSuffix info))
         then store_slot_info j (reset_info info) else mret tt);
    update_attr_loop SlotSuffixAscii count' (S j)
  end.

Definition flashed_attributes (a : Z) : Z :=
  Z.lor (Z.land a (Z.land (u64 (Z.lnot PART_ATT_SUCCESSFUL_VAL)) (u64 (Z.lnot PART_ATT_UNBOOTABLE_VAL))))
    (Z.lor PART_ATT_PRIORITY_VAL PART_ATT_MAX_RETRY_COUNT_VAL).

Definition FastbootUpdateAttr (SlotSuffix_ : list Z) : F unit :=
  let PartName := snd (StrnCpyS [] 5 (bytes "boot") (StrLen (bytes "boot"))) in
  let PartName := snd (StrnCatS PartName (MAX_GPT_NAME_SIZE - 1) SlotSuffix_ (StrLen SlotSuffix_)) in
  Index ← storage (fun bm => GetPartitionIndex PartName);
  match Index with
  | None => mret tt
  | Some i =>
    _ ← storage (fun bm => change_attributes i flashed_attributes);
    _ ← storage (fun bm => UpdatePartitionAttributes (BM := bm) PARTITION_ATTRIBUTES);
    n ← gets SlotCount;
    update_attr_loop SlotSuffix_ n 0
  end.

(** ** Flashing an image *)
(** The partition of a name: its status, and when it is found and has a block device
    and a handle, these. *)
Definition partition_device (PartitionName_ : list Z)
  : F (EFI_STATUS * option (EFI_BLOCK_IO_PROTOCOL * Z)) :=
  L ← gets LunInfo;
  found ← storage (fun bm => PartitionGetInfo L PartitionName_);
  let (Status, oh) := found : EFI_STATUS * option HandleInfo in
  if negb (is_success Status) then mret (Status, None) else
  h ← access oh;
  match BlkIo h with
  | None => mret (EFI_VOLUME_CORRUPTED, None)
  | Some blk =>
    if Handle h =? 0 then mret (EFI_VOLUME_CORRUPTED, None) else
    mret (EFI_SUCCESS, Some (blk, Handle h))
  end.

(** The name with its slot, when the device has slots: whether a slot is meant, the
    name, the suffix. *)
Definition slot_of_name (MultiSlotBoot : bool) (PartitionName_ : list Z) : F (bool * list Z * list Z) :=
  if MultiSlotBoot
  then storage (fun bm => GetPartitionHasSlot PartitionName_ MAX_GPT_NAME_SIZE [] MAX_SLOT_SUFFIX_SZ)
  else mret (false, PartitionName_, []).

(** [Image] is the memory from the image on.  The name is changed in the buffer of
    the caller. *)
Definition HandleRawImgFlash (PartitionName_ Image : list Z) (Size : Z) : F (EFI_STATUS * list Z) :=
  MultiSlotBoot ← storage (fun bm => PartitionHasMultiSlot (bytes "boot"));
  slot ← slot_of_name MultiSlotBoot PartitionName_;
  let '(HasSlot, PartitionName_, SlotSuffix_) := slot : bool * list Z * list Z in
  found ← partition_device PartitionName_;
  match snd found : option (EFI_BLOCK_IO_PROTOCOL * Z) with
  | None => mret (fst found, PartitionName_)
  | Some (blk, h) =>
    let PartitionSize_ := GetPartitionSize (Some blk) in
    if (PartitionSize_ <? Size) || (PartitionSize_ =? 0)
    then mret (EFI_VOLUME_FULL, PartitionName_) else
    Status ← storage (fun bm =>
      WriteBlockToPartition (@IsFlashSplitNeeded bm) (Some blk) (Some h) 0 Size (Some Image));
    _ ← (if MultiSlotBoot && HasSlot &&
            (StrnCmp PartitionName_ (bytes "boot") (StrLen (bytes "boot")) =? 0)
         then FastbootUpdateAttr SlotSuffix_ else mret tt);
    mret (Status, PartitionName_)
  end.

Definition HandleUbiImgFlash (PartitionName_ Image : list Z) (Size : Z) : F (EFI_STATUS * list Z) :=
  MultiSlotBoot ← storage (fun bm => PartitionHasMultiSlot (bytes "boot"));
  slot ← slot_of_name MultiSlotBoot PartitionName_;
  let '(HasSlot, PartitionName_, SlotSuffix_) := slot : bool * list Z * list Z in
  L ← gets LunInfo;
  found ← storage (fun bm => PartitionGetInfo L PartitionName_);
  if EFI_ERROR (fst found) then mret (fst found, PartitionName_) else
  h ← access (snd found);
  let PartitionSize_ := GetPartitionSize (BlkIo h) in
  if (PartitionSize_ <? Size) || (PartitionSize_ =? 0)
  then mret (EFI_INVALID_PARAMETER, PartitionName_) else
  if EFI_ERROR LocateUbiFlasher then mret (LocateUbiFlasher, PartitionName_) else
  if EFI_ERROR (UbiFlasherOpen PartitionName_)
  then mret (UbiFlasherOpen PartitionName_, PartitionName_) else
  data ← access (rd Image 0 (Z.to_nat Size));
  _ ← send (UbiWrite PartitionName_ data);
  if EFI_ERROR (UbiFlasherWrite PartitionName_ data)
  then mret (UbiFlasherWrite PartitionName_ data, PartitionName_) else
  mret (UbiFlasherClose PartitionName_, PartitionName_).

Definition IsCriticalPartition (PartitionName_ : list Z) : bool :=
  existsb (fun c => StrnCmp PartitionName_ c (StrLen c) =? 0) CriticalPartitions.

(** The images of a meta image.  [false] when the caller returns at once with the
    status. *)
Fixpoint meta_images (Img : list Z) (Image ImageEnd : Z) (count : nat) (off : Z) (Status : EFI_STATUS)
  : F (bool * EFI_STATUS) :=
  match count with
  | O => mret (true, Status)
  | S count' =>
    start_offset ← access (field 4 Img (off + OFFSET_start_offset));
    size ← access (field 4 Img (off + OFFSET_size));
    if (start_offset =? 0) || (size =? 0) then mret (true, Status) else
    if CHECK_ADD64 Image start_offset then mret (false, EFI_BAD_BUFFER_SIZE) else
    if CHECK_ADD64 (u64 (Image + start_offset)) size then mret (false, EFI_BAD_BUFFER_SIZE) else
    if ImageEnd <? u64 (u64 (Image + start_offset) + size) then mret (false, EFI_INVALID_PARAMETER) else
    ptn_name ← access (rd Img off META_PARTITION_NAME_SZ);
    if negb (existsb (fun c => c =? 0) ptn_name) then mret (false, EFI_INVALID_PARAMETER) else
    let PartitionNameFromMeta := chars_of ptn_name in
    critical ← liftL IsUnlockCritical;
    if negb critical && IsCriticalPartition PartitionNameFromMeta then
      _ ← FastbootFail (bytes "Flashing is not allowed for Critical Partitions" ++ [newline]);
      mret (false, EFI_INVALID_PARAMETER)
    else
    r ← HandleRawImgFlash PartitionNameFromMeta (drop (Z.to_nat start_offset) Img) size;
    if negb (is_success (fst r)) then mret (false, fst r) else
    meta_images Img Image ImageEnd count' (off + SIZEOF_img_header_entry_t) (fst r)
  end.

Definition HandleMetaImgFlash (PartitionName_ Img : list Z) (Image Size : Z) : F EFI_STATUS :=
  if Size <? SIZEOF_meta_header_t then mret EFI_INVALID_PARAMETER else
  img_hdr_sz ← access (field 2 Img OFFSET_img_hdr_sz);
  let images := img_hdr_sz / SIZEOF_img_header_entry_t in
  if MAX_IMAGES_IN_METAIMG <? images then mret EFI_INVALID_PARAMETER else
  if Size <=? SIZEOF_meta_header_t + img_hdr_sz then mret EFI_INVALID_PARAMETER else
  if CHECK_ADD64 Image Size then mret EFI_BAD_BUFFER_SIZE else
  r ← meta_images Img Image (u64 (Image + Size)) (Z.to_nat images) SIZEOF_meta_header_t EFI_DEVICE_ERROR;
  let (done_, Status) := r : bool * EFI_STATUS in
  if negb done_ then mret Status else
  img_version ← access (c_string Img OFFSET_img_version);
  liftL (UpdateDevInfo PartitionName_ img_version).

Definition FastbootErasePartition (PartitionName_ : list Z) : F EFI_STATUS :=
  found ← partition_device PartitionName_;
  match snd found : option (EFI_BLOCK_IO_PROTOCOL * Z) with
  | None => mret (fst found)
  | Some (blk, h) =>
    Status ← storage (fun bm => ErasePartition (Some blk) h);
    if negb (is_success Status) then mret Status else
    mret (if StrCmp (bytes "userdata") PartitionName_ =? 0 then ResetDeviceState else Status)
  end.

(** ** A new partition table *)
Fixpoint boot_ptn_loop (handles : list HandleInfo) : option bool :=
  match handles with
  | [] => Some false
  | h :: handles' =>
    let (Status, PartEntry_) := PartitionRecord (Handle h) in
    if EFI_ERROR Status then boot_ptn_loop handles' else
    if StrnCmp (chars_of (PartitionName PartEntry_)) (bytes "boot") (StrLen (bytes "boot")) =? 0
    then Some true else boot_ptn_loop handles'
  end.
Definition IsBootPtnUpdated (Lun_ : Z) : B bool :=
  let Lun_ := if Lun_ =? NO_LUN then 0 else Lun_ in
  table ← gets Ptable;
  if Lun_ <? 0 then crash else
  handles ← access (table !! Z.to_nat Lun_);
  access (boot_ptn_loop handles).

Definition ReenumeratePartTable : F EFI_STATUS :=
  _ ← change_lun (set_LunSet false);
  if negb (is_success BlockIoRefresh) then mret BlockIoRefresh else
  Status ← storage (fun bm => EnumeratePartitions);
  if EFI_ERROR Status then mret Status else
  _ ← storage (fun bm => UpdatePartitionEntries);
  L ← gets LunInfo;
  BootPtnUpdated ← storage (fun bm => IsBootPtnUpdated (Lun L));
  _ ← (if BootPtnUpdated : bool then
         MultiSlotBoot ← storage (fun bm => PartitionHasMultiSlot (bytes "boot"));
         if MultiSlotBoot : bool then
           _ ← storage (fun bm => UpdatePartitionAttributes (BM := bm) PARTITION_ALL);
           _ ← storage (fun bm => FindPtnActiveSlot (BM := bm));
           PopulateMultislotMetadata
         else
           slots ← gets BootSlotInfo;
           if bool_decide (slots = None) then mret tt else
           _ ← ClearFastbootVarsofAB;
           _ ← modify (set_BootSlotInfo None);
           _ ← modify (set_SlotSuffixArray []);
           modify (set_InitialPopulate false)
       else mret tt);
  mret Status.

(** ** What the lock and the merge of a snapshot refuse *)
(** The reason of a refusal; [what] starts the text. *)
Definition lock_refusal (what PartitionName_ : list Z) : F (option (list Z)) :=
  if bool_decide (GetAVBVersion = AVB_LE) ||
     (negb (bool_decide (GetAVBVersion = AVB_LE)) && TargetBuildVariantUser) then
    unlocked ← liftL IsUnlocked;
    if negb unlocked then mret (Some (what ++ bytes " is not allowed in Lock State")) else
    critical ← liftL IsUnlockCritical;
    if negb critical && IsCriticalPartition PartitionName_
    then mret (Some (what ++ bytes " is not allowed for Critical Partitions" ++ [newline]))
    else mret None
  else mret None.

Definition CheckVirtualAbCriticalPartition (PartitionName_ : list Z) : F bool :=
  m ← loading (fun bm => GetSnapshotMergeStatus);
  mret ((bool_decide (m = MERGING) || bool_decide (m = SNAPSHOTTED)) &&
        existsb (fun c => StrnCmp PartitionName_ c (StrLen c) =? 0) VirtualAbCriticalPartitions).

Definition snapshot_refusal (what PartitionName_ : list Z) : F (option (list Z)) :=
  if negb IsVirtualAbOtaSupported then mret None else
  critical ← CheckVirtualAbCriticalPartition PartitionName_;
  if critical : bool then
    state ← gets SnapshotMergeState;
    mret (Some (take (MAX_RSP_SIZE - 1)
      (what ++ bytes " of " ++ PartitionName_ ++ bytes " is not allowed in " ++ state ++ bytes " state")))
  else
  m ← loading (fun bm => GetSnapshotMergeStatus);
  if (bool_decide (m = MERGING) || bool_decide (m = SNAPSHOTTED)) &&
     (StrnCmp PartitionName_ (bytes "super") (StrLen (bytes "super")) =? 0) then
    Status ← loading (fun bm => SetSnapshotMergeStatus (BM := bm) CANCELLED);
    if negb (is_success Status)
    then mret (Some (bytes "Failed to update snapshot state to cancel")) else
    _ ← modify (set_SnapshotMergeState VabNone);
    mret None
  else mret None.

Definition is_avb_custom_key (PartitionName_ : list Z) : bool :=
  StrnCmp PartitionName_ (bytes "avb_custom_key") (StrLen (bytes "avb_custom_key")) =? 0.

(** ** The flash command *)
(** A partition table: on UFS the boot LUN is 1 from now on, on eMMC the LUN of the
    name is dropped. *)
Definition prepare_table_device (BootDeviceType : list Z) : F unit :=
  if begins BootDeviceType (bytes "UFS") then
    got ← storage (fun bm => UfsGetSetBootLun 0 true);
    if negb (snd got =? 0x1) then
      _ ← storage (fun bm => UfsGetSetBootLun 0x1 false); mret tt
    else mret tt
  else if begins BootDeviceType (bytes "EMMC") then change_lun (fun _ => mk_lun false NO_LUN)
  else mret tt.

Definition flash_partition_table (PartitionName_ BootDeviceType : list Z) : F unit :=
  _ ← prepare_table_device BootDeviceType;
  t ← gets Xfer;
  image ← download_at (mFlashDataBuffer t);
  let failed := FastbootFail (bytes "Error Updating partition Table" ++ [newline]) in
  if begins BootDeviceType (bytes "NAND") then
    Ret ← access (PartitionVerifyMibibImage image);
    if negb (Ret =? 0) then failed else
    r ← HandleRawImgFlash PartitionName_ image (mFlashNumDataBytes t);
    if negb (is_success (fst r)) then failed else
    Status ← ReenumeratePartTable;
    if is_success Status then FastbootOkay [] else failed
  else
    L ← gets LunInfo;
    r ← storage (fun bm => UpdatePartitionTable image (mFlashNumDataBytes t) (Lun L));
    let (Status, image') := r : EFI_STATUS * list Z in
    _ ← store_at (mFlashDataBuffer t) image';
    if negb (is_success Status) then failed else
    Status ← ReenumeratePartTable;
    if is_success Status then FastbootOkay [] else failed.

(** A sparse image: OKAY is sent before the flash when the partition is larger than
    the download buffer.  [None] when the command ends here, else the status, the
    size of the partition and the name. *)
Definition start_parallel (PartitionSize_ : Z) (Status : EFI_STATUS) : F EFI_STATUS :=
  max ← gets MaxDownLoadSize;
  if (max <? PartitionSize_) && negb IsDisableParallelDownloadFlash then
    _ ← modify (set_IsFlashComplete false);
    Status ← HandleUsbEventsInTimer;
    _ ← (if EFI_ERROR Status then
           _ ← modify (set_IsFlashComplete true); StopUsbTimer
         else modify (set_UsbTimerStarted true));
    _ ← (if negb (EFI_ERROR Status) then FastbootOkay [] else mret tt);
    mret Status
  else mret Status.

Definition sparse_flash (PartitionName_ image : list Z) (PartitionSize_ : Z) (L : lun_choice)
    (Status : EFI_STATUS) : F EFI_STATUS :=
  Status ← start_parallel PartitionSize_ Status;
  t ← gets Xfer;
  Result ← storage (fun bm => HandleSparseImgFlash (BM := bm) image (mFlashDataBuffer t) L
             PartitionName_ (mFlashNumDataBytes t));
  _ ← modify (set_FlashResult Result);
  mret Status.

Definition flash_sparse (PartitionName_ image : list Z) : F (option (EFI_STATUS * Z * list Z)) :=
  MultiSlotBoot ← storage (fun bm => PartitionHasMultiSlot (bytes "boot"));
  slot ← slot_of_name MultiSlotBoot PartitionName_;
  let '(HasSlot, PartitionName_, SlotSuffix_) := slot : bool * list Z * list Z in
  L ← gets LunInfo;
  found ← storage (fun bm => PartitionGetInfo L PartitionName_);
  if EFI_ERROR (fst found) then
    _ ← FastbootFail (bytes "Partition not found"); mret None
  else
  h ← access (snd found);
  let PartitionSize_ := GetPartitionSize (BlkIo h) in
  if PartitionSize_ =? 0 then
    _ ← FastbootFail (bytes "Partition error size"); mret None
  else
  Status ← sparse_flash PartitionName_ image PartitionSize_ L (fst found);
  _ ← modify (set_IsFlashComplete true);
  _ ← StopUsbTimer;
  mret (Some (Status, PartitionSize_, PartitionName_)).

(** The answer to a flash that was not announced before. *)
Definition flash_answer (PartitionName_ : list Z) : F unit :=
  Result ← gets FlashResult;
  if EFI_ERROR Result then
    _ ← FastbootFail (take (MAX_RSP_SIZE - 1)
          (if bool_decide (Result = EFI_NOT_FOUND)
           then bytes "(" ++ PartitionName_ ++ bytes ") No such partition"
           else bytes "Error flashing partition" ++ bytes " : " ++ print_status Result));
    modify (set_FlashResult EFI_SUCCESS)
  else FastbootOkay [].

Definition flash_image (PartitionName_ : list Z) : F unit :=
  t ← gets Xfer;
  image ← download_at (mFlashDataBuffer t);
  magic ← access (field 4 image 0);
  let Size := mFlashNumDataBytes t in
  if magic =? SPARSE_HEADER_MAGIC then
    r ← flash_sparse PartitionName_ image;
    match r : option (EFI_STATUS * Z * list Z) with
    | None => mret tt
    | Some (Status, PartitionSize_, PartitionName_) =>
      max ← gets MaxDownLoadSize;
      if (PartitionSize_ <? max) ||
         ((max <? PartitionSize_) && (IsDisableParallelDownloadFlash || negb (is_success Status)))
      then flash_answer PartitionName_ else mret tt
    end
  else if AsciiStrnCmp (chars_of (take 4 image)) UBI_HEADER_MAGIC 4 =? 0 then
    r ← HandleUbiImgFlash PartitionName_ image Size;
    _ ← modify (set_FlashResult (fst r));
    flash_answer (snd r)
  else if magic =? META_HEADER_MAGIC then
    Result ← HandleMetaImgFlash PartitionName_ image (mFlashDataBuffer t) Size;
    _ ← modify (set_FlashResult Result);
    flash_answer PartitionName_
  else
    r ← HandleRawImgFlash PartitionName_ image Size;
    _ ← modify (set_FlashResult (fst r));
    flash_answer (snd r).

(** The label [out]. *)
Definition flash_out (arg : list Z) : F unit :=
  enforcing ← liftL IsEnforcing;
  Result ← gets FlashResult;
  _ ← (if begins arg (bytes "system") && negb enforcing && is_success Result
       then _ ← liftL (EnableEnforcingMode true); mret tt else mret tt);
  change_lun (set_LunSet false).

(** The LUN behind a colon; [false] when it is not one. *)
Definition parse_lun (PartitionName_ : list Z) : F bool :=
  match StrStr PartitionName_ (bytes ":") with
  | None => mret true
  | Some k =>
    let n := s32 (StrDecimalToUintn (drop (S k) PartitionName_)) in
    _ ← change_lun (set_Lun n);
    if Z.of_nat MAX_LUNS <=? n then
      _ ← FastbootFail (bytes "Invalid Lun number passed" ++ [newline]); mret false
    else _ ← change_lun (set_LunSet true); mret true
  end.

Definition is_table_name (PartitionName_ BootDeviceType : list Z) : bool :=
  (StrnCmp PartitionName_ (bytes "partition") (StrLen (bytes "partition")) =? 0) ||
  ((StrnCmp PartitionName_ (bytes "mibib") (StrLen (bytes "mibib")) =? 0) &&
   begins BootDeviceType (bytes "NAND")).

Definition store_user_key (data sz : Z) : F EFI_STATUS :=
  mem ← download_at data;
  key ← access (rd mem 0 (Z.to_nat sz));
  liftL (StoreUserKey key).

Definition cmd_flash (arg : list Z) (data sz : Z) : F unit :=
  _ ← change_lun (set_LunSet false);
  _ ← ExchangeFlashAndUsbDataBuf;
  buffer ← xfer mFlashDataBuffer;
  if buffer =? 0 then FastbootFail (bytes "No data to flash") else
  if (MAX_GPT_NAME_SIZE <=? AsciiStrLen arg)%nat
  then FastbootFail (bytes "Invalid partition name") else
  refused ← lock_refusal (bytes "Flashing") arg;
  match refused : option (list Z) with Some reason => FastbootFail reason | None =>
  refused ← snapshot_refusal (bytes "Flashing") arg;
  match refused : option (list Z) with Some reason => FastbootFail reason | None =>
  if is_avb_custom_key arg then
    Status ← store_user_key data sz;
    if negb (is_success Status) then FastbootFail (bytes "Flashing avb_custom_key failed")
    else FastbootOkay []
  else
  lun_ok ← parse_lun arg;
  if negb lun_ok then flash_out arg else
  BootDeviceType ← storage (fun bm => GetRootDeviceType BOOT_DEV_NAME_SIZE_MAX);
  _ ← (if is_table_name arg BootDeviceType then flash_partition_table arg BootDeviceType
       else flash_image arg);
  flash_out arg
  end end.

(** ** The erase command *)
Definition cmd_erase (arg : list Z) : F unit :=
  MultiSlotBoot ← storage (fun bm => PartitionHasMultiSlot (bytes "boot"));
  if (MAX_GPT_NAME_SIZE <=? AsciiStrLen arg)%nat
  then FastbootFail (bytes "Invalid partition name") else
  refused ← lock_refusal (bytes "Erase") arg;
  match refused : option (list Z) with Some reason => FastbootFail reason | None =>
  refused ← snapshot_refusal (bytes "Erase") arg;
  match refused : option (list Z) with Some reason => FastbootFail reason | None =>
  if is_avb_custom_key arg then
    Status ← liftL EraseUserKey;
    if negb (is_success Status) then FastbootFail (bytes "Erasing avb_custom_key failed")
    else FastbootOkay []
  else
  slot ← slot_of_name MultiSlotBoot arg;
  let '(HasSlot, PartitionName_, SlotSuffix_) := slot : bool * list Z * list Z in
  Status ← FastbootErasePartition PartitionName_;
  if EFI_ERROR Status then FastbootFail (bytes "Check device console.")
  else
    _ ← (if MultiSlotBoot && HasSlot &&
            (StrnCmp PartitionName_ (bytes "boot") (StrLen (bytes "boot")) =? 0)
         then FastbootUpdateAttr SlotSuffix_ else mret tt);
    FastbootOkay []
  end end.

(** ** The active slot *)
(** The suffix the argument means, with an underscore in front. *)
Definition input_slot (InputSlot : list Z) : list Z :=
  if negb (is_found (AsciiStrStr InputSlot (bytes "_"))) then
    let s := snd (StrnCpyS [] MAX_SLOT_SUFFIX_SZ (bytes "_") (StrLen (bytes "_"))) in
    snd (StrnCatS s MAX_SLOT_SUFFIX_SZ InputSlot (StrLen InputSlot))
  else InputSlot.

(** The loop ends at the first slot whose suffix contains the argument; behind the
    last slot it reads past the array. *)
Fixpoint set_active_loop (InputSlot : list Z) (fuel j : nat) : F unit :=
  match fuel with
  | O => crash
  | S fuel' =>
    info ← slot_info j;
    if is_found (AsciiStrStr (SlotSuffix info) InputSlot) then store_slot_info j (reset_info info)
    else set_active_loop InputSlot fuel' (S j)
  end.

Definition cmd_set_active (Arg : list Z) : F unit :=
  MultiSlotBoot ← storage (fun bm => PartitionHasMultiSlot (bytes "boot"));
  unlocked ← liftL IsUnlocked;
  if TargetBuildVariantUser && negb unlocked
  then FastbootFail (bytes "Slot Change is not allowed in Lock State" ++ [newline]) else
  if negb MultiSlotBoot then FastbootFail (bytes "This Command not supported") else
  m ← (if IsVirtualAbOtaSupported then loading (fun bm => GetSnapshotMergeStatus)
       else mret NONE_MERGE_STATUS);
  if bool_decide (m = MERGING)
  then FastbootFail (bytes "Slot Change is not allowed in merging state") else
  match AsciiStrStr Arg (bytes ":") with
  | None => FastbootFail (bytes "set_active _a or _b should be entered")
  | Some k =>
    let InputSlot := drop (S k) Arg in
    let n := AsciiStrLen InputSlot in
    if (MAX_SLOT_SUFFIX_SZ <=? n)%nat then FastbootFail (bytes "Invalid Slot") else
    suffixes ← gets SlotSuffixArray;
    if ((n =? MAX_SLOT_SUFFIX_SZ - 2)%nat || (n =? MAX_SLOT_SUFFIX_SZ - 1)%nat) &&
       negb (is_found (AsciiStrStr suffixes InputSlot))
    then FastbootFail (bytes "Invalid Slot Suffix") else
    let s := input_slot InputSlot in
    let NewSlot := mk_slot (snd (StrnCpyS [] MAX_SLOT_SUFFIX_SZ s (StrLen s))) in
    Status ← storage (fun bm => SetActiveSlot (BM := bm) (Some NewSlot) true);
    if negb (is_success Status) then FastbootFail (bytes "set_active failed") else
    _ ← update_current_slot;
    slots ← gets BootSlotInfo;
    _ ← set_active_loop InputSlot (S (length (default [] slots))) 0;
    _ ← storage (fun bm => UpdatePartitionAttributes (BM := bm) PARTITION_ALL);
    FastbootOkay []
  end.

(** ** Locking and unlocking *)
Definition SetDeviceUnlock (Type_ : unlock_type) (State : bool) : F unit :=
  unlocked ← (match Type_ with
              | UNLOCK => liftL IsUnlocked
              | UNLOCK_CRITICAL => liftL IsUnlockCritical
              | UNLOCK_OTHER => mret false
              end);
  if bool_decide (State = unlocked) then
    FastbootFail (tab :: bytes "Device already : " ++
                  (if State then bytes "unlocked!" else bytes "locked!"))
  else
  allowed ← gets IsAllowUnlock;
  if State && negb allowed
  then FastbootFail (bytes "Flashing Unlock is not allowed" ++ [newline]) else
  if negb (bool_decide (GetAVBVersion = AVB_LE)) && is_display_supported &&
     IsEnableDisplayMenuFlagSupported
  then
    _ ← send (UnlockMenu Type_ State);
    if negb (is_success (DisplayUnlockMenu Type_ State))
    then FastbootFail (bytes "Command not support: the display is not enabled")
    else FastbootOkay []
  else
    Status ← loading (fun bm => SetDeviceUnlockValue (BM := bm) Type_ State);
    if negb (is_success Status) then
      FastbootFail (take (MAX_RSP_SIZE - 1)
        (tab :: bytes "Set device " ++ (if State then bytes "unlocked!" else bytes "locked!") ++
         bytes " failed: " ++ print_status Status))
    else
      _ ← FastbootOkay [];
      if negb (bool_decide (GetAVBVersion = AVB_LE)) && negb IsEnableDisplayMenuFlagSupported
      then _ ← send (RebootDevice RECOVERY_MODE); mret tt
      else mret tt.

(** ** The other commands *)
(** The wait for the end of the transfer between two answers has no effect here. *)
Definition cmd_get_unlock_ability : F unit :=
  allowed ← gets IsAllowUnlock;
  _ ← FastbootInfo (bytes "get_unlock_ability: " ++ print_dec (if allowed : bool then 1 else 0));
  FastbootOkay [].

Definition set_charger_screen (IsEnabled : bool) (failed : list Z) : F unit :=
  Status ← liftL (EnableChargingScreen IsEnabled);
  if negb (is_success Status) then FastbootFail failed else FastbootOkay [].

Definition true_false (b : bool) : list Z := if b then bytes "true" else bytes "false".
Definition cmd_oem_devinfo : F unit :=
  b ← liftL IsEnforcing; _ ← FastbootInfo (bytes "Verity mode: " ++ true_false b);
  b ← liftL IsUnlocked; _ ← FastbootInfo (bytes "Device unlocked: " ++ true_false b);
  b ← liftL IsUnlockCritical; _ ← FastbootInfo (bytes "Device critical unlocked: " ++ true_false b);
  b ← liftL ChargingScreenEnabled; _ ← FastbootInfo (bytes "Charger screen enabled: " ++ true_false b);
  FastbootOkay [].

(** [arg] starts after the name of the command. *)
Definition cmd_off_mode_charge (Arg : list Z) : F unit :=
  match AsciiStrStr Arg (bytes " ") with
  | None => FastbootFail (bytes "Enter fastboot oem off-mode-charge 0/1")
  | Some k =>
    let Ptr := drop (S k) Arg in
    let run IsEnable :=
      let cat s x := snd (AsciiStrnCatS s MAX_RSP_SIZE x (AsciiStrLen x)) in
      let Resp := cat (bytes "Set off mode charger: ") Arg in
      Status ← liftL (EnableChargingScreen IsEnable);
      if negb (is_success Status) then FastbootFail (cat Resp (bytes ": failed"))
      else FastbootOkay (cat Resp (bytes ": done")) in
    if AsciiStrCmp Ptr (bytes "0") =? 0 then run false
    else if AsciiStrCmp Ptr (bytes "1") =? 0 then run true
    else FastbootFail (bytes "Invalid input entered")
  end.

Definition cmd_display_cmdline (Arg : list Z) : F unit :=
  Status ← liftL (StoreDisplayCmdLine Arg);
  if negb (is_success Status) then FastbootFail (bytes "Failed to store display command line")
  else FastbootOkay [].

(** The loop over the first characters: a space is removed, a colon asks to append;
    each turn takes a character of [arg] away or passes it. *)
Fixpoint skip_blanks (fuel : nat) (arg : list Z) (Pos : nat) (Append : bool) : list Z * bool :=
  match fuel with
  | O => (arg, Append)
  | S fuel' =>
    match arg !! Pos with
    | None => (arg, Append)
    | Some c =>
      if c =? ch " " then skip_blanks fuel' (drop 1 arg) Pos Append
      else if c =? ch ":" then skip_blanks fuel' arg (S Pos) true
      else (arg, Append)
    end
  end.

(** Of the array the variable is read into, the characters before a zero count. *)
Definition appended_panel (arg : list Z) : F (list Z) :=
  out ← gets outputs;
  let '(Status, (DisplayPanelStrExist, CurStrLen)) := GetPanelVariable out in
  let Status := if bool_decide (Status = EFI_NOT_FOUND) then EFI_SUCCESS else Status in
  if is_success Status && negb (CurStrLen =? 0)%nat &&
     (CurStrLen + AsciiStrLen arg <? MAX_DISPLAY_PANEL_OVERRIDE)%nat
  then mret (snd (AsciiStrnCatS [] MAX_DISPLAY_PANEL_OVERRIDE (chars_of DisplayPanelStrExist) CurStrLen))
  else mret [].

Definition cmd_select_display_panel (arg : list Z) : F unit :=
  let (arg, Append) := skip_blanks (length arg) arg 0 false in
  old ← (if Append : bool then appended_panel arg else mret []);
  let DisplayPanelStr := snd (AsciiStrnCatS old MAX_DISPLAY_PANEL_OVERRIDE arg (AsciiStrLen arg)) in
  out ← gets outputs;
  let Status := SetPanelVariable out in
  _ ← send (SetDisplayPanel DisplayPanelStr (AsciiStrLen DisplayPanelStr));
  let cat x := snd (AsciiStrnCatS (bytes "Selecting Panel: ") MAX_RSP_SIZE x (AsciiStrLen x)) in
  if EFI_ERROR Status && negb (bool_decide (Status = EFI_NOT_FOUND))
  then FastbootFail (cat (bytes ": failed")) else FastbootOkay (cat (bytes ": done")).

(** ** Variables *)
Definition UpdateGetVarVariable : F unit :=
  out ← gets outputs;
  let (BatterySocOk, BatteryVoltage) := TargetBatterySocOk (length out) in
  b ← liftL ChargingScreenEnabled;
  let n := print_dec (if b : bool then 1 else 0) in
  modify (set_GetVarStrings (mk_strings (print_dec BatteryVoltage) (yes_no BatterySocOk) n n)).

(** The string a variable points to. *)
Definition var_string (v : var_value) : F (list Z) :=
  match v with
  | V_text s => mret s
  | V_battery_voltage => gets (fun s => StrBatteryVoltage (GetVarStrings s))
  | V_battery_soc_ok => gets (fun s => StrBatterySocOk (GetVarStrings s))
  | V_charger_screen => gets (fun s => ChargeScreenEnable (GetVarStrings s))
  | V_merge_state => gets SnapshotMergeState
  | V_bootloader_version => liftL (arr ← dev bootloader_version; access (c_string arr 0))
  | V_radio_version => liftL (arr ← dev radio_version; access (c_string arr 0))
  | V_successful j => info ← slot_info j; mret (SlotSuccessfulVal info)
  | V_unbootable j => info ← slot_info j; mret (SlotUnbootableVal info)
  | V_retry j => info ← slot_info j; mret (SlotRetryCountVal info)
  | V_current_slot => gets CurrentSlotFB
  end.

Fixpoint send_all (vs : list (list Z * var_value)) : F unit :=
  match vs with
  | [] => mret tt
  | (name, v) :: vs' =>
    value ← var_string v;
    let cat s x n := snd (AsciiStrnCatS s MAX_RSP_SIZE x n) in
    _ ← FastbootInfo (cat (cat (snd (AsciiStrnCpyS [] MAX_RSP_SIZE name MAX_RSP_SIZE))
          (bytes ":") (AsciiStrLen (bytes ":"))) value MAX_RSP_SIZE);
    send_all vs'
  end.
Definition CmdGetVarAll : F unit :=
  vs ← gets Varlist; _ ← send_all vs; FastbootOkay [].

Fixpoint find_var (Name : list Z) (vs : list (list Z * var_value)) : option var_value :=
  match vs with
  | [] => None
  | (name, v) :: vs' => if AsciiStrCmp name Name =? 0 then Some v else find_var Name vs'
  end.

(** The slot is added to the name of a partition that has slots.  [AsciiStrToUnicodeStrS]
    is given the size of a suffix, and [AsciiStrnCatS] the length of the suffix. *)
Definition partition_variable (Arg : list Z) : F (option (list Z)) :=
  if negb (is_found (AsciiStrStr Arg (bytes "partition-"))) then mret (Some Arg) else
  match AsciiStrStr Arg (bytes ":") with
  | None => mret (Some Arg)
  | Some k =>
    let Token := drop (k + AsciiStrLen (bytes ":")) Arg in
    if (MAX_GPT_NAME_SIZE <=? AsciiStrLen Token)%nat then mret None else
    let PartNameUniStr := snd (AsciiStrToUnicodeStrS Token StackName MAX_SLOT_SUFFIX_SZ) in
    slots ← storage (fun bm => PartitionHasMultiSlot PartNameUniStr);
    if slots : bool then
      CurrentSlot ← storage (fun bm => GetCurrentSlotSuffix (BM := bm));
      let CurrentSlotAsc := Suffix CurrentSlot in
      mret (Some (snd (AsciiStrnCatS Arg (AsciiStrLen CurrentSlotAsc) CurrentSlotAsc
                         (AsciiStrLen CurrentSlotAsc))))
    else mret (Some Arg)
  end.

Definition cmd_getvar (Arg : list Z) : F unit :=
  _ ← UpdateGetVarVariable;
  if AsciiStrCmp (bytes "all") Arg =? 0 then CmdGetVarAll else
  name ← partition_variable Arg;
  match name : option (list Z) with
  | None => FastbootFail (bytes "Invalid partition name")
  | Some Arg =>
    vs ← gets Varlist;
    match find_var Arg vs with
    | Some v => value ← var_string v; FastbootOkay value
    | None => FastbootFail (bytes "GetVar Variable Not found")
    end
  end.

(** ** Leaving Fastboot *)
(** From here on the session is over: the image is loaded, verified and started by the
    boot path, which is not modelled. *)
Definition boot_path : F unit := crash.
(** Without MDTP, as the package configures it. *)
Definition cmd_boot (Size : Z) : F unit :=
  unlocked ← liftL IsUnlocked;
  if negb unlocked then FastbootFail (bytes "Fastboot boot command is not available in locked device")
  else if Size <? SIZEOF_boot_img_hdr then FastbootFail (bytes "Invalid Boot image Header")
  else boot_path.

Definition cmd_reboot (mode : reboot_mode) : F unit :=
  _ ← FastbootOkay []; _ ← send (RebootDevice mode); mret tt.
Definition cmd_reboot_with (Command failed : list Z) : F unit :=
  Status ← loading (fun bm => WriteRecoveryMessage (BM := bm) Command);
  if negb (is_success Status) then FastbootFail failed else cmd_reboot NORMAL_MODE.

Definition cmd_update_snapshot (Arg : list Z) : F unit :=
  let invalid := FastbootFail (bytes "Invalid snapshot-update command") in
  match AsciiStrStr Arg (bytes ":") with
  | None => invalid
  | Some k =>
    let Command := drop (S k) Arg in
    if begins Command (bytes "merge") then
      m ← loading (fun bm => GetSnapshotMergeStatus);
      if bool_decide (m = MERGING)
      then cmd_reboot_with RECOVERY_BOOT_FASTBOOT (bytes "Failed to reboot to fastboot mode")
      else FastbootOkay []
    else if begins Command (bytes "cancel") then
      unlocked ← liftL IsUnlocked;
      if negb unlocked then FastbootFail (bytes "Snapshot Cancel is not allowed in Lock State") else
      Status ← loading (fun bm => SetSnapshotMergeStatus (BM := bm) CANCELLED);
      if negb (is_success Status)
      then FastbootFail (bytes "Failed to update snapshot state to cancel") else
      _ ← modify (set_SnapshotMergeState VabNone);
      FastbootOkay []
    else invalid
  end.

(** ** The table of commands *)
Definition run_command (c : command) (arg : list Z) (data sz : Z) : F unit :=
  match c with
  | CmdFlash => cmd_flash arg data sz
  | CmdErase => cmd_erase arg
  | CmdSetActive => cmd_set_active arg
  | CmdFlashingGetUnlockAbility => cmd_get_unlock_ability
  | CmdFlashingUnlock => SetDeviceUnlock UNLOCK true
  | CmdFlashingLock => SetDeviceUnlock UNLOCK false
  | CmdFlashingUnLockCritical => SetDeviceUnlock UNLOCK_CRITICAL true
  | CmdFlashingLockCritical => SetDeviceUnlock UNLOCK_CRITICAL false
  | CmdOemEnableChargerScreen => set_charger_screen true (bytes "Failed to enable charger screen")
  | CmdOemDisableChargerScreen => set_charger_screen false (bytes "Failed to disable charger screen")
  | CmdOemOffModeCharger => cmd_off_mode_charge arg
  | CmdOemSelectDisplayPanel => cmd_select_display_panel arg
  | CmdOemDisplayCommandLine => cmd_display_cmdline arg
  | CmdOemDevinfo => cmd_oem_devinfo
  | CmdBoot => cmd_boot sz
  | CmdContinue => boot_path
  | CmdGetVar => cmd_getvar arg
  | CmdReboot => cmd_reboot NORMAL_MODE
  | CmdRebootRecovery =>
      cmd_reboot_with RECOVERY_BOOT_RECOVERY (bytes "Failed to reboot to recovery mode")
  | CmdRebootFastboot =>
      cmd_reboot_with RECOVERY_BOOT_FASTBOOT (bytes "Failed to reboot to fastboot mode")
  | CmdUpdateSnapshot => cmd_update_snapshot arg
  | CmdRebootBootloader => cmd_reboot FASTBOOT_MODE
  | CmdDownload => cmd_download arg
  end.

(** The commands in the order they are registered; each goes to the front. *)
Definition cmd_list : list (list Z * command) :=
  [(bytes "flash:", CmdFlash); (bytes "erase:", CmdErase); (bytes "set_active", CmdSetActive);
   (bytes "flashing get_unlock_ability", CmdFlashingGetUnlockAbility);
   (bytes "flashing unlock", CmdFlashingUnlock); (bytes "flashing lock", CmdFlashingLock);
   (bytes "flashing unlock_critical", CmdFlashingUnLockCritical);
   (bytes "flashing lock_critical", CmdFlashingLockCritical); (bytes "boot", CmdBoot);
   (bytes "oem enable-charger-screen", CmdOemEnableChargerScreen);
   (bytes "oem disable-charger-screen", CmdOemDisableChargerScreen);
   (bytes "oem off-mode-charge", CmdOemOffModeCharger);
   (bytes "oem select-display-panel", CmdOemSelectDisplayPanel);
   (bytes "oem device-info", CmdOemDevinfo); (bytes "continue", CmdContinue);
   (bytes "reboot", CmdReboot)] ++
  (if DYNAMIC_PARTITION_SUPPORT then
     [(bytes "reboot-recovery", CmdRebootRecovery); (bytes "reboot-fastboot", CmdRebootFastboot)] ++
     (if VIRTUAL_AB_OTA then [(bytes "snapshot-update", CmdUpdateSnapshot)] else [])
   else []) ++
  [(bytes "reboot-bootloader", CmdRebootBootloader); (bytes "getvar:", CmdGetVar);
   (bytes "download:", CmdDownload); (bytes "oem display-cmdline", CmdOemDisplayCommandLine)].
Definition FastbootRegister (prefix : list Z) (handle : command) : F unit :=
  if negb (PoolAvailable 0 SIZEOF_FASTBOOT_CMD) then mret tt else
  cs ← gets cmdlist; modify (set_cmdlist ((prefix, handle) :: cs)).
Fixpoint register_commands (cs : list (list Z * command)) : F unit :=
  match cs with
  | [] => mret tt
  | (prefix, handle) :: cs' => _ ← FastbootRegister prefix handle; register_commands cs'
  end.

(** The lowest bit of the last byte of the frp partition. *)
Definition ReadAllowUnlockValue : F EFI_STATUS :=
  L ← gets LunInfo;
  found ← storage (fun bm => PartitionGetInfo L (bytes "frp"));
  if negb (is_success (fst found)) then mret (fst found) else
  h ← access (snd found);
  match BlkIo h with
  | None => mret EFI_NOT_FOUND
  | Some blk =>
    if negb (PoolAvailable 0 (BlockSize blk)) then mret EFI_OUT_OF_RESOURCES else
    l ← liftL (lift (gets log));
    let (Status, Buffer) := ReadBlocks l (This blk) (LastBlock blk) (BlockSize blk) in
    if negb (is_success Status) then mret Status else
    b ← access (rd Buffer (BlockSize blk - 1) 1);
    _ ← modify (set_IsAllowUnlock (Z.testbit (le_value b) 0));
    mret Status
  end.

(** ** Accepting a command *)
Fixpoint find_command (Data : list Z) (cs : list (list Z * command)) : option (list Z * command) :=
  match cs with
  | [] => None
  | (prefix, c) :: cs' =>
    if AsciiStrnCmp Data prefix (AsciiStrLen prefix) =? 0 then Some (prefix, c) else find_command Data cs'
  end.

(** While a flash runs, any command but a download waits on a timer: [true]. *)
Definition wait_for_flash (Size : Z) (Data : list Z) : F bool :=
  if begins Data (bytes "download") then mret false else
  _ ← StopUsbTimer;
  complete ← gets IsFlashComplete;
  if negb complete && negb IsUseMThreadParallel then
    if negb (PoolAvailable 0 SIZEOF_CmdInfo) then mret false else
    made ← next_timer;
    if EFI_ERROR (fst made) || negb (is_success (snd made)) then mret false else
    _ ← start_timer (AcceptCmdTimer Size);
    mret true
  else mret false.
(** The failure of the last flash is reported at the next flash or download. *)
Definition report_flash (Data : list Z) : F bool :=
  Result ← gets FlashResult;
  if negb (is_success Result) && (begins Data (bytes "flash") || begins Data (bytes "download")) then
    _ ← FastbootFail (take (MAX_RSP_SIZE - 1)
          (bytes "Error: Last flash failed" ++ bytes " : " ++ print_status Result));
    _ ← modify (set_FlashResult EFI_SUCCESS);
    mret true
  else mret false.
(** [true] when the command is done here. *)
Definition after_flash (Size : Z) (Data : list Z) : F bool :=
  if IsDisableParallelDownloadFlash then mret false else
  waiting ← wait_for_flash Size Data;
  if waiting : bool then mret true else report_flash Data.

(** The battery is looked at once per partition. *)
Definition battery_too_low (Data : list Z) : F bool :=
  if negb EnableBatteryVoltageCheck then mret false else
  first ← gets IsFirstEraseFlash;
  if first : bool then
    if begins Data (bytes "erase") || begins Data (bytes "flash") then
      out ← gets outputs;
      if negb (fst (TargetBatterySocOk (length out))) then
        _ ← FastbootFail (bytes "Warning: battery's capacity is very low" ++ [newline]); mret true
      else _ ← modify (set_IsFirstEraseFlash false); mret false
    else mret false
  else
    _ ← (if begins Data (bytes "getvar:partition-type") then modify (set_IsFirstEraseFlash true)
         else mret tt);
    mret false.

(** [Data] is gRxBuffer. *)
Definition AcceptCmd (Size : Z) : F unit :=
  let Size := if MAX_FASTBOOT_COMMAND_SIZE <? Size then MAX_FASTBOOT_COMMAND_SIZE else Size in
  _ ← store_at (RX_BUFFER + Size) [0];
  rx ← gets RxMem;
  Data ← access (c_string rx 0);
  handled ← after_flash Size Data;
  if handled : bool then mret tt else
  low ← battery_too_low Data;
  if low : bool then mret tt else
  cs ← gets cmdlist;
  match find_command Data cs with
  | Some (prefix, c) =>
    t ← gets Xfer;
    run_command c (drop (AsciiStrLen prefix) Data) (mUsbDataBuffer t) (u32 (mBytesReceivedSoFar t))
  | None => FastbootFail (bytes "unknown command")
  end.

(** ** USB events *)
Definition DataReady (Size Data : Z) : F unit :=
  st ← xfer mState;
  match st : ANDROID_FASTBOOT_STATE with
  | ExpectCmdState => AcceptCmd Size
  | ExpectDataState => AcceptData Size Data
  end.

Definition ProcessBulkXfrCompleteRx (BytesCompleted : Z) : F unit :=
  t ← gets Xfer;
  DataReady BytesCompleted
    (if bool_decide (mState t = ExpectDataState) then mUsbDataBuffer t else RX_BUFFER).

Definition ProcessBulkXfrCompleteTx : F EFI_STATUS :=
  t ← gets Xfer;
  n ← GetXfrSize;
  send (Receive (if bool_decide (mState t = ExpectDataState) then mUsbDataBuffer t else RX_BUFFER) n).

(** What the controller reports: the host connects, it has sent data into the buffer
    of the pending request, a transfer was aborted, an answer was sent. *)
Inductive usb_event :=
| DeviceConnected
| TransferRx (data : list Z)
| TransferAborted
| TransferTx.

(** The controller stores no more than was asked for. *)
Definition HandleUsbEvents (e : usb_event) : F EFI_STATUS :=
  match e with
  | DeviceConnected => send (Receive RX_BUFFER 511)
  | TransferRx data =>
    p ← gets pending;
    addr_size ← access p;
    let (addr, size) := addr_size : Z * Z in
    _ ← store_at addr data;
    _ ← modify (set_pending None);
    _ ← ProcessBulkXfrCompleteRx (Z.of_nat (length data));
    mret EFI_SUCCESS
  | TransferAborted => mret EFI_ABORTED
  | TransferTx => ProcessBulkXfrCompleteTx
  end.

(** A timer fires: the first one of the list. *)
Definition HandleTimer : F unit :=
  ts ← gets timers;
  match ts : list timer_event with
  | [] => crash
  | t :: ts' =>
    _ ← modify (set_timers ts');
    match t with
    | FlashCompleteTimer => FlashCompleteHandler
    | AcceptCmdTimer Size => AcceptCmd Size
    end
  end.
End commands.
