(* ===== verification/FastbootSetup.v ===== *)
(** * The start of Fastboot.

    [FastbootCmds.c]: the search for a download buffer ([GetMaxAllocatableMemory] and
    the loop of [FastbootCmdsInit]), the variables that are published
    ([FastbootCommandSetup], [PublishGetVarPartitionInfo]) and the table of commands;
    [FastbootUsbDeviceStart] of FastbootMain.c as far as it allocates the receive
    buffer. *)
From stdpp Require Import base numbers list option strings.
From Stdlib Require Import ZArith Lia Ascii.
From S2P Require Import Prelude BaseLib Unicode Storage Bytes Gpt Partitions Slots Flash DeviceInfo Recovery Board Fastboot FastbootCmds.
Local Open Scope Z_scope.

Definition EfiConventionalMemory : Z := 7.
Definition MAX_GET_VAR_NAME_SIZE : nat := 32.
Definition NAND_PAGES_PER_BLOCK : Z := 64.
Definition FS_SUPERBLOCK_OFFSET : Z := 0x400.
Definition EXT_MAGIC_OFFSET_SB : Z := 0x38.
Definition EXT_FS_MAGIC : Z := 0xEF53.
Definition F2FS_MAGIC_OFFSET_SB : Z := 0.
Definition F2FS_FS_MAGIC : Z := 0xF2F52010.

Inductive FS_SIGNATURE := EXT_FS_SIGNATURE | F2FS_FS_SIGNATURE | UNKNOWN_FS_SIGNATURE.

Definition EFI_FREE_MEM_DIVISOR (BYTES : Z) : Z := u64 (BYTES * 3) / 4.
Definition LOCAL_ROUND_TO_PAGE (x y : Z) : Z := Z.land (u64 (x + (y - 1))) (u64 (Z.lnot (y - 1))).
Definition EFI_PAGES_TO_SIZE (Pages : Z) : Z := u64 (Z.shiftl Pages 12).

(** The names whose type is not "raw". *)
Definition part_info : list (list Z) := bytes <$> ["system"; "userdata"; "cache"; "metadata"]%string.

(** The boot services and the USB driver at the start: the size of the memory map, its
    descriptors as type and number of pages, the event for fatal errors, and the
    answer to the n-th request for a buffer, its address. *)
Class SetupServices := {
  MemoryMapSize : EFI_STATUS * Z;
  GetMemoryMap : Z -> EFI_STATUS * list (Z * Z);
  FatalErrorEvent : EFI_STATUS;
  AllocateTransferBuffer : nat -> Z -> EFI_STATUS * Z;
  StartUsbDevice : EFI_STATUS;
  (** The bytes of the receive buffer, and whether the other one is allocated. *)
  AllocateRxBuffer : EFI_STATUS * list Z;
  AllocateTxBuffer : EFI_STATUS
}.

Section setup.
Context {FW : Firmware} {BL : BaseLib} {UL : UnicodeLib} {AL : AsciiLib} {BM : BootMode}.
Context {BC : BuildConfig} {LB : LoaderBuild} {VB : VerifiedBootProtocol} {BP : BoardProtocols}.
Context {FE : FastbootEnv} {SS : SetupServices}.

(** ** The download buffer *)
Definition max_free (descs : list (Z * Z)) : Z :=
  fold_left (fun MaxFree d => if (fst d =? EfiConventionalMemory) && (MaxFree <? snd d) then snd d
                              else MaxFree) descs 0.
Definition GetMaxAllocatableMemory : Z :=
  let (Status, MemMapSize) := MemoryMapSize in
  if negb (bool_decide (Status = EFI_BUFFER_TOO_SMALL)) then 0 else
  if CHECK_ADD64 MemMapSize EFI_PAGE_SIZE then 0 else
  let MemMapSize := u64 (MemMapSize + EFI_PAGE_SIZE) in
  if negb (PoolAvailable 0 MemMapSize) then 0 else
  let (Status, MemMap) := GetMemoryMap MemMapSize in
  if EFI_ERROR Status then 0 else EFI_PAGES_TO_SIZE (max_free MemMap).

Definition next_size (MaxDownLoadSize_ : Z) : Z :=
  LOCAL_ROUND_TO_PAGE (EFI_FREE_MEM_DIVISOR MaxDownLoadSize_) EFI_PAGE_SIZE.
(** Rounds of the loop: status, buffer and size. *)
Fixpoint allocate_loop (fuel attempt : nat) (MaxDownLoadSize_ : Z) : option (EFI_STATUS * (Z * Z)) :=
  match fuel with
  | O => fault
  | S fuel' =>
    let size := next_size MaxDownLoadSize_ in
    if size <? MIN_BUFFER_SIZE then Some (EFI_OUT_OF_RESOURCES, (0, size)) else
    let size := if MAX_BUFFER_SIZE <? size then MAX_BUFFER_SIZE else size in
    let (Status, Base_) := AllocateTransferBuffer attempt size in
    if EFI_ERROR Status then allocate_loop fuel' (S attempt) size else Some (Status, (Base_, size))
  end.
(** SetMem of the whole buffer. *)
Definition zero_memory (size : Z) : list Z := repeat 0 (Z.to_nat size).
(** A round takes away more than 16 MiB less a page, and the first size is at most
    1.5 GiB. *)
Definition ALLOCATE_ROUNDS : nat := 100.

(** ** Variables of the partitions *)
(** The block of the super block; a read that fails leaves zeros. *)
Definition CheckPartitionFsSignature (PartName : list Z) : F FS_SIGNATURE :=
  L ← gets LunInfo;
  found ← storage (fun bm => PartitionGetInfo L PartName);
  if negb (is_success (fst found)) then mret UNKNOWN_FS_SIGNATURE else
  h ← access (snd found);
  match BlkIo h with
  | None => mret UNKNOWN_FS_SIGNATURE
  | Some blk =>
    let BlkSz := BlockSize blk in
    if negb (PoolAvailable 0 BlkSz) then mret UNKNOWN_FS_SIGNATURE else
    if BlkSz =? 0 then crash else
    let SuperBlkLba := FS_SUPERBLOCK_OFFSET / BlkSz in
    l ← liftL (lift (gets log));
    let (Status, data) := ReadBlocks l (This blk) SuperBlkLba BlkSz in
    let buf := if is_success Status then data else repeat 0 (Z.to_nat BlkSz) in
    let base := if SuperBlkLba =? 0 then FS_SUPERBLOCK_OFFSET else 0 in
    ext ← access (rd buf (base + EXT_MAGIC_OFFSET_SB) 2);
    if le_value ext =? EXT_FS_MAGIC then mret EXT_FS_SIGNATURE else
    f2fs ← access (rd buf (base + F2FS_MAGIC_OFFSET_SB) 4);
    if le_value f2fs =? F2FS_FS_MAGIC then mret F2FS_FS_SIGNATURE else mret UNKNOWN_FS_SIGNATURE
  end.

Fixpoint partition_type_loop (infos : list (list Z)) (PartName PartType : list Z) : F (list Z) :=
  match infos with
  | [] => mret PartType
  | name :: infos' =>
    if negb (begins PartName name) then partition_type_loop infos' PartName PartType else
    FsSignature ← CheckPartitionFsSignature PartName;
    partition_type_loop infos' PartName
      match FsSignature with
      | EXT_FS_SIGNATURE => bytes "ext4"
      | F2FS_FS_SIGNATURE => bytes "f2fs"
      | UNKNOWN_FS_SIGNATURE => bytes "ext4"
      end
  end.
(** The name is copied into an array of [MAX_GET_VAR_NAME_SIZE] with a larger bound. *)
Definition GetPartitionType (PartName : list Z) : F (list Z) :=
  if (MAX_GET_VAR_NAME_SIZE <=? length PartName)%nat then crash else
  partition_type_loop part_info PartName (bytes "raw").

Definition GetPartitionSizeViaName (PartName : list Z) : F (EFI_STATUS * list Z) :=
  L ← gets LunInfo;
  found ← storage (fun bm => PartitionGetInfo L PartName);
  if negb (is_success (fst found)) then mret (fst found, []) else
  h ← access (snd found);
  match BlkIo h with
  | None => mret (EFI_VOLUME_CORRUPTED, [])
  | Some blk =>
    let PartitionSize := GetPartitionSize (Some blk) in
    if PartitionSize =? 0 then mret (EFI_BAD_BUFFER_SIZE, [])
    else mret (EFI_SUCCESS, take (MAX_RSP_SIZE - 1) (bytes " 0x" ++ print_hex PartitionSize))
  end.

Definition partition_var (prefix name : list Z) : EFI_STATUS * list Z :=
  let start := snd (AsciiStrnCpyS [] MAX_GET_VAR_NAME_SIZE prefix (AsciiStrLen prefix)) in
  AsciiStrnCatS start MAX_GET_VAR_NAME_SIZE name (AsciiStrLen name).

(** The entries from 1 to the number of partitions. *)
Fixpoint publish_partitions (es : list PartitionEntry) (count i : nat) (RetStatus : EFI_STATUS)
  : F EFI_STATUS :=
  match count with
  | O => mret RetStatus
  | S count' =>
    e ← access (es !! i);
    let name := name_of e in
    match name with
    | [] => publish_partitions es count' (S i) RetStatus
    | _ =>
      if (MAX_GET_VAR_NAME_SIZE <=? length name)%nat then crash else
      let (Status, size_str) := partition_var (bytes "partition-size:") name in
      size ← (if EFI_ERROR Status then mret (Status, []) else GetPartitionSizeViaName name);
      let (Status, type_str) := partition_var (bytes "partition-type:") name in
      type_ ← (if EFI_ERROR Status then mret None else t ← GetPartitionType name; mret (Some t));
      RetStatus ← (if is_success (fst size)
                   then _ ← FastbootPublishVar size_str (V_text (snd size)); mret RetStatus
                   else mret EFI_INVALID_PARAMETER);
      RetStatus ← match type_ with
                  | Some t => _ ← FastbootPublishVar type_str (V_text t); mret RetStatus
                  | None => mret EFI_INVALID_PARAMETER
                  end;
      publish_partitions es count' (S i) RetStatus
    end
  end.
Definition PublishGetVarPartitionInfo (NumParts : nat) : F EFI_STATUS :=
  es ← liftL (lift (gets PtnEntries));
  publish_partitions es NumParts 1 EFI_SUCCESS.

(** ** The setup *)
Definition publish_text (Name Value : list Z) : F unit := FastbootPublishVar Name (V_text Value).

Definition publish_merge_status : F unit :=
  if negb VIRTUAL_AB_OTA then mret tt else
  m ← loading (fun bm => GetSnapshotMergeStatus);
  _ ← modify (set_SnapshotMergeState
        (if bool_decide (m = SNAPSHOTTED) then bytes "snapshotted"
         else if bool_decide (m = MERGING) then bytes "merging" else VabNone));
  FastbootPublishVar (bytes "snapshot-update-status") V_merge_state.

Definition publish_block_sizes : F unit :=
  BlkSize ← storage (fun bm => GetPageSize);
  _ ← publish_text (bytes "logical-block-size") (take (MAX_RSP_SIZE - 1) (bytes " 0x" ++ print_hex BlkSize));
  Type_ ← storage (fun bm => CheckRootDeviceType);
  let BlkSize := if bool_decide (Type_ = NAND) then u32 (NAND_PAGES_PER_BLOCK * BlkSize) else BlkSize in
  publish_text (bytes "erase-block-size") (take (MAX_RSP_SIZE - 1) (bytes " 0x" ++ print_hex BlkSize)).

Definition publish_device_state (info : BoardInfo) : F unit :=
  _ ← FastbootPublishVar (bytes "version-bootloader") V_bootloader_version;
  _ ← FastbootPublishVar (bytes "version-baseband") V_radio_version;
  _ ← UpdateGetVarVariable;
  _ ← FastbootPublishVar (bytes "battery-voltage") V_battery_voltage;
  _ ← FastbootPublishVar (bytes "battery-soc-ok") V_battery_soc_ok;
  _ ← FastbootPublishVar (bytes "charger-screen-enabled") V_charger_screen;
  _ ← FastbootPublishVar (bytes "off-mode-charge") V_charger_screen;
  unlocked ← liftL IsUnlocked;
  _ ← publish_text (bytes "unlocked") (yes_no unlocked);
  _ ← publish_text (bytes "hw-revision") (take (MAX_RSP_SIZE - 1) (print_hex (ChipVersion info)));
  publish_text (bytes "parallel-download-flash") (yes_no (negb IsDisableParallelDownloadFlash)).

(** The buffers of the download, and the other half of the memory for a flash. *)
Definition setup_buffers (Base_ Size : Z) : F unit :=
  Type_ ← storage (fun bm => CheckRootDeviceType);
  max ← gets MaxDownLoadSize;
  change_xfer (fun t => mk_transfer (mState t) Size Size (mBytesReceivedSoFar t) Base_
    (if bool_decide (Type_ = NAND) then Base_ else Base_ + max)).

(** [info] is the board information of Board.c, [Serial] the static array of the serial
    number. *)
Definition FastbootCommandSetup (info : BoardInfo) (Serial : list Z) (Base_ Size : Z) : F EFI_STATUS :=
  MultiSlotBoot ← storage (fun bm => PartitionHasMultiSlot (bytes "boot"));
  _ ← setup_buffers Base_ Size;
  serial ← storage (fun bm => BoardSerialNum Serial MAX_RSP_SIZE);
  let (Status, StrSerialNum) := serial : EFI_STATUS * list Z in
  if negb (is_success Status) then mret Status else
  _ ← publish_text (bytes "kernel") (bytes "uefi");
  max ← gets MaxDownLoadSize;
  _ ← publish_text (bytes "max-download-size") (take (MAX_RSP_SIZE - 1) (print_dec max));
  _ ← (if DYNAMIC_PARTITION_SUPPORT then publish_text (bytes "is-userspace") (bytes "no") else mret tt);
  _ ← publish_merge_status;
  _ ← publish_text (bytes "product") (take (MAX_RSP_SIZE - 1) PcdABLProduct);
  _ ← publish_text (bytes "serialno") StrSerialNum;
  _ ← publish_text (bytes "secure") (yes_no IsSecureBootEnabled);
  _ ← (if MultiSlotBoot : bool then
         _ ← storage (fun bm => FindPtnActiveSlot (BM := bm)); PopulateMultislotMetadata
       else mret tt);
  n ← storage (fun bm => GetPartitionCount);
  _ ← PublishGetVarPartitionInfo n;
  DeviceType_ ← storage (fun bm => GetRootDeviceType MAX_RSP_SIZE);
  _ ← publish_text (bytes "variant")
        (take (MAX_RSP_SIZE - 1) (BoardHwPlatformName [] MAX_RSP_SIZE ++ bytes " " ++ DeviceType_));
  _ ← publish_block_sizes;
  _ ← publish_device_state info;
  _ ← register_commands cmd_list;
  ReadAllowUnlockValue.

(** The status of the setup is not looked at. *)
Definition FastbootCmdsInit (info : BoardInfo) (Serial : list Z) : F EFI_STATUS :=
  if EFI_ERROR FatalErrorEvent then mret FatalErrorEvent else
  let free := GetMaxAllocatableMemory in
  if free =? 0 then _ ← modify (set_MaxDownLoadSize 0); mret EFI_OUT_OF_RESOURCES else
  r ← access (allocate_loop ALLOCATE_ROUNDS 0 free);
  let '(Status, (Base_, size)) := r : EFI_STATUS * (Z * Z) in
  _ ← modify (set_MaxDownLoadSize size);
  if negb (is_success Status) then mret Status else
  _ ← modify (set_FastBootBuffer Base_);
  _ ← modify (set_DlMem (zero_memory size));
  Type_ ← storage (fun bm => CheckRootDeviceType);
  let size := if bool_decide (Type_ = NAND) then size else size / 2 in
  _ ← modify (set_MaxDownLoadSize size);
  _ ← FastbootCommandSetup info Serial Base_ size;
  mret EFI_SUCCESS.

Definition FastbootUsbDeviceStart (info : BoardInfo) (Serial : list Z) : F EFI_STATUS :=
  Status ← FastbootCmdsInit info Serial;
  if negb (is_success Status) then mret Status else
  if EFI_ERROR StartUsbDevice then mret EFI_NOT_STARTED else
  let (Status, rx) := AllocateRxBuffer in
  if EFI_ERROR Status then mret EFI_OUT_OF_RESOURCES else
  _ ← modify (set_RxMem rx);
  if EFI_ERROR AllocateTxBuffer then mret EFI_OUT_OF_RESOURCES else mret AllocateTxBuffer.
End setup.
