(* ===== verification/FastbootDemo.v ===== *)
(** * A device to try sessions on: its board, its USB controller and its state. *)
From stdpp Require Import base numbers list option strings.
From Stdlib Require Import ZArith Lia Ascii.
From S2P Require Import Prelude BaseLib Unicode Storage StorageSpec Partitions Slots SlotsSpec Flash DeviceInfo Recovery Board BoardDemo Fastboot FastbootCmds FastbootSetup.
Local Open Scope Z_scope.

Definition demo_LoaderBuild : LoaderBuild := {|
  VERIFIED_BOOT_VERSION := AVB_2; VIRTUAL_AB_OTA := false; PcdABLProduct := bytes "Andromeda" |}.
Definition demo_VerifiedBoot : VerifiedBootProtocol := {|
  LocateVerifiedBoot := EFI_SUCCESS; VBDeviceResetState := EFI_SUCCESS |}.
(** A user build without dynamic partitions. *)
Definition user_BuildConfig : BuildConfig := {|
  USER_BUILD_VARIANT := true; AB_RETRYCOUNT_DISABLE := false; DYNAMIC_PARTITION_SUPPORT := false |}.

Definition demo_rx : list Z := repeat 0 (Z.to_nat USB_BUFFER_SIZE).
Lemma demo_rx_length : Z.of_nat (length demo_rx) = USB_BUFFER_SIZE.
Proof. unfold demo_rx. rewrite repeat_length. by apply Z2Nat.id. Qed.
#[global] Opaque demo_rx.

Definition demo_Fastboot : FastbootEnv := {|
  Send _ _ := EFI_SUCCESS; CreateTimer _ := (EFI_SUCCESS, EFI_SUCCESS);
  IsEnableDisplayMenuFlagSupported := true; DisplayUnlockMenu _ _ := EFI_SUCCESS;
  print_status _ := bytes "Error"; print_dec := demo_print 10;
  LocateUbiFlasher := EFI_NOT_FOUND; UbiFlasherOpen _ := EFI_NOT_FOUND;
  UbiFlasherWrite _ _ := EFI_NOT_FOUND; UbiFlasherClose _ := EFI_NOT_FOUND;
  SetPanelVariable _ := EFI_SUCCESS; GetPanelVariable _ := (EFI_NOT_FOUND, ([], 0%nat));
  StackName := []; BlockIoRefresh := EFI_SUCCESS; RX_BUFFER := 0x70000000;
  DISABLE_PARALLEL_DOWNLOAD_FLASH := false; EnableBatteryVoltageCheck := true
|}.

(** One region of free memory of 256 MiB; the second request is granted. *)
Definition demo_Services : SetupServices := {|
  MemoryMapSize := (EFI_BUFFER_TOO_SMALL, 96);
  GetMemoryMap _ := (EFI_SUCCESS, [(0, 16); (EfiConventionalMemory, 65536)]);
  FatalErrorEvent := EFI_SUCCESS;
  AllocateTransferBuffer n size :=
    if (n =? 0)%nat || (2 ^ 40 <? size) then (EFI_OUT_OF_RESOURCES, 0) else (EFI_SUCCESS, 0x90000000);
  StartUsbDevice := EFI_SUCCESS;
  AllocateRxBuffer := (EFI_SUCCESS, demo_rx);
  AllocateTxBuffer := EFI_SUCCESS
|}.

Definition demo_loader (boot : boot_state) : loader := mk_loader boot zero_dev_info true None.
(** Static variables before the start. *)
Definition demo_start (boot : boot_state) : fastboot :=
  mk_fastboot (demo_loader boot) (mk_transfer ExpectCmdState 0 0 0 0 0) 0 [] [] 0 EFI_SUCCESS true
    false false (mk_lun false NO_LUN) false false None 0 [] [] [] false (mk_strings [] [] [] []) [] []
    [] 0 [] None.
(** A session with two buffers of [n] bytes at 0x90000000, that has received a part of
    the announced bytes when [st] is [ExpectDataState]. *)
Definition demo_session (boot : boot_state) (cmds : list (list Z * command)) (n : Z) (rx : list Z)
    (st : ANDROID_FASTBOOT_STATE) (bytes_ received : Z) (request : option (Z * Z)) : fastboot :=
  mk_fastboot (demo_loader boot) (mk_transfer st bytes_ bytes_ received 0x90000000 (0x90000000 + n))
    0x90000000 (repeat 0 (Z.to_nat (2 * n))) rx n EFI_SUCCESS true
    false false (mk_lun false NO_LUN) false false None 0 [] [] [] false (mk_strings [] [] [] []) [] cmds
    [] 0 [] request.
