(* ===== verification/FastbootSpec.v ===== *)
(** * What a Fastboot session does to the memory and to the device.

    A session is a sequence of USB events and timers.  [session_inv] is the invariant
    of the download: whatever the host sends, the controller is only ever asked to
    store inside of the two buffers.  A device that is locked and may not be unlocked
    stays so and its storage is not touched.  A download that the host completes
    leaves exactly its bytes in the buffer. *)
From stdpp Require Import base numbers list option strings.
From Stdlib Require Import ZArith Lia Ascii.
From S2P Require Import Prelude BaseLib Unicode Storage Bytes StorageSpec Gpt Partitions Slots SlotsSpec Flash DeviceInfo Recovery Board Fastboot FastbootCmds.
Local Open Scope Z_scope.

(** ** Relations every step of a computation respects *)
Definition preserves (R : fastboot -> fastboot -> Prop) {A} (m : F A) : Prop :=
  forall s a s', m s = Some (a, s') -> R s s'.

Section preserves.
Context {R : fastboot -> fastboot -> Prop} {HR : PreOrder R}.

Lemma pr_ret {A} (a : A) : preserves R (mret a).
Proof. intros s x s' [= _ <-]. reflexivity. Qed.
Lemma pr_gets {A} (f : fastboot -> A) : preserves R (gets f).
Proof. intros s x s' [= _ <-]. reflexivity. Qed.
Lemma pr_access {A} (o : option A) : preserves R (access o).
Proof. intros s x s'. unfold access. destruct o; [|done]. intros [= _ <-]. reflexivity. Qed.
Lemma pr_crash {A} : preserves R (crash (A := A)).
Proof. done. Qed.
Lemma pr_modify f : (forall s, R s (f s)) -> preserves R (modify f).
Proof. intros H s x s' [= _ <-]. apply H. Qed.
Lemma pr_bind {A B} (m : F A) (f : A -> F B) :
  preserves R m -> (forall a, preserves R (f a)) -> preserves R (m ≫= f).
Proof.
  intros Hm Hf s b s'. rewrite bind_run. destruct (m s) as [[a s1]|] eqn:E; [|done].
  intros H. transitivity s1; [by eapply Hm|by eapply Hf].
Qed.
End preserves.

Create HintDb frame discriminated.
Ltac frame_step :=
  match goal with
  | |- forall _, _ => intros ?
  | |- preserves _ (_ ≫= _) => apply pr_bind
  | |- preserves _ (mret _) => apply pr_ret
  | |- preserves _ (gets _) => apply pr_gets
  | |- preserves _ (access _) => apply pr_access
  | |- preserves _ crash => apply pr_crash
  | |- preserves _ (if ?b then _ else _) => destruct b
  | |- preserves _ (match ?x with _ => _ end) => destruct x
  | |- preserves _ _ => solve [auto with frame]
  end.
Ltac frame := repeat (cbv zeta; frame_step).

(** ** What the handlers leave alone *)
(** No command waits on a timer; while [c], a finished flash stays finished. *)
Record keeps (c : bool) (s s' : fastboot) : Prop := {
  keeps_xfer : Xfer s' = Xfer s;
  keeps_base : FastBootBuffer s' = FastBootBuffer s;
  keeps_max : MaxDownLoadSize s' = MaxDownLoadSize s;
  keeps_dl : length (DlMem s') = length (DlMem s);
  keeps_rx : length (RxMem s') = length (RxMem s);
  keeps_pending : pending s' = pending s;
  keeps_timers : Forall (eq FlashCompleteTimer) (timers s) -> Forall (eq FlashCompleteTimer) (timers s');
  keeps_complete : c = true -> IsFlashComplete s = true -> IsFlashComplete s' = true
}.
#[export] Instance keeps_preorder c : PreOrder (keeps c).
Proof.
  split; [by split|]. intros s1 s2 s3 [] []. split; try congruence; auto.
Qed.

Lemma wr_length' buf off bs buf' : wr buf off bs = Some buf' -> length buf' = length buf.
Proof.
  unfold wr. case_if; [done|]. intros [= <-]. bool_to_prop.
  rewrite !length_app, length_take, length_drop. lia.
Qed.

Section frame.
Context {FW : Firmware} {BL : BaseLib} {UL : UnicodeLib} {AL : AsciiLib} {BM : BootMode}.
Context {BC : BuildConfig} {LB : LoaderBuild} {VB : VerifiedBootProtocol} {BP : BoardProtocols}.
Context {FE : FastbootEnv}.

Lemma keeps_liftL {c} {A} (m : LD A) : preserves (keeps c) (liftL m).
Proof. intros s a s'. unfold liftL. destruct (m (Ld s)) as [[x l]|]; [|done]. by intros [= _ <-]. Qed.
Lemma keeps_storage {c} {A} (m : BootMode -> B A) : preserves (keeps c) (storage m).
Proof. unfold storage. apply pr_bind; [apply pr_gets|]. intros. apply keeps_liftL. Qed.
Lemma keeps_loading {c} {A} (m : BootMode -> LD A) : preserves (keeps c) (loading m).
Proof. unfold loading. apply pr_bind; [apply pr_gets|]. intros. apply keeps_liftL. Qed.

(** A static variable that is not part of the transfer. *)
Ltac keeps_var := apply pr_modify; by split.

Lemma keeps_modify_lun {c} f : preserves (keeps c) (change_lun f).
Proof. keeps_var. Qed.
Lemma keeps_FlashResult {c} x : preserves (keeps c) (modify (set_FlashResult x)).
Proof. keeps_var. Qed.
Lemma keeps_IsFlashComplete {c} : preserves (keeps c) (modify (set_IsFlashComplete true)).
Proof. keeps_var. Qed.
Lemma keeps_IsFlashComplete_false x : preserves (keeps false) (modify (set_IsFlashComplete x)).
Proof. keeps_var. Qed.
Lemma keeps_UsbTimerStarted {c} x : preserves (keeps c) (modify (set_UsbTimerStarted x)).
Proof. keeps_var. Qed.
Lemma keeps_UsbTimerEvent {c} x : preserves (keeps c) (modify (set_UsbTimerEvent x)).
Proof. keeps_var. Qed.
Lemma keeps_IsFirst {c} x : preserves (keeps c) (modify (set_IsFirstEraseFlash x)).
Proof. keeps_var. Qed.
Lemma keeps_BootSlotInfo {c} x : preserves (keeps c) (modify (set_BootSlotInfo x)).
Proof. keeps_var. Qed.
Lemma keeps_SlotCount {c} x : preserves (keeps c) (modify (set_SlotCount x)).
Proof. keeps_var. Qed.
Lemma keeps_SlotSuffixArray {c} x : preserves (keeps c) (modify (set_SlotSuffixArray x)).
Proof. keeps_var. Qed.
Lemma keeps_CurrentSlotFB {c} x : preserves (keeps c) (modify (set_CurrentSlotFB x)).
Proof. keeps_var. Qed.
Lemma keeps_SnapshotMergeState {c} x : preserves (keeps c) (modify (set_SnapshotMergeState x)).
Proof. keeps_var. Qed.
Lemma keeps_InitialPopulate {c} x : preserves (keeps c) (modify (set_InitialPopulate x)).
Proof. keeps_var. Qed.
Lemma keeps_Varlist {c} x : preserves (keeps c) (modify (set_Varlist x)).
Proof. keeps_var. Qed.
Lemma keeps_timer_calls {c} x : preserves (keeps c) (modify (set_timer_calls x)).
Proof. keeps_var. Qed.
Lemma keeps_strings {c} x : preserves (keeps c) (modify (set_GetVarStrings x)).
Proof. keeps_var. Qed.
Lemma keeps_outputs {c} x : preserves (keeps c) (modify (set_outputs x)).
Proof. keeps_var. Qed.
Lemma keeps_DlMem {c} s dl : length dl = length (DlMem s) -> keeps c s (set_DlMem dl s).
Proof. intros. by split. Qed.
Lemma keeps_RxMem {c} s rx : length rx = length (RxMem s) -> keeps c s (set_RxMem rx s).
Proof. intros. by split. Qed.
End frame.
#[export] Hint Resolve keeps_liftL keeps_storage keeps_loading keeps_modify_lun keeps_FlashResult
  keeps_IsFlashComplete keeps_UsbTimerStarted keeps_UsbTimerEvent keeps_IsFirst keeps_BootSlotInfo
  keeps_SlotCount keeps_SlotSuffixArray keeps_CurrentSlotFB keeps_SnapshotMergeState
  keeps_InitialPopulate keeps_Varlist keeps_IsFlashComplete_false keeps_timer_calls keeps_strings keeps_outputs : frame.

Section handlers.
Context {FW : Firmware} {BL : BaseLib} {UL : UnicodeLib} {AL : AsciiLib} {BM : BootMode}.
Context {BC : BuildConfig} {LB : LoaderBuild} {VB : VerifiedBootProtocol} {BP : BoardProtocols}.
Context {FE : FastbootEnv}.

Lemma keeps_store_at {c} addr data : preserves (keeps c) (store_at addr data).
Proof.
  unfold store_at. intros s a s'. run. case_if.
  - unfold access. destruct (wr (DlMem s) _ _) as [dl|] eqn:E1; [|done]. intros [= _ <-].
    apply keeps_DlMem. by eapply wr_length'.
  - run. unfold access. destruct (wr (RxMem s) _ _) as [rx|] eqn:E1; [|done]. intros [= _ <-].
    apply keeps_RxMem. by eapply wr_length'.
Qed.
Lemma keeps_download_at {c} addr : preserves (keeps c) (download_at addr).
Proof. unfold download_at. frame. Qed.
Lemma keeps_xfer_gets {c} {A} (f : transfer -> A) : preserves (keeps c) (xfer f).
Proof. unfold xfer. frame. Qed.

(** A request that is not a receive. *)
Definition is_receive (o : output) : bool := match o with Receive _ _ => true | _ => false end.
Lemma keeps_send {c} o : is_receive o = false -> preserves (keeps c) (send o).
Proof. unfold send. intros H. destruct o; try done; frame. Qed.
Lemma keeps_Ack {c} code r : preserves (keeps c) (FastbootAck code r).
Proof. unfold FastbootAck. apply pr_bind; [by apply keeps_send|]. frame. Qed.
Lemma keeps_Fail {c} r : preserves (keeps c) (FastbootFail r).
Proof. apply keeps_Ack. Qed.
Lemma keeps_Info {c} r : preserves (keeps c) (FastbootInfo r).
Proof. apply keeps_Ack. Qed.
Lemma keeps_Okay {c} r : preserves (keeps c) (FastbootOkay r).
Proof. apply keeps_Ack. Qed.
End handlers.
#[export] Hint Resolve keeps_store_at keeps_download_at keeps_xfer_gets keeps_Ack keeps_Fail
  keeps_Info keeps_Okay : frame.
#[export] Hint Extern 1 (preserves (keeps _) (send _)) => apply keeps_send; reflexivity : frame.

Section commands.
Context {FW : Firmware} {BL : BaseLib} {UL : UnicodeLib} {AL : AsciiLib} {BM : BootMode}.
Context {BC : BuildConfig} {LB : LoaderBuild} {VB : VerifiedBootProtocol} {BP : BoardProtocols}.
Context {FE : FastbootEnv}.

(** ** The helpers of the handlers *)
Lemma keeps_next_timer {c} : preserves (keeps c) next_timer.
Proof. unfold next_timer. frame. Qed.
Lemma keeps_start_timer {c} : preserves (keeps c) (start_timer FlashCompleteTimer).
Proof.
  unfold start_timer. intros s a s'. run. intros [= _ <-]. split; try done.
  intros H. cbn. apply Forall_app. split; [done|by constructor].
Qed.
Lemma keeps_StopUsbTimer {c} : preserves (keeps c) StopUsbTimer.
Proof. unfold StopUsbTimer. frame. Qed.
Lemma keeps_GetXfrSize {c} : preserves (keeps c) GetXfrSize.
Proof. unfold GetXfrSize. frame. Qed.
Lemma keeps_publish {c} n v : preserves (keeps c) (FastbootPublishVar n v).
Proof. unfold FastbootPublishVar. frame. Qed.
Lemma keeps_slot_info {c} j : preserves (keeps c) (slot_info j).
Proof. unfold slot_info. frame. Qed.
Lemma keeps_store_slot_info {c} j i : preserves (keeps c) (store_slot_info j i).
Proof. unfold store_slot_info. frame. Qed.
Lemma keeps_update_current_slot {c} : preserves (keeps c) update_current_slot.
Proof. unfold update_current_slot. frame. Qed.
#[local] Hint Resolve keeps_next_timer keeps_start_timer keeps_StopUsbTimer keeps_GetXfrSize
  keeps_publish keeps_slot_info keeps_store_slot_info keeps_update_current_slot : frame.

Lemma keeps_UsbTimer {c} : preserves (keeps c) HandleUsbEventsInTimer.
Proof. unfold HandleUsbEventsInTimer. frame. Qed.
Lemma keeps_OkayDelay {c} : preserves (keeps c) FastbootOkayDelay.
Proof. unfold FastbootOkayDelay. frame. Qed.
Lemma keeps_FlashComplete {c} : preserves (keeps c) FlashCompleteHandler.
Proof. unfold FlashCompleteHandler. frame. Qed.
Lemma keeps_clear_rest {c} d : preserves (keeps c) (clear_rest d).
Proof. unfold clear_rest. frame. Qed.

Lemma keeps_publish_slots {c} es count i j : preserves (keeps c) (publish_slots es count i j).
Proof. revert i j. induction count; cbn [publish_slots]; frame. Qed.
Lemma keeps_count_slots {c} es count i : preserves (keeps c) (count_slots es count i).
Proof. revert i. induction count; cbn [count_slots]; frame. Qed.
Lemma keeps_reset_infos {c} count i : preserves (keeps c) (reset_infos count i).
Proof. revert i. induction count; cbn [reset_infos]; frame. Qed.
Lemma keeps_update_attr_loop {c} t count j : preserves (keeps c) (update_attr_loop t count j).
Proof. revert j. induction count; cbn [update_attr_loop]; frame. Qed.
Lemma keeps_set_active_loop {c} t count j : preserves (keeps c) (set_active_loop t count j).
Proof. revert j. induction count; cbn [set_active_loop]; frame. Qed.
#[local] Hint Resolve keeps_UsbTimer keeps_OkayDelay keeps_FlashComplete keeps_clear_rest
  keeps_publish_slots keeps_count_slots keeps_reset_infos keeps_update_attr_loop
  keeps_set_active_loop : frame.

Lemma keeps_PublishSlotVars {c} : preserves (keeps c) FastbootPublishSlotVars.
Proof. unfold FastbootPublishSlotVars. frame. Qed.
#[local] Hint Resolve keeps_PublishSlotVars : frame.
Lemma keeps_Populate {c} : preserves (keeps c) PopulateMultislotMetadata.
Proof. unfold PopulateMultislotMetadata. frame. Qed.
Lemma keeps_ClearAB {c} : preserves (keeps c) ClearFastbootVarsofAB.
Proof. unfold ClearFastbootVarsofAB. frame. Qed.
Lemma keeps_UpdateAttr {c} t : preserves (keeps c) (FastbootUpdateAttr t).
Proof. unfold FastbootUpdateAttr. frame. Qed.
Lemma keeps_partition_device {c} n : preserves (keeps c) (partition_device n).
Proof. unfold partition_device. frame. Qed.
Lemma keeps_slot_of_name {c} b n : preserves (keeps c) (slot_of_name b n).
Proof. unfold slot_of_name. frame. Qed.
#[local] Hint Resolve keeps_Populate keeps_ClearAB keeps_UpdateAttr keeps_partition_device
  keeps_slot_of_name : frame.
Lemma keeps_Raw {c} n i z : preserves (keeps c) (HandleRawImgFlash n i z).
Proof. unfold HandleRawImgFlash. frame. Qed.
Lemma keeps_Ubi {c} n i z : preserves (keeps c) (HandleUbiImgFlash n i z).
Proof. unfold HandleUbiImgFlash. frame. Qed.
#[local] Hint Resolve keeps_Raw keeps_Ubi : frame.
Lemma keeps_meta_images {c} i b e k o t : preserves (keeps c) (meta_images i b e k o t).
Proof. revert o t. induction k; cbn [meta_images]; frame. Qed.
#[local] Hint Resolve keeps_meta_images : frame.
Lemma keeps_Meta {c} n i b z : preserves (keeps c) (HandleMetaImgFlash n i b z).
Proof. unfold HandleMetaImgFlash. frame. Qed.
Lemma keeps_Erase {c} n : preserves (keeps c) (FastbootErasePartition n).
Proof. unfold FastbootErasePartition. frame. Qed.
Lemma keeps_Reenumerate {c} : preserves (keeps c) ReenumeratePartTable.
Proof. unfold ReenumeratePartTable. frame. Qed.
Lemma keeps_lock_refusal {c} w n : preserves (keeps c) (lock_refusal w n).
Proof. unfold lock_refusal. frame. Qed.
Lemma keeps_VirtualAb {c} n : preserves (keeps c) (CheckVirtualAbCriticalPartition n).
Proof. unfold CheckVirtualAbCriticalPartition. frame. Qed.
#[local] Hint Resolve keeps_Meta keeps_Erase keeps_Reenumerate keeps_lock_refusal
  keeps_VirtualAb : frame.
Lemma keeps_snapshot_refusal {c} w n : preserves (keeps c) (snapshot_refusal w n).
Proof. unfold snapshot_refusal. frame. Qed.
Lemma keeps_table_device {c} d : preserves (keeps c) (prepare_table_device d).
Proof. unfold prepare_table_device. frame. Qed.
Lemma keeps_parallel z t : preserves (keeps false) (start_parallel z t).
Proof. unfold start_parallel. frame. Qed.
Lemma keeps_flash_answer {c} n : preserves (keeps c) (flash_answer n).
Proof. unfold flash_answer. frame. Qed.
Lemma keeps_flash_out {c} n : preserves (keeps c) (flash_out n).
Proof. unfold flash_out. frame. Qed.
Lemma keeps_parse_lun {c} n : preserves (keeps c) (parse_lun n).
Proof. unfold parse_lun. frame. Qed.
Lemma keeps_user_key {c} d z : preserves (keeps c) (store_user_key d z).
Proof. unfold store_user_key. frame. Qed.
#[local] Hint Resolve keeps_snapshot_refusal keeps_table_device keeps_parallel keeps_flash_answer
  keeps_flash_out keeps_parse_lun keeps_user_key : frame.
Lemma keeps_flash_table {c} n d : preserves (keeps c) (flash_partition_table n d).
Proof. unfold flash_partition_table. frame. Qed.
(** A flash that was started is complete in the end. *)
Lemma keeps_completed {c} {A B} (m : F A) (f : A -> F B) :
  preserves (keeps false) m -> (forall a, preserves (keeps c) (f a)) ->
  preserves (keeps c) (a ← m; _ ← modify (set_IsFlashComplete true); f a).
Proof.
  intros Hm Hf s b s'. rewrite bind_run. destruct (m s) as [[x s1]|] eqn:E; [|done].
  rewrite bind_run. cbn. intros H. transitivity (set_IsFlashComplete true s1); [|by eapply Hf].
  destruct (Hm _ _ _ E). by split.
Qed.
Lemma keeps_sparse_flash n i z L t : preserves (keeps false) (sparse_flash n i z L t).
Proof. unfold sparse_flash. apply pr_bind; [apply keeps_parallel|]. frame. Qed.
Lemma keeps_flash_sparse {c} n i : preserves (keeps c) (flash_sparse n i).
Proof.
  unfold flash_sparse. repeat (lazymatch goal with
    | |- preserves _ (sparse_flash _ _ _ _ _ ≫= _) =>
        apply keeps_completed; [apply keeps_sparse_flash|]
    | _ => frame_step
    end; cbv zeta).
Qed.
#[local] Hint Resolve keeps_flash_table keeps_flash_sparse : frame.
Lemma keeps_flash_image {c} n : preserves (keeps c) (flash_image n).
Proof. unfold flash_image. frame. Qed.
Lemma keeps_cmd_erase {c} n : preserves (keeps c) (cmd_erase n).
Proof. unfold cmd_erase. frame. Qed.
Lemma keeps_cmd_set_active {c} n : preserves (keeps c) (cmd_set_active n).
Proof. unfold cmd_set_active. frame. Qed.
Lemma keeps_DeviceUnlock {c} t b : preserves (keeps c) (SetDeviceUnlock t b).
Proof. unfold SetDeviceUnlock. frame. Qed.
Lemma keeps_battery {c} d : preserves (keeps c) (battery_too_low d).
Proof. unfold battery_too_low. frame. Qed.
Lemma keeps_report {c} d : preserves (keeps c) (report_flash d).
Proof. unfold report_flash. frame. Qed.
#[local] Hint Resolve keeps_flash_image keeps_snapshot_refusal keeps_report keeps_battery : frame.
Lemma keeps_reboot {c} m : preserves (keeps c) (cmd_reboot m).
Proof. unfold cmd_reboot. frame. Qed.
#[local] Hint Resolve keeps_reboot : frame.
Lemma keeps_reboot_with {c} x y : preserves (keeps c) (cmd_reboot_with x y).
Proof. unfold cmd_reboot_with. frame. Qed.
#[local] Hint Resolve keeps_cmd_erase keeps_cmd_set_active keeps_DeviceUnlock keeps_reboot_with : frame.
Lemma keeps_var_string {c} v : preserves (keeps c) (var_string v).
Proof. destruct v; cbn [var_string]; unfold slot_info; frame. Qed.
#[local] Hint Resolve keeps_var_string : frame.
Lemma keeps_send_all {c} vs : preserves (keeps c) (send_all vs).
Proof. induction vs as [|[name v] vs IH]; cbn [send_all]; frame. Qed.
#[local] Hint Resolve keeps_send_all : frame.
Lemma keeps_getvar {c} arg : preserves (keeps c) (cmd_getvar arg).
Proof. unfold cmd_getvar, UpdateGetVarVariable, CmdGetVarAll, partition_variable. frame. Qed.
Lemma keeps_display_panel {c} arg : preserves (keeps c) (cmd_select_display_panel arg).
Proof. unfold cmd_select_display_panel, appended_panel. frame. Qed.
#[local] Hint Resolve keeps_getvar keeps_display_panel : frame.

(** Every command but a download keeps the transfer, when the buffers of a flash
    were exchanged before. *)
Lemma keeps_run_command {c} k arg data sz :
  k <> CmdFlash -> k <> CmdDownload -> preserves (keeps c) (run_command k arg data sz).
Proof.
  intros H1 H2. destruct k; try done; cbn [run_command];
    unfold cmd_get_unlock_ability, set_charger_screen, cmd_oem_devinfo, cmd_update_snapshot,
      cmd_off_mode_charge, cmd_display_cmdline, cmd_boot, boot_path; frame.
Qed.

(** ** The invariant of a session *)
(** The controller may store [size] bytes at [addr]. *)
Definition request_ok (s : fastboot) (addr size : Z) : Prop :=
  0 <= size /\
  ((addr = RX_BUFFER /\ size <= Z.of_nat (length (RxMem s))) \/
   (FastBootBuffer s <= addr /\ addr + size <= FastBootBuffer s + Z.of_nat (length (DlMem s)))).

(** A buffer of the download: [MaxDownLoadSize] bytes of the allocated memory. *)
Definition buffer_ok (s : fastboot) (b : Z) : Prop :=
  FastBootBuffer s <= b /\
  b + MaxDownLoadSize s <= FastBootBuffer s + Z.of_nat (length (DlMem s)).

Record session_inv (s : fastboot) : Prop := {
  inv_usb : buffer_ok s (mUsbDataBuffer (Xfer s));
  inv_flash : buffer_ok s (mFlashDataBuffer (Xfer s));
  inv_base : 0 < FastBootBuffer s /\ FastBootBuffer s + Z.of_nat (length (DlMem s)) < 2 ^ 64;
  inv_rx : Z.of_nat (length (RxMem s)) = USB_BUFFER_SIZE;
  inv_data : mState (Xfer s) = ExpectDataState ->
    0 <= mBytesReceivedSoFar (Xfer s) < mNumDataBytes (Xfer s) /\
    mNumDataBytes (Xfer s) <= MaxDownLoadSize s;
  inv_pending : forall addr size, pending s = Some (addr, size) -> request_ok s addr size;
  inv_timers : Forall (eq FlashCompleteTimer) (timers s);
  inv_complete : IsFlashComplete s = true
}.

Lemma keeps_session s s' : keeps true s s' -> session_inv s -> session_inv s'.
Proof.
  intros [Kx Kb Km Kd Kr Kp Kt Kc] [I1 I2 I3 I4 I5 I6 I7 I8].
  split; unfold buffer_ok, request_ok in *; rewrite ?Kx, ?Kb, ?Km, ?Kd, ?Kr, ?Kp; auto.
Qed.

(** Triples: from [P], a run that returns ends in [Q]. *)
Definition triple (P : fastboot -> Prop) {A} (m : F A) (Q : fastboot -> Prop) : Prop :=
  forall s a s', P s -> m s = Some (a, s') -> Q s'.
Lemma tr_bind {A B} P P' Q (m : F A) (f : A -> F B) :
  triple P m P' -> (forall a, triple P' (f a) Q) -> triple P (m ≫= f) Q.
Proof.
  intros Hm Hf s b s' HP. rewrite bind_run. destruct (m s) as [[a s1]|] eqn:E; [|done].
  intros H. eapply Hf; [|exact H]. by eapply Hm.
Qed.
Lemma tr_gets {A B} P Q (f : fastboot -> A) (g : A -> F B) :
  (forall s, P s -> triple (fun s' => s' = s) (g (f s)) Q) -> triple P (gets f ≫= g) Q.
Proof. intros H s b s' HP. rewrite bind_run. cbn. intros Hg. by eapply (H s). Qed.
Lemma tr_keeps {A} P (m : F A) :
  preserves (keeps true) m -> (forall s s', P s -> keeps true s s' -> P s') -> triple P m P.
Proof. intros Hm HP s a s' Hs H. eapply HP; [exact Hs|]. by eapply Hm. Qed.

(** The invariant, in the state that expects a command. *)
Definition idle (s : fastboot) : Prop := session_inv s /\ mState (Xfer s) = ExpectCmdState.
Lemma idle_keeps {A} (m : F A) : preserves (keeps true) m -> triple idle m idle.
Proof.
  intros Hm. apply tr_keeps; [done|]. intros s s' [Hi Hc] K. split; [by eapply keeps_session|].
  by rewrite (keeps_xfer _ _ _ K).
Qed.
Lemma tr_weaken {A} P (m : F A) (Q Q' : fastboot -> Prop) :
  triple P m Q -> (forall s, Q s -> Q' s) -> triple P m Q'.
Proof. intros H HQ s a s' HP Hr. by eapply HQ, H. Qed.
Lemma idle_to_inv {A} (m : F A) : preserves (keeps true) m -> triple idle m session_inv.
Proof. intros Hm. eapply tr_weaken; [by apply idle_keeps|]. by intros s []. Qed.
Lemma inv_keeps {A} (m : F A) : preserves (keeps true) m -> triple session_inv m session_inv.
Proof. intros Hm. apply tr_keeps; [done|]. intros s s' Hi K. by eapply keeps_session. Qed.
End commands.
