(* ===== verification/FastbootSafe.v ===== *)
(** * Every session keeps the invariant of the download. *)
From stdpp Require Import base numbers list option strings relations.
From Stdlib Require Import ZArith Lia Ascii.
From S2P Require Import Prelude BaseLib Unicode Storage Bytes StorageSpec Gpt Partitions Slots SlotsSpec Flash DeviceInfo Recovery Board BoardDemo Fastboot FastbootCmds FastbootSetup FastbootDemo FastbootSpec.
Local Open Scope Z_scope.

Section session.
Context {FW : Firmware} {BL : BaseLib} {UL : UnicodeLib} {AL : AsciiLib} {BM : BootMode}.
Context {BC : BuildConfig} {LB : LoaderBuild} {VB : VerifiedBootProtocol} {BP : BoardProtocols}.
Context {FE : FastbootEnv}.
Context {ALL : AsciiLibLaws AL}.

Lemma tr_if {A} P Q (b : bool) (m1 m2 : F A) :
  triple P m1 Q -> triple P m2 Q -> triple P (if b then m1 else m2) Q.
Proof. by destruct b. Qed.

(** ** Commands *)
Lemma set_num_inv n s : idle s -> idle (set_Xfer (set_mNumDataBytes n (Xfer s)) s).
Proof. intros [[] Hc]. split; [|done]. split; try done. cbn. by rewrite Hc. Qed.

Lemma set_num_fail n s r a s' :
  idle s -> FastbootFail r (set_Xfer (set_mNumDataBytes n (Xfer s)) s) = Some (a, s') -> session_inv s'.
Proof.
  intros Hi Hr. eapply (idle_to_inv (FastbootFail r)); [apply keeps_Fail| |exact Hr].
  by apply set_num_inv.
Qed.

Lemma download_inv arg : triple idle (cmd_download arg) session_inv.
Proof.
  intros s a s' Hi. unfold cmd_download, change_xfer. run. set (n := AsciiStrHexToUint64 arg).
  assert (Hr : in_u64 n) by apply AsciiStrHexToUint64_range. unfold in_u64 in Hr.
  destruct (Z.eqb_spec n 0) as [|Hn]; [by apply set_num_fail|].
  run. change (MaxDownLoadSize (set_Xfer (set_mNumDataBytes n (Xfer s)) s)) with (MaxDownLoadSize s).
  destruct (Z.ltb_spec (MaxDownLoadSize s) n) as [|Hmax]; [by apply set_num_fail|].
  run. intros Hsend.
  eapply (inv_keeps (_ ← send (Transmit _); mret tt)); [| |rewrite bind_run; exact Hsend].
  { apply pr_bind; [by apply keeps_send|]. intros. apply pr_ret. }
  destruct Hi as [[I1 I2 I3 I4 I5 I6 I7 I8] Hc]. split; try done. cbn. intros _. lia.
Qed.

Lemma exchange_inv : triple idle ExchangeFlashAndUsbDataBuf idle.
Proof.
  intros s a s' [[I1 I2 I3 I4 I5 I6 I7 I8] Hc]. unfold ExchangeFlashAndUsbDataBuf, change_xfer.
  intros [= _ <-]. by split; [split|].
Qed.

Lemma flash_inv arg data sz : triple idle (cmd_flash arg data sz) session_inv.
Proof.
  unfold cmd_flash. apply (tr_bind _ idle); [apply idle_keeps; auto with frame|]. intros _.
  apply (tr_bind _ idle); [apply exchange_inv|]. intros _. apply idle_to_inv.
  repeat first [apply keeps_lock_refusal | apply keeps_snapshot_refusal | apply keeps_user_key
    | apply keeps_parse_lun | apply keeps_flash_out | apply keeps_flash_table
    | apply keeps_flash_image | frame_step].
Qed.

Lemma run_command_inv k arg data sz : triple idle (run_command k arg data sz) session_inv.
Proof.
  destruct (decide (k = CmdFlash)) as [->|H1]; [apply flash_inv|].
  destruct (decide (k = CmdDownload)) as [->|H2]; [apply download_inv|].
  apply idle_to_inv. by apply keeps_run_command.
Qed.

(** With the flash complete no command is put off. *)
Lemma wait_idle Size Data : triple idle (wait_for_flash Size Data) idle.
Proof.
  unfold wait_for_flash. apply tr_if; [apply idle_keeps, pr_ret|].
  apply (tr_bind _ idle); [apply idle_keeps, keeps_StopUsbTimer|]. intros _.
  apply tr_gets. intros s Hs. rewrite (inv_complete s (proj1 Hs)). cbn [negb andb].
  by intros s1 a s' -> [= _ <-].
Qed.

Lemma AcceptCmd_inv Size : triple idle (AcceptCmd Size) session_inv.
Proof.
  unfold AcceptCmd. cbv zeta. apply (tr_bind _ idle); [apply idle_keeps, keeps_store_at|]. intros _.
  apply (tr_bind _ idle); [apply idle_keeps, pr_gets|]. intros rx.
  apply (tr_bind _ idle); [apply idle_keeps, pr_access|]. intros Data.
  apply (tr_bind _ idle).
  { unfold after_flash. apply tr_if; [apply idle_keeps, pr_ret|].
    apply (tr_bind _ idle); [apply wait_idle|]. intros w. apply idle_keeps.
    destruct w; [apply pr_ret|apply keeps_report]. }
  intros handled. apply tr_if; [apply idle_to_inv, pr_ret|].
  apply (tr_bind _ idle); [apply idle_keeps, keeps_battery|]. intros low.
  apply tr_if; [apply idle_to_inv, pr_ret|].
  apply (tr_bind _ idle); [apply idle_keeps, pr_gets|]. intros cs.
  destruct (find_command Data cs) as [[prefix c]|]; [|apply idle_to_inv, keeps_Fail].
  apply (tr_bind _ idle); [apply idle_keeps, pr_gets|]. intros t. apply run_command_inv.
Qed.

(** ** Receiving data *)
(** A new receive request inside of the memory keeps the invariant. *)
Lemma receive_inv addr size s a s' :
  session_inv s -> request_ok s addr size -> send (Receive addr size) s = Some (a, s') ->
  session_inv s'.
Proof.
  intros Hi Hr. unfold send. run. case_if; intros [= _ <-];
    (destruct Hi as [I1 I2 I3 I4 I5 I6 I7 I8]; split; try done).
  cbn. by intros ? ? [= <- <-].
Qed.

Lemma xfer_size s :
  exists n, GetXfrSize s = Some (n, s) /\
    n = let left_ := u64 (mNumDataBytes (Xfer s) - mBytesReceivedSoFar (Xfer s)) in
        if bool_decide (mState (Xfer s) = ExpectDataState) && (left_ <? USB_BUFFER_SIZE)
        then left_ else USB_BUFFER_SIZE.
Proof. unfold GetXfrSize. run. cbv zeta. eexists. by split. Qed.

(** In the data state the size asked for is what is left, at most. *)
Lemma xfer_size_data s n :
  session_inv s -> mState (Xfer s) = ExpectDataState -> GetXfrSize s = Some (n, s) ->
  0 < n <= mNumDataBytes (Xfer s) - mBytesReceivedSoFar (Xfer s).
Proof.
  intros Hi Hd Hx. destruct (xfer_size s) as (n' & Hx' & Hn). rewrite Hx in Hx'.
  injection Hx' as <-. rewrite Hn, Hd, bool_decide_true by done. cbn [andb].
  destruct (inv_data s Hi Hd) as [H1 H2]. pose proof (inv_base s Hi) as [H3 H4].
  pose proof (inv_usb s Hi) as [H5 H6]. cbv zeta. rewrite u64_small by (unfold in_u64; lia).
  unfold USB_BUFFER_SIZE. case_if; bool_to_prop; lia.
Qed.

Lemma data_request s off n :
  session_inv s -> 0 <= off -> 0 <= n -> off + n <= MaxDownLoadSize s ->
  request_ok s (u64 (mUsbDataBuffer (Xfer s) + off)) n.
Proof.
  intros Hi Ho Hn Hm. pose proof (inv_base s Hi) as [H3 H4]. pose proof (inv_usb s Hi) as [H5 H6].
  rewrite u64_small by (unfold in_u64; lia). split; [done|]. right. lia.
Qed.

Lemma AcceptData_inv Size s a s' :
  session_inv s -> mState (Xfer s) = ExpectDataState -> 0 <= Size ->
  AcceptData Size (mUsbDataBuffer (Xfer s)) s = Some (a, s') -> session_inv s'.
Proof.
  intros Hi Hd HS. destruct (inv_data s Hi Hd) as [Hr Hm]. pose proof (inv_base s Hi) as [HB HE].
  pose proof (inv_usb s Hi) as [HU1 HU2].
  unfold AcceptData. run. cbv zeta.
  rewrite (u64_small (mNumDataBytes (Xfer s) - _)) by (unfold in_u64; lia).
  set (Size' := if _ <? Size then _ else _).
  assert (HS' : 0 <= Size' <= mNumDataBytes (Xfer s) - mBytesReceivedSoFar (Xfer s)).
  { unfold Size'. case_if; bool_to_prop; lia. }
  rewrite u64_small by (unfold in_u64; lia).
  set (got := mBytesReceivedSoFar (Xfer s) + Size') in *.
  unfold change_xfer. run. set (s1 := set_Xfer _ s).
  destruct (Z.eqb_spec got (mNumDataBytes (Xfer s))) as [He|He].
  - rewrite bind_run. destruct (clear_rest _ s1) as [[x s2]|] eqn:Hc; [|done].
    pose proof (keeps_clear_rest (c := true) _ _ _ _ Hc) as [Kx Kb Km Kd Kr Kp Kt Kc].
    run. intros Hrun.
    assert (H3 : session_inv (set_Xfer (set_mState ExpectCmdState (Xfer s2)) s2)).
    { destruct Hi as [I1 I2 I3 I4 I5 I6 I7 I8].
      split; unfold buffer_ok, request_ok in *; cbn; rewrite ?Kx, ?Kb, ?Km, ?Kd, ?Kr, ?Kp; auto. done. }
    eapply (inv_keeps (_ ← StopUsbTimer; _ ← FastbootOkayDelay; mret tt)); [|exact H3|exact Hrun].
    apply pr_bind; [apply keeps_StopUsbTimer|]. intros _.
    apply pr_bind; [apply keeps_OkayDelay|]. intros _. apply pr_ret.
  - assert (H1 : session_inv s1).
    { destruct Hi as [I1 I2 I3 I4 I5 I6 I7 I8]. split; try done. cbn. intros _. lia. }
    rewrite bind_run. destruct (xfer_size s1) as (n & Hx & _). rewrite Hx.
    pose proof (xfer_size_data s1 n H1 Hd Hx) as Hn. cbn in Hn.
    rewrite bind_run. destruct (send _ s1) as [[st s2]|] eqn:Hsend; [|done]. intros [= _ <-].
    eapply receive_inv; [exact H1| |exact Hsend]. apply (data_request s1 got n H1); cbn; lia.
Qed.

(** ** USB events and timers *)
Lemma HandleUsbEvents_inv e : triple session_inv (HandleUsbEvents e) session_inv.
Proof.
  destruct e as [|data| |]; cbn [HandleUsbEvents].
  - intros s a s' Hi Hs. eapply receive_inv; [done| |exact Hs]. split; [lia|]. left. split; [done|].
    rewrite (inv_rx s Hi). unfold USB_BUFFER_SIZE. lia.
  - apply (tr_bind _ session_inv); [apply inv_keeps, pr_gets|]. intros p.
    apply (tr_bind _ session_inv); [apply inv_keeps, pr_access|]. intros [addr size].
    apply (tr_bind _ session_inv); [apply inv_keeps, keeps_store_at|]. intros _.
    apply (tr_bind _ session_inv).
    { intros s a s' [I1 I2 I3 I4 I5 I6 I7 I8] [= _ <-]. by split. }
    intros _. apply (tr_bind _ session_inv); [|intros _; apply inv_keeps, pr_ret].
    unfold ProcessBulkXfrCompleteRx. apply tr_gets. intros s Hi. unfold DataReady, xfer.
    intros s1 a s' ->. run. destruct (mState (Xfer s)) eqn:Hd.
    + intros H. eapply AcceptCmd_inv; [by split|exact H].
    + rewrite bool_decide_true by done. intros H. eapply AcceptData_inv; [done|done| |exact H]. lia.
  - apply inv_keeps, pr_ret.
  - intros s a s' Hi. unfold ProcessBulkXfrCompleteTx. run.
    destruct (xfer_size s) as (n & Hx & Hn). rewrite Hx. intros Hs.
    eapply receive_inv; [done| |exact Hs]. destruct (mState (Xfer s)) eqn:Hd.
    + rewrite bool_decide_false by done. rewrite Hn, bool_decide_false by done. cbn [andb].
      split; [unfold USB_BUFFER_SIZE; lia|]. left. split; [done|]. rewrite (inv_rx s Hi). lia.
    + rewrite bool_decide_true by done. pose proof (xfer_size_data s n Hi Hd Hx).
      destruct (inv_data s Hi Hd). pose proof (inv_base s Hi) as [H3 H4].
      pose proof (inv_usb s Hi) as [H5 H6]. split; [lia|]. right. lia.
Qed.

Lemma HandleTimer_inv : triple session_inv HandleTimer session_inv.
Proof.
  unfold HandleTimer. apply tr_gets. intros s Hi. pose proof (inv_timers s Hi) as Ht.
  destruct (timers s) as [|t ts] eqn:Et; [done|]. apply Forall_cons in Ht as [<- Ht].
  intros s1 a s' ->. run. intros H. eapply (inv_keeps FlashCompleteHandler); [apply keeps_FlashComplete| |exact H].
  destruct Hi as [I1 I2 I3 I4 I5 I6 I7 I8]. by split.
Qed.

(** ** Sessions *)
(** One step: the controller reports an event, with no more data than it was asked
    for, or a timer fires. *)
Inductive session_step (s s' : fastboot) : Prop :=
| step_usb e Status : HandleUsbEvents e s = Some (Status, s') -> session_step s s'
| step_timer : HandleTimer s = Some (tt, s') -> session_step s s'.

Lemma session_step_inv s s' : session_inv s -> session_step s s' -> session_inv s'.
Proof.
  intros Hi [e st H|H]; [by eapply HandleUsbEvents_inv|by eapply HandleTimer_inv].
Qed.

Lemma store_at_ok s addr size data :
  session_inv s -> request_ok s addr size -> Z.of_nat (length data) <= size ->
  is_Some (store_at addr data s).
Proof.
  intros Hi [Hs Hr] Hl. unfold store_at. run. case_if.
  - bool_to_prop. unfold wr. rewrite (proj2 (orb_false_iff _ _)); [by eexists|].
    split; [apply Z.ltb_ge; lia|apply Z.ltb_ge; lia].
  - run. apply andb_false_iff in E. destruct Hr as [[-> Hr]|[H1 H2]].
    + unfold wr. rewrite (proj2 (orb_false_iff _ _)); [by eexists|].
      split; [apply Z.ltb_ge; lia|apply Z.ltb_ge; lia].
    + destruct E as [E|E]; apply Z.leb_gt in E; lia.
Qed.

(** C1 Whatever the host sends, in any number of packets and in any
    order of events and timers, the USB controller is never asked to store outside of
    the download memory and the receive buffer, and what it may send fits there; while
    data is expected it is fewer bytes than announced, and the announced size fits the
    buffer. *)
Theorem session_memory_safe s0 s :
  session_inv s0 -> rtc session_step s0 s ->
  (forall addr size data, pending s = Some (addr, size) -> Z.of_nat (length data) <= size ->
     request_ok s addr size /\ is_Some (store_at addr data s)) /\
  (mState (Xfer s) = ExpectDataState ->
     0 <= mBytesReceivedSoFar (Xfer s) < mNumDataBytes (Xfer s) /\
     mNumDataBytes (Xfer s) <= MaxDownLoadSize s).
Proof.
  intros H0 Hr. assert (Hi : session_inv s).
  { induction Hr as [|s1 s2 s3 H12 _ IH]; [done|]. apply IH. by eapply session_step_inv. }
  split; [|apply (inv_data s Hi)]. intros addr size data Hp Hl.
  pose proof (inv_pending s Hi _ _ Hp) as Hq. split; [done|]. by eapply store_at_ok.
Qed.
End session.

#[local] Existing Instances demo_Firmware reference_BaseLib reference_UnicodeLib reference_AsciiLib
  demo_BootMode user_BuildConfig demo_LoaderBuild demo_VerifiedBoot demo_Board demo_Fastboot
  reference_AsciiLib_laws.

Lemma demo_session_inv boot cmds n st size received request :
  0 <= n <= 2 ^ 30 -> (st = ExpectDataState -> 0 <= received < size /\ size <= n) ->
  (forall addr len, request = Some (addr, len) -> 0 <= len /\ 0x90000000 <= addr /\ addr + len <= 0x90000000 + 2 * n) ->
  session_inv (demo_session boot cmds n demo_rx st size received request).
Proof.
  intros Hn Hd Hq. assert (H : Z.of_nat (length (repeat 0 (Z.to_nat (2 * n)))) = 2 * n).
  { rewrite repeat_length. lia. }
  assert (Hl : Z.of_nat (length (DlMem (demo_session boot cmds n demo_rx st size received request))) = 2 * n)
    by exact H.
  split.
  - unfold buffer_ok. rewrite Hl. cbn. lia.
  - unfold buffer_ok. rewrite Hl. cbn. lia.
  - rewrite Hl. cbn. lia.
  - exact demo_rx_length.
  - exact Hd.
  - intros addr len Hr. destruct (Hq _ _ Hr) as (H1 & H2 & H3). split; [done|]. right.
    rewrite Hl. cbn. lia.
  - constructor.
  - reflexivity.
Qed.
Definition demo_idle : fastboot := demo_session boot_init [] 8 demo_rx ExpectCmdState 0 0 None.
Lemma session_memory_safe_witness :
  let s := set_pending (Some (0x70000000, 511)) (set_outputs [Receive 0x70000000 511] demo_idle) in
  (forall addr size data, pending s = Some (addr, size) -> Z.of_nat (length data) <= size ->
     request_ok s addr size /\ is_Some (store_at addr data s)) /\
  (mState (Xfer s) = ExpectDataState ->
     0 <= mBytesReceivedSoFar (Xfer s) < mNumDataBytes (Xfer s) /\
     mNumDataBytes (Xfer s) <= MaxDownLoadSize s).
Proof.
  cbv zeta. apply (session_memory_safe demo_idle); [by apply demo_session_inv|].
  apply rtc_once. by apply (step_usb _ _ DeviceConnected EFI_SUCCESS).
Defined.
