(* ===== verification/FastbootLock.v ===== *)
(** * A locked device stays locked, and its storage is not touched. *)
From stdpp Require Import base numbers list option strings relations.
From Stdlib Require Import ZArith Lia Ascii.
From S2P Require Import Prelude BaseLib Unicode Storage Bytes StorageSpec Gpt Partitions Slots SlotsSpec Flash DeviceInfo Recovery Board BoardDemo Fastboot FastbootCmds FastbootSetup FastbootDemo FastbootSpec FastbootSafe.
Local Open Scope Z_scope.

(** The attributes of slot _a are not those of a device that was never booted, which
    a query for the current slot would initialise. *)
Definition settled {UL : UnicodeLib} (b : boot_state) : Prop :=
  forall i b' e, GetBootPartitionEntry slot_a b = Some (Some i, b') -> PtnEntries b !! i = Some e ->
    never_booted (attributes e) = false.

(** Neither lock is open, the frp partition does not allow to unlock, and the device
    was booted before. *)
Definition locked {UL : UnicodeLib} (s : fastboot) : Prop :=
  is_unlocked (DevInfo (Ld s)) = false /\ is_unlock_critical (DevInfo (Ld s)) = false /\
  IsAllowUnlock s = false /\ settled (Boot (Ld s)).

(** What outlives the session besides the writes that the log of the storage shows: a
    write by the UBI driver, the menu that lets the user unlock, and the display panel,
    which is a non-volatile variable. *)
Definition storage_output (o : output) : bool :=
  match o with UbiWrite _ _ | UnlockMenu _ _ => true | _ => false end.
Definition device_output (o : output) : bool :=
  match o with SetDisplayPanel _ _ => true | _ => storage_output o end.
(** Those that count when the panel may be selected, and when it may not. *)
Definition counted (panel : bool) (o : output) : bool :=
  if panel then storage_output o else device_output o.

(** The commands that leave a message in the misc partition and restart. *)
Definition writes_misc (c : command) : bool :=
  match c with CmdRebootRecovery | CmdRebootFastboot | CmdUpdateSnapshot => true | _ => false end.
Definition no_misc_command (s : fastboot) : Prop :=
  Forall (fun pc => writes_misc (snd pc) = false) (cmdlist s).
(** The command that stores the display panel. *)
Definition selects_panel (c : command) : bool :=
  match c with CmdOemSelectDisplayPanel => true | _ => false end.
Definition no_panel_command (s : fastboot) : Prop :=
  Forall (fun pc => selects_panel (snd pc) = false) (cmdlist s).
(** The table holds no command of the two kinds, the panel being allowed or not. *)
Definition allowed_commands (panel : bool) (s : fastboot) : Prop :=
  no_misc_command s /\ (panel = false -> no_panel_command s).

(** From a locked state: locked, with the same table of commands, no write to the
    storage and no output to a driver that writes. *)
Definition quiet {UL : UnicodeLib} (panel : bool) (s s' : fastboot) : Prop :=
  locked s -> locked s' /\ cmdlist s' = cmdlist s /\
    log (Boot (Ld s')) = log (Boot (Ld s)) /\
    filter (fun o => counted panel o = true) (outputs s') =
      filter (fun o => counted panel o = true) (outputs s).
#[export] Instance quiet_preorder {UL : UnicodeLib} panel : PreOrder (quiet panel).
Proof.
  split; [by intros s H|]. intros s1 s2 s3 H12 H23 H1.
  destruct (H12 H1) as (H2 & C2 & L2 & O2). destruct (H23 H2) as (H3 & C3 & L3 & O3).
  split; [done|]. by rewrite C3, L3, O3.
Qed.

Section lock.
Context {FW : Firmware} {BL : BaseLib} {UL : UnicodeLib} {AL : AsciiLib} {BM : BootMode}.
Context {BC : BuildConfig} {LB : LoaderBuild} {VB : VerifiedBootProtocol} {BP : BoardProtocols}.
Context {FE : FastbootEnv}.
Context (panel : bool).

Lemma quiet_modify f :
  (forall s, Ld (f s) = Ld s /\ IsAllowUnlock (f s) = IsAllowUnlock s /\ cmdlist (f s) = cmdlist s /\
     outputs (f s) = outputs s) -> preserves (quiet panel) (modify f).
Proof.
  intros H. apply pr_modify. intros s. destruct (H s) as (H1 & H2 & H3 & H4).
  unfold quiet, locked. by rewrite H1, H2, H3, H4.
Qed.
Ltac quiet_var := apply quiet_modify; by repeat split.

Lemma quiet_strings x : preserves (quiet panel) (modify (set_GetVarStrings x)). Proof. quiet_var. Qed.
Lemma quiet_xfer f : preserves (quiet panel) (change_xfer f). Proof. quiet_var. Qed.
Lemma quiet_lun f : preserves (quiet panel) (change_lun f). Proof. quiet_var. Qed.
Lemma quiet_DlMem x : preserves (quiet panel) (modify (set_DlMem x)). Proof. quiet_var. Qed.
Lemma quiet_RxMem x : preserves (quiet panel) (modify (set_RxMem x)). Proof. quiet_var. Qed.
Lemma quiet_FlashResult x : preserves (quiet panel) (modify (set_FlashResult x)). Proof. quiet_var. Qed.
Lemma quiet_Started x : preserves (quiet panel) (modify (set_UsbTimerStarted x)). Proof. quiet_var. Qed.
Lemma quiet_Event x : preserves (quiet panel) (modify (set_UsbTimerEvent x)). Proof. quiet_var. Qed.
Lemma quiet_IsFirst x : preserves (quiet panel) (modify (set_IsFirstEraseFlash x)). Proof. quiet_var. Qed.
Lemma quiet_timers x : preserves (quiet panel) (modify (set_timers x)). Proof. quiet_var. Qed.
Lemma quiet_calls x : preserves (quiet panel) (modify (set_timer_calls x)). Proof. quiet_var. Qed.
Lemma quiet_pending x : preserves (quiet panel) (modify (set_pending x)). Proof. quiet_var. Qed.
#[local] Hint Resolve quiet_xfer quiet_lun quiet_DlMem quiet_RxMem quiet_FlashResult quiet_Started
  quiet_Event quiet_IsFirst quiet_timers quiet_calls quiet_pending quiet_strings : frame.

Lemma quiet_xfer_gets {A} (f : transfer -> A) : preserves (quiet panel) (xfer f).
Proof. unfold xfer. frame. Qed.
Lemma quiet_store_at addr data : preserves (quiet panel) (store_at addr data).
Proof. unfold store_at. frame. Qed.
Lemma quiet_output o s :
  counted panel o = false -> quiet panel s (set_outputs (outputs s ++ [o]) s).
Proof.
  intros Ho H. split; [done|]. split; [done|]. split; [done|]. cbn [outputs set_outputs].
  rewrite filter_app, filter_cons_False by congruence. by rewrite filter_nil, app_nil_r.
Qed.
Lemma quiet_send o : counted panel o = false -> preserves (quiet panel) (send o).
Proof.
  intros Ho s a s'. unfold send. run. pose proof (quiet_output o s Ho) as Hq.
  destruct o; try (by intros [= _ <-]). run. case_if; [|by intros [= _ <-]].
  run. intros [= _ <-]. etransitivity; [exact Hq|].
  by eapply (quiet_pending (Some (addr, size)) _ tt).
Qed.
Lemma quiet_Fail r : preserves (quiet panel) (FastbootFail r).
Proof. unfold FastbootFail, FastbootAck. apply pr_bind; [apply quiet_send; by destruct panel|]. frame. Qed.
Lemma quiet_Okay r : preserves (quiet panel) (FastbootOkay r).
Proof. unfold FastbootOkay, FastbootAck. apply pr_bind; [apply quiet_send; by destruct panel|]. frame. Qed.
Lemma quiet_Info r : preserves (quiet panel) (FastbootInfo r).
Proof. unfold FastbootInfo, FastbootAck. apply pr_bind; [apply quiet_send; by destruct panel|]. frame. Qed.

(** ** The lower layers, where a locked device uses them *)
Definition logless {A} (m : B A) : Prop := forall b a b',
  m b = Some (a, b') -> settled b -> log b' = log b /\ settled b'.
Lemma quiet_storage {A} (m : BootMode -> B A) :
  (forall bm, logless (m bm)) -> preserves (quiet panel) (storage m).
Proof.
  intros Hm s a s'. unfold storage, liftL, lift. run.
  destruct (m _ (Boot (Ld s))) as [[x b]|] eqn:E; [|done]. intros [= _ <-] (H1 & H2 & H3 & H4).
  destruct (Hm _ _ _ _ E H4) as [Hl Hs]. by repeat split.
Qed.
Lemma quiet_dev {A} (f : DeviceInfo -> A) : preserves (quiet panel) (liftL (dev f)).
Proof. intros s a s'. unfold liftL, dev. cbn. intros [= _ <-] H. by repeat split; try apply H. Qed.
(** Other fields of the device information. *)
Lemma quiet_liftL {A} (m : LD A) :
  (forall l a l', m l = Some (a, l') -> Boot l' = Boot l /\
     is_unlocked (DevInfo l') = is_unlocked (DevInfo l) /\
     is_unlock_critical (DevInfo l') = is_unlock_critical (DevInfo l)) -> preserves (quiet panel) (liftL m).
Proof.
  intros Hm s a s'. unfold liftL. destruct (m (Ld s)) as [[x l]|] eqn:E; [|done].
  intros [= _ <-] (H1 & H2 & H3 & H4). destruct (Hm _ _ _ E) as (E1 & E2 & E3).
  unfold quiet, locked. cbn. rewrite E1, E2, E3. by repeat split.
Qed.

(** The entry of a slot is a function of the table. *)
Definition boot_index (slot : Slot) (es : list PartitionEntry) (count : nat) : option (option nat) :=
  let n := StrLen (Suffix slot) in
  if StrnCmp (bytes "_a") (Suffix slot) n =? 0 then name_index_loop es (bytes "boot_a") count 0
  else if StrnCmp (bytes "_b") (Suffix slot) n =? 0 then name_index_loop es (bytes "boot_b") count 0
  else Some None.
Lemma GetBootPartitionEntry_run slot b :
  GetBootPartitionEntry slot b =
    match boot_index slot (PtnEntries b) (PartitionCount b) with
    | Some o => Some (o, b) | None => None
    end.
Proof.
  unfold GetBootPartitionEntry, GetPartitionIndex, boot_index. cbv zeta.
  repeat case_if; run; done.
Qed.
Lemma settled_tables b b' :
  PtnEntries b' = PtnEntries b -> PartitionCount b' = PartitionCount b -> settled b -> settled b'.
Proof.
  unfold settled. intros E1 E2 H i c e. rewrite GetBootPartitionEntry_run, E1, E2.
  intros Hi. apply (H i b). rewrite GetBootPartitionEntry_run.
  destruct (boot_index _ _ _); [|done]. by injection Hi as -> _.
Qed.
Lemma logless_const {A} (m : B A) : (forall b a b', m b = Some (a, b') -> b' = b) -> logless m.
Proof. intros H b a b' Hm Hs. by rewrite (H _ _ _ Hm). Qed.
Lemma logless_bind {A C} (m : B A) (f : A -> B C) :
  logless m -> (forall a, logless (f a)) -> logless (m ≫= f).
Proof.
  intros Hm Hf b c b'. rewrite bind_run. destruct (m b) as [[a b1]|] eqn:E; [|done].
  intros H Hs. destruct (Hm _ _ _ E Hs) as [L1 S1]. destruct (Hf _ _ _ _ H S1) as [L2 S2].
  by rewrite L2, L1.
Qed.
Lemma logless_ret {A} (a : A) : logless (mret a).
Proof. apply logless_const. by intros b x b' [= _ <-]. Qed.

Lemma PartitionHasMultiSlot_same n b a b' : PartitionHasMultiSlot n b = Some (a, b') -> b' = b.
Proof.
  unfold PartitionHasMultiSlot. run. unfold access.
  repeat (match goal with |- context [match ?x with Some _ => _ | None => _ end] => destruct x end);
    run; try done; by intros [= _ <-].
Qed.
Lemma logless_multi n : logless (PartitionHasMultiSlot n).
Proof. apply logless_const. intros b a b'. apply PartitionHasMultiSlot_same. Qed.
Lemma logless_Root : logless CheckRootDeviceType.
Proof.
  intros b a b'. unfold CheckRootDeviceType. run. case_if; [by intros [= _ <-]|].
  case_if; [by intros [= _ <-]|]. destruct GetCardInfo as [st card]. case_if; [by intros [= _ <-]|].
  run. intros [= _ <-] Hs. split; [done|]. by apply (settled_tables b).
Qed.
Lemma logless_PageSize : logless GetPageSize.
Proof.
  unfold GetPageSize. apply logless_bind; [apply logless_Root|]. intros t. apply logless_const.
  intros b a b'. destruct (GetDeviceHandleInfo _ _) as [st hs]. destruct st; try (by intros [= _ <-]).
  run. unfold access. destruct (hs !! 0%nat) as [h|]; [|done]. run. unfold access.
  destruct (BlkIo h); [|done]. by intros [= _ <-].
Qed.

Lemma GetBootPartitionEntry_same slot b a b' : GetBootPartitionEntry slot b = Some (a, b') -> b' = b.
Proof.
  rewrite GetBootPartitionEntry_run. destruct (boot_index _ _ _); [|done]. by intros [= _ <-].
Qed.
Lemma active_slot_loop_same l slot p b a b' : active_slot_loop l slot p b = Some (a, b') -> b' = b.
Proof.
  revert slot p. induction l as [|x l IH]; intros slot p; cbn [active_slot_loop]; [by intros [= _ <-]|].
  rewrite bind_run. destruct (GetBootPartitionEntry x b) as [[o b1]|] eqn:E; [|done].
  apply GetBootPartitionEntry_same in E as ->. destruct o as [i|]; [|by intros [= _ <-]].
  unfold ptn_entry. run. unfold access. destruct (PtnEntries b !! i); [|done]. cbv zeta.
  case_if; [|apply IH]. destruct (StrnCpyS _ _ _ _) as [st chars]. case_if; [by intros [= _ <-]|apply IH].
Qed.
(** The current slot of a device that was booted before is only read. *)
Lemma logless_current_slot {bm : BootMode} : logless GetCurrentSlotSuffix.
Proof.
  intros b a b' H Hs. enough (b' = b) as -> by done. revert H.
  unfold GetCurrentSlotSuffix. rewrite bind_run.
  destruct (PartitionHasMultiSlot _ b) as [[m b1]|] eqn:E1; [|done].
  apply PartitionHasMultiSlot_same in E1 as ->. case_if; [by intros [= _ <-]|]. rewrite bind_run.
  destruct (GetActiveSlot _ b) as [[r b2]|] eqn:E2; [|done]. intros [= _ <-]. revert E2.
  unfold GetActiveSlot. rewrite bind_run. destruct (active_slot_loop _ _ _ b) as [[[st slot] b3]|] eqn:E3; [|done].
  apply active_slot_loop_same in E3 as ->. case_if; [by intros [= _ <-]|].
  case_if; [|by intros [= _ <-]]. rewrite bind_run.
  destruct (GetBootPartitionEntry slot_a b) as [[o b4]|] eqn:E4; [|done].
  pose proof (GetBootPartitionEntry_same _ _ _ _ E4) as ->. destruct o as [i|]; [|by intros [= _ <-]].
  unfold ptn_entry. run. unfold access. destruct (PtnEntries b !! i) as [e|] eqn:E5; [|done].
  rewrite (Hs _ _ _ E4 E5). by intros [= _ <-].
Qed.
#[local] Hint Resolve quiet_xfer_gets quiet_store_at quiet_Fail quiet_Okay quiet_Info quiet_dev : frame.
#[local] Hint Extern 1 (preserves (quiet panel) (send _)) => apply quiet_send; by destruct panel : frame.
#[local] Hint Extern 1 (preserves (quiet panel) (storage (fun _ => PartitionHasMultiSlot _))) =>
  apply quiet_storage; intros; apply logless_multi : frame.
#[local] Hint Extern 1 (preserves (quiet panel) (storage (fun _ => GetPageSize))) =>
  apply quiet_storage; intros; apply logless_PageSize : frame.
#[local] Hint Extern 1 (preserves (quiet panel) (storage (fun _ => GetCurrentSlotSuffix))) =>
  apply quiet_storage; intros; apply logless_current_slot : frame.

Lemma quiet_next_timer : preserves (quiet panel) next_timer.
Proof. unfold next_timer. frame. Qed.
Lemma quiet_start_timer e : preserves (quiet panel) (start_timer e).
Proof. unfold start_timer. frame. Qed.
Lemma quiet_Stop : preserves (quiet panel) StopUsbTimer.
Proof. unfold StopUsbTimer. frame. Qed.
#[local] Hint Resolve quiet_next_timer quiet_start_timer quiet_Stop : frame.
Lemma quiet_OkayDelay : preserves (quiet panel) FastbootOkayDelay.
Proof. unfold FastbootOkayDelay. frame. Qed.
Lemma quiet_FlashComplete : preserves (quiet panel) FlashCompleteHandler.
Proof. unfold FlashCompleteHandler. frame. Qed.
Lemma quiet_clear_rest d : preserves (quiet panel) (clear_rest d).
Proof. unfold clear_rest. frame. Qed.
Lemma quiet_GetXfrSize : preserves (quiet panel) GetXfrSize.
Proof. unfold GetXfrSize. frame. Qed.
#[local] Hint Resolve quiet_OkayDelay quiet_FlashComplete quiet_clear_rest quiet_GetXfrSize : frame.
Lemma quiet_AcceptData z d : preserves (quiet panel) (AcceptData z d).
Proof. unfold AcceptData. frame. Qed.
Lemma quiet_download arg : preserves (quiet panel) (cmd_download arg).
Proof. unfold cmd_download. frame. Qed.
Lemma quiet_reboot m : preserves (quiet panel) (cmd_reboot m).
Proof. unfold cmd_reboot. frame. Qed.
Lemma quiet_EnableChargingScreen b : preserves (quiet panel) (liftL (EnableChargingScreen b)).
Proof.
  apply quiet_liftL. intros l a l'. unfold EnableChargingScreen, ChargingScreenEnabled, dev. run.
  case_if; run; by intros [= _ <-].
Qed.
Lemma quiet_StoreDisplayCmdLine x : preserves (quiet panel) (liftL (StoreDisplayCmdLine x)).
Proof.
  apply quiet_liftL. intros l a l'. unfold StoreDisplayCmdLine. case_if; [by intros [= _ <-]|].
  run. by intros [= _ <-].
Qed.
Lemma quiet_version f : preserves (quiet panel) (liftL (arr ← dev f; access (c_string arr 0))).
Proof.
  apply quiet_liftL. intros l a l'. unfold dev. run. unfold access.
  destruct (c_string _ _); [|done]. by intros [= _ <-].
Qed.
#[local] Hint Resolve quiet_EnableChargingScreen quiet_StoreDisplayCmdLine quiet_version : frame.
Lemma quiet_charger b f : preserves (quiet panel) (set_charger_screen b f).
Proof. unfold set_charger_screen. frame. Qed.
Lemma quiet_off_mode arg : preserves (quiet panel) (cmd_off_mode_charge arg).
Proof. unfold cmd_off_mode_charge. frame. Qed.
Lemma quiet_display_panel arg : panel = true -> preserves (quiet panel) (cmd_select_display_panel arg).
Proof. intros Hp. unfold cmd_select_display_panel, appended_panel. frame. Qed.
Lemma quiet_var_string v : preserves (quiet panel) (var_string v).
Proof. destruct v; cbn [var_string]; unfold slot_info; frame. Qed.
#[local] Hint Resolve quiet_var_string : frame.
Lemma quiet_send_all vs : preserves (quiet panel) (send_all vs).
Proof. induction vs as [|[name v] vs IH]; cbn [send_all]; frame. Qed.
#[local] Hint Resolve quiet_send_all : frame.
Lemma quiet_getvar arg : preserves (quiet panel) (cmd_getvar arg).
Proof.
  unfold cmd_getvar, UpdateGetVarVariable, CmdGetVarAll, partition_variable, ChargingScreenEnabled.
  frame.
Qed.
Lemma quiet_wait z d : preserves (quiet panel) (wait_for_flash z d).
Proof. unfold wait_for_flash. frame. Qed.
Lemma quiet_report d : preserves (quiet panel) (report_flash d).
Proof. unfold report_flash. frame. Qed.
Lemma quiet_battery d : preserves (quiet panel) (battery_too_low d).
Proof. unfold battery_too_low. frame. Qed.
#[local] Hint Resolve quiet_AcceptData quiet_download quiet_reboot quiet_charger quiet_wait
  quiet_report quiet_battery : frame.

(** ** What a locked device refuses *)
Hypothesis user_build : TargetBuildVariantUser = true.

Lemma lock_refuses {A} w n (k : option (list Z) -> F A) :
  (forall reason, preserves (quiet panel) (k (Some reason))) -> preserves (quiet panel) (lock_refusal w n ≫= k).
Proof.
  intros Hk s a s' Hr Hl. destruct (Hl) as (Hu & _).
  assert (E : lock_refusal w n s = Some (Some (w ++ bytes " is not allowed in Lock State"), s)).
  { unfold lock_refusal. rewrite user_build.
    replace (bool_decide (GetAVBVersion = AVB_LE) ||
      (negb (bool_decide (GetAVBVersion = AVB_LE)) && true)) with true by (by destruct (bool_decide _)).
    unfold liftL, IsUnlocked, dev. run. rewrite Hu. cbn. by destruct s. }
  rewrite bind_run, E in Hr. by eapply Hk.
Qed.

Lemma quiet_flash arg data sz : preserves (quiet panel) (cmd_flash arg data sz).
Proof.
  unfold cmd_flash, ExchangeFlashAndUsbDataBuf.
  apply pr_bind; [frame|]. intros _. apply pr_bind; [frame|]. intros _.
  apply pr_bind; [frame|]. intros b. destruct (b =? 0); [frame|]. destruct (_ <=? _)%nat; [frame|].
  apply lock_refuses. frame.
Qed.
Lemma quiet_erase arg : preserves (quiet panel) (cmd_erase arg).
Proof.
  unfold cmd_erase. apply pr_bind; [frame|]. intros m. destruct (_ <=? _)%nat; [frame|].
  apply lock_refuses. frame.
Qed.

Lemma run_locked {A} (f : DeviceInfo -> bool) (k : bool -> F A) :
  (forall d, is_unlocked d = false -> is_unlock_critical d = false -> f d = false) ->
  preserves (quiet panel) (k false) -> preserves (quiet panel) (liftL (dev f) ≫= k).
Proof.
  intros Hf Hk s a s' Hr Hl. destruct (Hl) as (H1 & H2 & _). unfold liftL, dev in Hr.
  run_in Hr. rewrite Hf in Hr by done. eapply Hk; [|done]. by destruct s.
Qed.

Lemma quiet_set_active arg : preserves (quiet panel) (cmd_set_active arg).
Proof.
  unfold cmd_set_active. apply pr_bind; [frame|]. intros m. apply run_locked; [done|].
  rewrite user_build. cbn [negb andb]. frame.
Qed.
Lemma quiet_unlock t b : t <> UNLOCK_OTHER -> preserves (quiet panel) (SetDeviceUnlock t b).
Proof.
  intros Ht. unfold SetDeviceUnlock.
  assert (Hk : preserves (quiet panel) (allowed ← gets IsAllowUnlock;
    if b && negb allowed
    then FastbootFail (bytes "Flashing Unlock is not allowed" ++ [newline]) else mret tt)) by frame.
  destruct t; [| |done]; (apply run_locked; [done|]); (destruct b; [|rewrite bool_decide_true by done; frame]);
    rewrite bool_decide_false by done;
    intros s a s' Hr Hl; destruct (Hl) as (_ & _ & Ha & _); run_in Hr; rewrite Ha in Hr; cbn [negb andb] in Hr;
    by eapply quiet_Fail.
Qed.

Lemma quiet_run_command c arg data sz :
  writes_misc c = false -> (panel = false -> selects_panel c = false) ->
  preserves (quiet panel) (run_command c arg data sz).
Proof.
  intros Hc Hp. destruct c; try done; cbn [run_command];
    lazymatch goal with
    | |- preserves _ (cmd_flash _ _ _) => apply quiet_flash
    | |- preserves _ (cmd_erase _) => apply quiet_erase
    | |- preserves _ (cmd_set_active _) => apply quiet_set_active
    | |- preserves _ (SetDeviceUnlock _ _) => by apply quiet_unlock
    | |- preserves _ (cmd_download _) => apply quiet_download
    | |- preserves _ (cmd_reboot _) => apply quiet_reboot
    | |- preserves _ (set_charger_screen _ _) => apply quiet_charger
    | |- preserves _ (cmd_off_mode_charge _) => apply quiet_off_mode
    | |- preserves _ (cmd_select_display_panel _) => apply quiet_display_panel; destruct panel; [done|by specialize (Hp eq_refl)]
    | |- preserves _ (cmd_getvar _) => apply quiet_getvar
    | _ => unfold cmd_get_unlock_ability, cmd_oem_devinfo, cmd_display_cmdline, cmd_boot, boot_path,
             IsEnforcing, IsUnlocked, IsUnlockCritical, ChargingScreenEnabled; frame
    end.
Qed.

(** ** Commands and events *)
Lemma find_command_elem Data cs p : find_command Data cs = Some p -> In p cs.
Proof.
  induction cs as [|[prefix c] cs IH]; cbn [find_command]; [done|]. case_if.
  - intros [= <-]. by left.
  - intros H. right. by apply IH.
Qed.

(** The command that is run is one of the table at the time of the packet. *)
Lemma quiet_AcceptCmd Size s a s' :
  allowed_commands panel s -> AcceptCmd Size s = Some (a, s') -> quiet panel s s'.
Proof.
  intros [Hm Hp] Hr Hl. revert Hr. unfold AcceptCmd. cbv zeta.
  set (Size' := if _ <? Size then _ else _). rewrite bind_run.
  destruct (store_at _ _ s) as [[x s1]|] eqn:E1; [|done].
  pose proof (quiet_store_at _ _ _ _ _ E1) as Q1. rewrite bind_run.
  change (gets RxMem s1) with (Some (RxMem s1, s1)). cbv iota beta. rewrite bind_run.
  unfold access at 1. destruct (c_string (RxMem s1) 0) as [Data|]; [|done]. rewrite bind_run.
  destruct (after_flash Size' Data s1) as [[handled s2]|] eqn:E2; [|done].
  assert (Q2 : quiet panel s1 s2).
  { eapply (fun (H : preserves (quiet panel) (after_flash Size' Data)) => H _ _ _ E2).
    unfold after_flash. frame. }
  destruct handled; [intros [= _ <-]; by apply (transitivity Q1 Q2)|]. rewrite bind_run.
  destruct (battery_too_low Data s2) as [[low s3]|] eqn:E3; [|done].
  pose proof (quiet_battery _ _ _ _ E3) as Q3.
  assert (Q : quiet panel s s3) by (by rewrite Q1, Q2, Q3).
  destruct low; [intros [= _ <-]; by apply Q|]. run.
  destruct (Q Hl) as (_ & Hcs & _). rewrite Hcs. unfold no_misc_command, no_panel_command in Hm, Hp.
  destruct (find_command Data (cmdlist s)) as [[prefix c]|] eqn:Ef.
  - run. intros Hr. assert (Hc : writes_misc c = false).
    { apply find_command_elem in Ef. by apply (proj1 (List.Forall_forall _ _) Hm (prefix, c)). }
    assert (Hc' : panel = false -> selects_panel c = false).
    { intros E. apply find_command_elem in Ef.
      by apply (proj1 (List.Forall_forall _ _) (Hp E) (prefix, c)). }
    assert (Q4 : quiet panel s3 s') by (by eapply quiet_run_command). by apply (transitivity Q Q4).
  - intros Hr. assert (Q4 : quiet panel s3 s') by (by eapply quiet_Fail). by apply (transitivity Q Q4).
Qed.

Lemma quiet_step s s' : allowed_commands panel s -> session_step s s' -> quiet panel s s'.
Proof.
  intros Hm [e st H|H].
  - destruct e as [|data| |]; cbn [HandleUsbEvents] in H.
    + eapply quiet_send; [|exact H]. by destruct panel.
    + revert H. run. unfold access at 1. destruct (pending s) as [[addr size]|]; [|done]. rewrite bind_run.
      destruct (store_at addr data s) as [[x s1]|] eqn:E1; [|done].
      pose proof (quiet_store_at _ _ _ _ _ E1) as Q1. run.
      assert (Q2 : quiet panel s1 (set_pending None s1)) by (by eapply (quiet_pending None _ tt)).
      pose proof (transitivity Q1 Q2) as Q. intros H Hl. destruct (Q Hl) as (_ & Hcs & _).
      revert H. unfold ProcessBulkXfrCompleteRx, DataReady, xfer. rewrite bind_run. run.
      set (s2 := set_pending None s1) in *. assert (Hm2 : allowed_commands panel s2) by (unfold allowed_commands, no_misc_command, no_panel_command; by rewrite Hcs).
      destruct (mState (Xfer s2)).
      * destruct (AcceptCmd _ s2) as [[y s3]|] eqn:E3; [|done]. intros [= _ <-].
        apply (transitivity Q (quiet_AcceptCmd _ _ _ _ Hm2 E3) Hl).
      * destruct (AcceptData _ _ s2) as [[y s3]|] eqn:E3; [|done]. intros [= _ <-].
        apply (transitivity Q (quiet_AcceptData _ _ _ _ _ E3) Hl).
    + by injection H as _ <-.
    + revert H. unfold ProcessBulkXfrCompleteTx. run. intros H.
      eapply (fun P : preserves (quiet panel) (n ← GetXfrSize; send (Receive _ n)) => P _ _ _ H). frame.
  - revert H. unfold HandleTimer. run. destruct (timers s) as [|t ts]; [done|]. run.
    assert (Q : quiet panel s (set_timers ts s)) by (by eapply (quiet_timers ts _ tt)).
    destruct t; intros H.
    + exact (transitivity Q (quiet_FlashComplete _ _ _ H)).
    + refine (transitivity Q (quiet_AcceptCmd _ _ _ _ _ H)). exact Hm.
Qed.

Lemma quiet_session s s' :
  allowed_commands panel s -> rtc session_step s s' -> quiet panel s s'.
Proof.
  intros Hm Hr. induction Hr as [|s1 s2 s3 H12 _ IH]; [done|]. intros Hl.
  pose proof (quiet_step _ _ Hm H12) as Q. destruct (Q Hl) as (_ & Hc & _).
  refine (transitivity Q (IH _) Hl).
  unfold allowed_commands, no_misc_command, no_panel_command. by rewrite Hc.
Qed.
End lock.

Section sessions.
Context {FW : Firmware} {BL : BaseLib} {UL : UnicodeLib} {AL : AsciiLib} {BM : BootMode}.
Context {BC : BuildConfig} {LB : LoaderBuild} {VB : VerifiedBootProtocol} {BP : BoardProtocols}.
Context {FE : FastbootEnv}.

(** C4 In a user build a device that is locked, that the frp partition does not allow
    to unlock and whose slot _a was booted before ([settled]), stays locked whatever
    the host sends in a session whose table of commands lacks the ones that leave a
    message in the misc partition. In the whole session nothing is written, erased or
    switched on its storage and the menu to unlock is not shown. What a host can still
    store is the non-volatile variable with the display panel, and that only by oem
    select-display-panel: without this command in the table not even that. What
    continue boots is not a part of the session. *)
Theorem locked_device_untouched s0 s :
  TargetBuildVariantUser = true -> no_misc_command s0 -> locked s0 -> rtc session_step s0 s ->
  locked s /\ log (Boot (Ld s)) = log (Boot (Ld s0)) /\
  filter (fun o => storage_output o = true) (outputs s) =
    filter (fun o => storage_output o = true) (outputs s0) /\
  (no_panel_command s0 ->
   filter (fun o => device_output o = true) (outputs s) =
     filter (fun o => device_output o = true) (outputs s0)).
Proof.
  intros Hu Hm Hl Hr.
  destruct (quiet_session true Hu s0 s (conj Hm (fun E => False_ind _ (diff_true_false E))) Hr Hl) as (H1 & _ & H2 & H3).
  split; [done|]. split; [done|]. split; [done|]. intros Hp.
  by destruct (quiet_session false Hu s0 s (conj Hm (fun _ => Hp)) Hr Hl) as (_ & _ & _ & H4).
Qed.
End sessions.

#[local] Existing Instances demo_Firmware reference_BaseLib reference_UnicodeLib reference_AsciiLib
  demo_BootMode user_BuildConfig demo_LoaderBuild demo_VerifiedBoot demo_Board demo_Fastboot
  reference_AsciiLib_laws.

(** The host asks to flash the boot partition; the table is the one of a user build
    without the selection of the display panel. *)
Definition demo_commands : list (list Z * command) :=
  filter (fun pc => selects_panel (snd pc) = false) cmd_list.
Definition demo_locked : fastboot :=
  demo_session (demo_slots PART_ATT_ACTIVE_VAL 0) demo_commands 8 (repeat 0 600) ExpectCmdState 0 0
    (Some (0x70000000, 511)).
Definition demo_refused : fastboot :=
  match HandleUsbEvents (TransferRx (bytes "flash:boot")) demo_locked with
  | Some (_, s) => s
  | None => demo_locked
  end.
Lemma locked_device_untouched_witness :
  outputs demo_refused = [Transmit (bytes "FAILFlashing is not allowed in Lock State")] /\
  locked demo_refused /\ log (Boot (Ld demo_refused)) = [] /\
  filter (fun o => storage_output o = true) (outputs demo_refused) = [] /\
  (no_panel_command demo_locked ->
   filter (fun o => device_output o = true) (outputs demo_refused) = []).
Proof.
  split; [vm_compute; reflexivity|].
  apply (locked_device_untouched (BC := user_BuildConfig) demo_locked demo_refused eq_refl).
  - repeat constructor.
  - split; [done|]. split; [done|]. split; [done|]. intros i b' e.
    replace (GetBootPartitionEntry slot_a (Boot (Ld demo_locked)))
      with (Some (Some 0%nat, Boot (Ld demo_locked))) by (vm_compute; reflexivity).
    intros [= <- _] [= <-]. vm_compute. reflexivity.
  - apply rtc_once. apply (step_usb _ _ (TransferRx (bytes "flash:boot")) EFI_SUCCESS).
    vm_compute. reflexivity.
Defined.
