(* ===== verification/FastbootReady.v ===== *)
(** * What the start of Fastboot establishes.

    The search for a buffer ends, and the session starts in its invariant: the two
    halves of the download buffer lie in the memory that was allocated. *)
From stdpp Require Import base numbers list option strings relations.
From Stdlib Require Import ZArith Lia Ascii.
From S2P Require Import Prelude BaseLib Unicode Storage Bytes StorageSpec Gpt Partitions Slots SlotsSpec Flash DeviceInfo Recovery Board BoardDemo Fastboot FastbootCmds FastbootSetup FastbootDemo FastbootSpec FastbootSafe FastbootLock.
Local Open Scope Z_scope.

(** ** Sizes *)
Lemma next_size_round x : in_u64 x ->
  next_size x = (EFI_FREE_MEM_DIVISOR x + 4095) / 4096 * 4096.
Proof.
  intros Hx. unfold next_size, LOCAL_ROUND_TO_PAGE, EFI_PAGE_SIZE.
  assert (H : 0 <= EFI_FREE_MEM_DIVISOR x < 2 ^ 62).
  { unfold EFI_FREE_MEM_DIVISOR. pose proof (Z.mod_pos_bound (x * 3) (2 ^ 64) ltac:(lia)). unfold u64.
    split; [apply Z.div_pos; lia|apply Z.div_lt_upper_bound; lia]. }
  set (a := EFI_FREE_MEM_DIVISOR x) in *. change (4096 - 1) with 4095.
  rewrite (u64_small (a + 4095)) by (unfold in_u64; lia). unfold u64.
  rewrite <- Z.land_ones by lia. rewrite (Z.land_comm (Z.lnot _)), Z.land_assoc, Z.land_ones by lia.
  rewrite (Z.mod_small (a + 4095)) by lia. change 4095 with (Z.ones 12) at 2.
  rewrite <- Z.ldiff_land, Z.ldiff_ones_r, Z.shiftl_mul_pow2, Z.shiftr_div_pow2 by lia. done.
Qed.
Lemma next_size_aligned x : in_u64 x -> next_size x mod 4096 = 0.
Proof. intros H. rewrite next_size_round by done. apply Z_mod_mult. Qed.
Lemma next_size_less x : 0 <= x <= MAX_BUFFER_SIZE ->
  3 * x / 4 <= next_size x <= 3 * x / 4 + 4095.
Proof.
  intros Hx. assert (in_u64 x) by (unfold in_u64, MAX_BUFFER_SIZE in *; lia).
  rewrite next_size_round by done. unfold EFI_FREE_MEM_DIVISOR.
  rewrite u64_small by (unfold in_u64, MAX_BUFFER_SIZE in *; lia). rewrite (Z.mul_comm x).
  pose proof (Z.div_mod (3 * x / 4 + 4095) 4096 ltac:(lia)).
  pose proof (Z.mod_pos_bound (3 * x / 4 + 4095) 4096 ltac:(lia)). lia.
Qed.

Section ready.
Context {FW : Firmware} {BL : BaseLib} {UL : UnicodeLib} {AL : AsciiLib} {BM : BootMode}.
Context {BC : BuildConfig} {LB : LoaderBuild} {VB : VerifiedBootProtocol} {BP : BoardProtocols}.
Context {FE : FastbootEnv} {SS : SetupServices}.

(** What the loop returns: no memory, or a buffer of a size between the bounds. *)
Definition allocation_ok (r : EFI_STATUS * (Z * Z)) : Prop :=
  let '(Status, (Base_, size)) := r in
  (Status = EFI_OUT_OF_RESOURCES /\ size < MIN_BUFFER_SIZE) \/
  (EFI_ERROR Status = false /\ MIN_BUFFER_SIZE <= size <= MAX_BUFFER_SIZE /\ size mod 4096 = 0 /\
   exists attempt, AllocateTransferBuffer attempt size = (Status, Base_)).

Lemma allocate_loop_round fuel attempt x :
  in_u64 x ->
  (exists r, allocate_loop (S fuel) attempt x = Some r /\ allocation_ok r) \/
  (let size := Z.min (next_size x) MAX_BUFFER_SIZE in
   MIN_BUFFER_SIZE <= size /\
   allocate_loop (S fuel) attempt x = allocate_loop fuel (S attempt) size).
Proof.
  intros Hx. cbn [allocate_loop]. cbv zeta. pose proof (next_size_aligned x Hx) as Ha.
  destruct (Z.ltb_spec (next_size x) MIN_BUFFER_SIZE) as [|Hmin].
  { left. eexists. split; [done|]. by left. }
  assert (E : (if MAX_BUFFER_SIZE <? next_size x then MAX_BUFFER_SIZE else next_size x) =
              Z.min (next_size x) MAX_BUFFER_SIZE) by (case_if; bool_to_prop; lia).
  rewrite E. destruct (AllocateTransferBuffer attempt _) as [st b] eqn:Eb. destruct (EFI_ERROR st) eqn:Es.
  - right. cbv zeta. split; [unfold MIN_BUFFER_SIZE, MAX_BUFFER_SIZE in *; lia|done].
  - left. eexists. split; [done|]. right. split; [done|].
    split; [unfold MIN_BUFFER_SIZE, MAX_BUFFER_SIZE in *; lia|]. split; [|by exists attempt].
    destruct (Z.min_spec (next_size x) MAX_BUFFER_SIZE) as [[_ ->]|[_ ->]]; [done|].
    by vm_compute.
Qed.

(** A round takes away a quarter of at least [MIN_BUFFER_SIZE], less a page. *)
Lemma allocate_loop_total fuel attempt x :
  0 <= x <= MAX_BUFFER_SIZE -> x < MIN_BUFFER_SIZE + Z.of_nat fuel * 16773120 ->
  exists r, allocate_loop (S fuel) attempt x = Some r /\ allocation_ok r.
Proof.
  revert attempt x. induction fuel as [|fuel IH]; intros attempt x Hx Hf;
    (assert (in_u64 x) by (unfold in_u64, MAX_BUFFER_SIZE in *; lia));
    pose proof (next_size_less x Hx) as Hn;
    assert (Hq : 4 * (3 * x / 4) <= 3 * x) by (apply Z.mul_div_le; lia).
  - destruct (allocate_loop_round 0 attempt x) as [H1|[H1 _]]; [done|done|].
    unfold MIN_BUFFER_SIZE, MAX_BUFFER_SIZE in *. lia.
  - destruct (allocate_loop_round (S fuel) attempt x) as [H1|[H1 ->]]; [done|done|].
    apply IH; unfold MIN_BUFFER_SIZE, MAX_BUFFER_SIZE in *; lia.
Qed.

(** C17 The search for a download buffer ends, whatever memory is free
    and whichever requests the USB driver refuses: within a hundred rounds there is
    no memory left to ask for, or a buffer of whole pages, of 64 MiB to 1.5 GiB, is
    the answer to a request of just this size. *)
Theorem download_buffer_found free : in_u64 free ->
  exists r, allocate_loop ALLOCATE_ROUNDS 0 free = Some r /\ allocation_ok r.
Proof.
  intros Hf. change ALLOCATE_ROUNDS with (S 99).
  destruct (allocate_loop_round 99 0 free) as [H1|[H1 ->]]; [done|done|].
  change 99%nat with (S 98). apply allocate_loop_total; unfold MIN_BUFFER_SIZE, MAX_BUFFER_SIZE in *; lia.
Qed.

(** ** The setup *)
Lemma NAND_cached b : RootType b = NAND -> CheckRootDeviceType b = Some (NAND, b).
Proof. intros H. unfold CheckRootDeviceType. run. by rewrite H. Qed.
Lemma CheckRoot_NAND b b' : CheckRootDeviceType b = Some (NAND, b') -> RootType b' = NAND.
Proof.
  unfold CheckRootDeviceType. run. case_if; [by intros [= H <-]|]. bool_to_prop.
  apply bool_decide_eq_true in E.
  case_if; [intros [= H <-]; congruence|]. destruct GetCardInfo as [st card].
  case_if; [intros [= H <-]; congruence|]. run. by intros [= -> <-].
Qed.
Lemma storage_run {A} (m : BootMode -> B A) s a s' : storage m s = Some (a, s') ->
  exists bm b, m bm (Boot (Ld s)) = Some (a, b) /\ s' = set_Ld (set_Boot b (Ld s)) s.
Proof.
  unfold storage, liftL, lift. run. destruct (m _ (Boot (Ld s))) as [[x b]|] eqn:E; [|done].
  intros [= -> <-]. exists (split_mode (UsbTimerStarted s)), b. by split.
Qed.

(** The session with its buffers, before the receive buffer is allocated. *)
Record ready (s : fastboot) : Prop := {
  ready_usb : buffer_ok s (mUsbDataBuffer (Xfer s));
  ready_flash : buffer_ok s (mFlashDataBuffer (Xfer s));
  ready_base : 0 < FastBootBuffer s /\ FastBootBuffer s + Z.of_nat (length (DlMem s)) < 2 ^ 64;
  ready_state : mState (Xfer s) = ExpectCmdState;
  ready_pending : pending s = None;
  ready_timers : Forall (eq FlashCompleteTimer) (timers s);
  ready_complete : IsFlashComplete s = true;
  ready_max : MIN_BUFFER_SIZE / 2 <= MaxDownLoadSize s <= MAX_BUFFER_SIZE
}.
Lemma ready_keeps s s' : ready s -> keeps true s s' -> ready s'.
Proof.
  intros [I1 I2 I3 I4 I5 I6 I7 I8] [Kx Kb Km Kd Kr Kp Kt Kc].
  split; unfold buffer_ok in *; rewrite ?Kx, ?Kb, ?Km, ?Kd, ?Kp; auto.
Qed.

(** The memory that was allocated: whole for NAND, else in two halves. *)
Record arena (Base_ n : Z) (s : fastboot) : Prop := {
  arena_base : FastBootBuffer s = Base_ /\ 0 < Base_ /\ Base_ + Z.of_nat (length (DlMem s)) < 2 ^ 64;
  arena_size : MaxDownLoadSize s = n /\ MIN_BUFFER_SIZE / 2 <= n <= MAX_BUFFER_SIZE /\
    n <= Z.of_nat (length (DlMem s));
  arena_halves : RootType (Boot (Ld s)) = NAND \/ 2 * n <= Z.of_nat (length (DlMem s));
  arena_idle : mState (Xfer s) = ExpectCmdState /\ pending s = None /\
    Forall (eq FlashCompleteTimer) (timers s) /\ IsFlashComplete s = true
}.

Lemma setup_buffers_ready Base_ n : triple (arena Base_ n) (setup_buffers Base_ n) ready.
Proof.
  intros s a s' [(A1 & A2 & A3) (A4 & A5 & A6) A7 (A8 & A9 & A10 & A11)].
  unfold setup_buffers, change_xfer. rewrite bind_run.
  destruct (storage _ s) as [[t s1]|] eqn:E; [|done]. apply storage_run in E as (bm & b & E & ->).
  run. intros [= _ <-].
  assert (H : (bool_decide (t = NAND) = true \/ 2 * n <= Z.of_nat (length (DlMem s)))).
  { destruct A7 as [A7|A7]; [|by right]. rewrite (NAND_cached _ A7) in E. injection E as <- _. by left. }
  assert (Hn : 0 <= n) by (change (MIN_BUFFER_SIZE / 2) with 33554432 in A5; lia).
  split; unfold buffer_ok; cbn; rewrite ?A1, ?A4; try done; try lia.
  destruct (bool_decide (t = NAND)); [lia|]. destruct H; [done|lia].
Qed.

Lemma keeps_cmdlist {c} x : preserves (keeps c) (modify (set_cmdlist x)).
Proof. apply pr_modify. by split. Qed.
Lemma keeps_IsAllowUnlock {c} x : preserves (keeps c) (modify (set_IsAllowUnlock x)).
Proof. apply pr_modify. by split. Qed.
#[local] Hint Resolve keeps_cmdlist keeps_IsAllowUnlock keeps_publish : frame.
Lemma keeps_publish_text {c} n v : preserves (keeps c) (publish_text n v).
Proof. apply keeps_publish. Qed.
#[local] Hint Resolve keeps_publish_text : frame.
Lemma keeps_register {c} cs : preserves (keeps c) (register_commands cs).
Proof. induction cs as [|[p k] cs IH]; cbn [register_commands]; unfold FastbootRegister; frame. Qed.
Lemma keeps_ReadAllow {c} : preserves (keeps c) ReadAllowUnlockValue.
Proof. unfold ReadAllowUnlockValue. frame. Qed.
Lemma keeps_signature {c} n : preserves (keeps c) (CheckPartitionFsSignature n).
Proof. unfold CheckPartitionFsSignature. frame. Qed.
#[local] Hint Resolve keeps_register keeps_ReadAllow keeps_signature : frame.
Lemma keeps_type_loop {c} infos n t : preserves (keeps c) (partition_type_loop infos n t).
Proof. revert t. induction infos as [|x infos IH]; intros t; cbn [partition_type_loop]; frame. Qed.
#[local] Hint Resolve keeps_type_loop : frame.
Lemma keeps_publish_partitions {c} es n i st : preserves (keeps c) (publish_partitions es n i st).
Proof.
  revert i st. induction n as [|n IH]; intros i st; cbn [publish_partitions];
    unfold GetPartitionType, GetPartitionSizeViaName; frame.
Qed.
#[local] Hint Resolve keeps_publish_partitions keeps_Populate : frame.

Lemma CommandSetup_ready info Serial Base_ n :
  triple (arena Base_ n) (FastbootCommandSetup info Serial Base_ n) ready.
Proof.
  unfold FastbootCommandSetup. apply tr_bind with (arena Base_ n).
  { intros s a s' Ha E. apply storage_run in E as (bm & b & E & ->).
    apply PartitionHasMultiSlot_same in E as ->. by destruct s as [[]]. }
  intros m. apply tr_bind with ready; [apply setup_buffers_ready|]. intros _.
  apply tr_keeps; [|apply ready_keeps].
  unfold publish_merge_status, PublishGetVarPartitionInfo, publish_block_sizes, publish_device_state,
    UpdateGetVarVariable. frame.
Qed.

(** What the USB driver promises: a buffer is at an address that is not zero and ends
    below 2^64, and the receive buffer has the size that was asked for. *)
Hypothesis buffer_address : forall n size b,
  AllocateTransferBuffer n size = (EFI_SUCCESS, b) -> 0 < b /\ b + size < 2 ^ 64.
Hypothesis rx_size : EFI_ERROR (fst AllocateRxBuffer) = false ->
  Z.of_nat (length (snd AllocateRxBuffer)) = USB_BUFFER_SIZE.

(** No session has run yet. *)
Record fresh (s : fastboot) : Prop := {
  fresh_state : mState (Xfer s) = ExpectCmdState;
  fresh_pending : pending s = None;
  fresh_timers : timers s = [];
  fresh_complete : IsFlashComplete s = true
}.

Lemma free_range : in_u64 GetMaxAllocatableMemory.
Proof.
  unfold GetMaxAllocatableMemory. destruct MemoryMapSize as [st n]. repeat case_if; try done.
  destruct (GetMemoryMap _) as [st' m]. case_if; [done|]. apply Z.mod_pos_bound. lia.
Qed.

Lemma CmdsInit_ready info Serial s s' :
  fresh s -> FastbootCmdsInit info Serial s = Some (EFI_SUCCESS, s') -> ready s'.
Proof.
  intros [F1 F2 F3 F4]. unfold FastbootCmdsInit. case_if; [intros [= H _]; by rewrite H in E|]. cbv zeta.
  case_if; [by run; intros [=]|]. rewrite bind_run.
  destruct (download_buffer_found _ free_range) as ([st [b size]] & -> & Hr).
  unfold access at 1. rewrite bind_run. run_cbn. destruct (is_success st) eqn:Est; cbn [negb]; [|intros [= -> _]; done].
  apply bool_decide_eq_true in Est as ->. destruct Hr as [[? _]|(_ & Hs & _ & att & Hatt)]; [done|].
  destruct (buffer_address _ _ _ Hatt) as [Hb1 Hb2]. run. set (s1 := set_DlMem _ _).
  destruct (storage _ s1) as [[t s2]|] eqn:Ec; [|done]. apply storage_run in Ec as (bm & bt & Ec & ->).
  set (n := if bool_decide (t = NAND) then size else size / 2). run. set (s3 := set_MaxDownLoadSize n _).
  destruct (FastbootCommandSetup _ _ _ _ s3) as [[st' s4]|] eqn:E4; [|done]. intros [= <-].
  refine (CommandSetup_ready info Serial b n s3 st' s4 _ E4).
  assert (Hlen : Z.of_nat (length (zero_memory size)) = size).
  { unfold zero_memory. rewrite repeat_length. unfold MIN_BUFFER_SIZE in Hs. lia. }
  pose proof (Z.div_mod size 2 ltac:(lia)). pose proof (Z.mod_pos_bound size 2 ltac:(lia)).
  unfold MIN_BUFFER_SIZE, MAX_BUFFER_SIZE in *.
  split; cbn [FastBootBuffer DlMem MaxDownLoadSize Xfer pending timers IsFlashComplete Ld Boot s3 s1
    set_MaxDownLoadSize set_Ld set_Boot set_DlMem set_FastBootBuffer]; rewrite ?Hlen.
  - lia.
  - change (MIN_BUFFER_SIZE / 2) with 33554432. unfold n, MAX_BUFFER_SIZE.
    destruct (bool_decide _); lia.
  - unfold n. destruct (bool_decide (t = NAND)) eqn:Et; [|right; lia].
    apply bool_decide_eq_true in Et as ->. left. by eapply CheckRoot_NAND.
  - by rewrite F3.
Qed.

(** C15 When Fastboot has started, its session is in the invariant: both
    download buffers, of 32 MiB to 1.5 GiB, lie in the memory the driver allocated, no
    matter what the device is, which variables could be published and whether the
    setup failed half way. *)
Theorem fastboot_ready info Serial s s' :
  fresh s -> FastbootUsbDeviceStart info Serial s = Some (EFI_SUCCESS, s') ->
  session_inv s' /\ mState (Xfer s') = ExpectCmdState /\
  MIN_BUFFER_SIZE / 2 <= MaxDownLoadSize s' <= MAX_BUFFER_SIZE.
Proof.
  intros Hf. unfold FastbootUsbDeviceStart. rewrite bind_run.
  destruct (FastbootCmdsInit info Serial s) as [[st s1]|] eqn:E; [|done].
  destruct (is_success st) eqn:Est; cbn [negb]; [|by intros [= -> _]].
  apply bool_decide_eq_true in Est as ->. pose proof (CmdsInit_ready _ _ _ _ Hf E) as [I1 I2 I3 I4 I5 I6 I7 I8].
  case_if; [by intros [=]|]. pose proof rx_size as Hrx.
  destruct AllocateRxBuffer as [strx rx]. case_if; [by intros [=]|]. run.
  case_if; [by intros [=]|]. intros [= _ <-]. split; [|done].
  split; cbn [Xfer FastBootBuffer DlMem RxMem pending timers IsFlashComplete set_RxMem]; try done.
  - by apply Hrx.
  - by rewrite I4.
  - by rewrite I5.
Qed.
End ready.

#[local] Existing Instances demo_Firmware reference_BaseLib reference_UnicodeLib reference_AsciiLib
  demo_BootMode user_BuildConfig demo_LoaderBuild demo_VerifiedBoot demo_Board demo_Fastboot
  demo_Services
  reference_AsciiLib_laws.

Lemma download_buffer_found_witness :
  exists r, allocate_loop ALLOCATE_ROUNDS 0 0x10000000 = Some r /\ allocation_ok r.
Proof. apply download_buffer_found. unfold in_u64. lia. Defined.

Lemma demo_buffer_address n size b :
  AllocateTransferBuffer n size = (EFI_SUCCESS, b) -> 0 < b /\ b + size < 2 ^ 64.
Proof.
  cbn [AllocateTransferBuffer demo_Services]. case_if; [done|]. intros [= <-]. bool_to_prop. lia.
Qed.
Lemma demo_rx_size : EFI_ERROR (fst AllocateRxBuffer) = false ->
  Z.of_nat (length (snd AllocateRxBuffer)) = USB_BUFFER_SIZE.
Proof. intros _. exact demo_rx_length. Qed.
Lemma fastboot_ready_witness :
  exists s', FastbootUsbDeviceStart (mk_board_info (mk_platform 8 0 0 false) 339 [] 0x20001 3 0 0) []
      (demo_start boot_init) = Some (EFI_SUCCESS, s') /\
    session_inv s' /\ mState (Xfer s') = ExpectCmdState /\
    MIN_BUFFER_SIZE / 2 <= MaxDownLoadSize s' <= MAX_BUFFER_SIZE.
Proof.
  eexists. split; [cbv -[zero_memory demo_rx]; reflexivity|].
  eapply (fastboot_ready demo_buffer_address demo_rx_size
    (mk_board_info (mk_platform 8 0 0 false) 339 [] 0x20001 3 0 0) [] (demo_start boot_init));
    [by split|cbv -[zero_memory demo_rx]; reflexivity].
Defined.
