(* ===== verification/FastbootXfer.v ===== *)
(** * A download the host completes.

    From the answer to the download command on, the device asks for the next bytes at
    their place until it has all of them; then it is ready for a command, the buffer
    holds the bytes the host sent, followed by zeros up to the end of the page, and
    nothing else in the memory has changed. *)
From stdpp Require Import base numbers list option strings relations.
From Stdlib Require Import ZArith Lia Ascii.
From S2P Require Import Prelude BaseLib Unicode Storage Bytes StorageSpec Gpt Partitions Slots SlotsSpec Flash DeviceInfo Recovery Board BoardDemo Fastboot FastbootCmds FastbootSetup FastbootDemo FastbootSpec FastbootSafe.
Local Open Scope Z_scope.

(** Two writes in a row are one. *)
Lemma upd_app buf off a b :
  0 <= off -> off + Z.of_nat (length a) + Z.of_nat (length b) <= Z.of_nat (length buf) ->
  upd (upd buf off a) (off + Z.of_nat (length a)) b = upd buf off (a ++ b).
Proof.
  intros H1 H2. apply list_eq. intros i.
  assert (length (upd buf off a) = length buf) by (apply upd_length; lia).
  rewrite !upd_lookup by (rewrite ?length_app; lia).
  rewrite length_app. repeat case_decide; try lia; try done.
  - rewrite lookup_app_r by lia. f_equal. lia.
  - rewrite lookup_app_l by lia. done.
Qed.

Section download.
Context {FW : Firmware} {BL : BaseLib} {UL : UnicodeLib} {AL : AsciiLib} {BM : BootMode}.
Context {BC : BuildConfig} {LB : LoaderBuild} {VB : VerifiedBootProtocol} {BP : BoardProtocols}.
Context {FE : FastbootEnv}.
Context {ALL : AsciiLibLaws AL}.

Fixpoint run_events (es : list usb_event) : F unit :=
  match es with
  | [] => mret tt
  | e :: es' => _ ← HandleUsbEvents e; run_events es'
  end.

(** The device waits for data at the place of the first missing byte. *)
Definition asking (s : fastboot) : Prop :=
  mState (Xfer s) = ExpectDataState /\
  exists n, GetXfrSize s = Some (n, s) /\
    pending s = Some (mUsbDataBuffer (Xfer s) + mBytesReceivedSoFar (Xfer s), n).

Definition missing (s : fastboot) : Z := mNumDataBytes (Xfer s) - mBytesReceivedSoFar (Xfer s).
(** The place of the next byte in the download memory. *)
Definition place (s : fastboot) : Z :=
  mUsbDataBuffer (Xfer s) + mBytesReceivedSoFar (Xfer s) - FastBootBuffer s.

(** The end of the page, and the bytes that are cleared up to it. *)
Definition page_end (k n : Z) : Z := (n + (2 ^ k - 1)) / 2 ^ k * 2 ^ k.
Definition padding (k : Z) (s : fastboot) : nat :=
  let n := mNumDataBytes (Xfer s) in
  if page_end k n <? MaxDownLoadSize s then Z.to_nat (page_end k n - n) else 0.

Variable k : Z.
Hypothesis Hk : 0 <= k <= 31.
Hypothesis page_size : forall b, exists b', GetPageSize b = Some (2 ^ k, b').
Hypothesis sends : forall l o, Send l o = EFI_SUCCESS.

Lemma page_end_ge n : 0 <= n -> n <= page_end k n < n + 2 ^ k.
Proof.
  intros Hn. assert (0 < 2 ^ k) by (apply Z.pow_pos_nonneg; lia). unfold page_end.
  pose proof (Z.div_mod (n + (2 ^ k - 1)) (2 ^ k) ltac:(lia)).
  pose proof (Z.mod_pos_bound (n + (2 ^ k - 1)) (2 ^ k) ltac:(lia)). lia.
Qed.

Lemma store_inside s addr data :
  FastBootBuffer s <= addr ->
  addr + Z.of_nat (length data) <= FastBootBuffer s + Z.of_nat (length (DlMem s)) ->
  store_at addr data s = Some (tt, set_DlMem (upd (DlMem s) (addr - FastBootBuffer s) data) s).
Proof.
  intros H1 H2. unfold store_at. run.
  rewrite (proj2 (andb_true_iff _ _)) by (split; apply Z.leb_le; lia).
  rewrite wr_upd by lia. done.
Qed.

Lemma clear_rest_run s :
  buffer_ok s (mUsbDataBuffer (Xfer s)) ->
  0 < FastBootBuffer s /\ FastBootBuffer s + Z.of_nat (length (DlMem s)) < 2 ^ 64 ->
  0 < mNumDataBytes (Xfer s) <= MaxDownLoadSize s -> MaxDownLoadSize s + 2 ^ k < 2 ^ 32 ->
  exists s', clear_rest (mUsbDataBuffer (Xfer s)) s = Some (tt, s') /\
    DlMem s' = upd (DlMem s) (mUsbDataBuffer (Xfer s) - FastBootBuffer s + mNumDataBytes (Xfer s))
                 (repeat 0 (padding k s)).
Proof.
  intros [HU1 HU2] [HB HE] Hn Hm.
  set (n := mNumDataBytes (Xfer s)) in *. pose proof (page_end_ge n ltac:(lia)) as Hp.
  unfold clear_rest, storage, liftL, lift, xfer. run.
  destruct (page_size (Boot (Ld s))) as [b' ->]. run. cbv zeta.
  change (mNumDataBytes (Xfer (set_Ld _ s))) with n.
  change (MaxDownLoadSize (set_Ld _ s)) with (MaxDownLoadSize s).
  assert (Hpk : 2 ^ k <= 2 ^ 31) by (apply Z.pow_le_mono_r; lia).
  assert (0 < 2 ^ k) by (apply Z.pow_pos_nonneg; lia).
  rewrite (u32_small (2 ^ k - 1)) by (unfold in_u32; lia).
  rewrite ROUND_TO_PAGE_spec by lia. fold (page_end k n).
  rewrite u32_small by (unfold in_u32; lia). unfold padding. fold n.
  destruct (Z.ltb_spec (page_end k n) (MaxDownLoadSize s)) as [Hl|Hl].
  - rewrite !u64_small by (unfold in_u64; lia).
    destruct (Z.ltb_spec (2 ^ 32) (page_end k n - n)); [lia|].
    rewrite store_inside.
    + eexists. split; [reflexivity|]. cbn. f_equal. lia.
    + cbn. lia.
    + cbn. rewrite repeat_length. lia.
  - eexists. split; [reflexivity|]. cbn. unfold upd. cbn [repeat length app].
    by rewrite Nat.add_0_r, take_drop.
Qed.

Lemma OkayDelay_run s :
  exists st s', FastbootOkayDelay s = Some (st, s') /\ DlMem s' = DlMem s /\ Xfer s' = Xfer s.
Proof.
  unfold FastbootOkayDelay, next_timer, FastbootFail, FastbootAck, start_timer, send. run.
  destruct (CreateTimer (timer_calls s)) as [c t]. cbn [fst snd].
  repeat case_if; run; eexists _, _; by repeat split.
Qed.

(** ** One packet *)
Lemma missing_range s : session_inv s -> mState (Xfer s) = ExpectDataState ->
  0 < missing s <= MaxDownLoadSize s /\ 0 <= place s /\
  place s + missing s <= Z.of_nat (length (DlMem s)).
Proof.
  intros Hi Hd. destruct (inv_data s Hi Hd). destruct (inv_usb s Hi). unfold missing, place. lia.
Qed.

(** The state after a packet was stored. *)
Definition stored (d : list Z) (s : fastboot) : fastboot :=
  set_pending None (set_DlMem (upd (DlMem s) (place s) d) s).

Lemma packet_run s d :
  session_inv s -> asking s -> Z.of_nat (length d) <= missing s ->
  HandleUsbEvents (TransferRx d) s =
    (_ ← AcceptData (Z.of_nat (length d)) (mUsbDataBuffer (Xfer s)); mret EFI_SUCCESS) (stored d s).
Proof.
  intros Hi (Hd & n & _ & Hp) Hl. destruct (missing_range s Hi Hd) as (Hm & Hp0 & Hp1).
  cbn [HandleUsbEvents]. run. rewrite Hp. run. unfold place in *. rewrite store_inside by lia.
  run. unfold ProcessBulkXfrCompleteRx, DataReady, xfer. run. fold (place s). fold (stored d s).
  change (Xfer (stored d s)) with (Xfer s). rewrite Hd, bool_decide_true by done. by run.
Qed.

Lemma stored_inv d s : session_inv s -> asking s -> Z.of_nat (length d) <= missing s ->
  session_inv (stored d s).
Proof.
  intros Hi (Hd & _) Hl. destruct (missing_range s Hi Hd) as (Hm & Hp0 & Hp1).
  assert (E : length (upd (DlMem s) (place s) d) = length (DlMem s)) by (apply upd_length; lia).
  destruct Hi as [I1 I2 I3 I4 I5 I6 I7 I8].
  split; unfold buffer_ok in *; cbn; rewrite ?E; auto. done.
Qed.

(** A packet that leaves bytes missing: the device asks for them. *)
Lemma packet_more s d :
  session_inv s -> asking s -> (0 < length d)%nat -> Z.of_nat (length d) < missing s ->
  exists s', HandleUsbEvents (TransferRx d) s = Some (EFI_SUCCESS, s') /\
    asking s' /\ missing s' = missing s - Z.of_nat (length d) /\
    place s' = place s + Z.of_nat (length d) /\ DlMem s' = upd (DlMem s) (place s) d /\
    MaxDownLoadSize s' = MaxDownLoadSize s /\ padding k s' = padding k s /\
    FastBootBuffer s' = FastBootBuffer s.
Proof.
  intros Hi Ha Hl0 Hl. rewrite packet_run by (done || lia). assert (Hd := proj1 Ha).
  destruct (missing_range s Hi Hd) as (Hm & Hp0 & Hp1). destruct (inv_data s Hi Hd) as [Hr Hn].
  destruct (inv_usb s Hi) as [HU1 HU2]. destruct (inv_base s Hi) as [HB HE].
  unfold missing in *. unfold AcceptData. run. cbv zeta. change (Xfer (stored d s)) with (Xfer s).
  rewrite (u64_small (mNumDataBytes (Xfer s) - _)) by (unfold in_u64; lia).
  destruct (Z.ltb_spec (mNumDataBytes (Xfer s) - mBytesReceivedSoFar (Xfer s)) (Z.of_nat (length d))); [lia|].
  rewrite (u64_small (_ + Z.of_nat (length d))) by (unfold in_u64; lia).
  unfold change_xfer. run. destruct (Z.eqb_spec (mBytesReceivedSoFar (Xfer s) + Z.of_nat (length d))
    (mNumDataBytes (Xfer s))); [lia|].
  set (s1 := set_Xfer _ _). rewrite bind_run. destruct (xfer_size s1) as (m & Hx & Hn'). rewrite Hx.
  rewrite u64_small by (unfold in_u64; lia). unfold send. run. rewrite sends.
  change (is_success EFI_SUCCESS) with true. cbv iota. run.
  eexists. split; [reflexivity|]. split.
  { split; [exact Hd|]. exists m. split.
    - unfold GetXfrSize. run. cbv zeta. do 2 f_equal. rewrite Hn'. reflexivity.
    - cbn. f_equal; f_equal; lia. }
  unfold place. cbn. repeat split; lia.
Qed.

(** The packet with the last bytes. *)
Lemma packet_last s d :
  session_inv s -> asking s -> Z.of_nat (length d) = missing s ->
  MaxDownLoadSize s + 2 ^ k < 2 ^ 32 ->
  exists s', HandleUsbEvents (TransferRx d) s = Some (EFI_SUCCESS, s') /\
    mState (Xfer s') = ExpectCmdState /\
    DlMem s' = upd (DlMem s) (place s) (d ++ repeat 0 (padding k s)).
Proof.
  intros Hi Ha Hl Hmax. rewrite packet_run by (done || lia). assert (Hd := proj1 Ha).
  destruct (missing_range s Hi Hd) as (Hm & Hp0 & Hp1). destruct (inv_data s Hi Hd) as [Hr Hn].
  destruct (inv_usb s Hi) as [HU1 HU2]. destruct (inv_base s Hi) as [HB HE].
  pose proof (stored_inv d s Hi Ha ltac:(lia)) as [I1 I2 I3 I4 I5 I6 I7 I8].
  unfold missing in *. unfold AcceptData. run. cbv zeta. change (Xfer (stored d s)) with (Xfer s) in *.
  rewrite (u64_small (mNumDataBytes (Xfer s) - _)) by (unfold in_u64; lia).
  destruct (Z.ltb_spec (mNumDataBytes (Xfer s) - mBytesReceivedSoFar (Xfer s)) (Z.of_nat (length d))); [lia|].
  rewrite (u64_small (_ + Z.of_nat (length d))) by (unfold in_u64; lia).
  unfold change_xfer. run. destruct (Z.eqb_spec (mBytesReceivedSoFar (Xfer s) + Z.of_nat (length d))
    (mNumDataBytes (Xfer s))); [|lia].
  set (s1 := set_Xfer _ _).
  assert (Hn0 : 0 < mNumDataBytes (Xfer s) <= MaxDownLoadSize s) by lia.
  destruct (clear_rest_run s1) as (s2 & Hc & Hm2); [exact I1|exact I3|exact Hn0|exact Hmax|].
  change (mUsbDataBuffer (Xfer s1)) with (mUsbDataBuffer (Xfer s)) in Hc. rewrite bind_run, Hc.
  run. unfold StopUsbTimer. run. set (s3 := set_UsbTimerStarted _ _).
  destruct (OkayDelay_run s3) as (st & s4 & Ho & Hdl & Hx). rewrite Ho. run_cbn.
  eexists. split; [reflexivity|]. split; [by rewrite Hx|]. rewrite Hdl. cbn. rewrite Hm2.
  rewrite <- upd_app.
  - unfold place. cbn. f_equal. lia.
  - done.
  - rewrite repeat_length. unfold padding. case_if; [|lia]. bool_to_prop.
    pose proof (page_end_ge (mNumDataBytes (Xfer s)) ltac:(lia)). unfold place. lia.
Qed.

(** ** All packets *)
Lemma packets_run ds s :
  session_inv s -> asking s -> Forall (fun d => (0 < length d)%nat) ds ->
  Z.of_nat (length (concat ds)) = missing s -> MaxDownLoadSize s + 2 ^ k < 2 ^ 32 ->
  exists s', run_events (TransferRx <$> ds) s = Some (tt, s') /\
    mState (Xfer s') = ExpectCmdState /\
    DlMem s' = upd (DlMem s) (place s) (concat ds ++ repeat 0 (padding k s)).
Proof.
  revert s. induction ds as [|d ds IH]; intros s Hi Ha Hds Hl Hmax.
  { destruct (missing_range s Hi (proj1 Ha)). cbn in Hl. lia. }
  apply Forall_cons in Hds as [Hd0 Hds]. cbn [concat] in Hl. rewrite length_app in Hl.
  change (TransferRx <$> d :: ds) with (TransferRx d :: (TransferRx <$> ds)). cbn [run_events concat].
  rewrite bind_run. destruct ds as [|d2 ds].
  { cbn [concat length] in *. destruct (packet_last s d Hi Ha ltac:(lia) Hmax) as (s' & Hr & Hs & Hm).
    rewrite Hr. exists s'. split; [done|]. split; [done|]. by rewrite app_nil_r. }
  assert (Hd2 : (0 < length (concat (d2 :: ds)))%nat).
  { apply Forall_cons in Hds as [H2 _]. cbn [concat]. rewrite length_app. lia. }
  destruct (packet_more s d Hi Ha Hd0 ltac:(lia)) as (s1 & Hr & Ha1 & Hm1 & Hp1 & Hdl1 & Hx1 & Hpad & _).
  rewrite Hr. destruct (IH s1) as (s' & Hr' & Hs' & Hm').
  - by eapply HandleUsbEvents_inv.
  - done.
  - done.
  - lia.
  - by rewrite Hx1.
  - exists s'. split; [exact Hr'|]. split; [done|]. rewrite Hm', Hdl1, Hp1, Hpad, <- (assoc_L (++)).
    apply upd_app.
    + destruct (missing_range s Hi (proj1 Ha)); lia.
    + destruct (missing_range s Hi (proj1 Ha)) as (H1 & H2 & H3).
      destruct (inv_data s Hi (proj1 Ha)). destruct (inv_usb s Hi).
      rewrite length_app, repeat_length. unfold padding. unfold missing, place in *. case_if; [|lia].
      bool_to_prop. pose proof (page_end_ge (mNumDataBytes (Xfer s)) ltac:(lia)). lia.
Qed.

(** C14 A download the host completes ends: when the device waits for
    the rest of an announced download and the host sends exactly the missing bytes, in
    packets of any size, every packet is accepted, and after the last one the device is
    ready for a command and its memory holds these bytes at their place, zeros up to
    the end of the page where the buffer has room, and is otherwise as before. *)
Theorem download_complete ds s :
  session_inv s -> asking s -> Forall (fun d => (0 < length d)%nat) ds ->
  Z.of_nat (length (concat ds)) = missing s -> MaxDownLoadSize s + 2 ^ k < 2 ^ 32 ->
  exists s', run_events (TransferRx <$> ds) s = Some (tt, s') /\
    mState (Xfer s') = ExpectCmdState /\
    DlMem s' = upd (DlMem s) (place s) (concat ds ++ repeat 0 (padding k s)).
Proof. apply packets_run. Qed.
End download.

#[local] Existing Instances demo_Firmware reference_BaseLib reference_UnicodeLib reference_AsciiLib
  demo_BootMode user_BuildConfig demo_LoaderBuild demo_VerifiedBoot demo_Board demo_Fastboot
  reference_AsciiLib_laws.

(** 700 bytes are announced, pages have 512. *)
Definition demo_asking : fastboot :=
  demo_session boot_init [] 2048 demo_rx ExpectDataState 700 0 (Some (0x90000000, 700)).
Lemma demo_page_size b : exists b', GetPageSize b = Some (2 ^ 9, b').
Proof.
  unfold GetPageSize, CheckRootDeviceType. run.
  destruct (RootType b) eqn:E; eexists; cbn; rewrite ?E; reflexivity.
Qed.
Lemma download_complete_witness :
  exists s', run_events (TransferRx <$> [repeat 1 300; repeat 2 400]) demo_asking = Some (tt, s') /\
    mState (Xfer s') = ExpectCmdState /\
    DlMem s' = upd (DlMem demo_asking) (place demo_asking)
      (concat [repeat 1 300; repeat 2 400] ++ repeat 0 (padding 9 demo_asking)).
Proof.
  apply (download_complete (FE := demo_Fastboot) 9 ltac:(lia) demo_page_size (fun _ _ => eq_refl)).
  - apply demo_session_inv; [lia|lia|]. intros addr len [= <- <-]. lia.
  - split; [done|]. by exists 700.
  - repeat constructor; cbn; lia.
  - reflexivity.
  - vm_compute. reflexivity.
Defined.
