(* ===== verification/ShellCode.v ===== *)
(** * The code injected into the loader of Windows.

    [Platforms/AndromedaPkg/Library/KernelErrataPatcherLib/ShellCode.h], byte by byte.
    The machine code is data here: what it does when it runs is not modelled. *)
From stdpp Require Import base numbers list.
From Stdlib Require Import ZArith.
Local Open Scope Z_scope.

Definition ACTLR_EL1_UNIMPLEMENTED_PATCH : list Z := [
  0xeb; 0x03; 0x00; 0xaa; 0x68; 0x0d; 0x41; 0xf8; 0x1f; 0x01; 0x0b; 0xeb; 0x20; 0x04; 0x00; 0x54;
  0x06; 0x05; 0x82; 0x52; 0x06; 0xa7; 0xba; 0x72; 0x07; 0xfb; 0x9d; 0x52; 0xe7; 0x5c; 0xa5; 0x72;
  0xea; 0x03; 0x84; 0x52; 0x6a; 0xa0; 0xba; 0x72; 0x09; 0x01; 0x80; 0x52; 0x09; 0x50; 0xba; 0x72;
  0x10; 0x00; 0x00; 0x14; 0x49; 0x00; 0x00; 0xb9; 0x42; 0x10; 0x00; 0x91; 0x5f; 0x00; 0x04; 0xeb;
  0x22; 0x01; 0x00; 0x54; 0x43; 0x00; 0x40; 0xb9; 0x7f; 0x00; 0x06; 0x6b; 0x40; 0xff; 0xff; 0x54;
  0x63; 0x00; 0x07; 0x0b; 0x7f; 0x04; 0x00; 0x71; 0x08; 0xff; 0xff; 0x54; 0x4a; 0x00; 0x00; 0xb9;
  0xf6; 0xff; 0xff; 0x17; 0x08; 0x01; 0x40; 0xf9; 0x1f; 0x01; 0x0b; 0xeb; 0x09; 0x00; 0x00; 0x14;
  0x02; 0x19; 0x40; 0xf9; 0x04; 0x41; 0x40; 0xb9; 0x84; 0x00; 0x02; 0x8b; 0x5f; 0x00; 0x04; 0xeb;
  0x23; 0xfe; 0xff; 0x54; 0xf8; 0xff; 0xff; 0x17; 0x00; 0x00; 0x00; 0x14; 0x1f; 0x20; 0x03; 0xd5].

Definition AMCNTENSET0_EL0_UNIMPLEMENTED_PATCH : list Z := [
  0xe8; 0x03; 0x00; 0xaa; 0x06; 0x0d; 0x41; 0xf8; 0xdf; 0x00; 0x08; 0xeb; 0x20; 0x03; 0x00; 0x54;
  0x05; 0x55; 0x9a; 0x52; 0x65; 0xa7; 0xba; 0x72; 0x07; 0x01; 0x80; 0x52; 0x07; 0x50; 0xba; 0x72;
  0x0c; 0x00; 0x00; 0x14; 0x42; 0x10; 0x00; 0x91; 0x5f; 0x00; 0x04; 0xeb; 0xc2; 0x00; 0x00; 0x54;
  0x43; 0x00; 0x40; 0xb9; 0x7f; 0x00; 0x05; 0x6b; 0x61; 0xff; 0xff; 0x54; 0x47; 0x00; 0x00; 0xb9;
  0xf9; 0xff; 0xff; 0x17; 0xc6; 0x00; 0x40; 0xf9; 0xdf; 0x00; 0x08; 0xeb; 0x09; 0x00; 0x00; 0x14;
  0xc2; 0x18; 0x40; 0xf9; 0xc4; 0x40; 0x40; 0xb9; 0x84; 0x00; 0x02; 0x8b; 0x5f; 0x00; 0x04; 0xeb;
  0x83; 0xfe; 0xff; 0x54; 0xf8; 0xff; 0xff; 0x17; 0x00; 0x00; 0x00; 0x14; 0x1f; 0x20; 0x03; 0xd5].

Definition GIC_V3_WITHOUT_IRM_FLAG_SUPPORT_PATCH : list Z := [
  0xea; 0x03; 0x00; 0xaa; 0x49; 0x0d; 0x41; 0xf8; 0x3f; 0x01; 0x0a; 0xeb; 0xa0; 0x0c; 0x00; 0x54;
  0x03; 0x00; 0x80; 0xd2; 0x04; 0x00; 0x80; 0xd2; 0x48; 0x75; 0x99; 0x52; 0x08; 0xa3; 0xba; 0x72;
  0x67; 0x00; 0x80; 0xd2; 0x27; 0x01; 0xa0; 0xf2; 0xc7; 0x02; 0xc0; 0xf2; 0x27; 0x01; 0xe0; 0xf2;
  0x04; 0x00; 0x00; 0x14; 0x29; 0x01; 0x40; 0xf9; 0x3f; 0x01; 0x0a; 0xeb; 0x13; 0x00; 0x00; 0x14;
  0x22; 0x19; 0x40; 0xf9; 0x26; 0x41; 0x40; 0xb9; 0xc6; 0x00; 0x02; 0x8b; 0x5f; 0x00; 0x06; 0xeb;
  0x22; 0xff; 0xff; 0x54; 0x45; 0x00; 0x40; 0xb9; 0xbf; 0x00; 0x08; 0x6b; 0x84; 0x10; 0x82; 0x9a;
  0x45; 0x00; 0x40; 0xf9; 0xbf; 0x00; 0x07; 0xeb; 0x63; 0x10; 0x82; 0x9a; 0x9f; 0x00; 0x00; 0xf1;
  0x64; 0x18; 0x40; 0xfa; 0x01; 0xfe; 0xff; 0x54; 0x42; 0x10; 0x00; 0x91; 0x5f; 0x00; 0x06; 0xeb;
  0xa3; 0xfe; 0xff; 0x54; 0xec; 0xff; 0xff; 0x17; 0x9f; 0x00; 0x00; 0xf1; 0x64; 0x18; 0x40; 0xfa;
  0x80; 0x08; 0x00; 0x54; 0x62; 0xa0; 0x02; 0xd1; 0x42; 0x00; 0x04; 0xcb; 0x42; 0x6c; 0x02; 0x53;
  0x05; 0x80; 0xb2; 0x52; 0x42; 0x00; 0x05; 0x2a; 0x82; 0x00; 0x00; 0xb9; 0xa2; 0x7f; 0x8f; 0xd2;
  0xe2; 0x37; 0xb5; 0xf2; 0xa2; 0x7f; 0xc0; 0xf2; 0x02; 0x20; 0xf2; 0xf2; 0x62; 0x80; 0x15; 0xf8;
  0x42; 0x49; 0x80; 0xd2; 0x02; 0xc8; 0xb6; 0xf2; 0x42; 0x29; 0xdf; 0xf2; 0xe2; 0x4a; 0xf2; 0xf2;
  0x62; 0x00; 0x16; 0xf8; 0x42; 0x29; 0x80; 0xd2; 0x02; 0x48; 0xb6; 0xf2; 0xc2; 0x7e; 0xc0; 0xf2;
  0x42; 0x41; 0xf5; 0xf2; 0x62; 0x80; 0x16; 0xf8; 0x22; 0x15; 0x80; 0xd2; 0x02; 0xa7; 0xba; 0xf2;
  0x22; 0xa5; 0xc1; 0xf2; 0x02; 0x4f; 0xf2; 0xf2; 0x62; 0x00; 0x17; 0xf8; 0x82; 0x02; 0x80; 0xd2;
  0x02; 0x50; 0xba; 0xf2; 0xa2; 0x22; 0xc0; 0xf2; 0x02; 0x50; 0xea; 0xf2; 0x62; 0x80; 0x17; 0xf8;
  0xe2; 0x53; 0x84; 0xd2; 0x22; 0x69; 0xbd; 0xf2; 0x02; 0x14; 0xc0; 0xf2; 0x02; 0x80; 0xea; 0xf2;
  0x62; 0x00; 0x18; 0xf8; 0x02; 0xd1; 0x97; 0xd2; 0x02; 0x6e; 0xba; 0xf2; 0x42; 0x59; 0xc0; 0xf2;
  0x02; 0x41; 0xf5; 0xf2; 0x62; 0x80; 0x18; 0xf8; 0x42; 0x75; 0x99; 0xd2; 0x02; 0xa3; 0xba; 0xf2;
  0xe2; 0xf3; 0xc7; 0xf2; 0x62; 0xa0; 0xfa; 0xf2; 0x62; 0x00; 0x19; 0xf8; 0x82; 0xd2; 0x80; 0xd2;
  0x02; 0x20; 0xb2; 0xf2; 0xa2; 0xd6; 0xc0; 0xf2; 0x02; 0x20; 0xea; 0xf2; 0x62; 0x80; 0x19; 0xf8;
  0xa2; 0xe2; 0x9f; 0xd2; 0xe2; 0xbf; 0xa6; 0xf2; 0x42; 0x00; 0xc0; 0xf2; 0x02; 0x80; 0xe2; 0xf2;
  0x62; 0x00; 0x1a; 0xf8; 0x42; 0x75; 0x99; 0xd2; 0x02; 0xa3; 0xba; 0xf2; 0xa2; 0x7f; 0xcf; 0xf2;
  0x22; 0x18; 0xf5; 0xf2; 0x62; 0x80; 0x1a; 0xf8; 0x02; 0x78; 0x80; 0x52; 0xe2; 0xcb; 0xba; 0x72;
  0x62; 0x00; 0x1b; 0xb8; 0x1f; 0x20; 0x03; 0xd5; 0x1f; 0x20; 0x03; 0xd5; 0x1f; 0x20; 0x03; 0xd5].

Definition GIC_V3_WITHOUT_IRM_FLAG_SUPPORT_X8_VARIANT_PATCH : list Z := [
  0xea; 0x03; 0x00; 0xaa; 0x49; 0x0d; 0x41; 0xf8; 0x3f; 0x01; 0x0a; 0xeb; 0xa0; 0x0c; 0x00; 0x54;
  0x03; 0x00; 0x80; 0xd2; 0x04; 0x00; 0x80; 0xd2; 0x08; 0x75; 0x99; 0x52; 0x08; 0xa3; 0xba; 0x72;
  0x67; 0x00; 0x80; 0xd2; 0x27; 0x01; 0xa0; 0xf2; 0xc7; 0x02; 0xc0; 0xf2; 0x27; 0x01; 0xe0; 0xf2;
  0x04; 0x00; 0x00; 0x14; 0x29; 0x01; 0x40; 0xf9; 0x3f; 0x01; 0x0a; 0xeb; 0x13; 0x00; 0x00; 0x14;
  0x22; 0x19; 0x40; 0xf9; 0x26; 0x41; 0x40; 0xb9; 0xc6; 0x00; 0x02; 0x8b; 0x5f; 0x00; 0x06; 0xeb;
  0x22; 0xff; 0xff; 0x54; 0x45; 0x00; 0x40; 0xb9; 0xbf; 0x00; 0x08; 0x6b; 0x84; 0x10; 0x82; 0x9a;
  0x45; 0x00; 0x40; 0xf9; 0xbf; 0x00; 0x07; 0xeb; 0x63; 0x10; 0x82; 0x9a; 0x9f; 0x00; 0x00; 0xf1;
  0x64; 0x18; 0x40; 0xfa; 0x01; 0xfe; 0xff; 0x54; 0x42; 0x10; 0x00; 0x91; 0x5f; 0x00; 0x06; 0xeb;
  0xa3; 0xfe; 0xff; 0x54; 0xec; 0xff; 0xff; 0x17; 0x9f; 0x00; 0x00; 0xf1; 0x64; 0x18; 0x40; 0xfa;
  0x80; 0x08; 0x00; 0x54; 0x62; 0xa0; 0x02; 0xd1; 0x42; 0x00; 0x04; 0xcb; 0x42; 0x6c; 0x02; 0x53;
  0x05; 0x80; 0xb2; 0x52; 0x42; 0x00; 0x05; 0x2a; 0x82; 0x00; 0x00; 0xb9; 0xa2; 0x7f; 0x8f; 0xd2;
  0xe2; 0x37; 0xb5; 0xf2; 0xa2; 0x7f; 0xc0; 0xf2; 0x02; 0x20; 0xf2; 0xf2; 0x62; 0x80; 0x15; 0xf8;
  0x02; 0x49; 0x80; 0xd2; 0x02; 0xc8; 0xb6; 0xf2; 0x02; 0x21; 0xdf; 0xf2; 0xe2; 0x4a; 0xf2; 0xf2;
  0x62; 0x00; 0x16; 0xf8; 0x02; 0x21; 0x80; 0xd2; 0x02; 0x48; 0xb6; 0xf2; 0xc2; 0x7e; 0xc0; 0xf2;
  0x02; 0x41; 0xf5; 0xf2; 0x62; 0x80; 0x16; 0xf8; 0x22; 0x15; 0x80; 0xd2; 0x02; 0xa7; 0xba; 0xf2;
  0x22; 0xa5; 0xc1; 0xf2; 0x02; 0x4f; 0xf2; 0xf2; 0x62; 0x00; 0x17; 0xf8; 0x82; 0x02; 0x80; 0xd2;
  0x02; 0x50; 0xba; 0xf2; 0xa2; 0x22; 0xc0; 0xf2; 0x02; 0x50; 0xea; 0xf2; 0x62; 0x80; 0x17; 0xf8;
  0xe2; 0x53; 0x84; 0xd2; 0x22; 0x69; 0xbd; 0xf2; 0x02; 0x14; 0xc0; 0xf2; 0x02; 0x80; 0xea; 0xf2;
  0x62; 0x00; 0x18; 0xf8; 0x42; 0xd1; 0x97; 0xd2; 0x02; 0x6e; 0xba; 0xf2; 0x02; 0x59; 0xc0; 0xf2;
  0x42; 0x41; 0xf5; 0xf2; 0x62; 0x80; 0x18; 0xf8; 0x02; 0x75; 0x99; 0xd2; 0x02; 0xa3; 0xba; 0xf2;
  0xe2; 0xf3; 0xc7; 0xf2; 0x62; 0xa0; 0xfa; 0xf2; 0x62; 0x00; 0x19; 0xf8; 0x82; 0xd2; 0x80; 0xd2;
  0x02; 0x20; 0xb2; 0xf2; 0xa2; 0xd6; 0xc0; 0xf2; 0x02; 0x20; 0xea; 0xf2; 0x62; 0x80; 0x19; 0xf8;
  0xa2; 0xe2; 0x9f; 0xd2; 0xe2; 0xbf; 0xa6; 0xf2; 0x42; 0x00; 0xc0; 0xf2; 0x02; 0x80; 0xe2; 0xf2;
  0x62; 0x00; 0x1a; 0xf8; 0x02; 0x75; 0x99; 0xd2; 0x02; 0xa3; 0xba; 0xf2; 0xa2; 0x7f; 0xcf; 0xf2;
  0x22; 0x18; 0xf5; 0xf2; 0x62; 0x80; 0x1a; 0xf8; 0x02; 0x78; 0x80; 0x52; 0xe2; 0xcb; 0xba; 0x72;
  0x62; 0x00; 0x1b; 0xb8; 0x1f; 0x20; 0x03; 0xd5; 0x1f; 0x20; 0x03; 0xd5; 0x1f; 0x20; 0x03; 0xd5].

Definition PSCI_MEMPROTECT_FAILING_PATCH : list Z := [
  0xec; 0x03; 0x00; 0xaa; 0x88; 0x0d; 0x41; 0xf8; 0x1f; 0x01; 0x0c; 0xeb; 0x20; 0x06; 0x00; 0x54;
  0xa6; 0x5a; 0x80; 0xd2; 0x06; 0x00; 0xa3; 0xf2; 0x66; 0x00; 0xc0; 0xf2; 0x06; 0x50; 0xfa; 0xf2;
  0x67; 0x00; 0x80; 0xd2; 0x07; 0x50; 0xba; 0xf2; 0x47; 0x00; 0xc0; 0xf2; 0x07; 0x50; 0xfa; 0xf2;
  0x2a; 0x00; 0x80; 0xd2; 0x0a; 0x50; 0xba; 0xf2; 0x0a; 0x48; 0xc0; 0xf2; 0x0a; 0x00; 0xe3; 0xf2;
  0x0b; 0x78; 0x80; 0x52; 0xeb; 0xcb; 0xba; 0x72; 0x49; 0x00; 0x80; 0xd2; 0x09; 0x50; 0xba; 0xf2;
  0x29; 0x00; 0xc0; 0xf2; 0x09; 0x50; 0xfa; 0xf2; 0x17; 0x00; 0x00; 0x14; 0x43; 0x04; 0x40; 0xf9;
  0x7f; 0x00; 0x09; 0xeb; 0xe0; 0x01; 0x00; 0x54; 0x42; 0x10; 0x00; 0x91; 0x5f; 0x00; 0x05; 0xeb;
  0xc2; 0x01; 0x00; 0x54; 0x43; 0x00; 0x40; 0xf9; 0x7f; 0x00; 0x06; 0xeb; 0x00; 0xff; 0xff; 0x54;
  0x7f; 0x00; 0x07; 0xeb; 0x21; 0xff; 0xff; 0x54; 0x43; 0x04; 0x40; 0xf9; 0x63; 0xf8; 0x58; 0x92;
  0x7f; 0x00; 0x0a; 0xeb; 0xa1; 0xfe; 0xff; 0x54; 0x4b; 0x40; 0x1e; 0xb8; 0xf3; 0xff; 0xff; 0x17;
  0x4b; 0x00; 0x1e; 0xb8; 0xf1; 0xff; 0xff; 0x17; 0x08; 0x01; 0x40; 0xf9; 0x1f; 0x01; 0x0c; 0xeb;
  0x08; 0x00; 0x00; 0x14; 0x02; 0x19; 0x40; 0xf9; 0x05; 0x41; 0x40; 0xb9; 0xa5; 0x00; 0x02; 0x8b;
  0x5f; 0x00; 0x05; 0xeb; 0x83; 0xfd; 0xff; 0x54; 0xf8; 0xff; 0xff; 0x17; 0x00; 0x00; 0x00; 0x14].
