(* ===== verification/KernelPatch.v ===== *)
(** * KernelErrataPatcherLib: the loader of Windows is patched before it starts the
    kernel.

    [Platforms/AndromedaPkg/Library/KernelErrataPatcherLib]: Utilities.c (the search for
    the image of the loader and for a pattern), OsLoaderIntercepter.c (the patches),
    MmuProtectionHelper.c (write protection) and BootServicesIntercepter.c (the hook in
    the table of boot services).

    The memory from the address [MemBase] on is a list of bytes; a pointer is an
    address, and an access outside of the list is a fault.  The memory attribute protocol
    and the boot services are called only, their answers are parameters. *)
From stdpp Require Import base numbers list option strings.
From Stdlib Require Import ZArith Lia Ascii.
From S2P Require Import Prelude BaseLib Unicode Storage Bytes ShellCode.
Local Open Scope Z_scope.

(** ** Configuration: the errata of a platform, in its .dsc file *)
Class PatcherConfig := {
  HAS_ACTLR_EL1_UNIMPLEMENTED_ERRATA : bool;
  HAS_AMCNTENSET0_EL0_UNIMPLEMENTED_ERRATA : bool;
  HAS_GIC_V3_WITHOUT_IRM_FLAG_SUPPORT_ERRATA : bool;
  HAS_PSCI_MEMPROTECT_FAILING_ERRATA : bool
}.
Definition SurfaceDuo1_errata : PatcherConfig := Build_PatcherConfig false false false true.
Definition SurfaceDuo2_errata : PatcherConfig := Build_PatcherConfig true false true false.

(** ** Constants of KernelErrataPatcherLib.h and Utilities.c *)
Definition SCAN_MAX : Z := 0x300000.
Definition IMAGE_DOS_SIGNATURE : Z := 0x5A4D.
Definition IMAGE_NT_SIGNATURE : Z := 0x00004550.
Definition ARM64_INSTRUCTION_LENGTH : Z := 4.

(** [TargetOffset - CurrentOffset] is an unsigned difference of 64 bits. *)
Definition ARM64_BRANCH_LOCATION_INSTRUCTION (CurrentOffset TargetOffset : Z) : Z :=
  Z.lor 0x94000000
    (Z.land (u32 (u64 (TargetOffset - CurrentOffset) / ARM64_INSTRUCTION_LENGTH)) 0x7FFFFFF).

Definition IN_RANGE (x a b : Z) : bool := (a <=? x) && (x <=? b).
Definition GET_BITS (x : Z) : Z :=
  let upper := Z.land x (Z.lnot 0x20) in
  if IN_RANGE upper (ch "A") (ch "F") then upper - ch "A" + 0xA
  else if IN_RANGE x (ch "0") (ch "9") then x - ch "0" else 0.
Definition GET_BYTE (a b : Z) : Z := Z.lor (Z.shiftl (GET_BITS a) 4) (GET_BITS b).

(** The offsets of OslArm64TransferToKernel in the releases of the loader, with the
    instruction that follows a call of it, in the order they are tried. *)
Definition loader_releases : list (Z * Z) := [
  (0xE80, 0x52800015); (0xDD0, 0x52800015); (0xC60, 0x52800015); (0x8D0, 0x52800014);
  (0x850, 0xD2800002); (0x480, 0xD2800002); (0x400, 0xD2800002)].

(** ** State *)
Inductive attribute_call :=
| ClearMemoryAttributes (BaseAddress Length : Z)
| SetMemoryAttributes (BaseAddress Length : Z).
Definition EFI_MEMORY_RO : Z := 0x20000.

(** [Original] is the service of the firmware. *)
Inductive exit_service := Original | ExitBootServicesWrapper.
Record boot_services := mk_boot_services { ExitBootServices : exit_service; CRC32 : Z }.

Record patcher := mk_patcher {
  Mem : list Z;
  mMemoryAttributeProtocol : bool;
  WinloadAttributes : Z;
  attribute_calls : list attribute_call;
  gBS : boot_services;
  mOriginalEfiExitBootServices : option exit_service
}.
Definition set_Mem m s := mk_patcher m (mMemoryAttributeProtocol s) (WinloadAttributes s)
  (attribute_calls s) (gBS s) (mOriginalEfiExitBootServices s).
Definition set_protocol p s := mk_patcher (Mem s) p (WinloadAttributes s)
  (attribute_calls s) (gBS s) (mOriginalEfiExitBootServices s).
Definition set_WinloadAttributes a s := mk_patcher (Mem s) (mMemoryAttributeProtocol s) a
  (attribute_calls s) (gBS s) (mOriginalEfiExitBootServices s).
Definition add_call c s := mk_patcher (Mem s) (mMemoryAttributeProtocol s) (WinloadAttributes s)
  (attribute_calls s ++ [c]) (gBS s) (mOriginalEfiExitBootServices s).
Definition set_gBS b s := mk_patcher (Mem s) (mMemoryAttributeProtocol s) (WinloadAttributes s)
  (attribute_calls s) b (mOriginalEfiExitBootServices s).
Definition set_original o s := mk_patcher (Mem s) (mMemoryAttributeProtocol s)
  (WinloadAttributes s) (attribute_calls s) (gBS s) o.

(** The firmware: whether the memory attribute protocol exists, its answers, which
    depend on the calls so far, the checksum of the table and the answer of the
    original ExitBootServices. *)
Class PatcherServices := {
  LocateMemoryAttributeProtocol : EFI_STATUS;
  GetMemoryAttributes : list attribute_call -> Z -> Z -> EFI_STATUS * Z;
  attribute_answer : list attribute_call -> attribute_call -> EFI_STATUS;
  CalculateCrc32 : boot_services -> Z;
  ExitBootServices_answer : Z -> EFI_STATUS
}.

Section patcher.
Context `{PatcherConfig, PatcherServices}.
Variable MemBase : Z.
Abbreviation P := (M patcher).

Definition OslArm64TransferToKernelShellCode : list Z :=
  (if HAS_ACTLR_EL1_UNIMPLEMENTED_ERRATA then ACTLR_EL1_UNIMPLEMENTED_PATCH else []) ++
  (if HAS_AMCNTENSET0_EL0_UNIMPLEMENTED_ERRATA then AMCNTENSET0_EL0_UNIMPLEMENTED_PATCH else []) ++
  (if HAS_GIC_V3_WITHOUT_IRM_FLAG_SUPPORT_ERRATA
   then GIC_V3_WITHOUT_IRM_FLAG_SUPPORT_PATCH ++ GIC_V3_WITHOUT_IRM_FLAG_SUPPORT_X8_VARIANT_PATCH
   else []) ++
  (if HAS_PSCI_MEMPROTECT_FAILING_ERRATA then PSCI_MEMPROTECT_FAILING_PATCH else []).

(** ** Memory *)
Definition load_word (n : nat) (address : Z) : P Z :=
  m ← gets Mem; access (field n m (address - MemBase)).
Definition CopyMemory (destination : Z) (source : list Z) : P unit :=
  m ← gets Mem; m' ← access (wr m (destination - MemBase) source); modify (set_Mem m').

(** ** Utilities.c *)
Definition page_round (x : Z) : Z :=
  if Z.land x (EFI_PAGE_SIZE - 1) =? 0 then x
  else u64 (Z.land x (Z.lnot (EFI_PAGE_SIZE - 1)) + EFI_PAGE_SIZE).

(** One page of the search: the size when an image starts there. *)
Definition winload_at (base : Z) : P (option Z) :=
  dos ← load_word 2 base;
  if dos =? IMAGE_DOS_SIGNATURE then
    newBaseOffset ← load_word 4 (u64 (base + 0x3C));
    let newBase := u64 (base + newBaseOffset) in
    nt ← load_word 2 newBase;
    if nt =? IMAGE_NT_SIGNATURE then
      size ← load_word 4 (u64 (newBase + 0x110));
      mret (Some (page_round size))
    else mret None
  else mret None.

Fixpoint locate_loop (fuel : nat) (base : Z) : P (Z * Z) :=
  match fuel with
  | O => crash
  | S fuel' =>
    found ← winload_at base;
    match found with
    | Some size => mret (base, size)
    | None => locate_loop fuel' (u64 (base - EFI_PAGE_SIZE))
    end
  end.

(** The loop has no end of its own: it goes down until it leaves the memory. *)
Definition LocateWinloadBase (base : Z) : P (Z * Z) :=
  let base := page_round base in
  locate_loop (S (Z.to_nat ((base - MemBase) / EFI_PAGE_SIZE))) base.

(** [p] is the position of [currentPattern] in [pattern]. *)
Definition byte_matches (pattern : list Z) (byte current : Z) (p : nat) : P bool :=
  if byte =? ch "?" then mret true else
  m ← load_word 1 current;
  low ← access (cstr_at pattern (p + 1));
  mret (m =? GET_BYTE byte low).
Fixpoint find_loop (n : nat) (pattern : list Z) (current : Z) (p : nat) (firstMatch : Z) : P Z :=
  match n with
  | O => mret 0
  | S n' =>
    byte ← access (cstr_at pattern p);
    if byte =? 0 then mret firstMatch else
    hit ← byte_matches pattern byte current p;
    if hit : bool then
      let firstMatch := if firstMatch =? 0 then current else firstMatch in
      next ← access (cstr_at pattern (p + 2));
      if next =? 0 then mret firstMatch
      else find_loop n' pattern (current + 1)
             (p + (if byte =? ch "?" then 2 else 3)) firstMatch
    else find_loop n' pattern (current + 1) 0 0
  end.
Definition FindPattern (baseAddress size : Z) (pattern : list Z) : P Z :=
  find_loop (Z.to_nat (u64 (baseAddress + size) - baseAddress)) pattern baseAddress 0 0.

(** ** OsLoaderIntercepter.c *)
Definition FixedInstruction0 : list Z := [0x08; 0x00; 0x80; 0xD2].
Definition KernelErrataPatcherApplyReadACTLREL1Patches (Base Size : Z) : P unit :=
  IllegalInstruction0 ← FindPattern Base Size (bytes "28 10 38 D5");
  if negb (IllegalInstruction0 =? 0) then CopyMemory IllegalInstruction0 FixedInstruction0
  else mret tt.

Definition InjectCodeIntoOsLoaderArm64TransferToKernel (NewAddr current : Z) : P unit :=
  _ ← CopyMemory current (le_bytes 4 (ARM64_BRANCH_LOCATION_INSTRUCTION current NewAddr));
  CopyMemory NewAddr OslArm64TransferToKernelShellCode.

(** A call of the function at [Addr], followed by the instruction [Pattern]. *)
Definition is_call (Addr Pattern current : Z) : P bool :=
  instruction ← load_word 4 current;
  if ARM64_BRANCH_LOCATION_INSTRUCTION current Addr =? instruction then
    next ← load_word 4 (u64 (current + 4)); mret (next =? Pattern)
  else mret false.
Fixpoint inject_loop (n : nat) (Addr NewAddr Pattern current : Z) : P bool :=
  match n with
  | O => mret false
  | S n' =>
    hit ← is_call Addr Pattern current;
    if hit : bool then _ ← InjectCodeIntoOsLoaderArm64TransferToKernel NewAddr current; mret true
    else inject_loop n' Addr NewAddr Pattern (u64 (current + 4))
  end.
(** The number of rounds of [for (current = Addr; current < Addr + SCAN_MAX; current += 4)]. *)
Definition inject_rounds (Addr : Z) : nat := Z.to_nat ((u64 (Addr + SCAN_MAX) - Addr + 3) / 4).
Definition FindAndInjectIntoOsLoaderArm64TransferToKernel
    (winloadBase BaseOffset InstructionPatternMatch : Z) : P bool :=
  let Addr := u64 (winloadBase + 0xC00 + BaseOffset) in
  let NewAddr := u64 (Addr - Z.of_nat (length OslArm64TransferToKernelShellCode)) in
  inject_loop (inject_rounds Addr) Addr NewAddr InstructionPatternMatch Addr.

(** The releases are tried until the code is injected. *)
Fixpoint inject_releases (winloadBase : Z) (releases : list (Z * Z)) : P bool :=
  match releases with
  | [] => mret false
  | (BaseOffset, Pattern) :: rest =>
    InjectedShellCode ← FindAndInjectIntoOsLoaderArm64TransferToKernel winloadBase BaseOffset Pattern;
    if negb InjectedShellCode then inject_releases winloadBase rest else mret true
  end.

(** ** MmuProtectionHelper.c *)
Definition attribute_request (c : attribute_call) : P EFI_STATUS :=
  calls ← gets attribute_calls;
  _ ← modify (add_call c);
  mret (attribute_answer calls c).
Definition UnprotectWinload (WinloadBase WinloadLength : Z) : P EFI_STATUS :=
  protocol ← gets mMemoryAttributeProtocol;
  if negb protocol then mret EFI_SUCCESS else
  calls ← gets attribute_calls;
  let (Status, Attributes) := GetMemoryAttributes calls WinloadBase WinloadLength in
  _ ← modify (set_WinloadAttributes Attributes);
  if EFI_ERROR Status then mret Status else
  if negb (Z.land Attributes EFI_MEMORY_RO =? 0)
  then attribute_request (ClearMemoryAttributes WinloadBase WinloadLength)
  else mret Status.
Definition ReProtectWinload (WinloadBase WinloadLength : Z) : P EFI_STATUS :=
  protocol ← gets mMemoryAttributeProtocol;
  if negb protocol then mret EFI_SUCCESS else
  Attributes ← gets WinloadAttributes;
  if negb (Z.land Attributes EFI_MEMORY_RO =? 0)
  then attribute_request (SetMemoryAttributes WinloadBase WinloadLength)
  else mret EFI_SUCCESS.
Definition InitMemoryAttributeProtocol : P EFI_STATUS :=
  _ ← modify (set_protocol (negb (EFI_ERROR LocateMemoryAttributeProtocol)));
  mret EFI_SUCCESS.

(** ** OslInterceptMain *)
Definition OslInterceptMain (fwpKernelSetupPhase1 : Z) : P unit :=
  winload ← LocateWinloadBase fwpKernelSetupPhase1;
  let (winloadBase, tempSize) := winload : Z * Z in
  Status ← UnprotectWinload (u64 (winloadBase + EFI_PAGE_SIZE)) tempSize;
  if EFI_ERROR Status then mret tt else
  _ ← (if HAS_ACTLR_EL1_UNIMPLEMENTED_ERRATA
       then KernelErrataPatcherApplyReadACTLREL1Patches fwpKernelSetupPhase1 SCAN_MAX
       else mret tt);
  _ ← inject_releases winloadBase loader_releases;
  _ ← ReProtectWinload (u64 (winloadBase + EFI_PAGE_SIZE)) tempSize;
  mret tt.

(** ** BootServicesIntercepter.c.  The checksum is taken with its field zero; a wrapper
    that was saved as the original service would call itself for ever. *)
Definition install_service (service : exit_service) : P unit :=
  modify (set_gBS (mk_boot_services service (CalculateCrc32 (mk_boot_services service 0)))).
Definition InstallEFIBSIntercepter : P unit :=
  bs ← gets gBS;
  _ ← modify (set_original (Some (ExitBootServices bs)));
  install_service ExitBootServicesWrapper.
Definition KernelErrataPatcherExitBootServices (MapKey fwpKernelSetupPhase1 : Z) : P EFI_STATUS :=
  original ← gets mOriginalEfiExitBootServices;
  service ← access original;
  _ ← install_service service;
  _ ← OslInterceptMain fwpKernelSetupPhase1;
  bs ← gets gBS;
  match ExitBootServices bs with
  | Original => mret (ExitBootServices_answer MapKey)
  | ExitBootServicesWrapper => crash
  end.
End patcher.
