(* ===== verification/KernelPatchSpec.v ===== *)
(** * What the patcher does to the loader of Windows.

    A pattern that is found lies where it was found; the instruction written over a call
    is a call of the injected code; in all, the patcher changes one call, the bytes in
    front of the function it called and, where the platform needs it, one instruction,
    and nothing else, and leaves the memory protected as it was. *)
From stdpp Require Import base numbers list option strings.
From Stdlib Require Import ZArith Lia Ascii.
From S2P Require Import Prelude BaseLib Unicode Storage Bytes ShellCode KernelPatch.
Local Open Scope Z_scope.

(** ** Branch instructions *)
(** The target of the instruction BL at [pc]: an offset of 26 bits with a sign, in
    instructions. *)
Definition decode_bl (instruction pc : Z) : option Z :=
  if Z.shiftr instruction 26 =? 0x25 then
    let imm := Z.land instruction 0x3FFFFFF in
    Some (u64 (pc + 4 * (if imm <? 2 ^ 25 then imm else imm - 2 ^ 26)))
  else None.

Lemma branch_word pc target :
  ARM64_BRANCH_LOCATION_INSTRUCTION pc target =
    0x25 * 2 ^ 26 + (u64 (target - pc) / 4) mod 2 ^ 26.
Proof.
  unfold ARM64_BRANCH_LOCATION_INSTRUCTION, ARM64_INSTRUCTION_LENGTH.
  set (q := u64 (target - pc) / 4).
  assert (Hq : u32 q mod 2 ^ 26 = q mod 2 ^ 26).
  { unfold u32. apply Z.mod_mod_divide. by exists (2 ^ 6). }
  rewrite <- Hq. generalize (u32 q). clear. intros x.
  change 0x7FFFFFF with (Z.ones 27). rewrite Z.land_ones by lia.
  replace (Z.lor 0x94000000 (x mod 2 ^ 27)) with (Z.lor (x mod 2 ^ 26) (Z.shiftl 0x25 26)).
  { rewrite lor_shiftl; [lia|lia|apply Z.mod_pos_bound; lia|lia]. }
  apply Z.bits_inj'. intros n Hn. rewrite !Z.lor_spec.
  change (Z.shiftl 0x25 26) with 0x94000000.
  destruct (Z.eq_dec n 26) as [->|Hn26].
  - change (Z.testbit 0x94000000 26) with true. by rewrite orb_true_r.
  - rewrite orb_comm. f_equal. destruct (Z.lt_ge_cases n 26).
    + by rewrite !Z.mod_pow2_bits_low by lia.
    + by rewrite !Z.mod_pow2_bits_high by lia.
Qed.

Lemma decode_branch pc target :
  in_u64 pc -> in_u64 target -> (4 | target - pc) -> - 2 ^ 27 <= target - pc < 2 ^ 27 ->
  decode_bl (ARM64_BRANCH_LOCATION_INSTRUCTION pc target) pc = Some target.
Proof.
  intros Hp Ht [k Hk] Hr. rewrite branch_word. unfold decode_bl.
  assert (Hq : (u64 (target - pc) / 4) mod 2 ^ 26 = k mod 2 ^ 26).
  { unfold u64. replace (target - pc) with (k * 4) by lia.
    change (2 ^ 64) with (2 ^ 62 * 4). rewrite Z.mul_mod_distr_r, Z.div_mul by lia.
    apply Z.mod_mod_divide. by exists (2 ^ 36). }
  rewrite Hq. pose proof (Z.mod_pos_bound k (2 ^ 26) ltac:(lia)) as Hb.
  change 0x3FFFFFF with (Z.ones 26). rewrite Z.shiftr_div_pow2, Z.land_ones by lia.
  rewrite (Z.add_comm (37 * _)), Z.div_add, Z.mod_add, Z.div_small, (Z.mod_small (k mod _)) by lia.
  cbn [Z.eqb]. change (0 + 37 =? 37) with true. cbv beta iota zeta. f_equal.
  replace (pc + 4 * (if k mod 2 ^ 26 <? 2 ^ 25 then k mod 2 ^ 26 else k mod 2 ^ 26 - 2 ^ 26))
    with target; [by apply u64_small|].
  assert (k mod 2 ^ 26 = if 0 <=? k then k else k + 2 ^ 26) as ->.
  { case_if; bool_to_prop; [apply Z.mod_small; lia|].
    rewrite <- (Z.mod_add k 1) by lia. rewrite Z.mod_small by lia. lia. }
  repeat case_if; bool_to_prop; lia.
Qed.

(** Only the word the macro computes is a call of the target. *)
Lemma decode_bl_word instruction pc target :
  in_u64 target -> decode_bl instruction pc = Some target ->
  instruction = ARM64_BRANCH_LOCATION_INSTRUCTION pc target.
Proof.
  intros Ht. rewrite branch_word. unfold decode_bl. case_if; [|done]. bool_to_prop.
  change 0x3FFFFFF with (Z.ones 26). rewrite Z.land_ones by lia. cbv zeta.
  rewrite Z.shiftr_div_pow2 in E by lia. pose proof (Z.div_mod instruction (2 ^ 26) ltac:(lia)) as Hd.
  set (imm := instruction mod 2 ^ 26) in *. intros [= <-].
  set (k := if imm <? 2 ^ 25 then imm else imm - 2 ^ 26).
  assert (Hu : u64 (u64 (pc + 4 * k) - pc) = (k mod 2 ^ 62) * 4).
  { unfold u64. rewrite Zminus_mod_idemp_l. replace (pc + 4 * k - pc) with (k * 4) by lia.
    change (2 ^ 64) with (2 ^ 62 * 4). by rewrite Z.mul_mod_distr_r. }
  rewrite Hu, Z.div_mul by lia. rewrite Z.mod_mod_divide by (by exists (2 ^ 36)).
  assert (k mod 2 ^ 26 = imm) as ->; [|lia].
  pose proof (Z.mod_pos_bound instruction (2 ^ 26) ltac:(lia)) as Hb. fold imm in Hb.
  unfold k. case_if; [by apply Z.mod_small|].
  rewrite <- (Z.mod_add _ 1) by lia.
  replace (imm - 2 ^ 26 + 1 * 2 ^ 26) with imm by lia. by apply Z.mod_small.
Qed.

Lemma branch_range pc target : in_u32 (ARM64_BRANCH_LOCATION_INSTRUCTION pc target).
Proof.
  rewrite branch_word. unfold in_u32.
  pose proof (Z.mod_pos_bound (u64 (target - pc) / 4) (2 ^ 26) ltac:(lia)). lia.
Qed.

(** ** Patterns *)
Definition hex_digit (d : Z) : Z := if d <? 10 then ch "0" + d else ch "A" + (d - 10).
Definition hex_byte (b : Z) : list Z := [hex_digit (b / 16); hex_digit (b mod 16)].
(** The pattern of some bytes: pairs of digits with blanks between them. *)
Fixpoint hex_pattern (bs : list Z) : list Z :=
  match bs with
  | [] => []
  | [b] => hex_byte b
  | b :: bs' => hex_byte b ++ ch " " :: hex_pattern bs'
  end.

Lemma hex_digits_ok b : in_u8 b ->
  GET_BYTE (hex_digit (b / 16)) (hex_digit (b mod 16)) = b /\
  (hex_digit (b / 16) =? 0) = false /\ (hex_digit (b / 16) =? ch "?") = false.
Proof.
  intros Hb. replace b with (Z.of_nat (Z.to_nat b)) by (unfold in_u8 in Hb; lia).
  assert (Hn : (Z.to_nat b < 256)%nat) by (unfold in_u8 in Hb; lia).
  revert Hn. generalize (Z.to_nat b). clear.
  assert (Hall : forallb (fun n => let b := Z.of_nat n in
    (GET_BYTE (hex_digit (b / 16)) (hex_digit (b mod 16)) =? b) &&
    negb (hex_digit (b / 16) =? 0) && negb (hex_digit (b / 16) =? ch "?")) (seq 0 256) = true)
    by (vm_compute; reflexivity).
  intros n Hn. rewrite forallb_forall in Hall. specialize (Hall n ltac:(apply in_seq; lia)).
  cbv zeta in Hall. bool_to_prop. split_and!; [done|by apply Z.eqb_neq..].
Qed.

(** The characters of a pattern, by byte. *)
Lemma hex_pattern_at bs k b : bs !! k = Some b ->
  cstr_at (hex_pattern bs) (3 * k) = Some (hex_digit (b / 16)) /\
  cstr_at (hex_pattern bs) (3 * k + 1) = Some (hex_digit (b mod 16)) /\
  cstr_at (hex_pattern bs) (3 * k + 2) =
    Some (if (S k <? length bs)%nat then ch " " else 0).
Proof.
  revert k. induction bs as [|b0 bs IH]; intros k Hk; [done|].
  destruct bs as [|b1 bs].
  - destruct k; [|done]. cbn in Hk. injection Hk as ->. done.
  - destruct k as [|k]; [cbn in Hk; by injection Hk as ->|].
    specialize (IH k Hk). unfold cstr_at in *.
    change (hex_pattern (b0 :: b1 :: bs)) with (hex_byte b0 ++ ch " " :: hex_pattern (b1 :: bs)).
    replace (3 * S k)%nat with (3 + 3 * k)%nat by lia. exact IH.
Qed.

Section patcher.
Context `{PatcherConfig, PatcherServices}.
Variable MemBase : Z.

(** Inside of the memory, and the [n]-byte word there. *)
Definition mapped (m : list Z) (a n : Z) : Prop :=
  MemBase <= a /\ a + n <= MemBase + Z.of_nat (length m).
Definition word (n : nat) (m : list Z) (a : Z) : Z := le n m (a - MemBase).
Definition bytes_at (n : nat) (m : list Z) (a : Z) : list Z := slice n m (a - MemBase).

Lemma load_word_run n a s : mapped (Mem s) a (Z.of_nat n) ->
  load_word MemBase n a s = Some (word n (Mem s) a, s).
Proof. intros [H1 H2]. unfold load_word. run. by rewrite field_le by lia. Qed.
Lemma CopyMemory_run a bs s : mapped (Mem s) a (Z.of_nat (length bs)) ->
  CopyMemory MemBase a bs s = Some (tt, set_Mem (upd (Mem s) (a - MemBase) bs) s).
Proof. intros [H1 H2]. unfold CopyMemory. run. by rewrite wr_upd by lia. Qed.

Lemma word_1 m a b : mapped m a 1 -> word 1 m a = b -> bytes_at 1 m a = [b].
Proof.
  intros [H1 H2] <-. unfold bytes_at, word, le.
  pose proof (slice_length 1 m (a - MemBase) ltac:(lia) ltac:(lia)) as Hl.
  destruct (slice 1 m (a - MemBase)) as [|x [|]]; try done. cbn [le_value]. f_equal. lia.
Qed.
Lemma bytes_at_snoc k m a : mapped m a (Z.of_nat (S k)) ->
  bytes_at (S k) m a = bytes_at k m a ++ bytes_at 1 m (a + Z.of_nat k).
Proof.
  intros [H1 H2]. unfold bytes_at. apply list_eq. intros i.
  destruct (decide (i < k)%nat).
  - rewrite lookup_app_l by (rewrite slice_length; lia). rewrite !slice_lookup.
    by rewrite !decide_True by lia.
  - rewrite lookup_app_r by (rewrite slice_length; lia). rewrite slice_length by lia.
    rewrite !slice_lookup. repeat case_decide; try lia; [|done]. f_equal. lia.
Qed.

(** A pattern that is found is there.  The state of the search: the last [k] bytes are
    the first [k] of the pattern. *)
Lemma find_loop_sound bs base size s n : Forall in_u8 bs -> bs <> [] -> 0 < base ->
  mapped (Mem s) base size -> forall current k first,
  base <= current -> current + Z.of_nat n = base + size ->
  (k < length bs)%nat -> base + Z.of_nat k <= current ->
  bytes_at k (Mem s) (current - Z.of_nat k) = take k bs ->
  first = (if (k =? 0)%nat then 0 else current - Z.of_nat k) ->
  exists r, find_loop MemBase n (hex_pattern bs) current (3 * k) first s = Some (r, s) /\
    (r <> 0 -> base <= r /\ r + Z.of_nat (length bs) <= base + size /\
               bytes_at (length bs) (Mem s) r = bs).
Proof.
  intros Hu Hne Hb [Hm1 Hm2].
  induction n as [|n IH]; intros current k first Hc Hn Hk Hck Hbytes Hf; cbn [find_loop].
  { exists 0. by split. }
  destruct (lookup_lt_is_Some_2 bs k Hk) as [b Hbk].
  destruct (hex_pattern_at bs k b Hbk) as (P0 & P1 & P2).
  destruct (hex_digits_ok b) as (G & G0 & G1); [by eapply Forall_lookup_1|].
  run. rewrite P0. run. rewrite G0. run. unfold byte_matches. rewrite G1. run.
  rewrite load_word_run by (split; cbn; lia). run. rewrite P1. run. rewrite G.
  destruct (word 1 (Mem s) current =? b) eqn:Eb; bool_to_prop.
  - set (first' := if first =? 0 then current else first).
    assert (Hf' : first' = current - Z.of_nat k).
    { unfold first'. rewrite Hf. repeat case_if; bool_to_prop; lia. }
    assert (Hb' : bytes_at (S k) (Mem s) (current - Z.of_nat k) = take (S k) bs).
    { rewrite bytes_at_snoc by (split; lia). rewrite Hbytes.
      replace (current - Z.of_nat k + Z.of_nat k) with current by lia.
      rewrite (word_1 _ _ b) by first [done|split; cbn; lia]. symmetry. by apply take_S_r. }
    rewrite P2. run. destruct (S k <? length bs)%nat eqn:Ek; bool_to_prop.
    + change (ch " " =? 0) with false. cbv iota.
      replace (3 * k + 3)%nat with (3 * S k)%nat by lia. apply IH; try lia.
      * by replace (current + 1 - Z.of_nat (S k)) with (current - Z.of_nat k) by lia.
      * rewrite Hf'. case_if; bool_to_prop; lia.
    + change (0 =? 0) with true. cbv iota. exists first'. split; [done|]. intros _.
      replace (length bs) with (S k) by lia. rewrite Hf'. split; [lia|]. split; [lia|].
      rewrite Hb'. apply take_ge. lia.
  - change 0%nat with (3 * 0)%nat at 1. apply IH; [lia|lia| |lia|done|done].
    destruct bs; [done|cbn; lia].
Qed.

Lemma FindPattern_sound bs base size s : Forall in_u8 bs -> bs <> [] -> 0 < base -> 0 <= size ->
  mapped (Mem s) base size -> base + size < 2 ^ 64 ->
  exists r, FindPattern MemBase base size (hex_pattern bs) s = Some (r, s) /\
    (r <> 0 -> base <= r /\ r + Z.of_nat (length bs) <= base + size /\
               bytes_at (length bs) (Mem s) r = bs).
Proof.
  intros Hu Hne Hb Hs Hm Hr. unfold FindPattern. rewrite u64_small by (unfold in_u64; lia).
  change 0%nat with (3 * 0)%nat at 1. apply find_loop_sound; try done; try lia.
  destruct bs; [done|cbn; lia].
Qed.

(** ** The search for the loader *)
Definition aligned (a : Z) : Prop := (EFI_PAGE_SIZE | a).

Lemma page_round_spec x : 0 <= x -> x + EFI_PAGE_SIZE < 2 ^ 64 ->
  aligned (page_round x) /\ x <= page_round x < x + EFI_PAGE_SIZE.
Proof.
  unfold aligned, EFI_PAGE_SIZE, page_round, EFI_PAGE_SIZE. intros H1 H2.
  change (4096 - 1) with (Z.ones 12). rewrite Z.land_ones by lia.
  pose proof (Z.div_mod x 4096 ltac:(lia)). pose proof (Z.mod_pos_bound x 4096 ltac:(lia)).
  change (2 ^ 12) with 4096. case_if; bool_to_prop.
  - split; [|lia]. exists (x / 4096). lia.
  - change (Z.lnot (Z.ones 12)) with (Z.lnot (Z.ones 12)).
    replace (Z.land x (Z.lnot (Z.ones 12))) with (4096 * (x / 4096)).
    + rewrite u64_small by (unfold in_u64; lia). split; [|lia]. exists (x / 4096 + 1). lia.
    + rewrite <- Z.ldiff_land, Z.ldiff_ones_r, Z.shiftl_mul_pow2, Z.shiftr_div_pow2 by lia.
      change (2 ^ 12) with 4096. lia.
Qed.

(** The image of the loader starts at [W], and no image starts between it and [fwp]. *)
Record loader_image (m : list Z) (fwp W : Z) : Prop := mk_loader_image {
  image_base : 0 < MemBase /\ MemBase + Z.of_nat (length m) < 2 ^ 64;
  image_place : aligned W /\ MemBase <= W /\ MemBase <= fwp /\ W <= page_round fwp;
  image_end : mapped m fwp SCAN_MAX /\ mapped m W (0xC00 + 0xE80 + SCAN_MAX + 8);
  image_dos : word 2 m W = IMAGE_DOS_SIGNATURE;
  image_nt : word 2 m (W + word 4 m (W + 0x3C)) = IMAGE_NT_SIGNATURE;
  image_header : 0 <= word 4 m (W + 0x3C) /\ mapped m (W + word 4 m (W + 0x3C)) 0x114;
  image_next : forall p, aligned p -> W < p <= page_round fwp -> word 2 m p <> IMAGE_DOS_SIGNATURE
}.
Definition text_size (m : list Z) (W : Z) : Z :=
  page_round (word 4 m (W + word 4 m (W + 0x3C) + 0x110)).

Lemma winload_found fwp W s : loader_image (Mem s) fwp W ->
  winload_at MemBase W s = Some (Some (text_size (Mem s) W), s).
Proof.
  intros [[B1 B2] [_ [P1 _]] [_ E] D N [K0 K] _]. unfold winload_at, text_size.
  destruct E as [E1 E2], K as [K1 K2]. unfold SCAN_MAX in *.
  run. rewrite load_word_run by (split; cbn; lia). run. rewrite D, Z.eqb_refl.
  rewrite (u64_small (W + 0x3C)) by (unfold in_u64; lia). run.
  rewrite load_word_run by (split; cbn; lia). run.
  rewrite (u64_small (W + word _ _ _)) by (unfold in_u64; lia).
  rewrite load_word_run by (split; cbn; lia). run. rewrite N, Z.eqb_refl.
  rewrite (u64_small (_ + 0x110)) by (unfold in_u64; lia). run.
  by rewrite load_word_run by (split; cbn; lia).
Qed.
Lemma winload_none p s : mapped (Mem s) p 2 -> word 2 (Mem s) p <> IMAGE_DOS_SIGNATURE ->
  winload_at MemBase p s = Some (None, s).
Proof.
  intros Hm Hd. unfold winload_at. run. rewrite load_word_run by done. run.
  by apply Z.eqb_neq in Hd as ->.
Qed.

Lemma locate_loop_found fwp W s : loader_image (Mem s) fwp W ->
  forall fuel p, aligned p -> W <= p <= page_round fwp -> p - W < Z.of_nat fuel * EFI_PAGE_SIZE ->
  locate_loop MemBase fuel p s = Some ((W, text_size (Mem s) W), s).
Proof.
  intros Hi. pose proof (winload_found _ _ _ Hi) as Hw. destruct Hi as [[B1 B2] [A [P1 [P2 P3]]] [[E1 E2] _] _ _ _ Hn].
  assert (Hr : page_round fwp < fwp + EFI_PAGE_SIZE).
  { apply page_round_spec; unfold SCAN_MAX, EFI_PAGE_SIZE in *; lia. }
  unfold SCAN_MAX, EFI_PAGE_SIZE in *.
  induction fuel as [|fuel IH]; intros p Hp Hr' Hf; [lia|]. cbn [locate_loop]. run.
  destruct (Z.eq_dec p W) as [->|Hne]; [by rewrite Hw|].
  rewrite winload_none by ((split; cbn; lia) || (apply Hn; [done|lia])). run.
  destruct Hp as [a Ha], A as [b Hb]. unfold EFI_PAGE_SIZE in *.
  rewrite u64_small by (unfold in_u64; lia). apply IH; [|lia|lia]. exists (a - 1). unfold EFI_PAGE_SIZE. lia.
Qed.

Lemma LocateWinloadBase_found fwp W s : loader_image (Mem s) fwp W ->
  LocateWinloadBase MemBase fwp s = Some ((W, text_size (Mem s) W), s).
Proof.
  intros Hi. unfold LocateWinloadBase. cbv zeta. pose proof Hi as [[B1 B2] [A [P1 [P2 P3]]] [[E1 E2] _] _ _ _ Hn].
  destruct (page_round_spec fwp) as [R1 R2]; [lia|unfold SCAN_MAX, EFI_PAGE_SIZE in *; lia|].
  apply (locate_loop_found fwp); [done|done|lia|].
  pose proof (Z.div_mod (page_round fwp - MemBase) EFI_PAGE_SIZE ltac:(done)).
  pose proof (Z.mod_pos_bound (page_round fwp - MemBase) EFI_PAGE_SIZE ltac:(done)).
  assert (0 <= (page_round fwp - MemBase) / EFI_PAGE_SIZE) by (apply Z.div_pos; [lia|done]).
  unfold EFI_PAGE_SIZE in *. lia.
Qed.

(** ** The injection *)
Definition code_size : Z := Z.of_nat (length OslArm64TransferToKernelShellCode).
Lemma code_size_ok : 0 <= code_size <= 1296 /\ (4 | code_size).
Proof.
  unfold code_size, OslArm64TransferToKernelShellCode. rewrite !length_app.
  assert (Hl : forall (b : bool) (l : list Z), length (if b then l else []) = if b then length l else 0%nat)
    by (by intros []). rewrite !Hl, length_app. cbn [length ACTLR_EL1_UNIMPLEMENTED_PATCH
    AMCNTENSET0_EL0_UNIMPLEMENTED_PATCH GIC_V3_WITHOUT_IRM_FLAG_SUPPORT_PATCH
    GIC_V3_WITHOUT_IRM_FLAG_SUPPORT_X8_VARIANT_PATCH PSCI_MEMPROTECT_FAILING_PATCH].
  destruct HAS_ACTLR_EL1_UNIMPLEMENTED_ERRATA, HAS_AMCNTENSET0_EL0_UNIMPLEMENTED_ERRATA,
    HAS_GIC_V3_WITHOUT_IRM_FLAG_SUPPORT_ERRATA, HAS_PSCI_MEMPROTECT_FAILING_ERRATA;
    (split; [vm_compute; by split|by apply Z.mod_divide]).
Qed.

(** A call of the function at [F] whose next instruction is [pattern]. *)
Definition call_site (m : list Z) (F pattern a : Z) : Prop :=
  decode_bl (word 4 m a) a = Some F /\ word 4 m (a + 4) = pattern.
#[local] Instance call_site_dec m F pattern a : Decision (call_site m F pattern a).
Proof. unfold call_site. apply _. Defined.

Definition injected (m : list Z) (New a : Z) : list Z :=
  upd (upd m (a - MemBase) (le_bytes 4 (ARM64_BRANCH_LOCATION_INSTRUCTION a New)))
    (New - MemBase) OslArm64TransferToKernelShellCode.

Lemma is_call_run F pattern a s :
  mapped (Mem s) a 8 -> in_u64 F -> in_u64 (a + 4) -> in_u64 a -> (4 | F - a) -> - 2 ^ 27 <= F - a < 2 ^ 27 ->
  is_call MemBase F pattern a s = Some (bool_decide (call_site (Mem s) F pattern a), s).
Proof.
  intros [M1 M2] HF Ha4 Ha Hd Hr. unfold is_call. run. rewrite load_word_run by (split; cbn; lia). run.
  destruct (_ =? _) eqn:E; bool_to_prop; run.
  - rewrite u64_small by done. rewrite load_word_run by (split; cbn; lia).
    enough (bool_decide (call_site (Mem s) F pattern a) = (word 4 (Mem s) (a + 4) =? pattern)) as -> by done.
    assert (Hb : decode_bl (word 4 (Mem s) a) a = Some F) by (by rewrite <- E, decode_branch).
    case_bool_decide as Hc; symmetry; [by apply Z.eqb_eq, Hc|]. apply Z.eqb_neq. intros E'. by apply Hc.
  - rewrite bool_decide_false; [done|]. intros [Hc _]. apply E. symmetry. by apply decode_bl_word.
Qed.

Lemma inject_run New a s :
  mapped (Mem s) a 4 -> mapped (Mem s) New code_size ->
  InjectCodeIntoOsLoaderArm64TransferToKernel MemBase New a s =
    Some (tt, set_Mem (injected (Mem s) New a) s).
Proof.
  intros [A1 A2] [N1 N2]. unfold InjectCodeIntoOsLoaderArm64TransferToKernel. run.
  rewrite CopyMemory_run by (split; rewrite ?le_bytes_length; cbn; lia). run.
  rewrite CopyMemory_run.
  - done.
  - cbn [Mem set_Mem]. unfold code_size in *. split; [lia|]. rewrite upd_length; rewrite ?le_bytes_length; cbn; lia.
Qed.

Definition no_call_before (m : list Z) (F pattern limit : Z) : Prop :=
  forall p, F <= p < limit -> (4 | p - F) -> ~ call_site m F pattern p.

(** The loop stops at the first call, or has seen that there is none. *)
Lemma inject_loop_run F New pattern s n : forall current,
  mapped (Mem s) current (4 * Z.of_nat n + 4) -> mapped (Mem s) New code_size ->
  F <= current -> (4 | current - F) -> 0 <= F -> MemBase + Z.of_nat (length (Mem s)) < 2 ^ 64 ->
  current + 4 * Z.of_nat n <= F + 2 ^ 27 -> no_call_before (Mem s) F pattern current ->
  (exists a, inject_loop MemBase n F New pattern current s =
       Some (true, set_Mem (injected (Mem s) New a) s) /\
     current <= a < current + 4 * Z.of_nat n /\ (4 | a - F) /\
     call_site (Mem s) F pattern a /\ no_call_before (Mem s) F pattern a) \/
  (inject_loop MemBase n F New pattern current s = Some (false, s) /\
   no_call_before (Mem s) F pattern (current + 4 * Z.of_nat n)).
Proof.
  induction n as [|n IH]; intros current M1 MN Hc [k Hk] HF Hend Hlim Hno; cbn [inject_loop].
  { right. split; [done|]. by replace (current + 4 * Z.of_nat 0) with current by lia. }
  destruct M1 as [M1 M2]. run.
  rewrite is_call_run; [|split; lia|unfold in_u64; lia..|exists (- k); lia|lia]. run.
  case_bool_decide as Hcall.
  - left. exists current. run. rewrite inject_run by (done || split; lia).
    split; [done|]. split; [lia|]. split; [by exists k|]. done.
  - rewrite (u64_small (current + 4)) by (unfold in_u64; lia).
    destruct (IH (current + 4)) as [(a & Ha & Hr & Hx)|[Ha Hx]]; [split; lia|done|lia|exists (k + 1); lia|done|done|lia| | |].
    + intros p Hp [j Hj] Hs. destruct (Z.lt_ge_cases p current).
      * by apply (Hno p ltac:(lia)); [exists j|].
      * assert (p = current) as -> by lia. done.
    + left. exists a. split; [done|]. split; [lia|done].
    + right. split; [done|]. by replace (current + 4 * Z.of_nat (S n)) with (current + 4 + 4 * Z.of_nat n) by lia.
Qed.

(** The call at [a] of the function at [F] is the first one, it now leads to the code in
    front of the function, and nothing else has changed. *)
Record redirected (F pattern a : Z) (m m' : list Z) : Prop := mk_redirected {
  redirect_place : F <= a < F + SCAN_MAX /\ (4 | a - F);
  redirect_call : call_site m F pattern a;
  redirect_first : no_call_before m F pattern a;
  redirect_target : decode_bl (word 4 m' a) a = Some (F - code_size);
  redirect_code : bytes_at (length OslArm64TransferToKernelShellCode) m' (F - code_size) =
                  OslArm64TransferToKernelShellCode;
  redirect_rest : same_outside [(a - MemBase, 4); (F - code_size - MemBase, code_size)] m m'
}.

Lemma injected_redirects m F pattern a :
  0 < MemBase -> MemBase + Z.of_nat (length m) < 2 ^ 64 ->
  mapped m a 4 -> mapped m (F - code_size) code_size -> F <= a < F + SCAN_MAX -> (4 | a - F) ->
  call_site m F pattern a -> no_call_before m F pattern a ->
  redirected F pattern a m (injected m (F - code_size) a).
Proof.
  intros B1 B2 [A1 A2] [N1 N2] Ha Hd Hc Hn. destruct code_size_ok as [[C1 C2] C4].
  set (w := ARM64_BRANCH_LOCATION_INSTRUCTION a (F - code_size)).
  assert (Hl : length (upd m (a - MemBase) (le_bytes 4 w)) = length m)
    by (apply upd_length; rewrite ?le_bytes_length; cbn; lia).
  assert (Hs : code_size = Z.of_nat (length OslArm64TransferToKernelShellCode)) by done.
  split; [done|done|done| | |].
  - unfold word, injected. fold w. rewrite le_upd_other by (rewrite ?Hl; lia). rewrite le_upd_same by (cbn; lia).
    change (8 * Z.of_nat 4) with 32. rewrite (Z.mod_small w) by apply branch_range.
    unfold SCAN_MAX in *. apply decode_branch; [unfold in_u64; lia..| |lia].
    destruct Hd as [x Hx], C4 as [y Hy]. exists (- x - y). lia.
  - unfold bytes_at, injected. fold w. apply slice_upd_same; [lia|]. rewrite Hl. lia.
  - unfold injected. fold w. eapply (same_outside_trans [_] [_]); apply same_outside_upd; rewrite ?Hl, ?le_bytes_length; cbn; lia.
Qed.

(** The memory around an image of the loader. *)
Definition loader_room (m : list Z) (W : Z) : Prop :=
  0 < MemBase /\ MemBase + Z.of_nat (length m) < 2 ^ 64 /\ MemBase <= W /\
  W + (0xC00 + 0xE80 + SCAN_MAX + 8) <= MemBase + Z.of_nat (length m).
Definition release_ok (r : Z * Z) : Prop := 0x400 <= fst r <= 0xE80.

(** One release: its call is redirected, or there is none. *)
Lemma release_run W off pattern s : loader_room (Mem s) W -> release_ok (off, pattern) ->
  let F := W + 0xC00 + off in
  (exists a m', FindAndInjectIntoOsLoaderArm64TransferToKernel MemBase W off pattern s =
      Some (true, set_Mem m' s) /\ redirected F pattern a (Mem s) m') \/
  (FindAndInjectIntoOsLoaderArm64TransferToKernel MemBase W off pattern s = Some (false, s) /\
   no_call_before (Mem s) F pattern (F + SCAN_MAX)).
Proof.
  intros (B1 & B2 & W1 & W2) Ho F. unfold release_ok in Ho. cbn in Ho. destruct code_size_ok as [[C1 C2] C4].
  unfold SCAN_MAX in W2. unfold FindAndInjectIntoOsLoaderArm64TransferToKernel. fold code_size.
  rewrite (u64_small (W + 0xC00 + off)) by (unfold in_u64; lia). fold F.
  rewrite (u64_small (F - code_size)) by (unfold in_u64; lia).
  assert (Hr : 4 * Z.of_nat (inject_rounds F) = SCAN_MAX).
  { unfold inject_rounds, SCAN_MAX. rewrite u64_small by (unfold in_u64; lia).
    replace (F + 3145728 - F + 3) with 3145731 by lia. change (3145731 / 4) with 786432. lia. }
  unfold SCAN_MAX in Hr.
  destruct (inject_loop_run F (F - code_size) pattern s (inject_rounds F) F)
    as [(a & Ha & Hp & Hd & Hc & Hn)|[Ha Hn]].
  - rewrite Hr. split; lia.
  - split; lia.
  - lia.
  - exists 0. lia.
  - lia.
  - lia.
  - rewrite Hr. lia.
  - intros p Hp. lia.
  - left. exists a, (injected (Mem s) (F - code_size) a). split; [done|]. rewrite Hr in Hp.
    apply injected_redirects; try done; unfold SCAN_MAX; (split; lia) || lia.
  - right. split; [done|]. by rewrite Hr in Hn.
Qed.

(** The releases in their order. *)
Inductive released (W : Z) (m m' : list Z) : list (Z * Z) -> Prop :=
| released_none : m' = m -> released W m m' []
| released_here off pattern rest a :
    redirected (W + 0xC00 + off) pattern a m m' -> released W m m' ((off, pattern) :: rest)
| released_later off pattern rest :
    no_call_before m (W + 0xC00 + off) pattern (W + 0xC00 + off + SCAN_MAX) ->
    released W m m' rest -> released W m m' ((off, pattern) :: rest).

Lemma releases_run W rs s : loader_room (Mem s) W -> Forall release_ok rs ->
  exists b m', inject_releases MemBase W rs s = Some (b, set_Mem m' s) /\ released W (Mem s) m' rs.
Proof.
  intros Hw. induction 1 as [|[off pattern] rs Hr _ IH]; cbn [inject_releases].
  { exists false, (Mem s). split; [by destruct s|]. by constructor. }
  run. destruct (release_run W off pattern s Hw Hr) as [(a & m' & -> & Hm)|[-> Hn]]; cbn [negb].
  - exists true, m'. split; [done|]. by eapply released_here.
  - destruct IH as (b & m' & -> & Hm). exists b, m'. split; [done|]. by apply released_later.
Qed.

(** ** The exit from the boot services *)
(** The instruction that reads ACTLR_EL1 into x8, and the one that clears x8. *)
Definition illegal_instruction : list Z := [0x28; 0x10; 0x38; 0xD5].
Definition actlr_fixed (fwp : Z) (m m' : list Z) : Prop :=
  m' = m \/
  (HAS_ACTLR_EL1_UNIMPLEMENTED_ERRATA = true /\ exists a,
   fwp <= a /\ a + 4 <= fwp + SCAN_MAX /\ bytes_at 4 m a = illegal_instruction /\
   m' = upd m (a - MemBase) FixedInstruction0).

Lemma actlr_run fwp s : 0 < MemBase -> mapped (Mem s) fwp SCAN_MAX ->
  MemBase + Z.of_nat (length (Mem s)) < 2 ^ 64 -> HAS_ACTLR_EL1_UNIMPLEMENTED_ERRATA = true ->
  exists m', KernelErrataPatcherApplyReadACTLREL1Patches MemBase fwp SCAN_MAX s = Some (tt, set_Mem m' s) /\
    actlr_fixed fwp (Mem s) m'.
Proof.
  intros Hb [M1 M2] Hl He. unfold KernelErrataPatcherApplyReadACTLREL1Patches. run.
  change (bytes "28 10 38 D5") with (hex_pattern illegal_instruction).
  destruct (FindPattern_sound illegal_instruction fwp SCAN_MAX s) as (r & -> & Hr);
    [by repeat constructor; vm_compute|done|lia|done|done|lia|].
  destruct (r =? 0) eqn:E; bool_to_prop; cbn [negb].
  - exists (Mem s). split; [by destruct s|by left].
  - destruct (Hr E) as (R1 & R2 & R3). cbn in R2. eexists. rewrite CopyMemory_run by (split; cbn; lia).
    split; [done|]. right. split; [done|]. by exists r.
Qed.

(** What the calls of the memory attribute protocol may be. *)
Definition protection_kept (base size : Z) (cs cs' : list attribute_call) : Prop :=
  cs' = cs \/ cs' = cs ++ [ClearMemoryAttributes base size; SetMemoryAttributes base size].

(** Everything but the attributes and the calls is as it was; when the write protection
    was taken off, ReProtectWinload will put it back. *)
Definition attributes_only (s s' : patcher) : Prop :=
  Mem s' = Mem s /\ gBS s' = gBS s /\
  mOriginalEfiExitBootServices s' = mOriginalEfiExitBootServices s.
Lemma Unprotect_run base size s :
  exists st s', UnprotectWinload base size s = Some (st, s') /\ attributes_only s s' /\
  (EFI_ERROR st = true /\ (attribute_calls s' = attribute_calls s \/
     attribute_calls s' = attribute_calls s ++ [ClearMemoryAttributes base size]) \/
   EFI_ERROR st = false /\ forall m,
     exists st' s'', ReProtectWinload base size (set_Mem m s') = Some (st', s'') /\
       attributes_only (set_Mem m s') s'' /\
       protection_kept base size (attribute_calls s) (attribute_calls s'')).
Proof.
  unfold UnprotectWinload, ReProtectWinload, attribute_request, protection_kept. run.
  destruct (mMemoryAttributeProtocol s) eqn:Ep; cbn [negb]; run.
  2:{ exists EFI_SUCCESS, s. split_and!; [done|done|]. right. split; [done|]. intros m. run.
      cbn [mMemoryAttributeProtocol set_Mem]. rewrite Ep. cbn [negb].
      eexists _, _. split; [done|]. split; [done|]. by left. }
  destruct GetMemoryAttributes as [st attributes]. run. destruct (EFI_ERROR st) eqn:Est.
  { eexists _, _. split; [done|]. split; [done|]. left. split; [done|]. by left. }
  destruct (Z.land attributes EFI_MEMORY_RO =? 0) eqn:Er; cbn [negb]; run.
  - eexists _, _. split; [done|]. split; [done|]. right. split; [done|]. intros m. run.
    cbn [mMemoryAttributeProtocol WinloadAttributes set_Mem set_WinloadAttributes]. rewrite Ep. cbn [negb]. run.
    cbn [WinloadAttributes set_Mem set_WinloadAttributes]. rewrite Er. cbn [negb].
    eexists _, _. split; [done|]. split; [done|]. by left.
  - eexists _, _. split; [done|]. split; [done|].
    destruct (EFI_ERROR (attribute_answer _ _)); [left|right]; (split; [done|]); [by right|]. intros m. run.
    cbn [mMemoryAttributeProtocol WinloadAttributes set_Mem set_WinloadAttributes add_call]. rewrite Ep. cbn [negb]. run.
    cbn [WinloadAttributes set_Mem set_WinloadAttributes add_call]. rewrite Er. cbn [negb]. run.
    eexists _, _. split; [done|]. split; [done|]. right. cbn [attribute_calls add_call set_Mem set_WinloadAttributes].
    by rewrite <- (assoc_L (++)).
Qed.

(** What the patcher leaves behind: either the memory could not be made writable and is
    as it was, or it is patched and protected as before. *)
Definition patched (fwp W : Z) (s s' : patcher) : Prop :=
  let base := W + EFI_PAGE_SIZE in let size := text_size (Mem s) W in
  Mem s' = Mem s /\ (attribute_calls s' = attribute_calls s \/
                     attribute_calls s' = attribute_calls s ++ [ClearMemoryAttributes base size]) \/
  (exists m, actlr_fixed fwp (Mem s) m /\ released W m (Mem s') loader_releases) /\
  protection_kept base size (attribute_calls s) (attribute_calls s').

Lemma actlr_length fwp m m' : mapped m fwp SCAN_MAX -> actlr_fixed fwp m m' -> length m' = length m.
Proof.
  intros [M1 M2] [->|(_ & a & A1 & A2 & _ & ->)]; [done|]. apply upd_length; cbn; lia.
Qed.

Lemma intercept_run fwp W s : loader_image (Mem s) fwp W ->
  exists s', OslInterceptMain MemBase fwp s = Some (tt, s') /\ gBS s' = gBS s /\ patched fwp W s s'.
Proof.
  intros Hi. pose proof Hi as [[B1 B2] [_ [P1 [P2 P3]]] [E1 E2] _ _ _ _].
  unfold OslInterceptMain. run. rewrite (LocateWinloadBase_found fwp W) by done. run.
  destruct E2 as [E2 E3]. unfold patched. cbv zeta.
  rewrite !(u64_small (W + EFI_PAGE_SIZE)) by (unfold in_u64, EFI_PAGE_SIZE, SCAN_MAX in *; lia).
  destruct (Unprotect_run (W + EFI_PAGE_SIZE) (text_size (Mem s) W) s)
    as (st & s1 & -> & (K1 & K2 & K3) & [[Est Hc]|[Est Hre]]); rewrite Est.
  { exists s1. split_and!; [done|done|]. left. by split. }
  assert (exists m, (if HAS_ACTLR_EL1_UNIMPLEMENTED_ERRATA
    then KernelErrataPatcherApplyReadACTLREL1Patches MemBase fwp SCAN_MAX else mret tt) s1 =
    Some (tt, set_Mem m s1) /\ actlr_fixed fwp (Mem s) m) as (m & Hrun & Hm).
  { destruct HAS_ACTLR_EL1_UNIMPLEMENTED_ERRATA eqn:Ee.
    - rewrite <- K1. apply actlr_run; rewrite ?K1; done.
    - exists (Mem s1). split; [by destruct s1|]. by left. }
  run. rewrite Hrun. pose proof (actlr_length _ _ _ E1 Hm) as Hl. run.
  destruct (releases_run W loader_releases (set_Mem m s1)) as (b & m' & -> & Hrel).
  { cbn [Mem set_Mem]. unfold loader_room. rewrite Hl. split_and!; (done || lia). }
  { by repeat constructor. }
  destruct (Hre m') as (st' & s2 & Hs2 & (L1 & L2 & L3) & Hp).
  change (set_Mem m' (set_Mem m s1)) with (set_Mem m' s1). rewrite bind_run, Hs2. run.
  exists s2. split; [done|]. split; [by rewrite L2|]. right. split; [|done].
  exists m. split; [done|]. by rewrite L1.
Qed.

(** C18 When Windows leaves the boot services, the hook gives the
    table its own service and checksum back, answers what the firmware answers, and has
    patched the loader: the first call of the kernel transfer function of the first
    release that has one leads to the injected code in front of this function, on a
    platform that needs it one read of ACTLR_EL1 is replaced, no other byte of the memory
    changed, and the memory is write-protected again if it was. *)
Theorem ExitBootServices_patches MapKey fwp W s :
  loader_image (Mem s) fwp W -> mOriginalEfiExitBootServices s = Some Original ->
  exists s', KernelErrataPatcherExitBootServices MemBase MapKey fwp s =
    Some (ExitBootServices_answer MapKey, s') /\
  gBS s' = mk_boot_services Original (CalculateCrc32 (mk_boot_services Original 0)) /\
  patched fwp W s s'.
Proof.
  intros Hi Ho. unfold KernelErrataPatcherExitBootServices, install_service. run. rewrite Ho. run.
  edestruct (intercept_run fwp W) as (s' & Hrun & Hg & Hp); [|rewrite Hrun].
  { by cbn [Mem set_gBS]. }
  run. rewrite Hg. cbn [ExitBootServices gBS set_gBS]. run. exists s'. by rewrite Hg.
Qed.
End patcher.

(** A loader without calls at the start of a memory of 4 MiB; the memory ends in zeros. *)
Definition demo_services : PatcherServices := {|
  LocateMemoryAttributeProtocol := EFI_SUCCESS;
  GetMemoryAttributes _ _ _ := (EFI_SUCCESS, EFI_MEMORY_RO);
  attribute_answer _ _ := EFI_SUCCESS;
  CalculateCrc32 t := match ExitBootServices t with Original => 1 | _ => 2 end;
  ExitBootServices_answer _ := EFI_SUCCESS |}.
Definition demo_header : list Z :=
  [0x4D; 0x5A] ++ repeat 0 58 ++ [0x40; 0; 0; 0] ++ [0x50; 0x45; 0; 0] ++ repeat 0 300.
Definition demo_loader : list Z := demo_header ++ repeat 0 (Z.to_nat 0x400000).
Definition demo_patcher : patcher :=
  mk_patcher demo_loader true 0 [] (mk_boot_services ExitBootServicesWrapper 2) (Some Original).

Lemma le_app n a b off : 0 <= off -> off + Z.of_nat n <= Z.of_nat (length a) -> le n (a ++ b) off = le n a off.
Proof.
  intros. unfold le. f_equal. apply list_eq. intros i. rewrite !slice_lookup. case_decide; [|done].
  apply lookup_app_l. lia.
Qed.
Lemma demo_loader_length : Z.of_nat (length demo_loader) = 0x400000 + 368.
Proof. unfold demo_loader. rewrite length_app, repeat_length. cbn [length]. vm_compute (length demo_header). lia. Qed.
Lemma demo_loader_image : loader_image 0x80000000 demo_loader 0x80000000 0x80000000.
Proof.
  assert (Hw : forall n off, 0 <= off -> off + Z.of_nat n <= 368 ->
    word 0x80000000 n demo_loader (0x80000000 + off) = le n demo_header off).
  { intros n off H1 H2. unfold word. replace (0x80000000 + off - 0x80000000) with off by lia.
    apply le_app; [done|]. change (Z.of_nat (length demo_header)) with 368. lia. }
  pose proof (Hw 2%nat 0 ltac:(lia) ltac:(lia)) as W0. rewrite Z.add_0_r in W0.
  pose proof (Hw 4%nat 0x3C ltac:(lia) ltac:(lia)) as W1. change (le 4 demo_header 0x3C) with 0x40 in W1.
  pose proof (Hw 2%nat 0x40 ltac:(lia) ltac:(lia)) as W2. pose proof demo_loader_length as Hl.
  split; rewrite ?W1; unfold mapped, SCAN_MAX; rewrite ?Hl.
  - lia.
  - change (page_round 0x80000000) with 0x80000000. split; [exists 0x80000; reflexivity|lia].
  - lia.
  - rewrite W0. reflexivity.
  - rewrite W2. reflexivity.
  - lia.
  - intros p _ Hp. change (page_round 0x80000000) with 0x80000000 in Hp. lia.
Qed.
Lemma ExitBootServices_patches_witness :
  exists s', @KernelErrataPatcherExitBootServices SurfaceDuo2_errata demo_services
      0x80000000 7 0x80000000 demo_patcher = Some (EFI_SUCCESS, s') /\
    gBS s' = mk_boot_services Original 1 /\
    @patched SurfaceDuo2_errata 0x80000000 0x80000000 0x80000000 demo_patcher s'.
Proof.
  exact (@ExitBootServices_patches SurfaceDuo2_errata demo_services 0x80000000 7 0x80000000 0x80000000
    demo_patcher demo_loader_image eq_refl).
Defined.
