(* ===== verification/SerialPort.v ===== *)
(** * The serial port of the firmware: a ring in memory and a console on the screen.

    [Platforms/AndromedaPkg/Library]: InMemorySerialPortLib.c writes to a ring in the
    PStore region, FrameBufferSerialPortLib.c to a console on the frame buffer,
    FrameBufferInMemorySerialPortLib.c to both.  A build links one of them; the functions
    they share are modelled once, from the last.

    [Ring] is the memory of the PStore region and [Fb] that of the frame buffer, an access
    outside of them is a fault.  The position of the console lies behind the frame buffer
    and is kept from one stage of the firmware to the next.  Caches are left out. *)
From stdpp Require Import base numbers list option strings.
From Stdlib Require Import ZArith Lia Ascii.
From S2P Require Import Prelude BaseLib Unicode Storage Bytes MemoryMapConfig Font.
Local Open Scope Z_scope.

(** The frame buffer of a platform, in its .dsc file. *)
Class Display := {
  gWidth : Z;
  gHeight : Z;
  gBpp : Z
}.
Definition SurfaceDuo1_display : Display := Build_Display 1350 1800 32.
Definition SurfaceDuo2_display : Display := Build_Display 1344 1892 32.

(** The answers of the configuration library of the firmware; [intstate_garbage] is the
    value of the variable [intstate] before it is set. *)
Class SerialServices := {
  GetPlatformPStore : EFI_STATUS * ARM_MEMORY_REGION_DESCRIPTOR_EX;
  GetPlatformDisplayFrameBuffer : EFI_STATUS * ARM_MEMORY_REGION_DESCRIPTOR_EX;
  intstate_garbage : bool
}.

Definition FB_BGRA8888_BLACK : Z := 0xff000000.
Definition FB_BGRA8888_WHITE : Z := 0xffffffff.
Definition FB_BGRA8888_YELLOW : Z := 0xffffff00.
Inductive FbConMsgType :=
| FBCON_COMMON_MSG | FBCON_UNLOCK_TITLE_MSG | FBCON_TITLE_MSG | FBCON_SUBTITLE_MSG
| FBCON_YELLOW_MSG | FBCON_ORANGE_MSG | FBCON_RED_MSG | FBCON_GREEN_MSG | FBCON_SELECT_MSG_BG_COLOR.
#[export] Instance FbConMsgType_eq_dec : EqDecision FbConMsgType.
Proof. solve_decision. Defined.

(** ** State *)
Record FBCON_POSITION := mk_position { pos_x : Z; pos_y : Z }.
Record FBCON_COLOR := mk_color { Foreground : Z; Background : Z }.
Record serial_port := mk_serial_port {
  PStore : ARM_MEMORY_REGION_DESCRIPTOR_EX;
  Ring : list Z;
  Fb : list Z;
  p_Position : FBCON_POSITION;
  m_MaxPosition : FBCON_POSITION;
  m_Color : FBCON_COLOR;
  m_Initialized : bool;
  Interrupts : bool
}.
Definition set_PStore p s := mk_serial_port p (Ring s) (Fb s) (p_Position s) (m_MaxPosition s)
  (m_Color s) (m_Initialized s) (Interrupts s).
Definition set_Ring r s := mk_serial_port (PStore s) r (Fb s) (p_Position s) (m_MaxPosition s)
  (m_Color s) (m_Initialized s) (Interrupts s).
Definition set_Fb f s := mk_serial_port (PStore s) (Ring s) f (p_Position s) (m_MaxPosition s)
  (m_Color s) (m_Initialized s) (Interrupts s).
Definition set_Position p s := mk_serial_port (PStore s) (Ring s) (Fb s) p (m_MaxPosition s)
  (m_Color s) (m_Initialized s) (Interrupts s).
Definition set_MaxPosition p s := mk_serial_port (PStore s) (Ring s) (Fb s) (p_Position s) p
  (m_Color s) (m_Initialized s) (Interrupts s).
Definition set_Color c s := mk_serial_port (PStore s) (Ring s) (Fb s) (p_Position s)
  (m_MaxPosition s) c (m_Initialized s) (Interrupts s).
Definition set_Initialized b s := mk_serial_port (PStore s) (Ring s) (Fb s) (p_Position s)
  (m_MaxPosition s) (m_Color s) b (Interrupts s).
Definition set_Interrupts i s := mk_serial_port (PStore s) (Ring s) (Fb s) (p_Position s)
  (m_MaxPosition s) (m_Color s) (m_Initialized s) i.

Abbreviation SP := (M serial_port).
Definition ArmDisableInterrupts : SP unit := modify (set_Interrupts false).
Definition ArmEnableInterrupts : SP unit := modify (set_Interrupts true).

(** [for (i = 0; i < n; i++) body]: the loop of an index the body does not use. *)
Fixpoint loop {A} (n : nat) (body : A -> option A) (a : A) : option A :=
  match n with O => Some a | S n' => a' ← body a; loop n' body a' end.
Fixpoint each {A} (f : A -> SP unit) (l : list A) : SP unit :=
  match l with [] => mret tt | x :: l' => _ ← f x; each f l' end.

(** ** The ring: InMemorySerialPortLib.c *)
Definition mem_putchar (c : Z) : SP unit :=
  region ← gets PStore;
  let size := u64 (Length region - 8) in
  ring ← gets Ring;
  offset ← access (field 8 ring size);
  if size =? 0 then crash else
  let offset := offset mod size in
  ring ← access (PUT_LONG_LONG ring size offset);
  ring ← access (wr ring offset [c]);
  ring ← access (PUT_LONG_LONG ring size (u64 (offset + 1) mod size));
  modify (set_Ring ring).

Definition InMemory_SerialPortWrite (Buffer : list Z) : SP Z :=
  InterruptState ← gets Interrupts;
  _ ← ArmDisableInterrupts;
  _ ← each mem_putchar Buffer;
  _ ← (if (InterruptState : bool) then ArmEnableInterrupts else mret tt);
  mret (Z.of_nat (length Buffer)).

(** ** Drawing a character.  A drawing is a step of the memory and the pointer. *)
Definition drawing : Type := list Z * Z.
(** [for (k = 0; k < bpp; k++) { *p = (unsigned char)color; color >>= 8; p++; }] *)
Fixpoint put_pixel (bpp : nat) (color : Z) (d : drawing) : option drawing :=
  match bpp with
  | O => Some d
  | S k => fb ← wr (fst d) (snd d) [u8 color]; put_pixel k (Z.shiftr color 8) (fb, snd d + 1)
  end.
Definition move (n : Z) (d : drawing) : option drawing := Some (fst d, snd d + n).

(** One half of the background: six lines of [scale_factor] rows. *)
Definition draw_background (bpp scale : nat) (skip bg_color : Z) : drawing -> option drawing :=
  loop (FONT_HEIGHT / 2) (loop scale (fun d =>
    d ← loop FONT_WIDTH (loop scale (put_pixel bpp bg_color)) d; move skip d)).

(** A row of a line of the glyph: the low bits of [data], the rest of which is kept. *)
Definition draw_bit (bpp scale : nat) (fg_color : Z) (s : Z * drawing) : option (Z * drawing) :=
  let (data, d) := s in
  d ← (if Z.testbit data 0 then loop scale (put_pixel bpp fg_color) d
       else loop scale (move (Z.of_nat bpp)) d);
  Some (Z.shiftr data 1, d).
Definition draw_line (bpp scale : nat) (skip fg_color : Z) (s : Z * drawing) : option (Z * drawing) :=
  let temp := fst s in
  loop scale (fun s =>
    s ← loop FONT_WIDTH (draw_bit bpp scale fg_color) (temp, snd s);
    d ← move skip (snd s); Some (fst s, d)) s.
Definition draw_half (bpp scale : nat) (skip fg_color data : Z) (d : drawing) : option drawing :=
  s ← loop (FONT_HEIGHT / 2) (draw_line bpp scale skip fg_color) (data, d); Some (snd s).

Section console.
Context `{Display, SerialServices}.

Definition FbConDrawglyph (pixels stride bpp : Z) (glyph : Z * Z) (scale_factor : Z) : SP unit :=
  color ← gets m_Color;
  let fg_color := u32 (Foreground color) in
  let bg_color := u32 (Background color) in
  let stride := u32 (stride - Z.of_nat FONT_WIDTH * scale_factor) in
  let skip := u32 (stride * bpp) in
  let n := Z.to_nat bpp in let scale := Z.to_nat scale_factor in
  fb ← gets Fb;
  d ← access (draw_background n scale skip bg_color (fb, pixels));
  d ← access (draw_background n scale skip bg_color d);
  d ← access (draw_half n scale skip fg_color (fst glyph) (fst d, pixels));
  d ← access (draw_half n scale skip fg_color (snd glyph) d);
  modify (set_Fb (fst d)).

(** ** The console *)
Definition ResetFb : SP unit :=
  fb ← gets Fb;
  d ← access (loop (Z.to_nat gWidth) (loop (Z.to_nat gHeight)
        (put_pixel (Z.to_nat (gBpp / 8)) FB_BGRA8888_BLACK)) (fb, 0));
  modify (set_Fb (fst d)).
Definition FbConReset : SP unit :=
  _ ← modify (set_MaxPosition (mk_position (gWidth / (Z.of_nat FONT_WIDTH + 1))
        (u64 (gHeight - 1) / Z.of_nat FONT_HEIGHT)));
  modify (set_Color (mk_color FB_BGRA8888_WHITE FB_BGRA8888_BLACK)).

(** [dst] and [src] are pointers to 16-bit values. *)
Definition scroll_copy (distance : Z) (d : drawing) : option drawing :=
  bs ← rd (fst d) (snd d + distance) 2; fb ← wr (fst d) (snd d) bs; Some (fb, snd d + 2).
Definition FbConScrollUp : SP unit :=
  color ← gets m_Color;
  fb ← gets Fb;
  let line := Z.of_nat FONT_HEIGHT in
  d ← access (loop (Z.to_nat (u32 (gWidth * (gHeight - line)))) (scroll_copy (2 * (gWidth * line))) (fb, 0));
  d ← access (loop (Z.to_nat (u32 (gWidth * line))) (put_pixel 2 (Background color)) d);
  modify (set_Fb (fst d)).

(** The glyph of a character; the table has entries up to 127. *)
Definition glyph_of (c : Z) : option (Z * Z) :=
  let i := Z.to_nat ((c - 32) * 2) in
  g0 ← font5x12 !! i; g1 ← font5x12 !! S i; Some (g0, g1).

Definition restore_interrupts (intstate : bool) : SP unit :=
  if intstate then ArmEnableInterrupts else mret tt.

(** The label newline: what to do next, [true] is [goto paint]. *)
Definition newline_step (intstate : bool) (scale_factor : Z) : SP bool :=
  pos ← gets p_Position;
  max ← gets m_MaxPosition;
  let y := pos_y pos + scale_factor in
  _ ← modify (set_Position (mk_position 0 y));
  if pos_y max - scale_factor <=? y then
    _ ← ResetFb;
    _ ← modify (set_Position (mk_position 0 0));
    _ ← restore_interrupts intstate;
    mret true
  else _ ← restore_interrupts intstate; mret false.

(** The label paint, up to a jump to newline or the end. *)
Definition paint_step (c : Z) (type : FbConMsgType) (scale_factor : Z) : SP bool :=
  if 127 <? c then mret false else
  pos ← gets p_Position;
  if c <? 32 then
    if c =? newline then newline_step intstate_garbage scale_factor
    else if c =? carriage_return
    then _ ← modify (set_Position (mk_position 0 (pos_y pos))); mret false
    else mret false
  else
  if (pos_x pos =? 0) && (c =? ch " ") && negb (bool_decide (type = FBCON_SUBTITLE_MSG))
     && negb (bool_decide (type = FBCON_TITLE_MSG))
  then mret false else
  intstate ← gets Interrupts;
  _ ← (if (intstate : bool) then ArmDisableInterrupts else mret tt);
  let bpp := gBpp / 8 in
  let Pixels := u64 (pos_y pos * (bpp * Z.of_nat FONT_HEIGHT * gWidth)) in
  let Pixels := u64 (Pixels + u64 (pos_x pos * scale_factor * (bpp * (Z.of_nat FONT_WIDTH + 1)))) in
  glyph ← access (glyph_of c);
  _ ← FbConDrawglyph Pixels gWidth bpp glyph scale_factor;
  _ ← modify (set_Position (mk_position (pos_x pos + 1) (pos_y pos)));
  max ← gets m_MaxPosition;
  if pos_x max / scale_factor <=? pos_x pos + 1 then newline_step intstate scale_factor
  else _ ← restore_interrupts intstate; mret false.

(** A jump back to paint happens on an empty screen; [PAINT_ROUNDS] bounds the jumps. *)
Fixpoint paint_loop (fuel : nat) (c : Z) (type : FbConMsgType) (scale_factor : Z) : SP unit :=
  match fuel with
  | O => crash
  | S fuel' =>
    again ← paint_step c type scale_factor;
    if (again : bool) then paint_loop fuel' c type scale_factor else mret tt
  end.
Definition PAINT_ROUNDS : nat := 2.
Definition FbConPutCharWithFactor (c : Z) (type : FbConMsgType) (scale_factor : Z) : SP unit :=
  paint_loop PAINT_ROUNDS c type scale_factor.

Definition console_write (Buffer : list Z) : SP unit :=
  each (fun c => FbConPutCharWithFactor c FBCON_COMMON_MSG SCALE_FACTOR) Buffer.

(** ** FrameBufferInMemorySerialPortLib.c *)
Definition SerialPortInitialize : SP EFI_STATUS :=
  initialized ← gets m_Initialized;
  if (initialized : bool) then mret EFI_SUCCESS else
  _ ← FbConReset;
  _ ← modify (set_Initialized true);
  _ ← modify (set_PStore (snd GetPlatformPStore));
  mret (fst GetPlatformPStore).

Definition SerialPortWrite (Buffer : list Z) : SP Z :=
  InterruptState ← gets Interrupts;
  _ ← (if (InterruptState : bool) then ArmDisableInterrupts else mret tt);
  _ ← each mem_putchar Buffer;
  _ ← console_write Buffer;
  _ ← (if (InterruptState : bool) then ArmEnableInterrupts else mret tt);
  mret (Z.of_nat (length Buffer)).

Definition SerialPortWriteCritical (Buffer : list Z) : SP Z :=
  color ← gets m_Color;
  InterruptState ← gets Interrupts;
  _ ← (if (InterruptState : bool) then ArmDisableInterrupts else mret tt);
  _ ← each mem_putchar Buffer;
  _ ← modify (set_Color (mk_color FB_BGRA8888_YELLOW (Background color)));
  _ ← console_write Buffer;
  _ ← modify (fun s => set_Color (mk_color (Foreground color) (Background (m_Color s))) s);
  _ ← (if (InterruptState : bool) then ArmEnableInterrupts else mret tt);
  mret (Z.of_nat (length Buffer)).

(** ** FrameBufferSerialPortLib.c: the console alone *)
Definition FrameBuffer_SerialPortInitialize : SP EFI_STATUS :=
  initialized ← gets m_Initialized;
  if (initialized : bool) then mret EFI_SUCCESS else
  let (Status, _) := GetPlatformDisplayFrameBuffer in
  if EFI_ERROR Status then mret Status else
  _ ← FbConReset;
  _ ← modify (set_Initialized true);
  mret EFI_SUCCESS.
Definition FrameBuffer_SerialPortWrite (Buffer : list Z) : SP Z :=
  InterruptState ← gets Interrupts;
  _ ← (if (InterruptState : bool) then ArmDisableInterrupts else mret tt);
  _ ← console_write Buffer;
  _ ← (if (InterruptState : bool) then ArmEnableInterrupts else mret tt);
  mret (Z.of_nat (length Buffer)).
Definition FrameBuffer_SerialPortWriteCritical (Buffer : list Z) : SP Z :=
  color ← gets m_Color;
  InterruptState ← gets Interrupts;
  _ ← (if (InterruptState : bool) then ArmDisableInterrupts else mret tt);
  _ ← modify (set_Color (mk_color FB_BGRA8888_YELLOW (Background color)));
  _ ← console_write Buffer;
  _ ← modify (fun s => set_Color (mk_color (Foreground color) (Background (m_Color s))) s);
  _ ← (if (InterruptState : bool) then ArmEnableInterrupts else mret tt);
  mret (Z.of_nat (length Buffer)).
End console.
