(* ===== verification/SerialPortSpec.v ===== *)
(** * What the serial port does to its memory.

    The ring always holds the bytes written last, in order.  The console never draws
    outside of the frame buffer, its position stays on the screen, and a character is
    drawn bit for bit. *)
From stdpp Require Import base numbers list option strings.
From Stdlib Require Import ZArith Lia Ascii.
From S2P Require Import Prelude BaseLib Unicode Storage Bytes MemoryMapConfig Font SerialPort.
Local Open Scope Z_scope.

(** ** The ring *)
Definition ring_size (s : serial_port) : Z := Length (PStore s) - 8.
Definition ring_offset (s : serial_port) : Z := le 8 (Ring s) (ring_size s) mod ring_size s.
(** The bytes of the ring from the oldest to the newest. *)
Definition ring_view (s : serial_port) : list Z :=
  let data := take (Z.to_nat (ring_size s)) (Ring s) in
  drop (Z.to_nat (ring_offset s)) data ++ take (Z.to_nat (ring_offset s)) data.
Definition ring_ok (s : serial_port) : Prop :=
  8 < Length (PStore s) < 2 ^ 64 /\ Z.of_nat (length (Ring s)) = Length (PStore s).

(** A byte that replaces the oldest one. *)
Lemma rotate_insert {A} (l : list A) i x : (i < length l)%nat ->
  let l' := <[i:=x]> l in let j := if decide (S i = length l) then 0%nat else S i in
  drop j l' ++ take j l' = tail (drop i l ++ take i l) ++ [x].
Proof.
  intros Hi l' j. unfold l', j. rewrite (insert_take_drop l i x Hi).
  assert (Hd : drop i l = nth i l x :: drop (S i) l).
  { destruct (lookup_lt_is_Some_2 l i Hi) as [y Hy]. rewrite (drop_S _ _ _ Hy).
    f_equal. symmetry. by apply nth_lookup_Some with (d := x). }
  assert (Hl : length (take i l) = i) by (rewrite length_take; lia).
  rewrite Hd. cbn [tail app]. case_decide as He.
  - rewrite (drop_ge l (S i)) by lia. by rewrite drop_0, app_nil_r.
  - replace (S i) with (length (take i l) + 1)%nat at 1 by lia.
    rewrite drop_app_add. replace (S i) with (length (take i l) + 1)%nat at 2 by lia.
    rewrite take_app_add. cbn. rewrite drop_0, take_0. by rewrite <- (assoc_L (++)).
Qed.

Lemma upd_one buf off x : 0 <= off < Z.of_nat (length buf) ->
  upd buf off [x] = <[Z.to_nat off:=x]> buf.
Proof. intros H. unfold upd. rewrite insert_take_drop by lia. do 3 f_equal. cbn. lia. Qed.

(** A state with another ring. *)
Definition only_ring (s s' : serial_port) : Prop := s' = set_Ring (Ring s') s.

Lemma mem_putchar_run c s : ring_ok s ->
  exists s', mem_putchar c s = Some (tt, s') /\ ring_ok s' /\ only_ring s s' /\
    ring_view s' = tail (ring_view s) ++ [c].
Proof.
  intros [Hs Hl]. unfold mem_putchar. run.
  assert (Hsz : u64 (Length (PStore s) - 8) = ring_size s) by (unfold ring_size; apply u64_small; unfold in_u64; lia).
  rewrite Hsz. pose proof (eq_refl : ring_size s = Length (PStore s) - 8) as Hr.
  rewrite field_le by (cbn; lia). run. rewrite (proj2 (Z.eqb_neq _ 0)) by lia.
  fold (ring_offset s).
  pose proof (Z.mod_pos_bound (le 8 (Ring s) (ring_size s)) (ring_size s) ltac:(lia)) as Ho.
  fold (ring_offset s) in Ho. set (o := ring_offset s) in *. set (n := ring_size s) in *. run.
  rewrite PUT_LONG_LONG_upd by lia. run.
  set (r1 := upd (Ring s) n (le_bytes 8 o)).
  assert (L1 : length r1 = length (Ring s)) by (apply upd_length; rewrite ?le_bytes_length; lia).
  rewrite wr_upd by (cbn [length]; lia). run. set (r2 := upd r1 o [c]).
  assert (L2 : length r2 = length (Ring s)) by (unfold r2; rewrite upd_length; cbn [length]; lia).
  rewrite PUT_LONG_LONG_upd by lia. run.
  rewrite (u64_small (o + 1)) by (unfold in_u64; lia). set (o' := (o + 1) mod n).
  pose proof (Z.mod_pos_bound (o + 1) n ltac:(lia)) as Ho'. fold o' in Ho'.
  set (r3 := upd r2 n (le_bytes 8 o')).
  assert (L3 : length r3 = length (Ring s)) by (unfold r3; rewrite upd_length; rewrite ?le_bytes_length; lia).
  exists (set_Ring r3 s). split; [done|]. split; [split; cbn [PStore set_Ring Ring]; [done|lia]|].
  split; [done|].
  assert (Hdata : take (Z.to_nat n) r3 = <[Z.to_nat o:=c]> (take (Z.to_nat n) (Ring s))).
  { change (slice (Z.to_nat n) r3 0 = <[Z.to_nat o:=c]> (slice (Z.to_nat n) (Ring s) 0)).
    unfold r3. rewrite slice_upd_other by (rewrite ?le_bytes_length; lia).
    unfold r2. rewrite slice_upd_inside by (cbn [length]; lia). rewrite Z.sub_0_r.
    unfold r1. rewrite slice_upd_other by (rewrite ?le_bytes_length; lia).
    apply upd_one. rewrite slice_length; lia. }
  assert (Hoff : ring_offset (set_Ring r3 s) = o').
  { unfold ring_offset. change (ring_size (set_Ring r3 s)) with n. cbn [Ring set_Ring].
    unfold r3. rewrite le_upd_same by lia. change (8 * Z.of_nat 8) with 64.
    rewrite (Z.mod_small o') by lia. by apply Z.mod_small. }
  unfold ring_view. rewrite Hoff. change (ring_size (set_Ring r3 s)) with n.
  change (ring_size s) with n. change (ring_offset s) with o. cbn [Ring set_Ring]. rewrite Hdata.
  assert (Ht : length (take (Z.to_nat n) (Ring s)) = Z.to_nat n) by (rewrite length_take; lia).
  rewrite <- (rotate_insert (take (Z.to_nat n) (Ring s)) (Z.to_nat o) c) by lia. rewrite Ht.
  assert (Z.to_nat o' = if decide (S (Z.to_nat o) = Z.to_nat n) then 0%nat else S (Z.to_nat o)) as ->; [|done].
  unfold o'. case_decide.
  - replace (o + 1) with n by lia. by rewrite Z.mod_same by lia.
  - rewrite Z.mod_small; lia.
Qed.

Lemma tail_drop {A} (l : list A) : tail l = drop 1 l.
Proof. by destruct l. Qed.
Lemma ring_length s : ring_ok s -> length (ring_view s) = Z.to_nat (ring_size s).
Proof.
  intros [Hs Hl]. unfold ring_view. rewrite length_app, length_drop.
  pose proof (Z.mod_pos_bound (le 8 (Ring s) (ring_size s)) (ring_size s) ltac:(unfold ring_size; lia)) as Ho.
  fold (ring_offset s) in Ho. rewrite !length_take. unfold ring_size in *. lia.
Qed.
Lemma ring_write_run bs s : ring_ok s ->
  exists s', each mem_putchar bs s = Some (tt, s') /\ ring_ok s' /\ only_ring s s' /\
    ring_view s' = drop (length bs) (ring_view s ++ bs).
Proof.
  revert s. induction bs as [|c bs IH]; intros s Hs; cbn [each].
  { exists s. split; [done|]. split; [done|]. split; [by destruct s|]. by rewrite app_nil_r. }
  destruct (mem_putchar_run c s Hs) as (s1 & Hrun & Hs1 & H1 & Hv1).
  destruct (IH s1 Hs1) as (s' & Hrun' & Hs' & H' & Hv'). run. rewrite Hrun. exists s'.
  split; [done|]. split; [done|]. split; [unfold only_ring in *; by rewrite H', H1|].
  rewrite Hv', Hv1, tail_drop. cbn [length]. pose proof (ring_length s Hs) as Hl.
  assert (0 < Z.to_nat (ring_size s))%nat by (destruct Hs; unfold ring_size; lia).
  destruct (ring_view s) as [|v vs] eqn:Ev; [cbn in Hl; lia|]. cbn [drop app].
  by rewrite <- (assoc_L (++)).
Qed.

(** After a write to the serial port in memory the ring holds
    the bytes written last, oldest first: the old content and the new bytes without as
    many of the oldest, wherever the offset in the memory was when the firmware started.
    Nothing outside of the region is written, and interrupts are as they were. *)
Theorem SerialPortWrite_ring bs s : ring_ok s ->
  exists s', InMemory_SerialPortWrite bs s = Some (Z.of_nat (length bs), s') /\
    ring_ok s' /\ ring_view s' = drop (length bs) (ring_view s ++ bs) /\
    Interrupts s' = Interrupts s.
Proof.
  intros Hs. unfold InMemory_SerialPortWrite, ArmDisableInterrupts, ArmEnableInterrupts. run.
  destruct (ring_write_run bs (set_Interrupts false s)) as (s' & -> & Hs' & Ho & Hv); [done|]. run.
  destruct (Interrupts s) eqn:Ei; run; eexists; (split; [done|]); (split; [done|]); (split; [done|]).
  - done.
  - by rewrite Ho.
Qed.

(** A ring of four bytes that has a wild offset, and five bytes. *)
Definition demo_port : serial_port :=
  mk_serial_port (mk_region [] 0x1000 12 AddMem EFI_RESOURCE_SYSTEM_MEMORY [] EfiConventionalMemory ARM_MEMORY_REGION_ATTRIBUTE_WRITE_BACK)
    [1; 2; 3; 4; 6; 0; 0; 0; 0; 0; 0; 0] [] (mk_position 0 0) (mk_position 0 0) (mk_color 0 0) false true.
Lemma SerialPortWrite_ring_witness :
  exists s', InMemory_SerialPortWrite [5; 6; 7; 8; 9] demo_port = Some (5, s') /\
    ring_ok s' /\ ring_view s' = drop 5 ([3; 4; 1; 2] ++ [5; 6; 7; 8; 9]) /\ Interrupts s' = true.
Proof. apply (SerialPortWrite_ring [5; 6; 7; 8; 9] demo_port). by split. Defined.

(** ** Drawings as lists of pixels *)
Section pixels.
(** [n] bytes for a pixel. *)
Variable n : nat.

Definition paint (ws : list (Z * Z)) (fb : list Z) : list Z :=
  foldl (fun fb w => upd fb (fst w) (le_bytes n (snd w))) fb ws.
Definition inside (fb : list Z) (ws : list (Z * Z)) : Prop :=
  Forall (fun w => 0 <= fst w /\ fst w + Z.of_nat n <= Z.of_nat (length fb)) ws.

(** A step that draws [ws p] from the pointer [p] on and moves it by [d]. *)
Definition draws (m : drawing -> option drawing) (ws : Z -> list (Z * Z)) (d : Z) : Prop :=
  forall fb p, inside fb (ws p) -> m (fb, p) = Some (paint (ws p) fb, p + d).

Lemma paint_app ws ws' fb : paint (ws ++ ws') fb = paint ws' (paint ws fb).
Proof. apply foldl_app. Qed.
Lemma paint_length ws fb : inside fb ws -> length (paint ws fb) = length fb.
Proof.
  revert fb. induction ws as [|[o c] ws IH]; intros fb Hi; [done|]. apply Forall_cons in Hi as [[H1 H2] Hi].
  cbn in *. assert (Hl : length (upd fb o (le_bytes n c)) = length fb)
    by (apply upd_length; rewrite ?le_bytes_length; done).
  fold (paint ws (upd fb o (le_bytes n c))). rewrite IH; [done|]. unfold inside. by rewrite Hl.
Qed.
Lemma inside_app fb ws ws' : inside fb (ws ++ ws') <-> inside fb ws /\ inside fb ws'.
Proof. apply Forall_app. Qed.
Lemma inside_paint fb ws ws' : inside fb ws -> inside fb ws' -> inside (paint ws fb) ws'.
Proof. intros H H'. unfold inside. by rewrite paint_length. Qed.

Lemma draws_seq m1 m2 ws1 ws2 d1 d2 : draws m1 ws1 d1 -> draws m2 ws2 d2 ->
  draws (fun d => d ← m1 d; m2 d) (fun p => ws1 p ++ ws2 (p + d1)) (d1 + d2).
Proof.
  intros H1 H2 fb p Hi. apply inside_app in Hi as [I1 I2]. rewrite H1 by done. cbn [mbind option_bind].
  rewrite H2 by (by apply inside_paint). by rewrite paint_app, Z.add_assoc.
Qed.
Lemma draws_loop m ws d k : draws m ws d ->
  draws (loop k m) (fun p => seq 0 k ≫= fun i => ws (p + Z.of_nat i * d)) (Z.of_nat k * d).
Proof.
  intros Hm. induction k as [|k IH]; intros fb p Hi.
  { cbn. f_equal. f_equal. lia. }
  assert (E : seq 0 (S k) ≫= (fun i => ws (p + Z.of_nat i * d)) =
    ws p ++ (seq 0 k ≫= fun i => ws (p + d + Z.of_nat i * d))).
  { cbn [seq mbind list_bind]. f_equal; [f_equal; lia|]. rewrite <- seq_shift.
    clear. generalize (seq 0 k). intros l. induction l as [|i l IHl]; [done|].
    cbn [map mbind list_bind]. f_equal; [f_equal; lia|done]. }
  rewrite E in *. apply inside_app in Hi as [I1 I2]. cbn [loop]. rewrite Hm by done. cbn [mbind option_bind].
  rewrite IH by (by apply inside_paint). rewrite paint_app. do 2 f_equal. lia.
Qed.
Lemma draws_move k : draws (move k) (fun _ => []) k.
Proof. intros fb p _. done. Qed.

Lemma upd_cons fb p b bs : 0 <= p -> p + 1 + Z.of_nat (length bs) <= Z.of_nat (length fb) ->
  upd (upd fb p [b]) (p + 1) bs = upd fb p (b :: bs).
Proof.
  intros H1 H2. apply list_eq. intros i.
  rewrite !upd_lookup by (rewrite ?upd_length; cbn [length]; lia). cbn [length].
  repeat case_decide; try lia; try done.
  - by replace (i - Z.to_nat p)%nat with (S (i - Z.to_nat (p + 1)))%nat by lia.
  - by replace (i - Z.to_nat p)%nat with 0%nat by lia.
Qed.
Lemma put_pixel_run k color fb p : 0 <= p -> p + Z.of_nat k <= Z.of_nat (length fb) ->
  put_pixel k color (fb, p) = Some (upd fb p (le_bytes k color), p + Z.of_nat k).
Proof.
  revert color fb p. induction k as [|k IH]; intros color fb p H1 H2.
  { cbn. unfold upd. cbn. rewrite Nat.add_0_r, take_drop. do 2 f_equal. lia. }
  cbn [put_pixel fst snd]. rewrite wr_upd by (cbn [length]; lia). cbn [mbind option_bind].
  assert (Hl : length (upd fb p [u8 color]) = length fb) by (apply upd_length; cbn [length]; lia).
  rewrite IH by (rewrite ?Hl; lia). rewrite upd_cons by (rewrite ?le_bytes_length; lia).
  rewrite Z.shiftr_div_pow2 by lia. do 2 f_equal. lia.
Qed.
Lemma draws_pixel color : draws (put_pixel n color) (fun p => [(p, color)]) (Z.of_nat n).
Proof.
  intros fb p Hi. apply Forall_cons in Hi as [[H1 H2] _]. by rewrite put_pixel_run.
Qed.

(** What is on the screen after some pixels. *)
Lemma paint_apart ws fb o : inside fb ws -> 0 <= o ->
  Forall (fun w => apart o (Z.of_nat n) (fst w, Z.of_nat n)) ws ->
  slice n (paint ws fb) o = slice n fb o.
Proof.
  revert fb. induction ws as [|[o' c] ws IH]; intros fb Hi Ho Ha; [done|].
  apply Forall_cons in Hi as [[H1 H2] Hi]. apply Forall_cons in Ha as [Ha Has]. cbn in *.
  assert (Hl : length (upd fb o' (le_bytes n c)) = length fb)
    by (apply upd_length; rewrite ?le_bytes_length; done).
  fold (paint ws (upd fb o' (le_bytes n c))). rewrite IH; [|unfold inside; by rewrite Hl|done|done].
  unfold apart in Ha. cbn in Ha. apply slice_upd_other; rewrite ?le_bytes_length; lia.
Qed.
(** A pixel that is drawn, where the others are apart or have its color. *)
Lemma paint_at ws fb o color : inside fb ws -> (o, color) ∈ ws ->
  Forall (fun w => w = (o, color) \/ apart o (Z.of_nat n) (fst w, Z.of_nat n)) ws ->
  slice n (paint ws fb) o = le_bytes n color.
Proof.
  intros Hi Hin Ha. induction ws as [|w ws IH] using rev_ind; [by apply not_elem_of_nil in Hin|].
  apply inside_app in Hi as [I1 I2]. apply Forall_cons in I2 as [[O1 O2] _].
  apply Forall_app in Ha as [A1 A2]. apply Forall_cons in A2 as [A2 _].
  rewrite paint_app. cbn [paint foldl]. pose proof (paint_length _ _ I1) as Hl.
  destruct A2 as [->|A2]; cbn [fst snd] in *.
  - pose proof (slice_upd_same (paint ws fb) o (le_bytes n color)) as E.
    rewrite le_bytes_length, Hl in E. by apply E.
  - apply elem_of_app in Hin as [Hin|Hin].
    + assert (0 <= o) as Ho.
      { unfold inside in I1. rewrite Forall_forall in I1. by apply (I1 (o, color)). }
      unfold apart in A2. cbn in A2.
      rewrite slice_upd_other by (rewrite ?le_bytes_length, ?Hl; lia). by apply IH.
    + apply list_elem_of_singleton in Hin as <-. cbn in *.
      pose proof (slice_upd_same (paint ws fb) o (le_bytes n color)) as E.
      rewrite le_bytes_length, Hl in E. by apply E.
Qed.
End pixels.

(** ** A character.  [D] is the distance of two rows, [skip] that from the end of a row
    of the character to the next one. *)
Section glyph.
Variables (n : nat) (skip D : Z).
Hypothesis row_distance : Z.of_nat 5 * Z.of_nat n + skip = D.

Lemma loop_1 {A} (m : A -> option A) a : loop 1 m a = m a.
Proof. cbn. by destruct (m a). Qed.
Lemma loop_ext {A} (m m' : A -> option A) k a : (forall x, m x = m' x) -> loop k m a = loop k m' a.
Proof.
  intros E. revert a. induction k as [|k IH]; intros a; cbn [loop]; [done|].
  rewrite E. destruct (m' a); [apply IH|done].
Qed.
Lemma draws_ext m m' ws d : (forall x, m x = m' x) -> draws n m' ws d -> draws n m ws d.
Proof. intros E H fb p Hi. rewrite E. by apply H. Qed.

(** The rows of a block of six lines. *)
Definition block_row (color p : Z) : list (Z * Z) :=
  (seq 0 5 ≫= fun x => [(p + Z.of_nat x * Z.of_nat n, color)]) ++ [].
Definition block (color p : Z) : list (Z * Z) := seq 0 6 ≫= fun y => block_row color (p + Z.of_nat y * D).
Lemma draws_background color : draws n (draw_background n 1 skip color) (block color) (6 * D).
Proof.
  unfold draw_background. apply (draws_loop n _ (block_row color) D 6). eapply draws_ext; [intros x; apply loop_1|].
  rewrite <- row_distance.
  eapply (draws_seq n (loop 5 (loop 1 (put_pixel n color))) (move skip) _ (fun _ => [])); [|apply draws_move].
  apply (draws_loop n _ (fun p => [(p, color)]) (Z.of_nat n) 5).
  eapply draws_ext; [intros x; apply loop_1|]. apply draws_pixel.
Qed.

(** Steps that consume bits. *)
Definition sdraws (m : Z * drawing -> option (Z * drawing)) (ws : Z -> Z -> list (Z * Z)) (k d : Z) : Prop :=
  forall data fb p, inside n fb (ws data p) ->
    m (data, (fb, p)) = Some (Z.shiftr data k, (paint n (ws data p) fb, p + d)).
Lemma sdraws_loop m ws k d c : 0 <= k -> sdraws m ws k d ->
  sdraws (loop c m) (fun data p => seq 0 c ≫= fun i => ws (Z.shiftr data (Z.of_nat i * k)) (p + Z.of_nat i * d))
    (Z.of_nat c * k) (Z.of_nat c * d).
Proof.
  intros Hk Hm. induction c as [|c IH]; intros data fb p Hi.
  { cbn. rewrite Z.shiftr_0_r. do 3 f_equal. lia. }
  assert (E : seq 0 (S c) ≫= (fun i => ws (Z.shiftr data (Z.of_nat i * k)) (p + Z.of_nat i * d)) =
    ws data p ++ (seq 0 c ≫= fun i => ws (Z.shiftr (Z.shiftr data k) (Z.of_nat i * k)) (p + d + Z.of_nat i * d))).
  { cbn [seq mbind list_bind]. f_equal; [change (Z.of_nat 0 * k) with 0; rewrite Z.shiftr_0_r; f_equal; lia|].
    rewrite <- seq_shift. clear -Hk. generalize (seq 0 c). intros l. induction l as [|i l IHl]; [done|].
    cbn [map mbind list_bind]. f_equal; [|done]. rewrite Z.shiftr_shiftr by lia. f_equal; [f_equal|]; lia. }
  rewrite E in *. apply inside_app in Hi as [I1 I2]. cbn [loop]. rewrite Hm by done. cbn [mbind option_bind].
  rewrite IH by (by apply inside_paint). rewrite paint_app, Z.shiftr_shiftr by lia.
  do 2 f_equal; [f_equal; lia|f_equal; lia].
Qed.

Definition line_pixels (color data p : Z) : list (Z * Z) :=
  seq 0 5 ≫= fun x => if Z.testbit (Z.shiftr data (Z.of_nat x * 1)) 0 then [(p + Z.of_nat x * Z.of_nat n, color)] else [].
Lemma sdraws_line color : sdraws (draw_line n 1 skip color) (line_pixels color) 5 D.
Proof.
  intros data fb p Hi. unfold draw_line. cbn [fst]. rewrite loop_1. cbn [snd].
  assert (Hbit : sdraws (draw_bit n 1 color)
    (fun data p => if Z.testbit data 0 then [(p, color)] else []) 1 (Z.of_nat n)).
  { intros data' fb' p' Hi'. unfold draw_bit. rewrite !loop_1. destruct (Z.testbit data' 0).
    - rewrite draws_pixel by done. done.
    - done. }
  pose proof (sdraws_loop _ _ 1 _ 5 ltac:(lia) Hbit) as Hl.
  specialize (Hl data fb p Hi). change FONT_WIDTH with 5%nat. unfold drawing in *. rewrite Hl. cbn [mbind option_bind snd move fst]. do 3 f_equal. lia.
Qed.
Definition half (color data p : Z) : list (Z * Z) :=
  seq 0 6 ≫= fun y => line_pixels color (Z.shiftr data (Z.of_nat y * 5)) (p + Z.of_nat y * D).
Lemma draws_half color data : draws n (draw_half n 1 skip color data) (half color data) (6 * D).
Proof.
  intros fb p Hi. unfold draw_half.
  pose proof (sdraws_loop _ _ 5 _ 6 ltac:(lia) (sdraws_line color)) as Hl.
  specialize (Hl data fb p Hi). change (FONT_HEIGHT / 2)%nat with 6%nat. unfold drawing in *. by rewrite Hl.
Qed.

(** The pixels of the parts, by row and column. *)
Lemma block_elem w color p : w ∈ block color p <->
  exists y x, (y < 6)%nat /\ (x < 5)%nat /\ w = (p + Z.of_nat y * D + Z.of_nat x * Z.of_nat n, color).
Proof.
  clear row_distance. unfold block, block_row. rewrite list_elem_of_bind. split.
  - intros (y & Hw & Hy). rewrite app_nil_r, list_elem_of_bind in Hw. destruct Hw as (x & Hw & Hx).
    apply list_elem_of_singleton in Hw as ->. apply elem_of_seq in Hx, Hy. exists y, x. split_and!; (lia || done).
  - intros (y & x & Hy & Hx & ->). exists y. split; [|apply elem_of_seq; lia].
    rewrite app_nil_r. apply list_elem_of_bind. exists x. split; [by apply list_elem_of_singleton|apply elem_of_seq; lia].
Qed.
Lemma half_elem w color data p : w ∈ half color data p <->
  exists y x, (y < 6)%nat /\ (x < 5)%nat /\ Z.testbit data (Z.of_nat y * 5 + Z.of_nat x) = true /\
    w = (p + Z.of_nat y * D + Z.of_nat x * Z.of_nat n, color).
Proof.
  clear row_distance. assert (Hb : forall y x : nat, Z.testbit (Z.shiftr (Z.shiftr data (Z.of_nat y * 5)) (Z.of_nat x * 1)) 0 =
    Z.testbit data (Z.of_nat y * 5 + Z.of_nat x)).
  { intros y x. rewrite !Z.shiftr_spec by lia. f_equal. lia. }
  unfold half, line_pixels. rewrite list_elem_of_bind. split.
  - intros (y & Hw & Hy). apply list_elem_of_bind in Hw as (x & Hw & Hx). rewrite Hb in Hw.
    apply elem_of_seq in Hx, Hy. destruct (Z.testbit data _) eqn:Et; [|by apply not_elem_of_nil in Hw].
    apply list_elem_of_singleton in Hw as ->. exists y, x. split_and!; (lia || done).
  - intros (y & x & Hy & Hx & Ht & ->). exists y. split; [|apply elem_of_seq; lia].
    apply list_elem_of_bind. exists x. rewrite Hb, Ht.
    split; [by apply list_elem_of_singleton|apply elem_of_seq; lia].
Qed.
End glyph.

(** ** The screen *)
Section console.
Context `{Display, SerialServices}.
Definition pixel_bytes : nat := Z.to_nat (gBpp / 8).
Definition screen_size : Z := gWidth * gHeight * (gBpp / 8).
Definition pixel (fb : list Z) (row col : Z) : list Z :=
  slice pixel_bytes fb ((row * gWidth + col) * (gBpp / 8)).

(** The screen has room for three lines, and its size fits 32 bits. *)
Record display_ok : Prop := mk_display_ok {
  display_width : 6 <= gWidth;
  display_height : 37 <= gHeight;
  display_bpp : 1 <= gBpp / 8;
  display_size : screen_size < 2 ^ 32
}.
Hypothesis Hd : display_ok.

Lemma pixel_bytes_Z : Z.of_nat pixel_bytes = gBpp / 8.
Proof. destruct Hd. unfold pixel_bytes. lia. Qed.
Lemma pixel_inside row col : 0 <= row < gHeight -> 0 <= col < gWidth ->
  0 <= (row * gWidth + col) * (gBpp / 8) /\ (row * gWidth + col) * (gBpp / 8) + gBpp / 8 <= screen_size.
Proof.
  destruct Hd as [Hw Hh Hb _]. intros Hr Hc. unfold screen_size.
  assert (row * gWidth + col + 1 <= gWidth * gHeight) by nia. split; [nia|].
  replace ((row * gWidth + col) * (gBpp / 8) + gBpp / 8) with ((row * gWidth + col + 1) * (gBpp / 8)) by lia.
  by apply Z.mul_le_mono_nonneg_r; lia.
Qed.
Lemma pixels_apart row col row' col' : 0 <= col < gWidth -> 0 <= col' < gWidth ->
  (row, col) <> (row', col') ->
  apart ((row * gWidth + col) * (gBpp / 8)) (Z.of_nat pixel_bytes)
    ((row' * gWidth + col') * (gBpp / 8), Z.of_nat pixel_bytes).
Proof.
  intros Hc Hc' Hne. rewrite pixel_bytes_Z. destruct Hd as [Hw Hh Hb _].
  assert (row * gWidth + col <> row' * gWidth + col') as Hk.
  { intros E. apply Hne. assert (row = row') by nia. subst row'. f_equal. lia. }
  revert Hk. generalize (row * gWidth + col), (row' * gWidth + col'). intros k k' Hk.
  unfold apart. cbn. destruct (Z.lt_ge_cases k k'); [left|right]; nia.
Qed.

(** The screen with a character at line [y] and column [x]. *)
Definition in_cell (x y row col : Z) : bool :=
  (12 * y <=? row) && (row <? 12 * y + 12) && (6 * x <=? col) && (col <? 6 * x + 5).
Definition glyph_bit (glyph : Z * Z) (r c : Z) : bool :=
  Z.testbit (if r <? 6 then fst glyph else snd glyph) ((r mod 6) * 5 + c).
Definition shows (x y : Z) (glyph : Z * Z) (color : FBCON_COLOR) (fb fb' : list Z) : Prop :=
  forall row col, 0 <= row < gHeight -> 0 <= col < gWidth ->
  pixel fb' row col =
    if in_cell x y row col
    then le_bytes pixel_bytes
           (u32 (if glyph_bit glyph (row - 12 * y) (col - 6 * x) then Foreground color else Background color))
    else pixel fb row col.

Definition cell_start (x y : Z) : Z := (12 * y * gWidth + 6 * x) * (gBpp / 8).
Definition row_size : Z := gWidth * (gBpp / 8).
(** The two halves of the background and of the character. *)
Definition background (color x y : Z) : list (Z * Z) :=
  block pixel_bytes row_size color (cell_start x y) ++
  block pixel_bytes row_size color (cell_start x y + 6 * row_size).
Definition foreground (color : Z) (glyph : Z * Z) (x y : Z) : list (Z * Z) :=
  half pixel_bytes row_size color (fst glyph) (cell_start x y) ++
  half pixel_bytes row_size color (snd glyph) (cell_start x y + 6 * row_size).

Definition cell_pixel (x y : Z) (r c : Z) : Z := ((12 * y + r) * gWidth + (6 * x + c)) * (gBpp / 8).
Lemma background_elem w color x y : w ∈ background color x y <->
  exists r c, 0 <= r < 12 /\ 0 <= c < 5 /\ w = (cell_pixel x y r c, color).
Proof.
  unfold background. rewrite elem_of_app, !block_elem. rewrite pixel_bytes_Z. unfold cell_pixel, cell_start, row_size. split.
  - intros [(r & c & Hr & Hc & ->)|(r & c & Hr & Hc & ->)].
    + exists (Z.of_nat r), (Z.of_nat c). split_and!; [lia..|]. f_equal. ring.
    + exists (Z.of_nat r + 6), (Z.of_nat c). split_and!; [lia..|]. f_equal. ring.
  - intros (r & c & Hr & Hc & ->). destruct (Z.lt_ge_cases r 6); [left|right].
    + exists (Z.to_nat r), (Z.to_nat c). split_and!; [lia..|]. f_equal. rewrite !Z2Nat.id by lia. ring.
    + exists (Z.to_nat (r - 6)), (Z.to_nat c). split_and!; [lia..|]. f_equal. rewrite !Z2Nat.id by lia. ring.
Qed.
Lemma foreground_elem w color glyph x y : w ∈ foreground color glyph x y <->
  exists r c, 0 <= r < 12 /\ 0 <= c < 5 /\ glyph_bit glyph r c = true /\ w = (cell_pixel x y r c, color).
Proof.
  unfold foreground, glyph_bit. rewrite elem_of_app, !half_elem. rewrite pixel_bytes_Z.
  unfold cell_pixel, cell_start, row_size. split.
  - intros [(r & c & Hr & Hc & Hb & ->)|(r & c & Hr & Hc & Hb & ->)].
    + exists (Z.of_nat r), (Z.of_nat c). rewrite (proj2 (Z.ltb_lt _ _)) by lia. rewrite Z.mod_small by lia.
      split_and!; [lia..|done|]. f_equal. ring.
    + exists (Z.of_nat r + 6), (Z.of_nat c). rewrite (proj2 (Z.ltb_ge _ _)) by lia.
      replace ((Z.of_nat r + 6) mod 6) with (Z.of_nat r) by (rewrite <- (Z.mul_1_l 6) at 1; rewrite Z.mod_add, Z.mod_small; lia).
      split_and!; [lia..|done|]. f_equal. ring.
  - intros (r & c & Hr & Hc & Hb & ->). case_if_in Hb; bool_to_prop; [left|right].
    + exists (Z.to_nat r), (Z.to_nat c). rewrite Z.mod_small in Hb by lia. rewrite !Z2Nat.id by lia.
      split_and!; [lia..|done|]. f_equal. ring.
    + exists (Z.to_nat (r - 6)), (Z.to_nat c). rewrite !Z2Nat.id by lia.
      replace (r mod 6) with (r - 6) in Hb.
      * split_and!; [lia..|done|]. f_equal. ring.
      * replace r with (r - 6 + 1 * 6) at 2 by lia. rewrite Z.mod_add, Z.mod_small by lia. lia.
Qed.

Definition place_ok (x y : Z) : Prop := 0 <= x /\ 6 * x + 6 <= gWidth /\ 0 <= y /\ 12 * y + 12 <= gHeight.
Lemma cell_inside x y r c (fb : list Z) : place_ok x y -> Z.of_nat (length fb) = screen_size ->
  0 <= r < 12 -> 0 <= c < 5 ->
  0 <= cell_pixel x y r c /\ cell_pixel x y r c + Z.of_nat pixel_bytes <= Z.of_nat (length fb).
Proof.
  intros (H1 & H2 & H3 & H4) Hl Hr Hc. rewrite Hl, pixel_bytes_Z. apply pixel_inside; lia.
Qed.
Lemma background_inside color x y fb : place_ok x y -> Z.of_nat (length fb) = screen_size ->
  inside pixel_bytes fb (background color x y).
Proof.
  intros Hp Hl. apply Forall_forall. intros w Hw. apply background_elem in Hw as (r & c & Hr & Hc & ->).
  by apply cell_inside.
Qed.
Lemma foreground_inside color glyph x y fb : place_ok x y -> Z.of_nat (length fb) = screen_size ->
  inside pixel_bytes fb (foreground color glyph x y).
Proof.
  intros Hp Hl. apply Forall_forall. intros w Hw. apply foreground_elem in Hw as (r & c & Hr & Hc & _ & ->).
  by apply cell_inside.
Qed.

(** Drawing is painting the background and then the character. *)
Lemma FbConDrawglyph_run x y glyph s : place_ok x y -> Z.of_nat (length (Fb s)) = screen_size ->
  FbConDrawglyph (cell_start x y) gWidth (gBpp / 8) glyph 1 s =
    Some (tt, set_Fb (paint pixel_bytes (foreground (u32 (Foreground (m_Color s))) glyph x y)
                     (paint pixel_bytes (background (u32 (Background (m_Color s))) x y) (Fb s))) s).
Proof.
  intros Hp Hl. pose proof pixel_bytes_Z as Hn. destruct Hd as [Hw Hh Hb Hs].
  unfold FbConDrawglyph. fold pixel_bytes. change (Z.to_nat 1) with 1%nat. run. cbv zeta.
  assert (Hsmall : gWidth * (gBpp / 8) < 2 ^ 32).
  { unfold screen_size in Hs. assert (gWidth * (gBpp / 8) * 1 <= gWidth * (gBpp / 8) * gHeight)
      by (apply Z.mul_le_mono_nonneg_l; [nia|lia]). lia. }
  assert (Hskip : u32 (u32 (gWidth - Z.of_nat FONT_WIDTH * 1) * (gBpp / 8)) = row_size - 5 * Z.of_nat pixel_bytes).
  { change (Z.of_nat FONT_WIDTH * 1) with 5. unfold row_size. rewrite Hn.
    rewrite (u32_small (gWidth - 5)) by (unfold in_u32; nia).
    rewrite u32_small by (unfold in_u32; nia). ring. }
  rewrite Hskip. set (skip := row_size - 5 * Z.of_nat pixel_bytes).
  assert (HD : Z.of_nat 5 * Z.of_nat pixel_bytes + skip = row_size) by (unfold skip; lia).
  set (bg := u32 (Background (m_Color s))). set (fg := u32 (Foreground (m_Color s))).
  pose proof (background_inside bg x y (Fb s) Hp Hl) as Ib. apply inside_app in Ib as [Ib1 Ib2].
  set (fb1 := paint pixel_bytes (background bg x y) (Fb s)).
  assert (Hl1 : Z.of_nat (length fb1) = screen_size).
  { unfold fb1. rewrite paint_length; [done|]. by apply background_inside. }
  pose proof (foreground_inside fg glyph x y fb1 Hp Hl1) as If. apply inside_app in If as [If1 If2].
  unfold drawing. rewrite (draws_background _ _ _ HD bg _ _ Ib1). run.
  rewrite (draws_background _ _ _ HD bg _ _ (inside_paint _ _ _ _ Ib1 Ib2)). run.
  rewrite <- paint_app. fold (background bg x y). fold fb1.
  rewrite (draws_half _ _ _ HD fg (fst glyph) _ _ If1). run.
  rewrite (draws_half _ _ _ HD fg (snd glyph) _ _ (inside_paint _ _ _ _ If1 If2)). run.
  by rewrite <- paint_app.
Qed.

(** The screen after a character was drawn. *)
Lemma glyph_shown x y glyph color fb : place_ok x y -> Z.of_nat (length fb) = screen_size ->
  shows x y glyph color fb
    (paint pixel_bytes (foreground (u32 (Foreground color)) glyph x y)
      (paint pixel_bytes (background (u32 (Background color)) x y) fb)).
Proof.
  intros Hp Hl row col Hrow Hcol.
  pose proof (background_inside (u32 (Background color)) x y fb Hp Hl) as Ib.
  set (fb1 := paint pixel_bytes (background (u32 (Background color)) x y) fb).
  assert (Hl1 : Z.of_nat (length fb1) = screen_size) by (unfold fb1; by rewrite paint_length).
  pose proof (foreground_inside (u32 (Foreground color)) glyph x y fb1 Hp Hl1) as If.
  destruct (pixel_inside row col Hrow Hcol) as [Ho _]. destruct Hp as (P1 & P2 & P3 & P4).
  assert (Hother : forall r c, 0 <= r < 12 -> 0 <= c < 5 -> (row, col) <> (12 * y + r, 6 * x + c) ->
    apart ((row * gWidth + col) * (gBpp / 8)) (Z.of_nat pixel_bytes) (cell_pixel x y r c, Z.of_nat pixel_bytes)).
  { intros r c Hr Hc Hne. apply pixels_apart; [lia|lia|done]. }
  unfold pixel. unfold in_cell. case_if.
  - apply andb_true_iff in E as [E E4]. apply andb_true_iff in E as [E E3]. apply andb_true_iff in E as [E1 E2]. bool_to_prop.
    set (r := row - 12 * y) in *. set (c := col - 6 * x) in *.
    assert (Hrc : cell_pixel x y r c = (row * gWidth + col) * (gBpp / 8)) by (unfold cell_pixel, r, c; f_equal; f_equal; lia).
    assert (Hcase : forall r' c', 0 <= r' < 12 -> 0 <= c' < 5 -> (r' = r /\ c' = c) \/
      apart ((row * gWidth + col) * (gBpp / 8)) (Z.of_nat pixel_bytes) (cell_pixel x y r' c', Z.of_nat pixel_bytes)).
    { intros r' c' Hr' Hc'. destruct (decide ((row, col) = (12 * y + r', 6 * x + c'))) as [[= Er Ec]|Hne].
      - left. unfold r, c. lia.
      - right. by apply Hother. }
    destruct (glyph_bit glyph r c) eqn:Eb.
    + apply paint_at; [done| |].
      * apply foreground_elem. exists r, c. rewrite Hrc. split_and!; (done || (unfold r, c; lia)).
      * apply Forall_forall. intros w Hw. apply foreground_elem in Hw as (r' & c' & Hr' & Hc' & _ & ->).
        destruct (Hcase r' c' Hr' Hc') as [[-> ->]|Hw]; [left; by rewrite Hrc|by right].
    + rewrite paint_apart; [|done|done|].
      * apply paint_at; [done| |].
        { apply background_elem. exists r, c. rewrite Hrc. split_and!; (done || (unfold r, c; lia)). }
        { apply Forall_forall. intros w Hw. apply background_elem in Hw as (r' & c' & Hr' & Hc' & ->).
          destruct (Hcase r' c' Hr' Hc') as [[-> ->]|Hw]; [left; by rewrite Hrc|by right]. }
      * apply Forall_forall. intros w Hw. apply foreground_elem in Hw as (r' & c' & Hr' & Hc' & Hb' & ->).
        destruct (Hcase r' c' Hr' Hc') as [[-> ->]|Hw]; [congruence|done].
  - assert (Hout : forall r c, 0 <= r < 12 -> 0 <= c < 5 -> (row, col) <> (12 * y + r, 6 * x + c)).
    { intros r c Hr Hc [= Er Ec]. apply andb_false_iff in E as [E|E]; [apply andb_false_iff in E as [E|E];
        [apply andb_false_iff in E as [E|E]|]|]; bool_to_prop; lia. }
    rewrite paint_apart; [unfold fb1; rewrite paint_apart; [done|done|done|]|done|done|].
    + apply Forall_forall. intros w Hw. apply background_elem in Hw as (r & c & Hr & Hc & ->). by apply Hother, Hout.
    + apply Forall_forall. intros w Hw. apply foreground_elem in Hw as (r & c & Hr & Hc & _ & ->). by apply Hother, Hout.
Qed.

(** A character is drawn bit for bit: at a place on the screen
    every pixel of its cell of five by twelve gets the foreground color where the
    character has a bit and the background color where it has none, and every other
    pixel of the screen stays as it was. *)
Theorem FbConDrawglyph_shows x y glyph s : place_ok x y -> Z.of_nat (length (Fb s)) = screen_size ->
  exists fb, FbConDrawglyph (cell_start x y) gWidth (gBpp / 8) glyph 1 s = Some (tt, set_Fb fb s) /\
    Z.of_nat (length fb) = screen_size /\ shows x y glyph (m_Color s) (Fb s) fb.
Proof.
  intros Hp Hl. eexists. split; [by apply FbConDrawglyph_run|]. split; [|by apply glyph_shown].
  rewrite !paint_length; [done|by apply background_inside|]. apply foreground_inside; [done|].
  rewrite paint_length; [done|by apply background_inside].
Qed.

(** ** The console *)
Record console_ok (s : serial_port) : Prop := mk_console_ok {
  console_fb : Z.of_nat (length (Fb s)) = screen_size;
  console_max : m_MaxPosition s = mk_position (gWidth / 6) ((gHeight - 1) / 12);
  console_x : 0 <= pos_x (p_Position s) < gWidth / 6;
  console_y : 0 <= pos_y (p_Position s) < (gHeight - 1) / 12 - 1
}.
(** Only the screen and the position change, and the interrupts unless the variable that
    keeps them was not set. *)
Record console_step (s s' : serial_port) : Prop := mk_console_step {
  step_PStore : PStore s' = PStore s;
  step_Ring : Ring s' = Ring s;
  step_Color : m_Color s' = m_Color s;
  step_Initialized : m_Initialized s' = m_Initialized s;
  step_Interrupts : intstate_garbage = false -> Interrupts s' = Interrupts s;
  step_console : console_ok s'
}.

Lemma dims : 1 <= gWidth / 6 /\ 3 <= (gHeight - 1) / 12 /\ 6 * (gWidth / 6) <= gWidth /\
  12 * ((gHeight - 1) / 12) <= gHeight - 1.
Proof.
  destruct Hd as [Hw Hh _ _]. split_and!.
  - apply Z.div_le_lower_bound; lia.
  - apply Z.div_le_lower_bound; lia.
  - apply Z.mul_div_le. lia.
  - apply Z.mul_div_le. lia.
Qed.

Lemma ResetFb_run s : Z.of_nat (length (Fb s)) = screen_size ->
  exists fb, ResetFb s = Some (tt, set_Fb fb s) /\ Z.of_nat (length fb) = screen_size.
Proof.
  intros Hl. unfold ResetFb. fold pixel_bytes. run. set (n := pixel_bytes).
  pose proof (draws_loop n _ _ _ (Z.to_nat gHeight) (draws_pixel n FB_BGRA8888_BLACK)) as H1.
  pose proof (draws_loop n _ _ _ (Z.to_nat gWidth) H1) as H2. cbv beta in H2.
  assert (Hn : Z.of_nat n = gBpp / 8) by apply pixel_bytes_Z. destruct Hd as [Hw Hh Hb _].
  match type of H2 with draws _ _ ?ws _ => set (all := ws 0); assert (Hi : inside n (Fb s) all) end.
  { apply Forall_forall. intros w Hin. unfold all in Hin. apply list_elem_of_bind in Hin as (i & Hin & Hi).
    apply list_elem_of_bind in Hin as (j & Hin & Hj). apply list_elem_of_singleton in Hin as ->.
    apply elem_of_seq in Hi, Hj. cbn [fst]. rewrite Hl, Hn. unfold screen_size. rewrite (Z2Nat.id gHeight) by lia.
    assert (Z.of_nat i * gHeight + Z.of_nat j + 1 <= gWidth * gHeight) by nia. split; [nia|].
    replace (0 + Z.of_nat i * (gHeight * (gBpp / 8)) + Z.of_nat j * (gBpp / 8) + gBpp / 8)
      with ((Z.of_nat i * gHeight + Z.of_nat j + 1) * (gBpp / 8)) by ring.
    apply Z.mul_le_mono_nonneg_r; lia. }
  specialize (H2 _ _ Hi). unfold drawing in *. rewrite H2. run. eexists. split; [done|]. by rewrite paint_length.
Qed.

(** A jump to newline leaves the position on the screen; a jump back to paint leaves it
    at the start. *)
Lemma newline_run garbage x s : Z.of_nat (length (Fb s)) = screen_size ->
  m_MaxPosition s = mk_position (gWidth / 6) ((gHeight - 1) / 12) ->
  p_Position s = x -> 0 <= pos_y x < (gHeight - 1) / 12 - 1 ->
  exists again s', newline_step garbage 1 s = Some (again, s') /\ console_ok s' /\
    (again = true -> pos_y (p_Position s') = 0 /\ pos_y x <> 0) /\
    PStore s' = PStore s /\ Ring s' = Ring s /\ m_Color s' = m_Color s /\
    m_Initialized s' = m_Initialized s /\ Interrupts s' = (garbage || Interrupts s)%bool.
Proof.
  intros Hl Hm Hx Hy. destruct dims as (D1 & D2 & D3 & D4).
  unfold newline_step, restore_interrupts, ArmEnableInterrupts. run. rewrite Hx, Hm. cbn [pos_y].
  destruct (_ <=? _) eqn:E; bool_to_prop.
  - run. destruct (ResetFb_run (set_Position (mk_position 0 (pos_y x + 1)) s)) as (fb & -> & Hfb); [done|]. run.
    exists true. destruct garbage; run; eexists; (split; [done|]); (split; [split; cbn; (done || lia)|]);
      (split; [intros _; cbn; lia|]); done.
  - run. exists false. destruct garbage; run; eexists; (split; [done|]); (split; [split; cbn; (done || lia)|]);
      (split; [done|]); done.
Qed.

Lemma glyph_of_some c : 32 <= c <= 127 -> is_Some (glyph_of c).
Proof.
  intros Hc. unfold glyph_of.
  destruct (lookup_lt_is_Some_2 font5x12 (Z.to_nat ((c - 32) * 2))) as [g0 ->]; [change (length font5x12) with 192%nat; lia|].
  destruct (lookup_lt_is_Some_2 font5x12 (S (Z.to_nat ((c - 32) * 2)))) as [g1 ->]; [change (length font5x12) with 192%nat; lia|].
  by eexists.
Qed.

(** The pointer to the cell of the position. *)
Lemma cell_pointer x y : place_ok x y ->
  u64 (u64 (y * (gBpp / 8 * Z.of_nat FONT_HEIGHT * gWidth)) +
    u64 (x * 1 * (gBpp / 8 * (Z.of_nat FONT_WIDTH + 1)))) = cell_start x y.
Proof.
  intros (P1 & P2 & P3 & P4). unfold u64. rewrite <- Zplus_mod.
  change (Z.of_nat FONT_HEIGHT) with 12. change (Z.of_nat FONT_WIDTH) with 5.
  replace (y * (gBpp / 8 * 12 * gWidth) + x * 1 * (gBpp / 8 * (5 + 1))) with (cell_start x y)
    by (unfold cell_start; ring).
  apply u64_small. destruct (pixel_inside (12 * y) (6 * x)) as [K1 K2]; [lia|lia|]. destruct Hd.
  unfold cell_start, in_u64. lia.
Qed.

(** A character that is drawn. *)
Definition drawable (c : Z) (type : FbConMsgType) (s : serial_port) : bool :=
  negb ((pos_x (p_Position s) =? 0) && (c =? ch " ") && negb (bool_decide (type = FBCON_SUBTITLE_MSG))
     && negb (bool_decide (type = FBCON_TITLE_MSG))).
Lemma paint_drawable c type s : console_ok s -> 32 <= c <= 127 -> drawable c type s = true ->
  exists again s', paint_step c type 1 s = Some (again, s') /\ console_step s s' /\
    (again = true -> pos_y (p_Position s') = 0 /\ pos_y (p_Position s) <> 0).
Proof.
  intros [Hl Hm Hx Hy] Hc Hdraw. destruct dims as (D1 & D2 & D3 & D4).
  unfold drawable in Hdraw. apply negb_true_iff in Hdraw.
  unfold paint_step. rewrite (proj2 (Z.ltb_ge 127 c)), (proj2 (Z.ltb_ge c 32)) by lia. run. rewrite Hdraw.
  unfold ArmDisableInterrupts. run. destruct (glyph_of_some c Hc) as [glyph Hg]. rewrite Hg.
  set (x := pos_x (p_Position s)) in *. set (y := pos_y (p_Position s)) in *.
  assert (Hp : place_ok x y) by (unfold place_ok; lia). rewrite (cell_pointer x y Hp).
  set (s1 := if Interrupts s then set_Interrupts false s else s).
  assert (Hs1 : (if Interrupts s then modify (set_Interrupts false) else mret tt) s = Some (tt, s1))
    by (unfold s1; by destruct (Interrupts s)).
  rewrite Hs1. run.
  destruct (FbConDrawglyph_shows x y glyph s1) as (fb & -> & Hfb & _); [done|unfold s1; by destruct (Interrupts s)|].
  run. set (s2 := set_Position (mk_position (x + 1) y) (set_Fb fb s1)).
  assert (Hs2 : PStore s2 = PStore s /\ Ring s2 = Ring s /\ m_Color s2 = m_Color s /\
    m_Initialized s2 = m_Initialized s /\ m_MaxPosition s2 = m_MaxPosition s /\ Interrupts s2 = false)
    by (unfold s2, s1; destruct (Interrupts s) eqn:Ei; split_and!; done).
  destruct Hs2 as (K1 & K2 & K3 & K4 & K5 & K6). rewrite K5, Hm. cbn [pos_x]. rewrite Z.div_1_r.
  destruct (_ <=? _) eqn:E; bool_to_prop.
  - destruct (newline_run (Interrupts s) (mk_position (x + 1) y) s2) as
      (again & s' & Hr & Hc' & Ha & L1 & L2 & L3 & L4 & L5); [done|congruence|done|cbn; lia|].
    exists again, s'. split; [done|]. split; [|exact Ha].
    split; try congruence. intros _. by rewrite L5, K6, orb_false_r.
  - unfold restore_interrupts, ArmEnableInterrupts. exists false. unfold s2, s1 in *.
    destruct (Interrupts s) eqn:Ei; run; eexists; (split; [done|]); (split; [|done]);
      (split; [done..|done| |split; cbn; (done || lia)]); intros _; cbn; congruence.
Qed.

(** One pass over the label paint. *)
Lemma paint_run c type s : console_ok s ->
  exists again s', paint_step c type 1 s = Some (again, s') /\ console_step s s' /\
    (again = true -> pos_y (p_Position s') = 0 /\ pos_y (p_Position s) <> 0).
Proof.
  intros Hok. destruct (decide (32 <= c <= 127 /\ drawable c type s = true)) as [[Hc Hdraw]|Hno];
    [by apply paint_drawable|].
  pose proof Hok as [Hl Hm Hx Hy]. assert (Hstay : console_step s s) by (by split).
  destruct dims as (D1 & D2 & D3 & D4).
  unfold paint_step. case_if; [exists false, s; done|]. bool_to_prop. run.
  destruct (c <? 32) eqn:E32; bool_to_prop.
  - case_if; [|case_if].
    + destruct (newline_run intstate_garbage _ s Hl Hm eq_refl Hy) as (again & s' & Hr & Hc & Ha & K1 & K2 & K3 & K4 & K5).
      exists again, s'. split; [done|]. split; [|exact Ha]. split; try done. intros Hg. by rewrite K5, Hg.
    + eexists false, _. split; [done|]. split; [|done]. split; try done. split; cbn; (done || lia).
    + exists false, s. done.
  - destruct (drawable c type s) eqn:Ed; [exfalso; apply Hno; split; [lia|done]|].
    unfold drawable in Ed. apply negb_false_iff in Ed. rewrite Ed. by exists false, s.
Qed.

Lemma console_step_trans s1 s2 s3 : console_step s1 s2 -> console_step s2 s3 -> console_step s1 s3.
Proof.
  intros [A1 A2 A3 A4 A5 A6] [B1 B2 B3 B4 B5 B6]. split; [congruence..| |done].
  intros Hg. rewrite B5, A5; done.
Qed.
(** Two passes are enough. *)
Lemma put_char_run c type s : console_ok s ->
  exists s', FbConPutCharWithFactor c type 1 s = Some (tt, s') /\ console_step s s'.
Proof.
  intros Hok. unfold FbConPutCharWithFactor, PAINT_ROUNDS. cbn [paint_loop].
  destruct (paint_run c type s Hok) as (again & s1 & H1 & S1 & A1). run. rewrite H1.
  destruct again; [|by exists s1]. run.
  destruct (paint_run c type s1 (step_console _ _ S1)) as (again & s2 & H2 & S2 & A2). rewrite H2.
  destruct again; [destruct (A1 eq_refl), (A2 eq_refl); lia|].
  exists s2. split; [done|]. by eapply console_step_trans.
Qed.
Lemma console_write_run bs s : console_ok s ->
  exists s', console_write bs s = Some (tt, s') /\ console_step s s'.
Proof.
  revert s. induction bs as [|c bs IH]; intros s Hok; unfold console_write; cbn [each].
  { exists s. split; [done|by split]. }
  destruct (put_char_run c FBCON_COMMON_MSG s Hok) as (s1 & H1 & S1).
  destruct (IH s1 (step_console _ _ S1)) as (s2 & H2 & S2). run. change SCALE_FACTOR with 1. rewrite H1.
  exists s2. split; [exact H2|]. by eapply console_step_trans.
Qed.

(** ** A cursor that is not on the screen *)
(** Where the character at the cursor would be drawn. *)
Definition cursor_pointer (s : serial_port) : Z :=
  u64 (u64 (pos_y (p_Position s) * (gBpp / 8 * Z.of_nat FONT_HEIGHT * gWidth)) +
    u64 (pos_x (p_Position s) * 1 * (gBpp / 8 * (Z.of_nat FONT_WIDTH + 1)))).
Lemma put_pixel_behind n color fb p :
  (0 < n)%nat -> Z.of_nat (length fb) <= p -> put_pixel n color (fb, p) = None.
Proof.
  intros Hn Hp. destruct n; [lia|]. cbn [put_pixel fst snd]. unfold wr. cbn [length].
  destruct (Z.ltb_spec (Z.of_nat (length fb)) (p + Z.of_nat 1)); [|lia]. by rewrite orb_true_r.
Qed.
Lemma draw_background_behind n skip color fb p :
  (0 < n)%nat -> Z.of_nat (length fb) <= p -> draw_background n 1 skip color (fb, p) = None.
Proof.
  intros Hn Hp. unfold draw_background, FONT_HEIGHT, FONT_WIDTH.
  change (12 / 2)%nat with 6%nat. cbn [loop]. by rewrite put_pixel_behind.
Qed.
Lemma console_write_behind c bs s :
  Z.of_nat (length (Fb s)) = screen_size -> 32 < c <= 127 -> screen_size <= cursor_pointer s ->
  console_write (c :: bs) s = None.
Proof.
  intros Hl Hc Hp. destruct Hd as [_ _ Hb _]. unfold console_write. cbn [each]. change SCALE_FACTOR with 1.
  unfold FbConPutCharWithFactor, PAINT_ROUNDS. cbn [paint_loop].
  enough (paint_step c FBCON_COMMON_MSG 1 s = None) as Hstep by (unfold mbind, M_bind; by rewrite Hstep).
  unfold paint_step. rewrite (proj2 (Z.ltb_ge 127 c)), (proj2 (Z.ltb_ge c 32)) by lia. run.
  assert ((c =? ch " ") = false) as -> by (apply Z.eqb_neq; change (ch " ") with 32; lia).
  rewrite andb_false_r. cbn [andb]. destruct (glyph_of_some c ltac:(lia)) as [glyph Hg]. rewrite Hg.
  unfold ArmDisableInterrupts. run. fold (cursor_pointer s).
  set (s1 := if Interrupts s then set_Interrupts false s else s).
  assert ((if Interrupts s then modify (set_Interrupts false) else mret tt) s = Some (tt, s1)) as Hs1
    by (unfold s1; by destruct (Interrupts s)).
  assert (Fb s1 = Fb s) as Hf by (unfold s1; by destruct (Interrupts s)).
  unfold mbind, M_bind. rewrite Hs1. unfold access at 1.
  enough (FbConDrawglyph (cursor_pointer s) gWidth (gBpp / 8) glyph 1 s1 = None) as -> by done.
  unfold FbConDrawglyph. run. change (Z.to_nat 1) with 1%nat.
  rewrite draw_background_behind; [done|lia|rewrite Hf; lia].
Qed.


(** A variable that is read before it was set: a newline switches interrupts on for a
    caller that had them switched off. *)
Lemma newline_enables_interrupts s : console_ok s -> intstate_garbage = true ->
  exists s', FbConPutCharWithFactor newline FBCON_COMMON_MSG 1 s = Some (tt, s') /\ Interrupts s' = true.
Proof.
  intros [Hl Hm Hx Hy] Hg. unfold FbConPutCharWithFactor, PAINT_ROUNDS. cbn [paint_loop].
  assert (Hstep : forall s', paint_step newline FBCON_COMMON_MSG 1 s' = newline_step intstate_garbage 1 s')
    by (intros s'; unfold paint_step; run; reflexivity).
  run. rewrite Hstep. destruct (newline_run intstate_garbage _ s Hl Hm eq_refl Hy)
    as (again & s1 & -> & [Hl1 Hm1 Hx1 Hy1] & Ha1 & _ & _ & _ & _ & Hi1).
  destruct again; [|exists s1; split; [done|by rewrite Hi1, Hg]]. run. rewrite Hstep.
  destruct (newline_run intstate_garbage _ s1 Hl1 Hm1 eq_refl Hy1)
    as (again & s2 & -> & Hc2 & Ha2 & _ & _ & _ & _ & Hi2).
  destruct again; [destruct (Ha1 eq_refl), (Ha2 eq_refl); lia|].
  exists s2. split; [done|by rewrite Hi2, Hg].
Qed.
End console.

(** A small screen: one column, 37 rows of six pixels of a byte. *)
Definition demo_display : Display := Build_Display 6 37 8.
Definition demo_serial : SerialServices :=
  Build_SerialServices (EFI_SUCCESS, PStore demo_port) (EFI_SUCCESS, PStore demo_port) false.
Definition demo_console : serial_port :=
  mk_serial_port (PStore demo_port) (Ring demo_port) (repeat 0 222) (mk_position 0 0) (mk_position 1 3)
    (mk_color 255 0) true true.
Lemma demo_display_ok : @display_ok demo_display.
Proof. split; by vm_compute. Qed.
Lemma FbConDrawglyph_shows_witness :
  exists fb, @FbConDrawglyph (@cell_start demo_display 0 1) 6 1 (0x2318a880, 0x0008c63f) 1 demo_console =
      Some (tt, set_Fb fb demo_console) /\
    Z.of_nat (length fb) = 222 /\
    @shows demo_display 0 1 (0x2318a880, 0x0008c63f) (mk_color 255 0) (repeat 0 222) fb.
Proof.
  exact (@FbConDrawglyph_shows demo_display demo_display_ok 0 1 (0x2318a880, 0x0008c63f) demo_console
    ltac:(unfold place_ok; cbn; lia) eq_refl).
Defined.
(** The same console with the cursor where the memory behind the frame buffer happens to
    put it. *)
Definition demo_stray : serial_port := set_Position (mk_position 0 99) demo_console.
