(* ===== verification/VarCheck.v ===== *)
(** * MemoryTypeInfoSecVarCheckLib: which values of the variable MemoryTypeInformation
    may be stored.

    [Platforms/AndromedaPkg/Library/MemoryTypeInfoSecVarCheckLib/
    MemoryTypeInfoSecVarCheckLib.c].  The variable tells the firmware how much memory of
    each type to set aside; a bad value keeps a device from booting.  [Data] is the
    caller's buffer, an entry is two 32-bit numbers, and a read outside of the buffer is
    a fault. *)
From stdpp Require Import base numbers list option strings.
From Stdlib Require Import ZArith Lia Ascii.
From S2P Require Import Prelude BaseLib Unicode Storage Bytes.
Local Open Scope Z_scope.

(** The number of memory types, the GUID of the variable, the bound of the platform and
    the checked addition are those of the firmware the library is built with. *)
Class VarCheckEnvironment := {
  EfiMaxMemoryType_number : Z;
  gEfiMemoryTypeInformationGuid : list Z;
  PcdMaxMemoryTypeInfoPages : Z;
  SafeUintnAdd : Z -> Z -> EFI_STATUS * Z
}.
(** "If the addition overflows, RETURN_BUFFER_TOO_SMALL is returned, else the sum." *)
Class VarCheckEnvironmentLaws (E : VarCheckEnvironment) := {
  SafeUintnAdd_fits a b : in_u64 (a + b) -> SafeUintnAdd a b = (EFI_SUCCESS, a + b);
  SafeUintnAdd_overflow a b : 2 ^ 64 <= a + b -> EFI_ERROR (fst (SafeUintnAdd a b)) = true
}.

Definition EFI_MEMORY_TYPE_INFORMATION_VARIABLE_NAME : list Z := bytes "MemoryTypeInformation".
Definition EFI_VARIABLE_NON_VOLATILE : Z := 0x1.
Definition EFI_VARIABLE_BOOTSERVICE_ACCESS : Z := 0x2.
Definition EFI_VARIABLE_APPEND_WRITE : Z := 0x40.
Definition INFO_COUNT : nat := 10.
Definition SIZEOF_EFI_MEMORY_TYPE_INFORMATION : Z := 8.
Definition VARIABLE_SIZE : Z := SIZEOF_EFI_MEMORY_TYPE_INFORMATION * Z.of_nat INFO_COUNT.

Record VAR_CHECK_VARIABLE_PROPERTY := mk_property {
  property_Attributes : Z;
  property_MinSize : Z;
  property_MaxSize : Z
}.

Section handler.
Context `{UnicodeLib, VarCheckEnvironment}.

Definition mMemoryTypeInfoVariableProperty : VAR_CHECK_VARIABLE_PROPERTY :=
  mk_property (Z.lor EFI_VARIABLE_NON_VOLATILE EFI_VARIABLE_BOOTSERVICE_ACCESS)
    SIZEOF_EFI_MEMORY_TYPE_INFORMATION
    (SIZEOF_EFI_MEMORY_TYPE_INFORMATION * (EfiMaxMemoryType_number + 1)).

Definition entry_Type (Data : list Z) (i : nat) : option Z := field 4 Data (8 * Z.of_nat i).
Definition entry_NumberOfPages (Data : list Z) (i : nat) : option Z := field 4 Data (8 * Z.of_nat i + 4).

(** The loop over [Index2]: one of the next [n] entries has this type. *)
Fixpoint same_type (Data : list Z) (Type_ : Z) (n Index2 : nat) : option bool :=
  match n with
  | O => Some false
  | S n' =>
    t ← entry_Type Data Index2;
    if Type_ =? t then Some true else same_type Data Type_ n' (S Index2)
  end.

(** The loop over [Index]: the pages, or [None] for a violation. *)
Fixpoint check_entries (Data : list Z) (n Index : nat) (TotalPages : Z) : option (option Z) :=
  match n with
  | O => Some (Some TotalPages)
  | S n' =>
    t ← entry_Type Data Index;
    if EfiMaxMemoryType_number <? t then Some None else
    twice ← same_type Data t (INFO_COUNT - S Index) (S Index);
    if (twice : bool) then Some None else
    pages ← entry_NumberOfPages Data Index;
    let (Status, Total) := SafeUintnAdd TotalPages pages in
    if EFI_ERROR Status then Some None else check_entries Data n' (S Index) Total
  end.

Definition MemoryTypeInfoVarCheckHandler (VariableName VendorGuid : list Z) (Attributes DataSize : Z)
    (Data : list Z) : option EFI_STATUS :=
  if negb (StrCmp VariableName EFI_MEMORY_TYPE_INFORMATION_VARIABLE_NAME =? 0) ||
     negb (bool_decide (VendorGuid = gEfiMemoryTypeInformationGuid)) then Some EFI_SUCCESS else
  if ((Z.land Attributes EFI_VARIABLE_APPEND_WRITE =? 0) && (DataSize =? 0)) || (Attributes =? 0)
  then Some EFI_SUCCESS else
  if negb (DataSize =? VARIABLE_SIZE) then Some EFI_SECURITY_VIOLATION else
  last ← entry_Type Data (INFO_COUNT - 1);
  if negb (last =? EfiMaxMemoryType_number) then Some EFI_SECURITY_VIOLATION else
  total ← check_entries Data (INFO_COUNT - 1) 0 0;
  match total with
  | None => Some EFI_SECURITY_VIOLATION
  | Some TotalPages =>
    if PcdMaxMemoryTypeInfoPages <? TotalPages then Some EFI_SECURITY_VIOLATION else Some EFI_SUCCESS
  end.
End handler.

(** ** The values that are accepted *)
Section spec.
Context `{UL : UnicodeLib, !UnicodeLibLaws UL, VE : VarCheckEnvironment, !VarCheckEnvironmentLaws VE}.

(** The entries of a buffer: types and pages. *)
Definition types_of (Data : list Z) : list Z := (fun i => le 4 Data (8 * Z.of_nat i)) <$> seq 0 INFO_COUNT.
Definition pages_of (Data : list Z) : list Z := (fun i => le 4 Data (8 * Z.of_nat i + 4)) <$> seq 0 (INFO_COUNT - 1).
Definition sum (l : list Z) : Z := foldr Z.add 0 l.

(** Nine entries of different types and one that ends the list, within the bound. *)
Record acceptable (Data : list Z) : Prop := mk_acceptable {
  accept_end : last (types_of Data) = Some EfiMaxMemoryType_number;
  accept_types : Forall (fun t => t <= EfiMaxMemoryType_number) (types_of Data);
  accept_different : NoDup (types_of Data);
  accept_pages : sum (pages_of Data) <= PcdMaxMemoryTypeInfoPages
}.

Lemma entry_Type_at Data i : length Data = 80%nat -> (i < 10)%nat ->
  entry_Type Data i = types_of Data !! i.
Proof.
  intros Hl Hi. unfold entry_Type, types_of. rewrite field_le by lia.
  rewrite list_lookup_fmap, lookup_seq_lt by done. done.
Qed.

Lemma same_type_spec Data t n i : length Data = 80%nat -> (i + n = 10)%nat ->
  same_type Data t n i = Some (bool_decide (t ∈ drop i (types_of Data))).
Proof.
  intros Hl. revert i. induction n as [|n IH]; intros i Hi; cbn [same_type].
  { rewrite bool_decide_false; [done|]. rewrite drop_ge by (change (length (types_of Data)) with 10%nat; lia).
    apply not_elem_of_nil. }
  rewrite entry_Type_at by (done || lia).
  destruct (lookup_lt_is_Some_2 (types_of Data) i) as [u Hu]; [change (length (types_of Data)) with 10%nat; lia|].
  rewrite Hu. cbn [mbind option_bind]. rewrite (drop_S _ _ _ Hu). destruct (t =? u) eqn:E; bool_to_prop.
  - rewrite bool_decide_true; [done|]. subst. by apply list_elem_of_here.
  - rewrite IH by lia. f_equal. apply bool_decide_ext. rewrite elem_of_cons. split; [by right|by intros [?|?]].
Qed.

Definition fine (Data : list Z) (i : nat) : Prop :=
  forall j t, (i <= j < 9)%nat -> types_of Data !! j = Some t ->
  t <= EfiMaxMemoryType_number /\ t ∉ drop (S j) (types_of Data).

Lemma check_entries_spec Data n i total : Forall in_u8 Data -> length Data = 80%nat -> (i + n = 9)%nat ->
  0 <= total <= Z.of_nat i * 2 ^ 32 ->
  (check_entries Data n i total = Some (Some (total + sum (drop i (pages_of Data)))) /\ fine Data i) \/
  (check_entries Data n i total = Some None /\ ~ fine Data i).
Proof.
  intros Hu Hl. revert i total. induction n as [|n IH]; intros i total Hi Ht; cbn [check_entries].
  { left. rewrite drop_ge by (change (length (pages_of Data)) with 9%nat; lia). cbn.
    split; [do 2 f_equal; lia|]. intros j t Hj. lia. }
  rewrite entry_Type_at by (done || lia).
  destruct (lookup_lt_is_Some_2 (types_of Data) i) as [u Hi_u]; [change (length (types_of Data)) with 10%nat; lia|].
  rewrite Hi_u. cbn [mbind option_bind]. destruct (_ <? u) eqn:E; bool_to_prop.
  { right. split; [done|]. intros Hf. destruct (Hf i u ltac:(lia) Hi_u). lia. }
  rewrite same_type_spec by (done || (unfold INFO_COUNT; lia)). cbn [mbind option_bind]. case_bool_decide as Hin.
  { right. split; [done|]. intros Hf. by destruct (Hf i u ltac:(lia) Hi_u). }
  unfold entry_NumberOfPages. rewrite field_le by lia. cbn [mbind option_bind].
  pose proof (le_range 4 Data (8 * Z.of_nat i + 4) Hu ltac:(lia) ltac:(lia)) as Hp.
  change (8 * Z.of_nat 4) with 32 in Hp.
  rewrite SafeUintnAdd_fits by (unfold in_u64; lia). cbn [EFI_ERROR].
  assert (Hpage : pages_of Data !! i = Some (le 4 Data (8 * Z.of_nat i + 4)))
    by (unfold pages_of; rewrite list_lookup_fmap, lookup_seq_lt by (cbn; lia); done).
  rewrite (drop_S _ _ _ Hpage). cbn [sum foldr]. fold (sum (drop (S i) (pages_of Data))).
  assert (Hfine : fine Data (S i) <-> fine Data i).
  { split; intros Hf j t Hj Hjt; [|apply (Hf j); [lia|done]].
    destruct (decide (j = i)) as [->|]; [|apply (Hf j); [lia|done]]. by rewrite Hi_u in Hjt; injection Hjt as <-. }
  destruct (IH (S i) (total + le 4 Data (8 * Z.of_nat i + 4))) as [[-> Hf]|[-> Hf]]; [lia|lia|left|right].
  - split; [do 2 f_equal; lia|by apply Hfine].
  - split; [done|]. by rewrite <- Hfine.
Qed.

Lemma NoDup_drop {A} (l : list A) :
  NoDup l <-> forall j t, l !! j = Some t -> t ∉ drop (S j) l.
Proof.
  induction l as [|x l IH].
  - split; [intros _ j t Hj; by rewrite lookup_nil in Hj|intros _; constructor].
  - rewrite NoDup_cons, IH. split.
    + intros [Hx Hl] [|j] t Hj; cbn in *; [by injection Hj as <-|by apply (Hl j)].
    + intros H. split; [by apply (H 0%nat)|]. intros j t Hj. by apply (H (S j)).
Qed.

(** Fine entries and the end are what the record says. *)
Lemma fine_acceptable Data : types_of Data !! 9%nat = Some EfiMaxMemoryType_number ->
  fine Data 0 <-> Forall (fun t => t <= EfiMaxMemoryType_number) (types_of Data) /\ NoDup (types_of Data).
Proof.
  intros H9. rewrite NoDup_drop, Forall_lookup. split.
  - intros Hf. split; intros j t Hj; pose proof (lookup_lt_Some _ _ _ Hj) as Hlt;
      change (length (types_of Data)) with 10%nat in Hlt; destruct (decide (j = 9)%nat) as [->|].
    + rewrite H9 in Hj. injection Hj as <-. lia.
    + by apply (Hf j); [lia|].
    + rewrite drop_ge by (change (length (types_of Data)) with 10%nat; lia). apply not_elem_of_nil.
    + by apply (Hf j); [lia|].
  - intros [Hle Hnd] j t _ Hj. split; [by apply (Hle j)|by apply Hnd].
Qed.

End spec.

(** The table of a firmware with sixteen types, 100 pages of five of them. *)
Definition demo_environment : VarCheckEnvironment := {|
  EfiMaxMemoryType_number := 16;
  gEfiMemoryTypeInformationGuid := repeat 7 16;
  PcdMaxMemoryTypeInfoPages := 0x1000;
  SafeUintnAdd a b := if a + b <? 2 ^ 64 then (EFI_SUCCESS, a + b) else (EFI_BUFFER_TOO_SMALL, 0) |}.
Lemma demo_environment_laws : VarCheckEnvironmentLaws demo_environment.
Proof.
  split; intros a b Hab; cbn; unfold in_u64 in *.
  - by rewrite (proj2 (Z.ltb_lt _ _)) by lia.
  - by rewrite (proj2 (Z.ltb_ge _ _)) by lia.
Qed.
Definition demo_table : list Z :=
  concat ((fun t => le_bytes 4 t ++ le_bytes 4 100) <$> [10; 9; 0; 5; 6; 1; 2; 3; 4; 16]).
Example demo_table_accepted : @MemoryTypeInfoVarCheckHandler reference_UnicodeLib demo_environment
  EFI_MEMORY_TYPE_INFORMATION_VARIABLE_NAME (repeat 7 16) 3 80 demo_table = Some EFI_SUCCESS.
Proof. vm_compute. reflexivity. Qed.
