(* ===== verification/VirtualRtc.v ===== *)
(** * VirtualRealTimeClockLib: a clock that counts the time since the processor started.

    [Platforms/AndromedaPkg/Library/VirtualRealTimeClockLib/VirtualRealTimeClockLib.c].
    The frequency and the counter of the ARM generic timer are arguments; a NULL
    pointer is [false] for the out-parameter it stands for. *)
From stdpp Require Import base numbers list option.
From Stdlib Require Import ZArith Lia.
From S2P Require Import Prelude.
Local Open Scope Z_scope.

Record EFI_TIME := mk_time {
  Year : Z; Month : Z; Day : Z; Hour : Z; Minute : Z; Second : Z;
  Nanosecond : Z; TimeZone : Z; Daylight : Z
}.
Record EFI_TIME_CAPABILITIES := mk_capabilities { Resolution : Z; Accuracy : Z; SetsToZero : bool }.

(** The static variable; [LibRtcInitialize] sets two of its fields. *)
Definition BaseTime_initial : EFI_TIME := mk_time 0 0 0 0 0 0 0 0 0.
Definition LibRtcInitialize (BaseTime : EFI_TIME) : EFI_STATUS * EFI_TIME :=
  (EFI_SUCCESS, mk_time 2019 1 (Day BaseTime) (Hour BaseTime) (Minute BaseTime) (Second BaseTime)
     (Nanosecond BaseTime) (TimeZone BaseTime) (Daylight BaseTime)).

Definition SECONDS_PER_DAY : Z := 24 * 60 * 60.
Definition SECONDS_PER_HOUR : Z := 60 * 60.
Definition SECONDS_PER_MINUTE : Z := 60.

(** Day, Hour, Minute and Second are of 8 bits. *)
Definition time_of_counter (BaseTime : EFI_TIME) (ElapsedSeconds : Z) : EFI_TIME :=
  let Day := u8 (ElapsedSeconds / SECONDS_PER_DAY) in
  let ElapsedSeconds := ElapsedSeconds mod SECONDS_PER_DAY in
  let Hour := u8 (ElapsedSeconds / SECONDS_PER_HOUR) in
  let ElapsedSeconds := ElapsedSeconds mod SECONDS_PER_HOUR in
  let Minute := u8 (ElapsedSeconds / SECONDS_PER_MINUTE) in
  let ElapsedSeconds := ElapsedSeconds mod SECONDS_PER_MINUTE in
  mk_time (Year BaseTime) (Month BaseTime) Day Hour Minute (u8 ElapsedSeconds) 0 0 0.

Definition LibGetTime (BaseTime : EFI_TIME) (Freq Counter : Z) (Time Capabilities : bool)
  : EFI_STATUS * option EFI_TIME * option EFI_TIME_CAPABILITIES :=
  if negb Time then (EFI_INVALID_PARAMETER, None, None) else
  if Freq =? 0 then (EFI_DEVICE_ERROR, None, None) else
  (EFI_SUCCESS, Some (time_of_counter BaseTime (Counter / Freq)),
   if Capabilities then Some (mk_capabilities Freq 0 false) else None).

Definition LibSetTime (Time : EFI_TIME) : EFI_STATUS := EFI_UNSUPPORTED.
Definition LibGetWakeupTime : EFI_STATUS := EFI_UNSUPPORTED.
Definition LibSetWakeupTime (Enabled : bool) (Time : EFI_TIME) : EFI_STATUS := EFI_UNSUPPORTED.

(** ** The time that is reported *)
Definition seconds_of (t : EFI_TIME) : Z :=
  Day t * SECONDS_PER_DAY + Hour t * SECONDS_PER_HOUR + Minute t * SECONDS_PER_MINUTE + Second t.
(** What the UEFI specification asks of an EFI_TIME. *)
Definition leap (y : Z) : bool := (y mod 4 =? 0) && (negb (y mod 100 =? 0) || (y mod 400 =? 0)).
Definition days_in_month (y m : Z) : Z :=
  if m =? 2 then if leap y then 29 else 28
  else if (m =? 4) || (m =? 6) || (m =? 9) || (m =? 11) then 30 else 31.
Definition valid_time (t : EFI_TIME) : Prop :=
  1900 <= Year t <= 9999 /\ 1 <= Month t <= 12 /\ 1 <= Day t <= days_in_month (Year t) (Month t) /\
  0 <= Hour t < 24 /\ 0 <= Minute t < 60 /\ 0 <= Second t < 60 /\ 0 <= Nanosecond t < 10 ^ 9 /\
  -1440 <= TimeZone t <= 1440 /\ 0 <= Daylight t < 4.

Lemma time_of_counter_spec b e : 0 <= e ->
  let t := time_of_counter b e in
  0 <= Hour t < 24 /\ 0 <= Minute t < 60 /\ 0 <= Second t < 60 /\
  Day t = u8 (e / SECONDS_PER_DAY) /\ seconds_of t = e mod (256 * SECONDS_PER_DAY).
Proof.
  intros He t. unfold t, time_of_counter, seconds_of. cbn [Hour Minute Second Day].
  unfold SECONDS_PER_DAY, SECONDS_PER_HOUR, SECONDS_PER_MINUTE.
  set (d := e / (24 * 60 * 60)). set (r := e mod (24 * 60 * 60)).
  assert (Hr : 0 <= r < 86400) by (apply Z.mod_pos_bound; lia).
  assert (Hed : e = 86400 * d + r) by (apply Z.div_mod; lia).
  pose proof (Z.div_mod r 3600 ltac:(lia)) as H1. pose proof (Z.mod_pos_bound r 3600 ltac:(lia)) as H2.
  change (60 * 60) with 3600. set (h := r / 3600) in *. set (r2 := r mod 3600) in *.
  pose proof (Z.div_mod r2 60 ltac:(lia)) as H3. pose proof (Z.mod_pos_bound r2 60 ltac:(lia)) as H4.
  set (m := r2 / 60) in *. set (s := r2 mod 60) in *.
  assert (0 <= h < 24) by lia. assert (0 <= m < 60) by lia.
  rewrite !(u8_small h), !(u8_small m), !(u8_small s) by (unfold in_u8; lia).
  split_and!; try lia. unfold u8. change (2 ^ 8) with 256. rewrite Hed.
  change (256 * (24 * 60 * 60)) with (86400 * 256).
  rewrite Z.rem_mul_r by lia.
  replace ((86400 * d + r) mod 86400) with r by (rewrite Z.add_comm, Z.mul_comm, Z.mod_add, Z.mod_small; lia).
  replace ((86400 * d + r) / 86400) with d by (rewrite Z.add_comm, Z.mul_comm, Z.div_add, Z.div_small; lia).
  lia.
Qed.

(** C40 What the clock reports: January 2019 with the time of the day since the processor
    started and, for the day, the number of whole days since then modulo 256, counted from
    zero. The seconds the fields stand for are those of the counter up to 256 days, so two
    readings measure the time between them. The answer is a time as the UEFI
    specification wants it exactly when that day is one of 1 to 31: on the first day
    (Day = 0) and from the 32nd to the 255th it is none, and the year is not the 1900
    of the comment in the source. *)
Theorem LibGetTime_elapsed b Freq Counter caps : 0 < Freq -> 0 <= Counter ->
  let days := Counter / Freq / SECONDS_PER_DAY in
  exists t, LibGetTime (snd (LibRtcInitialize b)) Freq Counter true caps =
    (EFI_SUCCESS, Some t, if caps then Some (mk_capabilities Freq 0 false) else None) /\
  Year t = 2019 /\ Month t = 1 /\ Day t = days mod 256 /\
  0 <= Hour t < 24 /\ 0 <= Minute t < 60 /\ 0 <= Second t < 60 /\
  Nanosecond t = 0 /\ TimeZone t = 0 /\ Daylight t = 0 /\
  seconds_of t = (Counter / Freq) mod (256 * SECONDS_PER_DAY) /\
  (valid_time t <-> 1 <= days mod 256 <= 31).
Proof.
  intros Hf Hc days. unfold LibGetTime. rewrite (proj2 (Z.eqb_neq Freq 0)) by lia. cbn [negb].
  assert (He : 0 <= Counter / Freq) by (apply Z.div_pos; lia).
  destruct (time_of_counter_spec (snd (LibRtcInitialize b)) _ He) as (H1 & H2 & H3 & H4 & H5).
  fold days in H4. eexists. split; [done|]. do 2 (split; [done|]). split; [exact H4|].
  do 6 (split; [done|]). split; [done|]. unfold valid_time. rewrite H4. unfold u8.
  change (2 ^ 8) with 256. split; [intros (_ & _ & H & _); exact H|].
  intros [Hl Hh].
  split; [done|]. split; [done|]. split; [split; [exact Hl|exact Hh]|]. done.
Qed.
(** Twenty five hours after the start it is one o'clock on the first day of 2019. *)
Lemma LibGetTime_elapsed_witness :
  let days := 1728000000000 / 19200000 / SECONDS_PER_DAY in
  exists t, LibGetTime (snd (LibRtcInitialize BaseTime_initial)) 19200000 1728000000000 true true =
    (EFI_SUCCESS, Some t, Some (mk_capabilities 19200000 0 false)) /\
  Year t = 2019 /\ Month t = 1 /\ Day t = days mod 256 /\
  0 <= Hour t < 24 /\ 0 <= Minute t < 60 /\ 0 <= Second t < 60 /\
  Nanosecond t = 0 /\ TimeZone t = 0 /\ Daylight t = 0 /\
  seconds_of t = (1728000000000 / 19200000) mod (256 * SECONDS_PER_DAY) /\
  (valid_time t <-> 1 <= days mod 256 <= 31).
Proof. apply (LibGetTime_elapsed BaseTime_initial 19200000 1728000000000 true); lia. Defined.
(** The first reading after the start is no time of a calendar. *)
Example LibGetTime_first_day :
  LibGetTime (snd (LibRtcInitialize BaseTime_initial)) 19200000 (19200000 * 60) true false =
    (EFI_SUCCESS, Some (mk_time 2019 1 0 0 1 0 0 0 0), None).
Proof. reflexivity. Qed.
