(* ===== verification/DeviceTree.v ===== *)
(** * Choosing a device tree for the board.

    [Platforms/QcomModulePkg/Library/BootLib/LocateDeviceTree.c] with
    [Include/Library/LocateDeviceTree.h]: the first half, which gives every device tree
    of an image a match value and takes the best; [fdt_check_header_ext] of
    UpdateDeviceTree.c and Rtic.c, which it calls.

    A pointer is an address in the memory [Mem], whose first byte is at [MemBase]; an
    access outside of it is a fault.  The accessors of Board.c are written as the fields
    of [platform_board_info] they return. *)
From stdpp Require Import base numbers list option strings.
From Stdlib Require Import ZArith Lia Ascii.
From S2P Require Import Prelude BaseLib Unicode Storage Bytes Board.
Local Open Scope Z_scope.

(** ** libfdt, which is not in the repository.  Its functions get the memory from the
    device tree on; a property is the offset of its value, or no offset and an error
    instead of the length. *)
Class Libfdt := {
  fdt_check_header : list Z -> Z;
  fdt_totalsize : list Z -> Z;
  fdt_off_dt_struct : list Z -> Z;
  fdt_size_dt_struct : list Z -> Z;
  fdt_off_dt_strings : list Z -> Z;
  fdt_size_dt_strings : list Z -> Z;
  fdt_off_mem_rsvmap : list Z -> Z;
  fdt_path_offset : list Z -> list Z -> Z;
  fdt_getprop : list Z -> Z -> list Z -> option Z * Z;
  (** The address of a copy of a header on the stack. *)
  DtbHdr_address : Z;
  LocateScmProtocol : EFI_STATUS
}.
Class LibfdtLaws (L : Libfdt) := {
  fdt_totalsize_u32 m : in_u32 (fdt_totalsize m);
  DtbHdr_address_u64 : in_u64 DtbHdr_address
}.

(** ** LocateDeviceTree.h *)
Definition SIZEOF_fdt_header : Z := 40.
Definition SOC_MASK : Z := 0xffff.
Definition VARIANT_MASK : Z := 0x000000ff.
Definition VARIANT_MINOR_MASK : Z := 0x0000ff00.
Definition VARIANT_MAJOR_MASK : Z := 0x00ff0000.
Definition PMIC_MODEL_MASK : Z := 0x000000ff.
Definition PMIC_REV_MASK : Z := 0xffffff00.
Definition PMIC_SHIFT_IDX : Z := 2.
Definition PLATFORM_SUBTYPE_SHIFT_ID : Z := 0x18.
Definition PLATFORM_FOUNDRY_SHIFT : Z := 16.
Definition FOUNDRY_ID_MASK : Z := 0x00ff0000.
Definition PLATFORM_SUBTYPE_MASK : Z := 0x000000ff.
Definition DDR_MASK : Z := 0x00000700.
Definition PLAT_ID_SIZE : Z := 8.
Definition BOARD_ID_SIZE : Z := 8.
Definition PMIC_IDX4 : Z := 4.
Definition MAX_PMIC_IDX : nat := 15.

(** DTMATCH_PARAMS, the bits of a match value from the least important on. *)
Definition NONE_MATCH : Z := 0.
Definition PMIC_MATCH_BEST_REV_IDX0 : Z := 1.
Definition PMIC_MATCH_EXACT_REV_IDX0 : Z := 2.
Definition VARIANT_MINOR_BEST_MATCH : Z := 9.
Definition VARIANT_MINOR_EXACT_MATCH : Z := 10.
Definition VARIANT_MAJOR_BEST_MATCH : Z := 11.
Definition VARIANT_MAJOR_EXACT_MATCH : Z := 12.
Definition VERSION_BEST_MATCH : Z := 13.
Definition VERSION_EXACT_MATCH : Z := 14.
Definition FOUNDRYID_DEFAULT_MATCH : Z := 15.
Definition FOUNDRYID_EXACT_MATCH : Z := 16.
Definition PMIC_MATCH_DEFAULT_MODEL_IDX0 : Z := 17.
Definition PMIC_MATCH_EXACT_MODEL_IDX0 : Z := 18.
Definition PMIC_MATCH_EXACT_MODEL_IDXF : Z := 48.
Definition SOFTSKU_EXACT_MATCH : Z := 49.
Definition SUBTYPE_DEFAULT_MATCH : Z := 50.
Definition SUBTYPE_EXACT_MATCH : Z := 51.
Definition DDR_MATCH : Z := 52.
Definition VARIANT_MATCH : Z := 53.
Definition SOC_MATCH : Z := 54.
Definition BIT (x : Z) : Z := u64 (Z.shiftl 1 x).
Definition bits (l : list Z) : Z := foldr (fun x v => Z.lor (BIT x) v) 0 l.
(** The bits of the sixteen PMICs, of index 0 to F, are 18, 20, ..., 48. *)
Definition ALL_BITS_SET : Z :=
  bits ([SOC_MATCH; VARIANT_MATCH; SUBTYPE_EXACT_MATCH; FOUNDRYID_EXACT_MATCH] ++
        ((fun i => PMIC_MATCH_EXACT_MODEL_IDX0 + 2 * Z.of_nat i) <$> seq 0 16) ++
        [SOFTSKU_EXACT_MATCH]).

Record PmicIdInfo := mk_pmic_info {
  CurPmicModel : list Z; CurPmicRev : list Z; PmicMatchVal : Z
}.
Definition no_pmic : PmicIdInfo := mk_pmic_info (repeat 0 MAX_PMIC_IDX) (repeat 0 MAX_PMIC_IDX) 0.

Record DtInfo := mk_dt {
  DtPlatformId : Z; DtSocRev : Z; DtFoundryId : Z; DtVariantId : Z; DtVariantMajor : Z;
  DtVariantMinor : Z; DtPlatformSubtype : Z; DtSoftSkuId : Z;
  DtPmicModel : list Z; DtPmicRev : list Z; DtMatchVal : Z; Dtb : Z
}.
Definition no_dt : DtInfo :=
  mk_dt 0 0 0 0 0 0 0 0 (repeat 0 MAX_PMIC_IDX) (repeat 0 MAX_PMIC_IDX) 0 0.
Definition set_platform (PlatformId SocRev FoundryId : Z) (d : DtInfo) : DtInfo :=
  mk_dt PlatformId SocRev FoundryId (DtVariantId d) (DtVariantMajor d) (DtVariantMinor d)
    (DtPlatformSubtype d) (DtSoftSkuId d) (DtPmicModel d) (DtPmicRev d) (DtMatchVal d) (Dtb d).
Definition set_board (VariantId Major Minor Subtype : Z) (d : DtInfo) : DtInfo :=
  mk_dt (DtPlatformId d) (DtSocRev d) (DtFoundryId d) VariantId Major Minor Subtype
    (DtSoftSkuId d) (DtPmicModel d) (DtPmicRev d) (DtMatchVal d) (Dtb d).
Definition set_sku (SkuId : Z) (d : DtInfo) : DtInfo :=
  mk_dt (DtPlatformId d) (DtSocRev d) (DtFoundryId d) (DtVariantId d) (DtVariantMajor d)
    (DtVariantMinor d) (DtPlatformSubtype d) SkuId (DtPmicModel d) (DtPmicRev d) (DtMatchVal d) (Dtb d).
Definition set_pmic (Model Rev : list Z) (d : DtInfo) : DtInfo :=
  mk_dt (DtPlatformId d) (DtSocRev d) (DtFoundryId d) (DtVariantId d) (DtVariantMajor d)
    (DtVariantMinor d) (DtPlatformSubtype d) (DtSoftSkuId d) Model Rev (DtMatchVal d) (Dtb d).
Definition set_match (v : Z) (d : DtInfo) : DtInfo :=
  mk_dt (DtPlatformId d) (DtSocRev d) (DtFoundryId d) (DtVariantId d) (DtVariantMajor d)
    (DtVariantMinor d) (DtPlatformSubtype d) (DtSoftSkuId d) (DtPmicModel d) (DtPmicRev d) v (Dtb d).
Definition set_Dtb (a : Z) (d : DtInfo) : DtInfo :=
  mk_dt (DtPlatformId d) (DtSocRev d) (DtFoundryId d) (DtVariantId d) (DtVariantMajor d)
    (DtVariantMinor d) (DtPlatformSubtype d) (DtSoftSkuId d) (DtPmicModel d) (DtPmicRev d)
    (DtMatchVal d) a.
Definition add_match (x : Z) (d : DtInfo) : DtInfo := set_match (Z.lor (DtMatchVal d) (BIT x)) d.

(** ** State *)
Record dt_state := mk_dt_state {
  Mem : list Z;
  DtboNeed : bool;
  DtboIdx : Z;
  DtbIdx : Z;
  DtbCount : Z;
  Hyp_Call_Done : bool;
  (** The calls of the hypervisor: the base of the kernel and the data. *)
  scm_calls : list (Z * list Z);
  KernelLoadAddr : Z;
  RamdiskLoadAddr : Z;
  dt_board : board_state
}.
Definition set_Mem m s := mk_dt_state m (DtboNeed s) (DtboIdx s) (DtbIdx s) (DtbCount s)
  (Hyp_Call_Done s) (scm_calls s) (KernelLoadAddr s) (RamdiskLoadAddr s) (dt_board s).
Definition set_DtboNeed x s := mk_dt_state (Mem s) x (DtboIdx s) (DtbIdx s) (DtbCount s)
  (Hyp_Call_Done s) (scm_calls s) (KernelLoadAddr s) (RamdiskLoadAddr s) (dt_board s).
Definition set_DtboIdx x s := mk_dt_state (Mem s) (DtboNeed s) x (DtbIdx s) (DtbCount s)
  (Hyp_Call_Done s) (scm_calls s) (KernelLoadAddr s) (RamdiskLoadAddr s) (dt_board s).
Definition set_DtbIdx x s := mk_dt_state (Mem s) (DtboNeed s) (DtboIdx s) x (DtbCount s)
  (Hyp_Call_Done s) (scm_calls s) (KernelLoadAddr s) (RamdiskLoadAddr s) (dt_board s).
Definition set_DtbCount x s := mk_dt_state (Mem s) (DtboNeed s) (DtboIdx s) (DtbIdx s) x
  (Hyp_Call_Done s) (scm_calls s) (KernelLoadAddr s) (RamdiskLoadAddr s) (dt_board s).
Definition set_Hyp_Call_Done s := mk_dt_state (Mem s) (DtboNeed s) (DtboIdx s) (DtbIdx s)
  (DtbCount s) true (scm_calls s) (KernelLoadAddr s) (RamdiskLoadAddr s) (dt_board s).
Definition add_scm_call c s := mk_dt_state (Mem s) (DtboNeed s) (DtboIdx s) (DtbIdx s)
  (DtbCount s) (Hyp_Call_Done s) (scm_calls s ++ [c]) (KernelLoadAddr s) (RamdiskLoadAddr s) (dt_board s).
Definition set_Board b s := mk_dt_state (Mem s) (DtboNeed s) (DtboIdx s) (DtbIdx s)
  (DtbCount s) (Hyp_Call_Done s) (scm_calls s) (KernelLoadAddr s) (RamdiskLoadAddr s) b.
Abbreviation DT := (M dt_state).
Definition board_info (s : dt_state) : BoardInfo := platform_board_info (dt_board s).

(** [ADD_OF] of LinuxLoaderLib.h, on 32 bits. *)
Definition ADD_OF (a b : Z) : Z := if a <? MAX_UINT32 - b then u32 (a + b) else 0.

Section device_tree.
Context {FW : Firmware} {BP : BoardProtocols} {LF : Libfdt}.
Variable MemBase : Z.

(** ** Memory.  [fdt32_to_cpu] of a word: device trees are big-endian. *)
Definition be_value (bs : list Z) : Z := le_value (reverse bs).
Definition load32 (m : list Z) (a : Z) : option Z := be_value <$> rd m (a - MemBase) 4.
Definition fdt_at (m : list Z) (a : Z) : list Z := drop (Z.to_nat (a - MemBase)) m.
Definition getprop (m : list Z) (dtb root : Z) (name : list Z) : option Z * Z :=
  let (off, len) := fdt_getprop (fdt_at m dtb) root name in
  ((fun o => u64 (dtb + o)) <$> off, len).

(** Zero for a header whose parts lie inside of the device tree. *)
Definition fdt_check_header_ext (fdt_start : Z) (h : list Z) : Z :=
  let FDT_ERR_BADOFFSET := 4 in
  let fdt_end := u64 (fdt_start + fdt_totalsize h) in
  if fdt_end <=? fdt_start then FDT_ERR_BADOFFSET else
  let sum := ADD_OF (fdt_off_dt_struct h) (fdt_size_dt_struct h) in
  if (sum =? 0) || CHECK_ADD64 fdt_start sum || (fdt_end <? u64 (fdt_start + sum))
  then FDT_ERR_BADOFFSET else
  let sum := ADD_OF (fdt_off_dt_strings h) (fdt_size_dt_strings h) in
  if (sum =? 0) || CHECK_ADD64 fdt_start sum || (fdt_end <? u64 (fdt_start + sum))
  then FDT_ERR_BADOFFSET else
  if fdt_end <? u64 (fdt_start + fdt_off_mem_rsvmap h) then FDT_ERR_BADOFFSET else 0.

(** ** Rtic.c: the hypervisor is told about the data for integrity checks, once *)
Definition RTIC_ID : Z := 1.
Definition TxMpdatatoQhee (MpData : list Z) : DT unit :=
  called ← gets Hyp_Call_Done;
  if called : bool then mret tt else
  _ ← modify set_Hyp_Call_Done;
  if EFI_ERROR LocateScmProtocol then mret tt else
  kernel ← gets KernelLoadAddr;
  modify (add_scm_call (kernel, MpData)).
Definition GetRticDtb (dtb : Z) : DT bool :=
  m ← gets Mem;
  let root := fdt_path_offset (fdt_at m dtb) (bytes "/") in
  if root <? 0 then mret false else
  let (RticProp, LenRticId) := getprop m dtb root (bytes "qcom,rtic-id") in
  match RticProp with
  | Some p =>
    if (0 <? LenRticId) && (Z.rem LenRticId 4 =? 0) then
      id ← access (load32 m p);
      if negb (id =? RTIC_ID) then mret false else
      let (MpDataProp, LenMpData) := getprop m dtb root (bytes "MP_DATA") in
      match MpDataProp with
      | Some p =>
        if LenMpData <=? 0 then mret false else
        if negb (PoolAvailable 0 LenMpData) then mret false else
        MpData ← access (rd m (p - MemBase) (Z.to_nat LenMpData));
        _ ← TxMpdatatoQhee MpData;
        mret true
      | None => mret false
      end
    else mret false
  | None => mret false
  end.

(** ** Comparing a device tree with the board *)
Definition CheckAllBitsSet (v : Z) : bool := Z.land v ALL_BITS_SET =? ALL_BITS_SET.

(** One index of an entry of qcom,pmic-id; [None] stands for [goto next]. *)
Definition pmic_index (m : list Z) (PmicProp Idx : Z) (Cur : PmicIdInfo) : option (option PmicIdInfo) :=
  word ← load32 m (u64 (PmicProp + 4 * Idx));
  if (Z.of_nat MAX_PMIC_IDX <=? Idx) then fault else
  let i := Z.to_nat Idx in
  let Rev := Z.land word PMIC_REV_MASK in
  let Model := Z.land word PMIC_MODEL_MASK in
  BoardModel ← BoardPmicModel Idx;
  let keep v := mk_pmic_info (<[i := Model]> (CurPmicModel Cur)) (<[i := Rev]> (CurPmicRev Cur)) v in
  let v := PmicMatchVal Cur in
  v ← (if Model =? BoardModel then Some (Some (Z.lor v (BIT (PMIC_MATCH_EXACT_MODEL_IDX0 + Idx * PMIC_SHIFT_IDX))))
       else if Model =? 0 then Some (Some (Z.lor v (BIT (PMIC_MATCH_DEFAULT_MODEL_IDX0 + Idx * PMIC_SHIFT_IDX))))
       else Some None);
  match v with
  | None => Some None
  | Some v =>
    if Idx <? PMIC_IDX4 then
      Target ← BoardPmicTarget Idx;
      let BoardRev := Z.land Target PMIC_REV_MASK in
      if Rev =? BoardRev then Some (Some (keep (Z.lor v (BIT (PMIC_MATCH_EXACT_REV_IDX0 + Idx * PMIC_SHIFT_IDX)))))
      else if Rev <? BoardRev then Some (Some (keep (Z.lor v (BIT (PMIC_MATCH_BEST_REV_IDX0 + Idx * PMIC_SHIFT_IDX)))))
      else Some None
    else Some (Some (keep v))
  end.
Fixpoint pmic_entry (m : list Z) (PmicProp : Z) (n : nat) (Idx : Z) (Cur : PmicIdInfo)
  : option (option PmicIdInfo) :=
  match n with
  | O => Some (Some Cur)
  | S n' =>
    r ← pmic_index m PmicProp Idx Cur;
    match r with None => Some None | Some Cur => pmic_entry m PmicProp n' (Idx + 1) Cur end
  end.
(** Of two entries with the same value one with a higher revision somewhere is taken. *)
Fixpoint pmic_tie (n i : nat) (Best Cur : PmicIdInfo) : PmicIdInfo :=
  match n with
  | O => Best
  | S n' =>
    pmic_tie n' (S i)
      (if nth i (CurPmicRev Best) 0 <? nth i (CurPmicRev Cur) 0 then Cur else Best) Cur
  end.
Definition better_pmic (n : nat) (Best Cur : PmicIdInfo) : PmicIdInfo :=
  if PmicMatchVal Best <? PmicMatchVal Cur then Cur
  else if PmicMatchVal Best =? PmicMatchVal Cur then pmic_tie n 0 Best Cur
  else Best.
Fixpoint pmic_entries (m : list Z) (PmicProp PmicMaxIdx : Z) (count : nat) (Best : PmicIdInfo)
  : option PmicIdInfo :=
  match count with
  | O => Some Best
  | S count' =>
    let n := Z.to_nat (u32 PmicMaxIdx) in
    r ← pmic_entry m PmicProp n 0 no_pmic;
    pmic_entries m (u64 (PmicProp + 4 * PmicMaxIdx)) PmicMaxIdx count'
      match r with None => Best | Some Cur => better_pmic n Best Cur end
  end.
Definition ReadBestPmicMatch (m : list Z) (PmicProp PmicMaxIdx PmicEntCount : Z) : option PmicIdInfo :=
  pmic_entries m PmicProp PmicMaxIdx (Z.to_nat PmicEntCount)
    (mk_pmic_info (repeat 0 MAX_PMIC_IDX) (repeat 0 MAX_PMIC_IDX) (BIT NONE_MATCH)).

Definition GetPlatformMatchDtb (m : list Z) (info : BoardInfo) (Cur : DtInfo) (PlatProp : option Z)
    (LenPlatId MinPlatIdLen : Z) : option (EFI_STATUS * DtInfo) :=
  match PlatProp with
  | None => Some (EFI_SUCCESS, Cur)
  | Some p =>
    if negb ((0 <? LenPlatId) && (Z.rem LenPlatId MinPlatIdLen =? 0)) then Some (EFI_SUCCESS, Cur) else
    platform_id ← load32 m p;
    let Cur := set_platform platform_id (DtSocRev Cur) (DtFoundryId Cur) Cur in
    if negb (Z.land (RawChipId info) SOC_MASK =? Z.land platform_id SOC_MASK)
    then Some (EFI_NOT_FOUND, set_match (BIT NONE_MATCH) Cur) else
    let Cur := add_match SOC_MATCH Cur in
    soc_rev ← load32 m (u64 (p + 4));
    let Cur := set_platform platform_id soc_rev (Z.land platform_id FOUNDRY_ID_MASK) Cur in
    let Cur := if soc_rev =? ChipVersion info then add_match VERSION_EXACT_MATCH Cur
               else if soc_rev <? ChipVersion info then add_match VERSION_BEST_MATCH Cur
               else Cur in
    if DtFoundryId Cur =? u32 (Z.shiftl (FoundryId info) PLATFORM_FOUNDRY_SHIFT)
    then Some (EFI_SUCCESS, add_match FOUNDRYID_EXACT_MATCH Cur)
    else if DtFoundryId Cur =? 0 then Some (EFI_SUCCESS, add_match FOUNDRYID_DEFAULT_MATCH Cur)
    else Some (EFI_NOT_FOUND, set_match (BIT NONE_MATCH) Cur)
  end.

(** The value of a field that may stay below that of the board. *)
Definition at_most (x board exact best : Z) (d : DtInfo) : DtInfo :=
  if x =? board then add_match exact d else if x <? board then add_match best d else d.
Definition GetBoardMatchDtb (m : list Z) (info : BoardInfo) (Cur : DtInfo) (BoardProp : option Z)
    (LenBoardId : Z) : option (EFI_STATUS * DtInfo) :=
  match BoardProp with
  | None => Some (EFI_SUCCESS, Cur)
  | Some p =>
    if negb ((0 <? LenBoardId) && (Z.rem LenBoardId BOARD_ID_SIZE =? 0)) then Some (EFI_SUCCESS, Cur) else
    variant_id ← load32 m p;
    platform_subtype ← load32 m (u64 (p + 4));
    let Subtype := if platform_subtype =? 0 then Z.shiftr variant_id PLATFORM_SUBTYPE_SHIFT_ID
                   else platform_subtype in
    let Major := Z.land variant_id VARIANT_MAJOR_MASK in
    let Minor := Z.land variant_id VARIANT_MINOR_MASK in
    let Variant := Z.land variant_id VARIANT_MASK in
    let Cur := set_board Variant Major Minor Subtype Cur in
    if negb (Variant =? platform (PlatformInfo info)) && negb (Variant =? 0)
    then Some (EFI_NOT_FOUND, set_match (BIT NONE_MATCH) Cur) else
    let Cur := if Variant =? platform (PlatformInfo info) then add_match VARIANT_MATCH Cur else Cur in
    let Target := target_id (PlatformInfo info) in
    let Cur := at_most Major (Z.land Target VARIANT_MAJOR_MASK)
                 VARIANT_MAJOR_EXACT_MATCH VARIANT_MAJOR_BEST_MATCH Cur in
    let Cur := at_most Minor (Z.land Target VARIANT_MINOR_MASK)
                 VARIANT_MINOR_EXACT_MATCH VARIANT_MINOR_BEST_MATCH Cur in
    let low := Z.land Subtype PLATFORM_SUBTYPE_MASK in
    if negb (low =? subtype (PlatformInfo info)) && negb (low =? 0)
    then Some (EFI_NOT_FOUND, set_match (BIT NONE_MATCH) Cur) else
    let Cur := add_match (if low =? subtype (PlatformInfo info) then SUBTYPE_EXACT_MATCH
                          else SUBTYPE_DEFAULT_MATCH) Cur in
    Some (EFI_SUCCESS,
      if Z.land Subtype DDR_MASK =? Z.land (HlosSubType info) DDR_MASK
      then add_match DDR_MATCH Cur else Cur)
  end.

Definition GetSoftSkuMatchDtb (m : list Z) (info : BoardInfo) (Cur : DtInfo) (SoftSkuProp : option Z)
    (LenSoftSkuId : Z) : option DtInfo :=
  id ← match SoftSkuProp with
       | Some p => if 0 <=? LenSoftSkuId then load32 m p else Some 0
       | None => Some 0
       end;
  let Cur := set_sku id Cur in
  Some (if id =? SoftSkuId info then add_match SOFTSKU_EXACT_MATCH Cur else Cur).

(** ** ReadDtbFindMatch *)
(** The entries of qcom,msm-id: the best of them is kept in [Temp]. *)
Fixpoint platform_entries (m : list Z) (info : BoardInfo) (n : nat) (PlatProp LenPlatId : Z)
    (Cur Temp : DtInfo) : option DtInfo :=
  match n with
  | O => Some Temp
  | S n' =>
    r ← GetPlatformMatchDtb m info (set_match NONE_MATCH Cur) (Some PlatProp) LenPlatId PLAT_ID_SIZE;
    let (Status, Cur) := r : EFI_STATUS * DtInfo in
    let Temp := if is_success Status && (DtMatchVal Temp <? DtMatchVal Cur) then Cur else Temp in
    platform_entries m info n' (u64 (PlatProp + PLAT_ID_SIZE)) (LenPlatId - PLAT_ID_SIZE) Cur Temp
  end.
Definition platform_match (m : list Z) (info : BoardInfo) (root : Z) (Cur : DtInfo) : option DtInfo :=
  let (PlatProp, LenPlatId) := getprop m (Dtb Cur) root (bytes "qcom,msm-id") in
  match PlatProp with
  | Some p =>
    if (0 <? LenPlatId) && (Z.rem LenPlatId PLAT_ID_SIZE =? 0)
    then platform_entries m info (Z.to_nat (Z.quot LenPlatId PLAT_ID_SIZE)) p LenPlatId Cur
           (set_match NONE_MATCH Cur)
    else Some (set_match 0 Cur)
  | None => Some (set_match 0 Cur)
  end.
Definition has_platform (m : list Z) (root : Z) (dtb : Z) : bool :=
  let (PlatProp, LenPlatId) := getprop m dtb root (bytes "qcom,msm-id") in
  bool_decide (is_Some PlatProp) && (0 <? LenPlatId) && (Z.rem LenPlatId PLAT_ID_SIZE =? 0).

Definition pmic_match (m : list Z) (root : Z) (Cur : DtInfo) : option DtInfo :=
  let (PmicProp, LenPmicId) := getprop m (Dtb Cur) root (bytes "qcom,pmic-id") in
  match PmicProp with
  | None => Some Cur
  | Some p =>
    if LenPmicId <=? 0 then Some Cur else
    let (PmicPropSz, LenPmicIdSz) := getprop m (Dtb Cur) root (bytes "qcom,pmic-id-size") in
    PmicMaxIdx ← match PmicPropSz with
                 | Some sz => if 0 <? LenPmicIdSz then s32 <$> load32 m sz else Some PMIC_IDX4
                 | None => Some PMIC_IDX4
                 end;
    let PmicEntSz := s32 (4 * PmicMaxIdx) in
    if PmicEntSz =? 0 then fault else
    if negb (Z.rem LenPmicId PmicEntSz =? 0) then Some Cur else
    Best ← ReadBestPmicMatch m p PmicMaxIdx (u32 (Z.quot LenPmicId PmicEntSz));
    if PmicMatchVal Best =? BIT NONE_MATCH then Some (set_match NONE_MATCH Cur) else
    let n := Z.to_nat (u32 PmicMaxIdx) in
    Some (set_match (Z.lor (DtMatchVal Cur) (PmicMatchVal Best))
            (set_pmic (take n (CurPmicModel Best) ++ drop n (DtPmicModel Cur))
               (take n (CurPmicRev Best) ++ drop n (DtPmicRev Cur)) Cur))
  end.

(** The match value of the device tree [Cur] points to, up to the label [cleanup]. *)
Definition read_match (m : list Z) (info : BoardInfo) (root : Z) (Cur : DtInfo) : option DtInfo :=
  let dtb := Dtb Cur in
  Cur ← platform_match m info root Cur;
  if has_platform m root dtb && (DtMatchVal Cur =? NONE_MATCH) then Some Cur else
  let (BoardProp, LenBoardId) := getprop m dtb root (bytes "qcom,board-id") in
  r ← GetBoardMatchDtb m info Cur BoardProp LenBoardId;
  let (Status, Cur) := r : EFI_STATUS * DtInfo in
  if negb (is_success Status) then Some Cur else
  let (SoftSkuProp, LenSoftSkuId) := getprop m dtb root (bytes "qcom,softsku-id") in
  Cur ← GetSoftSkuMatchDtb m info Cur SoftSkuProp LenSoftSkuId;
  pmic_match m root Cur.

(** Of two device trees with the same value: one of these fields decides, in turn. *)
Definition tie_break (Best Cur : DtInfo) : bool :=
  (DtSocRev Best <? DtSocRev Cur) || (DtVariantMajor Best <? DtVariantMajor Cur) ||
  (DtVariantMinor Best <? DtVariantMinor Cur) ||
  existsb (fun i => nth i (DtPmicRev Best) 0 <? nth i (DtPmicRev Cur) 0) (seq 0 4) ||
  (DtSoftSkuId Cur <? DtSoftSkuId Best).
Definition replaces (ExactMatch : Z) (Best Cur : DtInfo) : bool :=
  Z.testbit (DtMatchVal Cur) ExactMatch &&
  ((DtMatchVal Best <? DtMatchVal Cur) ||
   ((DtMatchVal Best =? DtMatchVal Cur) && tie_break Best Cur)).

(** Is [CurDtbInfo] the new best match?  With both records as they are afterwards. *)
Definition ReadDtbFindMatch (m : list Z) (info : BoardInfo) (Cur Best : DtInfo) (ExactMatch : Z)
  : option (bool * DtInfo * DtInfo) :=
  let root := fdt_path_offset (fdt_at m (Dtb Cur)) (bytes "/") in
  if root <? 0 then Some (false, set_match 0 Cur, Best) else
  Cur ← read_match m info root Cur;
  Some (if replaces ExactMatch Best Cur then (true, Cur, Cur) else (false, Cur, Best)).

(** ** The device trees of an image *)
(** A device tree at [dtb] that lies before [KernelEnd]: its size. *)
Definition valid_dtb (m : list Z) (KernelEnd dtb : Z) : option (option Z) :=
  h ← rd m (dtb - MemBase) (Z.to_nat SIZEOF_fdt_header);
  let DtbSize := fdt_totalsize h in
  Some (if negb (fdt_check_header h =? 0) || negb (fdt_check_header_ext DtbHdr_address h =? 0) ||
           (u64 (dtb + DtbSize) <? dtb) || (KernelEnd <? u64 (dtb + DtbSize))
        then None else Some DtbSize).

(** What is kept about one device tree: the index of the best one, whether overlays are
    needed, the data for the hypervisor. *)
Definition soc_step (dtb Count : Z) (Cur Best : DtInfo) : DT (DtInfo * DtInfo) :=
  m ← gets Mem;
  info ← gets board_info;
  r ← access (ReadDtbFindMatch m info (set_Dtb dtb Cur) Best SOC_MATCH);
  let '(found, Cur, Best) := r : bool * DtInfo * DtInfo in
  _ ← (if found : bool then modify (set_DtbIdx Count) else mret tt);
  _ ← (if negb (DtMatchVal Cur =? 0) then
         if Z.testbit (DtMatchVal Cur) SOC_MATCH && CheckAllBitsSet (DtMatchVal Cur)
         then modify (set_DtboNeed false) else mret tt
       else _ ← GetRticDtb dtb; mret tt);
  mret (Cur, Best).
Fixpoint soc_loop (fuel : nat) (KernelEnd dtb Count : Z) (Cur Best : DtInfo) : DT Z :=
  if negb (u64 (dtb + SIZEOF_fdt_header) <? KernelEnd) then mret (Dtb Best) else
  match fuel with
  | O => crash
  | S fuel' =>
    m ← gets Mem;
    size ← access (valid_dtb m KernelEnd dtb);
    match size with
    | None => mret (Dtb Best)
    | Some DtbSize =>
      r ← soc_step dtb Count Cur Best;
      soc_loop fuel' KernelEnd (u64 (dtb + DtbSize)) (s32 (Count + 1)) (fst r) (snd r)
    end
  end.
(** The address of the best device tree, 0 for NULL. *)
Definition GetSocDtb (Kernel KernelSize DtbOffset : Z) : DT Z :=
  if DtbOffset =? 0 then mret 0 else
  if u64 (Kernel + DtbOffset) <? Kernel then mret 0 else
  soc_loop (Z.to_nat KernelSize) (u64 (Kernel + KernelSize)) (u64 (Kernel + DtbOffset)) 0 no_dt no_dt.

(** ** The overlays of a DTBO image: the table at the start, entries of 32 bytes *)
Fixpoint board_loop (n : nat) (Image entry Count : Z) (Cur Best : DtInfo) : DT Z :=
  match n with
  | O => mret (Dtb Best)
  | S n' =>
    m ← gets Mem;
    DtOffset ← access (load32 m (u64 (entry + 4)));
    if CHECK_ADD64 Image DtOffset then mret 0 else
    let BoardDtb := Image + DtOffset in
    _ ← access (rd m (BoardDtb - MemBase) (Z.to_nat SIZEOF_fdt_header));
    if negb (fdt_check_header (fdt_at m BoardDtb) =? 0) ||
       negb (fdt_check_header_ext BoardDtb (fdt_at m BoardDtb) =? 0) then mret (Dtb Best) else
    info ← gets board_info;
    r ← access (ReadDtbFindMatch m info (set_Dtb BoardDtb Cur) Best VARIANT_MATCH);
    let '(found, Cur, Best) := r : bool * DtInfo * DtInfo in
    _ ← (if found : bool then modify (set_DtboIdx (s32 Count)) else mret tt);
    board_loop n' Image (u64 (entry + 32)) (Count + 1) Cur Best
  end.
Definition GetBoardDtb (Image : Z) : DT Z :=
  if Image =? 0 then mret 0 else
  m ← gets Mem;
  DtEntryOffset ← access (load32 m (u64 (Image + 20)));
  if CHECK_ADD64 Image DtEntryOffset then mret 0 else
  if u64 (Image + DtEntryOffset) =? 0 then mret 0 else
  DtEntryCount ← access (load32 m (u64 (Image + 16)));
  board_loop (Z.to_nat DtEntryCount) Image (u64 (Image + DtEntryOffset)) 0 no_dt no_dt.

Definition GetDtboIdx : DT Z := gets DtboIdx.
Definition GetDtbIdx : DT Z := gets DtbIdx.
Definition GetDtboNeeded : DT bool := gets DtboNeed.
End device_tree.
