(* ===== verification/DeviceTreeSpec.v ===== *)
(** * What the choice of a device tree means.

    [match_value] grades a device tree from its properties: the bits of the criteria it
    meets, the most important ones first.  [GetSocDtb] returns the device tree of the
    image with the highest grade, and the one it returns fits the board.  Another theorem
    shows that overlays are always asked for. *)
From stdpp Require Import base numbers list option strings.
From Stdlib Require Import ZArith Lia Ascii.
From S2P Require Import Prelude BaseLib Unicode Storage Bytes StorageSpec Board BoardDemo DeviceTree.
Local Open Scope Z_scope.

(** ** Match values *)
Lemma bits_app l1 l2 : bits (l1 ++ l2) = Z.lor (bits l1) (bits l2).
Proof.
  induction l1 as [|x l1 IH]; cbn [app bits foldr]; [by rewrite Z.lor_0_l|].
  unfold bits in IH. by rewrite IH, Z.lor_assoc.
Qed.
Lemma bits_snoc l x : Z.lor (bits l) (BIT x) = bits (l ++ [x]).
Proof. rewrite bits_app. cbn [bits foldr]. by rewrite Z.lor_0_r. Qed.

Lemma BIT_pow x : 0 <= x < 64 -> BIT x = 2 ^ x.
Proof.
  intros H. unfold BIT. rewrite Z.shiftl_1_l. apply u64_small. split; [lia|].
  apply Z.pow_lt_mono_r; lia.
Qed.
Lemma BIT_testbit x y : 0 <= x < 64 -> Z.testbit (BIT x) y = (x =? y).
Proof. intros H. rewrite BIT_pow by done. apply Z.pow2_bits_eqb. lia. Qed.
Lemma bits_testbit l y :
  Forall (fun x => 0 <= x < 64) l -> Z.testbit (bits l) y = existsb (fun x => x =? y) l.
Proof.
  induction 1 as [|x l Hx _ IH]; cbn [bits foldr existsb]; [apply Z.bits_0|].
  unfold bits in IH. by rewrite Z.lor_spec, BIT_testbit, IH.
Qed.
Lemma bits_nonneg l : 0 <= bits l.
Proof.
  induction l as [|x l IH]; cbn [bits foldr]; [done|]. apply Z.lor_nonneg. split; [apply u64_range|done].
Qed.
(** A value with a bit is at least the bit. *)
Lemma testbit_le v x : 0 <= v -> 0 <= x -> Z.testbit v x = true -> 2 ^ x <= v.
Proof.
  intros Hv Hx H. destruct (Z.le_gt_cases (2 ^ x) v) as [|Hlt]; [done|].
  rewrite Z.testbit_true, Z.div_small in H by lia. done.
Qed.

(** The highest of the grades; [None] is no grade. *)
Definition best (l : list (option Z)) (v : Z) : Z :=
  fold_left (fun v o => match o with Some x => if v <? x then x else v | None => v end) l v.
Lemma best_ge l v : v <= best l v.
Proof.
  revert v. induction l as [|[x|] l IH]; intros v; cbn [best fold_left]; [lia| |apply IH].
  etransitivity; [|apply IH]. destruct (Z.ltb_spec v x); lia.
Qed.
Lemma best_elem l v : best l v = v \/ Some (best l v) ∈ l.
Proof.
  revert v. induction l as [|[x|] l IH]; intros v; cbn [best fold_left]; [by left| |].
  - destruct (Z.ltb_spec v x).
    + right. destruct (IH x) as [E|E]; unfold best in E; [rewrite E; left|by right].
    + destruct (IH v) as [E|E]; [by left|right; by right].
  - destruct (IH v) as [E|E]; [by left|right; by right].
Qed.

Section grades.
Context {FW : Firmware} {BP : BoardProtocols} {LF : Libfdt}.
Variable MemBase : Z.
Variable info : BoardInfo.

(** ** Words of a property *)
Definition mapped (m : list Z) (p n : Z) : Prop :=
  MemBase <= p /\ p + n <= MemBase + Z.of_nat (length m).
Definition word (m : list Z) (p : Z) : Z := be_value (slice 4 m (p - MemBase)).
Definition property (m : list Z) (dtb : Z) (name : string) : option Z * Z :=
  getprop MemBase m dtb (fdt_path_offset (fdt_at MemBase m dtb) (bytes "/")) (bytes name).

(** ** Grades *)
(** A number that should be that of the board and may be lower. *)
Definition level (x board exact low : Z) : list Z :=
  if x =? board then [exact] else if x <? board then [low] else [].
(** An entry of qcom,msm-id: chip with its foundry, revision. *)
Definition soc_grade (id rev : Z) : option Z :=
  let foundry := Z.land id FOUNDRY_ID_MASK in
  if negb (Z.land (RawChipId info) SOC_MASK =? Z.land id SOC_MASK) then None else
  if foundry =? u32 (Z.shiftl (FoundryId info) PLATFORM_FOUNDRY_SHIFT)
  then Some (bits ([SOC_MATCH] ++ level rev (ChipVersion info) VERSION_EXACT_MATCH VERSION_BEST_MATCH ++
                   [FOUNDRYID_EXACT_MATCH]))
  else if foundry =? 0
  then Some (bits ([SOC_MATCH] ++ level rev (ChipVersion info) VERSION_EXACT_MATCH VERSION_BEST_MATCH ++
                   [FOUNDRYID_DEFAULT_MATCH]))
  else None.
Definition soc_grades (m : list Z) (p : Z) (n : nat) : list (option Z) :=
  (fun i : nat => soc_grade (word m (p + 8 * Z.of_nat i)) (word m (p + 8 * Z.of_nat i + 4))) <$> seq 0 n.

(** The first entry of qcom,board-id. *)
Definition board_criteria (variant_id platform_subtype : Z) : option (list Z) :=
  let subtype_ := if platform_subtype =? 0 then Z.shiftr variant_id PLATFORM_SUBTYPE_SHIFT_ID
                  else platform_subtype in
  let variant := Z.land variant_id VARIANT_MASK in
  let low := Z.land subtype_ PLATFORM_SUBTYPE_MASK in
  let target := target_id (PlatformInfo info) in
  if negb (variant =? platform (PlatformInfo info)) && negb (variant =? 0) then None else
  if negb (low =? subtype (PlatformInfo info)) && negb (low =? 0) then None else
  Some ((if variant =? platform (PlatformInfo info) then [VARIANT_MATCH] else []) ++
    level (Z.land variant_id VARIANT_MAJOR_MASK) (Z.land target VARIANT_MAJOR_MASK)
      VARIANT_MAJOR_EXACT_MATCH VARIANT_MAJOR_BEST_MATCH ++
    level (Z.land variant_id VARIANT_MINOR_MASK) (Z.land target VARIANT_MINOR_MASK)
      VARIANT_MINOR_EXACT_MATCH VARIANT_MINOR_BEST_MATCH ++
    [if low =? subtype (PlatformInfo info) then SUBTYPE_EXACT_MATCH else SUBTYPE_DEFAULT_MATCH] ++
    (if Z.land subtype_ DDR_MASK =? Z.land (HlosSubType info) DDR_MASK then [DDR_MATCH] else [])).

(** A word of qcom,pmic-id: the model and, of the first four, the revision. *)
Definition pmic_model (i : nat) : Z := default 0 (BoardPmicModel (Z.of_nat i)).
Definition pmic_rev (i : nat) : Z := Z.land (default 0 (BoardPmicTarget (Z.of_nat i))) PMIC_REV_MASK.
Definition pmic_criteria (i : nat) (w : Z) : option (list Z) :=
  let model := Z.land w PMIC_MODEL_MASK in
  let rev := Z.land w PMIC_REV_MASK in
  let shift := 2 * Z.of_nat i in
  if negb (model =? pmic_model i) && negb (model =? 0) then None else
  if (i <? 4)%nat && negb (rev =? pmic_rev i) && negb (rev <? pmic_rev i) then None else
  Some ((if model =? pmic_model i then PMIC_MATCH_EXACT_MODEL_IDX0 + shift
         else PMIC_MATCH_DEFAULT_MODEL_IDX0 + shift) ::
        if (i <? 4)%nat then
          [if rev =? pmic_rev i then PMIC_MATCH_EXACT_REV_IDX0 + shift
           else PMIC_MATCH_BEST_REV_IDX0 + shift]
        else []).
Definition pmic_grade (m : list Z) (p : Z) (n : nat) : option Z :=
  (fun l => bits (concat l)) <$>
    mapM (fun i : nat => pmic_criteria i (word m (p + 4 * Z.of_nat i))) (seq 0 n).
Definition pmic_grades (m : list Z) (p : Z) (n count : nat) : list (option Z) :=
  (fun k : nat => pmic_grade m (p + 4 * Z.of_nat n * Z.of_nat k) n) <$> seq 0 count.

(** ** The grade of a device tree: 0 or 1 when it does not fit *)
Definition full (len size : Z) : bool := (0 <? len) && (Z.rem len size =? 0).
Definition platform_grade (m : list Z) (dtb : Z) : option Z :=
  match property m dtb "qcom,msm-id" with
  | (Some p, len) =>
    if full len PLAT_ID_SIZE then Some (best (soc_grades m p (Z.to_nat (len / 8))) 0) else None
  | _ => None
  end.
Definition board_part (m : list Z) (dtb : Z) : option (list Z) :=
  match property m dtb "qcom,board-id" with
  | (Some p, len) => if full len BOARD_ID_SIZE then board_criteria (word m p) (word m (p + 4)) else Some []
  | _ => Some []
  end.
Definition sku_part (m : list Z) (dtb : Z) : list Z :=
  let id := match property m dtb "qcom,softsku-id" with
            | (Some p, len) => if 0 <=? len then word m p else 0
            | _ => 0
            end in
  if id =? SoftSkuId info then [SOFTSKU_EXACT_MATCH] else [].
Definition pmics_per_entry (m : list Z) (dtb : Z) : Z :=
  match property m dtb "qcom,pmic-id-size" with
  | (Some p, len) => if 0 <? len then word m p else PMIC_IDX4
  | _ => PMIC_IDX4
  end.
Definition pmic_part (m : list Z) (dtb : Z) : option Z :=
  match property m dtb "qcom,pmic-id" with
  | (Some p, len) =>
    let n := pmics_per_entry m dtb in
    if full len (4 * n) then
      let v := best (pmic_grades m p (Z.to_nat n) (Z.to_nat (len / (4 * n)))) 1 in
      if v =? 1 then None else Some v
    else Some 0
  | _ => Some 0
  end.
Definition match_value (m : list Z) (dtb : Z) : Z :=
  if fdt_path_offset (fdt_at MemBase m dtb) (bytes "/") <? 0 then 0 else
  if bool_decide (platform_grade m dtb = Some 0) then 0 else
  match board_part m dtb, pmic_part m dtb with
  | None, _ => 1
  | _, None => 0
  | Some b, Some p => Z.lor (Z.lor (default 0 (platform_grade m dtb)) (bits (b ++ sku_part m dtb))) p
  end.

(** A device tree whose properties lie in memory and have at most 15 PMICs. *)
Record readable (m : list Z) (dtb : Z) : Prop := mk_readable {
  readable_platform p len : property m dtb "qcom,msm-id" = (Some p, len) -> 0 < len -> mapped m p len;
  readable_board p len : property m dtb "qcom,board-id" = (Some p, len) -> 0 < len -> mapped m p len;
  readable_sku p len : property m dtb "qcom,softsku-id" = (Some p, len) -> 0 <= len -> mapped m p 4;
  readable_pmic p len :
    property m dtb "qcom,pmic-id" = (Some p, len) -> 0 < len -> in_u32 len /\ mapped m p len;
  readable_pmic_size p len :
    property m dtb "qcom,pmic-id-size" = (Some p, len) -> 0 < len -> mapped m p 4 /\ 1 <= word m p <= 15;
  readable_rtic p len : property m dtb "qcom,rtic-id" = (Some p, len) -> 0 < len -> mapped m p len;
  readable_mpdata p len : property m dtb "MP_DATA" = (Some p, len) -> 0 < len -> mapped m p len
}.
(** Addresses of the processor have fewer than 63 bits. *)
Definition memory_ok (m : list Z) : Prop := 0 <= MemBase /\ MemBase + Z.of_nat (length m) < 2 ^ 63.
Definition pmics_known : Prop :=
  (forall i, 0 <= i < 15 -> is_Some (BoardPmicModel i)) /\
  (forall i, 0 <= i < 4 -> is_Some (BoardPmicTarget i)).

(** ** Reading *)
Lemma load32_word m p : mapped m p 4 -> load32 MemBase m p = Some (word m p).
Proof. intros []. unfold load32, word. by rewrite rd_slice by lia. Qed.
Lemma mapped_u64 m p n : memory_ok m -> mapped m p n -> 0 <= n -> u64 p = p.
Proof. intros [] [] ?. apply u64_small. split; lia. Qed.
Lemma mapped_in m p n q k : mapped m p n -> p <= q -> q + k <= p + n -> mapped m q k.
Proof. intros [] ? ?. split; lia. Qed.
Lemma load32_at m p n q :
  memory_ok m -> mapped m p n -> p <= q -> q + 4 <= p + n -> load32 MemBase m (u64 q) = Some (word m q).
Proof.
  intros Hm Hp H1 H2. assert (mapped m q 4) as Hq by (by eapply mapped_in).
  rewrite (mapped_u64 m q 4) by (done || lia). by apply load32_word.
Qed.

Lemma full_spec len size : full len size = true -> 0 < len /\ Z.rem len size = 0.
Proof. unfold full. intros H. bool_to_prop. lia. Qed.
Lemma full_words len size : 0 < size -> full len size = true -> len = size * (len / size) /\ 0 < len / size.
Proof.
  intros Hs [H1 H2]%full_spec. rewrite Z.rem_mod_nonneg in H2 by lia.
  pose proof (Z.div_mod len size ltac:(lia)). split; [lia|]. nia.
Qed.

(** ** The parts of the comparison *)
Lemma at_most_match x b e l d :
  DtMatchVal (at_most x b e l d) = Z.lor (DtMatchVal d) (bits (level x b e l)).
Proof.
  unfold at_most, level. destruct (x =? b), (x <? b); cbn [DtMatchVal add_match set_match bits foldr];
    by rewrite ?Z.lor_0_r.
Qed.
Lemma at_most_Dtb x b e l d : Dtb (at_most x b e l d) = Dtb d.
Proof. unfold at_most. by destruct (x =? b), (x <? b). Qed.
Lemma add_match_val x d : DtMatchVal (add_match x d) = Z.lor (DtMatchVal d) (bits [x]).
Proof. cbn. by rewrite Z.lor_0_r. Qed.

Lemma GetPlatformMatchDtb_grade m Cur p len :
  memory_ok m -> full len PLAT_ID_SIZE = true -> mapped m p 8 -> DtMatchVal Cur = 0 ->
  exists Status Cur', GetPlatformMatchDtb MemBase m info Cur (Some p) len PLAT_ID_SIZE = Some (Status, Cur') /\
    Dtb Cur' = Dtb Cur /\
    match soc_grade (word m p) (word m (p + 4)) with
    | Some v => Status = EFI_SUCCESS /\ DtMatchVal Cur' = v
    | None => Status = EFI_NOT_FOUND
    end.
Proof.
  intros Hm Hfull Hp H0. unfold GetPlatformMatchDtb, soc_grade, full in *. rewrite Hfull. cbn [negb].
  rewrite (load32_word m p) by (apply (mapped_in m p 8); [done|lia|lia]). bind_step.
  case_if; [eauto|]. rewrite (load32_at m p 8) by (done || lia). bind_step.
  unfold level.
  destruct (word m (p + 4) =? ChipVersion info), (word m (p + 4) <? ChipVersion info);
    cbn [add_match set_match set_platform DtFoundryId DtMatchVal];
    (case_if; [|case_if]); rewrite ?H0; eexists _, _; (split; [done|]); (split; [done|]); try done;
    (split; [done|]); cbn [add_match set_match set_platform DtFoundryId DtMatchVal];
    by rewrite H0, !bits_app; cbn [bits foldr]; rewrite ?Z.lor_0_r, ?Z.lor_0_l, ?Z.lor_assoc.
Qed.

Lemma soc_grades_S m p n :
  soc_grades m p (S n) = soc_grade (word m p) (word m (p + 4)) :: soc_grades m (p + 8) n.
Proof.
  unfold soc_grades. cbn [seq fmap list_fmap]. rewrite Z.mul_0_r, Z.add_0_r. f_equal.
  rewrite <- fmap_S_seq, <- list_fmap_compose. apply list_fmap_ext. intros i x _. cbn [compose].
  rewrite Nat2Z.inj_succ. f_equal; f_equal; lia.
Qed.

Lemma platform_entries_grade m n : forall p len Cur Temp,
  memory_ok m -> len = 8 * Z.of_nat n -> mapped m p len -> Dtb Cur = Dtb Temp ->
  exists Cur', platform_entries MemBase m info n p len Cur Temp = Some Cur' /\
    Dtb Cur' = Dtb Temp /\ DtMatchVal Cur' = best (soc_grades m p n) (DtMatchVal Temp).
Proof.
  induction n as [|n IH]; intros p len Cur Temp Hm Hlen Hp HD; cbn [platform_entries]; [eauto|].
  assert (full len PLAT_ID_SIZE = true) as Hfull.
  { unfold full, PLAT_ID_SIZE. rewrite Z.rem_mod_nonneg by lia.
    replace len with (Z.of_nat (S n) * 8) by lia. rewrite Z.mod_mul by lia.
    by destruct (Z.ltb_spec 0 (Z.of_nat (S n) * 8)); [|lia]. }
  destruct (GetPlatformMatchDtb_grade m (set_match NONE_MATCH Cur) p len) as (Status & C & -> & HC & Hg);
    try done; [by apply (mapped_in m p len); [|lia|lia]|].
  bind_step. rewrite soc_grades_S. cbn [best fold_left].
  set (Temp' := if is_success Status && (DtMatchVal Temp <? DtMatchVal C) then C else Temp).
  assert (Dtb Temp' = Dtb Temp) as HT by (subst Temp'; case_if; by rewrite ?HC).
  assert (DtMatchVal Temp' = match soc_grade (word m p) (word m (p + 4)) with
          | Some x => if DtMatchVal Temp <? x then x else DtMatchVal Temp | None => DtMatchVal Temp end) as HV.
  { subst Temp'. destruct (soc_grade _ _) as [v|]; [destruct Hg as [-> Hg]|by rewrite Hg].
    change (is_success EFI_SUCCESS) with true. cbn [andb]. rewrite Hg.
    destruct (DtMatchVal Temp <? v); by rewrite ?Hg. }
  fold (best (soc_grades m (p + 8) n)). rewrite <- HV, <- HT.
  destruct n as [|n]; [by exists Temp'|].
  rewrite (mapped_u64 m (p + PLAT_ID_SIZE) 0);
    [|done|apply (mapped_in m p len); unfold PLAT_ID_SIZE; (lia || done)|lia].
  unfold PLAT_ID_SIZE. apply IH; [done|lia|apply (mapped_in m p len); (lia || done)|].
  by rewrite HC, HT.
Qed.

Lemma GetBoardMatchDtb_grade m Cur p len :
  memory_ok m -> full len BOARD_ID_SIZE = true -> mapped m p 8 ->
  exists Status Cur', GetBoardMatchDtb MemBase m info Cur (Some p) len = Some (Status, Cur') /\
    Dtb Cur' = Dtb Cur /\
    match board_criteria (word m p) (word m (p + 4)) with
    | Some l => Status = EFI_SUCCESS /\ DtMatchVal Cur' = Z.lor (DtMatchVal Cur) (bits l)
    | None => Status = EFI_NOT_FOUND /\ DtMatchVal Cur' = 1
    end.
Proof.
  intros Hm Hfull Hp. unfold GetBoardMatchDtb, board_criteria, full in *. rewrite Hfull. cbn [negb].
  rewrite (load32_word m p) by (apply (mapped_in m p 8); [done|lia|lia]). bind_step.
  rewrite (load32_at m p 8) by (done || lia). bind_step.
  set (sub := if word m (p + 4) =? 0 then _ else _).
  destruct (negb (Z.land (word m p) VARIANT_MASK =? _) && _); [eauto 6|].
  destruct (negb (Z.land sub PLATFORM_SUBTYPE_MASK =? _) && _).
  { eexists _, _. split; [done|]. split; [|done].
    cbn [set_match Dtb]. rewrite !at_most_Dtb.
    by destruct (Z.land (word m p) VARIANT_MASK =? platform (PlatformInfo info)). }
  eexists _, _. split; [done|]. split.
  - destruct (Z.land (word m p) VARIANT_MASK =? platform (PlatformInfo info)),
      (Z.land sub DDR_MASK =? Z.land (HlosSubType info) DDR_MASK);
      cbn [add_match set_match Dtb]; by rewrite !at_most_Dtb.
  - split; [done|]. rewrite !bits_app, !Z.lor_assoc.
    destruct (Z.land (word m p) VARIANT_MASK =? platform (PlatformInfo info)),
      (Z.land sub DDR_MASK =? Z.land (HlosSubType info) DDR_MASK);
      rewrite ?add_match_val, ?at_most_match, ?add_match_val;
      cbn [bits foldr set_board DtMatchVal]; by rewrite ?Z.lor_0_r, ?Z.lor_assoc.
Qed.

Lemma GetSoftSkuMatchDtb_grade m Cur prop len :
  (forall p, prop = Some p -> 0 <= len -> mapped m p 4) ->
  exists Cur', GetSoftSkuMatchDtb MemBase m info Cur prop len = Some Cur' /\ Dtb Cur' = Dtb Cur /\
    DtMatchVal Cur' = Z.lor (DtMatchVal Cur)
      (bits (if match prop with Some p => if 0 <=? len then word m p else 0 | None => 0 end =? SoftSkuId info
             then [SOFTSKU_EXACT_MATCH] else [])).
Proof.
  intros Hp. unfold GetSoftSkuMatchDtb.
  assert (forall id, exists Cur', (let Cur := set_sku id Cur in
      Some (if id =? SoftSkuId info then add_match SOFTSKU_EXACT_MATCH Cur else Cur)) = Some Cur' /\
    Dtb Cur' = Dtb Cur /\ DtMatchVal Cur' =
      Z.lor (DtMatchVal Cur) (bits (if id =? SoftSkuId info then [SOFTSKU_EXACT_MATCH] else []))) as H.
  { intros id. eexists. split; [done|]. destruct (id =? SoftSkuId info); rewrite ?add_match_val; cbn;
      by rewrite ?Z.lor_0_r. }
  destruct prop as [p|]; [|apply H]. destruct (Z.leb_spec 0 len); [|apply H].
  rewrite load32_word by auto. apply H.
Qed.

(** ** PMICs *)
Definition graded (r : option PmicIdInfo) (v : option Z) : Prop :=
  match r, v with
  | Some C, Some x => PmicMatchVal C = x
  | None, None => True
  | _, _ => False
  end.

Lemma pmic_index_grade m p n i Cur :
  memory_ok m -> pmics_known -> (n <= 15)%nat -> mapped m p (4 * Z.of_nat n) -> (i < n)%nat ->
  exists r, pmic_index MemBase m p (Z.of_nat i) Cur = Some r /\
    graded r ((fun l => Z.lor (PmicMatchVal Cur) (bits l)) <$> pmic_criteria i (word m (p + 4 * Z.of_nat i))).
Proof.
  intros Hm [HM HT] Hn Hp Hi. unfold pmic_index, pmic_criteria.
  rewrite (load32_at m p (4 * Z.of_nat n)) by (done || lia). bind_step.
  destruct (Z.leb_spec (Z.of_nat MAX_PMIC_IDX) (Z.of_nat i)); [unfold MAX_PMIC_IDX in *; lia|].
  unfold pmic_model, pmic_rev. destruct (HM (Z.of_nat i)) as [model ->]; [lia|]. bind_step. cbn [default from_option id].
  set (w := word m (p + 4 * Z.of_nat i)). unfold PMIC_SHIFT_IDX. rewrite (Z.mul_comm (Z.of_nat i) 2).
  assert ((Z.of_nat i <? PMIC_IDX4) = (i <? 4)%nat) as ->.
  { unfold PMIC_IDX4. destruct (Z.ltb_spec (Z.of_nat i) 4), (Nat.ltb_spec i 4); (done || lia). }
  destruct (Z.land w PMIC_MODEL_MASK =? model), (Z.land w PMIC_MODEL_MASK =? 0); cbn [negb andb];
    bind_step; try (by eexists);
    (destruct (Nat.ltb_spec i 4); cbn [andb fmap option_fmap option_map];
     [destruct (HT (Z.of_nat i)) as [target ->]; [lia|]; bind_step; cbn [default from_option id];
      destruct (Z.land w PMIC_REV_MASK =? Z.land target PMIC_REV_MASK),
        (Z.land w PMIC_REV_MASK <? Z.land target PMIC_REV_MASK)|]);
    (eexists; split; [done|]); cbn; by rewrite ?Z.lor_0_r, ?Z.lor_assoc.
Qed.

Lemma pmic_entry_grade m p n k : forall i Cur,
  memory_ok m -> pmics_known -> (n <= 15)%nat -> mapped m p (4 * Z.of_nat n) -> (i + k <= n)%nat ->
  exists r, pmic_entry MemBase m p k (Z.of_nat i) Cur = Some r /\
    graded r ((fun l => Z.lor (PmicMatchVal Cur) (bits (concat l))) <$>
      mapM (fun j : nat => pmic_criteria j (word m (p + 4 * Z.of_nat j))) (seq i k)).
Proof.
  induction k as [|k IH]; intros i Cur Hm Hk Hn Hp Hi; cbn [pmic_entry seq mapM].
  - eexists. split; [done|]. cbn. by rewrite Z.lor_0_r.
  - destruct (pmic_index_grade m p n i Cur) as (r & -> & Hr); [done..|lia|]. bind_step.
    destruct (pmic_criteria i _) as [l|]; cbn [fmap option_fmap option_map mbind option_bind] in *;
      destruct r as [C|]; try done; [|by eexists].
    replace (Z.of_nat i + 1) with (Z.of_nat (S i)) by lia.
    destruct (IH (S i) C) as (r & -> & Hr'); [done..|lia|]. exists r. split; [done|].
    destruct (mapM _ (seq (S i) k)) as [ls|]; cbn [fmap option_fmap option_map mbind option_bind] in *; [|done].
    destruct r as [C'|]; [|done]. cbn in *. rewrite Hr', Hr, bits_app. by rewrite Z.lor_assoc.
Qed.

Lemma pmic_tie_grade n Cur : forall i Best,
  PmicMatchVal Best = PmicMatchVal Cur -> PmicMatchVal (pmic_tie n i Best Cur) = PmicMatchVal Cur.
Proof.
  induction n as [|n IH]; intros i Best H; cbn [pmic_tie]; [done|]. apply IH. by case_if.
Qed.
Lemma better_pmic_grade n Best Cur :
  PmicMatchVal (better_pmic n Best Cur) =
    if PmicMatchVal Best <? PmicMatchVal Cur then PmicMatchVal Cur else PmicMatchVal Best.
Proof.
  unfold better_pmic. case_if; [done|]. destruct (Z.eqb_spec (PmicMatchVal Best) (PmicMatchVal Cur)) as [H|]; [|done].
  by rewrite pmic_tie_grade.
Qed.

Lemma pmic_grades_S m p n count :
  pmic_grades m p n (S count) = pmic_grade m p n :: pmic_grades m (p + 4 * Z.of_nat n) n count.
Proof.
  unfold pmic_grades. cbn [seq fmap list_fmap]. rewrite Z.mul_0_r, Z.add_0_r. f_equal.
  rewrite <- fmap_S_seq, <- list_fmap_compose. apply list_fmap_ext. intros k x _. cbn [compose].
  f_equal. lia.
Qed.
Lemma pmic_entries_grade m n count : forall p Best,
  memory_ok m -> pmics_known -> (1 <= n <= 15)%nat -> mapped m p (4 * Z.of_nat n * Z.of_nat count) ->
  exists Best', pmic_entries MemBase m p (Z.of_nat n) count Best = Some Best' /\
    PmicMatchVal Best' = best (pmic_grades m p n count) (PmicMatchVal Best).
Proof.
  induction count as [|count IH]; intros p Best Hm Hk Hn Hp; cbn [pmic_entries]; [by eexists|].
  rewrite (u32_small (Z.of_nat n)) by (unfold in_u32; lia). rewrite Nat2Z.id.
  destruct (pmic_entry_grade m p n n 0 no_pmic) as (r & Hr & Hg); [done|done|lia| |lia|].
  { eapply mapped_in; [done|lia|nia]. }
  change (Z.of_nat 0) with 0 in Hr. rewrite Hr. bind_step. rewrite pmic_grades_S. cbn [best fold_left].
  set (Best' := match r with Some Cur => better_pmic n Best Cur | None => Best end).
  assert (PmicMatchVal Best' = match pmic_grade m p n with
          | Some x => if PmicMatchVal Best <? x then x else PmicMatchVal Best
          | None => PmicMatchVal Best end) as HV.
  { subst Best'. unfold pmic_grade, graded in *. cbn [PmicMatchVal no_pmic] in Hg.
    destruct (mapM _ (seq 0 n)) as [ls|], r as [C|]; cbn [fmap option_fmap option_map] in *; try done.
    by rewrite better_pmic_grade, Hg, Z.lor_0_l. }
  rewrite <- HV. destruct count as [|count]; [by exists Best'|].
  rewrite (mapped_u64 m (p + 4 * Z.of_nat n) 0); [|done| |lia].
  2: { eapply mapped_in; [done|lia|nia]. }
  apply IH; [done|done|done|]. eapply mapped_in; [done|lia|nia].
Qed.

(** ** The whole comparison *)
Abbreviation root_of m dtb := (fdt_path_offset (fdt_at MemBase m dtb) (bytes "/")).

Lemma platform_match_grade m Cur :
  memory_ok m -> readable m (Dtb Cur) ->
  exists Cur', platform_match MemBase m info (root_of m (Dtb Cur)) Cur = Some Cur' /\ Dtb Cur' = Dtb Cur /\
    DtMatchVal Cur' = default 0 (platform_grade m (Dtb Cur)) /\
    has_platform MemBase m (root_of m (Dtb Cur)) (Dtb Cur) = bool_decide (is_Some (platform_grade m (Dtb Cur))).
Proof.
  intros Hm [Hp _ _ _ _ _ _]. unfold platform_match, has_platform, platform_grade, property in *.
  destruct (getprop MemBase m (Dtb Cur) _ (bytes "qcom,msm-id")) as [[p|] len]; [|by eexists].
  specialize (Hp p len eq_refl). fold (full len PLAT_ID_SIZE).
  change (bool_decide (is_Some (Some p))) with true. cbn [andb]. fold (full len PLAT_ID_SIZE).
  destruct (full len PLAT_ID_SIZE) eqn:Hfull; [|by eexists].
  destruct (full_words len PLAT_ID_SIZE) as [Hlen Hn]; [unfold PLAT_ID_SIZE; lia|done|].
  unfold PLAT_ID_SIZE in *. rewrite Z.quot_div_nonneg by lia.
  destruct (platform_entries_grade m (Z.to_nat (len / 8)) p len Cur (set_match NONE_MATCH Cur))
    as (C & -> & HD & HV); [done|lia|apply Hp; lia|done|].
  by exists C.
Qed.

Lemma pmic_match_grade m Cur :
  memory_ok m -> pmics_known -> readable m (Dtb Cur) ->
  exists Cur', pmic_match MemBase m (root_of m (Dtb Cur)) Cur = Some Cur' /\ Dtb Cur' = Dtb Cur /\
    DtMatchVal Cur' = match pmic_part m (Dtb Cur) with
                      | Some v => Z.lor (DtMatchVal Cur) v | None => 0 end.
Proof.
  intros Hm Hk [_ _ _ Hp Hz _ _]. unfold pmic_match, pmic_part, pmics_per_entry, property in *.
  destruct (getprop MemBase m (Dtb Cur) _ (bytes "qcom,pmic-id")) as [[p|] len];
    [|eexists; rewrite Z.lor_0_r; done].
  specialize (Hp p len eq_refl).
  destruct (Z.leb_spec len 0) as [Hle|Hlt].
  { exists Cur. unfold full. destruct (Z.ltb_spec 0 len); [lia|]. cbn [andb]. by rewrite Z.lor_0_r. }
  destruct Hp as [Hu Hp]; [done|].
  destruct (getprop MemBase m (Dtb Cur) _ (bytes "qcom,pmic-id-size")) as [sz lsz].
  set (n := match sz with Some q => if 0 <? lsz then word m q else PMIC_IDX4 | None => PMIC_IDX4 end).
  assert (1 <= n <= 15) as Hn.
  { subst n. destruct sz as [q|]; [|unfold PMIC_IDX4; lia].
    destruct (Z.ltb_spec 0 lsz); [|unfold PMIC_IDX4; lia]. by eapply Hz. }
  assert (match sz with Some q => if 0 <? lsz then s32 <$> load32 MemBase m q else Some PMIC_IDX4
          | None => Some PMIC_IDX4 end = Some n) as ->.
  { subst n. destruct sz as [q|]; [|done]. destruct (Z.ltb_spec 0 lsz); [|done].
    destruct (Hz q lsz eq_refl) as [Hq Hw]; [done|]. rewrite load32_word by done. cbn [fmap option_fmap option_map].
    unfold s32. rewrite u32_small by (unfold in_u32; lia). by destruct (Z.ltb_spec (word m q) (2 ^ 31)); [|lia]. }
  bind_step. assert (s32 (4 * n) = 4 * n) as ->.
  { unfold s32. rewrite u32_small by (unfold in_u32; lia). by destruct (Z.ltb_spec (4 * n) (2 ^ 31)); [|lia]. }
  destruct (Z.eqb_spec (4 * n) 0); [lia|]. unfold full.
  destruct (Z.ltb_spec 0 len); [|lia]. cbn [andb].
  destruct (Z.eqb_spec (Z.rem len (4 * n)) 0) as [Hrem|]; cbn [negb]; [|by exists Cur; rewrite Z.lor_0_r].
  destruct (full_words len (4 * n)) as [Hlen Hc]; [lia|unfold full; rewrite Hrem; by destruct (Z.ltb_spec 0 len); [|lia]|].
  set (count := len / (4 * n)) in *. assert (count <= len) by nia. unfold in_u32 in Hu.
  rewrite Z.quot_div_nonneg by lia. fold count. rewrite (u32_small count) by (unfold in_u32; lia).
  unfold ReadBestPmicMatch. replace (pmic_entries MemBase m p n) with
    (pmic_entries MemBase m p (Z.of_nat (Z.to_nat n))) by (by rewrite Z2Nat.id by lia).
  destruct (pmic_entries_grade m (Z.to_nat n) (Z.to_nat count) p
    (mk_pmic_info (repeat 0 MAX_PMIC_IDX) (repeat 0 MAX_PMIC_IDX) (BIT NONE_MATCH))) as (B & -> & HB);
    [done|done|lia|by rewrite !Z2Nat.id, <- Hlen by lia|].
  bind_step. cbn [PmicMatchVal] in HB. change (BIT NONE_MATCH) with 1 in *. rewrite HB.
  case_if; [by eexists|]. eexists. split; [done|]. split; [done|]. done.
Qed.

(** What follows the comparison of the platform. *)
Lemma rest_match_value m Cur dtb :
  memory_ok m -> pmics_known -> readable m dtb -> Dtb Cur = dtb ->
  exists Cur', (let (BoardProp, LenBoardId) := getprop MemBase m dtb (root_of m dtb) (bytes "qcom,board-id") in
    r ← GetBoardMatchDtb MemBase m info Cur BoardProp LenBoardId;
    let (Status, Cur) := r : EFI_STATUS * DtInfo in
    if negb (is_success Status) then Some Cur else
    let (SoftSkuProp, LenSoftSkuId) := getprop MemBase m dtb (root_of m dtb) (bytes "qcom,softsku-id") in
    Cur ← GetSoftSkuMatchDtb MemBase m info Cur SoftSkuProp LenSoftSkuId;
    pmic_match MemBase m (root_of m dtb) Cur) = Some Cur' /\ Dtb Cur' = dtb /\
    DtMatchVal Cur' = match board_part m dtb, pmic_part m dtb with
      | None, _ => 1 | _, None => 0
      | Some b, Some p => Z.lor (Z.lor (DtMatchVal Cur) (bits (b ++ sku_part m dtb))) p end.
Proof.
  intros Hm Hk Hr HD. pose proof (readable_board m dtb Hr) as Hb. pose proof (readable_sku m dtb Hr) as Hs.
  unfold board_part, property in *.
  destruct (getprop MemBase m dtb _ (bytes "qcom,board-id")) as [prop len].
  assert (exists Status C, GetBoardMatchDtb MemBase m info Cur prop len = Some (Status, C) /\ Dtb C = dtb /\
    match match prop with
          | Some p => if full len BOARD_ID_SIZE then board_criteria (word m p) (word m (p + 4)) else Some []
          | None => Some [] end with
    | Some l => Status = EFI_SUCCESS /\ DtMatchVal C = Z.lor (DtMatchVal Cur) (bits l)
    | None => Status = EFI_NOT_FOUND /\ DtMatchVal C = 1 end) as (Status & C & -> & HC & HB).
  { assert (GetBoardMatchDtb MemBase m info Cur None len = Some (EFI_SUCCESS, Cur)) as Hnone by done.
    destruct prop as [p|]; [|exists EFI_SUCCESS, Cur; by rewrite Z.lor_0_r].
    destruct (full len BOARD_ID_SIZE) eqn:Hfull.
    - destruct (GetBoardMatchDtb_grade m Cur p len) as (St & C & -> & HC & HB); [done|done| |].
      + destruct (full_words len BOARD_ID_SIZE) as [Hlen Hc]; [unfold BOARD_ID_SIZE; lia|done|].
        unfold BOARD_ID_SIZE in *. eapply mapped_in; [apply (Hb p len eq_refl); lia|lia|lia].
      + exists St, C. split; [done|]. split; [by rewrite HC|done].
    - exists EFI_SUCCESS, Cur. unfold GetBoardMatchDtb. unfold full in Hfull. rewrite Hfull. cbn [negb].
      by rewrite Z.lor_0_r. }
  bind_step. destruct (match prop with Some _ => _ | None => _ end) as [l|]; destruct HB as [-> HB];
    [|by exists C].
  change (negb (is_success EFI_SUCCESS)) with false. cbn [negb]. unfold sku_part, property.
  destruct (getprop MemBase m dtb _ (bytes "qcom,softsku-id")) as [sprop slen].
  destruct (GetSoftSkuMatchDtb_grade m C sprop slen) as (C2 & -> & HC2 & HS).
  { intros p ->. by apply (Hs p slen). }
  bind_step. destruct (pmic_match_grade m C2) as (C3 & HP & HC3 & HV); [done|done|by rewrite HC2, HC|].
  rewrite HC2, HC in HP. rewrite HP. exists C3. split; [done|]. rewrite HC3, HV, HC2, HC. split; [done|].
  destruct (pmic_part m dtb) as [v|]; [|done]. rewrite HS, HB, bits_app, Z.lor_assoc. done.
Qed.

Lemma read_match_value m Cur :
  memory_ok m -> pmics_known -> readable m (Dtb Cur) -> 0 <= root_of m (Dtb Cur) ->
  exists Cur', read_match MemBase m info (root_of m (Dtb Cur)) Cur = Some Cur' /\ Dtb Cur' = Dtb Cur /\
    DtMatchVal Cur' = match_value m (Dtb Cur).
Proof.
  intros Hm Hk Hr H0. unfold read_match, match_value. destruct (Z.ltb_spec (root_of m (Dtb Cur)) 0); [lia|].
  destruct (platform_match_grade m Cur Hm Hr) as (C1 & -> & HD1 & HV1 & ->). bind_step.
  rewrite HV1. destruct (platform_grade m (Dtb Cur)) as [v|] eqn:Hg; cbn [default from_option id] in *.
  - rewrite bool_decide_true by eauto. cbn [andb]. unfold NONE_MATCH.
    destruct (Z.eqb_spec v 0) as [->|Hv].
    { exists C1. rewrite bool_decide_true by done. by rewrite HV1. }
    rewrite (bool_decide_false (Some v = Some 0)) by congruence.
    pose proof (rest_match_value m C1 (Dtb Cur) Hm Hk Hr HD1) as R. rewrite HV1 in R. exact R.
  - rewrite (bool_decide_false (is_Some None)) by (by intros []). cbn [andb].
    rewrite (bool_decide_false (None = Some 0)) by congruence.
    pose proof (rest_match_value m C1 (Dtb Cur) Hm Hk Hr HD1) as R. rewrite HV1 in R. exact R.
Qed.

Lemma ReadDtbFindMatch_value m Cur Best ExactMatch :
  memory_ok m -> pmics_known -> readable m (Dtb Cur) -> 0 <= ExactMatch ->
  exists Cur', ReadDtbFindMatch MemBase m info Cur Best ExactMatch =
      Some (replaces ExactMatch Best Cur', Cur', if replaces ExactMatch Best Cur' then Cur' else Best) /\
    Dtb Cur' = Dtb Cur /\ DtMatchVal Cur' = match_value m (Dtb Cur).
Proof.
  intros Hm Hk Hr HE. unfold ReadDtbFindMatch. destruct (Z.ltb_spec (root_of m (Dtb Cur)) 0) as [Hlt|Hge].
  - exists (set_match 0 Cur). unfold replaces, match_value. cbn [DtMatchVal set_match].
    rewrite Z.bits_0. cbn [andb]. by apply Z.ltb_lt in Hlt as ->.
  - destruct (read_match_value m Cur) as (C & -> & HD & HV); [done..|]. bind_step. exists C.
    split; [|done]. by destruct (replaces ExactMatch Best C).
Qed.

(** Only a device tree with the bit replaces the best one, and it is not worse. *)
Lemma replaces_spec x Best Cur :
  replaces x Best Cur = true -> Z.testbit (DtMatchVal Cur) x = true /\ DtMatchVal Best <= DtMatchVal Cur.
Proof.
  unfold replaces. intros [H1 H2]%andb_true_iff. split; [done|].
  apply orb_true_iff in H2 as [H2|[H2 _]%andb_true_iff]; bool_to_prop; lia.
Qed.
Lemma replaces_not x Best Cur :
  replaces x Best Cur = false -> Z.testbit (DtMatchVal Cur) x = true -> DtMatchVal Cur <= DtMatchVal Best.
Proof.
  unfold replaces. intros H Hx. rewrite Hx in H. cbn [andb] in H. apply orb_false_iff in H as [H1 _]. bool_to_prop. lia.
Qed.

(** ** The device trees of an image *)
Inductive dtb_chain (m : list Z) (KernelEnd : Z) : Z -> list Z -> Prop :=
| chain_end a : KernelEnd <= a + SIZEOF_fdt_header -> dtb_chain m KernelEnd a []
| chain_stop a :
    a + SIZEOF_fdt_header < KernelEnd -> valid_dtb MemBase m KernelEnd a = Some None ->
    dtb_chain m KernelEnd a []
| chain_dtb a size l :
    a + SIZEOF_fdt_header < KernelEnd -> valid_dtb MemBase m KernelEnd a = Some (Some size) ->
    dtb_chain m KernelEnd (a + size) l -> dtb_chain m KernelEnd a (a :: l).

Context {LL : LibfdtLaws LF}.

Lemma valid_dtb_spec m KernelEnd a :
  memory_ok m -> KernelEnd <= MemBase + Z.of_nat (length m) -> MemBase <= a ->
  a + SIZEOF_fdt_header < KernelEnd ->
  exists size, valid_dtb MemBase m KernelEnd a = Some size /\
    match size with Some n => 0 < n /\ a + n <= KernelEnd | None => True end.
Proof.
  intros [Hm0 Hm1] HE Ha Hlt. unfold valid_dtb, SIZEOF_fdt_header in *.
  rewrite rd_slice by lia. bind_step. set (h := slice _ _ _).
  pose proof (fdt_totalsize_u32 h) as Hs. unfold in_u32 in Hs.
  eexists. split; [done|]. case_if; [done|]. bool_to_prop.
  match goal with H : fdt_check_header_ext _ _ = 0 |- _ => rename H into Hext end.
  assert (fdt_totalsize h <> 0) as Hne.
  { intros Hz. unfold fdt_check_header_ext in Hext. rewrite Hz, Z.add_0_r in Hext.
    rewrite u64_small in Hext by apply DtbHdr_address_u64.
    rewrite (proj2 (Z.leb_le _ _) (Z.le_refl _)) in Hext. done. }
  split; [lia|]. assert (u64 (a + fdt_totalsize h) = a + fdt_totalsize h \/
    u64 (a + fdt_totalsize h) = a + fdt_totalsize h - 2 ^ 64) as [Hu|Hu].
  { destruct (Z.lt_ge_cases (a + fdt_totalsize h) (2 ^ 64)); [left; apply u64_small; split; lia|right].
    unfold u64. symmetry. apply (Z.mod_unique_pos _ _ 1); lia. }
  - lia.
  - lia.
Qed.

Lemma dtb_chain_exists m KernelEnd a :
  memory_ok m -> KernelEnd <= MemBase + Z.of_nat (length m) -> MemBase <= a ->
  exists l, dtb_chain m KernelEnd a l.
Proof.
  intros Hm HE. remember (Z.to_nat (KernelEnd - a)) as n eqn:Hn. revert a Hn.
  induction n as [n IH] using lt_wf_ind. intros a Hn Ha.
  destruct (Z.lt_ge_cases (a + SIZEOF_fdt_header) KernelEnd) as [Hlt|Hge]; [|by eexists; apply chain_end].
  destruct (valid_dtb_spec m KernelEnd a) as (size & Hv & Hs); [done..|].
  destruct size as [size|]; [|by eexists; apply chain_stop].
  unfold SIZEOF_fdt_header in Hlt.
  destruct (IH (Z.to_nat (KernelEnd - (a + size))) ltac:(lia) (a + size)) as [l Hl]; [done|lia|].
  eexists. by eapply chain_dtb.
Qed.

(** ** The search *)
Definition same_memory (s s' : dt_state) : Prop :=
  Mem s' = Mem s /\ dt_board s' = dt_board s /\ DtbIdx s' = DtbIdx s.

Lemma GetRticDtb_run m dtb s :
  memory_ok m -> Mem s = m -> readable m dtb ->
  exists b s', GetRticDtb MemBase dtb s = Some (b, s') /\ same_memory s s'.
Proof.
  intros Hm Hs Hr. pose proof (readable_rtic m dtb Hr) as H1. pose proof (readable_mpdata m dtb Hr) as H2.
  unfold GetRticDtb, property in *. run. rewrite Hs.
  assert (forall b : bool, exists b' s', Some (b, s) = Some (b', s') /\ same_memory s s') as Hret
    by (intros b; eexists _, s; done).
  case_if; [apply Hret|]. destruct (getprop MemBase m dtb _ (bytes "qcom,rtic-id")) as [[p|] len]; [|apply Hret].
  destruct (Z.ltb_spec 0 len); [|apply Hret]. cbn [andb].
  destruct (Z.eqb_spec (Z.rem len 4) 0) as [Hl|]; [|apply Hret]. run.
  destruct (full_words len 4) as [Hlen Hc]; [lia|unfold full; rewrite Hl; by destruct (Z.ltb_spec 0 len); [|lia]|].
  rewrite load32_word by (eapply mapped_in; [by apply (H1 p len)|lia|lia]). run.
  case_if; [apply Hret|]. destruct (getprop MemBase m dtb _ (bytes "MP_DATA")) as [[q|] mlen]; [|apply Hret].
  destruct (Z.leb_spec mlen 0); [apply Hret|]. case_if; [apply Hret|]. run.
  destruct (H2 q mlen) as [Hq1 Hq2]; [done..|]. rewrite rd_slice by lia. run. unfold TxMpdatatoQhee. run.
  destruct (Hyp_Call_Done s); [run; by eexists _, _|]. run.
  destruct (EFI_ERROR LocateScmProtocol); run; by eexists _, _.
Qed.

Lemma platform_grade_nonneg m dtb : 0 <= default 0 (platform_grade m dtb).
Proof.
  unfold platform_grade. destruct (property m dtb _) as [[p|] len]; [|done].
  case_if; [|done]. apply (best_ge _ 0).
Qed.
Lemma pmic_part_nonneg m dtb v : pmic_part m dtb = Some v -> 0 <= v.
Proof.
  unfold pmic_part. destruct (property m dtb _) as [[p|] len]; [|by intros [= <-]].
  destruct (full _ _); [|by intros [= <-]].
  pose proof (best_ge (pmic_grades m p (Z.to_nat (pmics_per_entry m dtb))
    (Z.to_nat (len / (4 * pmics_per_entry m dtb)))) 1). case_if; [done|]. intros [= <-]. lia.
Qed.
Lemma match_value_nonneg m dtb : 0 <= match_value m dtb.
Proof.
  unfold match_value. case_if; [done|]. case_if; [done|]. destruct (board_part m dtb); [|done].
  destruct (pmic_part m dtb) eqn:E1; [|done].
  rewrite !Z.lor_nonneg. split; [split; [apply platform_grade_nonneg|apply bits_nonneg]|by eapply pmic_part_nonneg].
Qed.

(** The best of the device trees seen so far, with its index. *)
Definition best_so_far (m : list Z) (dts : list Z) (idx0 : Z) (Best : DtInfo) (idx : Z) : Prop :=
  (Dtb Best = 0 /\ DtMatchVal Best = 0 /\ idx = idx0 /\
   forall d, d ∈ dts -> Z.testbit (match_value m d) SOC_MATCH = false) \/
  (exists i, dts !! i = Some (Dtb Best) /\ idx = s32 (Z.of_nat i) /\
   DtMatchVal Best = match_value m (Dtb Best) /\ Z.testbit (match_value m (Dtb Best)) SOC_MATCH = true /\
   forall d, d ∈ dts -> Z.testbit (match_value m d) SOC_MATCH = true ->
     match_value m d <= match_value m (Dtb Best)).

Lemma best_so_far_snoc m dts idx0 Best idx Cur :
  best_so_far m dts idx0 Best idx -> DtMatchVal Cur = match_value m (Dtb Cur) ->
  let r := replaces SOC_MATCH Best Cur in
  best_so_far m (dts ++ [Dtb Cur]) idx0 (if r then Cur else Best)
    (if r then s32 (Z.of_nat (length dts)) else idx).
Proof.
  intros H HV r. subst r. destruct (replaces SOC_MATCH Best Cur) eqn:E.
  - apply replaces_spec in E as [Hb Hle]. right. exists (length dts).
    rewrite list_lookup_middle by done. rewrite HV in Hb, Hle. split; [done|]. split; [done|]. split; [done|].
    split; [done|]. intros d [Hd|Hd%list_elem_of_singleton]%elem_of_app Hbit; [|subst; lia].
    destruct H as [(_ & _ & _ & H)|(i & _ & _ & Hm & _ & H)]; [by rewrite H in Hbit|].
    specialize (H d Hd Hbit). lia.
  - assert (Z.testbit (match_value m (Dtb Cur)) SOC_MATCH = true -> match_value m (Dtb Cur) <= DtMatchVal Best) as Hn.
    { intros Hb. rewrite <- HV in *. by eapply replaces_not. }
    destruct H as [(H1 & H2 & H3 & H)|(i & H1 & H2 & Hm & H3 & H)]; [left|right].
    + split; [done|]. split; [done|]. split; [done|].
      intros d [Hd|Hd%list_elem_of_singleton]%elem_of_app; [auto|subst d].
      apply not_true_iff_false. intros Hb. specialize (Hn Hb).
      apply testbit_le in Hb; [|apply match_value_nonneg|done]. unfold SOC_MATCH in *. lia.
    + exists i. split; [by apply lookup_app_l_Some|]. split; [done|]. split; [done|]. split; [done|].
      intros d [Hd|Hd%list_elem_of_singleton]%elem_of_app Hb; [auto|subst d]. rewrite <- Hm. auto.
Qed.

Lemma s32_succ x : s32 (s32 x + 1) = s32 (x + 1).
Proof.
  assert (u32 (s32 x + 1) = u32 (x + 1)) as E; [|unfold s32 in *; by rewrite E].
  unfold s32, u32. rewrite <- (Zplus_mod_idemp_l x). case_if; [done|].
  replace (x mod 2 ^ 32 - 2 ^ 32 + 1) with (x mod 2 ^ 32 + 1 + -1 * 2 ^ 32) by lia.
  by rewrite Z.mod_add.
Qed.

Lemma soc_step_best m dts d Cur Best idx0 s :
  memory_ok m -> pmics_known -> Mem s = m -> board_info s = info -> readable m d ->
  best_so_far m dts idx0 Best (DtbIdx s) ->
  exists Cur' Best' s',
    soc_step MemBase d (s32 (Z.of_nat (length dts))) Cur Best s = Some ((Cur', Best'), s') /\
    Mem s' = m /\ board_info s' = info /\ best_so_far m (dts ++ [d]) idx0 Best' (DtbIdx s').
Proof.
  intros Hm Hk Hs Hi Hr Hbest. unfold soc_step. run. rewrite Hs, Hi.
  destruct (ReadDtbFindMatch_value m (set_Dtb d Cur) Best SOC_MATCH) as (C & -> & HD & HV); [done..|].
  run. pose proof (best_so_far_snoc m dts idx0 Best (DtbIdx s) C Hbest) as Hnew.
  rewrite HD in Hnew. specialize (Hnew HV). cbn [Dtb set_Dtb] in *.
  set (r := replaces SOC_MATCH Best C) in *.
  set (s1 := if r then set_DtbIdx (s32 (Z.of_nat (length dts))) s else s).
  assert ((if r then modify (set_DtbIdx (s32 (Z.of_nat (length dts)))) else mret tt) s = Some (tt, s1)) as ->
    by (subst s1; by destruct r).
  assert (Mem s1 = m /\ board_info s1 = info /\
    DtbIdx s1 = if r then s32 (Z.of_nat (length dts)) else DtbIdx s) as (H1 & H2 & H3)
    by (subst s1; by destruct r).
  rewrite <- H3 in Hnew. run. destruct (negb (DtMatchVal C =? 0)).
  - destruct (_ && _); run; by eexists _, _, _.
  - destruct (GetRticDtb_run m d s1) as (b & s2 & E & (M1 & M2 & M3)); [done..|].
    run. rewrite E. run. exists C, (if r then C else Best), s2. split; [done|].
    rewrite M1, M3. unfold board_info in *. by rewrite M2.
Qed.

Lemma soc_loop_best m KernelEnd rest a :
  memory_ok m -> pmics_known -> KernelEnd <= MemBase + Z.of_nat (length m) -> MemBase <= a ->
  dtb_chain m KernelEnd a rest -> Forall (readable m) rest -> a < 2 ^ 63 + 2 ^ 32 ->
  forall fuel dn Cur Best idx0 s,
  KernelEnd - a <= Z.of_nat fuel -> Mem s = m -> board_info s = info ->
  best_so_far m dn idx0 Best (DtbIdx s) ->
  exists Best' s', soc_loop MemBase fuel KernelEnd a (s32 (Z.of_nat (length dn))) Cur Best s
      = Some (Dtb Best', s') /\ Mem s' = m /\ board_info s' = info /\
    best_so_far m (dn ++ rest) idx0 Best' (DtbIdx s').
Proof.
  intros Hm Hk HEm Ha Hchain. pose proof Hm as [Hm0 Hm1]. revert Ha.
  induction Hchain as [a Hend|a Hlt Hv|a size l Hlt Hv Hchain IH]; intros Ha Hr Hu fuel dn Cur Best idx0 s Hf Hs Hi Hb;
    (assert (u64 (a + SIZEOF_fdt_header) = a + SIZEOF_fdt_header) as Hadd
      by (apply u64_small; unfold SIZEOF_fdt_header in *; split; lia)).
  - assert (soc_loop MemBase fuel KernelEnd a (s32 (Z.of_nat (length dn))) Cur Best s = Some (Dtb Best, s)) as ->.
    { destruct fuel; cbn [soc_loop]; rewrite Hadd;
        by destruct (Z.ltb_spec (a + SIZEOF_fdt_header) KernelEnd); [lia|]. }
    rewrite app_nil_r. by exists Best, s.
  - destruct fuel as [|fuel]; [unfold SIZEOF_fdt_header in *; lia|]. cbn [soc_loop]. rewrite Hadd.
    apply Z.ltb_lt in Hlt as ->. cbn [negb]. run. rewrite Hs, Hv. run. rewrite app_nil_r. by exists Best, s.
  - inversion Hr as [|? ? Hd Hl]; subst. destruct fuel as [|fuel]; [unfold SIZEOF_fdt_header in *; lia|].
    destruct (valid_dtb_spec (Mem s) KernelEnd a) as (size' & Hv' & Hs'); [done..|].
    rewrite Hv in Hv'. injection Hv' as <-. destruct Hs' as [Hs1 Hs2].
    cbn [soc_loop]. rewrite Hadd. apply Z.ltb_lt in Hlt as ->. cbn [negb]. run. rewrite Hv. run.
    destruct (soc_step_best (Mem s) dn a Cur Best idx0 s) as (C & B & s1 & -> & M1 & M2 & M3); [done..|].
    run_cbn. rewrite s32_succ. replace (Z.of_nat (length dn) + 1) with (Z.of_nat (length (dn ++ [a])))
      by (rewrite length_app; cbn [length]; lia).
    rewrite (u64_small (a + size)) by (split; lia).
    destruct (IH ltac:(lia) Hl ltac:(lia) fuel (dn ++ [a]) C B idx0 s1) as (B' & s2 & -> & R); [lia|done..|].
    exists B', s2. split; [done|]. by rewrite <- app_assoc in R.
Qed.

(** ** A device tree that is chosen fits the board *)
Record fits (m : list Z) (dtb : Z) : Prop := mk_fits {
  fits_root : 0 <= root_of m dtb;
  (** An entry of qcom,msm-id has the chip and its foundry, or no foundry. *)
  fits_soc : exists p len i, property m dtb "qcom,msm-id" = (Some p, len) /\
    full len PLAT_ID_SIZE = true /\ 0 <= i < len / 8 /\
    let id := word m (p + 8 * i) in
    Z.land id SOC_MASK = Z.land (RawChipId info) SOC_MASK /\
    (Z.land id FOUNDRY_ID_MASK = u32 (Z.shiftl (FoundryId info) PLATFORM_FOUNDRY_SHIFT) \/
     Z.land id FOUNDRY_ID_MASK = 0);
  (** The first entry of qcom,board-id has the platform and the subtype, or none. *)
  fits_board p len : property m dtb "qcom,board-id" = (Some p, len) -> full len BOARD_ID_SIZE = true ->
    let variant_id := word m p in
    let subtype_ := if word m (p + 4) =? 0 then Z.shiftr variant_id 24 else word m (p + 4) in
    (Z.land variant_id 0xff = platform (PlatformInfo info) \/ Z.land variant_id 0xff = 0) /\
    (Z.land subtype_ 0xff = subtype (PlatformInfo info) \/ Z.land subtype_ 0xff = 0);
  (** An entry of qcom,pmic-id has the models, or none, and no newer revisions. *)
  fits_pmic p len : property m dtb "qcom,pmic-id" = (Some p, len) ->
    let n := pmics_per_entry m dtb in full len (4 * n) = true ->
    exists k, 0 <= k < len / (4 * n) /\ forall i : nat, Z.of_nat i < n ->
      let w := word m (p + 4 * n * k + 4 * Z.of_nat i) in
      (Z.land w PMIC_MODEL_MASK = pmic_model i \/ Z.land w PMIC_MODEL_MASK = 0) /\
      ((i < 4)%nat -> Z.land w PMIC_REV_MASK <= pmic_rev i)
}.

Lemma level_below x b e l n : e < n -> l < n -> 0 <= e -> 0 <= l -> Forall (fun k => 0 <= k < n) (level x b e l).
Proof. intros. unfold level. repeat case_if; repeat constructor; lia. Qed.
Lemma bits_below l n : n < 64 -> Forall (fun k => 0 <= k < n) l -> Z.testbit (bits l) n = false.
Proof.
  intros Hn Hl. rewrite bits_testbit by (weaken Hl; lia).
  induction Hl as [|x l Hx _ IH]; cbn [existsb]; [done|]. rewrite IH. destruct (Z.eqb_spec x n); [lia|done].
Qed.

Lemma board_criteria_below v t l :
  board_criteria v t = Some l -> Forall (fun k => 0 <= k < SOC_MATCH) l.
Proof.
  unfold board_criteria. destruct (_ && _); [done|]. destruct (_ && _); [done|]. intros [= <-].
  repeat first [apply Forall_app; split | apply level_below; done | apply Forall_cons; split
    | apply Forall_nil; done | done | case_if].
Qed.
Lemma pmic_criteria_below i w l :
  (i < 15)%nat -> pmic_criteria i w = Some l -> Forall (fun k => 0 <= k < PMIC_MATCH_EXACT_MODEL_IDXF) l.
Proof.
  intros Hi. unfold pmic_criteria. destruct (_ && _); [done|]. destruct (_ && _); [done|]. intros [= <-].
  unfold PMIC_MATCH_EXACT_MODEL_IDXF, PMIC_MATCH_EXACT_MODEL_IDX0, PMIC_MATCH_DEFAULT_MODEL_IDX0,
    PMIC_MATCH_EXACT_REV_IDX0, PMIC_MATCH_BEST_REV_IDX0.
  constructor; [case_if; lia|]. case_if; repeat constructor; case_if; lia.
Qed.

Lemma best_bits_below l v x :
  (forall y, Some y ∈ l -> Z.testbit y x = false) -> Z.testbit v x = false -> Z.testbit (best l v) x = false.
Proof. intros Hl Hv. destruct (best_elem l v) as [->|H]; auto. Qed.

Lemma mapM_criteria_spec m p n i ls :
  mapM (fun j : nat => pmic_criteria j (word m (p + 4 * Z.of_nat j))) (seq i n) = Some ls ->
  forall j, (i <= j < i + n)%nat -> exists l, l ∈ ls /\ pmic_criteria j (word m (p + 4 * Z.of_nat j)) = Some l.
Proof.
  intros H%mapM_Some j Hj. destruct (Forall2_lookup_l _ _ _ (j - i) j H) as (l & Hl & Hc).
  { apply lookup_seq. lia. }
  exists l. split; [by eapply list_elem_of_lookup_2|done].
Qed.
Lemma mapM_criteria_below m p n ls :
  (n <= 15)%nat ->
  mapM (fun j : nat => pmic_criteria j (word m (p + 4 * Z.of_nat j))) (seq 0 n) = Some ls ->
  Forall (fun k => 0 <= k < PMIC_MATCH_EXACT_MODEL_IDXF) (concat ls).
Proof.
  intros Hn H%mapM_Some. apply Forall_concat, Forall_lookup. intros k l Hl.
  destruct (Forall2_lookup_r _ _ _ _ _ H Hl) as (j & [-> Hj]%lookup_seq & Hc).
  eapply pmic_criteria_below; [|done]. lia.
Qed.
Lemma pmic_grade_below m p n v x :
  (n <= 15)%nat -> PMIC_MATCH_EXACT_MODEL_IDXF <= x < 64 -> pmic_grade m p n = Some v -> Z.testbit v x = false.
Proof.
  intros Hn Hx. unfold pmic_grade. destruct (mapM _ _) as [ls|] eqn:E; [|done]. intros [= <-].
  apply mapM_criteria_below in E; [|done]. apply bits_below; [lia|].
  unfold PMIC_MATCH_EXACT_MODEL_IDXF in *. weaken E. lia.
Qed.

Lemma pmics_per_entry_range m dtb : readable m dtb -> 1 <= pmics_per_entry m dtb <= 15.
Proof.
  intros Hr. pose proof (readable_pmic_size m dtb Hr) as H. unfold pmics_per_entry.
  destruct (property m dtb _) as [[p|] len]; [|unfold PMIC_IDX4; lia].
  destruct (Z.ltb_spec 0 len); [|unfold PMIC_IDX4; lia]. by eapply H.
Qed.
Lemma pmic_part_below m dtb v x :
  readable m dtb -> PMIC_MATCH_EXACT_MODEL_IDXF <= x < 64 -> pmic_part m dtb = Some v -> Z.testbit v x = false.
Proof.
  intros Hr Hx. pose proof (pmics_per_entry_range m dtb Hr) as Hn. unfold pmic_part.
  destruct (property m dtb _) as [[p|] len]; [|intros [= <-]; apply Z.bits_0].
  case_if; [|intros [= <-]; apply Z.bits_0]. case_if; [done|]. intros [= <-]. apply best_bits_below.
  - intros y (k & Hk & _)%list_elem_of_fmap. symmetry in Hk. eapply pmic_grade_below; [|done|done]. lia.
  - unfold PMIC_MATCH_EXACT_MODEL_IDXF in *. replace 1 with (2 ^ 0) by done. apply Z.pow2_bits_false. lia.
Qed.
Lemma board_part_below m dtb l : board_part m dtb = Some l -> Forall (fun k => 0 <= k < SOC_MATCH) l.
Proof.
  unfold board_part. destruct (property m dtb _) as [[p|] len]; [|by intros [= <-]].
  case_if; [apply board_criteria_below|by intros [= <-]].
Qed.
Lemma sku_part_below m dtb : Forall (fun k => 0 <= k < SOC_MATCH) (sku_part m dtb).
Proof. unfold sku_part. cbn zeta. destruct (_ =? SoftSkuId info); repeat constructor; done. Qed.

Lemma best_pmic_fits m p n count :
  best (pmic_grades m p n count) 1 <> 1 ->
  exists k : nat, (k < count)%nat /\ is_Some (pmic_grade m (p + 4 * Z.of_nat n * Z.of_nat k) n).
Proof.
  intros H. destruct (best_elem (pmic_grades m p n count) 1) as [|Hb]; [done|].
  apply list_elem_of_fmap in Hb as (k & Hk & [_ Hc]%elem_of_seq). exists k. split; [lia|]. rewrite <- Hk. eauto.
Qed.

Lemma match_value_parts m dtb :
  readable m dtb -> Z.testbit (match_value m dtb) SOC_MATCH = true ->
  exists v l q, 0 <= root_of m dtb /\ platform_grade m dtb = Some v /\ v <> 0 /\ board_part m dtb = Some l /\ pmic_part m dtb = Some q.
Proof.
  intros Hr. unfold match_value.
  destruct (Z.ltb_spec (root_of m dtb) 0); [by rewrite Z.bits_0|].
  case_bool_decide as Hz; [by rewrite Z.bits_0|].
  destruct (board_part m dtb) as [l|] eqn:Hl; [|done].
  destruct (pmic_part m dtb) as [q|] eqn:Hq; [|by rewrite Z.bits_0].
  rewrite !Z.lor_spec, (pmic_part_below m dtb q) by done.
  rewrite (bits_below (l ++ sku_part m dtb) SOC_MATCH); [|done|].
  - rewrite !orb_false_r. destruct (platform_grade m dtb) as [v|]; [|cbn [default from_option]; by rewrite Z.bits_0].
    intros _. exists v, l, q. repeat (split; [done|]). split; [congruence|done].
  - apply Forall_app. split; [by eapply board_part_below|apply sku_part_below].
Qed.

Lemma soc_grade_fits id rev v :
  soc_grade id rev = Some v ->
  Z.land id SOC_MASK = Z.land (RawChipId info) SOC_MASK /\
  (Z.land id FOUNDRY_ID_MASK = u32 (Z.shiftl (FoundryId info) PLATFORM_FOUNDRY_SHIFT) \/
   Z.land id FOUNDRY_ID_MASK = 0).
Proof.
  unfold soc_grade. destruct (Z.eqb_spec (Z.land (RawChipId info) SOC_MASK) (Z.land id SOC_MASK)); [|done].
  cbn [negb]. destruct (Z.eqb_spec (Z.land id FOUNDRY_ID_MASK) (u32 (Z.shiftl (FoundryId info) PLATFORM_FOUNDRY_SHIFT))); [by auto|].
  destruct (Z.eqb_spec (Z.land id FOUNDRY_ID_MASK) 0); by auto.
Qed.
Lemma board_criteria_fits v t l :
  board_criteria v t = Some l ->
  let subtype_ := if t =? 0 then Z.shiftr v 24 else t in
  (Z.land v 0xff = platform (PlatformInfo info) \/ Z.land v 0xff = 0) /\
  (Z.land subtype_ 0xff = subtype (PlatformInfo info) \/ Z.land subtype_ 0xff = 0).
Proof.
  unfold board_criteria, VARIANT_MASK, PLATFORM_SUBTYPE_MASK, PLATFORM_SUBTYPE_SHIFT_ID.
  set (sub := if t =? 0 then _ else _).
  destruct (Z.eqb_spec (Z.land v 0xff) (platform (PlatformInfo info))), (Z.eqb_spec (Z.land v 0xff) 0),
    (Z.eqb_spec (Z.land sub 0xff) (subtype (PlatformInfo info))), (Z.eqb_spec (Z.land sub 0xff) 0);
    cbn [negb andb]; try done; intros _; by auto.
Qed.
Lemma pmic_criteria_fits i w l :
  pmic_criteria i w = Some l ->
  (Z.land w PMIC_MODEL_MASK = pmic_model i \/ Z.land w PMIC_MODEL_MASK = 0) /\
  ((i < 4)%nat -> Z.land w PMIC_REV_MASK <= pmic_rev i).
Proof.
  unfold pmic_criteria.
  destruct (Z.eqb_spec (Z.land w PMIC_MODEL_MASK) (pmic_model i)), (Z.eqb_spec (Z.land w PMIC_MODEL_MASK) 0);
    cbn [negb andb]; try done; (case_if; [done|]); intros _; (split; [by auto|]); intros Hi;
    apply Nat.ltb_lt in Hi; rewrite Hi in *; cbn [andb] in *;
    destruct (Z.eqb_spec (Z.land w PMIC_REV_MASK) (pmic_rev i)); [lia| |lia| |lia|];
    cbn [negb andb] in *; bool_to_prop; lia.
Qed.

Lemma match_value_fits m dtb :
  readable m dtb -> Z.testbit (match_value m dtb) SOC_MATCH = true -> fits m dtb.
Proof.
  intros Hr (v & l & q & Hroot & Hv & Hv0 & Hl & Hq)%match_value_parts; [|done].
  pose proof (pmics_per_entry_range m dtb Hr) as Hn.
  split; [done|..].
  - unfold platform_grade in Hv. destruct (property m dtb _) as [[p|] len]; [|done].
    destruct (full len PLAT_ID_SIZE) eqn:Hf; [|done]. injection Hv as <-.
    destruct (best_elem (soc_grades m p (Z.to_nat (len / 8))) 0) as [|Hb]; [done|].
    apply list_elem_of_fmap in Hb as (i & Hi & [_ Hc]%elem_of_seq). symmetry in Hi.
    exists p, len, (Z.of_nat i). split; [done|]. split; [done|]. split; [lia|]. by eapply soc_grade_fits.
  - intros p len Hp Hf. unfold board_part in Hl. rewrite Hp, Hf in Hl. by eapply board_criteria_fits.
  - intros p len Hp n Hf. subst n. set (n := pmics_per_entry m dtb) in *.
    unfold pmic_part in Hq. rewrite Hp in Hq. fold n in Hq. cbn zeta in Hq. rewrite Hf in Hq.
    case_if_in Hq; [done|]. bool_to_prop. apply best_pmic_fits in E as (k & Hk & g & Hg).
    unfold pmic_grade in Hg. destruct (mapM _ _) as [ls|] eqn:HM; [|done].
    exists (Z.of_nat k). split; [lia|]. intros i Hi w. subst w.
    destruct (mapM_criteria_spec _ _ _ _ _ HM i) as (c & _ & Hc); [lia|].
    rewrite Z2Nat.id in Hc by lia. by eapply pmic_criteria_fits.
Qed.

(** The converse: what fits has the bit. *)
Lemma soc_grade_bit id rev v : soc_grade id rev = Some v -> Z.testbit v SOC_MATCH = true.
Proof.
  assert (forall l, Forall (fun k => 0 <= k < SOC_MATCH) l -> Z.testbit (bits ([SOC_MATCH] ++ l)) SOC_MATCH = true) as H.
  { intros l Hl. rewrite bits_app, Z.lor_spec, bits_testbit by (repeat constructor; done). done. }
  unfold soc_grade. case_if; [done|].
  assert (forall x, 0 <= x < SOC_MATCH -> Forall (fun k => 0 <= k < SOC_MATCH)
    (level rev (ChipVersion info) VERSION_EXACT_MATCH VERSION_BEST_MATCH ++ [x])) as HF.
  { intros x Hx. apply Forall_app. split; [by apply level_below|by apply Forall_singleton]. }
  case_if; [|case_if; [|done]]; intros [= <-]; apply H, HF; done.
Qed.
Lemma best_ge_elem l v x : Some x ∈ l -> x <= best l v.
Proof.
  revert v. induction l as [|[y|] l IH]; intros v; [by intros ?%elem_of_nil| |];
    intros [Hx|Hx]%elem_of_cons; cbn [best fold_left]; try done; try by apply IH.
  injection Hx as ->. etransitivity; [|apply best_ge]. destruct (Z.ltb_spec v y); lia.
Qed.

Lemma pmic_criteria_some i w :
  (Z.land w PMIC_MODEL_MASK = pmic_model i \/ Z.land w PMIC_MODEL_MASK = 0) ->
  ((i < 4)%nat -> Z.land w PMIC_REV_MASK <= pmic_rev i) -> is_Some (pmic_criteria i w).
Proof.
  intros Hm Hr. unfold pmic_criteria.
  destruct (Z.eqb_spec (Z.land w PMIC_MODEL_MASK) (pmic_model i)), (Z.eqb_spec (Z.land w PMIC_MODEL_MASK) 0);
    [| | |by destruct Hm]; cbn [negb andb];
    (destruct (Nat.ltb_spec i 4) as [Hi|]; cbn [andb]; [specialize (Hr Hi)|by eexists]);
    (destruct (Z.eqb_spec (Z.land w PMIC_REV_MASK) (pmic_rev i)); cbn [negb andb]; [by eexists|]);
    (destruct (Z.ltb_spec (Z.land w PMIC_REV_MASK) (pmic_rev i)); cbn [negb]; [by eexists|lia]).
Qed.
Lemma pmic_grade_some m p n :
  (1 <= n <= 15)%nat ->
  (forall i : nat, (i < n)%nat -> is_Some (pmic_criteria i (word m (p + 4 * Z.of_nat i)))) ->
  exists g, pmic_grade m p n = Some g /\ 1 < g.
Proof.
  intros Hn H. unfold pmic_grade.
  destruct (mapM (fun j : nat => pmic_criteria j (word m (p + 4 * Z.of_nat j))) (seq 0 n)) as [ls|] eqn:E.
  - eexists. split; [done|]. pose proof (mapM_criteria_below m p n ls ltac:(lia) E) as Hb.
    destruct (mapM_criteria_spec m p n 0 ls E 0) as (l & Hl & Hc); [lia|].
    unfold pmic_criteria in Hc. destruct (_ && _); [done|]. destruct (_ && _); [done|]. injection Hc as Hc.
    set (x := if _ =? pmic_model 0 then PMIC_MATCH_EXACT_MODEL_IDX0 + _ else _) in Hc.
    assert (17 <= x) as Hx by (subst x; case_if; done).
    assert (x ∈ concat ls) as Hin.
    { apply list_elem_of_In, in_concat. exists l. rewrite <- !list_elem_of_In. split; [done|]. rewrite <- Hc. left. }
    assert (0 <= x < PMIC_MATCH_EXACT_MODEL_IDXF) as Hx' by (by rewrite Forall_forall in Hb; apply Hb).
    unfold PMIC_MATCH_EXACT_MODEL_IDXF in *.
    assert (Z.testbit (bits (concat ls)) x = true) as Hbit.
    { rewrite bits_testbit by (weaken Hb; lia). apply existsb_exists. exists x.
      rewrite <- list_elem_of_In. split; [done|]. apply Z.eqb_refl. }
    apply testbit_le in Hbit; [|apply bits_nonneg|lia].
    assert (2 ^ 17 <= 2 ^ x) by (apply Z.pow_le_mono_r; lia). lia.
  - apply mapM_None, Exists_exists in E as (j & [_ Hj]%elem_of_seq & Hc).
    destruct (H j) as [l Hl]; [lia|]. congruence.
Qed.

Lemma fits_platform m dtb :
  fits m dtb -> exists v, platform_grade m dtb = Some v /\ Z.testbit v SOC_MATCH = true.
Proof.
  intros [_ (p & len & i & Hp & Hf & Hi & Hsoc & Hfo) _ _]. unfold platform_grade. rewrite Hp, Hf.
  eexists. split; [done|].
  assert (exists v, soc_grade (word m (p + 8 * i)) (word m (p + 8 * i + 4)) = Some v) as [v Hv].
  { unfold soc_grade. rewrite <- Hsoc, Z.eqb_refl. cbn [negb]. case_if; [by eexists|].
    bool_to_prop. destruct Hfo as [|Hfo]; [done|]. rewrite Hfo. by eexists. }
  assert (Some v ∈ soc_grades m p (Z.to_nat (len / 8))) as Hin.
  { apply list_elem_of_fmap. exists (Z.to_nat i). rewrite Z2Nat.id by lia. split; [done|]. apply elem_of_seq. lia. }
  destruct (best_elem (soc_grades m p (Z.to_nat (len / 8))) 0) as [Hb|Hb].
  - apply soc_grade_bit in Hv as Hbit. pose proof (best_ge_elem _ 0 v Hin) as Hle. rewrite Hb in Hle.
    assert (0 <= v). { unfold soc_grade in Hv. repeat (case_if_in Hv; try done); injection Hv as <-;
      apply (bits_nonneg ([SOC_MATCH] ++ _)). }
    apply testbit_le in Hbit; [|done|done]. unfold SOC_MATCH in Hbit. lia.
  - apply list_elem_of_fmap in Hb as (j & Hj & _). symmetry in Hj. by apply soc_grade_bit in Hj.
Qed.

Lemma fits_board_part m dtb : fits m dtb -> is_Some (board_part m dtb).
Proof.
  intros [_ _ Hb _]. unfold board_part. destruct (property m dtb _) as [[p|] len]; [|by eexists].
  destruct (full len BOARD_ID_SIZE) eqn:Hf; [|by eexists]. destruct (Hb p len) as [H1 H2]; [done..|].
  unfold board_criteria, VARIANT_MASK, PLATFORM_SUBTYPE_MASK, PLATFORM_SUBTYPE_SHIFT_ID.
  set (sub := if _ =? 0 then _ else _) in *.
  destruct (Z.eqb_spec (Z.land (word m p) 0xff) (platform (PlatformInfo info))), (Z.eqb_spec (Z.land (word m p) 0xff) 0),
    (Z.eqb_spec (Z.land sub 0xff) (subtype (PlatformInfo info))), (Z.eqb_spec (Z.land sub 0xff) 0);
    cbn [negb andb]; (by eexists) || tauto.
Qed.

Lemma fits_pmic_part m dtb : readable m dtb -> fits m dtb -> is_Some (pmic_part m dtb).
Proof.
  intros Hr [_ _ _ Hp]. pose proof (pmics_per_entry_range m dtb Hr) as Hn. unfold pmic_part.
  destruct (property m dtb _) as [[p|] len]; [|by eexists]. cbn zeta in *. set (n := pmics_per_entry m dtb) in *.
  destruct (full len (4 * n)) eqn:Hf; [|by eexists].
  destruct (Hp p len eq_refl) as (k & Hk & Hc); [done|].
  destruct (pmic_grade_some m (p + 4 * n * k) (Z.to_nat n)) as (g & Hg & Hg1); [lia| |].
  { intros i Hi. destruct (Hc i) as [Hc1 Hc2]; [lia|]. by apply pmic_criteria_some. }
  assert (g <= best (pmic_grades m p (Z.to_nat n) (Z.to_nat (len / (4 * n)))) 1) as Hle.
  { apply best_ge_elem, list_elem_of_fmap. exists (Z.to_nat k). rewrite !Z2Nat.id by lia.
    split; [done|]. apply elem_of_seq. lia. }
  case_if; [bool_to_prop; lia|by eexists].
Qed.

Lemma match_value_iff m dtb : readable m dtb -> Z.testbit (match_value m dtb) SOC_MATCH = true <-> fits m dtb.
Proof.
  intros Hr. split; [by apply match_value_fits|]. intros Hf. unfold match_value.
  destruct (Z.ltb_spec (root_of m dtb) 0); [by destruct Hf; lia|].
  destruct (fits_platform m dtb Hf) as (v & -> & Hv).
  rewrite bool_decide_false by (intros [= ->]; by rewrite Z.bits_0 in Hv).
  destruct (fits_board_part m dtb Hf) as [l ->], (fits_pmic_part m dtb Hr Hf) as [q ->].
  cbn [default from_option id]. by rewrite !Z.lor_spec, Hv.
Qed.
End grades.

Section search.
Context {FW : Firmware} {BP : BoardProtocols} {LF : Libfdt} {LL : LibfdtLaws LF}.
Variable MemBase : Z.

(** C31 The device tree for the chip.  An image with appended device trees that
    lies in memory is a finite chain of them.  If their properties can be read,
    GetSocDtb ends without a fault and leaves the memory alone: it returns NULL exactly when
    no device tree fits the board (chip and foundry, platform and subtype, models and
    revisions of the PMICs), else one that fits whose grade is the highest among those
    that fit, and notes its index. *)
Theorem GetSocDtb_best Kernel KernelSize DtbOffset s :
  memory_ok MemBase (Mem s) -> pmics_known -> in_u32 KernelSize -> 0 < DtbOffset < 2 ^ 32 ->
  mapped MemBase (Mem s) Kernel KernelSize ->
  exists dts, dtb_chain MemBase (Mem s) (Kernel + KernelSize) (Kernel + DtbOffset) dts /\
    (Forall (readable MemBase (Mem s)) dts ->
     exists r s', GetSocDtb MemBase Kernel KernelSize DtbOffset s = Some (r, s') /\ Mem s' = Mem s /\
       let value := match_value MemBase (board_info s) (Mem s) in
       let fit := fits MemBase (board_info s) (Mem s) in
       ((r = 0 /\ DtbIdx s' = DtbIdx s /\ forall d, d ∈ dts -> ~ fit d) \/
        (exists i, dts !! i = Some r /\ DtbIdx s' = s32 (Z.of_nat i) /\ fit r /\
          forall d, d ∈ dts -> fit d -> value d <= value r))).
Proof.
  intros Hm Hk HS HO HK. pose proof Hm as [Hm0 Hm1]. destruct HK as [HK1 HK2]. unfold in_u32 in HS.
  destruct (dtb_chain_exists MemBase (Mem s) (Kernel + KernelSize) (Kernel + DtbOffset)) as [dts Hc]; [done|lia|lia|].
  exists dts. split; [done|]. intros Hr. unfold GetSocDtb. destruct (Z.eqb_spec DtbOffset 0); [lia|].
  rewrite !u64_small by (split; lia). destruct (Z.ltb_spec (Kernel + DtbOffset) Kernel); [lia|].
  destruct (soc_loop_best MemBase (board_info s) (Mem s) (Kernel + KernelSize) dts (Kernel + DtbOffset) Hm Hk
    ltac:(lia) ltac:(lia) Hc Hr ltac:(lia) (Z.to_nat KernelSize) [] no_dt no_dt (DtbIdx s) s)
    as (B & s' & E & HM & HI & HB);
    [lia|done|done|left; repeat (split; [done|]); by intros d ?%elem_of_nil|].
  change (s32 (Z.of_nat (length []))) with 0 in E. cbn [app] in HB.
  exists (Dtb B), s'. split; [exact E|]. split; [done|]. cbn zeta.
  rewrite Forall_forall in Hr.
  destruct HB as [(H1 & H2 & H3 & Hn)|(i & H1 & H2 & H3 & H4 & Hn)]; [left|right].
  - repeat (split; [done|]). intros d Hd Hf. apply match_value_iff in Hf; [|by apply Hr].
    by rewrite Hn in Hf.
  - exists i. repeat (split; [done|]). split.
    + apply match_value_iff; [|done]. apply Hr. by eapply list_elem_of_lookup_2.
    + intros d Hd Hf. apply Hn; [done|]. apply match_value_iff; [by apply Hr|done].
Qed.
End search.

(** ** An image with two device trees *)
(** Device trees with two properties at fixed places. *)
Definition demo_Libfdt : Libfdt := {|
  fdt_check_header h := if nth 0 h 0 =? 0xd0 then 0 else 9;
  fdt_totalsize h := u32 (be_value (slice 4 h 4));
  fdt_off_dt_struct _ := 40; fdt_size_dt_struct _ := 16;
  fdt_off_dt_strings _ := 56; fdt_size_dt_strings _ := 8; fdt_off_mem_rsvmap _ := 40;
  fdt_path_offset _ _ := 0;
  fdt_getprop _ _ name :=
    if bool_decide (name = bytes "qcom,msm-id") then (Some 40, 8)
    else if bool_decide (name = bytes "qcom,board-id") then (Some 48, 8)
    else (None, -1);
  DtbHdr_address := 0x70000000;
  LocateScmProtocol := EFI_NOT_FOUND
|}.
Lemma demo_Libfdt_laws : LibfdtLaws demo_Libfdt.
Proof. split; [intros m; apply u32_range|done]. Qed.
Definition be32 (x : Z) : list Z := reverse (le_bytes 4 x).
Definition demo_dtb (id rev variant subtype_ : Z) : list Z :=
  be32 0xd00dfeed ++ be32 64 ++ repeat 0 32 ++ be32 id ++ be32 rev ++ be32 variant ++ be32 subtype_ ++ repeat 0 8.
Definition demo_image : list Z :=
  repeat 0 16 ++ demo_dtb 339 0x20000 0x010208 3 ++ demo_dtb 339 0x20001 0x010208 3.
Definition demo_dt_state : dt_state :=
  mk_dt_state demo_image true (-1) (-1) 0 false [] 0x80080000 0x82000000
    (mk_board None 0 (mk_board_info (mk_platform 8 0x10002 3 false) 339 (bytes "msm") 0x20001 3 0x400 0)).
Definition demo_dt_firmware : Firmware := ram_Firmware 4096 [] (fun _ => []) (fun _ => None).

Section chains.
Context {LF : Libfdt}.
Variable MemBase : Z.
Lemma dtb_chain_unique m E a l1 l2 : dtb_chain MemBase m E a l1 -> dtb_chain MemBase m E a l2 -> l1 = l2.
Proof.
  intros H1. revert l2. induction H1 as [a Ha|a Ha Hv|a size l Ha Hv H1 IH]; intros l2 H2;
    inversion H2; subst; try done; try lia; try congruence.
  f_equal. apply IH. by replace size with size0 by congruence.
Qed.
End chains.

Section demo.
#[local] Existing Instance demo_dt_firmware.
#[local] Existing Instance demo_Board.
#[local] Existing Instance demo_Libfdt.
#[local] Existing Instance demo_Libfdt_laws.

Lemma demo_pmics : pmics_known.
Proof. split; intros i _; by eexists. Qed.
Lemma demo_chain : dtb_chain 0x1000 demo_image 0x1090 0x1010 [0x1010; 0x1050].
Proof.
  apply (chain_dtb _ _ _ _ 64); [done|vm_compute; done|].
  apply (chain_dtb _ _ _ _ 64); [done|vm_compute; done|]. apply chain_end. done.
Qed.
Lemma demo_readable : Forall (readable 0x1000 demo_image) [0x1010; 0x1050].
Proof.
  rewrite !Forall_cons, Forall_nil. split_and!; [| |done]; constructor; intros p len H; vm_compute in H;
    try done; injection H as <- <-; intros _; split; vm_compute; done.
Qed.

Example demo_choice : fst <$> GetSocDtb 0x1000 0x1000 144 16 demo_dt_state = Some 0x1050.
Proof. vm_compute. done. Qed.

Lemma GetSocDtb_best_witness :
  exists r s', GetSocDtb 0x1000 0x1000 144 16 demo_dt_state = Some (r, s') /\ Mem s' = demo_image /\
    (r = 0 \/ (r ∈ [0x1010; 0x1050] /\ fits 0x1000 (board_info demo_dt_state) demo_image r)).
Proof.
  destruct (GetSocDtb_best 0x1000 0x1000 144 16 demo_dt_state) as (dts & Hc & H).
  - split; done.
  - apply demo_pmics.
  - done.
  - done.
  - split; done.
  - rewrite (dtb_chain_unique _ _ _ _ _ _ Hc demo_chain) in H.
    destruct (H demo_readable) as (r & s' & E & HM & Hr). exists r, s'. split; [exact E|]. split; [exact HM|].
    destruct Hr as [(-> & _)|(i & Hi & _ & Hf & _)]; [by left|right].
    split; [by eapply list_elem_of_lookup_2|exact Hf].
Defined.
End demo.
