(* ===== verification/DeviceTreeExact.v ===== *)
(** * Overlays are always applied.

    [GetSocDtb] clears [DtboNeed] when the match value of a device tree has every bit of
    [ALL_BITS_SET], among them that of a sixteenth PMIC.  The tables of a device tree have
    room for fifteen: whatever the image contains, no value has that bit, and a search that
    comes to its end leaves [DtboNeed] as it was. *)
From stdpp Require Import base numbers list option strings.
From Stdlib Require Import ZArith Lia Ascii.
From S2P Require Import Prelude BaseLib Unicode Storage Bytes StorageSpec Board BoardDemo DeviceTree DeviceTreeSpec.
Local Open Scope Z_scope.

Section exact.
Context {FW : Firmware} {BP : BoardProtocols} {LF : Libfdt}.
Variable MemBase : Z.
Variable info : BoardInfo.

(** The bit of the sixteenth PMIC is missing. *)
Definition inexact (v : Z) : Prop := Z.testbit v PMIC_MATCH_EXACT_MODEL_IDXF = false.
Definition inexact_dt (d : DtInfo) : Prop := inexact (DtMatchVal d).

Lemma inexact_0 : inexact 0.
Proof. done. Qed.
Lemma inexact_lor v w : inexact v -> inexact w -> inexact (Z.lor v w).
Proof. unfold inexact. intros Hv Hw. by rewrite Z.lor_spec, Hv, Hw. Qed.
Lemma inexact_BIT x : 0 <= x < 64 -> x <> PMIC_MATCH_EXACT_MODEL_IDXF -> inexact (BIT x).
Proof. intros Hx Hn. unfold inexact. rewrite BIT_testbit by done. by apply Z.eqb_neq. Qed.
Lemma inexact_add x d :
  0 <= x < 64 -> x <> PMIC_MATCH_EXACT_MODEL_IDXF -> inexact_dt d -> inexact_dt (add_match x d).
Proof. intros. by apply inexact_lor; [|apply inexact_BIT]. Qed.
Lemma inexact_at_most x b e l d :
  0 <= e < 64 -> e <> PMIC_MATCH_EXACT_MODEL_IDXF -> 0 <= l < 64 -> l <> PMIC_MATCH_EXACT_MODEL_IDXF ->
  inexact_dt d -> inexact_dt (at_most x b e l d).
Proof. intros. unfold at_most. repeat case_if; by try apply inexact_add. Qed.

Lemma CheckAllBitsSet_inexact v : inexact v -> CheckAllBitsSet v = false.
Proof.
  unfold inexact, CheckAllBitsSet. intros H. apply Z.eqb_neq. intros E.
  assert (Z.testbit (Z.land v ALL_BITS_SET) PMIC_MATCH_EXACT_MODEL_IDXF = false) as H'
    by (by rewrite Z.land_spec, H). by rewrite E in H'.
Qed.

(** ** No comparison sets the bit *)
Ltac step H :=
  match type of H with
  | (?m ≫= _) = Some _ =>
      let E := fresh "E" in destruct m eqn:E; cbn [mbind option_bind] in H; [|discriminate H]
  end.

Lemma GetPlatformMatchDtb_inexact m Cur p len n Status C :
  inexact_dt Cur -> GetPlatformMatchDtb MemBase m info Cur p len n = Some (Status, C) -> inexact_dt C.
Proof.
  intros Hc H. unfold GetPlatformMatchDtb in H. destruct p as [p|]; [|by injection H as <- <-].
  case_if_in H; [by injection H as <- <-|]. step H. case_if_in H; [by injection H as <- <-|]. step H.
  cbn [DtFoundryId set_platform] in H.
  repeat (case_if_in H); injection H as <- <-; try done;
    repeat (apply inexact_add; [done|done|]); done.
Qed.

Lemma platform_entries_inexact m n : forall p len Cur Temp C,
  inexact_dt Temp -> platform_entries MemBase m info n p len Cur Temp = Some C -> inexact_dt C.
Proof.
  induction n as [|n IH]; intros p len Cur Temp C HT H; cbn [platform_entries] in H; [by injection H as <-|].
  step H. destruct p0 as [Status D]. apply GetPlatformMatchDtb_inexact in E; [|done].
  eapply IH; [|done]. by case_if.
Qed.

Lemma GetBoardMatchDtb_inexact m Cur p len Status C :
  inexact_dt Cur -> GetBoardMatchDtb MemBase m info Cur p len = Some (Status, C) -> inexact_dt C.
Proof.
  intros Hc H. unfold GetBoardMatchDtb in H. destruct p as [p|]; [|by injection H as <- <-].
  case_if_in H; [by injection H as <- <-|]. step H. step H.
  repeat (case_if_in H); injection H as <- <-; try done;
    repeat first [apply inexact_add; [done|done|] | apply inexact_at_most; [done..|]]; done.
Qed.

Lemma GetSoftSkuMatchDtb_inexact m Cur p len C :
  inexact_dt Cur -> GetSoftSkuMatchDtb MemBase m info Cur p len = Some C -> inexact_dt C.
Proof.
  intros Hc H. unfold GetSoftSkuMatchDtb in H. step H. injection H as <-. by case_if; [apply inexact_add|].
Qed.

Lemma pmic_index_inexact m p i Cur C :
  0 <= i -> inexact (PmicMatchVal Cur) -> pmic_index MemBase m p i Cur = Some (Some C) -> inexact (PmicMatchVal C).
Proof.
  intros Hi Hc H. unfold pmic_index in H. step H.
  destruct (Z.leb_spec (Z.of_nat MAX_PMIC_IDX) i) as [|Hlt]; [done|]. unfold MAX_PMIC_IDX in Hlt.
  step H. step H.
  assert (forall x, 0 <= x <= 18 -> inexact (BIT (x + i * PMIC_SHIFT_IDX))) as Hbit.
  { intros x Hx. unfold PMIC_SHIFT_IDX. apply inexact_BIT; [lia|]. unfold PMIC_MATCH_EXACT_MODEL_IDXF. lia. }
  destruct o as [v|]; [|done].
  assert (inexact v) as Hv.
  { repeat case_if_in E1; try discriminate E1; injection E1 as <-; (apply inexact_lor; [done|]; by apply Hbit). }
  case_if_in H; [|by injection H as <-]. step H.
  repeat case_if_in H; try discriminate H; injection H as <-; cbn [PmicMatchVal]; (apply inexact_lor; [done|]; by apply Hbit).
Qed.
Lemma pmic_entry_inexact m p n : forall i Cur C,
  0 <= i -> inexact (PmicMatchVal Cur) -> pmic_entry MemBase m p n i Cur = Some (Some C) -> inexact (PmicMatchVal C).
Proof.
  induction n as [|n IH]; intros i Cur C Hi Hc H; cbn [pmic_entry] in H; [by injection H as <-|].
  step H. destruct o as [D|]; [|done]. apply pmic_index_inexact in E; [|done..]. eapply IH; [|done..]. lia.
Qed.
Lemma better_pmic_inexact n Best Cur :
  inexact (PmicMatchVal Best) -> inexact (PmicMatchVal Cur) -> inexact (PmicMatchVal (better_pmic n Best Cur)).
Proof. intros. rewrite better_pmic_grade. by case_if. Qed.
Lemma pmic_entries_inexact m M count : forall p Best C,
  inexact (PmicMatchVal Best) -> pmic_entries MemBase m p M count Best = Some C -> inexact (PmicMatchVal C).
Proof.
  induction count as [|count IH]; intros p Best C HB H; cbn [pmic_entries] in H; [by injection H as <-|].
  step H. eapply IH; [|done]. destruct o as [D|]; [|done].
  apply better_pmic_inexact; [done|]. by eapply (pmic_entry_inexact m p _ 0 no_pmic).
Qed.
Lemma pmic_match_inexact m root Cur C :
  inexact_dt Cur -> pmic_match MemBase m root Cur = Some C -> inexact_dt C.
Proof.
  intros Hc H. unfold pmic_match in H.
  destruct (getprop MemBase m (Dtb Cur) root (bytes "qcom,pmic-id")) as [[p|] len]; [|by injection H as <-].
  case_if_in H; [by injection H as <-|].
  destruct (getprop MemBase m (Dtb Cur) root (bytes "qcom,pmic-id-size")) as [sz lsz].
  step H. case_if_in H; [done|]. case_if_in H; [by injection H as <-|]. step H.
  match goal with Hp : ReadBestPmicMatch _ _ _ _ _ = Some _ |- _ => apply pmic_entries_inexact in Hp end; [|by apply (inexact_BIT NONE_MATCH)].
  case_if_in H; injection H as <-; [apply inexact_0|by apply inexact_lor].
Qed.

Lemma read_match_inexact m root Cur C : read_match MemBase m info root Cur = Some C -> inexact_dt C.
Proof.
  intros H. unfold read_match in H. step H.
  assert (inexact_dt d) as Hd.
  { unfold platform_match in E. destruct (getprop MemBase m (Dtb Cur) root (bytes "qcom,msm-id")) as [[p|] len];
      [|injection E as <-; apply inexact_0].
    case_if_in E; [|injection E as <-; apply inexact_0].
    eapply platform_entries_inexact; [|done]. apply inexact_0. }
  case_if_in H; [by injection H as <-|].
  destruct (getprop MemBase m (Dtb Cur) root (bytes "qcom,board-id")) as [bp blen]. step H.
  destruct p as [Status D].
  match goal with Hb : GetBoardMatchDtb _ _ _ _ _ _ = Some _ |- _ => apply GetBoardMatchDtb_inexact in Hb; [|done] end.
  case_if_in H; [by injection H as <-|].
  destruct (getprop MemBase m (Dtb Cur) root (bytes "qcom,softsku-id")) as [kp klen]. step H.
  match goal with Hk : GetSoftSkuMatchDtb _ _ _ _ _ _ = Some _ |- _ => apply GetSoftSkuMatchDtb_inexact in Hk; [|done] end.
  eapply pmic_match_inexact; [|exact H]. done.
Qed.
Lemma ReadDtbFindMatch_inexact m Cur Best x r :
  ReadDtbFindMatch MemBase m info Cur Best x = Some r -> inexact_dt (r.1.2).
Proof.
  intros H. unfold ReadDtbFindMatch in H. case_if_in H; [injection H as <-; apply inexact_0|].
  step H. apply read_match_inexact in E0. injection H as <-. by case_if.
Qed.
End exact.

Section search.
Context {FW : Firmware} {BP : BoardProtocols} {LF : Libfdt}.
Variable MemBase : Z.

Lemma GetRticDtb_need dtb s b s' : GetRticDtb MemBase dtb s = Some (b, s') -> DtboNeed s' = DtboNeed s.
Proof.
  unfold GetRticDtb. intros H. run_in H. case_if_in H; [by injection H as _ <-|].
  destruct (getprop MemBase (Mem s) dtb _ (bytes "qcom,rtic-id")) as [[p|] len]; [|by injection H as _ <-].
  case_if_in H; [|by injection H as _ <-]. run_in H. destruct (load32 MemBase (Mem s) p); run_in H; [|done].
  case_if_in H; [by injection H as _ <-|].
  destruct (getprop MemBase (Mem s) dtb _ (bytes "MP_DATA")) as [[q|] mlen]; [|by injection H as _ <-].
  case_if_in H; [by injection H as _ <-|]. case_if_in H; [by injection H as _ <-|]. run_in H.
  destruct (rd _ _ _); run_in H; [|done]. unfold TxMpdatatoQhee in H. run_in H.
  destruct (Hyp_Call_Done s); run_in H; [by injection H as _ <-|].
  destruct (EFI_ERROR LocateScmProtocol); run_in H; by injection H as _ <-.
Qed.

Lemma soc_step_need d n Cur Best s r s' :
  soc_step MemBase d n Cur Best s = Some (r, s') -> DtboNeed s' = DtboNeed s.
Proof.
  unfold soc_step. intros H. run_in H. destruct (ReadDtbFindMatch _ _ _ _ _ _) as [[[found C] B]|] eqn:E; [|done].
  apply ReadDtbFindMatch_inexact in E. cbn [fst snd] in E. run_in H.
  rewrite (CheckAllBitsSet_inexact (DtMatchVal C)), andb_false_r in H by done.
  destruct found; run_in H; (destruct (negb (DtMatchVal C =? 0)); run_in H; [by injection H as _ <-|]);
    (destruct (GetRticDtb MemBase d _) as [[b s2]|] eqn:E2; run_in H; [|done]);
    apply GetRticDtb_need in E2; injection H as _ <-; by rewrite E2.
Qed.

Lemma soc_loop_need fuel : forall E a n Cur Best s r s',
  soc_loop MemBase fuel E a n Cur Best s = Some (r, s') -> DtboNeed s' = DtboNeed s.
Proof.
  induction fuel as [|fuel IH]; intros E a n Cur Best s r s' H; cbn [soc_loop] in H;
    (case_if_in H; [by injection H as _ <-|]); [done|]. run_in H.
  destruct (valid_dtb MemBase (Mem s) E a) as [[size|]|]; [|by injection H as _ <-|done]. run_in H.
  destruct (soc_step MemBase a n Cur Best s) as [[[C B] s1]|] eqn:E1; [|done].
  apply soc_step_need in E1. apply IH in H. congruence.
Qed.

(** The branch "Exact DTB match found. DTBO search is not
    required" is dead code: whatever image, board and property list, a GetSocDtb that comes
    to its end without an access outside of its tables leaves DtboNeed as it was, because
    ALL_BITS_SET asks for sixteen PMICs and the tables hold fifteen. *)
Theorem GetSocDtb_overlays_needed Kernel KernelSize DtbOffset s r s' :
  GetSocDtb MemBase Kernel KernelSize DtbOffset s = Some (r, s') -> DtboNeed s' = DtboNeed s.
Proof.
  unfold GetSocDtb. intros H. case_if_in H; [by injection H as _ <-|]. case_if_in H; [by injection H as _ <-|].
  by eapply soc_loop_need.
Qed.
End search.

Lemma GetSocDtb_overlays_needed_witness :
  exists r s', @GetSocDtb demo_dt_firmware demo_Board demo_Libfdt 0x1000 0x1000 144 16 demo_dt_state = Some (r, s') /\
    DtboNeed s' = true.
Proof.
  destruct (@GetSocDtb demo_dt_firmware demo_Board demo_Libfdt 0x1000 0x1000 144 16 demo_dt_state)
    as [[r s']|] eqn:E; [|vm_compute in E; discriminate].
  exists r, s'. split; [reflexivity|].
  exact (@GetSocDtb_overlays_needed demo_dt_firmware demo_Board demo_Libfdt 0x1000 0x1000 144 16 _ _ _ E).
Defined.
