(* ===== verification/DeviceTreeList.v ===== *)
(** * The older choice of a device tree: entries in a queue.

    The rest of [Platforms/QcomModulePkg/Library/BootLib/LocateDeviceTree.c]: every
    combination of platform, board and PMIC that a device tree names is an entry, the
    entries the board can use are queued, and what fits less is deleted step by step.

    The queue of [struct dt_entry_node] is a list; a node that is deleted while the list is
    walked is left out of it, and the walk goes on behind it. *)
From stdpp Require Import base numbers list option strings.
From Stdlib Require Import ZArith Lia Ascii.
From S2P Require Import Prelude BaseLib Unicode Storage Bytes Board DeviceTree.
Local Open Scope Z_scope.

Definition PMIC_ID_SIZE : Z := 16.
Definition DT_ENTRY_V1_SIZE : Z := 0xC.
Definition SIZEOF_dt_entry : Z := 56.
Definition SIZEOF_dt_entry_node : Z := 24.
Definition SIZEOF_fdt_entry_node : Z := 24.
Definition DEV_TREE_MAGIC : Z := 0x54444351.
Definition DEV_TREE_HEADER_SIZE : Z := 12.

Record dt_entry := mk_dt_entry {
  platform_id : Z; variant_id : Z; board_hw_subtype : Z; soc_rev : Z;
  pmic_rev : list Z; offset : Z; size : Z; Idx : Z; SkuId : Z
}.

Inductive dt_entry_info :=
| DTB_FOUNDRY | DTB_DDR | DTB_SOC | DTB_MAJOR_MINOR | DTB_PMIC0 | DTB_PMIC1 | DTB_PMIC2 | DTB_PMIC3
| DTB_PMIC_MODEL | DTB_PANEL_TYPE | DTB_BOOT_DEVICE.

Section queue.
Context {FW : Firmware} {BP : BoardProtocols}.
Variable info : BoardInfo.

(** ** platform_dt_absolute_match: may the board use an entry? *)
Fixpoint pmics_at_most (revs : list Z) (i : Z) : option bool :=
  match revs with
  | [] => Some true
  | x :: revs' => t ← BoardPmicTarget i; if x <=? t then pmics_at_most revs' (i + 1) else Some false
  end.
Definition usable (e : dt_entry) : option bool :=
  if (Z.land (platform_id e) 0x0000ffff =? Z.land (RawChipId info) 0x0000ffff) &&
     (Z.land (variant_id e) 0x000000ff =? platform (PlatformInfo info)) &&
     (Z.land (board_hw_subtype e) 0xff =? subtype (PlatformInfo info)) &&
     (Z.land (board_hw_subtype e) 0x700 =? Z.land (HlosSubType info) 0x700) &&
     (SkuId e =? SoftSkuId info) &&
     (soc_rev e <=? ChipVersion info) &&
     (Z.land (variant_id e) 0x00ffff00 <=? Z.land (target_id (PlatformInfo info)) 0x00ffff00)
  then pmics_at_most (pmic_rev e) 0
  else Some false.
Definition platform_dt_absolute_match (e : dt_entry) (dt_list : list dt_entry)
  : option (bool * list dt_entry) :=
  ok ← usable e;
  if negb ok then Some (false, dt_list) else
  if negb (PoolAvailable (length dt_list) SIZEOF_dt_entry_node) ||
     negb (PoolAvailable (length dt_list) SIZEOF_dt_entry) then Some (false, dt_list) else
  Some (true, dt_list ++ [e]).

(** ** platform_dt_absolute_compat_match *)
Definition compat_value (dtb_info : dt_entry_info) (e : dt_entry) : list Z :=
  match dtb_info with
  | DTB_FOUNDRY => [Z.land (platform_id e) 0x00ff0000]
  | DTB_DDR => [Z.land (board_hw_subtype e) 0x700]
  | DTB_PMIC_MODEL => (fun x => Z.land x 0xff) <$> pmic_rev e
  | _ => []
  end.
(** What the board has, and what an entry without the number has. *)
Definition compat_board (dtb_info : dt_entry_info) : option (list Z) :=
  match dtb_info with
  | DTB_FOUNDRY => Some [u32 (Z.shiftl (FoundryId info) 16)]
  | DTB_DDR => Some [Z.land (HlosSubType info) 0x700]
  | DTB_PMIC_MODEL => mapM BoardPmicModel [0; 1; 2; 3]
  | _ => Some []
  end.
Definition compat_default (dtb_info : dt_entry_info) : list Z :=
  match dtb_info with DTB_PMIC_MODEL => [0; 0; 0; 0] | _ => [0] end.
Definition compat_supported (dtb_info : dt_entry_info) : bool :=
  match dtb_info with DTB_FOUNDRY | DTB_DDR | DTB_PMIC_MODEL => true | _ => false end.
(** The first walk stops at an entry that is as the board. *)
Fixpoint compat_best (dtb_info : dt_entry_info) (l : list dt_entry) : option (list Z) :=
  match l with
  | [] => Some (compat_default dtb_info)
  | e :: l' =>
    board ← compat_board dtb_info;
    if bool_decide (compat_value dtb_info e = board) then Some (compat_value dtb_info e)
    else compat_best dtb_info l'
  end.
Definition platform_dt_absolute_compat_match (dt_list : list dt_entry) (dtb_info : dt_entry_info)
  : option (Z * list dt_entry) :=
  if negb (compat_supported dtb_info) then Some (match dt_list with [] => 1 | _ => 0 end, dt_list) else
  best_info ← compat_best dtb_info dt_list;
  Some (1, filter (fun e => compat_value dtb_info e = best_info) dt_list).

(** ** update_dtb_entry_node *)
Definition level_value (dtb_info : dt_entry_info) (e : dt_entry) : Z :=
  match dtb_info with
  | DTB_SOC => soc_rev e
  | DTB_MAJOR_MINOR => Z.land (variant_id e) 0x00ffff00
  | DTB_PMIC0 => nth 0 (pmic_rev e) 0
  | DTB_PMIC1 => nth 1 (pmic_rev e) 0
  | DTB_PMIC2 => nth 2 (pmic_rev e) 0
  | DTB_PMIC3 => nth 3 (pmic_rev e) 0
  | _ => 0
  end.
Definition level_board (dtb_info : dt_entry_info) : option Z :=
  match dtb_info with
  | DTB_SOC => Some (ChipVersion info)
  | DTB_MAJOR_MINOR => Some (Z.land (target_id (PlatformInfo info)) 0x00ffff00)
  | DTB_PMIC0 => BoardPmicTarget 0
  | DTB_PMIC1 => BoardPmicTarget 1
  | DTB_PMIC2 => BoardPmicTarget 2
  | DTB_PMIC3 => BoardPmicTarget 3
  | _ => Some 0
  end.
Definition level_supported (dtb_info : dt_entry_info) : bool :=
  match dtb_info with
  | DTB_SOC | DTB_MAJOR_MINOR | DTB_PMIC0 | DTB_PMIC1 | DTB_PMIC2 | DTB_PMIC3 => true
  | _ => false
  end.
(** The first walk: the highest number up to that of the board; entries below the best one
    seen so far are deleted on the way. *)
Fixpoint level_scan (value : dt_entry -> Z) (board_info : Z) (l : list dt_entry) (best_info : Z)
  : Z * list dt_entry :=
  match l with
  | [] => (best_info, [])
  | e :: l' =>
    let current_info := value e in
    if current_info =? board_info then (current_info, l) else
    let best_info := if (current_info <? board_info) && (best_info <? current_info)
                     then current_info else best_info in
    let (best, kept) := level_scan value board_info l' best_info in
    (best, if current_info <? best_info then kept else e :: kept)
  end.
Definition update_dtb_entry_node (dt_list : list dt_entry) (dtb_info : dt_entry_info)
  : option (Z * list dt_entry) :=
  match dt_list with
  | [] => Some (1, [])
  | _ =>
    if negb (level_supported dtb_info) then Some (0, dt_list) else
    board_info ← level_board dtb_info;
    let (best_info, kept) := level_scan (level_value dtb_info) board_info dt_list 0 in
    Some (1, filter (fun e => level_value dtb_info e = best_info) kept)
  end.

(** ** platform_dt_match_best *)
Fixpoint compat_all (kinds : list dt_entry_info) (l : list dt_entry) : option (list dt_entry) :=
  match kinds with
  | [] => Some l
  | k :: kinds' => r ← platform_dt_absolute_compat_match l k; compat_all kinds' (snd r)
  end.
Fixpoint update_all (kinds : list dt_entry_info) (l : list dt_entry) : option (list dt_entry) :=
  match kinds with
  | [] => Some l
  | k :: kinds' => r ← update_dtb_entry_node l k; update_all kinds' (snd r)
  end.
Definition platform_dt_match_best (dt_list : list dt_entry) : option (option dt_entry) :=
  l ← compat_all [DTB_FOUNDRY; DTB_DDR; DTB_PMIC_MODEL] dt_list;
  l ← update_all [DTB_SOC; DTB_MAJOR_MINOR; DTB_PMIC0; DTB_PMIC1; DTB_PMIC2; DTB_PMIC3] l;
  Some (head l).
End queue.

(** ** The device trees behind a kernel *)
Section appended.
Context {FW : Firmware} {BL : BaseLib} {UL : UnicodeLib} {BP : BoardProtocols} {LF : Libfdt}.
Variable MemBase : Z.
(** The field [Idx] of an entry is read after the entry was freed: what the memory holds
    then, from what it held. *)
Variable freed_Idx : Z -> Z.

Definition words (m : list Z) (p stride : Z) (n : nat) : option (list Z) :=
  mapM (fun i : nat => load32 MemBase m (u64 (p + stride * Z.of_nat i))) (seq 0 n).
Definition board_entry (b : Z * Z) : Z * Z :=
  (fst b, if snd b =? 0 then Z.shiftr (fst b) 0x18 else snd b).
Definition dt_entries (plats boards : list (Z * Z)) (pmics : list (list Z)) (dtb dtb_size Count : Z)
  : list dt_entry :=
  p ← plats; b ← boards; r ← pmics;
  [mk_dt_entry (fst p) (fst b) (snd b) (snd p) r dtb dtb_size Count 0].
Fixpoint queue_entries (info : BoardInfo) (es : list dt_entry) (dt_list : list dt_entry)
  : option (list dt_entry) :=
  match es with
  | [] => Some dt_list
  | e :: es' => r ← platform_dt_absolute_match info e dt_list; queue_entries info es' (snd r)
  end.

(** The part behind the checks of the lengths: [pmic_prop] is there for version 3 only. *)
Definition add_entries (dtb dtb_size : Z) (board_prop plat_prop : Z) (pmic_prop : option Z)
    (len_board_id len_plat_id len_pmic_id : Z) (dt_list : list dt_entry) : DT (bool * list dt_entry) :=
  m ← gets Mem;
  info ← gets board_info;
  let board_data_count := Z.to_nat (len_board_id / BOARD_ID_SIZE) in
  let msm_data_count := Z.to_nat (len_plat_id / PLAT_ID_SIZE) in
  let pmic_data_count := u32 (u64 len_pmic_id / PMIC_ID_SIZE) in
  if negb (PoolAvailable 0 (8 * Z.of_nat board_data_count)) then mret (false, dt_list) else
  if negb (PoolAvailable 1 (8 * Z.of_nat msm_data_count)) then mret (false, dt_list) else
  if bool_decide (is_Some pmic_prop) && negb (PoolAvailable 2 (16 * pmic_data_count))
  then mret (false, dt_list) else
  variants ← access (words m board_prop 8 board_data_count);
  subtypes ← access (words m (board_prop + 4) 8 board_data_count);
  ids ← access (words m plat_prop 8 msm_data_count);
  revs ← access (words m (plat_prop + 4) 8 msm_data_count);
  let product := u32 (Z.of_nat msm_data_count * Z.of_nat board_data_count) in
  if negb (pmic_data_count =? 0) && (MAX_UINT64 / pmic_data_count <? product)
  then mret (false, dt_list) else
  pmics ← access (match pmic_prop with
                  | Some p => mapM (fun i : nat => words m (p + 16 * Z.of_nat i) 4 4)
                                (seq 0 (Z.to_nat pmic_data_count))
                  | None => r ← mapM BoardPmicTarget [0; 1; 2; 3]; Some [r]
                  end);
  let NumEntries := Z.of_nat msm_data_count * Z.of_nat board_data_count * Z.of_nat (length pmics) in
  if 2 ^ 64 <=? SIZEOF_dt_entry * NumEntries then crash else
  if negb (PoolAvailable 3 (SIZEOF_dt_entry * NumEntries)) then mret (false, dt_list) else
  Count ← gets DtbCount;
  _ ← modify (set_DtbCount (u32 (Count + 1)));
  dt_list ← access (queue_entries info
    (dt_entries (zip ids revs) (board_entry <$> zip variants subtypes) pmics dtb dtb_size (u32 (Count + 1)))
    dt_list);
  mret (true, dt_list).

Definition DeviceTreeCompatible (dtb dtb_size : Z) (dt_list : list dt_entry) : DT (bool * list dt_entry) :=
  m ← gets Mem;
  let root := fdt_path_offset (fdt_at MemBase m dtb) (bytes "/") in
  if root <? 0 then mret (false, dt_list) else
  let (model_prop, len) := getprop MemBase m dtb root (bytes "model") in
  if bool_decide (is_Some model_prop) && (0 <? len) && negb (PoolAvailable 4 len)
  then mret (false, dt_list) else
  let (pmic_prop, len_pmic_id) := getprop MemBase m dtb root (bytes "qcom,pmic-id") in
  let (board_prop, len_board_id) := getprop MemBase m dtb root (bytes "qcom,board-id") in
  let (plat_prop, len_plat_id) := getprop MemBase m dtb root (bytes "qcom,msm-id") in
  match board_prop with
  | Some board_prop =>
    if len_board_id <=? 0 then mret (false, dt_list) else
    let V3 := bool_decide (is_Some pmic_prop) && (0 <? len_pmic_id) in
    if (V3 && negb (len_pmic_id mod PMIC_ID_SIZE =? 0)) || negb (len_board_id mod BOARD_ID_SIZE =? 0)
    then mret (false, dt_list) else
    match plat_prop with
    | Some plat_prop =>
      if (len_plat_id <=? 0) || negb (len_plat_id mod PLAT_ID_SIZE =? 0) then mret (false, dt_list) else
      add_entries dtb dtb_size board_prop plat_prop (if V3 then pmic_prop else None)
        len_board_id len_plat_id len_pmic_id dt_list
    | None => mret (false, dt_list)
    end
  (** Version 1: no entries are made. *)
  | None => mret (false, dt_list)
  end.

Fixpoint appended_loop (fuel : nat) (kernel_end dtb : Z) (dt_list : list dt_entry) : DT (list dt_entry) :=
  if negb (u64 (dtb + SIZEOF_fdt_header) <? kernel_end) then mret dt_list else
  match fuel with
  | O => crash
  | S fuel' =>
    m ← gets Mem;
    size ← access (valid_dtb MemBase m kernel_end dtb);
    match size with
    | None => mret dt_list
    | Some dtb_size =>
      r ← DeviceTreeCompatible dtb dtb_size dt_list;
      let (ok, dt_list) := r : bool * list dt_entry in
      _ ← (if negb ok then _ ← GetRticDtb MemBase dtb; mret tt else mret tt);
      appended_loop fuel' kernel_end (u64 (dtb + dtb_size)) dt_list
    end
  end.

Definition boarding {A} (c : M board_state A) : DT A := fun s =>
  match c (dt_board s) with Some (a, b) => Some (a, set_Board b s) | None => None end.

(** The address of the copy of the best device tree, 0 for NULL. *)
Definition DeviceTreeAppended (kernel kernel_size dtb_offset tags : Z) : DT Z :=
  if negb (PoolAvailable 5 SIZEOF_dt_entry_node) then mret 0 else
  if dtb_offset =? 0 then mret 0 else
  if u64 (kernel + dtb_offset) <? kernel then mret 0 else
  let first := u64 (kernel + dtb_offset) in
  dt_list ← appended_loop (Z.to_nat kernel_size) (u64 (kernel + kernel_size)) first [];
  info ← gets board_info;
  best ← access (platform_dt_match_best info dt_list);
  match best with
  | None => mret 0
  | Some e =>
    if offset e =? 0 then mret 0 else
    r ← boarding BaseMem;
    if negb (is_success (fst r)) then mret 0 else
    ramdisk ← gets RamdiskLoadAddr;
    if ramdisk <? u64 (ramdisk - tags) then mret 0 else
    if u64 (ramdisk - tags) <? size e then mret 0 else
    m ← gets Mem;
    data ← access (rd m (offset e - MemBase) (Z.to_nat (size e)));
    m ← access (wr m (tags - MemBase) data);
    _ ← modify (set_DtbIdx (s32 (freed_Idx (Idx e))));
    m ← access (wr m (first - MemBase) [0; 0; 0; 0]);
    _ ← modify (set_Mem m);
    mret tags
  end.
End appended.

(** ** DeviceTreeValidate: 0 and the size in pages, or -1 *)
Definition dt_entry_size (version : Z) : option Z :=
  if version =? 1 then Some 20 else if version =? 2 then Some 24
  else if version =? 3 then Some SIZEOF_dt_entry else None.
Definition DeviceTreeValidate (DeviceTreeBuff : list Z) (wanted : bool) : option (Z * option Z) :=
  if negb wanted then Some (0, None) else
  magic ← field 4 DeviceTreeBuff 0;
  if negb (magic =? DEV_TREE_MAGIC) then Some (-1, None) else
  version ← field 4 DeviceTreeBuff 4;
  match dt_entry_size version with
  | None => Some (-1, None)
  | Some entry_size =>
    num_entries ← field 4 DeviceTreeBuff 8;
    let hdr_size := u64 (u64 (num_entries * entry_size) + DEV_TREE_HEADER_SIZE) in
    let pages := Z.shiftr hdr_size 12 + (if Z.land hdr_size 0xfff =? 0 then 0 else 1) in
    if MAX_UINT64 <? pages then Some (-1, None) else Some (0, Some (u32 pages))
  end.

(** ** The list of overlays: [struct fdt_entry_node] *)
Definition AppendToDtList {FW : Firmware} (DtList : list (Z * Z)) (Address Size : Z)
  : bool * list (Z * Z) :=
  if negb (PoolAvailable (length DtList) SIZEOF_fdt_entry_node) then (false, DtList)
  else (true, DtList ++ [(Address, Size)]).
Definition DeleteDtList (DtList : list (Z * Z)) : list (Z * Z) := [].
