(* ===== verification/DeviceTreeListSpec.v ===== *)
(** * The entry that is taken from the queue.

    Deleting what fits less, one criterion after the other, leaves an entry that is best in
    the order of its revisions (chip, board, PMIC 0 to 3), the first one counting most. *)
From stdpp Require Import base numbers list option strings.
From Stdlib Require Import ZArith Lia Ascii.
From S2P Require Import Prelude BaseLib Unicode Storage Bytes StorageSpec Board BoardDemo DeviceTree DeviceTreeSpec DeviceTreeList.
Local Open Scope Z_scope.

(** ** Highest values *)
Definition highest (f : dt_entry -> Z) (l : list dt_entry) (v : Z) : Z :=
  fold_right (fun e m => Z.max (f e) m) v l.
Lemma highest_ge f l v e : e ∈ l -> f e <= highest f l v.
Proof. induction 1 as [e l|e x l _ IH]; cbn [highest fold_right]; unfold highest in *; lia. Qed.
Lemma highest_base f l v : v <= highest f l v.
Proof. induction l as [|x l IH]; cbn [highest fold_right]; unfold highest in *; lia. Qed.
Lemma highest_elem f l v : highest f l v = v \/ exists e, e ∈ l /\ f e = highest f l v.
Proof.
  induction l as [|x l IH]; cbn [highest fold_right]; [by left|]. fold (highest f l v).
  destruct (Z.max_spec (f x) (highest f l v)) as [[_ ->]|[_ ->]].
  - destruct IH as [IH|(e & He & IH)]; [by left|right; exists e; split; [by right|done]].
  - right. exists x. split; [left|done].
Qed.

(** Lexicographic order. *)
Fixpoint lex_le (a b : list Z) : Prop :=
  match a, b with
  | x :: a', y :: b' => x < y \/ (x = y /\ lex_le a' b')
  | _, _ => True
  end.

Section queue.
Context {FW : Firmware} {BP : BoardProtocols}.
Variable info : BoardInfo.

(** A walk that knows the highest number so far keeps what reaches the highest of all. *)
Lemma level_scan_spec value board l : forall v,
  Forall (fun e => value e <= board) l -> v <= board ->
  fst (level_scan value board l v) = highest value l v /\
  filter (fun e => value e = highest value l v) (snd (level_scan value board l v)) =
    filter (fun e => value e = highest value l v) l.
Proof.
  induction l as [|e l IH]; intros v Hl Hv; cbn [level_scan]; [done|].
  inversion Hl as [|? ? He Hl']; subst. cbn [highest fold_right]. fold (highest value l v).
  assert (forall w, w <= board -> highest value l w <= board) as Hmax.
  { intros w Hw. destruct (highest_elem value l w) as [->|(x & Hx & <-)]; [done|].
    rewrite Forall_forall in Hl'. by apply Hl'. }
  destruct (Z.eqb_spec (value e) board) as [->|Hne]; cbn [fst snd].
  - rewrite Z.max_l by (by apply Hmax). done.
  - set (v' := if (value e <? board) && (v <? value e) then value e else v).
    assert (v' = Z.max (value e) v) as Hv'.
    { subst v'. destruct (Z.ltb_spec (value e) board), (Z.ltb_spec v (value e)); cbn [andb]; lia. }
    assert (highest value l v' = Z.max (value e) (highest value l v)) as Hh.
    { rewrite Hv'. clear. induction l as [|x l IHl]; cbn [highest fold_right]; [lia|].
      unfold highest in IHl. rewrite IHl. lia. }
    destruct (IH v' Hl') as [H1 H2]; [lia|].
    destruct (level_scan value board l v') as [b kept]. cbn [fst snd] in *. rewrite <- Hh. split; [done|].
    rewrite (filter_cons _ e l), <- H2. destruct (Z.ltb_spec (value e) v') as [Hlt|Hge].
    + rewrite decide_False; [done|]. pose proof (highest_base value l v'). lia.
    + by rewrite filter_cons.
Qed.

(** [update_dtb_entry_node] keeps the entries with the highest number. *)
Definition best_of (value : dt_entry -> Z) (l : list dt_entry) : list dt_entry :=
  filter (fun e => value e = highest value l 0) l.
Definition below_board (k : dt_entry_info) (l : list dt_entry) : Prop :=
  exists b, level_board info k = Some b /\ 0 <= b /\ Forall (fun e => 0 <= level_value k e <= b) l.

Lemma update_dtb_entry_node_spec k l :
  level_supported k = true -> below_board k l ->
  update_dtb_entry_node info l k = Some (1, best_of (level_value k) l).
Proof.
  intros Hk (b & Hb & Hb0 & Hl). unfold update_dtb_entry_node. rewrite Hk, Hb. cbn [negb]. bind_step.
  destruct (level_scan_spec (level_value k) b l 0) as [H1 H2]; [weaken Hl; lia|done|].
  destruct l as [|e l]; [done|].
  destruct (level_scan (level_value k) b (e :: l) 0) as [v kept]. cbn [fst snd] in *. subst v.
  unfold best_of. by rewrite <- H2.
Qed.

Lemma best_of_elem value l e :
  Forall (fun e => 0 <= value e) l ->
  e ∈ best_of value l <-> e ∈ l /\ forall x, x ∈ l -> value x <= value e.
Proof.
  intros H0. unfold best_of. rewrite list_elem_of_filter. split.
  - intros [Hv He]. split; [done|]. intros x Hx. rewrite Hv. by apply highest_ge.
  - intros [He Hx]. split; [|done]. destruct (highest_elem value l 0) as [Hz|(x & Hxl & Hxv)].
    + rewrite Forall_forall in H0. specialize (H0 e He). pose proof (highest_ge value l 0 e He). lia.
    + pose proof (highest_ge value l 0 e He). specialize (Hx x Hxl). lia.
Qed.
Lemma best_of_nonempty value l : Forall (fun e => 0 <= value e) l -> l <> [] -> best_of value l <> [].
Proof.
  intros H0 Hl Hn. assert (exists e, e ∈ best_of value l) as [e He]; [|by rewrite Hn in He; apply elem_of_nil in He].
  destruct (highest_elem value l 0) as [Hz|(e & He & Hv)].
  - destruct l as [|x l]; [done|]. exists x. apply best_of_elem; [done|]. split; [left|].
    intros y Hy. pose proof (highest_ge value (x :: l) 0 y Hy). rewrite Forall_forall in H0.
    assert (0 <= value x) by (apply H0; left). lia.
  - exists e. unfold best_of. by apply list_elem_of_filter.
Qed.

(** ** All criteria *)
Definition levels : list dt_entry_info := [DTB_SOC; DTB_MAJOR_MINOR; DTB_PMIC0; DTB_PMIC1; DTB_PMIC2; DTB_PMIC3].
Definition revision (ks : list dt_entry_info) (e : dt_entry) : list Z := (fun k => level_value k e) <$> ks.

Lemma best_of_subset value l e : e ∈ best_of value l -> e ∈ l.
Proof. unfold best_of. intros H. by apply list_elem_of_filter in H as [_ H]. Qed.
Lemma below_board_subset k l l' : (forall e, e ∈ l' -> e ∈ l) -> below_board k l -> below_board k l'.
Proof.
  intros Hs (b & Hb & Hb0 & Hl). exists b. split; [done|]. split; [done|].
  rewrite Forall_forall in *. auto.
Qed.

Lemma update_all_spec ks : forall l,
  Forall (fun k => level_supported k = true /\ below_board k l) ks ->
  exists l', update_all info ks l = Some l' /\ (l <> [] -> l' <> []) /\
    forall e, e ∈ l' -> e ∈ l /\ forall x, x ∈ l -> lex_le (revision ks x) (revision ks e).
Proof.
  induction ks as [|k ks IH]; intros l Hks; cbn [update_all]; [by exists l|].
  inversion Hks as [|? ? [Hk Hb] Hks']; subst. rewrite (update_dtb_entry_node_spec k l Hk Hb). bind_step.
  assert (Forall (fun e => 0 <= level_value k e) l) as H0.
  { destruct Hb as (b & _ & _ & Hl). weaken Hl. lia. }
  destruct (IH (best_of (level_value k) l)) as (l' & -> & Hne & Hl').
  { eapply Forall_impl; [exact Hks'|]. intros k' [H1 H2]. split; [done|]. eapply below_board_subset; [|done]. apply best_of_subset. }
  exists l'. split; [done|]. split; [by intros Hl; apply Hne, best_of_nonempty|].
  intros e He. destruct (Hl' e He) as [Hb' Hx]. apply best_of_elem in Hb' as [Hel Hmax]; [|done].
  split; [done|]. intros x Hxl. cbn [revision fmap list_fmap lex_le].
  destruct (Z.eq_dec (level_value k x) (level_value k e)) as [E|]; [right|left; specialize (Hmax x Hxl); lia].
  split; [done|]. apply Hx, best_of_elem; [done|]. split; [done|]. intros y Hy. rewrite E. by apply Hmax.
Qed.

(** A criterion that has to be that of the board, or, when no entry has it, none. *)
Definition wanted (k : dt_entry_info) (board : list Z) (l : list dt_entry) : list Z :=
  if bool_decide (Exists (fun e => compat_value k e = board) l) then board else compat_default k.
Definition compatible (k : dt_entry_info) (board : list Z) (l : list dt_entry) : list dt_entry :=
  filter (fun e => compat_value k e = wanted k board l) l.

Lemma compat_best_spec k board l :
  compat_board info k = Some board -> compat_best info k l = Some (wanted k board l).
Proof.
  intros Hb. unfold wanted. induction l as [|e l IH]; cbn [compat_best].
  - rewrite bool_decide_false; [done|]. by intros ?%Exists_nil.
  - rewrite Hb. bind_step. destruct (bool_decide_reflect (compat_value k e = board)) as [He|He].
    + rewrite bool_decide_true by (by left). by rewrite He.
    + rewrite IH. rewrite (bool_decide_ext (Exists (fun e => compat_value k e = board) (e :: l))
        (Exists (fun e => compat_value k e = board) l)); [done|]. rewrite Exists_cons. tauto.
Qed.
Lemma platform_dt_absolute_compat_match_spec k board l :
  compat_supported k = true -> compat_board info k = Some board ->
  platform_dt_absolute_compat_match info l k = Some (1, compatible k board l).
Proof.
  intros Hk Hb. unfold platform_dt_absolute_compat_match. rewrite Hk. cbn [negb].
  by rewrite (compat_best_spec k board l Hb).
Qed.

(** The entries that are left when foundry, DDR and PMIC models have been compared. *)
Definition candidates (models : list Z) (l : list dt_entry) : list dt_entry :=
  let l := compatible DTB_FOUNDRY [u32 (Z.shiftl (FoundryId info) 16)] l in
  let l := compatible DTB_DDR [Z.land (HlosSubType info) 0x700] l in
  compatible DTB_PMIC_MODEL models l.
Lemma compatible_subset k b l e : e ∈ compatible k b l -> e ∈ l.
Proof. unfold compatible. intros H. by apply list_elem_of_filter in H as [_ H]. Qed.
Lemma candidates_subset models l e : e ∈ candidates models l -> e ∈ l.
Proof. unfold candidates. intros H. by do 3 apply compatible_subset in H. Qed.

(** ** The entries of the queue: all of them passed [platform_dt_absolute_match] *)
Record entry_ok (e : dt_entry) : Prop := mk_entry_ok {
  entry_soc : 0 <= soc_rev e;
  entry_pmics : exists a b c d, pmic_rev e = [a; b; c; d] /\ 0 <= a /\ 0 <= b /\ 0 <= c /\ 0 <= d
}.
Lemma usable_below_board l :
  Forall (fun e => entry_ok e /\ usable info e = Some true) l -> l <> [] ->
  Forall (fun k => level_supported k = true /\ below_board k l) levels.
Proof.
  intros Hl Hne.
  assert (forall e, e ∈ l -> entry_ok e /\ soc_rev e <= ChipVersion info /\
    Z.land (variant_id e) 0x00ffff00 <= Z.land (target_id (PlatformInfo info)) 0x00ffff00 /\
    pmics_at_most (pmic_rev e) 0 = Some true) as H.
  { rewrite Forall_forall in Hl. intros e He. destruct (Hl e He) as [Hok Hu]. split; [done|].
    unfold usable in Hu. case_if_in Hu; [|done]. bool_to_prop. done. }
  assert (exists t0 t1 t2 t3, BoardPmicTarget 0 = Some t0 /\ BoardPmicTarget 1 = Some t1 /\
    BoardPmicTarget 2 = Some t2 /\ BoardPmicTarget 3 = Some t3 /\
    forall e, e ∈ l -> exists a b c d, pmic_rev e = [a; b; c; d] /\
      0 <= a <= t0 /\ 0 <= b <= t1 /\ 0 <= c <= t2 /\ 0 <= d <= t3) as (t0 & t1 & t2 & t3 & H0 & H1 & H2 & H3 & HP).
  { destruct l as [|x l]; [done|].
    assert (forall e, e ∈ x :: l -> exists t0 t1 t2 t3, BoardPmicTarget 0 = Some t0 /\ BoardPmicTarget 1 = Some t1 /\
      BoardPmicTarget 2 = Some t2 /\ BoardPmicTarget 3 = Some t3 /\ exists a b c d, pmic_rev e = [a; b; c; d] /\
      0 <= a <= t0 /\ 0 <= b <= t1 /\ 0 <= c <= t2 /\ 0 <= d <= t3) as HE.
    { intros e He. destruct (H e He) as ([_ (a & b & c & d & -> & Ha & Hb & Hc & Hd)] & _ & _ & Hp).
      cbn [pmics_at_most] in Hp. change (0 + 1) with 1 in Hp. change (1 + 1) with 2 in Hp. change (2 + 1) with 3 in Hp.
      destruct (BoardPmicTarget 0) as [t0|]; [|done]. cbn [mbind option_bind] in Hp. case_if_in Hp; [|done].
      destruct (BoardPmicTarget 1) as [t1|]; [|done]. cbn [mbind option_bind] in Hp. case_if_in Hp; [|done].
      destruct (BoardPmicTarget 2) as [t2|]; [|done]. cbn [mbind option_bind] in Hp. case_if_in Hp; [|done].
      destruct (BoardPmicTarget 3) as [t3|]; [|done]. cbn [mbind option_bind] in Hp. case_if_in Hp; [|done].
      bool_to_prop. exists t0, t1, t2, t3. repeat (split; [done|]). by exists a, b, c, d. }
    destruct (HE x) as (t0 & t1 & t2 & t3 & E0 & E1 & E2 & E3 & _); [left|].
    exists t0, t1, t2, t3. repeat (split; [done|]). intros e He.
    destruct (HE e He) as (u0 & u1 & u2 & u3 & F0 & F1 & F2 & F3 & R). by simplify_eq. }
  destruct l as [|x l]; [done|].
  assert (forall k f b, level_board info k = Some b -> (forall e, e ∈ x :: l -> level_value k e = f e /\ 0 <= f e <= b) ->
    below_board k (x :: l)) as Hbelow.
  { intros k f b Hb Hf. exists b. split; [done|]. split; [destruct (Hf x); [left|lia]|].
    apply Forall_forall. intros e He. destruct (Hf e He) as [-> ?]. done. }
  repeat constructor; (eapply Hbelow; [done|]); intros e He; (split; [reflexivity|]); cbn [level_value].
  - destruct (H e He) as ([] & ? & _). done.
  - destruct (H e He) as (_ & _ & ? & _). split; [|done]. apply Z.land_nonneg. by right.
  - destruct (HP e He) as (a & b & c & d & -> & ? & ? & ? & ?). done.
  - destruct (HP e He) as (a & b & c & d & -> & ? & ? & ? & ?). done.
  - destruct (HP e He) as (a & b & c & d & -> & ? & ? & ? & ?). done.
  - destruct (HP e He) as (a & b & c & d & -> & ? & ? & ? & ?). done.
Qed.

(** Only usable entries get into the queue. *)
Lemma queue_entries_usable es : forall l l',
  Forall entry_ok es -> Forall (fun e => entry_ok e /\ usable info e = Some true) l ->
  queue_entries info es l = Some l' -> Forall (fun e => entry_ok e /\ usable info e = Some true) l'.
Proof.
  induction es as [|e es IH]; intros l l' Hes Hl H; cbn [queue_entries] in H; [by injection H as <-|].
  inversion Hes as [|? ? He Hes']; subst. unfold platform_dt_absolute_match in H.
  destruct (usable info e) as [[]|] eqn:Hu; cbn [mbind option_bind negb] in H; [| |done].
  - case_if_in H; cbn [mbind option_bind snd] in H; (eapply IH; [done| |done]); [done|].
    apply Forall_app. by split; [|apply Forall_singleton].
  - cbn [mbind option_bind snd] in H. by eapply IH.
Qed.

Lemma match_best_choice models l :
  mapM BoardPmicModel [0; 1; 2; 3] = Some models ->
  Forall (fun e => entry_ok e /\ usable info e = Some true) l ->
  exists r, platform_dt_match_best info l = Some r /\
    match r with
    | None => candidates models l = []
    | Some e => e ∈ candidates models l /\
        forall x, x ∈ candidates models l -> lex_le (revision levels x) (revision levels e)
    end.
Proof.
  intros Hm Hl. unfold platform_dt_match_best. cbn [compat_all].
  rewrite (platform_dt_absolute_compat_match_spec DTB_FOUNDRY [u32 (Z.shiftl (FoundryId info) 16)]) by done.
  bind_step. rewrite (platform_dt_absolute_compat_match_spec DTB_DDR [Z.land (HlosSubType info) 0x700]) by done.
  bind_step. rewrite (platform_dt_absolute_compat_match_spec DTB_PMIC_MODEL models) by done. bind_step.
  fold (candidates models l). pose proof (candidates_subset models l) as Hsub.
  set (c := candidates models l) in *. fold levels.
  destruct (decide (c = [])) as [->|Hne]; [by exists None|].
  assert (Forall (fun e => entry_ok e /\ usable info e = Some true) c) as Hc.
  { rewrite Forall_forall in *. auto. }
  destruct (update_all_spec levels c) as (l' & -> & Hl' & Hbest); [by apply usable_below_board|].
  bind_step. exists (head l'). split; [done|]. destruct l' as [|e l']; [by destruct Hl'|].
  apply Hbest. left.
Qed.

(** The entries of a device tree have no SKU: none of them is queued on a board that has. *)
Lemma soft_sku_unmatched plats boards pmics dtb n Count l l' :
  SoftSkuId info <> 0 -> queue_entries info (dt_entries plats boards pmics dtb n Count) l = Some l' -> l' = l.
Proof.
  intros Hsku. assert (Forall (fun e => SkuId e = 0) (dt_entries plats boards pmics dtb n Count)) as Hes.
  { apply Forall_forall. intros e (p & He & _)%list_elem_of_bind. apply list_elem_of_bind in He as (b & He & _).
    apply list_elem_of_bind in He as (r & He & _). apply list_elem_of_singleton in He. by subst e. }
  revert l. induction Hes as [|e es He _ IH]; intros l H; cbn [queue_entries] in H; [by injection H|].
  unfold platform_dt_absolute_match, usable in H.
  destruct (Z.eqb_spec (SkuId e) (SoftSkuId info)); [congruence|]. rewrite andb_false_r in H. cbn [andb mbind option_bind negb snd] in H. by apply IH.
Qed.

(** C32 The queue.  Of the entries that device trees name those
    the board may use are queued; [platform_dt_match_best] never reads outside of them and
    takes one that has the foundry, the DDR size and the PMIC models of the board (or none,
    when no entry has them), with the highest revisions of chip, board and PMICs, compared
    in this order.  It finds nothing exactly when there is no such entry. *)
Theorem platform_dt_match_best_choice es l models :
  Forall entry_ok es -> queue_entries info es [] = Some l ->
  mapM BoardPmicModel [0; 1; 2; 3] = Some models ->
  exists r, platform_dt_match_best info l = Some r /\
    match r with
    | None => candidates models l = []
    | Some e => e ∈ candidates models l /\ usable info e = Some true /\
        forall x, x ∈ candidates models l -> lex_le (revision levels x) (revision levels e)
    end.
Proof.
  intros Hes Hq Hm. apply queue_entries_usable in Hq; [|done|by constructor].
  destruct (match_best_choice models l Hm Hq) as (r & Hr & H). exists r. split; [done|].
  destruct r as [e|]; [|done]. destruct H as [He H]. split; [done|]. split; [|done].
  rewrite Forall_forall in Hq. by apply Hq, (candidates_subset models).
Qed.
End queue.

(** A board and three entries for it. *)
Definition demo_info : BoardInfo :=
  mk_board_info (mk_platform 8 0x10002 3 false) 339 (bytes "msm") 0x20001 3 0x400 0.
Definition demo_entry (rev pmic0 dtb : Z) : dt_entry :=
  mk_dt_entry 339 8 0x403 rev [pmic0; 0x1e; 0x1e; 0x1e] dtb 64 1 0.
Lemma platform_dt_match_best_choice_witness :
  exists r, @platform_dt_match_best demo_Board demo_info
      [demo_entry 0x20000 0x2001e 1; demo_entry 0x20001 0x1001e 2; demo_entry 0x20001 0x2001e 3] = Some r /\
    match r with
    | None => False
    | Some e => offset e = 3
    end.
Proof.
  destruct (@platform_dt_match_best_choice demo_dt_firmware demo_Board demo_info
    [demo_entry 0x20000 0x2001e 1; demo_entry 0x20001 0x1001e 2; demo_entry 0x20001 0x2001e 3]
    [demo_entry 0x20000 0x2001e 1; demo_entry 0x20001 0x1001e 2; demo_entry 0x20001 0x2001e 3]
    [0x1e; 0x1e; 0x1e; 0x1e]) as (r & E & _).
  - repeat constructor; try done; (by exists 0x2001e, 0x1e, 0x1e, 0x1e) || by exists 0x1001e, 0x1e, 0x1e, 0x1e.
  - reflexivity.
  - reflexivity.
  - exists r. split; [exact E|]. vm_compute in E. by injection E as <-.
Defined.
