(* ===== verification/BootImage.v ===== *)
(** * Android boot images: the headers and the checks before a boot.

    [Platforms/QcomModulePkg/Include/Library/BootImage.h], the functions of
    [Library/BootLib/BootLinux.c] that look at an image before it is used
    ([CheckImageHeader], [LoadImageHeader], [LoadImage], [GetImage]), and the checks of
    an overlay image in [Library/BootLib/PartitionTableUpdate.c]
    ([GetRecoveryDtboInfo], [LoadAndValidateDtboImg]).

    An image is the bytes of its buffer; an access outside of it is a fault. *)
From stdpp Require Import base numbers list option strings.
From Stdlib Require Import ZArith Lia.
From S2P Require Import Prelude BaseLib Unicode Storage Bytes Partitions Slots Board DeviceTree.
Local Open Scope Z_scope.

(** ** BootImage.h.  The structures are packed: a field is its offset *)
Definition BOOT_MAGIC : list Z := bytes "ANDROID!".
Definition BOOT_MAGIC_SIZE : nat := 8.
Definition VENDOR_BOOT_MAGIC : list Z := bytes "VNDRBOOT".
Definition VENDOR_BOOT_MAGIC_SIZE : nat := 8.
Definition BOOT_ARGS_SIZE : nat := 512.
Definition BOOT_EXTRA_ARGS_SIZE : nat := 1024.
Definition VENDOR_BOOT_ARGS_SIZE : nat := 2048.
Definition KERNEL64_HDR_MAGIC : Z := 0x644D5241.
Definition BOOT_HEADER_VERSION_ZERO : Z := 0.
Definition BOOT_HEADER_VERSION_ONE : Z := 1.
Definition BOOT_HEADER_VERSION_TWO : Z := 2.
Definition BOOT_HEADER_VERSION_THREE : Z := 3.

Section fields.
Variable h : list Z.
(** [boot_img_hdr], of 1632 bytes. *)
Definition hdr_kernel_size : option Z := field 4 h 8.
Definition hdr_ramdisk_size : option Z := field 4 h 16.
Definition hdr_second_size : option Z := field 4 h 24.
Definition hdr_page_size : option Z := field 4 h 36.
Definition hdr_header_version : option Z := field 4 h 40.
Definition OFFSET_cmdline : Z := 64.
Definition SIZEOF_boot_img_hdr : Z := 1632.
Definition BOOT_IMAGE_HEADER_V1_RECOVERY_DTBO_SIZE_OFFSET : Z := SIZEOF_boot_img_hdr.
(** [boot_img_hdr_v1] and [boot_img_hdr_v2], which follow it. *)
Definition SIZEOF_boot_img_hdr_v1 : Z := 16.
Definition v1_recovery_dtbo_size : option Z := field 4 h BOOT_IMAGE_HEADER_V1_RECOVERY_DTBO_SIZE_OFFSET.
Definition v1_recovery_dtbo_offset : option Z :=
  field 8 h (BOOT_IMAGE_HEADER_V1_RECOVERY_DTBO_SIZE_OFFSET + 4).
Definition v1_header_size : option Z := field 4 h (BOOT_IMAGE_HEADER_V1_RECOVERY_DTBO_SIZE_OFFSET + 12).
Definition BOOT_IMAGE_HEADER_V2_OFFSET : Z := SIZEOF_boot_img_hdr_v1.
Definition SIZEOF_boot_img_hdr_v2 : Z := 12.
Definition v2_dtb_size : option Z :=
  field 4 h (BOOT_IMAGE_HEADER_V1_RECOVERY_DTBO_SIZE_OFFSET + BOOT_IMAGE_HEADER_V2_OFFSET).
(** [boot_img_hdr_v3]. *)
Definition v3_kernel_size : option Z := field 4 h 8.
Definition v3_ramdisk_size : option Z := field 4 h 12.
Definition OFFSET_v3_cmdline : Z := 44.
(** [vendor_boot_img_hdr_v3]. *)
Definition vendor_page_size : option Z := field 4 h 12.
Definition vendor_ramdisk_size : option Z := field 4 h 24.
Definition OFFSET_vendor_cmdline : Z := 28.
Definition vendor_dtb_size : option Z := field 4 h 2100.
(** [kernel64_hdr]. *)
Definition SIZEOF_kernel64_hdr : Z := 64.
End fields.

(** ** Macros of BootLinux.h.  [x] and [y] are 32-bit numbers *)
Definition ROUND_TO_PAGE (x y : Z) : Z := Z.ldiff (ADD_OF x y) y.
Definition LOCAL_ROUND_TO_PAGE (x y : Z) : Z := Z.ldiff (u32 (x + u32 (y - 1))) (u32 (y - 1)).
Definition ALIGNMENT_MASK_4KB : Z := 4096.
Definition DTBO_TABLE_MAGIC : Z := 0xD7B7AB1E.
Definition DTBO_MAX_SIZE_ALLOWED : Z := 24 * 1024 * 1024.
Definition SIZEOF_DtboTableHdr : Z := 32.
Definition SIZEOF_DtboTableEntry : Z := 32.

(** A size above 0 whose rounding gives 0 is too large. *)
Definition round_error (size actual : Z) : bool := negb (size =? 0) && (actual =? 0).

(** ** CheckImageHeader *)
(** The sizes that the headers name: kernel, ramdisk, page and device tree, or the
    status of a header that is refused, with the page size if it was read. *)
Record header_sizes := mk_sizes {
  hs_kernel : Z; hs_ramdisk : Z; hs_page : Z; hs_dt : Z
}.
Definition read_sizes (hdr : list Z) (vendor : list Z) (HeaderVersion PageSize : Z)
  : option (EFI_STATUS * Z * header_sizes) :=
  if HeaderVersion <? BOOT_HEADER_VERSION_THREE then
    KernelSize ← hdr_kernel_size hdr;
    RamdiskSize ← hdr_ramdisk_size hdr;
    _ ← hdr_second_size hdr;
    PageSize ← hdr_page_size hdr;
    Some (EFI_SUCCESS, PageSize, mk_sizes KernelSize RamdiskSize PageSize 0)
  else
    magic ← rd vendor 0 VENDOR_BOOT_MAGIC_SIZE;
    if negb (bool_decide (magic = VENDOR_BOOT_MAGIC)) then Some (EFI_NO_MEDIA, PageSize, mk_sizes 0 0 0 0) else
    KernelSize ← v3_kernel_size hdr;
    RamdiskSize ← v3_ramdisk_size hdr;
    VendorRamdiskSize ← vendor_ramdisk_size vendor;
    PageSize ← vendor_page_size vendor;
    DtSize ← vendor_dtb_size vendor;
    let sizes := mk_sizes KernelSize RamdiskSize PageSize DtSize in
    if BOOT_IMG_MAX_PAGE_SIZE <? PageSize then Some (EFI_BAD_BUFFER_SIZE, PageSize, sizes) else
    if round_error VendorRamdiskSize (ROUND_TO_PAGE VendorRamdiskSize (u32 (PageSize - 1)))
    then Some (EFI_BAD_BUFFER_SIZE, PageSize, sizes) else
    Some (EFI_SUCCESS, PageSize, sizes).

(** The overlays for recovery at the end of the image. *)
Definition recovery_dtbo (hdr : list Z) (HeaderVersion PageSize ImageSizeActual : Z)
  : option (EFI_STATUS * Z) :=
  header_size ← v1_header_size hdr;
  let wanted :=
    if HeaderVersion =? BOOT_HEADER_VERSION_ONE then SIZEOF_boot_img_hdr_v1 + SIZEOF_boot_img_hdr
    else BOOT_IMAGE_HEADER_V1_RECOVERY_DTBO_SIZE_OFFSET + BOOT_IMAGE_HEADER_V2_OFFSET + SIZEOF_boot_img_hdr_v2 in
  if negb (header_size =? wanted) then Some (EFI_BAD_BUFFER_SIZE, ImageSizeActual) else
  size ← v1_recovery_dtbo_size hdr;
  offset ← v1_recovery_dtbo_offset hdr;
  let RecoveryDtboActual := ROUND_TO_PAGE size (u32 (PageSize - 1)) in
  if DTBO_MAX_SIZE_ALLOWED <? RecoveryDtboActual then Some (EFI_BAD_BUFFER_SIZE, ImageSizeActual) else
  if CHECK_ADD64 offset RecoveryDtboActual then Some (EFI_BAD_BUFFER_SIZE, ImageSizeActual) else
  let ImageSizeActual := ADD_OF ImageSizeActual RecoveryDtboActual in
  if ImageSizeActual =? 0 then Some (EFI_BAD_BUFFER_SIZE, 0) else Some (EFI_SUCCESS, ImageSizeActual).

(** The sum of the parts: header page, kernel, ramdisk and device tree. *)
Definition image_size (hdr : list Z) (HeaderVersion : Z) (s : header_sizes) (ImageSizeActual : Z)
  : option (EFI_STATUS * Z) :=
  let mask := u32 (hs_page s - 1) in
  let KernelSizeActual := ROUND_TO_PAGE (hs_kernel s) mask in
  if KernelSizeActual =? 0 then Some (EFI_BAD_BUFFER_SIZE, ImageSizeActual) else
  let RamdiskSizeActual := ROUND_TO_PAGE (hs_ramdisk s) mask in
  if round_error (hs_ramdisk s) RamdiskSizeActual then Some (EFI_BAD_BUFFER_SIZE, ImageSizeActual) else
  DtSize ← (if HeaderVersion =? BOOT_HEADER_VERSION_TWO then v2_dtb_size hdr else Some (hs_dt s));
  let DtSizeActual := if BOOT_HEADER_VERSION_TWO <=? HeaderVersion then ROUND_TO_PAGE DtSize mask else 0 in
  if (BOOT_HEADER_VERSION_TWO <=? HeaderVersion) && round_error DtSize DtSizeActual
  then Some (EFI_BAD_BUFFER_SIZE, ImageSizeActual) else
  let ImageSizeActual := ADD_OF (hs_page s) KernelSizeActual in
  if ImageSizeActual =? 0 then Some (EFI_BAD_BUFFER_SIZE, 0) else
  let ImageSizeActual := ADD_OF ImageSizeActual RamdiskSizeActual in
  if ImageSizeActual =? 0 then Some (EFI_BAD_BUFFER_SIZE, 0) else
  if HeaderVersion <? BOOT_HEADER_VERSION_THREE then
    let ImageSizeActual := ADD_OF ImageSizeActual DtSizeActual in
    Some (if ImageSizeActual =? 0 then (EFI_BAD_BUFFER_SIZE, 0) else (EFI_SUCCESS, ImageSizeActual))
  else Some (EFI_SUCCESS, ImageSizeActual).

(** Status and the two sizes, which keep their values where the function leaves them. *)
Definition CheckImageHeader (hdr : list Z) (ImageHdrSize : Z) (vendor : list Z)
    (ImageSizeActual PageSize : Z) (BootIntoRecovery : bool) : option (EFI_STATUS * Z * Z) :=
  magic ← rd hdr 0 BOOT_MAGIC_SIZE;
  if negb (bool_decide (magic = BOOT_MAGIC)) then Some (EFI_NO_MEDIA, ImageSizeActual, PageSize) else
  HeaderVersion ← hdr_header_version hdr;
  '(Status, PageSize, s) ← read_sizes hdr vendor HeaderVersion PageSize;
  if negb (is_success Status) then Some (Status, ImageSizeActual, PageSize) else
  if (hs_kernel s =? 0) || (PageSize =? 0) then Some (EFI_BAD_BUFFER_SIZE, ImageSizeActual, PageSize) else
  if negb (PageSize =? ImageHdrSize) && (BOOT_IMG_MAX_PAGE_SIZE <? PageSize)
  then Some (EFI_BAD_BUFFER_SIZE, ImageSizeActual, PageSize) else
  '(Status, ImageSizeActual) ← image_size hdr HeaderVersion s ImageSizeActual;
  if negb (is_success Status) then Some (Status, ImageSizeActual, PageSize) else
  if (BootIntoRecovery && (BOOT_HEADER_VERSION_ZERO <? HeaderVersion)) &&
     (HeaderVersion <? BOOT_HEADER_VERSION_THREE) then
    '(Status, ImageSizeActual) ← recovery_dtbo hdr HeaderVersion PageSize ImageSizeActual;
    Some (Status, ImageSizeActual, PageSize)
  else Some (EFI_SUCCESS, ImageSizeActual, PageSize).

(** ** Loading images *)
(** GetBlkIOHandles for a partition label: status and handles, of which there may be
    fewer than asked for. *)
Class LabelledPartitions := {
  GetBlkIOHandlesByLabel : Z -> list Z -> nat -> EFI_STATUS * list HandleInfo
}.
Definition BLK_IO_SEL_PARTITIONED_MBR : Z := 0x8.
Definition BLK_IO_SEL_MATCH_PARTITION_LABEL : Z := 0x200.

(** A name, the address of the buffer and the size. *)
Record ImageData := mk_image { ImageName : list Z; ImageAddress : Z; ImageDataSize : Z }.
(** The fields of [BootInfo] that the boot path reads. *)
Record LinuxBootInfo := mk_boot_info {
  MultiSlotBoot : bool; BootRecovery : bool; BootReasonAlarm : bool; Pname : list Z;
  Images : list ImageData; VBCmdLine : option (list Z); HeaderVersion : Z
}.

Section loading.
Context {FW : Firmware} {BL : BaseLib} {UL : UnicodeLib} {LP : LabelledPartitions}.

(** The bytes read, when there are any; [BlockSize] is not 0. *)
Definition LoadImageFromPartition (ImageSize : Z) (Name : list Z) : B (EFI_STATUS * list Z) :=
  let BlkIOAttrib :=
    Z.lor (Z.lor (Z.lor BLK_IO_SEL_PARTITIONED_MBR BLK_IO_SEL_PARTITIONED_GPT)
      BLK_IO_SEL_MEDIA_TYPE_NON_REMOVABLE) BLK_IO_SEL_MATCH_PARTITION_LABEL in
  let (Status, HandleInfoList) := GetBlkIOHandlesByLabel BlkIOAttrib Name 1 in
  if negb (is_success Status) then mret (Status, []) else
  match HandleInfoList with
  | [] => mret (EFI_NO_MEDIA, [])
  | [h] =>
    blk ← access (BlkIo h);
    l ← gets log;
    mret (ReadBlocks l (This blk) 0 (ROUND_TO_PAGE ImageSize (u32 (BlockSize blk - 1))))
  | _ => mret (EFI_LOAD_ERROR, [])
  end.

Definition ALIGN_PAGES (x y : Z) : Z := u32 (x + (y - 1)) / y.
(** [!ADD_OF (x, ALIGNMENT_MASK_4KB - 1)] as the macro expands: the negation belongs to
    the comparison, and the mask is subtracted without parentheses. *)
Definition not_add_of_4KB (x : Z) : bool :=
  if negb (x <? MAX_UINT32 - ALIGNMENT_MASK_4KB - 1)
  then negb (u32 (x + (ALIGNMENT_MASK_4KB - 1)) =? 0) else false.

(** Status, buffer and size of the header; the buffer holds what was read. *)
Definition LoadImageHeader (Name : list Z) : B (EFI_STATUS * option (list Z) * Z) :=
  if not_add_of_4KB BOOT_IMG_MAX_PAGE_SIZE then mret (EFI_BAD_BUFFER_SIZE, None, 0) else
  if negb (PoolAvailable 0 (ALIGN_PAGES BOOT_IMG_MAX_PAGE_SIZE ALIGNMENT_MASK_4KB * EFI_PAGE_SIZE))
  then mret (EFI_BAD_BUFFER_SIZE, None, 0) else
  r ← LoadImageFromPartition BOOT_IMG_MAX_PAGE_SIZE Name;
  mret (fst r, Some (snd r), BOOT_IMG_MAX_PAGE_SIZE).

Definition LoadImage (Name : list Z) (ImageSizeActual PageSize : Z) : B (EFI_STATUS * option (list Z)) :=
  let ImageSize := ADD_OF (ROUND_TO_PAGE ImageSizeActual (u32 (PageSize - 1))) PageSize in
  if ImageSize =? 0 then mret (EFI_BAD_BUFFER_SIZE, None) else
  if not_add_of_4KB ImageSize then mret (EFI_BAD_BUFFER_SIZE, None) else
  if negb (PoolAvailable 0 (ALIGN_PAGES ImageSize ALIGNMENT_MASK_4KB * EFI_PAGE_SIZE))
  then mret (EFI_OUT_OF_RESOURCES, None) else
  r ← LoadImageFromPartition ImageSize Name;
  mret (fst r, Some (snd r)).

(** The first loaded image whose name starts with [Name]. *)
Fixpoint image_named (Name : list Z) (l : list ImageData) : option ImageData :=
  match l with
  | [] => None
  | i :: l' => if AsciiStrnCmp (ImageName i) Name (AsciiStrLen Name) =? 0 then Some i else image_named Name l'
  end.
Definition GetImage (Info : LinuxBootInfo) (Name : list Z) : EFI_STATUS * option ImageData :=
  match image_named Name (Images Info) with Some i => (EFI_SUCCESS, Some i) | None => (EFI_NOT_FOUND, None) end.
End loading.
