(* ===== verification/BootImageSpec.v ===== *)
(** * What an accepted boot image looks like.

    [CheckImageHeader] adds up the parts of an image with checks against an overflow of
    32 bits.  Here is the same sum without the checks, over the list of the parts, and
    the proof that an image is accepted exactly when its parts are fine and fit. *)
From stdpp Require Import base numbers list option strings.
From Stdlib Require Import ZArith Lia.
From S2P Require Import Prelude BaseLib Unicode Storage Bytes Partitions Slots Board DeviceTree BootImage.
Local Open Scope Z_scope.

(** A size rounded to pages of [p] bytes. *)
Definition up (p x : Z) : Z := Z.ldiff (x + (p - 1)) (p - 1).

(** Clearing bits: what is left and what is cleared. *)
Lemma ldiff_land a m : Z.ldiff a m = a - Z.land a m.
Proof.
  rewrite (Z.sub_nocarry_ldiff a (Z.land a m)); apply Z.bits_inj'; intros n Hn;
    rewrite ?Z.bits_0, ?Z.ldiff_spec, ?Z.land_spec; destruct (Z.testbit a n), (Z.testbit m n); reflexivity.
Qed.
Lemma land_le_r a m : 0 <= m -> 0 <= Z.land a m <= m.
Proof.
  intros Hm. split; [apply Z.land_nonneg; by right|]. apply Z.ldiff_le; [done|].
  apply Z.bits_inj'. intros n _. rewrite Z.bits_0, Z.ldiff_spec, Z.land_spec.
  destruct (Z.testbit a n), (Z.testbit m n); reflexivity.
Qed.
Lemma ldiff_bounds a m : 0 <= m -> a - m <= Z.ldiff a m <= a.
Proof. intros Hm. rewrite ldiff_land. pose proof (land_le_r a m Hm). lia. Qed.
Lemma up_bounds p x : 0 < p -> 0 <= x -> x <= up p x <= x + (p - 1).
Proof. intros Hp Hx. unfold up. pose proof (ldiff_bounds (x + (p - 1)) (p - 1)). lia. Qed.
Lemma up_pow2 k x : 0 <= k -> 0 <= x -> up (2 ^ k) x = 2 ^ k * ((x + (2 ^ k - 1)) / 2 ^ k).
Proof.
  intros Hk Hx. unfold up. replace (2 ^ k - 1) with (Z.ones k) by (rewrite Z.ones_equiv; lia).
  rewrite Z.ldiff_ones_r, Z.shiftl_mul_pow2, Z.shiftr_div_pow2 by done. lia.
Qed.
Lemma up_0 p : up p 0 = 0.
Proof. unfold up. rewrite Z.add_0_l. apply Z.ldiff_diag. Qed.

(** The checked roundings and additions. *)
Lemma ADD_OF_spec a b : 0 <= a -> 0 <= b <= MAX_UINT32 -> ADD_OF a b = if a + b <? MAX_UINT32 then a + b else 0.
Proof.
  intros Ha Hb. unfold ADD_OF. destruct (Z.ltb_spec a (MAX_UINT32 - b)), (Z.ltb_spec (a + b) MAX_UINT32); try lia.
  apply u32_small. unfold in_u32, MAX_UINT32 in *. lia.
Qed.
Lemma ROUND_spec p x :
  0 < p <= MAX_UINT32 -> 0 <= x ->
  ROUND_TO_PAGE x (u32 (p - 1)) = if x + (p - 1) <? MAX_UINT32 then up p x else 0.
Proof.
  intros Hp Hx. unfold ROUND_TO_PAGE. rewrite u32_small by (unfold in_u32, MAX_UINT32 in *; lia).
  rewrite ADD_OF_spec by (unfold MAX_UINT32 in *; lia). case_match; [done|].
  rewrite ldiff_land, Z.land_0_l. done.
Qed.

(** ** The parts of an image *)
(** The overlays for recovery are rounded without a check: a size that overflows
    counts as nothing. *)
Definition dtbo_actual (p d : Z) : Z := if d + (p - 1) <? MAX_UINT32 then up p d else 0.
(** The page size and the sizes of the parts behind the header page, in pages. *)
Definition image_parts (hdr vendor : list Z) (recovery : bool) : option (Z * list Z) :=
  version ← hdr_header_version hdr;
  if version <? BOOT_HEADER_VERSION_THREE then
    kernel ← hdr_kernel_size hdr; ramdisk ← hdr_ramdisk_size hdr; p ← hdr_page_size hdr;
    dt ← (if version =? BOOT_HEADER_VERSION_TWO then v2_dtb_size hdr else Some 0);
    dtbo ← (if recovery && (BOOT_HEADER_VERSION_ZERO <? version) then v1_recovery_dtbo_size hdr else Some 0);
    Some (p, [up p kernel; up p ramdisk; up p dt; dtbo_actual p dtbo])
  else
    kernel ← v3_kernel_size hdr; ramdisk ← v3_ramdisk_size hdr; p ← vendor_page_size vendor;
    Some (p, [up p kernel; up p ramdisk]).
Definition total (p : Z) (parts : list Z) : Z := p + foldr Z.add 0 parts.

(** What is asked of the vendor image of version 3 and of the overlays for recovery. *)
Definition vendor_ok (vendor : list Z) (p : Z) : Prop :=
  rd vendor 0 VENDOR_BOOT_MAGIC_SIZE = Some VENDOR_BOOT_MAGIC /\ p <= BOOT_IMG_MAX_PAGE_SIZE /\
  exists r d, vendor_ramdisk_size vendor = Some r /\ vendor_dtb_size vendor = Some d /\
    (r = 0 \/ r + (p - 1) < MAX_UINT32) /\ (d = 0 \/ d + (p - 1) < MAX_UINT32).
Definition recovery_ok (hdr : list Z) (version p : Z) : Prop :=
  exists d o, v1_recovery_dtbo_size hdr = Some d /\ v1_recovery_dtbo_offset hdr = Some o /\
    v1_header_size hdr = Some (if version =? BOOT_HEADER_VERSION_ONE then 1648 else 1660) /\
    dtbo_actual p d <= DTBO_MAX_SIZE_ALLOWED /\ o + dtbo_actual p d < 2 ^ 64.
Definition image_ok (hdr : list Z) (ImageHdrSize : Z) (vendor : list Z) (recovery : bool)
    (p : Z) (parts : list Z) : Prop :=
  exists version,
  rd hdr 0 BOOT_MAGIC_SIZE = Some BOOT_MAGIC /\ hdr_header_version hdr = Some version /\
  image_parts hdr vendor recovery = Some (p, parts) /\
  (if version <? BOOT_HEADER_VERSION_THREE then hdr_kernel_size hdr else v3_kernel_size hdr) <> Some 0 /\
  p <> 0 /\ (p = ImageHdrSize \/ p <= BOOT_IMG_MAX_PAGE_SIZE) /\
  (BOOT_HEADER_VERSION_THREE <= version -> vendor_ok vendor p) /\
  (recovery = true -> BOOT_HEADER_VERSION_ZERO < version < BOOT_HEADER_VERSION_THREE -> recovery_ok hdr version p).

Lemma field_range n h off v : Forall in_u8 h -> field n h off = Some v -> 0 <= v < 2 ^ (8 * Z.of_nat n).
Proof.
  intros Hh. unfold field. destruct (rd h off n) as [bs|] eqn:E; [|done]. intros [= <-].
  unfold rd in E. destruct (off <? 0); [done|]. pose proof (load_length _ _ _ _ E) as <-.
  apply le_value_range. unfold load in E. case_match; [|done]. injection E as <-.
  by apply Forall_take, Forall_drop.
Qed.

Lemma round_error_spec p x :
  0 < p <= MAX_UINT32 -> 0 <= x ->
  round_error x (ROUND_TO_PAGE x (u32 (p - 1))) = false <-> x = 0 \/ x + (p - 1) < MAX_UINT32.
Proof.
  intros Hp Hx. rewrite ROUND_spec by done. pose proof (up_bounds p x). unfold round_error.
  destruct (Z.eqb_spec x 0) as [->|]; [split; [by left|done]|]. cbn [negb andb].
  destruct (Z.ltb_spec (x + (p - 1)) MAX_UINT32).
  - destruct (Z.eqb_spec (up p x) 0); [lia|]. split; [by right|done].
  - split; [done|intros [?|?]; lia].
Qed.
Lemma round_fine p x :
  0 < p <= MAX_UINT32 -> 0 <= x -> x = 0 \/ x + (p - 1) < MAX_UINT32 ->
  ROUND_TO_PAGE x (u32 (p - 1)) = up p x.
Proof.
  intros Hp Hx H. rewrite ROUND_spec by done. destruct (Z.ltb_spec (x + (p - 1)) MAX_UINT32); [done|].
  destruct H as [->|]; [by rewrite up_0|lia].
Qed.

Lemma ADD_OF_cases a b :
  0 < a -> 0 <= b <= MAX_UINT32 ->
  (ADD_OF a b = a + b /\ a + b < MAX_UINT32) \/ (ADD_OF a b = 0 /\ MAX_UINT32 <= a + b).
Proof. intros Ha Hb. rewrite ADD_OF_spec by lia. destruct (Z.ltb_spec (a + b) MAX_UINT32); lia. Qed.
(** One checked addition of [image_size]. *)
Ltac add_step a b :=
  let E := fresh in let L := fresh in
  destruct (ADD_OF_cases a b) as [[E L]|[E L]]; [lia|lia|rewrite E;
    destruct (Z.eqb_spec (a + b) 0); [lia|]|rewrite E; split; [done|intros (_ & -> & ?); lia]].

Lemma image_size_spec hdr version s n0 D n :
  0 < hs_page s <= MAX_UINT32 -> 0 < hs_kernel s -> 0 <= hs_ramdisk s -> 0 <= D ->
  (if version =? BOOT_HEADER_VERSION_TWO then v2_dtb_size hdr else Some (hs_dt s)) = Some D ->
  let p := hs_page s in
  image_size hdr version s n0 = Some (EFI_SUCCESS, n) <->
  (BOOT_HEADER_VERSION_TWO <= version -> D = 0 \/ D + (p - 1) < MAX_UINT32) /\
  n = total p ([up p (hs_kernel s); up p (hs_ramdisk s)] ++
               if version =? BOOT_HEADER_VERSION_TWO then [up p D] else []) /\ n < MAX_UINT32.
Proof.
  intros Hp HK HR HD ED p. unfold image_size. fold p in Hp |- *.
  unfold BOOT_HEADER_VERSION_TWO, BOOT_HEADER_VERSION_THREE in *.
  pose proof (up_bounds p (hs_kernel s)) as BK. pose proof (up_bounds p (hs_ramdisk s)) as BR.
  pose proof (up_bounds p D) as BD.
  (* a part whose rounding fails makes the sum too large *)
  assert (forall x, 0 <= x -> ~ (x = 0 \/ x + (p - 1) < MAX_UINT32) -> MAX_UINT32 <= p + up p x) as Hbig.
  { intros x Hx Hn. pose proof (up_bounds p x). lia. }
  assert (ROUND_TO_PAGE (hs_kernel s) (u32 (p - 1)) = 0 <-> MAX_UINT32 <= hs_kernel s + (p - 1)) as Hk.
  { rewrite ROUND_spec by lia. destruct (Z.ltb_spec (hs_kernel s + (p - 1)) MAX_UINT32); lia. }
  destruct (Z.eqb_spec (ROUND_TO_PAGE (hs_kernel s) (u32 (p - 1))) 0) as [E0|E0].
  { apply Hk in E0. split; [done|]. intros (_ & -> & Hn). unfold total in Hn.
    destruct (version =? 2); cbn [app foldr] in Hn; lia. }
  rewrite (round_fine p (hs_kernel s)) by lia.
  assert (hs_kernel s + (p - 1) < MAX_UINT32) as Hkm by lia. clear Hk.
  destruct (round_error (hs_ramdisk s) (ROUND_TO_PAGE (hs_ramdisk s) (u32 (p - 1)))) eqn:Er.
  { split; [done|]. intros (_ & -> & Hn). exfalso.
    assert (~ (hs_ramdisk s = 0 \/ hs_ramdisk s + (p - 1) < MAX_UINT32)) as Hb.
    { rewrite <- round_error_spec by lia. congruence. }
    apply Hbig in Hb; [|done]. unfold total in Hn. destruct (version =? 2); cbn [app foldr] in Hn; lia. }
  apply round_error_spec in Er; [|lia..]. rewrite (round_fine p (hs_ramdisk s)) by lia.
  rewrite ED. bind_step.
  destruct (Z.leb_spec 2 version) as [Hv|Hv]; cbn [andb].
  - destruct (round_error D _) eqn:Ed.
    { split; [done|]. intros (Hd & _). specialize (Hd Hv). apply (round_error_spec p D) in Hd; [congruence|lia..]. }
    apply round_error_spec in Ed; [|lia..]. rewrite (round_fine p D) by lia.
    destruct (Z.eqb_spec version 2) as [->|Hv2]; cbn [app]; unfold total; cbn [foldr].
    + add_step p (up p (hs_kernel s)). add_step (p + up p (hs_kernel s)) (up p (hs_ramdisk s)).
      change (2 <? 3) with true. cbv match.
      add_step (p + up p (hs_kernel s) + up p (hs_ramdisk s)) (up p D).
      split; [intros [= <-]; lia|intros (_ & -> & _); do 2 f_equal; lia].
    + add_step p (up p (hs_kernel s)). add_step (p + up p (hs_kernel s)) (up p (hs_ramdisk s)).
      destruct (Z.ltb_spec version 3); [lia|].
      split; [intros [= <-]; lia|intros (_ & -> & _); do 2 f_equal; lia].
  - destruct (Z.eqb_spec version 2) as [->|Hv2]; [lia|]. cbn [app]; unfold total; cbn [foldr].
    add_step p (up p (hs_kernel s)). add_step (p + up p (hs_kernel s)) (up p (hs_ramdisk s)).
    destruct (Z.ltb_spec version 3); [|lia].
    add_step (p + up p (hs_kernel s) + up p (hs_ramdisk s)) 0.
    split; [intros [= <-]; lia|intros (_ & -> & _); do 2 f_equal; lia].
Qed.

Lemma dtbo_round p d : 0 < p <= MAX_UINT32 -> 0 <= d -> ROUND_TO_PAGE d (u32 (p - 1)) = dtbo_actual p d.
Proof. apply ROUND_spec. Qed.
Lemma dtbo_actual_bounds p d : 0 < p -> 0 <= d -> 0 <= dtbo_actual p d < MAX_UINT32.
Proof.
  intros Hp Hd. unfold dtbo_actual. pose proof (up_bounds p d Hp Hd).
  destruct (Z.ltb_spec (d + (p - 1)) MAX_UINT32); unfold MAX_UINT32 in *; lia.
Qed.

Lemma recovery_dtbo_spec hdr version p m n :
  Forall in_u8 hdr -> 0 < p <= MAX_UINT32 -> 0 < m ->
  recovery_dtbo hdr version p m = Some (EFI_SUCCESS, n) <->
  recovery_ok hdr version p /\
  exists d, v1_recovery_dtbo_size hdr = Some d /\ n = m + dtbo_actual p d /\ n < MAX_UINT32.
Proof.
  intros Hh Hp Hm. unfold recovery_dtbo, recovery_ok.
  destruct (v1_header_size hdr) as [hs|]; bind_step; [|split; [done|intros [(?&?&?&?&?&_) _]; done]].
  destruct (v1_recovery_dtbo_size hdr) as [d|] eqn:Ed;
    [|case_match; (split; [done|intros [(?&?&?&_) _]; done])].
  destruct (v1_recovery_dtbo_offset hdr) as [o|] eqn:Eo;
    [|case_match; (split; [done|intros [(?&?&?&?&_) _]; done])].
  apply field_range in Ed as Rd, Eo as Ro; [|done..]. bind_step.
  rewrite dtbo_round by lia. pose proof (dtbo_actual_bounds p d) as Ba.
  change (if version =? BOOT_HEADER_VERSION_ONE then SIZEOF_boot_img_hdr_v1 + SIZEOF_boot_img_hdr
          else _) with (if version =? BOOT_HEADER_VERSION_ONE then 1648 else 1660).
  destruct (Z.eqb_spec hs (if version =? BOOT_HEADER_VERSION_ONE then 1648 else 1660)) as [->|Hs]; cbn [negb];
    [|split; [done|intros [(?&?&?&?&?&_) _]; congruence]].
  destruct (Z.ltb_spec DTBO_MAX_SIZE_ALLOWED (dtbo_actual p d));
    [split; [done|intros [(?&?&?&?&?&?&?) _]; simplify_eq; lia]|].
  rewrite CHECK_ADD64_spec by (unfold in_u64, MAX_UINT32 in *; lia).
  destruct (Z.leb_spec (2 ^ 64) (o + dtbo_actual p d));
    [split; [done|intros [(?&?&?&?&?&?&?) _]; simplify_eq; lia]|].
  split.
  - destruct (ADD_OF_cases m (dtbo_actual p d)) as [[-> L]|[-> L]]; [lia..| |done].
    destruct (Z.eqb_spec (m + dtbo_actual p d) 0); [lia|]. intros [= <-].
    split; [by exists d, o|by exists d].
  - intros (_ & d' & [= <-] & -> & Hn).
    destruct (ADD_OF_cases m (dtbo_actual p d)) as [[-> L]|[-> L]]; [lia..| |lia].
    destruct (Z.eqb_spec (m + dtbo_actual p d) 0); [lia|done].
Qed.

Lemma read_sizes_small hdr vendor version p0 st p s :
  Forall in_u8 hdr -> Forall in_u8 vendor ->
  read_sizes hdr vendor version p0 = Some (st, p, s) -> st = EFI_SUCCESS ->
  p = hs_page s /\ 0 <= p <= MAX_UINT32 /\ 0 <= hs_kernel s /\ 0 <= hs_ramdisk s /\ 0 <= hs_dt s.
Proof.
  intros Hh Hv. unfold read_sizes, MAX_UINT32.
  destruct (version <? BOOT_HEADER_VERSION_THREE).
  - destruct (hdr_kernel_size hdr) as [k|] eqn:Ek; [|done]. destruct (hdr_ramdisk_size hdr) as [r|] eqn:Er; [|done].
    destruct (hdr_second_size hdr); [|done]. destruct (hdr_page_size hdr) as [q|] eqn:Eq; [|done].
    bind_step. intros [= <- <- <-] _. cbn.
    apply field_range in Ek, Er, Eq; [|done..]. lia.
  - destruct (rd vendor 0 VENDOR_BOOT_MAGIC_SIZE) as [mg|]; [|done]. bind_step.
    case_match; [by intros [= <- <- <-]|].
    destruct (v3_kernel_size hdr) as [k|] eqn:Ek; [|done]. destruct (v3_ramdisk_size hdr) as [r|] eqn:Er; [|done].
    destruct (vendor_ramdisk_size vendor) as [vr|] eqn:Ev; [|done].
    destruct (vendor_page_size vendor) as [q|] eqn:Eq; [|done].
    destruct (vendor_dtb_size vendor) as [d|] eqn:Ed; [|done]. bind_step.
    apply field_range in Ek, Er, Eq, Ed; [|done..].
    repeat (case_match; [by intros [= <- <- <-]|]). intros [= <- <- <-] _. cbn. lia.
Qed.

Lemma field_shorter n n' h off off' v :
  field n h off = Some v -> 0 <= off' -> off' + Z.of_nat n' <= off + Z.of_nat n -> is_Some (field n' h off').
Proof.
  unfold field, rd, load. destruct (Z.ltb_spec off 0); [done|].
  destruct (Nat.leb_spec (Z.to_nat off + n) (length h)); [|done]. intros _ H1 H2.
  destruct (Z.ltb_spec off' 0); [lia|]. destruct (Nat.leb_spec (Z.to_nat off' + n') (length h)); [by eexists|lia].
Qed.
(** A branch that ends without success, against a right side that contradicts it. *)
Ltac refute :=
  split; [done|intros;
    repeat match goal with H : _ /\ _ |- _ => destruct H | H : exists _, _ |- _ => destruct H end; simplify_eq; lia].

(** The sizes [s] are those of the headers, which allow the page size [p]. *)
Definition read_ok (hdr vendor : list Z) (version p : Z) (s : header_sizes) : Prop :=
  hs_page s = p /\
  if version <? BOOT_HEADER_VERSION_THREE then
    hdr_kernel_size hdr = Some (hs_kernel s) /\ hdr_ramdisk_size hdr = Some (hs_ramdisk s) /\
    hdr_page_size hdr = Some p /\ hs_dt s = 0
  else v3_kernel_size hdr = Some (hs_kernel s) /\ v3_ramdisk_size hdr = Some (hs_ramdisk s) /\
    vendor_page_size vendor = Some p /\ vendor_dtb_size vendor = Some (hs_dt s) /\
    rd vendor 0 VENDOR_BOOT_MAGIC_SIZE = Some VENDOR_BOOT_MAGIC /\ p <= BOOT_IMG_MAX_PAGE_SIZE /\
    exists r, vendor_ramdisk_size vendor = Some r /\ (r = 0 \/ r + (p - 1) < MAX_UINT32).
(** The sizes that [read_sizes] accepts are those of [image_parts]. *)
Lemma read_sizes_spec hdr vendor version p0 p s :
  Forall in_u8 hdr -> Forall in_u8 vendor -> 0 < p ->
  read_sizes hdr vendor version p0 = Some (EFI_SUCCESS, p, s) <->
  read_ok hdr vendor version p s.
Proof.
  intros Hh Hv Hp. unfold read_sizes, read_ok. destruct s as [k r q d]; cbn [hs_page hs_kernel hs_ramdisk hs_dt].
  destruct (version <? BOOT_HEADER_VERSION_THREE).
  - destruct (hdr_kernel_size hdr); [|refute]. destruct (hdr_ramdisk_size hdr); [|refute].
    destruct (hdr_page_size hdr) eqn:Eq; [|split; [by destruct (hdr_second_size hdr)|by intros (_ & _ & _ & [=] & _)]].
    assert (is_Some (hdr_second_size hdr)) as [x ->].
    { apply (field_shorter _ _ _ _ _ _ Eq); cbn; lia. }
    bind_step. split; [intros [= <- <- <- <- <-]; done|intros (-> & [= ->] & [= ->] & [= ->] & ->); done].
  - destruct (rd vendor 0 VENDOR_BOOT_MAGIC_SIZE) as [mg|]; [|refute]. bind_step.
    destruct (bool_decide_reflect (mg = VENDOR_BOOT_MAGIC)) as [->|]; cbn [negb]; [|refute].
    destruct (v3_kernel_size hdr); [|refute]. destruct (v3_ramdisk_size hdr); [|refute].
    destruct (vendor_ramdisk_size vendor) as [vr|] eqn:Er; [|refute].
    destruct (vendor_page_size vendor) as [vp|] eqn:Eq; [|refute].
    destruct (vendor_dtb_size vendor) as [vd|]; [|refute]. bind_step.
    apply field_range in Er, Eq; [|done..].
    destruct (Z.ltb_spec BOOT_IMG_MAX_PAGE_SIZE vp); [refute|].
    destruct (round_error vr (ROUND_TO_PAGE vr (u32 (vp - 1)))) eqn:E.
    + split; [done|]. intros (?&?&?&?&?&?&?&r'&Hr&Hb). simplify_eq.
      apply round_error_spec in Hb; [congruence|unfold MAX_UINT32; lia..].
    + split.
      * intros [= <- <- <- <- <-]. apply round_error_spec in E; [|unfold MAX_UINT32; lia..]. split_and!; try done. by exists vr.
      * intros (-> & [= ->] & [= ->] & [= ->] & [= ->] & _). done.
Qed.

Lemma dtbo_actual_0 p : dtbo_actual p 0 = 0.
Proof. unfold dtbo_actual. rewrite up_0. by destruct (_ <? _). Qed.

(** The checks after the headers were read, as one condition on the sizes. *)
Definition sizes_ok (hdr : list Z) (ImageHdrSize : Z) (recovery : bool) (version : Z) (s : header_sizes)
    (n : Z) : Prop :=
  let p := hs_page s in
  hs_kernel s <> 0 /\ (p = ImageHdrSize \/ p <= BOOT_IMG_MAX_PAGE_SIZE) /\
  exists D d, (if version =? BOOT_HEADER_VERSION_TWO then v2_dtb_size hdr else Some (hs_dt s)) = Some D /\
    (BOOT_HEADER_VERSION_TWO <= version -> D = 0 \/ D + (p - 1) < MAX_UINT32) /\
    (if recovery && (BOOT_HEADER_VERSION_ZERO <? version) && (version <? BOOT_HEADER_VERSION_THREE)
     then v1_recovery_dtbo_size hdr = Some d /\ recovery_ok hdr version p else d = 0) /\
    n = p + (up p (hs_kernel s) + (up p (hs_ramdisk s) +
          ((if version =? BOOT_HEADER_VERSION_TWO then up p D else 0) + dtbo_actual p d))) /\
    n < MAX_UINT32.

Lemma checks_spec hdr ImageHdrSize recovery version s n0 n p' :
  Forall in_u8 hdr -> 0 <= hs_page s <= MAX_UINT32 -> 0 <= hs_kernel s -> 0 <= hs_ramdisk s -> 0 <= hs_dt s ->
  (let p := hs_page s in
   if (hs_kernel s =? 0) || (p =? 0) then Some (EFI_BAD_BUFFER_SIZE, n0, p) else
   if negb (p =? ImageHdrSize) && (BOOT_IMG_MAX_PAGE_SIZE <? p) then Some (EFI_BAD_BUFFER_SIZE, n0, p) else
   '(Status, ImageSizeActual) ← image_size hdr version s n0;
   if negb (is_success Status) then Some (Status, ImageSizeActual, p) else
   if (recovery && (BOOT_HEADER_VERSION_ZERO <? version)) && (version <? BOOT_HEADER_VERSION_THREE) then
     '(Status, ImageSizeActual) ← recovery_dtbo hdr version p ImageSizeActual;
     Some (Status, ImageSizeActual, p)
   else Some (EFI_SUCCESS, ImageSizeActual, p)) = Some (EFI_SUCCESS, n, p') <->
  p' = hs_page s /\ p' <> 0 /\ sizes_ok hdr ImageHdrSize recovery version s n.
Proof.
  intros Hh Hp HK HR HD. unfold sizes_ok. cbv zeta. set (p := hs_page s) in *.
  destruct (Z.eqb_spec (hs_kernel s) 0); [refute|]. destruct (Z.eqb_spec p 0) as [E0|]; [refute|]. cbn [orb].
  assert (p = ImageHdrSize \/ p <= BOOT_IMG_MAX_PAGE_SIZE <->
          negb (p =? ImageHdrSize) && (BOOT_IMG_MAX_PAGE_SIZE <? p) = false) as Hpage.
  { destruct (Z.eqb_spec p ImageHdrSize), (Z.ltb_spec BOOT_IMG_MAX_PAGE_SIZE p); cbn; intuition lia. }
  rewrite Hpage. destruct (negb (p =? ImageHdrSize) && _); [split; [done|intros (_&_&_&[=]&_)]|].
  destruct (if version =? BOOT_HEADER_VERSION_TWO then v2_dtb_size hdr else Some (hs_dt s)) as [D|] eqn:ED.
  2: { split; [|intros (_&_&_&_&?&?&[=]&_)]. unfold image_size. rewrite ED.
       by repeat (case_match; bind_step; cbn [is_success bool_decide negb]). }
  assert (0 <= D) as HD'.
  { destruct (version =? _); [|by simplify_eq]. by apply field_range in ED as [? _]. }
  pose proof (fun m => image_size_spec hdr version s n0 D m ltac:(fold p; lia) ltac:(lia) HR HD' ED) as Hi.
  cbv zeta in Hi. fold p in Hi.
  set (dt := if version =? BOOT_HEADER_VERSION_TWO then up p D else 0) in *.
  set (m0 := p + (up p (hs_kernel s) + (up p (hs_ramdisk s) + dt))).
  assert (total p ([up p (hs_kernel s); up p (hs_ramdisk s)] ++
            (if version =? BOOT_HEADER_VERSION_TWO then [up p D] else [])) = m0) as Em.
  { unfold m0, dt, total. destruct (version =? _); cbn [app foldr]; lia. }
  rewrite Em in Hi. clear Em.
  assert (0 <= dt) as Hdt.
  { unfold dt. destruct (version =? _); [|lia]. pose proof (up_bounds p D). lia. }
  pose proof (up_bounds p (hs_kernel s)). pose proof (up_bounds p (hs_ramdisk s)).
  assert (0 < m0) as Hm0 by (unfold m0; lia).
  set (C := BOOT_HEADER_VERSION_TWO <= version -> D = 0 \/ D + (p - 1) < MAX_UINT32) in *.
  assert (forall d, 0 <= d ->
    p + (up p (hs_kernel s) + (up p (hs_ramdisk s) + (dt + dtbo_actual p d))) = m0 + dtbo_actual p d /\
    0 <= dtbo_actual p d) as Hd.
  { intros d Hd0. pose proof (dtbo_actual_bounds p d). split; [unfold m0; lia|lia]. }
  destruct (image_size hdr version s n0) as [[st m]|]; bind_step;
    [destruct (is_success st) eqn:Est; [apply bool_decide_eq_true in Est as ->; cbn [negb]|]|].
  - destruct (proj1 (Hi m) eq_refl) as (HC & -> & Hlt). clear Hi.
    destruct (recovery && _ && _) eqn:Erec.
    + destruct (recovery_dtbo hdr version p m0) as [[st' n']|] eqn:Er; bind_step.
      * split.
        -- intros [= -> -> <-]. apply recovery_dtbo_spec in Er as (Hok & d & Ed & -> & Hn); [|done|lia|done].
           assert (0 <= d) as Hd0 by (by apply field_range in Ed as [? _]).
           destruct (Hd d Hd0) as [Hs _]. split_and!; try done. exists D, d. fold dt. by rewrite Hs.
        -- intros (-> & _ & _ & _ & D' & d & [= <-] & _ & [Ed Hok] & Hn & Hlt').
           assert (0 <= d) as Hd0 by (by apply field_range in Ed as [? _]).
           destruct (Hd d Hd0) as [Hs _]. fold dt in Hn. rewrite Hs in Hn.
           assert (recovery_dtbo hdr version p m0 = Some (EFI_SUCCESS, n)) as E'.
           { apply recovery_dtbo_spec; [done|lia|done|]. split; [done|by exists d]. }
           by rewrite E' in Er; simplify_eq.
      * split; [done|]. intros (-> & _ & _ & _ & D' & d & [= <-] & _ & [Ed Hok] & Hn & Hlt').
        assert (0 <= d) as Hd0 by (by apply field_range in Ed as [? _]).
        destruct (Hd d Hd0) as [Hs _]. fold dt in Hn. rewrite Hs in Hn.
        assert (recovery_dtbo hdr version p m0 = Some (EFI_SUCCESS, n)) as E'; [|congruence].
        apply recovery_dtbo_spec; [done|lia|done|]. split; [done|by exists d].
    + destruct (Hd 0 ltac:(lia)) as [Hs _]. rewrite dtbo_actual_0, !Z.add_0_r in Hs.
      split.
      * intros [= <- <-]. split_and!; try done. exists D, 0. fold dt. rewrite dtbo_actual_0, !Z.add_0_r. by rewrite Hs.
      * intros (-> & _ & _ & _ & D' & d & [= <-] & _ & -> & Hn & _). fold dt in Hn. rewrite dtbo_actual_0, !Z.add_0_r in Hn.
        subst n. by rewrite <- Hs.
  - split; [intros [= -> _ _]; done|].
    intros (_ & _ & _ & _ & D' & d & [= <-] & HC & Hrec & Hn & Hlt). exfalso.
    assert (0 <= d) as Hd0.
    { destruct (recovery && _ && _); [destruct Hrec as [Ed _]; by apply field_range in Ed as [? _]|lia]. }
    fold dt in Hn. destruct (Hd d Hd0).
    assert (Some (st, m) = Some (EFI_SUCCESS, m0)) as [= -> _]; [|done].
    apply Hi. split_and!; [done|done|lia].
  - split; [done|]. intros (_ & _ & _ & _ & D' & d & [= <-] & HC & Hrec & Hn & Hlt).
    assert (0 <= d) as Hd0.
    { destruct (recovery && _ && _); [destruct Hrec as [Ed _]; by apply field_range in Ed as [? _]|lia]. }
    fold dt in Hn. destruct (Hd d Hd0). assert (None = Some (EFI_SUCCESS, m0)) as [=].
    apply Hi. split_and!; [done|done|lia].
Qed.

(** The parts in terms of what [read_sizes] read. *)
Lemma parts_of hdr vendor recovery version s :
  hdr_header_version hdr = Some version ->
  (if version <? BOOT_HEADER_VERSION_THREE then
     hdr_kernel_size hdr = Some (hs_kernel s) /\ hdr_ramdisk_size hdr = Some (hs_ramdisk s) /\
     hdr_page_size hdr = Some (hs_page s)
   else v3_kernel_size hdr = Some (hs_kernel s) /\ v3_ramdisk_size hdr = Some (hs_ramdisk s) /\
     vendor_page_size vendor = Some (hs_page s)) ->
  let p := hs_page s in
  image_parts hdr vendor recovery =
    (if version <? BOOT_HEADER_VERSION_THREE then
       dt ← (if version =? BOOT_HEADER_VERSION_TWO then v2_dtb_size hdr else Some 0);
       dtbo ← (if recovery && (BOOT_HEADER_VERSION_ZERO <? version) then v1_recovery_dtbo_size hdr else Some 0);
       Some (p, [up p (hs_kernel s); up p (hs_ramdisk s); up p dt; dtbo_actual p dtbo])
     else Some (p, [up p (hs_kernel s); up p (hs_ramdisk s)])).
Proof.
  intros Ev H. unfold image_parts. rewrite Ev. bind_step.
  destruct (version <? BOOT_HEADER_VERSION_THREE); destruct H as (-> & -> & ->); by bind_step.
Qed.

Lemma round_below p x : 0 < p -> 0 <= x -> p + up p x < MAX_UINT32 -> x + (p - 1) < MAX_UINT32.
Proof. intros Hp Hx H. pose proof (up_bounds p x Hp Hx). lia. Qed.

(** From the sizes to the parts and back, for the two layouts of the headers. *)
Definition accepted (hdr : list Z) (ImageHdrSize : Z) (vendor : list Z) (recovery : bool) (n p : Z) : Prop :=
  exists parts, image_ok hdr ImageHdrSize vendor recovery p parts /\ n = total p parts /\ n < MAX_UINT32.

Lemma sizes_accepted_old hdr ImageHdrSize vendor recovery version n s :
  rd hdr 0 BOOT_MAGIC_SIZE = Some BOOT_MAGIC -> hdr_header_version hdr = Some version ->
  version < BOOT_HEADER_VERSION_THREE -> read_ok hdr vendor version (hs_page s) s -> hs_page s <> 0 ->
  sizes_ok hdr ImageHdrSize recovery version s n -> accepted hdr ImageHdrSize vendor recovery n (hs_page s).
Proof.
  intros Em Ev H3 [_ Es] Hp0 (K0 & Hpage & D & d & ED & HD & Hrec & Hn & Hlt).
  unfold BOOT_HEADER_VERSION_TWO, BOOT_HEADER_VERSION_THREE, BOOT_HEADER_VERSION_ZERO in *.
  rewrite (proj2 (Z.ltb_lt version 3)), andb_true_r in * by done. destruct Es as (Ek & Er & Ep & Edt).
  exists [up (hs_page s) (hs_kernel s); up (hs_page s) (hs_ramdisk s);
     up (hs_page s) (if version =? BOOT_HEADER_VERSION_TWO then D else 0); dtbo_actual (hs_page s) d].
  unfold BOOT_HEADER_VERSION_TWO. split; [|split; [|exact Hlt]].
  2: { rewrite Hn. unfold total. cbn [foldr]. destruct (version =? 2); rewrite ?up_0; lia. }
  exists version. unfold BOOT_HEADER_VERSION_THREE. rewrite (proj2 (Z.ltb_lt version 3)) by done. split_and!; try done.
  - rewrite (parts_of _ _ _ version s) by (done || (unfold BOOT_HEADER_VERSION_THREE; by rewrite (proj2 (Z.ltb_lt version 3)))).
    unfold BOOT_HEADER_VERSION_THREE.
    rewrite (proj2 (Z.ltb_lt version 3)) by done. unfold BOOT_HEADER_VERSION_TWO, BOOT_HEADER_VERSION_ZERO.
    destruct (Z.eqb_spec version 2); rewrite ?ED; bind_step;
      (destruct (recovery && _); [destruct Hrec as [-> _]|subst d]; done).
  - rewrite Ek. congruence.
  - intros; lia.
  - intros -> [Hv0 _]. unfold BOOT_HEADER_VERSION_ZERO in *.
    rewrite (proj2 (Z.ltb_lt 0 version)) in Hrec by done. by destruct Hrec.
Qed.

Lemma sizes_accepted_new hdr ImageHdrSize vendor recovery version n s :
  rd hdr 0 BOOT_MAGIC_SIZE = Some BOOT_MAGIC -> hdr_header_version hdr = Some version ->
  BOOT_HEADER_VERSION_THREE <= version -> read_ok hdr vendor version (hs_page s) s -> hs_page s <> 0 ->
  sizes_ok hdr ImageHdrSize recovery version s n -> accepted hdr ImageHdrSize vendor recovery n (hs_page s).
Proof.
  intros Em Ev H3 [_ Es] Hp0 (K0 & Hpage & D & d & ED & HD & Hrec & Hn & Hlt).
  unfold BOOT_HEADER_VERSION_TWO, BOOT_HEADER_VERSION_THREE, BOOT_HEADER_VERSION_ZERO in *.
  rewrite (proj2 (Z.ltb_ge version 3)), andb_false_r in * by done.
  destruct Es as (Ek & Er & Ep & Edt & Evm & Hp4 & r & Evr & Hr').
  exists [up (hs_page s) (hs_kernel s); up (hs_page s) (hs_ramdisk s)].
  destruct (Z.eqb_spec version 2); [lia|]. injection ED as <-. split; [|split; [|exact Hlt]].
  2: { rewrite Hn. unfold total. cbn [foldr]. subst d. rewrite dtbo_actual_0. lia. }
  exists version. unfold BOOT_HEADER_VERSION_THREE. rewrite (proj2 (Z.ltb_ge version 3)) by done. split_and!; try done.
  - rewrite (parts_of _ _ _ version s) by (done || (unfold BOOT_HEADER_VERSION_THREE; by rewrite (proj2 (Z.ltb_ge version 3)))).
    unfold BOOT_HEADER_VERSION_THREE. by rewrite (proj2 (Z.ltb_ge version 3)).
  - rewrite Ek. congruence.
  - intros _. split_and!; [done|done|]. exists r, (hs_dt s). split_and!; try done. apply HD. lia.
  - intros; lia.
Qed.

(** The sizes are in range. *)
Definition in_range (p : Z) (s : header_sizes) : Prop :=
  0 <= hs_page s <= MAX_UINT32 /\ 0 <= hs_kernel s /\ 0 <= hs_ramdisk s /\ 0 <= hs_dt s /\ hs_page s = p /\ 0 < p.

Lemma accepted_sizes_old hdr ImageHdrSize vendor recovery version n p :
  Forall in_u8 hdr -> hdr_header_version hdr = Some version -> version < BOOT_HEADER_VERSION_THREE ->
  accepted hdr ImageHdrSize vendor recovery n p ->
  exists s, read_ok hdr vendor version p s /\ sizes_ok hdr ImageHdrSize recovery version s n /\ in_range p s.
Proof.
  intros Hh Ev H3 (parts & (version' & _ & Ev' & Hparts & Hk0 & Hp0 & Hpage & Hvend & Hrec) & Hn & Hlt).
  rewrite Ev in Ev'. injection Ev' as <-.
  unfold image_parts in Hparts. rewrite Ev in Hparts. cbn [mbind option_bind] in Hparts.
  unfold BOOT_HEADER_VERSION_TWO, BOOT_HEADER_VERSION_THREE, BOOT_HEADER_VERSION_ZERO in *.
  rewrite (proj2 (Z.ltb_lt version 3)) in Hparts, Hk0 by done.
  destruct (hdr_kernel_size hdr) as [k|] eqn:Ek; [|done]. destruct (hdr_ramdisk_size hdr) as [r|] eqn:Er; [|done].
  destruct (hdr_page_size hdr) as [q|] eqn:Eq; [|done]. cbn [mbind option_bind] in Hparts.
  destruct (if version =? 2 then v2_dtb_size hdr else Some 0) as [D|] eqn:ED; [|done].
  destruct (if recovery && (0 <? version) then v1_recovery_dtbo_size hdr else Some 0) as [d|] eqn:Ed; [|done].
  injection Hparts as -> <-. apply field_range in Ek as Rk, Er as Rr, Eq as Rq; [|done..].
  assert (0 <= D) by (destruct (version =? 2); [by apply field_range in ED as [? _]|by simplify_eq]).
  assert (0 <= d) by (destruct (recovery && _); [by apply field_range in Ed as [? _]|by simplify_eq]).
  unfold total in Hn. cbn [foldr] in Hn.
  pose proof (up_bounds p k). pose proof (up_bounds p r). pose proof (up_bounds p D).
  pose proof (dtbo_actual_bounds p d).
  exists (mk_sizes k r p 0). unfold read_ok, sizes_ok, in_range, MAX_UINT32.
  unfold BOOT_HEADER_VERSION_TWO, BOOT_HEADER_VERSION_THREE, BOOT_HEADER_VERSION_ZERO.
  rewrite (proj2 (Z.ltb_lt version 3)), andb_true_r by done. cbn [hs_kernel hs_page hs_ramdisk hs_dt].
  split; [done|]. split; [|lia].
  split_and!; [congruence|done|]. exists D, d. split_and!; [done| | | |assumption].
  - intros _. right. apply round_below; lia.
  - destruct recovery; cbn [andb] in *; [|by simplify_eq].
    destruct (Z.ltb_spec 0 version); [|by simplify_eq]. split; [done|]. by apply Hrec.
  - destruct (Z.eqb_spec version 2); [lia|]. simplify_eq. rewrite up_0 in *. lia.
Qed.

Lemma accepted_sizes_new hdr ImageHdrSize vendor recovery version n p :
  Forall in_u8 hdr -> Forall in_u8 vendor ->
  hdr_header_version hdr = Some version -> BOOT_HEADER_VERSION_THREE <= version ->
  accepted hdr ImageHdrSize vendor recovery n p ->
  exists s, read_ok hdr vendor version p s /\ sizes_ok hdr ImageHdrSize recovery version s n /\ in_range p s.
Proof.
  intros Hh Hv Ev H3 (parts & (version' & _ & Ev' & Hparts & Hk0 & Hp0 & Hpage & Hvend & Hrec) & Hn & Hlt).
  rewrite Ev in Ev'. injection Ev' as <-.
  unfold image_parts in Hparts. rewrite Ev in Hparts. cbn [mbind option_bind] in Hparts.
  unfold BOOT_HEADER_VERSION_TWO, BOOT_HEADER_VERSION_THREE, BOOT_HEADER_VERSION_ZERO in *.
  rewrite (proj2 (Z.ltb_ge version 3)) in Hparts, Hk0 by done.
  destruct (v3_kernel_size hdr) as [k|] eqn:Ek; [|done]. destruct (v3_ramdisk_size hdr) as [r|] eqn:Er; [|done].
  destruct (vendor_page_size vendor) as [q|] eqn:Eq; [|done]. cbn [mbind option_bind] in Hparts.
  injection Hparts as -> <-. apply field_range in Ek as Rk, Er as Rr, Eq as Rq; [|done..].
  destruct (Hvend H3) as (Emg & Hp4 & vr & d & Evr & Evd & Hvr & Hvd).
  apply field_range in Evd as Rd; [|done]. unfold total in Hn. cbn [foldr] in Hn.
  exists (mk_sizes k r p d). unfold read_ok, sizes_ok, in_range, MAX_UINT32.
  unfold BOOT_HEADER_VERSION_TWO, BOOT_HEADER_VERSION_THREE, BOOT_HEADER_VERSION_ZERO.
  rewrite (proj2 (Z.ltb_ge version 3)), andb_false_r by done. cbn [hs_kernel hs_page hs_ramdisk hs_dt].
  split; [split_and!; try done; by exists vr|]. split; [|lia].
  split_and!; [congruence|done|]. exists d, 0.
  destruct (Z.eqb_spec version 2); [lia|]. by rewrite dtbo_actual_0; split_and!.
Qed.

(** ** Properties *)
(** C19: an image is accepted exactly when it is what the format
    asks for, no part is too large to be rounded, and the header page with all parts in
    pages stays below 2^32 - 1; the size returned is that sum, which no addition of 32
    bits has changed. *)
Theorem CheckImageHeader_decides hdr ImageHdrSize vendor n0 p0 recovery n p :
  Forall in_u8 hdr -> Forall in_u8 vendor ->
  CheckImageHeader hdr ImageHdrSize vendor n0 p0 recovery = Some (EFI_SUCCESS, n, p) <->
  exists parts, image_ok hdr ImageHdrSize vendor recovery p parts /\ n = total p parts /\ n < MAX_UINT32.
Proof.
  intros Hh Hv. change (?l <-> _) with (l <-> accepted hdr ImageHdrSize vendor recovery n p).
  destruct (decide (rd hdr 0 BOOT_MAGIC_SIZE = Some BOOT_MAGIC)) as [Em|Hm].
  2: { unfold CheckImageHeader, accepted, image_ok. destruct (rd hdr 0 BOOT_MAGIC_SIZE) as [mg|]; bind_step; [|refute].
       rewrite bool_decide_false by congruence. cbn [negb]. refute. }
  destruct (hdr_header_version hdr) as [version|] eqn:Ev.
  2: { unfold CheckImageHeader, accepted, image_ok. rewrite Em, Ev. bind_step.
       rewrite bool_decide_true by done. cbn [negb]. refute. }
  unfold CheckImageHeader. rewrite Em, Ev. bind_step. rewrite bool_decide_true by done. cbn [negb]. split.
  - destruct (read_sizes hdr vendor version p0) as [[[st q] s]|] eqn:Es; [|done]. bind_step.
    destruct (is_success st) eqn:Est; [|by destruct st]. apply bool_decide_eq_true in Est as ->. cbn [negb].
    destruct (read_sizes_small _ _ _ _ _ _ _ Hh Hv Es eq_refl) as (-> & Hq & Hk & Hr & Hd).
    intros E. apply (checks_spec hdr ImageHdrSize recovery version s n0) in E as (-> & Hp0 & Hok); [|done..].
    apply read_sizes_spec in Es; [|done|done|lia].
    destruct (Z.lt_ge_cases version BOOT_HEADER_VERSION_THREE);
      [by eapply sizes_accepted_old|by eapply sizes_accepted_new].
  - intros Ha.
    assert (exists s, read_ok hdr vendor version p s /\ sizes_ok hdr ImageHdrSize recovery version s n /\ in_range p s)
      as (s & Hr & Hs & Hp & Hk & Hrd & Hd & Ep & Hp0).
    { destruct (Z.lt_ge_cases version BOOT_HEADER_VERSION_THREE);
        [by eapply accepted_sizes_old|by eapply accepted_sizes_new]. }
    rewrite (proj2 (read_sizes_spec hdr vendor version p0 p s Hh Hv Hp0) Hr).
    bind_step. change (is_success EFI_SUCCESS) with true. cbn [negb]. subst p.
    apply (checks_spec hdr ImageHdrSize recovery version s); try done. split_and!; [done|lia|done].
Qed.

(** A recovery image of version 2: pages of 2 KiB, a kernel of 5000 bytes, a ramdisk of
    3000, a device tree of 100 and overlays of 40. *)
Definition demo_header : list Z :=
  BOOT_MAGIC ++ le_bytes 4 5000 ++ le_bytes 4 0 ++ le_bytes 4 3000 ++ replicate 16 0 ++
  le_bytes 4 2048 ++ le_bytes 4 2 ++ replicate 1588 0 ++
  le_bytes 4 40 ++ le_bytes 8 12288 ++ le_bytes 4 1660 ++ le_bytes 4 100 ++ le_bytes 8 0.
Definition demo_sum : Z := 2048 + (6144 + 4096 + 2048 + 2048).

Lemma u8_decided l : forallb (fun b => (0 <=? b) && (b <? 256)) l = true -> Forall in_u8 l.
Proof.
  intros H. apply Forall_forall. intros b Hb. apply list_elem_of_In in Hb.
  eapply forallb_forall in H; [|exact Hb]. unfold in_u8. lia.
Qed.

Lemma CheckImageHeader_decides_witness :
  exists parts, image_ok demo_header 4096 [] true 2048 parts /\ demo_sum = total 2048 parts /\ demo_sum < MAX_UINT32.
Proof.
  apply (CheckImageHeader_decides demo_header 4096 [] 0 0 true demo_sum 2048);
    [apply u8_decided; vm_compute; reflexivity|constructor|vm_compute; reflexivity].
Defined.
(** An image whose ramdisk does not fit is refused. *)
Definition demo_header_large : list Z :=
  take 16 demo_header ++ le_bytes 4 (2 ^ 32 - 8192) ++ drop 20 demo_header.
Example demo_header_refused : exists n,
  CheckImageHeader demo_header_large 4096 [] 0 0 true = Some (EFI_BAD_BUFFER_SIZE, n, 2048).
Proof. eexists. vm_compute. reflexivity. Qed.
