(* ===== verification/CmdLine.v ===== *)
(** * The command line of the kernel.

    [Platforms/QcomModulePkg/Library/BootLib/UpdateCmdLine.c] (its battery check is part
    of Board.v), [LECmdLine.c], and the two functions of [LinuxLoaderLib.c] they use.

    A string is its characters.  The values of the accessors of other components are
    arguments: the board, the indices of the device trees, whether the image has its own
    root device. *)
From stdpp Require Import base numbers list option strings.
From Stdlib Require Import ZArith Lia Ascii.
From S2P Require Import Prelude BaseLib Unicode Storage Bytes Partitions Slots Flash DeviceInfo Recovery Board.
Local Open Scope Z_scope.

(** ** What is not in the repository *)
(** "Copies (appends) the string and its terminator; DestMax must be greater than the
    length of the result.  On an error the destination is unmodified." *)
Class AsciiCatLib := {
  AsciiStrCpyS : list Z -> nat -> list Z -> EFI_STATUS * list Z;
  AsciiStrCatS : list Z -> nat -> list Z -> EFI_STATUS * list Z;
  (** Source, array, its size; what the array holds then. *)
  UnicodeStrToAsciiStrS : list Z -> list Z -> nat -> EFI_STATUS * list Z;
  AsciiStrDecimalToUintn : list Z -> Z;
  (** PrintLib's ["%d"]. *)
  print_int : Z -> list Z
}.
Class AsciiCatLaws (L : AsciiCatLib) := {
  AsciiStrCpyS_fits d m s : (length s < m)%nat -> AsciiStrCpyS d m s = (EFI_SUCCESS, s);
  AsciiStrCatS_fits d m s :
    (length d + length s < m)%nat -> AsciiStrCatS d m s = (EFI_SUCCESS, d ++ s);
  AsciiStrCatS_error d m s :
    (m <= length d + length s)%nat ->
    EFI_ERROR (fst (AsciiStrCatS d m s)) = true /\ snd (AsciiStrCatS d m s) = d;
  (** For characters of one byte. *)
  UnicodeStrToAsciiStrS_fits s arr m :
    (length s < m)%nat -> Forall in_u8 s -> UnicodeStrToAsciiStrS s arr m = (EFI_SUCCESS, put_string arr s)
}.
Definition reference_AsciiCatLib (print : Z -> list Z) : AsciiCatLib := {|
  AsciiStrCpyS d m s := if (length s <? m)%nat then (EFI_SUCCESS, s) else (EFI_BUFFER_TOO_SMALL, d);
  AsciiStrCatS d m s :=
    if (length d + length s <? m)%nat then (EFI_SUCCESS, d ++ s) else (EFI_BUFFER_TOO_SMALL, d);
  UnicodeStrToAsciiStrS s arr m :=
    if (length s <? m)%nat then (EFI_SUCCESS, put_string arr s) else (EFI_BUFFER_TOO_SMALL, arr);
  AsciiStrDecimalToUintn s :=
    digits_value 10 (fun c => if (48 <=? c) && (c <=? 57) then Some (c - 48) else None) s 0;
  print_int := print
|}.
Lemma reference_AsciiCatLib_laws print : AsciiCatLaws (reference_AsciiCatLib print).
Proof.
  split; cbn [AsciiStrCpyS AsciiStrCatS UnicodeStrToAsciiStrS reference_AsciiCatLib].
  - intros d m s H. by apply Nat.ltb_lt in H as ->.
  - intros d m s H. by apply Nat.ltb_lt in H as ->.
  - intros d m s H. by apply Nat.ltb_ge in H as ->.
  - intros s arr m H _. by apply Nat.ltb_lt in H as ->.
Qed.

(** The macros of the build for the boot path. *)
Class BootBuild := {
  ENABLE_LE_VARIANT : bool;
  BUILD_SYSTEM_ROOT_IMAGE : bool;
  BUILD_USES_RECOVERY_AS_BOOT : bool;
  NAND_SQUASHFS_SUPPORT : bool;
  ENABLE_SYSTEMD_BOOTSLOT : bool;
  VERITY_LE : bool;
  EnableMdtpSupport : bool
}.
Definition IsLEVariant {K : BootBuild} : bool := if ENABLE_LE_VARIANT then true else false.
Definition IsBuildAsSystemRootImage {K : BootBuild} : bool := if BUILD_SYSTEM_ROOT_IMAGE then true else false.
Definition IsBuildUseRecoveryAsBoot {K : BootBuild} : bool := if BUILD_USES_RECOVERY_AS_BOOT then true else false.
Definition IsNANDSquashFsSupport {K : BootBuild} : bool := if NAND_SQUASHFS_SUPPORT then true else false.
Definition IsSystemdBootslotEnabled {K : BootBuild} : bool := if ENABLE_SYSTEMD_BOOTSLOT then true else false.
Definition IsLEVerity {K : BootBuild} : bool := if VERITY_LE then true else false.

Inductive MDTP_SYSTEM_STATE :=
  MDTP_STATE_DISABLED | MDTP_STATE_INACTIVE | MDTP_STATE_ACTIVE | MDTP_STATE_TAMPERED | MDTP_STATE_INVALID.
#[export] Instance MDTP_SYSTEM_STATE_eq_dec : EqDecision MDTP_SYSTEM_STATE.
Proof. solve_decision. Defined.
Record EFI_PM_PON_REASON_TYPE := mk_pon { HARD_RESET : bool; KPDPWR : bool; PON1 : bool; USB_CHG : bool }.

(** Protocols and variables; [LocateProtocol] has the name Locate. *)
Class BootProtocols := {
  (** The variable DisplayPanelConfiguration for a buffer of the given size: status,
      size and the bytes written. *)
  GetPanelConfiguration : Z -> EFI_STATUS * Z * list Z;
  GetBootDeviceBaseAddr : EFI_STATUS * Z;
  LocateMdtp : EFI_STATUS;
  MdtpGetState : EFI_STATUS * MDTP_SYSTEM_STATE;
  MdtpBootState : list Z -> EFI_STATUS;
  IsOffModeCharging : EFI_STATUS * bool;
  LocatePmicPon : EFI_STATUS;
  GetPonReason : EFI_STATUS * EFI_PM_PON_REASON_TYPE;
  WarmResetStatus : EFI_STATUS * bool
}.

(** ** Constants *)
Definition BOOT_BASE_BAND : list Z := bytes " androidboot.baseband=".
Definition MAX_PATH_SIZE : nat := 72.
Definition SERIAL_NUM_SIZE : nat := 64.
Definition BOOT_DEV_MAX_LEN : nat := 32.
Definition DynamicBootDeviceCmdLine : list Z := bytes " androidboot.boot_devices=soc/".
Definition BootDeviceCmdLine : list Z := bytes " androidboot.bootdevice=".
Definition UsbSerialCmdLine : list Z := bytes " androidboot.serialno=".
Definition AndroidBootMode : list Z := bytes " androidboot.mode=".
Definition LogLevel : list Z := bytes " quite".
Definition BatteryChgPause : list Z := bytes " androidboot.mode=charger".
Definition MdtpActiveFlag : list Z := bytes " mdtp".
Definition AlarmBootCmdLine : list Z := bytes " androidboot.alarmboot=true".
Definition SystemdSlotEnv_init : list Z :=
  bytes " systemd.setenv=" ++ dquote :: bytes "SLOT_SUFFIX=_a" ++ [dquote].
Definition AndroidSlotSuffix : list Z := bytes " androidboot.slot_suffix=".
Definition RootCmdLine : list Z := bytes " rootwait ro init=".
Definition InitCmdline : list Z := bytes "/init".
Definition SkipRamFs : list Z := bytes " skip_initramfs".
Definition MAX_DISPLAY_CMD_LINE : nat := 256 + MAX_DISPLAY_CMDLINE_LEN.
Definition MAX_DTBO_IDX_STR : nat := 64.
Definition AndroidBootDtboIdx : list Z := bytes " androidboot.dtbo_idx=".
Definition AndroidBootDtbIdx : list Z := bytes " androidboot.dtb_idx=".
Definition AndroidBootForceNormalBoot : list Z := bytes " androidboot.force_normal_boot=1".
Definition AndroidBootFstabSuffix : list Z := bytes " androidboot.fstab_suffix=".
Definition FstabSuffixEmmc : list Z := bytes "emmc".
Definition FstabSuffixDefault : list Z := bytes "default".
Definition MAX_SOFTSKU_IDX_STR : nat := 23.
Definition SoftSkuIdxStr : list Z := bytes " socinfo.softsku_idx=".

(** ** State: the loader and the static variables of UpdateCmdLine.c *)
Record cmdline_state := mk_cmdline {
  Loader : loader;
  DisplayCmdLine : list Z;
  DisplayCmdLineLen : Z;
  SystemdSlotEnv : list Z
}.
Abbreviation CL := (M cmdline_state).
Definition loading {A} (m : LD A) : CL A := fun s =>
  match m (Loader s) with
  | Some (a, l) => Some (a, mk_cmdline l (DisplayCmdLine s) (DisplayCmdLineLen s) (SystemdSlotEnv s))
  | None => None
  end.
Definition set_Display (arr : list Z) (len : Z) (s : cmdline_state) : cmdline_state :=
  mk_cmdline (Loader s) arr len (SystemdSlotEnv s).
Definition set_SystemdSlotEnv (x : list Z) (s : cmdline_state) : cmdline_state :=
  mk_cmdline (Loader s) (DisplayCmdLine s) (DisplayCmdLineLen s) x.

Section cmdline.
Context {FW : Firmware} {BL : BaseLib} {UL : UnicodeLib} {AL : AsciiLib} {AC : AsciiCatLib}.
Context {BC : BuildConfig} {LB : LoaderBuild} {VB : VerifiedBootProtocol} {BM : BootMode}.
Context {BP : BoardProtocols} {BK : BootBuild} {QP : BootProtocols}.

(** ** LinuxLoaderLib.c *)
Definition GetBootDevice (Len : nat) : B (EFI_STATUS * list Z) :=
  let (Status, BootDevAddr) := GetBootDeviceBaseAddr in
  if negb (is_success Status) then mret (Status, []) else
  BootDeviceType ← GetRootDeviceType BOOT_DEV_NAME_SIZE_MAX;
  let isa t := AsciiStrnCmp BootDeviceType (bytes t) (AsciiStrLen (bytes t)) =? 0 in
  if isa "UFS"%string
  then mret (Status, ToLower (take (Len - 1) (print_hex (u32 BootDevAddr) ++ bytes ".ufshc")))
  else if isa "EMMC"%string
  then mret (Status, ToLower (take (Len - 1) (print_hex (u32 BootDevAddr) ++ bytes ".sdhci")))
  else mret (EFI_NOT_FOUND, []).

Definition IsMdtpActive : EFI_STATUS * bool :=
  if EFI_ERROR LocateMdtp then (LocateMdtp, false) else
  let (Status, MdtpState) := MdtpGetState in
  if EFI_ERROR Status then (Status, false) else
  (Status, negb (bool_decide (MdtpState = MDTP_STATE_DISABLED)) &&
           negb (bool_decide (MdtpState = MDTP_STATE_INACTIVE))).

(** ** Parts of the command line *)
Definition TargetPauseForBatteryCharge (t : nat) : EFI_STATUS * bool :=
  if bool_decide (LocateCharger = EFI_NOT_FOUND) then (EFI_SUCCESS, false) else
  if EFI_ERROR LocateCharger then (LocateCharger, false) else
  if CHARGER_EX_REVISION <=? ChargerRevision then IsOffModeCharging else
  if EFI_ERROR LocatePmicPon then (LocatePmicPon, false) else
  let (Status, PONReason) := GetPonReason in
  if EFI_ERROR Status then (Status, false) else
  let (Status, WarmRtStatus) := WarmResetStatus in
  if EFI_ERROR Status then (Status, false) else
  let (Status, ChgPresent) := GetChargerPresence t in
  if EFI_ERROR Status then (Status, false) else
  (Status, negb WarmRtStatus &&
     (negb (HARD_RESET PONReason) && negb (KPDPWR PONReason) &&
      (PON1 PONReason || USB_CHG PONReason) && ChgPresent)).

(** What the variable does not overwrite stays; then the command line of the device
    information is appended. *)
Definition GetDisplayCmdline : CL unit :=
  len ← gets DisplayCmdLineLen;
  arr ← gets DisplayCmdLine;
  let '(Status, len, data) := GetPanelConfiguration len in
  arr ← access (wr arr 0 data);
  Src ← loading ReadDisplayCmdLine;
  dst ← access (c_string arr 0);
  src ← access (c_string Src 0);
  modify (set_Display (put_string arr (snd (AsciiStrCatS dst MAX_DISPLAY_CMD_LINE src))) len).

Definition LunCharMapping : list Z := bytes "abcdefgh".
(** The path and its length, which is 0 on a failure. *)
Definition GetSystemPath (MultiSlot Recovery : bool) : LD (option (list Z) * nat) :=
  CurSlot ← lift GetCurrentSlotSuffix;
  if negb (PoolAvailable 0 (Z.of_nat MAX_PATH_SIZE)) then mret (None, O) else
  let name := if IsLEVariant && Recovery then bytes "recoveryfs" else bytes "system" in
  let PartitionName := snd (StrnCpyS [] MAX_GPT_NAME_SIZE name (StrLen name)) in
  Type_ ← (if MultiSlot : bool then lift CheckRootDeviceType else mret NAND);
  let PartitionName :=
    if MultiSlot && negb (bool_decide (Type_ = NAND))
    then snd (StrnCatS PartitionName MAX_GPT_NAME_SIZE (Suffix CurSlot) (StrLen (Suffix CurSlot)))
    else PartitionName in
  Index ← lift (GetPartitionIndex PartitionName);
  match Index with
  | None => mret (None, O)
  | Some Index =>
    if (MAX_NUM_PARTITIONS <=? Index)%nat then mret (None, O) else
    Lun ← lift (GetPartitionLunFromIndex Index);
    RootDevStr ← lift (GetRootDeviceType BOOT_DEV_NAME_SIZE_MAX);
    let isa t := AsciiStrCmp (bytes t) RootDevStr =? 0 in
    let path s := let s := take (MAX_PATH_SIZE - 1) s in mret (Some s, AsciiStrLen s) in
    let index := Z.of_nat Index in
    if isa "Unknown"%string then mret (None, O) else
    if isa "EMMC"%string then path (bytes " root=/dev/mmcblk0p" ++ print_int index) else
    if isa "NAND"%string then
      if IsNANDSquashFsSupport then
        PartitionCount ← lift GetPartitionCount;
        let MtdBlkIndex :=
          if MultiSlot && (StrnCmp (bytes "_b") (Suffix CurSlot) (StrLen (Suffix CurSlot)) =? 0)
          then Z.of_nat PartitionCount else u32 (Z.of_nat PartitionCount - 1) in
        path (bytes " rootfstype=squashfs root=/dev/mtdblock" ++ print_int (s32 MtdBlkIndex) ++
              bytes " ubi.mtd=" ++ print_int (index - 1))
      else path (bytes " rootfstype=ubifs rootflags=bulk_read root=ubi0:rootfs ubi.mtd=" ++
                 print_int (index - 1))
    else if isa "UFS"%string then
      c ← access (LunCharMapping !! Z.to_nat Lun);
      i ← lift (GetPartitionIdxInLun PartitionName Lun);
      path (bytes " root=/dev/sd" ++ c :: print_int (s32 i))
    else mret (None, O)
  end.

(** ** LECmdLine.c: the verity part of an LE build *)
Definition MAX_VERITY_CMD_LINE : nat := 512.
Definition MAX_VERITY_SECTOR_LEN : nat := 12.
Definition MAX_VERITY_HASH_LEN : nat := 65.
Definition MAX_VERITY_SYS_STR_LEN : nat := 20.
Definition VerityName : list Z := bytes "verity".
Definition VerityAppliedOn : list Z := bytes "system".
Definition VerityEncriptionName : list Z := bytes "sha256".
Definition VeritySalt : list Z := bytes "aee087a5be3b982978c923f566a94613496b417f2af592639bc80d141e34dfe7".
Definition VerityBlockSize : list Z := bytes "4096".
Definition VerityRoot : list Z := bytes "root=/dev/dm-0".
Definition OptionalParam0 : list Z := bytes "restart_on_corruption".
Definition OptionalParam1 : list Z := bytes "ignore_zero_blocks".
Definition UseFec : list Z := bytes "use_fec_from_device".
Definition FecRoot : list Z := bytes "fec_roots".
Definition FecBlock : list Z := bytes "fec_blocks".
Definition FecStart : list Z := bytes "fec_start".
Definition FEATUREARGS : Z := 10.

(** The word at [pos], up to a space or the end: status, its characters and the number
    of bytes copied.  The end counts as a byte, so the next word is looked for behind
    the terminator, where a read is a fault. *)
Fixpoint word_loop (src : list Z) (pos n : nat) (word : list Z) : option (EFI_STATUS * (list Z * nat)) :=
  match n with
  | O => Some (EFI_SUCCESS, (word, length word))
  | S n' =>
    c ← cstr_at src pos;
    if (c =? ch " ") || (c =? 0) then Some (EFI_SUCCESS, (word, S (length word)))
    else match n' with
         | O => Some (EFI_NOT_FOUND, (word ++ [c], O))
         | S _ => word_loop src (S pos) n' (word ++ [c])
         end
  end.
Definition LEVerityWordnCpy (MaxLen : nat) (src : list Z) (pos : nat) :=
  word_loop src pos MaxLen [].

Definition LEVerityGetSystemPath : LD (EFI_STATUS * list Z) :=
  if negb (PoolAvailable 0 (Z.of_nat MAX_VERITY_SYS_STR_LEN)) then mret (EFI_OUT_OF_RESOURCES, []) else
  MultiSlot ← lift (PartitionHasMultiSlot (bytes "boot"));
  let PartitionName := snd (StrnCpyS [] MAX_GPT_NAME_SIZE (bytes "system") (StrLen (bytes "system"))) in
  PartitionName ←
    (if MultiSlot : bool then
       CurSlot ← lift GetCurrentSlotSuffix;
       mret (snd (StrnCatS PartitionName MAX_GPT_NAME_SIZE (Suffix CurSlot) (StrLen (Suffix CurSlot))))
     else mret PartitionName);
  Index ← lift (GetPartitionIndex PartitionName);
  match Index with
  | None => mret (EFI_DEVICE_ERROR, [])
  | Some Index =>
    Lun ← lift (GetPartitionLunFromIndex Index);
    RootDevStr ← lift (GetRootDeviceType BOOT_DEV_NAME_SIZE_MAX);
    let cut := take (MAX_VERITY_SYS_STR_LEN - 1) in
    if AsciiStrCmp (bytes "EMMC") RootDevStr =? 0
    then mret (EFI_SUCCESS, cut (bytes " /dev/mmcblk0p" ++ print_int (Z.of_nat Index)))
    else if AsciiStrCmp (bytes "UFS") RootDevStr =? 0 then
      c ← access (LunCharMapping !! Z.to_nat Lun);
      i ← lift (GetPartitionIdxInLun PartitionName Lun);
      mret (EFI_SUCCESS, cut (bytes " /dev/sd" ++ c :: print_int (s32 i)))
    else mret (EFI_DEVICE_ERROR, [])
  end.

(** Words with a space before each. *)
Definition spaced (l : list (list Z)) : list Z := concat ((fun w => ch " " :: w) <$> l).
(** The format for "0" as the offset has more specifiers than there are arguments, and
    takes the hash size for a string: that is a fault. *)
Definition verity_command_line (Sector Data Hash FecOff Sys : list Z) : option (list Z) :=
  if AsciiStrCmp FecOff (bytes "0") =? 0 then fault else
  let HashSize := s32 (AsciiStrDecimalToUintn Data + 8) in
  Some (take (MAX_VERITY_CMD_LINE - 1)
    (ch " " :: VerityRoot ++ bytes " dm=" ++ dquote :: VerityAppliedOn ++ bytes " none ro,0" ++
     spaced [Sector; VerityName; bytes "1"; Sys; Sys; VerityBlockSize; VerityBlockSize; Data;
       print_int HashSize; VerityEncriptionName; Hash; VeritySalt; print_int FEATUREARGS;
       OptionalParam0; OptionalParam1; UseFec; Sys; FecRoot; bytes "2"; FecBlock; FecOff; FecStart;
       FecOff] ++ [dquote])).

(** Status, command line and its length with the terminator. *)
Definition GetLEVerityCmdLine (SourceCmdLine : list Z) : LD (EFI_STATUS * option (list Z) * nat) :=
  match AsciiStrStr SourceCmdLine (bytes "verity=") with
  | None => mret (EFI_NOT_FOUND, None, O)
  | Some pos =>
    let pos := (pos + AsciiStrLen (bytes "verity=" ++ [dquote]))%nat in
    let pool n := PoolAvailable 0 (Z.of_nat n) in
    if negb (pool MAX_VERITY_SECTOR_LEN) then mret (EFI_OUT_OF_RESOURCES, None, O) else
    r ← access (LEVerityWordnCpy MAX_VERITY_SECTOR_LEN SourceCmdLine pos);
    let '(Status, (Sector, Len)) := r : EFI_STATUS * (list Z * nat) in
    if negb (is_success Status) then mret (Status, None, O) else
    r ← access (LEVerityWordnCpy MAX_VERITY_SECTOR_LEN SourceCmdLine (pos + Len)%nat);
    let pos := (pos + Len)%nat in
    let '(Status, (Data, Len)) := r : EFI_STATUS * (list Z * nat) in
    if negb (is_success Status) then mret (Status, None, O) else
    if negb (pool MAX_VERITY_HASH_LEN) then mret (EFI_OUT_OF_RESOURCES, None, O) else
    r ← access (LEVerityWordnCpy MAX_VERITY_HASH_LEN SourceCmdLine (pos + Len)%nat);
    let pos := (pos + Len)%nat in
    let '(Status, (Hash, Len)) := r : EFI_STATUS * (list Z * nat) in
    if negb (is_success Status) then mret (Status, None, O) else
    r ← access (LEVerityWordnCpy MAX_VERITY_SECTOR_LEN SourceCmdLine (pos + Len)%nat);
    let '(Status, (FecOff, Len)) := r : EFI_STATUS * (list Z * nat) in
    if negb (is_success Status) then mret (Status, None, O) else
    r ← LEVerityGetSystemPath;
    let (Status, Sys) := r : EFI_STATUS * list Z in
    if negb (is_success Status) then mret (Status, None, O) else
    if negb (pool MAX_VERITY_CMD_LINE) then mret (EFI_OUT_OF_RESOURCES, None, O) else
    DMTemp ← access (verity_command_line Sector Data Hash FecOff Sys);
    let Length := (AsciiStrLen DMTemp + 1)%nat in
    if negb (pool Length) then mret (EFI_OUT_OF_RESOURCES, None, O) else
    mret (EFI_SUCCESS, Some (snd (AsciiStrCpyS [] Length DMTemp)), Length)
  end.

(** ** UpdateCmdLineParamList: without the strings that are constants *)
Record UpdateCmdLineParamList := mk_params {
  P_Recovery : bool; P_MultiSlotBoot : bool; P_AlarmBoot : bool; P_MdtpActive : bool;
  P_CmdLineLen : Z; P_HaveCmdLine : bool; P_PauseAtBootUp : bool;
  P_StrSerialNum : list Z; P_DisplayCmdLine : list Z; P_CmdLine : list Z;
  P_VBCmdLine : option (list Z); P_BootDevBuf : option (list Z); P_FfbmStr : list Z;
  P_DtboIdxStr : list Z; P_DtbIdxStr : list Z; P_LEVerityCmdLine : option (list Z);
  P_FstabSuffix : list Z; P_HeaderVersion : Z; P_SoftSkuStr : list Z;
  (** BoardPlatformChipBaseBand, and the unset array for the slot suffix. *)
  P_ChipBaseBand : list Z; P_SlotSuffixAscii : list Z
}.
Definition nonempty (s : list Z) : bool := match s with [] => false | _ => true end.
(** The conditions that the length and the text share. *)
Definition has_root (MultiSlot DevImage : bool) : bool :=
  (IsBuildAsSystemRootImage && negb MultiSlot) || (MultiSlot && negb DevImage).
Definition force_normal (MultiSlot Recovery : bool) (HeaderVersion : Z) : bool :=
  (IsBuildUseRecoveryAsBoot && IsDynamicPartitionSupport && negb Recovery) ||
  (negb MultiSlot && negb IsBuildUseRecoveryAsBoot && (3 <=? HeaderVersion)).

Section params.
(** The buffer of the command line. *)
Variable MaxCmdLineLen : Z.
Definition cat (Dst : list Z) (Src : list Z) : list Z :=
  snd (AsciiStrCatS Dst (Z.to_nat MaxCmdLineLen) Src).
Definition cat_opt (Dst : list Z) (Src : option (list Z)) : list Z :=
  match Src with Some s => cat Dst s | None => Dst end.

(** Up to the slot: the parts that need no other component. *)
Definition append_boot_device (Dst : list Z) (P : UpdateCmdLineParamList) : list Z :=
  match P_BootDevBuf P with
  | None => Dst
  | Some dev =>
    let Dst := cat (cat Dst BootDeviceCmdLine) dev in
    let Dst := cat (cat Dst AndroidBootFstabSuffix) (P_FstabSuffix P) in
    if IsDynamicPartitionSupport then cat (cat Dst DynamicBootDeviceCmdLine) dev else Dst
  end.
Definition append_mode (Dst : list Z) (P : UpdateCmdLineParamList) : list Z :=
  if nonempty (P_FfbmStr P) then cat (cat (cat Dst AndroidBootMode) (P_FfbmStr P)) LogLevel
  else if P_PauseAtBootUp P then cat Dst BatteryChgPause
  else if P_AlarmBoot P then cat Dst AlarmBootCmdLine
  else Dst.
Definition append_base_band (Dst : list Z) (P : UpdateCmdLineParamList) : list Z :=
  let Dst := cat Dst BOOT_BASE_BAND in
  let ChipBaseBand := snd (AsciiStrnCpyS [] CHIP_BASE_BAND_LEN (P_ChipBaseBand P) (CHIP_BASE_BAND_LEN - 1)) in
  cat Dst (ToLower ChipBaseBand).
Definition append_slot (Dst : list Z) (P : UpdateCmdLineParamList) : CL (list Z) :=
  if P_MultiSlotBoot P && negb BootDevImage then
    slot ← loading (lift GetCurrentSlotSuffix);
    let arr := snd (UnicodeStrToAsciiStrS (Suffix slot) (P_SlotSuffixAscii P) MAX_SLOT_SUFFIX_SZ) in
    if IsSystemdBootslotEnabled then
      env ← gets SystemdSlotEnv;
      c ← access (arr !! 1%nat);
      let env := <[(AsciiStrLen env - 2)%nat := c]> env in
      _ ← modify (set_SystemdSlotEnv env);
      mret (cat Dst env)
    else
      suffix ← access (c_string arr 0);
      mret (cat (cat Dst AndroidSlotSuffix) suffix)
  else mret Dst.
Definition append_root (Dst : list Z) (P : UpdateCmdLineParamList) : list Z :=
  if has_root (P_MultiSlotBoot P) BootDevImage then
    let Dst := if negb IsDynamicPartitionSupport && negb (P_Recovery P) then cat Dst SkipRamFs else Dst in
    cat (cat Dst RootCmdLine) InitCmdline
  else Dst.
Definition append_rest (Dst : list Z) (P : UpdateCmdLineParamList) : list Z :=
  let Dst := cat (cat Dst (P_DtboIdxStr P)) (P_DtbIdxStr P) in
  let Dst := if force_normal (P_MultiSlotBoot P) (P_Recovery P) (P_HeaderVersion P)
             then cat Dst AndroidBootForceNormalBoot else Dst in
  cat (cat_opt Dst (P_LEVerityCmdLine P)) (P_SoftSkuStr P).
End params.

Definition UpdateCmdLineParams (P : UpdateCmdLineParamList) : CL (EFI_STATUS * option (list Z)) :=
  let Max := P_CmdLineLen P in
  if negb (PoolAvailable 0 Max) then mret (EFI_OUT_OF_RESOURCES, None) else
  let Dst := if P_HaveCmdLine P then snd (AsciiStrCpyS [] (Z.to_nat Max) (P_CmdLine P)) else [] in
  let Dst := cat_opt Max Dst (P_VBCmdLine P) in
  let Dst := append_boot_device Max Dst P in
  let Dst := cat Max (cat Max Dst UsbSerialCmdLine) (P_StrSerialNum P) in
  let Dst := append_mode Max Dst P in
  let Dst := append_base_band Max Dst P in
  let Dst := cat Max Dst (P_DisplayCmdLine P) in
  let Dst := if P_MdtpActive P then cat Max Dst MdtpActiveFlag else Dst in
  Dst ← append_slot Max Dst P;
  let Dst := append_root Max Dst P in
  mret (EFI_SUCCESS, Some (append_rest Max Dst P)).

(** ** UpdateCmdLine *)
(** [CmdLineLen += AsciiStrLen (s)]. *)
Definition count (n : Z) (s : list Z) : Z := u32 (n + Z.of_nat (AsciiStrLen s)).
Definition count_if (b : bool) (n : Z) (s : list Z) : Z := if b then count n s else n.
(** An index of a device tree, which is not there for INVALID_PTN. *)
Definition index_text (name : list Z) (Idx : Z) : list Z :=
  if Idx =? INVALID_PTN then [] else take (MAX_DTBO_IDX_STR - 1) (name ++ print_int Idx).

(** The arguments of UpdateCmdLine, then what the board and LocateDeviceTree.c say, and
    what the stack holds: the serial number that is not set, the slot suffix.  [FfbmStr]
    is never NULL. *)
Record cmdline_input := mk_input {
  I_CmdLine : list Z; I_FfbmStr : list Z; I_Recovery : bool; I_AlarmBoot : bool;
  I_VBCmdLine : option (list Z); I_HeaderVersion : Z;
  I_board : BoardInfo; I_DtboIdx : Z; I_DtbIdx : Z; I_serial : list Z; I_stack : list Z
}.
Section update.
Variable I : cmdline_input.

Definition mdtp_flag : bool :=
  if EnableMdtpSupport then let (Status, active) := IsMdtpActive in EFI_ERROR Status || active else false.
(** The verity part and its length; a failure is not fatal. *)
Definition verity_part : LD (option (list Z) * nat) :=
  if nonempty (I_CmdLine I) && IsLEVerity then
    r ← GetLEVerityCmdLine (I_CmdLine I);
    let '(Status, text, Len) := r : EFI_STATUS * option (list Z) * nat in mret (text, Len)
  else mret (None, O).
Definition count_boot_device (n : Z) (dev : option (list Z)) : Z :=
  match dev with
  | None => n
  | Some s =>
    let n := count (count n BootDeviceCmdLine) s in
    if IsDynamicPartitionSupport then count (count n DynamicBootDeviceCmdLine) s else n
  end.
Definition count_mode (n : Z) (pause : bool) : Z :=
  if nonempty (I_FfbmStr I) then count (count (count n AndroidBootMode) (I_FfbmStr I)) LogLevel
  else if pause then count n BatteryChgPause
  else if I_AlarmBoot I then count n AlarmBootCmdLine
  else n.
Definition count_slot (n : Z) (MultiSlot : bool) (env : list Z) : Z :=
  if MultiSlot && negb BootDevImage then
    if IsSystemdBootslotEnabled then count n env
    else u32 (n + (Z.of_nat (AsciiStrLen AndroidSlotSuffix) + Z.of_nat MAX_SLOT_SUFFIX_SZ))
  else n.
Definition count_root (n : Z) (MultiSlot : bool) : Z :=
  if has_root MultiSlot BootDevImage then
    let n := count (count n RootCmdLine) InitCmdline in
    count_if (negb IsDynamicPartitionSupport && negb (I_Recovery I)) n SkipRamFs
  else n.

(** The parameters, with the length of the buffer; or the status of a failure. *)
Definition cmdline_params : CL (EFI_STATUS * option UpdateCmdLineParamList) :=
  r ← loading (lift (BoardSerialNum (I_serial I) SERIAL_NUM_SIZE));
  let (Status, Serial) := r : EFI_STATUS * list Z in
  if negb (is_success Status) then mret (Status, None) else
  let Have := nonempty (I_CmdLine I) in
  let n := count_if Have 0 (I_CmdLine I) in
  let n := match I_VBCmdLine I with Some s => count n s | None => n end in
  v ← loading verity_part;
  let (Verity, VerityLen) := v : option (list Z) * nat in
  let n := u32 (n + Z.of_nat VerityLen) in
  if negb (PoolAvailable 0 (Z.of_nat BOOT_DEV_MAX_LEN)) then mret (EFI_OUT_OF_RESOURCES, None) else
  d ← loading (lift (GetBootDevice BOOT_DEV_MAX_LEN));
  let Dev := if is_success (fst d) then Some (snd d) else None in
  let n := count_boot_device n Dev in
  let n := count (count n UsbSerialCmdLine) Serial in
  Charging ← loading ChargingScreenEnabled;
  let Pause := negb (nonempty (I_FfbmStr I)) && snd (TargetPauseForBatteryCharge 0) && Charging &&
               negb (I_Recovery I) in
  let n := count_mode n Pause in
  let n := count (count n BOOT_BASE_BAND) (ChipBaseBand (I_board I)) in
  let n := count_if mdtp_flag n MdtpActiveFlag in
  MultiSlot ← loading (lift (PartitionHasMultiSlot (bytes "boot")));
  env ← gets SystemdSlotEnv;
  let n := count_root (count_slot n MultiSlot env) MultiSlot in
  _ ← GetDisplayCmdline;
  arr ← gets DisplayCmdLine;
  Display ← access (c_string arr 0);
  let n := count n Display in
  let Dtbo := if IsLEVariant then [] else index_text AndroidBootDtboIdx (I_DtboIdx I) in
  let Dtb := if IsLEVariant then [] else index_text AndroidBootDtbIdx (I_DtbIdx I) in
  let n := count (count n Dtbo) Dtb in
  let n := count_if (force_normal MultiSlot (I_Recovery I) (I_HeaderVersion I)) n AndroidBootForceNormalBoot in
  let n := count n AndroidBootFstabSuffix in
  RootDevStr ← loading (lift (GetRootDeviceType BOOT_DEV_NAME_SIZE_MAX));
  let Fstab := if AsciiStriCmp FstabSuffixEmmc RootDevStr =? 0 then FstabSuffixEmmc else FstabSuffixDefault in
  let n := count n Fstab in
  let Sku := if SoftSkuId (I_board I) =? 0 then []
             else take (MAX_SOFTSKU_IDX_STR - 1) (SoftSkuIdxStr ++ print_int (s32 (SoftSkuId (I_board I)))) in
  let n := u32 (count n Sku + 1) in
  mret (EFI_SUCCESS, Some (mk_params (I_Recovery I) MultiSlot (I_AlarmBoot I) mdtp_flag n Have Pause
    Serial Display (I_CmdLine I) (I_VBCmdLine I) Dev (I_FfbmStr I) Dtbo Dtb Verity Fstab
    (I_HeaderVersion I) Sku (ChipBaseBand (I_board I)) (I_stack I))).

Definition UpdateCmdLine : CL (EFI_STATUS * option (list Z)) :=
  r ← cmdline_params;
  let (Status, Param) := r : EFI_STATUS * option UpdateCmdLineParamList in
  match Param with None => mret (Status, None) | Some P => UpdateCmdLineParams P end.
End update.
End cmdline.
