(* ===== verification/CmdLineSpec.v ===== *)
(** * The buffer of the command line is large enough.

    [UpdateCmdLine] adds up the lengths of the parts, allocates a buffer of that size and
    then appends the parts under slightly different conditions, ignoring the status of
    every copy.  Here is the text as one concatenation, and the proof that it is what
    ends up in the buffer. *)
From stdpp Require Import base numbers list option strings.
From Stdlib Require Import ZArith Lia Ascii.
From S2P Require Import Prelude BaseLib Unicode Storage Bytes Partitions Slots Flash DeviceInfo Recovery Board BoardDemo StorageSpec SlotsSpec CmdLine.
Local Open Scope Z_scope.

Section spec.
Context {FW : Firmware} {BL : BaseLib} {UL : UnicodeLib} {AL : AsciiLib} {AC : AsciiCatLib}.
Context {BC : BuildConfig} {LB : LoaderBuild} {VB : VerifiedBootProtocol} {BM : BootMode}.
Context {BP : BoardProtocols} {BK : BootBuild} {QP : BootProtocols}.
Context {BLL : BaseLibLaws BL} {ULL : UnicodeLibLaws UL} {ALL : AsciiLibLaws AL} {ACL : AsciiCatLaws AC}.

(** ** The text *)
Definition text_if (b : bool) (s : list Z) : list Z := if b then s else [].
Definition boot_device_text (P : UpdateCmdLineParamList) : list Z :=
  match P_BootDevBuf P with
  | None => []
  | Some dev => BootDeviceCmdLine ++ dev ++ AndroidBootFstabSuffix ++ P_FstabSuffix P ++
      text_if IsDynamicPartitionSupport (DynamicBootDeviceCmdLine ++ dev)
  end.
Definition mode_of (ffbm : list Z) (pause alarm : bool) : list Z :=
  if nonempty ffbm then AndroidBootMode ++ ffbm ++ LogLevel
  else if pause then BatteryChgPause else text_if alarm AlarmBootCmdLine.
Definition mode_text (P : UpdateCmdLineParamList) : list Z :=
  mode_of (P_FfbmStr P) (P_PauseAtBootUp P) (P_AlarmBoot P).
Definition base_band_text (P : UpdateCmdLineParamList) : list Z :=
  BOOT_BASE_BAND ++ ToLower (take 3 (P_ChipBaseBand P)).
(** The letter of the slot is the second character of its suffix, or what was there. *)
Definition slot_letter (P : UpdateCmdLineParamList) (slot : Slot) : option Z :=
  put_string (P_SlotSuffixAscii P) (Suffix slot) !! 1%nat.
Definition slot_text (P : UpdateCmdLineParamList) (env : list Z) (slot : Slot) : list Z :=
  text_if (P_MultiSlotBoot P && negb BootDevImage)
    (if IsSystemdBootslotEnabled
     then <[(length env - 2)%nat := default 0 (slot_letter P slot)]> env
     else AndroidSlotSuffix ++ Suffix slot).
Definition root_of (MultiSlot Recovery : bool) : list Z :=
  text_if (has_root MultiSlot BootDevImage)
    (text_if (negb IsDynamicPartitionSupport && negb Recovery) SkipRamFs ++ RootCmdLine ++ InitCmdline).
Definition root_text (P : UpdateCmdLineParamList) : list Z := root_of (P_MultiSlotBoot P) (P_Recovery P).
Definition rest_text (P : UpdateCmdLineParamList) : list Z :=
  P_DtboIdxStr P ++ P_DtbIdxStr P ++
  text_if (force_normal (P_MultiSlotBoot P) (P_Recovery P) (P_HeaderVersion P)) AndroidBootForceNormalBoot ++
  default [] (P_LEVerityCmdLine P) ++ P_SoftSkuStr P.
Definition command_line (P : UpdateCmdLineParamList) (env : list Z) (slot : Slot) : list Z :=
  text_if (P_HaveCmdLine P) (P_CmdLine P) ++ default [] (P_VBCmdLine P) ++ boot_device_text P ++
  UsbSerialCmdLine ++ P_StrSerialNum P ++ mode_text P ++ base_band_text P ++ P_DisplayCmdLine P ++
  text_if (P_MdtpActive P) MdtpActiveFlag ++ slot_text P env slot ++ root_text P ++ rest_text P.

(** ** Appending to a buffer that is large enough *)
Section append.
Variable Max : Z.
Implicit Types d s : list Z.
Definition fits (l : list Z) : Prop := Z.of_nat (length l) < Max.

Lemma cat_fits d s : fits (d ++ s) -> cat Max d s = d ++ s.
Proof.
  unfold fits. intros H. unfold cat. rewrite AsciiStrCatS_fits; [done|].
  rewrite length_app in H. lia.
Qed.
End append.

(** Lengths of concatenations. *)
Ltac fit := unfold fits in *; cbn [text_if] in *; rewrite ?length_app, ?length_nil in *; lia.
(** The innermost append first. *)
Ltac cats :=
  repeat match goal with
  | |- context [cat ?Max ?d ?s] =>
    lazymatch d with context [cat] => fail | _ => rewrite (cat_fits Max d s) by fit end
  end; rewrite ?app_nil_r, <-?app_assoc; try done.

Lemma boot_device_fits Max d P :
  fits Max (d ++ boot_device_text P) -> append_boot_device Max d P = d ++ boot_device_text P.
Proof.
  unfold append_boot_device, boot_device_text, text_if.
  destruct (P_BootDevBuf P) as [dev|]; [destruct IsDynamicPartitionSupport|]; intros H; cats.
Qed.
Lemma mode_fits Max d P : fits Max (d ++ mode_text P) -> append_mode Max d P = d ++ mode_text P.
Proof.
  unfold append_mode, mode_text, mode_of, text_if.
  destruct (nonempty _), (P_PauseAtBootUp P), (P_AlarmBoot P); intros H; cats.
Qed.
Lemma base_band_fits Max d P :
  fits Max (d ++ base_band_text P) -> append_base_band Max d P = d ++ base_band_text P.
Proof.
  unfold append_base_band, base_band_text, CHIP_BASE_BAND_LEN. intros H.
  rewrite AsciiStrnCpyS_fits by (rewrite length_take; lia). cbn [snd Nat.sub]. cats.
Qed.
Lemma root_fits Max d P : fits Max (d ++ root_text P) -> append_root Max d P = d ++ root_text P.
Proof.
  unfold append_root, root_text, root_of, text_if.
  destruct (has_root _ _), (negb IsDynamicPartitionSupport && negb (P_Recovery P)); intros H; cats.
Qed.
Lemma rest_fits Max d P : fits Max (d ++ rest_text P) -> append_rest Max d P = d ++ rest_text P.
Proof.
  unfold append_rest, rest_text, text_if, cat_opt.
  destruct (force_normal _ _ _), (P_LEVerityCmdLine P) as [v|]; cbn [default id from_option]; intros H; cats.
Qed.

(** ** The slot *)
Definition short_slot (w : Slot) : Prop := cstring (Suffix w) /\ (length (Suffix w) < 3)%nat /\ Forall in_u8 (Suffix w).
Lemma short_copy w v st chars :
  v = slot_a \/ v = slot_b ->
  StrnCpyS (Suffix w) MAX_SLOT_SUFFIX_SZ (Suffix v) (StrLen (Suffix v)) = (st, chars) -> short_slot (mk_slot chars).
Proof.
  intros Hv. rewrite StrLen_law, StrnCpyS_fits by (unfold MAX_SLOT_SUFFIX_SZ; destruct Hv as [-> | ->]; cbn; lia).
  intros [= _ <-]. rewrite firstn_all. unfold short_slot, cstring, in_u8.
  destruct Hv as [-> | ->]; vm_compute; repeat constructor; congruence.
Qed.
Lemma active_loop_short Slots w p s st w' s' :
  Forall (fun v => v = slot_a \/ v = slot_b) Slots -> short_slot w ->
  active_slot_loop Slots w p s = Some ((st, w'), s') -> short_slot w'.
Proof.
  intros HS. revert w p s. induction HS as [|v Slots Hv _ IH]; intros w p s Hw; cbn [active_slot_loop]; run.
  { by intros [= _ <- _]. }
  destruct (GetBootPartitionEntry v s) as [[[i|] s1]|]; run; [|by intros [= _ <- _]|done].
  destruct (ptn_entry i s1) as [[e s2]|]; [|done].
  case_if; [|by apply IH].
  destruct (StrnCpyS _ _ _ _) as [c chars] eqn:Ec. apply short_copy in Ec; [|done].
  case_if; [by intros [= _ <- _]|by apply IH].
Qed.
Lemma GetCurrentSlotSuffix_short s slot s' : GetCurrentSlotSuffix s = Some (slot, s') -> short_slot slot.
Proof.
  assert (short_slot empty_slot) as H0 by (repeat split; cbn; [constructor|lia|constructor]).
  unfold GetCurrentSlotSuffix. run.
  destruct (PartitionHasMultiSlot (bytes "boot") s) as [[b s1]|]; [|done].
  case_if; [by intros [= <- _]|]. unfold GetActiveSlot. run.
  destruct (active_slot_loop _ _ _ s1) as [[[st w] s2]|] eqn:El; [|done].
  apply active_loop_short in El; [|by repeat constructor; (left + right)|done].
  case_if; [by intros [= <- _]|]. case_if; [|by intros [= <- _]]. run.
  destruct (GetBootPartitionEntry slot_a s2) as [[[i|] s3]|]; run; [|by intros [= <- _]|done].
  destruct (ptn_entry i s3) as [[e s4]|]; run; [|done].
  case_if; [|by intros [= <- _]]. run.
  destruct (change_attributes _ _ s4) as [[[] s5]|]; [|done].
  destruct (StrnCpyS _ _ _ _) as [c chars] eqn:Ec. apply short_copy in Ec; [|by left].
  case_if; run; [by intros [= <- _]|].
  destruct (UpdatePartitionAttributes _ s5) as [[[] s6]|]; run; [|done]. by intros [= <- _].
Qed.

Lemma put_string_at arr t i : (length t < length arr)%nat -> (i < length arr)%nat -> is_Some (put_string arr t !! i).
Proof.
  intros Ht Hi. apply lookup_lt_is_Some_2. unfold put_string.
  rewrite length_app. cbn [length]. rewrite length_drop. lia.
Qed.
Lemma put_string_cstring arr t : cstring t -> c_string (put_string arr t) 0 = Some t.
Proof. intros Ht. apply (c_string_at [] t (drop (S (length t)) arr) Ht). Qed.

Lemma append_slot_run Max d P s slot s' :
  length (P_SlotSuffixAscii P) = 3%nat -> loading (lift GetCurrentSlotSuffix) s = Some (slot, s') ->
  fits Max (d ++ slot_text P (SystemdSlotEnv s) slot) ->
  exists s'', append_slot Max d P s = Some (d ++ slot_text P (SystemdSlotEnv s) slot, s'').
Proof.
  intros Harr Hs Hfit. unfold append_slot, slot_text, text_if in *.
  destruct (P_MultiSlotBoot P && negb BootDevImage); [|eexists; by rewrite app_nil_r].
  run. rewrite Hs.
  assert (SystemdSlotEnv s' = SystemdSlotEnv s) as He.
  { unfold loading in Hs. destruct (lift _ _) as [[? ?]|]; [|done]. by injection Hs as _ <-. }
  assert (short_slot slot) as (Hc & Hl & Hu).
  { unfold loading, lift in Hs. destruct (GetCurrentSlotSuffix _) as [[w b]|] eqn:E; [|done].
    injection Hs as -> _. by eapply GetCurrentSlotSuffix_short. }
  rewrite UnicodeStrToAsciiStrS_fits by (unfold MAX_SLOT_SUFFIX_SZ; (lia || done)). cbn [snd].
  destruct IsSystemdBootslotEnabled; run.
  - destruct (put_string_at (P_SlotSuffixAscii P) (Suffix slot) 1) as [c Ec]; [lia..|].
    unfold slot_letter in *. rewrite Ec in *. run. rewrite He, AsciiStrLen_law. cbn [default from_option id] in *.
    eexists. rewrite cat_fits by done. done.
  - rewrite put_string_cstring by done. run. eexists. cats.
Qed.

(** ** The length *)
Definition counts (n k : Z) : Prop := n = u32 k.
Lemma u32_add a b : u32 (u32 a + b) = u32 (a + b).
Proof. unfold u32. by rewrite Z.add_mod_idemp_l. Qed.
Lemma counts_add n k x : counts n k -> counts (u32 (n + x)) (k + x).
Proof. intros ->. apply u32_add. Qed.
Lemma counts_count n k t : counts n k -> counts (count n t) (k + Z.of_nat (length t)).
Proof. intros H. unfold count. rewrite AsciiStrLen_law. by apply counts_add. Qed.
Lemma counts_if b n k t : counts n k -> counts (count_if b n t) (k + Z.of_nat (length (text_if b t))).
Proof.
  intros H. unfold count_if, text_if. destruct b; [by apply counts_count|]. by rewrite Z.add_0_r.
Qed.
Lemma counts_opt (o : option (list Z)) n k :
  counts n k -> counts (match o with Some t => count n t | None => n end) (k + Z.of_nat (length (default [] o))).
Proof. intros H. destruct o; [by apply counts_count|]. by rewrite Z.add_0_r. Qed.
Lemma counts_eq n k k' : counts n k -> k = k' -> counts n k'.
Proof. by intros H <-. Qed.
Lemma counts_boot_device n k dev :
  counts n k -> counts (count_boot_device n dev) (k + Z.of_nat (length (match dev with None => [] | Some t =>
    BootDeviceCmdLine ++ t ++ text_if IsDynamicPartitionSupport (DynamicBootDeviceCmdLine ++ t) end))).
Proof.
  intros H. unfold count_boot_device. destruct dev as [t|]; [|by rewrite Z.add_0_r].
  destruct IsDynamicPartitionSupport; (eapply counts_eq; [by repeat apply counts_count|]); fit.
Qed.
Lemma counts_mode I n k pause :
  counts n k -> counts (count_mode I n pause) (k + Z.of_nat (length (mode_of (I_FfbmStr I) pause (I_AlarmBoot I)))).
Proof.
  intros H. unfold count_mode, mode_of, text_if.
  destruct (nonempty _), pause, (I_AlarmBoot I); try (by rewrite Z.add_0_r);
    (eapply counts_eq; [by repeat apply counts_count|]); fit.
Qed.
Definition slot_count (MultiSlot : bool) (env : list Z) : nat :=
  if MultiSlot && negb BootDevImage then
    if IsSystemdBootslotEnabled then length env else (length AndroidSlotSuffix + 3)%nat
  else O.
Lemma counts_slot n k MultiSlot env :
  counts n k -> counts (count_slot n MultiSlot env) (k + Z.of_nat (slot_count MultiSlot env)).
Proof.
  intros H. unfold count_slot, slot_count. destruct (_ && _); [|by rewrite Z.add_0_r].
  destruct IsSystemdBootslotEnabled; [by apply counts_count|].
  eapply counts_eq; [by apply counts_add|]. rewrite AsciiStrLen_law. unfold MAX_SLOT_SUFFIX_SZ. lia.
Qed.
Lemma counts_root I n k MultiSlot :
  counts n k -> counts (count_root I n MultiSlot) (k + Z.of_nat (length (root_of MultiSlot (I_Recovery I)))).
Proof.
  intros H. unfold count_root, root_of. destruct (has_root _ _); cbn [text_if]; [|by rewrite Z.add_0_r].
  eapply counts_eq; [by apply counts_if; repeat apply counts_count|]. fit.
Qed.
Lemma slot_text_length P env slot :
  short_slot slot -> (length (slot_text P env slot) <= slot_count (P_MultiSlotBoot P) env)%nat.
Proof.
  intros (_ & Hl & _). unfold slot_text, slot_count, text_if. destruct (_ && _); [|done].
  destruct IsSystemdBootslotEnabled; [by rewrite length_insert|]. rewrite length_app. lia.
Qed.

Lemma verity_command_line_short Sector Data Hash FecOff Sys t :
  verity_command_line Sector Data Hash FecOff Sys = Some t -> (length t < MAX_VERITY_CMD_LINE)%nat.
Proof.
  unfold verity_command_line. case_if; [done|].
  intros Et. apply (inj Some) in Et. subst t. rewrite length_take. unfold MAX_VERITY_CMD_LINE. lia.
Qed.
Definition text_of_length (r : option (list Z) * nat) : Prop :=
  (length (default [] (fst r)) <= snd r <= 512)%nat.
Lemma GetLEVerityCmdLine_length src s st t n s' :
  GetLEVerityCmdLine src s = Some ((st, t, n), s') -> text_of_length (t, n).
Proof.
  assert (text_of_length (None, O)) as H0 by (split; cbn; lia).
  unfold GetLEVerityCmdLine. destruct (AsciiStrStr _ _); [|by intros [= _ <- <- _]].
  cbv zeta. case_if; [by intros [= _ <- <- _]|]. run.
  repeat match goal with
  | |- context [LEVerityWordnCpy ?m ?a ?p] =>
    destruct (LEVerityWordnCpy m a p) as [[? [? ?]]|]; run; [|done]
  | |- (if ?b then _ else _) _ = _ -> _ => destruct b; run; [by intros [= _ <- <- _]|]
  end.
  destruct (LEVerityGetSystemPath s) as [[[? ?] ?]|]; [|done].
  repeat match goal with
  | |- (if ?b then _ else _) _ = _ -> _ => destruct b; run; [by intros [= _ <- <- _]|]
  end.
  destruct (verity_command_line _ _ _ _ _) as [u|] eqn:Eu; run; [|done].
  case_if; run; [by intros [= _ <- <- _]|]. rewrite AsciiStrLen_law.
  rewrite AsciiStrCpyS_fits by lia. intros [= _ <- <- _].
  apply verity_command_line_short in Eu. unfold MAX_VERITY_CMD_LINE in Eu. split; cbn; lia.
Qed.
Lemma verity_part_length I s v s' : verity_part I s = Some (v, s') -> text_of_length v.
Proof.
  unfold verity_part. case_if; run; [|intros [= <- _]; split; cbn; lia].
  destruct (GetLEVerityCmdLine _ s) as [[[[st t] n] s1]|] eqn:Ev; [|done].
  intros [= <- _]. by eapply GetLEVerityCmdLine_length.
Qed.

(** ** Properties *)
(** The strings together are far below the 4 GiB that the length can count. *)
Definition small (P : UpdateCmdLineParamList) (env : list Z) : Prop :=
  Z.of_nat (length (P_CmdLine P) + length (default [] (P_VBCmdLine P)) + length (default [] (P_BootDevBuf P)) +
    length (P_StrSerialNum P) + length (P_FfbmStr P) + length (P_ChipBaseBand P) + length (P_DisplayCmdLine P) +
    length (P_DtboIdxStr P) + length (P_DtbIdxStr P) + length (P_FstabSuffix P) + length (P_SoftSkuStr P) +
    length env) < 2 ^ 30.

(** The fixed strings are short. *)
Lemma constants_short :
  Forall (fun t => (length t <= 40)%nat)
    [BootDeviceCmdLine; AndroidBootFstabSuffix; DynamicBootDeviceCmdLine; AndroidBootMode; LogLevel; BatteryChgPause;
     AlarmBootCmdLine; BOOT_BASE_BAND; MdtpActiveFlag; AndroidSlotSuffix; SkipRamFs; RootCmdLine; InitCmdline;
     AndroidBootForceNormalBoot; UsbSerialCmdLine].
Proof. repeat constructor; cbn; lia. Qed.
Lemma text_if_short b t : (length (text_if b t) <= length t)%nat.
Proof. destruct b; cbn; lia. Qed.
Lemma mode_short ffbm pause alarm :
  (length (mode_of ffbm pause alarm) <= length ffbm + 120)%nat.
Proof.
  pose proof constants_short as H. rewrite !Forall_cons in H. unfold mode_of.
  destruct (nonempty _); [|destruct pause; [|pose proof (text_if_short alarm AlarmBootCmdLine)]]; fit.
Qed.
Lemma root_short MultiSlot Recovery : (length (root_of MultiSlot Recovery) <= 120)%nat.
Proof.
  pose proof constants_short as H. rewrite !Forall_cons in H. unfold root_of.
  pose proof (text_if_short (negb IsDynamicPartitionSupport && negb Recovery) SkipRamFs).
  destruct (has_root _ _); fit.
Qed.
Lemma base_band_length P : (length (base_band_text P) <= length BOOT_BASE_BAND + length (P_ChipBaseBand P))%nat.
Proof. unfold base_band_text, ToLower. rewrite length_app, length_fmap, length_take. lia. Qed.

Lemma loading_env {A} (m : LD A) s a s' : loading m s = Some (a, s') -> SystemdSlotEnv s' = SystemdSlotEnv s.
Proof. unfold loading. destruct (m _) as [[? ?]|]; [|done]. by intros [= _ <-]. Qed.
Lemma GetDisplayCmdline_env s u s' : GetDisplayCmdline s = Some (u, s') -> SystemdSlotEnv s' = SystemdSlotEnv s.
Proof.
  unfold GetDisplayCmdline. run. destruct (GetPanelConfiguration _) as [[st len] data]. run.
  destruct (wr _ _ _) as [arr|]; run; [|done].
  destruct (loading _ s) as [[Src s1]|] eqn:E; run; [|done].
  destruct (c_string arr 0); run; [|done]. destruct (c_string Src 0); run; [|done].
  intros [= _ <-]. by apply loading_env in E.
Qed.

(** What is added up, in terms of the parameters and the length of the verity part. *)
Definition device_count (P : UpdateCmdLineParamList) : list Z :=
  match P_BootDevBuf P with
  | None => []
  | Some t => BootDeviceCmdLine ++ t ++ text_if IsDynamicPartitionSupport (DynamicBootDeviceCmdLine ++ t)
  end.
Definition counted (P : UpdateCmdLineParamList) (V : nat) (env : list Z) : Z :=
  Z.of_nat (length (text_if (P_HaveCmdLine P) (P_CmdLine P)) + length (default [] (P_VBCmdLine P)) + V +
    length (device_count P) + length UsbSerialCmdLine + length (P_StrSerialNum P) + length (mode_text P) +
    length BOOT_BASE_BAND + length (P_ChipBaseBand P) + length (text_if (P_MdtpActive P) MdtpActiveFlag) +
    slot_count (P_MultiSlotBoot P) env + length (root_text P) + length (P_DisplayCmdLine P) +
    length (P_DtboIdxStr P) + length (P_DtbIdxStr P) +
    length (text_if (force_normal (P_MultiSlotBoot P) (P_Recovery P) (P_HeaderVersion P)) AndroidBootForceNormalBoot) +
    length AndroidBootFstabSuffix + length (P_FstabSuffix P) + length (P_SoftSkuStr P) + 1).

Lemma cmdline_params_counted I s P s1 :
  cmdline_params I s = Some ((EFI_SUCCESS, Some P), s1) ->
  exists V, text_of_length (P_LEVerityCmdLine P, V) /\ counts (P_CmdLineLen P) (counted P V (SystemdSlotEnv s1)) /\
    P_HaveCmdLine P = nonempty (I_CmdLine I) /\ P_CmdLine P = I_CmdLine I /\ P_VBCmdLine P = I_VBCmdLine I /\
    P_SlotSuffixAscii P = I_stack I.
Proof.
  unfold cmdline_params. run.
  destruct (loading _ s) as [[[st Serial] t1]|] eqn:E1; run; [|done].
  case_if; [done|]. run.
  destruct (loading (verity_part I) t1) as [[[Verity VerityLen] t2]|] eqn:E2; run; [|done].
  case_if; [done|]. run.
  destruct (loading _ t2) as [[d t3]|] eqn:E3; run; [|done].
  destruct (loading _ t3) as [[Charging t4]|] eqn:E4; run; [|done].
  destruct (loading _ t4) as [[MultiSlot t5]|] eqn:E5; run; [|done].
  destruct (GetDisplayCmdline t5) as [[[] t6]|] eqn:E6; run; [|done].
  destruct (c_string (DisplayCmdLine t6) 0) as [Display|]; run; [|done].
  destruct (loading _ t6) as [[Root t7]|] eqn:E7; run; [|done].
  intros [= <- <-]. apply GetDisplayCmdline_env in E6. apply loading_env in E7. rewrite E7, E6.
  exists VerityLen. cbn [P_LEVerityCmdLine P_CmdLineLen P_HaveCmdLine P_CmdLine P_VBCmdLine P_SlotSuffixAscii].
  split; [|split; [|done]].
  { unfold loading in E2. destruct (verity_part I (Loader t1)) as [[v l]|] eqn:Ev; [|done].
    injection E2 as -> _. by eapply verity_part_length. }
  eapply counts_eq.
  - apply counts_add. do 3 apply counts_count. apply counts_if. do 3 apply counts_count.
    apply counts_root, counts_slot, counts_if. do 2 apply counts_count. apply counts_mode.
    do 2 apply counts_count. apply counts_boot_device, counts_add, counts_opt, counts_if. exact (eq_refl : counts 0 0).
  - unfold counted, device_count, mode_text, root_text. cbn. lia.
Qed.

(** The text needs less than what was counted. *)
Lemma command_line_counted P V env slot :
  text_of_length (P_LEVerityCmdLine P, V) -> small P env -> short_slot slot ->
  Z.of_nat (length (command_line P env slot)) < counted P V env < 2 ^ 32.
Proof.
  intros [HV1 HV2] Hsmall Hslot. cbn [fst snd] in HV1, HV2.
  pose proof (slot_text_length P env slot Hslot). pose proof (base_band_length P).
  pose proof constants_short as H'. rewrite !Forall_cons in H'.
  pose proof (mode_short (P_FfbmStr P) (P_PauseAtBootUp P) (P_AlarmBoot P)).
  pose proof (root_short (P_MultiSlotBoot P) (P_Recovery P)).
  pose proof (text_if_short (P_HaveCmdLine P) (P_CmdLine P)).
  pose proof (text_if_short (P_MdtpActive P) MdtpActiveFlag).
  pose proof (text_if_short (force_normal (P_MultiSlotBoot P) (P_Recovery P) (P_HeaderVersion P)) AndroidBootForceNormalBoot).
  assert (slot_count (P_MultiSlotBoot P) env <= length env + 50)%nat.
  { unfold slot_count. destruct (_ && _); [|lia]. destruct IsSystemdBootslotEnabled; lia. }
  assert (length (boot_device_text P) <=
          length (device_count P) + length AndroidBootFstabSuffix + length (P_FstabSuffix P))%nat.
  { unfold boot_device_text, device_count. destruct (P_BootDevBuf P); fit. }
  assert (length (device_count P) <= 80 + 2 * length (default [] (P_BootDevBuf P)))%nat.
  { unfold device_count. destruct (P_BootDevBuf P) as [t|]; cbn [default from_option id]; [|cbn; lia].
    pose proof (text_if_short IsDynamicPartitionSupport (DynamicBootDeviceCmdLine ++ t)). fit. }
  unfold counted, command_line, rest_text, mode_text, root_text, small in *.
  rewrite !length_app in *. lia.
Qed.

Lemma cat_opt_fits Max d o : fits Max (d ++ default [] o) -> cat_opt Max d o = d ++ default [] o.
Proof. destruct o; intros H; [by apply cat_fits|by rewrite app_nil_r]. Qed.
Lemma cat_if_fits Max d (b : bool) t :
  fits Max (d ++ text_if b t) -> (if b then cat Max d t else d) = d ++ text_if b t.
Proof. destruct b; intros H; [by apply cat_fits|by rewrite app_nil_r]. Qed.
Lemma copy_fits Max (b : bool) t :
  fits Max (text_if b t) -> (if b then snd (AsciiStrCpyS [] (Z.to_nat Max) t) else []) = text_if b t.
Proof. destruct b; [|done]. unfold fits. cbn [text_if]. intros H. rewrite AsciiStrCpyS_fits; [done|lia]. Qed.

Lemma UpdateCmdLineParams_run P s slot s2 :
  PoolAvailable 0 (P_CmdLineLen P) = true -> length (P_SlotSuffixAscii P) = 3%nat ->
  loading (lift GetCurrentSlotSuffix) s = Some (slot, s2) ->
  fits (P_CmdLineLen P) (command_line P (SystemdSlotEnv s) slot) ->
  exists s', UpdateCmdLineParams P s = Some ((EFI_SUCCESS, Some (command_line P (SystemdSlotEnv s) slot)), s').
Proof.
  intros Hpool Harr Hslot Hfit. unfold UpdateCmdLineParams. rewrite Hpool. cbn [negb]. cbv zeta.
  set (Max := P_CmdLineLen P) in *. unfold command_line in *.
  rewrite copy_fits by fit. rewrite cat_opt_fits by fit. rewrite boot_device_fits by fit.
  rewrite (cat_fits Max _ UsbSerialCmdLine) by fit. rewrite (cat_fits Max _ (P_StrSerialNum P)) by fit.
  rewrite mode_fits by fit. rewrite base_band_fits by fit. rewrite (cat_fits Max _ (P_DisplayCmdLine P)) by fit.
  rewrite cat_if_fits by fit. rewrite bind_run.
  match goal with |- context [append_slot Max ?d P s] =>
    destruct (append_slot_run Max d P s slot s2 Harr Hslot) as [s' Es]; [fit|] end.
  rewrite Es. rewrite root_fits by fit. rewrite rest_fits by fit. exists s'. by rewrite <- !app_assoc.
Qed.

(** C22: when the parameters could be collected and the buffer
    allocated, the command line is the concatenation of all parts for all builds: no copy
    is refused for lack of room.  It starts with the command line of the image and that
    of verified boot. *)
Theorem UpdateCmdLine_complete I s P s1 slot s2 :
  cmdline_params I s = Some ((EFI_SUCCESS, Some P), s1) -> PoolAvailable 0 (P_CmdLineLen P) = true ->
  small P (SystemdSlotEnv s1) -> length (I_stack I) = 3%nat ->
  loading (lift GetCurrentSlotSuffix) s1 = Some (slot, s2) ->
  exists s', UpdateCmdLine I s = Some ((EFI_SUCCESS, Some (command_line P (SystemdSlotEnv s1) slot)), s') /\
    (I_CmdLine I ++ default [] (I_VBCmdLine I)) `prefix_of` command_line P (SystemdSlotEnv s1) slot.
Proof.
  intros EP Hpool Hsmall Hstack Hslot.
  destruct (cmdline_params_counted I s P s1 EP) as (V & HV & HK & Hhave & Hcmd & Hvb & Hst).
  assert (short_slot slot) as Hshort.
  { unfold loading, lift in Hslot. destruct (GetCurrentSlotSuffix _) as [[w b]|] eqn:E; [|done].
    injection Hslot as -> _. by eapply GetCurrentSlotSuffix_short. }
  pose proof (command_line_counted P V _ slot HV Hsmall Hshort) as [Hlt Hmax].
  assert (fits (P_CmdLineLen P) (command_line P (SystemdSlotEnv s1) slot)) as Hfit.
  { unfold fits. rewrite HK, u32_small; [done|]. unfold in_u32. lia. }
  destruct (UpdateCmdLineParams_run P s1 slot s2) as [s' E']; [done|by rewrite Hst|done|done|].
  exists s'. split; [unfold UpdateCmdLine; run; by rewrite EP|].
  unfold command_line. rewrite Hhave, Hcmd, Hvb, app_assoc.
  destruct (I_CmdLine I); cbn [nonempty text_if]; by apply prefix_app_r.
Qed.
End spec.

(** ** A device to try it on *)
Section demo.
#[local] Instance demo_BootBuild : BootBuild := {|
  ENABLE_LE_VARIANT := false; BUILD_SYSTEM_ROOT_IMAGE := true; BUILD_USES_RECOVERY_AS_BOOT := true;
  NAND_SQUASHFS_SUPPORT := false; ENABLE_SYSTEMD_BOOTSLOT := false; VERITY_LE := false; EnableMdtpSupport := false |}.
#[local] Instance demo_BootProtocols : BootProtocols := {|
  GetPanelConfiguration n := (EFI_SUCCESS, 14, bytes " panel=duo:c3" ++ [0]);
  GetBootDeviceBaseAddr := (EFI_SUCCESS, 0x1D84000);
  LocateMdtp := EFI_NOT_FOUND; MdtpGetState := (EFI_NOT_FOUND, MDTP_STATE_DISABLED); MdtpBootState _ := EFI_NOT_FOUND;
  IsOffModeCharging := (EFI_SUCCESS, false); LocatePmicPon := EFI_NOT_FOUND;
  GetPonReason := (EFI_NOT_FOUND, mk_pon false false false false); WarmResetStatus := (EFI_NOT_FOUND, false) |}.
#[local] Instance demo_LoaderBuild : LoaderBuild := {| VERIFIED_BOOT_VERSION := AVB_2; VIRTUAL_AB_OTA := false; PcdABLProduct := [] |}.
#[local] Instance demo_AsciiCatLib : AsciiCatLib := reference_AsciiCatLib (demo_print 10).

#[local] Existing Instances demo_Firmware reference_BaseLib reference_UnicodeLib reference_AsciiLib demo_BuildConfig
  demo_BootMode demo_Board.

Definition demo_cmdline_state : cmdline_state :=
  mk_cmdline (mk_loader (set_RootType UFS (demo_slots (first_boot_attributes 0) 0)) zero_dev_info true None)
    (repeat 0 MAX_DISPLAY_CMD_LINE) (Z.of_nat MAX_DISPLAY_CMD_LINE) SystemdSlotEnv_init.
Definition demo_cmdline_input : cmdline_input :=
  mk_input (bytes "console=ttyMSM0") [] false false (Some (bytes " androidboot.verifiedbootstate=green")) 2
    (mk_board_info (mk_platform 0 0 0 false) 0 (bytes "MSM") 0 0 0 0) 3 INVALID_PTN [] [170; 170; 170].
Definition demo_text : list Z := bytes
  "console=ttyMSM0 androidboot.verifiedbootstate=green androidboot.bootdevice=1d84000.ufshc androidboot.fstab_suffix=default androidboot.boot_devices=soc/1d84000.ufshc androidboot.serialno=93585a54 androidboot.baseband=msm panel=duo:c3 androidboot.slot_suffix=_a rootwait ro init=/init androidboot.dtbo_idx=3 androidboot.force_normal_boot=1".


Definition demo_params : UpdateCmdLineParamList :=
  mk_params false true false false 339 true false (bytes "93585a54") (bytes " panel=duo:c3")
    (bytes "console=ttyMSM0") (Some (bytes " androidboot.verifiedbootstate=green")) (Some (bytes "1d84000.ufshc")) []
    (bytes " androidboot.dtbo_idx=3") [] None (bytes "default") 2 [] (bytes "MSM") [170; 170; 170].
Definition demo_displayed : cmdline_state :=
  set_Display (bytes " panel=duo:c3" ++ repeat 0 371) 14 demo_cmdline_state.

Lemma UpdateCmdLine_complete_witness :
  exists s', UpdateCmdLine demo_cmdline_input demo_cmdline_state = Some ((EFI_SUCCESS, Some demo_text), s') /\
    bytes "console=ttyMSM0 androidboot.verifiedbootstate=green" `prefix_of` demo_text.
Proof.
  assert (command_line demo_params (SystemdSlotEnv demo_displayed) slot_a = demo_text) as <- by (vm_compute; reflexivity).
  change (bytes "console=ttyMSM0 androidboot.verifiedbootstate=green")
    with (I_CmdLine demo_cmdline_input ++ default [] (I_VBCmdLine demo_cmdline_input)).
  apply (UpdateCmdLine_complete (BLL := reference_BaseLib_laws) (ULL := reference_UnicodeLib_laws)
    (ALL := reference_AsciiLib_laws) (ACL := reference_AsciiCatLib_laws _)
    demo_cmdline_input demo_cmdline_state demo_params demo_displayed slot_a demo_displayed);
    vm_compute; reflexivity.
Defined.
End demo.
