(* ===== verification/BootLoad.v ===== *)
(** * Loading a kernel: where it goes, how it gets there, which overlays come with it.

    [Platforms/QcomModulePkg/Library/BootLib/BootLinux.c], the steps of [BootLinux] up to
    the choice of the device tree; [Decompress.c]; and the checks of an overlay image in
    [PartitionTableUpdate.c] ([GetRecoveryDtboInfo], [LoadAndValidateDtboImg]).

    Images lie in the memory [Mem] of DeviceTree.v, and a pointer into one is an address.
    The parameter list of the code is split into the groups of fields that change
    together. *)
From stdpp Require Import base numbers list option strings.
From Stdlib Require Import ZArith Lia Ascii.
From S2P Require Import Prelude BaseLib MemoryMapConfig MemoryMap Unicode Storage Bytes Partitions Slots Flash DeviceInfo Recovery Board DeviceTree BootImage CmdLine.
Local Open Scope Z_scope.

(** ** BootParamlist *)
(** From the headers. *)
Record boot_sizes := mk_boot_sizes {
  PageSize : Z; KernelSize : Z; SecondSize : Z; RamdiskSize : Z; VendorRamdiskSize : Z
}.
Record load_addrs := mk_load_addrs {
  KernelAt : Z; KernelEndAddr : Z; RamdiskAt : Z; DeviceTreeLoadAddr : Z
}.
Record kernel_kind := mk_kernel_kind {
  BootingWith32BitKernel : bool; BootingWithPatchedKernel : bool; BootingWithGzipPkgKernel : bool
}.
(** The command line: in the image, or in a buffer of its own. *)
Inductive cmdline_ptr := NoCmdLine | CmdLineAt (a : Z) | CmdLinePool (s : list Z).
Record BootParamlist := mk_boot_params {
  BaseMemory : Z; ImageBuffer : Z; ImageSize : Z; DtboImgBuffer : Z;
  VendorImageBuffer : Z; VendorImageSize : Z;
  addrs : load_addrs; HypDtbos : option (list Z); sizes : boot_sizes;
  RamdiskOffset : Z; PatchedKernelHdrSize : Z; DtbOffset : Z; KernelSizeActual : Z;
  FinalCmdLine : list Z; CmdLine : cmdline_ptr; kind : kernel_kind
}.
Definition zero_params : BootParamlist :=
  mk_boot_params 0 0 0 0 0 0 (mk_load_addrs 0 0 0 0) None (mk_boot_sizes 0 0 0 0 0) 0 0 0 0 [] NoCmdLine
    (mk_kernel_kind false false false).
Definition set_BaseMemory x p := mk_boot_params x (ImageBuffer p) (ImageSize p) (DtboImgBuffer p)
  (VendorImageBuffer p) (VendorImageSize p) (addrs p) (HypDtbos p) (sizes p) (RamdiskOffset p)
  (PatchedKernelHdrSize p) (DtbOffset p) (KernelSizeActual p) (FinalCmdLine p) (CmdLine p) (kind p).
Definition set_Image a n p := mk_boot_params (BaseMemory p) a n (DtboImgBuffer p)
  (VendorImageBuffer p) (VendorImageSize p) (addrs p) (HypDtbos p) (sizes p) (RamdiskOffset p)
  (PatchedKernelHdrSize p) (DtbOffset p) (KernelSizeActual p) (FinalCmdLine p) (CmdLine p) (kind p).
Definition set_DtboImgBuffer x p := mk_boot_params (BaseMemory p) (ImageBuffer p) (ImageSize p) x
  (VendorImageBuffer p) (VendorImageSize p) (addrs p) (HypDtbos p) (sizes p) (RamdiskOffset p)
  (PatchedKernelHdrSize p) (DtbOffset p) (KernelSizeActual p) (FinalCmdLine p) (CmdLine p) (kind p).
Definition set_Vendor a n p := mk_boot_params (BaseMemory p) (ImageBuffer p) (ImageSize p) (DtboImgBuffer p)
  a n (addrs p) (HypDtbos p) (sizes p) (RamdiskOffset p)
  (PatchedKernelHdrSize p) (DtbOffset p) (KernelSizeActual p) (FinalCmdLine p) (CmdLine p) (kind p).
Definition set_addrs x p := mk_boot_params (BaseMemory p) (ImageBuffer p) (ImageSize p) (DtboImgBuffer p)
  (VendorImageBuffer p) (VendorImageSize p) x (HypDtbos p) (sizes p) (RamdiskOffset p)
  (PatchedKernelHdrSize p) (DtbOffset p) (KernelSizeActual p) (FinalCmdLine p) (CmdLine p) (kind p).
Definition set_HypDtbos x p := mk_boot_params (BaseMemory p) (ImageBuffer p) (ImageSize p) (DtboImgBuffer p)
  (VendorImageBuffer p) (VendorImageSize p) (addrs p) x (sizes p) (RamdiskOffset p)
  (PatchedKernelHdrSize p) (DtbOffset p) (KernelSizeActual p) (FinalCmdLine p) (CmdLine p) (kind p).
Definition set_sizes x p := mk_boot_params (BaseMemory p) (ImageBuffer p) (ImageSize p) (DtboImgBuffer p)
  (VendorImageBuffer p) (VendorImageSize p) (addrs p) (HypDtbos p) x (RamdiskOffset p)
  (PatchedKernelHdrSize p) (DtbOffset p) (KernelSizeActual p) (FinalCmdLine p) (CmdLine p) (kind p).
Definition set_offsets ramdisk actual p := mk_boot_params (BaseMemory p) (ImageBuffer p) (ImageSize p)
  (DtboImgBuffer p) (VendorImageBuffer p) (VendorImageSize p) (addrs p) (HypDtbos p) (sizes p) ramdisk
  (PatchedKernelHdrSize p) (DtbOffset p) actual (FinalCmdLine p) (CmdLine p) (kind p).
Definition set_PatchedKernelHdrSize x p := mk_boot_params (BaseMemory p) (ImageBuffer p) (ImageSize p)
  (DtboImgBuffer p) (VendorImageBuffer p) (VendorImageSize p) (addrs p) (HypDtbos p) (sizes p)
  (RamdiskOffset p) x (DtbOffset p) (KernelSizeActual p) (FinalCmdLine p) (CmdLine p) (kind p).
Definition set_DtbOffset x p := mk_boot_params (BaseMemory p) (ImageBuffer p) (ImageSize p)
  (DtboImgBuffer p) (VendorImageBuffer p) (VendorImageSize p) (addrs p) (HypDtbos p) (sizes p)
  (RamdiskOffset p) (PatchedKernelHdrSize p) x (KernelSizeActual p) (FinalCmdLine p) (CmdLine p) (kind p).
Definition set_FinalCmdLine x p := mk_boot_params (BaseMemory p) (ImageBuffer p) (ImageSize p)
  (DtboImgBuffer p) (VendorImageBuffer p) (VendorImageSize p) (addrs p) (HypDtbos p) (sizes p)
  (RamdiskOffset p) (PatchedKernelHdrSize p) (DtbOffset p) (KernelSizeActual p) x (CmdLine p) (kind p).
Definition set_CmdLine x p := mk_boot_params (BaseMemory p) (ImageBuffer p) (ImageSize p)
  (DtboImgBuffer p) (VendorImageBuffer p) (VendorImageSize p) (addrs p) (HypDtbos p) (sizes p)
  (RamdiskOffset p) (PatchedKernelHdrSize p) (DtbOffset p) (KernelSizeActual p) (FinalCmdLine p) x (kind p).
Definition set_kind x p := mk_boot_params (BaseMemory p) (ImageBuffer p) (ImageSize p)
  (DtboImgBuffer p) (VendorImageBuffer p) (VendorImageSize p) (addrs p) (HypDtbos p) (sizes p)
  (RamdiskOffset p) (PatchedKernelHdrSize p) (DtbOffset p) (KernelSizeActual p) (FinalCmdLine p) (CmdLine p) x.

(** ** Constants *)
Definition PATCHED_KERNEL_HEADER_SIZE : Z := 20.
Definition PATCHED_KERNEL_MAGIC : list Z := bytes "UNCOMPRESSED_IMG".
Definition DT_SIZE_2MB : Z := 2 * 1024 * 1024.
Definition KERNEL_32BIT_LOAD_OFFSET : Z := 0x8000.
Definition KERNEL_64BIT_LOAD_OFFSET : Z := 0x80000.
Definition DTB_OFFSET_LOCATION_IN_ARCH32_KERNEL_HDR : Z := 0x2C.
Definition PcdKernelLoadAddress : Z := 0x00080000.
Definition PcdRamdiskEndAddress : Z := 0x05600000.
Definition PcdKernelLoadAddress32 : Z := 0x00008000.
Definition PcdRamdiskEndAddress32 : Z := 0x03C00000.
Definition OFFSET_magic_64 : Z := 56.
Definition OFFSET_ImageSize : Z := 16.
Definition GZIP_HEADER_LEN : Z := 10.
Definition GZIP_FILENAME_LIMIT : nat := 256.

Inductive AddrType := LOAD_ADDR_NONE | LOAD_ADDR_KERNEL | LOAD_ADDR_RAMDISK.

(** ** zlib, whose copy in the repository is not modelled: what one call makes of the
    input for an output buffer of the given size. *)
Inductive zlib_rc := Z_OK | Z_STREAM_END | Z_ERROR.
Class Zlib := {
  inflateInit2 : bool;
  (** The code, the bytes written and the number of bytes read. *)
  inflate : list Z -> Z -> zlib_rc * list Z * Z
}.
Class ZlibLaws (L : Zlib) := {
  inflate_out input n rc out used :
    0 <= n -> inflate input n = (rc, out, used) -> Z.of_nat (length out) <= n;
  inflate_used input n rc out used :
    inflate input n = (rc, out, used) -> 0 <= used <= Z.of_nat (length input)
}.

Definition set_LoadAddrs kernel ramdisk s := mk_dt_state (Mem s) (DtboNeed s) (DtboIdx s) (DtbIdx s)
  (DtbCount s) (Hyp_Call_Done s) (scm_calls s) kernel ramdisk (dt_board s).

(** ** Load addresses *)
Definition SetandGetLoadAddr (BootParamlistPtr : option load_addrs) (Type_ : AddrType) : DT Z :=
  match BootParamlistPtr with
  | Some p => _ ← modify (set_LoadAddrs (KernelAt p) (RamdiskAt p)); mret 0
  | None =>
    match Type_ with
    | LOAD_ADDR_KERNEL => gets KernelLoadAddr
    | LOAD_ADDR_RAMDISK => gets RamdiskLoadAddr
    | LOAD_ADDR_NONE => mret 0
    end
  end.

(** The region "Kernel" of the platform's memory map, which the lookup of MemoryMap.v
    goes through; the lookup reads behind an array without its terminator. *)
Definition QueryBootParams `{BaseLib} (MemoryMap : list ARM_MEMORY_REGION_DESCRIPTOR_EX) : option (option (Z * Z)) :=
  r ← locate (fun d => AsciiStriCmp (bytes "Kernel") (Name d) =? 0) MemoryMap;
  let '(Status, Region) := r : EFI_STATUS * option ARM_MEMORY_REGION_DESCRIPTOR_EX in
  if EFI_ERROR Status then Some None
  else Region ← Region; Some (Some (Address Region, Length Region)).

Definition UpdateBootParams (Region : option (Z * Z)) (With32Bit : bool) (Base : Z) (s : boot_sizes)
  : EFI_STATUS * load_addrs :=
  let (Kernel, End_) :=
    match Region with
    | Some (Load, Reserved) =>
      (u64 (Load + if With32Bit then KERNEL_32BIT_LOAD_OFFSET else KERNEL_64BIT_LOAD_OFFSET),
       u64 (Load + Reserved))
    | None =>
      (Z.lor Base (if With32Bit then PcdKernelLoadAddress32 else PcdKernelLoadAddress),
       u64 (Base + if With32Bit then PcdRamdiskEndAddress32 else PcdRamdiskEndAddress))
    end in
  let Ramdisk := u64 (End_ - u32 (LOCAL_ROUND_TO_PAGE (u32 (RamdiskSize s + VendorRamdiskSize s)) (PageSize s) +
                                  PageSize s)) in
  let DeviceTree := u64 (Ramdisk - u32 (DT_SIZE_2MB + PageSize s)) in
  let a := mk_load_addrs Kernel End_ Ramdisk DeviceTree in
  if DeviceTree <=? Kernel then (EFI_BUFFER_TOO_SMALL, a) else (EFI_SUCCESS, a).

Definition GetNumberOfPages (Size Page : Z) : Z := u32 (u32 (Size + Page) - 1) / Page.

Section loading.
Context {FW : Firmware} {BL : BaseLib} {UL : UnicodeLib} {AL : AsciiLib} {AC : AsciiCatLib}.
Context {BC : BuildConfig} {ZL : Zlib}.
Variable MemBase : Z.

(** ** Memory *)
Definition load_at (a n : Z) : DT (list Z) := m ← gets Mem; access (rd m (a - MemBase) (Z.to_nat n)).
Definition store_at (a : Z) (bs : list Z) : DT unit :=
  m ← gets Mem; m ← access (wr m (a - MemBase) bs); modify (set_Mem m).
(** Nothing is accessed when nothing is copied. *)
Definition CopyMem (Dst Src n : Z) : DT unit :=
  if n <=? 0 then mret tt else bs ← load_at Src n; store_at Dst bs.
(** A little-endian field at an address, and the memory from an address on. *)
Definition word_at (n : nat) (a : Z) : DT Z := m ← gets Mem; access (field n m (a - MemBase)).
Definition from (a : Z) : DT (list Z) :=
  m ← gets Mem; if a <? MemBase then crash else mret (fdt_at MemBase m a).

(** ** Decompress.c *)
(** The name behind the header; [None] when the input ends before it does.  The
    terminator is passed over, but not taken off the available length. *)
Fixpoint skip_name (m : list Z) (n : nat) (next avail : Z) : option (option (Z * Z)) :=
  match n with
  | O => Some (Some (next, avail))
  | S n' =>
    b ← rd m (next - MemBase) 1;
    if bool_decide (b = [0]) then Some (Some (next + 1, avail))
    else if avail =? 0 then Some None
    else skip_name m n' (next + 1) (avail - 1)
  end.
(** On success the end of the package and the length of the output. *)
Definition decompress (in_buf in_len out_buf out_buf_len : Z) : DT (option (Z * Z)) :=
  if in_len <=? GZIP_HEADER_LEN then mret None else
  if out_buf_len <=? in_len then mret None else
  if negb (PoolAvailable 0 112) then mret None else
  m ← gets Mem;
  flags ← access (rd m (in_buf + 3 - MemBase) 1);
  let next := in_buf + GZIP_HEADER_LEN in
  let avail := in_len - GZIP_HEADER_LEN in
  skipped ← access (if negb (Z.land (le_value flags) 0x8 =? 0)
                    then skip_name m GZIP_FILENAME_LIMIT next avail else Some (Some (next, avail)));
  match skipped with
  | None => mret None
  | Some (next, avail) =>
    if negb inflateInit2 then mret None else
    input ← load_at next avail;
    let '(rc, out, used) := inflate input out_buf_len in
    _ ← store_at out_buf out;
    match rc with
    | Z_STREAM_END => mret (Some (u32 (next + used - in_buf + 8), Z.of_nat (length out)))
    | _ => mret None
    end
  end.
Definition is_gzip_package (buf len : Z) : DT bool :=
  if len <? 10 then mret false else
  magic ← load_at buf 3;
  mret (bool_decide (magic = [0x1f; 0x8b; 0x08])).

(** ** The kernel in the image *)
Definition UpdateKernelModeAndPkg (p : BootParamlist) : DT (EFI_STATUS * kernel_kind) :=
  let Kptr := ImageBuffer p + PageSize (sizes p) in
  let k := kind p in
  gzip ← is_gzip_package Kptr (KernelSize (sizes p));
  if gzip : bool
  then mret (EFI_SUCCESS, mk_kernel_kind false (BootingWithPatchedKernel k) true)
  else
    text ← from Kptr;
    let patched := AsciiStrnCmp text PATCHED_KERNEL_MAGIC (length PATCHED_KERNEL_MAGIC) =? 0 in
    magic ← word_at 4 ((if patched then Kptr + PATCHED_KERNEL_HEADER_SIZE else Kptr) + OFFSET_magic_64);
    mret (EFI_SUCCESS, mk_kernel_kind (negb (magic =? KERNEL64_HDR_MAGIC))
            (if patched then true else BootingWithPatchedKernel k) (BootingWithGzipPkgKernel k)).

(** What is at [Kptr] after the kernel was loaded: a header, or a 32-bit kernel. *)
Definition check_loaded (Kptr : Z) (p : BootParamlist) : DT (EFI_STATUS * BootParamlist) :=
  let a := addrs p in
  magic ← word_at 4 (Kptr + OFFSET_magic_64);
  if negb (magic =? KERNEL64_HDR_MAGIC) then
    mret (EFI_SUCCESS, set_kind (mk_kernel_kind true (BootingWithPatchedKernel (kind p))
                                   (BootingWithGzipPkgKernel (kind p))) p)
  else
    Size ← word_at 8 (Kptr + OFFSET_ImageSize);
    if u64 (DeviceTreeLoadAddr a - KernelAt a) <? Size then mret (EFI_OUT_OF_RESOURCES, p)
    else mret (EFI_SUCCESS, p).
Definition GZipPkgCheck (p : BootParamlist) : DT (EFI_STATUS * BootParamlist) :=
  let a := addrs p in
  let s := sizes p in
  if BootingWithGzipPkgKernel (kind p) then
    let OutAvaiLen := u64 (DeviceTreeLoadAddr a - KernelAt a) in
    if MAX_UINT32 <? OutAvaiLen then mret (EFI_BAD_BUFFER_SIZE, p) else
    r ← decompress (ImageBuffer p + PageSize s) (KernelSize s) (KernelAt a) OutAvaiLen;
    match r with
    | None => mret (EFI_OUT_OF_RESOURCES, p)
    | Some (pos, OutLen) =>
      let p := set_DtbOffset pos p in
      if OutLen <=? 8 then mret (EFI_OUT_OF_RESOURCES, p) else check_loaded (KernelAt a) p
    end
  else
    let Kptr := ImageBuffer p + PageSize s in
    p ← (if BootingWithPatchedKernel (kind p) then
           Offset ← word_at 4 (Kptr + Z.of_nat (length PATCHED_KERNEL_MAGIC));
           mret (set_PatchedKernelHdrSize PATCHED_KERNEL_HEADER_SIZE (set_DtbOffset Offset p))
         else mret p);
    let Kptr := if BootingWithPatchedKernel (kind p) then Kptr + PatchedKernelHdrSize p else Kptr in
    magic ← word_at 4 (Kptr + OFFSET_magic_64);
    if negb (magic =? KERNEL64_HDR_MAGIC) && (KernelSize s <=? DTB_OFFSET_LOCATION_IN_ARCH32_KERNEL_HDR)
    then mret (EFI_BAD_BUFFER_SIZE, p) else
    p ← (if negb (magic =? KERNEL64_HDR_MAGIC) then
           Offset ← word_at 4 (Kptr + DTB_OFFSET_LOCATION_IN_ARCH32_KERNEL_HDR);
           mret (set_DtbOffset Offset p)
         else mret p);
    _ ← CopyMem (KernelAt a) Kptr (KernelSize s);
    check_loaded Kptr p.

(** ** Sizes and command line of the headers *)
Definition MaxCatLen : nat := BOOT_ARGS_SIZE + BOOT_EXTRA_ARGS_SIZE + VENDOR_BOOT_ARGS_SIZE.
Definition CatCmdLine (BootHdr VendorHdr : Z) : DT (EFI_STATUS * cmdline_ptr) :=
  if negb (PoolAvailable 0 (Z.of_nat MaxCatLen)) then mret (EFI_OUT_OF_RESOURCES, NoCmdLine) else
  v ← from (VendorHdr + OFFSET_vendor_cmdline);
  vendor ← access (c_string v 0);
  b ← from (BootHdr + OFFSET_v3_cmdline);
  boot ← access (c_string b 0);
  let CmdLine := snd (AsciiStrCpyS [] MaxCatLen vendor) in
  let CmdLine := snd (AsciiStrCatS CmdLine MaxCatLen (bytes " ")) in
  mret (EFI_SUCCESS, CmdLinePool (snd (AsciiStrCatS CmdLine MaxCatLen boot))).

Definition UpdateBootParamsSizeAndCmdLine (Info : LinuxBootInfo) (p : BootParamlist)
  : DT (EFI_STATUS * BootParamlist) :=
  hdr ← from (ImageBuffer p);
  if HeaderVersion Info <? BOOT_HEADER_VERSION_THREE then
    kernel ← access (hdr_kernel_size hdr);
    ramdisk ← access (hdr_ramdisk_size hdr);
    second ← access (hdr_second_size hdr);
    page ← access (hdr_page_size hdr);
    let cmdline := ImageBuffer p + OFFSET_cmdline in
    _ ← store_at (cmdline + Z.of_nat BOOT_ARGS_SIZE - 1) [0];
    mret (EFI_SUCCESS,
      set_CmdLine (CmdLineAt cmdline)
        (set_sizes (mk_boot_sizes page kernel second ramdisk (VendorRamdiskSize (sizes p))) p))
  else
    match GetImage Info (bytes "vendor_boot") with
    | (EFI_SUCCESS, Some v) =>
      vendor ← from (ImageAddress v);
      kernel ← access (v3_kernel_size hdr);
      ramdisk ← access (v3_ramdisk_size hdr);
      vendor_ramdisk ← access (vendor_ramdisk_size vendor);
      page ← access (vendor_page_size vendor);
      let p := set_Vendor (ImageAddress v) (ImageDataSize v)
                 (set_sizes (mk_boot_sizes page kernel 0 ramdisk vendor_ramdisk) p) in
      r ← CatCmdLine (ImageBuffer p) (ImageAddress v);
      mret (fst r, set_CmdLine (snd r) p)
    | (Status, _) => mret (Status, p)
    end.

(** ** Overlay images *)
(** The address and size of the overlays for recovery in the boot image. *)
Definition GetRecoveryDtboInfo (Info : LinuxBootInfo) (p : BootParamlist) : DT (EFI_STATUS * (Z * Z)) :=
  hdr ← from (ImageBuffer p);
  bad ← (if HeaderVersion Info =? BOOT_HEADER_VERSION_ONE then
           ImageHeaderSize ← access (v1_header_size hdr);
           mret (negb (ImageHeaderSize =? SIZEOF_boot_img_hdr_v1 + BOOT_IMAGE_HEADER_V1_RECOVERY_DTBO_SIZE_OFFSET) ||
                 (PageSize (sizes p) <? ImageHeaderSize))
         else mret false);
  if bad : bool then mret (EFI_BAD_BUFFER_SIZE, (DtboImgBuffer p, 0)) else
  Offset ← access (v1_recovery_dtbo_offset hdr);
  size ← access (v1_recovery_dtbo_size hdr);
  let Size := ROUND_TO_PAGE size (u32 (PageSize (sizes p) - 1)) in
  if CHECK_ADD64 Offset Size then mret (EFI_BAD_BUFFER_SIZE, (DtboImgBuffer p, 0)) else
  if ImageSize p <? u64 (Offset + Size) then mret (EFI_BAD_BUFFER_SIZE, (DtboImgBuffer p, 0)) else
  mret (EFI_SUCCESS, (u64 (ImageBuffer p + Offset), Size)).

Definition OFFSET_Dtbo_Magic : Z := 0.
Definition OFFSET_Dtbo_TotalSize : Z := 4.
Definition OFFSET_Dtbo_HeaderSize : Z := 8.
Definition OFFSET_Dtbo_DtEntrySize : Z := 12.
Definition OFFSET_Dtbo_DtEntryCount : Z := 16.
Definition OFFSET_Dtbo_DtEntryOffset : Z := 20.
(** The checks of the table of an overlay image of [Size] bytes. *)
Definition dtbo_table_ok (m : list Z) (Hdr Size : Z) : option bool :=
  Magic ← load32 MemBase m (Hdr + OFFSET_Dtbo_Magic);
  if negb (Magic =? DTBO_TABLE_MAGIC) then Some false else
  if DTBO_MAX_SIZE_ALLOWED <? Size then Some false else
  TotalSize ← load32 MemBase m (Hdr + OFFSET_Dtbo_TotalSize);
  if (DTBO_MAX_SIZE_ALLOWED <? TotalSize) || (TotalSize =? 0) then Some false else
  HeaderSize ← load32 MemBase m (Hdr + OFFSET_Dtbo_HeaderSize);
  if negb (HeaderSize =? SIZEOF_DtboTableHdr) then Some false else
  EntrySize ← load32 MemBase m (Hdr + OFFSET_Dtbo_DtEntrySize);
  if negb (EntrySize =? SIZEOF_DtboTableEntry) then Some false else
  EntryOffset ← load32 MemBase m (Hdr + OFFSET_Dtbo_DtEntryOffset);
  if DTBO_MAX_SIZE_ALLOWED <? EntryOffset then Some false else
  EntryCount ← load32 MemBase m (Hdr + OFFSET_Dtbo_DtEntryCount);
  if Size <? u64 (EntryCount * EntrySize) then Some false else
  if Size <? u64 (EntryOffset + u64 (EntryCount * EntrySize)) then Some false else
  Some true.
(** Whether there is an overlay image, and its address. *)
Definition LoadAndValidateDtboImg (Info : LinuxBootInfo) (p : BootParamlist) : DT (bool * BootParamlist) :=
  r ← (if ((negb (MultiSlotBoot Info) || IsDynamicPartitionSupport) && BootRecovery Info &&
           (BOOT_HEADER_VERSION_ZERO <? HeaderVersion Info)) && (HeaderVersion Info <? BOOT_HEADER_VERSION_THREE)
       then GetRecoveryDtboInfo Info p
       else match GetImage Info (bytes "dtbo") with
            | (EFI_SUCCESS, Some i) => mret (EFI_SUCCESS, (ImageAddress i, ImageDataSize i))
            | (Status, _) => mret (Status, (DtboImgBuffer p, 0))
            end);
  let '(Status, (Buffer, Size)) := r : EFI_STATUS * (Z * Z) in
  if negb (is_success Status) then mret (false, p) else
  let p := set_DtboImgBuffer Buffer p in
  if Buffer =? 0 then mret (false, p) else
  m ← gets Mem;
  ok ← access (dtbo_table_ok m Buffer Size);
  mret (ok, p).
End loading.
