(* ===== verification/BootLoadSpec.v ===== *)
(** * Where the kernel goes, and that loading it writes nowhere else.

    [UpdateBootParams] places kernel, device tree and ramdisk in the region the memory
    map reserves; [GZipPkgCheck] unpacks or copies the kernel to its place. *)
From stdpp Require Import base numbers list option strings.
From Stdlib Require Import ZArith Lia Ascii.
From S2P Require Import Prelude BaseLib MemoryMapConfig MemoryMap StaticMaps Unicode Storage Bytes Partitions Slots Flash DeviceInfo Recovery Board DeviceTree BootImage CmdLine BootLoad StorageSpec BootImageSpec.
Local Open Scope Z_scope.

(** ** The layout *)
Definition load_offset (With32Bit : bool) : Z :=
  if With32Bit then KERNEL_32BIT_LOAD_OFFSET else KERNEL_64BIT_LOAD_OFFSET.
Definition ramdisk_size (s : boot_sizes) : Z := RamdiskSize s + VendorRamdiskSize s.
(** The space for the ramdisks and the page behind them, in the 32 bits of the code. *)
Definition ramdisk_area (s : boot_sizes) : Z :=
  u32 (LOCAL_ROUND_TO_PAGE (u32 (ramdisk_size s)) (PageSize s) + PageSize s).
(** What lies behind the kernel: the device tree, the ramdisks, a page behind each. *)
Definition behind_kernel (s : boot_sizes) : Z := DT_SIZE_2MB + PageSize s + ramdisk_area s.
Record sizes_ok (s : boot_sizes) : Prop := {
  page_range : 0 < PageSize s <= BOOT_IMG_MAX_PAGE_SIZE;
  ramdisk_u32 : in_u32 (RamdiskSize s);
  vendor_ramdisk_u32 : in_u32 (VendorRamdiskSize s)
}.
(** The ramdisks, rounded to pages, and a page are a 32-bit number. *)
Definition ramdisks_fit_u32 (s : boot_sizes) : Prop := up (PageSize s) (ramdisk_size s) + PageSize s < 2 ^ 32.

Lemma LOCAL_ROUND_up p x :
  0 < p -> 0 <= x -> x + p <= 2 ^ 32 -> LOCAL_ROUND_TO_PAGE x p = up p x.
Proof.
  intros. unfold LOCAL_ROUND_TO_PAGE, up. rewrite (u32_small (p - 1)) by (unfold in_u32; lia).
  by rewrite u32_small by (unfold in_u32; lia).
Qed.

Lemma ramdisk_area_fits s :
  sizes_ok s -> ramdisks_fit_u32 s -> ramdisk_area s = up (PageSize s) (ramdisk_size s) + PageSize s.
Proof.
  intros [Hp HR HV] Hf. unfold BOOT_IMG_MAX_PAGE_SIZE, in_u32, ramdisks_fit_u32 in *.
  pose proof (up_bounds (PageSize s) (ramdisk_size s)) as Hup.
  assert (0 <= ramdisk_size s) by (unfold ramdisk_size; lia). unfold ramdisk_area.
  rewrite (u32_small (ramdisk_size s)) by (unfold in_u32; lia).
  rewrite LOCAL_ROUND_up by lia. apply u32_small. unfold in_u32. lia.
Qed.

(** When they are not, the space is too small for them. *)
Lemma ramdisk_area_wraps s :
  sizes_ok s -> ~ ramdisks_fit_u32 s -> ramdisk_area s < ramdisk_size s.
Proof.
  intros [Hp HR HV] Hf. unfold BOOT_IMG_MAX_PAGE_SIZE, in_u32, ramdisks_fit_u32 in *.
  assert (0 <= ramdisk_size s) as H0 by (unfold ramdisk_size; lia).
  pose proof (up_bounds (PageSize s) (ramdisk_size s) ltac:(lia) H0) as Hup.
  unfold ramdisk_area. set (x := ramdisk_size s) in *. set (q := PageSize s) in *.
  pose proof (u32_range (LOCAL_ROUND_TO_PAGE (u32 x) q + q)) as Hr. unfold in_u32 in Hr.
  destruct (Z.le_gt_cases (2 ^ 32) x); [lia|]. rewrite (u32_small x) by (unfold in_u32; lia).
  destruct (Z.le_gt_cases (x + q) (2 ^ 32)).
  - rewrite LOCAL_ROUND_up by lia. unfold u32.
    rewrite <- (Z.mod_unique (up q x + q) (2 ^ 32) 1 (up q x + q - 2 ^ 32)); lia.
  - unfold LOCAL_ROUND_TO_PAGE. rewrite (u32_small (q - 1)) by (unfold in_u32; lia).
    assert (u32 (x + (q - 1)) = x + (q - 1) - 2 ^ 32) as ->.
    { unfold u32. rewrite <- (Z.mod_unique (x + (q - 1)) (2 ^ 32) 1 (x + (q - 1) - 2 ^ 32)); lia. }
    pose proof (ldiff_bounds (x + (q - 1) - 2 ^ 32) (q - 1)) as Hl.
    rewrite u32_small by (unfold in_u32; lia). lia.
Qed.

Lemma UpdateBootParams_addrs Load Reserved With32Bit base s :
  sizes_ok s -> 0 <= Load -> Load + Reserved < 2 ^ 64 -> 0 <= Reserved ->
  Load + load_offset With32Bit < 2 ^ 64 -> behind_kernel s <= Load + Reserved ->
  UpdateBootParams (Some (Load, Reserved)) With32Bit base s =
  (if load_offset With32Bit + behind_kernel s <? Reserved then EFI_SUCCESS else EFI_BUFFER_TOO_SMALL,
   mk_load_addrs (Load + load_offset With32Bit) (Load + Reserved)
     (Load + Reserved - ramdisk_area s) (Load + Reserved - behind_kernel s)).
Proof.
  intros [Hp _ _] HL HE HRes HK HB. unfold BOOT_IMG_MAX_PAGE_SIZE in Hp.
  pose proof (u32_range (LOCAL_ROUND_TO_PAGE (u32 (ramdisk_size s)) (PageSize s) + PageSize s)) as HA.
  fold (ramdisk_area s) in HA. unfold in_u32 in HA.
  assert (0 <= load_offset With32Bit) as Hoff by (by destruct With32Bit).
  unfold UpdateBootParams. fold (load_offset With32Bit) (ramdisk_size s) (ramdisk_area s). cbv zeta.
  unfold behind_kernel, DT_SIZE_2MB in *.
  rewrite (u64_small (Load + load_offset With32Bit)) by (unfold in_u64; lia).
  rewrite (u64_small (Load + Reserved)) by (unfold in_u64; lia).
  rewrite (u32_small (2 * 1024 * 1024 + _)) by (unfold in_u32; lia).
  rewrite (u64_small (Load + Reserved - ramdisk_area s)) by (unfold in_u64; lia).
  rewrite u64_small by (unfold in_u64; lia).
  destruct (Z.leb_spec (Load + Reserved - ramdisk_area s - (2 * 1024 * 1024 + PageSize s))
              (Load + load_offset With32Bit)),
    (Z.ltb_spec (load_offset With32Bit + (2 * 1024 * 1024 + PageSize s + ramdisk_area s)) Reserved);
    try lia; f_equal; f_equal; lia.
Qed.

(** C21: with the kernel's region of the memory map, whenever the subtractions of the
    code do not pass below zero, UpdateBootParams succeeds exactly when the offset of
    the kernel, the space for the device tree and the one for the ramdisks leave at
    least a byte of the region; the size of the kernel is not asked for, and its room
    is what lies between its place and the device tree. The device tree has 2 MiB and a
    page before the ramdisks, whose space ends with the region. It holds the ramdisks
    and a page when their sum, rounded to pages, is a 32-bit number, and then wastes
    less than another page; else it is too small for them, for the sum wraps, and the
    ramdisks reach beyond the region. *)
Theorem UpdateBootParams_layout `{BaseLib} MemoryMap Load Reserved With32Bit base s Status a :
  QueryBootParams MemoryMap = Some (Some (Load, Reserved)) ->
  sizes_ok s -> 0 <= Load -> 0 <= Reserved -> Load + Reserved < 2 ^ 64 ->
  Load + load_offset With32Bit < 2 ^ 64 -> behind_kernel s <= Load + Reserved ->
  option_map (fun Region => UpdateBootParams Region With32Bit base s) (QueryBootParams MemoryMap) = Some (Status, a) ->
  (Status = EFI_SUCCESS <-> load_offset With32Bit + behind_kernel s < Reserved) /\
  KernelAt a = Load + load_offset With32Bit /\ KernelEndAddr a = Load + Reserved /\
  DeviceTreeLoadAddr a + DT_SIZE_2MB + PageSize s = RamdiskAt a /\
  (Status = EFI_SUCCESS ->
     Load <= KernelAt a < DeviceTreeLoadAddr a /\
     DeviceTreeLoadAddr a - KernelAt a = Reserved - (load_offset With32Bit + behind_kernel s)) /\
  (ramdisks_fit_u32 s ->
     RamdiskAt a + ramdisk_size s + PageSize s <= KernelEndAddr a <
       RamdiskAt a + ramdisk_size s + 2 * PageSize s) /\
  (~ ramdisks_fit_u32 s -> KernelEndAddr a < RamdiskAt a + ramdisk_size s).
Proof.
  intros -> Hs HL HRes HE HK HB. cbn [option_map]. rewrite UpdateBootParams_addrs by done.
  intros [= <- <-]. cbn [KernelAt DeviceTreeLoadAddr RamdiskAt KernelEndAddr].
  assert (0 <= load_offset With32Bit) by (by destruct With32Bit).
  split.
  { destruct (Z.ltb_spec (load_offset With32Bit + behind_kernel s) Reserved); [by split; [lia|]|].
    split; [done|lia]. }
  split; [done|]. split; [done|]. split; [unfold behind_kernel; lia|]. split.
  { destruct (Z.ltb_spec (load_offset With32Bit + behind_kernel s) Reserved); [intros _; lia|done]. }
  split; [|intros Hf; apply ramdisk_area_wraps in Hf; [lia|done]].
  intros Hf. rewrite ramdisk_area_fits by done. destruct Hs as [Hp HR HV]. unfold in_u32 in *.
  pose proof (up_bounds (PageSize s) (ramdisk_size s)). unfold ramdisk_size in *. lia.
Qed.

(** ** Unpacking the kernel *)
(** Two memories that differ between two offsets only. *)
Definition confined (lo hi : Z) (m m' : list Z) : Prop :=
  length m' = length m /\ forall i, ~ (lo <= Z.of_nat i < hi) -> m' !! i = m !! i.
Lemma confined_refl lo hi m : confined lo hi m m.
Proof. by split. Qed.

Lemma wr_inv buf off bs buf' :
  wr buf off bs = Some buf' ->
  0 <= off /\ off + Z.of_nat (length bs) <= Z.of_nat (length buf) /\ buf' = upd buf off bs.
Proof.
  unfold wr. destruct (Z.ltb_spec off 0), (Z.ltb_spec (Z.of_nat (length buf)) (off + Z.of_nat (length bs)));
    cbn [orb]; try done. by intros [= <-].
Qed.
Lemma wr_confined buf off bs buf' hi :
  wr buf off bs = Some buf' -> off + Z.of_nat (length bs) <= hi -> confined off hi buf buf'.
Proof.
  intros (H0 & H1 & ->)%wr_inv Hhi. split; [by apply upd_length|].
  intros i Hi. rewrite upd_lookup by done. case_decide; [lia|done].
Qed.
Lemma wr_rd buf off bs buf' :
  wr buf off bs = Some buf' -> rd buf' off (length bs) = Some bs.
Proof.
  intros (H0 & H1 & ->)%wr_inv. rewrite rd_slice by (rewrite ?upd_length; lia).
  f_equal. apply list_eq. intros i. rewrite slice_lookup. case_decide.
  - rewrite upd_lookup by done. case_decide; [|lia]. f_equal. lia.
  - symmetry. apply lookup_ge_None_2. lia.
Qed.

Section loading.
Context {FW : Firmware} {BL : BaseLib} {UL : UnicodeLib} {AL : AsciiLib} {AC : AsciiCatLib}.
Context {BC : BuildConfig} {ZL : Zlib} {ZLL : ZlibLaws ZL}.
Variable MemBase : Z.

Lemma skip_name_spec m n next avail next' avail' :
  0 <= avail -> skip_name MemBase m n next avail = Some (Some (next', avail')) ->
  next <= next' /\ 0 <= avail' <= avail /\ next' + avail' <= next + avail + 1.
Proof.
  revert next avail. induction n as [|n IH]; intros next avail Ha; cbn [skip_name].
  - intros [= <- <-]. lia.
  - destruct (rd m (next - MemBase) 1) as [b|]; [bind_step|done]. case_bool_decide.
    { intros [= <- <-]. lia. }
    destruct (Z.eqb_spec avail 0); [done|]. intros Hs%IH; lia.
Qed.

(** What decompressing does to the state: the output is written, or nothing. *)
Definition unpacked (in_buf in_len out_buf n : Z) (s : dt_state) (r : option (Z * Z)) (s' : dt_state) : Prop :=
  (r = None /\ s' = s) \/
  exists next avail input rc out used m',
    in_buf + GZIP_HEADER_LEN <= next /\ next + avail <= in_buf + in_len + 1 /\
    rd (Mem s) (next - MemBase) (Z.to_nat avail) = Some input /\
    inflate input n = (rc, out, used) /\ wr (Mem s) (out_buf - MemBase) out = Some m' /\
    s' = set_Mem m' s /\
    match r with
    | Some (_, OutLen) => rc = Z_STREAM_END /\ OutLen = Z.of_nat (length out)
    | None => True
    end.

Lemma decompress_unpacked in_buf in_len out_buf n s r s' :
  decompress MemBase in_buf in_len out_buf n s = Some (r, s') -> unpacked in_buf in_len out_buf n s r s'.
Proof.
  unfold decompress. destruct (Z.leb_spec in_len GZIP_HEADER_LEN); [intros [= <- <-]; by left|].
  unfold GZIP_HEADER_LEN in *.
  destruct (n <=? in_len); [intros [= <- <-]; by left|].
  destruct (negb _); [intros [= <- <-]; by left|]. intros H'. run_in H'.
  destruct (rd _ (in_buf + 3 - MemBase) 1) as [flags|]; [|done]. run_in H'.
  destruct (if negb (Z.land (le_value flags) 8 =? 0) then _ else _) as [[[next avail]|]|] eqn:E;
    [|injection H' as <- <-; by left|done].
  assert (in_buf + 10 <= next /\ 0 <= avail /\ next + avail <= in_buf + in_len + 1) as Hn.
  { case_if_in E; [apply skip_name_spec in E; lia|]. injection E as <- <-. lia. }
  run_in H'. destruct (negb inflateInit2); [injection H' as <- <-; by left|].
  unfold load_at, store_at in H'. run_in H'.
  destruct (rd (Mem s) (next - MemBase) _) as [input|] eqn:Ein; [|done]. run_in H'.
  destruct (inflate input n) as [[rc out] used] eqn:Einf. run_in H'.
  destruct (wr _ _ out) as [m'|] eqn:Ewr; [|done]. run_in H'.
  right. exists next, avail, input, rc, out, used, m'.
  destruct rc; injection H' as <- <-; unfold GZIP_HEADER_LEN; repeat split; (lia || done).
Qed.

Lemma check_loaded_spec Kptr p s St p' s' :
  check_loaded MemBase Kptr p s = Some ((St, p'), s') ->
  s' = s /\ addrs p' = addrs p /\ sizes p' = sizes p /\
  (St = EFI_SUCCESS -> BootingWith32BitKernel (kind p') = false ->
   exists Size, field 8 (Mem s) (Kptr + OFFSET_ImageSize - MemBase) = Some Size /\
     Size <= u64 (DeviceTreeLoadAddr (addrs p) - KernelAt (addrs p))).
Proof.
  unfold check_loaded, word_at. intros H. run_in H.
  destruct (field 4 _ _) as [magic|]; [|done]. run_in H. destruct (negb _).
  { injection H as <- <- <-. by destruct p. }
  run_in H. destruct (field 8 _ _) as [Size|]; [|done]. run_in H.
  destruct (Z.ltb_spec (u64 (DeviceTreeLoadAddr (addrs p) - KernelAt (addrs p))) Size);
    injection H as <- <- <-; [done|]. repeat split. intros _ _. by exists Size.
Qed.

(** C20: whatever a compressed kernel contains, unpacking it writes
    only between the place of the kernel and that of the device tree, and reads its input
    from the package, but for one byte behind it; when GZipPkgCheck succeeds, the kernel's
    place holds the decompressed package, longer than a pointer, and the size in the header
    of a 64-bit kernel ends before the device tree. *)
Theorem GZipPkgCheck_contained p s St p' s' :
  BootingWithGzipPkgKernel (kind p) = true ->
  0 <= KernelAt (addrs p) <= DeviceTreeLoadAddr (addrs p) -> in_u64 (DeviceTreeLoadAddr (addrs p)) ->
  GZipPkgCheck MemBase p s = Some ((St, p'), s') ->
  let Kernel := KernelAt (addrs p) in
  let DeviceTree := DeviceTreeLoadAddr (addrs p) in
  let Package := ImageBuffer p + PageSize (sizes p) in
  confined (Kernel - MemBase) (DeviceTree - MemBase) (Mem s) (Mem s') /\ set_Mem (Mem s) s' = s /\
  addrs p' = addrs p /\ sizes p' = sizes p /\
  (St = EFI_SUCCESS ->
   exists next avail input out used,
     Package + GZIP_HEADER_LEN <= next /\ next + avail <= Package + KernelSize (sizes p) + 1 /\
     rd (Mem s) (next - MemBase) (Z.to_nat avail) = Some input /\
     inflate input (DeviceTree - Kernel) = (Z_STREAM_END, out, used) /\
     rd (Mem s') (Kernel - MemBase) (length out) = Some out /\
     8 < Z.of_nat (length out) <= DeviceTree - Kernel /\
     (BootingWith32BitKernel (kind p') = false ->
      exists Size, field 8 (Mem s') (Kernel + OFFSET_ImageSize - MemBase) = Some Size /\
        Kernel + Size <= DeviceTree)).
Proof.
  intros Hg HK HD H Kernel DeviceTree Package. unfold in_u64 in HD. unfold GZipPkgCheck in H.
  fold Kernel DeviceTree in HK, H. fold DeviceTree in HD. rewrite Hg in H.
  rewrite u64_small in H by (unfold in_u64; lia). case_if_in H.
  { injection H as <- <- <-. repeat split; [by destruct s|done..]. }
  run_in H. fold Package in H.
  destruct (decompress _ _ _ _ _ s) as [[r s1]|] eqn:Eu; [|done].
  apply decompress_unpacked in Eu as [[-> ->]|(next & avail & input & rc & out & used & m' & Hn & Ha & Hin & Hinf & Hwr & -> & Hr)].
  { injection H as <- <- <-. repeat split; [by destruct s|done..]. }
  assert (Z.of_nat (length out) <= DeviceTree - Kernel) as Hout by (eapply inflate_out; [lia|exact Hinf]).
  assert (confined (Kernel - MemBase) (DeviceTree - MemBase) (Mem s) m') as Hc.
  { eapply wr_confined; [done|]. lia. }
  assert (set_Mem (Mem s) (set_Mem m' s) = s) as Hs by by destruct s.
  destruct r as [[pos OutLen]|].
  2: { injection H as <- <- <-. by repeat split; try apply Hc. }
  destruct Hr as [-> ->].
  destruct (Z.leb_spec (Z.of_nat (length out)) 8).
  { injection H as <- <- <-. by repeat split; try apply Hc. }
  apply check_loaded_spec in H as (-> & -> & -> & HS).
  repeat split; [apply Hc..|done|]. intros HSt.
  exists next, avail, input, out, used. repeat split; try (done || lia).
  - by eapply wr_rd.
  - intros H32. destruct (HS HSt H32) as (Size & Hf & Hle). exists Size. split; [done|].
    cbn [addrs set_DtbOffset] in Hle. fold Kernel DeviceTree in Hle.
    rewrite u64_small in Hle by (unfold in_u64; lia). lia.
Qed.
End loading.

(** ** Witnesses *)
(** The built-in map of SM8350 for the first boards: 256 MiB for the kernel. *)
Definition demo_sizes : boot_sizes := mk_boot_sizes 4096 0x1800000 0 0x1000000 0x200000.

Lemma UpdateBootParams_layout_witness :
  exists a, @QueryBootParams reference_BaseLib (Sm8350_GetPlatformMemoryMap false 0x9) = Some (Some (0xE3402000, 0x10000000)) /\
    UpdateBootParams (Some (0xE3402000, 0x10000000)) false 0x80000000 demo_sizes = (EFI_SUCCESS, a) /\
    KernelAt a = 0xE3482000 /\ KernelAt a < DeviceTreeLoadAddr a /\ DeviceTreeLoadAddr a + DT_SIZE_2MB + 4096 = RamdiskAt a /\
    RamdiskAt a + 0x1200000 + 4096 <= KernelEndAddr a < RamdiskAt a + 0x1200000 + 8192.
Proof.
  assert (@QueryBootParams reference_BaseLib (Sm8350_GetPlatformMemoryMap false 0x9) =
          Some (Some (0xE3402000, 0x10000000))) as E by (vm_compute; reflexivity).
  assert (behind_kernel demo_sizes = 0x1402000) as HB by (vm_compute; reflexivity).
  destruct (UpdateBootParams (Some (0xE3402000, 0x10000000)) false 0x80000000 demo_sizes) as [St a] eqn:Ea.
  destruct (@UpdateBootParams_layout reference_BaseLib (Sm8350_GetPlatformMemoryMap false 0x9)
    0xE3402000 0x10000000 false 0x80000000 demo_sizes St a) as [Hi Hs].
  - exact E.
  - split; vm_compute; repeat split; congruence.
  - lia.
  - lia.
  - lia.
  - vm_compute. reflexivity.
  - rewrite HB. lia.
  - rewrite E. cbn [option_map]. rewrite Ea. reflexivity.
  - destruct Hi as [_ Hi]. destruct Hs as (HK & _ & HR & HD & HU & _).
    assert (St = EFI_SUCCESS) as Su by (apply Hi; rewrite HB; vm_compute; reflexivity).
    exists a. split; [exact E|]. split; [by rewrite Su|]. split; [exact HK|].
    split; [by apply HD|]. split; [exact HR|]. apply HU. vm_compute. reflexivity.
Defined.

(** zlib for one stored block. *)
Definition stored_inflate (input : list Z) (n : Z) : zlib_rc * list Z * Z :=
  match input with
  | 1 :: l0 :: l1 :: _ :: _ :: rest =>
    let len := l0 + 256 * l1 in
    if (0 <=? len) && (len <=? n) && (len <=? Z.of_nat (length rest))
    then (Z_STREAM_END, take (Z.to_nat len) rest, 5 + len) else (Z_ERROR, [], 0)
  | _ => (Z_ERROR, [], 0)
  end.
Definition stored_Zlib : Zlib := {| inflateInit2 := true; inflate := stored_inflate |}.
Lemma stored_Zlib_laws : ZlibLaws stored_Zlib.
Proof.
  assert (forall input n rc out used, stored_inflate input n = (rc, out, used) ->
    (rc = Z_ERROR /\ out = [] /\ used = 0) \/
    (Z.of_nat (length out) <= n /\ 0 <= used <= Z.of_nat (length input))) as H.
  { intros input n rc out used. unfold stored_inflate.
    repeat (case_match; try (intros [= <- <- <-]; by left)).
    intros [= <- <- <-]. right. bool_to_prop. rewrite length_take. cbn [length]. lia. }
  split; [intros input n rc out used Hn E|intros input n rc out used E].
  - destruct (H _ _ _ _ _ E) as [(_ & -> & _)|[? _]]; [|done].
    done.
  - destruct (H _ _ _ _ _ E) as [(_ & _ & ->)|[_ ?]]; [lia|done].
Qed.

(** A package of one stored block of 60 bytes: a 64-bit kernel that says it has 60. *)
Definition demo_kernel : list Z := repeat 0x14 16 ++ le_bytes 8 60 ++ repeat 7 32 ++ le_bytes 4 KERNEL64_HDR_MAGIC.
Definition demo_package : list Z :=
  [0x1f; 0x8b; 8; 0; 0; 0; 0; 0; 0; 3] ++ [1; 60; 0; 195; 255] ++ demo_kernel ++ repeat 0 8.
Definition demo_loading : dt_state :=
  mk_dt_state (repeat 0 16 ++ demo_package ++ repeat 0 125) true (-1) (-1) 0 false [] 0 0
    (mk_board None 0 (mk_board_info (mk_platform 0 0 0 false) 0 [] 0 0 0 0)).
Definition demo_loading_params : BootParamlist :=
  set_kind (mk_kernel_kind false false true)
    (set_addrs (mk_load_addrs 0x1070 0x10e0 0x10e0 0x10d0)
      (set_sizes (mk_boot_sizes 16 83 0 0 0) (set_Image 0x1000 99 zero_params))).

Section demo.
#[local] Existing Instances stored_Zlib stored_Zlib_laws.
Lemma GZipPkgCheck_contained_witness :
  exists p' s', @GZipPkgCheck demo_Firmware stored_Zlib 0x1000 demo_loading_params demo_loading = Some ((EFI_SUCCESS, p'), s') /\
    rd (Mem s') 0x70 60 = Some demo_kernel /\ confined 0x70 0xd0 (Mem demo_loading) (Mem s').
Proof.
  destruct (@GZipPkgCheck demo_Firmware stored_Zlib 0x1000 demo_loading_params demo_loading) as [[[St p'] s']|] eqn:E;
    [|vm_compute in E; discriminate].
  assert (St = EFI_SUCCESS) as -> by (vm_compute in E; congruence).
  exists p', s'. split; [reflexivity|].
  destruct (@GZipPkgCheck_contained demo_Firmware stored_Zlib stored_Zlib_laws 0x1000 demo_loading_params demo_loading
    EFI_SUCCESS p' s') as (Hc & _); [reflexivity|vm_compute; split; congruence|vm_compute; split; congruence|exact E|].
  split; [|exact Hc].
  change (rd (Mem s') 0x70 60) with
    (default None (option_map (fun q => rd (Mem (snd q)) 0x70 60) (Some ((EFI_SUCCESS, p'), s')))).
  rewrite <- E. vm_compute. reflexivity.
Defined.
End demo.
