(* ===== verification/FdtRw.v ===== *)
(** * Changing a device tree: properties, and the list of first-level nodes that makes
    the search for a path fast.

    [Platforms/QcomModulePkg/Library/BootLib/FdtRw.c] with [Include/Library/FdtRw.h].

    The tree lies in the memory of DeviceTree.v; libfdt gets that memory from the tree on,
    and its functions that change the tree return it changed. *)
From stdpp Require Import base numbers list option strings.
From Stdlib Require Import ZArith Lia Ascii.
From S2P Require Import Prelude BaseLib Unicode Storage Bytes Board DeviceTree.
Local Open Scope Z_scope.

(** ** libfdt: the functions that walk over a tree or change it.  A pointer into the tree
    is an offset from its start; a property is the offset of its value and the length. *)
Class LibfdtRw := {
  fdt_get_property : list Z -> Z -> list Z -> option Z * Z;
  fdt_setprop : list Z -> Z -> list Z -> list Z -> Z * list Z;
  fdt_appendprop : list Z -> Z -> list Z -> list Z -> Z * list Z;
  fdt_setprop_inplace : list Z -> Z -> list Z -> list Z -> Z * list Z;
  (** The next node, and the depth counter after it. *)
  fdt_next_node : list Z -> Z -> Z -> Z * Z;
  fdt_offset_ptr : list Z -> Z -> nat -> option Z;
  fdt_get_alias_namelen : list Z -> list Z -> option Z;
  fdt_first_subnode : list Z -> Z -> Z;
  fdt_next_subnode : list Z -> Z -> Z;
  fdt_subnode_offset : list Z -> Z -> list Z -> Z;
  fdt_open_into : list Z -> Z -> Z * list Z;
  fdt_pack : list Z -> Z * list Z
}.

(** The PCDs of QcomModulePkg.dec. *)
Class DtBuild := {
  EnableNewNodeSearchFuc : bool;
  EnablePartialGoods : bool
}.

Definition FDT_TAGSIZE : Z := 4.
Definition SIZEOF_fdt_property : Z := 12.
Definition FDT_ERR_BADPATH : Z := 5.
Definition SIZEOF_FDT_FIRST_LEVEL_NODE : Z := 24.
Definition FDT_ALIGN (x a : Z) : Z := Z.ldiff (x + a - 1) (a - 1).
Definition FDT_TAGALIGN (x : Z) : Z := FDT_ALIGN x FDT_TAGSIZE.

(** ** State: FDT_FIRST_LEVEL_NODE, the last one first *)
Record first_level_node := mk_node { NodeName : list Z; NodeOffset : Z }.
Record fdt_state := mk_fdt_state { Tree : dt_state; NodeList : list first_level_node }.
Abbreviation FD := (M fdt_state).
Definition tree_of {A} (m : DT A) : FD A := fun s =>
  match m (Tree s) with Some (a, t) => Some (a, mk_fdt_state t (NodeList s)) | None => None end.
Definition set_NodeList (l : list first_level_node) (s : fdt_state) : fdt_state :=
  mk_fdt_state (Tree s) l.
Definition move_node (DiffLen : Z) (n : first_level_node) : first_level_node :=
  mk_node (NodeName n) (s32 (NodeOffset n + DiffLen)).

Section fdt.
Context {FW : Firmware} {BL : BaseLib} {UL : UnicodeLib} {LF : Libfdt} {LR : LibfdtRw} {DB : DtBuild}.
Variable MemBase : Z.

(** The memory from the tree on, and storing what libfdt made of it. *)
Definition blob (Fdt : Z) : FD (list Z) :=
  m ← gets (fun s => Mem (Tree s)); if Fdt <? MemBase then crash else mret (fdt_at MemBase m Fdt).
Definition change_blob (Fdt : Z) (f : list Z -> Z * list Z) : FD Z :=
  t ← blob Fdt;
  let (Ret, t) := f t in
  m ← gets (fun s => Mem (Tree s));
  _ ← tree_of (modify (set_Mem (take (Z.to_nat (Fdt - MemBase)) m ++ t)));
  mret Ret.

(** ** The list of nodes *)
Definition FdtDeleteNodeList : FD unit := modify (set_NodeList []).
Definition GetNodeNameLen (Name : list Z) : nat := count_while (fun c => negb (c =? ch "{")) Name.
Fixpoint IsNodeAdded (l : list first_level_node) (Name : list Z) (NameLen : nat) : bool :=
  match l with
  | [] => false
  | Node :: l' => if AsciiStrnCmp (NodeName Node) Name NameLen =? 0 then true else IsNodeAdded l' Name NameLen
  end.
Definition FdtAppendToNodeList (Name : list Z) (Offset : Z) : FD unit :=
  let NameLen := GetNodeNameLen Name in
  l ← gets NodeList;
  if IsNodeAdded l Name NameLen then mret tt else
  if PoolAvailable 0 SIZEOF_FDT_FIRST_LEVEL_NODE && PoolAvailable 1 (Z.of_nat NameLen + 1)
  then modify (set_NodeList (mk_node (take NameLen Name) Offset :: l))
  else FdtDeleteNodeList.

(** The node found, or where to go on: behind the last node of the list. *)
Fixpoint find_node (l : list first_level_node) (Name : list Z) (NameLen : nat) : option Z :=
  match l with
  | [] => None
  | Node :: l' => if AsciiStrnCmp (NodeName Node) Name NameLen =? 0 then Some (NodeOffset Node)
                  else find_node l' Name NameLen
  end.
Definition FdtFindNodeFromList (l : list first_level_node) (Name : list Z) (NameLen : nat) : bool * Z :=
  match find_node l Name NameLen with
  | Some Offset => (true, Offset)
  | None => (false, match l with [] => 0 | Node :: _ => NodeOffset Node end)
  end.

(** The loop stops at the first node that does not lie behind the change. *)
Fixpoint move_nodes (l : list first_level_node) (Offset DiffLen : Z) : list first_level_node :=
  match l with
  | [] => []
  | Node :: l' => if Offset <? NodeOffset Node then move_node DiffLen Node :: move_nodes l' Offset DiffLen
                  else Node :: l'
  end.
Definition FdtUpdateNodeOffsetInList (Offset DiffLen : Z) : FD unit :=
  if DiffLen =? 0 then mret tt
  else modify (fun s => set_NodeList (move_nodes (NodeList s) Offset DiffLen) s).

(** ** Searching.  The name at a pointer is compared with the first characters of
    [Source]; a unit address may be missing in the latter. *)
Definition FdtNodeNameEq (t : list Z) (Offset : Z) (Source : list Z) (Len : nat) : option bool :=
  match fdt_offset_ptr t (Offset + FDT_TAGSIZE) (Len + 1) with
  | None => Some false
  | Some Ptr =>
    name ← rd t Ptr (Len + 1);
    if negb (bool_decide (take Len name = take Len Source)) then Some false else
    last ← name !! Len;
    Some ((last =? 0) || (negb (bool_decide (ch "@" ∈ take Len Source)) && (last =? ch "@")))
  end.

(** [fuel] steps over nodes; the fault is a loop that runs longer than the tree. *)
Fixpoint subnode_loop (fuel : nat) (Fdt : Z) (Level Offset Depth : Z) (Name : list Z) (NameLen : nat) : FD Z :=
  if negb ((0 <=? Offset) && (0 <=? Depth)) then mret (if Depth <? 0 then -1 else Offset) else
  match fuel with
  | O => crash
  | S fuel' =>
    t ← blob Fdt;
    let next :=
      let (Offset, Depth) := fdt_next_node t Offset Depth in
      subnode_loop fuel' Fdt Level Offset Depth Name NameLen in
    if Depth =? 1 then
      short ← (if Level =? 0 then
                 match fdt_offset_ptr t (Offset + FDT_TAGSIZE) (NameLen + 1) with
                 | None => mret true
                 | Some Ptr =>
                   s ← access (c_string t (Z.to_nat Ptr));
                   _ ← FdtAppendToNodeList s Offset;
                   mret false
                 end
               else mret false);
      if short : bool then mret 0 else
      eq ← access (FdtNodeNameEq t Offset Name NameLen);
      if eq : bool then mret Offset else next
    else next
  end.
Definition FdtSubnodeOffsetNamelen (Fdt Offset : Z) (Name : list Z) (NameLen : nat) (Level : Z) : FD Z :=
  t ← blob Fdt;
  let Ret := fdt_check_header t in
  if negb (Ret =? 0) then mret Ret else
  l ← gets NodeList;
  if Level =? 0 then
    let (found, From) := FdtFindNodeFromList l Name NameLen in
    if found : bool then mret From
    else subnode_loop (S (length t)) Fdt Level From (if From =? 0 then 0 else 1) Name NameLen
  else subnode_loop (S (length t)) Fdt Level Offset 0 Name NameLen.

(** The components of a path, from [Ptr] on. *)
Fixpoint path_loop (fuel : nat) (Fdt Offset : Z) (Ptr : list Z) (Level : Z) : FD Z :=
  match fuel with
  | O => crash
  | S fuel' =>
    let Ptr := ltrim (fun c => c =? ch "/") Ptr in
    match Ptr with
    | [] => mret Offset
    | _ =>
      let Len := count_while (fun c => negb (c =? ch "/")) Ptr in
      Offset ← FdtSubnodeOffsetNamelen Fdt Offset Ptr Len Level;
      if Offset <? 0 then mret Offset else path_loop fuel' Fdt Offset (drop Len Ptr) (u32 (Level + 1))
    end
  end.
Definition absolute (Path : list Z) : bool := match Path with [] => false | c :: _ => c =? ch "/" end.
(** [depth] bounds the aliases of aliases. *)
Fixpoint FdtPathOffsetEx (depth : nat) (Fdt : Z) (Path : list Z) : FD Z :=
  t ← blob Fdt;
  if EnableNewNodeSearchFuc then
    let Ret := fdt_check_header t in
    if negb (Ret =? 0) then mret Ret else
    if absolute Path then path_loop (S (length Path)) Fdt 0 Path 0 else
    let Len := count_while (fun c => negb (c =? ch "/")) Path in
    match fdt_get_alias_namelen t (take Len Path), depth with
    | None, _ => mret (- FDT_ERR_BADPATH)
    | Some _, O => crash
    | Some a, S depth' =>
      alias ← access (c_string t (Z.to_nat a));
      Offset ← FdtPathOffsetEx depth' Fdt alias;
      path_loop (S (length Path)) Fdt Offset (drop Len Path) 0
    end
  else mret (fdt_path_offset t Path).

(** ** Properties *)
Definition prop_len (t : list Z) (Offset : Z) (Name : list Z) : Z :=
  match fdt_get_property t Offset Name with
  | (Some _, Len) => if Len <? 0 then 0 else Len
  | (None, _) => 0
  end.
Definition FdtGetPropLen (Fdt Offset : Z) (Name : list Z) : FD Z :=
  t ← blob Fdt; mret (prop_len t Offset Name).

(** The macro FdtPropUpdateFunc, and [FdtSetPropEx], which is the same for [fdt_setprop]:
    the tree is changed, then the offsets in the list. *)
Definition FdtPropUpdateFunc (Fdt Offset : Z) (FdtUpdateFunc : list Z -> Z -> list Z -> list Z -> Z * list Z)
    (Name Val : list Z) : FD Z :=
  if EnableNewNodeSearchFuc then
    OldLen ← FdtGetPropLen Fdt Offset Name;
    Ret ← change_blob Fdt (fun t => FdtUpdateFunc t Offset Name Val);
    if Ret =? 0 then
      NewLen ← FdtGetPropLen Fdt Offset Name;
      let NewLen :=
        if (OldLen =? 0) && negb (NewLen =? 0) then s32 (SIZEOF_fdt_property + FDT_TAGALIGN NewLen) else NewLen in
      _ ← FdtUpdateNodeOffsetInList Offset (s32 (FDT_TAGALIGN NewLen - FDT_TAGALIGN OldLen));
      mret Ret
    else mret Ret
  else change_blob Fdt (fun t => FdtUpdateFunc t Offset Name Val).
Definition FdtSetPropEx (Fdt Offset : Z) (Name Val : list Z) : FD Z :=
  FdtPropUpdateFunc Fdt Offset fdt_setprop Name Val.

(** The values of libfdt's inline functions: big-endian words, and a string with its
    terminator. *)
Definition be_bytes (n : nat) (x : Z) : list Z := reverse (le_bytes n x).
Definition prop_u32 (x : Z) : list Z := be_bytes 4 x.
Definition prop_u64 (x : Z) : list Z := be_bytes 8 x.
Definition prop_string (s : list Z) : list Z := s ++ [0].
End fdt.
