(* ===== verification/FdtRwSpec.v ===== *)
(** * The cached offsets of first-level nodes are never stale.

    FdtRw.c remembers the offsets of the nodes it passed and moves them when a property
    grows.  Whatever is looked up and whatever properties are set, every offset of the list
    stays that of its node. *)
From stdpp Require Import base numbers list option strings relations.
From Stdlib Require Import ZArith Lia Ascii.
From S2P Require Import Prelude BaseLib Unicode Storage Bytes StorageSpec Board DeviceTree FdtRw.
Local Open Scope Z_scope.

(** ** What is relied on of libfdt *)
(** The room a property takes. *)
Definition prop_room `{LibfdtRw} (t : list Z) (Offset : Z) (Name : list Z) : Z :=
  match fdt_get_property t Offset Name with
  | (Some _, Len) => SIZEOF_fdt_property + FDT_TAGALIGN Len
  | (None, _) => 0
  end.
Definition shift (Offset d o : Z) : Z := if Offset <? o then o + d else o.

Class LibfdtRwLaws (LF : Libfdt) (LR : LibfdtRw) := {
  check_header_law t : fdt_check_header t <= 0;
  (** Depth and name of the node at an offset. *)
  node_at : list Z -> Z -> option (Z * list Z);
  root_law t : fdt_check_header t = 0 -> exists n, node_at t 0 = Some (0, n);
  node_range t o d n : node_at t o = Some (d, n) -> 0 <= o < 2 ^ 30 /\ (o = 0 -> d = 0);
  (** "Finds the next node, and counts the levels entered and left on the way." *)
  fdt_next_node_law t o d n o' d' :
    node_at t o = Some (d, n) -> fdt_next_node t o d = (o', d') -> 0 <= o' -> 0 <= d' ->
    o < o' /\ exists n', node_at t o' = Some (d', n');
  (** The name of a node follows its tag. *)
  fdt_offset_ptr_law t o d n len a :
    node_at t o = Some (d, n) -> fdt_offset_ptr t (o + FDT_TAGSIZE) len = Some a ->
    c_string t (Z.to_nat a) = Some n;
  get_property_law t o Name : 0 <= snd (fdt_get_property t o Name) < 2 ^ 29 \/ fst (fdt_get_property t o Name) = None;
  (** A property that changes its room moves the nodes behind it, and no other. *)
  setprop_law f t o Name Val t' :
    f = fdt_setprop \/ f = fdt_appendprop -> f t o Name Val = (0, t') ->
    (forall x v, node_at t x = Some v ->
       node_at t' (shift o (prop_room t' o Name - prop_room t o Name) x) = Some v /\
       (o < x -> o < x + (prop_room t' o Name - prop_room t o Name))) /\
    exists p Len, fdt_get_property t' o Name = (Some p, Len) /\ (Val <> [] -> 0 < Len);
  (** On an error the nodes stay. *)
  setprop_error f t o Name Val r t' :
    f = fdt_setprop \/ f = fdt_appendprop -> f t o Name Val = (r, t') -> r <> 0 ->
    node_at t' = node_at t
}.

Section spec.
Context {FW : Firmware} {BL : BaseLib} {UL : UnicodeLib} {ULL : UnicodeLibLaws UL}.
Context {LF : Libfdt} {LR : LibfdtRw} {LRL : LibfdtRwLaws LF LR} {DB : DtBuild}.
Variables MemBase Fdt : Z.

(** ** The invariant *)
Definition tree (s : fdt_state) : list Z := fdt_at MemBase (Mem (Tree s)) Fdt.
Definition placed (s : fdt_state) : Prop := MemBase <= Fdt <= MemBase + Z.of_nat (length (Mem (Tree s))).
Definition short_name (n : list Z) : list Z := take (GetNodeNameLen n) n.
Definition current (t : list Z) (Node : first_level_node) : Prop :=
  exists n, node_at t (NodeOffset Node) = Some (1, n) /\ NodeName Node = short_name n.
Fixpoint descending (l : list first_level_node) : Prop :=
  match l with
  | [] => True
  | Node :: l' => Forall (fun Node' => NodeOffset Node' < NodeOffset Node) l' /\ descending l'
  end.
Record exact (s : fdt_state) : Prop := mk_exact {
  ex_placed : placed s;
  ex_current : Forall (current (tree s)) (NodeList s);
  ex_order : descending (NodeList s)
}.

Lemma blob_run s : placed s -> blob MemBase Fdt s = Some (tree s, s).
Proof. intros [H _]. unfold blob. run. by apply Z.ltb_ge in H as ->. Qed.
Lemma blob_inv s t s' : blob MemBase Fdt s = Some (t, s') -> t = tree s /\ s' = s.
Proof. unfold blob. intros H. run_in H. case_if_in H; [done|]. by injection H as <- <-. Qed.

(** A change of the tree is exactly that. *)
Lemma change_blob_run f s r t' :
  placed s -> f (tree s) = (r, t') ->
  exists s', change_blob MemBase Fdt f s = Some (r, s') /\ tree s' = t' /\ NodeList s' = NodeList s /\ placed s'.
Proof.
  intros Hp Hf. unfold change_blob. rewrite bind_run, (blob_run s Hp). rewrite Hf. run. unfold tree_of. run.
  eexists. split; [reflexivity|]. destruct Hp as [H1 H2].
  assert (length (take (Z.to_nat (Fdt - MemBase)) (Mem (Tree s))) = Z.to_nat (Fdt - MemBase)) as HL
    by (rewrite length_take; lia).
  unfold tree, placed, fdt_at. cbn [Tree NodeList Mem set_Mem]. split_and!; [|done|lia|].
  - by rewrite <- HL at 1; rewrite drop_app_length.
  - rewrite length_app, HL. lia.
Qed.

(** ** The list *)
Lemma s32_small z : - 2 ^ 31 <= z < 2 ^ 31 -> s32 z = z.
Proof.
  intros H. unfold s32, u32. destruct (decide (0 <= z)).
  - rewrite Z.mod_small by lia. destruct (Z.ltb_spec z (2 ^ 31)); lia.
  - replace (z mod 2 ^ 32) with (z + 2 ^ 32)
      by (rewrite <- (Z.mod_add z 1) by lia; rewrite Z.mod_small; lia).
    destruct (Z.ltb_spec (z + 2 ^ 32) (2 ^ 31)); lia.
Qed.
Lemma move_nodes_shift l o d :
  descending l -> Forall (fun Node => s32 (NodeOffset Node + d) = NodeOffset Node + d) l ->
  move_nodes l o d = (fun Node => mk_node (NodeName Node) (shift o d (NodeOffset Node))) <$> l.
Proof.
  induction l as [|Node l IH]; intros Hd Hs; [done|]. cbn [move_nodes fmap list_fmap].
  destruct Hd as [Hl Hd]. apply Forall_cons in Hs as [Hs1 Hs]. unfold shift at 1.
  destruct (Z.ltb_spec o (NodeOffset Node)).
  - f_equal; [by unfold move_node; rewrite Hs1|by apply IH].
  - f_equal; [by destruct Node|]. symmetry. erewrite <- (list_fmap_id l) at 2.
    apply list_fmap_ext. intros i [name off] Hi. unfold shift. cbn.
    pose proof (Forall_lookup_1 _ _ _ _ Hl Hi). cbn in *. destruct (Z.ltb_spec o off); [lia|done].
Qed.

Lemma exact_nil s : placed s -> NodeList s = [] -> exact s.
Proof. intros Hp Hn. split; rewrite ?Hn; done. Qed.

(** ** Appending a node *)
Definition not_behind (s : fdt_state) (o : Z) : Prop :=
  match NodeList s with [] => True | Node :: _ => NodeOffset Node <= o end.
Lemma set_NodeList_exact s l :
  exact s -> Forall (current (tree s)) l -> descending l -> exact (set_NodeList l s).
Proof. intros [Hp _ _] Hc Hd. by split. Qed.

Lemma IsNodeAdded_head Node l n :
  NodeName Node = short_name n -> IsNodeAdded (Node :: l) n (GetNodeNameLen n) = true.
Proof.
  intros E. cbn [IsNodeAdded]. rewrite E. unfold short_name.
  assert (AsciiStrnCmp (take (GetNodeNameLen n) n) n (GetNodeNameLen n) = 0) as ->; [|done].
  apply AsciiStrnCmp_law. by rewrite take_take, Nat.min_id.
Qed.

Lemma FdtAppendToNodeList_exact s o n r s' :
  exact s -> node_at (tree s) o = Some (1, n) -> not_behind s o ->
  FdtAppendToNodeList n o s = Some (r, s') ->
  exact s' /\ Tree s' = Tree s /\ not_behind s' o.
Proof.
  intros Hex Hn Hb H. unfold FdtAppendToNodeList in H. run_in H.
  destruct (IsNodeAdded (NodeList s) n (GetNodeNameLen n)) eqn:E; [by injection H as <- <-|].
  destruct (PoolAvailable 0 _ && PoolAvailable 1 _).
  2: { injection H as <- <-. split; [by apply set_NodeList_exact|done]. }
  injection H as <- <-. unfold not_behind in *. destruct Hex as [Hp Hc Hd].
  split; [|split; [done|cbn; lia]]. apply set_NodeList_exact; [done|constructor; [|done]|].
  - by exists n.
  - cbn [descending NodeOffset]. split; [|done].
    destruct (NodeList s) as [|Node l]; [done|].
    apply Forall_cons in Hc as [(n' & Hn' & HN) _]. destruct Hd as [Hl _].
    assert (NodeOffset Node < o) as Hlt.
    { destruct (Z.eq_dec (NodeOffset Node) o) as [Eo|]; [|lia]. exfalso.
      rewrite Eo, Hn in Hn'. injection Hn' as <-. by rewrite IsNodeAdded_head in E. }
    constructor; [done|]. weaken Hl. lia.
Qed.

(** ** Lookups *)
Definition begins (Name : list Z) (Len : nat) (n : list Z) : Prop := take Len n = take Len Name.
Definition proper (Name : list Z) (Len : nat) : Prop :=
  (Len <= length Name)%nat /\ Forall (fun c => c <> 0) (take Len Name).

Lemma c_string_prefix t p n bs Len :
  c_string t p = Some n -> take Len (drop p t) = bs -> (length bs = Len)%nat -> Forall (fun c => c <> 0) bs ->
  take Len n = bs.
Proof.
  unfold c_string. intros H Hb Hl Hz. case_if_in H; [|done]. injection H as <-.
  rewrite take_take. assert (Len <= count_while (fun c : Z => negb (c =? 0)%Z) (drop p t))%nat as Hle; [|by rewrite Nat.min_l].
  clear E. revert Len bs Hb Hl Hz. induction (drop p t) as [|c l IH]; intros Len bs Hb Hl Hz.
  - rewrite take_nil in Hb. subst. cbn in *. lia.
  - destruct Len as [|Len]; [lia|]. cbn in Hb. subst. apply Forall_cons in Hz as [Hc Hz].
    cbn [count_while]. apply Z.eqb_neq in Hc as ->. cbn [negb]. apply le_n_S.
    eapply IH; [done|cbn in Hl; lia|done].
Qed.

Lemma FdtNodeNameEq_begins t o d n Name Len :
  node_at t o = Some (d, n) -> proper Name Len -> FdtNodeNameEq t o Name Len = Some true -> begins Name Len n.
Proof.
  intros Hn [HL Hz] H. unfold FdtNodeNameEq in H.
  destruct (fdt_offset_ptr t (o + FDT_TAGSIZE) (Len + 1)) as [a|] eqn:Ea; [|done].
  pose proof (fdt_offset_ptr_law _ _ _ _ _ _ Hn Ea) as Hs.
  destruct (rd t a (Len + 1)) as [name|] eqn:Er; [|done]. cbn [mbind option_bind] in H.
  case_bool_decide as Eq; [|done]. unfold begins. unfold rd in Er. destruct (a <? 0); [done|].
  unfold load in Er. case_if_in Er; [|done]. injection Er as <-.
  eapply c_string_prefix; [exact Hs| |by rewrite length_take; lia|done].
  rewrite <- Eq, take_take. f_equal. lia.
Qed.

Definition lookup_ok (s : fdt_state) (Name : list Z) (Len : nat) (r : Z) (s' : fdt_state) : Prop :=
  exact s' /\ Tree s' = Tree s /\
  (0 < r -> proper Name Len -> exists n, node_at (tree s) r = Some (1, n) /\ begins Name Len n).

Lemma subnode_loop_lookup fuel Offset Depth n Name Len s r s' :
  exact s -> node_at (tree s) Offset = Some (Depth, n) -> not_behind s Offset ->
  subnode_loop MemBase fuel Fdt 0 Offset Depth Name Len s = Some (r, s') -> lookup_ok s Name Len r s'.
Proof.
  revert Offset Depth n s. induction fuel as [|fuel IH]; intros Offset Depth n s Hex Hn Hb H;
    cbn [subnode_loop] in H;
    assert (0 <= Offset) by apply (node_range _ _ _ _ Hn);
    destruct (decide (0 <= Depth)) as [HD|HD].
  2,4: assert ((0 <=? Offset) && (0 <=? Depth) = false) as Hst by (apply andb_false_iff; rewrite !Z.leb_gt; lia);
    rewrite Hst in H; cbn [negb] in H; injection H as <- <-; split_and!; [done..|destruct (Z.ltb_spec Depth 0); lia].
  all: assert ((0 <=? Offset) && (0 <=? Depth) = true) as Hst by (apply andb_true_iff; rewrite !Z.leb_le; lia);
    rewrite Hst in H; cbn [negb] in H.
  1: done.
  rewrite bind_run, (blob_run s (ex_placed s Hex)) in H.
  destruct (fdt_next_node (tree s) Offset Depth) as [o' d'] eqn:En.
  (* going on from a state with the same tree *)
  assert (forall s1, exact s1 -> Tree s1 = Tree s -> not_behind s1 Offset ->
    subnode_loop MemBase fuel Fdt 0 o' d' Name Len s1 = Some (r, s') -> lookup_ok s Name Len r s') as Hnext.
  { intros s1 H1 HT Hb1 Hrun. unfold lookup_ok. rewrite <- HT.
    assert (tree s = tree s1) as Ht by (unfold tree; by rewrite HT). rewrite Ht in *.
    destruct (decide (0 <= o' /\ 0 <= d')) as [[Ho Hd]|Hneg].
    - destruct (fdt_next_node_law _ _ _ _ _ _ Hn En Ho Hd) as [Hlt [n' Hn']].
      eapply IH; [done|exact Hn'| |exact Hrun]. unfold not_behind in *. destruct (NodeList s1); [done|lia].
    - assert (subnode_loop MemBase fuel Fdt 0 o' d' Name Len s1 = Some (if d' <? 0 then -1 else o', s1)) as Hstop.
      { assert ((0 <=? o') && (0 <=? d') = false) as Hneg0.
        { apply andb_false_iff. rewrite !Z.leb_gt. lia. }
        destruct fuel; cbn [subnode_loop]; by rewrite Hneg0. }
      rewrite Hstop in Hrun. injection Hrun as <- <-. split_and!; [done..|].
      destruct (Z.ltb_spec d' 0); lia. }
  destruct (Z.eqb_spec Depth 1) as [->|]; [|by apply (Hnext s)].
  rewrite !Z.eqb_refl in H. rewrite bind_run in H.
  destruct (fdt_offset_ptr (tree s) (Offset + FDT_TAGSIZE) (Len + 1)) as [a|] eqn:Ea.
  2: { injection H as <- <-. split_and!; [done..|lia]. }
  rewrite (fdt_offset_ptr_law _ _ _ _ _ _ Hn Ea) in H. run_in H.
  destruct (FdtAppendToNodeList n Offset s) as [[u s1]|] eqn:EA; [|done]. run_in H.
  destruct (FdtAppendToNodeList_exact _ _ _ _ _ Hex Hn Hb EA) as (Hex1 & HT & Hb1).
  destruct (FdtNodeNameEq (tree s) Offset Name Len) as [[|]|] eqn:Ee; [| |done]; run_in H.
  - injection H as <- <-. split_and!; [done..|]. intros _ HN. exists n. split; [done|].
    by eapply FdtNodeNameEq_begins.
  - by apply (Hnext s1).
Qed.

Lemma find_node_current l t Name Len r :
  Forall (current t) l -> find_node l Name Len = Some r ->
  exists n, node_at t r = Some (1, n) /\ (proper Name Len -> begins Name Len n).
Proof.
  induction l as [|Node l IH]; intros Hc H; [done|]. cbn [find_node] in H.
  apply Forall_cons in Hc as [(n & Hn & HN) Hc]. case_if_in H; [|by apply IH]. bool_to_prop.
  injection H as <-. exists n. split; [done|]. intros [HL _]. unfold begins.
  match goal with Hz : AsciiStrnCmp _ _ _ = 0 |- _ => apply AsciiStrnCmp_law in Hz; rename Hz into Eq end.
  rewrite HN in Eq. unfold short_name in Eq. rewrite take_take in Eq. rewrite <- Eq. f_equal.
  assert (length (take (Nat.min Len (GetNodeNameLen n)) n) = Len) as E1 by (rewrite Eq, length_take; lia).
  rewrite length_take in E1. lia.
Qed.
Lemma find_node_head l Name Len r t :
  Forall (current t) l -> FdtFindNodeFromList l Name Len = (false, r) ->
  (r = 0 /\ l = []) \/ (r <> 0 /\ (exists n, node_at t r = Some (1, n)) /\ exists Node l', l = Node :: l' /\ NodeOffset Node = r).
Proof.
  intros Hc. unfold FdtFindNodeFromList. destruct (find_node l Name Len); [done|]. intros [= <-].
  destruct l as [|Node l]; [by left|right]. apply Forall_cons in Hc as [(n & Hn & _) _].
  split_and!; [|by exists n|by eauto]. intros E. apply node_range in Hn as [_ H0]. specialize (H0 E). lia.
Qed.

Lemma FdtSubnodeOffsetNamelen_lookup o Name Len s r s' :
  exact s -> FdtSubnodeOffsetNamelen MemBase Fdt o Name Len 0 s = Some (r, s') -> lookup_ok s Name Len r s'.
Proof.
  intros Hex H. unfold FdtSubnodeOffsetNamelen in H. rewrite bind_run, (blob_run s (ex_placed s Hex)) in H.
  destruct (Z.eqb_spec (fdt_check_header (tree s)) 0) as [E|E]; cbn [negb] in H.
  2: { injection H as <- <-. pose proof (check_header_law (tree s)). split_and!; [done..|lia]. }
  run_in H. rewrite Z.eqb_refl in H. destruct (root_law _ E) as [root Hroot].
  destruct (FdtFindNodeFromList (NodeList s) Name Len) as [[|] From] eqn:Ef.
  - injection H as <- <-. split_and!; [done..|]. intros _ HN. unfold FdtFindNodeFromList in Ef.
    destruct (find_node (NodeList s) Name Len) as [r'|] eqn:Er; [|done]. injection Ef as <-.
    destruct (find_node_current _ _ _ _ _ (ex_current s Hex) Er) as (n & Hn & Hb). exists n. auto.
  - destruct (find_node_head _ _ _ _ _ (ex_current s Hex) Ef) as [[-> El]|(Hr & [n Hn] & Node & l & El & HN)].
    + eapply subnode_loop_lookup; [done|exact Hroot| |exact H]. unfold not_behind. by rewrite El.
    + apply Z.eqb_neq in Hr. rewrite Hr in H. eapply subnode_loop_lookup; [done|exact Hn| |exact H].
      unfold not_behind. rewrite El. lia.
Qed.

(** Below the first level nothing is remembered. *)
Lemma subnode_loop_same fuel Level Offset Depth Name Len s r s' :
  Level <> 0 -> subnode_loop MemBase fuel Fdt Level Offset Depth Name Len s = Some (r, s') -> s' = s.
Proof.
  intros HL. apply Z.eqb_neq in HL. revert Offset Depth. induction fuel as [|fuel IH]; intros Offset Depth H;
    cbn [subnode_loop] in H; (case_if_in H; [by injection H as <- <-|]); [done|].
  run_in H. destruct (blob MemBase Fdt s) as [[t s1]|] eqn:Eb; [|done]. apply blob_inv in Eb as [-> ->].
  destruct (fdt_next_node (tree s) Offset Depth) as [o' d'].
  destruct (Depth =? 1); [|by apply IH in H]. rewrite HL in H. run_in H.
  destruct (FdtNodeNameEq (tree s) Offset Name Len) as [[|]|]; [by injection H as <- <-| |done].
  run_in H. by apply IH in H.
Qed.
Lemma FdtSubnodeOffsetNamelen_same o Name Len Level s r s' :
  Level <> 0 -> FdtSubnodeOffsetNamelen MemBase Fdt o Name Len Level s = Some (r, s') -> s' = s.
Proof.
  intros HL H. unfold FdtSubnodeOffsetNamelen in H. rewrite bind_run in H.
  destruct (blob MemBase Fdt s) as [[t s1]|] eqn:Eb; [|done]. apply blob_inv in Eb as [-> ->].
  case_if_in H; [by injection H as <- <-|]. run_in H. pose proof HL as HL'. apply Z.eqb_neq in HL'.
  rewrite HL' in H. by apply subnode_loop_same in H.
Qed.

(** ** The operations keep the list exact *)
Definition keeps (s s' : fdt_state) : Prop := exact s -> exact s' /\ Tree s' = Tree s.
#[local] Instance keeps_preorder : PreOrder keeps.
Proof.
  split; [by intros s H|]. intros s1 s2 s3 H12 H23 H1. destruct (H12 H1) as [H2 E2].
  destruct (H23 H2) as [H3 E3]. split; [done|congruence].
Qed.
Lemma FdtSubnodeOffsetNamelen_keeps o Name Len Level s r s' :
  FdtSubnodeOffsetNamelen MemBase Fdt o Name Len Level s = Some (r, s') -> keeps s s'.
Proof.
  intros H Hex. destruct (decide (Level = 0)) as [->|HL].
  - destruct (FdtSubnodeOffsetNamelen_lookup _ _ _ _ _ _ Hex H) as (? & ? & _). by split.
  - by apply FdtSubnodeOffsetNamelen_same in H as ->.
Qed.
Lemma path_loop_keeps fuel o Ptr Level s r s' :
  path_loop MemBase fuel Fdt o Ptr Level s = Some (r, s') -> keeps s s'.
Proof.
  revert o Ptr Level s. induction fuel as [|fuel IH]; intros o Ptr Level s H; [done|]. cbn [path_loop] in H.
  destruct (ltrim _ Ptr) as [|c l]; [by injection H as <- <-|]. rewrite bind_run in H.
  destruct (FdtSubnodeOffsetNamelen _ _ _ _ _ _ s) as [[o1 s1]|] eqn:E1; [|done].
  apply FdtSubnodeOffsetNamelen_keeps in E1. case_if_in H; [by injection H as <- <-|].
  etrans; [exact E1|]. by eapply IH.
Qed.
Lemma FdtPathOffsetEx_keeps depth Path s r s' :
  FdtPathOffsetEx MemBase depth Fdt Path s = Some (r, s') -> keeps s s'.
Proof.
  revert Path s r s'. induction depth as [|depth IH]; intros Path s r s' H; cbn [FdtPathOffsetEx] in H; rewrite bind_run in H;
    (destruct (blob MemBase Fdt s) as [[t s1]|] eqn:Eb; [|done]); apply blob_inv in Eb as [-> ->];
    (destruct EnableNewNodeSearchFuc; [|by injection H as <- <-]);
    (case_if_in H; [by injection H as <- <-|]).
  - destruct (absolute Path); [by apply path_loop_keeps in H|].
    destruct (fdt_get_alias_namelen (tree s) _) as [a|]; [done|by injection H as <- <-].
  - destruct (absolute Path); [by apply path_loop_keeps in H|].
    destruct (fdt_get_alias_namelen (tree s) _) as [a|]; [|by injection H as <- <-].
    run_in H. destruct (c_string (tree s) (Z.to_nat a)) as [alias|]; [|done]. run_in H.
    destruct (FdtPathOffsetEx MemBase depth Fdt alias s) as [[o1 s1]|] eqn:E1; [|done].
    etrans; [by eapply IH|]. by eapply path_loop_keeps.
Qed.

(** ** Setting properties *)
Lemma TAGALIGN_spec x : FDT_TAGALIGN x = 4 * ((x + 3) / 4).
Proof.
  unfold FDT_TAGALIGN, FDT_ALIGN, FDT_TAGSIZE. replace (x + 4 - 1) with (x + 3) by lia.
  change (4 - 1) with (Z.ones 2). rewrite Z.ldiff_ones_r, Z.shiftl_mul_pow2, Z.shiftr_div_pow2 by lia.
  change (2 ^ 2) with 4. lia.
Qed.
Lemma TAGALIGN_room x : FDT_TAGALIGN (SIZEOF_fdt_property + FDT_TAGALIGN x) = SIZEOF_fdt_property + FDT_TAGALIGN x.
Proof.
  rewrite !TAGALIGN_spec. unfold SIZEOF_fdt_property. set (q := (x + 3) / 4).
  replace (12 + 4 * q + 3) with (3 + (q + 3) * 4) by lia. rewrite Z.div_add by lia.
  change (3 / 4) with 0. lia.
Qed.
Lemma TAGALIGN_bounds x : x <= FDT_TAGALIGN x <= x + 3.
Proof. rewrite TAGALIGN_spec. pose proof (Z.div_mod (x + 3) 4). pose proof (Z.mod_pos_bound (x + 3) 4). lia. Qed.
Lemma TAGALIGN_0 : FDT_TAGALIGN 0 = 0.
Proof. done. Qed.

Definition no_empty (s : fdt_state) (o : Z) (Name : list Z) : Prop :=
  forall p, fdt_get_property (tree s) o Name <> (Some p, 0).
Definition updates (f : list Z -> Z -> list Z -> list Z -> Z * list Z) : Prop := f = fdt_setprop \/ f = fdt_appendprop.

(** The length the code moves the nodes by is the one libfdt did. *)
Lemma moved_by t t' o Name p Len :
  (forall q, fdt_get_property t o Name <> (Some q, 0)) ->
  fdt_get_property t' o Name = (Some p, Len) -> 0 < Len ->
  let Old := prop_len t o Name in
  let New := prop_len t' o Name in
  let New := if (Old =? 0) && negb (New =? 0) then s32 (SIZEOF_fdt_property + FDT_TAGALIGN New) else New in
  s32 (FDT_TAGALIGN New - FDT_TAGALIGN Old) = prop_room t' o Name - prop_room t o Name /\
  - 2 ^ 29 - 16 <= prop_room t' o Name - prop_room t o Name <= 2 ^ 29 + 16.
Proof.
  intros Hne Hp HL. unfold prop_len, prop_room. rewrite Hp.
  pose proof (get_property_law t' o Name) as [R|R]; rewrite Hp in R; cbn [fst snd] in R; [|done].
  destruct (Z.ltb_spec Len 0); [lia|]. pose proof (TAGALIGN_bounds Len) as HT.
  pose proof (get_property_law t o Name) as Ro.
  destruct (fdt_get_property t o Name) as [[q|] Old] eqn:Eo; cbn [fst snd] in Ro; cbv zeta.
  - destruct Ro as [Ro|]; [|done]. destruct (Z.ltb_spec Old 0); [lia|].
    destruct (Z.eqb_spec Old 0) as [->|]; [by destruct (Hne q)|]. cbn [andb].
    pose proof (TAGALIGN_bounds Old). rewrite s32_small by lia. lia.
  - destruct (Z.eqb_spec Len 0); [lia|]. rewrite Z.eqb_refl. cbn [andb negb].
    unfold SIZEOF_fdt_property in *. rewrite (s32_small (12 + _)) by lia.
    change (12 + FDT_TAGALIGN Len) with (SIZEOF_fdt_property + FDT_TAGALIGN Len).
    rewrite TAGALIGN_room, TAGALIGN_0. unfold SIZEOF_fdt_property. rewrite s32_small by lia. lia.
Qed.

Lemma move_nodes_0 l o :
  Forall (fun Node => s32 (NodeOffset Node) = NodeOffset Node) l -> move_nodes l o 0 = l.
Proof.
  induction l as [|[n x] l IH]; intros H; [done|]. apply Forall_cons in H as [Hx H]. cbn [move_nodes].
  case_if; [|done]. unfold move_node. cbn [NodeName NodeOffset] in *. by rewrite Z.add_0_r, Hx, IH.
Qed.
Lemma shifted_exact s s' o Name :
  exact s -> placed s' -> NodeList s' = move_nodes (NodeList s) o (prop_room (tree s') o Name - prop_room (tree s) o Name) ->
  - 2 ^ 29 - 16 <= prop_room (tree s') o Name - prop_room (tree s) o Name <= 2 ^ 29 + 16 ->
  (forall x v, node_at (tree s) x = Some v ->
     node_at (tree s') (shift o (prop_room (tree s') o Name - prop_room (tree s) o Name) x) = Some v /\
     (o < x -> o < x + (prop_room (tree s') o Name - prop_room (tree s) o Name))) ->
  exact s'.
Proof.
  set (d := prop_room (tree s') o Name - prop_room (tree s) o Name). intros [_ Hc Hd] Hp HN Hb Hm.
  rewrite move_nodes_shift in HN; [|done|].
  2: { eapply Forall_impl; [exact Hc|]. intros x (n & Hn & _). apply node_range in Hn as [Hn _]. apply s32_small. lia. }
  split; [done|rewrite HN|rewrite HN].
  - apply Forall_fmap. eapply Forall_impl; [exact Hc|]. intros x (n & Hn & E). exists n. cbn. split; [by apply Hm|done].
  - clear HN. induction (NodeList s) as [|Node l IH]; [done|]. destruct Hd as [Hl Hd].
    apply Forall_cons in Hc as [(n & Hn & _) Hc]. cbn [fmap list_fmap descending NodeOffset].
    split; [|by apply IH]. apply Forall_fmap. eapply Forall_impl; [exact Hl|]. intros a Hlt.
    cbn [compose NodeOffset] in Hlt |- *.
    destruct (Hm _ _ Hn) as [_ Ho]. unfold shift.
    destruct (Z.ltb_spec o (NodeOffset Node)), (Z.ltb_spec o (NodeOffset a)); lia.
Qed.

Lemma FdtPropUpdateFunc_exact f o Name Val s r s' :
  EnableNewNodeSearchFuc = true -> updates f -> Val <> [] -> no_empty s o Name ->
  exact s -> FdtPropUpdateFunc MemBase Fdt o f Name Val s = Some (r, s') -> exact s'.
Proof.
  intros HB Hf HV Hne Hex H. unfold FdtPropUpdateFunc, FdtGetPropLen in H. rewrite HB in H.
  rewrite bind_run in H. rewrite bind_run, (blob_run s (ex_placed s Hex)) in H. run_in H.
  destruct (f (tree s) o Name Val) as [ret t'] eqn:Ef.
  destruct (change_blob_run (fun t => f t o Name Val) s ret t' (ex_placed s Hex) Ef) as (s1 & E1 & Ht & HN & Hp).
  rewrite E1 in H. destruct (Z.eqb_spec ret 0) as [->|Hr].
  2: { injection H as <- <-. destruct Hex as [_ Hc Hd]. split; [done|rewrite HN|by rewrite HN].
       eapply Forall_impl; [exact Hc|]. intros x. unfold current. by rewrite Ht, (setprop_error f _ _ _ _ _ _ Hf Ef Hr). }
  rewrite bind_run in H. rewrite bind_run, (blob_run s1 Hp) in H. run_in H. rewrite Ht in H.
  destruct (setprop_law f _ _ _ _ _ Hf Ef) as [Hm (p & Len & Hg & HLen)].
  destruct (moved_by (tree s) t' o Name p Len Hne Hg (HLen HV)) as [Ed Hb]. cbv zeta in Ed. rewrite Ed in H.
  unfold FdtUpdateNodeOffsetInList in H. rewrite <- Ht in Hm, Hb, H.
  destruct (Z.eqb_spec (prop_room (tree s1) o Name - prop_room (tree s) o Name) 0) as [E0|E0].
  - injection H as <- <-. eapply (shifted_exact s s1 o Name); [done|done| |done|done].
    rewrite E0, HN. symmetry. apply move_nodes_0. eapply Forall_impl; [exact (ex_current s Hex)|].
    intros x (n & Hn & _). apply node_range in Hn as [Hn _]. apply s32_small. lia.
  - injection H as <- <-. apply (shifted_exact s _ o Name); [done|done| |done|done]. cbn. by rewrite HN.
Qed.

(** Lookups and updates in any order. *)
Inductive rw_step : fdt_state -> fdt_state -> Prop :=
| step_path depth Path r s s' :
    FdtPathOffsetEx MemBase depth Fdt Path s = Some (r, s') -> rw_step s s'
| step_prop f o Name Val r s s' :
    updates f -> Val <> [] -> no_empty s o Name ->
    FdtPropUpdateFunc MemBase Fdt o f Name Val s = Some (r, s') -> rw_step s s'.
Lemma rw_steps_exact s s' :
  EnableNewNodeSearchFuc = true -> rtc rw_step s s' -> exact s -> exact s'.
Proof.
  intros HB. induction 1 as [|s1 s2 s3 H _ IH]; [done|]. intros Hex. apply IH. destruct H.
  - by eapply FdtPathOffsetEx_keeps.
  - by eapply FdtPropUpdateFunc_exact.
Qed.

(** C29: starting without remembered nodes, after any sequence of path
    lookups and of properties set or appended (to values that are not empty, on properties
    that are not empty), every offset in the list is that of its node in the tree as it is
    now, and a first-level lookup that succeeds returns the offset of a first-level node
    whose name begins with the name looked for, also when it comes from the list. *)
Theorem lookups_current s0 s o Name Len r s' :
  EnableNewNodeSearchFuc = true -> placed s0 -> NodeList s0 = [] -> rtc rw_step s0 s ->
  FdtSubnodeOffsetNamelen MemBase Fdt o Name Len 0 s = Some (r, s') ->
  Forall (current (tree s')) (NodeList s') /\ tree s' = tree s /\
  (proper Name Len -> 0 < r -> exists n, node_at (tree s') r = Some (1, n) /\ begins Name Len n).
Proof.
  intros HB Hp Hn Hs H.
  destruct (FdtSubnodeOffsetNamelen_lookup o Name Len s r s') as ([_ Hc _] & HT & HF); [|done|].
  { eapply rw_steps_exact; [done..|by apply exact_nil]. }
  assert (tree s' = tree s) as Ht by (unfold tree; by rewrite HT). rewrite <- Ht in HF. auto.
Qed.
End spec.

(** ** Witness: a tree of two first-level nodes.  The first byte is the length of the
    property reg of the node at 16; the names follow. *)
Definition toy_room (t : list Z) : Z := let h := hd 0 t in if h =? 0 then 0 else SIZEOF_fdt_property + FDT_TAGALIGN h.
Definition toy_ok (t : list Z) : bool :=
  (0 <=? hd 0 t) && (hd 0 t <? 200) && bool_decide (is_Some (c_string t 1)) && bool_decide (is_Some (c_string t 8)).
Definition toy_reg (t : list Z) (o : Z) (Name : list Z) : bool :=
  toy_ok t && (o =? 16) && bool_decide (Name = bytes "reg").
Definition toy_set (t : list Z) (o : Z) (Name : list Z) (n : Z) : Z * list Z :=
  if toy_reg t o Name && (0 <? n) && (n <? 200) then (0, n :: tl t) else (-3, t).
Definition toy_node (t : list Z) (o : Z) : option (Z * list Z) :=
  if negb (toy_ok t) then None
  else if o =? 0 then Some (0, [])
  else if o =? 16 then pair 1 <$> c_string t 1
  else if o =? 64 + toy_room t then pair 1 <$> c_string t 8 else None.
Definition toy_Libfdt : Libfdt := {|
  fdt_check_header t := if toy_ok t then 0 else -9;
  fdt_totalsize := fun _ => 0; fdt_off_dt_struct := fun _ => 0; fdt_size_dt_struct := fun _ => 0;
  fdt_off_dt_strings := fun _ => 0; fdt_size_dt_strings := fun _ => 0; fdt_off_mem_rsvmap := fun _ => 0;
  fdt_path_offset := fun _ _ => -1; fdt_getprop := fun _ _ _ => (None, -1);
  DtbHdr_address := 0; LocateScmProtocol := EFI_NOT_FOUND
|}.
Definition toy_LibfdtRw : LibfdtRw := {|
  fdt_get_property t o Name := if toy_reg t o Name && negb (hd 0 t =? 0) then (Some 0, hd 0 t) else (None, -1);
  fdt_setprop t o Name Val := toy_set t o Name (Z.of_nat (length Val));
  fdt_appendprop t o Name Val := toy_set t o Name (hd 0 t + Z.of_nat (length Val));
  fdt_setprop_inplace t _ _ _ := (0, t);
  fdt_next_node t o d := if o =? 0 then (16, d + 1) else if o =? 16 then (64 + toy_room t, d) else (o, -1);
  fdt_offset_ptr t o _ := if o =? 20 then Some 1 else if o =? 68 + toy_room t then Some 8 else None;
  fdt_get_alias_namelen _ _ := None;
  fdt_first_subnode _ _ := -1; fdt_next_subnode _ _ := -1; fdt_subnode_offset _ _ _ := -1;
  fdt_open_into t _ := (0, t); fdt_pack t := (0, t)
|}.

Lemma toy_ok_strings t :
  toy_ok t = true -> exists a b, c_string t 1 = Some a /\ c_string t 8 = Some b /\ 0 <= hd 0 t < 200.
Proof.
  unfold toy_ok. intros H. bool_to_prop.
  repeat match goal with H : bool_decide (is_Some _) = true |- _ => apply bool_decide_eq_true in H as [? ?] end.
  do 2 eexists. split_and!; (eassumption || lia).
Qed.
Lemma toy_room_range t : toy_ok t = true -> 0 <= toy_room t < 300.
Proof.
  unfold toy_ok, toy_room. intros H. bool_to_prop. case_if; [lia|]. pose proof (TAGALIGN_bounds (hd 0 t)).
  unfold SIZEOF_fdt_property. lia.
Qed.
Lemma c_string_tl h t i : t <> [] -> c_string (h :: tl t) (S i) = c_string t (S i).
Proof. by destruct t. Qed.
Lemma toy_ok_nonempty t : toy_ok t = true -> t <> [].
Proof. intros H ->. by vm_compute in H. Qed.
Lemma toy_ok_set t n : toy_ok t = true -> 0 < n < 200 -> toy_ok (n :: tl t) = true.
Proof.
  intros H Hn. pose proof (toy_ok_nonempty t H). unfold toy_ok in *. rewrite !c_string_tl by done. cbn [hd].
  bool_to_prop. rewrite !andb_true_iff, Z.leb_le, Z.ltb_lt. split_and!; (lia || done).
Qed.
Lemma toy_set_spec t o Name n t' :
  toy_set t o Name n = (0, t') ->
  toy_ok t = true /\ o = 16 /\ Name = bytes "reg" /\ 0 < n < 200 /\ t' = n :: tl t.
Proof.
  unfold toy_set, toy_reg. case_if; [|done]. intros [= <-]. bool_to_prop.
  match goal with H : bool_decide _ = true |- _ => apply bool_decide_eq_true in H end. done.
Qed.
Lemma toy_prop_room t : toy_ok t = true -> @prop_room toy_LibfdtRw t 16 (bytes "reg") = toy_room t.
Proof.
  intros H. unfold prop_room, toy_LibfdtRw, toy_reg, toy_room; cbn [fdt_get_property]. rewrite H.
  rewrite (bool_decide_eq_true_2 (bytes "reg" = bytes "reg")) by done. cbn [andb Z.eqb Pos.eqb].
  by destruct (hd 0 t =? 0).
Qed.
Lemma toy_moves t n :
  toy_ok t = true -> 0 < n < 200 -> forall x v, toy_node t x = Some v ->
  toy_node (n :: tl t) (shift 16 (toy_room (n :: tl t) - toy_room t) x) = Some v /\
  (16 < x -> 16 < x + (toy_room (n :: tl t) - toy_room t)).
Proof.
  intros H Hn x v. pose proof (toy_ok_set t n H Hn) as H'. pose proof (toy_room_range _ H).
  pose proof (toy_room_range _ H'). unfold toy_node. rewrite H, H'. cbn [negb].
  pose proof (toy_ok_nonempty t H). rewrite !c_string_tl by done. unfold shift.
  destruct (Z.eqb_spec x 0) as [->|]; [by intros|]. destruct (Z.eqb_spec x 16) as [->|]; [by intros|].
  destruct (Z.eqb_spec x (64 + toy_room t)) as [->|]; [|done]. intros Hv.
  destruct (Z.ltb_spec 16 (64 + toy_room t)); [|lia].
  replace (64 + toy_room t + (toy_room (n :: tl t) - toy_room t)) with (64 + toy_room (n :: tl t)) by lia.
  destruct (Z.eqb_spec (64 + toy_room (n :: tl t)) 0); [lia|].
  destruct (Z.eqb_spec (64 + toy_room (n :: tl t)) 16); [lia|]. rewrite Z.eqb_refl. split; [done|lia].
Qed.

Lemma toy_setprop_law n t o Name t' :
  toy_set t o Name n = (0, t') ->
  (forall x v, toy_node t x = Some v ->
     toy_node t' (shift o (@prop_room toy_LibfdtRw t' o Name - @prop_room toy_LibfdtRw t o Name) x) = Some v /\
     (o < x -> o < x + (@prop_room toy_LibfdtRw t' o Name - @prop_room toy_LibfdtRw t o Name))) /\
  exists p Len, @fdt_get_property toy_LibfdtRw t' o Name = (Some p, Len) /\ 0 < Len.
Proof.
  intros (H & -> & -> & Hn & ->)%toy_set_spec. pose proof (toy_ok_set t n H Hn) as H'.
  rewrite !toy_prop_room by done. split; [by apply toy_moves|]. exists 0, n.
  unfold toy_LibfdtRw, toy_reg; cbn [fdt_get_property]. rewrite H'.
  rewrite (bool_decide_eq_true_2 (bytes "reg" = bytes "reg")) by done. cbn [andb Z.eqb Pos.eqb hd].
  destruct (Z.eqb_spec n 0); [lia|]. by split; [|lia].
Qed.

Lemma toy_laws : LibfdtRwLaws toy_Libfdt toy_LibfdtRw.
Proof.
  refine {| node_at := toy_node |}.
  - intros t. cbn. by destruct (toy_ok t).
  - intros t. cbn. destruct (toy_ok t) eqn:E; [|done]. intros _. exists []. unfold toy_node. by rewrite E.
  - intros t o d n. unfold toy_node. destruct (toy_ok t) eqn:E; cbn [negb]; [|done].
    pose proof (toy_room_range t E). destruct (Z.eqb_spec o 0) as [->|]; [intros [= <- _]; lia|].
    destruct (Z.eqb_spec o 16); [intros _; lia|]. destruct (Z.eqb_spec o (64 + toy_room t)); [intros _; lia|done].
  - intros t o d n o' d'. unfold toy_node. destruct (toy_ok t) eqn:E; cbn [negb fdt_next_node toy_LibfdtRw]; [|done].
    pose proof (toy_room_range t E). destruct (toy_ok_strings t E) as (n1 & n2 & -> & -> & _).
    destruct (Z.eqb_spec o 0) as [->|].
    { intros [= <- <-] [= <- <-] _ _. split; [lia|]. cbn. eauto. }
    destruct (Z.eqb_spec o 16) as [->|]; [|intros _ [= _ <-]; lia].
    intros [= <- <-] [= <- <-] _ _. split; [lia|].
    destruct (Z.eqb_spec (64 + toy_room t) 0); [lia|]. destruct (Z.eqb_spec (64 + toy_room t) 16); [lia|].
    rewrite Z.eqb_refl. cbn. eauto.
  - intros t o d n len a. unfold toy_node. destruct (toy_ok t) eqn:E; cbn [negb fdt_offset_ptr toy_LibfdtRw]; [|done].
    pose proof (toy_room_range t E). destruct (toy_ok_strings t E) as (n1 & n2 & E1 & E2 & _).
    unfold FDT_TAGSIZE. rewrite E1, E2.
    destruct (Z.eqb_spec o 0) as [->|].
    { intros _. destruct (Z.eqb_spec (0 + 4) 20); [lia|]. destruct (Z.eqb_spec (0 + 4) (68 + toy_room t)); [lia|done]. }
    destruct (Z.eqb_spec o 16) as [->|].
    { intros [= <- <-]. change (16 + 4 =? 20) with true. intros [= <-]. exact E1. }
    destruct (Z.eqb_spec o (64 + toy_room t)) as [->|]; [|done]. intros [= <- <-].
    destruct (Z.eqb_spec (64 + toy_room t + 4) 20); [lia|].
    destruct (Z.eqb_spec (64 + toy_room t + 4) (68 + toy_room t)); [|lia]. intros [= <-]. exact E2.
  - intros t o Name. cbn. destruct (toy_reg t o Name) eqn:E; cbn [andb]; [|by right].
    destruct (Z.eqb_spec (hd 0 t) 0); [by right|left]. unfold toy_reg, toy_ok in E. bool_to_prop. cbn. lia.
  - intros f t o Name Val t' [-> | ->] H; cbn in H; apply toy_setprop_law in H as [Hm (p & Len & Hg & HL)];
      (split; [exact Hm|exists p, Len; by split]).
  - intros f t o Name Val r t' [-> | ->]; cbn; unfold toy_set; case_if; intros [= <- <-]; done.
Qed.

Section demo.
#[local] Existing Instances demo_Firmware reference_UnicodeLib reference_UnicodeLib_laws toy_Libfdt toy_LibfdtRw toy_laws.
#[local] Instance demo_DtBuild : DtBuild := {| EnableNewNodeSearchFuc := true; EnablePartialGoods := true |}.
Definition demo_fdt : fdt_state :=
  mk_fdt_state (mk_dt_state ([0] ++ bytes "memory" ++ [0] ++ bytes "soc" ++ [0]) true (-1) (-1) 0 false [] 0 0
    (mk_board None 0 (mk_board_info (mk_platform 0 0 0 false) 0 [] 0 0 0 0))) [].
(** After looking for /soc, and after 16 bytes for reg of /memory were set. *)
Definition demo_found : fdt_state :=
  default demo_fdt (snd <$> FdtPathOffsetEx 0x1000 0 0x1000 (bytes "/soc") demo_fdt).
Definition demo_grown : fdt_state :=
  default demo_fdt (snd <$> FdtSetPropEx 0x1000 0x1000 16 (bytes "reg") (repeat 0 16) demo_found).

Lemma lookups_current_witness :
  rtc (rw_step 0x1000 0x1000) demo_fdt demo_grown /\
  NodeList demo_found = [mk_node (bytes "soc") 64; mk_node (bytes "memory") 16] /\
  NodeList demo_grown = [mk_node (bytes "soc") 92; mk_node (bytes "memory") 16] /\
  exists n, node_at (tree 0x1000 0x1000 demo_grown) 92 = Some (1, n) /\ begins (bytes "soc") 3 n.
Proof.
  assert (rtc (rw_step 0x1000 0x1000) demo_fdt demo_grown) as Hr.
  { eapply rtc_l; [apply (step_path _ _ 0 (bytes "/soc") 64 demo_fdt demo_found); vm_compute; reflexivity|].
    eapply rtc_l; [|apply rtc_refl].
    apply (step_prop _ _ fdt_setprop 16 (bytes "reg") (repeat 0 16) 0 demo_found demo_grown);
      [left; reflexivity|discriminate|intros p Hp; vm_compute in Hp; discriminate|vm_compute; reflexivity]. }
  split; [exact Hr|]. split; [vm_compute; reflexivity|]. split; [vm_compute; reflexivity|].
  destruct (lookups_current 0x1000 0x1000 demo_fdt demo_grown 0 (bytes "soc") 3 92 demo_grown) as (_ & _ & H);
    [reflexivity|vm_compute; split; congruence|reflexivity|exact Hr|vm_compute; reflexivity|].
  apply H; [split; [vm_compute; repeat constructor|vm_compute; repeat (constructor; [congruence|]); constructor]|vm_compute; reflexivity].
Defined.
End demo.
