(* ===== verification/PartialGoods.v ===== *)
(** * Nodes for parts of the chip that do not work.

    [Platforms/QcomModulePkg/Library/BootLib/PartialGoods.c]: the device tree is changed so
    that the kernel leaves out the processors and multimedia blocks that the fuses of this
    chip mark as bad. *)
From stdpp Require Import base numbers list option strings.
From Stdlib Require Import ZArith Lia Ascii.
From S2P Require Import Prelude BaseLib Unicode Storage Bytes DeviceInfo Board DeviceTree DeviceTreeList FdtRw.
Local Open Scope Z_scope.

(** ** EFIChipInfoTypes.h *)
Definition EFICHIPINFO_PART_GPU : Z := 1.
Definition EFICHIPINFO_PART_VIDEO : Z := 2.
Definition EFICHIPINFO_PART_CAMERA : Z := 3.
Definition EFICHIPINFO_PART_DISPLAY : Z := 4.
Definition EFICHIPINFO_PART_AUDIO : Z := 5.
Definition EFICHIPINFO_PART_MODEM : Z := 6.
Definition EFICHIPINFO_PART_WLAN : Z := 7.
Definition EFICHIPINFO_PART_COMP : Z := 8.
Definition EFICHIPINFO_PART_SENSORS : Z := 9.
Definition EFICHIPINFO_PART_NPU : Z := 10.
Definition EFICHIPINFO_PART_NAV : Z := 12.
Definition EFICHIPINFO_NUM_PARTS : Z := 13.
Definition EFI_CHIPINFO_PROTOCOL_REVISION : Z := 0x10002.

(** The calls of the protocol that are used here. *)
Class SubsetProtocol := {
  ChipInfoRevision : Z;
  GetSubsetCPUs : Z -> EFI_STATUS * option Z;
  GetSubsetPart : Z -> EFI_STATUS * option Z
}.

(** ** The tables *)
Record SubNodeListNew := mk_sub_node {
  SubNodeName : list Z; PropertyName : list Z; PropertyStr : list Z; ReplaceStr : list Z
}.
Record PartialGoods := mk_goods { Val : Z; ParentNode : list Z; SubNode : SubNodeListNew }.
(** A row for a processor and one for a multimedia block. *)
Definition cpu_goods (v : Z) (name : string) : PartialGoods :=
  mk_goods v (bytes "/cpus") (mk_sub_node (bytes name) (bytes "enable-method") (bytes "psci") (bytes "none")).
Definition mm_goods (v : Z) (name : string) : PartialGoods :=
  mk_goods v (bytes "/soc") (mk_sub_node (bytes name) (bytes "status") (bytes "ok") (bytes "no")).

Definition PartialGoodsCpuType0 : list PartialGoods :=
  [cpu_goods 0x1 "cpu@0"; cpu_goods 0x2 "cpu@100"; cpu_goods 0x4 "cpu@200";
   cpu_goods 0x8 "cpu@300"; cpu_goods 0x10 "cpu@400"; cpu_goods 0x20 "cpu@500";
   cpu_goods 0x40 "cpu@600"; cpu_goods 0x80 "cpu@700"].
Definition PartialGoodsCpuType1 : list PartialGoods :=
  [cpu_goods 0x1 "cpu@101"; cpu_goods 0x2 "cpu@102"; cpu_goods 0x4 "cpu@103";
   cpu_goods 0x8 "cpu@104"; cpu_goods 0x10 "cpu@105"; cpu_goods 0x20 "cpu@106";
   cpu_goods 0x30 "cpu@107"; cpu_goods 0x40 "cpu@108"].
Definition PartialGoodsCpuType2 : list PartialGoods :=
  [cpu_goods 0x1 "cpu@0"; cpu_goods 0x2 "cpu@1"; cpu_goods 0x4 "cpu@2"; cpu_goods 0x8 "cpu@3";
   cpu_goods 0x10 "cpu@100"; cpu_goods 0x20 "cpu@101"; cpu_goods 0x40 "cpu@102";
   cpu_goods 0x80 "cpu@103"].
Definition PartialGoodsMmType : list PartialGoods :=
  [mm_goods (BIT EFICHIPINFO_PART_GPU) "qcom,kgsl-3d0";
   mm_goods (BIT EFICHIPINFO_PART_GPU) "qcom,gmu";
   mm_goods (BIT EFICHIPINFO_PART_GPU) "kgsl-smmu";
   mm_goods (BIT EFICHIPINFO_PART_GPU) "qcom,gpucc";
   mm_goods (BIT EFICHIPINFO_PART_VIDEO) "qcom,vidc";
   mm_goods (BIT EFICHIPINFO_PART_VIDEO) "qcom,vidc0";
   mm_goods (BIT EFICHIPINFO_PART_VIDEO) "qcom,vidc1";
   mm_goods (BIT EFICHIPINFO_PART_VIDEO) "qcom,videocc";
   mm_goods (BIT EFICHIPINFO_PART_CAMERA) "qcom,cam-req-mgr";
   mm_goods (BIT EFICHIPINFO_PART_CAMERA) "qcom,msm-cam";
   mm_goods (BIT EFICHIPINFO_PART_CAMERA) "qcom,csiphy";
   mm_goods (BIT EFICHIPINFO_PART_CAMERA) "qcom,csiphy0";
   mm_goods (BIT EFICHIPINFO_PART_CAMERA) "qcom,csiphy1";
   mm_goods (BIT EFICHIPINFO_PART_CAMERA) "qcom,csiphy2";
   mm_goods (BIT EFICHIPINFO_PART_CAMERA) "qcom,csiphy3";
   mm_goods (BIT EFICHIPINFO_PART_CAMERA) "qcom,csiphy4";
   mm_goods (BIT EFICHIPINFO_PART_CAMERA) "qcom,csiphy5";
   mm_goods (BIT EFICHIPINFO_PART_CAMERA) "qcom,csid0";
   mm_goods (BIT EFICHIPINFO_PART_CAMERA) "qcom,csid1";
   mm_goods (BIT EFICHIPINFO_PART_CAMERA) "qcom,csid-lite0";
   mm_goods (BIT EFICHIPINFO_PART_CAMERA) "qcom,csid-lite1";
   mm_goods (BIT EFICHIPINFO_PART_CAMERA) "qcom,cam_smmu";
   mm_goods (BIT EFICHIPINFO_PART_CAMERA) "qcom,cam-cpas";
   mm_goods (BIT EFICHIPINFO_PART_CAMERA) "qcom,cam-cdm-intf";
   mm_goods (BIT EFICHIPINFO_PART_CAMERA) "qcom,cpas-cdm0";
   mm_goods (BIT EFICHIPINFO_PART_CAMERA) "qcom,cpas-cdm1";
   mm_goods (BIT EFICHIPINFO_PART_CAMERA) "qcom,cpas-cdm2";
   mm_goods (BIT EFICHIPINFO_PART_CAMERA) "qcom,cam-cpas";
   mm_goods (BIT EFICHIPINFO_PART_CAMERA) "qcom,cam-fd";
   mm_goods (BIT EFICHIPINFO_PART_CAMERA) "qcom,fd";
   mm_goods (BIT EFICHIPINFO_PART_CAMERA) "qcom,ife0";
   mm_goods (BIT EFICHIPINFO_PART_CAMERA) "qcom,ife1";
   mm_goods (BIT EFICHIPINFO_PART_CAMERA) "qcom,ife-lite0";
   mm_goods (BIT EFICHIPINFO_PART_CAMERA) "qcom,ife-lite1";
   mm_goods (BIT EFICHIPINFO_PART_CAMERA) "qcom,cci";
   mm_goods (BIT EFICHIPINFO_PART_CAMERA) "qcom,cci0";
   mm_goods (BIT EFICHIPINFO_PART_CAMERA) "qcom,cci1";
   mm_goods (BIT EFICHIPINFO_PART_CAMERA) "qcom,jpegenc";
   mm_goods (BIT EFICHIPINFO_PART_CAMERA) "qcom,jpegdma";
   mm_goods (BIT EFICHIPINFO_PART_CAMERA) "qcom,camera-flash0";
   mm_goods (BIT EFICHIPINFO_PART_CAMERA) "qcom,camera-flash1";
   mm_goods (BIT EFICHIPINFO_PART_CAMERA) "qcom,cam-icp";
   mm_goods (BIT EFICHIPINFO_PART_CAMERA) "qcom,cam-isp";
   mm_goods (BIT EFICHIPINFO_PART_CAMERA) "qcom,a5";
   mm_goods (BIT EFICHIPINFO_PART_CAMERA) "qcom,ipe0";
   mm_goods (BIT EFICHIPINFO_PART_CAMERA) "qcom,bps";
   mm_goods (BIT EFICHIPINFO_PART_CAMERA) "qcom,cam-jpeg";
   mm_goods (BIT EFICHIPINFO_PART_CAMERA) "qcom,lrme";
   mm_goods (BIT EFICHIPINFO_PART_CAMERA) "qcom,ipe1";
   mm_goods (BIT EFICHIPINFO_PART_CAMERA) "qcom,vfe0";
   mm_goods (BIT EFICHIPINFO_PART_CAMERA) "qcom,vfe1";
   mm_goods (BIT EFICHIPINFO_PART_CAMERA) "qcom,camcc";
   mm_goods (BIT EFICHIPINFO_PART_DISPLAY) "qcom,mdss_mdp";
   mm_goods (BIT EFICHIPINFO_PART_DISPLAY) "qcom,mdss_rotator";
   mm_goods (BIT EFICHIPINFO_PART_DISPLAY) "qcom,mdss_dsi0_ctrl";
   mm_goods (BIT EFICHIPINFO_PART_DISPLAY) "qcom,mdss_dsi1_ctrl";
   mm_goods (BIT EFICHIPINFO_PART_DISPLAY) "qcom,mdss_dsi_phy0";
   mm_goods (BIT EFICHIPINFO_PART_DISPLAY) "qcom,mdss_dsi_phy1";
   mm_goods (BIT EFICHIPINFO_PART_DISPLAY) "qcom,mdss_dsi0_pll";
   mm_goods (BIT EFICHIPINFO_PART_DISPLAY) "qcom,mdss_dsi1_pll";
   mm_goods (BIT EFICHIPINFO_PART_DISPLAY) "qcom,mdss_dsi_pll";
   mm_goods (BIT EFICHIPINFO_PART_DISPLAY) "qcom,mdss_dp_pll";
   mm_goods (BIT EFICHIPINFO_PART_DISPLAY) "qcom,msm-ext-disp";
   mm_goods (BIT EFICHIPINFO_PART_DISPLAY) "qcom,sde_rscc";
   mm_goods (BIT EFICHIPINFO_PART_DISPLAY) "qcom,dp_display";
   mm_goods (BIT EFICHIPINFO_PART_DISPLAY) "qcom,dispcc";
   mm_goods (BIT EFICHIPINFO_PART_AUDIO) "qcom,msm-adsp-loader";
   mm_goods (BIT EFICHIPINFO_PART_AUDIO) "qcom,lpass";
   mm_goods (BIT EFICHIPINFO_PART_AUDIO) "qcom,msm-adsprpc-mem";
   mm_goods (Z.lor (Z.lor (BIT EFICHIPINFO_PART_MODEM) (BIT EFICHIPINFO_PART_WLAN)) (BIT EFICHIPINFO_PART_NAV)) "qcom,mss";
   mm_goods (BIT EFICHIPINFO_PART_WLAN) "qcom,wpss";
   mm_goods (BIT EFICHIPINFO_PART_COMP) "qcom,turing";
   mm_goods (BIT EFICHIPINFO_PART_SENSORS) "qcom,ssc";
   mm_goods (BIT EFICHIPINFO_PART_NPU) "qcom,npucc";
   mm_goods (BIT EFICHIPINFO_PART_NPU) "qcom,npu"].
Definition NUM_OF_CPUS : nat := length PartialGoodsCpuType0.
Definition PartialGoodsCpuType : list (list PartialGoods) :=
  [PartialGoodsCpuType0; PartialGoodsCpuType1; PartialGoodsCpuType2].
Definition MAX_CPU_CLUSTER : nat := 3.

Section goods.
Context {FW : Firmware} {BL : BaseLib} {UL : UnicodeLib} {AL : AsciiLib} {BP : BoardProtocols}.
Context {LF : Libfdt} {LR : LibfdtRw} {DB : DtBuild} {SP : SubsetProtocol}.
Variable MemBase : Z.
Variable depth : nat.

(** Does the tree have every node of the table? *)
Fixpoint CheckCPUType (fdt : list Z) (Table : list PartialGoods) : EFI_STATUS :=
  match Table with
  | [] => EFI_SUCCESS
  | e :: Table' =>
    let ParentOffset := fdt_path_offset fdt (ParentNode e) in
    if ParentOffset <? 0 then EFI_NOT_FOUND else
    if fdt_subnode_offset fdt ParentOffset (SubNodeName (SubNode e)) <? 0 then EFI_NOT_FOUND
    else CheckCPUType fdt Table'
  end.

(** The modem node is for three parts, all of which must be bad. *)
Definition modem_parts : Z :=
  Z.lor (Z.lor (BIT EFICHIPINFO_PART_MODEM) (BIT EFICHIPINFO_PART_WLAN)) (BIT EFICHIPINFO_PART_NAV).
Definition is_bad (Value : Z) (e : PartialGoods) : bool :=
  if Z.land Value (Val e) =? 0 then false else
  if Val e =? modem_parts then
    negb (Z.land Value (BIT EFICHIPINFO_PART_MODEM) =? 0) && negb (Z.land Value (BIT EFICHIPINFO_PART_WLAN) =? 0)
    && negb (Z.land Value (BIT EFICHIPINFO_PART_NAV) =? 0)
  else true.
(** A row of the table whose part is bad.  No error ends the loop. *)
Definition update_node (fdt : Z) (e : PartialGoods) : FD unit :=
  ParentOffset ← FdtPathOffsetEx MemBase depth fdt (ParentNode e);
  if ParentOffset <? 0 then mret tt else
  t ← blob MemBase fdt;
  let SubNodeOffset := fdt_subnode_offset t ParentOffset (SubNodeName (SubNode e)) in
  if SubNodeOffset <? 0 then mret tt else
  _ ← FdtSetPropEx MemBase fdt SubNodeOffset (PropertyName (SubNode e)) (prop_string (ReplaceStr (SubNode e)));
  if AsciiStrCmp (ParentNode e) (bytes "/cpus") =? 0 then
    _ ← FdtSetPropEx MemBase fdt SubNodeOffset (bytes "status") (prop_string (bytes "fail"));
    mret tt
  else mret tt.
Fixpoint FindNodeAndUpdateProperty (fdt : Z) (Table : list PartialGoods) (Value : Z) : FD unit :=
  match Table with
  | [] => mret tt
  | e :: Table' =>
    _ ← (if is_bad Value e then update_node fdt e else mret tt);
    FindNodeAndUpdateProperty fdt Table' Value
  end.

(** What the protocol does not write stays 0. *)
Definition ReadCpuPartialGoods : EFI_STATUS * Z :=
  let (Status, v) := GetSubsetCPUs 0 in
  (if bool_decide (Status = EFI_NOT_FOUND) then EFI_SUCCESS else Status, default 0 v).
Fixpoint read_parts (n : nat) (i : Z) (Status : EFI_STATUS) (Value : Z) : EFI_STATUS * Z :=
  match n with
  | O => (Status, Value)
  | S n' =>
    let (Status, v) := GetSubsetPart i in
    read_parts n' (i + 1) Status
      (if EFI_ERROR Status then Value else Z.lor Value (u32 (Z.shiftl (default 0 v) i)))
  end.
Definition ReadMMPartialGoods : EFI_STATUS * Z :=
  let (Status, Value) := read_parts (Z.to_nat (EFICHIPINFO_NUM_PARTS - 1)) 1 EFI_SUCCESS 0 in
  (if bool_decide (Status = EFI_NOT_FOUND) then EFI_SUCCESS else Status, Value).

(** The index of the first table all of whose nodes exist; 0 when there is none. *)
Fixpoint cpu_type (fdt : list Z) (i : nat) (Tables : list (list PartialGoods)) : nat :=
  match Tables with
  | [] => 0
  | Table :: Tables' =>
    if is_success (CheckCPUType fdt (take NUM_OF_CPUS Table)) then i else cpu_type fdt (S i) Tables'
  end.
Definition UpdatePartialGoodsNode (fdt : Z) : FD EFI_STATUS :=
  SkuIdx ← tree_of (boarding BoardSoftSkuId);
  if EFI_ERROR LocateChipInfo then mret LocateChipInfo else
  if ChipInfoRevision <? EFI_CHIPINFO_PROTOCOL_REVISION then mret LocateChipInfo else
  let MMValue := snd ReadMMPartialGoods in
  _ ← (if MMValue =? 0 then mret tt else FindNodeAndUpdateProperty fdt PartialGoodsMmType MMValue);
  let CpuValue := snd ReadCpuPartialGoods in
  let CpuValue := if (SkuIdx =? 1) && (CpuValue =? 0) then 0xc0 else CpuValue in
  if CpuValue =? 0 then mret EFI_SUCCESS else
  t ← blob MemBase fdt;
  Table ← access (PartialGoodsCpuType !! cpu_type t 0 (take MAX_CPU_CLUSTER PartialGoodsCpuType));
  _ ← FindNodeAndUpdateProperty fdt (take NUM_OF_CPUS Table) CpuValue;
  mret EFI_SUCCESS.
End goods.
