(* ===== verification/DtUpdate.v ===== *)
(** * Filling in the device tree for the kernel.

    [Platforms/QcomModulePkg/Library/BootLib/UpdateDeviceTree.c]: memory, DDR, the splash
    screen, command line, random seeds, initial ramdisk, fstab and the parts of the chip
    that do not work.  ([fdt_check_header_ext] is part of DeviceTree.v.) *)
From stdpp Require Import base numbers list option strings.
From Stdlib Require Import ZArith Lia Ascii.
From S2P Require Import Prelude BaseLib Unicode Storage Bytes Gpt Partitions DeviceInfo Recovery Board CmdLine DeviceTree DeviceTreeList FdtRw PartialGoods.
Local Open Scope Z_scope.

(** ** Constants and data *)
Definition NUM_SPLASHMEM_PROP_ELEM : Z := 4.
Definition DEFAULT_CELL_SIZE : Z := 2.
Definition NUM_RNG_SEED_WORDS : nat := 512.
Definition DTB_PAD_SIZE : Z := 2048.
Definition MAX_CHANNELS : Z := 2.
Definition MAX_RANKS : Z := 2.
Definition EFI_DDRGETINFO_PROTOCOL_REVISION : Z := 0x40000.
Definition SIZEOF_ddr_details_entry_info : Z := 208.
Definition SIZEOF_DisplaySplashBufferInfo : nat := 12.
Definition SIZEOF_DisplayDemuraInfoType : nat := 36.

Record FstabNode := mk_fstab { FstabParentNode : list Z; Property : list Z; DevicePathId : list Z }.
Definition FstabTable : FstabNode := mk_fstab (bytes "/firmware/android/fstab") (bytes "dev") (bytes "/soc/").
Definition DynamicFstabTable : FstabNode := mk_fstab (bytes "/firmware/android/fstab") (bytes "status") [].

(** The fields of ddr_details_entry_info that are used. *)
Record ddr_details_entry_info := mk_ddr {
  device_type : Z; num_channels : Z; num_ranks : list Z; hbb : list (list Z)
}.

(** Protocols and variables.  A variable gives the status, the size, and the bytes written
    into the buffer of the size that is passed; a random number is told by how many were
    asked for before. *)
Class UpdateProtocols := {
  GetSplashBufferInfo : Z -> EFI_STATUS * Z * list Z;
  GetDemuraInfo : Z -> EFI_STATUS * list Z;
  LocateDdrInfo : EFI_STATUS;
  DdrRevision : Z;
  GetDDRDetails : EFI_STATUS * ddr_details_entry_info;
  LocateRng : EFI_STATUS;
  GetRNG : nat -> EFI_STATUS * Z
}.

(** The number of a status, with the high bit for an error. *)
Definition status_value (s : EFI_STATUS) : Z := if EFI_ERROR s then 2 ^ 63 + status_u32 s else status_u32 s.

(** ** State: the tree, the storage (for the name of the boot device) and the static
    variables.  Each of the two functions that add memory has a [mem_info_cnt]. *)
Record update_state := mk_update {
  Fdts : fdt_state;
  DtStorage : boot_state;
  mem_info_cnt : bool;
  mem_info_cnt_V64 : bool;
  splashBuf : list Z;
  splashBufSize : Z;
  rng_calls : nat
}.
Abbreviation UD := (M update_state).
Definition with_Fdts f s := mk_update f (DtStorage s) (mem_info_cnt s) (mem_info_cnt_V64 s)
  (splashBuf s) (splashBufSize s) (rng_calls s).
Definition with_DtStorage b s := mk_update (Fdts s) b (mem_info_cnt s) (mem_info_cnt_V64 s)
  (splashBuf s) (splashBufSize s) (rng_calls s).
Definition set_mem_info_cnt s := mk_update (Fdts s) (DtStorage s) true (mem_info_cnt_V64 s)
  (splashBuf s) (splashBufSize s) (rng_calls s).
Definition set_mem_info_cnt_V64 s := mk_update (Fdts s) (DtStorage s) (mem_info_cnt s) true
  (splashBuf s) (splashBufSize s) (rng_calls s).
Definition set_splash b n s := mk_update (Fdts s) (DtStorage s) (mem_info_cnt s) (mem_info_cnt_V64 s)
  b n (rng_calls s).
Definition count_rng s := mk_update (Fdts s) (DtStorage s) (mem_info_cnt s) (mem_info_cnt_V64 s)
  (splashBuf s) (splashBufSize s) (S (rng_calls s)).
Definition fdt {A} (m : FD A) : UD A := fun s =>
  match m (Fdts s) with Some (a, f) => Some (a, with_Fdts f s) | None => None end.
Definition boot {A} (m : B A) : UD A := fun s =>
  match m (DtStorage s) with Some (a, b) => Some (a, with_DtStorage b s) | None => None end.

Section update.
Context {FW : Firmware} {BL : BaseLib} {UL : UnicodeLib} {AL : AsciiLib} {AC : AsciiCatLib}.
Context {BC : BuildConfig} {LB : LoaderBuild} {BP : BoardProtocols} {QP : BootProtocols}.
Context {LF : Libfdt} {LR : LibfdtRw} {DB : DtBuild} {SP : SubsetProtocol} {UP : UpdateProtocols}.
Variable MemBase : Z.
Variable depth : nat.

Definition path_offset (Fdt : Z) (Path : String.string) : UD Z :=
  fdt (FdtPathOffsetEx MemBase depth Fdt (bytes Path)).
Definition set_prop (Fdt Offset : Z) (f : list Z -> Z -> list Z -> list Z -> Z * list Z)
    (Name Val : list Z) : UD Z := fdt (FdtPropUpdateFunc MemBase Fdt Offset f Name Val).
(** Writing to the memory of the tree past libfdt. *)
Definition poke (Fdt Offset : Z) (data : list Z) : UD unit :=
  m ← gets (fun s => Mem (Tree (Fdts s)));
  m ← access (wr m (Fdt + Offset - MemBase) data);
  fdt (tree_of (modify (set_Mem m))).

(** ** What is asked for *)
Fixpoint ranks_ok (l : list Z) : bool :=
  match l with [] => true | r :: l' => if MAX_RANKS <? r then false else ranks_ok l' end.
Definition ValidateDdrRankChannel (DdrInfo : ddr_details_entry_info) : EFI_STATUS :=
  if MAX_CHANNELS <? num_channels DdrInfo then EFI_INVALID_PARAMETER else
  if ranks_ok (take (Z.to_nat (num_channels DdrInfo)) (num_ranks DdrInfo)) then EFI_SUCCESS
  else EFI_INVALID_PARAMETER.
Definition GetDDRInfo : EFI_STATUS * ddr_details_entry_info :=
  if negb (is_success LocateDdrInfo) then (LocateDdrInfo, mk_ddr 0 0 [] []) else GetDDRDetails.
Definition GetRandomSeed : UD (EFI_STATUS * Z) :=
  if negb (is_success LocateRng) then mret (LocateRng, 0) else
  n ← gets rng_calls;
  _ ← modify count_rng;
  let (Status, RandomSeed) := GetRNG n in
  mret (Status, if is_success Status then RandomSeed else 0).

(** ** Regions of the display *)
(** A word of a structure in memory as the four bytes of a cell. *)
Definition swapped (buf : list Z) (off : Z) (n : nat) : UD (list Z) := w ← access (rd buf off n); mret (reverse w).
(** [reg] as it is in the tree, written to the tree once more. *)
Definition set_inplace (Fdt Offset : Z) (Name : list Z) (Prop_ PropLen : Z) : UD Z :=
  t ← fdt (blob MemBase Fdt);
  data ← access (rd t Prop_ (Z.to_nat PropLen));
  fdt (change_blob MemBase Fdt (fun t => fdt_setprop_inplace t Offset Name data)).
Definition UpdateSplashMemInfo (Fdt : Z) : UD EFI_STATUS :=
  size ← gets splashBufSize;
  buf ← gets splashBuf;
  let '(Status, size, got) := GetSplashBufferInfo size in
  buf ← access (wr buf 0 got);
  _ ← modify (set_splash buf size);
  if negb (is_success Status) then mret Status else
  ret ← path_offset Fdt "/reserved-memory/splash_region";
  if ret <? 0 then mret EFI_NOT_FOUND else
  t ← fdt (blob MemBase Fdt);
  match fdt_get_property t ret (bytes "reg") with
  | (None, _) => mret EFI_NOT_FOUND
  | (Some Prop_, PropLen) =>
    if negb (PropLen =? NUM_SPLASHMEM_PROP_ELEM * 4) then mret EFI_BAD_BUFFER_SIZE else
    if CHECK_ADD64 (u64 (Fdt + Prop_)) 4 then mret EFI_BAD_BUFFER_SIZE else
    FrameAddr ← swapped buf 4 4;
    buf ← access (wr buf 4 FrameAddr);
    _ ← modify (set_splash buf size);
    _ ← poke Fdt (Prop_ + 4) FrameAddr;
    if CHECK_ADD64 (u64 (Fdt + Prop_ + 4)) 8 then mret EFI_BAD_BUFFER_SIZE else
    FrameSize ← swapped buf 8 4;
    buf ← access (wr buf 8 FrameSize);
    _ ← modify (set_splash buf size);
    _ ← poke Fdt (Prop_ + 12) FrameSize;
    ret ← set_inplace Fdt ret (bytes "reg") Prop_ PropLen;
    if ret <? 0 then mret EFI_NO_MAPPING else mret Status
  end.

Definition UpdateDemuraRegion (Fdt : Z) (Path : String.string) (HFCAddr HFCSize : Z) : UD EFI_STATUS :=
  ret ← path_offset Fdt Path;
  if ret <? 0 then mret EFI_SUCCESS else
  t ← fdt (blob MemBase Fdt);
  match fdt_get_property t ret (bytes "reg") with
  | (None, _) => mret EFI_NOT_FOUND
  | (Some Prop_, PropLen) =>
    if u32 PropLen <? 16 then mret EFI_INVALID_PARAMETER else
    _ ← poke Fdt (Prop_ + 4) (be_bytes 4 HFCAddr);
    _ ← poke Fdt (Prop_ + 12) (be_bytes 4 HFCSize);
    ret ← set_inplace Fdt ret (bytes "reg") Prop_ PropLen;
    mret (if ret <? 0 then EFI_NO_MAPPING else EFI_SUCCESS)
  end.
Definition UpdateDemuraPanelID (Fdt : Z) (Path : String.string) (PanelID : Z) : UD EFI_STATUS :=
  let Name := bytes "qcom,demura-panel-id" in
  ret ← path_offset Fdt Path;
  if ret <? 0 then mret EFI_SUCCESS else
  t ← fdt (blob MemBase Fdt);
  match fdt_get_property t ret Name with
  | (None, _) => mret EFI_NOT_FOUND
  | (Some Prop_, PropLen) =>
    if u32 PropLen <? 8 then mret EFI_INVALID_PARAMETER else
    _ ← poke Fdt Prop_ (be_bytes 8 PanelID);
    ret ← set_inplace Fdt ret Name Prop_ PropLen;
    mret (if ret <? 0 then EFI_NO_MAPPING else EFI_SUCCESS)
  end.
(** The structure is packed: version, then for each panel the identifier, the address and
    the size. *)
Definition UpdateDemuraInfo (Fdt : Z) : UD EFI_STATUS :=
  let (Status, got) := GetDemuraInfo (Z.of_nat SIZEOF_DisplayDemuraInfoType) in
  DemuraInfo ← access (wr (repeat 0 SIZEOF_DisplayDemuraInfoType) 0 got);
  Version ← access (field 4 DemuraInfo 0);
  if is_success Status && (0 <? Version) then
    Panel0 ← access (field 8 DemuraInfo 4);
    Addr0 ← access (field 4 DemuraInfo 12);
    Size0 ← access (field 4 DemuraInfo 16);
    Panel1 ← access (field 8 DemuraInfo 20);
    Addr1 ← access (field 4 DemuraInfo 28);
    Size1 ← access (field 4 DemuraInfo 32);
    _ ← (if negb (Addr0 =? 0) && negb (Size0 =? 0)
         then UpdateDemuraRegion Fdt "/reserved-memory/demura_region_0" Addr0 Size0 else mret EFI_SUCCESS);
    _ ← (if negb (Addr1 =? 0) && negb (Size1 =? 0)
         then UpdateDemuraRegion Fdt "/reserved-memory/demura_region_1" Addr1 Size1 else mret EFI_SUCCESS);
    _ ← (if negb (Panel0 =? 0)
         then UpdateDemuraPanelID Fdt "/soc/qcom,dsi-display-primary" Panel0 else mret EFI_SUCCESS);
    _ ← (if negb (Panel1 =? 0)
         then UpdateDemuraPanelID Fdt "/soc/qcom,dsi-display-secondary" Panel1 else mret EFI_SUCCESS);
    mret Status
  else mret Status.

(** ** Memory *)
Definition UpdateGranuleInfo (Fdt : Z) : UD unit :=
  let (Status, GranuleSize) := GetGranuleSize in
  if EFI_ERROR Status then mret tt else
  GranuleSize ← access GranuleSize;
  GranuleNodeOffset ← path_offset Fdt "/mem-offline";
  if GranuleNodeOffset <? 0 then mret tt else
  _ ← set_prop Fdt GranuleNodeOffset fdt_setprop (bytes "granule") (prop_u32 (u32 GranuleSize));
  mret tt.

Definition cell_size (t : list Z) (RootOffset : Z) (Name : String.string) : UD (option Z) :=
  match fdt_getprop t RootOffset (bytes Name) with
  | (Some p, PropLen) =>
    if 0 <? PropLen then w ← access (rd t p 4); mret (Some (be_value w)) else mret None
  | (None, _) => mret None
  end.
Definition QueryMemoryCellSize (Fdt : Z) : UD (EFI_STATUS * Z) :=
  t ← fdt (blob MemBase Fdt);
  let RootOffset := fdt_path_offset t (bytes "/") in
  if RootOffset <? 0 then mret (EFI_NOT_FOUND, 0) else
  Addr ← cell_size t RootOffset "#address-cells";
  match Addr with
  | None => mret (EFI_NOT_FOUND, 0)
  | Some AddrCellSize =>
    Size ← cell_size t RootOffset "#size-cells";
    match Size with
    | None => mret (EFI_NOT_FOUND, 0)
    | Some SizeCellSize =>
      if (DEFAULT_CELL_SIZE <? AddrCellSize) || (DEFAULT_CELL_SIZE <? SizeCellSize) ||
         (SizeCellSize =? 0) || (AddrCellSize =? 0) then mret (EFI_INVALID_PARAMETER, 0) else
      if AddrCellSize =? SizeCellSize then mret (EFI_SUCCESS, AddrCellSize)
      else mret (EFI_INVALID_PARAMETER, 0)
    end
  end.

(** The first call replaces [reg], later ones append. *)
Definition dev_tree_add_mem_info (Fdt offset addr size : Z) : UD Z :=
  started ← gets mem_info_cnt;
  _ ← (if started : bool then set_prop Fdt offset fdt_appendprop (bytes "reg") (prop_u32 addr)
       else _ ← modify set_mem_info_cnt; set_prop Fdt offset fdt_setprop (bytes "reg") (prop_u32 addr));
  set_prop Fdt offset fdt_appendprop (bytes "reg") (prop_u32 size).
Definition dev_tree_add_mem_infoV64 (Fdt offset addr size : Z) : UD Z :=
  started ← gets mem_info_cnt_V64;
  _ ← (if started : bool then set_prop Fdt offset fdt_appendprop (bytes "reg") (prop_u64 addr)
       else _ ← modify set_mem_info_cnt_V64; set_prop Fdt offset fdt_setprop (bytes "reg") (prop_u64 addr));
  set_prop Fdt offset fdt_appendprop (bytes "reg") (prop_u64 size).

(** An entry that does not fit is left out. *)
Fixpoint add_partitions (Fdt MemNodeOffset MemoryCellLen : Z) (l : list RamPartitionEntry) : UD unit :=
  match l with
  | [] => mret tt
  | e :: l' =>
    _ ← (if MemoryCellLen =? 1
         then dev_tree_add_mem_info Fdt MemNodeOffset (u32 (Base e)) (u32 (AvailableLength e))
         else dev_tree_add_mem_infoV64 Fdt MemNodeOffset (Base e) (AvailableLength e));
    add_partitions Fdt MemNodeOffset MemoryCellLen l'
  end.
Definition AddMemMap (Fdt MemNodeOffset : Z) : UD EFI_STATUS :=
  r ← QueryMemoryCellSize Fdt;
  let (Status, MemoryCellLen) := r : EFI_STATUS * Z in
  if EFI_ERROR Status then mret Status else
  r ← fdt (tree_of (boarding ReadRamPartitions));
  let (Status, RamPartitions) := r : EFI_STATUS * list RamPartitionEntry in
  if EFI_ERROR Status then mret Status else
  _ ← add_partitions Fdt MemNodeOffset MemoryCellLen RamPartitions;
  _ ← fdt (tree_of (boarding (modify (fun b => set_RamPartitionEntries None (NumPartitionEntries b) b))));
  mret EFI_SUCCESS.
Definition target_dev_tree_mem (Fdt MemNodeOffset : Z) : UD EFI_STATUS :=
  Status ← AddMemMap Fdt MemNodeOffset;
  if EFI_ERROR Status then mret Status else
  _ ← UpdateGranuleInfo Fdt;
  mret Status.

(** ** The table of file systems: the device of a boot partition becomes the boot device *)
(** Where the name of the device begins in the string at [Prop_], and the text behind it. *)
Definition device_name (t : list Z) (Prop_ : Z) : UD (option (Z * option nat)) :=
  s ← access (c_string t (Z.to_nat Prop_));
  match AsciiStrStr s (DevicePathId FstabTable) with
  | None => mret None
  | Some k =>
    let ReplaceStr := Prop_ + Z.of_nat k + Z.of_nat (AsciiStrLen (DevicePathId FstabTable)) in
    s ← access (c_string t (Z.to_nat (ReplaceStr + 1)));
    mret (Some (ReplaceStr, (fun n => S n) <$> AsciiStrStr s (bytes "/")))
  end.
(** [NextStr] is NULL without a slash; then the difference of the pointers is taken for
    the length, and the text at NULL is read. *)
Definition replace_device (Fdt : Z) (BootDevBuf : list Z) (ReplaceStr : Z) (NextStr : option nat) : UD unit :=
  let n := AsciiStrLen BootDevBuf in
  let DevNodeBootDevLen :=
    match NextStr with Some d => u32 (Z.of_nat d) | None => u32 (- (Fdt + ReplaceStr)) end in
  if DevNodeBootDevLen <? Z.of_nat n then mret tt else
  _ ← poke Fdt ReplaceStr BootDevBuf;
  let PaddingEnd := u32 (DevNodeBootDevLen - Z.of_nat n) in
  if PaddingEnd =? 0 then mret tt else
  match NextStr with
  | None => crash
  | Some d =>
    t ← fdt (blob MemBase Fdt);
    Next ← access (c_string t (Z.to_nat (ReplaceStr + Z.of_nat d)));
    _ ← poke Fdt (ReplaceStr + Z.of_nat n) Next;
    poke Fdt (ReplaceStr + Z.of_nat n + Z.of_nat (AsciiStrLen Next)) (repeat (ch " ") (Z.to_nat PaddingEnd))
  end.
(** The status of the last node that was disabled, as a number. *)
Definition fstab_node (Fdt SubNodeOffset : Z) (Table : FstabNode) (BootDevBuf : list Z) (Status : Z) : UD Z :=
  t ← fdt (blob MemBase Fdt);
  match fdt_get_property t SubNodeOffset (Property Table) with
  | (None, _) => mret Status
  | (Some Prop_, _) =>
    if IsDynamicPartitionSupport then
      Ret ← fdt (FdtSetPropEx MemBase Fdt SubNodeOffset (Property Table) (prop_string (bytes "disabled")));
      mret (u64 Ret)
    else
      r ← device_name t Prop_;
      match r with
      | None => mret Status
      | Some (ReplaceStr, NextStr) => _ ← replace_device Fdt BootDevBuf ReplaceStr NextStr; mret Status
      end
  end.
Fixpoint fstab_loop (fuel : nat) (Fdt SubNodeOffset : Z) (Table : FstabNode) (BootDevBuf : list Z) (Status : Z) : UD Z :=
  if SubNodeOffset <? 0 then mret Status else
  match fuel with
  | O => crash
  | S fuel' =>
    Status ← fstab_node Fdt SubNodeOffset Table BootDevBuf Status;
    t ← fdt (blob MemBase Fdt);
    fstab_loop fuel' Fdt (fdt_next_subnode t SubNodeOffset) Table BootDevBuf Status
  end.
Definition UpdateFstabNode (Fdt : Z) : UD Z :=
  let Table := if IsDynamicPartitionSupport then DynamicFstabTable else FstabTable in
  ParentOffset ← fdt (FdtPathOffsetEx MemBase depth Fdt (FstabParentNode Table));
  if ParentOffset <? 0 then mret (status_value EFI_NOT_FOUND) else
  let update BootDevBuf :=
    t ← fdt (blob MemBase Fdt);
    fstab_loop (length t) Fdt (fdt_first_subnode t ParentOffset) Table BootDevBuf 0 in
  if IsDynamicPartitionSupport then update [] else
  if negb (PoolAvailable 0 (Z.of_nat BOOT_DEV_MAX_LEN)) then mret (status_value EFI_OUT_OF_RESOURCES) else
  r ← boot (GetBootDevice BOOT_DEV_MAX_LEN);
  let (Status, BootDevBuf) := r : EFI_STATUS * list Z in
  if negb (is_success Status) then mret (status_value Status) else update BootDevBuf.

(** ** The whole update *)
(** A property of the memory node; an error is only printed. *)
Definition add_ddr (Fdt offset : Z) (Name : list Z) (v : Z) : UD unit :=
  _ ← set_prop Fdt offset fdt_appendprop Name (prop_u32 v); mret tt.
Fixpoint add_hbb (Fdt offset : Z) (Chan : nat) (Rank : nat) (l : list Z) : UD unit :=
  match l with
  | [] => mret tt
  | v :: l' =>
    _ ← add_ddr Fdt offset (take 24 (bytes "ddr_device_hbb_ch" ++ print_int (Z.of_nat Chan) ++
                                      bytes "_rank" ++ print_int (Z.of_nat Rank))) v;
    add_hbb Fdt offset Chan (S Rank) l'
  end.
Fixpoint add_ranks (Fdt offset : Z) (n : nat) (Chan : nat) (DdrInfo : ddr_details_entry_info) : UD unit :=
  match n with
  | O => mret tt
  | S n' =>
    ranks ← access (num_ranks DdrInfo !! Chan);
    row ← access (hbb DdrInfo !! Chan);
    _ ← add_ddr Fdt offset (take 19 (bytes "ddr_device_rank_ch" ++ print_int (Z.of_nat Chan))) ranks;
    row ← access (if (length row <? Z.to_nat ranks)%nat then fault else Some (take (Z.to_nat ranks) row));
    _ ← add_hbb Fdt offset Chan 0 row;
    add_ranks Fdt offset n' (S Chan) DdrInfo
  end.
Definition update_ddr (Fdt offset : Z) : UD unit :=
  let (Status, DdrInfo) := GetDDRInfo in
  if negb (is_success Status) then mret tt else
  _ ← add_ddr Fdt offset (bytes "ddr_device_type") (device_type DdrInfo);
  if DdrRevision <? EFI_DDRGETINFO_PROTOCOL_REVISION then mret tt else
  if negb (is_success (ValidateDdrRankChannel DdrInfo)) then mret tt else
  add_ranks Fdt offset (Z.to_nat (num_channels DdrInfo)) 0 DdrInfo.

(** The seeds; the result is that of the last change of the tree. *)
Definition add_seed (Fdt offset : Z) (Name : list Z) : UD (option Z) :=
  r ← GetRandomSeed;
  let (Status, RandomSeed) := r : EFI_STATUS * Z in
  if is_success Status then
    ret ← set_prop Fdt offset fdt_appendprop Name (prop_u64 RandomSeed); mret (Some ret)
  else mret None.
Fixpoint add_rng_seeds (n : nat) (Fdt offset : Z) (ret : Z) : UD Z :=
  match n with
  | O => mret ret
  | S n' =>
    r ← add_seed Fdt offset (bytes "rng-seed");
    match r with
    | None => mret ret
    | Some ret => if ret =? 0 then add_rng_seeds n' Fdt offset ret else mret ret
    end
  end.

(** [ADD_OF (fdt_totalsize, DTB_PAD_SIZE + AsciiStrLen (cmdline))], whose arguments are not
    in parentheses. *)
Definition padded_size (totalsize : Z) (n : nat) : Z :=
  if totalsize <? u64 (MAX_UINT32 - DTB_PAD_SIZE + Z.of_nat n)
  then u32 (totalsize + DTB_PAD_SIZE + Z.of_nat n) else 0.

(** The last part, from the chosen node on. *)
Definition update_chosen (Fdt : Z) (cmdline : list Z) (ramdisk RamDiskSize : Z) : UD Z :=
  offset ← path_offset Fdt "/chosen";
  if offset <? 0 then mret (status_value EFI_NOT_FOUND) else
  ret ← set_prop Fdt offset fdt_appendprop (bytes "bootargs") (prop_string cmdline);
  if negb (ret =? 0) then mret (status_value EFI_LOAD_ERROR) else
  ret ← add_rng_seeds (NUM_RNG_SEED_WORDS / 8) Fdt offset ret;
  r ← add_seed Fdt offset (bytes "kaslr-seed");
  let ret := default ret r in
  r ← (if RamDiskSize =? 0 then mret (Some ret) else
       ret ← set_prop Fdt offset fdt_setprop (bytes "linux,initrd-start") (prop_u64 ramdisk);
       if negb (ret =? 0) then mret None else
       ret ← set_prop Fdt offset fdt_setprop (bytes "linux,initrd-end") (prop_u64 (u64 (ramdisk + RamDiskSize)));
       if negb (ret =? 0) then mret None else mret (Some ret));
  match r with
  | None => mret (status_value EFI_NOT_FOUND)
  | Some ret =>
    _ ← UpdateFstabNode Fdt;
    ret ← (if EnablePartialGoods
           then Status ← fdt (UpdatePartialGoodsNode MemBase depth Fdt); mret (s32 (status_value Status))
           else mret ret);
    if EnablePartialGoods && negb (ret =? 0) then mret (u64 ret) else
    _ ← fdt (change_blob MemBase Fdt fdt_pack);
    mret (u64 ret)
  end.

(** The status is a number, since the code returns one that was an INT32. *)
Definition UpdateDeviceTree (Fdt : Z) (cmdline : list Z) (ramdisk RamDiskSize : Z) : UD Z :=
  t ← fdt (blob MemBase Fdt);
  if negb (fdt_check_header t =? 0) || negb (fdt_check_header_ext Fdt t =? 0)
  then mret (status_value EFI_NOT_FOUND) else
  let PaddSize := padded_size (fdt_totalsize t) (AsciiStrLen cmdline) in
  if PaddSize =? 0 then mret (status_value EFI_BAD_BUFFER_SIZE) else
  ret ← fdt (change_blob MemBase Fdt (fun t => fdt_open_into t (s32 PaddSize)));
  if negb (ret =? 0) then mret (status_value EFI_BAD_BUFFER_SIZE) else
  offset ← path_offset Fdt "/memory";
  if offset <? 0 then mret (status_value EFI_NOT_FOUND) else
  Status ← target_dev_tree_mem Fdt offset;
  if negb (is_success Status) then mret (status_value Status) else
  if negb (PoolAvailable 0 SIZEOF_ddr_details_entry_info) then mret (status_value EFI_OUT_OF_RESOURCES) else
  _ ← update_ddr Fdt offset;
  _ ← UpdateSplashMemInfo Fdt;
  _ ← UpdateDemuraInfo Fdt;
  update_chosen Fdt cmdline ramdisk RamDiskSize.
End update.
