(* ===== verification/DtUpdateSpec.v ===== *)
(** * What the kernel is told about memory and the boot device. *)
From stdpp Require Import base numbers list option strings.
From Stdlib Require Import ZArith Lia Ascii.
From S2P Require Import Prelude BaseLib Unicode Storage Bytes StorageSpec Partitions DeviceInfo Recovery Board BoardDemo CmdLine DeviceTree DeviceTreeList FdtRw FdtRwSpec DtUpdate.
Local Open Scope Z_scope.

(** ** What is relied on of libfdt: the values of properties, and when there is room *)
Definition prop_value `{LibfdtRw} (t : list Z) (Offset : Z) (Name : list Z) : option (list Z) :=
  match fdt_get_property t Offset Name with (Some p, Len) => rd t p (Z.to_nat Len) | (None, _) => None end.
(** A new property has a header and at most its name among the strings. *)
Definition prop_need `{LibfdtRw} (t : list Z) (Offset : Z) (Name Val : list Z) : Z :=
  (match prop_value t Offset Name with
   | Some _ => 0 | None => SIZEOF_fdt_property + Z.of_nat (length Name) + 1 end) +
  FDT_TAGALIGN (Z.of_nat (length Val)).
Class LibfdtValueLaws (LR : LibfdtRw) := {
  (** Is there a node at the offset, and how many bytes of the buffer are free? *)
  is_node : list Z -> Z -> Prop;
  fdt_free : list Z -> Z;
  (** "-FDT_ERR_NOSPACE, there is insufficient free space in the blob" *)
  prop_room_law f t o Name Val :
    f = fdt_setprop \/ f = fdt_appendprop -> is_node t o -> prop_need t o Name Val <= fdt_free t ->
    exists t', f t o Name Val = (0, t') /\ is_node t' o /\ fdt_free t - prop_need t o Name Val <= fdt_free t';
  fdt_setprop_value t o Name Val t' :
    is_node t o -> fdt_setprop t o Name Val = (0, t') -> prop_value t' o Name = Some Val;
  fdt_appendprop_value t o Name Val t' :
    is_node t o -> fdt_appendprop t o Name Val = (0, t') ->
    prop_value t' o Name = Some (default [] (prop_value t o Name) ++ Val)
}.

(** ** The kernel's reading of [reg]: addresses and sizes of [n] cells each *)
Fixpoint kernel_reads (fuel : nat) (cells : nat) (reg : list Z) : list (Z * Z) :=
  match fuel, reg with
  | S fuel', _ :: _ =>
    (be_value (take (4 * cells) reg), be_value (take (4 * cells) (drop (4 * cells) reg)))
    :: kernel_reads fuel' cells (drop (8 * cells) reg)
  | _, _ => []
  end.
Definition memory_of (reg : list Z) (cells : Z) : list (Z * Z) := kernel_reads (length reg) (Z.to_nat cells) reg.
(** A partition as an entry of so many cells. *)
Definition cell_entry (cells : Z) (e : RamPartitionEntry) : Z * Z :=
  (Base e mod 2 ^ (32 * cells), AvailableLength e mod 2 ^ (32 * cells)).

Lemma be_bytes_length n x : length (be_bytes n x) = n.
Proof.
  unfold be_bytes. rewrite length_reverse. revert x. induction n as [|n IH]; intros x; [done|]. cbn. by rewrite IH.
Qed.
Lemma be_value_be_bytes n x : be_value (be_bytes n x) = x mod 2 ^ (8 * Z.of_nat n).
Proof. unfold be_value, be_bytes. by rewrite reverse_involutive, le_value_le_bytes. Qed.

Definition entry_bytes (cells : Z) (e : RamPartitionEntry) : list Z :=
  be_bytes (Z.to_nat (4 * cells)) (Base e) ++ be_bytes (Z.to_nat (4 * cells)) (AvailableLength e).
Lemma entry_bytes_length cells e : 0 <= cells -> length (entry_bytes cells e) = Z.to_nat (8 * cells).
Proof. intros H. unfold entry_bytes. rewrite length_app, !be_bytes_length. lia. Qed.

Lemma kernel_reads_entries fuel cells l :
  1 <= cells -> (length l <= fuel)%nat ->
  kernel_reads fuel (Z.to_nat cells) (concat (entry_bytes cells <$> l)) = cell_entry cells <$> l.
Proof.
  intros Hc. revert fuel. induction l as [|e l IH]; intros fuel Hf; [by destruct fuel|].
  destruct fuel as [|fuel]; [cbn in Hf; lia|]. cbn [fmap list_fmap concat].
  pose proof (entry_bytes_length cells e ltac:(lia)) as HL.
  cbn [kernel_reads]. destruct (entry_bytes cells e ++ concat (entry_bytes cells <$> l)) as [|x r] eqn:E.
  { exfalso. apply (f_equal length) in E. rewrite length_app in E. cbn in E. lia. }
  rewrite <- E. clear x r E.
  rewrite (drop_app_length' (entry_bytes cells e) _ (8 * Z.to_nat cells)) by lia. rewrite IH by (cbn in Hf; lia). f_equal.
  unfold entry_bytes, cell_entry. rewrite <- !app_assoc.
  rewrite take_app_length' by (rewrite be_bytes_length; lia).
  rewrite drop_app_length' by (rewrite be_bytes_length; lia).
  rewrite take_app_length' by (rewrite be_bytes_length; lia).
  rewrite !be_value_be_bytes. do 3 f_equal; lia.
Qed.
Lemma memory_of_entries cells l :
  1 <= cells -> memory_of (concat (entry_bytes cells <$> l)) cells = cell_entry cells <$> l.
Proof.
  intros Hc. apply kernel_reads_entries; [done|].
  induction l as [|e l IH]; [cbn; lia|]. cbn [fmap list_fmap concat].
  rewrite length_app, (entry_bytes_length cells e) by lia. cbn [length]. lia.
Qed.

Section spec.
Context {FW : Firmware} {BL : BaseLib} {BLL : BaseLibLaws BL} {UL : UnicodeLib} {BP : BoardProtocols}.
Context {BC : BuildConfig} {LB : LoaderBuild} {LF : Libfdt} {LR : LibfdtRw} {VL : LibfdtValueLaws LR} {DB : DtBuild}.
Variables MemBase Fdt offset : Z.
Abbreviation tree_now s := (tree MemBase Fdt (Fdts s)).
Abbreviation placed_now s := (placed MemBase Fdt (Fdts s)).

(** Nothing but the tree, its memory and the list of nodes changes. *)
Definition same_rest (s s' : update_state) : Prop :=
  mem_info_cnt s' = mem_info_cnt s /\ mem_info_cnt_V64 s' = mem_info_cnt_V64 s.
Lemma update_offsets_run o d f :
  exists f', FdtUpdateNodeOffsetInList o d f = Some (tt, f') /\ Tree f' = Tree f.
Proof. unfold FdtUpdateNodeOffsetInList. case_if; run; eexists; by split. Qed.
Lemma set_prop_run f s Name Val r t' :
  placed_now s -> f (tree_now s) offset Name Val = (r, t') ->
  exists s', set_prop MemBase Fdt offset f Name Val s = Some (r, s') /\
             tree_now s' = t' /\ placed_now s' /\ same_rest s s'.
Proof.
  intros Hp Hf. unfold set_prop, fdt, FdtPropUpdateFunc, FdtGetPropLen.
  destruct (change_blob_run MemBase Fdt (fun t => f t offset Name Val) (Fdts s) r t' Hp Hf) as (s1 & E1 & Ht & HN & Hp1).
  destruct EnableNewNodeSearchFuc.
  - rewrite !bind_run, (blob_run MemBase Fdt _ Hp). run. rewrite E1.
    destruct (Z.eqb_spec r 0) as [->|].
    + rewrite !bind_run, (blob_run MemBase Fdt _ Hp1). run.
      match goal with |- context [FdtUpdateNodeOffsetInList ?o ?d] => destruct (update_offsets_run o d s1) as (f' & -> & HT) end.
      eexists; split; [reflexivity|]. unfold tree, placed in *. cbn. rewrite HT. by split.
    + run. eexists; split; [reflexivity|]; by split.
  - rewrite E1. eexists; split; [reflexivity|]; by split.
Qed.

(** One property change that fits. *)
Lemma set_prop_fits f s Name Val :
  f = fdt_setprop \/ f = fdt_appendprop ->
  placed_now s -> is_node (tree_now s) offset -> prop_need (tree_now s) offset Name Val <= fdt_free (tree_now s) ->
  exists s', set_prop MemBase Fdt offset f Name Val s = Some (0, s') /\ placed_now s' /\ same_rest s s' /\
    is_node (tree_now s') offset /\
    fdt_free (tree_now s) - prop_need (tree_now s) offset Name Val <= fdt_free (tree_now s') /\
    f (tree_now s) offset Name Val = (0, tree_now s').
Proof.
  intros Hf Hp Hn Hr. destruct (prop_room_law f _ _ _ _ Hf Hn Hr) as (t' & E & Hn' & Hr').
  destruct (set_prop_run f s Name Val 0 t' Hp E) as (s' & H & <- & Hp' & Hs). eauto 10.
Qed.

Definition cell_bytes (cells x : Z) : list Z := be_bytes (Z.to_nat (4 * cells)) x.
Definition started (cells : Z) (s : update_state) : bool :=
  if cells =? 1 then mem_info_cnt s else mem_info_cnt_V64 s.
Definition add_one (cells : Z) (e : RamPartitionEntry) : UD Z :=
  if cells =? 1 then dev_tree_add_mem_info MemBase Fdt offset (u32 (Base e)) (u32 (AvailableLength e))
  else dev_tree_add_mem_infoV64 MemBase Fdt offset (Base e) (AvailableLength e).

Lemma be_bytes_u32 x : be_bytes 4 (u32 x) = be_bytes 4 x.
Proof.
  unfold be_bytes. f_equal. unfold u32. cbn [le_bytes].
  assert (forall a k, 0 <= k <= 24 -> (a mod 2 ^ 32) / 2 ^ k mod 2 ^ 8 = a / 2 ^ k mod 2 ^ 8) as H.
  { intros a k Hk. rewrite <- !Z.land_ones, <- !Z.shiftr_div_pow2 by lia. apply Z.bits_inj'. intros i Hi.
    rewrite !Z.land_spec, !Z.shiftr_spec, Z.land_spec by lia.
    destruct (Z.testbit (Z.ones 8) i) eqn:E; [|by rewrite !andb_false_r].
    destruct (decide (i < 8)) as [Hi8|Hi8]; [|rewrite Z.ones_spec_high in E by lia; done].
    rewrite (Z.ones_spec_low 32) by lia. by rewrite !andb_true_r. }
  rewrite !Z.div_div by lia. rewrite <- !Z.pow_add_r by lia.
  pose proof (H x 0 ltac:(lia)) as H0. rewrite !Z.div_1_r in H0. f_equal; [exact H0|].
  f_equal; [by apply (H x 8)|]. f_equal; [by apply (H x (8 + 8))|]. f_equal. by apply (H x (8 + 8 + 8)).
Qed.

(** ** Adding partitions *)
Definition reg : list Z := bytes "reg".
Lemma need_known t v cells x :
  1 <= cells <= 2 -> prop_value t offset reg = Some v -> prop_need t offset reg (cell_bytes cells x) = 4 * cells.
Proof.
  intros Hc Hv. unfold prop_need, cell_bytes. rewrite Hv, be_bytes_length.
  assert (cells = 1 \/ cells = 2) as [-> | ->] by lia; reflexivity.
Qed.
Lemma need_bound t cells x :
  1 <= cells <= 2 -> prop_need t offset reg (cell_bytes cells x) <= 16 + 4 * cells.
Proof.
  intros Hc. unfold prop_need, cell_bytes. rewrite be_bytes_length.
  assert (cells = 1 \/ cells = 2) as [-> | ->] by lia; destruct (prop_value t offset reg); vm_compute; congruence.
Qed.

(** What every step of the loop needs and keeps. *)
Record ready (cells room : Z) (s : update_state) : Prop := mk_ready {
  rd_placed : placed_now s;
  rd_node : is_node (tree_now s) offset;
  rd_room : 0 <= room <= fdt_free (tree_now s)
}.
Lemma append_cell cells room s v x :
  1 <= cells <= 2 -> 0 <= room -> prop_value (tree_now s) offset reg = Some v -> ready cells (4 * cells + room) s ->
  exists s', set_prop MemBase Fdt offset fdt_appendprop reg (cell_bytes cells x) s = Some (0, s') /\
    ready cells room s' /\ same_rest s s' /\ prop_value (tree_now s') offset reg = Some (v ++ cell_bytes cells x).
Proof.
  intros Hc H0 Hv [Hp Hn Hr]. pose proof (need_known _ v cells x Hc Hv) as HN.
  destruct (set_prop_fits fdt_appendprop s reg (cell_bytes cells x)) as (s' & H & Hp' & Hs & Hn' & Hr' & E);
    [by right|done|done|lia|].
  exists s'. split_and!; [done|split; [done|done|lia]|done|].
  apply fdt_appendprop_value in E; [|done]. by rewrite Hv in E.
Qed.
Lemma first_cell cells room s x :
  1 <= cells <= 2 -> 0 <= room -> ready cells (16 + 4 * cells + room) s ->
  exists s', set_prop MemBase Fdt offset fdt_setprop reg (cell_bytes cells x) s = Some (0, s') /\
    ready cells room s' /\ same_rest s s' /\ prop_value (tree_now s') offset reg = Some (cell_bytes cells x).
Proof.
  intros Hc H0 [Hp Hn Hr]. pose proof (need_bound (tree_now s) cells x Hc) as HN.
  destruct (set_prop_fits fdt_setprop s reg (cell_bytes cells x)) as (s' & H & Hp' & Hs & Hn' & Hr' & E);
    [by left|done|done|lia|].
  exists s'. split_and!; [done|split; [done|done|lia]|done|]. by apply fdt_setprop_value in E.
Qed.

Lemma add_one_cells cells e s :
  cells = 1 \/ cells = 2 ->
  add_one cells e s =
  (_ ← (if started cells s then set_prop MemBase Fdt offset fdt_appendprop reg (cell_bytes cells (Base e))
        else _ ← modify (if cells =? 1 then set_mem_info_cnt else set_mem_info_cnt_V64);
             set_prop MemBase Fdt offset fdt_setprop reg (cell_bytes cells (Base e)));
   set_prop MemBase Fdt offset fdt_appendprop reg (cell_bytes cells (AvailableLength e))) s.
Proof.
  intros [-> | ->]; unfold add_one, dev_tree_add_mem_info, dev_tree_add_mem_infoV64, cell_bytes, started, prop_u32, prop_u64;
    cbn [Z.eqb Pos.eqb]; run; rewrite ?be_bytes_u32; reflexivity.
Qed.
Lemma entry_cells cells e : entry_bytes cells e = cell_bytes cells (Base e) ++ cell_bytes cells (AvailableLength e).
Proof. done. Qed.
Lemma started_rest cells s s' : same_rest s s' -> started cells s' = started cells s.
Proof. intros [H1 H2]. unfold started. by rewrite H1, H2. Qed.

Lemma add_next cells room s v e :
  1 <= cells <= 2 -> 0 <= room -> started cells s = true -> prop_value (tree_now s) offset reg = Some v ->
  ready cells (8 * cells + room) s ->
  exists s', add_one cells e s = Some (0, s') /\ ready cells room s' /\ started cells s' = true /\
    prop_value (tree_now s') offset reg = Some (v ++ entry_bytes cells e).
Proof.
  intros Hc Hr0 Hs Hv Hr. rewrite add_one_cells, Hs by lia.
  destruct (append_cell cells (4 * cells + room) s v (Base e)) as (s1 & H1 & Hr1 & Hs1 & Hv1);
    [done|lia|done|by replace (4 * cells + (4 * cells + room)) with (8 * cells + room) by lia|].
  destruct (append_cell cells room s1 _ (AvailableLength e) Hc Hr0 Hv1 Hr1) as (s2 & H2 & Hr2 & Hs2 & Hv2).
  exists s2. rewrite bind_run, H1, H2. split_and!; [done|done| |by rewrite entry_cells, app_assoc].
  by rewrite (started_rest _ _ _ Hs2), (started_rest _ _ _ Hs1).
Qed.
Lemma add_first cells room s e :
  1 <= cells <= 2 -> 0 <= room -> started cells s = false -> ready cells (16 + 8 * cells + room) s ->
  exists s', add_one cells e s = Some (0, s') /\ ready cells room s' /\ started cells s' = true /\
    prop_value (tree_now s') offset reg = Some (entry_bytes cells e).
Proof.
  intros Hc Hr0 Hs Hr. rewrite add_one_cells, Hs by lia. rewrite bind_run.
  set (s0 := (if cells =? 1 then set_mem_info_cnt else set_mem_info_cnt_V64) s).
  assert (Fdts s0 = Fdts s /\ started cells s0 = true) as [H0 Hst].
  { unfold s0, started. by destruct (cells =? 1) eqn:E. }
  destruct (first_cell cells (4 * cells + room) s0 (Base e)) as (s1 & H1 & Hr1 & Hs1 & Hv1); [done|lia| |].
  { destruct Hr as [Hp Hn Hr]. split; rewrite H0; [done|done|lia]. }
  destruct (append_cell cells room s1 _ (AvailableLength e) Hc Hr0 Hv1 Hr1) as (s2 & H2 & Hr2 & Hs2 & Hv2).
  exists s2. rewrite bind_run. unfold modify. fold s0. rewrite H1, H2. split_and!; [done|done| |by rewrite entry_cells].
  by rewrite (started_rest _ _ _ Hs2), (started_rest _ _ _ Hs1).
Qed.

Lemma add_partitions_cons cells e l s :
  add_partitions MemBase Fdt offset cells (e :: l) s = (_ ← add_one cells e; add_partitions MemBase Fdt offset cells l) s.
Proof. done. Qed.
Lemma add_rest cells l s v :
  1 <= cells <= 2 -> started cells s = true -> prop_value (tree_now s) offset reg = Some v ->
  ready cells (8 * cells * Z.of_nat (length l)) s ->
  exists s', add_partitions MemBase Fdt offset cells l s = Some (tt, s') /\ started cells s' = true /\
    prop_value (tree_now s') offset reg = Some (v ++ concat (entry_bytes cells <$> l)).
Proof.
  intros Hc. revert s v. induction l as [|e l IH]; intros s v Hs Hv Hr.
  - exists s. cbn. by rewrite app_nil_r.
  - destruct (add_next cells (8 * cells * Z.of_nat (length l)) s v e) as (s1 & H1 & Hr1 & Hs1 & Hv1); [done|lia|done..| |].
    { cbn [length] in Hr. by replace (8 * cells + 8 * cells * Z.of_nat (length l)) with (8 * cells * Z.of_nat (S (length l))) by lia. }
    destruct (IH s1 _ Hs1 Hv1 Hr1) as (s' & H & Hs' & Hv'). exists s'.
    rewrite add_partitions_cons, bind_run, H1, H. by rewrite Hv', <- app_assoc.
Qed.
Lemma add_all cells l s :
  1 <= cells <= 2 -> started cells s = false -> l <> [] ->
  ready cells (16 + 8 * cells * Z.of_nat (length l)) s ->
  exists s', add_partitions MemBase Fdt offset cells l s = Some (tt, s') /\ started cells s' = true /\
    prop_value (tree_now s') offset reg = Some (concat (entry_bytes cells <$> l)).
Proof.
  intros Hc Hs Hl Hr. destruct l as [|e l]; [done|].
  destruct (add_first cells (8 * cells * Z.of_nat (length l)) s e Hc ltac:(lia) Hs) as (s1 & H1 & Hr1 & Hs1 & Hv1).
  { cbn [length] in Hr. by replace (16 + 8 * cells + 8 * cells * Z.of_nat (length l)) with
      (16 + 8 * cells * Z.of_nat (S (length l))) by lia. }
  destruct (add_rest cells l s1 _ Hc Hs1 Hv1 Hr1) as (s' & H & Hs' & Hv'). exists s'.
  by rewrite add_partitions_cons, bind_run, H1, H, Hv'.
Qed.

Lemma boarding_run {A} (m : M board_state A) a b s :
  m (dt_board (Tree (Fdts s))) = Some (a, b) ->
  fdt (tree_of (boarding m)) s = Some (a, with_Fdts (mk_fdt_state (set_Board b (Tree (Fdts s))) (NodeList (Fdts s))) s).
Proof. intros H. unfold fdt, tree_of, boarding. by rewrite H. Qed.

(** C28: when the board names RAM partitions, addresses and sizes have one or two cells
    and the buffer has room for the partitions, AddMemMap succeeds and leaves in [reg] of the
    memory node, as the last entries, exactly the RAM partitions: the kernel, which reads
    addresses and sizes of as many cells as the root node tells, finds them all and in
    order, cut to the width of the cells. In the first update of a run they are all there
    is; in a later one they stand behind what the property held before, since the flag of
    the first update is never taken back. *)
Theorem AddMemMap_describes cells l b s old :
  cells = 1 \/ cells = 2 -> placed_now s -> is_node (tree_now s) offset ->
  (if started cells s then prop_value (tree_now s) offset reg = Some old else old = []) ->
  QueryMemoryCellSize MemBase Fdt s = Some ((EFI_SUCCESS, cells), s) ->
  ReadRamPartitions (dt_board (Tree (Fdts s))) = Some ((EFI_SUCCESS, l), b) -> l <> [] ->
  16 + 8 * cells * Z.of_nat (length l) <= fdt_free (tree_now s) ->
  exists s' new, AddMemMap MemBase Fdt offset s = Some (EFI_SUCCESS, s') /\ started cells s' = true /\
    prop_value (tree_now s') offset reg = Some (old ++ new) /\ memory_of new cells = cell_entry cells <$> l.
Proof.
  intros Hcells Hp Hn Hs Hq Hl Hne Hroom. assert (1 <= cells <= 2) as Hc by lia.
  set (s1 := with_Fdts (mk_fdt_state (set_Board b (Tree (Fdts s))) (NodeList (Fdts s))) s).
  assert (started cells s1 = started cells s) as Hs1 by done.
  assert (exists s', add_partitions MemBase Fdt offset cells l s1 = Some (tt, s') /\ started cells s' = true /\
    prop_value (tree_now s') offset reg = Some (old ++ concat (entry_bytes cells <$> l))) as (s2 & H2 & Hs2 & Hv2).
  { destruct (started cells s) eqn:E.
    - apply add_rest; [done|done|exact Hs|]. split; [exact Hp|exact Hn|]. split; [lia|].
      change (tree_now s1) with (tree_now s). lia.
    - subst old. apply add_all; [done|done|done|]. split; [exact Hp|exact Hn|]. split; [lia|exact Hroom]. }
  unfold AddMemMap. rewrite bind_run, Hq. cbn [EFI_ERROR].
  rewrite bind_run, (boarding_run _ _ _ _ Hl). cbn [EFI_ERROR]. rewrite bind_run. fold s1. rewrite H2.
  do 2 eexists. split; [reflexivity|]. split; [exact Hs2|]. split; [exact Hv2|]. apply memory_of_entries. lia.
Qed.

(** ** The device of a boot partition *)
Lemma poke_run s a x b d :
  placed_now s -> tree_now s = a ++ x ++ b -> length d = length x ->
  exists s', poke MemBase Fdt (Z.of_nat (length a)) d s = Some (tt, s') /\ placed_now s' /\ tree_now s' = a ++ d ++ b.
Proof.
  intros [H1 H2] Ht Hd. unfold poke. run. set (m := Mem (Tree (Fdts s))) in *.
  set (k := Z.to_nat (Fdt - MemBase)). assert (k <= length m)%nat as Hk by (unfold k; lia).
  pose proof (f_equal length Ht) as HL. unfold tree, fdt_at in HL. fold m k in HL. rewrite length_drop, !length_app in HL.
  assert (wr m (Fdt + Z.of_nat (length a) - MemBase) d = Some (take k m ++ a ++ d ++ b)) as ->.
  { unfold wr. destruct (Z.ltb_spec (Fdt + Z.of_nat (length a) - MemBase) 0); [lia|].
    destruct (Z.ltb_spec (Z.of_nat (length m)) (Fdt + Z.of_nat (length a) - MemBase + Z.of_nat (length d))); [unfold k in *; lia|].
    cbn [orb]. f_equal. replace (Z.to_nat (Fdt + Z.of_nat (length a) - MemBase)) with (k + length a)%nat by (unfold k; lia).
    change (drop k m = a ++ x ++ b) in Ht. rewrite <- take_take_drop, Ht, take_app_length, Hd.
    replace (k + length a + length x)%nat with (k + (length a + length x))%nat by lia.
    rewrite <- drop_drop, Ht, <- drop_drop, !drop_app_length. by rewrite <- !app_assoc. }
  unfold fdt, tree_of. run. eexists. split; [reflexivity|]. unfold tree, placed, fdt_at. cbn. fold k.
  assert (length (take k m) = k) as Htk by (rewrite length_take; lia).
  split; [|by rewrite <- Htk at 1; rewrite drop_app_length].
  rewrite !length_app, Htk. lia.
Qed.

Lemma device_name_found s pre head dev tail post :
  tree_now s = pre ++ (head ++ DevicePathId FstabTable ++ dev ++ bytes "/" ++ tail) ++ 0 :: post ->
  cstring (head ++ DevicePathId FstabTable ++ dev ++ bytes "/" ++ tail) ->
  (forall j, occurs_at (DevicePathId FstabTable) (head ++ DevicePathId FstabTable ++ dev ++ bytes "/" ++ tail) j ->
     (length head <= j)%nat) ->
  dev <> [] -> ch "/" ∉ dev ->
  device_name (tree_now s) (Z.of_nat (length pre)) s =
  Some (Some (Z.of_nat (length (pre ++ head ++ DevicePathId FstabTable)), Some (length dev)), s).
Proof.
  intros Ht Hc Hfirst Hdev Hslash. set (soc := DevicePathId FstabTable) in *. unfold device_name. fold soc. rewrite Ht.
  rewrite Nat2Z.id, c_string_at by done. run.
  pose proof (AsciiStrStr_law (head ++ soc ++ dev ++ bytes "/" ++ tail) soc) as HS.
  assert (occurs_at soc (head ++ soc ++ dev ++ bytes "/" ++ tail) (length head)) as Hocc.
  { split; [rewrite !length_app; lia|]. by rewrite drop_app_length, take_app_length. }
  destruct (AsciiStrStr (head ++ soc ++ dev ++ bytes "/" ++ tail) soc) as [k|]; [|by destruct (HS (length head))].
  destruct HS as [Hk Hmin]. assert (k = length head) as ->.
  { pose proof (Hfirst k Hk). destruct (decide (length head < k)%nat) as [Hlt|]; [by destruct (Hmin _ Hlt)|lia]. }
  rewrite AsciiStrLen_law. destruct dev as [|c dev]; [done|].
  assert (pre ++ (head ++ soc ++ (c :: dev) ++ bytes "/" ++ tail) ++ 0 :: post =
          (pre ++ head ++ soc ++ [c]) ++ (dev ++ bytes "/" ++ tail) ++ 0 :: post) as ->
    by (rewrite <- !app_assoc; done).
  replace (Z.to_nat (Z.of_nat (length pre) + Z.of_nat (length head) + Z.of_nat (length soc) + 1))
    with (length (pre ++ head ++ soc ++ [c])) by (rewrite !length_app; cbn [length]; lia).
  assert (cstring (dev ++ bytes "/" ++ tail)) as Hc'.
  { apply Forall_app in Hc as [_ Hc]. apply Forall_app in Hc as [_ Hc]. by inversion Hc. }
  rewrite c_string_at by done. run. pose proof (AsciiStrStr_law (dev ++ bytes "/" ++ tail) (bytes "/")) as HS'.
  assert (occurs_at (bytes "/") (dev ++ bytes "/" ++ tail) (length dev)) as Hocc'.
  { split; [rewrite !length_app; lia|]. by rewrite drop_app_length, take_app_length. }
  destruct (AsciiStrStr (dev ++ bytes "/" ++ tail) (bytes "/")) as [k'|]; [|by destruct (HS' (length dev))].
  destruct HS' as [[Hk1 Hk2] Hmin']. assert (k' = length dev) as ->.
  { destruct (decide (length dev < k')%nat) as [Hlt|]; [by destruct (Hmin' _ Hlt)|].
    destruct (decide (k' = length dev)) as [|Hne]; [done|]. exfalso. apply Hslash. apply list_elem_of_further.
    rewrite drop_app_le in Hk2 by lia. destruct (drop k' dev) as [|c' r] eqn:E.
    { apply (f_equal length) in E. rewrite length_drop in E. cbn in E. lia. }
    injection Hk2 as ->. apply (list_elem_of_lookup_2 _ k'). replace k' with (k' + 0)%nat by lia.
    rewrite <- lookup_drop, E. done. }
  cbn [fmap option_fmap option_map]. rewrite !length_app. by rewrite !Nat2Z.inj_add, Z.add_assoc.
Qed.

(** The text of a property after the update: the name of the boot device, what followed the
    old name, and spaces up to the old length. *)
Definition with_device (new dev rest : list Z) : list Z :=
  if (length new <=? length dev)%nat then new ++ rest ++ repeat (ch " ") (length dev - length new)
  else dev ++ rest.
Lemma blob_now s : placed_now s -> fdt (blob MemBase Fdt) s = Some (tree_now s, s).
Proof. intros Hp. unfold fdt. rewrite (blob_run _ _ _ Hp). by destruct s. Qed.
Lemma replace_device_spec s a dev rest post new :
  placed_now s -> tree_now s = a ++ dev ++ rest ++ 0 :: post -> cstring rest ->
  Z.of_nat (length dev) < 2 ^ 32 ->
  exists s', replace_device MemBase Fdt new (Z.of_nat (length a)) (Some (length dev)) s = Some (tt, s') /\
    tree_now s' = a ++ with_device new dev rest ++ 0 :: post.
Proof.
  intros Hp Ht Hc Hd. unfold replace_device, with_device. rewrite !AsciiStrLen_law. unfold u32.
  rewrite (Z.mod_small (Z.of_nat (length dev))) by lia.
  destruct (Z.ltb_spec (Z.of_nat (length dev)) (Z.of_nat (length new))) as [Hlt|Hle].
  { exists s. destruct (Nat.leb_spec (length new) (length dev)); [lia|]. by rewrite Ht, <- !app_assoc. }
  destruct (Nat.leb_spec (length new) (length dev)) as [_|]; [|lia].
  rewrite Z.mod_small by lia.
  set (l := take (length new) dev). set (gap := drop (length new) dev).
  assert (dev = l ++ gap) as Hdev by (symmetry; apply take_drop).
  assert (length l = length new) as Hl by (unfold l; rewrite length_take; lia).
  destruct (poke_run s a l (gap ++ rest ++ 0 :: post) new Hp) as (s1 & H1 & Hp1 & Ht1);
    [by rewrite Ht, Hdev, <- !app_assoc|done|]. rewrite bind_run, H1.
  destruct (Z.eqb_spec (Z.of_nat (length dev) - Z.of_nat (length new)) 0) as [E|E].
  { exists s1. split; [done|]. replace (length dev - length new)%nat with 0%nat by lia.
    assert (gap = []) as Hg by (apply nil_length_inv; unfold gap; rewrite length_drop; lia).
    by rewrite Ht1, Hg, app_nil_r, <- !app_assoc. }
  rewrite bind_run, (blob_now s1 Hp1), Ht1, bind_run.
  replace (Z.to_nat (Z.of_nat (length a) + Z.of_nat (length dev))) with (length (a ++ new ++ gap))
    by (rewrite !length_app; unfold gap; rewrite length_drop; lia).
  assert (a ++ new ++ gap ++ rest ++ 0 :: post = (a ++ new ++ gap) ++ rest ++ 0 :: post) as Er by (by rewrite <- !app_assoc).
  rewrite Er. rewrite c_string_at by done. run.
  assert (length (gap ++ rest) = length (rest ++ gap)) as Hsw by (rewrite !length_app; lia).
  set (x := take (length rest) (gap ++ rest)). set (y := drop (length rest) (gap ++ rest)).
  assert (gap ++ rest = x ++ y) as Hxy by (symmetry; apply take_drop).
  assert (length rest = length x) as Hx by (unfold x; rewrite length_take, Hsw, length_app; lia).
  destruct (poke_run s1 (a ++ new) x (y ++ 0 :: post) rest Hp1) as (s2 & H2 & Hp2 & Ht2); [|done|].
  { rewrite Ht1. rewrite (app_assoc gap), Hxy. by rewrite <- !app_assoc. }
  rewrite length_app, Nat2Z.inj_add in H2. rewrite H2.
  destruct (poke_run s2 (a ++ new ++ rest) y (0 :: post)
              (repeat (ch " ") (Z.to_nat (Z.of_nat (length dev) - Z.of_nat (length new)))) Hp2) as (s3 & H3 & Hp3 & Ht3).
  { rewrite Ht2. by rewrite <- !app_assoc. }
  { rewrite repeat_length. unfold y. rewrite length_drop, Hsw, length_app. unfold gap. rewrite length_drop. lia. }
  exists s3. split.
  - rewrite AsciiStrLen_law.
    replace (Z.of_nat (length a) + Z.of_nat (length new) + Z.of_nat (length rest))
      with (Z.of_nat (length (a ++ new ++ rest))) by (rewrite !length_app; lia). exact H3.
  - rewrite Ht3, <- !app_assoc.
    by replace (Z.to_nat (Z.of_nat (length dev) - Z.of_nat (length new))) with (length dev - length new)%nat by lia.
Qed.

(** C30: a node of the fstab whose property names a device below /soc/ gets
    the boot device for it when the name fits into the room of the old one; the rest of the
    path follows, spaces fill the property up, and nothing else in the tree changes.  A
    longer name changes nothing. *)
Theorem fstab_node_device s Status new pre head dev tail post Len :
  IsDynamicPartitionSupport = false -> placed_now s ->
  fdt_get_property (tree_now s) offset (Property FstabTable) = (Some (Z.of_nat (length pre)), Len) ->
  tree_now s = pre ++ (head ++ DevicePathId FstabTable ++ dev ++ bytes "/" ++ tail) ++ 0 :: post ->
  cstring (head ++ DevicePathId FstabTable ++ dev ++ bytes "/" ++ tail) ->
  (forall j, occurs_at (DevicePathId FstabTable) (head ++ DevicePathId FstabTable ++ dev ++ bytes "/" ++ tail) j ->
     (length head <= j)%nat) ->
  dev <> [] -> ch "/" ∉ dev -> Z.of_nat (length dev) < 2 ^ 32 ->
  exists s', fstab_node MemBase Fdt offset FstabTable new Status s = Some (Status, s') /\
    tree_now s' = pre ++ (head ++ DevicePathId FstabTable ++ with_device new dev (bytes "/" ++ tail)) ++ 0 :: post.
Proof.
  intros HD Hp Hg Ht Hc Hfirst Hdev Hslash Hd. unfold fstab_node.
  rewrite bind_run, (blob_now s Hp), Hg, HD, bind_run.
  rewrite (device_name_found s pre head dev tail post) by done. rewrite bind_run.
  destruct (replace_device_spec s (pre ++ head ++ DevicePathId FstabTable) dev (bytes "/" ++ tail) post new Hp)
    as (s' & H & Ht'); [by rewrite Ht, <- !app_assoc| |done|].
  { do 3 apply Forall_app in Hc as [_ Hc]. exact Hc. }
  rewrite H. exists s'. split; [done|]. by rewrite Ht', <- !app_assoc.
Qed.
End spec.

(** ** Witness: a tree whose only property follows four bytes of cells, a 1 and takes the
    rest of the memory *)
Definition plain_known (t : list Z) : bool := bool_decide (t !! 4%nat = Some 1).
Definition plain_LibfdtRw : LibfdtRw := {|
  fdt_get_property t _ _ := if plain_known t then (Some 5, Z.of_nat (length t) - 5) else (None, -1);
  fdt_setprop t _ _ Val := (0, take 4 t ++ 1 :: Val);
  fdt_appendprop t _ _ Val := (0, take 4 t ++ 1 :: (if plain_known t then drop 5 t else []) ++ Val);
  fdt_setprop_inplace t _ _ _ := (0, t);
  fdt_next_node _ o _ := (o, -1);
  fdt_offset_ptr _ _ _ := None;
  fdt_get_alias_namelen _ _ := None;
  fdt_first_subnode _ _ := -1; fdt_next_subnode _ _ := -1; fdt_subnode_offset _ _ _ := -1;
  fdt_open_into t _ := (0, t); fdt_pack t := (0, t)
|}.
Lemma plain_value t o Name v :
  (4 <= length t)%nat -> @prop_value plain_LibfdtRw (take 4 t ++ 1 :: v) o Name = Some v.
Proof.
  intros H. unfold prop_value, plain_LibfdtRw, plain_known; cbn [fdt_get_property].
  assert (length (take 4 t) = 4%nat) as HL by (rewrite length_take; lia).
  rewrite bool_decide_eq_true_2 by (rewrite lookup_app_r by lia; by rewrite HL).
  rewrite length_app, HL. cbn [length]. unfold rd. cbn [Z.ltb Z.compare].
  rewrite load_Some by (rewrite length_app, HL; cbn [length]; lia).
  change (Z.to_nat 5) with 5%nat. rewrite drop_app_ge by lia. rewrite HL. replace (5 - 4)%nat with 1%nat by lia. cbn [drop Z.ltb Z.compare Pos.compare Pos.compare_cont]. rewrite drop_0. by rewrite take_ge by lia.
Qed.
Lemma plain_laws : LibfdtValueLaws plain_LibfdtRw.
Proof.
  assert (forall n, 0 <= FDT_TAGALIGN (Z.of_nat n)) as HT.
  { intros n. pose proof (TAGALIGN_bounds (Z.of_nat n)). lia. }
  refine {| is_node := fun t _ => (4 <= length t)%nat; fdt_free := fun _ => 4096 |}.
  - intros f t o Name Val Hf Hn _. assert (0 <= @prop_need plain_LibfdtRw t o Name Val) as Hpos.
    { unfold prop_need, SIZEOF_fdt_property. specialize (HT (length Val)). destruct (prop_value t o Name); lia. }
    destruct Hf as [-> | ->]; (eexists; split; [reflexivity|]; rewrite length_app, length_take; cbn [length]; split; lia).
  - intros t o Name Val t' Hn [= <-]. by apply plain_value.
  - intros t o Name Val t' Hn [= <-]. rewrite plain_value by done. do 2 f_equal. unfold prop_value; cbn.
    destruct (plain_known t) eqn:E; [|done]. unfold plain_known in E. apply bool_decide_eq_true in E.
    apply lookup_lt_Some in E. unfold rd. cbn [Z.ltb Z.compare]. rewrite load_Some by (change (Z.to_nat 5) with 5%nat; lia).
    by rewrite take_ge by (rewrite length_drop; lia).
Defined.

Section demo.
#[local] Existing Instances demo_Firmware demo_Board plain_LibfdtRw plain_laws.
#[local] Instance plain_Libfdt : Libfdt := {|
  fdt_check_header _ := 0; fdt_totalsize _ := 4096; fdt_off_dt_struct _ := 0; fdt_size_dt_struct _ := 0;
  fdt_off_dt_strings _ := 0; fdt_size_dt_strings _ := 0; fdt_off_mem_rsvmap _ := 0;
  fdt_path_offset _ _ := 0; fdt_getprop _ _ _ := (Some 0, 4);
  DtbHdr_address := 0; LocateScmProtocol := EFI_NOT_FOUND
|}.
#[local] Instance plain_DtBuild : DtBuild := {| EnableNewNodeSearchFuc := true; EnablePartialGoods := true |}.
Definition plain_state : update_state :=
  mk_update
    (mk_fdt_state (mk_dt_state [0; 0; 0; 2; 0] true (-1) (-1) 0 false [] 0 0
       (mk_board None 0 (mk_board_info (mk_platform 0 0 0 false) 0 [] 0 0 0 0))) [])
    boot_init false false [] 12 0.

(** Two banks of 2 GB, the second one first, in the first update and in the second. *)
Definition demo_banks : list RamPartitionEntry := [mk_ram 0x100000000 0x80000000; mk_ram 0x80000000 0x80000000].
Definition demo_banks_board : board_state :=
  mk_board (Some demo_banks) 2 (mk_board_info (mk_platform 0 0 0 false) 0 [] 0 0 0 0).
Definition updated_state : update_state :=
  match AddMemMap 0x1000 0x1000 0 plain_state with Some (_, s) => s | None => plain_state end.
Lemma AddMemMap_describes_witness :
  (exists s' v, AddMemMap 0x1000 0x1000 0 plain_state = Some (EFI_SUCCESS, s') /\
    prop_value (tree 0x1000 0x1000 (Fdts s')) 0 reg = Some v /\
    memory_of v 2 = [(0x100000000, 0x80000000); (0x80000000, 0x80000000)]) /\
  (exists s' new, AddMemMap 0x1000 0x1000 0 updated_state = Some (EFI_SUCCESS, s') /\
    prop_value (tree 0x1000 0x1000 (Fdts s')) 0 reg = Some (concat (entry_bytes 2 <$> demo_banks) ++ new) /\
    memory_of new 2 = [(0x100000000, 0x80000000); (0x80000000, 0x80000000)]).
Proof.
  split.
  - destruct (AddMemMap_describes 0x1000 0x1000 0 2 demo_banks demo_banks_board plain_state [])
      as (s' & v & H & _ & Hv & Hm);
      [by right|vm_compute; split; congruence|vm_compute; repeat constructor|reflexivity
      |vm_compute; reflexivity|vm_compute; reflexivity|discriminate|vm_compute; congruence|].
    exists s', v. split; [exact H|]. split; [exact Hv|exact Hm].
  - destruct (AddMemMap_describes 0x1000 0x1000 0 2 demo_banks demo_banks_board updated_state
                (concat (entry_bytes 2 <$> demo_banks)))
      as (s' & v & H & _ & Hv & Hm);
      [by right|vm_compute; split; congruence|vm_compute; repeat constructor|vm_compute; reflexivity
      |vm_compute; reflexivity|vm_compute; reflexivity|discriminate|vm_compute; congruence|].
    exists s', v. split; [exact H|]. split; [exact Hv|exact Hm].
Defined.
#[local] Instance plain_build : BuildConfig :=
  {| USER_BUILD_VARIANT := true; AB_RETRYCOUNT_DISABLE := false; DYNAMIC_PARTITION_SUPPORT := false |}.
#[local] Existing Instances reference_BaseLib reference_BaseLib_laws.
Definition fstab_state : update_state :=
  with_Fdts (mk_fdt_state (set_Mem ([0; 0; 0; 2; 1] ++ bytes "/dev/block/platform/soc/1d84000.ufshc/by-name/vendor" ++ [0])
                             (Tree (Fdts plain_state))) []) plain_state.
Lemma fstab_node_device_witness :
  exists s', fstab_node 0x1000 0x1000 0 FstabTable (bytes "7c4000.sdhci") 0 fstab_state = Some (0, s') /\
    tree 0x1000 0x1000 (Fdts s') =
    [0; 0; 0; 2; 1] ++ bytes "/dev/block/platform/soc/7c4000.sdhci/by-name/vendor " ++ [0].
Proof.
  apply (fstab_node_device 0x1000 0x1000 0 fstab_state 0 (bytes "7c4000.sdhci") [0; 0; 0; 2; 1]
           (bytes "/dev/block/platform") (bytes "1d84000.ufshc") (bytes "by-name/vendor") [] 53);
    [reflexivity|vm_compute; split; congruence|vm_compute; reflexivity|reflexivity
    |vm_compute; repeat first [apply Forall_nil_2 | apply Forall_cons_2; [congruence|]]| |discriminate
    |apply (bool_decide_unpack _); vm_compute; exact I|reflexivity].
  intros j H. destruct (decide (19 <= j)%nat) as [|Hj]; [assumption|]. exfalso.
  assert (forallb (fun j => negb (bool_decide (occurs_at (DevicePathId FstabTable)
            (bytes "/dev/block/platform/soc/1d84000.ufshc/by-name/vendor") j))) (seq 0 19) = true) as HF by (vm_compute; reflexivity).
  rewrite forallb_forall in HF. specialize (HF j (proj2 (in_seq 19 0 j) ltac:(lia))).
  apply negb_true_iff, bool_decide_eq_false in HF. exact (HF H).
Defined.
End demo.
