(* ===== verification/BootLinux.v ===== *)
(** * Booting Linux: the composition of the parts.

    [Platforms/QcomModulePkg/Library/BootLib/BootLinux.c] from [BootLinux] down, with
    [HypervisorMvCalls.c], [ShutdownUefiBootServices] of [ShutdownServices.c], the overlay
    lists of [LocateDeviceTree.c] and its [GetOvrdDtb].  The steps are those of BootImage.v,
    BootLoad.v, DeviceTree.v, DeviceTreeList.v, CmdLine.v and DtUpdate.v, on one state.

    A boot ends with a status or with the start of a kernel, from which nothing returns. *)
From stdpp Require Import base numbers list option strings.
From Stdlib Require Import ZArith Lia Ascii.
From S2P Require Import Prelude BaseLib MemoryMapConfig MemoryMap Unicode Storage Bytes Gpt Partitions Slots Flash DeviceInfo Recovery Board DeviceTree DeviceTreeList BootImage CmdLine BootLoad FdtRw PartialGoods DtUpdate.
Local Open Scope Z_scope.

(** ** What is called outside of the boot loader *)
Class BootServices := {
  (** The hypervisor: the address of its data, from the SCM protocol. *)
  HypDtbAddress : EFI_STATUS * Z;
  (** LibUfdt, whose copy in the repository is not modelled: the tree with the overlays
      applied, in memory of its own. *)
  pre_overlay_malloc : bool;
  ufdt_install_blob : list Z -> bool;
  ufdt_apply_multi_overlay : list Z -> list (list Z) -> option (list Z);
  (** The image of the partition user_dtbo: status and address of the buffer. *)
  LoadUserDtbo : EFI_STATUS * Z;
  LocateModeSwitch : EFI_STATUS;
  (** [None] when the kernel was started. *)
  SwitchTo32bitMode : option EFI_STATUS;
  (** The calls in the order they are made. *)
  GetMemoryMap : nat -> EFI_STATUS;
  ExitBootServices : nat -> EFI_STATUS;
  PagesAvailable : nat -> bool;
  (** The answer of the platform's memory map, for [QueryBootParams]. *)
  PlatformMemoryMap : list ARM_MEMORY_REGION_DESCRIPTOR_EX;
  (** What the stack holds where the code reads an array it did not fill. *)
  (** The field of a list entry that DeviceTreeAppended reads after it was freed. *)
  freed_entry_Idx : Z -> Z;
  stack_serial : list Z;
  stack_suffix : list Z
}.

(** ** Constants and data *)
Definition HYP_BOOTINFO_MAGIC : Z := 0xC06B0071.
Definition HYP_MAX_NUM_DTBOS : Z := 4.
Definition OFFSET_hyp_num_dtbos : Z := 20.
Definition OFFSET_hyp_linux_aarch64 : Z := 24.
Definition MAX_PARTITION_NAME_LEN : nat := 100.
Definition FFBM_MODE_BUF_SIZE : nat := 8.

(** A list of overlays: address and size. *)
Abbreviation fdt_entry_list := (list (Z * Z)).

Inductive boot_outcome :=
| Returned (Status : Z)
| LinuxKernel (at_ dtb : Z)
| LinuxKernel32 (at_ dtb : Z)
| SwitchedTo32 (at_ dtb : Z)
| CpuDeadLoop.

(** ** State: the tree and the storage with their static variables, the texts of the
    command line, what the hypervisor told, and the number of calls made to leave the
    boot services. *)
Record linux_state := mk_linux {
  Updating : update_state;
  Texts : cmdline_state;
  VmEnabled : bool;
  HypInfo : Z
}.
Abbreviation LX := (M linux_state).
Definition set_Vm (b : bool) (a : Z) (s : linux_state) : linux_state := mk_linux (Updating s) (Texts s) b a.
Definition texts {A} (m : CL A) : LX A := fun s =>
  match m (Texts s) with
  | Some (a, t) => Some (a, mk_linux (Updating s) t (VmEnabled s) (HypInfo s)) | None => None end.
Definition set_loader_boot (b : boot_state) (t : cmdline_state) : cmdline_state :=
  mk_cmdline (set_Boot b (Loader t)) (DisplayCmdLine t) (DisplayCmdLineLen t) (SystemdSlotEnv t).
(** There is one storage: that of the loader. *)
Definition updating {A} (m : UD A) : LX A := fun s =>
  match m (with_DtStorage (Boot (Loader (Texts s))) (Updating s)) with
  | Some (a, u) => Some (a, mk_linux u (set_loader_boot (DtStorage u) (Texts s)) (VmEnabled s) (HypInfo s))
  | None => None end.
Definition trees {A} (m : DT A) : LX A := updating (fdt (tree_of m)).

Section linux.
Context {FW : Firmware} {BL : BaseLib} {UL : UnicodeLib} {AL : AsciiLib} {AC : AsciiCatLib}.
Context {BC : BuildConfig} {LB : LoaderBuild} {VB : VerifiedBootProtocol} {BM : BootMode}.
Context {BP : BoardProtocols} {BK : BootBuild} {QP : BootProtocols} {ZL : Zlib}.
Context {LF : Libfdt} {LR : LibfdtRw} {DB : DtBuild} {SP : SubsetProtocol} {UP : UpdateProtocols}.
Context {BS : BootServices}.
Variable MemBase : Z.
Variable depth : nat.

(** ** HypervisorMvCalls.c *)
Definition IsVmEnabled : LX bool := gets VmEnabled.
(** 0 for NULL. *)
Definition GetVmData : LX Z :=
  enabled ← IsVmEnabled;
  if enabled : bool then gets HypInfo else
  let (Status, Address_) := HypDtbAddress in
  if EFI_ERROR Status then mret 0 else
  _ ← modify (set_Vm false Address_);
  if Address_ =? 0 then mret 0 else
  _ ← modify (set_Vm true Address_);
  mret Address_.
Fixpoint dtbo_bases (n : nat) (a : Z) : DT (list Z) :=
  match n with
  | O => mret []
  | S n' => x ← word_at MemBase 8 a; l ← dtbo_bases n' (a + 16); mret (x :: l)
  end.
Definition SetHypInfo (Info : Z) (p : BootParamlist) : DT (EFI_STATUS * BootParamlist) :=
  magic ← word_at MemBase 4 Info;
  if negb (magic =? HYP_BOOTINFO_MAGIC) then mret (EFI_UNSUPPORTED, p) else
  n ← word_at MemBase 4 (Info + OFFSET_hyp_num_dtbos);
  let NumDtbos := if HYP_MAX_NUM_DTBOS <? n then HYP_MAX_NUM_DTBOS else n in
  if negb (PoolAvailable 0 (NumDtbos * 8)) then mret (EFI_OUT_OF_RESOURCES, p) else
  l ← dtbo_bases (Z.to_nat NumDtbos) (Info + OFFSET_hyp_linux_aarch64);
  mret (EFI_SUCCESS, set_HypDtbos (Some l) p).
Definition CheckAndSetVmData (p : BootParamlist) : LX (EFI_STATUS * BootParamlist) :=
  Info ← GetVmData;
  if Info =? 0 then mret (EFI_UNSUPPORTED, p) else trees (SetHypInfo Info p).

(** ** The lists of overlays *)
Definition append_status (r : bool * fdt_entry_list) : EFI_STATUS * fdt_entry_list :=
  let (ok, l) := r in if ok then (EFI_SUCCESS, l) else (EFI_OUT_OF_RESOURCES, DeleteDtList l).
Fixpoint contents (l : fdt_entry_list) : DT (list (list Z)) :=
  match l with
  | [] => mret []
  | (a, n) :: l' => b ← load_at MemBase a n; bs ← contents l'; mret (b :: bs)
  end.
Definition totalsize_at (a : Z) : DT Z := t ← from MemBase a; mret (fdt_totalsize t).

(** The overlay of the user, in builds that are not for users. *)
Definition GetOvrdDtb : DT (EFI_STATUS * Z) :=
  let (Status, Image) := LoadUserDtbo in
  if negb (is_success Status) then mret (Status, 0) else
  m ← gets Mem;
  EntryOffset ← access (load32 MemBase m (u64 (Image + OFFSET_Dtbo_DtEntryOffset)));
  if CHECK_ADD64 Image EntryOffset then mret (EFI_INVALID_PARAMETER, 0) else
  let Entry := u64 (Image + EntryOffset) in
  if Entry =? 0 then mret (EFI_INVALID_PARAMETER, 0) else
  EntryCount ← access (load32 MemBase m (u64 (Image + OFFSET_Dtbo_DtEntryCount)));
  if 1 <? EntryCount then mret (EFI_INVALID_PARAMETER, 0) else
  DtOffset ← access (load32 MemBase m (u64 (Entry + 4)));
  let OvrdDtb := u64 (Image + DtOffset) in
  t ← from MemBase OvrdDtb;
  if negb (fdt_check_header t =? 0) || negb (fdt_check_header_ext OvrdDtb t =? 0)
  then mret (EFI_INVALID_PARAMETER, 0) else mret (EFI_SUCCESS, OvrdDtb).

(** The final tree, as bytes of its own, goes to the place of the device tree. *)
Definition ApplyOverlay (p : BootParamlist) (AppendedDtHdr : Z) (DtsList : fdt_entry_list) : DT EFI_STATUS :=
  if AppendedDtHdr =? 0 then mret EFI_INVALID_PARAMETER else
  let finish Final :=
    let size := fdt_totalsize Final in
    if u64 (RamdiskAt (addrs p) - DeviceTreeLoadAddr (addrs p)) <? size then mret EFI_UNSUPPORTED else
    data ← access (rd Final 0 (Z.to_nat size));
    _ ← store_at MemBase (DeviceTreeLoadAddr (addrs p)) data;
    mret EFI_SUCCESS in
  match DtsList with
  | [] => t ← from MemBase AppendedDtHdr; finish t
  | _ =>
    if negb pre_overlay_malloc then mret EFI_OUT_OF_RESOURCES else
    size ← totalsize_at AppendedDtHdr;
    base ← load_at MemBase AppendedDtHdr size;
    if negb (ufdt_install_blob base) then mret EFI_NOT_FOUND else
    overlays ← contents DtsList;
    match ufdt_apply_multi_overlay base overlays with
    | None => mret EFI_NOT_FOUND
    | Some Final => finish Final
    end
  end.

(** ** The device tree of the image *)
(** Where the trees are: the image, its size and the offset in it. *)
Definition dtb_place (Info : LinuxBootInfo) (p : BootParamlist) : DT (Z * Z * Z) :=
  let s := sizes p in
  let pages n := GetNumberOfPages n (PageSize s) in
  if HeaderVersion Info <=? BOOT_HEADER_VERSION_ONE
  then mret (ImageBuffer p + PageSize s + PatchedKernelHdrSize p, KernelSize s, DtbOffset p)
  else if HeaderVersion Info =? BOOT_HEADER_VERSION_TWO then
    hdr ← from MemBase (ImageBuffer p);
    dtbo ← access (v1_recovery_dtbo_size hdr);
    let Offset := u32 (PageSize s * u32 (1 + pages (KernelSize s) + pages (RamdiskSize s) +
                                         pages (SecondSize s) + pages dtbo)) in
    dtb ← access (v2_dtb_size hdr);
    mret (ImageBuffer p, u32 (dtb + Offset), Offset)
  else
    vendor ← from MemBase (VendorImageBuffer p);
    let Offset := u32 (PageSize s * u32 (1 + pages (VendorRamdiskSize s))) in
    dtb ← access (vendor_dtb_size vendor);
    mret (VendorImageBuffer p, u32 (dtb + Offset), Offset).

(** Without overlays: a tree chosen from the list, or the only one behind the image.  The
    latter is looked for in the boot image. *)
Definition append_single (p : BootParamlist) (Size : Z) : DT EFI_STATUS :=
  if Size <=? DtbOffset p then mret EFI_BAD_BUFFER_SIZE else
  let SingleDtHdr := ImageBuffer p + DtbOffset p in
  t ← from MemBase SingleDtHdr;
  if negb (fdt_check_header t =? 0) then mret EFI_NOT_FOUND else
  let n := fdt_totalsize t in
  if Size - DtbOffset p <? n then mret EFI_BAD_BUFFER_SIZE else
  next ← from MemBase (SingleDtHdr + n);
  if fdt_check_header next =? 0 then mret EFI_NOT_FOUND else
  if CHECK_ADD64 (DeviceTreeLoadAddr (addrs p)) n then mret EFI_BAD_BUFFER_SIZE else
  _ ← CopyMem MemBase (DeviceTreeLoadAddr (addrs p)) SingleDtHdr n;
  mret EFI_SUCCESS.
(** The overlays of the hypervisor that have a header. *)
Fixpoint add_hyp_dtbos (bases : list Z) (DtsList : fdt_entry_list) : DT (EFI_STATUS * fdt_entry_list) :=
  match bases with
  | [] => mret (EFI_SUCCESS, DtsList)
  | a :: bases' =>
    if a =? 0 then add_hyp_dtbos bases' DtsList else
    t ← from MemBase a;
    if negb (fdt_check_header t =? 0) then add_hyp_dtbos bases' DtsList else
    let (Status, DtsList) := append_status (AppendToDtList DtsList a (fdt_totalsize t)) in
    if is_success Status then add_hyp_dtbos bases' DtsList else mret (Status, DtsList)
  end.
(** Status and list: the overlay for the board, those of the hypervisor, that of the user. *)
Definition overlays_for (Vm : bool) (p : BootParamlist) : DT (EFI_STATUS * fdt_entry_list) :=
  needed ← GetDtboNeeded;
  r ← (if needed : bool then
         BoardDtb ← GetBoardDtb MemBase (DtboImgBuffer p);
         if BoardDtb =? 0 then mret (EFI_NOT_FOUND, []) else
         size ← totalsize_at BoardDtb;
         mret (append_status (AppendToDtList [] BoardDtb size))
       else mret (EFI_SUCCESS, []));
  let (Status, DtsList) := r : EFI_STATUS * fdt_entry_list in
  if negb (is_success Status) then mret (Status, []) else
  r ← (if Vm then
         match HypDtbos p with
         | None => mret (EFI_NOT_FOUND, [])
         | Some bases => add_hyp_dtbos bases DtsList
         end
       else mret (EFI_SUCCESS, DtsList));
  let (Status, DtsList) := r : EFI_STATUS * fdt_entry_list in
  if negb (is_success Status) then mret (Status, []) else
  if TargetBuildVariantUser then mret (EFI_SUCCESS, DtsList) else
  r ← GetOvrdDtb;
  let (Status, OverrideDtb) := r : EFI_STATUS * Z in
  if is_success Status && negb (OverrideDtb =? 0) then
    size ← totalsize_at OverrideDtb;
    mret (append_status (AppendToDtList DtsList OverrideDtb size))
  else mret (EFI_SUCCESS, DtsList).
Definition DTBImgCheckAndAppendDT (Vm : bool) (Info : LinuxBootInfo) (p : BootParamlist)
  : DT (EFI_STATUS * BootParamlist) :=
  r ← dtb_place Info p;
  let '(Image, Size, Offset) := r : Z * Z * Z in
  let p := set_DtbOffset Offset p in
  r ← LoadAndValidateDtboImg MemBase Info p;
  let (with_overlays, p) := r : bool * BootParamlist in
  if negb with_overlays then
    Dtb ← DeviceTreeAppended MemBase freed_entry_Idx Image Size Offset (DeviceTreeLoadAddr (addrs p));
    if Dtb =? 0 then Status ← append_single p Size; mret (Status, p) else mret (EFI_SUCCESS, p)
  else
    SocDtb ← GetSocDtb MemBase Image Size Offset;
    if SocDtb =? 0 then mret (EFI_NOT_FOUND, p) else
    r ← overlays_for Vm p;
    let (Status, DtsList) := r : EFI_STATUS * fdt_entry_list in
    if negb (is_success Status) then mret (Status, p) else
    Status ← ApplyOverlay p SocDtb DtsList;
    mret (Status, p).

(** ** MDTP: an active one allows only a locked device that enforces dm-verity *)
Definition mdtp_active : bool :=
  let (Status, Active) := IsMdtpActive in
  if EFI_ERROR Status && negb (bool_decide (Status = EFI_NOT_FOUND)) then true else Active.
Definition CheckMDTPStatus (PartitionName : list Z) (Info : LinuxBootInfo) : LD EFI_STATUS :=
  enforcing ← IsEnforcing;
  unlocked ← IsUnlocked;
  if EnableMdtpSupport && mdtp_active && negb enforcing then mret EFI_NOT_STARTED else
  if EnableMdtpSupport && mdtp_active && unlocked then mret EFI_NOT_STARTED else
  PartitionNameAscii ← access (c_string (snd (UnicodeStrToAsciiStrS PartitionName (repeat 0 MAX_GPT_NAME_SIZE)
                                                MAX_GPT_NAME_SIZE)) 0);
  let Len := Z.of_nat (AsciiStrLen PartitionNameAscii) in
  let Len := if MultiSlotBoot Info then u32 (Len - (Z.of_nat MAX_SLOT_SUFFIX_SZ - 1)) else Len in
  let StrPartition := snd (AsciiStrnCpyS [] MAX_GPT_NAME_SIZE (bytes "/") 1) in
  let StrPartition := snd (AsciiStrnCatS StrPartition MAX_GPT_NAME_SIZE PartitionNameAscii (Z.to_nat Len)) in
  if EnableMdtpSupport then
    if bool_decide (LocateMdtp = EFI_NOT_FOUND) then mret LocateMdtp else
    if EFI_ERROR LocateMdtp then mret LocateMdtp else
    mret (MdtpBootState (snd (AsciiStrnCpyS [] MAX_PARTITION_NAME_LEN StrPartition (AsciiStrLen StrPartition))))
  else mret EFI_SUCCESS.

(** ** The last copies.  The status is a number, as that of [UpdateDeviceTree]. *)
Definition copy_ramdisks (Info : LinuxBootInfo) (p : BootParamlist) : DT unit :=
  let At := RamdiskAt (addrs p) in
  At ← (if BOOT_HEADER_VERSION_THREE <=? HeaderVersion Info then
          _ ← CopyMem MemBase At (VendorImageBuffer p + PageSize (sizes p)) (VendorRamdiskSize (sizes p));
          mret (u64 (At + VendorRamdiskSize (sizes p)))
        else mret At);
  CopyMem MemBase At (ImageBuffer p + RamdiskOffset p) (RamdiskSize (sizes p)).
Definition copy_kernel32 (p : BootParamlist) : DT EFI_STATUS :=
  let At := KernelAt (addrs p) in
  if CHECK_ADD64 At (KernelSizeActual p) then mret EFI_BAD_BUFFER_SIZE else
  if DeviceTreeLoadAddr (addrs p) <? u64 (At + KernelSizeActual p) then mret EFI_INVALID_PARAMETER else
  _ ← CopyMem MemBase At (ImageBuffer p + PageSize (sizes p)) (KernelSizeActual p);
  mret EFI_SUCCESS.
Definition LoadAddrAndDTUpdate (Info : LinuxBootInfo) (p : BootParamlist) : UD Z :=
  let RamdiskEndAddr := 0 in
  let TotalRamdiskSize := u32 (RamdiskSize (sizes p) + VendorRamdiskSize (sizes p)) in
  if u64 (RamdiskEndAddr - RamdiskAt (addrs p)) <? TotalRamdiskSize then mret (status_value EFI_BAD_BUFFER_SIZE) else
  if CHECK_ADD64 (ImageBuffer p) (RamdiskOffset p) then mret (status_value EFI_BAD_BUFFER_SIZE) else
  Status ← UpdateDeviceTree MemBase depth (DeviceTreeLoadAddr (addrs p)) (FinalCmdLine p)
             (RamdiskAt (addrs p)) TotalRamdiskSize;
  if negb (Status =? 0) then mret Status else
  _ ← fdt (tree_of (copy_ramdisks Info p));
  if BootingWith32BitKernel (kind p) then
    Status ← fdt (tree_of (copy_kernel32 p)); mret (status_value Status)
  else mret 0.

(** ** ShutdownServices.c: until both calls succeed in a row; the fault is a loop that has
    not ended after [fuel] rounds.  [n] counts the calls of GetMemoryMap. *)
Fixpoint ShutdownUefiBootServices (fuel : nat) (n rounds : nat) : option EFI_STATUS :=
  match fuel with
  | O => fault
  | S fuel' =>
    let exit n Status :=
      if EFI_ERROR Status then ShutdownUefiBootServices fuel' n (S rounds) else
      let Status := ExitBootServices rounds in
      if EFI_ERROR Status then ShutdownUefiBootServices fuel' n (S rounds) else Some Status in
    if bool_decide (GetMemoryMap n = EFI_BUFFER_TOO_SMALL) then
      if negb (PagesAvailable rounds) then Some EFI_OUT_OF_RESOURCES
      else exit (S (S n)) (GetMemoryMap (S n))
    else exit (S n) (GetMemoryMap n)
  end.

(** ** BootLinux *)
Definition root_in (CmdLine : list Z) : bool := bool_decide (is_Some (AsciiStrStr CmdLine (bytes "root="))).
Definition with_BootDevImage (b : bool) : BootMode := {|
  IsFlashSplitNeeded := Partitions.IsFlashSplitNeeded; BootDevImage := Partitions.BootDevImage || b;
  BatteryStatus := Partitions.BatteryStatus; IsChargingScreenEnable := Partitions.IsChargingScreenEnable;
  BootIntoFastboot := Partitions.BootIntoFastboot; BootIntoRecovery := Partitions.BootIntoRecovery |}.
Definition cmdline_text (c : cmdline_ptr) : DT (list Z) :=
  match c with
  | NoCmdLine => crash
  | CmdLineAt a => t ← from MemBase a; access (c_string t 0)
  | CmdLinePool s => mret s
  end.
Definition ffbm_string (Info : LinuxBootInfo) : LX (list Z) :=
  if StrnCmp (Pname Info) (bytes "boot") (StrLen (bytes "boot")) =? 0 then
    r ← texts (loading (GetFfbmCommand [] FFBM_MODE_BUF_SIZE));
    mret (if is_success (fst r) then snd r else [])
  else mret [].
Definition boot_image (Info : LinuxBootInfo) : EFI_STATUS * option ImageData :=
  GetImage Info (if (negb (MultiSlotBoot Info) || IsDynamicPartitionSupport) &&
                    (BootRecovery Info && negb IsBuildUseRecoveryAsBoot)
                 then bytes "recovery" else bytes "boot").
Definition set_HeaderVersion (v : Z) (Info : LinuxBootInfo) : LinuxBootInfo :=
  mk_boot_info (MultiSlotBoot Info) (BootRecovery Info) (BootReasonAlarm Info) (Pname Info) (Images Info)
    (VBCmdLine Info) v.

(** From the headers to the kernel in its place: sizes, addresses, unpacking, offsets. *)
Definition load_kernel (Info : LinuxBootInfo) (p : BootParamlist) : DT (EFI_STATUS * BootParamlist) :=
  r ← UpdateBootParamsSizeAndCmdLine MemBase Info p;
  let (Status, p) := r : EFI_STATUS * BootParamlist in
  if negb (is_success Status) then mret (Status, p) else
  r ← boarding BaseMem;
  let (Status, Base_) := r : EFI_STATUS * option Z in
  if negb (is_success Status) then mret (Status, p) else
  Base_ ← access Base_;
  let p := set_BaseMemory Base_ p in
  r ← UpdateKernelModeAndPkg MemBase p;
  let (Status, k) := r : EFI_STATUS * kernel_kind in
  let p := set_kind k p in
  Region ← access (QueryBootParams PlatformMemoryMap);
  let (Status, a) := UpdateBootParams Region (BootingWith32BitKernel k) Base_ (sizes p) in
  let p := set_addrs a p in
  if negb (is_success Status) then mret (Status, p) else
  _ ← SetandGetLoadAddr (Some a) LOAD_ADDR_NONE;
  r ← GZipPkgCheck MemBase p;
  let (Status, p) := r : EFI_STATUS * BootParamlist in
  if negb (is_success Status) then mret (Status, p) else
  let Actual := LOCAL_ROUND_TO_PAGE (KernelSize (sizes p)) (PageSize (sizes p)) in
  let Offset := ADD_OF (PageSize (sizes p)) Actual in
  let p := set_offsets Offset Actual p in
  mret (if Offset =? 0 then EFI_BAD_BUFFER_SIZE else EFI_SUCCESS, p).

(** The command line for the kernel. *)
Definition final_cmdline (Info : LinuxBootInfo) (root : bool) (Ffbm CmdLine : list Z) : LX (EFI_STATUS * option (list Z)) :=
  board ← trees (gets board_info);
  dtbo ← trees GetDtboIdx;
  dtb ← trees GetDtbIdx;
  texts (UpdateCmdLine (BM := with_BootDevImage root)
           (mk_input CmdLine Ffbm (BootRecovery Info) (BootReasonAlarm Info) (VBCmdLine Info)
              (HeaderVersion Info) board dtbo dtb stack_serial stack_suffix)).

(** Leaving the boot services and jumping to the kernel. *)
Definition start_kernel (fuel : nat) (p : BootParamlist) : option boot_outcome :=
  Status ← ShutdownUefiBootServices fuel 0 0;
  if EFI_ERROR Status then Some CpuDeadLoop else
  let Kernel := KernelAt (addrs p) in
  let Dtb := DeviceTreeLoadAddr (addrs p) in
  if BootingWith32BitKernel (kind p) then
    if EFI_ERROR LocateModeSwitch then Some (LinuxKernel32 Kernel Dtb) else
    match SwitchTo32bitMode with
    | None => Some (SwitchedTo32 Kernel Dtb)
    | Some _ => Some CpuDeadLoop
    end
  else Some (LinuxKernel Kernel Dtb).

Definition BootLinux (fuel : nat) (Info : LinuxBootInfo) : LX boot_outcome :=
  let failed Status := mret (Returned (status_value Status)) in
  let p := zero_params in
  Vm ← IsVmEnabled;
  r ← (if Vm : bool then CheckAndSetVmData p else mret (EFI_SUCCESS, p));
  let (Status, p) := r : EFI_STATUS * BootParamlist in
  if negb (is_success Status) then failed Status else
  Ffbm ← ffbm_string Info;
  match boot_image Info with
  | (EFI_SUCCESS, Some Image) =>
    if (ImageAddress Image =? 0) || (ImageDataSize Image <=? 0) then failed EFI_NOT_STARTED else
    let p := set_Image (ImageAddress Image) (ImageDataSize Image) p in
    Status ← texts (loading (CheckMDTPStatus (Pname Info) Info));
    if negb (is_success Status) then failed Status else
    hdr ← trees (from MemBase (ImageBuffer p));
    version ← access (hdr_header_version hdr);
    let Info := set_HeaderVersion version Info in
    r ← trees (load_kernel Info p);
    let (Status, p) := r : EFI_STATUS * BootParamlist in
    if negb (is_success Status) then failed Status else
    text ← trees (cmdline_text (CmdLine p));
    r ← trees (DTBImgCheckAndAppendDT Vm Info p);
    let (Status, p) := r : EFI_STATUS * BootParamlist in
    if negb (is_success Status) then failed Status else
    _ ← trees (TxMpdatatoQhee []);
    CmdLine ← trees (cmdline_text (CmdLine p));
    r ← final_cmdline Info (root_in text) Ffbm CmdLine;
    let (Status, Final) := r : EFI_STATUS * option (list Z) in
    if EFI_ERROR Status then failed Status else
    Final ← access Final;
    let p := set_FinalCmdLine Final p in
    Status ← updating (LoadAddrAndDTUpdate Info p);
    if negb (Status =? 0) then mret (Returned Status) else
    access (start_kernel fuel p)
  | _ => failed EFI_NOT_STARTED
  end.
End linux.
