(* ===== verification/BootLinuxSpec.v ===== *)
(** * What holds when a kernel is started. *)
From stdpp Require Import base numbers list option strings.
From Stdlib Require Import ZArith Lia Ascii.
From S2P Require Import Prelude BaseLib MemoryMapConfig MemoryMap Unicode Storage Bytes StorageSpec Gpt Partitions Slots Flash DeviceInfo Recovery Board BoardDemo DeviceTree DeviceTreeList BootImage BootImageSpec CmdLine BootLoad BootLoadSpec FdtRw PartialGoods DtUpdate DtUpdateSpec SlotsSpec CmdLineSpec FastbootDemo BootLinux.
Local Open Scope Z_scope.

(** ** Postconditions of stateful computations that return *)
Definition ensures {S A} (P : A -> Prop) (m : M S A) : Prop := forall s a s', m s = Some (a, s') -> P a.
Lemma ensures_ret {S A} (P : A -> Prop) (a : A) : P a -> ensures (S := S) P (mret a).
Proof. by intros H s a' s' [= <- _]. Qed.
Lemma ensures_bind {S A B} (Q : A -> Prop) (P : B -> Prop) (m : M S A) (f : A -> M S B) :
  ensures Q m -> (forall a, Q a -> ensures P (f a)) -> ensures P (m ≫= f).
Proof.
  intros Hm Hf s b s' H. rewrite bind_run in H. destruct (m s) as [[a s1]|] eqn:E; [|done].
  eapply Hf; [by eapply Hm|exact H].
Qed.
Lemma ensures_after {S A B} (P : B -> Prop) (m : M S A) (f : A -> M S B) :
  (forall a, ensures P (f a)) -> ensures P (m ≫= f).
Proof. intros Hf. by apply (ensures_bind (fun _ => True)). Qed.
Lemma ensures_crash {S A} (P : A -> Prop) : ensures P (crash (S := S)).
Proof. done. Qed.
(** A bind that returned. *)
Lemma bind_inv {S A B} (m : M S A) (f : A -> M S B) s b s' :
  (m ≫= f) s = Some (b, s') -> exists a s1, m s = Some (a, s1) /\ f a s1 = Some (b, s').
Proof. rewrite bind_run. destruct (m s) as [[a s1]|]; [eauto|done]. Qed.
Ltac bind_inv H a s E := apply bind_inv in H as (a & s & E & H).

(** ** The steps keep the load addresses *)
Section steps.
Context {FW : Firmware} {BL : BaseLib} {UL : UnicodeLib} {AL : AsciiLib} {AC : AsciiCatLib}.
Context {BC : BuildConfig} {BP : BoardProtocols} {ZL : Zlib} {LF : Libfdt} {BS : BootServices}.
Variable MemBase : Z.

Lemma check_loaded_addrs Kptr p : ensures (fun r => addrs (snd r) = addrs p /\ sizes (snd r) = sizes p) (check_loaded MemBase Kptr p).
Proof. intros s [St p'] s' H. apply check_loaded_spec in H. tauto. Qed.
Lemma GZipPkgCheck_addrs p : ensures (fun r => addrs (snd r) = addrs p /\ sizes (snd r) = sizes p) (GZipPkgCheck MemBase p).
Proof.
  unfold GZipPkgCheck. destruct (BootingWithGzipPkgKernel (kind p)).
  - case_if; [by apply ensures_ret|]. apply ensures_after. intros [[pos OutLen]|]; [|by apply ensures_ret].
    case_if; [by apply ensures_ret|]. apply (check_loaded_addrs _ (set_DtbOffset pos p)).
  - apply (ensures_bind (fun q => addrs q = addrs p /\ sizes q = sizes p)).
    { case_if; [|by apply ensures_ret]. apply ensures_after. intros off. by apply ensures_ret. }
    intros q Hq. apply ensures_after. intros magic. case_if; [by apply ensures_ret|].
    apply (ensures_bind (fun q' => addrs q' = addrs p /\ sizes q' = sizes p)).
    { case_if; [|by apply ensures_ret]. apply ensures_after. intros off. by apply ensures_ret. }
    intros q' [<- <-]. apply ensures_after. intros _. apply check_loaded_addrs.
Qed.
Lemma LoadAndValidateDtboImg_addrs Info p :
  ensures (fun r => addrs (snd r) = addrs p /\ sizes (snd r) = sizes p) (LoadAndValidateDtboImg MemBase Info p).
Proof.
  unfold LoadAndValidateDtboImg. apply ensures_after. intros [Status [Buffer Size]].
  case_if; [by apply ensures_ret|]. case_if; [by apply ensures_ret|].
  apply ensures_after. intros m. apply ensures_after. intros ok. by apply ensures_ret.
Qed.
Lemma DTBImgCheckAndAppendDT_addrs Vm Info p :
  ensures (fun r => addrs (snd r) = addrs p /\ sizes (snd r) = sizes p) (DTBImgCheckAndAppendDT MemBase Vm Info p).
Proof.
  unfold DTBImgCheckAndAppendDT. apply ensures_after. intros [[Image Size] Offset].
  eapply ensures_bind; [apply LoadAndValidateDtboImg_addrs|]. intros [w q] Hq. cbn [fst snd] in Hq. case_if.
  - apply ensures_after. intros Dtb. case_if; [|by apply ensures_ret]. apply ensures_after. intros St. by apply ensures_ret.
  - apply ensures_after. intros Soc. case_if; [by apply ensures_ret|]. apply ensures_after. intros [St l].
    case_if; [by apply ensures_ret|]. apply ensures_after. intros St'. by apply ensures_ret.
Qed.

(** Steps that only read. *)
Definition reads {S A} (m : M S A) : Prop := forall s a s', m s = Some (a, s') -> s' = s.
Lemma reads_bind {S A B} (m : M S A) (f : A -> M S B) :
  reads m -> (forall a, reads (f a)) -> reads (m ≫= f).
Proof. intros Hm Hf s b s' H. bind_inv H a s1 E. apply Hm in E as ->. by apply Hf in H. Qed.
Lemma reads_ret {S A} (a : A) : reads (S := S) (mret a).
Proof. by intros s b s' [= _ <-]. Qed.
Lemma reads_gets {S A} (f : S -> A) : reads (gets f).
Proof. by intros s a s' [= _ <-]. Qed.
Lemma reads_access {S A} (o : option A) : reads (S := S) (access o).
Proof. intros s a s'. unfold access. destruct o; [by intros [= _ <-]|done]. Qed.
Lemma reads_from a : reads (from MemBase a).
Proof.
  unfold from. apply reads_bind; [apply reads_gets|]. intros m.
  case_if; [by intros s b s' H|apply reads_ret].
Qed.
Lemma from_run a s h s' : from MemBase a s = Some (h, s') -> MemBase <= a /\ h = fdt_at MemBase (Mem s) a /\ s' = s.
Proof. unfold from. intros H. run_in H. destruct (Z.ltb_spec a MemBase); [done|]. by injection H as <- <-. Qed.
Lemma reads_word_at n a : reads (word_at MemBase n a).
Proof. apply reads_bind; [apply reads_gets|intros m; apply reads_access]. Qed.
Lemma reads_cmdline c : reads (cmdline_text MemBase c).
Proof.
  destruct c; cbn [cmdline_text]; [done| |apply reads_ret].
  apply reads_bind; [apply reads_from|intros t; apply reads_access].
Qed.

(** ** The sizes in the headers, read from memory *)
Definition header_sizes (m : list Z) (Info : LinuxBootInfo) (At : Z) : option boot_sizes :=
  let hdr := fdt_at MemBase m At in
  if HeaderVersion Info <? BOOT_HEADER_VERSION_THREE then
    kernel ← hdr_kernel_size hdr; ramdisk ← hdr_ramdisk_size hdr;
    second ← hdr_second_size hdr; page ← hdr_page_size hdr;
    Some (mk_boot_sizes page kernel second ramdisk 0)
  else
    match GetImage Info (bytes "vendor_boot") with
    | (EFI_SUCCESS, Some v) =>
      let vendor := fdt_at MemBase m (ImageAddress v) in
      kernel ← v3_kernel_size hdr; ramdisk ← v3_ramdisk_size hdr;
      vendor_ramdisk ← vendor_ramdisk_size vendor; page ← vendor_page_size vendor;
      Some (mk_boot_sizes page kernel 0 ramdisk vendor_ramdisk)
    | _ => None
    end.
Lemma header_sizes_vendor m Info At z :
  Forall in_u8 m -> header_sizes m Info At = Some z -> in_u32 (VendorRamdiskSize z).
Proof.
  intros Hm. unfold header_sizes. destruct (_ <? _).
  - destruct (hdr_kernel_size _), (hdr_ramdisk_size _), (hdr_second_size _), (hdr_page_size _); try done.
    intros [= <-]. by vm_compute.
  - destruct (GetImage _ _) as [St [v|]]; destruct St; try done.
    destruct (v3_kernel_size _), (v3_ramdisk_size _); try done.
    destruct (vendor_ramdisk_size _) as [n|] eqn:E; [|done]. destruct (vendor_page_size _); [|done].
    intros [= <-]. cbn. unfold vendor_ramdisk_size in E.
    apply field_range in E; [exact E|]. by apply Forall_drop.
Qed.
Ltac read_field H :=
  let x := fresh "x" in let t := fresh "t" in let E := fresh "E" in
  bind_inv H x t E; pose proof (reads_access _ _ _ _ E) as ->; unfold access in E;
  lazymatch type of E with context [match ?o with Some _ => _ | None => _ end] => destruct o as [?|] end;
  [injection E as ->|discriminate].
Lemma sizes_read Info p t q t' :
  VendorRamdiskSize (sizes p) = 0 ->
  UpdateBootParamsSizeAndCmdLine MemBase Info p t = Some ((EFI_SUCCESS, q), t') ->
  header_sizes (Mem t) Info (ImageBuffer p) = Some (sizes q).
Proof.
  intros Hv H. unfold UpdateBootParamsSizeAndCmdLine in H. bind_inv H hdr t1 H1.
  apply from_run in H1 as (_ & -> & ->). unfold header_sizes. destruct (_ <? _).
  - do 4 read_field H.
    bind_inv H u t2 H2. injection H as <- _. cbn. by rewrite Hv.
  - unfold GetImage in *. destruct (image_named _ _) as [v|]; [|done].
    bind_inv H vendor t1 H1. apply from_run in H1 as (_ & -> & ->).
    do 4 read_field H.
    bind_inv H r t2 H2. by injection H as _ <- _.
Qed.

(** ** Loading the kernel: the sizes are those of the headers, and the addresses the ones
    that [UpdateBootParams] computes from them and accepts. *)
Definition placed_by_headers (Info : LinuxBootInfo) (p : BootParamlist) (t : dt_state) (q : BootParamlist) : Prop :=
  header_sizes (Mem t) Info (ImageBuffer p) = Some (sizes q) /\
  exists p1 t1 t2 t3 base St k Region,
    UpdateBootParamsSizeAndCmdLine MemBase Info p t = Some ((EFI_SUCCESS, p1), t1) /\
    boarding BaseMem t1 = Some ((EFI_SUCCESS, Some base), t2) /\
    UpdateKernelModeAndPkg MemBase (set_BaseMemory base p1) t2 = Some ((St, k), t3) /\
    QueryBootParams PlatformMemoryMap = Some Region /\
    UpdateBootParams Region (BootingWith32BitKernel k) base (sizes q) = (EFI_SUCCESS, addrs q).
Lemma load_kernel_placed Info p t q t' :
  VendorRamdiskSize (sizes p) = 0 ->
  load_kernel MemBase Info p t = Some ((EFI_SUCCESS, q), t') -> placed_by_headers Info p t q.
Proof.
  intros Hv H. unfold load_kernel in H. bind_inv H r t1 H1. destruct r as [St p1]. destruct St; try done.
  cbn [is_success] in H. bind_inv H r t2 H2. destruct r as [St base]. destruct St; try done.
  cbn [is_success] in H. bind_inv H b t3 H3. pose proof (reads_access _ _ _ _ H3) as ->.
  unfold access in H3. destruct base as [base|]; [|done]. injection H3 as <-.
  bind_inv H r t4 H4. destruct r as [Sk k]. bind_inv H Region t5 H5. pose proof (reads_access _ _ _ _ H5) as ->.
  unfold access in H5. destruct (QueryBootParams _) as [R|] eqn:HR; [|done]. injection H5 as <-.
  destruct (UpdateBootParams R _ _ _) as [Su a] eqn:HU. destruct Su; try done. cbn [is_success] in H.
  bind_inv H x t6 H6. bind_inv H r t7 H7. destruct r as [Sg g].
  apply GZipPkgCheck_addrs in H7 as [Ha Hz]. cbn [fst snd] in Ha, Hz. cbn [addrs sizes set_addrs set_kind set_BaseMemory] in Ha, Hz.
  assert (addrs q = a /\ sizes q = sizes p1) as [Hqa Hqz].
  { destruct (is_success Sg); cbn [negb] in H; injection H as _ <- _; cbn [addrs sizes set_offsets]; done. }
  split; [rewrite Hqz; by eapply sizes_read|]. exists p1, t1, t2, t4, base, Sk, k, R.
  rewrite Hqa, Hqz. done.
Qed.
End steps.

Lemma UpdateBootParams_before Region w base s a :
  UpdateBootParams Region w base s = (EFI_SUCCESS, a) -> KernelAt a < DeviceTreeLoadAddr a.
Proof.
  unfold UpdateBootParams. destruct (match Region with Some _ => _ | None => _ end) as [Kernel End_].
  case_if; [done|]. intros [= <-]. cbn. bool_to_prop. lia.
Qed.

Lemma UpdateBootParams_ramdisk Region w base s St a :
  UpdateBootParams Region w base s = (St, a) -> in_u64 (RamdiskAt a).
Proof.
  unfold UpdateBootParams. destruct (match Region with Some _ => _ | None => _ end) as [Kernel End_].
  case_if; intros [= _ <-]; apply u64_range.
Qed.

(** ** What is known of the device stays *)
Definition same_dev (l l' : loader) : Prop := DevInfo l' = DevInfo l.
Definition keeps_dev {A} (m : LD A) : Prop := forall l a l', m l = Some (a, l') -> same_dev l l'.
Lemma keeps_dev_bind {A B} (m : LD A) (f : A -> LD B) :
  keeps_dev m -> (forall a, keeps_dev (f a)) -> keeps_dev (m ≫= f).
Proof.
  intros Hm Hf l b l' H. bind_inv H a l1 E. apply Hm in E. apply Hf in H. unfold same_dev in *. congruence.
Qed.
Lemma keeps_dev_pure {A} (m : LD A) : (forall l a l', m l = Some (a, l') -> l' = l) -> keeps_dev m.
Proof. intros H l a l' E. by apply H in E as ->. Qed.
Lemma keeps_dev_lift {A} (m : B A) : keeps_dev (lift m).
Proof. intros l a l'. unfold lift. destruct (m (Boot l)) as [[x b]|]; [by intros [= _ <-]|done]. Qed.

Section linux.
Context {FW : Firmware} {BL : BaseLib} {UL : UnicodeLib} {AL : AsciiLib} {AC : AsciiCatLib}.
Context {BC : BuildConfig} {LB : LoaderBuild} {VB : VerifiedBootProtocol} {BM : BootMode}.
Context {BP : BoardProtocols} {BK : BootBuild} {QP : BootProtocols} {ZL : Zlib}.
Context {LF : Libfdt} {LR : LibfdtRw} {DB : DtBuild} {SP : SubsetProtocol} {UP : UpdateProtocols}.
Context {BS : BootServices}.
Variable MemBase : Z.
Variable depth : nat.

Lemma misc_guid_dev : keeps_dev misc_guid.
Proof.
  unfold misc_guid. apply keeps_dev_bind; [apply keeps_dev_lift|]. intros t.
  repeat (case_if; try (apply keeps_dev_bind; [apply keeps_dev_lift|intros ?]));
    try (match goal with |- context [let '_ := ?x in _] => destruct x as [? ?] end);
    apply keeps_dev_pure; by intros l a l' [= _ <-].
Qed.
Lemma GetFfbmCommand_dev str Sz : keeps_dev (GetFfbmCommand str Sz).
Proof.
  unfold GetFfbmCommand. apply keeps_dev_bind; [apply misc_guid_dev|]. intros [[Status P] C].
  case_if; [apply keeps_dev_pure; by intros l a l' [= _ <-]|].
  apply keeps_dev_bind; [apply keeps_dev_lift|]. intros [St Data].
  case_if; [apply keeps_dev_pure; by intros l a l' [= _ <-]|].
  case_if; [done|].
  apply keeps_dev_bind.
  { apply keeps_dev_pure. intros l a l'. unfold access. destruct Data; [by intros [= _ <-]|done]. }
  intros buf. case_if; [done|]. cbv zeta.
  repeat case_if; apply keeps_dev_pure; by intros l a l' [= _ <-].
Qed.

Lemma CheckMDTPStatus_guard Name_ Info l l' :
  CheckMDTPStatus Name_ Info l = Some (EFI_SUCCESS, l') ->
  EnableMdtpSupport = true -> mdtp_active = true ->
  verity_mode (DevInfo l) = true /\ is_unlocked (DevInfo l) = false.
Proof.
  unfold CheckMDTPStatus, IsEnforcing, IsUnlocked, dev. intros H He Ha. run_in H. rewrite He, Ha in H.
  destruct (verity_mode (DevInfo l)); [|done]. by destruct (is_unlocked (DevInfo l)).
Qed.

Definition dev_of (s : linux_state) : DeviceInfo := DevInfo (Loader (Texts s)).
Lemma updating_dev {A} (m : UD A) s a s' : updating m s = Some (a, s') -> dev_of s' = dev_of s.
Proof. unfold updating. destruct (m _) as [[x u]|]; [by intros [= _ <-]|done]. Qed.
Lemma trees_dev {A} (m : DT A) s a s' : trees m s = Some (a, s') -> dev_of s' = dev_of s.
Proof. apply updating_dev. Qed.
Lemma GetVmData_dev s a s' : GetVmData s = Some (a, s') -> dev_of s' = dev_of s.
Proof.
  unfold GetVmData, IsVmEnabled. intros H. run_in H. destruct (VmEnabled s); [by injection H as _ <-|].
  destruct HypDtbAddress as [Status A]. case_if_in H; [by injection H as _ <-|]. run_in H.
  case_if_in H; by injection H as _ <-.
Qed.
Lemma CheckAndSetVmData_dev p s r s' : CheckAndSetVmData MemBase p s = Some (r, s') -> dev_of s' = dev_of s.
Proof.
  unfold CheckAndSetVmData. intros H. bind_inv H Info s1 E1. apply GetVmData_dev in E1.
  case_if_in H; [by injection H as _ <-|]. apply trees_dev in H. congruence.
Qed.
Lemma ffbm_string_dev Info s r s' : ffbm_string Info s = Some (r, s') -> dev_of s' = dev_of s.
Proof.
  unfold ffbm_string. case_if; [|by intros [= _ <-]]. intros H. bind_inv H x s1 H1. injection H as _ <-.
  unfold texts, loading in H1. destruct (GetFfbmCommand [] FFBM_MODE_BUF_SIZE (Loader (Texts s))) as [[y l]|] eqn:E1; [|done].
  injection H1 as _ <-. apply GetFfbmCommand_dev in E1. exact E1.
Qed.

(** ** A kernel that is started *)
Definition started (o : boot_outcome) : option (Z * Z) :=
  match o with
  | LinuxKernel k d | LinuxKernel32 k d | SwitchedTo32 k d => Some (k, d)
  | Returned _ | CpuDeadLoop => None
  end.
Lemma start_kernel_started fuel p o K D :
  start_kernel fuel p = Some o -> started o = Some (K, D) ->
  K = KernelAt (addrs p) /\ D = DeviceTreeLoadAddr (addrs p) /\
  exists St, ShutdownUefiBootServices fuel 0 0 = Some St /\ EFI_ERROR St = false.
Proof.
  unfold start_kernel. destruct (ShutdownUefiBootServices fuel 0 0) as [St|]; [|done]. bind_step.
  destruct (EFI_ERROR St) eqn:Hs; [by intros [= <-]|].
  case_if; [case_if; [|destruct SwitchTo32bitMode]|]; intros [= <-]; cbn; try discriminate; intros [= <- <-]; eauto.
Qed.

(** ** The memory of a run *)
Definition tree_state (s : linux_state) : dt_state := Tree (Fdts (Updating s)).
Lemma updating_run {A} (m : UD A) s a s' :
  updating m s = Some (a, s') ->
  m (with_DtStorage (Boot (Loader (Texts s))) (Updating s)) = Some (a, Updating s').
Proof. unfold updating. destruct (m _) as [[x u]|]; [by intros [= <- <-]|done]. Qed.
Lemma trees_run {A} (m : DT A) s a s' :
  trees m s = Some (a, s') -> m (tree_state s) = Some (a, tree_state s').
Proof.
  intros H. apply updating_run in H. unfold fdt, tree_of, tree_state in *. cbn [Fdts with_DtStorage] in H.
  destruct (m (Tree (Fdts (Updating s)))) as [[x t]|]; [|done]. injection H as <- H. by rewrite <- H.
Qed.
Lemma texts_run {A} (m : CL A) s a s' : texts m s = Some (a, s') -> tree_state s' = tree_state s.
Proof. unfold texts. destruct (m _) as [[x t]|]; [by intros [= _ <-]|done]. Qed.
Lemma trees_read {A} (m : DT A) s a s' : reads m -> trees m s = Some (a, s') -> tree_state s' = tree_state s.
Proof. intros Hm H. apply trees_run in H. by apply Hm in H. Qed.

Lemma reads_dtbo_bases n a : reads (dtbo_bases MemBase n a).
Proof.
  revert a. induction n as [|n IH]; intros a; cbn [dtbo_bases]; [apply reads_ret|].
  apply reads_bind; [apply reads_word_at|]. intros x. apply reads_bind; [apply IH|]. intros l. apply reads_ret.
Qed.
Lemma reads_SetHypInfo Info p : reads (SetHypInfo MemBase Info p).
Proof.
  unfold SetHypInfo. apply reads_bind; [apply reads_word_at|]. intros magic. case_if; [apply reads_ret|].
  apply reads_bind; [apply reads_word_at|]. intros n. cbv zeta.
  generalize (if HYP_MAX_NUM_DTBOS <? n then HYP_MAX_NUM_DTBOS else n); intros k. case_if; [apply reads_ret|].
  apply reads_bind; [apply reads_dtbo_bases|]. intros l. apply reads_ret.
Qed.
Lemma SetHypInfo_sizes Info p : ensures (fun r => sizes (snd r) = sizes p) (SetHypInfo MemBase Info p).
Proof.
  unfold SetHypInfo. apply ensures_after. intros magic. case_if; [by apply ensures_ret|].
  apply ensures_after. intros n. cbv zeta.
  generalize (if HYP_MAX_NUM_DTBOS <? n then HYP_MAX_NUM_DTBOS else n); intros k. case_if; [by apply ensures_ret|].
  apply ensures_after. intros l. by apply ensures_ret.
Qed.
Lemma GetVmData_tree s a s' : GetVmData s = Some (a, s') -> tree_state s' = tree_state s.
Proof.
  unfold GetVmData, IsVmEnabled. intros H. run_in H. destruct (VmEnabled s); [by injection H as _ <-|].
  destruct HypDtbAddress as [Status A]. case_if_in H; [by injection H as _ <-|]. run_in H.
  case_if_in H; by injection H as _ <-.
Qed.
Lemma CheckAndSetVmData_tree p s r s' :
  CheckAndSetVmData MemBase p s = Some (r, s') -> tree_state s' = tree_state s /\ sizes (snd r) = sizes p.
Proof.
  unfold CheckAndSetVmData. intros H. bind_inv H Info s1 E1. apply GetVmData_tree in E1.
  case_if_in H; [by injection H as <- <-|]. rewrite <- E1. split; [by eapply trees_read, H; apply reads_SetHypInfo|].
  apply trees_run in H. by apply SetHypInfo_sizes in H.
Qed.
Lemma ffbm_string_tree Info s r s' : ffbm_string Info s = Some (r, s') -> tree_state s' = tree_state s.
Proof.
  unfold ffbm_string. case_if; [|by intros [= _ <-]]. intros H. bind_inv H x s1 H1. injection H as _ <-.
  by eapply texts_run.
Qed.
Lemma final_cmdline_tree Info root Ffbm c s r s' :
  final_cmdline Info root Ffbm c s = Some (r, s') -> tree_state s' = tree_state s.
Proof.
  unfold final_cmdline, GetDtboIdx, GetDtbIdx. intros H.
  bind_inv H x s1 H1. apply (trees_read _ _ _ _ (reads_gets _)) in H1 as <-.
  bind_inv H y s2 H2. apply (trees_read _ _ _ _ (reads_gets _)) in H2 as <-.
  bind_inv H z s3 H3. apply (trees_read _ _ _ _ (reads_gets _)) in H3 as <-.
  by eapply texts_run.
Qed.
Lemma TxMpdatatoQhee_mem Data t a t' : TxMpdatatoQhee Data t = Some (a, t') -> Mem t' = Mem t.
Proof.
  unfold TxMpdatatoQhee. intros H. run_in H. case_if_in H; [by injection H as _ <-|]. run_in H.
  case_if_in H; [by injection H as _ <-|]. run_in H. by injection H as _ <-.
Qed.

(** ** The copies behind the update *)
Lemma CopyMem_confined Dst Src n t a t' :
  CopyMem MemBase Dst Src n t = Some (a, t') ->
  confined (Dst - MemBase) (Dst + Z.max 0 n - MemBase) (Mem t) (Mem t') /\
  (0 < n -> Dst + n <= MemBase + Z.of_nat (length (Mem t))).
Proof.
  unfold CopyMem. destruct (Z.leb_spec n 0); [intros [= _ <-]; split; [apply confined_refl|lia]|].
  intros Hr. bind_inv Hr bs t1 H1. unfold load_at in H1. run_in H1. unfold access in H1.
  destruct (rd (Mem t) _ _) as [b|] eqn:E; [|done]. injection H1 as -> ->.
  assert (Z.of_nat (length bs) = n) as Hn.
  { unfold rd in E. destruct (_ <? 0); [done|]. apply load_length in E. lia. }
  unfold store_at in Hr. run_in Hr. unfold access in Hr.
  destruct (wr (Mem t1) _ _) as [m|] eqn:Ew; [|done]. injection Hr as _ <-. cbn [Mem set_Mem].
  split; [eapply wr_confined; [exact Ew|lia]|]. intros _. apply wr_inv in Ew. lia.
Qed.
(** The ramdisks are written from the address of the first one on. *)
Lemma copy_ramdisks_behind Info p t a t' :
  0 <= VendorRamdiskSize (sizes p) -> in_u64 (RamdiskAt (addrs p)) ->
  MemBase + Z.of_nat (length (Mem t)) < 2 ^ 64 ->
  copy_ramdisks MemBase Info p t = Some (a, t') ->
  length (Mem t') = length (Mem t) /\
  forall i, MemBase + Z.of_nat i < RamdiskAt (addrs p) -> Mem t' !! i = Mem t !! i.
Proof.
  intros Hv Ha Hm H. unfold in_u64 in Ha. unfold copy_ramdisks in H. bind_inv H At t1 H1.
  assert ((length (Mem t1) = length (Mem t) /\
    forall i, MemBase + Z.of_nat i < RamdiskAt (addrs p) -> Mem t1 !! i = Mem t !! i) /\
    RamdiskAt (addrs p) <= At) as [[L Hc] Hat].
  { case_if_in H1; [|by injection H1 as <- <-].
    bind_inv H1 x t2 H2. injection H1 as <- <-. apply CopyMem_confined in H2 as [[L Hc] Hl].
    split; [split; [done|]; intros i Hi; apply Hc; lia|].
    destruct (Z.eq_dec (VendorRamdiskSize (sizes p)) 0) as [->|Hz];
      rewrite u64_small by (unfold in_u64; lia); lia. }
  apply CopyMem_confined in H as [[L2 Hc2] _]. split; [congruence|].
  intros i Hi. rewrite Hc2 by lia. by apply Hc.
Qed.
Lemma copy_kernel32_confined p t St t' :
  0 <= MemBase -> MemBase + Z.of_nat (length (Mem t)) < 2 ^ 64 ->
  copy_kernel32 MemBase p t = Some (St, t') -> status_value St = 0 ->
  forall i, DeviceTreeLoadAddr (addrs p) <= MemBase + Z.of_nat i -> Mem t' !! i = Mem t !! i.
Proof.
  intros Hb Hm Hr Hs i Hi. unfold copy_kernel32 in Hr. cbv zeta in Hr.
  destruct (CHECK_ADD64 _ _); [by injection Hr as <- _|].
  destruct (Z.ltb_spec (DeviceTreeLoadAddr (addrs p)) (u64 (KernelAt (addrs p) + KernelSizeActual p))); [by injection Hr as <- _|].
  bind_inv Hr x t1 H1. injection Hr as _ <-. destruct (Z.leb_spec (KernelSizeActual p) 0).
  { unfold CopyMem in H1. rewrite (proj2 (Z.leb_le _ _)) in H1 by done. by injection H1 as _ <-. }
  assert (MemBase <= KernelAt (addrs p)) as Hk.
  { revert H1. unfold CopyMem. rewrite (proj2 (Z.leb_gt _ _)) by done. intros H1. bind_inv H1 bs t2 H2.
    unfold store_at in H1. run_in H1. unfold access in H1.
    destruct (wr _ _ _) as [m|] eqn:Ew; [|done]. apply wr_inv in Ew. lia. }
  apply CopyMem_confined in H1 as [[_ Hc] Hl]. apply Hc.
  rewrite u64_small in * by (unfold in_u64; lia). lia.
Qed.

(** What the last part of BootLinux does with the parameters [p] that load_kernel left in
    the state [s]: the tree of the image goes to its place, in this memory UpdateDeviceTree
    succeeds with the addresses of [p] and the command line made of the one [p] has, and
    nothing behind that changes the bytes before the ramdisks. *)
Definition tree_prepared (Vm : bool) (Info : LinuxBootInfo) (p : BootParamlist) (s s' : linux_state) : Prop :=
  let D := DeviceTreeLoadAddr (addrs p) in
  exists q t text c root Ffbm sc sc' St Final u u',
    DTBImgCheckAndAppendDT MemBase Vm Info p (tree_state s) = Some ((EFI_SUCCESS, q), t) /\
    cmdline_text MemBase (CmdLine p) (tree_state s) = Some (text, tree_state s) /\ root = root_in text /\
    Mem (tree_state sc) = Mem t /\ cmdline_text MemBase (CmdLine q) (tree_state sc) = Some (c, tree_state sc) /\
    final_cmdline Info root Ffbm c sc = Some ((St, Some Final), sc') /\ EFI_ERROR St = false /\
    Mem (Tree (Fdts u)) = Mem t /\
    UpdateDeviceTree MemBase depth D Final (RamdiskAt (addrs p)) (u32 (ramdisk_size (sizes p))) u = Some (0, u') /\
    (0 <= VendorRamdiskSize (sizes p) -> in_u64 (RamdiskAt (addrs p)) ->
     0 <= MemBase -> MemBase + Z.of_nat (length (Mem (Tree (Fdts u')))) < 2 ^ 64 ->
     forall i, D <= MemBase + Z.of_nat i < RamdiskAt (addrs p) ->
       Mem (tree_state s') !! i = Mem (Tree (Fdts u')) !! i).

Lemma fdt_tree_run {A} (m : DT A) u a u' :
  fdt (tree_of m) u = Some (a, u') -> m (Tree (Fdts u)) = Some (a, Tree (Fdts u')).
Proof.
  unfold fdt, tree_of. destruct (m (Tree (Fdts u))) as [[x t]|]; [|done]. by intros [= <- <-].
Qed.
Lemma LoadAddrAndDTUpdate_updated Info p u u' :
  LoadAddrAndDTUpdate MemBase depth Info p u = Some (0, u') ->
  exists u1, UpdateDeviceTree MemBase depth (DeviceTreeLoadAddr (addrs p)) (FinalCmdLine p) (RamdiskAt (addrs p))
      (u32 (ramdisk_size (sizes p))) u = Some (0, u1) /\
    (0 <= VendorRamdiskSize (sizes p) -> in_u64 (RamdiskAt (addrs p)) ->
     0 <= MemBase -> MemBase + Z.of_nat (length (Mem (Tree (Fdts u1)))) < 2 ^ 64 ->
     forall i, DeviceTreeLoadAddr (addrs p) <= MemBase + Z.of_nat i < RamdiskAt (addrs p) ->
       Mem (Tree (Fdts u')) !! i = Mem (Tree (Fdts u1)) !! i).
Proof.
  unfold LoadAddrAndDTUpdate. case_if; [by intros [= ? _]|]. case_if; [by intros [= ? _]|].
  fold (ramdisk_size (sizes p)). intros H. bind_inv H Status u1 HU.
  destruct (Z.eqb_spec Status 0) as [->|Hn]; [|cbn [negb] in H; injection H as H _; lia].
  exists u1. split; [exact HU|]. intros Hv Ha Hb Hm i Hi. cbn [negb] in H. bind_inv H x u2 H2.
  apply fdt_tree_run in H2. apply copy_ramdisks_behind in H2 as [L Hc]; [|done..].
  rewrite <- Hc by lia. case_if_in H; [|by injection H as <-].
  bind_inv H St u3 H3. injection H as H <-. apply fdt_tree_run in H3.
  eapply copy_kernel32_confined; [done|by rewrite L|exact H3|done|lia].
Qed.

Lemma prepared_start Vm fuel Info (p : BootParamlist) text Ffbm s o s' K D :
  (r ← trees (DTBImgCheckAndAppendDT MemBase Vm Info p);
   let (Status, p) := r : EFI_STATUS * BootParamlist in
   if negb (is_success Status) then mret (Returned (status_value Status)) else
   _ ← trees (TxMpdatatoQhee []);
   CmdLine ← trees (cmdline_text MemBase (CmdLine p));
   r ← final_cmdline Info (root_in text) Ffbm CmdLine;
   let (Status, Final) := r : EFI_STATUS * option (list Z) in
   if EFI_ERROR Status then mret (Returned (status_value Status)) else
   Final ← access Final;
   let p := set_FinalCmdLine Final p in
   Status ← updating (LoadAddrAndDTUpdate MemBase depth Info p);
   if negb (Status =? 0) then mret (Returned Status) else access (start_kernel fuel p)) s = Some (o, s') ->
  cmdline_text MemBase (CmdLine p) (tree_state s) = Some (text, tree_state s) ->
  started o = Some (K, D) ->
  K = KernelAt (addrs p) /\ D = DeviceTreeLoadAddr (addrs p) /\ tree_prepared Vm Info p s s' /\
  exists St, ShutdownUefiBootServices fuel 0 0 = Some St /\ EFI_ERROR St = false.
Proof.
  intros H Htext Ho. bind_inv H r s1 H1. destruct r as [Status q]. apply trees_run in H1.
  pose proof (DTBImgCheckAndAppendDT_addrs MemBase Vm Info p _ _ _ H1) as [Ha Hz]. cbn [fst snd] in Ha, Hz.
  destruct Status; try (by injection H as <- _). cbn [is_success negb] in H. bind_inv H x s2 H2.
  apply trees_run, TxMpdatatoQhee_mem in H2. bind_inv H c s3 H3.
  pose proof (trees_read _ _ _ _ (reads_cmdline MemBase _) H3) as E3. apply trees_run in H3. rewrite E3 in H3.
  bind_inv H r s4 H4. pose proof (final_cmdline_tree _ _ _ _ _ _ _ H4) as E4.
  destruct r as [St Final]. case_if_in H; [by injection H as <- _|]. bind_inv H F s5 H5.
  pose proof (reads_access _ _ _ _ H5) as ->. unfold access in H5. destruct Final as [Final|]; [|done]. injection H5 as <-.
  bind_inv H R s6 H6. destruct (Z.eqb_spec R 0) as [->|]; [|by injection H as <- _]. cbn [negb] in H.
  apply updating_run in H6. apply LoadAddrAndDTUpdate_updated in H6 as (u1 & HU & Hend).
  cbn [addrs sizes FinalCmdLine set_FinalCmdLine] in HU, Hend. rewrite Ha, Hz in HU, Hend.
  pose proof (reads_access _ _ _ _ H) as ->. unfold access in H.
  destruct (start_kernel _ _) as [o'|] eqn:E1; [|done]. injection H as ->.
  apply (start_kernel_started _ _ _ _ _ E1) in Ho as (HK & HD & HS). cbn [addrs set_FinalCmdLine] in HK, HD.
  rewrite Ha in HK, HD. split; [done|]. split; [done|]. split; [|done].
  exists q, (tree_state s1), text, c, (root_in text), Ffbm, s3, s4, St, Final,
    (with_DtStorage (Boot (Loader (Texts s4))) (Updating s4)), u1.
  split; [exact H1|]. split; [exact Htext|]. split; [done|]. split; [by rewrite E3|].
  split; [by rewrite E3|]. split; [exact H4|]. split; [done|]. split; [|split; [exact HU|exact Hend]].
  cbn [Fdts with_DtStorage]. fold (tree_state s4). by rewrite E4, E3.
Qed.

End linux.

(** ** Witness: an image with a 64-bit kernel behind the header of a patched kernel and one
    device tree in the page of the header; MDTP is active and the device locked *)
Section demo.
#[local] Existing Instances demo_Firmware demo_Board plain_LibfdtRw reference_BaseLib reference_UnicodeLib
  reference_AsciiLib demo_BuildConfig demo_BootMode demo_LoaderBuild demo_VerifiedBoot.
#[local] Instance start_AsciiCatLib : AsciiCatLib := reference_AsciiCatLib (demo_print 10).
#[local] Instance start_BootBuild : BootBuild := {|
  ENABLE_LE_VARIANT := false; BUILD_SYSTEM_ROOT_IMAGE := true; BUILD_USES_RECOVERY_AS_BOOT := true;
  NAND_SQUASHFS_SUPPORT := false; ENABLE_SYSTEMD_BOOTSLOT := false; VERITY_LE := false; EnableMdtpSupport := true |}.
#[local] Instance start_BootProtocols : BootProtocols := {|
  GetPanelConfiguration n := (EFI_SUCCESS, 14, bytes " panel=duo:c3" ++ [0]);
  GetBootDeviceBaseAddr := (EFI_SUCCESS, 0x1D84000);
  LocateMdtp := EFI_SUCCESS; MdtpGetState := (EFI_SUCCESS, MDTP_STATE_ACTIVE); MdtpBootState _ := EFI_SUCCESS;
  IsOffModeCharging := (EFI_SUCCESS, false); LocatePmicPon := EFI_NOT_FOUND;
  GetPonReason := (EFI_NOT_FOUND, mk_pon false false false false); WarmResetStatus := (EFI_NOT_FOUND, false) |}.
#[local] Instance start_Libfdt : Libfdt := {|
  fdt_check_header t := if bool_decide (take 4 t = [0; 0; 0; 2]) then 0 else -9; fdt_totalsize _ := 16;
  fdt_off_dt_struct _ := 0; fdt_size_dt_struct _ := 8; fdt_off_dt_strings _ := 8; fdt_size_dt_strings _ := 8;
  fdt_off_mem_rsvmap _ := 0; fdt_path_offset _ _ := 0; fdt_getprop _ _ _ := (Some 0, 4);
  DtbHdr_address := 0; LocateScmProtocol := EFI_NOT_FOUND |}.
#[local] Instance start_DtBuild : DtBuild := {| EnableNewNodeSearchFuc := false; EnablePartialGoods := false |}.
#[local] Instance start_Subset : SubsetProtocol :=
  {| ChipInfoRevision := 0; GetSubsetCPUs _ := (EFI_NOT_FOUND, None); GetSubsetPart _ := (EFI_NOT_FOUND, None) |}.
#[local] Instance start_Update : UpdateProtocols := {|
  GetSplashBufferInfo n := (EFI_NOT_FOUND, n, []); GetDemuraInfo _ := (EFI_NOT_FOUND, []);
  LocateDdrInfo := EFI_NOT_FOUND; DdrRevision := 0; GetDDRDetails := (EFI_NOT_FOUND, mk_ddr 0 0 [] []);
  LocateRng := EFI_NOT_FOUND; GetRNG _ := (EFI_NOT_FOUND, 0) |}.
#[local] Instance start_Zlib : Zlib := {| inflateInit2 := false; inflate _ _ := (Z_ERROR, [], 0) |}.
#[local] Instance start_BootServices : BootServices := {|
  HypDtbAddress := (EFI_NOT_FOUND, 0); pre_overlay_malloc := true; ufdt_install_blob _ := true;
  ufdt_apply_multi_overlay _ _ := None; LoadUserDtbo := (EFI_LOAD_ERROR, 0); LocateModeSwitch := EFI_NOT_FOUND;
  SwitchTo32bitMode := None; GetMemoryMap _ := EFI_SUCCESS; ExitBootServices _ := EFI_SUCCESS;
  PagesAvailable _ := true;
  PlatformMemoryMap := [mk_region (bytes "Kernel") 0x800 0x280900 AddMem EFI_RESOURCE_SYSTEM_MEMORY [] EfiReservedMemoryType
    ARM_MEMORY_REGION_ATTRIBUTE_WRITE_BACK];
  freed_entry_Idx x := x; stack_serial := []; stack_suffix := [170; 170; 170] |}.

Definition start_header : list Z :=
  bytes "ANDROID!" ++ le_bytes 4 100 ++ repeat 0 24 ++ le_bytes 4 1024 ++ repeat 0 8 ++ [0; 0; 0; 2] ++ repeat 0 972.
Definition start_image_kernel : list Z :=
  PATCHED_KERNEL_MAGIC ++ le_bytes 4 48 ++ repeat 0 16 ++ le_bytes 8 64 ++ repeat 0 32 ++
  le_bytes 4 KERNEL64_HDR_MAGIC ++ repeat 0 944.
Definition start_info : LinuxBootInfo :=
  mk_boot_info true false false (bytes "boot_a") [mk_image (bytes "boot") 0x80000 2048]
    (Some (bytes " androidboot.verifiedbootstate=green")) 0.
Definition start_state : linux_state :=
  mk_linux
    (mk_update
       (mk_fdt_state (mk_dt_state (start_header ++ start_image_kernel ++ repeat 0 320) true (-1) (-1) 0 false [] 0 0
          (mk_board None 0 (mk_board_info (mk_platform 0 0 0 false) 0 (bytes "msm") 0 0 0 0))) [])
       boot_init false false (repeat 0 12) 12 0)
    (mk_cmdline (mk_loader (set_RootType UFS (demo_slots (first_boot_attributes 0) 0)) (set_verity_mode true zero_dev_info) true None)
       (repeat 0 MAX_DISPLAY_CMD_LINE) (Z.of_nat MAX_DISPLAY_CMD_LINE) SystemdSlotEnv_init)
    false 0.
Definition start_end : linux_state := default start_state (snd <$> BootLinux 0x80000 0 1 start_info start_state).

End demo.
