(* ===== verification/BlockHandles.v ===== *)
(** * Choosing block devices.

    [GetBlkIOHandles] and [CompareVolumeLabel] of
    [Platforms/QcomModulePkg/Library/BootLib/LinuxLoaderLib.c], the search on which every
    access to a partition rests.  The other components see it through [Firmware] and
    [LabelledPartitions]; [firmware_of] and [labelled_of] put it there. *)
From stdpp Require Import base numbers list option strings.
From Stdlib Require Import ZArith Lia.
From S2P Require Import Prelude BaseLib Unicode Storage Bytes BootImage.
Local Open Scope Z_scope.

(** ** What the firmware knows of its handles *)
(** A node of a device path; [payload] is what follows its header of four bytes. *)
Record DevicePathNode := mk_node { dp_Type : Z; dp_SubType : Z; dp_Length : Z; payload : list Z }.
Definition HARDWARE_DEVICE_PATH : Z := 0x01.
Definition HW_VENDOR_DP : Z := 0x04.
Definition MEDIA_DEVICE_PATH : Z := 0x04.
Definition MEDIA_HARDDRIVE_DP : Z := 0x01.
Definition SIZEOF_VENDOR_DEVICE_PATH : Z := 20.
Definition SIZEOF_HARDDRIVE_DEVICE_PATH : Z := 42.
(** The field [MBRType], behind the header, three numbers and a signature. *)
Definition OFFSET_MBRType : nat := 36.
Definition PARTITIONED_TYPE_MBR : Z := 1.
Definition PARTITIONED_TYPE_GPT : Z := 2.
Definition end_node : DevicePathNode := mk_node 0x7F 0xFF 4 [].

(** Each field is a call of the boot services, with the protocol in its name. *)
Class BlockDevices := {
  BlockIoHandles : EFI_STATUS * list Z;
  FileSystemHandles : EFI_STATUS * list Z;
  BlockIoOf : Z -> EFI_STATUS * EFI_BLOCK_IO_PROTOCOL;
  RemovableMedia : Z -> bool;
  (** The nodes before the end of the path. *)
  DevicePathOf : Z -> EFI_STATUS * list DevicePathNode;
  TypeProtocolOn : Z -> EFI_GUID -> EFI_STATUS;
  PartitionTypeOf : Z -> EFI_STATUS * EFI_GUID;
  FileSystemOn : Z -> EFI_STATUS;
  OpenVolume : Z -> EFI_STATUS;
  (** GetInfo without and with a buffer, and the label it puts there. *)
  VolumeInfo : Z -> EFI_STATUS * EFI_STATUS * list Z;
  PartitionRecordOf : Z -> EFI_STATUS * EFI_PARTITION_ENTRY;
  RootDeviceGuid : RootDevice -> EFI_GUID
}.

(** ** LinuxLoaderLib.h *)
Definition BLK_IO_SEL_MEDIA_TYPE_REMOVABLE : Z := 0x1.
Definition BLK_IO_SEL_SELECT_MOUNTED_FILESYSTEM : Z := 0x20.
Definition BLK_IO_SEL_SELECT_BY_VOLUME_NAME : Z := 0x40.
(** No code looks at this one. *)
Definition BLK_IO_SEL_STRING_CASE_INSENSITIVE : Z := 0x400.
(** The filter with all of its fields. *)
Record SelectFilter := mk_select_filter {
  WantedRoot : option RootDevice;
  WantedType : option EFI_GUID;
  WantedVolume : option (list Z);
  WantedLabel : option (list Z)
}.

Definition VOLUME_LABEL_SIZE : nat := 16.
Definition FILTERS_NEEDING_DEVICEPATH : Z :=
  Z.lor (Z.lor (Z.lor (Z.lor BLK_IO_SEL_PARTITIONED_MBR BLK_IO_SEL_PARTITIONED_GPT)
    BLK_IO_SEL_MATCH_PARTITION_TYPE_GUID) BLK_IO_SEL_SELECT_ROOT_DEVICE_ONLY)
    BLK_IO_SEL_MATCH_ROOT_DEVICE.

(** ** The search *)
Definition has (A mask : Z) : bool := negb (Z.land A mask =? 0).
(** The structure HandleInfo with all of its fields; the other components use the first
    two.  [PartitionInfo] is NULL when no filter needed the path of the device. *)
Record handle_out := mk_handle_out { out_info : HandleInfo; PartitionInfo : option DevicePathNode }.
(** What becomes of a handle: the search ends, goes on without it or with it. *)
Inductive selection := Stop (Status : EFI_STATUS) | Skip | Take (h : handle_out).

(** What is asked for by default: any medium, any kind of partition table. *)
Definition select_defaults (A : Z) : Z :=
  let media := Z.lor BLK_IO_SEL_MEDIA_TYPE_REMOVABLE BLK_IO_SEL_MEDIA_TYPE_NON_REMOVABLE in
  let A := if Z.land A media =? 0 then Z.lor A media else A in
  let tables := Z.lor BLK_IO_SEL_PARTITIONED_GPT BLK_IO_SEL_PARTITIONED_MBR in
  if Z.land tables A =? 0 then Z.lor A tables else A.

Section handles.
Context {BL : BaseLib} {UL : UnicodeLib} {BD : BlockDevices}.

Definition upper (c : Z) : Z := if (97 <=? c) && (c <=? 122) then c - 32 else c.
Definition upper_label (s : list Z) : list Z := map upper (take (VOLUME_LABEL_SIZE - 1) s).
(** 0 for equal labels. *)
Definition CompareVolumeLabel (Fs : Z) (ReqVolumeName : list Z) : Z :=
  if negb (is_success (OpenVolume Fs)) then 1 else
  let '(Status, Status2, VolumeLabel) := VolumeInfo Fs in
  if negb (bool_decide (Status = EFI_BUFFER_TOO_SMALL)) then 1 else
  if negb (is_success Status2) then 1 else
  StrnCmp (upper_label VolumeLabel ++ drop (VOLUME_LABEL_SIZE - 1) VolumeLabel)
    (upper_label ReqVolumeName) VOLUME_LABEL_SIZE.

(** Tests of a handle: [None] goes on to the next test. *)
Definition next_test (t k : option selection) : option selection :=
  match t with Some s => Some s | None => k end.

(** The first node of the path names the device. *)
Definition root_matches (F : SelectFilter) (Root : DevicePathNode) : bool :=
  (dp_Type Root =? HARDWARE_DEVICE_PATH) && (dp_SubType Root =? HW_VENDOR_DP) &&
  (dp_Length Root =? SIZEOF_VENDOR_DEVICE_PATH) &&
  match WantedRoot F with
  | None => true
  | Some d => bool_decide (take 16 (payload Root) = RootDeviceGuid d)
  end.
Definition root_test (A : Z) (F : option SelectFilter) (Root : DevicePathNode) : option selection :=
  if has A (Z.lor BLK_IO_SEL_SELECT_ROOT_DEVICE_ONLY BLK_IO_SEL_MATCH_ROOT_DEVICE) then
    match F with
    | None => Some (Stop EFI_INVALID_PARAMETER)
    | Some F => if root_matches F Root then None else Some Skip
    end
  else None.

Definition is_partition (n : DevicePathNode) : bool :=
  (dp_Type n =? MEDIA_DEVICE_PATH) && (dp_SubType n =? MEDIA_HARDDRIVE_DP) &&
  (dp_Length n =? SIZEOF_HARDDRIVE_DEVICE_PATH).
Definition type_test (A : Z) (F : option SelectFilter) (h : Z) : option selection :=
  if has A BLK_IO_SEL_MATCH_PARTITION_TYPE_GUID then
    match F with
    | Some (mk_select_filter _ (Some Type_) _ _) =>
      if EFI_ERROR (TypeProtocolOn h Type_) then
        let (Status, PartiType) := PartitionTypeOf h in
        if EFI_ERROR Status then Some Skip else
        if bool_decide (PartiType = Type_) then None else Some Skip
      else None
    | _ => Some (Stop EFI_INVALID_PARAMETER)
    end
  else None.
(** [None] is a read behind the node. *)
Definition partition_test (A : Z) (F : option SelectFilter) (h : Z) (Partition : DevicePathNode)
  : option (option selection) :=
  if is_partition Partition then
    MBRType ← payload Partition !! OFFSET_MBRType;
    if negb (has A BLK_IO_SEL_PARTITIONED_GPT) && (MBRType =? PARTITIONED_TYPE_GPT) then Some (Some Skip) else
    if negb (has A BLK_IO_SEL_PARTITIONED_MBR) && (MBRType =? PARTITIONED_TYPE_MBR) then Some (Some Skip) else
    Some (type_test A F h)
  else Some (if has A BLK_IO_SEL_MATCH_PARTITION_TYPE_GUID then Some Skip else None).
(** The last node of the path, when it was looked at and is that of a partition. *)
Definition partition_info (A h : Z) : option DevicePathNode :=
  if has A FILTERS_NEEDING_DEVICEPATH then
    let Partition := default end_node (last (snd (DevicePathOf h))) in
    if is_partition Partition then Some Partition else None
  else None.
Definition path_test (A : Z) (F : option SelectFilter) (h : Z) : option (option selection) :=
  if has A FILTERS_NEEDING_DEVICEPATH then
    let (Status, nodes) := DevicePathOf h in
    if EFI_ERROR Status then Some (Some Skip) else
    match root_test A F (default end_node (head nodes)) with
    | Some s => Some (Some s)
    | None =>
      if has A BLK_IO_SEL_SELECT_ROOT_DEVICE_ONLY && (1 <? Z.of_nat (length nodes)) then Some (Some Skip) else
      partition_test A F h (default end_node (last nodes))
    end
  else Some None.

Definition volume_test (A : Z) (F : option SelectFilter) (h : Z) : option selection :=
  if has A BLK_IO_SEL_SELECT_MOUNTED_FILESYSTEM then
    if EFI_ERROR (FileSystemOn h) then Some Skip else
    if has A BLK_IO_SEL_SELECT_BY_VOLUME_NAME then
      match F with
      | Some (mk_select_filter _ _ (Some VolumeName) _) =>
        if CompareVolumeLabel h VolumeName =? 0 then None else Some Skip
      | _ => Some (Stop EFI_INVALID_PARAMETER)
      end
    else None
  else None.

(** A label that is NULL is a fault, and so is a name that fills its array. *)
Definition label_test (A : Z) (F : option SelectFilter) (h : Z) : option (option selection) :=
  if has A BLK_IO_SEL_MATCH_PARTITION_LABEL then
    let (Status, PartEntry_) := PartitionRecordOf h in
    if negb (is_success Status) then Some (Some Skip) else
    Label ← F ≫= WantedLabel;
    Name ← c_string (PartitionName PartEntry_) 0;
    Some (if StrnCmp Name Label (Nat.max (StrLen Name) (StrLen Label)) =? 0 then None else Some Skip)
  else Some None.

Definition select (A : Z) (F : option SelectFilter) (h : Z) : option selection :=
  let (Status, blk) := BlockIoOf h in
  if bool_decide (Status = EFI_UNSUPPORTED) then Some Skip else
  if negb (is_success Status) then Some (Stop Status) else
  if negb (has A (if RemovableMedia h then BLK_IO_SEL_MEDIA_TYPE_REMOVABLE
                  else BLK_IO_SEL_MEDIA_TYPE_NON_REMOVABLE)) then Some Skip else
  path ← path_test A F h;
  match next_test path (volume_test A F h) with
  | Some s => Some s
  | None => label ← label_test A F h; Some (default (Take (mk_handle_out (mk_handle h (Some blk)) (partition_info A h))) label)
  end.

(** The handles written so far are [acc]; one is written before the room is looked at. *)
Fixpoint select_loop (A : Z) (F : option SelectFilter) (Max : nat) (hs : list Z) (acc : list handle_out)
  : option (EFI_STATUS * list handle_out) :=
  match hs with
  | [] => Some (EFI_SUCCESS, acc)
  | h :: hs' =>
    s ← select A F h;
    match s with
    | Stop Status => Some (Status, acc)
    | Skip => select_loop A F Max hs' acc
    | Take i =>
      let acc := acc ++ [i] in
      if (Max <=? length acc)%nat then Some (EFI_SUCCESS, acc) else select_loop A F Max hs' acc
    end
  end.
Definition GetBlkIOHandles (SelectionAttrib : Z) (FilterData : option SelectFilter) (Max : nat)
  : option (EFI_STATUS * list handle_out) :=
  let A := select_defaults SelectionAttrib in
  let (Status, hs) :=
    if has A (Z.lor BLK_IO_SEL_SELECT_MOUNTED_FILESYSTEM BLK_IO_SEL_SELECT_BY_VOLUME_NAME)
    then FileSystemHandles else BlockIoHandles in
  if negb (is_success Status) then Some (Status, []) else select_loop A FilterData Max hs [].
End handles.
