(* ===== verification/BlockHandlesSpec.v ===== *)
(** * Which block devices are chosen.

    [wanted] says what the code demands of a handle, [asked_for] what the header tells the
    caller; [GetBlkIOHandles_selects] shows that the search returns exactly the handles that
    are [wanted], in order, as many as there is room for, and for which attributes these are
    the ones [asked_for]. *)
From stdpp Require Import base numbers list option strings.
From Stdlib Require Import ZArith Lia.
From S2P Require Import Prelude BaseLib Unicode Storage Bytes BootImage BlockHandles.
Local Open Scope Z_scope.
#[local] Set Warnings "-clear-no-such-hyp".

Section spec.
Context {BL : BaseLib} {UL : UnicodeLib} {ULL : UnicodeLibLaws UL} {BD : BlockDevices}.
Implicit Types (A h : Z) (F : option SelectFilter).

(** ** What is wanted *)
Definition root_wanted A F (Root : DevicePathNode) : Prop :=
  has A (Z.lor BLK_IO_SEL_SELECT_ROOT_DEVICE_ONLY BLK_IO_SEL_MATCH_ROOT_DEVICE) = true ->
  exists f, F = Some f /\ dp_Type Root = HARDWARE_DEVICE_PATH /\ dp_SubType Root = HW_VENDOR_DP /\
    dp_Length Root = SIZEOF_VENDOR_DEVICE_PATH /\
    forall d, WantedRoot f = Some d -> take 16 (payload Root) = RootDeviceGuid d.
Definition type_wanted A F h : Prop :=
  has A BLK_IO_SEL_MATCH_PARTITION_TYPE_GUID = true ->
  exists f g, F = Some f /\ WantedType f = Some g /\
    (EFI_ERROR (TypeProtocolOn h g) = false \/
     EFI_ERROR (fst (PartitionTypeOf h)) = false /\ snd (PartitionTypeOf h) = g).
(** A node of a partition has a byte for the kind of its table, and that kind is asked for. *)
Definition table_wanted A (n : DevicePathNode) : Prop :=
  exists t, payload n !! OFFSET_MBRType = Some t /\
    (t = PARTITIONED_TYPE_GPT -> has A BLK_IO_SEL_PARTITIONED_GPT = true) /\
    (t = PARTITIONED_TYPE_MBR -> has A BLK_IO_SEL_PARTITIONED_MBR = true).
Definition path_wanted A F h : Prop :=
  has A FILTERS_NEEDING_DEVICEPATH = true ->
  exists Status nodes, DevicePathOf h = (Status, nodes) /\ EFI_ERROR Status = false /\
    root_wanted A F (default end_node (head nodes)) /\
    (has A BLK_IO_SEL_SELECT_ROOT_DEVICE_ONLY = true -> (length nodes <= 1)%nat) /\
    if is_partition (default end_node (last nodes))
    then table_wanted A (default end_node (last nodes)) /\ type_wanted A F h
    else has A BLK_IO_SEL_MATCH_PARTITION_TYPE_GUID = false.
Definition volume_wanted A F h : Prop :=
  has A BLK_IO_SEL_SELECT_MOUNTED_FILESYSTEM = true ->
  EFI_ERROR (FileSystemOn h) = false /\
  (has A BLK_IO_SEL_SELECT_BY_VOLUME_NAME = true ->
   exists f name, F = Some f /\ WantedVolume f = Some name /\ CompareVolumeLabel h name = 0).
Definition label_wanted A F h : Prop :=
  has A BLK_IO_SEL_MATCH_PARTITION_LABEL = true ->
  exists f label e, F = Some f /\ WantedLabel f = Some label /\
    PartitionRecordOf h = (EFI_SUCCESS, e) /\ c_string (PartitionName e) 0 = Some label.
Definition medium_wanted A h : Prop :=
  has A (if RemovableMedia h then BLK_IO_SEL_MEDIA_TYPE_REMOVABLE
         else BLK_IO_SEL_MEDIA_TYPE_NON_REMOVABLE) = true.
Definition wanted A F h (blk : EFI_BLOCK_IO_PROTOCOL) : Prop :=
  BlockIoOf h = (EFI_SUCCESS, blk) /\ medium_wanted A h /\ path_wanted A F h /\
  volume_wanted A F h /\ label_wanted A F h.

(** ** What the header promises: a volume name that is asked for is the one of the handle,
    whether or not mounted file systems are asked for too. *)
Definition asked_for A F h (blk : EFI_BLOCK_IO_PROTOCOL) : Prop :=
  BlockIoOf h = (EFI_SUCCESS, blk) /\ medium_wanted A h /\ path_wanted A F h /\
  (has A BLK_IO_SEL_SELECT_MOUNTED_FILESYSTEM = true -> EFI_ERROR (FileSystemOn h) = false) /\
  (has A BLK_IO_SEL_SELECT_BY_VOLUME_NAME = true ->
   exists f name, F = Some f /\ WantedVolume f = Some name /\ CompareVolumeLabel h name = 0) /\
  label_wanted A F h.
(** The attributes for which the code keeps the promise: no volume name without mounted
    file systems, and labels compared as they are. *)
Definition honoured A : Prop :=
  (has A BLK_IO_SEL_SELECT_BY_VOLUME_NAME = true -> has A BLK_IO_SEL_SELECT_MOUNTED_FILESYSTEM = true) /\
  has A BLK_IO_SEL_STRING_CASE_INSENSITIVE = false.
Lemma wanted_asked_for A F h blk : honoured A -> wanted A F h blk <-> asked_for A F h blk.
Proof.
  intros [Hv _]. unfold wanted, asked_for, volume_wanted.
  destruct (has A BLK_IO_SEL_SELECT_MOUNTED_FILESYSTEM), (has A BLK_IO_SEL_SELECT_BY_VOLUME_NAME); naive_solver.
Qed.

(** ** The tests decide it *)
Lemma root_test_None A F n : root_test A F n = None <-> root_wanted A F n.
Proof.
  unfold root_test, root_wanted. destruct has; [|naive_solver].
  destruct F as [f|]; [|naive_solver].
  unfold root_matches. split.
  - intros H _. exists f. split; [done|].
    repeat (apply orb_prop in H || case_match); try done;
      repeat match goal with E : _ && _ = true |- _ => apply andb_true_iff in E as [? ?] end;
      rewrite ?Z.eqb_eq in *; repeat split; try done; intros d' Hd; simplify_eq;
      by eapply bool_decide_eq_true_1.
  - intros (f' & [= <-] & -> & -> & -> & Hd); [done|]. rewrite !Z.eqb_refl. cbn [andb].
    destruct (WantedRoot f) as [d|]; [|done]. by rewrite bool_decide_true by auto.
Qed.
Lemma type_test_None A F h : type_test A F h = None <-> type_wanted A F h.
Proof.
  unfold type_test, type_wanted. destruct has; [|naive_solver].
  destruct F as [[? [g|] ? ?]|]; cbn; try naive_solver.
  destruct (EFI_ERROR (TypeProtocolOn h g)) eqn:E1.
  - destruct (PartitionTypeOf h) as [Status t]. destruct (EFI_ERROR Status) eqn:E2; [naive_solver congruence|].
    case_bool_decide; [naive_solver|]. split; [done|]. intros (? & ? & [= <-] & [= <-] & [?|[_ ?]]); [done|congruence|done].
  - split; [intros _ _; eexists _, g; repeat split; by left|done].
Qed.
Lemma volume_test_None A F h : volume_test A F h = None <-> volume_wanted A F h.
Proof.
  unfold volume_test, volume_wanted. destruct has; [|naive_solver].
  destruct (EFI_ERROR (FileSystemOn h)); [naive_solver|].
  destruct has; [|naive_solver].
  destruct F as [[? ? [v|] ?]|]; cbn; try naive_solver.
  destruct (CompareVolumeLabel h v =? 0) eqn:E; [apply Z.eqb_eq in E|apply Z.eqb_neq in E]; naive_solver.
Qed.
Lemma names_equal (s t : list Z) : (StrnCmp s t (StrLen s `max` StrLen t) =? 0) = bool_decide (s = t).
Proof. rewrite StrnCmp_eqb, !StrLen_law, !take_ge by lia. done. Qed.
Lemma label_test_None A F h : label_test A F h = Some None <-> label_wanted A F h.
Proof.
  unfold label_test, label_wanted. destruct has; [|naive_solver].
  destruct (PartitionRecordOf h) as [Status e].
  destruct Status; cbn [is_success negb]; try (split; [done|naive_solver]).
  destruct (F ≫= WantedLabel) as [label|] eqn:EF; cbn [mbind option_bind].
  2:{ split; [done|]. intros (f & l & ? & -> & Hl & _); [done|]. cbn in EF. congruence. }
  apply bind_Some in EF as (f & -> & Hl).
  destruct (c_string (PartitionName e) 0) as [name|] eqn:EN; cbn [mbind option_bind]; [|naive_solver].
  rewrite names_equal. case_bool_decide; naive_solver congruence.
Qed.
Lemma partition_test_None A F h n :
  partition_test A F h n = Some None <->
  if is_partition n then table_wanted A n /\ type_wanted A F h
  else has A BLK_IO_SEL_MATCH_PARTITION_TYPE_GUID = false.
Proof.
  unfold partition_test, table_wanted. destruct is_partition; [|destruct has; naive_solver].
  rewrite <- type_test_None.
  destruct (payload n !! OFFSET_MBRType) as [t|]; cbn [mbind option_bind]; [|naive_solver].
  destruct (Z.eqb_spec t PARTITIONED_TYPE_GPT) as [Eg|Ng], (Z.eqb_spec t PARTITIONED_TYPE_MBR) as [Em|Nm];
    destruct (has A BLK_IO_SEL_PARTITIONED_GPT), (has A BLK_IO_SEL_PARTITIONED_MBR); cbn [negb andb];
    (split; [intros E; simplify_eq; try (split; [eexists; repeat split; congruence|congruence])|
             intros ((t' & [= <-] & Hg & Hm) & Hty); try discriminate (Hg Eg); try discriminate (Hm Em); congruence]).
Qed.
Lemma path_test_None A F h : path_test A F h = Some None <-> path_wanted A F h.
Proof.
  unfold path_test, path_wanted. destruct (has A FILTERS_NEEDING_DEVICEPATH); [|naive_solver].
  destruct (DevicePathOf h) as [Status nodes]. destruct (EFI_ERROR Status) eqn:ES.
  { split; [done|naive_solver congruence]. }
  pose proof (root_test_None A F (default end_node (head nodes))) as Hr.
  pose proof (partition_test_None A F h (default end_node (last nodes))) as Hp.
  destruct (root_test A F _) as [s|].
  { split; [done|]. intros (S' & n' & [= <- <-] & _ & Hw & _); [done|]. by apply Hr in Hw. }
  destruct (has A BLK_IO_SEL_SELECT_ROOT_DEVICE_ONLY); cbn [andb].
  - destruct (Z.ltb_spec 1 (Z.of_nat (length nodes))).
    + split; [done|]. intros (? & ? & [= <- <-] & _ & _ & Hl & _); [done|]. specialize (Hl eq_refl). lia.
    + rewrite Hp. split; [intros ? _; do 2 eexists; naive_solver lia|naive_solver].
  - rewrite Hp. split; [intros ? _; do 2 eexists; naive_solver|naive_solver].
Qed.

(** ** The search *)
Definition chosen A F h : option handle_out :=
  match select A F h with Some (Take i) => Some i | _ => None end.

(** The tests only ever stop or skip. *)
Ltac no_take := repeat case_match; simplify_eq; done.
Lemma root_test_Take A F n i : root_test A F n <> Some (Take i).
Proof. unfold root_test. no_take. Qed.
Lemma type_test_Take A F h i : type_test A F h <> Some (Take i).
Proof. unfold type_test. no_take. Qed.
Lemma volume_test_Take A F h i : volume_test A F h <> Some (Take i).
Proof. unfold volume_test. no_take. Qed.
Lemma label_test_Take A F h i : label_test A F h <> Some (Some (Take i)).
Proof.
  unfold label_test. destruct has; [|done]. destruct PartitionRecordOf as [S e].
  destruct (negb _); [done|].
  destruct (F ≫= WantedLabel); cbn [mbind option_bind]; [|done].
  destruct c_string; cbn [mbind option_bind]; [|done]. no_take.
Qed.
Lemma path_test_Take A F h i : path_test A F h <> Some (Some (Take i)).
Proof.
  unfold path_test, partition_test. destruct has; [|done]. destruct DevicePathOf as [S n].
  destruct (EFI_ERROR S); [done|].
  destruct (root_test A F _) eqn:E; [intros [= ->]; by apply root_test_Take in E|].
  destruct (_ && _); [done|]. destruct is_partition; [|destruct has; done].
  destruct (_ !! _); cbn [mbind option_bind]; [|done].
  destruct (_ && _); [done|]. destruct (_ && _); [done|].
  intros [= E']. by apply type_test_Take in E'.
Qed.

Lemma chosen_wanted A F h i :
  chosen A F h = Some i <->
    exists blk, i = mk_handle_out (mk_handle h (Some blk)) (partition_info A h) /\ wanted A F h blk.
Proof.
  unfold chosen, select, wanted, medium_wanted.
  destruct (BlockIoOf h) as [Status blk].
  destruct Status; cbn [is_success negb bool_decide decide decide_rel];
    try (split; [done|naive_solver]).
  destruct (has A _); cbn [negb]; [|naive_solver].
  pose proof (path_test_None A F h) as Hp. pose proof (path_test_Take A F h i) as Tp.
  pose proof (volume_test_None A F h) as Hv. pose proof (volume_test_Take A F h i) as Tv.
  pose proof (label_test_None A F h) as Hl. pose proof (label_test_Take A F h i) as Tl.
  destruct (path_test A F h) as [[s|]|]; cbn [mbind option_bind next_test].
  1: destruct s; naive_solver.
  2: naive_solver.
  destruct (volume_test A F h) as [s|]; [destruct s; naive_solver|].
  destruct (label_test A F h) as [[s|]|]; cbn [mbind option_bind default]; [destruct s| |]; naive_solver.
Qed.

(** What the drivers see to: a partition node is complete, a name ends in its array. *)
Record handle_ok h : Prop := mk_handle_ok {
  ok_io : is_success (fst (BlockIoOf h)) = true \/ fst (BlockIoOf h) = EFI_UNSUPPORTED;
  ok_node : forall n, n = default end_node (last (snd (DevicePathOf h))) ->
    is_partition n = true -> is_Some (payload n !! OFFSET_MBRType);
  ok_name : is_Some (c_string (PartitionName (snd (PartitionRecordOf h))) 0)
}.
(** What is asked for is in the filter. *)
Record filter_given A F : Prop := mk_filter_given {
  given_root : has A (Z.lor BLK_IO_SEL_SELECT_ROOT_DEVICE_ONLY BLK_IO_SEL_MATCH_ROOT_DEVICE) = true -> is_Some F;
  given_type : has A BLK_IO_SEL_MATCH_PARTITION_TYPE_GUID = true -> is_Some (F ≫= WantedType);
  given_volume : has A BLK_IO_SEL_SELECT_BY_VOLUME_NAME = true -> is_Some (F ≫= WantedVolume);
  given_label : has A BLK_IO_SEL_MATCH_PARTITION_LABEL = true -> is_Some (F ≫= WantedLabel)
}.

Lemma root_test_go A F n : filter_given A F -> root_test A F n = None \/ root_test A F n = Some Skip.
Proof.
  intros G. unfold root_test. pose proof (given_root _ _ G) as H. destruct has; [|by left].
  destruct (H eq_refl) as [f ->]. destruct root_matches; auto.
Qed.
Lemma type_test_go A F h : filter_given A F -> type_test A F h = None \/ type_test A F h = Some Skip.
Proof.
  intros G. unfold type_test. pose proof (given_type _ _ G) as H. destruct has; [|by left].
  destruct (H eq_refl) as [g Hg]. apply bind_Some in Hg as ([? ? ? ?] & -> & E). cbn in E. subst.
  repeat case_match; auto.
Qed.
Lemma volume_test_go A F h : filter_given A F -> volume_test A F h = None \/ volume_test A F h = Some Skip.
Proof.
  intros G. unfold volume_test. pose proof (given_volume _ _ G) as H.
  destruct (has A BLK_IO_SEL_SELECT_MOUNTED_FILESYSTEM); [|by left].
  destruct (EFI_ERROR _); [by right|]. destruct (has A BLK_IO_SEL_SELECT_BY_VOLUME_NAME); [|by left].
  destruct (H eq_refl) as [g Hg]. apply bind_Some in Hg as ([? ? ? ?] & -> & E). cbn in E. subst.
  case_match; auto.
Qed.
Lemma label_test_go A F h :
  filter_given A F -> handle_ok h -> label_test A F h = Some None \/ label_test A F h = Some (Some Skip).
Proof.
  intros G O. unfold label_test. pose proof (given_label _ _ G) as H. destruct has; [|by left].
  destruct (ok_name _ O) as [s Hs]. destruct (PartitionRecordOf h) as [S e]. cbn [snd] in Hs.
  destruct (negb _); [by right|].
  destruct (H eq_refl) as [g ->]. cbn [mbind option_bind]. rewrite Hs. cbn [mbind option_bind].
  case_match; auto.
Qed.
Lemma path_test_go A F h :
  filter_given A F -> handle_ok h -> path_test A F h = Some None \/ path_test A F h = Some (Some Skip).
Proof.
  intros G O. unfold path_test. destruct has; [|by left].
  pose proof (ok_node _ O) as Hn. destruct (DevicePathOf h) as [S nodes]. cbn [snd] in Hn.
  destruct (EFI_ERROR S); [by right|].
  destruct (root_test_go A F (default end_node (head nodes)) G) as [-> | ->]; [|by right].
  destruct (_ && _); [by right|]. unfold partition_test. specialize (Hn _ eq_refl).
  destruct is_partition; [|destruct has; auto].
  destruct (Hn eq_refl) as [t ->]. cbn [mbind option_bind].
  destruct (_ && _); [by right|]. destruct (_ && _); [by right|].
  destruct (type_test_go A F h G) as [-> | ->]; auto.
Qed.
Lemma select_go A F h :
  filter_given A F -> handle_ok h ->
  select A F h = Some (match chosen A F h with Some i => Take i | None => Skip end).
Proof.
  intros G O. unfold chosen, select. pose proof (ok_io _ O) as Hio.
  destruct (BlockIoOf h) as [Status blk]. cbn [fst] in Hio.
  destruct Status; cbn [is_success negb bool_decide decide decide_rel]; try (by destruct Hio).
  destruct (has A _); cbn [negb]; [|done].
  destruct (path_test_go A F h G O) as [-> | ->]; cbn [mbind option_bind next_test]; [|done].
  destruct (volume_test_go A F h G) as [-> | ->]; [|done].
  by destruct (label_test_go A F h G O) as [-> | ->].
Qed.
Lemma select_loop_take A F Max hs acc :
  filter_given A F -> Forall handle_ok hs -> (length acc < Max)%nat ->
  select_loop A F Max hs acc = Some (EFI_SUCCESS, acc ++ take (Max - length acc) (omap (chosen A F) hs)).
Proof.
  intros G O. revert acc. induction O as [|h hs Oh O IH]; intros acc Hl; cbn [select_loop].
  { cbn [omap list_omap]. by rewrite take_nil, app_nil_r. }
  rewrite (select_go A F h G Oh). cbn [mbind option_bind omap list_omap].
  destruct (chosen A F h) as [i|]; [|by apply IH].
  destruct (Nat.leb_spec Max (length (acc ++ [i]))) as [H|H]; rewrite length_app in H; cbn [length] in H.
  - replace (Max - length acc)%nat with 1%nat by lia. cbn [take]. by rewrite take_0.
  - rewrite IH by (rewrite length_app; cbn [length]; lia). rewrite length_app, <- app_assoc. cbn [length].
    replace (Max - length acc)%nat with (S (Max - (length acc + 1))) by lia. done.
Qed.


(** ** The interfaces of the other components *)
Lemma select_loop_length A F Max hs acc Status l :
  (length acc < Max)%nat -> select_loop A F Max hs acc = Some (Status, l) -> (length l <= Max)%nat.
Proof.
  revert acc. induction hs as [|h hs IH]; intros acc Hl; cbn [select_loop]; [intros [= <- <-]; lia|].
  destruct (select A F h) as [[S| |i]|]; cbn [mbind option_bind]; [intros [= <- <-]; lia|by apply IH| |done].
  destruct (Nat.leb_spec Max (length (acc ++ [i]))) as [H|H]; [|by apply IH].
  intros [= <- <-]. rewrite length_app in *. cbn [length] in *. lia.
Qed.
Lemma GetBlkIOHandles_length A F Max Status l :
  (0 < Max)%nat -> GetBlkIOHandles A F Max = Some (Status, l) -> (length l <= Max)%nat.
Proof.
  intros Hm. unfold GetBlkIOHandles. case_match. destruct (negb _); [intros [= <- <-]; cbn; lia|].
  by apply select_loop_length.
Qed.
End spec.

(** A fault, which [GetBlkIOHandles_selects] excludes, has no answer of its own there. *)
Definition answer (r : option (EFI_STATUS * list handle_out)) : EFI_STATUS * list HandleInfo :=
  let (Status, l) := default (EFI_LOAD_ERROR, []) r in (Status, map out_info l).
Definition firmware_of {UL : UnicodeLib} {BD : BlockDevices} (FW : Firmware) : Firmware := {|
  Storage.GetBlkIOHandles A f n :=
    answer (GetBlkIOHandles A (Some (mk_select_filter (RootDeviceType f) (PartitionType f) None None)) n);
  LocateMemCardInfo := LocateMemCardInfo; GetCardInfo := GetCardInfo; MemCardInfoOn := MemCardInfoOn;
  GetBootLU := GetBootLU; EraseBlockProtocol := EraseBlockProtocol; PartitionRecord := PartitionRecordOf;
  EventStatus := EventStatus; ReadBlocks := ReadBlocks; CalculateCrc32 := CalculateCrc32;
  PoolAvailable := PoolAvailable; gEfiMiscPartitionGuid := gEfiMiscPartitionGuid;
  LocateNandPartiGuid := LocateNandPartiGuid; GenMiscGuid := GenMiscGuid
|}.
#[export] Instance labelled_of {UL : UnicodeLib} {BD : BlockDevices} : LabelledPartitions := {|
  GetBlkIOHandlesByLabel A Label n := answer (GetBlkIOHandles A (Some (mk_select_filter None None None (Some Label))) n)
|}.
Lemma firmware_of_laws {UL : UnicodeLib} {BD : BlockDevices} (FW : Firmware) :
  FirmwareLaws FW -> FirmwareLaws (firmware_of FW).
Proof.
  intros L. split; cbn [Storage.GetBlkIOHandles ReadBlocks CalculateCrc32 firmware_of].
  - intros a f n Hn. unfold answer. destruct GetBlkIOHandles as [[S l]|] eqn:E; cbn; [|lia].
    rewrite length_map. by eapply GetBlkIOHandles_length in E.
  - apply L.
  - apply L.
Qed.

(** ** An example: a UFS device with two partitions, and a stick with a partition of the
    same name in front of them. *)
Definition demo_root_guid : EFI_GUID := repeat 7 16.
Definition demo_vendor : DevicePathNode := mk_node HARDWARE_DEVICE_PATH HW_VENDOR_DP SIZEOF_VENDOR_DEVICE_PATH demo_root_guid.
Definition demo_gpt : DevicePathNode :=
  mk_node MEDIA_DEVICE_PATH MEDIA_HARDDRIVE_DP SIZEOF_HARDDRIVE_DEVICE_PATH (repeat 0 36 ++ [PARTITIONED_TYPE_GPT; 2]).
Definition demo_record (name : list Z) : EFI_PARTITION_ENTRY :=
  mk_part (repeat 0 16) (repeat 0 16) 0 0 0 (name ++ [0]).
Definition demo_BlockDevices : BlockDevices := {|
  BlockIoHandles := (EFI_SUCCESS, [1; 2; 3; 4; 5]); FileSystemHandles := (EFI_NOT_FOUND, []);
  BlockIoOf h := if h =? 2 then (EFI_UNSUPPORTED, mk_blkio 0 0 0 0) else (EFI_SUCCESS, mk_blkio h 0 4096 255);
  RemovableMedia h := h =? 1;
  DevicePathOf h := (EFI_SUCCESS, if h =? 3 then [demo_vendor] else [demo_vendor; demo_gpt]);
  TypeProtocolOn _ _ := EFI_UNSUPPORTED; PartitionTypeOf _ := (EFI_NOT_FOUND, []); FileSystemOn _ := EFI_NOT_FOUND;
  OpenVolume _ := EFI_NOT_FOUND; VolumeInfo _ := (EFI_NOT_FOUND, EFI_NOT_FOUND, []);
  PartitionRecordOf h :=
    (if h =? 3 then EFI_NOT_FOUND else EFI_SUCCESS, demo_record (bytes (if h =? 5 then "dtbo_a" else "boot_a")));
  RootDeviceGuid d := if decide (d = gEfiUfsLUGuid 0) then demo_root_guid else []
|}.
Definition demo_label_query : Z :=
  Z.lor (Z.lor (Z.lor BLK_IO_SEL_PARTITIONED_MBR BLK_IO_SEL_PARTITIONED_GPT)
    BLK_IO_SEL_MEDIA_TYPE_NON_REMOVABLE) BLK_IO_SEL_MATCH_PARTITION_LABEL.
Lemma demo_handles_ok : Forall (handle_ok (BD := demo_BlockDevices)) [1; 2; 3; 4; 5].
Proof.
  repeat apply Forall_cons_2; [..|apply Forall_nil_2].
  all: split; [vm_compute; auto|intros n -> Hp; vm_compute in Hp; first [discriminate Hp|by vm_compute; eexists]|
               by vm_compute; eexists].
Qed.

Definition demo_filter : option SelectFilter := Some (mk_select_filter None None None (Some (bytes "boot_a"))).
Definition demo_attributes : Z := select_defaults demo_label_query.
