(* ===== verification/AvbOps.v ===== *)
(** * The operations of verified boot.

    [Platforms/QcomModulePkg/Library/avb/libavb/avb_ops.c], what libavb asks the boot
    loader for: reading partitions, trusting keys, rollback indices, names and sizes of
    partitions; [OEMPublicKey.h]; and the decision about rollback indices of
    [avb_util.c]. *)
From stdpp Require Import base numbers list option strings.
From Stdlib Require Import ZArith Lia Ascii.
From S2P Require Import Prelude BaseLib Unicode Storage Bytes Partitions Slots Flash DeviceInfo BootImage.
Local Open Scope Z_scope.

(** ** avb_ops.h *)
Inductive AvbIOResult :=
| AVB_IO_RESULT_OK
| AVB_IO_RESULT_ERROR_OOM
| AVB_IO_RESULT_ERROR_IO
| AVB_IO_RESULT_ERROR_NO_SUCH_PARTITION
| AVB_IO_RESULT_ERROR_RANGE_OUTSIDE_PARTITION.
#[export] Instance AvbIOResult_eq_dec : EqDecision AvbIOResult.
Proof. solve_decision. Defined.

(** What the operations note for the boot loader; [PublicKey] is an array. *)
Record AvbOpsUserData := mk_user_data {
  IsUserKey : bool;
  IsMultiSlot : bool;
  PublicKeyLen : Z;
  PublicKey : list Z
}.
(** [avb_calloc]. *)
Definition zero_user_data : AvbOpsUserData := mk_user_data false false 0 (repeat 0 MAX_USER_KEY_SIZE).
Definition set_IsMultiSlot (x : bool) (u : AvbOpsUserData) : AvbOpsUserData :=
  mk_user_data (IsUserKey u) x (PublicKeyLen u) (PublicKey u).
Definition set_IsUserKey (x : bool) (u : AvbOpsUserData) : AvbOpsUserData :=
  mk_user_data x (IsMultiSlot u) (PublicKeyLen u) (PublicKey u).
Definition set_PublicKey (key : list Z) (len : Z) (u : AvbOpsUserData) : AvbOpsUserData :=
  mk_user_data (IsUserKey u) (IsMultiSlot u) len key.

(** ** OEMPublicKey.h *)
Definition OEMPublicKey : list Z :=
  [0x00; 0x00; 0x10; 0x00; 0x55; 0xd9; 0x04; 0xad; 0xd8; 0x04; 0xaf; 0xe3; 0xd3; 0x84; 0x6c; 0x7e; 0x0d; 0x89; 0x3d; 0xc2; 0x8c; 0xd3; 0x12; 0x55;
   0xe9; 0x62; 0xc9; 0xf1; 0x0f; 0x5e; 0xcc; 0x16; 0x72; 0xab; 0x44; 0x7c; 0x2c; 0x65; 0x4a; 0x94; 0xb5; 0x16; 0x2b; 0x00; 0xbb; 0x06; 0xef; 0x13;
   0x07; 0x53; 0x4c; 0xf9; 0x64; 0xb9; 0x28; 0x7a; 0x1b; 0x84; 0x98; 0x88; 0xd8; 0x67; 0xa4; 0x23; 0xf9; 0xa7; 0x4b; 0xdc; 0x4a; 0x0f; 0xf7; 0x3a;
   0x18; 0xae; 0x54; 0xa8; 0x15; 0xfe; 0xb0; 0xad; 0xac; 0x35; 0xda; 0x3b; 0xad; 0x27; 0xbc; 0xaf; 0xe8; 0xd3; 0x2f; 0x37; 0x34; 0xd6; 0x51; 0x2b;
   0x6c; 0x5a; 0x27; 0xd7; 0x96; 0x06; 0xaf; 0x6b; 0xb8; 0x80; 0xca; 0xfa; 0x30; 0xb4; 0xb1; 0x85; 0xb3; 0x4d; 0xaa; 0xaa; 0xc3; 0x16; 0x34; 0x1a;
   0xb8; 0xe7; 0xc7; 0xfa; 0xf9; 0x09; 0x77; 0xab; 0x97; 0x93; 0xeb; 0x44; 0xae; 0xcf; 0x20; 0xbc; 0xf0; 0x80; 0x11; 0xdb; 0x23; 0x0c; 0x47; 0x71;
   0xb9; 0x6d; 0xd6; 0x7b; 0x60; 0x47; 0x87; 0x16; 0x56; 0x93; 0xb7; 0xc2; 0x2a; 0x9a; 0xb0; 0x4c; 0x01; 0x0c; 0x30; 0xd8; 0x93; 0x87; 0xf0; 0xed;
   0x6e; 0x8b; 0xbe; 0x30; 0x5b; 0xf6; 0xa6; 0xaf; 0xdd; 0x80; 0x7c; 0x45; 0x5e; 0x8f; 0x91; 0x93; 0x5e; 0x44; 0xfe; 0xb8; 0x82; 0x07; 0xee; 0x79;
   0xca; 0xbf; 0x31; 0x73; 0x62; 0x58; 0xe3; 0xcd; 0xc4; 0xbc; 0xc2; 0x11; 0x1d; 0xa1; 0x4a; 0xbf; 0xfe; 0x27; 0x7d; 0xa1; 0xf6; 0x35; 0xa3; 0x5e;
   0xca; 0xdc; 0x57; 0x2f; 0x3e; 0xf0; 0xc9; 0x5d; 0x86; 0x6a; 0xf8; 0xaf; 0x66; 0xa7; 0xed; 0xcd; 0xb8; 0xed; 0xa1; 0x5f; 0xba; 0x9b; 0x85; 0x1a;
   0xd5; 0x09; 0xae; 0x94; 0x4e; 0x3b; 0xcf; 0xcb; 0x5c; 0xc9; 0x79; 0x80; 0xf7; 0xcc; 0xa6; 0x4a; 0xa8; 0x6a; 0xd8; 0xd3; 0x31; 0x11; 0xf9; 0xf6;
   0x02; 0x63; 0x2a; 0x1a; 0x2d; 0xd1; 0x1a; 0x66; 0x1b; 0x16; 0x41; 0xbd; 0xbd; 0xf7; 0x4d; 0xc0; 0x4a; 0xe5; 0x27; 0x49; 0x5f; 0x7f; 0x58; 0xe3;
   0x27; 0x2d; 0xe5; 0xc9; 0x66; 0x0e; 0x52; 0x38; 0x16; 0x38; 0xfb; 0x16; 0xeb; 0x53; 0x3f; 0xe6; 0xfd; 0xe9; 0xa2; 0x5e; 0x25; 0x59; 0xd8; 0x79;
   0x45; 0xff; 0x03; 0x4c; 0x26; 0xa2; 0x00; 0x5a; 0x8e; 0xc2; 0x51; 0xa1; 0x15; 0xf9; 0x7b; 0xf4; 0x5c; 0x81; 0x9b; 0x18; 0x47; 0x35; 0xd8; 0x2d;
   0x05; 0xe9; 0xad; 0x0f; 0x35; 0x74; 0x15; 0xa3; 0x8e; 0x8b; 0xcc; 0x27; 0xda; 0x7c; 0x5d; 0xe4; 0xfa; 0x04; 0xd3; 0x05; 0x0b; 0xba; 0x3a; 0xb2;
   0x49; 0x45; 0x2f; 0x47; 0xc7; 0x0d; 0x41; 0x3f; 0x97; 0x80; 0x4d; 0x3f; 0xc1; 0xb5; 0xbb; 0x70; 0x5f; 0xa7; 0x37; 0xaf; 0x48; 0x22; 0x12; 0x45;
   0x2e; 0xf5; 0x0f; 0x87; 0x92; 0xe2; 0x84; 0x01; 0xf9; 0x12; 0x0f; 0x14; 0x15; 0x24; 0xce; 0x89; 0x99; 0xee; 0xb9; 0xc4; 0x17; 0x70; 0x70; 0x15;
   0xea; 0xbe; 0xc6; 0x6c; 0x1f; 0x62; 0xb3; 0xf4; 0x2d; 0x16; 0x87; 0xfb; 0x56; 0x1e; 0x45; 0xab; 0xae; 0x32; 0xe4; 0x5e; 0x91; 0xed; 0x53; 0x66;
   0x5e; 0xbd; 0xed; 0xad; 0xe6; 0x12; 0x39; 0x0d; 0x83; 0xc9; 0xe8; 0x6b; 0x6c; 0x2d; 0xa5; 0xee; 0xc4; 0x5a; 0x66; 0xae; 0x8c; 0x97; 0xd7; 0x0d;
   0x6c; 0x49; 0xc7; 0xf5; 0xc4; 0x92; 0x31; 0x8b; 0x09; 0xee; 0x33; 0xda; 0xa9; 0x37; 0xb6; 0x49; 0x18; 0xf8; 0x0e; 0x60; 0x45; 0xc8; 0x33; 0x91;
   0xef; 0x20; 0x57; 0x10; 0xbe; 0x78; 0x2d; 0x83; 0x26; 0xd6; 0xca; 0x61; 0xf9; 0x2f; 0xe0; 0xbf; 0x05; 0x30; 0x52; 0x5a; 0x12; 0x1c; 0x00; 0xa7;
   0x5d; 0xcc; 0x7c; 0x2e; 0xc5; 0x95; 0x8b; 0xa3; 0x3b; 0xf0; 0x43; 0x2e; 0x5e; 0xdd; 0x00; 0xdb; 0x0d; 0xb3; 0x37; 0x99; 0xa9; 0xcd; 0x9c; 0xb7;
   0x43; 0xf7; 0x35; 0x44; 0x21; 0xc2; 0x82; 0x71; 0xab; 0x8d; 0xaa; 0xb4; 0x41; 0x11; 0xec; 0x1e; 0x8d; 0xfc; 0x14; 0x82; 0x92; 0x4e; 0x83; 0x6a;
   0x0a; 0x6b; 0x35; 0x5e; 0x5d; 0xe9; 0x5c; 0xcc; 0x8c; 0xde; 0x39; 0xd1; 0x4a; 0x5b; 0x5f; 0x63; 0xa9; 0x64; 0xe0; 0x0a; 0xcb; 0x0b; 0xb8; 0x5a;
   0x7c; 0xc3; 0x0b; 0xe6; 0xbe; 0xfe; 0x8b; 0x0f; 0x7d; 0x34; 0x8e; 0x02; 0x66; 0x74; 0x01; 0x6c; 0xca; 0x76; 0xac; 0x7c; 0x67; 0x08; 0x2f; 0x3f;
   0x1a; 0xa6; 0x2c; 0x60; 0xb3; 0xff; 0xda; 0x8d; 0xb8; 0x12; 0x0c; 0x00; 0x7f; 0xcc; 0x50; 0xa1; 0x5c; 0x64; 0xa1; 0xe2; 0x5f; 0x32; 0x65; 0xc9;
   0x9c; 0xbe; 0xd6; 0x0a; 0x13; 0x87; 0x3c; 0x2a; 0x45; 0x47; 0x0c; 0xca; 0x42; 0x82; 0xfa; 0x89; 0x65; 0xe7; 0x89; 0xb4; 0x8f; 0xf7; 0x1e; 0xe6;
   0x23; 0xa5; 0xd0; 0x59; 0x37; 0x79; 0x92; 0xd7; 0xce; 0x3d; 0xfd; 0xe3; 0xa1; 0x0b; 0xcf; 0x6c; 0x85; 0xa0; 0x65; 0xf3; 0x5c; 0xc6; 0x4a; 0x63;
   0x5f; 0x6e; 0x3a; 0x3a; 0x2a; 0x8b; 0x6a; 0xb6; 0x2f; 0xbb; 0xf8; 0xb2; 0x4b; 0x62; 0xbc; 0x1a; 0x91; 0x25; 0x66; 0xe3; 0x69; 0xca; 0x60; 0x49;
   0x0b; 0xf6; 0x8a; 0xbe; 0x3e; 0x76; 0x53; 0xc2; 0x7a; 0xa8; 0x04; 0x17; 0x75; 0xf1; 0xf3; 0x03; 0x62; 0x1b; 0x85; 0xb2; 0xb0; 0xef; 0x80; 0x15;
   0xb6; 0xd4; 0x4e; 0xdf; 0x71; 0xac; 0xdb; 0x2a; 0x04; 0xd4; 0xb4; 0x21; 0xba; 0x65; 0x56; 0x57; 0xe8; 0xfa; 0x84; 0xa2; 0x7d; 0x13; 0x0e; 0xaf;
   0xd7; 0x9a; 0x58; 0x2a; 0xa3; 0x81; 0x84; 0x8d; 0x09; 0xa0; 0x6a; 0xc1; 0xbb; 0xd9; 0xf5; 0x86; 0xac; 0xbd; 0x75; 0x61; 0x09; 0xe6; 0x8c; 0x3d;
   0x77; 0xb2; 0xed; 0x30; 0x20; 0xe4; 0x00; 0x1d; 0x97; 0xe8; 0xbf; 0xc7; 0x00; 0x1b; 0x21; 0xb1; 0x16; 0xe7; 0x41; 0x67; 0x2e; 0xec; 0x38; 0xbc;
   0xe5; 0x1b; 0xb4; 0x06; 0x23; 0x31; 0x71; 0x1c; 0x49; 0xcd; 0x76; 0x4a; 0x76; 0x36; 0x8d; 0xa3; 0x89; 0x8b; 0x4a; 0x7a; 0xf4; 0x87; 0xc8; 0x15;
   0x0f; 0x37; 0x39; 0xf6; 0x6d; 0x80; 0x19; 0xef; 0x5c; 0xa8; 0x66; 0xce; 0x1b; 0x16; 0x79; 0x21; 0xdf; 0xd7; 0x31; 0x30; 0xc4; 0x21; 0xdd; 0x34;
   0x5b; 0xd2; 0x1a; 0x2b; 0x3e; 0x5d; 0xf7; 0xea; 0xca; 0x05; 0x8e; 0xb7; 0xcb; 0x49; 0x2e; 0xa0; 0xe3; 0xf4; 0xa7; 0x48; 0x19; 0x10; 0x9c; 0x04;
   0xa7; 0xf4; 0x28; 0x74; 0xc8; 0x6f; 0x63; 0x20; 0x2b; 0x46; 0x24; 0x26; 0x19; 0x1d; 0xd1; 0x2c; 0x31; 0x6d; 0x5a; 0x29; 0xa2; 0x06; 0xa6; 0xb2;
   0x41; 0xcc; 0x0a; 0x27; 0x96; 0x09; 0x96; 0xac; 0x47; 0x65; 0x78; 0x68; 0x51; 0x98; 0xd6; 0xd8; 0xa6; 0x2d; 0xa0; 0xcf; 0xec; 0xe2; 0x74; 0xf2;
   0x82; 0xe3; 0x97; 0xd9; 0x7e; 0xd4; 0xf8; 0x0b; 0x70; 0x43; 0x3d; 0xb1; 0x7b; 0x97; 0x80; 0xd6; 0xcb; 0xd7; 0x19; 0xbc; 0x63; 0x0b; 0xfd; 0x4d;
   0x88; 0xfe; 0x67; 0xac; 0xb8; 0xcc; 0x50; 0xb7; 0x68; 0xb3; 0x5b; 0xd6; 0x1e; 0x25; 0xfc; 0x5f; 0x3c; 0x8d; 0xb1; 0x33; 0x7c; 0xb3; 0x49; 0x01;
   0x3f; 0x71; 0x55; 0x0e; 0x51; 0xba; 0x61; 0x26; 0xfa; 0xea; 0xe5; 0xb5; 0xe8; 0xaa; 0xcf; 0xcd; 0x96; 0x9f; 0xd6; 0xc1; 0x5f; 0x53; 0x91; 0xad;
   0x05; 0xde; 0x20; 0xe7; 0x51; 0xda; 0x5b; 0x95; 0x67; 0xed; 0xf4; 0xee; 0x42; 0x65; 0x70; 0x13; 0x0b; 0x70; 0x14; 0x1c; 0xc9; 0xe0; 0x19; 0xca;
   0x5f; 0xf5; 0x1d; 0x70; 0x4b; 0x6c; 0x06; 0x74; 0xec; 0xb5; 0x2e; 0x77; 0xe1; 0x74; 0xa1; 0xa3; 0x99; 0xa0; 0x85; 0x9e; 0xf1; 0xac; 0xd8; 0x7e].
Section ops.
Context {FW : Firmware} {BL : BaseLib} {UL : UnicodeLib} {AL : AsciiLib} {BM : BootMode}.
Context {BC : BuildConfig} {LB : LoaderBuild} {VB : VerifiedBootProtocol} {LP : LabelledPartitions}.

(** ** Partitions *)
Definition label_query : Z :=
  Z.lor (Z.lor (Z.lor BLK_IO_SEL_PARTITIONED_MBR BLK_IO_SEL_PARTITIONED_GPT)
    BLK_IO_SEL_MEDIA_TYPE_NON_REMOVABLE) BLK_IO_SEL_MATCH_PARTITION_LABEL.
Definition GetHandleInfo (Partition : list Z) : AvbIOResult * option HandleInfo :=
  if (MAX_GPT_NAME_SIZE <? AsciiStrLen Partition + 1)%nat then (AVB_IO_RESULT_ERROR_IO, None) else
  let UnicodePartition := snd (AsciiStrToUnicodeStrS Partition [] MAX_GPT_NAME_SIZE) in
  let (Status, HandleInfo_) := GetBlkIOHandlesByLabel label_query UnicodePartition 1 in
  if negb (is_success Status) then (AVB_IO_RESULT_ERROR_IO, None) else
  match HandleInfo_ with
  | [] => (AVB_IO_RESULT_ERROR_NO_SUCH_PARTITION, None)
  | [h] => (AVB_IO_RESULT_OK, Some h)
  | _ => (AVB_IO_RESULT_ERROR_IO, None)
  end.

(** A block of the partition, or [None] when it cannot be read. *)
Definition read_block (blk : EFI_BLOCK_IO_PROTOCOL) (Block Size : Z) : LD (option (list Z)) :=
  l ← lift (gets log);
  let (Status, data) := ReadBlocks l (This blk) Block Size in
  mret (if is_success Status then Some data else None).

(** The three parts of a read: in the block where it starts, in the block where it ends,
    and the whole blocks between.  Each has the buffer and the count of bytes, and
    returns a result where the function leaves. *)
Definition read_start (blk : EFI_BLOCK_IO_PROTOCOL) (Offset NumBytes : Z) (Buffer : list Z)
  : LD (option AvbIOResult * list Z * Z * Z * Z) :=
  let PageSize := BlockSize blk in
  let StartBlock := Offset / PageSize in
  let LastBlock_ := u64 (NumBytes + Offset) / PageSize in
  if Offset mod PageSize =? 0 then mret (None, Buffer, 0, 0, StartBlock) else
  let StartPageReadOffset := Offset - StartBlock * PageSize in
  let same := StartBlock =? LastBlock_ in
  let StartPageReadSize := if same then NumBytes else PageSize - StartPageReadOffset in
  let FullBlock := if same then StartBlock else StartBlock + 1 in
  if (StartPageReadSize <=? 0) || (PageSize <=? StartPageReadOffset) ||
     (PageSize - StartPageReadOffset <? StartPageReadSize) || (NumBytes <? StartPageReadSize) ||
     (LastBlock blk <? StartBlock)
  then mret (Some AVB_IO_RESULT_ERROR_RANGE_OUTSIDE_PARTITION, Buffer, 0, StartPageReadSize, FullBlock) else
  Page ← read_block blk StartBlock PageSize;
  match Page with
  | None => mret (Some AVB_IO_RESULT_OK, Buffer, 0, StartPageReadSize, FullBlock)
  | Some Page =>
    part ← access (rd Page StartPageReadOffset (Z.to_nat StartPageReadSize));
    Buffer ← access (wr Buffer 0 part);
    mret (None, Buffer, StartPageReadSize, StartPageReadSize, FullBlock)
  end.
Definition read_end (blk : EFI_BLOCK_IO_PROTOCOL) (Offset NumBytes : Z) (Buffer : list Z) (OutNumRead : Z)
  : LD (option AvbIOResult * list Z * Z) :=
  let PageSize := BlockSize blk in
  let LastBlock_ := u64 (NumBytes + Offset) / PageSize in
  if negb (OutNumRead <? NumBytes) || (u64 (NumBytes + Offset) mod PageSize =? 0)
  then mret (None, Buffer, OutNumRead) else
  let LastPageReadSize := u64 (Offset + NumBytes) - LastBlock_ * PageSize in
  if (LastPageReadSize <=? 0) || (PageSize <=? LastPageReadSize) ||
     (NumBytes - OutNumRead <? LastPageReadSize) || (LastBlock blk <? LastBlock_)
  then mret (Some AVB_IO_RESULT_ERROR_RANGE_OUTSIDE_PARTITION, Buffer, OutNumRead) else
  Page ← read_block blk LastBlock_ PageSize;
  match Page with
  | None => mret (Some AVB_IO_RESULT_OK, Buffer, 0)
  | Some Page =>
    part ← access (rd Page 0 (Z.to_nat LastPageReadSize));
    Buffer ← access (wr Buffer (NumBytes - LastPageReadSize) part);
    mret (None, Buffer, OutNumRead + LastPageReadSize)
  end.
Definition read_full (blk : EFI_BLOCK_IO_PROTOCOL) (NumBytes : Z) (Buffer : list Z)
    (OutNumRead StartPageReadSize FullBlock : Z) : LD (AvbIOResult * list Z * Z) :=
  if negb (OutNumRead <? NumBytes) then mret (AVB_IO_RESULT_OK, Buffer, OutNumRead) else
  let FillPageReadSize := NumBytes - OutNumRead in
  if negb (FillPageReadSize mod BlockSize blk =? 0) || (LastBlock blk <? FullBlock) ||
     (NumBytes - StartPageReadSize <? FillPageReadSize)
  then mret (AVB_IO_RESULT_ERROR_RANGE_OUTSIDE_PARTITION, Buffer, OutNumRead) else
  Pages ← read_block blk FullBlock FillPageReadSize;
  match Pages with
  | None => mret (AVB_IO_RESULT_OK, Buffer, 0)
  | Some Pages =>
    part ← access (rd Pages 0 (Z.to_nat FillPageReadSize));
    Buffer ← access (wr Buffer StartPageReadSize part);
    mret (AVB_IO_RESULT_OK, Buffer, OutNumRead + FillPageReadSize)
  end.

(** Where the read begins, or that it begins outside: a negative offset counts from the
    end of the partition. *)
Definition read_offset (ReadOffset PartitionSize : Z) : option Z :=
  if ReadOffset <? 0 then
    if PartitionSize <? u64 (- ReadOffset) then None else Some (PartitionSize - u64 (- ReadOffset))
  else if PartitionSize <? ReadOffset then None else Some ReadOffset.

(** Result, buffer and number of bytes read. *)
Definition AvbReadFromPartition (Partition : list Z) (ReadOffset NumBytes : Z) (Buffer : list Z)
  : LD (AvbIOResult * list Z * Z) :=
  if NumBytes <=? 0 then mret (AVB_IO_RESULT_ERROR_IO, Buffer, 0) else
  match GetHandleInfo Partition with
  | (AVB_IO_RESULT_OK, Some h) =>
    let PartitionSize := GetPartitionSize (BlkIo h) in
    if PartitionSize =? 0 then mret (AVB_IO_RESULT_ERROR_RANGE_OUTSIDE_PARTITION, Buffer, 0) else
    blk ← access (BlkIo h);
    match read_offset ReadOffset PartitionSize with
    | None => mret (AVB_IO_RESULT_ERROR_RANGE_OUTSIDE_PARTITION, Buffer, 0)
    | Some Offset =>
      let NumBytes := Z.min NumBytes (PartitionSize - Offset) in
      if negb (PoolAvailable 0 (BlockSize blk)) then mret (AVB_IO_RESULT_ERROR_OOM, Buffer, 0) else
      r ← read_start blk Offset NumBytes Buffer;
      match r with
      | (Some Result, Buffer, OutNumRead, _, _) => mret (Result, Buffer, OutNumRead)
      | (None, Buffer, OutNumRead, StartPageReadSize, FullBlock) =>
        r ← read_end blk Offset NumBytes Buffer OutNumRead;
        match r with
        | (Some Result, Buffer, OutNumRead) => mret (Result, Buffer, OutNumRead)
        | (None, Buffer, OutNumRead) => read_full blk NumBytes Buffer OutNumRead StartPageReadSize FullBlock
        end
      end
    end
  | (Result, _) => mret (Result, Buffer, 0)
  end.
Definition AvbWriteToPartition (Partition : list Z) (Offset NumBytes : Z) (Buffer : list Z) : AvbIOResult :=
  AVB_IO_RESULT_ERROR_IO.
Definition AvbGetSizeOfPartition (Partition : list Z) : AvbIOResult * Z :=
  match GetHandleInfo Partition with
  | (AVB_IO_RESULT_OK, Some h) =>
    let OutSizeNumBytes := GetPartitionSize (BlkIo h) in
    (if OutSizeNumBytes =? 0 then AVB_IO_RESULT_ERROR_RANGE_OUTSIDE_PARTITION else AVB_IO_RESULT_OK, OutSizeNumBytes)
  | (Result, _) => (Result, 0)
  end.

(** ** Keys *)
(** A key that is the user's or the OEM's is trusted, and noted with its kind. *)
Definition trust_key (PublicKeyData : list Z) (UserData : AvbOpsUserData)
  : LD (AvbIOResult * bool * AvbOpsUserData) :=
  r ← GetUserKey;
  match r with
  | (EFI_SUCCESS, Some (UserKeyBuffer, UserKeyLength)) =>
    let UserData := set_IsUserKey false UserData in
    let PublicKeyLength := Z.of_nat (length PublicKeyData) in
    let same key len := (PublicKeyLength =? len) && bool_decide (take (length PublicKeyData) key = PublicKeyData) in
    let user := same UserKeyBuffer UserKeyLength in
    if user || same OEMPublicKey (Z.of_nat (length OEMPublicKey)) then
      let UserData := set_IsUserKey user UserData in
      if Z.of_nat MAX_USER_KEY_SIZE <? PublicKeyLength then mret (AVB_IO_RESULT_ERROR_OOM, true, UserData) else
      key ← access (wr (PublicKey UserData) 0 PublicKeyData);
      mret (AVB_IO_RESULT_OK, true, set_PublicKey key PublicKeyLength UserData)
    else mret (AVB_IO_RESULT_OK, false, set_PublicKey (repeat 0 MAX_USER_KEY_SIZE) 0 UserData)
  | _ => mret (AVB_IO_RESULT_ERROR_IO, false, UserData)
  end.
Definition AvbValidateVbmetaPublicKey (PublicKeyData : list Z) (UserData : AvbOpsUserData)
  : LD (AvbIOResult * bool * AvbOpsUserData) :=
  trust_key PublicKeyData UserData.
(** With the rollback index location, which is that of the recovery. *)
Definition AvbValidatePartitionPublicKey (Partition PublicKeyData : list Z) (UserData : AvbOpsUserData)
  : LD (AvbIOResult * bool * option nat * AvbOpsUserData) :=
  r ← trust_key PublicKeyData UserData;
  let '(Result, OutIsTrusted, UserData) := r : AvbIOResult * bool * AvbOpsUserData in
  mret (Result, OutIsTrusted, if decide (Result = AVB_IO_RESULT_OK) then Some 1%nat else None, UserData).

(** ** Rollback indices *)
Definition avb_should_update_rollback (is_multi_slot : bool) : LD bool :=
  if is_multi_slot then lift IsCurrentSlotBootable else mret true.
Definition AvbReadRollbackIndex (RollbackIndexLocation : nat) : LD (AvbIOResult * option Z) :=
  r ← ReadRollbackIndex RollbackIndexLocation;
  mret (if is_success (fst r) then AVB_IO_RESULT_OK else AVB_IO_RESULT_ERROR_IO, snd r).
Definition AvbWriteRollbackIndex (RollbackIndexLocation : nat) (RollbackIndex : Z) (UserData : AvbOpsUserData)
  : LD AvbIOResult :=
  UpdateRollbackIndex ← avb_should_update_rollback (IsMultiSlot UserData);
  if UpdateRollbackIndex : bool then
    Status ← WriteRollbackIndex RollbackIndexLocation RollbackIndex;
    mret (if is_success Status then AVB_IO_RESULT_OK else AVB_IO_RESULT_ERROR_IO)
  else mret AVB_IO_RESULT_OK.
Definition AvbReadIsDeviceUnlocked : LD (AvbIOResult * bool) :=
  OutIsUnlocked ← IsUnlocked; mret (AVB_IO_RESULT_OK, OutIsUnlocked).

(** ** Names of partitions *)
Definition HexDigit (d : Z) : Z := if d <? 10 then 48 + d else 87 + d.
Definition hex_digits (n : nat) (x : Z) : list Z :=
  map (fun i => HexDigit (Z.land (Z.shiftr x (4 * Z.of_nat i)) 0xf)) (rev (seq 0 n)).
(** The fields of a GUID, least byte first, then eight bytes. *)
Definition guid_text (Guid : EFI_GUID) : list Z :=
  hex_digits 8 (le 4 Guid 0) ++ bytes "-" ++ hex_digits 4 (le 2 Guid 4) ++ bytes "-" ++
  hex_digits 4 (le 2 Guid 6) ++ bytes "-" ++ hex_digits 2 (le 1 Guid 8) ++ hex_digits 2 (le 1 Guid 9) ++
  bytes "-" ++ concat (map (fun i => hex_digits 2 (le 1 Guid (10 + Z.of_nat i))) (seq 0 6)) ++ [0].
Definition GuidToHex (Buf : list Z) (Guid : EFI_GUID) : option (list Z) := wr Buf 0 (guid_text Guid).
(** The size of the buffer is not looked at. *)
Definition AvbGetUniqueGuidForPartition (PartitionName_ GuidBuf : list Z) (GuidBufSize : Z)
  : LD (AvbIOResult * list Z) :=
  match GetHandleInfo PartitionName_ with
  | (AVB_IO_RESULT_OK, Some h) =>
    let (Status, PartEntry_) := PartitionRecord (Handle h) in
    if EFI_ERROR Status then mret (AVB_IO_RESULT_ERROR_IO, GuidBuf) else
    if (MAX_GPT_NAME_SIZE <? AsciiStrLen PartitionName_ + 1)%nat then mret (AVB_IO_RESULT_ERROR_IO, GuidBuf) else
    let UnicodePartition := snd (AsciiStrToUnicodeStrS PartitionName_ [] MAX_GPT_NAME_SIZE) in
    if StrnCmp UnicodePartition (chars_of (PartitionName PartEntry_)) (StrLen UnicodePartition) =? 0 then
      GuidBuf ← access (GuidToHex GuidBuf (UniquePartitionGUID PartEntry_));
      mret (AVB_IO_RESULT_OK, GuidBuf)
    else mret (AVB_IO_RESULT_ERROR_NO_SUCH_PARTITION, GuidBuf)
  | (Result, _) => mret (Result, GuidBuf)
  end.
End ops.
