(* ===== verification/AvbOpsSpec.v ===== *)
(** * What verified boot reads and trusts.

    [AvbReadFromPartition_reads]: however a read lies in the blocks, the buffer gets the
    bytes of the partition; [AvbValidateVbmetaPublicKey_trusts]: which keys are trusted. *)
From stdpp Require Import base numbers list option strings.
From Stdlib Require Import ZArith Lia Ascii.
From S2P Require Import Prelude BaseLib Unicode Storage Bytes StorageSpec Partitions Slots SlotsSpec Flash DeviceInfo FastbootDemo BootImage AvbOps.
Local Open Scope Z_scope.

(** ** Buffers *)
(** The [n] bytes from the byte [a] on. *)
Definition bytes_at (f : Z -> Z) (a : Z) (n : nat) : list Z := (fun i => f (a + Z.of_nat i)) <$> seq 0 n.
Lemma bytes_at_length f a n : length (bytes_at f a n) = n.
Proof. unfold bytes_at. by rewrite length_fmap, length_seq. Qed.
Lemma bytes_at_lookup f a n i : (i < n)%nat -> bytes_at f a n !! i = Some (f (a + Z.of_nat i)).
Proof. intros H. unfold bytes_at. rewrite list_lookup_fmap, lookup_seq_lt by done. done. Qed.
Lemma rd_bytes_at f a (N n : nat) off :
  0 <= off -> off + Z.of_nat n <= Z.of_nat N -> rd (bytes_at f a N) off n = Some (bytes_at f (a + off) n).
Proof.
  intros H0 H. unfold rd. destruct (Z.ltb_spec off 0); [lia|].
  rewrite load_Some by (rewrite bytes_at_length; lia). f_equal. apply list_eq. intros i.
  destruct (decide (i < n)%nat) as [Hi|Hi].
  - rewrite lookup_take_lt, lookup_drop, !bytes_at_lookup by lia. do 2 f_equal. lia.
  - rewrite !lookup_ge_None_2; [done|rewrite bytes_at_length; lia|].
    rewrite length_take, length_drop, bytes_at_length. lia.
Qed.

(** The buffer with the bytes from [a] on where [P] holds. *)
Definition holds (f : Z -> Z) (a : Z) (P : nat -> bool) (Buf Buf' : list Z) : Prop :=
  length Buf' = length Buf /\
  forall i, (i < length Buf)%nat -> Buf' !! i = if P i then Some (f (a + Z.of_nat i)) else Buf !! i.
Lemma holds_none f a Buf : holds f a (fun _ => false) Buf Buf.
Proof. by split. Qed.
Definition within (lo n : Z) (i : nat) : bool := (lo <=? Z.of_nat i) && (Z.of_nat i <? lo + n).
Lemma holds_wr f a P Buf Buf' lo n :
  holds f a P Buf Buf' -> 0 <= lo -> 0 <= n -> lo + n <= Z.of_nat (length Buf) ->
  exists Buf2, wr Buf' lo (bytes_at f (a + lo) (Z.to_nat n)) = Some Buf2 /\
    holds f a (fun i => P i || within lo n i) Buf Buf2.
Proof.
  intros [Hl Hi] Hlo Hn Hle. unfold wr. rewrite bytes_at_length.
  destruct (Z.ltb_spec lo 0); [lia|]. cbn [orb].
  destruct (Z.ltb_spec (Z.of_nat (length Buf')) (lo + Z.of_nat (Z.to_nat n))); [lia|].
  eexists; split; [done|]. split.
  { rewrite !length_app, length_take, length_drop, bytes_at_length. lia. }
  intros i Hib. unfold within. specialize (Hi i Hib).
  destruct (Z.leb_spec lo (Z.of_nat i)) as [H1|H1]; cbn [andb].
  - rewrite lookup_app_r by (rewrite length_take; lia). rewrite length_take.
    destruct (Z.ltb_spec (Z.of_nat i) (lo + n)) as [H2|H2].
    + rewrite orb_true_r, lookup_app_l, bytes_at_lookup by (rewrite ?bytes_at_length; lia).
      do 2 f_equal. lia.
    + rewrite orb_false_r, lookup_app_r by (rewrite bytes_at_length; lia). rewrite bytes_at_length, lookup_drop.
      rewrite <- Hi. f_equal. lia.
  - rewrite orb_false_r, lookup_app_l, lookup_take_lt by (rewrite ?length_take; lia). done.
Qed.
Lemma holds_all f a P n Buf Buf' :
  (n <= length Buf)%nat -> holds f a P Buf Buf' -> (forall i, P i = (i <? n)%nat) ->
  Buf' = bytes_at f a n ++ drop n Buf.
Proof.
  intros Hn [Hl Hi] HP. apply list_eq. intros i.
  destruct (decide (i < length Buf)%nat) as [Hib|Hib].
  - rewrite Hi, HP by done. destruct (Nat.ltb_spec i n).
    + by rewrite lookup_app_l, bytes_at_lookup by (rewrite ?bytes_at_length; lia).
    + rewrite lookup_app_r, bytes_at_length, lookup_drop by (rewrite bytes_at_length; lia). f_equal. lia.
  - rewrite !lookup_ge_None_2; [done| |lia]. rewrite length_app, bytes_at_length, length_drop. lia.
Qed.

(** ** Reading from a partition *)
Section read.
Context {FW : Firmware} {BL : BaseLib} {UL : UnicodeLib} {AL : AsciiLib} {BM : BootMode}.
Context {BC : BuildConfig} {LB : LoaderBuild} {VB : VerifiedBootProtocol} {LP : LabelledPartitions}.
Variables (blk : EFI_BLOCK_IO_PROTOCOL) (content : list device_event -> Z -> Z).
Context {BD : BlockDevice (This blk) (BlockSize blk) content}.
Hypothesis blocks : 0 < BlockSize blk.
Hypothesis last_block : 0 <= LastBlock blk /\ (LastBlock blk + 1) * BlockSize blk < 2 ^ 64.

(** Whether the device answers a read. *)
Definition answers (s : loader) (r : Z * Z) : bool :=
  is_success (fst (ReadBlocks (log (Boot s)) (This blk) (fst r) (snd r))).
Lemma read_block_run s Block Size :
  0 <= Size ->
  read_block blk Block Size s =
  Some (if answers s (Block, Size)
        then Some (bytes_at (content (log (Boot s))) (Block * BlockSize blk) (Z.to_nat Size)) else None, s).
Proof.
  intros HS. unfold read_block, answers, lift, mbind, M_bind, gets. destruct s as [b d f v]. cbn [Boot fst snd].
  pose proof (content_read (log b) Block Size) as Hc.
  destruct (ReadBlocks _ _ _ _) as [S data]. cbn [fst snd] in Hc |- *.
  destruct (is_success S) eqn:E; [|done]. apply bool_decide_eq_true in E. by rewrite Hc.
Qed.
(** Whole blocks that lie on the device. *)
Definition whole_blocks (r : Z * Z) : Prop :=
  0 <= fst r /\ 0 < snd r /\ snd r mod BlockSize blk = 0 /\
  fst r * BlockSize blk + snd r <= (LastBlock blk + 1) * BlockSize blk.

Section one.
Variables (s : loader) (Offset n : Z) (Buf : list Z).
Hypothesis inside : 0 <= Offset /\ 0 < n /\ Offset + n <= (LastBlock blk + 1) * BlockSize blk.
Hypothesis room : n <= Z.of_nat (length Buf).
Local Abbreviation f := (content (log (Boot s))).
Local Abbreviation PS := (BlockSize blk).

(** The bytes of the first block: none, when the read starts with a block. *)
Definition start_size : Z :=
  if Offset mod PS =? 0 then 0 else if Offset / PS =? (n + Offset) / PS then n else PS - Offset mod PS.
Definition first_full : Z :=
  if Offset mod PS =? 0 then Offset / PS else
  if Offset / PS =? (n + Offset) / PS then Offset / PS else Offset / PS + 1.

Lemma block_bounds a : 0 <= a < (LastBlock blk + 1) * PS -> 0 <= a / PS <= LastBlock blk.
Proof.
  intros Ha. split; [by apply Z.div_pos; lia|].
  apply Z.lt_succ_r, Z.div_lt_upper_bound; lia.
Qed.

Lemma start_size_range : Offset mod PS <> 0 -> 0 < start_size <= n /\ start_size <= PS - Offset mod PS.
Proof.
  intros E. unfold start_size. destruct (Z.eqb_spec (Offset mod PS) 0); [done|].
  pose proof (Z.mod_pos_bound Offset PS blocks) as Hm. pose proof (Z.div_mod Offset PS ltac:(lia)) as Hd.
  pose proof (Z.div_mod (n + Offset) PS ltac:(lia)) as Hd'.
  pose proof (Z.mod_pos_bound (n + Offset) PS blocks) as Hm'.
  destruct (Z.eqb_spec (Offset / PS) ((n + Offset) / PS)) as [Es|Es]; [nia|].
  pose proof (Z.div_le_mono Offset (n + Offset) PS blocks ltac:(lia)). nia.
Qed.
(** The checks in front of the first read pass. *)
Lemma read_start_step :
  Offset mod PS <> 0 ->
  read_start blk Offset n Buf =
    (Page ← read_block blk (Offset / PS) PS;
     match Page with
     | None => mret (Some AVB_IO_RESULT_OK, Buf, 0, start_size, first_full)
     | Some Page =>
       part ← access (rd Page (Offset mod PS) (Z.to_nat start_size));
       Buffer ← access (wr Buf 0 part);
       mret (None, Buffer, start_size, start_size, first_full)
     end).
Proof.
  intros E. pose proof (start_size_range E) as Hsz. unfold read_start.
  rewrite (u64_small (n + Offset)) by (unfold in_u64; lia).
  pose proof (Z.mod_pos_bound Offset PS blocks) as Hm. pose proof (Z.div_mod Offset PS ltac:(lia)) as Hd.
  pose proof (block_bounds Offset ltac:(lia)) as Hb.
  unfold start_size, first_full in *. rewrite (proj2 (Z.eqb_neq _ _) E) in *.
  replace (Offset - Offset / PS * PS) with (Offset mod PS) by lia.
  set (sz := if Offset / PS =? (n + Offset) / PS then n else PS - Offset mod PS) in *.
  destruct (Z.leb_spec sz 0); [lia|]. destruct (Z.leb_spec PS (Offset mod PS)); [lia|].
  destruct (Z.ltb_spec (PS - Offset mod PS) sz); [lia|]. destruct (Z.ltb_spec n sz); [lia|].
  by destruct (Z.ltb_spec (LastBlock blk) (Offset / PS)); [lia|].
Qed.
Lemma read_start_ok :
  (Offset mod PS <> 0 -> answers s (Offset / PS, PS) = true) ->
  exists Buf1, read_start blk Offset n Buf s = Some ((None, Buf1, start_size, start_size, first_full), s) /\
    0 <= start_size <= n /\ holds f Offset (within 0 start_size) Buf Buf1.
Proof.
  intros Hok. destruct (decide (Offset mod PS = 0)) as [E|E].
  { unfold read_start, start_size, first_full. rewrite (proj2 (Z.eqb_eq _ _) E).
    exists Buf. split; [done|]. split; [lia|].
    split; [done|]. intros i _. unfold within. by destruct (Z.leb_spec 0 (Z.of_nat i)), (Z.ltb_spec (Z.of_nat i) (0 + 0)); try lia. }
  pose proof (start_size_range E) as Hsz. pose proof (Z.mod_pos_bound Offset PS blocks) as Hm.
  pose proof (Z.div_mod Offset PS ltac:(lia)) as Hd.
  rewrite read_start_step by done. unfold mbind, M_bind. rewrite read_block_run, Hok by (done || lia).
  unfold access at 1. rewrite rd_bytes_at by lia.
  replace (Offset / PS * PS + Offset mod PS) with (Offset + 0) by lia.
  destruct (holds_wr f Offset (fun _ => false) Buf Buf 0 start_size) as (Buf1 & E1 & HB1);
    [apply holds_none|lia..|].
  exists Buf1. rewrite E1. unfold access. split; [done|]. split; [lia|exact HB1].
Qed.
Lemma read_start_failed :
  Offset mod PS <> 0 -> answers s (Offset / PS, PS) = false ->
  read_start blk Offset n Buf s = Some ((Some AVB_IO_RESULT_OK, Buf, 0, start_size, first_full), s).
Proof.
  intros E Hf. rewrite read_start_step by done. unfold mbind, M_bind. by rewrite read_block_run, Hf by lia.
Qed.

Definition end_size : Z := if (start_size <? n) && negb ((n + Offset) mod PS =? 0) then (n + Offset) mod PS else 0.
(** What is left between is whole blocks. *)
Lemma parts :
  0 <= start_size <= n /\ 0 <= end_size /\ (start_size = n -> end_size = 0) /\
  (start_size < n -> n - start_size - end_size = ((n + Offset) / PS - first_full) * PS /\
     0 <= first_full <= (n + Offset) / PS).
Proof.
  unfold end_size, start_size, first_full.
  pose proof (Z.mod_pos_bound Offset PS blocks) as Hm. pose proof (Z.div_mod Offset PS ltac:(lia)) as Hd.
  pose proof (Z.mod_pos_bound (n + Offset) PS blocks) as Hm'.
  pose proof (Z.div_mod (n + Offset) PS ltac:(lia)) as Hd'.
  pose proof (Z.div_le_mono Offset (n + Offset) PS blocks ltac:(lia)) as Hmono.
  pose proof (Z.div_pos Offset PS ltac:(lia) blocks) as Hp.
  assert (Hend : forall x, 0 <= (if (x <? n) && negb ((n + Offset) mod PS =? 0) then (n + Offset) mod PS else 0)
                 /\ (x = n -> (if (x <? n) && negb ((n + Offset) mod PS =? 0) then (n + Offset) mod PS else 0) = 0)
                 /\ (x < n -> (if (x <? n) && negb ((n + Offset) mod PS =? 0) then (n + Offset) mod PS else 0) = (n + Offset) mod PS)).
  { intros x. destruct (Z.ltb_spec x n), (Z.eqb_spec ((n + Offset) mod PS) 0); cbn [andb negb]; lia. }
  destruct (Z.eqb_spec (Offset mod PS) 0) as [E|E].
  - destruct (Hend 0) as (H1 & H2 & H3). repeat split; try lia; rewrite H3 by lia; nia.
  - destruct (Z.eqb_spec (Offset / PS) ((n + Offset) / PS)) as [Es|Es].
    + destruct (Hend n) as (H1 & H2 & H3). repeat split; lia.
    + destruct (Hend (PS - Offset mod PS)) as (H1 & H2 & H3).
      assert (PS * (Offset / PS + 1) <= PS * ((n + Offset) / PS)) by (apply Z.mul_le_mono_nonneg_l; lia).
      repeat split; try exact H2; lia.
Qed.

Definition full_size : Z := n - (start_size + end_size).
Lemma full_size_nonneg : 0 <= full_size.
Proof.
  pose proof parts as (Hs & He & Hz & Hr). unfold full_size.
  destruct (decide (start_size = n)); [lia|]. destruct (Hr ltac:(lia)). nia.
Qed.
Lemma end_size_pos :
  end_size <> 0 ->
  start_size < n /\ end_size = (n + Offset) mod PS /\ 0 < end_size < PS /\ (n + Offset) / PS <= LastBlock blk.
Proof.
  unfold end_size. intros H. destruct (Z.ltb_spec start_size n) as [Hlt|]; [|done]. cbn [andb] in *.
  pose proof (Z.mod_pos_bound (n + Offset) PS blocks) as Hm'.
  destruct (Z.eqb_spec ((n + Offset) mod PS) 0) as [E|E]; [done|]. cbn [negb] in *.
  split; [done|]. split; [done|]. split; [lia|].
  assert (n + Offset <> (LastBlock blk + 1) * PS) by (intros Heq; by rewrite Heq, Z.mod_mul in E by lia).
  apply Z.lt_succ_r, Z.div_lt_upper_bound; lia.
Qed.
Lemma full_size_pos :
  full_size <> 0 ->
  full_size = ((n + Offset) / PS - first_full) * PS /\ 0 <= first_full /\ first_full * PS = Offset + start_size /\
  first_full <= LastBlock blk /\ full_size mod PS = 0.
Proof.
  intros H. pose proof parts as (Hs & He & Hz & Hr). pose proof full_size_nonneg as Hf0. unfold full_size in *.
  destruct (Hr ltac:(lia)) as [Hfill Hff].
  assert (n - (start_size + end_size) = ((n + Offset) / PS - first_full) * PS) as Hq by lia.
  split; [done|]. split; [lia|].
  assert (first_full * PS = Offset + start_size) as Hat.
  { pose proof (Z.div_mod Offset PS ltac:(lia)). unfold first_full, start_size in *.
    destruct (Z.eqb_spec (Offset mod PS) 0); [lia|].
    destruct (Z.eqb_spec (Offset / PS) ((n + Offset) / PS)); nia. }
  split; [done|]. split; [nia|]. rewrite Hq. by apply Z.mod_mul; lia.
Qed.

(** What is read: at most three runs of whole blocks. *)
Definition block_requests : list (Z * Z) :=
  (if start_size =? 0 then [] else [(Offset / PS, PS)]) ++
  (if end_size =? 0 then [] else [((n + Offset) / PS, PS)]) ++
  (if full_size =? 0 then [] else [(first_full, full_size)]).
Lemma block_requests_whole : Forall whole_blocks block_requests.
Proof.
  unfold block_requests, whole_blocks. pose proof (block_bounds Offset ltac:(lia)) as Hb.
  apply Forall_app. split; [|apply Forall_app; split].
  - destruct (_ =? _); constructor; [|done]. cbn [fst snd]. rewrite Z_mod_same_full. nia.
  - destruct (Z.eqb_spec end_size 0) as [|H]; constructor; [|done]. cbn [fst snd].
    apply end_size_pos in H as (_ & _ & _ & H). rewrite Z_mod_same_full.
    pose proof (Z.div_pos (n + Offset) PS ltac:(lia) blocks). nia.
  - destruct (Z.eqb_spec full_size 0) as [|H]; constructor; [|done]. cbn [fst snd].
    assert (0 < full_size) as Hpos by (pose proof full_size_nonneg; lia). apply full_size_pos in H as (Hq & Hff & Hat & Hl & Hm).
    split; [done|]. split; [done|]. split; [done|]. unfold full_size in *.
    pose proof parts as (Hs & He & _). lia.
Qed.

Lemma holds_empty P B1 lo : holds f Offset P Buf B1 -> holds f Offset (fun i => P i || within lo 0 i) Buf B1.
Proof.
  intros [Hl Hi]. split; [done|]. intros i Hib. rewrite (Hi i Hib). unfold within. rewrite Z.add_0_r.
  destruct (Z.leb_spec lo (Z.of_nat i)), (Z.ltb_spec (Z.of_nat i) lo); try lia; by rewrite orb_false_r.
Qed.
Lemma read_end_step B1 :
  end_size <> 0 ->
  read_end blk Offset n B1 start_size =
    (Page ← read_block blk ((n + Offset) / PS) PS;
     match Page with
     | None => mret (Some AVB_IO_RESULT_OK, B1, 0)
     | Some Page =>
       part ← access (rd Page 0 (Z.to_nat end_size));
       Buffer ← access (wr B1 (n - end_size) part);
       mret (None, Buffer, start_size + end_size)
     end).
Proof.
  intros H. pose proof (end_size_pos H) as (Hlt & He & Hp & Hl). pose proof full_size_nonneg as Hf.
  unfold full_size in Hf. unfold read_end.
  rewrite (Z.add_comm Offset n), (u64_small (n + Offset)) by (unfold in_u64; lia).
  pose proof (Z.div_mod (n + Offset) PS ltac:(lia)) as Hd'.
  replace (n + Offset - (n + Offset) / PS * PS) with end_size by lia. rewrite <- He.
  destruct (Z.ltb_spec start_size n); [|lia]. destruct (Z.eqb_spec end_size 0); [done|]. cbn [negb orb].
  destruct (Z.leb_spec end_size 0); [lia|]. destruct (Z.leb_spec PS end_size); [lia|].
  destruct (Z.ltb_spec (n - start_size) end_size); [lia|].
  by destruct (Z.ltb_spec (LastBlock blk) ((n + Offset) / PS)); [lia|].
Qed.
Lemma read_end_none B1 : end_size = 0 -> read_end blk Offset n B1 start_size = mret (None, B1, start_size).
Proof.
  unfold end_size, read_end. rewrite (u64_small (n + Offset)) by (unfold in_u64; lia).
  destruct (start_size <? n), (Z.eqb_spec ((n + Offset) mod PS) 0); by cbn.
Qed.
Lemma read_end_ok P B1 :
  holds f Offset P Buf B1 -> (end_size <> 0 -> answers s ((n + Offset) / PS, PS) = true) ->
  exists B2, read_end blk Offset n B1 start_size s = Some ((None, B2, start_size + end_size), s) /\
    holds f Offset (fun i => P i || within (n - end_size) end_size i) Buf B2.
Proof.
  intros HB Hok. destruct (decide (end_size = 0)) as [E|E].
  { exists B1. rewrite read_end_none by done. rewrite E, Z.add_0_r. split; [done|by apply holds_empty]. }
  pose proof (end_size_pos E) as (Hlt & He & Hp & Hl). pose proof (Z.div_mod (n + Offset) PS ltac:(lia)) as Hd'.
  pose proof parts as (Hs & _). pose proof full_size_nonneg as Hf. unfold full_size in Hf.
  rewrite read_end_step by done. unfold mbind, M_bind. rewrite read_block_run, Hok by (done || lia).
  unfold access at 1. rewrite rd_bytes_at by lia.
  replace ((n + Offset) / PS * PS + 0) with (Offset + (n - end_size)) by lia.
  destruct (holds_wr f Offset P Buf B1 (n - end_size) end_size) as (B2 & E2 & HB2); [done|lia..|].
  exists B2. rewrite E2. done.
Qed.
Lemma read_end_failed B1 :
  end_size <> 0 -> answers s ((n + Offset) / PS, PS) = false ->
  read_end blk Offset n B1 start_size s = Some ((Some AVB_IO_RESULT_OK, B1, 0), s).
Proof.
  intros E Hf. rewrite read_end_step by done. unfold mbind, M_bind. by rewrite read_block_run, Hf by lia.
Qed.

Lemma read_full_step B2 :
  full_size <> 0 ->
  read_full blk n B2 (start_size + end_size) start_size first_full =
    (Pages ← read_block blk first_full full_size;
     match Pages with
     | None => mret (AVB_IO_RESULT_OK, B2, 0)
     | Some Pages =>
       part ← access (rd Pages 0 (Z.to_nat full_size));
       Buffer ← access (wr B2 start_size part);
       mret (AVB_IO_RESULT_OK, Buffer, n)
     end).
Proof.
  intros H. pose proof full_size_nonneg as Hf. pose proof (full_size_pos H) as (Hq & H0 & Hat & Hl & Hm).
  pose proof parts as (Hs & He & _). unfold read_full. unfold full_size in *.
  destruct (Z.ltb_spec (start_size + end_size) n); [|lia]. rewrite Hm. cbn [negb Z.eqb orb].
  destruct (Z.ltb_spec (LastBlock blk) first_full); [lia|].
  destruct (Z.ltb_spec (n - start_size) (n - (start_size + end_size))); [lia|]. cbn [orb].
  by replace (start_size + end_size + (n - (start_size + end_size))) with n by lia.
Qed.
Lemma read_full_ok P B2 :
  holds f Offset P Buf B2 -> (full_size <> 0 -> answers s (first_full, full_size) = true) ->
  exists B3, read_full blk n B2 (start_size + end_size) start_size first_full s = Some ((AVB_IO_RESULT_OK, B3, n), s) /\
    holds f Offset (fun i => P i || within start_size full_size i) Buf B3.
Proof.
  intros HB Hok. pose proof full_size_nonneg as Hf. pose proof parts as (Hs & He & _).
  destruct (decide (full_size = 0)) as [E|E].
  { exists B2. unfold read_full, full_size in *. destruct (Z.ltb_spec (start_size + end_size) n); [lia|]. cbn [negb].
    split; [unfold mret, M_ret; do 3 f_equal; lia|]. rewrite E. by apply holds_empty. }
  pose proof (full_size_pos E) as (Hq & H0 & Hat & Hl & Hm).
  rewrite read_full_step by done. unfold mbind, M_bind. rewrite read_block_run, Hok by (done || lia).
  unfold access at 1. rewrite rd_bytes_at by lia. rewrite Z.add_0_r, Hat.
  destruct (holds_wr f Offset P Buf B2 start_size full_size) as (B3 & E3 & HB3); [done|unfold full_size in *; lia..|].
  exists B3. by rewrite E3.
Qed.
Lemma read_full_failed B2 :
  full_size <> 0 -> answers s (first_full, full_size) = false ->
  read_full blk n B2 (start_size + end_size) start_size first_full s = Some ((AVB_IO_RESULT_OK, B2, 0), s).
Proof.
  intros E Hf. pose proof full_size_nonneg. rewrite read_full_step by done. unfold mbind, M_bind.
  by rewrite read_block_run, Hf by lia.
Qed.

(** The three parts in a row. *)
Definition read_all : LD (AvbIOResult * list Z * Z) :=
  r ← read_start blk Offset n Buf;
  match r with
  | (Some Result, Buffer, OutNumRead, _, _) => mret (Result, Buffer, OutNumRead)
  | (None, Buffer, OutNumRead, StartPageReadSize, FullBlock) =>
    r ← read_end blk Offset n Buffer OutNumRead;
    match r with
    | (Some Result, Buffer, OutNumRead) => mret (Result, Buffer, OutNumRead)
    | (None, Buffer, OutNumRead) => read_full blk n Buffer OutNumRead StartPageReadSize FullBlock
    end
  end.
Lemma start_size_zero : start_size = 0 <-> Offset mod PS = 0.
Proof.
  split; [|intros E; unfold start_size; by rewrite E].
  intros H. destruct (decide (Offset mod PS = 0)) as [|E]; [done|]. pose proof (start_size_range E). lia.
Qed.
Lemma holds_behind P B1 :
  holds f Offset P Buf B1 -> (forall i, n <= Z.of_nat i -> P i = false) ->
  length B1 = length Buf /\ drop (Z.to_nat n) B1 = drop (Z.to_nat n) Buf.
Proof.
  intros [Hl Hi] HP. split; [done|]. apply list_eq. intros i. rewrite !lookup_drop.
  destruct (decide (Z.to_nat n + i < length Buf)%nat) as [Hb|Hb].
  - by rewrite Hi, HP by lia.
  - by rewrite !lookup_ge_None_2 by lia.
Qed.
Lemma read_all_spec :
  (forallb (answers s) block_requests = true ->
   read_all s = Some ((AVB_IO_RESULT_OK, bytes_at f Offset (Z.to_nat n) ++ drop (Z.to_nat n) Buf, n), s)) /\
  (forallb (answers s) block_requests = false ->
   exists Buf', read_all s = Some ((AVB_IO_RESULT_OK, Buf', 0), s) /\
     length Buf' = length Buf /\ drop (Z.to_nat n) Buf' = drop (Z.to_nat n) Buf).
Proof.
  pose proof parts as (Hs & He & _). pose proof full_size_nonneg as Hf.
  unfold read_all, block_requests. rewrite !forallb_app, !andb_true_iff, !andb_false_iff.
  assert (forall (x : Z) (r : Z * Z), forallb (answers s) (if x =? 0 then [] else [r]) = true <->
    (x <> 0 -> answers s r = true)) as Ht.
  { intros x r. destruct (Z.eqb_spec x 0); cbn [forallb]; [done|]. rewrite andb_true_r. naive_solver. }
  assert (forall (x : Z) (r : Z * Z), forallb (answers s) (if x =? 0 then [] else [r]) = false <->
    (x <> 0 /\ answers s r = false)) as Hn.
  { intros x r. destruct (Z.eqb_spec x 0); cbn [forallb]; [naive_solver|]. rewrite andb_true_r. naive_solver. }
  rewrite !Ht, !Hn, start_size_zero. split.
  - intros (H1 & H2 & H3). unfold mbind, M_bind. destruct (read_start_ok H1) as (B1 & -> & _ & HB1).
    destruct (read_end_ok _ _ HB1 H2) as (B2 & -> & HB2).
    destruct (read_full_ok _ _ HB2 H3) as (B3 & -> & HB3). do 4 f_equal.
    eapply holds_all; [lia|exact HB3|]. intros i. cbn beta. unfold within, full_size in *.
    destruct (Nat.ltb_spec i (Z.to_nat n)); lia.
  - intros H. unfold mbind, M_bind.
    destruct (decide (Offset mod PS <> 0 /\ answers s (Offset / PS, PS) = false)) as [[H1 H1']|H1].
    { rewrite read_start_failed by done. by exists Buf. }
    destruct read_start_ok as (B1 & -> & _ & HB1).
    { intros E. destruct (answers s (Offset / PS, PS)) eqn:Ea; [done|]. exfalso. by apply H1. }
    destruct (decide (end_size <> 0 /\ answers s ((n + Offset) / PS, PS) = false)) as [[H2 H2']|H2].
    { rewrite read_end_failed by done. exists B1. split; [done|].
      apply (holds_behind _ _ HB1). intros i Hi. unfold within. lia. }
    destruct (read_end_ok _ _ HB1) as (B2 & -> & HB2).
    { intros E. destruct (answers s ((n + Offset) / PS, PS)) eqn:Ea; [done|]. exfalso. by apply H2. }
    destruct H as [H|[H|[H3 H3']]]; [by destruct H1|by destruct H2|].
    rewrite read_full_failed by done. exists B2. split; [done|].
    apply (holds_behind _ _ HB2). intros i Hi. unfold within. lia.
Qed.
End one.

(** C24: a read of a partition that starts inside of it, counted from its start or, if
    negative, from its end, asks the device for at most three runs of whole blocks on it, when there is memory for
    one block and the buffer has room.
    When the device answers them all, the bytes of the partition there are in the buffer,
    as many as were asked for or are left, and no other byte of the buffer is touched,
    however the read lies in the blocks. When it does not answer one of them the result
    is OK all the same, with no bytes read, and the buffer behind the bytes asked for is
    untouched. *)
Theorem AvbReadFromPartition_reads s Partition h ReadOffset Offset NumBytes Buf
  (Hh : GetHandleInfo Partition = (AVB_IO_RESULT_OK, Some h)) (Hblk : BlkIo h = Some blk)
  (H32 : in_u32 (BlockSize blk)) (Hpool : PoolAvailable 0 (BlockSize blk) = true)
  (H64 : - 2 ^ 63 <= ReadOffset < 2 ^ 63)
  (HO : Offset = if ReadOffset <? 0 then (LastBlock blk + 1) * BlockSize blk + ReadOffset else ReadOffset)
  (Hin : 0 <= Offset <= (LastBlock blk + 1) * BlockSize blk)
  (Hn : 0 < NumBytes) (Hroom : NumBytes <= Z.of_nat (length Buf)) :
  let n := Z.min NumBytes ((LastBlock blk + 1) * BlockSize blk - Offset) in
  (0 < n -> Forall whole_blocks (block_requests Offset n)) /\
  (0 < n -> forallb (answers s) (block_requests Offset n) = false ->
   exists Buf', AvbReadFromPartition Partition ReadOffset NumBytes Buf s = Some ((AVB_IO_RESULT_OK, Buf', 0), s) /\
     length Buf' = length Buf /\ drop (Z.to_nat n) Buf' = drop (Z.to_nat n) Buf) /\
  ((0 < n -> forallb (answers s) (block_requests Offset n) = true) ->
   AvbReadFromPartition Partition ReadOffset NumBytes Buf s =
   Some ((AVB_IO_RESULT_OK,
          bytes_at (content (log (Boot s))) Offset (Z.to_nat n) ++ drop (Z.to_nat n) Buf, n), s)).
Proof.
  intros n. assert (LastBlock blk < 2 ^ 64) as Hl64 by nia.
  assert (read_offset ReadOffset ((LastBlock blk + 1) * BlockSize blk) = Some Offset) as Hro.
  { unfold read_offset. destruct (Z.ltb_spec ReadOffset 0).
    - rewrite u64_small by (unfold in_u64; lia).
      destruct (Z.ltb_spec ((LastBlock blk + 1) * BlockSize blk) (- ReadOffset)); [lia|]. f_equal. lia.
    - destruct (Z.ltb_spec ((LastBlock blk + 1) * BlockSize blk) ReadOffset); [lia|]. congruence. }
  assert (AvbReadFromPartition Partition ReadOffset NumBytes Buf s = read_all Offset n Buf s) as ->.
  { unfold AvbReadFromPartition. destruct (Z.leb_spec NumBytes 0); [lia|]. rewrite Hh, Hblk.
    rewrite GetPartitionSize_spec by (unfold in_u64, in_u32 in *; lia).
    destruct (Z.ltb_spec ((LastBlock blk + 1) * BlockSize blk) (2 ^ 64)) as [_|]; [|lia].
    destruct (Z.eqb_spec ((LastBlock blk + 1) * BlockSize blk) 0); [nia|].
    cbn [access]. unfold mbind at 1, M_bind at 1, access at 1. by rewrite Hro, Hpool. }
  split; [intros Hp; apply (block_requests_whole _ _ Buf); lia|].
  split; [intros Hp Hall; apply read_all_spec; (done || lia)|]. intros Hall.
  destruct (decide (0 < n)) as [Hp|Hz]; [apply read_all_spec; (auto || lia)|].
  assert (n = 0) as Hn0 by lia. assert (Offset = (LastBlock blk + 1) * BlockSize blk) as Heq by lia.
  unfold read_all, mbind, M_bind, read_start. rewrite Heq, Z.mod_mul, Z.eqb_refl by lia. cbn [mret M_ret].
  unfold read_end, read_full. rewrite Hn0. done.
Qed.
End read.

(** ** Keys *)
(** The key of the user that the device information holds. *)
Definition user_key (d : DeviceInfo) : list Z := take (Z.to_nat (user_public_key_length d)) (user_public_key d).
Definition user_key_ok (d : DeviceInfo) : Prop :=
  length (user_public_key d) = MAX_USER_KEY_SIZE /\
  0 <= user_public_key_length d <= Z.of_nat MAX_USER_KEY_SIZE.

Lemma same_key (key buf : list Z) (n : Z) :
  0 <= n <= Z.of_nat (length buf) ->
  ((Z.of_nat (length key) =? n) && bool_decide (take (length key) buf = key)) = bool_decide (key = take (Z.to_nat n) buf).
Proof.
  intros Hn. destruct (Z.eqb_spec (Z.of_nat (length key)) n) as [E|E]; cbn [andb].
  - subst n. rewrite Nat2Z.id. apply bool_decide_ext. split; congruence.
  - symmetry. apply bool_decide_eq_false. intros ->. rewrite length_take in E. lia.
Qed.

Section keys.
Context {FW : Firmware} {BL : BaseLib} {UL : UnicodeLib} {AL : AsciiLib} {BM : BootMode}.
Context {BC : BuildConfig} {LB : LoaderBuild} {VB : VerifiedBootProtocol} {LP : LabelledPartitions}.

(** What a validation leaves of the data it was given. *)
Definition trusted_data (d : DeviceInfo) (key : list Z) (u : AvbOpsUserData) : AvbOpsUserData :=
  set_PublicKey (key ++ drop (length key) (PublicKey u)) (Z.of_nat (length key))
    (set_IsUserKey (bool_decide (key = user_key d)) u).
Lemma trust_key_spec s key u :
  FirstReadDevInfo s = false -> user_key_ok (DevInfo s) -> length (PublicKey u) = MAX_USER_KEY_SIZE ->
  trust_key key u s =
  Some (if bool_decide (key = user_key (DevInfo s)) || bool_decide (key = OEMPublicKey)
        then (AVB_IO_RESULT_OK, true, trusted_data (DevInfo s) key u)
        else (AVB_IO_RESULT_OK, false,
              set_PublicKey (repeat 0 MAX_USER_KEY_SIZE) 0 (set_IsUserKey false u)), s).
Proof.
  intros Hf [Hl Hr] Hu. unfold trust_key, GetUserKey, dev, gets, mbind, M_bind, mret, M_ret.
  rewrite Hf. rewrite !same_key by lia. rewrite Nat2Z.id, (take_ge OEMPublicKey) by lia. fold (user_key (DevInfo s)).
  destruct (_ || _) eqn:E; [|done].
  assert (length key <= MAX_USER_KEY_SIZE)%nat as Hk.
  { apply orb_true_iff in E as [E|E]; apply bool_decide_eq_true in E as ->.
    - unfold user_key. rewrite length_take. lia.
    - apply Nat.leb_le. reflexivity. }
  destruct (Z.ltb_spec (Z.of_nat MAX_USER_KEY_SIZE) (Z.of_nat (length key))); [lia|].
  unfold access, wr. cbn [PublicKey set_IsUserKey orb Z.ltb Z.compare].
  destruct (Z.ltb_spec (Z.of_nat (length (PublicKey u))) (0 + Z.of_nat (length key))); [lia|]. done.
Qed.
End keys.

(** ** An example: four blocks of 16 bytes, numbered. *)
Definition avb_blk : EFI_BLOCK_IO_PROTOCOL := mk_blkio 5 0 16 3.
Definition avb_log : list device_event := [WriteBlocks 5 0 (Z.of_nat <$> seq 0 64)].
#[local] Instance avb_Firmware : Firmware := ram_Firmware 16 (bytes "UFS") (fun _ => []) (fun _ => None).
#[local] Instance avb_Partitions : LabelledPartitions := {|
  GetBlkIOHandlesByLabel _ Label _ :=
    (EFI_SUCCESS, if decide (Label = bytes "boot_a") then [mk_handle 9 (Some avb_blk)] else [])
|}.
#[local] Existing Instances reference_BaseLib reference_UnicodeLib reference_AsciiLib demo_BootMode demo_BuildConfig
  demo_LoaderBuild demo_VerifiedBoot.
Definition avb_loader : loader := mk_loader (set_log avb_log (demo_slots (first_boot_attributes 0) 0)) zero_dev_info false None.

(** Forty bytes from the tenth on: a part of a block, two blocks, a part of a block. *)
Lemma AvbReadFromPartition_reads_witness :
  AvbReadFromPartition (bytes "boot_a") 10 40 (repeat 255 44) avb_loader =
    Some ((AVB_IO_RESULT_OK, (Z.of_nat <$> seq 10 40) ++ repeat 255 4, 40), avb_loader) /\
  AvbReadFromPartition (bytes "boot_a") 10 40 (repeat 255 44) avb_loader =
    Some ((AVB_IO_RESULT_OK,
           bytes_at (ram_content 5 16 avb_log) 10 (Z.to_nat (Z.min 40 (64 - 10))) ++
           drop (Z.to_nat (Z.min 40 (64 - 10))) (repeat 255 44), Z.min 40 (64 - 10)), avb_loader).
Proof.
  split; [vm_compute; reflexivity|].
  apply (AvbReadFromPartition_reads avb_blk (ram_content 5 16) (BD := ram_BlockDevice 5 16 (bytes "UFS") _ _))
    with (h := mk_handle 9 (Some avb_blk)); try reflexivity; try (split; vm_compute; congruence).
  vm_compute. congruence.
Defined.
