(* ===== verification/SecureWorld.v ===== *)
(** * The secure world: TrustZone calls and the key master.

    The calls of [Platforms/QcomModulePkg/Library/avb/libavb/avb_util.c] that Qualcomm added
    to libavb (security state, software fuses, rollback version) and
    [Library/avb/KeymasterClient.c], which tells the key master what is booted.

    What is sent is a log; a request is its bytes. *)
From stdpp Require Import base numbers list option strings.
From Stdlib Require Import ZArith Lia Ascii.
From S2P Require Import Prelude BaseLib Unicode Storage Bytes Partitions Slots Flash DeviceInfo.
Local Open Scope Z_scope.

(** ** What is outside of the repository *)
Inductive secure_event :=
| SipSysCall (SmcId : Z) (Parameters : list Z)
| AppCommand (AppId : Z) (Req : list Z).

(** The answers may depend on all that was sent before. *)
Class SecureWorld := {
  LocateScm : EFI_STATUS;
  (** Status and the 64-bit words of the result; a word that is not there stays 0. *)
  ScmSipSysCall : list secure_event -> Z -> list Z -> EFI_STATUS * list Z;
  LocateQseecom : EFI_STATUS;
  QseecomStartApp : list secure_event -> list Z -> EFI_STATUS * Z;
  (** Status and the bytes of the response, of which there are as many as it has. *)
  QseecomSendCmd : list secure_event -> Z -> list Z -> nat -> EFI_STATUS * list Z;
  (** The copy of SHA-256 in libavb. *)
  avb_sha256 : list Z -> list Z
}.
Definition AVB_SHA256_DIGEST_SIZE : nat := 32.
Class SecureWorldLaws (SW : SecureWorld) := {
  avb_sha256_length data : length (avb_sha256 data) = AVB_SHA256_DIGEST_SIZE;
  QseecomSendCmd_length l a req n : length (snd (QseecomSendCmd l a req n)) = n
}.

(** ** Constants *)
Definition TZ_SYSCALL_CREATE_SMC_ID (o s f : Z) : Z :=
  u32 (Z.lor (Z.lor (Z.shiftl (Z.land o 0x3f) 24) (Z.shiftl (Z.land s 0xff) 8)) (Z.land f 0xff)).
Definition TZ_OWNER_SIP : Z := 2.
Definition TZ_SVC_BOOT : Z := 1.
Definition TZ_SVC_INFO : Z := 6.
Definition TZ_SVC_FUSE : Z := 8.
Definition TZ_UPDATE_ROLLBACK_VERSION_ID : Z := TZ_SYSCALL_CREATE_SMC_ID TZ_OWNER_SIP TZ_SVC_BOOT 0x1E.
Definition TZ_INFO_GET_FEATURE_VERSION_ID : Z := TZ_SYSCALL_CREATE_SMC_ID TZ_OWNER_SIP TZ_SVC_INFO 0x03.
Definition TZ_INFO_GET_SECURE_STATE : Z := TZ_SYSCALL_CREATE_SMC_ID TZ_OWNER_SIP TZ_SVC_INFO 0x4.
Definition TZ_BLOW_SW_FUSE_ID : Z := TZ_SYSCALL_CREATE_SMC_ID TZ_OWNER_SIP TZ_SVC_FUSE 0x01.
Definition TZ_IS_SW_FUSE_BLOWN_ID : Z := TZ_SYSCALL_CREATE_SMC_ID TZ_OWNER_SIP TZ_SVC_FUSE 0x02.
Definition TZ_HLOS_IMG_TAMPER_FUSE : Z := 0.
Definition TZ_HLOS_TAMPER_NOTIFY_FUSE : Z := 23.
Definition SECBOOT_FUSE : Z := 0.
Definition SHK_FUSE : Z := 1.
Definition DEBUG_DISABLED_FUSE : Z := 2.
Definition RPMB_ENABLED_FUSE : Z := 5.
Definition DEBUG_RE_ENABLED_FUSE : Z := 6.
Definition CHECK_BIT (var pos : Z) : bool := negb (Z.land var (Z.shiftl 1 pos) =? 0).
Definition TZ_FVER_QSEE : Z := 10.
Definition ERROR_SECURITY_STATE : Z := 0xFFFFFFFF.
(** EFIASN1X509.h: a status without the bit of an error. *)
Definition EFI_FAILURE : EFI_STATUS := EFI_WARNING 80.

Definition KEYMASTER_UTILS_CMD_ID : Z := 0x200.
Definition KEYMASTER_GET_VERSION : Z := KEYMASTER_UTILS_CMD_ID + 0.
Definition KEYMASTER_SET_ROT : Z := KEYMASTER_UTILS_CMD_ID + 1.
Definition KEYMASTER_SET_BOOT_STATE : Z := KEYMASTER_UTILS_CMD_ID + 8.
Definition KEYMASTER_SET_VBH : Z := KEYMASTER_UTILS_CMD_ID + 17.
Definition KEYMASTER_GET_DATE_SUPPORT : Z := KEYMASTER_UTILS_CMD_ID + 21.
Definition KM_ERROR_INVALID_TAG : Z := -40.

(** ** Data *)
(** EFIVerifiedBoot.h, in the order of the numbers. *)
Inductive boot_state_t := GREEN | ORANGE | YELLOW | RED | BOOT_STATE_MAX.
#[export] Instance boot_state_t_eq_dec : EqDecision boot_state_t.
Proof. solve_decision. Defined.
Definition boot_state_value (c : boot_state_t) : Z :=
  match c with GREEN => 0 | ORANGE => 1 | YELLOW => 2 | RED => 3 | BOOT_STATE_MAX => 0xFFFFFFFF end.
Record KMRotAndBootState := mk_rot {
  rot_IsUnlocked : bool;
  Color : boot_state_t;
  rot_PublicKey : list Z;
  SystemVersion : Z;
  SystemSecurityLevel : Z
}.

(** ** State: the loader and what was sent. *)
Record vb_state := mk_vb_state { VbLoader : loader; SecureLog : list secure_event }.
Abbreviation V := (M vb_state).
Definition loaderV {A} (m : LD A) : V A := fun s =>
  match m (VbLoader s) with Some (a, l) => Some (a, mk_vb_state l (SecureLog s)) | None => None end.
Definition storageV {A} (m : B A) : V A := loaderV (lift m).
Definition send (e : secure_event) (s : vb_state) : vb_state := mk_vb_state (VbLoader s) (SecureLog s ++ [e]).

Section secure.
Context {FW : Firmware} {BL : BaseLib} {UL : UnicodeLib} {SW : SecureWorld}.

(** ** avb_util.c *)
Definition sip_call (SmcId : Z) (Parameters : list Z) : V (EFI_STATUS * list Z) :=
  l ← gets SecureLog;
  _ ← modify (send (SipSysCall SmcId Parameters));
  mret (ScmSipSysCall l SmcId Parameters).
Definition result_word (i : nat) (Results : list Z) : Z := default 0 (Results !! i).

Definition ReadSecurityState : V Z :=
  if negb (is_success LocateScm) then mret ERROR_SECURITY_STATE else
  r ← sip_call TZ_INFO_GET_SECURE_STATE [];
  let (Status, Results) := r : EFI_STATUS * list Z in
  if negb (is_success Status) then mret ERROR_SECURITY_STATE else
  if negb (result_word 0 Results =? 1) then mret ERROR_SECURITY_STATE else
  mret (u32 (result_word 1 Results)).
(** The fuses of a device that only runs signed code. *)
Definition secure_fuses (SecureState : Z) (Type_ : MemCardType) : bool :=
  (negb (CHECK_BIT SecureState SECBOOT_FUSE) && negb (CHECK_BIT SecureState SHK_FUSE) &&
   negb (CHECK_BIT SecureState DEBUG_DISABLED_FUSE) && CHECK_BIT SecureState DEBUG_RE_ENABLED_FUSE) &&
  (bool_decide (Type_ = NAND) || negb (CHECK_BIT SecureState RPMB_ENABLED_FUSE)).
(** Status and answer; an answer that is not given is that of the caller. *)
Definition IsSecureDevice : V (EFI_STATUS * bool) :=
  SecureState ← ReadSecurityState;
  if SecureState =? ERROR_SECURITY_STATE then mret (EFI_LOAD_ERROR, false) else
  Type_ ← storageV CheckRootDeviceType;
  mret (EFI_SUCCESS, secure_fuses SecureState Type_).
Definition SetFuse (FuseId : Z) : V EFI_STATUS :=
  if negb (is_success LocateScm) then mret EFI_LOAD_ERROR else
  r ← sip_call TZ_BLOW_SW_FUSE_ID [FuseId];
  mret (fst r).
Definition GetFuse (FuseId : Z) : V (EFI_STATUS * bool) :=
  if negb (is_success LocateScm) then mret (EFI_LOAD_ERROR, false) else
  r ← sip_call TZ_IS_SW_FUSE_BLOWN_ID [FuseId];
  let (Status, Results) := r : EFI_STATUS * list Z in
  mret (Status, is_success Status && (result_word 1 Results =? 1)).
Definition ScmGetFeatureVersion (FeatureId : Z) : V (EFI_STATUS * Z) :=
  if negb (is_success LocateScm) then mret (LocateScm, 0) else
  r ← sip_call TZ_INFO_GET_FEATURE_VERSION_ID [FeatureId];
  let (Status, Results) := r : EFI_STATUS * list Z in
  if negb (is_success Status) then mret (Status, 0) else
  if negb (result_word 0 Results =? 1) then mret (EFI_DEVICE_ERROR, 0) else
  mret (EFI_SUCCESS, u32 (result_word 1 Results)).
Definition version_major (version : Z) : Z := Z.land (Z.shiftr version 22) 0x3FF.
Definition version_minor (version : Z) : Z := Z.land (Z.shiftr version 12) 0x3FF.
Definition AllowSetFuse : V bool :=
  r ← ScmGetFeatureVersion TZ_FVER_QSEE;
  let (Status, version) := r : EFI_STATUS * Z in
  mret (is_success Status &&
        ((4 <? version_major version) || ((version_major version =? 4) && (0 <? version_minor version)))).
(** A status of TrustZone becomes that of the function: 0 is success, a negative one has
    the bit of an error. *)
Definition status_of_tz (z : Z) : EFI_STATUS :=
  match z with Z0 => EFI_SUCCESS | Zpos p => EFI_WARNING p | Zneg _ => EFI_DEVICE_ERROR end.
Definition UpdateRollbackSyscall : V EFI_STATUS :=
  if negb (is_success LocateScm) then mret EFI_FAILURE else
  r ← ScmGetFeatureVersion TZ_FVER_QSEE;
  let (Status, FeatureVersion) := r : EFI_STATUS * Z in
  if negb (is_success Status) then mret EFI_FAILURE else
  if (5 <? version_major FeatureVersion) ||
     ((version_major FeatureVersion =? 5) && (1 <? version_minor FeatureVersion)) then
    r ← sip_call TZ_UPDATE_ROLLBACK_VERSION_ID [];
    let (Status, Results) := r : EFI_STATUS * list Z in
    if negb (is_success Status) then mret EFI_FAILURE else
    if negb (result_word 0 Results =? 1) then mret (status_of_tz (result_word 0 Results)) else mret EFI_SUCCESS
  else mret EFI_SUCCESS.

(** ** KeymasterClient.c *)
Definition send_cmd (AppId : Z) (Req : list Z) (RspSize : nat) : V (EFI_STATUS * list Z) :=
  l ← gets SecureLog;
  _ ← modify (send (AppCommand AppId Req));
  mret (QseecomSendCmd l AppId Req RspSize).
(** The field [Status] of a response, a signed number. *)
Definition rsp_status (Rsp : list Z) : Z := s32 (le 4 Rsp 0).
Definition KMGetVersionReq : list Z := le_bytes 4 KEYMASTER_GET_VERSION.
Definition SIZEOF_KMGetVersionRsp : nat := 20.
Definition OFFSET_Major : Z := 4.
Definition KeyMasterStartApp : V (EFI_STATUS * Z) :=
  if negb (is_success LocateQseecom) then mret (LocateQseecom, 0) else
  l ← gets SecureLog;
  let (Status, AppId) := QseecomStartApp l (bytes "keymaster") in
  if negb (is_success Status) then mret (Status, 0) else
  r ← send_cmd AppId KMGetVersionReq SIZEOF_KMGetVersionRsp;
  let (Status, Rsp) := r : EFI_STATUS * list Z in
  if negb (is_success Status) || negb (rsp_status Rsp =? 0) || (le 4 Rsp OFFSET_Major <? 2)
  then mret (EFI_LOAD_ERROR, AppId) else mret (EFI_SUCCESS, AppId).

Definition byte_of_bool (b : bool) : list Z := [if b then 1 else 0].
Definition OFFSET_RotDigest : Z := 12.
Definition KMSetRotReq (RotDigest : list Z) : list Z :=
  le_bytes 4 KEYMASTER_SET_ROT ++ le_bytes 4 OFFSET_RotDigest ++
  le_bytes 4 (Z.of_nat AVB_SHA256_DIGEST_SIZE) ++ RotDigest.
Definition OFFSET_BootState : Z := 16.
Definition SIZEOF_KMBootState : Z := 48.
Definition KMSetBootStateReq (BootState : KMRotAndBootState) (BootStateDigest : list Z) : list Z :=
  le_bytes 4 KEYMASTER_SET_BOOT_STATE ++ le_bytes 4 0 ++ le_bytes 4 OFFSET_BootState ++
  le_bytes 4 SIZEOF_KMBootState ++
  (le_bytes 4 (if rot_IsUnlocked BootState then 1 else 0) ++ BootStateDigest ++
   le_bytes 4 (boot_state_value (Color BootState)) ++ le_bytes 4 (SystemVersion BootState) ++
   le_bytes 4 (SystemSecurityLevel BootState)).
(** The two digests, for a state that may boot. *)
Definition rot_digests (BootState : KMRotAndBootState) : option (list Z * list Z) :=
  match Color BootState with
  | GREEN | YELLOW =>
    Some (avb_sha256 (rot_PublicKey BootState ++ byte_of_bool (rot_IsUnlocked BootState)),
          avb_sha256 (rot_PublicKey BootState))
  | ORANGE => Some (avb_sha256 (byte_of_bool (rot_IsUnlocked BootState)), repeat 0 AVB_SHA256_DIGEST_SIZE)
  | _ => None
  end.
Definition set_tamper_fuses : V EFI_STATUS :=
  Status ← SetFuse TZ_HLOS_IMG_TAMPER_FUSE;
  if negb (is_success Status) then mret Status else
  SetFuse TZ_HLOS_TAMPER_NOTIFY_FUSE.
Definition KeyMasterSetRotAndBootState (BootState : KMRotAndBootState) : V EFI_STATUS :=
  match rot_digests BootState with
  | None => mret EFI_LOAD_ERROR
  | Some (RotDigest, BootStateDigest) =>
    r ← KeyMasterStartApp;
    let (Status, AppId) := r : EFI_STATUS * Z in
    if negb (is_success Status) then mret Status else
    r ← send_cmd AppId (KMSetRotReq RotDigest) 4;
    let (Status, Rsp) := r : EFI_STATUS * list Z in
    if negb (is_success Status) || negb (rsp_status Rsp =? 0) then mret EFI_LOAD_ERROR else
    r ← send_cmd AppId (KMSetBootStateReq BootState BootStateDigest) 4;
    let (Status, Rsp) := r : EFI_STATUS * list Z in
    if negb (is_success Status) || negb (rsp_status Rsp =? 0) then mret EFI_LOAD_ERROR else
    r ← IsSecureDevice;
    let (Status, secure_device) := r : EFI_STATUS * bool in
    if is_success Status && secure_device && negb (bool_decide (Color BootState = GREEN)) then
      allowed ← AllowSetFuse;
      if allowed : bool then set_tamper_fuses else mret Status
    else mret Status
  end.

Definition KMSetVbhReq (Vbh : list Z) : list Z := le_bytes 4 KEYMASTER_SET_VBH ++ Vbh.
Definition SetVerifiedBootHash (Vbh : list Z) : V EFI_STATUS :=
  if negb (length Vbh =? AVB_SHA256_DIGEST_SIZE)%nat then mret EFI_INVALID_PARAMETER else
  r ← KeyMasterStartApp;
  let (Status, AppId) := r : EFI_STATUS * Z in
  if negb (is_success Status) then mret Status else
  r ← send_cmd AppId (KMSetVbhReq Vbh) 4;
  let (Status, Rsp) := r : EFI_STATUS * list Z in
  if negb (is_success Status) || negb (rsp_status Rsp =? 0) then
    mret (if is_success Status && (rsp_status Rsp =? KM_ERROR_INVALID_TAG) then EFI_SUCCESS else EFI_LOAD_ERROR)
  else mret EFI_SUCCESS.
Definition KMGetDateSupportReq : list Z := le_bytes 4 KEYMASTER_GET_DATE_SUPPORT.
(** Status and answer. *)
Definition KeyMasterGetDateSupport : V (EFI_STATUS * bool) :=
  r ← KeyMasterStartApp;
  let (Status, AppId) := r : EFI_STATUS * Z in
  if negb (is_success Status) then mret (Status, false) else
  r ← send_cmd AppId KMGetDateSupportReq 4;
  let (Status, Rsp) := r : EFI_STATUS * list Z in
  if negb (is_success Status) || negb (rsp_status Rsp =? 0) then
    if is_success Status && (rsp_status Rsp =? KM_ERROR_INVALID_TAG) then mret (EFI_SUCCESS, false)
    else mret (EFI_LOAD_ERROR, false)
  else mret (EFI_SUCCESS, true).
End secure.
