(* ===== verification/SecureWorldSpec.v ===== *)
(** * What is sent to the secure world.

    SecureWorld.v: the log only grows, and the key master is told the root of trust and the
    state of the boot before the boot goes on. *)
From stdpp Require Import base numbers list option strings.
From Stdlib Require Import ZArith Lia.
From S2P Require Import Prelude BaseLib Unicode Storage Bytes Partitions Slots Flash DeviceInfo SecureWorld.
Local Open Scope Z_scope.

Lemma is_failed s : negb (is_success s) = true -> s <> EFI_SUCCESS.
Proof. by intros H%negb_true_iff%bool_decide_eq_false. Qed.
Lemma not_failed s : negb (is_success s) = false -> s = EFI_SUCCESS.
Proof. by intros H%negb_false_iff%bool_decide_eq_true. Qed.

(** ** The log *)
Definition log_grows (s s' : vb_state) : Prop := exists l, SecureLog s' = SecureLog s ++ l.
#[export] Instance log_grows_refl : Reflexive log_grows.
Proof. intros s. exists []. by rewrite app_nil_r. Qed.
#[export] Instance log_grows_trans : Transitive log_grows.
Proof. intros s1 s2 s3 [l H] [l' H']. exists (l ++ l'). by rewrite H', H, app_assoc. Qed.
Definition grows {A} (m : V A) : Prop := forall s a s', m s = Some (a, s') -> log_grows s s'.

Lemma grows_ret {A} (a : A) : grows (mret a).
Proof. by intros s b s' [= _ <-]. Qed.
Lemma grows_bind {A B} (m : V A) (f : A -> V B) : grows m -> (forall a, grows (f a)) -> grows (m ≫= f).
Proof.
  intros Hm Hf s b s' H. rewrite bind_run in H. destruct (m s) as [[a s1]|] eqn:E; [|done].
  etransitivity; [eapply Hm|eapply Hf]; eassumption.
Qed.
Lemma grows_gets {A} (f : vb_state -> A) : grows (gets f).
Proof. by intros s a s' [= _ <-]. Qed.
Lemma grows_send e : grows (modify (send e)).
Proof. intros s a s' [= _ <-]. by exists [e]. Qed.
Lemma loaderV_log {A} (m : LD A) s a s' : loaderV m s = Some (a, s') -> SecureLog s' = SecureLog s.
Proof. unfold loaderV. destruct (m (VbLoader s)) as [[x l]|]; [by intros [= _ <-]|done]. Qed.
Lemma grows_loaderV {A} (m : LD A) : grows (loaderV m).
Proof. intros s a s' H%loaderV_log. exists []. by rewrite app_nil_r. Qed.
#[export] Hint Resolve grows_ret grows_gets grows_send grows_loaderV : s2p.
Ltac grows :=
  repeat match goal with
  | |- grows (_ ≫= _) => apply grows_bind; [|intros ?]
  | |- grows (let (_, _) := ?x in _) => destruct x
  | |- grows (if ?b then _ else _) => destruct b
  | |- grows (match ?x with _ => _ end) => destruct x
  | |- grows _ => solve [auto with s2p nocore]
  end.

Section secure.
Context {FW : Firmware} {BL : BaseLib} {UL : UnicodeLib} {SW : SecureWorld}.

Lemma grows_sip_call i p : grows (sip_call i p).
Proof. unfold sip_call. grows. Qed.
Lemma grows_send_cmd a q n : grows (send_cmd a q n).
Proof. unfold send_cmd. grows. Qed.
Hint Resolve grows_sip_call grows_send_cmd : s2p.
Lemma grows_IsSecureDevice : grows IsSecureDevice.
Proof. unfold IsSecureDevice, ReadSecurityState, storageV. grows. Qed.
Lemma grows_ScmGetFeatureVersion f : grows (ScmGetFeatureVersion f).
Proof. unfold ScmGetFeatureVersion. grows. Qed.
Hint Resolve grows_IsSecureDevice grows_ScmGetFeatureVersion : s2p.
Lemma grows_AllowSetFuse : grows AllowSetFuse.
Proof. unfold AllowSetFuse. grows. Qed.
Lemma grows_SetFuse f : grows (SetFuse f).
Proof. unfold SetFuse. grows. Qed.
Hint Resolve grows_AllowSetFuse grows_SetFuse : s2p.
Lemma grows_set_tamper_fuses : grows set_tamper_fuses.
Proof. unfold set_tamper_fuses. grows. Qed.
Hint Resolve grows_set_tamper_fuses : s2p.

(** ** The key master *)
Lemma send_cmd_log a q n s r s' :
  send_cmd a q n s = Some (r, s') -> s' = send (AppCommand a q) s.
Proof. unfold send_cmd. run. by intros [= _ <-]. Qed.
Lemma KeyMasterStartApp_started s id s' :
  KeyMasterStartApp s = Some ((EFI_SUCCESS, id), s') -> s' = send (AppCommand id KMGetVersionReq) s.
Proof.
  unfold KeyMasterStartApp. case_if; [apply is_failed in E; by intros [= ? _ _]|]. run.
  destruct (QseecomStartApp _ _) as [St app]. case_if; [apply is_failed in E0; by intros [= ? _ _]|]. run.
  destruct (send_cmd _ _ _ s) as [[[St' Rsp] s1]|] eqn:Es; [|done]. apply send_cmd_log in Es as ->.
  case_if; [done|]. by intros [= <- <-].
Qed.
(** A success means that all three messages went out, in this order. *)
Lemma KeyMasterSetRotAndBootState_log BootState s s' :
  KeyMasterSetRotAndBootState BootState s = Some (EFI_SUCCESS, s') ->
  exists rot state id l,
    rot_digests BootState = Some (rot, state) /\
    SecureLog s' = SecureLog s ++
      [AppCommand id KMGetVersionReq; AppCommand id (KMSetRotReq rot); AppCommand id (KMSetBootStateReq BootState state)] ++ l.
Proof.
  unfold KeyMasterSetRotAndBootState. destruct (rot_digests BootState) as [[rot state]|]; [|done]. run.
  destruct (KeyMasterStartApp s) as [[[St id] s1]|] eqn:Ea; [|done].
  case_if; [apply is_failed in E; by intros [= ? _]|]. apply not_failed in E as ->.
  apply KeyMasterStartApp_started in Ea as ->. run.
  destruct (send_cmd _ _ _ _) as [[[St' Rsp] s2]|] eqn:Eb; [|done]. apply send_cmd_log in Eb as ->.
  case_if; [done|]. run.
  destruct (send_cmd _ _ _ _) as [[[St'' Rsp'] s3]|] eqn:Ec; [|done]. apply send_cmd_log in Ec as ->.
  case_if; [done|]. intros H.
  enough (log_grows (send (AppCommand id (KMSetBootStateReq BootState state))
            (send (AppCommand id (KMSetRotReq rot)) (send (AppCommand id KMGetVersionReq) s))) s') as [l Hl].
  { exists rot, state, id, l. split; [done|]. rewrite Hl. cbn. by rewrite <-!app_assoc. }
  revert H. eapply grows_bind; [apply grows_IsSecureDevice|]. intros [x y]. grows.
Qed.
Lemma SetVerifiedBootHash_log Vbh s s' :
  SetVerifiedBootHash Vbh s = Some (EFI_SUCCESS, s') ->
  exists id, SecureLog s' = SecureLog s ++ [AppCommand id KMGetVersionReq; AppCommand id (KMSetVbhReq Vbh)].
Proof.
  unfold SetVerifiedBootHash. case_if; [done|]. run.
  destruct (KeyMasterStartApp s) as [[[St id] s1]|] eqn:Ea; [|done].
  case_if; [apply is_failed in E0; by intros [= ? _]|]. apply not_failed in E0 as ->.
  apply KeyMasterStartApp_started in Ea as ->. run.
  destruct (send_cmd _ _ _ _) as [[[St' Rsp] s2]|] eqn:Eb; [|done]. apply send_cmd_log in Eb as ->.
  intros H. exists id. case_if_in H; [injection H as _ <-|injection H as <-]; cbn; by rewrite <-app_assoc.
Qed.
Lemma grows_KeyMasterGetDateSupport : grows KeyMasterGetDateSupport.
Proof. unfold KeyMasterGetDateSupport, KeyMasterStartApp. grows. Qed.
Lemma grows_UpdateRollbackSyscall : grows UpdateRollbackSyscall.
Proof. unfold UpdateRollbackSyscall. grows. Qed.
End secure.
#[export] Hint Resolve grows_IsSecureDevice grows_KeyMasterGetDateSupport grows_UpdateRollbackSyscall : s2p.
