(* ===== verification/VerifiedBoot.v ===== *)
(** * Verified boot: which images are booted, and in which state.

    [Platforms/QcomModulePkg/Library/avb/VerifiedBoot.c]: loading without verification,
    with the first version of verified boot, with the second one on top of libavb, with the
    signatures of LE builds, and [LoadImageAndAuth], which chooses.

    The images are the contents of their buffers.  libavb, a library of Android that is
    copied into the repository, is a class; so are the protocols of the firmware. *)
From stdpp Require Import base numbers list option strings.
From Stdlib Require Import ZArith Lia Ascii.
From S2P Require Import Prelude BaseLib Unicode Storage Bytes Gpt BootLinux Partitions Slots Flash DeviceInfo Recovery Board BootImage CmdLine AvbOps SecureWorld.
Local Open Scope Z_scope.

(** ** libavb *)
Inductive AvbSlotVerifyResult :=
| AVB_SLOT_VERIFY_RESULT_OK
| AVB_SLOT_VERIFY_RESULT_ERROR_OOM
| AVB_SLOT_VERIFY_RESULT_ERROR_IO
| AVB_SLOT_VERIFY_RESULT_ERROR_VERIFICATION
| AVB_SLOT_VERIFY_RESULT_ERROR_ROLLBACK_INDEX
| AVB_SLOT_VERIFY_RESULT_ERROR_PUBLIC_KEY_REJECTED
| AVB_SLOT_VERIFY_RESULT_ERROR_INVALID_METADATA
| AVB_SLOT_VERIFY_RESULT_ERROR_UNSUPPORTED_VERSION
| AVB_SLOT_VERIFY_RESULT_ERROR_INVALID_ARGUMENT.
#[export] Instance AvbSlotVerifyResult_eq_dec : EqDecision AvbSlotVerifyResult.
Proof. solve_decision. Defined.
Inductive AvbHashtreeErrorMode :=
| AVB_HASHTREE_ERROR_MODE_RESTART_AND_INVALIDATE
| AVB_HASHTREE_ERROR_MODE_RESTART
| AVB_HASHTREE_ERROR_MODE_EIO
| AVB_HASHTREE_ERROR_MODE_LOGGING.
(** The flags of a verification. *)
Record AvbSlotVerifyFlags := mk_flags { ALLOW_VERIFICATION_ERROR : bool; NO_VBMETA_PARTITION : bool }.
Record AvbPartitionData := mk_partition_data { partition_name : list Z; data : list Z }.
Record AvbSlotVerifyData := mk_slot_data {
  loaded_partitions : list AvbPartitionData;
  vbmeta_images : list (list Z);
  slot_cmdline : list Z
}.
(** What is asked of [avb_slot_verify]: partitions, slot, flags and error mode. *)
Record verify_request := mk_request {
  requested_partitions : list (list Z);
  ab_suffix : list Z;
  verify_flags : AvbSlotVerifyFlags;
  hashtree_error_mode : AvbHashtreeErrorMode
}.
(** The verification calls the operations of AvbOps.v, through which it changes the user
    data and the rollback indices.  [avb_property_lookup]: image and name. *)
Class Libavb := {
  avb_slot_verify : loader -> AvbOpsUserData -> verify_request ->
    (AvbSlotVerifyResult * option AvbSlotVerifyData) * (loader * AvbOpsUserData);
  avb_property_lookup : list Z -> list Z -> option (list Z)
}.

(** ** The protocols *)
Class VerifiedBootCalls := {
  VbRevision : Z;
  VBDeviceInit : bool -> bool -> EFI_STATUS;
  (** Name and image: status and the state it leaves. *)
  VBVerifyImage : list Z -> list Z -> EFI_STATUS * boot_state_t;
  VBSendRot : EFI_STATUS;
  VBSendMilestone : EFI_STATUS;
  VBGetCertFingerPrint : nat -> EFI_STATUS * list Z;
  MdtpDeactivate : EFI_STATUS;
  (** The signatures of LE builds: certificates, hashes and RSA. *)
  LeOemCertificate : list Z;
  LocateAsn1X509 : EFI_STATUS;
  ASN1X509VerifyOEMCertificate : list Z -> EFI_STATUS * Z;
  ASN1X509GetRSAFromCert : Z -> EFI_STATUS * Z;
  ASN1X509GetKeymaterial : Z -> EFI_STATUS * (list Z * list Z);
  LocateHash2 : EFI_STATUS;
  GetHashSize : EFI_STATUS * Z;
  HashInit : EFI_STATUS;
  HashUpdate : list Z -> EFI_STATUS;
  HashFinal : list Z -> EFI_STATUS * list Z;
  LocateSecRSA : EFI_STATUS;
  SecRSABigIntReadBin : list Z -> EFI_STATUS * Z;
  (** Modulus, exponent, hash, signature. *)
  SecRSAVerifySig : Z -> Z -> list Z -> list Z -> EFI_STATUS;
  (** What the stack holds where a slot was not filled in. *)
  stack_slot : Slot
}.

(** ** Constants *)
Definition QCOM_VERIFIEDBOOT_PROTOCOL_REVISION : Z := 0x10002.
Definition VB_SHA256_SIZE : nat := 32.
Definition LE_BOOTIMG_SIG_SIZE : nat := 256.
Definition MAX_NUMBER_OF_LOADED_IMAGES : nat := 32.
Definition MAX_NUM_REQ_PARTITION : nat := 8.
Definition MAX_PROPERTY_SIZE : nat := 10.
Definition DTB_PAD_SIZE : nat := 2048.
Definition SIZEOF_AvbOpsUserData : Z := 2064.
Definition SIZEOF_AvbOps : Z := 96.
Definition SIZEOF_VB2Data : Z := 16.
Definition AllowEio : bool := false.
Definition VerityMode : list Z := bytes " androidboot.veritymode=".
Definition VerifiedState : list Z := bytes " androidboot.verifiedbootstate=".
Definition KeymasterLoadState : list Z := bytes " androidboot.keymaster=1".
Definition DmVerityCmd : list Z :=
  bytes " root=/dev/dm-0 dm=" ++ dquote :: bytes "system none ro,0 1 android-verity".
Definition Space : list Z := bytes " ".
(** [avb_verify_partition_name], by [img_type]. *)
Definition IMG_BOOT : list Z := bytes "boot".
Definition IMG_DTBO : list Z := bytes "dtbo".
Definition IMG_RECOVERY : list Z := bytes "recovery".
Definition IMG_VENDOR_BOOT : list Z := bytes "vendor_boot".
Definition VbVm (enforcing : bool) : list Z := if enforcing then bytes "enforcing" else bytes "logging".
(** [BOOT_STATE_MAX] is an index outside of the table. *)
Definition VbSn (s : boot_state_t) : option (list Z) :=
  match s with
  | GREEN => Some (bytes "green") | ORANGE => Some (bytes "orange")
  | YELLOW => Some (bytes "yellow") | RED => Some (bytes "red") | BOOT_STATE_MAX => None
  end.
(** [os_version] of the two layouts of the header. *)
Definition hdr_os_version (h : list Z) : option Z := field 4 h 44.
Definition v3_os_version (h : list Z) : option Z := field 4 h 16.

(** ** BootInfo *)
(** An image with the contents of its buffer, [None] for NULL. *)
Record LoadedImage := mk_loaded { ImgName : list Z; ImgBuffer : option (list Z); ImgSize : Z }.
(** [NumLoadedImages] is the length of the list, [VBCmdLineFilledLen] that of the text. *)
Record BootInfo := mk_info {
  InfoMultiSlot : bool;
  InfoRecovery : bool;
  InfoAlarm : bool;
  InfoPname : list Z;
  InfoImages : list LoadedImage;
  BootState : boot_state_t;
  InfoCmdLine : option (list Z);
  InfoVBData : option AvbSlotVerifyData;
  InfoHeaderVersion : Z
}.
Definition set_Pname x i := mk_info (InfoMultiSlot i) (InfoRecovery i) (InfoAlarm i) x (InfoImages i)
  (BootState i) (InfoCmdLine i) (InfoVBData i) (InfoHeaderVersion i).
Definition set_Images x i := mk_info (InfoMultiSlot i) (InfoRecovery i) (InfoAlarm i) (InfoPname i) x
  (BootState i) (InfoCmdLine i) (InfoVBData i) (InfoHeaderVersion i).
Definition set_BootState x i := mk_info (InfoMultiSlot i) (InfoRecovery i) (InfoAlarm i) (InfoPname i) (InfoImages i)
  x (InfoCmdLine i) (InfoVBData i) (InfoHeaderVersion i).
Definition set_InfoCmdLine x i := mk_info (InfoMultiSlot i) (InfoRecovery i) (InfoAlarm i) (InfoPname i) (InfoImages i)
  (BootState i) x (InfoVBData i) (InfoHeaderVersion i).
Definition set_VBData x i := mk_info (InfoMultiSlot i) (InfoRecovery i) (InfoAlarm i) (InfoPname i) (InfoImages i)
  (BootState i) (InfoCmdLine i) x (InfoHeaderVersion i).
Definition set_InfoHeaderVersion x i := mk_info (InfoMultiSlot i) (InfoRecovery i) (InfoAlarm i) (InfoPname i)
  (InfoImages i) (BootState i) (InfoCmdLine i) (InfoVBData i) x.

(** ** Early exits.  A function that works on a [BootInfo] goes on with a value, returns at
    once, or goes to its label [out]. *)
Inductive leave := Return_ (Status : EFI_STATUS) | Out (Status : EFI_STATUS).
Definition G (A : Type) : Type := BootInfo -> V (BootInfo * (leave + A)).
#[export] Instance G_ret : MRet G := fun A a i => mret (i, inr a).
#[export] Instance G_bind : MBind G := fun A B f m i =>
  r ← m i;
  match r : BootInfo * (leave + A) with
  | (i, inl x) => mret (i, inl x)
  | (i, inr a) => f a i
  end.
Definition leaving {A} (x : leave) : G A := fun i => mret (i, inl x).
Definition info {A} (f : BootInfo -> A) : G A := fun i => mret (i, inr (f i)).
Definition change (f : BootInfo -> BootInfo) : G unit := fun i => mret (f i, inr tt).
Definition run {A} (m : V A) : G A := fun i => a ← m; mret (i, inr a).
Definition fetch {A} (o : option A) : G A := run (access o).
(** The macros [GUARD] and [GUARD_OUT]. *)
Definition GUARD (Status : EFI_STATUS) : G unit :=
  if is_success Status then mret tt else leaving (Return_ Status).
Definition GUARD_OUT (Status : EFI_STATUS) : G unit :=
  if is_success Status then mret tt else leaving (Out Status).
(** A function called for its status. *)
Definition call (m : G unit) : G EFI_STATUS := fun i =>
  r ← m i;
  match r : BootInfo * (leave + unit) with
  | (i, inl (Return_ Status)) | (i, inl (Out Status)) => mret (i, inr Status)
  | (i, inr _) => mret (i, inr EFI_SUCCESS)
  end.

Section verified_boot.
Context {FW : Firmware} {BL : BaseLib} {UL : UnicodeLib} {AL : AsciiLib} {AC : AsciiCatLib}.
Context {BC : BuildConfig} {LB : LoaderBuild} {VB : VerifiedBootProtocol} {BM : BootMode}.
Context {BP : BoardProtocols} {BK : BootBuild} {QP : BootProtocols} {LP : LabelledPartitions}.
Context {SW : SecureWorld} {AV : Libavb} {VC : VerifiedBootCalls}.

(** ** The command line of verified boot *)
Definition AppendVBCmdLine (Src : list Z) : G unit :=
  text ← info InfoCmdLine;
  Dst ← fetch text;
  let SrcLen := AsciiStrLen Src in
  let (Status, rest) := AsciiStrnCatS [] (DTB_PAD_SIZE - length Dst) Src SrcLen in
  _ ← GUARD Status;
  change (set_InfoCmdLine (Some (Dst ++ rest))).
Definition AppendVBCommonCmdLine : G unit :=
  _ ← (if QCOM_VERIFIEDBOOT_PROTOCOL_REVISION <=? VbRevision then
         _ ← AppendVBCmdLine VerifiedState;
         s ← info BootState;
         name ← fetch (VbSn s);
         AppendVBCmdLine name
       else mret tt);
  _ ← AppendVBCmdLine KeymasterLoadState;
  AppendVBCmdLine Space.
Definition VBCommonInit : G unit :=
  _ ← change (set_BootState RED);
  GUARD LocateVerifiedBoot.
Definition VBAllocateCmdLine : G unit :=
  if negb (PoolAvailable 0 (Z.of_nat DTB_PAD_SIZE)) then leaving (Return_ EFI_OUT_OF_RESOURCES) else
  change (set_InfoCmdLine (Some [])).
(** The end of the field is written before it is read. *)
Definition IsRootCmdLineUpdated : G bool :=
  images ← info InfoImages;
  match images with
  | mk_loaded name (Some buf) size :: images' =>
    buf ← fetch (wr buf (OFFSET_cmdline + Z.of_nat BOOT_ARGS_SIZE - 1) [0]);
    _ ← change (set_Images (mk_loaded name (Some buf) size :: images'));
    ImageCmdLine ← fetch (c_string buf (Z.to_nat OFFSET_cmdline));
    mret (bool_decide (is_Some (AsciiStrStr ImageCmdLine (bytes "root="))))
  | _ => run crash
  end.

(** ** Loading without verification *)
(** The name of a partition of the current slot. *)
Definition slot_partition (RequestedPartition : list Z) : G (list Z) :=
  let (Status, Pname) := StrnCpyS [] MAX_GPT_NAME_SIZE RequestedPartition (StrLen RequestedPartition) in
  _ ← GUARD Status;
  multi ← info InfoMultiSlot;
  if multi : bool then
    CurrentSlot ← run (storageV GetCurrentSlotSuffix);
    let (Status, Pname) := StrnCatS Pname MAX_GPT_NAME_SIZE (Suffix CurrentSlot) (StrLen (Suffix CurrentSlot)) in
    _ ← GUARD Status;
    mret Pname
  else mret Pname.
Definition ascii_name (Pname : list Z) : option (list Z) :=
  c_string (snd (UnicodeStrToAsciiStrS Pname (repeat 0 MAX_GPT_NAME_SIZE) MAX_GPT_NAME_SIZE)) 0.
(** The status of the steps before the image is read; name, buffer and size after them. *)
Definition req_image_size (Pname : list Z) : V (EFI_STATUS * Z) :=
  index ← storageV (GetPartitionIndex Pname);
  match index with
  | None => mret (EFI_NO_MEDIA, 0)
  | Some _ =>
    if negb (PoolAvailable 0 SIZEOF_AvbOpsUserData) || negb (PoolAvailable 0 SIZEOF_AvbOps) ||
       negb (PoolAvailable 0 (Z.of_nat MAX_GPT_NAME_SIZE)) then mret (EFI_OUT_OF_RESOURCES, 0) else
    AsciiPname ← access (ascii_name Pname);
    let (AvbStatus, PartSize) := AvbGetSizeOfPartition AsciiPname in
    if negb (bool_decide (AvbStatus = AVB_IO_RESULT_OK)) || (PartSize =? 0) then mret (EFI_OUT_OF_RESOURCES, 0) else
    if bool_decide (is_Some (AsciiStrStr AsciiPname (bytes "dtbo"))) && (DTBO_MAX_SIZE_ALLOWED <? PartSize)
    then mret (EFI_OUT_OF_RESOURCES, 0) else
    if negb (PoolAvailable 0 PartSize) then mret (EFI_OUT_OF_RESOURCES, u32 PartSize) else
    mret (EFI_SUCCESS, u32 PartSize)
  end.
Definition NoAVBLoadReqImage (RequestedPartition : list Z)
  : G (EFI_STATUS * list Z * option (list Z) * Z) :=
  Pname ← slot_partition RequestedPartition;
  r ← run (req_image_size Pname);
  let (Status, DtboSize) := r : EFI_STATUS * Z in
  if negb (is_success Status) then mret (Status, Pname, None, DtboSize) else
  r ← run (storageV (LoadImageFromPartition DtboSize Pname));
  let (Status, DtboImage) := r : EFI_STATUS * list Z in
  mret (Status, Pname, Some DtboImage, DtboSize).
(** A failed name of a partition is a status like the others. *)
Definition load_requested (RequestedPartition : list Z)
  : G (EFI_STATUS * list Z * option (list Z) * Z) := fun i =>
  r ← NoAVBLoadReqImage RequestedPartition i;
  match r : BootInfo * (leave + EFI_STATUS * list Z * option (list Z) * Z) with
  | (i, inl (Return_ Status)) | (i, inl (Out Status)) => mret (i, inr (Status, [], None, 0))
  | r => mret r
  end.
Definition add_image (img : LoadedImage) : G unit := change (fun i => set_Images (InfoImages i ++ [img]) i).
Definition name_image (Pname : list Z) (Buffer : option (list Z)) (Size : Z) (Failed : EFI_STATUS) : G unit :=
  if negb (PoolAvailable 0 (Z.of_nat (StrLen Pname + 1))) then leaving (Return_ Failed) else
  name ← fetch (ascii_name Pname);
  add_image (mk_loaded name Buffer Size).
(** A failure that left no buffer goes on to the name. *)
Definition NoAVBLoadVendorBootImage : G unit :=
  r ← load_requested (bytes "vendor_boot");
  let '(Status, Pname, Buffer, Size) := r : EFI_STATUS * list Z * option (list Z) * Z in
  if bool_decide (Status = EFI_NO_MEDIA) then mret tt else
  if negb (is_success Status) && bool_decide (is_Some Buffer) then leaving (Return_ Status) else
  name_image Pname Buffer Size EFI_OUT_OF_RESOURCES.
Definition load_header_of (Partition : list Z) : G (EFI_STATUS * option (list Z) * Z) :=
  Pname ← slot_partition Partition;
  run (storageV (LoadImageHeader Pname)).
Definition LoadVendorBootImageHeader : G (EFI_STATUS * option (list Z) * Z) := load_header_of (bytes "vendor_boot").
Definition LoadBootImageHeader : G (EFI_STATUS * option (list Z) * Z) := load_header_of (bytes "boot").

(** Loaded before, in the boot command of Fastboot. *)
Definition boot_image_loaded (images : list LoadedImage) : option (list Z) :=
  match images with
  | mk_loaded _ (Some buf) size :: _ => if 0 <? size then Some buf else None
  | _ => None
  end.
(** Page size, and whether the image was there before. *)
Definition LoadBootImageNoAuth : G (Z * bool) :=
  images ← info InfoImages;
  Pname ← info InfoPname;
  Recovery ← info InfoRecovery;
  let BootImageLoaded := boot_image_loaded images in
  r ← match BootImageLoaded with
      | Some buf => mret (EFI_SUCCESS, Some buf, BOOT_IMG_MAX_PAGE_SIZE)
      | None => run (storageV (LoadImageHeader Pname))
      end;
  let '(Status, ImageHdrBuffer, ImageHdrSize) := r : EFI_STATUS * option (list Z) * Z in
  match ImageHdrBuffer with
  | None => leaving (Return_ Status)
  | Some hdr =>
    if negb (is_success Status) then leaving (Return_ Status) else
    if ImageHdrSize <? SIZEOF_boot_img_hdr then leaving (Return_ EFI_BAD_BUFFER_SIZE) else
    let BootIntoRecovery := Recovery && negb (bool_decide (is_Some BootImageLoaded)) in
    version ← fetch (hdr_header_version hdr);
    _ ← change (set_InfoHeaderVersion version);
    vendor ← (if BOOT_HEADER_VERSION_THREE <=? version then
                r ← LoadVendorBootImageHeader;
                let '(Status, vendor, _) := r : EFI_STATUS * option (list Z) * Z in
                _ ← GUARD Status;
                mret (default [] vendor)
              else mret []);
    r ← fetch (CheckImageHeader hdr ImageHdrSize vendor 0 0 BootIntoRecovery);
    let '(Status, ImageSizeActual, PageSize) := r : EFI_STATUS * Z * Z in
    _ ← GUARD Status;
    _ ← match images, BootImageLoaded with
        | mk_loaded name _ _ :: images', Some buf =>
          change (set_Images (mk_loaded name (Some buf) ImageSizeActual :: images'))
        | _, _ =>
          r ← run (storageV (LoadImage Pname ImageSizeActual PageSize));
          let (Status, buf) := r : EFI_STATUS * option (list Z) in
          _ ← GUARD Status;
          _ ← change (set_Images []);
          name_image Pname buf ImageSizeActual EFI_OUT_OF_RESOURCES
        end;
    _ ← (if BOOT_HEADER_VERSION_THREE <=? version then NoAVBLoadVendorBootImage else mret tt);
    mret (PageSize, bool_decide (is_Some BootImageLoaded))
  end.
(** A failure after the boot image forgets all images. *)
Definition forget_images (Status : EFI_STATUS) : G unit :=
  _ ← change (set_Images []);
  leaving (Return_ Status).
Definition LoadImageNoAuth : G unit :=
  _ ← LoadBootImageNoAuth;
  r ← load_requested (bytes "dtbo");
  let '(Status, Pname, Buffer, Size) := r : EFI_STATUS * list Z * option (list Z) * Z in
  if bool_decide (Status = EFI_NO_MEDIA) then mret tt else
  if negb (is_success Status) then forget_images EFI_LOAD_ERROR else
  if negb (PoolAvailable 0 (Z.of_nat (StrLen Pname + 1))) then forget_images EFI_OUT_OF_RESOURCES else
  name_image Pname Buffer Size EFI_OUT_OF_RESOURCES.
(** The root device for the command line, where there is one. *)
Definition system_path : G (option (list Z)) :=
  multi ← info InfoMultiSlot;
  recovery ← info InfoRecovery;
  r ← run (loaderV (GetSystemPath multi recovery));
  let (SystemPath, SystemPathLen) := r : option (list Z) * nat in
  mret (if (SystemPathLen =? 0)%nat then None else SystemPath).
Definition append_system_path : G unit :=
  path ← system_path;
  match path with None => mret tt | Some SystemPath => AppendVBCmdLine SystemPath end.
Definition LoadImageNoAuthWrapper : G unit :=
  _ ← VBAllocateCmdLine;
  _ ← LoadImageNoAuth;
  if IsDynamicPartitionSupport then mret tt else
  root ← IsRootCmdLineUpdated;
  if root : bool then mret tt else append_system_path.

(** ** The first version of verified boot *)
(** "root=" is cut out of the path, in its buffer. *)
Definition cut_root (SystemPath : list Z) : option (list Z) :=
  let SystemPathLen := Z.of_nat (length SystemPath) in
  match AsciiStrStr SystemPath (bytes "root=") with
  | None => Some SystemPath
  | Some Temp =>
    let buf := put_string (repeat 0 MAX_PATH_SIZE) SystemPath in
    tail ← rd buf 6 (Z.to_nat (SystemPathLen - 6));
    buf ← wr buf (Z.of_nat Temp) tail;
    buf ← wr buf (SystemPathLen - 5) [0];
    c_string buf 0
  end.
Definition vb1_cmdline : G unit :=
  root ← IsRootCmdLineUpdated;
  _ ← (if root : bool then mret tt else
       path ← system_path;
       match path with
       | None => mret tt
       | Some SystemPath =>
         _ ← AppendVBCmdLine DmVerityCmd;
         SystemPath ← fetch (cut_root SystemPath);
         _ ← AppendVBCmdLine SystemPath;
         AppendVBCmdLine [dquote]
       end);
  _ ← AppendVBCommonCmdLine;
  _ ← AppendVBCmdLine VerityMode;
  enforcing ← run (loaderV IsEnforcing);
  AppendVBCmdLine (VbVm enforcing).
Definition image_bytes : G (list Z) :=
  images ← info InfoImages;
  match images with
  | mk_loaded _ (Some buf) size :: _ => fetch (rd buf 0 (Z.to_nat (u32 size)))
  | _ => run crash
  end.
Definition vb_device_init : G EFI_STATUS :=
  unlocked ← run (loaderV IsUnlocked);
  critical ← run (loaderV IsUnlockCritical);
  mret (VBDeviceInit unlocked critical).
(** The name of the image without its slot, behind a slash. *)
Definition vb1_name (multi : bool) (PnameAscii : list Z) : list Z :=
  let StrPnameAscii := snd (AsciiStrnCpyS [] MAX_GPT_NAME_SIZE (bytes "/") 1) in
  let Len := AsciiStrLen PnameAscii in
  snd (AsciiStrnCatS StrPnameAscii MAX_GPT_NAME_SIZE PnameAscii
         (if multi then (Len - (MAX_SLOT_SUFFIX_SZ - 1))%nat else Len)).
Definition LoadImageAndAuthVB1 : G unit :=
  _ ← VBCommonInit;
  _ ← VBAllocateCmdLine;
  _ ← LoadImageNoAuth;
  Status ← vb_device_init;
  _ ← GUARD Status;
  Pname ← info InfoPname;
  multi ← info InfoMultiSlot;
  PnameAscii ← fetch (ascii_name Pname);
  image ← image_bytes;
  let (Status, state) := VBVerifyImage (vb1_name multi PnameAscii) image in
  _ ← change (set_BootState state);
  if negb (is_success Status) || bool_decide (state = BOOT_STATE_MAX) then leaving (Return_ Status) else
  _ ← GUARD VBSendRot;
  _ ← vb1_cmdline;
  change (set_VBData None).

(** ** The second version of verified boot: libavb *)
Definition ResultShouldContinue (Result : AvbSlotVerifyResult) : bool :=
  match Result with
  | AVB_SLOT_VERIFY_RESULT_OK | AVB_SLOT_VERIFY_RESULT_ERROR_VERIFICATION
  | AVB_SLOT_VERIFY_RESULT_ERROR_ROLLBACK_INDEX | AVB_SLOT_VERIFY_RESULT_ERROR_PUBLIC_KEY_REJECTED => true
  | _ => false
  end.
(** A BOOLEAN: the version modulo 256. *)
Fixpoint header_version_of (images : list AvbPartitionData) (ImageName : list Z) : option Z :=
  match images with
  | [] => Some 0
  | p :: images' =>
    if decide (partition_name p = ImageName) then v ← hdr_header_version (data p); Some (u8 v)
    else header_version_of images' ImageName
  end.
Definition GetHeaderVersion (SlotData : AvbSlotVerifyData) (ImageName : list Z) : option Z :=
  header_version_of (loaded_partitions SlotData) ImageName.
Definition AddRequestedPartition (RequestedPartition : list (list Z)) (img : list Z) : list (list Z) :=
  if (length RequestedPartition <? MAX_NUM_REQ_PARTITION)%nat then RequestedPartition ++ [img] else RequestedPartition.
Definition ComputeVbMetaDigest (SlotData : AvbSlotVerifyData) : list Z := avb_sha256 (concat (vbmeta_images SlotData)).

(** [None] is the exit for a third separator; the text is bytes. *)
Record patch_level := mk_patch { PatchLevelYear : Z; PatchLevelMonth : Z; PatchLevelDate : Z; SeparatorCount : Z }.
Definition patch_step (p : patch_level) (c : Z) : option patch_level :=
  let '(mk_patch y m d n) := p in
  if c =? 45 then Some (mk_patch y m d (u32 (n + 1)))
  else if n =? 2 then Some (mk_patch y m (u32 (u32 (d * 10) + (c - 48))) n)
  else if n =? 1 then Some (mk_patch y (u32 (u32 (m * 10) + (c - 48))) d n)
  else if n =? 0 then Some (mk_patch (u32 (u32 (y * 10) + (c - 48))) m d n)
  else None.
Fixpoint patch_loop (BootSecurityLevel : list Z) (p : patch_level) : option patch_level :=
  match BootSecurityLevel with
  | [] => Some p
  | c :: l => p ← patch_step p c; patch_loop l p
  end.
Definition ParseBootSecurityLevel (BootSecurityLevel : list Z) : Z :=
  match patch_loop BootSecurityLevel (mk_patch 0 0 0 0) with
  | None => u32 (-1)
  | Some p => Z.lor (Z.lor (u32 (Z.shiftl (PatchLevelDate p) 11)) (u32 (Z.shiftl (u32 (PatchLevelYear p - 2000)) 4)))
                (PatchLevelMonth p)
  end.
(** The status of a failed copy is returned as a BOOLEAN. *)
Definition IsValidPartition (Slot_ : Slot) (Name : list Z) : V bool :=
  let failed Status := mret (negb (u8 (status_u32 Status) =? 0)) in
  let (Status, PartiName) := StrnCpyS [] MAX_GPT_NAME_SIZE Name (StrLen Name) in
  if negb (is_success Status) then failed Status else
  let (Status, PartiName) := StrnCatS PartiName MAX_GPT_NAME_SIZE (Suffix Slot_) (StrLen (Suffix Slot_)) in
  if negb (is_success Status) then failed Status else
  Index ← storageV (GetPartitionIndex PartiName);
  mret (match Index with None => false | Some i => (i <? MAX_NUM_PARTITIONS)%nat end).

(** *** Asking libavb *)
(** What a verification leaves: requested partitions, result, data, user data. *)
Record verified := mk_verified {
  Requested : list (list Z);
  Result : AvbSlotVerifyResult;
  SlotData : option AvbSlotVerifyData;
  UserData : AvbOpsUserData
}.
Definition verify_slot (req : verify_request) (u : AvbOpsUserData) : G verified := run (fun s =>
  let '((r, d), (l, u)) := avb_slot_verify (VbLoader s) u req in
  Some (mk_verified (requested_partitions req) r d u, mk_vb_state l (SecureLog s))).
(** A verification that failed ends the boot, but for some failures on an unlocked device. *)
Definition judge (AllowVerificationError : bool) (r : AvbSlotVerifyResult) : G unit :=
  if AllowVerificationError && ResultShouldContinue r then mret tt else
  if decide (r = AVB_SLOT_VERIFY_RESULT_OK) then mret tt else leaving (Out EFI_LOAD_ERROR).
Definition slot_data (v : verified) : G AvbSlotVerifyData :=
  match SlotData v with None => leaving (Out EFI_LOAD_ERROR) | Some d => mret d end.
Definition hashtree_mode : G AvbHashtreeErrorMode :=
  if AllowEio then
    enforcing ← run (loaderV IsEnforcing);
    mret (if enforcing : bool then AVB_HASHTREE_ERROR_MODE_RESTART else AVB_HASHTREE_ERROR_MODE_EIO)
  else mret AVB_HASHTREE_ERROR_MODE_RESTART_AND_INVALIDATE.
(** Recovery has an image of its own. *)
Definition recovery_image : G bool :=
  multi ← info InfoMultiSlot;
  recovery ← info InfoRecovery;
  mret ((negb multi || IsDynamicPartitionSupport) && (recovery && negb IsBuildUseRecoveryAsBoot)).
Definition verify_recovery (Allow : bool) (suffix : list Z) (mode : AvbHashtreeErrorMode) (u : AvbOpsUserData) : G verified :=
  multi ← info InfoMultiSlot;
  let flags := mk_flags Allow (negb multi) in
  let Requested := AddRequestedPartition [] IMG_RECOVERY in
  v ← verify_slot (mk_request Requested suffix flags mode) u;
  _ ← judge Allow (Result v);
  d ← slot_data v;
  HeaderVersion ← fetch (GetHeaderVersion d (bytes "recovery"));
  if (HeaderVersion =? BOOT_HEADER_VERSION_ZERO) || (BOOT_HEADER_VERSION_THREE <=? HeaderVersion)
  then verify_slot (mk_request (AddRequestedPartition Requested IMG_DTBO) suffix flags mode) (UserData v)
  else mret v.
(** A function called for its status and a value; the value is [d] when it leaves. *)
Definition attempt {A} (d : A) (m : G (EFI_STATUS * A)) : G (EFI_STATUS * A) := fun i =>
  r ← m i;
  match r : BootInfo * (leave + EFI_STATUS * A) with
  | (i, inl (Return_ Status)) | (i, inl (Out Status)) => mret (i, inr (Status, d))
  | r => mret r
  end.
Definition boot_header : G (EFI_STATUS * (option (list Z) * Z)) :=
  r ← LoadBootImageHeader;
  let '(Status, hdr, size) := r : EFI_STATUS * option (list Z) * Z in mret (Status, (hdr, size)).
Definition verify_boot (Allow : bool) (suffix : list Z) (mode : AvbHashtreeErrorMode) (u : AvbOpsUserData) : G verified :=
  r ← attempt (None, 0) boot_header;
  let '(Status, (ImageHdrBuffer, ImageHdrSize)) := r : EFI_STATUS * (option (list Z) * Z) in
  match ImageHdrBuffer with
  | None => leaving (Out Status)
  | Some hdr =>
    if negb (is_success Status) then leaving (Out Status) else
    if ImageHdrSize <? SIZEOF_boot_img_hdr then leaving (Out EFI_BAD_BUFFER_SIZE) else
    images ← info InfoImages;
    Requested ← (if (length images =? 0)%nat then
                   version ← fetch (hdr_header_version hdr);
                   _ ← change (set_InfoHeaderVersion version);
                   mret (AddRequestedPartition [] IMG_BOOT)
                 else mret []);
    let Requested := AddRequestedPartition Requested IMG_DTBO in
    multi ← info InfoMultiSlot;
    CurrentSlot ← (if multi : bool then run (storageV GetCurrentSlotSuffix) else mret stack_slot);
    valid ← run (IsValidPartition CurrentSlot (bytes "vendor_boot"));
    version ← info InfoHeaderVersion;
    let Requested := if valid && (BOOT_HEADER_VERSION_THREE <=? version)
                     then AddRequestedPartition Requested IMG_VENDOR_BOOT else Requested in
    verify_slot (mk_request Requested suffix (mk_flags Allow false) mode) u
  end.

(** *** Taking the images *)
Fixpoint loaded_as (name : list Z) (l : list AvbPartitionData) : option AvbPartitionData :=
  match l with
  | [] => None
  | p :: l' => if AsciiStrnCmp name (partition_name p) (AsciiStrLen (partition_name p)) =? 0 then Some p
               else loaded_as name l'
  end.
Fixpoint take_images (Requested : list (list Z)) (l : list AvbPartitionData) : G unit :=
  match Requested with
  | [] => mret tt
  | name :: Requested' =>
    _ ← match loaded_as name l with
        | None => mret tt
        | Some p =>
          images ← info InfoImages;
          if (MAX_NUMBER_OF_LOADED_IMAGES <=? length images)%nat then leaving (Out EFI_LOAD_ERROR) else
          add_image (mk_loaded (partition_name p) (Some (data p)) (Z.of_nat (length (data p))))
        end;
    take_images Requested' l
  end.
Fixpoint loaded_named (Name : list Z) (l : list LoadedImage) : option LoadedImage :=
  match l with
  | [] => None
  | i :: l' => if AsciiStrnCmp (ImgName i) Name (AsciiStrLen Name) =? 0 then Some i else loaded_named Name l'
  end.
Definition get_image (Name : list Z) : G LoadedImage :=
  images ← info InfoImages;
  match loaded_named Name images with None => leaving (Out EFI_NOT_FOUND) | Some i => mret i end.
(** Buffer of the image to boot, after the checks of its header. *)
Definition checked_image : G (list Z) :=
  own ← recovery_image;
  image ← get_image (if own : bool then bytes "recovery" else bytes "boot");
  if ImgSize image <? SIZEOF_boot_img_hdr then leaving (Out EFI_BAD_BUFFER_SIZE) else
  hdr ← fetch (ImgBuffer image);
  version ← fetch (hdr_header_version hdr);
  vendor ← (if BOOT_HEADER_VERSION_THREE <=? version then
              v ← get_image (bytes "vendor_boot"); mret (default [] (ImgBuffer v))
            else mret []);
  recovery ← info InfoRecovery;
  r ← fetch (CheckImageHeader hdr BOOT_IMG_MAX_PAGE_SIZE vendor 0 0 recovery);
  let '(Status, _, _) := r : EFI_STATUS * Z * Z in
  _ ← GUARD_OUT Status;
  mret hdr.

(** *** What the key master is told *)
Definition security_patch : list Z := bytes "com.android.build.boot.security_patch".
Definition security_level (DateSupport : bool) (d : AvbSlotVerifyData) (OSVersion : Z) : G Z :=
  let old := Z.land OSVersion 0x7FF in
  if DateSupport then
    vbmeta ← fetch (vbmeta_images d !! O);
    mret (match avb_property_lookup vbmeta security_patch with
          | Some level => if (length level =? MAX_PROPERTY_SIZE)%nat then ParseBootSecurityLevel level else old
          | None => old
          end)
  else mret old.
Definition os_version (hdr : list Z) : option Z :=
  version ← hdr_header_version hdr;
  if BOOT_HEADER_VERSION_THREE <=? version then v3_os_version hdr else hdr_os_version hdr.
Definition boot_color (Allow : bool) (u : AvbOpsUserData) : boot_state_t :=
  if Allow then ORANGE else if IsUserKey u then YELLOW else GREEN.
Definition guarded {A} (m : V (EFI_STATUS * A)) : G A :=
  r ← run m;
  let (Status, a) := r : EFI_STATUS * A in
  _ ← GUARD_OUT Status;
  mret a.
Definition tell_keymaster (Allow : bool) (u : AvbOpsUserData) (d : AvbSlotVerifyData) (hdr : list Z) : G unit :=
  Color ← info BootState;
  DateSupport ← guarded KeyMasterGetDateSupport;
  OSVersion ← fetch (os_version hdr);
  level ← security_level DateSupport d OSVersion;
  Status ← run (KeyMasterSetRotAndBootState
                  (mk_rot Allow Color (take (Z.to_nat (PublicKeyLen u)) (PublicKey u))
                     (Z.shiftr (Z.land OSVersion 0xFFFFF800) 11) level));
  _ ← GUARD_OUT Status;
  Status ← run (SetVerifiedBootHash (ComputeVbMetaDigest d));
  GUARD_OUT Status.

(** *** The whole *)
Definition vb2_slot_suffix : G (list Z) :=
  multi ← info InfoMultiSlot;
  if multi : bool then
    Pname ← info InfoPname;
    PnameAscii ← fetch (ascii_name Pname);
    let Len := AsciiStrLen PnameAscii in
    if (Len <? MAX_SLOT_SUFFIX_SZ + 1)%nat then leaving (Out EFI_INVALID_PARAMETER) else
    mret (drop (Len - MAX_SLOT_SUFFIX_SZ + 1) PnameAscii)
  else mret [].
Definition update_rollback (multi : bool) : G unit :=
  UpdateRollback ← run (loaderV (avb_should_update_rollback multi));
  if UpdateRollback : bool then
    Status ← run UpdateRollbackSyscall;
    GUARD Status
  else mret tt.
Definition new_user_data : G AvbOpsUserData :=
  if negb (PoolAvailable 0 SIZEOF_AvbOpsUserData) then leaving (Out EFI_OUT_OF_RESOURCES) else
  if negb (PoolAvailable 0 SIZEOF_AvbOps) then leaving (Out EFI_OUT_OF_RESOURCES) else
  multi ← info InfoMultiSlot;
  mret (set_IsMultiSlot multi zero_user_data).
Definition vb2_verify (Allow : bool) (suffix : list Z) (mode : AvbHashtreeErrorMode) (u : AvbOpsUserData)
  : G (verified * AvbSlotVerifyData) :=
  own ← recovery_image;
  v ← (if own : bool then verify_recovery Allow suffix mode u else verify_boot Allow suffix mode u);
  d ← slot_data v;
  _ ← judge Allow (Result v);
  mret (v, d).
Definition vb2_cmdline (d : AvbSlotVerifyData) : G unit :=
  Status ← call AppendVBCommonCmdLine;
  _ ← GUARD_OUT Status;
  Status ← call (AppendVBCmdLine (slot_cmdline d));
  GUARD_OUT Status.
(** The images of the verification, added to those that are loaded. *)
Definition vb2_images (v : verified) (d : AvbSlotVerifyData) : G unit :=
  _ ← take_images (Requested v) (loaded_partitions d);
  images ← info InfoImages;
  if (length images <? length (Requested v))%nat then leaving (Out EFI_LOAD_ERROR) else
  if negb (PoolAvailable 0 SIZEOF_VB2Data) then leaving (Out EFI_OUT_OF_RESOURCES) else
  change (set_VBData (Some d)).
Definition vb2_body (Allow : bool) : G unit :=
  _ ← change (set_BootState RED);
  _ ← VBCommonInit;
  _ ← VBAllocateCmdLine;
  u ← new_user_data;
  suffix ← vb2_slot_suffix;
  _ ← update_rollback (IsMultiSlot u);
  mode ← hashtree_mode;
  r ← vb2_verify Allow suffix mode u;
  let (v, d) := r : verified * AvbSlotVerifyData in
  _ ← vb2_images v d;
  hdr ← checked_image;
  _ ← change (set_BootState (boot_color Allow (UserData v)));
  _ ← vb2_cmdline d;
  tell_keymaster Allow (UserData v) d hdr.
(** The label [out]: with a failure the boot state is RED, and a slot is given up. *)
Definition LoadImageAndAuthVB2 : G unit := fun i =>
  Allow ← loaderV IsUnlocked;
  r ← vb2_body Allow i;
  match r : BootInfo * (leave + unit) with
  | (i, inl (Return_ Status)) => mret (i, inl (Return_ Status))
  | (i, inl (Out Status)) =>
    if is_success Status then mret (i, inr tt) else
    _ ← (if InfoMultiSlot i then storageV HandleActiveSlotUnbootable else mret Status);
    mret (set_BootState RED i, inl (Return_ Status))
  | (i, inr _) => mret (i, inr tt)
  end.

(** ** The signatures of LE builds *)
Inductive VB_HASH := VB_UNDEFINED_HASH | VB_SHA1 | VB_SHA256 | VB_UNSUPPORTED_HASH.
Definition SIZEOF_S_BIGINT : Z := 524.
Definition LEGetImageHash (HashAlgorithm : VB_HASH) (Img : list Z) (HashSize : nat) : EFI_STATUS * list Z :=
  match HashAlgorithm with
  | VB_SHA256 =>
    if negb (is_success LocateHash2) then (LocateHash2, []) else
    let (Status, DigestSize) := GetHashSize in
    if negb (is_success Status) then (Status, []) else
    if negb (Z.of_nat HashSize =? DigestSize) then (EFI_FAILURE, []) else
    if negb (is_success HashInit) then (HashInit, []) else
    if negb (is_success (HashUpdate Img)) then (HashUpdate Img, []) else
    let (Status, Hash2Output) := HashFinal Img in
    if negb (is_success Status) then (Status, []) else (EFI_SUCCESS, take HashSize Hash2Output)
  | _ => (EFI_UNSUPPORTED, [])
  end.
(** Modulus and exponent. *)
Definition LEGetRSAPublicKeyInfoFromCertificate (Certificate : Z) : EFI_STATUS * (list Z * list Z) :=
  let (Status, RsaKey) := ASN1X509GetRSAFromCert Certificate in
  if negb (is_success Status) then (Status, ([], [])) else ASN1X509GetKeymaterial RsaKey.
Definition LEVerifyHashWithRSASignature (ImgHash : list Z) (HashAlgorithm : VB_HASH) (Modulus PublicExp : list Z)
    (Signature : list Z) : EFI_STATUS :=
  match HashAlgorithm with
  | VB_SHA256 =>
    if negb (PoolAvailable 0 SIZEOF_S_BIGINT) then EFI_FAILURE else
    if negb (is_success LocateSecRSA) then LocateSecRSA else
    let (Status, ModulusBi) := SecRSABigIntReadBin Modulus in
    if negb (is_success Status) then Status else
    let (Status, PublicExpBi) := SecRSABigIntReadBin PublicExp in
    if negb (is_success Status) then Status else
    SecRSAVerifySig ModulusBi PublicExpBi ImgHash Signature
  | _ => EFI_UNSUPPORTED
  end.
Definition LEVerifyHashWithSignature (ImgHash : list Z) (HashAlgorithm : VB_HASH) (Certificate : Z)
    (Signature : list Z) : EFI_STATUS :=
  let (Status, key) := LEGetRSAPublicKeyInfoFromCertificate Certificate in
  if negb (is_success Status) then Status else
  LEVerifyHashWithRSASignature ImgHash HashAlgorithm (fst key) (snd key) Signature.
(** The signature lies behind the image in its buffer. *)
Definition le_verify : G unit :=
  Status ← vb_device_init;
  _ ← GUARD Status;
  _ ← GUARD LocateAsn1X509;
  let (Status, OemCert) := ASN1X509VerifyOEMCertificate LeOemCertificate in
  _ ← GUARD Status;
  images ← info InfoImages;
  if negb (PoolAvailable 0 (Z.of_nat VB_SHA256_SIZE)) then leaving (Return_ EFI_OUT_OF_RESOURCES) else
  match images with
  | mk_loaded _ (Some buf) size :: _ =>
    Img ← fetch (rd buf 0 (Z.to_nat size));
    let (Status, ImgHash) := LEGetImageHash VB_SHA256 Img VB_SHA256_SIZE in
    _ ← GUARD Status;
    Sig ← fetch (rd buf size LE_BOOTIMG_SIG_SIZE);
    GUARD (LEVerifyHashWithSignature ImgHash VB_SHA256 OemCert Sig)
  | _ => run crash
  end.
Definition LoadImageAndAuthForLE : G unit :=
  _ ← VBAllocateCmdLine;
  _ ← VBCommonInit;
  _ ← LoadImageNoAuth;
  r ← run IsSecureDevice;
  let (Status, SecureDevice) := r : EFI_STATUS * bool in
  _ ← GUARD Status;
  _ ← (if negb SecureDevice && negb TargetBuildVariantUser then mret tt else le_verify);
  root ← IsRootCmdLineUpdated;
  if root : bool then mret tt else append_system_path.

(** ** What the user sees *)
Inductive DISPLAY_MENU_TYPE := DISPLAY_MENU_YELLOW | DISPLAY_MENU_ORANGE | DISPLAY_MENU_RED | DISPLAY_MENU_EIO.
Definition ffbm_string : G (list Z) :=
  Pname ← info InfoPname;
  if StrnCmp Pname (bytes "boot") (StrLen (bytes "boot")) =? 0 then
    r ← run (loaderV (GetFfbmCommand [] FFBM_MODE_BUF_SIZE));
    let (Status, FfbmStr) := r : EFI_STATUS * list Z in
    mret (if is_success Status then FfbmStr else [])
  else mret [].
Definition dm_verity_warning : G (list DISPLAY_MENU_TYPE) :=
  if bool_decide (GetAVBVersion = AVB_2) then mret [] else
  enforcing ← run (loaderV IsEnforcing);
  recovery ← info InfoRecovery;
  mret (if negb enforcing && negb recovery then [DISPLAY_MENU_EIO] else []).
(** The screens that are shown, and whether the device then shuts down.  A screen that
    cannot be shown is a delay. *)
Definition DisplayVerifiedBootScreen : G (list DISPLAY_MENU_TYPE * bool) :=
  if bool_decide (GetAVBVersion = NO_AVB) then mret ([], false) else
  FfbmStr ← ffbm_string;
  state ← info BootState;
  match state with
  | RED => mret ([DISPLAY_MENU_RED], true)
  | YELLOW => l ← dm_verity_warning; mret (DISPLAY_MENU_YELLOW :: l, false)
  | ORANGE =>
    l ← dm_verity_warning;
    mret ((if (0 <? length FfbmStr)%nat && negb TargetBuildVariantUser then [] else [DISPLAY_MENU_ORANGE]) ++ l, false)
  | _ => l ← dm_verity_warning; mret (l, false)
  end.

(** ** LoadImageAndAuth *)
Definition set_boot_name (name : list Z) : G EFI_STATUS :=
  Pname ← info InfoPname;
  let (Status, Pname) := StrnCpyS Pname MAX_GPT_NAME_SIZE name (StrLen name) in
  _ ← change (set_Pname Pname);
  mret Status.
Definition boot_partition_name : G unit :=
  multi ← info InfoMultiSlot;
  recovery ← info InfoRecovery;
  if negb multi then
    _ ← set_boot_name (if recovery : bool then bytes "recovery" else bytes "boot"); mret tt
  else
    r ← run (storageV (FindBootableSlot (Some empty_slot)));
    let (Status, CurrentSlot) := r : EFI_STATUS * option Slot in
    _ ← GUARD Status;
    if IsSuffixEmpty CurrentSlot then leaving (Return_ EFI_LOAD_ERROR) else
    _ ← (if IsDynamicPartitionSupport && recovery then _ ← set_boot_name (bytes "recovery"); mret tt
         else Status ← set_boot_name (bytes "boot"); GUARD Status);
    Pname ← info InfoPname;
    suffix ← fetch (Suffix <$> CurrentSlot);
    let (Status, Pname) := StrnCatS Pname MAX_GPT_NAME_SIZE suffix (StrLen suffix) in
    _ ← change (set_Pname Pname);
    GUARD Status.
Inductive outcome := Done (Status : EFI_STATUS) | ShutDown.
Definition authenticate : G unit :=
  match GetAVBVersion with
  | NO_AVB => LoadImageNoAuthWrapper
  | AVB_1 => LoadImageAndAuthVB1
  | AVB_2 => LoadImageAndAuthVB2
  | AVB_LE => LoadImageAndAuthForLE
  end.
(** A failure under an active MDTP deactivates it, and its status is that of this. *)
Definition after_mdtp (Status : EFI_STATUS) : leave + EFI_STATUS :=
  if negb (is_success Status) && EnableMdtpSupport && mdtp_active then
    if EFI_ERROR LocateMdtp then inl (Return_ LocateMdtp) else inr MdtpDeactivate
  else inr Status.
Definition LoadImageAndAuth_body : G outcome :=
  _ ← boot_partition_name;
  Status ← call authenticate;
  if bool_decide (GetAVBVersion = NO_AVB) then mret (Done Status) else
  match after_mdtp Status with
  | inl l => leaving l
  | inr Status =>
    unlocked ← run (loaderV IsUnlocked);
    if (unlocked : bool) && negb (is_success Status) then mret (Done Status) else
    if bool_decide (GetAVBVersion = AVB_LE) then mret (Done Status) else
    r ← DisplayVerifiedBootScreen;
    if snd r : bool then mret ShutDown else mret (Done VBSendMilestone)
  end.
Definition LoadImageAndAuth (Info : BootInfo) : V (BootInfo * outcome) :=
  r ← LoadImageAndAuth_body Info;
  match r : BootInfo * (leave + outcome) with
  | (i, inl (Return_ Status)) | (i, inl (Out Status)) => mret (i, Done Status)
  | (i, inr o) => mret (i, o)
  end.

(** ** The finger print of the user's key *)
Definition GetCertFingerPrint (FingerPrintLen : nat) : V (EFI_STATUS * list Z) :=
  if (FingerPrintLen <? AVB_SHA256_DIGEST_SIZE)%nat then mret (EFI_INVALID_PARAMETER, []) else
  match GetAVBVersion with
  | AVB_1 =>
    if negb (is_success LocateVerifiedBoot) then mret (LocateVerifiedBoot, []) else
    if VbRevision <? QCOM_VERIFIEDBOOT_PROTOCOL_REVISION then mret (EFI_UNSUPPORTED, []) else
    mret (VBGetCertFingerPrint FingerPrintLen)
  | AVB_2 =>
    r ← loaderV GetUserKey;
    match r : EFI_STATUS * option (list Z * Z) with
    | (EFI_SUCCESS, Some (UserKeyBuffer, UserKeyLength)) =>
      key ← access (rd UserKeyBuffer 0 (Z.to_nat UserKeyLength));
      mret (EFI_SUCCESS, avb_sha256 key)
    | (Status, _) => mret (Status, [])
    end
  | _ => mret (EFI_UNSUPPORTED, [])
  end.
End verified_boot.
