(* ===== verification/VerifiedBootSpec.v ===== *)
(** * What verified boot promises.

    VerifiedBoot.v: with the second version of verified boot, images are only booted after
    libavb accepted them, in the state that fits the key that signed them, and the key
    master knows; a failure ends with a shutdown of a locked device. *)
From stdpp Require Import base numbers list option strings.
From Stdlib Require Import ZArith Lia Ascii.
From S2P Require Import Prelude BaseLib Unicode Storage Bytes Gpt BootLinux Partitions Slots Flash DeviceInfo Recovery Board BoardDemo StorageSpec SlotsSpec FastbootDemo BootImage CmdLine AvbOps SecureWorld SecureWorldSpec VerifiedBoot.
Local Open Scope Z_scope.

(** ** Computations on a [BootInfo] *)
Definition place : Type := BootInfo * vb_state.
(** Whatever a computation returns, its places are related. *)
Definition framed {A} (R : relation place) (m : G A) : Prop :=
  forall i s i' r s', m i s = Some ((i', r), s') -> R (i, s) (i', s').
Definition kept {X} (f : BootInfo -> X) : relation place := fun p q => f (fst q) = f (fst p).
#[export] Instance kept_preorder {X} (f : BootInfo -> X) : PreOrder (kept f).
Proof. split; [by intros p|]. intros p q r H H'. unfold kept in *. congruence. Qed.
Definition dev_kept : relation place := fun p q => DevInfo (VbLoader (snd q)) = DevInfo (VbLoader (snd p)).
#[export] Instance dev_kept_preorder : PreOrder dev_kept.
Proof. split; [by intros p|]. intros p q r H H'. unfold dev_kept in *. congruence. Qed.

Lemma G_bind_run {A B} (m : G A) (f : A -> G B) i s :
  (m ≫= f) i s = match m i s with
                 | Some ((i1, inr a), s1) => f a i1 s1
                 | Some ((i1, inl x), s1) => Some ((i1, inl x), s1)
                 | None => None
                 end.
Proof.
  unfold mbind at 1, G_bind. rewrite bind_run. destruct (m i s) as [[[i1 [x|a]] s1]|]; done.
Qed.
Lemma G_bind_ok {A B} (m : G A) (f : A -> G B) i s i' b s' :
  (m ≫= f) i s = Some ((i', inr b), s') ->
  exists a i1 s1, m i s = Some ((i1, inr a), s1) /\ f a i1 s1 = Some ((i', inr b), s').
Proof. rewrite G_bind_run. destruct (m i s) as [[[i1 [x|a]] s1]|]; [done|eauto|done]. Qed.
Ltac g_ok H a i s E := apply G_bind_ok in H as (a & i & s & E & H).

Section frames.
Variable R : relation place.
Context `{PreOrder place R}.
Lemma framed_bind {A B} (m : G A) (f : A -> G B) :
  framed R m -> (forall a, framed R (f a)) -> framed R (m ≫= f).
Proof.
  intros Hm Hf i s i' r s'. rewrite G_bind_run. destruct (m i s) as [[[i1 [x|a]] s1]|] eqn:E; [| |done].
  - intros [= <- <- <-]. by eapply Hm.
  - intros E'. etransitivity; [by eapply Hm|by eapply Hf].
Qed.
Lemma framed_ret {A} (a : A) : framed R (mret a).
Proof. by intros i s i' r s' [= <- _ <-]. Qed.
Lemma framed_leaving {A} (x : leave) : framed R (A := A) (leaving x).
Proof. by intros i s i' r s' [= <- _ <-]. Qed.
Lemma framed_info {A} (f : BootInfo -> A) : framed R (info f).
Proof. by intros i s i' r s' [= <- _ <-]. Qed.
Lemma framed_fetch {A} (o : option A) : framed R (fetch o).
Proof. intros i s i' r s'. unfold fetch, run. run. destruct o; [by intros [= <- _ <-]|done]. Qed.
Lemma framed_crash {A} : framed R (A := A) (run crash).
Proof. done. Qed.
Lemma framed_GUARD St : framed R (GUARD St).
Proof. unfold GUARD. destruct (is_success St); [apply framed_ret|apply framed_leaving]. Qed.
Lemma framed_GUARD_OUT St : framed R (GUARD_OUT St).
Proof. unfold GUARD_OUT. destruct (is_success St); [apply framed_ret|apply framed_leaving]. Qed.
Lemma framed_call m : framed R m -> framed R (call m).
Proof.
  intros Hm i s i' r s'. unfold call. rewrite bind_run.
  destruct (m i s) as [[[i1 [[x|x]|a]] s1]|] eqn:E; [..|done]; intros [= <- _ <-]; by eapply Hm.
Qed.
Lemma framed_attempt {A} (d : A) m : framed R m -> framed R (attempt d m).
Proof.
  intros Hm i s i' r s'. unfold attempt. rewrite bind_run.
  destruct (m i s) as [[[i1 [[x|x]|a]] s1]|] eqn:E; [..|done]; intros [= <- _ <-]; by eapply Hm.
Qed.
End frames.
Lemma kept_run {A X} (f : BootInfo -> X) (m : V A) : framed (kept f) (run m).
Proof. intros i s i' r s'. unfold run. rewrite bind_run. destruct (m s) as [[a s1]|]; [by intros [= <- _ <-]|done]. Qed.
Lemma kept_change {X} (f : BootInfo -> X) g : (forall i, f (g i) = f i) -> framed (kept f) (change g).
Proof. intros H i s i' r s' [= <- _ <-]. apply H. Qed.
Lemma dev_kept_change g : framed dev_kept (change g).
Proof. by intros i s i' r s' [= <- _ <-]. Qed.
Lemma dev_kept_storage {A} (m : B A) : framed dev_kept (run (storageV m)).
Proof.
  intros i s i' r s'. unfold run, storageV, loaderV, lift. rewrite bind_run.
  destruct (m (Boot (VbLoader s))) as [[a b]|]; [by intros [= <- _ <-]|done].
Qed.
Create HintDb framed discriminated.
#[export] Hint Resolve framed_ret framed_leaving framed_info framed_fetch framed_crash framed_GUARD framed_GUARD_OUT
  kept_run dev_kept_change dev_kept_storage : framed.
#[export] Hint Extern 3 (framed _ (change _)) => (apply kept_change; reflexivity) : framed.
#[export] Hint Extern 3 (PreOrder _) => typeclasses eauto : framed.
(** Walks through a computation, with the lemmas of its parts. *)
Ltac frame :=
  repeat match goal with
  | |- framed _ (_ ≫= _) => apply framed_bind; [typeclasses eauto| |intros ?]
  | |- framed _ (call _) => apply framed_call
  | |- framed _ (attempt _ _) => apply framed_attempt
  | |- framed _ (let (_, _) := ?x in _) => destruct x
  | |- framed _ (if ?b then _ else _) => destruct b
  | |- framed _ (match ?x with _ => _ end) => destruct x
  | |- framed _ _ => solve [auto with framed nocore]
  end.

(** ** The date of a security patch *)
(** [n] with [k] digits. *)
Fixpoint decimal (k : nat) (n : Z) : list Z :=
  match k with O => [] | S k' => decimal k' (n / 10) ++ [48 + n mod 10] end.
Definition patch_field (p : patch_level) : Z :=
  if SeparatorCount p =? 0 then PatchLevelYear p else if SeparatorCount p =? 1 then PatchLevelMonth p else PatchLevelDate p.
Definition with_field (p : patch_level) (v : Z) : patch_level :=
  let '(mk_patch y m d n) := p in
  if n =? 0 then mk_patch v m d n else if n =? 1 then mk_patch y v d n else mk_patch y m v n.
Lemma patch_step_digit p x :
  0 <= x < 10 -> 0 <= SeparatorCount p <= 2 -> 0 <= patch_field p -> patch_field p * 10 + 10 <= 2 ^ 32 ->
  patch_step p (48 + x) = Some (with_field p (patch_field p * 10 + x)).
Proof.
  destruct p as [y m d n]. unfold patch_field, patch_step, with_field. cbn [SeparatorCount PatchLevelYear PatchLevelMonth PatchLevelDate].
  intros Hx Hn. destruct (Z.eqb_spec (48 + x) 45); [lia|]. replace (48 + x - 48) with x by lia.
  destruct (Z.eqb_spec n 0), (Z.eqb_spec n 1), (Z.eqb_spec n 2); try lia; intros H0 H1;
    by rewrite !(u32_small (_ * 10)), u32_small by (unfold in_u32; lia).
Qed.
Lemma with_field_field p v : patch_field (with_field p v) = v.
Proof.
  destruct p as [y m d n]. unfold with_field, patch_field. destruct (n =? 0) eqn:E0; [by cbn; rewrite E0|].
  destruct (n =? 1) eqn:E1; cbn; by rewrite E0, E1.
Qed.
Lemma with_field_twice p v w : with_field (with_field p v) w = with_field p w.
Proof.
  destruct p as [y m d n]. unfold with_field. destruct (n =? 0) eqn:E0; [by rewrite E0|].
  destruct (n =? 1) eqn:E1; by rewrite E0, E1.
Qed.
Lemma with_field_count p v : SeparatorCount (with_field p v) = SeparatorCount p.
Proof. destruct p as [y m d n]. unfold with_field. by destruct (n =? 0), (n =? 1). Qed.
Lemma patch_loop_digits k n p rest :
  0 <= SeparatorCount p <= 2 -> 0 <= patch_field p -> (patch_field p + 1) * 10 ^ Z.of_nat k <= 2 ^ 32 ->
  patch_loop (decimal k n ++ rest) p = patch_loop rest (with_field p (patch_field p * 10 ^ Z.of_nat k + n mod 10 ^ Z.of_nat k)).
Proof.
  intros Hc Hp. revert n rest. induction k as [|k IH]; intros n rest Hb.
  { cbn [decimal app]. change (10 ^ Z.of_nat 0) with 1. rewrite Z.mod_1_r. f_equal.
    replace (patch_field p * 1 + 0) with (patch_field p) by lia. destruct p as [y m d c].
    unfold with_field, patch_field. cbn. destruct (c =? 0), (c =? 1); done. }
  rewrite Nat2Z.inj_succ, Z.pow_succ_r in * by lia. pose proof (Z.pow_pos_nonneg 10 (Z.of_nat k)) as Hk.
  pose proof (Z.mod_pos_bound (n / 10) (10 ^ Z.of_nat k)) as Hm. pose proof (Z.mod_pos_bound n 10) as Hx.
  cbn [decimal]. rewrite <-app_assoc, IH by nia. cbn [app patch_loop].
  rewrite patch_step_digit; rewrite ?with_field_field, ?with_field_count; try nia.
  cbn [mbind option_bind]. rewrite with_field_twice. do 2 f_equal. rewrite Z.rem_mul_r by lia. lia.
Qed.

Lemma patch_loop_separator y m d n rest :
  patch_loop (45 :: rest) (mk_patch y m d n) = patch_loop rest (mk_patch y m d (u32 (n + 1))).
Proof. done. Qed.
Lemma year_digits n rest :
  patch_loop (decimal 4 n ++ rest) (mk_patch 0 0 0 0) = patch_loop rest (mk_patch (n mod 10000) 0 0 0).
Proof. apply (patch_loop_digits 4 n (mk_patch 0 0 0 0)); vm_compute; intuition congruence. Qed.
Lemma month_digits y n rest :
  patch_loop (decimal 2 n ++ rest) (mk_patch y 0 0 1) = patch_loop rest (mk_patch y (n mod 100) 0 1).
Proof. apply (patch_loop_digits 2 n (mk_patch y 0 0 1)); vm_compute; intuition congruence. Qed.
Lemma day_digits y m n rest :
  patch_loop (decimal 2 n ++ rest) (mk_patch y m 0 2) = patch_loop rest (mk_patch y m (n mod 100) 2).
Proof. apply (patch_loop_digits 2 n (mk_patch y m 0 2)); vm_compute; intuition congruence. Qed.

(** C27: the date of a security patch, YYYY-MM-DD of the years 2000
    to 2127, becomes a number with the month in bits 0 to 3, the year since 2000 in bits 4
    to 10 and the day from bit 11 on; a text in which anything but a separator follows a
    third separator becomes the largest number of 32 bits. *)
Theorem ParseBootSecurityLevel_date y m d (c : Z) (rest : list Z)
  (Hy : 2000 <= y < 2128) (Hm : 0 <= m < 16) (Hd : 0 <= d < 100) (Hc : c <> 45) :
  let date := decimal 4 y ++ 45 :: decimal 2 m ++ 45 :: decimal 2 d in
  let level := ParseBootSecurityLevel date in
  (Z.land level 0xF = m /\ Z.land (Z.shiftr level 4) 0x7F = y - 2000 /\ Z.shiftr level 11 = d) /\
  ParseBootSecurityLevel (date ++ 45 :: c :: rest) = MAX_UINT32.
Proof.
  cbv zeta. unfold ParseBootSecurityLevel.
  assert (forall rest', patch_loop ((decimal 4 y ++ 45 :: decimal 2 m ++ 45 :: decimal 2 d) ++ rest') (mk_patch 0 0 0 0) =
          patch_loop rest' (mk_patch y m d 2)) as Hloop.
  { intros rest'. rewrite <-!app_assoc. cbn [app]. rewrite year_digits, patch_loop_separator.
    rewrite <-!app_assoc. cbn [app]. rewrite month_digits, patch_loop_separator, day_digits.
    rewrite (Z.mod_small y), (Z.mod_small m), (Z.mod_small d) by lia. done. }
  split.
  - rewrite <-(app_nil_r (decimal 4 y ++ _)), Hloop. cbn [patch_loop PatchLevelDate PatchLevelYear PatchLevelMonth].
    rewrite !Z.shiftl_mul_pow2 by lia. rewrite (u32_small (y - 2000)), !u32_small by (unfold in_u32; lia).
    change 0xF with (Z.ones 4). change 0x7F with (Z.ones 7).
    rewrite !Z.shiftr_lor, !Z.land_lor_distr_l, !Z.land_ones, !Z.shiftr_div_pow2 by lia.
    change (2 ^ 11) with 2048. change (2 ^ 4) with 16. change (2 ^ 7) with 128.
    split_and!; [rewrite (proj2 (Z.mod_divide (d * 2048) 16 ltac:(lia)) ltac:(exists (d * 128); lia)),
                   (Z.mod_mul (y - 2000)), (Z.mod_small m) by lia; done| |].
    + replace (d * 2048) with (d * 128 * 16) by lia. rewrite !Z.div_mul, (Z.div_small m), Z.mod_mul by lia.
      rewrite (Z.mod_small (y - 2000)) by lia. by rewrite Z.lor_0_r.
    + rewrite Z.div_mul, (Z.div_small m), (Z.div_small (_ * 16)) by lia. by rewrite !Z.lor_0_r.
  - rewrite Hloop. cbn [patch_loop]. unfold patch_step at 1. cbn. rewrite (proj2 (Z.eqb_neq c 45) Hc). done.
Qed.

Lemma ParseBootSecurityLevel_date_witness :
  ParseBootSecurityLevel (bytes "2021-05-01") = 0x955 /\
  (let level := ParseBootSecurityLevel (decimal 4 2021 ++ 45 :: decimal 2 5 ++ 45 :: decimal 2 1) in
   (Z.land level 0xF = 5 /\ Z.land (Z.shiftr level 4) 0x7F = 2021 - 2000 /\ Z.shiftr level 11 = 1) /\
   ParseBootSecurityLevel ((decimal 4 2021 ++ 45 :: decimal 2 5 ++ 45 :: decimal 2 1) ++ 45 :: 48 :: [48]) = MAX_UINT32).
Proof. split; [reflexivity|]. apply (ParseBootSecurityLevel_date 2021 5 1 48 [48]); lia. Defined.

Section spec.
Context {FW : Firmware} {BL : BaseLib} {UL : UnicodeLib} {AL : AsciiLib} {AC : AsciiCatLib}.
Context {BC : BuildConfig} {LB : LoaderBuild} {VB : VerifiedBootProtocol} {BM : BootMode}.
Context {BP : BoardProtocols} {BK : BootBuild} {QP : BootProtocols} {LP : LabelledPartitions}.
Context {SW : SecureWorld} {AV : Libavb} {VC : VerifiedBootCalls}.

(** ** What the parts leave alone *)
(** A part that is not about the boot state and the images keeps them. *)
Definition verdict (i : BootInfo) := (BootState i, InfoImages i, InfoVBData i, InfoRecovery i).
Section verdict_kept.
Lemma slot_partition_kept P : framed (kept verdict) (slot_partition P).
Proof. unfold slot_partition. frame. Qed.
Hint Resolve slot_partition_kept : framed.
Lemma VBAllocateCmdLine_kept : framed (kept verdict) VBAllocateCmdLine.
Proof. unfold VBAllocateCmdLine. frame. Qed.
Lemma new_user_data_kept : framed (kept verdict) new_user_data.
Proof. unfold new_user_data. frame. Qed.
Lemma vb2_slot_suffix_kept : framed (kept verdict) vb2_slot_suffix.
Proof. unfold vb2_slot_suffix. cbv zeta. frame. Qed.
Lemma update_rollback_kept m : framed (kept verdict) (update_rollback m).
Proof. unfold update_rollback. frame. Qed.
Lemma hashtree_mode_kept : framed (kept verdict) hashtree_mode.
Proof. unfold hashtree_mode. frame. Qed.
Lemma recovery_image_kept : framed (kept verdict) recovery_image.
Proof. unfold recovery_image. frame. Qed.
Lemma judge_kept a r : framed (kept verdict) (judge a r).
Proof. unfold judge. frame. Qed.
Lemma slot_data_kept v : framed (kept verdict) (slot_data v).
Proof. unfold slot_data. frame. Qed.
Lemma verify_slot_kept q u : framed (kept verdict) (verify_slot q u).
Proof. apply kept_run. Qed.
Hint Resolve recovery_image_kept judge_kept slot_data_kept verify_slot_kept : framed.
Lemma verify_recovery_kept a x m u : framed (kept verdict) (verify_recovery a x m u).
Proof. unfold verify_recovery. cbv zeta. frame. Qed.
Lemma verify_boot_kept a x m u : framed (kept verdict) (verify_boot a x m u).
Proof. unfold verify_boot, boot_header, LoadBootImageHeader, load_header_of. cbv zeta. frame. Qed.
Hint Resolve verify_recovery_kept verify_boot_kept : framed.
Lemma vb2_verify_kept a x m u : framed (kept verdict) (vb2_verify a x m u).
Proof. unfold vb2_verify. frame. Qed.
Lemma get_image_kept n : framed (kept verdict) (get_image n).
Proof. unfold get_image. frame. Qed.
Hint Resolve get_image_kept : framed.
Lemma checked_image_kept : framed (kept verdict) checked_image.
Proof. unfold checked_image. frame. Qed.
Lemma AppendVBCmdLine_kept t : framed (kept verdict) (AppendVBCmdLine t).
Proof. unfold AppendVBCmdLine. cbv zeta. frame. Qed.
Hint Resolve AppendVBCmdLine_kept : framed.
Lemma AppendVBCommonCmdLine_kept : framed (kept verdict) AppendVBCommonCmdLine.
Proof. unfold AppendVBCommonCmdLine. frame. Qed.
Hint Resolve AppendVBCommonCmdLine_kept : framed.
Lemma vb2_cmdline_kept d : framed (kept verdict) (vb2_cmdline d).
Proof. unfold vb2_cmdline. frame. Qed.
Lemma tell_keymaster_kept a u d h : framed (kept verdict) (tell_keymaster a u d h).
Proof. unfold tell_keymaster, guarded, security_level. cbv zeta. frame. Qed.
End verdict_kept.
#[local] Hint Resolve VBAllocateCmdLine_kept new_user_data_kept vb2_slot_suffix_kept update_rollback_kept
  hashtree_mode_kept vb2_verify_kept checked_image_kept vb2_cmdline_kept tell_keymaster_kept : framed.

(** ** A failure leaves the state RED *)
Definition stays_red : relation place := fun p q => BootState (fst p) = RED -> BootState (fst q) = RED.
#[export] Instance stays_red_preorder : PreOrder stays_red.
Proof. split; [by intros p H|]. intros p q r H H' E. by apply H', H. Qed.
Lemma verdict_stays_red {A} (m : G A) : framed (kept verdict) m -> framed stays_red m.
Proof. intros H i s i' r s' E. apply H in E. intros Hr. injection E as E _ _ _. cbn in *. congruence. Qed.
Lemma VBCommonInit_red : framed stays_red VBCommonInit.
Proof.
  unfold VBCommonInit. apply framed_bind; [typeclasses eauto| |intros _; frame].
  intros i s i' r s' [= <- _ <-] ?. done.
Qed.
Lemma add_image_red img : framed stays_red (add_image img).
Proof. intros i s i' r s' [= <- _ <-] ?. done. Qed.
Hint Resolve add_image_red : framed.
Lemma take_images_red names l : framed stays_red (take_images names l).
Proof. induction names as [|n names IH]; cbn [take_images]; frame. Qed.
Hint Resolve take_images_red : framed.
Lemma vb2_images_red v d : framed stays_red (vb2_images v d).
Proof. unfold vb2_images. frame. intros i s i' r s' [= <- _ <-] ?. done. Qed.

(** A computation that only leaves with failures, to [out]. *)
Definition outs {A} (m : G A) : Prop :=
  forall i s i' x s', m i s = Some ((i', inl x), s') -> exists St, x = Out St /\ is_success St = false.
Lemma outs_bind {A B} (m : G A) (f : A -> G B) : outs m -> (forall a, outs (f a)) -> outs (m ≫= f).
Proof.
  intros Hm Hf i s i' x s'. rewrite G_bind_run. destruct (m i s) as [[[i1 [y|a]] s1]|] eqn:E; [| |done].
  - intros [= <- <- <-]. by eapply Hm.
  - by apply Hf.
Qed.
Lemma outs_ret {A} (a : A) : outs (mret a).
Proof. done. Qed.
Lemma outs_info {A} (f : BootInfo -> A) : outs (info f).
Proof. done. Qed.
Lemma outs_run {A} (m : V A) : outs (VerifiedBoot.run m).
Proof. intros i s i' x s'. unfold VerifiedBoot.run. rewrite bind_run. by destruct (m s) as [[a s1]|]. Qed.
Lemma outs_GUARD_OUT St : outs (GUARD_OUT St).
Proof. unfold GUARD_OUT. destruct (is_success St) eqn:E; [done|]. intros i s i' x s' [= _ <- _]. eauto. Qed.
Lemma outs_call m : outs (call m).
Proof. intros i s i' x s'. unfold call. rewrite bind_run. by destruct (m i s) as [[[i1 [[y|y]|a]] s1]|]. Qed.
Hint Resolve outs_ret outs_info outs_run outs_GUARD_OUT outs_call : framed.
Ltac outs :=
  repeat match goal with
  | |- outs (_ ≫= _) => apply outs_bind; [|intros ?]
  | |- outs (fetch _) => apply outs_run
  | |- outs (let (_, _) := ?x in _) => destruct x
  | |- outs (if ?b then _ else _) => destruct b
  | |- outs _ => solve [auto with framed nocore]
  end.
Lemma vb2_cmdline_outs d : outs (vb2_cmdline d).
Proof. unfold vb2_cmdline. outs. Qed.
Lemma tell_keymaster_outs a u d h : outs (tell_keymaster a u d h).
Proof. unfold tell_keymaster, guarded, security_level. cbv zeta. outs. Qed.

(** What is left in a RED state is RED, or it is a failure at [out]. *)
Definition red_leaves {A} (m : G A) : Prop := forall i s i' x s',
  BootState i = RED -> m i s = Some ((i', inl x), s') ->
  BootState i' = RED \/ exists St, x = Out St /\ is_success St = false.
Lemma red_leaves_bind {A B} (m : G A) (f : A -> G B) :
  framed stays_red m -> (forall a, red_leaves (f a)) -> red_leaves (m ≫= f).
Proof.
  intros Hm Hf i s i' x s' Hr. rewrite G_bind_run. destruct (m i s) as [[[i1 [y|a]] s1]|] eqn:E; [| |done].
  - intros [= <- <- <-]. left. exact (Hm _ _ _ _ _ E Hr).
  - apply Hf. exact (Hm _ _ _ _ _ E Hr).
Qed.
Lemma red_leaves_outs {A} (m : G A) : outs m -> red_leaves m.
Proof. intros H i s i' x s' _ E. right. by eapply H. Qed.
Lemma vb2_body_leaves Allow i s i' x s' :
  vb2_body Allow i s = Some ((i', inl x), s') ->
  BootState i' = RED \/ exists St, x = Out St /\ is_success St = false.
Proof.
  unfold vb2_body. rewrite G_bind_run. cbn [change mret M_ret].
  match goal with |- ?m ?j _ = _ -> _ =>
    enough (red_leaves m) as Hl by (intros E; by eapply Hl in E)
  end.
  apply red_leaves_bind; [apply VBCommonInit_red|intros _].
  do 5 (apply red_leaves_bind; [apply verdict_stays_red; auto with framed nocore|intros ?]).
  apply red_leaves_bind; [apply verdict_stays_red; auto with framed nocore|intros [v d]].
  apply red_leaves_bind; [apply vb2_images_red|intros _].
  apply red_leaves_bind; [apply verdict_stays_red; auto with framed nocore|intros hdr].
  apply red_leaves_outs. apply outs_bind; [done|intros _].
  apply outs_bind; [apply vb2_cmdline_outs|intros _]. apply tell_keymaster_outs.
Qed.
Lemma bind_then_ret {S A B} (m : M S A) (b c : B) s s' : (m ≫= fun _ => mret b) s = Some (c, s') -> c = b.
Proof. rewrite bind_run. destruct (m s) as [[a s1]|]; [by intros [= <- _]|done]. Qed.
Lemma LoadImageAndAuthVB2_red i s i' r s' :
  LoadImageAndAuthVB2 i s = Some ((i', r), s') ->
  BootState i' = RED \/
  (r = inr tt /\ vb2_body (is_unlocked (DevInfo (VbLoader s))) i s = Some ((i', inr tt), s')).
Proof.
  unfold LoadImageAndAuthVB2, loaderV, IsUnlocked, dev. run. destruct s as [L lg]. cbn [VbLoader SecureLog].
  destruct (vb2_body _ i _) as [[[i1 [[St|St]|[]]] s1]|] eqn:E; [..|done].
  - intros [= <- <- <-]. apply vb2_body_leaves in E as [E|(St' & [=] & _)]. by left.
  - pose proof E as E'. apply vb2_body_leaves in E' as [E'|(St' & [= ->] & Hf)].
    + case_if; [intros [= <- <- <-]; by left|]. intros [= -> _]%bind_then_ret. by left.
    + rewrite Hf. intros [= -> _]%bind_then_ret. by left.
  - intros [= <- <- <-]. right. done.
Qed.

(** ** What was verified *)
(** A verification by libavb with these results, which tolerates errors only as told. *)
Definition asked (Allow : bool) (v : verified) : Prop := exists l u q l',
  avb_slot_verify l u q = ((Result v, SlotData v), (l', UserData v)) /\
  Requested v = requested_partitions q /\ ALLOW_VERIFICATION_ERROR (verify_flags q) = Allow.
Definition accepted (Allow : bool) (r : AvbSlotVerifyResult) : Prop :=
  r = AVB_SLOT_VERIFY_RESULT_OK \/ (Allow = true /\ ResultShouldContinue r = true).
Definition image_of (p : AvbPartitionData) : LoadedImage :=
  mk_loaded (partition_name p) (Some (data p)) (Z.of_nat (length (data p))).
(** The images of a verification, in the order in which they were asked for. *)
Definition images_of (v : verified) (d : AvbSlotVerifyData) : list LoadedImage :=
  image_of <$> omap (fun n => loaded_as n (loaded_partitions d)) (Requested v).

Lemma run_ok {A} (m : V A) i s i' a s' :
  VerifiedBoot.run m i s = Some ((i', inr a), s') -> i' = i /\ m s = Some (a, s').
Proof. unfold VerifiedBoot.run. rewrite bind_run. destruct (m s) as [[b s1]|]; [by intros [= <- <- <-]|done]. Qed.
Lemma fetch_ok {A} (o : option A) i s i' a s' :
  fetch o i s = Some ((i', inr a), s') -> o = Some a /\ i' = i /\ s' = s.
Proof. intros [-> H]%run_ok. unfold access in H. destruct o; [by injection H as -> ->|done]. Qed.
Lemma info_ok {A} (f : BootInfo -> A) i s i' a s' :
  info f i s = Some ((i', inr a), s') -> a = f i /\ i' = i /\ s' = s.
Proof. by intros [= <- <- <-]. Qed.
Lemma change_ok g i s i' a s' : change g i s = Some ((i', inr a), s') -> i' = g i /\ s' = s.
Proof. by intros [= <- _ <-]. Qed.
Lemma GUARD_OUT_ok St i s i' a s' :
  GUARD_OUT St i s = Some ((i', inr a), s') -> St = EFI_SUCCESS /\ i' = i /\ s' = s.
Proof.
  unfold GUARD_OUT. destruct (is_success St) eqn:E; [|done].
  apply bool_decide_eq_true in E. by intros [= <- _ <-].
Qed.
Lemma judge_ok Allow r i s i' a s' :
  judge Allow r i s = Some ((i', inr a), s') -> accepted Allow r.
Proof.
  unfold judge, accepted. destruct Allow, (ResultShouldContinue r), (decide (r = AVB_SLOT_VERIFY_RESULT_OK)); auto; done.
Qed.
Lemma slot_data_ok v i s i' d s' : slot_data v i s = Some ((i', inr d), s') -> SlotData v = Some d.
Proof. unfold slot_data. destruct (SlotData v); [by intros [= _ <- _]|done]. Qed.

Lemma verify_slot_ok q u i s i' v s' :
  verify_slot q u i s = Some ((i', inr v), s') -> asked (ALLOW_VERIFICATION_ERROR (verify_flags q)) v.
Proof.
  unfold verify_slot. intros [_ H]%run_ok. destruct (avb_slot_verify (VbLoader s) u q) as [[r d] [l u']] eqn:E.
  injection H as <- _. by exists (VbLoader s), u, q, l.
Qed.
Lemma verify_recovery_ok Allow x m u i s i' v s' :
  verify_recovery Allow x m u i s = Some ((i', inr v), s') -> asked Allow v.
Proof.
  unfold verify_recovery. intros H. cbv zeta in H. g_ok H mu i1 s1 E1. g_ok H w i2 s2 E2.
  g_ok H t i3 s3 E3. g_ok H d i4 s4 E4. g_ok H hv i5 s5 E5.
  case_if_in H; [by apply verify_slot_ok in H|]. injection H as _ <- _. by apply verify_slot_ok in E2.
Qed.
Lemma verify_boot_ok Allow x m u i s i' v s' :
  verify_boot Allow x m u i s = Some ((i', inr v), s') -> asked Allow v.
Proof.
  unfold verify_boot. intros H. g_ok H r i1 s1 E1. destruct r as [St [[hdr|] size]]; [|done].
  case_if_in H; [done|]. case_if_in H; [done|]. cbv zeta in H.
  g_ok H im i2 s2 E2. g_ok H rq i3 s3 E3. g_ok H mu i4 s4 E4. g_ok H cs i5 s5 E5.
  g_ok H vp i6 s6 E6. g_ok H ve i7 s7 E7. by apply verify_slot_ok in H.
Qed.
Lemma vb2_verify_ok Allow x m u i s i' v d s' :
  vb2_verify Allow x m u i s = Some ((i', inr (v, d)), s') ->
  asked Allow v /\ accepted Allow (Result v) /\ SlotData v = Some d.
Proof.
  unfold vb2_verify. intros H. g_ok H own i1 s1 E1. g_ok H w i2 s2 E2. g_ok H d' i3 s3 E3. g_ok H t i4 s4 E4.
  injection H as _ <- <- _. apply slot_data_ok in E3. apply judge_ok in E4. split; [|done].
  destruct own; [by apply verify_recovery_ok in E2|by apply verify_boot_ok in E2].
Qed.

Lemma take_images_ok names l i s i' a s' :
  take_images names l i s = Some ((i', inr a), s') ->
  i' = set_Images (InfoImages i ++ (image_of <$> omap (fun n => loaded_as n l) names)) i /\ s' = s.
Proof.
  revert i s. induction names as [|n names IH]; intros i s H; cbn [take_images omap list_omap] in *.
  { injection H as <- _ <-. rewrite app_nil_r. by destruct i. }
  g_ok H t i1 s1 E1. apply IH in H as [-> ->]. destruct (loaded_as n l) as [p|].
  - g_ok E1 im i2 s2 E2. apply info_ok in E2 as (-> & -> & ->). case_if_in E1; [done|].
    unfold add_image in E1. apply change_ok in E1 as [-> ->]. cbn. by rewrite <-app_assoc.
  - injection E1 as <- _ <-. done.
Qed.
Lemma vb2_images_ok v d i s i' a s' :
  vb2_images v d i s = Some ((i', inr a), s') ->
  i' = set_VBData (Some d) (set_Images (InfoImages i ++ images_of v d) i) /\ s' = s.
Proof.
  unfold vb2_images. intros H. g_ok H t i1 s1 E1. apply take_images_ok in E1 as [-> ->].
  g_ok H im i2 s2 E2. apply info_ok in E2 as (-> & -> & ->). case_if_in H; [done|]. case_if_in H; [done|].
  by apply change_ok in H as [-> ->].
Qed.
Lemma loaded_named_elem n l img : loaded_named n l = Some img -> img ∈ l.
Proof.
  induction l as [|x l IH]; cbn; [done|]. case_if; [intros [= <-]; left|]. intros H. right. auto.
Qed.
(** An image of the boot whose header the loader accepts. *)
Definition bootable (i : BootInfo) (hdr : list Z) : Prop :=
  (exists img, img ∈ InfoImages i /\ ImgBuffer img = Some hdr) /\
  exists vendor n p, CheckImageHeader hdr BOOT_IMG_MAX_PAGE_SIZE vendor 0 0 (InfoRecovery i) = Some (EFI_SUCCESS, n, p).
Lemma get_image_ok n i s i' img s' :
  get_image n i s = Some ((i', inr img), s') -> img ∈ InfoImages i /\ i' = i /\ s' = s.
Proof.
  unfold get_image. intros H. g_ok H im i1 s1 E1. apply info_ok in E1 as (-> & -> & ->).
  destruct (loaded_named n (InfoImages i)) as [x|] eqn:E; [|done]. injection H as <- <- <-.
  split; [by eapply loaded_named_elem|done].
Qed.
Lemma checked_image_ok i s i' hdr s' :
  checked_image i s = Some ((i', inr hdr), s') -> bootable i' hdr.
Proof.
  unfold checked_image. intros H. g_ok H own i1 s1 E1.
  g_ok H img i2 s2 E2. apply get_image_ok in E2 as (Hi & -> & ->). case_if_in H; [done|].
  g_ok H h i3 s3 E3. apply fetch_ok in E3 as (Hh & -> & ->).
  g_ok H ve i4 s4 E4. apply fetch_ok in E4 as (_ & -> & ->).
  g_ok H vd i5 s5 E5. assert (i5 = i1) as ->.
  { case_if_in E5; [|by injection E5]. g_ok E5 w i6 s6 E6. apply get_image_ok in E6 as (_ & -> & ->). by injection E5. }
  g_ok H rc i6 s6 E6. apply info_ok in E6 as (-> & -> & ->).
  g_ok H r i7 s7 E7. apply fetch_ok in E7 as (Hc & -> & ->). destruct r as [[St n] p].
  g_ok H t i8 s8 E8. apply GUARD_OUT_ok in E8 as (-> & -> & ->). injection H as <- <- <-.
  split; [by exists img|]. by exists vd, n, p.
Qed.

(** ** What the key master was told *)
(** The messages about a boot, in their order: root of trust and state, then the digest of
    what was verified. *)
Definition told (km : KMRotAndBootState) (d : AvbSlotVerifyData) (log : list secure_event) : Prop :=
  exists rot state log0 id log1 id', rot_digests km = Some (rot, state) /\
    log = log0 ++ [AppCommand id (KMSetRotReq rot); AppCommand id (KMSetBootStateReq km state)] ++
          log1 ++ [AppCommand id' (KMSetVbhReq (ComputeVbMetaDigest d))].
Definition noted_key (u : AvbOpsUserData) : list Z := take (Z.to_nat (PublicKeyLen u)) (PublicKey u).
Lemma tell_keymaster_ok Allow u d hdr i s i' a s' :
  tell_keymaster Allow u d hdr i s = Some ((i', inr a), s') ->
  exists os level, os_version hdr = Some os /\
    told (mk_rot Allow (BootState i) (noted_key u) (Z.shiftr (Z.land os 0xFFFFF800) 11) level) d (SecureLog s').
Proof.
  unfold tell_keymaster. intros H. g_ok H c i1 s1 E1. apply info_ok in E1 as (-> & -> & ->).
  g_ok H ds i2 s2 E2. g_ok H os i3 s3 E3. apply fetch_ok in E3 as (Hos & -> & ->).
  g_ok H level i4 s4 E4. g_ok H St i5 s5 E5. apply run_ok in E5 as [-> E5].
  g_ok H t i6 s6 E6. apply GUARD_OUT_ok in E6 as (-> & -> & ->).
  apply KeyMasterSetRotAndBootState_log in E5 as (rot & state & id & l & Hr & Hl).
  g_ok H St i7 s7 E7. apply run_ok in E7 as [-> E7]. apply GUARD_OUT_ok in H as (-> & -> & ->).
  apply SetVerifiedBootHash_log in E7 as [id' Hl']. exists os, level. split; [done|].
  exists rot, state, (SecureLog s4 ++ [AppCommand id KMGetVersionReq]), id, (l ++ [AppCommand id' KMGetVersionReq]), id'.
  split; [done|]. rewrite Hl', Hl. by rewrite <-!app_assoc.
Qed.

(** ** The whole *)
(** The state that fits a device and a key. *)
Definition fitting_state (unlocked user_key : bool) : boot_state_t :=
  match unlocked, user_key with true, _ => ORANGE | false, true => YELLOW | false, false => GREEN end.
(** What holds when images may be booted. *)
Definition verified_boot (Allow : bool) (Info Info' : BootInfo) (log : list secure_event) : Prop :=
  exists v d hdr os level,
    asked Allow v /\ accepted Allow (Result v) /\ SlotData v = Some d /\ InfoVBData Info' = Some d /\
    InfoImages Info' = InfoImages Info ++ images_of v d /\
    bootable Info' hdr /\ os_version hdr = Some os /\
    BootState Info' = fitting_state Allow (IsUserKey (UserData v)) /\
    told (mk_rot Allow (fitting_state Allow (IsUserKey (UserData v))) (noted_key (UserData v))
            (Z.shiftr (Z.land os 0xFFFFF800) 11) level) d log.

Lemma boot_color_fits Allow u : boot_color Allow u = fitting_state Allow (IsUserKey u).
Proof. unfold boot_color. by destruct Allow, (IsUserKey u). Qed.
Lemma kept_VBCommonInit : framed (kept InfoImages) VBCommonInit.
Proof. unfold VBCommonInit. frame. Qed.
Lemma verdict_images {A} (m : G A) : framed (kept verdict) m -> framed (kept InfoImages) m.
Proof. intros H i s i' r s' E. apply H in E. by injection E. Qed.
Lemma vb2_body_ok Allow i s i' a s' :
  vb2_body Allow i s = Some ((i', inr a), s') -> verified_boot Allow i i' (SecureLog s').
Proof.
  unfold vb2_body. intros H. g_ok H t0 i0 s0 E0. apply change_ok in E0 as [-> ->].
  g_ok H t1 i1 s1 E1. apply kept_VBCommonInit in E1. g_ok H t2 i2 s2 E2. apply VBAllocateCmdLine_kept in E2.
  g_ok H u i3 s3 E3. apply new_user_data_kept in E3. g_ok H sfx i4 s4 E4. apply vb2_slot_suffix_kept in E4.
  g_ok H t5 i5 s5 E5. apply update_rollback_kept in E5. g_ok H mode i6 s6 E6. apply hashtree_mode_kept in E6.
  g_ok H r i7 s7 E7. destruct r as [v d]. pose proof E7 as E7'. apply vb2_verify_kept in E7'.
  apply vb2_verify_ok in E7 as (Hv & Ha & Hd).
  g_ok H t8 i8 s8 E8. apply vb2_images_ok in E8 as [E8 ->]. g_ok H hdr i9 s9 E9. pose proof E9 as E9'.
  apply checked_image_kept in E9'. apply checked_image_ok in E9. g_ok H t10 i10 s10 E10. apply change_ok in E10 as [-> ->].
  g_ok H t11 i11 s11 E11. apply vb2_cmdline_kept in E11. pose proof H as H'. apply tell_keymaster_kept in H'.
  apply tell_keymaster_ok in H as (os & level & Hos & Ht).
  assert (InfoImages i7 = InfoImages i) as Hi by (cbv [kept verdict] in *; cbn in *; congruence). subst i8.
  cbv [kept verdict] in *. cbn in *. injection E9' as _ I9 V9 R9. injection E11 as B11 I11 V11 R11.
  injection H' as B12 I12 V12 R12. exists v, d, hdr, os, level.
  rewrite B12, I12, V12, B11, I11, V11, I9, V9, Hi. unfold bootable in *. rewrite I12, R12, I11, R11.
  rewrite B11 in Ht. rewrite <-boot_color_fits. done.
Qed.

(** *** The screen and the name of the partition *)
Definition screen : relation place := fun p q => fst q = fst p /\ SecureLog (snd q) = SecureLog (snd p).
#[export] Instance screen_preorder : PreOrder screen.
Proof. split; [done|]. intros p q r [H1 H2] [H3 H4]. unfold screen. split; congruence. Qed.
Lemma screen_loader {A} (m : LD A) : framed screen (VerifiedBoot.run (loaderV m)).
Proof.
  intros i s i' r s'. unfold VerifiedBoot.run. rewrite bind_run.
  destruct (loaderV m s) as [[a s1]|] eqn:E; [|done]. intros [= <- _ <-]. by apply loaderV_log in E.
Qed.
Hint Resolve screen_loader : framed.
Lemma DisplayVerifiedBootScreen_screen : framed screen DisplayVerifiedBootScreen.
Proof. unfold DisplayVerifiedBootScreen, ffbm_string, dm_verity_warning. cbv zeta. frame. Qed.
Lemma DisplayVerifiedBootScreen_on i s i' l b s' :
  DisplayVerifiedBootScreen i s = Some ((i', inr (l, b)), s') -> GetAVBVersion <> NO_AVB -> BootState i = RED -> b = true.
Proof.
  unfold DisplayVerifiedBootScreen. intros H Hn Hr. rewrite bool_decide_eq_false_2 in H by done.
  g_ok H f i1 s1 E1. assert (framed screen ffbm_string) as Hs by (unfold ffbm_string; cbv zeta; frame).
  apply Hs in E1 as [E1 _]. cbn in E1. subst i1. g_ok H c i2 s2 E2. apply info_ok in E2 as (-> & -> & ->).
  rewrite Hr in H. by injection H.
Qed.
Lemma set_boot_name_images n : framed (kept InfoImages) (set_boot_name n).
Proof. unfold set_boot_name. frame. Qed.
Lemma set_boot_name_dev n : framed dev_kept (set_boot_name n).
Proof. unfold set_boot_name. frame. Qed.
Hint Resolve set_boot_name_images set_boot_name_dev : framed.
Lemma boot_partition_name_images : framed (kept InfoImages) boot_partition_name.
Proof. unfold boot_partition_name. cbv zeta. frame. Qed.
Lemma boot_partition_name_dev : framed dev_kept boot_partition_name.
Proof. unfold boot_partition_name. cbv zeta. frame. Qed.

(** *** A function that leaves at once leaves with a failure *)
Definition leave_status (x : leave) : EFI_STATUS := match x with Return_ St | Out St => St end.
Definition fails {A} (m : G A) : Prop :=
  forall i s i' x s', m i s = Some ((i', inl x), s') -> leave_status x <> EFI_SUCCESS.
Lemma fails_then {A B} (m : G A) (f : A -> G B) : fails m -> (forall a, fails (f a)) -> fails (m ≫= f).
Proof.
  intros Hm Hf i s i' x s'. rewrite G_bind_run. destruct (m i s) as [[[i1 [y|a]] s1]|] eqn:E; [| |done].
  - intros [= <- <- <-]. by eapply Hm.
  - by apply Hf.
Qed.
Lemma outs_fails {A} (m : G A) : outs m -> fails m.
Proof. intros H i s i' x s' E. apply H in E as (St & -> & E). by apply bool_decide_eq_false in E. Qed.
Lemma fails_GUARD St : fails (GUARD St).
Proof.
  unfold GUARD. destruct (is_success St) eqn:E; [done|]. apply bool_decide_eq_false in E.
  by intros i s i' x s' [= _ <- _].
Qed.
Lemma fails_leaving {A} x : leave_status x <> EFI_SUCCESS -> fails (A := A) (leaving x).
Proof. by intros H i s i' y s' [= _ <- _]. Qed.
Lemma outs_change g : outs (change g).
Proof. done. Qed.
Hint Resolve outs_fails fails_GUARD outs_change : framed.
Ltac fails :=
  repeat match goal with
  | |- fails (_ ≫= _) => apply fails_then; [|intros ?]
  | |- fails (fetch _) => apply outs_fails, outs_run
  | |- fails (let (_, _) := ?x in _) => destruct x
  | |- fails (if ?b then _ else _) => destruct b
  | |- fails (match ?x with _ => _ end) => destruct x
  | |- fails (leaving _) => by apply fails_leaving
  | |- fails _ => solve [auto with framed nocore]
  end.
Lemma set_boot_name_fails n : fails (set_boot_name n).
Proof. unfold set_boot_name. fails. Qed.
Hint Resolve set_boot_name_fails : framed.
Lemma boot_partition_name_fails : fails boot_partition_name.
Proof. unfold boot_partition_name. cbv zeta. fails. Qed.
Lemma DisplayVerifiedBootScreen_fails : fails DisplayVerifiedBootScreen.
Proof. unfold DisplayVerifiedBootScreen, ffbm_string, dm_verity_warning. cbv zeta. fails. Qed.
Hint Resolve boot_partition_name_fails DisplayVerifiedBootScreen_fails : framed.
Lemma after_mdtp_fails St x : after_mdtp St = inl x -> leave_status x <> EFI_SUCCESS.
Proof.
  unfold after_mdtp. case_if; [|done]. destruct (EFI_ERROR LocateMdtp) eqn:El; [|done]. intros [= <-]. cbn.
  by intros Hl; rewrite Hl in El.
Qed.
Lemma LoadImageAndAuth_body_fails : fails LoadImageAndAuth_body.
Proof.
  unfold LoadImageAndAuth_body. apply fails_then; [auto with framed nocore|intros _].
  apply fails_then; [auto with framed nocore|intros St]. case_if; [fails|].
  destruct (after_mdtp St) as [x|St'] eqn:Ea; [|fails]. apply fails_leaving. by eapply after_mdtp_fails.
Qed.

(** A success is that of the verification, shown on the screen. *)
Lemma LoadImageAndAuth_body_ok Info s Info' s' :
  GetAVBVersion = AVB_2 ->
  LoadImageAndAuth_body Info s = Some ((Info', inr (Done EFI_SUCCESS)), s') ->
  verified_boot (is_unlocked (DevInfo (VbLoader s))) Info Info' (SecureLog s').
Proof.
  unfold LoadImageAndAuth_body. intros Hv H. g_ok H t1 i1 s1 E1.
  pose proof (boot_partition_name_images _ _ _ _ _ E1) as I1. apply boot_partition_name_dev in E1.
  cbv [kept dev_kept] in I1, E1. cbn in I1, E1. g_ok H St i2 s2 E2. rewrite Hv in H.
  change (bool_decide (AVB_2 = NO_AVB)) with false in H. cbv iota in H.
  destruct (after_mdtp St) as [x|St'] eqn:Em; [done|]. g_ok H un i3 s3 E3.
  assert (i3 = i2 /\ s3 = s2) as [-> ->].
  { apply run_ok in E3 as [-> E3]. unfold loaderV, IsUnlocked, dev, gets in E3. injection E3 as _ <-. by destruct s2. }
  case_if_in H. { apply andb_true_iff in E as [_ Hf]. injection H as _ -> _. done. }
  change (bool_decide (AVB_2 = AVB_LE)) with false in H. cbv iota in H. g_ok H b i4 s4 E4. destruct b as [l b].
  pose proof (DisplayVerifiedBootScreen_on _ _ _ _ _ _ E4) as Hb. apply DisplayVerifiedBootScreen_screen in E4.
  destruct E4 as [E4 L4]. cbn in E4, L4, H. subst i4. destruct b; [done|]. injection H as <- _ <-.
  unfold call, authenticate in E2. rewrite Hv in E2. rewrite bind_run in E2.
  destruct (LoadImageAndAuthVB2 i1 s1) as [[[i5 r] s5]|] eqn:E5; [|done].
  assert (i5 = i2 /\ s5 = s2) as [-> ->] by (destruct r as [[?|?]|[]]; injection E2; auto).
  apply LoadImageAndAuthVB2_red in E5 as [Hr|[_ E5]].
  { enough (false = true) by done. apply Hb; [by rewrite Hv|done]. }
  apply vb2_body_ok in E5. rewrite L4. revert E5. unfold verified_boot. by rewrite I1, E1.
Qed.

(** C2: with the second version of verified boot, [LoadImageAndAuth]
    succeeds only after libavb verified the partitions it was asked for, with errors
    tolerated only on an unlocked device.  What may then be booted are the images of that
    verification, behind those that were loaded before, and the header of one of them passed
    the loader's checks.  The boot state is ORANGE on an unlocked device, else YELLOW or
    GREEN for a user's or the OEM's key, and the key master was told this state, the key, and
    the digest of what was verified. *)
Theorem LoadImageAndAuth_verified Info s Info' s' :
  GetAVBVersion = AVB_2 ->
  LoadImageAndAuth Info s = Some ((Info', Done EFI_SUCCESS), s') ->
  verified_boot (is_unlocked (DevInfo (VbLoader s))) Info Info' (SecureLog s').
Proof.
  intros Hv. unfold LoadImageAndAuth. rewrite bind_run.
  destruct (LoadImageAndAuth_body Info s) as [[[i1 [[St|St]|r]] s1]|] eqn:E; [..|done]; intros [= -> -> ->].
  1,2: by apply LoadImageAndAuth_body_fails in E. by apply LoadImageAndAuth_body_ok.
Qed.
End spec.
(** ** Witness: a locked device without slots boots the images that the key of the
    OEM signed. *)
Section demo.
#[local] Existing Instances demo_Board reference_BaseLib reference_UnicodeLib reference_AsciiLib demo_BuildConfig
  demo_BootMode demo_LoaderBuild demo_VerifiedBoot.
#[local] Instance vb_AsciiCatLib : AsciiCatLib := reference_AsciiCatLib (demo_print 10).
#[local] Instance vb_BootBuild : BootBuild := {|
  ENABLE_LE_VARIANT := false; BUILD_SYSTEM_ROOT_IMAGE := true; BUILD_USES_RECOVERY_AS_BOOT := true;
  NAND_SQUASHFS_SUPPORT := false; ENABLE_SYSTEMD_BOOTSLOT := false; VERITY_LE := false; EnableMdtpSupport := false |}.
#[local] Instance vb_BootProtocols : BootProtocols := {|
  GetPanelConfiguration n := (EFI_NOT_FOUND, 0, []); GetBootDeviceBaseAddr := (EFI_SUCCESS, 0x1D84000);
  LocateMdtp := EFI_NOT_FOUND; MdtpGetState := (EFI_NOT_FOUND, MDTP_STATE_ACTIVE); MdtpBootState _ := EFI_SUCCESS;
  IsOffModeCharging := (EFI_SUCCESS, false); LocatePmicPon := EFI_NOT_FOUND;
  GetPonReason := (EFI_NOT_FOUND, mk_pon false false false false); WarmResetStatus := (EFI_NOT_FOUND, false) |}.
(** The header of a kernel of 100 bytes in pages of 4096. *)
Definition vb_header : list Z :=
  bytes "ANDROID!" ++ le_bytes 4 100 ++ repeat 0 24 ++ le_bytes 4 4096 ++ repeat 0 4 ++ le_bytes 4 0xB000151 ++ repeat 0 4048.
Definition vb_blk : EFI_BLOCK_IO_PROTOCOL := mk_blkio 5 0 4096 1.
#[local] Instance vb_Firmware : Firmware := ram_Firmware 4096 (bytes "UFS") (fun _ => []) (fun _ => None).
#[local] Instance vb_Partitions : LabelledPartitions := {|
  GetBlkIOHandlesByLabel _ Label _ :=
    (EFI_SUCCESS, if decide (Label = bytes "boot") then [mk_handle 9 (Some vb_blk)] else []) |}.
Definition demo_answer : list Z := repeat 0 4 ++ le_bytes 4 4 ++ repeat 0 12.
#[local] Instance vb_SecureWorld : SecureWorld := {|
  LocateScm := EFI_SUCCESS; ScmSipSysCall _ _ _ := (EFI_SUCCESS, [1; 0x40]); LocateQseecom := EFI_SUCCESS;
  QseecomStartApp _ _ := (EFI_SUCCESS, 17); QseecomSendCmd _ _ _ n := (EFI_SUCCESS, take n demo_answer);
  avb_sha256 d := repeat (Z.of_nat (length d) mod 256) AVB_SHA256_DIGEST_SIZE |}.
(** A verification that finds the key of the OEM on what it is asked for. *)
Definition vb_data : AvbSlotVerifyData :=
  mk_slot_data [mk_partition_data (bytes "boot") vb_header; mk_partition_data (bytes "dtbo") (repeat 1 8)]
    [repeat 2 16] (bytes " root=/dev/dm-0").
#[local] Instance vb_Libavb : Libavb := {|
  avb_slot_verify l u q :=
    match AvbValidateVbmetaPublicKey OEMPublicKey u l with
    | Some ((AVB_IO_RESULT_OK, true, u'), l') =>
      if decide (requested_partitions q = [bytes "boot"; bytes "dtbo"]) then ((AVB_SLOT_VERIFY_RESULT_OK, Some vb_data), (l', u'))
      else ((AVB_SLOT_VERIFY_RESULT_ERROR_IO, None), (l', u'))
    | _ => ((AVB_SLOT_VERIFY_RESULT_ERROR_PUBLIC_KEY_REJECTED, None), (l, u))
    end;
  avb_property_lookup _ _ := Some (bytes "2021-05-01") |}.
#[local] Instance vb_Calls : VerifiedBootCalls := {|
  VbRevision := 0x10002; VBDeviceInit _ _ := EFI_SUCCESS; VBVerifyImage _ _ := (EFI_UNSUPPORTED, RED);
  VBSendRot := EFI_SUCCESS; VBSendMilestone := EFI_SUCCESS; VBGetCertFingerPrint _ := (EFI_UNSUPPORTED, []);
  MdtpDeactivate := EFI_SUCCESS; LeOemCertificate := []; LocateAsn1X509 := EFI_NOT_FOUND;
  ASN1X509VerifyOEMCertificate _ := (EFI_UNSUPPORTED, 0); ASN1X509GetRSAFromCert _ := (EFI_UNSUPPORTED, 0);
  ASN1X509GetKeymaterial _ := (EFI_UNSUPPORTED, ([], [])); LocateHash2 := EFI_NOT_FOUND;
  GetHashSize := (EFI_UNSUPPORTED, 0); HashInit := EFI_UNSUPPORTED; HashUpdate _ := EFI_UNSUPPORTED;
  HashFinal _ := (EFI_UNSUPPORTED, []); LocateSecRSA := EFI_NOT_FOUND; SecRSABigIntReadBin _ := (EFI_UNSUPPORTED, 0);
  SecRSAVerifySig _ _ _ _ := EFI_UNSUPPORTED; stack_slot := empty_slot |}.
Definition vb_info : BootInfo := mk_info false false false [] [] GREEN None None 0.
Definition vb_demo_state : vb_state :=
  mk_vb_state (mk_loader (set_log [WriteBlocks 5 0 vb_header] (set_RootType UFS (demo_slots (first_boot_attributes 0) 0)))
                 zero_dev_info false None) [].
Definition vb_end : BootInfo * vb_state :=
  match LoadImageAndAuth vb_info vb_demo_state with
  | Some ((i, _), s) => (i, s)
  | None => (vb_info, vb_demo_state)
  end.
Lemma LoadImageAndAuth_verified_witness :
  LoadImageAndAuth vb_info vb_demo_state = Some ((fst vb_end, Done EFI_SUCCESS), snd vb_end) /\
  BootState (fst vb_end) = GREEN /\
  verified_boot false vb_info (fst vb_end) (SecureLog (snd vb_end)).
Proof.
  assert (LoadImageAndAuth vb_info vb_demo_state = Some ((fst vb_end, Done EFI_SUCCESS), snd vb_end)) as H
    by (vm_compute; reflexivity).
  split; [exact H|]. split; [vm_compute; reflexivity|].
  exact (LoadImageAndAuth_verified vb_info vb_demo_state (fst vb_end) (snd vb_end) eq_refl H).
Defined.
End demo.
