(* ===== verification/LinuxLoader.v ===== *)
(** * The entry of the boot loader.

    [Platforms/QcomModulePkg/Application/LinuxLoader/LinuxLoader.c], up to where it hands
    over to [BootLinux] or to [FastbootInitialize], [GetVmData] of
    [Library/BootLib/HypervisorMvCalls.c], which the entry calls first, and the stack
    without EFI_KERNEL_PROTOCOL of [Library/BootLib/ThreadStack.c].  Time stamps, the stack
    guard, and the wait for a display, of which the default build has none, are left out. *)
From stdpp Require Import base numbers list option strings.
From Stdlib Require Import ZArith Lia Ascii.
From S2P Require Import Prelude BaseLib Unicode Storage Bytes Gpt Partitions Slots Flash DeviceInfo Recovery Board BootImage CmdLine AvbOps SecureWorld VerifiedBoot.
Local Open Scope Z_scope.

(** ** The reset reason *)
Class ResetReason := {
  LocateResetReason : EFI_STATUS;
  GetResetReason : Z
}.
Inductive RebootReasonType :=
| NORMAL_MODE | RECOVERY_MODE | FASTBOOT_MODE | ALARM_BOOT | DM_VERITY_LOGGING | DM_VERITY_ENFORCING
| DM_VERITY_KEYSCLEAR | OTHER_REASON.
#[export] Instance RebootReasonType_eq_dec : EqDecision RebootReasonType.
Proof. solve_decision. Defined.
Definition reboot_reason (z : Z) : RebootReasonType :=
  if z =? 0 then NORMAL_MODE else if z =? 1 then RECOVERY_MODE else if z =? 2 then FASTBOOT_MODE else
  if z =? 3 then ALARM_BOOT else if z =? 4 then DM_VERITY_LOGGING else if z =? 5 then DM_VERITY_ENFORCING else
  if z =? 6 then DM_VERITY_KEYSCLEAR else OTHER_REASON.
Definition BOOT_LOADER_MAX_UNSAFE_STACK_SIZE : Z := 2 ^ 17.

Definition HYP_INFO_GET_HYP_DTB_ADDRESS_ID : Z := TZ_SYSCALL_CREATE_SMC_ID TZ_OWNER_SIP TZ_SVC_INFO 0x09.

(** ** State: the loader, the board, the static variables of the application and those of
    HypervisorMvCalls.c, with which [BootLinux] goes on ([linux_state] has them too). *)
Record app := mk_app {
  AppVb : vb_state;
  AppBoard : board_state;
  ReasonAlarm : bool;
  IntoFastboot : bool;
  IntoRecovery : bool;
  AppVmEnabled : bool;
  AppHypInfo : Z
}.
Definition set_Vb x a :=
  mk_app x (AppBoard a) (ReasonAlarm a) (IntoFastboot a) (IntoRecovery a) (AppVmEnabled a) (AppHypInfo a).
Definition set_Board x a :=
  mk_app (AppVb a) x (ReasonAlarm a) (IntoFastboot a) (IntoRecovery a) (AppVmEnabled a) (AppHypInfo a).
Definition set_ReasonAlarm x a :=
  mk_app (AppVb a) (AppBoard a) x (IntoFastboot a) (IntoRecovery a) (AppVmEnabled a) (AppHypInfo a).
Definition set_IntoFastboot x a :=
  mk_app (AppVb a) (AppBoard a) (ReasonAlarm a) x (IntoRecovery a) (AppVmEnabled a) (AppHypInfo a).
Definition set_IntoRecovery x a :=
  mk_app (AppVb a) (AppBoard a) (ReasonAlarm a) (IntoFastboot a) x (AppVmEnabled a) (AppHypInfo a).
Definition set_AppVm enabled info a :=
  mk_app (AppVb a) (AppBoard a) (ReasonAlarm a) (IntoFastboot a) (IntoRecovery a) enabled info.
Abbreviation APP := (M app).
Definition vbA {A} (m : V A) : APP A := fun a =>
  match m (AppVb a) with Some (x, v) => Some (x, set_Vb v a) | None => None end.
Definition boardA {A} (m : BD A) : APP A := fun a =>
  match m (AppBoard a) with Some (x, b) => Some (x, set_Board b a) | None => None end.
Definition loaderA {A} (m : LD A) : APP A := vbA (loaderV m).
Definition storageA {A} (m : B A) : APP A := vbA (storageV m).

(** Where the entry ends: it returns, starts Fastboot, boots images, or the device is off. *)
Inductive launch := Stop (Status : EFI_STATUS) | StartFastboot | StartLinux (Info : BootInfo) | PowerOff.

Section linux_loader.
Context {FW : Firmware} {BL : BaseLib} {UL : UnicodeLib} {AL : AsciiLib} {AC : AsciiCatLib}.
Context {BC : BuildConfig} {LB : LoaderBuild} {VB : VerifiedBootProtocol} {BM : BootMode}.
Context {BP : BoardProtocols} {BK : BootBuild} {QP : BootProtocols} {LP : LabelledPartitions}.
Context {SW : SecureWorld} {AV : Libavb} {VC : VerifiedBootCalls} {RR : ResetReason}.

Definition MdtpDisable : EFI_STATUS :=
  if negb EnableMdtpSupport then EFI_SUCCESS else
  let (Status, MdtpActive) := IsMdtpActive in
  if EFI_ERROR Status then Status else
  if MdtpActive : bool then if EFI_ERROR LocateMdtp then LocateMdtp else MdtpDeactivate else Status.
(** A status that is returned as a byte. *)
Definition status_of_byte (Status : EFI_STATUS) : EFI_STATUS :=
  match u8 (status_u32 Status) with Zpos p => EFI_WARNING p | _ => EFI_SUCCESS end.
(** Status and reason, [NORMAL_MODE] when it is not told. *)
Definition GetRebootReason : EFI_STATUS * Z :=
  if negb (is_success LocateResetReason) then (status_of_byte LocateResetReason, 0)
  else (status_of_byte EFI_SUCCESS, GetResetReason).
(** Without EFI_KERNEL_PROTOCOL. *)
Definition InitThreadUnsafeStack : EFI_STATUS :=
  if PoolAvailable 0 BOOT_LOADER_MAX_UNSAFE_STACK_SIZE then EFI_SUCCESS else EFI_OUT_OF_RESOURCES.

(** The status with which the entry stops, if it does. *)
Definition handle_reason (BootReason : Z) : APP (option EFI_STATUS) :=
  let checked Status := if is_success Status then None else Some Status in
  match reboot_reason BootReason with
  | FASTBOOT_MODE => _ ← modify (set_IntoFastboot true); mret None
  | RECOVERY_MODE => _ ← modify (set_IntoRecovery true); mret None
  | ALARM_BOOT => _ ← modify (set_ReasonAlarm true); mret None
  | DM_VERITY_ENFORCING => Status ← loaderA (EnableEnforcingMode true); mret (checked Status)
  | DM_VERITY_LOGGING =>
    if EFI_ERROR MdtpDisable && negb (bool_decide (MdtpDisable = EFI_NOT_FOUND)) then mret (Some MdtpDisable) else
    Status ← loaderA (EnableEnforcingMode false); mret (checked Status)
  | DM_VERITY_KEYSCLEAR => mret (checked ResetDeviceState)
  | NORMAL_MODE | OTHER_REASON => mret None
  end.
(** The flags of the application as the other components see them. *)
Definition app_mode (charging : bool) (a : app) : BootMode := {|
  IsFlashSplitNeeded := Partitions.IsFlashSplitNeeded; BootDevImage := Partitions.BootDevImage;
  BatteryStatus := snd (TargetPauseForBatteryCharge 0); IsChargingScreenEnable := charging;
  BootIntoFastboot := IntoFastboot a; BootIntoRecovery := IntoRecovery a |}.
Definition load_and_boot (MultiSlotBoot : bool) : APP launch :=
  recovery ← gets IntoRecovery;
  alarm ← gets ReasonAlarm;
  charging ← loaderA ChargingScreenEnabled;
  a ← gets (fun a => a);
  r ← vbA (LoadImageAndAuth (BM := app_mode charging a)
             (mk_info MultiSlotBoot recovery alarm [] [] GREEN None None 0));
  let (Info, o) := r : BootInfo * outcome in
  mret (match o with
        | ShutDown => PowerOff
        | Done Status => if is_success Status then StartLinux Info else StartFastboot
        end).
(** The data of the hypervisor, 0 for NULL.  The call is made until it gives an address. *)
Definition GetVmData : APP Z :=
  enabled ← gets AppVmEnabled;
  if enabled : bool then gets AppHypInfo else
  if EFI_ERROR LocateScm then mret 0 else
  r ← vbA (sip_call HYP_INFO_GET_HYP_DTB_ADDRESS_ID []);
  let (Status, Results) := r : EFI_STATUS * list Z in
  if EFI_ERROR Status then mret 0 else
  let Address_ := result_word 1 Results in
  _ ← modify (set_AppVm false Address_);
  if Address_ =? 0 then mret 0 else
  _ ← modify (set_AppVm true Address_);
  mret Address_.
(** The part behind the reset reason.  That the hypervisor has no data is only printed. *)
Definition choose_boot (MultiSlotBoot : bool) : APP launch :=
  recovery ← gets IntoRecovery;
  r ← loaderA (RecoveryInit recovery);
  _ ← modify (set_IntoRecovery (snd r));
  Status ← boardA BoardInit;
  if negb (is_success Status) then mret (Stop Status) else
  _ ← GetVmData;
  fastboot ← gets IntoFastboot;
  if negb fastboot then load_and_boot MultiSlotBoot else mret StartFastboot.
Definition LinuxLoaderEntry : APP launch :=
  if negb (is_success InitThreadUnsafeStack) then mret (Stop InitThreadUnsafeStack) else
  Status ← loaderA DeviceInfoInit;
  if negb (is_success Status) then mret (Stop Status) else
  Status ← storageA EnumeratePartitions;
  if EFI_ERROR Status then mret (Stop Status) else
  _ ← storageA UpdatePartitionEntries;
  MultiSlotBoot ← storageA (PartitionHasMultiSlot (bytes "boot"));
  _ ← (if MultiSlotBoot : bool then storageA FindPtnActiveSlot else mret tt);
  _ ← modify (set_IntoFastboot true);
  let (Status, BootReason) := GetRebootReason in
  if negb (is_success Status) then mret (Stop Status) else
  stop ← handle_reason BootReason;
  match stop with
  | Some Status => mret (Stop Status)
  | None => choose_boot MultiSlotBoot
  end.
End linux_loader.
