(* ===== verification/LinuxLoaderSpec.v ===== *)
(** * Where the boot loader ends up.

    LinuxLoader.v: since the flag for Fastboot is set without a condition, the entry starts
    Fastboot or stops with an error; it loads no image, and all it sends is the question
    where the data of the hypervisor is. *)
From stdpp Require Import base numbers list option strings.
From Stdlib Require Import ZArith Lia Ascii.
From S2P Require Import Prelude BaseLib Unicode Storage Bytes Gpt BootLinux BootLinuxSpec Partitions Slots Flash DeviceInfo Recovery Board BoardDemo StorageSpec SlotsSpec FastbootDemo BootImage CmdLine AvbOps SecureWorld VerifiedBoot VerifiedBootSpec LinuxLoader.
Local Open Scope Z_scope.

Definition app_dev (a : app) : DeviceInfo := DevInfo (VbLoader (AppVb a)).
Definition app_log (a : app) : list secure_event := SecureLog (AppVb a).
(** What a step must not touch: device information, messages, and the flag for Fastboot. *)
Definition quiet (a a' : app) : Prop := app_dev a' = app_dev a /\ app_log a' = app_log a /\ IntoFastboot a' = IntoFastboot a.
#[export] Instance quiet_refl : Reflexive quiet.
Proof. done. Qed.
#[export] Instance quiet_trans : Transitive quiet.
Proof. intros a b c (?&?&?) (?&?&?). unfold quiet. split_and!; congruence. Qed.

Lemma loaderA_run {A} (m : LD A) a x a' :
  loaderA m a = Some (x, a') ->
  exists l, m (VbLoader (AppVb a)) = Some (x, l) /\ a' = set_Vb (mk_vb_state l (SecureLog (AppVb a))) a.
Proof.
  unfold loaderA, vbA, loaderV. destruct (m (VbLoader (AppVb a))) as [[y l]|]; [|done].
  intros [= <- <-]. by exists l.
Qed.
Lemma loaderA_quiet {A} (m : LD A) a x a' : keeps_dev m -> loaderA m a = Some (x, a') -> quiet a a'.
Proof. intros Hm (l & E & ->)%loaderA_run. apply Hm in E. done. Qed.
Lemma storageA_quiet {A} (m : B A) a x a' : storageA m a = Some (x, a') -> quiet a a'.
Proof. apply (loaderA_quiet (lift m)), keeps_dev_lift. Qed.
Lemma boardA_quiet {A} (m : BD A) a x a' : boardA m a = Some (x, a') -> quiet a a'.
Proof. unfold boardA. destruct (m (AppBoard a)) as [[y b]|]; [by intros [= _ <-]|done]. Qed.

Section spec.
Context {FW : Firmware} {BL : BaseLib} {UL : UnicodeLib} {AL : AsciiLib} {AC : AsciiCatLib}.
Context {BC : BuildConfig} {LB : LoaderBuild} {VB : VerifiedBootProtocol} {BM : BootMode}.
Context {BP : BoardProtocols} {BK : BootBuild} {QP : BootProtocols} {LP : LabelledPartitions}.
Context {SW : SecureWorld} {AV : Libavb} {VC : VerifiedBootCalls} {RR : ResetReason}.

Ltac keeps_dev :=
  repeat match goal with
  | |- keeps_dev (_ ≫= _) => apply keeps_dev_bind; [|intros ?]
  | |- keeps_dev (lift _) => apply keeps_dev_lift
  | |- keeps_dev misc_guid => apply misc_guid_dev
  | |- keeps_dev crash => done
  | |- keeps_dev (let (_, _) := ?x in _) => destruct x
  | |- keeps_dev (if ?b then _ else _) => destruct b
  | |- keeps_dev (match ?x with _ => _ end) => destruct x
  | |- keeps_dev (access ?o) => apply keeps_dev_pure; intros ? ? ?; unfold access; by destruct o; [intros [= _ <-]|]
  | |- keeps_dev _ => apply keeps_dev_pure; by intros ? ? ? [= _ <-]
  end.
Lemma RecoveryInit_dev b : keeps_dev (RecoveryInit b).
Proof. unfold RecoveryInit, read_recovery. cbv zeta. keeps_dev. Qed.

(** ** The steps *)
Lemma DeviceInfoInit_unlocks l :
  FirstReadDevInfo l = true ->
  DeviceInfoInit l = Some (EFI_SUCCESS, set_FirstReadDevInfo false (set_DevInfo (first_dev_info (DevInfo l)) l)).
Proof.
  intros Hf. unfold DeviceInfoInit, change_dev, dev. run. rewrite Hf. run.
  cbn [DevInfo set_FirstReadDevInfo set_DevInfo first_dev_info dev_magic].
  rewrite bool_decide_eq_true_2 by reflexivity. done.
Qed.
Lemma EnableEnforcingMode_run b l :
  exists d, EnableEnforcingMode b l = Some (EFI_SUCCESS, set_DevInfo d l) /\
    is_unlocked d = is_unlocked (DevInfo l) /\ verity_mode d = b.
Proof.
  unfold EnableEnforcingMode, IsEnforcing, change_dev, dev. run.
  destruct (decide (verity_mode (DevInfo l) = b)) as [<-|Hn].
  - rewrite bool_decide_eq_true_2 by done. exists (DevInfo l). by destruct l.
  - rewrite bool_decide_eq_false_2 by done. by exists (set_verity_mode b (DevInfo l)).
Qed.
(** The mode of dm-verity after the reset reason was handled. *)
Definition reason_mode (r : RebootReasonType) (old : bool) : bool :=
  match r with DM_VERITY_ENFORCING => true | DM_VERITY_LOGGING => false | _ => old end.
Definition handled (z : Z) (a : app) (stop : option EFI_STATUS) (a' : app) : Prop :=
  app_log a' = app_log a /\ is_unlocked (app_dev a') = is_unlocked (app_dev a) /\
  (IntoFastboot a = true -> IntoFastboot a' = true) /\
  match stop with
  | Some St => St <> EFI_SUCCESS
  | None => verity_mode (app_dev a') = reason_mode (reboot_reason z) (verity_mode (app_dev a))
  end.
Lemma enforcing_handled z b a stop a' :
  (forall old, reason_mode (reboot_reason z) old = b) ->
  (Status ← loaderA (EnableEnforcingMode b); mret (if is_success Status then None else Some Status)) a = Some (stop, a') ->
  handled z a stop a'.
Proof.
  intros Hz H. bind_inv H St a1 E. apply loaderA_run in E as (l & E & ->).
  destruct (EnableEnforcingMode_run b (VbLoader (AppVb a))) as (d & E' & Hu & Hv).
  rewrite E' in E. injection E as <- <-. injection H as <- <-. by split_and!; [| | |rewrite Hz].
Qed.
Lemma handle_reason_handled z a stop a' : handle_reason z a = Some (stop, a') -> handled z a stop a'.
Proof.
  unfold handle_reason. cbv zeta. destruct (reboot_reason z) eqn:Er;
    [|..|intros H; apply (enforcing_handled z true); [by rewrite Er|done]| |]; try (intros [= <- <-]; by split_and!; [..|rewrite Er]).
  - case_if; [|intros H; apply (enforcing_handled z false); [by rewrite Er|done]].
    intros [= <- <-]. apply andb_true_iff in E as [E _]. split_and!; [done|done|done|]. intros He. by rewrite He in E.
  - intros [= <- <-]. split_and!; [done|done|done|]. destruct (is_success ResetDeviceState) eqn:E; [by rewrite Er|].
    by apply bool_decide_eq_false in E.
Qed.

(** ** The data of the hypervisor *)
Definition vm_query : secure_event := SipSysCall HYP_INFO_GET_HYP_DTB_ADDRESS_ID [].
(** What is sent for it, and what is known of it then: the address that was answered. *)
Definition vm_queries (a : app) : list secure_event :=
  if AppVmEnabled a || EFI_ERROR LocateScm then [] else [vm_query].
Definition vm_known (log : list secure_event) (a a' : app) : Prop :=
  if AppVmEnabled a || EFI_ERROR LocateScm then AppVmEnabled a' = AppVmEnabled a /\ AppHypInfo a' = AppHypInfo a else
  let (Status, Results) := ScmSipSysCall log HYP_INFO_GET_HYP_DTB_ADDRESS_ID [] in
  if EFI_ERROR Status then AppVmEnabled a' = false /\ AppHypInfo a' = AppHypInfo a
  else AppVmEnabled a' = negb (result_word 1 Results =? 0) /\ AppHypInfo a' = result_word 1 Results.
Definition same_vm (a a' : app) : Prop := AppVmEnabled a' = AppVmEnabled a /\ AppHypInfo a' = AppHypInfo a.
Lemma GetVmData_spec a x a' :
  GetVmData a = Some (x, a') ->
  app_dev a' = app_dev a /\ IntoFastboot a' = IntoFastboot a /\
  app_log a' = app_log a ++ vm_queries a /\ vm_known (app_log a) a a'.
Proof.
  unfold GetVmData, vm_queries, vm_known, app_log, app_dev. intros H. run_in H.
  destruct (AppVmEnabled a) eqn:Ev.
  { run_in H. injection H as _ <-. by rewrite app_nil_r. }
  destruct (EFI_ERROR LocateScm) eqn:Es; [injection H as _ <-; cbn; by rewrite app_nil_r|].
  cbn [orb]. bind_inv H r a1 H1. unfold vbA, sip_call in H1. run_in H1. injection H1 as <- <-.
  destruct (ScmSipSysCall _ _ _) as [Status Results].
  destruct (EFI_ERROR Status); [by injection H as _ <-|]. run_in H.
  destruct (result_word 1 Results =? 0); [by injection H as _ <-|]. run_in H. by injection H as _ <-.
Qed.
Lemma loaderA_vm {A} (m : LD A) a x a' : loaderA m a = Some (x, a') -> same_vm a a'.
Proof. by intros (l & _ & ->)%loaderA_run. Qed.
Lemma boardA_vm {A} (m : BD A) a x a' : boardA m a = Some (x, a') -> same_vm a a'.
Proof. unfold boardA. destruct (m (AppBoard a)) as [[y b]|]; [by intros [= _ <-]|done]. Qed.
Lemma handle_reason_vm z a stop a' : handle_reason z a = Some (stop, a') -> same_vm a a'.
Proof.
  unfold handle_reason. cbv zeta. destruct (reboot_reason z); try (by intros [= _ <-]).
  - case_if; [by intros [= _ <-]|]. intros H. bind_inv H St a1 E1. injection H as _ <-. by eapply loaderA_vm.
  - intros H. bind_inv H St a1 E1. injection H as _ <-. by eapply loaderA_vm.
Qed.

(** Fastboot is started, or the entry stops. *)
Definition only_fastboot (r : launch) : Prop :=
  match r with StartFastboot => True | Stop St => St <> EFI_SUCCESS | _ => False end.
(** A start asks for the data of the hypervisor, a stop for nothing. *)
Definition asked (a : app) (r : launch) (a' : app) : Prop :=
  match r with
  | StartFastboot => app_log a' = app_log a ++ vm_queries a /\ vm_known (app_log a) a a'
  | _ => app_log a' = app_log a
  end.
Lemma asked_after a a1 r a' : app_log a1 = app_log a -> same_vm a a1 -> asked a1 r a' -> asked a r a'.
Proof.
  intros L [V1 V2]. unfold asked, vm_known, vm_queries. by rewrite L, V1, V2.
Qed.
Lemma choose_boot_fastboot multi a r a' :
  IntoFastboot a = true -> choose_boot multi a = Some (r, a') ->
  only_fastboot r /\ asked a r a' /\ app_dev a' = app_dev a.
Proof.
  intros Hf H. unfold choose_boot in H. bind_inv H rec a0 E0. injection E0 as <- <-.
  bind_inv H rr a1 E1. pose proof (loaderA_vm _ _ _ _ E1) as V1.
  apply loaderA_quiet in E1 as (D1 & L1 & F1); [|apply RecoveryInit_dev].
  bind_inv H t a2 E2. injection E2 as _ <-. bind_inv H St a3 E3. pose proof (boardA_vm _ _ _ _ E3) as V3.
  apply boardA_quiet in E3 as (D3 & L3 & F3).
  assert (app_log a3 = app_log a) as HL by (unfold app_log in *; cbn in *; congruence).
  assert (app_dev a3 = app_dev a) as HD by (unfold app_dev in *; cbn in *; congruence).
  assert (same_vm a a3) as HV by (destruct V1, V3; split; cbn in *; congruence).
  case_if_in H. { injection H as <- <-. apply negb_true_iff, bool_decide_eq_false in E. by split_and!. }
  bind_inv H vm a4 E4. apply GetVmData_spec in E4 as (D4 & F4 & L4 & V4).
  bind_inv H f a5 E5. injection E5 as <- <-. cbn [IntoFastboot set_IntoRecovery] in F3.
  rewrite F4, F3, F1, Hf in H. injection H as <- <-.
  split_and!; [done|by apply (asked_after a a3)|congruence].
Qed.

(** C26: the entry of the boot loader, called first, loads no image, whatever the reason
    of the reset: it starts Fastboot, on a device that is unlocked and enforces dm-verity
    only when the reset reason says so, or it stops with an error. Before a stop it sends
    nothing to the secure world; before Fastboot at most one system call, which asks for
    the data of the hypervisor, and it keeps the address that was answered. *)
Theorem LinuxLoaderEntry_fastboot a r a' :
  FirstReadDevInfo (VbLoader (AppVb a)) = true ->
  LinuxLoaderEntry a = Some (r, a') ->
  only_fastboot r /\ asked a r a' /\
  (r = StartFastboot ->
   is_unlocked (app_dev a') = true /\
   verity_mode (app_dev a') = bool_decide (reboot_reason (snd GetRebootReason) = DM_VERITY_ENFORCING)).
Proof.
  intros Hf H. unfold LinuxLoaderEntry in H.
  case_if_in H. { injection H as <- <-. split_and!; [by apply negb_true_iff, bool_decide_eq_false in E|done..]. }
  bind_inv H St a1 E1. pose proof (loaderA_vm _ _ _ _ E1) as V1.
  apply loaderA_run in E1 as (l & E1 & ->). rewrite DeviceInfoInit_unlocks in E1 by done.
  injection E1 as <- <-. change (negb (is_success EFI_SUCCESS)) with false in H. cbv iota in H.
  bind_inv H St a2 E2. pose proof (loaderA_vm _ _ _ _ E2) as V2. apply storageA_quiet in E2 as (D2 & L2 & F2).
  case_if_in H. { injection H as <- <-. split_and!; [intros ->; done|by cbn; rewrite L2|done]. }
  bind_inv H t a3 E3. pose proof (loaderA_vm _ _ _ _ E3) as V3. apply storageA_quiet in E3 as (D3 & L3 & F3).
  bind_inv H multi a4 E4. pose proof (loaderA_vm _ _ _ _ E4) as V4. apply storageA_quiet in E4 as (D4 & L4 & F4).
  bind_inv H t5 a5 E5. assert (quiet a4 a5 /\ same_vm a4 a5) as [(D5 & L5 & F5) V5].
  { destruct multi; [|by injection E5 as _ <-]. split; [by apply storageA_quiet in E5|by eapply loaderA_vm]. }
  bind_inv H t6 a6 E6. injection E6 as _ <-. destruct GetRebootReason as [St6 z] eqn:Er.
  case_if_in H.
  { injection H as <- <-. apply negb_true_iff, bool_decide_eq_false in E1.
    split_and!; [done|unfold asked, app_log in *; cbn in *; congruence|done]. }
  bind_inv H stop a7 E7. pose proof (handle_reason_vm _ _ _ _ E7) as V7.
  apply handle_reason_handled in E7 as (L7 & U7 & F7 & Hs).
  assert (app_log a7 = app_log a) as HL by (unfold app_log in *; cbn in *; congruence).
  assert (same_vm a a7) as HV by (destruct V1, V2, V3, V4, V5, V7; split; cbn in *; congruence).
  destruct stop as [St7|]; [injection H as <- <-; by split_and!|].
  apply choose_boot_fastboot in H as (Ho & L8 & D8); [|by apply F7]. split; [done|].
  split; [by apply (asked_after a a7)|]. intros _.
  assert (is_unlocked (app_dev a5) = true /\ verity_mode (app_dev a5) = false) as [Hu Hv]
    by (unfold app_dev in *; cbn in *; rewrite D5, D4, D3, D2; done).
  rewrite D8. split; [rewrite U7; exact Hu|]. rewrite Hs. change (app_dev (set_IntoFastboot true a5)) with (app_dev a5).
  rewrite Hv. cbn [snd]. by destruct (reboot_reason z).
Qed.
End spec.
(** ** Witness: a device that was reset to enforce dm-verity *)
Section demo.
#[local] Existing Instances demo_Firmware demo_Board reference_BaseLib reference_UnicodeLib reference_AsciiLib
  demo_BuildConfig demo_BootMode demo_LoaderBuild demo_VerifiedBoot vb_AsciiCatLib vb_BootBuild vb_BootProtocols
  vb_Partitions vb_SecureWorld vb_Libavb vb_Calls.
#[local] Instance demo_ResetReason : ResetReason := {| LocateResetReason := EFI_SUCCESS; GetResetReason := 5 |}.
Definition demo_app : app :=
  mk_app (mk_vb_state (mk_loader boot_init zero_dev_info true None) [])
    (mk_board None 0 (mk_board_info (mk_platform 0 0 0 false) 0 [] 0 0 0 0)) false false false false 0.
Definition demo_app_end : app := match LinuxLoaderEntry demo_app with Some (_, a) => a | None => demo_app end.
Lemma LinuxLoaderEntry_fastboot_witness :
  LinuxLoaderEntry demo_app = Some (StartFastboot, demo_app_end) /\
  only_fastboot StartFastboot /\ app_log demo_app_end = [vm_query] /\
  AppVmEnabled demo_app_end = true /\ AppHypInfo demo_app_end = 0x40 /\
  (StartFastboot = StartFastboot -> is_unlocked (app_dev demo_app_end) = true /\ verity_mode (app_dev demo_app_end) = true).
Proof.
  assert (LinuxLoaderEntry demo_app = Some (StartFastboot, demo_app_end)) as H by (vm_compute; reflexivity).
  destruct (LinuxLoaderEntry_fastboot demo_app StartFastboot demo_app_end eq_refl H) as (Ho & [L [V I]] & Hs).
  split; [exact H|]. split; [exact Ho|]. split; [exact L|]. split; [exact V|]. split; [exact I|exact Hs].
Defined.
End demo.
